(* ===== verification/_CoqProject ===== *)
-Q . S2P
Prelude.v
JsString.v
JsMap.v
Solana.v
Bytes.v
Subscriptions.v
Squads.v
Protocols.v
Registry.v
Sdk.v
PreparedWire.v
EarnMax.v
EarnWire.v
Lighthouse.v
Voltr.v
Json.v
DepositQuote.v
VoltrPlans.v
F64.v
Earnings.v
Amounts.v
Autodeposit.v
RpcQueue.v
RpcFetch.v
RealtimeEvents.v
Sse.v
RealtimeClient.v
Realtime.v
RefreshPlan.v
Reconciliation.v
Settlement.v
Coordinator.v
Lifecycle.v
EarningsCalendar.v
EarningsReport.v
MessageCompile.v
Pda.v
Kamino.v
Holdings.v
FullExit.v
WithdrawInput.v
ConfirmContracts.v
GeneratedValues.v
PolicySecurity.v
ClientPolicies.v
KaminoApi.v
NativeSol.v
TransactionProof.v
EarnConfirm.v
PolicyRefund.v
AutodepositSetup.v
AutodepositLoop.v
VaultCleanup.v
