(* ===== verification/Prelude.v ===== *)
(** * Loyal yield routing: policies, Earn operations, accounting and the live view

    This library models the parts of the repository's TypeScript that decide where funds
    may move, what is signed, what is shown and when it is read again, and proves what makes
    them correct. Code is translated to executable definitions; a JavaScript exception is a
    value of [result]; a [bigint] is a [Z]; a [number] is a [Z] with its safe range written out
    or, in the earnings code, an IEEE double (F64.v); a byte array is a list of [Z] in [0, 255].
    Asynchronous code is cut at its awaits: each piece is one step on the state of the object,
    shared objects live in stores and are named by their index, and what other pieces do in
    between is any sequence of steps (a step relation, closed by [rtc]).

    ** The program and its parts

    A user's funds live in a smart account (Squads). The SDK installs policies: lists of
    constraints that say which instructions a delegated signer may run from a vault. The
    Earn product deposits through such policies, sweeps a wallet's surplus on a schedule
    and, for Earn MAX, deposits into a third-party vault under quotes and consents. Prepared operations
    travel as JSON between server and client. An accounting component computes what was
    earned. The browser sends RPC requests through a rate limiter, waits for the settlement of what it
    sent, and follows a stream of events that say what to read again. The files, in dependency
    order (paths under src/web/packages unless given):

    - Prelude.v: [result], loops that may throw, integers, little-endian bytes; the tactics
      [simpl_bind] and [inv_results].
    - JsString.v: strings: [trim], [BigInt(string)], [toString], [padStart], JSON and base64 text.
    - JsMap.v: [Map] and [Set] in insertion order.
    - Solana.v: interfaces to @solana/web3.js and @solana/spl-token ([PublicKeys],
      [PublicKeyLaws], [SplToken]) and a concrete instance, [DemoKeys].
    - Bytes.v: loyal-actions/src/internal/bytes.ts ([BytesEncoder]), with decoders and the
      [codec] relation the round trips rest on.
    - Subscriptions.v: loyal-actions/src/subscriptions.ts, recurring delegations.
    - Squads.v: loyal-actions/src/internal/squads.ts, the constraint language, its key table,
      the two encodings, the instructions that create and update a policy.
    - Protocols.v: loyal-actions/src/internal/protocols.ts, the constraints for Kamino,
      Jupiter, the Loyal hub and subscription sweeps.
    - Registry.v: loyal-actions/src/constants.ts and cluster.ts, clusters, mints, markets.
    - Sdk.v: loyal-actions/src/sdk.ts, validation and the plan of every kind of policy.
    - EarnMax.v: loyal-actions/src/earn-max.ts, the topology of Earn MAX, its three policies and
      their installation.
    - PreparedWire.v, EarnWire.v: smart-account-vaults/src/wire/, prepared operations as
      JSON values and back.
    - Lighthouse.v: smart-account-vaults/src/voltr/lighthouse.ts, assertion instructions.
    - Voltr.v: voltr/program.ts, the vault's accounts, fee and price arithmetic, positions.
    - Json.v: values of type [unknown], property access, the [in] operator.
    - DepositQuote.v: voltr/deposit-quote.ts, quotes from the server.
    - VoltrPlans.v: voltr/plans.ts, the plans for deposits, withdrawal requests and claims, and consents.
    - F64.v, Earnings.v, EarningsCalendar.v, EarningsReport.v:
      web/apps/web/src/lib/yield-optimization/earnings-calculator.server.ts, the principal and
      the windows, the days and months of a time zone, the report.
    - Amounts.v: smart-account-vaults/src/spending-limits.ts and the stable-swap planner
      src/features/yield-routing/domain/swap-lanes.ts of the repository's root.
    - Autodeposit.v: shared/src/earn-autodeposit-loaded-state.ts.
    - RpcQueue.v, RpcFetch.v: web/apps/web/src/lib/solana/rpc-rate-limit.ts, the queue with its
      window, retries and recovery probes; shared and cached reads.
    - RealtimeEvents.v, Sse.v, RealtimeClient.v, Realtime.v, Lifecycle.v: web/apps/web/src/features/earn-realtime,
      messages, the event stream, the batcher and the cursor, their composition, the
      connection loop.
    - Reconciliation.v: earn-realtime/mutation-reconciliation.ts, which reads the events of one's own
      mutations already cover.
    - RefreshPlan.v: web/apps/web/src/features/smart-accounts/refresh-plan.ts, order and sharing of reads.
    - Coordinator.v: web/apps/web/src/features/realtime-sync/resource-refresh-coordinator.ts.
    - Settlement.v: web/apps/web/src/lib/solana/confirm-sent-transaction.ts.
    - MessageCompile.v: loyal-smart-accounts-core/src/utils (compiled-keys.ts, compileToSynchronousMessage*.ts,
      compileToWrappedMessageV0.ts), messages of a smart account and the accounts of their execution.
    - Pda.v: loyal-smart-accounts-core/src/core/pda, spec/pda-registry.ts and core/codecs/primitives.ts, derived addresses.
    - Kamino.v: the account parsers and reserve arithmetic of smart-account-vaults/src/client.ts.
    - Holdings.v: smart-account-vaults/src/earn (product-mints.ts, position-display.ts, rpc-holdings.ts), the snapshot of a vault.
    - FullExit.v: web/apps/web/src/lib/yield-optimization/earn-full-exit-zero-proof.server.ts, the inventory of a vault
      (client.ts) and earn/withdraw-sources.ts.
    - WithdrawInput.v: earn-withdraw-prepare-contracts.shared.ts and earn-withdraw-input-resolution.server.ts, from a
      request to the input of a withdrawal.
    - ConfirmContracts.v: earn-confirm-contracts.shared.ts, the bodies of confirmations.
    - GeneratedValues.v, PolicySecurity.v: decoded values and their canonical text (client.ts), and
      smart-account-vaults/src/program-interaction-policy-security.ts, the comparison of policies.
    - ClientPolicies.v: client.ts, the policies the client asks for, the Kamino instructions it builds
      itself, and the policy it finds for a vault.
    - KaminoApi.v: client.ts, instructions read from Kamino's API, their checks and the cache of answers.
    - NativeSol.v: client.ts, the SOL an operation needs.
    - TransactionProof.v, EarnConfirm.v: earn-deposit-confirm.server.ts, earn-withdraw-confirm.server.ts,
      earn-withdraw-proof.shared.ts and earn-cleanup-confirm.server.ts, what a confirmation is accepted on.
    - PolicyRefund.v: earn-policy-refund-state.server.ts and earn-policy-refund.server.ts, what may be closed and refunded.
    - AutodepositSetup.v: client.ts, the stages of an Autodeposit setup, the check of its artifacts, the pull, the close.
    - AutodepositLoop.v: web/apps/mobile/src/lib/solana/earn/autodeposit.ts, the rounds of a setup.
    - VaultCleanup.v: client.ts, the instructions that empty a vault, the clean-up and the refund of its accounts.
    Components meet at interfaces: everything that handles keys is written against the
    class [PublicKeys] and proved from [PublicKeyLaws]; policies go from Protocols.v
    through Sdk.v and EarnMax.v to Squads.v as lists of [InstructionConstraint]; VoltrPlans.v uses the
    instructions of Voltr.v and the assertions of Lighthouse.v, and takes RPC answers and
    clock readings as arguments; Realtime.v runs the batcher and the cursor of
    RealtimeClient.v on the streams of Sse.v; the report of EarningsReport.v uses a time zone through
    [RegularZone], which zones with a clock change inside a day satisfy; FullExit.v, WithdrawInput.v and PolicyRefund.v
    read a vault through Holdings.v, which is written against [KeyBytes] and [TokenLayouts], the constructor of keys
    from bytes and the layout of token accounts. The generated builders of smart-account instructions, the builders of the
    token program and the decoders of its accounts are the class [ClientBuilders] of AutodepositSetup.v; AutodepositLoop.v runs its
    operations against a world whose chain they land on. What the chain's own programs do is never fixed: the policy program is
    [PolicyProgram] of ClientPolicies.v, which admits what meets the fields of a constraint, and the token and system programs
    are [TokenPrograms] of VaultCleanup.v, with laws on the ledger that ordinary accounts show.

    ** What is shown

    - Policies: bytes of a created or updated policy read back as exactly the policy that was
      asked for, in both encodings; the key table is duplicate-free, resolves, and overflows
      exactly above 240 keys; sweep constraints pin everything of the SDK's own transfer data but
      the amount, and nothing after them.
    - Plans of the SDK: a plan exists exactly for valid inputs; its routes and persisted
      lanes designate the constraints they are named after; the two cross-mint policies
      cover each mint once; a vault's plan authorises the vault of that index.
    - Earn MAX: the swap policy admits exactly the intended pairs of custodies; the manifest's
      policies read back; an installation plan adds exactly what is missing. A deposit goes through exactly under
      an accepted, unexpired quote, between assertions that read back as the certified basis; a claim never pays below the
      approved minimum; the consent message determines the consent; bounds of fee, price
      and locked-profit arithmetic; quotes parse exactly when valid.
    - Wire formats: serialising then hydrating gives the operation back.
    - Earnings: events are ordered by evidence or refused; indexed look-ups equal linear
      ones; the principal is the replay of the confirmed events; windows are integrated
      over segments on which everything is constant; the buckets of a chart partition time up
      to now; the totals of a report agree with its bars, and it fails only on a broken history.
    - Autodeposit, limits and labels: sweeps shown stay within the surplus; limits reset on
      time; a label is worth its amount; swap lanes spend exactly their input.
    - RPC: no more requests in a window than allowed; every request is queued, in flight or answered;
      the queue moves; a single probe during recovery; attempts are bounded; an answer
      served from a cache is that of the same request and fresh.
    - Live view: the parser of the stream does not depend on chunking; events arrive in order; the
      cursor never passes an event that was not accounted for; every event received is tracked; a refresh or an
      invalidation settles only after a read that began after it, outside one window that is
      a finding (and, for an invalidation, registrations that handle it in flight themselves); a mutation's fallback reads exactly what nothing else read; reconnections back off.
    - Settlement: an outcome is only reported from a status that says it, and polling ends.
    - Messages and addresses: a compiled message reads back as the instructions compiled; an execution lists every account once
      with the rights they need; different derivations hash different bytes, a vault and a policy possibly apart.
    - The vault on chain: obligations parse exactly when they are ones; the collateral computed for an
      amount is the least that redeems to it; a snapshot shows the whole of what the chain holds, from at most two calls; a full exit is
      declared complete only on evidence.
    - Withdrawals: a resolved withdrawal runs under an active policy and never takes more than the chain shows; a
      request is decided by its source, with an error for each way to fail; what a device reads determines the
      withdrawal; what the server records is what was prepared.
    - The client: the policies it installs let through what the SDK plans, with the mint of withdrawals left open, which is a
      finding; its own Kamino instructions pass them; a withdrawal from Kamino's API is used only when it is the one
      asked for; cached answers are fresh, bounded and shared until they expire, fail or are evicted; the policy found for a vault is the best one; the SOL asked for is what is
      needed; two policies compare equal exactly when they agree in every field, limits mint by mint.
    - Confirmations: deposits, withdrawals and clean-ups are accepted only for the session's own accounts, at a
      confirmed slot, for transactions that moved what is recorded.
    - Autodeposit: a new setup, from the threshold and the backend's answer on, runs to its end and leaves artifacts that pass the
      client's check, when reads show the chain and unless session, balance, a send or a confirmation stops it; once they pass, the
      policy lets through every pull the client prepares, when the accounts belong to the programs the policy names. Two states in which the batch or the close refuses
      are findings.
    - Emptying a vault: where the chain shows what was read and its accounts are ordinary, the instructions of a clean-up and of a
      refund succeed, opening the wallet's accounts first, and leave nothing of the vault, with every balance, the SOL and the
      rents in the wallet.
    - Refunds: a policy is closed only when the vault holds nothing but possibly USDC in its token account
      and nothing depends on the policy, a delegation only
      when nothing uses it, except with two Autodeposit policies, which is a finding.

    ** Bounds and fuel

    Loops whose recursion is not structural carry fuel with a proof that it is enough:
    base64 by the length of the text, LEB128 by the binary logarithm of the value plus one (its
    decoder by 16 groups), binary search by the length of the array plus one, for arrays
    below 2^30 elements, the range in which [low + high] is exact and [>>> 1] halves it; the
    dispatch loop by the length of the queue; frames of the stream by the length of the
    buffer; eviction by the size of the cache; the settlement poll by the number of tests its
    deadline and its pace allow. Times are integers of milliseconds or seconds; the
    calendar is proved from 1972 on. Character data is Latin-1; the texts the
    code inspects are ASCII.

    ** What is a parameter, and what is not modelled

    Parameters: [PublicKey] and address derivation, the token helpers and layouts, the programs on chain, RPC answers, the rows
    of the database, the HTTP transport, locale formatting, what [Intl] shows of an instant, [Date.parse], the text of JSON, the
    random jitter and the clock. The laws assumed of
    them are documented behaviour, and a concrete instance satisfies them.

    Not modelled: user interfaces and API routes; repositories whose logic is SQL (but
    for the queries of an active policy, over tables); the preparation of deposits, withdrawals, swaps and transfers in
    smart-account-vaults/src/client.ts, which is asynchronous orchestration of generated builders and HTTP
    services;
    the Rust programs and Go workers; generated code; telemetry; operator scripts; the decoder of instructions and the
    parser of activity for display; reserve rates and forecasts. Of
    modelled files these parts are left out: parsing of decimal text to doubles, countdown and currency labels, the
    writes to the database that follow a confirmation, and the actions of the mobile app that only call the backend. *)
From stdpp Require Export base list strings numbers gmap sorting.
From Stdlib Require Export ZArith Lia.

#[global] Open Scope Z_scope.

(** * Exceptions and the result monad

    A JavaScript [throw] is a value of [result]: the class of the error object
    and its message (or, for the error classes that carry a [code], that code). *)
Record exn := Exn { exn_name : string; exn_message : string }.

#[export] Instance exn_eq_dec : EqDecision exn.
Proof. solve_decision. Defined.

Inductive result (A : Type) : Type :=
| Ok (a : A)
| Throw (e : exn).
Arguments Ok {A} a.
Arguments Throw {A} e.

#[export] Instance result_eq_dec `{EqDecision A} : EqDecision (result A).
Proof. solve_decision. Defined.

#[export] Instance result_ret : MRet result := @Ok.
#[export] Instance result_bind : MBind result := fun A B f m =>
  match m with Ok a => f a | Throw e => Throw e end.
#[export] Instance result_fmap : FMap result := fun A B f m =>
  match m with Ok a => Ok (f a) | Throw e => Throw e end.

Definition throwError {A} (msg : string) : result A := Throw (Exn "Error" msg).
Definition throwRange {A} (msg : string) : result A := Throw (Exn "RangeError" msg).

Definition is_ok {A} (r : result A) : bool :=
  match r with Ok _ => true | Throw _ => false end.

(** [try { e } catch { handler }] *)
Definition try_catch {A} (e : result A) (handler : exn -> result A) : result A :=
  match e with Ok a => Ok a | Throw x => handler x end.

(** [Array.prototype.map] with a callback that may throw: the callback runs left
    to right and the first exception escapes. *)
Fixpoint mapR {A B} (f : A -> result B) (l : list A) : result (list B) :=
  match l with
  | [] => Ok []
  | x :: l => y ← f x; ys ← mapR f l; Ok (y :: ys)
  end.

(** The images of all elements, when each has one. *)
Fixpoint mapO {A B} (f : A -> option B) (l : list A) : option (list B) :=
  match l with
  | [] => Some []
  | x :: l => match f x, mapO f l with Some y, Some ys => Some (y :: ys) | _, _ => None end
  end.

(** A [for ... of] loop over [l] that threads a state. *)
Fixpoint foldR {A S} (f : S -> A -> result S) (s : S) (l : list A) : result S :=
  match l with
  | [] => Ok s
  | x :: l => s' ← f s x; foldR f s' l
  end.

(** Case analysis on the outermost [result] scrutinee of a hypothesis. *)
Lemma bind_Ok {A B} (m : result A) (f : A -> result B) (b : B) :
  (m ≫= f) = Ok b <-> exists a, m = Ok a /\ f a = Ok b.
Proof.
  destruct m as [a|e]; simpl; split.
  - intros H; exists a; auto.
  - intros (a' & [= ->] & H); exact H.
  - intros [=].
  - intros (a' & [=] & _).
Qed.

Ltac simpl_bind H :=
  let x := fresh "v" in let E := fresh "E" in
  apply bind_Ok in H; destruct H as (x & E & H).

(** Break every [result] bind of the hypotheses into its successful steps. *)
Ltac inv_results :=
  repeat match goal with
  | H : mbind _ _ = Ok _ |- _ => simpl_bind H
  | H : Ok _ = Ok _ |- _ => injection H as H
  | H : mret _ = Ok _ |- _ => injection H as H
  | H : Throw _ = Ok _ |- _ => discriminate H
  | H : throwError _ = Ok _ |- _ => discriminate H
  | H : throwRange _ = Ok _ |- _ => discriminate H
  end.

Lemma mapR_Ok_Forall2 {A B} (f : A -> result B) l l' :
  mapR f l = Ok l' <-> Forall2 (fun x y => f x = Ok y) l l'.
Proof.
  revert l'; induction l as [|x l IH]; intros l'; simpl.
  - split; [intros [= <-]; constructor | intros H; inversion H; auto].
  - split.
    + intros H. inv_results. subst. constructor; [done|]. by apply IH.
    + inversion 1 as [|?? ? ? Hx Hl]; subst. rewrite Hx; simpl.
      apply IH in Hl. by rewrite Hl.
Qed.

Lemma mapR_ok_map {A B} (f : A -> result B) (g : A -> B) l :
  (forall x, x ∈ l -> f x = Ok (g x)) -> mapR f l = Ok (map g l).
Proof.
  induction l as [|x l IH]; intros H; simpl; [done|].
  rewrite (H x) by set_solver; simpl. rewrite IH by set_solver. done.
Qed.

Lemma mapR_map {A B C} (f : B -> result C) (g : A -> B) l :
  mapR f (map g l) = mapR (fun x => f (g x)) l.
Proof. induction l as [|x l IH]; simpl; [done|]. by rewrite IH. Qed.

Lemma mapO_Forall2 {A B} (f : A -> option B) l l' :
  mapO f l = Some l' <-> Forall2 (fun x y => f x = Some y) l l'.
Proof.
  revert l'; induction l as [|x l IH]; intros l'; simpl.
  - split; [intros [= <-]; constructor | intros H; inversion H; auto].
  - split.
    + destruct (f x) as [y|] eqn:E, (mapO f l) as [ys|]; try discriminate.
      intros [= <-]. constructor; [done|]. by apply IH.
    + inversion 1 as [|?? ? ? Hx Hl]; subst. apply IH in Hl. by rewrite Hx, Hl.
Qed.

Lemma mapO_map {A B C} (f : B -> option C) (g : A -> B) l :
  mapO f (map g l) = mapO (fun x => f (g x)) l.
Proof. induction l as [|x l IH]; simpl; [done|]. by rewrite IH. Qed.

Lemma mapO_all {A B} (f : A -> option B) (g : A -> B) l :
  (forall x, x ∈ l -> f x = Some (g x)) -> mapO f l = Some (map g l).
Proof.
  induction l as [|x l IH]; intros H; simpl; [done|].
  rewrite (H x) by set_solver. by rewrite IH by set_solver.
Qed.

Lemma map_ext_id {A} (f : A -> A) l : (forall x, f x = x) -> map f l = l.
Proof. intros H. induction l as [|x l IH]; simpl; [done|]. by rewrite H, IH. Qed.

(** A serialised list is read back by [mapR] when each element is. *)
Lemma mapR_roundtrip {A B} (ser : A -> B) (hyd : B -> result A) l :
  (forall x, x ∈ l -> hyd (ser x) = Ok x) -> mapR hyd (map ser l) = Ok l.
Proof.
  intros H. rewrite mapR_map.
  rewrite (mapR_ok_map _ id) by done. f_equal. apply list_fmap_id.
Qed.

(** The slice of a concatenation that is its middle part. *)
Lemma slice_app {A} (l1 l2 l3 : list A) n :
  length l1 = n -> take (length l2) (drop n (l1 ++ l2 ++ l3)) = l2.
Proof. intros <-. by rewrite drop_app_length, take_app_length. Qed.

(** * Integers

    [number] bit operations work on ToInt32 of their operand; [bigint] ones on
    the infinite two's complement representation, which is [Z]'s. *)
Definition U64_MAX : Z := Z.shiftl 1 64 - 1.
Definition I64_MIN : Z := - Z.shiftl 1 63.
Definition I64_MAX : Z := Z.shiftl 1 63 - 1.
Definition MAX_SAFE_INTEGER : Z := 2 ^ 53 - 1.

Definition isSafeInteger (z : Z) : bool :=
  (- MAX_SAFE_INTEGER <=? z) && (z <=? MAX_SAFE_INTEGER).

Definition to_int32 (z : Z) : Z :=
  let m := z mod 2 ^ 32 in if m <? 2 ^ 31 then m else m - 2 ^ 32.

Definition is_u64 (z : Z) : Prop := 0 <= z <= U64_MAX.
Definition is_i64 (z : Z) : Prop := I64_MIN <= z <= I64_MAX.

Lemma U64_MAX_val : U64_MAX = 2 ^ 64 - 1.
Proof. reflexivity. Qed.

Lemma land_255 z : Z.land z 255 = z mod 256.
Proof. change 255 with (Z.ones 8). by rewrite Z.land_ones. Qed.

Lemma to_int32_mod z n : 0 <= n <= 32 -> to_int32 z mod 2 ^ n = z mod 2 ^ n.
Proof.
  intros Hn.
  assert (Hd : exists k, to_int32 z = z + k * 2 ^ n).
  { unfold to_int32. set (m := z mod 2 ^ 32).
    assert (Hm : z = 2 ^ 32 * (z / 2 ^ 32) + m) by (apply Z.div_mod; lia).
    assert (H32 : 2 ^ 32 = 2 ^ (32 - n) * 2 ^ n).
    { rewrite <- Z.pow_add_r by lia. f_equal; lia. }
    destruct (m <? 2 ^ 31).
    - exists (- (z / 2 ^ 32) * 2 ^ (32 - n)).
      rewrite <- Z.mul_assoc, <- H32. lia.
    - exists ((- (z / 2 ^ 32) - 1) * 2 ^ (32 - n)).
      rewrite <- Z.mul_assoc, <- H32. lia. }
  destruct Hd as [k ->]. by rewrite Z_mod_plus_full.
Qed.

Lemma to_int32_small z : 0 <= z < 2 ^ 31 -> to_int32 z = z.
Proof.
  intros H. unfold to_int32. rewrite Z.mod_small by lia.
  destruct (z <? 2 ^ 31) eqn:E; [done|]. apply Z.ltb_ge in E. lia.
Qed.

(** * Little-endian bytes

    A byte is a [Z] in [0, 255]; a [Uint8Array] or [Buffer] is a [list Z]. *)
Definition is_byte (z : Z) : Prop := 0 <= z < 256.

Fixpoint le_bytes (n : nat) (z : Z) : list Z :=
  match n with
  | O => []
  | S n => z mod 256 :: le_bytes n (z / 256)
  end.

Fixpoint le_value (bs : list Z) : Z :=
  match bs with
  | [] => 0
  | b :: bs => b + 256 * le_value bs
  end.

Lemma le_bytes_length n z : length (le_bytes n z) = n.
Proof. revert z; induction n; intros; simpl; auto. Qed.

Lemma le_bytes_bytes n z : Forall is_byte (le_bytes n z).
Proof.
  revert z; induction n; intros z; simpl; constructor; auto.
  unfold is_byte. by apply Z.mod_pos_bound.
Qed.

Lemma le_value_bytes n z : le_value (le_bytes n z) = z mod 256 ^ Z.of_nat n.
Proof.
  revert z; induction n as [|n IH]; intros z; cbn [le_bytes le_value].
  - by rewrite Z.mod_1_r.
  - rewrite IH, Nat2Z.inj_succ, Z.pow_succ_r by lia.
    rewrite (Z.rem_mul_r z 256) by lia. lia.
Qed.

Lemma le_value_bytes_small n z :
  0 <= z < 256 ^ Z.of_nat n -> le_value (le_bytes n z) = z.
Proof. intros H. rewrite le_value_bytes. by apply Z.mod_small. Qed.

Lemma le_value_bound bs : Forall is_byte bs -> 0 <= le_value bs < 256 ^ Z.of_nat (length bs).
Proof.
  induction 1 as [|b bs Hb _ IH]; cbn [le_value length]; [lia|].
  rewrite Nat2Z.inj_succ, Z.pow_succ_r by lia. unfold is_byte in Hb. lia.
Qed.

Lemma le_value_app l1 l2 :
  le_value (l1 ++ l2) = le_value l1 + 256 ^ Z.of_nat (length l1) * le_value l2.
Proof.
  induction l1 as [|b l1 IH]; cbn [app le_value length].
  - rewrite Z.pow_0_r. lia.
  - rewrite IH, Nat2Z.inj_succ, Z.pow_succ_r by lia. ring.
Qed.

(** Appending a byte to an infinite two's complement number. *)
Lemma lor_shiftl_8 v b : is_byte b -> Z.lor (Z.shiftl v 8) b = 256 * v + b.
Proof.
  intros Hb. unfold is_byte in Hb.
  assert (Hl : Z.land (Z.shiftl v 8) b = 0).
  { replace b with (b mod 2 ^ 8) by (apply Z.mod_small; lia).
    apply Z.bits_inj'. intros n Hn. rewrite Z.land_spec, Z.bits_0.
    destruct (Z.ltb_spec n 8); [by rewrite Z.shiftl_spec_low|].
    rewrite (Z.mod_pow2_bits_high b 8 n) by lia. apply andb_false_r. }
  rewrite <- Z.lxor_lor, <- Z.add_nocarry_lxor, Z.shiftl_mul_pow2 by (done || lia). lia.
Qed.

Lemma le_bytes_value bs : Forall is_byte bs -> le_bytes (length bs) (le_value bs) = bs.
Proof.
  induction 1 as [|b bs Hb _ IH]; cbn [le_bytes le_value length]; [done|].
  unfold is_byte in Hb.
  rewrite (Z.mul_comm 256), Z_mod_plus_full, (Z.mod_small b) by lia.
  rewrite Z.div_add, (Z.div_small b) by lia.
  by rewrite Z.add_0_l, IH.
Qed.
