(* ===== verification/JsString.v ===== *)
(** Strings and [BigInt] conversions of JavaScript, as the wire formats and the
    amount labels use them: [BigInt.prototype.toString], [BigInt(string)],
    [padStart], the [/\d+/] tests and [btoa]/[atob].

    A JavaScript string is a [string] of 8-bit code units: every string the
    modelled code builds or parses character by character is Latin-1. *)
From Stdlib Require Export Ascii.
From Stdlib Require Import DecimalString DecimalZ DecimalFacts.
From S2P Require Import Prelude.

Notation chars := String.list_ascii_of_string.
Notation unchars := String.string_of_list_ascii.

(** ** Characters *)
Definition char_code (c : ascii) : Z := Z.of_N (N_of_ascii c).
Definition is_digit (c : ascii) : bool := (48 <=? char_code c) && (char_code c <=? 57).
Definition digit_value (c : ascii) : Z := char_code c - 48.

(** The code units [String.prototype.trim] removes, within Latin-1. *)
Definition is_space (c : ascii) : bool :=
  let n := char_code c in
  (n =? 9) || (n =? 10) || (n =? 11) || (n =? 12) || (n =? 13) || (n =? 32) || (n =? 160).

Definition hex_digit (c : ascii) : option Z :=
  let n := char_code c in
  if is_digit c then Some (n - 48)
  else if (97 <=? n) && (n <=? 102) then Some (n - 87)
  else if (65 <=? n) && (n <=? 70) then Some (n - 55)
  else None.

(** ** Decimal numerals *)
Definition dec_value (l : list ascii) : Z :=
  fold_left (fun acc c => 10 * acc + digit_value c) l 0.

(** [/^\d+$/.test(s)] *)
Definition all_digits (l : list ascii) : bool :=
  match l with [] => false | _ => forallb is_digit l end.

Definition bigint_toString (z : Z) : string := NilZero.string_of_int (Z.to_int z).

Fixpoint drop_spaces (l : list ascii) : list ascii :=
  match l with
  | c :: l' => if is_space c then drop_spaces l' else l
  | [] => []
  end.

Definition trim (l : list ascii) : list ascii :=
  rev (drop_spaces (rev (drop_spaces l))).

(** Digits of a [0x], [0o] or [0b] literal: at least one, all below [base]. *)
Fixpoint radix_value (base : Z) (acc : Z) (l : list ascii) : option Z :=
  match l with
  | [] => Some acc
  | c :: l =>
      match hex_digit c with
      | Some d => if d <? base then radix_value base (base * acc + d) l else None
      | None => None
      end
  end.

Definition syntaxError {A} : result A := Throw (Exn "SyntaxError" "Cannot convert to a BigInt").

Definition of_digits (l : list ascii) : result Z :=
  if all_digits l then Ok (dec_value l) else syntaxError.

Definition of_radix (base : Z) (l : list ascii) : result Z :=
  match l with
  | [] => syntaxError
  | _ => match radix_value base 0 l with Some v => Ok v | None => syntaxError end
  end.

(** The base and the digits of a literal with a radix prefix. *)
Definition radix_literal (l : list ascii) : option (Z * list ascii) :=
  match l with
  | z :: p :: l =>
      if negb (Ascii.eqb z "0") then None
      else if Ascii.eqb p "x" || Ascii.eqb p "X" then Some (16, l)
      else if Ascii.eqb p "o" || Ascii.eqb p "O" then Some (8, l)
      else if Ascii.eqb p "b" || Ascii.eqb p "B" then Some (2, l)
      else None
  | _ => None
  end.

(** A signed decimal literal. *)
Definition of_signed (l : list ascii) : result Z :=
  match l with
  | c :: l' =>
      if Ascii.eqb c "-" then v ← of_digits l'; Ok (- v)
      else if Ascii.eqb c "+" then of_digits l'
      else of_digits l
  | [] => syntaxError
  end.

(** [BigInt(s)] for a string [s] (ECMA-262 StringToBigInt). *)
Definition BigInt_of_string (s : string) : result Z :=
  match trim (chars s) with
  | [] => Ok 0
  | l => match radix_literal l with
         | Some (base, ds) => of_radix base ds
         | None => of_signed l
         end
  end.

(** [s.padStart(n, "0")] and [s.replace(/0+$/, "")]. *)
Definition padStart0 (n : nat) (l : list ascii) : list ascii :=
  replicate (n - length l) "0"%char ++ l.

Fixpoint drop_zeros (l : list ascii) : list ascii :=
  match l with
  | "0"%char :: l' => drop_zeros l'
  | _ => l
  end.

Definition strip_trailing_zeros (l : list ascii) : list ascii :=
  rev (drop_zeros (rev l)).

(** ** Lemmas *)
Lemma dec_value_app l1 l2 :
  dec_value (l1 ++ l2) = fold_left (fun acc c => 10 * acc + digit_value c) l2 (dec_value l1).
Proof. unfold dec_value. apply fold_left_app. Qed.

Lemma fold_dec_acc l a :
  fold_left (fun acc c => 10 * acc + digit_value c) l a =
  a * 10 ^ Z.of_nat (length l) + dec_value l.
Proof.
  revert a; induction l as [|c l IH]; intros a; cbn [fold_left length].
  - unfold dec_value; simpl. lia.
  - rewrite IH. unfold dec_value at 2; cbn [fold_left].
    rewrite (IH (10 * 0 + digit_value c)).
    rewrite Nat2Z.inj_succ, Z.pow_succ_r by lia. ring.
Qed.

Lemma dec_value_split l1 l2 :
  dec_value (l1 ++ l2) = dec_value l1 * 10 ^ Z.of_nat (length l2) + dec_value l2.
Proof. by rewrite dec_value_app, fold_dec_acc. Qed.

Lemma of_uint_acc_fold d p :
  Z.pos (Pos.of_uint_acc d p) =
  fold_left (fun acc c => 10 * acc + digit_value c) (chars (NilEmpty.string_of_uint d)) (Z.pos p).
Proof.
  revert p; induction d; intros p;
    cbn -[Z.mul Z.add Pos.add Pos.mul];
    [done|..];
    match goal with IH : forall p, Z.pos (Pos.of_uint_acc _ p) = _ |- _ => rewrite IH end;
    f_equal; unfold digit_value, char_code; simpl (N_of_ascii _); lia.
Qed.

Lemma of_uint_dec_value d :
  Z.of_N (Pos.of_uint d) = dec_value (chars (NilEmpty.string_of_uint d)).
Proof.
  unfold dec_value.
  induction d;
    cbn -[Z.mul Z.add]; [done| exact IHd |..];
    rewrite of_uint_acc_fold; f_equal.
Qed.

Lemma string_of_uint_digits d :
  forallb is_digit (chars (NilEmpty.string_of_uint d)) = true.
Proof. induction d; simpl; auto. Qed.

Lemma bigint_toString_nonneg z :
  0 <= z ->
  all_digits (chars (bigint_toString z)) = true /\ dec_value (chars (bigint_toString z)) = z.
Proof.
  intros Hz. pose proof (DecimalZ.of_to z) as Hof.
  unfold bigint_toString. destruct (Z.to_int z) as [d|d] eqn:Ez.
  - unfold NilZero.string_of_int, NilZero.string_of_uint.
    change (Z.of_N (Pos.of_uint d) = z) in Hof. rewrite of_uint_dec_value in Hof.
    destruct d; [simpl in Hof; subst; split; reflexivity|..];
      (split; [apply string_of_uint_digits | exact Hof]).
  - exfalso. destruct z as [|p|p]; simpl in Ez; try discriminate; lia.
Qed.

Lemma bigint_toString_neg z :
  z < 0 -> bigint_toString z = String "-" (bigint_toString (- z)).
Proof.
  intros Hz. destruct z as [|p|p]; try lia.
  unfold bigint_toString; simpl.
  unfold NilZero.string_of_int. f_equal.
Qed.

Definition plain_char (c : ascii) : bool := is_digit c || (char_code c =? 45).

Lemma plain_char_not_space c : plain_char c = true -> is_space c = false.
Proof.
  unfold plain_char, is_digit, is_space. cbv zeta. intros H.
  apply orb_true_iff in H as [H|H];
    [apply andb_true_iff in H as [H1 H2]; apply Z.leb_le in H1, H2
    |apply Z.eqb_eq in H];
    repeat (apply orb_false_iff; split); apply Z.eqb_neq; lia.
Qed.

Lemma forallb_digit_plain l : forallb is_digit l = true -> forallb plain_char l = true.
Proof.
  induction l as [|c l IH]; simpl; [done|].
  unfold plain_char at 1. intros [-> H]%andb_true_iff. simpl. auto.
Qed.

Lemma all_digits_forallb l : all_digits l = true -> forallb is_digit l = true /\ l <> [].
Proof. destruct l; simpl; [discriminate|]. auto. Qed.

Lemma bigint_toString_plain z : forallb plain_char (chars (bigint_toString z)) = true.
Proof.
  destruct (Z_lt_le_dec z 0) as [Hz|Hz].
  - rewrite bigint_toString_neg by done. simpl.
    apply forallb_digit_plain, all_digits_forallb, bigint_toString_nonneg. lia.
  - apply forallb_digit_plain, all_digits_forallb, bigint_toString_nonneg. lia.
Qed.

Lemma drop_spaces_plain l : forallb plain_char l = true -> drop_spaces l = l.
Proof.
  destruct l as [|c l]; simpl; [done|].
  intros [Hc _]%andb_true_iff. by rewrite plain_char_not_space.
Qed.

Lemma forallb_rev {A} (f : A -> bool) l : forallb f (rev l) = forallb f l.
Proof.
  induction l as [|x l IH]; simpl; [done|].
  rewrite forallb_app, IH. simpl. by rewrite andb_true_r, andb_comm.
Qed.

Lemma trim_plain l : forallb plain_char l = true -> trim l = l.
Proof.
  intros H. unfold trim. rewrite (drop_spaces_plain l) by done.
  rewrite drop_spaces_plain by (by rewrite forallb_rev). apply rev_involutive.
Qed.

Lemma digit_range c : is_digit c = true -> 48 <= char_code c <= 57.
Proof.
  unfold is_digit. intros H. apply andb_true_iff in H as [H1 H2].
  apply Z.leb_le in H1, H2. lia.
Qed.

Lemma digit_not c c' : is_digit c = true -> is_digit c' = false -> Ascii.eqb c c' = false.
Proof. intros H H'. apply Ascii.eqb_neq. intros ->. congruence. Qed.

Lemma plain_radix l : forallb plain_char l = true -> radix_literal l = None.
Proof.
  intros H. destruct l as [|z [|p l]]; try done. simpl in *.
  destruct (Ascii.eqb z "0"); simpl; [|done].
  apply andb_true_iff in H as [_ H]. apply andb_true_iff in H as [H _].
  assert (Hp : forall q, plain_char q = false -> Ascii.eqb p q = false).
  { intros q Hq. apply Ascii.eqb_neq. intros ->. congruence. }
  by rewrite !Hp.
Qed.

Lemma of_signed_toString z : of_signed (chars (bigint_toString z)) = Ok z.
Proof.
  assert (Hpos : forall z, 0 <= z -> of_digits (chars (bigint_toString z)) = Ok z).
  { intros y Hy. destruct (bigint_toString_nonneg y Hy) as [Hd Hv].
    unfold of_digits. by rewrite Hd, Hv. }
  destruct (Z_lt_le_dec z 0) as [Hz|Hz].
  - rewrite bigint_toString_neg by done. simpl.
    rewrite Hpos by lia. simpl. f_equal. lia.
  - pose proof (Hpos z Hz) as H. destruct (bigint_toString_nonneg z Hz) as [Hd _].
    destruct (chars (bigint_toString z)) as [|c l]; [done|].
    simpl in Hd. apply andb_true_iff in Hd as [Hc _].
    unfold of_signed. rewrite !digit_not by done. exact H.
Qed.

(** Printing a bigint and reading it back is the identity. *)
Lemma BigInt_toString_roundtrip z : BigInt_of_string (bigint_toString z) = Ok z.
Proof.
  unfold BigInt_of_string.
  pose proof (bigint_toString_plain z) as Hp. rewrite trim_plain by done.
  pose proof (of_signed_toString z) as Hs.
  destruct (chars (bigint_toString z)) as [|c l] eqn:E; [done|].
  by rewrite plain_radix.
Qed.

Lemma bigint_toString_inj z z' : bigint_toString z = bigint_toString z' -> z = z'.
Proof.
  intros H. enough (Ok z = Ok z') by congruence. by rewrite <- !BigInt_toString_roundtrip, H.
Qed.

Lemma bigint_toString_nonempty z : bigint_toString z <> EmptyString.
Proof.
  pose proof (of_signed_toString z) as H. intros E. rewrite E in H. discriminate.
Qed.

Lemma chars_unchars l : chars (unchars l) = l.
Proof. apply String.list_ascii_of_string_of_list_ascii. Qed.

Lemma unchars_chars s : unchars (chars s) = s.
Proof. apply String.string_of_list_ascii_of_string. Qed.

(** A string of digits reads as its decimal value, leading zeros included. *)
Lemma BigInt_of_digits s :
  all_digits (chars s) = true -> BigInt_of_string s = Ok (dec_value (chars s)).
Proof.
  intros H. destruct (all_digits_forallb _ H) as [Hf Hne].
  pose proof (forallb_digit_plain _ Hf) as Hp.
  unfold BigInt_of_string. rewrite trim_plain by done.
  destruct (chars s) as [|c l] eqn:E; [done|].
  rewrite plain_radix by done. unfold of_signed.
  simpl in Hf. apply andb_true_iff in Hf as [Hc _].
  rewrite !digit_not by done. unfold of_digits. by rewrite H.
Qed.

Lemma dec_value_nonneg l : forallb is_digit l = true -> 0 <= dec_value l.
Proof.
  induction l as [|c l IH] using rev_ind; [done|].
  rewrite forallb_app, dec_value_split. simpl.
  intros [Hl Hc]%andb_true_iff. rewrite andb_true_r in Hc.
  apply digit_range in Hc. unfold dec_value at 2, digit_value. simpl.
  specialize (IH Hl). lia.
Qed.

(** The decimal text of a positive number has no leading zero. *)
Lemma bigint_toString_leading z :
  0 < z -> exists c l, chars (bigint_toString z) = c :: l /\ is_digit c = true /\
                       Ascii.eqb c "0" = false /\ forallb is_digit l = true.
Proof.
  intros Hz. destruct z as [|p|p]; try lia.
  pose proof (DecimalZ.to_of (Z.to_int (Z.pos p))) as Hn. rewrite DecimalZ.of_to in Hn.
  unfold bigint_toString. simpl in *. injection Hn as Hn.
  set (d := Pos.to_uint p) in *. unfold Decimal.unorm in Hn.
  assert (Hd : d = Decimal.D0 Decimal.Nil \/ (d <> Decimal.Nil /\ d = Decimal.nzhead d)).
  { destruct (Decimal.nzhead d) eqn:E; [by left|..]; right; split; congruence. }
  destruct Hd as [Hd|[Hne Hd]].
  { exfalso. pose proof (DecimalPos.Unsigned.of_to p) as Hp. fold d in Hp. rewrite Hd in Hp. discriminate. }
  unfold NilZero.string_of_uint. clearbody d.
  destruct d as [|d|d|d|d|d|d|d|d|d|d]; [done| |..];
    try (do 2 eexists; split_and!; [reflexivity|reflexivity|reflexivity|apply string_of_uint_digits]).
  exfalso. simpl in Hd. pose proof (DecimalFacts.nzhead_nonzero d) as Hz'.
  symmetry in Hd. by apply Hz' in Hd.
Qed.

Lemma dec_value_lower c l :
  is_digit c = true -> Ascii.eqb c "0" = false -> forallb is_digit l = true ->
  10 ^ Z.of_nat (length l) <= dec_value (c :: l).
Proof.
  intros Hc H0 Hl. change (c :: l) with ([c] ++ l). rewrite dec_value_split.
  pose proof (dec_value_nonneg l Hl) as Hn. pose proof (digit_range c Hc) as Hr.
  assert (char_code c <> 48).
  { intros E. apply Ascii.eqb_neq in H0. apply H0. unfold char_code in E.
    rewrite <- (ascii_N_embedding c). change "0"%char with (ascii_of_N 48). f_equal. lia. }
  unfold dec_value at 1. simpl. unfold digit_value. nia.
Qed.

Lemma dec_value_padStart n l : dec_value (padStart0 n l) = dec_value l.
Proof.
  unfold padStart0. rewrite dec_value_split.
  assert (Hz : forall k, dec_value (replicate k "0"%char) = 0).
  { induction k as [|k IH]; [done|].
    replace (S k) with (k + 1)%nat by lia. rewrite replicate_add, dec_value_split, IH. done. }
  rewrite Hz. lia.
Qed.

Lemma padStart_length n l : (length l <= n)%nat -> length (padStart0 n l) = n.
Proof. intros H. unfold padStart0. rewrite length_app, length_replicate. lia. Qed.

Lemma drop_zeros_spec l : exists k, l = replicate k "0"%char ++ drop_zeros l.
Proof.
  induction l as [|c l [k IH]]; [by exists 0%nat|].
  destruct (Ascii.eqb c "0") eqn:E.
  - apply Ascii.eqb_eq in E as ->. exists (S k). simpl. congruence.
  - exists 0%nat. simpl. destruct c as [[] [] [] [] [] [] [] []]; done.
Qed.

Lemma strip_trailing_zeros_spec l :
  exists k, l = strip_trailing_zeros l ++ replicate k "0"%char.
Proof.
  destruct (drop_zeros_spec (rev l)) as [k H]. exists k.
  unfold strip_trailing_zeros. rewrite <- (rev_involutive l) at 1. rewrite H at 1.
  rewrite rev_app_distr. f_equal.
  rewrite rev_alt. apply reverse_replicate.
Qed.

Lemma drop_zeros_head l : head (drop_zeros l) <> Some "0"%char.
Proof.
  induction l as [|c l IH]; [done|]. cbn [drop_zeros].
  destruct c as [[] [] [] [] [] [] [] []]; first [exact IH|discriminate].
Qed.

Lemma strip_trailing_zeros_last l : last (strip_trailing_zeros l) <> Some "0"%char.
Proof.
  unfold strip_trailing_zeros. rewrite (rev_alt (drop_zeros (rev l))).
  change (last (reverse (drop_zeros (rev l))) <> Some "0"%char).
  rewrite last_reverse. apply drop_zeros_head.
Qed.

(** ** Base64: [btoa] and [atob]

    The input of [btoa] is a binary string; here it is the list of its code
    units, which are bytes ([btoa] rejects anything else). *)
Definition b64_char (v : Z) : ascii :=
  let n := if v <? 26 then 65 + v
           else if v <? 52 then 71 + v
           else if v <? 62 then v - 4
           else if v =? 62 then 43 else 47 in
  ascii_of_N (Z.to_N n).

Definition b64_value (c : ascii) : option Z :=
  let n := char_code c in
  if (65 <=? n) && (n <=? 90) then Some (n - 65)
  else if (97 <=? n) && (n <=? 122) then Some (n - 71)
  else if (48 <=? n) && (n <=? 57) then Some (n + 4)
  else if n =? 43 then Some 62
  else if n =? 47 then Some 63
  else None.

(** The 6-bit groups of a byte string, the last one zero-extended. *)
Fixpoint sextets (bs : list Z) : list Z :=
  match bs with
  | [] => []
  | [a] => [a / 4; (a mod 4) * 16]
  | [a; b] => [a / 4; (a mod 4) * 16 + b / 16; (b mod 16) * 4]
  | a :: b :: c :: bs =>
      a / 4 :: (a mod 4) * 16 + b / 16 :: (b mod 16) * 4 + c / 64 :: c mod 64 :: sextets bs
  end.

Definition b64_padding (n : nat) : nat :=
  match (n mod 3)%nat with 1%nat => 2%nat | 2%nat => 1%nat | _ => 0%nat end.

Definition btoa (bs : list Z) : string :=
  unchars (map b64_char (sextets bs) ++ replicate (b64_padding (length bs)) "="%char).

Fixpoint unsextets (vs : list Z) : option (list Z) :=
  match vs with
  | [] => Some []
  | [_] => None
  | [a; b] => Some [a * 4 + b / 16]
  | [a; b; c] => Some [a * 4 + b / 16; (b mod 16) * 16 + c / 4]
  | a :: b :: c :: d :: vs =>
      match unsextets vs with
      | Some bs => Some (a * 4 + b / 16 :: (b mod 16) * 16 + c / 4 :: (c mod 4) * 64 + d :: bs)
      | None => None
      end
  end.

(** Forgiving-base64 decoding drops one or two trailing [=] when the length is a
    multiple of four. *)
Definition strip_padding (l : list ascii) : list ascii :=
  if (length l mod 4 =? 0)%nat then
    match rev l with
    | "="%char :: "="%char :: r => rev r
    | "="%char :: r => rev r
    | _ => l
    end
  else l.

Definition ascii_whitespace (c : ascii) : bool :=
  let n := char_code c in (n =? 9) || (n =? 10) || (n =? 12) || (n =? 13) || (n =? 32).

Definition atob (s : string) : result (list Z) :=
  let l := strip_padding (List.filter (fun c => negb (ascii_whitespace c)) (chars s)) in
  match mapO b64_value l with
  | Some vs => match unsextets vs with
               | Some bs => Ok bs
               | None => Throw (Exn "InvalidCharacterError" "atob")
               end
  | None => Throw (Exn "InvalidCharacterError" "atob")
  end.

Lemma list_ind3 {A} (P : list A -> Prop) :
  P [] -> (forall a, P [a]) -> (forall a b, P [a; b]) ->
  (forall a b c l, P l -> P (a :: b :: c :: l)) -> forall l, P l.
Proof.
  intros H0 H1 H2 H3. fix IH 1.
  intros [|a [|b [|c l]]]; [exact H0 | apply H1 | apply H2 | apply H3, IH].
Qed.

Lemma b64_value_char v : 0 <= v < 64 -> b64_value (b64_char v) = Some v.
Proof.
  intros Hv.
  assert (H : forallb (fun v => bool_decide (b64_value (b64_char v) = Some v)) (seqZ 0 64) = true)
    by (vm_compute; reflexivity).
  rewrite forallb_forall in H.
  specialize (H v). rewrite bool_decide_eq_true in H.
  apply H, list_elem_of_In, elem_of_seqZ. lia.
Qed.

Lemma b64_char_plain v :
  0 <= v < 64 -> ascii_whitespace (b64_char v) = false /\ b64_char v <> "="%char.
Proof.
  intros Hv. split.
  - pose proof (b64_value_char v Hv) as H. unfold b64_value, ascii_whitespace in *.
    cbv zeta in *. set (n := char_code (b64_char v)) in *. clearbody n.
    destruct ((n =? 9) || (n =? 10) || (n =? 12) || (n =? 13) || (n =? 32)) eqn:E; [|done].
    rewrite !orb_true_iff, !Z.eqb_eq in E.
    destruct E as [[[[->| ->]| ->]| ->]| ->]; discriminate.
  - intros E. pose proof (b64_value_char v Hv) as H. rewrite E in H. discriminate.
Qed.

Lemma sextets_range bs : Forall is_byte bs -> Forall (fun v => 0 <= v < 64) (sextets bs).
Proof.
  unfold is_byte.
  induction bs as [|a|a b|a b c bs IH] using list_ind3; intros H;
    cbn [sextets]; decompose_Forall_hyps; repeat constructor; auto;
    Z.div_mod_to_equations; lia.
Qed.

Lemma unsextets_sextets bs : Forall is_byte bs -> unsextets (sextets bs) = Some bs.
Proof.
  unfold is_byte.
  induction bs as [|a|a b|a b c bs IH] using list_ind3; intros H;
    cbn [sextets unsextets]; decompose_Forall_hyps; [done|..|rewrite IH by done];
    repeat f_equal; Z.div_mod_to_equations; lia.
Qed.

Lemma sextets_padded_length bs :
  ((length (sextets bs) + b64_padding (length bs)) mod 4 = 0)%nat.
Proof.
  induction bs as [|a|a b|a b c bs IH] using list_ind3; try reflexivity.
  cbn [sextets length]. unfold b64_padding in *.
  replace (S (S (S (length bs)))) with (length bs + 1 * 3)%nat by lia.
  rewrite Nat.Div0.mod_add.
  set (p := match (length bs mod 3)%nat with 1%nat => 2%nat | 2%nat => 1%nat | _ => 0%nat end) in *.
  replace (S (S (S (S (length (sextets bs))))) + p)%nat
    with (length (sextets bs) + p + 1 * 4)%nat by lia.
  by rewrite Nat.Div0.mod_add.
Qed.

Lemma mapO_b64 vs : Forall (fun v => 0 <= v < 64) vs -> mapO b64_value (map b64_char vs) = Some vs.
Proof.
  induction 1 as [|v vs Hv _ IH]; simpl; [done|]. by rewrite b64_value_char, IH.
Qed.

Lemma strip_padding_app l k :
  ((length l + k) mod 4 = 0)%nat -> (k <= 2)%nat ->
  Forall (fun c => c <> "="%char) l ->
  strip_padding (l ++ replicate k "="%char) = l.
Proof.
  intros Hlen Hk Hl. unfold strip_padding.
  rewrite length_app, length_replicate, Hlen. simpl.
  rewrite rev_app_distr, (rev_alt (replicate _ _)).
  change (rev_append (replicate k "="%char) []) with (reverse (replicate k "="%char)).
  rewrite reverse_replicate.
  assert (Hr : Forall (fun c => c <> "="%char) (rev l))
    by (by apply List.Forall_rev).
  destruct k as [|[|[|k]]]; [| | | lia]; simpl; [..|apply rev_involutive];
    rewrite ?app_nil_r; destruct (rev l) as [|c r] eqn:E; try done.
  - apply Forall_cons in Hr as [Hc _]. destruct c as [[] [] [] [] [] [] [] []]; done.
  - by rewrite <- (rev_involutive l), E.
  - apply Forall_cons in Hr as [Hc _].
    assert (El : rev (c :: r) = l) by (rewrite <- E; apply rev_involutive).
    destruct c as [[] [] [] [] [] [] [] []]; done.
Qed.

(** Decoding an encoded byte string gives the byte string back. *)
Lemma atob_btoa bs : Forall is_byte bs -> atob (btoa bs) = Ok bs.
Proof.
  intros Hb. unfold atob, btoa. rewrite chars_unchars.
  pose proof (sextets_range bs Hb) as Hs.
  set (l := map b64_char (sextets bs)). set (k := b64_padding (length bs)).
  assert (Hf : List.filter (fun c => negb (ascii_whitespace c)) (l ++ replicate k "="%char)
               = l ++ replicate k "="%char).
  { apply List.forallb_filter_id, forallb_forall. intros c Hc.
    apply in_app_iff in Hc as [Hc|Hc].
    - apply in_map_iff in Hc as (v & <- & Hv). rewrite Forall_forall in Hs.
      by rewrite (proj1 (b64_char_plain v (Hs v (proj2 (list_elem_of_In _ _) Hv)))).
    - apply list_elem_of_In, elem_of_replicate in Hc as [-> _]. done. }
  rewrite Hf, strip_padding_app.
  - unfold l. by rewrite mapO_b64, unsextets_sextets.
  - unfold l, k. rewrite length_map. apply sextets_padded_length.
  - unfold k, b64_padding. destruct (length bs mod 3)%nat as [|[|[|]]]; lia.
  - apply Forall_forall. intros c Hc. apply list_elem_of_In in Hc.
    apply in_map_iff in Hc as (v & <- & Hv). rewrite Forall_forall in Hs.
    apply b64_char_plain, Hs, list_elem_of_In, Hv.
Qed.
