(* ===== verification/JsMap.v ===== *)
(** A JavaScript [Map] or [Set]: its entries in insertion order, and the
    operations the code uses. Setting a key that is there keeps its place. *)
From S2P Require Import Prelude.

Create HintDb jsmap.

Section JsMap.
Context {V : Type}.
Implicit Types m : list (string * V).

Fixpoint mapGet m (key : string) : option V :=
  match m with
  | [] => None
  | (k, v) :: m => if String.eqb k key then Some v else mapGet m key
  end.

Fixpoint mapSet m (key : string) (value : V) : list (string * V) :=
  match m with
  | [] => [(key, value)]
  | (k, v) :: m => if String.eqb k key then (k, value) :: m else (k, v) :: mapSet m key value
  end.

Definition mapDelete m (key : string) : list (string * V) :=
  List.filter (fun e => negb (String.eqb e.1 key)) m.

Definition mapKeys m : list string := map fst m.

(** Keys are distinct. *)
Definition map_wf m : Prop := NoDup (mapKeys m).

Lemma mapGet_In m k v : mapGet m k = Some v -> (k, v) ∈ m.
Proof.
  induction m as [|[k' v'] m IH]; cbn [mapGet]; [done|].
  destruct (String.eqb_spec k' k) as [->|]; [intros [= ->]; left|intros H; right; auto].
Qed.

Lemma mapGet_None m k : mapGet m k = None <-> k ∉ mapKeys m.
Proof.
  unfold mapKeys. induction m as [|[k' v'] m IH]; cbn [mapGet map fst]; [set_solver|].
  destruct (String.eqb_spec k' k) as [->|]; [set_solver|]. rewrite IH. set_solver.
Qed.

Lemma elem_of_mapGet m k v : map_wf m -> (k, v) ∈ m -> mapGet m k = Some v.
Proof.
  unfold map_wf, mapKeys. induction m as [|[k' v'] m IH]; cbn [mapGet map fst]; intros Hw Hin; [set_solver|].
  apply NoDup_cons in Hw as [Hn Hw]. apply elem_of_cons in Hin as [[= -> ->]|Hin]; [by rewrite String.eqb_refl|].
  destruct (String.eqb_spec k' k) as [->|]; [|auto].
  destruct Hn. apply (list_elem_of_fmap_2 fst) in Hin. done.
Qed.

Lemma mapSet_keys m k v : mapKeys (mapSet m k v) = if decide (k ∈ mapKeys m) then mapKeys m else mapKeys m ++ [k].
Proof.
  unfold mapKeys. induction m as [|[k' v'] m IH]; cbn [mapSet map fst]; [by rewrite decide_False by set_solver|].
  destruct (String.eqb_spec k' k) as [->|Hne]; cbn [map fst]; [by rewrite decide_True by set_solver|].
  rewrite IH. destruct (decide (k ∈ map fst m)) as [H|H].
  - by rewrite decide_True by set_solver.
  - by rewrite decide_False by set_solver.
Qed.

Lemma mapSet_wf m k v : map_wf m -> map_wf (mapSet m k v).
Proof.
  unfold map_wf. rewrite mapSet_keys. intros H. case_decide; [done|].
  apply NoDup_app. split_and!; [done|set_solver|apply NoDup_singleton].
Qed.

Lemma mapGet_set m k v k' : mapGet (mapSet m k v) k' = if String.eqb k k' then Some v else mapGet m k'.
Proof.
  induction m as [|[j u] m IH]; cbn [mapSet mapGet]; [done|].
  destruct (String.eqb_spec j k) as [->|Hjk]; cbn [mapGet].
  - by destruct (String.eqb_spec k k').
  - rewrite IH. destruct (String.eqb_spec j k') as [->|]; [|done].
    destruct (String.eqb_spec k k') as [->|]; [done|done].
Qed.

Lemma elem_of_mapSet m k v e : e ∈ mapSet m k v -> e = (k, v) \/ e ∈ m.
Proof.
  induction m as [|[j u] m IH]; cbn [mapSet]; [set_solver|].
  destruct (String.eqb_spec j k) as [->|]; set_solver.
Qed.

Lemma elem_of_mapDelete m k e : e ∈ mapDelete m k <-> e ∈ m /\ e.1 <> k.
Proof.
  unfold mapDelete. rewrite !list_elem_of_In, filter_In. destruct (String.eqb_spec e.1 k); naive_solver.
Qed.

Lemma filter_map_wf (P : string * V -> bool) m : map_wf m -> map_wf (List.filter P m).
Proof.
  unfold map_wf, mapKeys. induction m as [|e m IH]; cbn [List.filter map]; [done|]. intros [Hn Hw]%NoDup_cons.
  destruct (P e); [|auto]. cbn [map]. apply NoDup_cons. split; [|auto]. intros Hin. apply Hn.
  apply list_elem_of_In, in_map_iff in Hin as (x & <- & Hx). apply filter_In in Hx as [Hx _].
  apply list_elem_of_In, in_map_iff. by exists x.
Qed.

Lemma mapDelete_wf m k : map_wf m -> map_wf (mapDelete m k).
Proof. apply filter_map_wf. Qed.

Lemma mapGet_delete m k k' : mapGet (mapDelete m k) k' = if String.eqb k k' then None else mapGet m k'.
Proof.
  unfold mapDelete. induction m as [|[j u] m IH]; cbn [List.filter mapGet fst]; [by destruct (String.eqb k k')|].
  destruct (String.eqb_spec j k) as [->|Hjk]; cbn [negb mapGet fst]; rewrite IH.
  - by destruct (String.eqb_spec k k').
  - destruct (String.eqb_spec j k') as [->|]; [|done]. by destruct (String.eqb_spec k k') as [->|].
Qed.

Lemma mapDelete_length m k : (length (mapDelete m k) <= length m)%nat.
Proof. apply List.filter_length_le. Qed.

(** Deleting the first key of a map removes its first entry. *)
Lemma mapDelete_first k v m : map_wf ((k, v) :: m) -> mapDelete ((k, v) :: m) k = m.
Proof.
  intros [Hn _]%NoDup_cons. unfold mapDelete. cbn [List.filter fst]. rewrite String.eqb_refl. cbn [negb].
  unfold mapKeys in Hn. induction m as [|[j u] m IH]; cbn [List.filter fst]; [done|]. cbn [map fst] in Hn.
  destruct (String.eqb_spec j k) as [->|]; [set_solver|]. cbn [negb]. rewrite IH; [done|set_solver].
Qed.

Lemma mapSet_absent m k v : mapGet m k = None -> mapSet m k v = m ++ [(k, v)].
Proof.
  induction m as [|[j u] m IH]; cbn [mapGet mapSet]; [done|]. destruct (String.eqb j k); [done|].
  intros H. by rewrite IH.
Qed.

Lemma mapSet_keys_elem m k v x : x ∈ mapKeys (mapSet m k v) <-> x = k \/ x ∈ mapKeys m.
Proof. rewrite mapSet_keys. case_decide; set_solver. Qed.
End JsMap.

#[export] Hint Resolve mapSet_wf mapDelete_wf filter_map_wf : jsmap.

(** ** Sets *)
Definition member (text : string) (set : list string) : bool := existsb (String.eqb text) set.

(** [set.add] and [set.delete] *)
Definition setAdd (s : list string) (x : string) : list string := if member x s then s else s ++ [x].
Definition setRemove (s : list string) (x : string) : list string := List.filter (fun y => negb (String.eqb y x)) s.

(** [Array.from(new Set(values))] *)
Fixpoint unique {A} `{EqDecision A} (values : list A) : list A :=
  match values with
  | [] => []
  | x :: values => x :: List.filter (fun y => negb (bool_decide (y = x))) (unique values)
  end.

Lemma member_spec s l : member s l = true <-> s ∈ l.
Proof.
  unfold member. rewrite existsb_exists, list_elem_of_In. split.
  - intros (x & Hx & ->%String.eqb_eq). done.
  - intros H. exists s. by rewrite String.eqb_refl.
Qed.

Lemma member_false s l : member s l = false <-> s ∉ l.
Proof. rewrite <- member_spec. by destruct (member s l). Qed.

Lemma setAdd_elem l x y : y ∈ setAdd l x <-> y ∈ l \/ y = x.
Proof.
  unfold setAdd. destruct (member x l) eqn:E; [|set_solver]. apply member_spec in E. split; [by left|]. by intros [?| ->].
Qed.

Lemma setRemove_elem l x y : y ∈ setRemove l x <-> y ∈ l /\ y <> x.
Proof.
  unfold setRemove. rewrite !list_elem_of_In, filter_In. destruct (String.eqb_spec y x); naive_solver.
Qed.

Lemma foldl_setAdd_elem xs l y : y ∈ foldl setAdd l xs <-> y ∈ l \/ y ∈ xs.
Proof. revert l. induction xs as [|x xs IH]; intros l; cbn [foldl]; [set_solver|]. rewrite IH, setAdd_elem. set_solver. Qed.

Lemma setAdd_NoDup l x : NoDup l -> NoDup (setAdd l x).
Proof.
  unfold setAdd. destruct (member x l) eqn:E; [done|]. apply member_false in E. intros H. apply NoDup_app.
  split_and!; [done|set_solver|apply NoDup_singleton].
Qed.

Lemma foldl_setAdd_NoDup xs l : NoDup l -> NoDup (foldl setAdd l xs).
Proof. revert l. induction xs as [|x xs IH]; intros l H; cbn [foldl]; [done|]. by apply IH, setAdd_NoDup. Qed.

Lemma unique_elem {A} `{EqDecision A} (l : list A) x : x ∈ unique l <-> x ∈ l.
Proof.
  induction l as [|y l IH]; cbn [unique]; [done|]. rewrite !elem_of_cons. split.
  - intros [->|Hx]; [by left|]. apply list_elem_of_In, filter_In in Hx as [Hx _]. right. by apply IH, list_elem_of_In.
  - intros [->|Hx]; [by left|]. destruct (decide (x = y)) as [->|]; [by left|]. right. apply list_elem_of_In, filter_In.
    split; [by apply list_elem_of_In, IH|]. by rewrite bool_decide_eq_false_2.
Qed.

Lemma unique_NoDup {A} `{EqDecision A} (l : list A) : NoDup (unique l).
Proof.
  induction l as [|y l IH]; cbn [unique]; [apply NoDup_nil_2|]. apply NoDup_cons. split.
  - intros Hy. apply list_elem_of_In, filter_In in Hy as [_ Hy]. by rewrite bool_decide_eq_true_2 in Hy.
  - apply NoDup_ListNoDup, List.NoDup_filter, NoDup_ListNoDup, IH.
Qed.
