(* ===== verification/Solana.v ===== *)
(** The third-party packages the code builds on, as interfaces: [PublicKey] of
    @solana/web3.js and the token helpers of @solana/spl-token. The operations
    are parameters (a class of operations) and what the code relies on is a
    second class of laws; [DemoKeys] instantiates both. The plain records of
    web3.js (instructions and account metas) are data. *)
From S2P Require Import Prelude JsString.

(** ** [PublicKey] *)
Class PublicKeys := {
  pubkey : Type;
  #[global] pubkey_eq_dec :: EqDecision pubkey;
  toBytes : pubkey -> list Z;
  toBase58 : pubkey -> string;
  (** [new PublicKey(string)]; throws on an invalid address *)
  newPublicKey : string -> result pubkey;
  (** [PublicKey.default] *)
  defaultKey : pubkey;
  (** [PublicKey.findProgramAddressSync(seeds, programId)[0]] *)
  findProgramAddress : list (list Z) -> pubkey -> result pubkey;
}.

(** Documented behaviour of [PublicKey]: 32 bytes that determine the key, and a
    non-empty base58 text form that reads back. *)
Class PublicKeyLaws (PK : PublicKeys) : Prop := {
  toBytes_length k : length (toBytes k) = 32%nat;
  toBytes_bytes k : Forall is_byte (toBytes k);
  toBytes_inj k k' : toBytes k = toBytes k' -> k = k';
  newPublicKey_toBase58 k : newPublicKey (toBase58 k) = Ok k;
  toBase58_nonempty k : toBase58 k <> EmptyString;
}.

Section Keys.
Context {PK : PublicKeys}.

Lemma toBase58_inj {L : PublicKeyLaws PK} k k' : toBase58 k = toBase58 k' -> k = k'.
Proof.
  intros H. enough (Ok k = Ok k') by congruence.
  by rewrite <- !newPublicKey_toBase58, H.
Qed.

(** [a.equals(b)] *)
Definition key_equals (a b : pubkey) : bool := bool_decide (a = b).

(** A module-level [new PublicKey("...")] with a literal address. A literal that
    does not parse would stop the module from loading; the default key stands for
    the value in that case. *)
Definition key_literal (s : string) : pubkey :=
  match newPublicKey s with Ok k => k | Throw _ => defaultKey end.

(** ** Instructions *)
Record account_meta := Meta { meta_pubkey : pubkey; isSigner : bool; isWritable : bool }.

Record instruction := Instruction {
  programId : pubkey;
  keys : list account_meta;
  data : list Z;
}.

#[global] Instance account_meta_eq_dec : EqDecision account_meta.
Proof. solve_decision. Defined.
#[global] Instance instruction_eq_dec : EqDecision instruction.
Proof. solve_decision. Defined.
End Keys.

(** ** @solana/spl-token *)
Class SplToken (PK : PublicKeys) := {
  TOKEN_PROGRAM_ID : pubkey;
  (** [getAssociatedTokenAddressSync(mint, owner, allowOwnerOffCurve)] *)
  getAssociatedTokenAddress : pubkey -> pubkey -> bool -> result pubkey;
  (** [createAssociatedTokenAccountIdempotentInstruction(payer, ata, owner, mint)] *)
  createAssociatedTokenAccountIdempotent : pubkey -> pubkey -> pubkey -> pubkey -> instruction;
  (** [createTransferCheckedInstruction(source, mint, destination, owner, amount, decimals)] *)
  createTransferChecked : pubkey -> pubkey -> pubkey -> pubkey -> Z -> Z -> instruction;
  (** [SystemProgram.programId] and [SystemProgram.transfer] of @solana/web3.js *)
  systemProgramId : pubkey;
  systemTransfer : pubkey -> pubkey -> Z -> instruction;
}.

(** ** A concrete instance

    Keys are 32-byte strings, the text form is the string of those bytes, a longer text
    is cut to 32 bytes (so that the address literals of the code are valid and distinct)
    and a derived address is a checksum of the seeds and the program. *)
Module DemoKeys.

Definition byte_ok (z : Z) : bool := (0 <=? z) && (z <? 256).
Definition bytes_ok (l : list Z) : bool := (length l =? 32)%nat && forallb byte_ok l.

Record key := Key { key_bytes : list Z; key_ok : bytes_ok key_bytes = true }.

Lemma key_eq a b : key_bytes a = key_bytes b -> a = b.
Proof.
  destruct a as [l H], b as [l' H']; simpl; intros ->.
  f_equal. apply eq_pi. apply _.
Qed.

#[global] Instance key_eq_dec : EqDecision key.
Proof.
  intros a b. destruct (decide (key_bytes a = key_bytes b)) as [E|E].
  - left. by apply key_eq.
  - right. congruence.
Defined.

Definition mk (l : list Z) : option key :=
  (if bytes_ok l as b return bytes_ok l = b -> option key
   then fun H => Some (Key l H) else fun _ => None) eq_refl.

Definition zero_key : key := Key (replicate 32 0) eq_refl.

(** The key whose first byte is [z]. *)
Definition key_of (z : Z) : key :=
  default zero_key (mk (z mod 256 :: replicate 31 0)).

Definition text (k : key) : string :=
  unchars (map (fun b => ascii_of_N (Z.to_N b)) (key_bytes k)).

Definition parse (s : string) : result key :=
  match mk (take 32 (map char_code (chars s))) with
  | Some k => Ok k
  | None => throwError "Invalid public key input"
  end.

(** A small checksum of the seeds and the program, 32 bytes wide. *)
Definition stir (acc : list Z) (b : Z) : list Z :=
  match acc with h :: t => t ++ [(3 * h + b + 1) mod 256] | [] => [] end.

Definition derive (seeds : list (list Z)) (program : key) : result key :=
  match mk (foldl stir (replicate 32 0) (concat seeds ++ key_bytes program)) with
  | Some k => Ok k
  | None => throwError "Unable to find a viable program address nonce"
  end.

#[global] Instance demo_keys : PublicKeys := {|
  pubkey := key;
  toBytes := key_bytes;
  toBase58 := text;
  newPublicKey := parse;
  defaultKey := zero_key;
  findProgramAddress := derive;
|}.

Lemma bytes_ok_spec l : bytes_ok l = true -> length l = 32%nat /\ Forall is_byte l.
Proof.
  unfold bytes_ok. intros H. apply andb_true_iff in H as [Hl Hb].
  apply Nat.eqb_eq in Hl. split; [done|].
  apply Forall_forall. intros x Hx. apply forallb_forall with (x := x) in Hb;
    [|by apply list_elem_of_In].
  unfold byte_ok in Hb. apply andb_true_iff in Hb as [H1 H2].
  apply Z.leb_le in H1. apply Z.ltb_lt in H2. done.
Qed.

Lemma mk_ok l (H : bytes_ok l = true) : exists k, mk l = Some k /\ key_bytes k = l.
Proof.
  unfold mk. generalize (eq_refl (bytes_ok l)).
  generalize (bytes_ok l) at 2 3 as b. intros b E. destruct b.
  - by eexists.
  - congruence.
Qed.

Lemma char_code_of_byte b : is_byte b -> char_code (ascii_of_N (Z.to_N b)) = b.
Proof.
  unfold is_byte, char_code. intros H. rewrite N_ascii_embedding by lia. lia.
Qed.

Lemma parse_text k : parse (text k) = Ok k.
Proof.
  destruct k as [l Hl]. unfold parse, text; simpl.
  rewrite chars_unchars, List.map_map.
  rewrite (List.map_ext_in _ id), List.map_id.
  - rewrite take_ge by (destruct (bytes_ok_spec l Hl); lia).
    destruct (mk_ok l Hl) as (k & -> & Hk). f_equal. apply key_eq. exact Hk.
  - intros b Hb. apply char_code_of_byte.
    destruct (bytes_ok_spec l Hl) as [_ Hf]. rewrite Forall_forall in Hf.
    by apply Hf, list_elem_of_In.
Qed.

#[global] Instance laws : PublicKeyLaws demo_keys.
Proof.
  constructor.
  - intros [l H]. by destruct (bytes_ok_spec l H).
  - intros [l H]. by destruct (bytes_ok_spec l H).
  - intros a b H. by apply key_eq.
  - intros k. apply parse_text.
  - intros [l H] E. simpl in E. unfold text in E; simpl in E.
    destruct l; [discriminate H|discriminate E].
Qed.

(** Associated accounts and token instructions that only record their arguments. *)
Definition ata (mint owner : key) (off : bool) : result key :=
  match mk (map (fun p => (fst p + snd p) mod 256) (zip (key_bytes mint) (key_bytes owner))) with
  | Some k => Ok k
  | None => throwError "TokenOwnerOffCurveError"
  end.

#[global] Instance spl : SplToken demo_keys := {|
  TOKEN_PROGRAM_ID := key_of 6;
  getAssociatedTokenAddress := ata;
  createAssociatedTokenAccountIdempotent p a o m :=
    Instruction (PK := demo_keys) (key_of 7) [Meta p true true; Meta a false true; Meta o false false; Meta m false false] [1];
  createTransferChecked s m d o amount decimals :=
    Instruction (PK := demo_keys) (key_of 6)
      [Meta s false true; Meta m false false; Meta d false true; Meta o true false]
      (12 :: le_bytes 8 amount ++ [decimals]);
  systemProgramId := zero_key;
  systemTransfer f t l := Instruction (PK := demo_keys) zero_key [Meta f true true; Meta t false true] (2 :: le_bytes 8 l);
|}.

End DemoKeys.
