(* ===== verification/Bytes.v ===== *)
(** The byte encoder of the actions SDK (web/packages/loyal-actions/src/internal/bytes.ts)
    and the wire grammar it writes.

    [BytesEncoder] owns one growing array that every nested callback appends to,
    so an encoding step is a function from the array to the array or an
    exception. A decoder is the reader's side: it consumes a prefix of the bytes.
    [codec e d a] says that what [e] appends is exactly what [d] reads as [a];
    the composition lemmas below carry the round trips of the larger messages. *)
From S2P Require Import Prelude JsString Solana.

(** ** [BytesEncoder] *)
Definition enc := list Z -> result (list Z).

Definition pushNothing : enc := fun bytes => Ok bytes.
Definition enc_seq (e1 e2 : enc) : enc := fun bytes => bytes' ← e1 bytes; e2 bytes'.

Declare Scope enc_scope.
Delimit Scope enc_scope with enc.
Notation "e1 ;;; e2" := (enc_seq e1 e2) (at level 62, right associativity) : enc_scope.
Open Scope enc_scope.

(** [value & 0xff] on a number, after a signed 32-bit shift by [k]. *)
Definition low_byte (k value : Z) : Z := Z.land (Z.shiftr (to_int32 value) k) 255.

Definition pushU8 (value : Z) : enc := fun bytes => Ok (bytes ++ [low_byte 0 value]).
Definition pushBool (value : bool) : enc := pushU8 (if value then 1 else 0).
Definition pushU16 (value : Z) : enc :=
  fun bytes => Ok (bytes ++ [low_byte 0 value; low_byte 8 value]).
Definition pushU32 (value : Z) : enc :=
  fun bytes => Ok (bytes ++ [low_byte 0 value; low_byte 8 value; low_byte 16 value; low_byte 24 value]).

Fixpoint pushU64_loop (n : nat) (remaining : Z) : enc :=
  match n with
  | O => pushNothing
  | S n => pushU8 (Z.land remaining 255) ;;; pushU64_loop n (Z.shiftr remaining 8)
  end.
Definition pushU64 (value : Z) : enc := pushU64_loop 8 value.

Definition pushI64 (value : Z) : enc :=
  pushU64 (if value <? 0 then Z.shiftl 1 64 + value else value).

Definition pushBytes (bs : list Z) : enc := fun bytes => Ok (bytes ++ bs).

Definition pushPubkey {PK : PublicKeys} (k : pubkey) : enc := pushBytes (toBytes k).

Definition pushOption {T} (value : option T) (encodeValue : T -> enc) : enc :=
  match value with
  | None => pushU8 0
  | Some v => pushU8 1 ;;; encodeValue v
  end.

Fixpoint pushItems {T} (items : list T) (encodeItem : T -> enc) : enc :=
  match items with
  | [] => pushNothing
  | x :: items => encodeItem x ;;; pushItems items encodeItem
  end.

Definition pushVec {T} (items : list T) (encodeItem : T -> enc) : enc :=
  pushU32 (Z.of_nat (length items)) ;;; pushItems items encodeItem.

Definition pushSmallVec {T} (items : list T) (encodeItem : T -> enc) : enc :=
  fun bytes =>
    if 255 <? Z.of_nat (length items) then throwError "Squads small vec overflow"
    else (pushU8 (Z.of_nat (length items)) ;;; pushItems items encodeItem) bytes.

(** [new Uint8Array(this.bytes)] stores every element modulo 256. *)
Definition finish (bytes : list Z) : list Z := map (fun b => b mod 256) bytes.

(** [new BytesEncoder()], the writes, and [finish()]. *)
Definition run_encoder (e : enc) : result (list Z) := finish <$> e [].

(** ** The reader's side *)
Definition dec (A : Type) := list Z -> option (A * list Z).

Definition dret {A} (a : A) : dec A := fun bs => Some (a, bs).
Definition dfail {A} : dec A := fun _ => None.
Definition dbind {A B} (d : dec A) (k : A -> dec B) : dec B := fun bs =>
  match d bs with Some (a, bs') => k a bs' | None => None end.
Notation "x <~ d ; k" := (dbind d (fun x => k))
  (at level 63, d at next level, right associativity) : enc_scope.

Definition d_take (n : nat) : dec (list Z) := fun bs =>
  if (length bs <? n)%nat then None else Some (take n bs, drop n bs).
Definition d_le (n : nat) : dec Z := l <~ d_take n; dret (le_value l).
Definition d_u8 := d_le 1.
Definition d_u16 := d_le 2.
Definition d_u32 := d_le 4.
Definition d_u64 := d_le 8.
Definition d_i64 : dec Z := v <~ d_u64; dret (if v <? 2 ^ 63 then v else v - 2 ^ 64).
Definition d_key := d_take 32.

(** A constant the format fixes. *)
Definition d_const (z : Z) : dec unit := v <~ d_u8; if v =? z then dret tt else dfail.

Definition d_option {A} (d : dec A) : dec (option A) :=
  t <~ d_u8;
  if t =? 0 then dret None
  else if t =? 1 then (a <~ d; dret (Some a))
  else dfail.

Fixpoint d_items {A} (n : nat) (d : dec A) : dec (list A) :=
  match n with
  | O => dret []
  | S n => a <~ d; l <~ d_items n d; dret (a :: l)
  end.
Definition d_vec {A} (d : dec A) : dec (list A) := n <~ d_u32; d_items (Z.to_nat n) d.
Definition d_small_vec {A} (d : dec A) : dec (list A) := n <~ d_u8; d_items (Z.to_nat n) d.

(** ** What an encoder appends, and how it is read back *)
Definition writes (e : enc) (bs : list Z) : Prop :=
  Forall is_byte bs /\ forall bytes, e bytes = Ok (bytes ++ bs).

Definition codec {A} (e : enc) (d : dec A) (a : A) : Prop :=
  exists bs, writes e bs /\ forall rest, d (bs ++ rest) = Some (a, rest).

Create HintDb codec.

Lemma low_byte_value k v : 0 <= k -> k <= 24 -> low_byte k v = (v / 2 ^ k) mod 256.
Proof.
  intros Hk Hk'. unfold low_byte. rewrite land_255, Z.shiftr_div_pow2 by lia.
  pose proof (to_int32_mod v 32 ltac:(lia)) as H32.
  assert (Hd : exists q, to_int32 v = v + q * 2 ^ 32).
  { exists ((to_int32 v - v) / 2 ^ 32).
    assert (Hm : (to_int32 v - v) mod 2 ^ 32 = 0)
      by (rewrite Zminus_mod, H32, Z.sub_diag; reflexivity).
    pose proof (Z.div_mod (to_int32 v - v) (2 ^ 32) ltac:(lia)). lia. }
  destruct Hd as [q ->].
  replace (q * 2 ^ 32) with (q * 2 ^ (32 - k) * 2 ^ k)
    by (rewrite <- Z.mul_assoc, <- Z.pow_add_r by lia; do 2 f_equal; lia).
  rewrite Z.div_add by lia.
  replace (2 ^ (32 - k)) with (2 ^ (24 - k) * 256)
    by (change 256 with (2 ^ 8); rewrite <- Z.pow_add_r by lia; f_equal; lia).
  by rewrite Z.mul_assoc, Z_mod_plus_full.
Qed.

Lemma low_byte_byte k v : 0 <= k <= 24 -> is_byte (low_byte k v).
Proof.
  intros H. rewrite low_byte_value by lia. apply Z.mod_pos_bound. lia.
Qed.

Lemma writes_le e n v bs :
  (forall bytes, e bytes = Ok (bytes ++ bs)) -> bs = le_bytes n v -> writes e (le_bytes n v).
Proof. intros H ->. split; [apply le_bytes_bytes | exact H]. Qed.

Lemma writes_pushU8 v : writes (pushU8 v) (le_bytes 1 v).
Proof.
  eapply writes_le; [reflexivity|]. simpl. by rewrite low_byte_value, Z.div_1_r.
Qed.

Lemma writes_pushU16 v : writes (pushU16 v) (le_bytes 2 v).
Proof.
  eapply writes_le; [reflexivity|]. cbn [le_bytes].
  rewrite !low_byte_value by lia. rewrite Z.div_1_r. done.
Qed.

Lemma writes_pushU32 v : writes (pushU32 v) (le_bytes 4 v).
Proof.
  eapply writes_le; [reflexivity|]. cbn [le_bytes].
  rewrite !low_byte_value by lia. rewrite Z.div_1_r, !Z.div_div by lia. done.
Qed.

Lemma writes_nothing : writes pushNothing [].
Proof. split; [constructor|]. intros b. unfold pushNothing. by rewrite app_nil_r. Qed.

Lemma writes_seq e1 e2 b1 b2 :
  writes e1 b1 -> writes e2 b2 -> writes (e1 ;;; e2) (b1 ++ b2).
Proof.
  intros [F1 H1] [F2 H2]. split; [by apply Forall_app|].
  intros b. unfold enc_seq. rewrite H1; simpl. by rewrite H2, app_assoc.
Qed.

Lemma writes_pushU64_loop n v : writes (pushU64_loop n v) (le_bytes n v).
Proof.
  revert v; induction n as [|n IH]; intros v; cbn [pushU64_loop le_bytes].
  - apply writes_nothing.
  - change (v mod 256 :: le_bytes n (v / 256)) with ([v mod 256] ++ le_bytes n (v / 256)).
    apply writes_seq.
    + pose proof (writes_pushU8 (Z.land v 255)) as H. simpl in H.
      rewrite land_255, Z.mod_mod in H by lia. by rewrite land_255.
    + rewrite Z.shiftr_div_pow2 by lia. apply IH.
Qed.

Lemma writes_pushU64 v : writes (pushU64 v) (le_bytes 8 v).
Proof. apply writes_pushU64_loop. Qed.

Lemma writes_pushBytes bs : Forall is_byte bs -> writes (pushBytes bs) bs.
Proof. intros H. split; [exact H | done]. Qed.

(** ** Reading back *)
Lemma d_take_app n bs rest : length bs = n -> d_take n (bs ++ rest) = Some (bs, rest).
Proof.
  intros <-. unfold d_take. rewrite length_app.
  destruct (Nat.ltb_spec (length bs + length rest) (length bs)); [lia|].
  by rewrite take_app_length, drop_app_length.
Qed.

Lemma codec_le e n v :
  writes e (le_bytes n v) -> 0 <= v < 256 ^ Z.of_nat n -> codec e (d_le n) v.
Proof.
  intros H Hv. exists (le_bytes n v). split; [done|]. intros rest.
  unfold d_le, dbind. rewrite d_take_app by apply le_bytes_length.
  unfold dret. by rewrite le_value_bytes_small.
Qed.

Lemma codec_u8 v : is_byte v -> codec (pushU8 v) d_u8 v.
Proof. intros H. apply codec_le; [apply writes_pushU8 | exact H]. Qed.

Lemma codec_u16 v : 0 <= v < 2 ^ 16 -> codec (pushU16 v) d_u16 v.
Proof. intros H. apply codec_le; [apply writes_pushU16 | exact H]. Qed.

Lemma codec_u32 v : 0 <= v < 2 ^ 32 -> codec (pushU32 v) d_u32 v.
Proof. intros H. apply codec_le; [apply writes_pushU32 | exact H]. Qed.

Lemma codec_u64 v : is_u64 v -> codec (pushU64 v) d_u64 v.
Proof.
  intros H. apply codec_le; [apply writes_pushU64 |].
  unfold is_u64 in H. rewrite U64_MAX_val in H. change (256 ^ Z.of_nat 8) with (2 ^ 64). lia.
Qed.

Lemma codec_bind {A B} e1 e2 (d1 : dec A) (d2 : A -> dec B) a b :
  codec e1 d1 a -> codec e2 (d2 a) b -> codec (e1 ;;; e2) (dbind d1 d2) b.
Proof.
  intros (b1 & W1 & R1) (b2 & W2 & R2). exists (b1 ++ b2).
  split; [by apply writes_seq|]. intros rest. unfold dbind.
  by rewrite <- app_assoc, R1, R2.
Qed.

(** A final write: the value read last is returned through [f]. *)
Lemma codec_map {A B} e (d : dec A) (f : A -> B) a :
  codec e d a -> codec e (x <~ d; dret (f x)) (f a).
Proof.
  intros (bs & W & R). exists bs. split; [done|]. intros rest.
  unfold dbind. by rewrite R.
Qed.

(** A final read whose continuation only checks what was read. *)
Lemma codec_final {A B} e (d : dec A) (k : A -> dec B) a b :
  codec e d a -> k a = dret b -> codec e (dbind d k) b.
Proof.
  intros (bs & W & R) Hk. exists bs. split; [done|]. intros rest.
  unfold dbind. by rewrite R, Hk.
Qed.

Lemma codec_ext {A} e e' (d : dec A) a :
  (forall bytes, e bytes = e' bytes) -> codec e d a -> codec e' d a.
Proof.
  intros He (bs & [F W] & R). exists bs. split; [|done]. split; [done|].
  intros b. by rewrite <- He.
Qed.

Lemma enc_seq_assoc e1 e2 e3 bytes :
  ((e1 ;;; e2) ;;; e3) bytes = (e1 ;;; e2 ;;; e3) bytes.
Proof. unfold enc_seq. by destruct (e1 bytes). Qed.

Lemma codec_nothing {A} (a : A) : codec pushNothing (dret a) a.
Proof. exists []. split; [apply writes_nothing | done]. Qed.

Lemma codec_i64 v : is_i64 v -> codec (pushI64 v) d_i64 v.
Proof.
  unfold is_i64, I64_MIN, I64_MAX. rewrite Z.shiftl_1_l. intros H.
  unfold pushI64, d_i64. rewrite Z.shiftl_1_l.
  set (u := if v <? 0 then 2 ^ 64 + v else v).
  assert (Hu : is_u64 u /\ (if u <? 2 ^ 63 then u else u - 2 ^ 64) = v).
  { unfold is_u64, u. rewrite U64_MAX_val.
    destruct (Z.ltb_spec v 0); destruct (Z.ltb_spec (2 ^ 64 + v) (2 ^ 63));
      destruct (Z.ltb_spec v (2 ^ 63)); lia. }
  destruct Hu as [Hu Hv]. rewrite <- Hv at 1.
  apply (codec_map _ _ (fun w => if w <? 2 ^ 63 then w else w - 2 ^ 64)), codec_u64, Hu.
Qed.

Lemma codec_const v : is_byte v -> codec (pushU8 v) (d_const v) tt.
Proof.
  intros H. destruct (codec_u8 v H) as (bs & W & R). exists bs. split; [done|].
  intros rest. unfold d_const, dbind. rewrite R, Z.eqb_refl. done.
Qed.

Lemma codec_take bs : Forall is_byte bs -> codec (pushBytes bs) (d_take (length bs)) bs.
Proof.
  intros H. exists bs. split; [by apply writes_pushBytes|].
  intros rest. by apply d_take_app.
Qed.

Lemma codec_items {A B} (items : list A) (e : A -> enc) (d : dec B) (g : A -> B) :
  (forall x, x ∈ items -> codec (e x) d (g x)) ->
  codec (pushItems items e) (d_items (length items) d) (map g items).
Proof.
  induction items as [|x items IH]; intros H; cbn [pushItems d_items length map].
  - apply codec_nothing.
  - eapply codec_bind; [apply H; set_solver|].
    apply (codec_map _ _ (cons (g x))), IH. set_solver.
Qed.

Lemma codec_vec {A B} (items : list A) (e : A -> enc) (d : dec B) (g : A -> B) :
  Z.of_nat (length items) < 2 ^ 32 ->
  (forall x, x ∈ items -> codec (e x) d (g x)) ->
  codec (pushVec items e) (d_vec d) (map g items).
Proof.
  intros Hn H. unfold pushVec, d_vec.
  eapply codec_bind; [apply codec_u32; lia|].
  rewrite Nat2Z.id. by apply codec_items.
Qed.

Lemma codec_small_vec {A B} (items : list A) (e : A -> enc) (d : dec B) (g : A -> B) :
  Z.of_nat (length items) <= 255 ->
  (forall x, x ∈ items -> codec (e x) d (g x)) ->
  codec (pushSmallVec items e) (d_small_vec d) (map g items).
Proof.
  intros Hn H.
  assert (C : codec (pushU8 (Z.of_nat (length items)) ;;; pushItems items e)
                    (d_small_vec d) (map g items)).
  { unfold d_small_vec. eapply codec_bind; [apply codec_u8; unfold is_byte; lia|].
    rewrite Nat2Z.id. by apply codec_items. }
  destruct C as (bs & [F W] & R). exists bs. split; [|done]. split; [done|].
  intros b. unfold pushSmallVec.
  destruct (Z.ltb_spec 255 (Z.of_nat (length items))); [lia|]. apply W.
Qed.

Lemma codec_option {A B} (o : option A) (e : A -> enc) (d : dec B) (g : A -> B) :
  (forall x, o = Some x -> codec (e x) d (g x)) ->
  codec (pushOption o e) (d_option d) (g <$> o).
Proof.
  intros H. unfold d_option. destruct o as [x|]; cbn [pushOption fmap option_fmap option_map].
  - eapply codec_bind; [apply codec_u8; unfold is_byte; lia|]. simpl.
    apply (codec_map _ _ Some), H. done.
  - destruct (codec_u8 0 ltac:(unfold is_byte; lia)) as (bs & W & R).
    exists bs. split; [done|]. intros rest. unfold dbind. by rewrite R.
Qed.

Lemma finish_bytes bs : Forall is_byte bs -> finish bs = bs.
Proof.
  intros H. unfold finish. induction H as [|b bs Hb _ IH]; simpl; [done|].
  rewrite IH, Z.mod_small; done.
Qed.

Lemma writes_run e bs : writes e bs -> run_encoder e = Ok bs.
Proof.
  intros [F W]. unfold run_encoder. rewrite W. simpl. by rewrite finish_bytes.
Qed.

(** The whole message: the encoder returns, and the reader recovers the value
    from exactly the bytes it returned. *)
Lemma codec_run {A} (e : enc) (d : dec A) (a : A) :
  codec e d a ->
  exists bs, run_encoder e = Ok bs /\ Forall is_byte bs /\ d bs = Some (a, []).
Proof.
  intros (bs & W & R). exists bs. split_and!; [by apply writes_run | apply W |].
  specialize (R []). by rewrite app_nil_r in R.
Qed.

Section Keys.
Context {PK : PublicKeys} {L : PublicKeyLaws PK}.

Lemma codec_key k : codec (pushPubkey k) d_key (toBytes k).
Proof.
  pose proof (codec_take (toBytes k) (toBytes_bytes k)) as H.
  rewrite toBytes_length in H. exact H.
Qed.
End Keys.

#[export] Hint Resolve codec_u8 codec_u16 codec_u32 codec_u64 codec_i64 codec_const
  codec_key codec_nothing : codec.

(** ** Bytes that a decoder reads as a value, whatever follows *)
Definition reads {A} (d : dec A) (bs : list Z) (a : A) : Prop :=
  forall rest, d (bs ++ rest) = Some (a, rest).

Lemma reads_bind {A B} (d : dec A) (k : A -> dec B) b1 b2 a b :
  reads d b1 a -> reads (k a) b2 b -> reads (dbind d k) (b1 ++ b2) b.
Proof. intros H1 H2 rest. unfold dbind. by rewrite <- app_assoc, H1, H2. Qed.

Lemma reads_ret {A} (a : A) : reads (dret a) [] a.
Proof. done. Qed.

Lemma reads_map {A B} (d : dec A) (f : A -> B) bs a :
  reads d bs a -> reads (x <~ d; dret (f x)) bs (f a).
Proof. intros H rest. unfold dbind. by rewrite H. Qed.

Lemma reads_u8 b : is_byte b -> reads d_u8 [b] b.
Proof.
  intros Hb rest. unfold d_u8, d_le, dbind. rewrite d_take_app by done.
  cbn [le_value]. unfold dret. do 2 f_equal. lia.
Qed.

Lemma reads_const b : is_byte b -> reads (d_const b) [b] tt.
Proof.
  intros Hb rest. unfold d_const, dbind. rewrite (reads_u8 b Hb), Z.eqb_refl. done.
Qed.

Lemma reads_take bs : reads (d_take (length bs)) bs bs.
Proof. intros rest. by apply d_take_app. Qed.

Lemma reads_u64 v : is_u64 v -> reads d_u64 (le_bytes 8 v) v.
Proof.
  intros Hv rest. unfold d_u64, d_le, dbind. rewrite d_take_app by apply le_bytes_length.
  unfold dret. rewrite le_value_bytes_small; [done|].
  unfold is_u64 in Hv. rewrite U64_MAX_val in Hv. change (256 ^ Z.of_nat 8) with (2 ^ 64). lia.
Qed.

Lemma reads_i64 v : is_i64 v -> reads d_i64 (le_bytes 8 v) v.
Proof.
  intros Hv rest. unfold d_i64, d_u64, d_le, dbind.
  rewrite d_take_app by apply le_bytes_length. unfold dret.
  rewrite le_value_bytes. change (256 ^ Z.of_nat 8) with (2 ^ 64).
  unfold is_i64, I64_MIN, I64_MAX in Hv. rewrite Z.shiftl_1_l in Hv.
  do 2 f_equal. destruct (Z.ltb_spec v 0) as [Hneg|Hneg].
  - rewrite <- (Z_mod_plus_full v 1), Z.mod_small by lia.
    destruct (Z.ltb_spec (v + 1 * 2 ^ 64) (2 ^ 63)); lia.
  - rewrite Z.mod_small by lia. destruct (Z.ltb_spec v (2 ^ 63)); lia.
Qed.

Lemma reads_items {A B} (d : dec B) (bytes : A -> list Z) (g : A -> B) l :
  (forall x, x ∈ l -> reads d (bytes x) (g x)) ->
  reads (d_items (length l) d) (concat (map bytes l)) (map g l).
Proof.
  induction l as [|x l IH]; intros H; cbn [d_items length map concat]; [apply reads_ret|].
  eapply reads_bind; [apply H; set_solver|]. apply (reads_map _ (cons (g x))), IH. set_solver.
Qed.

Lemma reads_u16 v : 0 <= v < 65536 -> reads d_u16 (le_bytes 2 v) v.
Proof.
  intros Hv rest. unfold d_u16, d_le, dbind. rewrite d_take_app by apply le_bytes_length.
  unfold dret. by rewrite le_value_bytes_small.
Qed.

(** A literal is in range. *)
Lemma is_byte_lit z : (0 <=? z) && (z <? 256) = true -> is_byte z.
Proof.
  intros H. apply andb_true_iff in H as [H1 H2].
  apply Z.leb_le in H1. apply Z.ltb_lt in H2. done.
Qed.
Lemma is_u64_lit z : (0 <=? z) && (z <=? U64_MAX) = true -> is_u64 z.
Proof.
  intros H. apply andb_true_iff in H as [H1 H2]. apply Z.leb_le in H1, H2. done.
Qed.
Ltac byte_lit := first [apply is_byte_lit; reflexivity | apply is_u64_lit; reflexivity].

(** Peel one write off an encoder and one read off its decoder. *)
Ltac codec_step := eapply codec_bind; [solve [eauto with codec] |].
