(* ===== verification/Subscriptions.v ===== *)
(** Recurring-delegation subscriptions of the actions SDK
    (web/packages/loyal-actions/src/subscriptions.ts and its constants): the
    integer checks at the SDK boundary, the derived addresses and the
    instruction data. *)
From S2P Require Import Prelude JsString Solana Bytes.

(** ** [number | bigint] arguments

    A [number] is an integral value or something else (a fraction, NaN, an
    infinity), which [Number.isSafeInteger] rejects. *)
Inductive numeric :=
| NumInt (z : Z)
| NumOther
| Big (z : Z).

Definition normalizeInteger (value : numeric) (name : string) : result Z :=
  match value with
  | Big z => Ok z
  | NumInt z => if isSafeInteger z then Ok z else throwError (name +:+ " must be an integer")
  | NumOther => throwError (name +:+ " must be an integer")
  end.

Definition normalizeU64 (value : numeric) (name : string) : result Z :=
  normalized ← normalizeInteger value name;
  if (normalized <? 0) || (U64_MAX <? normalized)
  then throwError (name +:+ " must be a u64")
  else Ok normalized.

Definition normalizeI64 (value : numeric) (name : string) : result Z :=
  normalized ← normalizeInteger value name;
  if (normalized <? I64_MIN) || (I64_MAX <? normalized)
  then throwError (name +:+ " must be an i64")
  else Ok normalized.

(** [DataView.setBigUint64(0, v, true)] on a fresh 8-byte array. *)
Definition u64ToLeBytes (value : numeric) (name : string) : result (list Z) :=
  v ← normalizeU64 value name; Ok (le_bytes 8 v).

(** The integer a numeric argument denotes, when it denotes one exactly. *)
Definition numeric_value (v : numeric) : option Z :=
  match v with
  | Big z => Some z
  | NumInt z => if isSafeInteger z then Some z else None
  | NumOther => None
  end.

Lemma normalizeInteger_spec v name z :
  normalizeInteger v name = Ok z <-> numeric_value v = Some z.
Proof. destruct v as [n| |n]; simpl; try destruct (isSafeInteger n); naive_solver. Qed.

Lemma range_check (n lo hi : Z) msg z :
  (if (n <? lo) || (hi <? n) then throwError msg else Ok n) = Ok z <-> n = z /\ lo <= z <= hi.
Proof.
  destruct (Z.ltb_spec n lo), (Z.ltb_spec hi n); simpl; split;
    try (intros [=]; subst; lia); intros [-> ?]; lia || done.
Qed.

Lemma normalizeU64_spec v name z :
  normalizeU64 v name = Ok z <-> numeric_value v = Some z /\ is_u64 z.
Proof.
  unfold normalizeU64, is_u64. rewrite bind_Ok.
  setoid_rewrite range_check. setoid_rewrite normalizeInteger_spec.
  split; [intros (a & ? & -> & ?); auto | intros [? ?]; eauto].
Qed.

Lemma normalizeI64_spec v name z :
  normalizeI64 v name = Ok z <-> numeric_value v = Some z /\ is_i64 z.
Proof.
  unfold normalizeI64, is_i64. rewrite bind_Ok.
  setoid_rewrite range_check. setoid_rewrite normalizeInteger_spec.
  split; [intros (a & ? & -> & ?); auto | intros [? ?]; eauto].
Qed.

(** ** Constants (constants.ts) *)
Definition SUBSCRIPTIONS_INIT_AUTHORITY := 0.
Definition SUBSCRIPTIONS_CREATE_RECURRING_DELEGATION := 2.
Definition SUBSCRIPTIONS_REVOKE_DELEGATION := 3.
Definition SUBSCRIPTIONS_TRANSFER_RECURRING := 5.
Definition SUBSCRIPTION_TRANSFER_DELEGATOR_OFFSET := 9.
Definition SUBSCRIPTION_TRANSFER_MINT_OFFSET := 41.

(** [new TextEncoder().encode(s)] of an ASCII literal. *)
Definition utf8 (s : string) : list Z := map char_code (chars s).

Section Subscriptions.
Context {PK : PublicKeys}.

Definition SUBSCRIPTIONS_PROGRAM_ID : pubkey :=
  key_literal "De1egAFMkMWZSN5rYXRj9CAdheBamobVNubTsi9avR44".
Definition SUBSCRIPTION_AUTHORITY_SEED := utf8 "SubscriptionAuthority".
Definition SUBSCRIPTION_DELEGATION_SEED := utf8 "delegation".
Definition SUBSCRIPTION_EVENT_AUTHORITY_SEED := utf8 "event_authority".

(** ** Derived addresses

    The [requirePublicKey] guards test [instanceof PublicKey] at run time; the
    arguments here have that type. *)
Definition deriveSubscriptionAuthority (user mint : pubkey) : result pubkey :=
  findProgramAddress [SUBSCRIPTION_AUTHORITY_SEED; toBytes user; toBytes mint]
    SUBSCRIPTIONS_PROGRAM_ID.

Definition deriveRecurringDelegation
    (subscriptionAuthority delegator delegatee : pubkey) (nonce : numeric) : result pubkey :=
  nonceBytes ← u64ToLeBytes nonce "nonce";
  findProgramAddress
    [SUBSCRIPTION_DELEGATION_SEED; toBytes subscriptionAuthority; toBytes delegator;
     toBytes delegatee; nonceBytes]
    SUBSCRIPTIONS_PROGRAM_ID.

Definition deriveSubscriptionEventAuthority : result pubkey :=
  findProgramAddress [SUBSCRIPTION_EVENT_AUTHORITY_SEED] SUBSCRIPTIONS_PROGRAM_ID.

(** ** Instruction data *)
Definition subscriptionInitAuthorityData : list Z := [SUBSCRIPTIONS_INIT_AUTHORITY].
Definition subscriptionRevokeDelegationData : list Z := [SUBSCRIPTIONS_REVOKE_DELEGATION].

Definition pushNormalizedU64 (value : numeric) (name : string) : enc := fun bytes =>
  v ← normalizeU64 value name; pushU64 v bytes.
Definition pushNormalizedI64 (value : numeric) (name : string) : enc := fun bytes =>
  v ← normalizeI64 value name; pushI64 v bytes.

Record SubscriptionCreateRecurringDelegationDataInput := {
  nonce : numeric;
  amountPerPeriodRaw : numeric;
  periodLengthSeconds : numeric;
  startTimestamp : numeric;
  expiryTimestamp : numeric;
  expectedSubscriptionAuthorityInitId : numeric;
}.

Definition subscriptionCreateRecurringDelegationData
    (input : SubscriptionCreateRecurringDelegationDataInput) : result (list Z) :=
  run_encoder
    (pushU8 SUBSCRIPTIONS_CREATE_RECURRING_DELEGATION ;;;
     pushNormalizedU64 (nonce input) "nonce" ;;;
     pushNormalizedU64 (amountPerPeriodRaw input) "amountPerPeriodRaw" ;;;
     pushNormalizedU64 (periodLengthSeconds input) "periodLengthSeconds" ;;;
     pushNormalizedI64 (startTimestamp input) "startTimestamp" ;;;
     pushNormalizedI64 (expiryTimestamp input) "expiryTimestamp" ;;;
     pushNormalizedI64 (expectedSubscriptionAuthorityInitId input)
       "expectedSubscriptionAuthorityInitId").

Record SubscriptionTransferRecurringDataInput := {
  transferAmountRaw : numeric;
  transferDelegator : pubkey;
  transferMint : pubkey;
}.

Definition subscriptionTransferRecurringData
    (input : SubscriptionTransferRecurringDataInput) : result (list Z) :=
  run_encoder
    (pushU8 SUBSCRIPTIONS_TRANSFER_RECURRING ;;;
     pushNormalizedU64 (transferAmountRaw input) "amountRaw" ;;;
     pushPubkey (transferDelegator input) ;;;
     pushPubkey (transferMint input)).

(** ** What the program reads *)
Record delegation_args := DelegationArgs {
  da_nonce : Z; da_amount : Z; da_period : Z; da_start : Z; da_expiry : Z; da_init_id : Z;
}.

Definition d_create_delegation : dec delegation_args :=
  _ <~ d_const SUBSCRIPTIONS_CREATE_RECURRING_DELEGATION;
  n <~ d_u64; a <~ d_u64; p <~ d_u64; s <~ d_i64; x <~ d_i64; i <~ d_i64;
  dret (DelegationArgs n a p s x i).

Definition d_transfer : dec (Z * list Z * list Z) :=
  _ <~ d_const SUBSCRIPTIONS_TRANSFER_RECURRING;
  a <~ d_u64; d <~ d_key; m <~ d_key; dret (a, d, m).

Lemma codec_normU64 v name z :
  numeric_value v = Some z -> is_u64 z -> codec (pushNormalizedU64 v name) d_u64 z.
Proof.
  intros Hv Hz. assert (E : normalizeU64 v name = Ok z) by (by apply normalizeU64_spec).
  destruct (codec_u64 z Hz) as (bs & [F W] & R). exists bs. split; [split; [done|]|done].
  intros b. unfold pushNormalizedU64. rewrite E. apply W.
Qed.

Lemma codec_normI64 v name z :
  numeric_value v = Some z -> is_i64 z -> codec (pushNormalizedI64 v name) d_i64 z.
Proof.
  intros Hv Hz. assert (E : normalizeI64 v name = Ok z) by (by apply normalizeI64_spec).
  destruct (codec_i64 z Hz) as (bs & [F W] & R). exists bs. split; [split; [done|]|done].
  intros b. unfold pushNormalizedI64. rewrite E. apply W.
Qed.

#[local] Hint Resolve codec_normU64 codec_normI64 : codec.

(** The arguments a caller passes denote the values of [a] and are in range. *)
Definition args_denote (input : SubscriptionCreateRecurringDelegationDataInput)
    (a : delegation_args) : Prop :=
  numeric_value (nonce input) = Some (da_nonce a) /\ is_u64 (da_nonce a) /\
  numeric_value (amountPerPeriodRaw input) = Some (da_amount a) /\ is_u64 (da_amount a) /\
  numeric_value (periodLengthSeconds input) = Some (da_period a) /\ is_u64 (da_period a) /\
  numeric_value (startTimestamp input) = Some (da_start a) /\ is_i64 (da_start a) /\
  numeric_value (expiryTimestamp input) = Some (da_expiry a) /\ is_i64 (da_expiry a) /\
  numeric_value (expectedSubscriptionAuthorityInitId input) = Some (da_init_id a) /\
  is_i64 (da_init_id a).

Lemma pushNormalizedU64_ok v name b b' :
  pushNormalizedU64 v name b = Ok b' -> exists z, numeric_value v = Some z /\ is_u64 z.
Proof.
  unfold pushNormalizedU64. intros H. inv_results.
  apply normalizeU64_spec in E. eauto.
Qed.

Lemma pushNormalizedI64_ok v name b b' :
  pushNormalizedI64 v name b = Ok b' -> exists z, numeric_value v = Some z /\ is_i64 z.
Proof.
  unfold pushNormalizedI64. intros H. inv_results.
  apply normalizeI64_spec in E. eauto.
Qed.

Lemma create_delegation_codec input a :
  args_denote input a ->
  exists bs, subscriptionCreateRecurringDelegationData input = Ok bs /\
    Forall is_byte bs /\ d_create_delegation bs = Some (a, []).
Proof.
  intros (?&?&?&?&?&?&?&?&?&?&?&?). destruct a as [n am p s x i]; simpl in *.
  apply codec_run. unfold d_create_delegation.
  eapply codec_bind; [apply codec_const; unfold is_byte; done|].
  do 5 codec_step.
  apply (codec_map _ _ (fun i => DelegationArgs n am p s x i)). by apply codec_normI64.
Qed.

Lemma create_delegation_total input :
  (exists bs, subscriptionCreateRecurringDelegationData input = Ok bs) <->
  (exists a, args_denote input a).
Proof.
  split.
  - intros [bs H]. unfold subscriptionCreateRecurringDelegationData, run_encoder in H.
    match type of H with fmap _ ?m = _ => destruct m eqn:E; [clear H | discriminate] end.
    unfold enc_seq in E. inv_results.
    repeat match goal with
    | H : pushNormalizedU64 _ _ _ = Ok _ |- _ => apply pushNormalizedU64_ok in H as (? & ? & ?)
    | H : pushNormalizedI64 _ _ _ = Ok _ |- _ => apply pushNormalizedI64_ok in H as (? & ? & ?)
    end.
    eexists (DelegationArgs _ _ _ _ _ _). unfold args_denote; simpl.
    split_and!; eassumption.
  - intros [a Ha]. destruct (create_delegation_codec input a Ha) as (bs & -> & _). eauto.
Qed.

Lemma transfer_codec {L : PublicKeyLaws PK} input a :
  numeric_value (transferAmountRaw input) = Some a -> is_u64 a ->
  exists bs, subscriptionTransferRecurringData input = Ok bs /\
    Forall is_byte bs /\
    bs = [SUBSCRIPTIONS_TRANSFER_RECURRING] ++ le_bytes 8 a ++
         toBytes (transferDelegator input) ++ toBytes (transferMint input).
Proof.
  intros Ha Hu.
  assert (W : writes (pushU8 SUBSCRIPTIONS_TRANSFER_RECURRING ;;;
     pushNormalizedU64 (transferAmountRaw input) "amountRaw" ;;;
     pushPubkey (transferDelegator input) ;;; pushPubkey (transferMint input))
     ([SUBSCRIPTIONS_TRANSFER_RECURRING] ++ le_bytes 8 a ++
         toBytes (transferDelegator input) ++ toBytes (transferMint input))).
  { repeat apply writes_seq.
    - apply (writes_pushU8 5).
    - split; [apply le_bytes_bytes|]. intros b. unfold pushNormalizedU64.
      rewrite (proj2 (normalizeU64_spec _ _ a) (conj Ha Hu)). apply writes_pushU64.
    - apply writes_pushBytes, toBytes_bytes.
    - apply writes_pushBytes, toBytes_bytes. }
  eexists. split_and!; [by apply writes_run | apply W | done].
Qed.


(** [subscriptionCreateRecurringDelegationData] returns exactly when every
    argument is an exact integer in its u64 or i64 range, and then the program
    that reads the bytes sees precisely those integers, with nothing left over. *)
Theorem create_delegation_roundtrip input :
  ((exists bs, subscriptionCreateRecurringDelegationData input = Ok bs) <->
   (exists a, args_denote input a)) /\
  (forall a, args_denote input a ->
     exists bs, subscriptionCreateRecurringDelegationData input = Ok bs /\
       Forall is_byte bs /\ d_create_delegation bs = Some (a, [])).
Proof. split; [apply create_delegation_total | apply create_delegation_codec]. Qed.

End Subscriptions.
