(* ===== verification/Squads.v ===== *)
(** Squads program-interaction policies
    (web/packages/loyal-actions/src/internal/squads.ts): the constraint data
    model, the compilation of constraints against a shared key table, the two
    wire encodings of a policy (compact and legacy) and the instructions that
    create and update a policy.

    The constraint types take the type of their keys as a parameter: the source's
    [InstructionConstraint] is the instance at [pubkey], its
    [CompiledInstructionConstraint] the instance at table indexes ([Z]), and what
    a reader of the encoded bytes sees is the instance at 32-byte strings. *)
From S2P Require Import Prelude JsString Solana Bytes Subscriptions.

(** ** Constraints *)
Inductive DataValue :=
| VU8 (value : Z)
| VU16Le (value : Z)
| VU32Le (value : Z)
| VU64Le (value : Z)
| VU128Le (value : Z)
| VU8Slice (value : list Z).

Inductive Operator :=
| equals | notEquals | greaterThan | greaterThanOrEqualTo | lessThan | lessThanOrEqualTo.

Record DataConstraint := MkData {
  dc_offset : Z;
  dc_value : DataValue;
  dc_operator : Operator;
}.

Inductive AccountKind (K : Type) :=
| KPubkey (pubkeys : list K)
| KAccountData (dataConstraints : list DataConstraint).
Arguments KPubkey {K} _.
Arguments KAccountData {K} _.

Record AccountConstraint (K : Type) := MkAccount {
  ac_index : Z;
  ac_kind : AccountKind K;
  ac_owner : option K;
}.
Arguments MkAccount {K} _ _ _.
Arguments ac_index {K} _.
Arguments ac_kind {K} _.
Arguments ac_owner {K} _.

Record InstructionConstraint (K : Type) := MkConstraint {
  ic_program : K;
  ic_accounts : list (AccountConstraint K);
  ic_data : list DataConstraint;
}.
Arguments MkConstraint {K} _ _ _.
Arguments ic_program {K} _.
Arguments ic_accounts {K} _.
Arguments ic_data {K} _.

Record DailySpendingLimit (K : Type) := MkLimit { sl_mint : K; sl_maxPerPeriod : Z }.
Arguments MkLimit {K} _ _.
Arguments sl_mint {K} _.
Arguments sl_maxPerPeriod {K} _.

#[export] Instance DataValue_eq_dec : EqDecision DataValue.
Proof. solve_decision. Defined.
#[export] Instance Operator_eq_dec : EqDecision Operator.
Proof. solve_decision. Defined.
#[export] Instance DataConstraint_eq_dec : EqDecision DataConstraint.
Proof. solve_decision. Defined.
#[export] Instance AccountKind_eq_dec `{EqDecision K} : EqDecision (AccountKind K).
Proof. solve_decision. Defined.
#[export] Instance AccountConstraint_eq_dec `{EqDecision K} : EqDecision (AccountConstraint K).
Proof. solve_decision. Defined.
#[export] Instance InstructionConstraint_eq_dec `{EqDecision K} :
  EqDecision (InstructionConstraint K).
Proof. solve_decision. Defined.

(** The same constraint over other keys. *)
Definition kind_map {K K'} (f : K -> K') (k : AccountKind K) : AccountKind K' :=
  match k with KPubkey ks => KPubkey (map f ks) | KAccountData ds => KAccountData ds end.
Definition account_map {K K'} (f : K -> K') (a : AccountConstraint K) : AccountConstraint K' :=
  MkAccount (ac_index a) (kind_map f (ac_kind a)) (f <$> ac_owner a).
Definition constraint_map {K K'} (f : K -> K') (c : InstructionConstraint K) :
    InstructionConstraint K' :=
  MkConstraint (f (ic_program c)) (map (account_map f) (ic_accounts c)) (ic_data c).
Definition limit_map {K K'} (f : K -> K') (l : DailySpendingLimit K) : DailySpendingLimit K' :=
  MkLimit (f (sl_mint l)) (sl_maxPerPeriod l).

(** The same constraint over other keys, when every key has an image. *)
Definition kind_traverse {K K'} (f : K -> option K') (k : AccountKind K) : option (AccountKind K') :=
  match k with
  | KPubkey ks => KPubkey <$> mapO f ks
  | KAccountData ds => Some (KAccountData ds)
  end.
Definition owner_traverse {K K'} (f : K -> option K') (o : option K) : option (option K') :=
  match o with None => Some None | Some k => Some <$> f k end.
Definition account_traverse {K K'} (f : K -> option K') (a : AccountConstraint K) :
    option (AccountConstraint K') :=
  kind ← kind_traverse f (ac_kind a);
  owner ← owner_traverse f (ac_owner a);
  Some (MkAccount (ac_index a) kind owner).
Definition constraint_traverse {K K'} (f : K -> option K') (c : InstructionConstraint K) :
    option (InstructionConstraint K') :=
  program ← f (ic_program c);
  accounts ← mapO (account_traverse f) (ic_accounts c);
  Some (MkConstraint program accounts (ic_data c)).

(** ** Encoders of the shared parts *)
Definition SQUADS_PERIOD_V2_DAILY := 1.
Definition SQUADS_FULL_PERMISSIONS_MASK := 7.
Definition SQUADS_SYNC_SIGNER_COUNT := 1.
Definition POLICY_CREATION_PAYLOAD_LEGACY_PROGRAM_INTERACTION := 3.
Definition POLICY_CREATION_PAYLOAD_PROGRAM_INTERACTION := 4.
Definition EXECUTE_SETTINGS_TRANSACTION_SYNC_DISCRIMINATOR :=
  [138; 209; 64; 163; 79; 67; 233; 76].

Definition operatorTag (operator : Operator) : Z :=
  match operator with
  | equals => 0
  | notEquals => 1
  | greaterThan => 2
  | greaterThanOrEqualTo => 3
  | lessThan => 4
  | lessThanOrEqualTo => 5
  end.

Definition encodeDataValue (v : DataValue) : enc :=
  match v with
  | VU8 value => pushU8 0 ;;; pushU8 value
  | VU16Le value => pushU8 1 ;;; pushU16 value
  | VU32Le value => pushU8 2 ;;; pushU32 value
  | VU64Le value => pushU8 3 ;;; pushU64 value
  | VU128Le value =>
      pushU8 4 ;;; pushU64 (Z.land value (2 ^ 64 - 1)) ;;; pushU64 (Z.shiftr value 64)
  | VU8Slice value => pushU8 5 ;;; pushVec value pushU8
  end.

Definition encodeDataConstraint (c : DataConstraint) : enc :=
  pushU64 (dc_offset c) ;;;
  encodeDataValue (dc_value c) ;;;
  pushU8 (operatorTag (dc_operator c)).

(** [pushOption(undefined, ...)] *)
Definition pushNone : enc := pushOption (T := unit) None (fun _ => pushNothing).

Section Squads.
Context {PK : PublicKeys}.

Definition encodeSpendingLimit (l : DailySpendingLimit pubkey) : enc :=
  pushPubkey (sl_mint l) ;;;
  pushI64 0 ;;;
  pushNone ;;;
  pushU8 SQUADS_PERIOD_V2_DAILY ;;;
  pushU64 (sl_maxPerPeriod l).

(** ** Compilation against the key table *)
Record CompiledPayload := MkPayload {
  cp_accountIndex : Z;
  cp_pubkeyTable : list pubkey;
  cp_constraints : list (InstructionConstraint Z);
  cp_limits : list (DailySpendingLimit pubkey);
}.

(** The table is one array shared by the whole compilation; an operation returns
    its result with the array after its pushes. *)
Definition tabled (A : Type) := list pubkey -> result (A * list pubkey).

Definition pubkeyTableIndex (key : pubkey) : tabled Z := fun table =>
  match list_find (fun candidate => toBase58 candidate = toBase58 key) table with
  | Some (existing, _) => Ok (Z.of_nat existing, table)
  | None =>
      if 240 <=? Z.of_nat (length table)
      then throwError "Squads ProgramInteraction pubkey table overflow"
      else Ok (Z.of_nat (length table), table ++ [key])
  end.

Fixpoint map_table {A B} (f : A -> tabled B) (l : list A) : tabled (list B) := fun table =>
  match l with
  | [] => Ok ([], table)
  | x :: l =>
      '(y, table) ← f x table;
      '(ys, table) ← map_table f l table;
      Ok (y :: ys, table)
  end.

Definition compileAccountConstraint (c : AccountConstraint pubkey) :
    tabled (AccountConstraint Z) := fun table =>
  '(kind, table) ←
    match ac_kind c with
    | KPubkey pubkeys =>
        '(indexes, table) ← map_table pubkeyTableIndex pubkeys table;
        Ok (KPubkey indexes, table)
    | KAccountData ds => Ok (KAccountData ds, table)
    end;
  '(owner, table) ←
    match ac_owner c with
    | Some owner => '(i, table) ← pubkeyTableIndex owner table; Ok (Some i, table)
    | None => Ok (None, table)
    end;
  Ok (MkAccount (ac_index c) kind owner, table).

Definition compileInstructionConstraint (c : InstructionConstraint pubkey) :
    tabled (InstructionConstraint Z) := fun table =>
  '(program, table) ← pubkeyTableIndex (ic_program c) table;
  '(accounts, table) ← map_table compileAccountConstraint (ic_accounts c) table;
  Ok (MkConstraint program accounts (ic_data c), table).

Definition compileProgramInteractionPayload (accountIndex : Z)
    (constraints : list (InstructionConstraint pubkey))
    (spendingLimits : list (DailySpendingLimit pubkey)) : result CompiledPayload :=
  '(compiled, table) ← map_table compileInstructionConstraint constraints [];
  Ok (MkPayload accountIndex table compiled spendingLimits).

(** ** The compact encoding *)
Definition encodeCompiledAccount (a : AccountConstraint Z) : enc :=
  pushU8 (ac_index a) ;;;
  match ac_kind a with
  | KPubkey indexes => pushU8 0 ;;; pushSmallVec indexes pushU8
  | KAccountData ds => pushU8 1 ;;; pushSmallVec ds encodeDataConstraint
  end ;;;
  pushOption (ac_owner a) pushU8.

Definition encodeCompiledConstraint (c : InstructionConstraint Z) : enc :=
  pushU8 (ic_program c) ;;;
  pushSmallVec (ic_accounts c) encodeCompiledAccount ;;;
  pushSmallVec (ic_data c) encodeDataConstraint.

Definition encodeProgramInteractionPayload (payload : CompiledPayload) : enc :=
  pushU8 (cp_accountIndex payload) ;;;
  pushSmallVec (cp_pubkeyTable payload) pushPubkey ;;;
  pushSmallVec (cp_constraints payload) encodeCompiledConstraint ;;;
  pushNone ;;;
  pushNone ;;;
  pushSmallVec (cp_limits payload) encodeSpendingLimit.

(** The delegated signer, threshold 1 and time lock 0. *)
Definition encodeSigners (delegatedSigner : pubkey) : enc :=
  pushVec [delegatedSigner]
    (fun signer => pushPubkey signer ;;; pushU8 SQUADS_FULL_PERMISSIONS_MASK) ;;;
  pushU16 1 ;;;
  pushU32 0.

Definition encodePolicyCreateAction (delegatedSigner : pubkey) (seed : Z)
    (payload : CompiledPayload) : enc :=
  pushU8 7 ;;;
  pushU64 seed ;;;
  pushU8 POLICY_CREATION_PAYLOAD_PROGRAM_INTERACTION ;;;
  encodeProgramInteractionPayload payload ;;;
  encodeSigners delegatedSigner ;;;
  pushNone ;;;
  pushNone.

(** One settings action, framed by the discriminator, the signer count and no memo. *)
Definition encodeSettingsTransaction (action : enc) : enc :=
  pushBytes EXECUTE_SETTINGS_TRANSACTION_SYNC_DISCRIMINATOR ;;;
  pushU8 SQUADS_SYNC_SIGNER_COUNT ;;;
  pushVec [tt] (fun _ => action) ;;;
  pushNone.

Definition serializeSettingsActions (delegatedSigner : pubkey) (seed : Z)
    (payload : CompiledPayload) : result (list Z) :=
  run_encoder (encodeSettingsTransaction (encodePolicyCreateAction delegatedSigner seed payload)).

(** ** The legacy encoding *)
Definition encodeLegacyAccount (a : AccountConstraint pubkey) : enc :=
  pushU8 (ac_index a) ;;;
  match ac_kind a with
  | KPubkey pubkeys => pushU8 0 ;;; pushVec pubkeys pushPubkey
  | KAccountData ds => pushU8 1 ;;; pushVec ds encodeDataConstraint
  end ;;;
  pushOption (ac_owner a) pushPubkey.

Definition encodeLegacyConstraint (c : InstructionConstraint pubkey) : enc :=
  pushPubkey (ic_program c) ;;;
  pushVec (ic_accounts c) encodeLegacyAccount ;;;
  pushVec (ic_data c) encodeDataConstraint.

Definition encodeLegacyProgramInteractionPayload (accountIndex : Z)
    (constraints : list (InstructionConstraint pubkey))
    (spendingLimits : list (DailySpendingLimit pubkey)) : enc :=
  pushU8 accountIndex ;;;
  pushVec constraints encodeLegacyConstraint ;;;
  pushNone ;;;
  pushNone ;;;
  pushVec spendingLimits encodeSpendingLimit.

Definition serializeLegacySettingsActions (delegatedSigner : pubkey) (seed accountIndex : Z)
    (constraints : list (InstructionConstraint pubkey))
    (spendingLimits : list (DailySpendingLimit pubkey)) : result (list Z) :=
  run_encoder (encodeSettingsTransaction
    (pushU8 7 ;;;
     pushU64 seed ;;;
     pushU8 POLICY_CREATION_PAYLOAD_LEGACY_PROGRAM_INTERACTION ;;;
     encodeLegacyProgramInteractionPayload accountIndex constraints spendingLimits ;;;
     encodeSigners delegatedSigner ;;;
     pushNone ;;;
     pushNone)).

(** ** Instructions *)
Record LoyalClusterConfig := {
  squadsSmartAccountProgramId : pubkey;
  jupiterV6ProgramId : pubkey;
  loyalHubSwapProgramId : pubkey;
  loyalHubAuthorizer : pubkey;
  tokenProgramId : pubkey;
  associatedTokenProgramId : pubkey;
}.

Record SquadsContext := {
  settings : pubkey;
  authority : pubkey;
  delegatedSigner : pubkey;
  accountIndex : Z;
  vault : pubkey;
}.

Definition SQUADS_SEED_PREFIX := utf8 "smart_account".
Definition SQUADS_SEED_POLICY := utf8 "policy".

Definition deriveActionAccount (config : LoyalClusterConfig) (settings : pubkey)
    (policySeed : numeric) : result pubkey :=
  normalizedSeed ← normalizeU64 policySeed "policySeed";
  findProgramAddress
    [SQUADS_SEED_PREFIX; SQUADS_SEED_POLICY; toBytes settings; le_bytes 8 normalizedSeed]
    (squadsSmartAccountProgramId config).

Inductive CreationEncoding := compact | legacy.

Context {SPL : SplToken PK}.

(** The accounts of a settings transaction: the settings, the authority twice
    (fee payer, then signer), the programs and the policy account. *)
Definition policyAccounts (config : LoyalClusterConfig) (context : SquadsContext)
    (policy : pubkey) : list account_meta :=
  [ Meta (settings context) false true;
    Meta (authority context) true true;
    Meta systemProgramId false false;
    Meta (squadsSmartAccountProgramId config) false false;
    Meta (authority context) true false;
    Meta policy false true ].

Definition createProgramInteractionPolicyInstruction (config : LoyalClusterConfig)
    (context : SquadsContext) (constraints : list (InstructionConstraint pubkey))
    (policySeed : numeric) (spendingLimits : list (DailySpendingLimit pubkey))
    (creationEncoding : CreationEncoding) : result instruction :=
  normalizedSeed ← normalizeU64 policySeed "policySeed";
  actionAccount ← deriveActionAccount config (settings context) (Big normalizedSeed);
  data ←
    match creationEncoding with
    | legacy =>
        serializeLegacySettingsActions (delegatedSigner context) normalizedSeed
          (accountIndex context) constraints spendingLimits
    | compact =>
        payload ← compileProgramInteractionPayload (accountIndex context) constraints spendingLimits;
        serializeSettingsActions (delegatedSigner context) normalizedSeed payload
    end;
  Ok (Instruction (squadsSmartAccountProgramId config)
        (policyAccounts config context actionAccount) data).

Definition updateProgramInteractionPolicyInstruction (config : LoyalClusterConfig)
    (context : SquadsContext) (constraints : list (InstructionConstraint pubkey))
    (policy : pubkey) (spendingLimits : list (DailySpendingLimit pubkey)) : result instruction :=
  payload ← compileProgramInteractionPayload (accountIndex context) constraints spendingLimits;
  data ← run_encoder (encodeSettingsTransaction
    (pushU8 8 ;;;
     pushPubkey policy ;;;
     encodeSigners (delegatedSigner context) ;;;
     pushU8 POLICY_CREATION_PAYLOAD_PROGRAM_INTERACTION ;;;
     encodeProgramInteractionPayload payload ;;;
     pushNone));
  Ok (Instruction (squadsSmartAccountProgramId config)
        (policyAccounts config context policy) data).

(** ** The key table

    [table_add] is what one lookup does to the table; the keys of a constraint in
    the order the compiler visits them; [resolve] is how a reader of the compiled
    form turns an index back into a key. *)
Definition table_add (table : list pubkey) (k : pubkey) : list pubkey :=
  if decide (k ∈ table) then table else table ++ [k].

Definition kind_keys {K} (k : AccountKind K) : list K :=
  match k with KPubkey ks => ks | KAccountData _ => [] end.
Definition account_keys {K} (a : AccountConstraint K) : list K :=
  kind_keys (ac_kind a) ++ option_list (ac_owner a).
Definition constraint_keys {K} (c : InstructionConstraint K) : list K :=
  ic_program c :: concat (map account_keys (ic_accounts c)).

(** The distinct keys of the constraints, in order of first use. *)
Definition distinct_keys (constraints : list (InstructionConstraint pubkey)) : list pubkey :=
  foldl table_add [] (concat (map constraint_keys constraints)).

Definition resolve (table : list pubkey) (i : Z) : option pubkey :=
  if i <? 0 then None else table !! Z.to_nat i.

Definition overflow {A} : result A :=
  throwError "Squads ProgramInteraction pubkey table overflow".

Lemma table_add_prefix t k : t `prefix_of` table_add t k.
Proof. unfold table_add. case_decide; [done|]. by exists [k]. Qed.

Lemma table_adds_prefix ks t : t `prefix_of` foldl table_add t ks.
Proof.
  revert t; induction ks as [|k ks IH]; intros t; simpl; [done|].
  etrans; [apply table_add_prefix | apply IH].
Qed.

Lemma table_adds_NoDup ks t : NoDup t -> NoDup (foldl table_add t ks).
Proof.
  revert t; induction ks as [|k ks IH]; intros t Ht; simpl; [done|].
  apply IH. unfold table_add. case_decide; [done|].
  apply NoDup_app. split_and!; [done| set_solver | apply NoDup_singleton].
Qed.

Lemma table_adds_elem ks t k : k ∈ foldl table_add t ks <-> k ∈ t \/ k ∈ ks.
Proof.
  revert t; induction ks as [|k' ks IH]; intros t; simpl; [set_solver|].
  rewrite IH. unfold table_add. case_decide; set_solver.
Qed.

(** The result of a compilation step that ends with table [t']: it succeeds with
    a value satisfying [Q] exactly when the table fits. *)
Definition outcome {E} (m : result (E * list pubkey)) (t' : list pubkey) (Q : E -> Prop) : Prop :=
  if (length t' <=? 240)%nat then exists e, m = Ok (e, t') /\ Q e else m = overflow.

Definition compiles {A B} (f : A -> tabled B) (trav : (Z -> option pubkey) -> B -> option A)
    (keys : A -> list pubkey) (x : A) : Prop :=
  forall t, (length t <= 240)%nat ->
    let t' := foldl table_add t (keys x) in
    outcome (f x t) t' (fun y => forall t'', t' `prefix_of` t'' -> trav (resolve t'') y = Some x).

Lemma outcome_ret {E} (e : E) t' (Q : E -> Prop) :
  (length t' <= 240)%nat -> Q e -> outcome (Ok (e, t')) t' Q.
Proof. intros H HQ. unfold outcome. apply Nat.leb_le in H as ->. eauto. Qed.

Lemma outcome_bind {A E} (m : result (A * list pubkey)) k t1 t2 (P : A -> Prop) (Q : E -> Prop) :
  outcome m t1 P -> t1 `prefix_of` t2 ->
  (forall y, (length t1 <= 240)%nat -> P y -> outcome (k (y, t1)) t2 Q) ->
  outcome (m ≫= k) t2 Q.
Proof.
  intros Hm Hp Hk. unfold outcome in Hm.
  destruct (Nat.leb_spec (length t1) 240) as [Hl|Hl].
  - destruct Hm as (y & -> & Hy). simpl. by apply Hk.
  - rewrite Hm. simpl. unfold outcome. apply prefix_length in Hp.
    destruct (Nat.leb_spec (length t2) 240); [lia|done].
Qed.

Section Table.
Context {L : PublicKeyLaws PK}.

Lemma lookup_resolve t t'' i k :
  t !! i = Some k -> t `prefix_of` t'' -> resolve t'' (Z.of_nat i) = Some k.
Proof.
  intros Hi Hp. unfold resolve. destruct (Z.ltb_spec (Z.of_nat i) 0); [lia|].
  rewrite Nat2Z.id. by eapply prefix_lookup_Some.
Qed.

Lemma compiles_key k : compiles pubkeyTableIndex (fun f => f) (fun k => [k]) k.
Proof.
  intros t Ht. simpl. unfold pubkeyTableIndex, table_add.
  destruct (list_find _ t) as [[i c]|] eqn:E.
  - apply list_find_Some in E as (Hi & Hc & _). apply toBase58_inj in Hc as ->.
    rewrite decide_True by (by eapply list_elem_of_lookup_2).
    apply outcome_ret; [done|]. intros t'' Hp. by eapply lookup_resolve.
  - apply list_find_None in E. rewrite decide_False.
    2:{ intros Hk. rewrite Forall_forall in E. by apply (E k). }
    destruct (Z.leb_spec 240 (Z.of_nat (length t))) as [Hl|Hl].
    + unfold outcome. rewrite length_app. simpl.
      destruct (Nat.leb_spec (length t + 1) 240); [lia|done].
    + apply outcome_ret; [rewrite length_app; simpl; lia|].
      intros t'' Hp. eapply lookup_resolve; [|exact Hp].
      by apply list_lookup_middle.
Qed.

Lemma compiles_map {A B} (f : A -> tabled B) trav keys l :
  (forall x, x ∈ l -> compiles f trav keys x) ->
  compiles (map_table f) (fun r => mapO (trav r)) (fun l => concat (map keys l)) l.
Proof.
  induction l as [|x l IH]; intros H t Ht; cbn [map_table map concat].
  - by apply outcome_ret.
  - rewrite foldl_app. set (t1 := foldl table_add t (keys x)).
    set (t2 := foldl table_add t1 (concat (map keys l))).
    eapply (outcome_bind _ _ t1); [apply H; [set_solver|done] | apply table_adds_prefix |].
    intros y Hl1 Hy.
    eapply (outcome_bind _ _ t2); [apply IH; [set_solver|done] | done |].
    intros ys Hl2 Hys. apply outcome_ret; [done|].
    intros t'' Hp. simpl. rewrite Hy, Hys; [done..|].
    etrans; [apply table_adds_prefix | exact Hp].
Qed.

Lemma compiles_account a : compiles compileAccountConstraint account_traverse account_keys a.
Proof.
  intros t Ht. destruct a as [i kind owner]. unfold compileAccountConstraint, account_keys.
  cbn [ac_kind ac_owner ac_index]. rewrite foldl_app.
  set (t1 := foldl table_add t (kind_keys kind)).
  set (t2 := foldl table_add t1 (option_list owner)).
  eapply (outcome_bind _ _ t1 _ (fun k => forall t'', t1 `prefix_of` t'' ->
    kind_traverse (resolve t'') k = Some kind)); [|apply table_adds_prefix|].
  - destruct kind as [ks|ds]; [|by apply outcome_ret].
    eapply (outcome_bind _ _ t1); [|done|].
    + pose proof (compiles_map pubkeyTableIndex (fun f => f) (fun k => [k]) ks
        (fun x _ => compiles_key x) t Ht) as H.
      cbv beta zeta in H. replace (concat (map (fun k => [k]) ks)) with ks in H; [exact H|].
      clear. induction ks as [|k ks IH]; simpl; congruence.
    + intros idxs Hl His. apply outcome_ret; [done|]. intros t'' Hp. simpl.
      by rewrite His.
  - intros k Hl1 Hk.
    eapply (outcome_bind _ _ t2 _ (fun o => forall t'', t2 `prefix_of` t'' ->
      owner_traverse (resolve t'') o = Some owner)); [|done|].
    + destruct owner as [o|]; [|by apply outcome_ret].
      eapply (outcome_bind _ _ t2); [by apply compiles_key|done|].
      intros i' Hl Hi. apply outcome_ret; [done|]. intros t'' Hp. simpl. by rewrite Hi.
    + intros o Hl2 Ho. apply outcome_ret; [done|]. intros t'' Hp.
      unfold account_traverse. cbn [ac_kind ac_owner ac_index].
      rewrite Hk, Ho; [done..|]. etrans; [apply table_adds_prefix | exact Hp].
Qed.

Lemma compiles_constraint c :
  compiles compileInstructionConstraint constraint_traverse constraint_keys c.
Proof.
  intros t Ht. destruct c as [p accounts ds].
  unfold compileInstructionConstraint, constraint_keys. cbn [ic_program ic_accounts ic_data].
  set (t1 := foldl table_add t [p]).
  set (t2 := foldl table_add t (p :: concat (map account_keys accounts))).
  eapply (outcome_bind _ _ t1); [by apply compiles_key | apply (table_adds_prefix _ t1) |].
  intros i Hl1 Hi.
  eapply (outcome_bind _ _ t2);
    [apply (compiles_map _ _ _ accounts (fun x _ => compiles_account x)); done | done |].
  intros idxs Hl2 His. apply outcome_ret; [done|]. intros t'' Hp.
  unfold constraint_traverse. cbn [ic_program ic_accounts ic_data].
  assert (Hp1 : t1 `prefix_of` t'')
    by (transitivity t2; [apply (table_adds_prefix _ t1) | exact Hp]).
  rewrite (Hi t'' Hp1); simpl. by rewrite (His t'' Hp).
Qed.

(** Resolve every key of the compiled constraints through the table. *)
Definition decompile (p : CompiledPayload) : option (list (InstructionConstraint pubkey)) :=
  mapO (constraint_traverse (resolve (cp_pubkeyTable p))) (cp_constraints p).

Lemma compile_spec i cs ls :
  if (length (distinct_keys cs) <=? 240)%nat
  then exists p, compileProgramInteractionPayload i cs ls = Ok p /\
         cp_accountIndex p = i /\ cp_limits p = ls /\
         cp_pubkeyTable p = distinct_keys cs /\ decompile p = Some cs
  else compileProgramInteractionPayload i cs ls = overflow.
Proof.
  pose proof (compiles_map _ _ _ cs (fun x _ => compiles_constraint x) [] ltac:(simpl; lia)) as H.
  cbv zeta in H. unfold outcome in H. fold (distinct_keys cs) in H.
  unfold compileProgramInteractionPayload.
  destruct (length (distinct_keys cs) <=? 240)%nat; [|by rewrite H].
  destruct H as (ys & -> & Hys). eexists. simpl. split; [reflexivity|].
  simpl. split_and!; [done..|]. by apply Hys.
Qed.

Lemma distinct_keys_NoDup cs : NoDup (distinct_keys cs).
Proof. apply table_adds_NoDup, NoDup_nil_2. Qed.
End Table.

(** ** Reading a policy back

    The two encodings differ in how they count lists (one byte or four) and in
    how they name keys (a table index or the 32 bytes); the grammar below is
    generic in both. *)
Definition d_operator : dec Operator :=
  t <~ d_u8;
  if t =? 0 then dret equals else if t =? 1 then dret notEquals
  else if t =? 2 then dret greaterThan else if t =? 3 then dret greaterThanOrEqualTo
  else if t =? 4 then dret lessThan else if t =? 5 then dret lessThanOrEqualTo else dfail.

Definition d_data_value : dec DataValue :=
  t <~ d_u8;
  if t =? 0 then (v <~ d_u8; dret (VU8 v))
  else if t =? 1 then (v <~ d_u16; dret (VU16Le v))
  else if t =? 2 then (v <~ d_u32; dret (VU32Le v))
  else if t =? 3 then (v <~ d_u64; dret (VU64Le v))
  else if t =? 4 then (lo <~ d_u64; hi <~ d_u64; dret (VU128Le (lo + 2 ^ 64 * hi)))
  else if t =? 5 then (v <~ d_vec d_u8; dret (VU8Slice v))
  else dfail.

Definition d_data : dec DataConstraint :=
  offset <~ d_u64; value <~ d_data_value; op <~ d_operator; dret (MkData offset value op).

Section Grammar.
Context {K : Type} (d_list : forall T, dec T -> dec (list T)) (d_k : dec K).

Definition d_kind : dec (AccountKind K) :=
  t <~ d_u8;
  if t =? 0 then (ks <~ d_list _ d_k; dret (KPubkey ks))
  else if t =? 1 then (ds <~ d_list _ d_data; dret (KAccountData ds))
  else dfail.
Definition d_account : dec (AccountConstraint K) :=
  i <~ d_u8; kind <~ d_kind; owner <~ d_option d_k; dret (MkAccount i kind owner).
Definition d_constraint : dec (InstructionConstraint K) :=
  p <~ d_k; accounts <~ d_list _ d_account; ds <~ d_list _ d_data;
  dret (MkConstraint p accounts ds).
Definition d_limit : dec (DailySpendingLimit (list Z)) :=
  mint <~ d_key; start <~ d_i64; _ <~ d_const 0; _ <~ d_const SQUADS_PERIOD_V2_DAILY;
  amount <~ d_u64; if start =? 0 then dret (MkLimit mint amount) else dfail.
End Grammar.

(** A policy as a reader of the bytes sees it: keys are byte strings. *)
Record wire_policy := WirePolicy {
  wp_accountIndex : Z;
  wp_constraints : list (InstructionConstraint (list Z));
  wp_limits : list (DailySpendingLimit (list Z));
}.

Definition bytes_resolve (table : list (list Z)) (i : Z) : option (list Z) :=
  if i <? 0 then None else table !! Z.to_nat i.

Definition d_compact_policy : dec wire_policy :=
  i <~ d_u8; table <~ d_small_vec d_key;
  cs <~ d_small_vec (d_constraint (@d_small_vec) d_u8);
  _ <~ d_const 0; _ <~ d_const 0; ls <~ d_small_vec d_limit;
  match mapO (constraint_traverse (bytes_resolve table)) cs with
  | Some cs => dret (WirePolicy i cs ls)
  | None => dfail
  end.

Definition d_legacy_policy : dec wire_policy :=
  i <~ d_u8; cs <~ d_vec (d_constraint (@d_vec) d_key);
  _ <~ d_const 0; _ <~ d_const 0; ls <~ d_vec d_limit; dret (WirePolicy i cs ls).

(** The signer with all permissions, threshold 1, no time lock. *)
Definition d_signers : dec (list Z) :=
  n <~ d_u32; k <~ d_key; _ <~ d_const SQUADS_FULL_PERMISSIONS_MASK;
  threshold <~ d_u16; lock <~ d_u32;
  if (n =? 1) && (threshold =? 1) && (lock =? 0) then dret k else dfail.

(** The frame of a settings transaction with one action. *)
Definition d_settings {A} (d_action : dec A) : dec A :=
  prefix <~ d_take 8; _ <~ d_const SQUADS_SYNC_SIGNER_COUNT; n <~ d_u32; x <~ d_action;
  _ <~ d_const 0;
  if bool_decide (prefix = EXECUTE_SETTINGS_TRANSACTION_SYNC_DISCRIMINATOR) && (n =? 1)
  then dret x else dfail.

Definition d_policy_version : dec wire_policy :=
  version <~ d_u8;
  if version =? POLICY_CREATION_PAYLOAD_PROGRAM_INTERACTION then d_compact_policy
  else if version =? POLICY_CREATION_PAYLOAD_LEGACY_PROGRAM_INTERACTION then d_legacy_policy
  else dfail.

(** Policy creation: seed, policy, delegated signer. *)
Definition d_create : dec (Z * wire_policy * list Z) :=
  d_settings (_ <~ d_const 7; seed <~ d_u64; policy <~ d_policy_version; signer <~ d_signers;
              _ <~ d_const 0; _ <~ d_const 0; dret (seed, policy, signer)).

(** Policy update: policy account, policy, delegated signer. *)
Definition d_update : dec (list Z * wire_policy * list Z) :=
  d_settings (_ <~ d_const 8; account <~ d_key; signer <~ d_signers;
              policy <~ d_policy_version; _ <~ d_const 0; dret (account, policy, signer)).

(** *** Ranges the formats can carry *)
Definition value_wf (v : DataValue) : Prop :=
  match v with
  | VU8 v => 0 <= v < 2 ^ 8
  | VU16Le v => 0 <= v < 2 ^ 16
  | VU32Le v => 0 <= v < 2 ^ 32
  | VU64Le v => is_u64 v
  | VU128Le v => 0 <= v < 2 ^ 128
  | VU8Slice v => Forall is_byte v /\ Z.of_nat (length v) < 2 ^ 32
  end.
Definition data_wf (d : DataConstraint) : Prop := is_u64 (dc_offset d) /\ value_wf (dc_value d).

(** [n] is the largest list length the format can count. *)
Section Wf.
Context {K : Type} (n : Z).
Definition short {A} (l : list A) : Prop := Z.of_nat (length l) <= n.
Definition kind_wf (k : AccountKind K) : Prop :=
  match k with
  | KPubkey ks => short ks
  | KAccountData ds => short ds /\ Forall data_wf ds
  end.
Definition account_wf (a : AccountConstraint K) : Prop :=
  is_byte (ac_index a) /\ kind_wf (ac_kind a).
Definition constraint_wf (c : InstructionConstraint K) : Prop :=
  short (ic_accounts c) /\ Forall account_wf (ic_accounts c) /\
  short (ic_data c) /\ Forall data_wf (ic_data c).
Definition policy_wf (cs : list (InstructionConstraint K)) (ls : list (DailySpendingLimit pubkey)) :
    Prop :=
  short cs /\ Forall constraint_wf cs /\ short ls /\ Forall (fun l => is_u64 (sl_maxPerPeriod l)) ls.
End Wf.

(** *** The shared parts read back *)
Ltac codec_tag := eapply codec_bind; [apply codec_u8; byte_lit | cbn [Z.eqb Pos.eqb]].

Lemma codec_operator o : codec (pushU8 (operatorTag o)) d_operator o.
Proof.
  destruct (codec_u8 (operatorTag o)) as (bs & W & R);
    [destruct o; unfold is_byte; simpl; lia|].
  exists bs. split; [done|]. intros rest. unfold d_operator, dbind. rewrite R. by destruct o.
Qed.

Lemma codec_value v : value_wf v -> codec (encodeDataValue v) d_data_value v.
Proof.
  intros H. unfold d_data_value. destruct v as [v|v|v|v|v|v]; cbn [encodeDataValue value_wf] in *;
    codec_tag.
  - by apply (codec_map _ _ VU8), codec_u8.
  - by apply (codec_map _ _ VU16Le), codec_u16.
  - by apply (codec_map _ _ VU32Le), codec_u32.
  - by apply (codec_map _ _ VU64Le), codec_u64.
  - change (2 ^ 64 - 1) with (Z.ones 64). rewrite Z.land_ones, Z.shiftr_div_pow2 by lia.
    eapply codec_bind; [apply codec_u64; unfold is_u64; rewrite U64_MAX_val|].
    { pose proof (Z.mod_pos_bound v (2 ^ 64)). lia. }
    pose proof (codec_map (pushU64 (v / 2 ^ 64)) d_u64
      (fun hi => VU128Le (v mod 2 ^ 64 + 2 ^ 64 * hi)) (v / 2 ^ 64)) as C. cbv beta in C.
    replace (v mod 2 ^ 64 + 2 ^ 64 * (v / 2 ^ 64)) with v in C
      by (rewrite Z.add_comm; apply Z.div_mod; lia).
    apply C, codec_u64. unfold is_u64. rewrite U64_MAX_val.
    assert (v / 2 ^ 64 < 2 ^ 64) by (apply Z.div_lt_upper_bound; lia).
    pose proof (Z.div_pos v (2 ^ 64)). lia.
  - destruct H as [Hb Hl]. apply (codec_map _ _ VU8Slice).
    rewrite <- (List.map_id v) at 2. apply codec_vec; [done|]. intros x Hx.
    apply codec_u8. rewrite Forall_forall in Hb. by apply Hb.
Qed.

Lemma codec_data d : data_wf d -> codec (encodeDataConstraint d) d_data d.
Proof.
  destruct d as [offset v op]. intros [Ho Hv]; cbn [dc_offset dc_value] in *.
  unfold encodeDataConstraint, d_data; cbn [dc_offset dc_value dc_operator].
  eapply codec_bind; [by apply codec_u64|].
  eapply codec_bind; [by apply codec_value|].
  apply (codec_map _ _ (MkData offset v)), codec_operator.
Qed.

Lemma codec_pushNone : codec pushNone (d_const 0) tt.
Proof. apply (codec_const 0). unfold is_byte; lia. Qed.

Lemma Forall_elem {A} (P : A -> Prop) l x : Forall P l -> x ∈ l -> P x.
Proof. rewrite Forall_forall. auto. Qed.

Lemma elem_of_concat {A B} (f : A -> list B) l x y :
  x ∈ l -> y ∈ f x -> y ∈ concat (map f l).
Proof. intros Hx Hy. induction l; set_solver. Qed.

#[local] Hint Resolve codec_data codec_pushNone : codec.

(** One account constraint, over any list and key encodings. *)
Definition gen_account {K} (pv : forall T, list T -> (T -> enc) -> enc) (pk : K -> enc)
    (a : AccountConstraint K) : enc :=
  pushU8 (ac_index a) ;;;
  match ac_kind a with
  | KPubkey ks => pushU8 0 ;;; pv _ ks pk
  | KAccountData ds => pushU8 1 ;;; pv _ ds encodeDataConstraint
  end ;;;
  pushOption (ac_owner a) pk.

Definition gen_constraint {K} (pv : forall T, list T -> (T -> enc) -> enc) (pk : K -> enc)
    (c : InstructionConstraint K) : enc :=
  pk (ic_program c) ;;;
  pv _ (ic_accounts c) (gen_account pv pk) ;;;
  pv _ (ic_data c) encodeDataConstraint.

Section Generic.
Context {K K' : Type} (pv : forall T, list T -> (T -> enc) -> enc)
  (d_list : forall T, dec T -> dec (list T)) (pk : K -> enc) (dk : dec K') (g : K -> K')
  (P : K -> Prop) (n : Z).
Hypothesis Hlist : forall (T B : Type) (items : list T) (e : T -> enc) (d : dec B) (h : T -> B),
  short n items -> (forall x, x ∈ items -> codec (e x) d (h x)) ->
  codec (pv _ items e) (d_list _ d) (map h items).
Hypothesis Hkey : forall k, P k -> codec (pk k) dk (g k).

Lemma codec_data_list ds :
  short n ds -> Forall data_wf ds -> codec (pv _ ds encodeDataConstraint) (d_list _ d_data) ds.
Proof.
  intros Hs Hf. rewrite <- (List.map_id ds) at 2. apply Hlist; [done|].
  intros x Hx. apply codec_data. by eapply Forall_elem.
Qed.

Lemma codec_account a :
  account_wf n a -> Forall P (account_keys a) ->
  codec (gen_account pv pk a) (d_account d_list dk) (account_map g a).
Proof.
  destruct a as [i kind owner]. intros [Hi Hkind] Hk.
  unfold account_keys, gen_account, d_account, account_map in *.
  cbn [ac_index ac_kind ac_owner] in *. apply Forall_app in Hk as [Hks Hko].
  eapply codec_bind; [by apply codec_u8|].
  apply (codec_bind _ _ _ _ (kind_map g kind)).
  - unfold d_kind. destruct kind as [ks|ds]; cbn [kind_map] in *; codec_tag.
    + apply (codec_map _ _ KPubkey), Hlist; [done|].
      intros k Hk. apply Hkey. by apply (Forall_elem _ _ _ Hks).
    + destruct Hkind. by apply (codec_map _ _ KAccountData), codec_data_list.
  - apply (codec_map _ _ (MkAccount i (kind_map g kind))), codec_option.
    intros o ->. apply Hkey. by inversion Hko.
Qed.

Lemma codec_constraint c :
  constraint_wf n c -> Forall P (constraint_keys c) ->
  codec (gen_constraint pv pk c) (d_constraint d_list dk) (constraint_map g c).
Proof.
  destruct c as [p accounts ds]. intros (Hs & Ha & Hsd & Hd) Hk.
  unfold constraint_keys, gen_constraint, d_constraint, constraint_map in *.
  cbn [ic_program ic_accounts ic_data] in *. apply Forall_cons in Hk as [Hp Hk].
  eapply codec_bind; [by apply Hkey|].
  eapply codec_bind.
  - apply Hlist; [done|]. intros a Hin. apply codec_account; [by eapply Forall_elem|].
    apply Forall_forall. intros k Hk'. eapply Forall_elem; [exact Hk|].
    by eapply elem_of_concat.
  - by apply (codec_map _ _ (MkConstraint (g p) _)), codec_data_list.
Qed.
End Generic.

Section Read.
Context {L : PublicKeyLaws PK}.

Lemma codec_limit l :
  is_u64 (sl_maxPerPeriod l) -> codec (encodeSpendingLimit l) d_limit (limit_map toBytes l).
Proof.
  intros H. unfold encodeSpendingLimit, d_limit.
  eapply codec_bind; [apply codec_key|].
  eapply codec_bind; [apply codec_i64; split; vm_compute; discriminate|].
  eapply codec_bind; [apply codec_pushNone|].
  eapply codec_bind; [apply codec_const; byte_lit|].
  apply (codec_map _ _ (MkLimit (toBytes (sl_mint l)))), codec_u64, H.
Qed.

Lemma codec_limits_small ls :
  short 255 ls -> Forall (fun l => is_u64 (sl_maxPerPeriod l)) ls ->
  codec (pushSmallVec ls encodeSpendingLimit) (d_small_vec d_limit) (map (limit_map toBytes) ls).
Proof.
  intros Hs Hf. apply codec_small_vec; [done|]. intros l Hl. apply codec_limit.
  by apply (Forall_elem _ _ _ Hf).
Qed.

Lemma codec_signers k : codec (encodeSigners k) d_signers (toBytes k).
Proof.
  apply (codec_ext (pushU32 1 ;;; pushPubkey k ;;; pushU8 7 ;;; pushU16 1 ;;; pushU32 0));
    [reflexivity|]. unfold d_signers.
  eapply codec_bind; [apply codec_u32; lia|].
  eapply codec_bind; [apply codec_key|].
  eapply codec_bind; [apply codec_const; byte_lit|].
  eapply codec_bind; [apply codec_u16; lia|].
  eapply codec_final; [apply codec_u32; lia | reflexivity].
Qed.

Lemma codec_header {A} action (d : dec A) a :
  codec action d a ->
  codec (encodeSettingsTransaction action) (d_settings d) a.
Proof.
  intros Ha.
  apply (codec_ext (pushBytes EXECUTE_SETTINGS_TRANSACTION_SYNC_DISCRIMINATOR ;;;
    pushU8 SQUADS_SYNC_SIGNER_COUNT ;;; pushU32 1 ;;; action ;;; pushNone)).
  { intros b. unfold encodeSettingsTransaction, pushVec, pushItems, enc_seq. simpl.
    by destruct (action _). }
  eapply codec_bind.
  { apply (codec_take EXECUTE_SETTINGS_TRANSACTION_SYNC_DISCRIMINATOR).
    unfold EXECUTE_SETTINGS_TRANSACTION_SYNC_DISCRIMINATOR.
    repeat first [apply Forall_nil_2 | apply Forall_cons_2; [byte_lit|]]. }
  eapply codec_bind; [apply codec_const; byte_lit|].
  eapply codec_bind; [apply codec_u32; lia|].
  eapply codec_bind; [exact Ha|].
  eapply codec_final; [apply codec_pushNone | reflexivity].
Qed.

(** *** The compact form resolves to the policy it was compiled from *)
Lemma bytes_resolve_map T i : bytes_resolve (map toBytes T) i = toBytes <$> resolve T i.
Proof. unfold bytes_resolve, resolve. destruct (i <? 0); [done|]. apply list_lookup_fmap. Qed.

Lemma mapO_natural {A B C} (f : A -> option B) (f' : A -> option C) (g : B -> C) l l' :
  (forall x y, f x = Some y -> f' x = Some (g y)) ->
  mapO f l = Some l' -> mapO f' l = Some (map g l').
Proof.
  intros H. rewrite !mapO_Forall2. induction 1; simpl; constructor; eauto.
Qed.

Lemma account_traverse_inv {K K'} (f : K -> option K') a a' :
  account_traverse f a = Some a' ->
  ac_index a' = ac_index a /\ kind_traverse f (ac_kind a) = Some (ac_kind a') /\
  owner_traverse f (ac_owner a) = Some (ac_owner a').
Proof.
  unfold account_traverse. intros H.
  destruct (kind_traverse f (ac_kind a)) as [k|]; simpl in H; [|done].
  destruct (owner_traverse f (ac_owner a)) as [o|]; simpl in H; [|done].
  by injection H as <-.
Qed.

Lemma constraint_traverse_inv {K K'} (f : K -> option K') c c' :
  constraint_traverse f c = Some c' ->
  f (ic_program c) = Some (ic_program c') /\
  mapO (account_traverse f) (ic_accounts c) = Some (ic_accounts c') /\
  ic_data c' = ic_data c.
Proof.
  unfold constraint_traverse. intros H.
  destruct (f (ic_program c)) as [p|]; simpl in H; [|done].
  destruct (mapO (account_traverse f) (ic_accounts c)) as [o|]; simpl in H; [|done].
  by injection H as <-.
Qed.

Lemma account_traverse_natural {K K' K''} (f : K -> option K') (f' : K -> option K'') g :
  (forall x y, f x = Some y -> f' x = Some (g y)) ->
  forall a a', account_traverse f a = Some a' -> account_traverse f' a = Some (account_map g a').
Proof.
  intros Hf a a' (Hi & Hk & Ho)%account_traverse_inv. unfold account_traverse, account_map.
  assert (Hk' : kind_traverse f' (ac_kind a) = Some (kind_map g (ac_kind a'))).
  { destruct (ac_kind a) as [ks|ds]; simpl in *; [|by injection Hk as <-].
    destruct (mapO f ks) as [ks'|] eqn:E; simpl in Hk; [|done]. injection Hk as <-.
    by rewrite (mapO_natural f f' g ks ks' Hf E). }
  assert (Ho' : owner_traverse f' (ac_owner a) = Some (g <$> ac_owner a')).
  { destruct (ac_owner a) as [k|]; simpl in *; [|by injection Ho as <-].
    destruct (f k) as [k'|] eqn:E; simpl in Ho; [|done]. injection Ho as <-.
    by rewrite (Hf k k' E). }
  rewrite Hk', Ho', Hi. done.
Qed.

Lemma constraint_traverse_natural {K K' K''} (f : K -> option K') (f' : K -> option K'') g :
  (forall x y, f x = Some y -> f' x = Some (g y)) ->
  forall c c', constraint_traverse f c = Some c' ->
    constraint_traverse f' c = Some (constraint_map g c').
Proof.
  intros Hf c c' (Hp & Ha & Hd)%constraint_traverse_inv.
  unfold constraint_traverse, constraint_map. rewrite (Hf _ _ Hp); simpl.
  rewrite (mapO_natural _ (account_traverse f') (account_map g) _ _
    (account_traverse_natural f f' g Hf) Ha). simpl. by rewrite Hd.
Qed.

Lemma mapO_length {A B} (f : A -> option B) l l' : mapO f l = Some l' -> length l = length l'.
Proof. rewrite mapO_Forall2. apply Forall2_length. Qed.

(** Resolution keeps the shape, so a resolved constraint's ranges are the
    compiled one's, and every key it resolved had an image. *)
Lemma account_traverse_wf {K K'} (f : K -> option K') n a a' :
  account_traverse f a = Some a' -> account_wf n a' ->
  account_wf n a /\ Forall (fun k => is_Some (f k)) (account_keys a).
Proof.
  intros (Hi & Hk & Ho)%account_traverse_inv [Hw1 Hw2].
  unfold account_wf, account_keys. rewrite <- Hi.
  assert (Hown : Forall (fun k => is_Some (f k)) (option_list (ac_owner a))).
  { destruct (ac_owner a) as [k|]; simpl in *; [|constructor].
    constructor; [|constructor]. by destruct (f k); simpl in Ho. }
  destruct (ac_kind a) as [ks|ds]; simpl in *.
  - destruct (mapO f ks) as [ks'|] eqn:E; simpl in Hk; [|done]. injection Hk as Hk.
    rewrite <- Hk in Hw2. simpl in Hw2. split.
    + split; [done|]. unfold short in *. by rewrite (mapO_length _ _ _ E).
    + apply Forall_app. split; [|done]. apply mapO_Forall2 in E.
      clear -E. induction E; constructor; eauto.
  - injection Hk as Hk. rewrite <- Hk in Hw2. done.
Qed.

Lemma constraint_traverse_wf {K K'} (f : K -> option K') n c c' :
  constraint_traverse f c = Some c' -> constraint_wf n c' ->
  constraint_wf n c /\ Forall (fun k => is_Some (f k)) (constraint_keys c).
Proof.
  intros (Hp & Ha & Hd)%constraint_traverse_inv (H1 & H2 & H3 & H4).
  rewrite Hd in H3, H4. unfold constraint_wf, constraint_keys.
  assert (Hacc : Forall (fun a => account_wf n a /\
      Forall (fun k => is_Some (f k)) (account_keys a)) (ic_accounts c)).
  { pose proof Ha as Ha'. apply mapO_Forall2 in Ha'. clear -Ha' H2.
    induction Ha' as [|a a' l l' Ha Hl IH]; [constructor|].
    apply Forall_cons in H2 as [? ?].
    constructor; [by eapply account_traverse_wf | by apply IH]. }
  apply mapO_length in Ha. unfold short in *. rewrite Ha.
  split_and!; [done | | done | done |].
  - eapply Forall_impl; [exact Hacc|]. naive_solver.
  - constructor; [by rewrite Hp|]. apply Forall_concat, Forall_fmap.
    eapply Forall_impl; [exact Hacc|]. naive_solver.
Qed.

Definition wire_of (i : Z) (cs : list (InstructionConstraint pubkey))
    (ls : list (DailySpendingLimit pubkey)) : wire_policy :=
  WirePolicy i (map (constraint_map toBytes) cs) (map (limit_map toBytes) ls).
End Read.

Section Policies.
Context {L : PublicKeyLaws PK}.

Lemma codec_compact i cs ls p :
  is_byte i -> policy_wf 255 cs ls -> (length (distinct_keys cs) <= 240)%nat ->
  compileProgramInteractionPayload i cs ls = Ok p ->
  codec (encodeProgramInteractionPayload p) d_compact_policy (wire_of i cs ls).
Proof.
  intros Hi (Hs & Hc & Hsl & Hl) Ht Hp.
  pose proof (compile_spec i cs ls) as H. apply Nat.leb_le in Ht as Ht'. rewrite Ht' in H.
  destruct H as (p' & E & <- & <- & Htab & Hdec). rewrite E in Hp. injection Hp as ->.
  destruct p as [i' T ccs ls']; unfold decompile in Hdec; cbn [cp_accountIndex cp_limits
    cp_pubkeyTable cp_constraints] in *. subst T.
  clear Ht'. generalize dependent (distinct_keys cs). intros T E Ht Hdec.
  assert (Hwf : Forall (fun c => constraint_wf 255 c /\ Forall is_byte (constraint_keys c)) ccs).
  { pose proof Hdec as H2. apply mapO_Forall2 in H2. clear -H2 Hc Ht.
    induction H2 as [|c c' l l' H _ IH]; [constructor|].
    apply Forall_cons in Hc as [Hc Hcs]. constructor; [|by apply IH].
    destruct (constraint_traverse_wf _ 255 c c' H Hc) as [Hw Hk]. split; [done|].
    eapply Forall_impl; [exact Hk|]. intros k [v Hv]. unfold resolve in Hv.
    destruct (Z.ltb_spec k 0); [done|]. apply lookup_lt_Some in Hv. unfold is_byte. lia. }
  unfold encodeProgramInteractionPayload, d_compact_policy; cbn [cp_accountIndex cp_limits
    cp_pubkeyTable cp_constraints].
  eapply codec_bind; [by apply codec_u8|].
  eapply codec_bind; [apply (codec_small_vec T pushPubkey d_key toBytes);
    [lia | intros; apply codec_key]|].
  eapply codec_bind.
  { apply (codec_small_vec ccs encodeCompiledConstraint _ (constraint_map id)).
    - apply mapO_length in Hdec. unfold short in Hs. lia.
    - intros c Hcin. destruct (Forall_elem _ _ _ Hwf Hcin) as [Hw Hk].
      apply (codec_constraint (@pushSmallVec) (@d_small_vec) pushU8 d_u8 id is_byte 255);
        [apply @codec_small_vec | intros; by apply codec_u8 | done | done]. }
  eapply codec_bind; [apply codec_pushNone|].
  eapply codec_bind; [apply codec_pushNone|].
  eapply codec_final; [by apply codec_limits_small|].
  assert (Hid : map (constraint_map id) ccs = ccs).
  { apply map_ext_id. intros [q accs ds]. unfold constraint_map; simpl. f_equal.
    apply map_ext_id. intros [j k o]. unfold account_map; simpl. f_equal.
    - destruct k; simpl; f_equal. apply List.map_id.
    - by destruct o. }
  rewrite Hid.
  rewrite (mapO_natural _ (constraint_traverse (bytes_resolve (map toBytes T)))
    (constraint_map toBytes) _ _ (constraint_traverse_natural _ _ toBytes
      (fun x y H => eq_trans (bytes_resolve_map T x) (f_equal (fmap toBytes) H))) Hdec).
  reflexivity.
Qed.

Lemma codec_legacy i cs ls :
  is_byte i -> policy_wf (2 ^ 32 - 1) cs ls ->
  codec (encodeLegacyProgramInteractionPayload i cs ls) d_legacy_policy (wire_of i cs ls).
Proof.
  intros Hi (Hs & Hc & Hsl & Hl). unfold short in Hs, Hsl.
  unfold encodeLegacyProgramInteractionPayload, d_legacy_policy.
  eapply codec_bind; [by apply codec_u8|].
  eapply codec_bind.
  { apply (codec_vec cs encodeLegacyConstraint _ (constraint_map toBytes)); [lia|].
    intros c Hcin.
    apply (codec_constraint (@pushVec) (@d_vec) pushPubkey d_key toBytes (fun _ => True) (2 ^ 32 - 1));
      [ intros; apply codec_vec; [unfold short in *; lia | done] | intros; apply codec_key
      | by apply (Forall_elem _ _ _ Hc) | by apply Forall_true ]. }
  eapply codec_bind; [apply codec_pushNone|].
  eapply codec_bind; [apply codec_pushNone|].
  apply (codec_map _ _ (WirePolicy i (map (constraint_map toBytes) cs))).
  apply codec_vec; [lia|]. intros l Hlin. by apply codec_limit, (Forall_elem _ _ _ Hl).
Qed.

(** A longer limit admits every policy a shorter one admits. *)
Lemma policy_wf_mono n m (cs : list (InstructionConstraint pubkey)) ls :
  n <= m -> policy_wf n cs ls -> policy_wf m cs ls.
Proof.
  intros Hnm (Hs & Hc & Hsl & Hl). unfold policy_wf, short in *.
  split_and!; [lia | | lia | done].
  eapply Forall_impl; [exact Hc|]. intros c (H1 & H2 & H3 & H4). unfold constraint_wf, short in *.
  split_and!; [lia | | lia | done].
  eapply Forall_impl; [exact H2|]. intros a [Hi Hk]. split; [done|].
  destruct (ac_kind a); simpl in *; unfold short in *; [lia|]. destruct Hk; split; [lia|done].
Qed.

Lemma codec_create seed i cs ls signer enc_payload version d :
  is_u64 seed -> is_byte version -> codec enc_payload d (wire_of i cs ls) ->
  (forall rest, (if version =? POLICY_CREATION_PAYLOAD_PROGRAM_INTERACTION then d_compact_policy
   else if version =? POLICY_CREATION_PAYLOAD_LEGACY_PROGRAM_INTERACTION then d_legacy_policy
   else dfail) rest = d rest) ->
  codec (encodeSettingsTransaction
    (pushU8 7 ;;; pushU64 seed ;;; pushU8 version ;;; enc_payload ;;; encodeSigners signer ;;;
     pushNone ;;; pushNone)) d_create (seed, wire_of i cs ls, toBytes signer).
Proof.
  intros Hs Hv Hp Hd. apply codec_header.
  eapply codec_bind; [apply codec_const; byte_lit|].
  eapply codec_bind; [by apply codec_u64|].
  apply (codec_ext ((pushU8 version ;;; enc_payload) ;;; encodeSigners signer ;;; pushNone ;;; pushNone)).
  { intros b. apply enc_seq_assoc. }
  eapply codec_bind.
  { unfold d_policy_version. eapply codec_bind; [by apply codec_u8|].
    destruct Hp as (bs & W & R). exists bs. split; [done|]. intros rest. by rewrite Hd, R. }
  eapply codec_bind; [apply codec_signers|].
  eapply codec_bind; [apply codec_pushNone|].
  eapply codec_final; [apply codec_pushNone | reflexivity].
Qed.

Lemma create_policy_ok config context cs policySeed ls encoding s acct :
  numeric_value policySeed = Some s -> is_u64 s ->
  deriveActionAccount config (settings context) (Big s) = Ok acct ->
  is_byte (accountIndex context) -> policy_wf 255 cs ls ->
  (length (distinct_keys cs) <= 240)%nat ->
  exists ix,
    createProgramInteractionPolicyInstruction config context cs policySeed ls encoding = Ok ix /\
    programId ix = squadsSmartAccountProgramId config /\
    keys ix = policyAccounts config context acct /\
    d_create (data ix) =
      Some (s, wire_of (accountIndex context) cs ls, toBytes (delegatedSigner context), []).
Proof.
  intros Hn Hu Hacct Hi Hwf Ht. unfold createProgramInteractionPolicyInstruction.
  rewrite (proj2 (normalizeU64_spec _ _ s) (conj Hn Hu)). cbn [mbind result_bind].
  rewrite Hacct. cbn [mbind result_bind].
  assert (C : exists bs,
    match encoding with
    | compact => payload ← compileProgramInteractionPayload (accountIndex context) cs ls;
        serializeSettingsActions (delegatedSigner context) s payload
    | legacy => serializeLegacySettingsActions (delegatedSigner context) s
        (accountIndex context) cs ls
    end = Ok bs /\ d_create bs =
      Some (s, wire_of (accountIndex context) cs ls, toBytes (delegatedSigner context), [])).
  { destruct encoding.
    - pose proof (compile_spec (accountIndex context) cs ls) as Hc.
      apply Nat.leb_le in Ht as Ht'. rewrite Ht' in Hc. destruct Hc as (p & E & _). rewrite E.
      destruct (codec_run _ _ _ (codec_create s (accountIndex context) cs ls
        (delegatedSigner context) _ POLICY_CREATION_PAYLOAD_PROGRAM_INTERACTION _ Hu
        ltac:(byte_lit) (codec_compact _ _ _ _ Hi Hwf Ht E) ltac:(done))) as (bs & Hb & _ & Hd).
      exists bs. split; [exact Hb | exact Hd].
    - apply (policy_wf_mono 255 (2 ^ 32 - 1)) in Hwf; [|lia].
      destruct (codec_run _ _ _ (codec_create s (accountIndex context) cs ls
        (delegatedSigner context) _ POLICY_CREATION_PAYLOAD_LEGACY_PROGRAM_INTERACTION _ Hu
        ltac:(byte_lit) (codec_legacy _ _ _ Hi Hwf) ltac:(done))) as (bs & Hb & _ & Hd).
      exists bs. split; [exact Hb | exact Hd]. }
  destruct C as (bs & -> & Hd). cbn [mbind result_bind]. eauto.
Qed.

(** C1. A policy-creation instruction is built for every in-range policy whose
    constraints use at most 240 distinct keys, in the compact and in the legacy
    encoding, and the bytes of both read back as exactly that policy: seed, vault
    index, every constraint with its keys, every spending limit and the delegated
    signer. *)
Theorem create_policy_readable config context cs policySeed ls s acct :
  numeric_value policySeed = Some s -> is_u64 s ->
  deriveActionAccount config (settings context) (Big s) = Ok acct ->
  is_byte (accountIndex context) -> policy_wf 255 cs ls ->
  (length (distinct_keys cs) <= 240)%nat ->
  forall encoding, exists ix,
    createProgramInteractionPolicyInstruction config context cs policySeed ls encoding = Ok ix /\
    programId ix = squadsSmartAccountProgramId config /\
    keys ix = policyAccounts config context acct /\
    d_create (data ix) =
      Some (s, wire_of (accountIndex context) cs ls, toBytes (delegatedSigner context), []).
Proof. intros. by apply create_policy_ok. Qed.

(** A compact policy that needs more than 240 distinct keys is refused with the
    table-overflow error, whatever the rest of the policy is. *)
Theorem create_policy_overflow config context cs policySeed ls s acct :
  numeric_value policySeed = Some s -> is_u64 s ->
  deriveActionAccount config (settings context) (Big s) = Ok acct ->
  (240 < length (distinct_keys cs))%nat ->
  createProgramInteractionPolicyInstruction config context cs policySeed ls compact = overflow.
Proof.
  intros Hn Hu Hacct Ht. unfold createProgramInteractionPolicyInstruction.
  rewrite (proj2 (normalizeU64_spec _ _ s) (conj Hn Hu)). cbn [mbind result_bind].
  rewrite Hacct. cbn [mbind result_bind].
  pose proof (compile_spec (accountIndex context) cs ls) as Hc.
  apply Nat.leb_gt in Ht. rewrite Ht in Hc. by rewrite Hc.
Qed.

(** A policy-update instruction targets the given policy account and reads
    back as exactly the new policy. *)
Theorem update_policy_readable config context cs policy ls :
  is_byte (accountIndex context) -> policy_wf 255 cs ls ->
  (length (distinct_keys cs) <= 240)%nat ->
  exists ix,
    updateProgramInteractionPolicyInstruction config context cs policy ls = Ok ix /\
    keys ix = policyAccounts config context policy /\
    d_update (data ix) =
      Some (toBytes policy, wire_of (accountIndex context) cs ls,
            toBytes (delegatedSigner context), []).
Proof.
  intros Hi Hwf Ht. unfold updateProgramInteractionPolicyInstruction.
  pose proof (compile_spec (accountIndex context) cs ls) as Hc.
  apply Nat.leb_le in Ht as Ht'. rewrite Ht' in Hc. destruct Hc as (p & E & _). rewrite E.
  cbn [mbind result_bind].
  match goal with |- context [run_encoder ?e] =>
    assert (C : codec e d_update (toBytes policy, wire_of (accountIndex context) cs ls,
      toBytes (delegatedSigner context))) end.
  { apply codec_header.
    eapply codec_bind; [apply codec_const; byte_lit|].
    eapply codec_bind; [apply codec_key|].
    eapply codec_bind; [apply codec_signers|].
    apply (codec_ext ((pushU8 POLICY_CREATION_PAYLOAD_PROGRAM_INTERACTION ;;;
      encodeProgramInteractionPayload p) ;;; pushNone)).
    { intros b. apply enc_seq_assoc. }
    eapply codec_bind.
    { unfold d_policy_version. eapply codec_bind; [apply codec_u8; byte_lit|].
      by apply codec_compact. }
    eapply codec_final; [apply codec_pushNone | reflexivity]. }
  destruct (codec_run _ _ _ C) as (bs & -> & _ & Hd). cbn [mbind result_bind]. eauto.
Qed.

(** C11. Compilation replaces keys by indexes into one table. The table holds the
    distinct keys of the constraints in order of first use, without repetition;
    resolving the indexes gives the constraints back; and compilation fails, with
    the overflow error, exactly when there are more than 240 distinct keys. *)
Theorem compile_correct i cs ls :
  NoDup (distinct_keys cs) /\
  if (length (distinct_keys cs) <=? 240)%nat
  then exists p, compileProgramInteractionPayload i cs ls = Ok p /\
         cp_pubkeyTable p = distinct_keys cs /\ decompile p = Some cs
  else compileProgramInteractionPayload i cs ls = overflow.
Proof.
  split; [apply distinct_keys_NoDup|]. pose proof (compile_spec i cs ls) as H.
  destruct (length (distinct_keys cs) <=? 240)%nat; [|done].
  destruct H as (p & ? & _ & _ & ? & ?). eauto.
Qed.
End Policies.
End Squads.

(** ** Witnesses *)
Module SquadsWitness.
Import DemoKeys.

Definition demo_config : LoyalClusterConfig (PK := demo_keys) := {|
  squadsSmartAccountProgramId := key_of 11;
  jupiterV6ProgramId := key_of 12;
  loyalHubSwapProgramId := key_of 13;
  loyalHubAuthorizer := key_of 14;
  tokenProgramId := key_of 15;
  associatedTokenProgramId := key_of 16;
|}.

Definition demo_context : SquadsContext (PK := demo_keys) := {|
  settings := key_of 21;
  authority := key_of 22;
  delegatedSigner := key_of 23;
  accountIndex := 1;
  vault := key_of 24;
|}.

(** Two constraints that share a program and a key. *)
Definition demo_constraints : list (InstructionConstraint key) :=
  [ MkConstraint (key_of 31)
      [ MkAccount 0 (KPubkey [key_of 24]) None;
        MkAccount 2 (KPubkey [key_of 32; key_of 33]) (Some (key_of 15)) ]
      [ MkData 0 (VU8Slice [216; 224; 191; 27]) equals ];
    MkConstraint (key_of 31)
      [ MkAccount 1 (KAccountData [MkData 32 (VU16Le 150) lessThanOrEqualTo]) (Some (key_of 15)) ]
      [ MkData 8 (VU128Le (2 ^ 100)) greaterThan ] ].

Definition demo_limits : list (DailySpendingLimit key) := [MkLimit (key_of 33) 5000000].

(** 241 constraints, each on its own program. *)
Definition many_constraints : list (InstructionConstraint key) :=
  map (fun n => MkConstraint (key_of (Z.of_nat n)) [] []) (seq 0 241).

Definition demo_account (s : Z) : key :=
  match deriveActionAccount demo_config (settings demo_context) (Big s) with
  | Ok k => k | Throw _ => zero_key end.

Lemma demo_wf : policy_wf 255 demo_constraints demo_limits.
Proof.
  unfold policy_wf, demo_constraints, demo_limits.
  repeat first [ apply Forall_nil_2 | apply Forall_cons_2 | split
               | byte_lit | (simpl; lia) | (vm_compute; congruence) ].
Qed.

Lemma compile_correct_witness :
  exists p, compileProgramInteractionPayload (PK := demo_keys) 1 demo_constraints demo_limits = Ok p /\
    cp_pubkeyTable p = distinct_keys demo_constraints /\ decompile p = Some demo_constraints.
Proof. exact (proj2 (compile_correct 1 demo_constraints demo_limits)). Defined.

Lemma create_policy_readable_witness :
  exists ix,
    createProgramInteractionPolicyInstruction demo_config demo_context demo_constraints
      (NumInt 7) demo_limits legacy = Ok ix /\
    programId ix = key_of 11 /\
    keys ix = policyAccounts demo_config demo_context (demo_account 7) /\
    d_create (data ix) =
      Some (7, wire_of 1 demo_constraints demo_limits, toBytes (key_of 23), []).
Proof.
  apply (create_policy_readable demo_config demo_context demo_constraints (NumInt 7)
    demo_limits 7 (demo_account 7)).
  - reflexivity.
  - byte_lit.
  - vm_compute. reflexivity.
  - byte_lit.
  - apply demo_wf.
  - vm_compute. lia.
Defined.

Lemma update_policy_readable_witness :
  exists ix,
    updateProgramInteractionPolicyInstruction demo_config demo_context demo_constraints
      (key_of 99) demo_limits = Ok ix /\
    keys ix = policyAccounts demo_config demo_context (key_of 99) /\
    d_update (data ix) =
      Some (toBytes (key_of 99), wire_of 1 demo_constraints demo_limits, toBytes (key_of 23), []).
Proof.
  apply (update_policy_readable demo_config demo_context demo_constraints (key_of 99) demo_limits).
  - byte_lit.
  - apply demo_wf.
  - vm_compute. lia.
Defined.

Lemma create_policy_overflow_witness :
  createProgramInteractionPolicyInstruction demo_config demo_context many_constraints
    (NumInt 7) [] compact = overflow.
Proof.
  apply (create_policy_overflow demo_config demo_context many_constraints (NumInt 7) [] 7
    (demo_account 7)).
  - reflexivity.
  - byte_lit.
  - vm_compute. reflexivity.
  - vm_compute. lia.
Defined.
End SquadsWitness.
