(* ===== verification/Protocols.v ===== *)
(** Protocol constraints of the actions SDK
    (web/packages/loyal-actions/src/internal/protocols.ts, with the constants of
    constants.ts and generated/loyal-hub-abi.ts): what a delegated signer may call
    on Kamino, Jupiter, the Loyal Hub and the subscriptions program. *)
From S2P Require Import Prelude JsString Solana Bytes Subscriptions Squads.

(** ** Constants *)
Definition KAMINO_DEPOSIT_RESERVE_LIQUIDITY_DISCRIMINATOR := [216; 224; 191; 27; 204; 151; 102; 175].
Definition KAMINO_WITHDRAW_RESERVE_LIQUIDITY_DISCRIMINATOR := [235; 52; 119; 152; 149; 197; 20; 7].
Definition KAMINO_INIT_OBLIGATION_DISCRIMINATOR := [251; 10; 231; 76; 27; 11; 159; 96].
Definition KAMINO_VANILLA_OBLIGATION_TAG := 0.
Definition KAMINO_VANILLA_OBLIGATION_ID := 0.
Definition KAMINO_USER_METADATA_SEED := utf8 "user_meta".
Definition JUPITER_SWAP_DISCRIMINATOR := [187; 100; 250; 204; 49; 196; 175; 20].
Definition JUPITER_SWAP_SLIPPAGE_BPS_OFFSET := 24.
Definition JUPITER_SWAP_PLATFORM_FEE_BPS_OFFSET := 26.
Definition JUPITER_SHARED_ACCOUNTS_ROUTE_V2_DISCRIMINATOR := [209; 152; 83; 147; 124; 254; 216; 233].
Definition JUPITER_SHARED_ACCOUNTS_ROUTE_V2_SLIPPAGE_BPS_OFFSET := 25.
Definition JUPITER_SHARED_ACCOUNTS_ROUTE_V2_PLATFORM_FEE_BPS_OFFSET := 27.
Definition SUBSCRIPTION_RECURRING_DELEGATION_DISCRIMINATOR := 3.
Definition SUBSCRIPTION_RECURRING_DELEGATION_DISCRIMINATOR_OFFSET := 0.
Definition SUBSCRIPTION_RECURRING_DELEGATION_DELEGATOR_OFFSET := 3.
Definition SUBSCRIPTION_RECURRING_DELEGATION_DELEGATEE_OFFSET := 35.
Definition SUBSCRIPTION_RECURRING_DELEGATION_AUTHORITY_OFFSET := 107.
Definition SUBSCRIPTION_RECURRING_DELEGATION_MINT_OFFSET := 139.
Definition SUBSCRIPTION_RECURRING_DELEGATION_AMOUNT_PER_PERIOD_OFFSET := 195.
Definition SPL_TOKEN_ACCOUNT_AUTHORITY_OFFSET := 32.
Definition SPL_TOKEN_ACCOUNT_AMOUNT_OFFSET := 64.

(** generated/loyal-hub-abi.ts *)
Definition CONFIG_SEED := [99; 111; 110; 102; 105; 103].
Definition SWAP_EXACT_IN := 1.
Definition SWAP_EXACT_IN_TAG_OFFSET := 0.
Definition SWAP_EXACT_IN_MAX_FEE_BPS_DATA_OFFSET := 25.
Module SwapExactInAccounts.
Definition CONFIG := 0.
Definition USER_VAULT := 1.
Definition USER_INPUT := 2.
Definition USER_OUTPUT := 3.
Definition HUB_INPUT := 4.
Definition HUB_OUTPUT := 5.
Definition INPUT_MINT := 6.
Definition OUTPUT_MINT := 7.
Definition HUB_AUTHORIZER := 9.
Definition TOKEN_PROGRAM := 10.
End SwapExactInAccounts.

(** ** Data constraints *)
Definition dataSliceEquals (offset : Z) (bytes : list Z) : DataConstraint :=
  MkData offset (VU8Slice bytes) equals.
Definition dataU8Equals (offset value : Z) : DataConstraint :=
  MkData offset (VU8 value) equals.
Definition dataU16LeLessThanOrEqualTo (offset value : Z) : DataConstraint :=
  MkData offset (VU16Le value) lessThanOrEqualTo.
Definition dataU64LeGreaterThanOrEqualTo (offset value : Z) : DataConstraint :=
  MkData offset (VU64Le value) greaterThanOrEqualTo.
Definition dataU64LeLessThanOrEqualTo (offset value : Z) : DataConstraint :=
  MkData offset (VU64Le value) lessThanOrEqualTo.
Definition discriminatorConstraint (discriminator : list Z) : list DataConstraint :=
  [dataSliceEquals 0 discriminator].

Section Protocols.
Context {PK : PublicKeys}.

Definition KAMINO_LEND_PROGRAM_ID : pubkey :=
  key_literal "KLend2g3cP87fffoy8q1mQqGKjrxjC8boSyAYavgmjD".
Definition SYSVAR_RENT_PUBKEY : pubkey :=
  key_literal "SysvarRent111111111111111111111111111111111".
Definition DEFAULT_PUBKEY : pubkey := defaultKey.

(** ** Account constraints *)
Definition pubkeyConstraint (accountIndex : Z) (pubkeys : list pubkey) (owner : option pubkey) :
    AccountConstraint pubkey :=
  MkAccount accountIndex (KPubkey pubkeys) owner.

Definition accountDataConstraint (accountIndex : Z) (owner : option pubkey) :
    AccountConstraint pubkey :=
  MkAccount accountIndex (KAccountData []) owner.

Definition splTokenAuthorityConstraint (accountIndex : Z) (authority tokenProgramId : pubkey) :
    AccountConstraint pubkey :=
  MkAccount accountIndex
    (KAccountData [dataSliceEquals SPL_TOKEN_ACCOUNT_AUTHORITY_OFFSET (toBytes authority)])
    (Some tokenProgramId).

Definition delegatorTokenBalanceConstraints (tokenProgramId : pubkey)
    (minimumBalanceRaw : option numeric) : result (list (AccountConstraint pubkey)) :=
  match minimumBalanceRaw with
  | None => Ok []
  | Some raw =>
      minimumBalance ← normalizeU64 raw "minimumDelegatorBalanceRaw";
      if minimumBalance =? 0 then Ok []
      else Ok [MkAccount 2
                 (KAccountData
                    [dataU64LeGreaterThanOrEqualTo SPL_TOKEN_ACCOUNT_AMOUNT_OFFSET minimumBalance])
                 (Some tokenProgramId)]
  end.

Definition recurringDelegationAccountConstraint
    (delegator vault subscriptionAuthority mint : pubkey) (maxAmountPerPeriodRaw : numeric) :
    result (AccountConstraint pubkey) :=
  maxAmount ← normalizeU64 maxAmountPerPeriodRaw "maxAmountPerPeriodRaw";
  Ok (MkAccount 0
        (KAccountData
           [ dataU8Equals SUBSCRIPTION_RECURRING_DELEGATION_DISCRIMINATOR_OFFSET
               SUBSCRIPTION_RECURRING_DELEGATION_DISCRIMINATOR;
             dataSliceEquals SUBSCRIPTION_RECURRING_DELEGATION_DELEGATOR_OFFSET (toBytes delegator);
             dataSliceEquals SUBSCRIPTION_RECURRING_DELEGATION_DELEGATEE_OFFSET (toBytes vault);
             dataSliceEquals SUBSCRIPTION_RECURRING_DELEGATION_AUTHORITY_OFFSET
               (toBytes subscriptionAuthority);
             dataSliceEquals SUBSCRIPTION_RECURRING_DELEGATION_MINT_OFFSET (toBytes mint);
             dataU64LeLessThanOrEqualTo SUBSCRIPTION_RECURRING_DELEGATION_AMOUNT_PER_PERIOD_OFFSET
               maxAmount ])
        (Some SUBSCRIPTIONS_PROGRAM_ID)).

(** The keys in order of first occurrence; [seen] holds their base58 forms. *)
Definition uniqueStep (state : gset string * list pubkey) (pubkey : pubkey) :
    gset string * list Solana.pubkey :=
  let '(seen, unique) := state in
  let key := toBase58 pubkey in
  if decide (key ∈ seen) then (seen, unique) else ({[key]} ∪ seen, unique ++ [pubkey]).
Definition uniquePubkeys (pubkeys : list pubkey) : list pubkey :=
  snd (foldl uniqueStep (∅, []) pubkeys).

(** ** Derived addresses *)
Definition deriveLoyalHubConfig (loyalHubProgramId : pubkey) : result pubkey :=
  findProgramAddress [CONFIG_SEED] loyalHubProgramId.

Definition deriveAssociatedTokenAccount (config : LoyalClusterConfig)
    (owner mint tokenProgram : pubkey) : result pubkey :=
  findProgramAddress [toBytes owner; toBytes tokenProgram; toBytes mint]
    (associatedTokenProgramId config).

Definition deriveKaminoVanillaObligation (vault lendingMarket lendProgramId : pubkey) :
    result pubkey :=
  findProgramAddress
    [ [KAMINO_VANILLA_OBLIGATION_TAG]; [KAMINO_VANILLA_OBLIGATION_ID]; toBytes vault;
      toBytes lendingMarket; toBytes DEFAULT_PUBKEY; toBytes DEFAULT_PUBKEY ]
    lendProgramId.

Definition deriveKaminoUserMetadata (vault lendProgramId : pubkey) : result pubkey :=
  findProgramAddress [KAMINO_USER_METADATA_SEED; toBytes vault] lendProgramId.

(** ** Instruction constraints *)
Definition kaminoWithdrawConstraint (vault : pubkey) (markets liquidityMints : list pubkey)
    (lendProgramId : pubkey) (discriminator : list Z) : InstructionConstraint pubkey :=
  MkConstraint lendProgramId
    [ pubkeyConstraint 0 [vault] None;
      pubkeyConstraint 2 (uniquePubkeys markets) None;
      pubkeyConstraint 5 (uniquePubkeys liquidityMints) None ]
    (discriminatorConstraint discriminator).

Definition kaminoDepositConstraint (vault : pubkey) (markets liquidityMints : list pubkey)
    (lendProgramId : pubkey) (discriminator : list Z) : InstructionConstraint pubkey :=
  MkConstraint lendProgramId
    [ pubkeyConstraint 0 [vault] None;
      pubkeyConstraint 2 (uniquePubkeys markets) None;
      pubkeyConstraint 5 (uniquePubkeys liquidityMints) None ]
    (discriminatorConstraint discriminator).

Context {SPL : SplToken PK}.

Definition kaminoInitObligationConstraint (vault : pubkey) (markets : list pubkey)
    (lendProgramId : pubkey) (discriminator : list Z) : result (InstructionConstraint pubkey) :=
  let marketList := uniquePubkeys markets in
  let dataPrefix :=
    discriminator ++ [KAMINO_VANILLA_OBLIGATION_TAG; KAMINO_VANILLA_OBLIGATION_ID] in
  userMetadata ← deriveKaminoUserMetadata vault lendProgramId;
  Ok (MkConstraint lendProgramId
        [ pubkeyConstraint 0 [vault] None;
          pubkeyConstraint 1 [vault] None;
          pubkeyConstraint 3 marketList None;
          pubkeyConstraint 4 [DEFAULT_PUBKEY] None;
          pubkeyConstraint 5 [DEFAULT_PUBKEY] None;
          pubkeyConstraint 6 [userMetadata] None;
          pubkeyConstraint 7 [SYSVAR_RENT_PUBKEY] None;
          pubkeyConstraint 8 [systemProgramId] None ]
        [dataSliceEquals 0 dataPrefix]).

Definition jupiterConstraint (config : LoyalClusterConfig) (vault : pubkey)
    (allowedMints : list pubkey) (maxSlippageBps : Z) : InstructionConstraint pubkey :=
  let mints := uniquePubkeys allowedMints in
  let token := tokenProgramId config in
  MkConstraint (jupiterV6ProgramId config)
    [ pubkeyConstraint 0 [vault] None;
      splTokenAuthorityConstraint 1 vault token;
      splTokenAuthorityConstraint 2 vault token;
      pubkeyConstraint 3 mints (Some token);
      pubkeyConstraint 4 mints (Some token);
      pubkeyConstraint 5 [token] None ]
    [ dataSliceEquals 0 JUPITER_SWAP_DISCRIMINATOR;
      dataU16LeLessThanOrEqualTo JUPITER_SWAP_SLIPPAGE_BPS_OFFSET maxSlippageBps ].

Inductive JupiterV2Dialect := route_v2 | shared_accounts_route_v2.

Record JupiterLayout := {
  jl_authority : Z;
  jl_outputTokenAccount : Z;
  jl_discriminator : list Z;
  jl_slippageOffset : Z;
  jl_platformFeeOffset : Z;
}.

Definition jupiterLayout (dialect : JupiterV2Dialect) : JupiterLayout :=
  match dialect with
  | route_v2 =>
      {| jl_authority := 0;
         jl_outputTokenAccount := 2;
         jl_discriminator := JUPITER_SWAP_DISCRIMINATOR;
         jl_slippageOffset := JUPITER_SWAP_SLIPPAGE_BPS_OFFSET;
         jl_platformFeeOffset := JUPITER_SWAP_PLATFORM_FEE_BPS_OFFSET |}
  | shared_accounts_route_v2 =>
      {| jl_authority := 1;
         jl_outputTokenAccount := 5;
         jl_discriminator := JUPITER_SHARED_ACCOUNTS_ROUTE_V2_DISCRIMINATOR;
         jl_slippageOffset := JUPITER_SHARED_ACCOUNTS_ROUTE_V2_SLIPPAGE_BPS_OFFSET;
         jl_platformFeeOffset := JUPITER_SHARED_ACCOUNTS_ROUTE_V2_PLATFORM_FEE_BPS_OFFSET |}
  end.

Definition jupiterCrossMintConstraint (config : LoyalClusterConfig) (vault : pubkey)
    (destinationMints : list (pubkey * pubkey)) (dialect : JupiterV2Dialect)
    (maxSlippageBps : Z) : result (InstructionConstraint pubkey) :=
  let layout := jupiterLayout dialect in
  atas ← mapR (fun '(mint, tokenProgram) =>
                 deriveAssociatedTokenAccount config vault mint tokenProgram) destinationMints;
  let canonicalVaultAtas := uniquePubkeys atas in
  Ok (MkConstraint (jupiterV6ProgramId config)
        [ pubkeyConstraint (jl_authority layout) [vault] None;
          pubkeyConstraint (jl_outputTokenAccount layout) canonicalVaultAtas None ]
        [ dataSliceEquals 0 (jl_discriminator layout);
          dataU16LeLessThanOrEqualTo (jl_slippageOffset layout) maxSlippageBps;
          dataU8Equals (jl_platformFeeOffset layout) 0 ]).

Definition loyalHubConstraint (config : LoyalClusterConfig) (vault : pubkey)
    (allowedMints : list pubkey) (maxFeeBps : Z) : result (InstructionConstraint pubkey) :=
  let mints := uniquePubkeys allowedMints in
  let hub := loyalHubSwapProgramId config in
  let token := tokenProgramId config in
  hubConfig ← deriveLoyalHubConfig hub;
  Ok (MkConstraint hub
        [ pubkeyConstraint SwapExactInAccounts.CONFIG [hubConfig] (Some hub);
          pubkeyConstraint SwapExactInAccounts.USER_VAULT [vault] None;
          accountDataConstraint SwapExactInAccounts.HUB_INPUT (Some token);
          accountDataConstraint SwapExactInAccounts.HUB_OUTPUT (Some token);
          splTokenAuthorityConstraint SwapExactInAccounts.USER_INPUT vault token;
          splTokenAuthorityConstraint SwapExactInAccounts.USER_OUTPUT vault token;
          pubkeyConstraint SwapExactInAccounts.INPUT_MINT mints (Some token);
          pubkeyConstraint SwapExactInAccounts.OUTPUT_MINT mints (Some token);
          pubkeyConstraint SwapExactInAccounts.HUB_AUTHORIZER [loyalHubAuthorizer config] None;
          pubkeyConstraint SwapExactInAccounts.TOKEN_PROGRAM [token] None ]
        [ dataU8Equals SWAP_EXACT_IN_TAG_OFFSET SWAP_EXACT_IN;
          dataU16LeLessThanOrEqualTo SWAP_EXACT_IN_MAX_FEE_BPS_DATA_OFFSET maxFeeBps ]).

Definition subscriptionSweepConstraint (config : LoyalClusterConfig)
    (delegator vault mint delegatorUsdcAta vaultUsdcAta : pubkey)
    (maxAmountPerPeriodRaw : numeric) (minimumDelegatorBalanceRaw : option numeric) :
    result (InstructionConstraint pubkey) :=
  let token := tokenProgramId config in
  subscriptionAuthority ← deriveSubscriptionAuthority delegator mint;
  eventAuthority ← deriveSubscriptionEventAuthority;
  delegation ← recurringDelegationAccountConstraint delegator vault subscriptionAuthority mint
                 maxAmountPerPeriodRaw;
  balance ← delegatorTokenBalanceConstraints token minimumDelegatorBalanceRaw;
  Ok (MkConstraint SUBSCRIPTIONS_PROGRAM_ID
        ([ delegation;
           pubkeyConstraint 1 [subscriptionAuthority] (Some SUBSCRIPTIONS_PROGRAM_ID);
           pubkeyConstraint 2 [delegatorUsdcAta] (Some token) ] ++
         balance ++
         [ pubkeyConstraint 3 [vaultUsdcAta] (Some token);
           pubkeyConstraint 4 [mint] (Some token);
           pubkeyConstraint 5 [token] None;
           pubkeyConstraint 6 [vault] None;
           pubkeyConstraint 7 [eventAuthority] None;
           pubkeyConstraint 8 [SUBSCRIPTIONS_PROGRAM_ID] None ])
        [ dataU8Equals 0 SUBSCRIPTIONS_TRANSFER_RECURRING;
          dataSliceEquals SUBSCRIPTION_TRANSFER_DELEGATOR_OFFSET (toBytes delegator);
          dataSliceEquals SUBSCRIPTION_TRANSFER_MINT_OFFSET (toBytes mint) ]).

(** ** Lemmas *)
Lemma table_adds_length ks t : (length (foldl table_add t ks) <= length t + length ks)%nat.
Proof.
  revert t; induction ks as [|k ks IH]; intros t; simpl; [lia|].
  specialize (IH (table_add t k)). unfold table_add in *.
  case_decide; rewrite ?length_app in *; simpl in *; lia.
Qed.

Section Laws.
Context {L : PublicKeyLaws PK}.

Lemma uniquePubkeys_fold ks u :
  snd (foldl uniqueStep (list_to_set (toBase58 <$> u), u) ks) = foldl table_add u ks.
Proof.
  revert u; induction ks as [|k ks IH]; intros u; cbn [foldl]; [done|].
  rewrite <- IH. do 2 f_equal. unfold uniqueStep, table_add.
  assert (Hin : toBase58 k ∈ (list_to_set (toBase58 <$> u) : gset string) <-> k ∈ u).
  { rewrite elem_of_list_to_set, list_elem_of_fmap. split.
    - intros (k' & E & Hk). by apply toBase58_inj in E as ->.
    - eauto. }
  destruct (decide (k ∈ u)) as [Hk|Hk].
  - by rewrite decide_True by (by apply Hin).
  - rewrite decide_False by (by rewrite Hin). f_equal.
    rewrite fmap_app, list_to_set_app_L. set_solver.
Qed.

Lemma uniquePubkeys_table ks : uniquePubkeys ks = foldl table_add [] ks.
Proof. apply (uniquePubkeys_fold ks []). Qed.

Lemma table_adds_app ks t :
  foldl table_add t ks = t ++ filter (fun k => k ∉ t) (foldl table_add [] ks).
Proof.
  induction ks as [|k ks IH] using rev_ind; simpl; [by rewrite app_nil_r|].
  rewrite !foldl_app, IH. simpl. set (u := foldl table_add [] ks) in *.
  unfold table_add.
  destruct (decide (k ∈ u)) as [Hu|Hu].
  - rewrite decide_True; [done|]. rewrite elem_of_app, list_elem_of_filter.
    destruct (decide (k ∈ t)); tauto.
  - rewrite filter_app, filter_cons, filter_nil. destruct (decide (k ∈ t)) as [Ht|Ht].
    + rewrite decide_True by (rewrite elem_of_app; tauto).
      rewrite decide_False by tauto. by rewrite app_nil_r.
    + rewrite decide_False by (rewrite elem_of_app, list_elem_of_filter; tauto).
      rewrite decide_True by done. by rewrite app_assoc.
Qed.

Lemma NoDup_table_adds ks : NoDup ks -> foldl table_add [] ks = ks.
Proof.
  induction ks as [|k ks IH] using rev_ind; [done|].
  rewrite foldl_app. intros [H1 [H2 _]]%NoDup_app. rewrite IH by done. simpl.
  unfold table_add. rewrite decide_False; [done|]. intros Hk. apply (H2 k Hk). set_solver.
Qed.

(** *** Sweep policies *)
Lemma delegatorTokenBalanceConstraints_ok token raw l :
  delegatorTokenBalanceConstraints token raw = Ok l ->
  l = [] \/ exists v, is_u64 v /\
    l = [MkAccount 2 (KAccountData
           [dataU64LeGreaterThanOrEqualTo SPL_TOKEN_ACCOUNT_AMOUNT_OFFSET v]) (Some token)].
Proof.
  unfold delegatorTokenBalanceConstraints. destruct raw as [v|]; intros H; [|inv_results; auto].
  inv_results. apply normalizeU64_spec in E as [_ Hv].
  destruct (v0 =? 0); inv_results; subst; eauto.
Qed.

Lemma toBytes_slice_wf offset k : is_u64 offset -> data_wf (dataSliceEquals offset (toBytes k)).
Proof.
  intros H. split; [done|]. simpl. rewrite toBytes_length. split; [apply toBytes_bytes | lia].
Qed.

Lemma dataU8Equals_wf offset v : is_u64 offset -> is_byte v -> data_wf (dataU8Equals offset v).
Proof. intros Ho Hv. split; [exact Ho | exact Hv]. Qed.

Lemma pubkeyConstraint_wf i ks o :
  is_byte i -> Z.of_nat (length ks) <= 255 -> account_wf 255 (pubkeyConstraint i ks o).
Proof. intros Hi Hk. split; [exact Hi | exact Hk]. Qed.

Lemma accountData_wf i ds (o : option pubkey) :
  is_byte i -> Z.of_nat (length ds) <= 255 -> Forall data_wf ds ->
  account_wf 255 (MkAccount i (KAccountData ds) o).
Proof. intros Hi Hk Hd. split; [exact Hi | split; [exact Hk | exact Hd]]. Qed.

Lemma delegation_account_wf delegator vault auth mint maxAmount a :
  recurringDelegationAccountConstraint delegator vault auth mint maxAmount = Ok a ->
  account_wf 255 a /\ account_keys a = [SUBSCRIPTIONS_PROGRAM_ID].
Proof.
  unfold recurringDelegationAccountConstraint. intros H. inv_results. subst.
  match goal with Hm : normalizeU64 _ _ = Ok _ |- _ => apply normalizeU64_spec in Hm as [_ Hm] end.
  split; [|done]. apply accountData_wf; [byte_lit | simpl; lia |].
  repeat first [apply Forall_nil_2 | apply Forall_cons_2];
    try (apply toBytes_slice_wf; byte_lit); [apply dataU8Equals_wf; byte_lit|].
  split; [byte_lit | exact E].
Qed.

Lemma sweep_constraint_wf config delegator vault mint dAta vAta maxAmount minBalance c :
  subscriptionSweepConstraint config delegator vault mint dAta vAta maxAmount minBalance = Ok c ->
  constraint_wf 255 c /\ (length (constraint_keys c) <= 21)%nat.
Proof.
  unfold subscriptionSweepConstraint. intros H. inv_results. subst.
  apply delegation_account_wf in E1 as [Hd Hkeys].
  apply delegatorTokenBalanceConstraints_ok in E2.
  assert (Hdata : Forall data_wf
    [dataU8Equals 0 SUBSCRIPTIONS_TRANSFER_RECURRING;
     dataSliceEquals SUBSCRIPTION_TRANSFER_DELEGATOR_OFFSET (toBytes delegator);
     dataSliceEquals SUBSCRIPTION_TRANSFER_MINT_OFFSET (toBytes mint)]).
  { repeat first [apply Forall_nil_2 | apply Forall_cons_2];
      try (apply toBytes_slice_wf; byte_lit). apply dataU8Equals_wf; byte_lit. }
  unfold constraint_wf, constraint_keys, short; cbn [ic_program ic_accounts ic_data].
  destruct E2 as [-> | (b & Hb & ->)]; cbn [app map concat length];
    rewrite ?Hkeys; (split; [split_and!|simpl; lia]); try (simpl; lia); try exact Hdata;
    repeat first [apply Forall_nil_2 | apply Forall_cons_2]; try exact Hd;
    try (apply pubkeyConstraint_wf; [byte_lit | simpl; lia]).
  apply accountData_wf; [byte_lit | simpl; lia |].
  apply Forall_singleton. split; [byte_lit | exact Hb].
Qed.

(** What a byte string carries at a constraint's offset. *)
Definition value_bytes (v : DataValue) : list Z :=
  match v with
  | VU8 v => le_bytes 1 v
  | VU16Le v => le_bytes 2 v
  | VU32Le v => le_bytes 4 v
  | VU64Le v => le_bytes 8 v
  | VU128Le v => le_bytes 16 v
  | VU8Slice bs => bs
  end.
Definition carries (bs : list Z) (d : DataConstraint) : Prop :=
  dc_operator d = equals /\
  take (length (value_bytes (dc_value d))) (drop (Z.to_nat (dc_offset d)) bs) =
  value_bytes (dc_value d).

Lemma sweep_ic_data config delegator vault mint dAta vAta maxAmount minBalance c :
  subscriptionSweepConstraint config delegator vault mint dAta vAta maxAmount minBalance = Ok c ->
  ic_data c =
    [ dataU8Equals 0 SUBSCRIPTIONS_TRANSFER_RECURRING;
      dataSliceEquals SUBSCRIPTION_TRANSFER_DELEGATOR_OFFSET (toBytes delegator);
      dataSliceEquals SUBSCRIPTION_TRANSFER_MINT_OFFSET (toBytes mint) ].
Proof. unfold subscriptionSweepConstraint. intros H. inv_results. by subst. Qed.

Lemma split_transfer (bs : list Z) :
  length bs = 73%nat ->
  bs = take 1 bs ++ take 8 (drop 1 bs) ++ take 32 (drop 9 bs) ++ take 32 (drop 41 bs).
Proof.
  intros H. rewrite (take_ge (drop 41 bs)) by (rewrite length_drop; lia).
  replace (drop 41 bs) with (drop 32 (drop 9 bs)) by (rewrite drop_drop; done).
  rewrite take_drop. replace (drop 9 bs) with (drop 8 (drop 1 bs)) by (rewrite drop_drop; done).
  by rewrite !take_drop.
Qed.

(** Data of the transfer's own length *)
Lemma sweep_data_73 config delegator vault mint dAta vAta maxAmount minBalance c bs :
  subscriptionSweepConstraint config delegator vault mint dAta vAta maxAmount minBalance = Ok c ->
  Forall is_byte bs -> length bs = 73%nat ->
  (Forall (carries bs) (ic_data c) <->
   exists amount, is_u64 amount /\
     subscriptionTransferRecurringData
       {| transferAmountRaw := Big amount; transferDelegator := delegator; transferMint := mint |}
     = Ok bs).
Proof.
  intros Hc Hb Hl. rewrite (sweep_ic_data _ _ _ _ _ _ _ _ _ Hc).
  rewrite !Forall_cons, Forall_nil. unfold carries; simpl (dc_operator _); simpl (dc_value _).
  cbn [value_bytes dataU8Equals dataSliceEquals dc_offset]. rewrite !toBytes_length.
  change (Z.to_nat SUBSCRIPTION_TRANSFER_DELEGATOR_OFFSET) with 9%nat.
  change (Z.to_nat SUBSCRIPTION_TRANSFER_MINT_OFFSET) with 41%nat.
  change (Z.to_nat 0) with 0%nat. change (length (le_bytes 1 SUBSCRIPTIONS_TRANSFER_RECURRING)) with 1%nat.
  rewrite drop_0. split.
  - intros ((_ & H1) & (_ & H2) & (_ & H3) & _).
    set (a := le_value (take 8 (drop 1 bs))). exists a.
    assert (Ha8 : Forall is_byte (take 8 (drop 1 bs))) by (by apply Forall_take, Forall_drop).
    assert (Hl8 : length (take 8 (drop 1 bs)) = 8%nat)
      by (rewrite length_take, length_drop; lia).
    assert (Ha : is_u64 a).
    { unfold a, is_u64. rewrite U64_MAX_val. pose proof (le_value_bound _ Ha8) as Hv.
      rewrite Hl8 in Hv. change (256 ^ Z.of_nat 8) with (2 ^ 64) in Hv. lia. }
    split; [exact Ha|].
    destruct (transfer_codec {| transferAmountRaw := Big a; transferDelegator := delegator;
      transferMint := mint |} a eq_refl Ha) as (bs' & -> & _ & ->). f_equal.
    cbn [transferDelegator transferMint].
    rewrite (split_transfer bs Hl) at 1. rewrite H1, H2, H3.
    pose proof (le_bytes_value _ Ha8) as E. rewrite Hl8 in E. fold a in E. by rewrite E.
  - intros (a & Ha & E).
    destruct (transfer_codec {| transferAmountRaw := Big a; transferDelegator := delegator;
      transferMint := mint |} a eq_refl Ha) as (bs' & E' & _ & Hbs).
    rewrite E' in E. injection E as ->. cbn [transferDelegator transferMint] in Hbs.
    pose proof (toBytes_length delegator) as Hd. pose proof (toBytes_length mint) as Hm.
    assert (H8 := le_bytes_length 8 a).
    subst bs. split_and!; [done| | done | | done | | done].
    + exact (slice_app [] [SUBSCRIPTIONS_TRANSFER_RECURRING] _ 0 eq_refl).
    + rewrite <- Hd at 1. rewrite (app_assoc [_]). apply slice_app.
      rewrite length_app, H8. done.
    + rewrite <- Hm at 1. rewrite (app_assoc [_]), (app_assoc (_ ++ _)).
      rewrite <- (app_nil_r (toBytes mint)) at 2. apply slice_app.
      rewrite !length_app, H8, Hd. done.
Qed.

(** A constraint within the first [n] bytes sees only those. *)
Lemma carries_take n bs d : (Z.to_nat (dc_offset d) + length (value_bytes (dc_value d)) <= n)%nat ->
  carries (take n bs) d <-> carries bs d.
Proof.
  intros H. unfold carries. rewrite take_drop_commute, take_take. rewrite (Nat.min_l) by lia. by rewrite <- take_drop_commute.
Qed.

(** C12. The data constraints of a sweep policy pin everything of a recurring transfer
    but its amount: instruction data carry the constrained values exactly when their
    first 73 bytes are the SDK's transfer data for that delegator and mint and some u64
    amount. What follows those bytes is not constrained. *)
Theorem sweep_data_exact config delegator vault mint dAta vAta maxAmount minBalance c bs :
  subscriptionSweepConstraint config delegator vault mint dAta vAta maxAmount minBalance = Ok c ->
  Forall is_byte bs ->
  (Forall (carries bs) (ic_data c) <->
   exists amount, is_u64 amount /\
     subscriptionTransferRecurringData
       {| transferAmountRaw := Big amount; transferDelegator := delegator; transferMint := mint |}
     = Ok (take 73 bs)).
Proof.
  intros Hc Hb. pose proof (sweep_ic_data _ _ _ _ _ _ _ _ _ Hc) as Hd.
  assert (Ht : Forall (carries bs) (ic_data c) <-> Forall (carries (take 73 bs)) (ic_data c)).
  { rewrite Hd. rewrite !Forall_cons, !Forall_nil, !carries_take; [done| | |]; cbn [dc_offset dc_value dataU8Equals dataSliceEquals value_bytes];
      rewrite ?toBytes_length; apply Nat.leb_le; reflexivity. }
  rewrite Ht. destruct (decide (length (take 73 bs) = 73%nat)) as [Hl|Hl].
  - eapply sweep_data_73; [exact Hc|by apply Forall_take|exact Hl].
  - split.
    + rewrite Hd, !Forall_cons. intros (_ & _ & [_ H] & _). cbn [dc_offset dc_value dataSliceEquals value_bytes] in H. exfalso.
      assert (E := f_equal length H). rewrite toBytes_length, length_take, length_drop in E.
      change (Z.to_nat SUBSCRIPTION_TRANSFER_MINT_OFFSET) with 41%nat in E. rewrite length_take in Hl, E. lia.
    + intros (a & Ha & E). exfalso. apply Hl. destruct (transfer_codec {| transferAmountRaw := Big a; transferDelegator := delegator;
        transferMint := mint |} a eq_refl Ha) as (bs' & E' & _ & Hbs). rewrite E' in E. injection E as <-. rewrite Hbs, !length_app, le_bytes_length, !toBytes_length. done.
Qed.

(** [uniquePubkeys] keeps each key once, keeps every key, keeps the order of
    first occurrence, and leaves a list without repetitions unchanged. *)
Theorem uniquePubkeys_spec ks :
  NoDup (uniquePubkeys ks) /\
  (forall k, k ∈ uniquePubkeys ks <-> k ∈ ks) /\
  (forall ks', uniquePubkeys (ks' ++ ks) =
     uniquePubkeys ks' ++ filter (fun k => k ∉ uniquePubkeys ks') (uniquePubkeys ks)) /\
  (NoDup ks -> uniquePubkeys ks = ks).
Proof.
  rewrite uniquePubkeys_table. split_and!.
  - apply table_adds_NoDup, NoDup_nil_2.
  - intros k. rewrite table_adds_elem. set_solver.
  - intros ks'. rewrite !uniquePubkeys_table, foldl_app. apply table_adds_app.
  - apply NoDup_table_adds.
Qed.

(** Whatever the delegator, vault, mint, accounts and limits are, once the
    sweep constraint is built its policy can be installed: the compact encoding
    never overflows and reads back as the one constraint with no spending limit. *)
Theorem sweep_policy_installable config context delegator mint dAta vAta maxAmount minBalance
    c policySeed s acct :
  subscriptionSweepConstraint config delegator (vault context) mint dAta vAta maxAmount minBalance
    = Ok c ->
  numeric_value policySeed = Some s -> is_u64 s ->
  deriveActionAccount config (settings context) (Big s) = Ok acct ->
  is_byte (accountIndex context) ->
  exists ix,
    createProgramInteractionPolicyInstruction config context [c] policySeed [] compact = Ok ix /\
    keys ix = policyAccounts config context acct /\
    d_create (data ix) =
      Some (s, wire_of (accountIndex context) [c] [], toBytes (delegatedSigner context), []).
Proof.
  intros Hc Hn Hu Ha Hi. destruct (sweep_constraint_wf _ _ _ _ _ _ _ _ _ Hc) as [Hwf Hk].
  destruct (create_policy_ok config context [c] policySeed [] compact s acct Hn Hu Ha Hi)
    as (ix & H1 & _ & H2 & H3); eauto.
  - unfold policy_wf, short. simpl. split_and!; [lia | by apply Forall_singleton | lia |].
    apply Forall_nil_2.
  - unfold distinct_keys. etrans; [apply table_adds_length|].
    cbn [map concat]. rewrite app_nil_r. cbn [length]. lia.
Qed.
End Laws.
End Protocols.

(** ** Witnesses *)
Module ProtocolsWitness.
Import DemoKeys SquadsWitness.

Definition demo_sweep (maxAmount : numeric) (minBalance : option numeric) :
    result (InstructionConstraint key) :=
  subscriptionSweepConstraint demo_config (key_of 41) (key_of 24) (key_of 42) (key_of 43)
    (key_of 44) maxAmount minBalance.

Definition demo_sweep_constraint : InstructionConstraint key :=
  match demo_sweep (NumInt 250000000) (Some (Big 1000000)) with
  | Ok c => c | Throw _ => MkConstraint zero_key [] [] end.

Definition demo_transfer_bytes : list Z :=
  5 :: le_bytes 8 1234567 ++ key_bytes (key_of 41) ++ key_bytes (key_of 42).

Lemma uniquePubkeys_spec_witness :
  NoDup (uniquePubkeys (PK := demo_keys) [key_of 1; key_of 2; key_of 1]) /\
  (forall k, k ∈ uniquePubkeys (PK := demo_keys) [key_of 1; key_of 2; key_of 1] <-> k ∈ [key_of 1; key_of 2; key_of 1]).
Proof.
  destruct (uniquePubkeys_spec (PK := demo_keys) [key_of 1; key_of 2; key_of 1]) as (H1 & H2 & _).
  exact (conj H1 H2).
Defined.

Lemma sweep_data_exact_witness :
  Forall (carries (demo_transfer_bytes ++ [7])) (ic_data demo_sweep_constraint) <->
   exists amount, is_u64 amount /\
     subscriptionTransferRecurringData
       {| transferAmountRaw := Big amount; transferDelegator := key_of 41;
          transferMint := key_of 42 |} = Ok demo_transfer_bytes.
Proof.
  apply (sweep_data_exact demo_config (key_of 41) (key_of 24) (key_of 42) (key_of 43) (key_of 44)
    (NumInt 250000000) (Some (Big 1000000)) demo_sweep_constraint (demo_transfer_bytes ++ [7])).
  - vm_compute. reflexivity.
  - repeat first [apply Forall_nil_2 | apply Forall_cons_2; [byte_lit|]].
Defined.

Lemma sweep_policy_installable_witness :
  exists ix,
    createProgramInteractionPolicyInstruction demo_config demo_context [demo_sweep_constraint]
      (NumInt 7) [] compact = Ok ix /\
    keys ix = policyAccounts demo_config demo_context (demo_account 7) /\
    d_create (data ix) = Some (7, wire_of 1 [demo_sweep_constraint] [], toBytes (key_of 23), []).
Proof.
  apply (sweep_policy_installable demo_config demo_context (key_of 41) (key_of 42) (key_of 43)
    (key_of 44) (NumInt 250000000) (Some (Big 1000000)) demo_sweep_constraint (NumInt 7) 7
    (demo_account 7)).
  - vm_compute. reflexivity.
  - reflexivity.
  - byte_lit.
  - vm_compute. reflexivity.
  - byte_lit.
Defined.
End ProtocolsWitness.
