(* ===== verification/Registry.v ===== *)
(** The registries of the actions SDK (web/packages/loyal-actions/src/constants.ts,
    cluster.ts and the enumerations of types.ts): clusters, stablecoins with their mints
    and token programs, risk baskets with their Kamino markets, the Kamino programs.

    An enumeration is its type of cases; [_value] gives the string or number a case is
    at run time, which is what [Object.values(E).includes(x)] searches. *)
From S2P Require Import Prelude JsString Solana Subscriptions Squads Protocols.

Inductive LoyalCluster := Devnet | MainnetBeta.
Inductive RiskBasket := Safe | Medium | Aggressive.
Inductive SwapLane := LaneJupiter | LaneLoyal.
Inductive JupiterCrossMintSourceShard := Classic | Token2022.
Inductive MaxFeeBps := Bps50 | Bps75 | Bps100 | Bps125 | Bps150.
Inductive Stablecoin := CASH | USDG | PYUSD | USDC | USDT | USDS.

#[export] Instance LoyalCluster_eq_dec : EqDecision LoyalCluster.
Proof. solve_decision. Defined.
#[export] Instance SwapLane_eq_dec : EqDecision SwapLane.
Proof. solve_decision. Defined.
#[export] Instance Stablecoin_eq_dec : EqDecision Stablecoin.
Proof. solve_decision. Defined.

Definition LoyalCluster_value (c : LoyalCluster) : string :=
  match c with Devnet => "devnet" | MainnetBeta => "mainnet-beta" end.
Definition RiskBasket_value (r : RiskBasket) : string :=
  match r with Safe => "safe" | Medium => "medium" | Aggressive => "aggressive" end.
Definition SwapLane_value (l : SwapLane) : string :=
  match l with LaneJupiter => "jupiter" | LaneLoyal => "loyal" end.
Definition JupiterCrossMintSourceShard_value (s : JupiterCrossMintSourceShard) : string :=
  match s with Classic => "classic" | Token2022 => "token_2022" end.
Definition MaxFeeBps_value (m : MaxFeeBps) : Z :=
  match m with Bps50 => 50 | Bps75 => 75 | Bps100 => 100 | Bps125 => 125 | Bps150 => 150 end.
Definition Stablecoin_value (s : Stablecoin) : string :=
  match s with
  | CASH => "CASH" | USDG => "USDG" | PYUSD => "PYUSD" | USDC => "USDC" | USDT => "USDT" | USDS => "USDS"
  end.

(** The case of a run-time value, when it has one. *)
Definition enum_of {E} (cases : list E) (value : E -> string) (s : string) : option E :=
  List.find (fun e => String.eqb (value e) s) cases.
Definition cluster_of := enum_of [Devnet; MainnetBeta] LoyalCluster_value.
Definition risk_of := enum_of [Safe; Medium; Aggressive] RiskBasket_value.
Definition lane_of := enum_of [LaneJupiter; LaneLoyal] SwapLane_value.
Definition shard_of := enum_of [Classic; Token2022] JupiterCrossMintSourceShard_value.

Lemma enum_of_value {E} cases value (e : E) s : enum_of cases value s = Some e -> value e = s.
Proof. intros H. apply List.find_some in H as [_ H]. by apply String.eqb_eq. Qed.

Definition DEFAULT_MAX_FEE_BPS : MaxFeeBps := Bps100.
Definition STABLECOINS : list Stablecoin := [CASH; USDG; PYUSD; USDC; USDT; USDS].

Definition KAMINO_DEVNET_DEPOSIT_RESERVE_LIQUIDITY_DISCRIMINATOR := [169; 201; 30; 126; 6; 205; 102; 68].
Definition KAMINO_DEVNET_WITHDRAW_RESERVE_LIQUIDITY_DISCRIMINATOR := [234; 117; 181; 125; 185; 142; 220; 29].

Section Registry.
Context {PK : PublicKeys}.

(** ** Stablecoins *)
Definition STABLECOIN_MINTS (s : Stablecoin) : pubkey :=
  match s with
  | CASH => key_literal "CASHx9KJUStyftLFWGvEVf59SGeG9sh5FfcnZMVPCASH"
  | USDG => key_literal "2u1tszSeqZ3qBWF3uNGPFc8TzMk2tdiwknnRMWGWjGWH"
  | PYUSD => key_literal "2b1kV6DkPAnxd5ixfnxCpjxmKwqjjaYmCZfHsFu24GXo"
  | USDC => key_literal "EPjFWdd5AufqSSqeM2qN1xzybapC8G4wEGGkZwyTDt1v"
  | USDT => key_literal "Es9vMFrzaCERmJfrF4H2FYD4KCoNkY11McCe8BenwNYB"
  | USDS => key_literal "USDSwr9ApdHk5bvJKMjzff41FfuX8bSxdKcR81vTwcA"
  end.

Definition STABLECOIN_MINTS_BY_CLUSTER (cluster : LoyalCluster) (s : Stablecoin) : option pubkey :=
  match cluster with
  | MainnetBeta => Some (STABLECOIN_MINTS s)
  | Devnet =>
      match s with
      | USDC => Some (key_literal "4zMMC9srt5Ri5X14GAgXhaHii3GnPAEERYPJgZJDncDU")
      | _ => None
      end
  end.

Definition getStablecoinMintForCluster (cluster : LoyalCluster) (stablecoin : Stablecoin) : result pubkey :=
  match STABLECOIN_MINTS_BY_CLUSTER cluster stablecoin with
  | Some mint => Ok mint
  | None =>
      throwError ("unsupported stablecoin " +:+ Stablecoin_value stablecoin +:+ " for cluster " +:+
                  LoyalCluster_value cluster)
  end.

Definition getStablecoinMintsForCluster (cluster : LoyalCluster) : list pubkey :=
  flat_map (fun stablecoin =>
    match STABLECOIN_MINTS_BY_CLUSTER cluster stablecoin with Some mint => [mint] | None => [] end) STABLECOINS.

Definition getStablecoinsForCluster (cluster : LoyalCluster) : list Stablecoin :=
  List.filter (fun stablecoin =>
    match STABLECOIN_MINTS_BY_CLUSTER cluster stablecoin with Some _ => true | None => false end) STABLECOINS.

Definition TOKEN_2022_PROGRAM_ID : pubkey := key_literal "TokenzQdBNbLqP5VEhdkAS6EPFLC1PHnBqCXEpPxuEb".

Definition STABLECOIN_TOKEN_PROGRAMS (s : Stablecoin) : pubkey :=
  match s with
  | CASH | USDG | PYUSD => TOKEN_2022_PROGRAM_ID
  | USDC | USDT | USDS => key_literal "TokenkegQfeZyiNwAJbNbGKPFXCWuBvf9Ss623VQ5DA"
  end.

Definition getStablecoinTokenProgramForCluster (cluster : LoyalCluster) (stablecoin : Stablecoin) :
    result pubkey :=
  _ ← getStablecoinMintForCluster cluster stablecoin;
  Ok (STABLECOIN_TOKEN_PROGRAMS stablecoin).

(** ** Kamino markets and programs *)
Definition KAMINO_MAIN_MARKET := key_literal "7u3HeHxYDLhnCoErrtycNokbQYbWGzLs6JSDqGAv5PfF".
Definition KAMINO_MAIN_USDC_RESERVE := key_literal "D6q6wuQSrifJKZYpR1M8R4YawnLDtDsMmWM1NbBmgJ59".
Definition KAMINO_DEVNET_MAIN_MARKET := key_literal "27MKCQo5qP7ijrwWSMKX2Jeb3PhK2NZmHQ9befWVRS4J".
Definition KAMINO_DEVNET_USDC_RESERVE := key_literal "9uKMtFU9UJ9DfbwzCReGENb31appi79KTEeDGdCnvMjy".
Definition KAMINO_FIGURE_MARKET := key_literal "CqAoLuqWtavaVE8deBjMKe8ZfSt9ghR6Vb8nfsyabyHA".
Definition KAMINO_MAPLE_MARKET := key_literal "6WEGfej9B9wjxRs6t4BYpb9iCXd8CpTpJ8fVSNzHCC5y".
Definition KAMINO_ONRE_MARKET := key_literal "47tfyEG9SsdEnUm9cw5kY9BXngQGqu3LBoop9j5uTAv8".
Definition KAMINO_ETHENA_MARKET := key_literal "BJnbcRHqvppTyGesLzWASGKnmnF1wq9jZu6ExrjT7wvF".
Definition KAMINO_JLP_MARKET := key_literal "DxXdAyU3kCjnyggvHmY5nAwg5cRbbmdyX3npfDMjjMek".
Definition KAMINO_BITCOIN_MARKET := key_literal "GMqmFygF5iSm5nkckYU6tieggFcR42SyjkkhK5rswFRs".
Definition KAMINO_SUPERSTATE_OPENING_BELL_MARKET := key_literal "CF32kn7AY8X1bW7ZkGcHc4X9ZWTxqKGCJk6QwrQkDcdw".
Definition KAMINO_HUMA_MARKET := key_literal "52FSGeeokLpgvgAMdqxyt5Hoc2TbUYj5b8yxrEdZ37Vf".
Definition KAMINO_SOLSTICE_MARKET := key_literal "9Y7uwXgQ68mGqRtZfuFaP4hc4fxeJ7cE9zTtqTxVhfGU".
Definition KAMINO_XSTOCKS_MARKET := key_literal "5wJeMrUYECGq41fxRESKALVcHnNX26TAWy4W98yULsua".
Definition KAMINO_ALTCOINS_MARKET := key_literal "ByYiZxp8QrdN9qbdtaAiePN8AAr3qvTPppNJDpf5DVJ5".
Definition KAMINO_DEVNET_LEND_PROGRAM_ID := key_literal "KLend2g3cP87fffoy8q1mQqGKjrxjC8boSyAYavgmjD".
Definition SMART_ACCOUNTS_PROGRAM_ID := key_literal "SMRTzfY6DfH5ik3TKiyLFfXexV8uSG3d2UksSCYdunG".

Definition safeMarkets : list pubkey :=
  [KAMINO_MAIN_MARKET; KAMINO_FIGURE_MARKET; KAMINO_MAPLE_MARKET; KAMINO_ONRE_MARKET; KAMINO_ETHENA_MARKET].
Definition mediumMarkets : list pubkey :=
  safeMarkets ++ [KAMINO_JLP_MARKET; KAMINO_BITCOIN_MARKET; KAMINO_SUPERSTATE_OPENING_BELL_MARKET].

Definition RISK_BASKET_MARKETS (risk : RiskBasket) : list pubkey :=
  match risk with
  | Safe => safeMarkets
  | Medium => mediumMarkets
  | Aggressive =>
      mediumMarkets ++
      [KAMINO_HUMA_MARKET; KAMINO_SOLSTICE_MARKET; KAMINO_XSTOCKS_MARKET; KAMINO_ALTCOINS_MARKET]
  end.

Definition RISK_BASKET_MARKETS_BY_CLUSTER (cluster : LoyalCluster) (risk : RiskBasket) : list pubkey :=
  match cluster with
  | MainnetBeta => RISK_BASKET_MARKETS risk
  | Devnet => match risk with Safe | Medium | Aggressive => [KAMINO_DEVNET_MAIN_MARKET] end
  end.

Definition getRiskBasketMarketsForCluster : LoyalCluster -> RiskBasket -> list pubkey :=
  RISK_BASKET_MARKETS_BY_CLUSTER.

Record KaminoEarnTarget := {
  depositDiscriminator : list Z;
  initObligationDiscriminator : list Z;
  liquidityMint : pubkey;
  lendProgramId : pubkey;
  market : pubkey;
  reserve : pubkey;
  withdrawDiscriminator : list Z;
}.

Definition getKaminoUsdcEarnTargetForCluster (cluster : LoyalCluster) : result KaminoEarnTarget :=
  mint ← getStablecoinMintForCluster cluster USDC;
  match cluster with
  | Devnet => Ok {|
      depositDiscriminator := KAMINO_DEVNET_DEPOSIT_RESERVE_LIQUIDITY_DISCRIMINATOR;
      initObligationDiscriminator := KAMINO_INIT_OBLIGATION_DISCRIMINATOR;
      liquidityMint := mint;
      lendProgramId := KAMINO_DEVNET_LEND_PROGRAM_ID;
      market := KAMINO_DEVNET_MAIN_MARKET;
      reserve := KAMINO_DEVNET_USDC_RESERVE;
      withdrawDiscriminator := KAMINO_DEVNET_WITHDRAW_RESERVE_LIQUIDITY_DISCRIMINATOR |}
  | MainnetBeta => Ok {|
      depositDiscriminator := KAMINO_DEPOSIT_RESERVE_LIQUIDITY_DISCRIMINATOR;
      initObligationDiscriminator := KAMINO_INIT_OBLIGATION_DISCRIMINATOR;
      liquidityMint := mint;
      lendProgramId := KAMINO_LEND_PROGRAM_ID;
      market := KAMINO_MAIN_MARKET;
      reserve := KAMINO_MAIN_USDC_RESERVE;
      withdrawDiscriminator := KAMINO_WITHDRAW_RESERVE_LIQUIDITY_DISCRIMINATOR |}
  end.

(** ** Clusters (cluster.ts) *)
Definition sharedConfig : LoyalClusterConfig := {|
  squadsSmartAccountProgramId := SMART_ACCOUNTS_PROGRAM_ID;
  jupiterV6ProgramId := key_literal "JUP6LkbZbjS1jKKwapdHNy74zcZ3tLUZoi5QNyVTaV4";
  loyalHubSwapProgramId := key_literal "3qbR1eZRqXUWroWKKYhbDmR3FfqTHfqSU8zZSxtANzYh";
  loyalHubAuthorizer := key_literal "3uWi9x2SRpmjztkpkr2WWeBoVq3exjXG2YfDWLvm8KsQ";
  tokenProgramId := key_literal "TokenkegQfeZyiNwAJbNbGKPFXCWuBvf9Ss623VQ5DA";
  associatedTokenProgramId := key_literal "ATokenGPvbdGVxr1b2hvZbsiqW5xWH25efTNsLJA8knL";
|}.

Definition LOYAL_CLUSTER_CONFIGS (cluster : LoyalCluster) : LoyalClusterConfig :=
  match cluster with Devnet => sharedConfig | MainnetBeta => sharedConfig end.

(** Every case of the enumeration has a configuration: the guard cannot fail. *)
Definition clusterConfigFor (cluster : LoyalCluster) : LoyalClusterConfig := LOYAL_CLUSTER_CONFIGS cluster.

Definition normalizeLoyalCluster (value : string) : result LoyalCluster :=
  let normalizedValue := unchars (trim (chars value)) in
  if String.eqb normalizedValue (LoyalCluster_value Devnet) then Ok Devnet
  else if String.eqb normalizedValue (LoyalCluster_value MainnetBeta) || String.eqb normalizedValue "mainnet"
  then Ok MainnetBeta
  else throwError ("unsupported Loyal cluster: " +:+ value).

Definition resolveLoyalClusterForSolanaEnv (env : string) : result LoyalCluster :=
  if String.eqb env "devnet" then Ok Devnet
  else if String.eqb env "mainnet" then Ok MainnetBeta
  else throwError ("Earn persistence does not support Solana env: " +:+ env).

(** ** Sizes *)
Lemma markets_length cluster risk : (1 <= length (getRiskBasketMarketsForCluster cluster risk) <= 12)%nat.
Proof. destruct cluster, risk; simpl; lia. Qed.
Lemma mints_length cluster : (1 <= length (getStablecoinMintsForCluster cluster) <= 6)%nat.
Proof. destruct cluster; simpl; lia. Qed.
Lemma discriminator_bytes cluster t : getKaminoUsdcEarnTargetForCluster cluster = Ok t ->
  Forall (fun d => length d = 8%nat /\ Forall is_byte d)
    [withdrawDiscriminator t; depositDiscriminator t; initObligationDiscriminator t].
Proof.
  destruct cluster; intros [= <-]; cbn [withdrawDiscriminator depositDiscriminator initObligationDiscriminator];
    repeat first [apply Forall_nil_2 | apply Forall_cons_2 | split]; try reflexivity; done.
Qed.
End Registry.
