(* ===== verification/Sdk.v ===== *)
(** The policy plans of the actions SDK (web/packages/loyal-actions/src/sdk.ts): the
    validation of inputs, the constraints of each kind of policy, the instruction that
    installs it, and the routes that say which constraint each step of a route uses.

    A validator that narrows its argument returns what it narrowed it to. Arguments of
    type [PublicKey] are keys: the [instanceof PublicKey] guards cannot fail on them. *)
From S2P Require Import Prelude JsString Solana Bytes Subscriptions Squads Protocols Registry.

(** A [number] argument: an integer, or any other number with its text form. *)
Inductive number_arg := Integer (z : Z) | NonInteger (text : string).

(** [String(n)]; integers here are below 10^21, where no exponent is written. *)
Definition number_text (n : number_arg) : string :=
  match n with Integer z => bigint_toString z | NonInteger text => text end.

(** A policy seed as the caller passed it. *)
Inductive seed_arg := SeedMissing | SeedNumeric (n : numeric) | SeedOther.

Definition requirePolicySeed (policySeed : seed_arg) : result Z :=
  match policySeed with
  | SeedMissing => throwError "policySeed is required"
  | SeedOther => throwError "policySeed must be an integer"
  | SeedNumeric n => normalizeU64 n "policySeed"
  end.

Definition validateVaultIndex (vaultIndex : number_arg) (name : string) : result Z :=
  match vaultIndex with
  | Integer z => if (z <? 0) || (255 <? z) then throwError (name +:+ " must be a u8") else Ok z
  | NonInteger _ => throwError (name +:+ " must be a u8")
  end.

Definition requireCluster (cluster : string) : result LoyalCluster :=
  match cluster_of cluster with
  | Some c => Ok c
  | None => throwError ("unsupported Loyal cluster: " +:+ cluster)
  end.

Definition requireRisk (risk : string) : result RiskBasket :=
  match risk_of risk with
  | Some r => Ok r
  | None => throwError ("unsupported risk basket: " +:+ risk)
  end.

Definition VALID_MAX_FEE_BPS : list Z := map MaxFeeBps_value [Bps50; Bps75; Bps100; Bps125; Bps150].

Definition requireMaxFeeBps (maxFeeBps : option number_arg) : result Z :=
  let fee := default (Integer (MaxFeeBps_value DEFAULT_MAX_FEE_BPS)) maxFeeBps in
  match fee with
  | Integer z => if existsb (Z.eqb z) VALID_MAX_FEE_BPS then Ok z
                 else throwError ("unsupported maxFeeBps: " +:+ number_text fee)
  | NonInteger _ => throwError ("unsupported maxFeeBps: " +:+ number_text fee)
  end.

(** One turn of the loop over the lanes; the state is the set of lanes seen, in order. *)
Definition validateLane (seen : list SwapLane) (lane : string) : result (list SwapLane) :=
  match lane_of lane with
  | None => throwError ("unsupported swap lane: " +:+ lane)
  | Some l => if decide (l ∈ seen) then throwError ("duplicate swap lane: " +:+ lane)
              else Ok (seen ++ [l])
  end.

Definition YIELD_ROUTE_UNIVERSE_PRESET : string := "canonical_stable_kamino".
Definition YIELD_ROUTE_POLICY_THRESHOLD := 1.
Definition YIELD_ROUTE_SETUP_MODES : list string := ["kamino_init_obligation"%string].
Definition DEFAULT_YIELD_ROUTING_SWAP_LANES : list string := [SwapLane_value LaneJupiter].

Definition yieldRouteModesForSwapLanes (swapLanes : list SwapLane) : list string :=
  "same_mint_kamino"%string ::
  map (fun lane => match lane with LaneJupiter => "jupiter"%string | LaneLoyal => "loyal"%string end) swapLanes.

Section Sdk.
Context {PK : PublicKeys} {SPL : SplToken PK}.

(** ** Inputs *)
Record SquadsInput := {
  si_settings : pubkey;
  si_authority : pubkey;
  si_delegatedSigner : pubkey;
  si_accountIndex : number_arg;
  si_vault : pubkey;
}.

Record LoyalSmartAccountConfig := {
  sa_settings : pubkey;
  sa_authority : pubkey;
  sa_delegatedSigner : pubkey;
}.

Record CreateYieldRoutePolicyPlanInput := {
  yr_cluster : string;
  yr_policySeed : seed_arg;
  yr_risk : string;
  yr_swapLanes : list string;
  yr_maxFeeBps : option number_arg;
  yr_squads : SquadsInput;
}.

Record CreateYieldRouteSetupPolicyPlanInput := {
  ys_cluster : string;
  ys_policySeed : seed_arg;
  ys_risk : string;
  ys_squads : SquadsInput;
}.

Record CreateVaultYieldRoutingPolicyPlanInput := {
  vr_cluster : string;
  vr_policySeed : seed_arg;
  vr_risk : string;
  vr_vaultIndex : number_arg;
  vr_maxFeeBps : option number_arg;
  vr_smartAccount : option LoyalSmartAccountConfig;
}.

Record CreateJupiterCrossMintPolicyPlanInput := {
  cm_cluster : string;
  cm_policySeed : seed_arg;
  cm_sourceShard : string;
  cm_maxSlippageBps : number_arg;
  cm_dailySourceMintSpendingCap : numeric;
  cm_squads : SquadsInput;
}.

Record CreateSubscriptionSweepPolicyPlanInput := {
  sp_cluster : string;
  sp_policySeed : seed_arg;
  sp_squads : SquadsInput;
  sp_delegator : pubkey;
  sp_maxAmountPerPeriodRaw : numeric;
  sp_minimumDelegatorBalanceRaw : option numeric;
  sp_delegatorUsdcAta : option pubkey;
  sp_vaultUsdcAta : option pubkey;
}.

Record CreateVaultSubscriptionSweepPolicyPlanInput := {
  vs_cluster : string;
  vs_policySeed : seed_arg;
  vs_vaultIndex : number_arg;
  vs_smartAccount : option LoyalSmartAccountConfig;
  vs_delegator : pubkey;
  vs_maxAmountPerPeriodRaw : numeric;
  vs_minimumDelegatorBalanceRaw : option numeric;
  vs_delegatorUsdcAta : option pubkey;
  vs_vaultUsdcAta : option pubkey;
}.

(** ** Plans *)
Record LoyalActionRoute := { actionAccount : pubkey; instructionConstraintIndexes : list Z }.
Record PlanMetadata := { md_policySeed : Z; md_vaultIndex : Z; md_vault : pubkey; md_lockKey : string }.

Record YieldRouteRoutes := {
  sameMint : LoyalActionRoute;
  jupiterRoute : option LoyalActionRoute;
  loyalRoute : option LoyalActionRoute;
}.
Record PolicySpec := {
  ps_risk : RiskBasket;
  ps_stablecoins : list Stablecoin;
  ps_stableMints : list pubkey;
  ps_kaminoMarkets : list pubkey;
  ps_kaminoLiquidityMints : list pubkey;
  ps_swapLanes : list SwapLane;
  ps_maxFeeBps : Z;
}.
Record PersistedLane := { pl_lane : SwapLane; pl_actionAccount : string; pl_indexes : list Z }.
Record PolicyPersistence := {
  pp_riskProfile : RiskBasket;
  pp_universePreset : string;
  pp_routeModes : list string;
  pp_stableMints : list string;
  pp_kaminoMarkets : list string;
  pp_kaminoLiquidityMints : list string;
  pp_swapLanes : list PersistedLane;
  pp_threshold : Z;
}.
Record RoutePlan (R : Type) := {
  instructions : list instruction;
  planAccount : pubkey;
  routes : R;
  spec : PolicySpec;
  metadata : PlanMetadata;
  persistence : PolicyPersistence;
}.
Arguments instructions {R} _.
Arguments planAccount {R} _.
Arguments routes {R} _.
Arguments spec {R} _.
Arguments metadata {R} _.
Arguments persistence {R} _.
Definition YieldRoutePolicyPlan := RoutePlan YieldRouteRoutes.
(** Its one route is [initObligation]. *)
Definition YieldRouteSetupPolicyPlan := RoutePlan LoyalActionRoute.

Record JupiterCrossMintPolicyPlan := {
  cp_instructions : list instruction;
  cp_actionAccount : pubkey;
  cp_routeV2 : LoyalActionRoute;
  cp_sharedAccountsRouteV2 : LoyalActionRoute;
  cp_sourceShard : JupiterCrossMintSourceShard;
  cp_sourceMints : list pubkey;
  cp_destinationMints : list pubkey;
  cp_maxSlippageBps : Z;
  cp_dailySourceMintSpendingCap : Z;
  cp_metadata : PlanMetadata;
  (** [persistence.dailySourceMintSpendingCap]; its other fields repeat the spec *)
  cp_persistedCap : string;
}.

Record SweepMetadata := {
  sm_plan : PlanMetadata;
  sm_delegator : pubkey;
  sm_mint : pubkey;
  sm_subscriptionAuthority : pubkey;
  sm_eventAuthority : pubkey;
  sm_delegatorUsdcAta : pubkey;
  sm_vaultUsdcAta : pubkey;
}.
Record SubscriptionSweepPolicyPlan := {
  ss_instructions : list instruction;
  ss_actionAccount : pubkey;
  ss_metadata : SweepMetadata;
}.

(** ** Validation *)
Record RouteInput := { ri_risk : RiskBasket; ri_lanes : list SwapLane; ri_fee : Z; ri_squads : SquadsContext }.

Definition squadsContext (s : SquadsInput) (index : Z) : SquadsContext := {|
  settings := si_settings s;
  authority := si_authority s;
  delegatedSigner := si_delegatedSigner s;
  accountIndex := index;
  vault := si_vault s;
|}.

Definition validateInput (input : CreateYieldRoutePolicyPlanInput) : result RouteInput :=
  risk ← requireRisk (yr_risk input);
  lanes ← foldR validateLane [] (yr_swapLanes input);
  fee ← requireMaxFeeBps (yr_maxFeeBps input);
  _ ← requirePolicySeed (yr_policySeed input);
  index ← validateVaultIndex (si_accountIndex (yr_squads input)) "squads.accountIndex";
  Ok {| ri_risk := risk; ri_lanes := lanes; ri_fee := fee; ri_squads := squadsContext (yr_squads input) index |}.

Definition validateSetupInput (input : CreateYieldRouteSetupPolicyPlanInput) :
    result (RiskBasket * SquadsContext) :=
  risk ← requireRisk (ys_risk input);
  _ ← requirePolicySeed (ys_policySeed input);
  index ← validateVaultIndex (si_accountIndex (ys_squads input)) "squads.accountIndex";
  Ok (risk, squadsContext (ys_squads input) index).

Definition validateYieldRoutingInput (input : CreateVaultYieldRoutingPolicyPlanInput) : result Z :=
  _ ← requireRisk (vr_risk input);
  _ ← requireMaxFeeBps (vr_maxFeeBps input);
  _ ← requirePolicySeed (vr_policySeed input);
  validateVaultIndex (vr_vaultIndex input) "vaultIndex".

Definition requireShard (shard : string) : result JupiterCrossMintSourceShard :=
  match shard_of shard with
  | Some s => Ok s
  | None => throwError ("unsupported cross-mint source shard: " +:+ shard)
  end.

Definition requireSlippage (slippage : number_arg) : result Z :=
  match slippage with
  | Integer z => if (z <=? 0) || (10000 <? z)
                 then throwError "maxSlippageBps must be an integer between 1 and 10000" else Ok z
  | NonInteger _ => throwError "maxSlippageBps must be an integer between 1 and 10000"
  end.

Record CrossMintInput := {
  ci_cluster : LoyalCluster; ci_shard : JupiterCrossMintSourceShard; ci_slippage : Z; ci_squads : SquadsContext;
}.

Definition validateJupiterCrossMintPolicyInput (input : CreateJupiterCrossMintPolicyPlanInput) :
    result CrossMintInput :=
  cluster ← requireCluster (cm_cluster input);
  shard ← requireShard (cm_sourceShard input);
  slippage ← requireSlippage (cm_maxSlippageBps input);
  dailyCap ← normalizeU64 (cm_dailySourceMintSpendingCap input) "dailySourceMintSpendingCap";
  if dailyCap =? 0 then throwError "dailySourceMintSpendingCap must be positive"
  else
    _ ← requirePolicySeed (cm_policySeed input);
    index ← validateVaultIndex (si_accountIndex (cm_squads input)) "squads.accountIndex";
    Ok {| ci_cluster := cluster; ci_shard := shard; ci_slippage := slippage;
          ci_squads := squadsContext (cm_squads input) index |}.

(** The checks the two sweep validators share. *)
Definition validateSweepAmounts (maxAmount : numeric) (minimum : option numeric) : result unit :=
  _ ← normalizeU64 maxAmount "maxAmountPerPeriodRaw";
  match minimum with
  | None => Ok tt
  | Some raw => _ ← normalizeU64 raw "minimumDelegatorBalanceRaw"; Ok tt
  end.

Definition validateSubscriptionSweepInput (input : CreateSubscriptionSweepPolicyPlanInput) :
    result SquadsContext :=
  _ ← requirePolicySeed (sp_policySeed input);
  index ← validateVaultIndex (si_accountIndex (sp_squads input)) "squads.accountIndex";
  _ ← validateSweepAmounts (sp_maxAmountPerPeriodRaw input) (sp_minimumDelegatorBalanceRaw input);
  Ok (squadsContext (sp_squads input) index).

Definition validateVaultSubscriptionSweepInput (input : CreateVaultSubscriptionSweepPolicyPlanInput) :
    result Z :=
  _ ← requirePolicySeed (vs_policySeed input);
  index ← validateVaultIndex (vs_vaultIndex input) "vaultIndex";
  _ ← validateSweepAmounts (vs_maxAmountPerPeriodRaw input) (vs_minimumDelegatorBalanceRaw input);
  Ok index.

Definition requireSmartAccountConfig (smartAccount : option LoyalSmartAccountConfig) :
    result LoyalSmartAccountConfig :=
  match smartAccount with
  | None => throwError "smartAccount config is required to init a vault-indexed yield routing policy"
  | Some s => Ok s
  end.

(** ** Addresses *)
Definition deriveSquadsVault (programId settings : pubkey) (vaultIndex : number_arg) : result pubkey :=
  index ← validateVaultIndex vaultIndex "vaultIndex";
  findProgramAddress [SQUADS_SEED_PREFIX; toBytes settings; SQUADS_SEED_PREFIX; [index]] programId.

(** [settings.toBase58() : accountIndex] *)
Definition lockKey (s : SquadsContext) : string :=
  toBase58 (settings s) +:+ ":" +:+ bigint_toString (accountIndex s).

Definition planMetadata (seed : Z) (s : SquadsContext) : PlanMetadata := {|
  md_policySeed := seed; md_vaultIndex := accountIndex s; md_vault := vault s; md_lockKey := lockKey s |}.

(** The stablecoin mints, once the registry is found free of duplicates. *)
Definition requireStableMints (cluster : LoyalCluster) : result (list pubkey) :=
  let stableMints := getStablecoinMintsForCluster cluster in
  if (length (uniquePubkeys stableMints) =? length stableMints)%nat then Ok stableMints
  else throwError "stablecoin mint registry contains duplicates".

(** ** Yield routes *)
Definition laneConstraint (config : LoyalClusterConfig) (vault : pubkey) (stableMints : list pubkey)
    (maxFeeBps : Z) (lane : SwapLane) : result (InstructionConstraint pubkey) :=
  match lane with
  | LaneJupiter => Ok (jupiterConstraint config vault stableMints maxFeeBps)
  | LaneLoyal => loyalHubConstraint config vault stableMints maxFeeBps
  end.

(** The loop over [swapLanes.entries()] from a given offset: the routes object and the
    lanes to persist. *)
Fixpoint laneRoutes (account : pubkey) (depositIndex offset : Z) (lanes : list SwapLane)
    (state : YieldRouteRoutes * list PersistedLane) : YieldRouteRoutes * list PersistedLane :=
  match lanes with
  | [] => state
  | lane :: lanes =>
      let route := {| actionAccount := account;
                      instructionConstraintIndexes := [0; offset + 1; depositIndex] |} in
      let persisted := {| pl_lane := lane; pl_actionAccount := toBase58 account;
                          pl_indexes := instructionConstraintIndexes route |} in
      let r := state.1 in
      laneRoutes account depositIndex (offset + 1) lanes
        (match lane with
         | LaneJupiter => {| sameMint := sameMint r; jupiterRoute := Some route; loyalRoute := loyalRoute r |}
         | LaneLoyal => {| sameMint := sameMint r; jupiterRoute := jupiterRoute r; loyalRoute := Some route |}
         end, state.2 ++ [persisted])
  end.

Definition createYieldRoutePolicyPlan (input : CreateYieldRoutePolicyPlanInput) : result YieldRoutePolicyPlan :=
  cluster ← requireCluster (yr_cluster input);
  let clusterConfig := clusterConfigFor cluster in
  valid ← validateInput input;
  let squads := ri_squads valid in
  let swapLanes := ri_lanes valid in
  let maxFeeBps := ri_fee valid in
  stableMints ← requireStableMints cluster;
  let kaminoMarkets := getRiskBasketMarketsForCluster cluster (ri_risk valid) in
  kaminoEarnTarget ← getKaminoUsdcEarnTargetForCluster cluster;
  let kaminoLiquidityMints := stableMints in
  policySeed ← requirePolicySeed (yr_policySeed input);
  account ← deriveActionAccount clusterConfig (settings squads) (Big policySeed);
  laneConstraints ← mapR (laneConstraint clusterConfig (vault squads) stableMints maxFeeBps) swapLanes;
  let constraints :=
    [kaminoWithdrawConstraint (vault squads) kaminoMarkets kaminoLiquidityMints
       (lendProgramId kaminoEarnTarget) (withdrawDiscriminator kaminoEarnTarget)] ++
    laneConstraints ++
    [kaminoDepositConstraint (vault squads) kaminoMarkets kaminoLiquidityMints
       (lendProgramId kaminoEarnTarget) (depositDiscriminator kaminoEarnTarget)] in
  instruction ← createProgramInteractionPolicyInstruction clusterConfig squads constraints
                  (Big policySeed) [] compact;
  let depositIndex := 1 + Z.of_nat (length swapLanes) in
  let '(routes, persistenceSwapLanes) :=
    laneRoutes account depositIndex 0 swapLanes
      ({| sameMint := {| actionAccount := account; instructionConstraintIndexes := [0; depositIndex] |};
          jupiterRoute := None; loyalRoute := None |}, []) in
  Ok {|
    instructions := [instruction];
    planAccount := account;
    routes := routes;
    spec := {| ps_risk := ri_risk valid; ps_stablecoins := getStablecoinsForCluster cluster;
               ps_stableMints := stableMints; ps_kaminoMarkets := kaminoMarkets;
               ps_kaminoLiquidityMints := kaminoLiquidityMints; ps_swapLanes := swapLanes;
               ps_maxFeeBps := maxFeeBps |};
    metadata := planMetadata policySeed squads;
    persistence := {| pp_riskProfile := ri_risk valid; pp_universePreset := YIELD_ROUTE_UNIVERSE_PRESET;
                      pp_routeModes := yieldRouteModesForSwapLanes swapLanes;
                      pp_stableMints := map toBase58 stableMints;
                      pp_kaminoMarkets := map toBase58 kaminoMarkets;
                      pp_kaminoLiquidityMints := map toBase58 kaminoLiquidityMints;
                      pp_swapLanes := persistenceSwapLanes;
                      pp_threshold := YIELD_ROUTE_POLICY_THRESHOLD |} |}.

Definition createYieldRouteSetupPolicyPlan (input : CreateYieldRouteSetupPolicyPlanInput) :
    result YieldRouteSetupPolicyPlan :=
  cluster ← requireCluster (ys_cluster input);
  let clusterConfig := clusterConfigFor cluster in
  '(risk, squads) ← validateSetupInput input;
  stableMints ← requireStableMints cluster;
  let kaminoMarkets := getRiskBasketMarketsForCluster cluster risk in
  kaminoEarnTarget ← getKaminoUsdcEarnTargetForCluster cluster;
  policySeed ← requirePolicySeed (ys_policySeed input);
  account ← deriveActionAccount clusterConfig (settings squads) (Big policySeed);
  init ← kaminoInitObligationConstraint (vault squads) kaminoMarkets (lendProgramId kaminoEarnTarget)
           (initObligationDiscriminator kaminoEarnTarget);
  instruction ← createProgramInteractionPolicyInstruction clusterConfig squads [init] (Big policySeed) [] compact;
  Ok {|
    instructions := [instruction];
    planAccount := account;
    routes := {| actionAccount := account; instructionConstraintIndexes := [0] |};
    spec := {| ps_risk := risk; ps_stablecoins := getStablecoinsForCluster cluster;
               ps_stableMints := stableMints; ps_kaminoMarkets := kaminoMarkets;
               ps_kaminoLiquidityMints := stableMints; ps_swapLanes := [];
               ps_maxFeeBps := MaxFeeBps_value DEFAULT_MAX_FEE_BPS |};
    metadata := planMetadata policySeed squads;
    persistence := {| pp_riskProfile := risk; pp_universePreset := YIELD_ROUTE_UNIVERSE_PRESET;
                      pp_routeModes := YIELD_ROUTE_SETUP_MODES;
                      pp_stableMints := map toBase58 stableMints;
                      pp_kaminoMarkets := map toBase58 kaminoMarkets;
                      pp_kaminoLiquidityMints := map toBase58 stableMints;
                      pp_swapLanes := [];
                      pp_threshold := YIELD_ROUTE_POLICY_THRESHOLD |} |}.

Definition vaultSquads (smartAccount : LoyalSmartAccountConfig) (index : number_arg) (vault : pubkey) :
    SquadsInput := {|
  si_settings := sa_settings smartAccount;
  si_authority := sa_authority smartAccount;
  si_delegatedSigner := sa_delegatedSigner smartAccount;
  si_accountIndex := index;
  si_vault := vault;
|}.

Definition createVaultYieldRoutingPolicyPlan (input : CreateVaultYieldRoutingPolicyPlanInput) :
    result YieldRoutePolicyPlan :=
  cluster ← requireCluster (vr_cluster input);
  let clusterConfig := clusterConfigFor cluster in
  _ ← validateYieldRoutingInput input;
  smartAccount ← requireSmartAccountConfig (vr_smartAccount input);
  vault ← deriveSquadsVault (squadsSmartAccountProgramId clusterConfig) (sa_settings smartAccount)
            (vr_vaultIndex input);
  createYieldRoutePolicyPlan {|
    yr_cluster := vr_cluster input;
    yr_policySeed := vr_policySeed input;
    yr_risk := vr_risk input;
    yr_swapLanes := DEFAULT_YIELD_ROUTING_SWAP_LANES;
    yr_maxFeeBps := vr_maxFeeBps input;
    yr_squads := vaultSquads smartAccount (vr_vaultIndex input) vault |}.

(** ** Cross-mint policies *)
Definition sourceMatches (config : LoyalClusterConfig) (shard : JupiterCrossMintSourceShard)
    (destination : pubkey * pubkey) : bool :=
  match shard with
  | Classic => key_equals (snd destination) (tokenProgramId config)
  | Token2022 => negb (key_equals (snd destination) (tokenProgramId config))
  end.

Definition createJupiterCrossMintPolicyPlan (input : CreateJupiterCrossMintPolicyPlanInput) :
    result JupiterCrossMintPolicyPlan :=
  valid ← validateJupiterCrossMintPolicyInput input;
  let cluster := ci_cluster valid in
  let squads := ci_squads valid in
  let clusterConfig := clusterConfigFor cluster in
  policySeed ← requirePolicySeed (cm_policySeed input);
  dailyCap ← normalizeU64 (cm_dailySourceMintSpendingCap input) "dailySourceMintSpendingCap";
  let stablecoins := getStablecoinsForCluster cluster in
  if negb (length stablecoins =? 6)%nat
  then throwError "cross-mint policies require the complete six-mint Earn registry"
  else
    destinations ← mapR (fun stablecoin =>
        mint ← getStablecoinMintForCluster cluster stablecoin;
        tokenProgram ← getStablecoinTokenProgramForCluster cluster stablecoin;
        Ok (mint, tokenProgram)) stablecoins;
    let sourceMints := map fst (List.filter (sourceMatches clusterConfig (ci_shard valid)) destinations) in
    if negb (length sourceMints =? 3)%nat
    then throwError "cross-mint source shard must contain exactly three mints"
    else
      account ← deriveActionAccount clusterConfig (settings squads) (Big policySeed);
      routeV2 ← jupiterCrossMintConstraint clusterConfig (vault squads) destinations route_v2 (ci_slippage valid);
      shared ← jupiterCrossMintConstraint clusterConfig (vault squads) destinations
                 shared_accounts_route_v2 (ci_slippage valid);
      instruction ← createProgramInteractionPolicyInstruction clusterConfig squads [routeV2; shared]
                      (Big policySeed) (map (fun mint => MkLimit mint dailyCap) sourceMints) compact;
      Ok {|
        cp_instructions := [instruction];
        cp_actionAccount := account;
        cp_routeV2 := {| actionAccount := account; instructionConstraintIndexes := [0] |};
        cp_sharedAccountsRouteV2 := {| actionAccount := account; instructionConstraintIndexes := [1] |};
        cp_sourceShard := ci_shard valid;
        cp_sourceMints := sourceMints;
        cp_destinationMints := map fst destinations;
        cp_maxSlippageBps := ci_slippage valid;
        cp_dailySourceMintSpendingCap := dailyCap;
        cp_metadata := planMetadata policySeed squads;
        cp_persistedCap := bigint_toString dailyCap |}.

Record CreateJupiterCrossMintPolicySetInput := {
  ms_cluster : string;
  ms_classicSeed : seed_arg;
  ms_token2022Seed : seed_arg;
  ms_maxSlippageBps : number_arg;
  ms_dailySourceMintSpendingCap : numeric;
  ms_squads : SquadsInput;
}.

(** [{ ...common, policySeed, sourceShard }] *)
Definition commonInput (input : CreateJupiterCrossMintPolicySetInput) (seed : Z)
    (shard : JupiterCrossMintSourceShard) : CreateJupiterCrossMintPolicyPlanInput := {|
  cm_cluster := ms_cluster input;
  cm_policySeed := SeedNumeric (Big seed);
  cm_sourceShard := JupiterCrossMintSourceShard_value shard;
  cm_maxSlippageBps := ms_maxSlippageBps input;
  cm_dailySourceMintSpendingCap := ms_dailySourceMintSpendingCap input;
  cm_squads := ms_squads input;
|}.

Definition createJupiterCrossMintPolicySet (input : CreateJupiterCrossMintPolicySetInput) :
    result (JupiterCrossMintPolicyPlan * JupiterCrossMintPolicyPlan) :=
  classicSeed ← requirePolicySeed (ms_classicSeed input);
  token2022Seed ← requirePolicySeed (ms_token2022Seed input);
  if classicSeed =? token2022Seed then throwError "cross-mint policy seeds must be distinct"
  else
    classic ← createJupiterCrossMintPolicyPlan (commonInput input classicSeed Classic);
    token2022 ← createJupiterCrossMintPolicyPlan (commonInput input token2022Seed Token2022);
    Ok (classic, token2022).

(** ** Sweep policies *)
Definition orDerivedAta (given : option pubkey) (config : LoyalClusterConfig) (owner mint : pubkey) :
    result pubkey :=
  match given with
  | Some k => Ok k
  | None => deriveAssociatedTokenAccount config owner mint (tokenProgramId config)
  end.

Definition createSubscriptionSweepPolicyPlan (input : CreateSubscriptionSweepPolicyPlanInput) :
    result SubscriptionSweepPolicyPlan :=
  cluster ← requireCluster (sp_cluster input);
  let clusterConfig := clusterConfigFor cluster in
  squads ← validateSubscriptionSweepInput input;
  policySeed ← requirePolicySeed (sp_policySeed input);
  mint ← getStablecoinMintForCluster cluster USDC;
  delegatorUsdcAta ← orDerivedAta (sp_delegatorUsdcAta input) clusterConfig (sp_delegator input) mint;
  vaultUsdcAta ← orDerivedAta (sp_vaultUsdcAta input) clusterConfig (vault squads) mint;
  subscriptionAuthority ← deriveSubscriptionAuthority (sp_delegator input) mint;
  eventAuthority ← deriveSubscriptionEventAuthority;
  account ← deriveActionAccount clusterConfig (settings squads) (Big policySeed);
  constraint ← subscriptionSweepConstraint clusterConfig (sp_delegator input) (vault squads) mint
                 delegatorUsdcAta vaultUsdcAta (sp_maxAmountPerPeriodRaw input)
                 (sp_minimumDelegatorBalanceRaw input);
  instruction ← createProgramInteractionPolicyInstruction clusterConfig squads [constraint]
                  (Big policySeed) [] compact;
  Ok {|
    ss_instructions := [instruction];
    ss_actionAccount := account;
    ss_metadata := {| sm_plan := planMetadata policySeed squads;
                      sm_delegator := sp_delegator input;
                      sm_mint := mint;
                      sm_subscriptionAuthority := subscriptionAuthority;
                      sm_eventAuthority := eventAuthority;
                      sm_delegatorUsdcAta := delegatorUsdcAta;
                      sm_vaultUsdcAta := vaultUsdcAta |} |}.

Definition createVaultSubscriptionSweepPolicyPlan (input : CreateVaultSubscriptionSweepPolicyPlanInput) :
    result SubscriptionSweepPolicyPlan :=
  cluster ← requireCluster (vs_cluster input);
  let clusterConfig := clusterConfigFor cluster in
  _ ← validateVaultSubscriptionSweepInput input;
  smartAccount ← requireSmartAccountConfig (vs_smartAccount input);
  vault ← deriveSquadsVault (squadsSmartAccountProgramId clusterConfig) (sa_settings smartAccount)
            (vs_vaultIndex input);
  createSubscriptionSweepPolicyPlan {|
    sp_cluster := vs_cluster input;
    sp_policySeed := vs_policySeed input;
    sp_squads := vaultSquads smartAccount (vs_vaultIndex input) vault;
    sp_delegator := vs_delegator input;
    sp_maxAmountPerPeriodRaw := vs_maxAmountPerPeriodRaw input;
    sp_minimumDelegatorBalanceRaw := vs_minimumDelegatorBalanceRaw input;
    sp_delegatorUsdcAta := vs_delegatorUsdcAta input;
    sp_vaultUsdcAta := vs_vaultUsdcAta input |}.

(** ** The SDK object

    Each function fixes the cluster of its input and, for the vault-indexed plans, the
    configured smart account. The [init...] entries of the object are the same functions
    under older names. *)
Record CreateLoyalActionsSdkConfig := { sdk_cluster : string; sdk_smartAccount : option LoyalSmartAccountConfig }.

Record LoyalActionsSdk := {
  sdkYieldRoutePolicyPlan : CreateYieldRoutePolicyPlanInput -> result YieldRoutePolicyPlan;
  sdkYieldRouteSetupPolicyPlan : CreateYieldRouteSetupPolicyPlanInput -> result YieldRouteSetupPolicyPlan;
  sdkVaultYieldRoutingPolicyPlan : CreateVaultYieldRoutingPolicyPlanInput -> result YieldRoutePolicyPlan;
  sdkSubscriptionSweepPolicyPlan : CreateSubscriptionSweepPolicyPlanInput -> result SubscriptionSweepPolicyPlan;
  sdkVaultSubscriptionSweepPolicyPlan :
    CreateVaultSubscriptionSweepPolicyPlanInput -> result SubscriptionSweepPolicyPlan;
}.

Definition createLoyalActionsSdk (config : CreateLoyalActionsSdkConfig) : result LoyalActionsSdk :=
  _ ← requireCluster (sdk_cluster config);
  Ok {|
    sdkYieldRoutePolicyPlan input := createYieldRoutePolicyPlan {|
      yr_cluster := sdk_cluster config; yr_policySeed := yr_policySeed input; yr_risk := yr_risk input;
      yr_swapLanes := yr_swapLanes input; yr_maxFeeBps := yr_maxFeeBps input; yr_squads := yr_squads input |};
    sdkYieldRouteSetupPolicyPlan input := createYieldRouteSetupPolicyPlan {|
      ys_cluster := sdk_cluster config; ys_policySeed := ys_policySeed input; ys_risk := ys_risk input;
      ys_squads := ys_squads input |};
    sdkVaultYieldRoutingPolicyPlan input :=
      smartAccount ← requireSmartAccountConfig (sdk_smartAccount config);
      createVaultYieldRoutingPolicyPlan {|
        vr_cluster := sdk_cluster config; vr_policySeed := vr_policySeed input; vr_risk := vr_risk input;
        vr_vaultIndex := vr_vaultIndex input; vr_maxFeeBps := vr_maxFeeBps input;
        vr_smartAccount := Some smartAccount |};
    sdkSubscriptionSweepPolicyPlan input := createSubscriptionSweepPolicyPlan {|
      sp_cluster := sdk_cluster config; sp_policySeed := sp_policySeed input; sp_squads := sp_squads input;
      sp_delegator := sp_delegator input; sp_maxAmountPerPeriodRaw := sp_maxAmountPerPeriodRaw input;
      sp_minimumDelegatorBalanceRaw := sp_minimumDelegatorBalanceRaw input;
      sp_delegatorUsdcAta := sp_delegatorUsdcAta input; sp_vaultUsdcAta := sp_vaultUsdcAta input |};
    sdkVaultSubscriptionSweepPolicyPlan input :=
      smartAccount ← requireSmartAccountConfig (sdk_smartAccount config);
      createVaultSubscriptionSweepPolicyPlan {|
        vs_cluster := sdk_cluster config; vs_policySeed := vs_policySeed input;
        vs_vaultIndex := vs_vaultIndex input; vs_smartAccount := Some smartAccount;
        vs_delegator := vs_delegator input; vs_maxAmountPerPeriodRaw := vs_maxAmountPerPeriodRaw input;
        vs_minimumDelegatorBalanceRaw := vs_minimumDelegatorBalanceRaw input;
        vs_delegatorUsdcAta := vs_delegatorUsdcAta input; vs_vaultUsdcAta := vs_vaultUsdcAta input |} |}.

(** ** Validation, exactly *)
Lemma requirePolicySeed_spec s z :
  requirePolicySeed s = Ok z <-> exists n, s = SeedNumeric n /\ numeric_value n = Some z /\ is_u64 z.
Proof.
  destruct s as [|n|]; cbn [requirePolicySeed]; split; try done; try (by intros (? & [=] & _)).
  - intros H. exists n. split; [done|]. by apply normalizeU64_spec in H.
  - intros (n' & [= <-] & H). by apply normalizeU64_spec.
Qed.

Lemma validateVaultIndex_spec i name z : validateVaultIndex i name = Ok z <-> i = Integer z /\ is_byte z.
Proof.
  unfold is_byte. destruct i as [n|t]; cbn [validateVaultIndex].
  - rewrite range_check. split; [intros [-> ?]|intros [[= ->] ?]]; split; (done || lia).
  - split; [done|by intros [[=] _]].
Qed.

Lemma requireMaxFeeBps_spec o z :
  requireMaxFeeBps o = Ok z <-> default (Integer 100) o = Integer z /\ z ∈ [50; 75; 100; 125; 150].
Proof.
  unfold requireMaxFeeBps. change (MaxFeeBps_value DEFAULT_MAX_FEE_BPS) with 100.
  destruct (default (Integer 100) o) as [n|t]; [|split; [done|by intros [[=] _]]].
  destruct (existsb (Z.eqb n) VALID_MAX_FEE_BPS) eqn:E.
  - apply existsb_exists in E as (x & Hx & ->%Z.eqb_eq). apply list_elem_of_In in Hx.
    split; [by intros [= <-]|by intros [[= <-] _]].
  - split; [done|]. intros [[= <-] Hz]. exfalso. apply not_true_iff_false in E. apply E.
    apply existsb_exists. exists n. split; [by apply list_elem_of_In|apply Z.eqb_refl].
Qed.

Lemma validateLanes_gen lanes : forall seen ls, NoDup seen ->
  foldR validateLane seen lanes = Ok ls <->
  exists more, mapO lane_of lanes = Some more /\ ls = seen ++ more /\ NoDup ls.
Proof.
  induction lanes as [|x lanes IH]; intros seen ls Hn; cbn [foldR mapO].
  - split; [intros [= <-]; exists []; by rewrite app_nil_r|].
    intros (more & [= <-] & -> & _). by rewrite app_nil_r.
  - assert (Hx : validateLane seen x = match lane_of x with
        | None => throwError ("unsupported swap lane: " +:+ x)
        | Some l => if decide (l ∈ seen) then throwError ("duplicate swap lane: " +:+ x)
                    else Ok (seen ++ [l]) end) by done.
    rewrite Hx. destruct (lane_of x) as [l|]; cbn [mbind result_bind throwError].
    2: { split; [intros [=]|]. by intros (? & [=] & _). }
    destruct (decide (l ∈ seen)) as [Hl|Hl]; cbn [mbind result_bind throwError].
    + split; [intros [=]|]. intros (more & E & -> & Hd). destruct (mapO lane_of lanes); [|done].
      injection E as <-. apply NoDup_app in Hd as (_ & Hd & _). exfalso. apply (Hd l Hl). left.
    + rewrite IH by (apply NoDup_app; split_and!; [done|set_solver|apply NoDup_singleton]).
      destruct (mapO lane_of lanes) as [ms|].
      * split.
        -- intros (more & [= <-] & -> & Hd). exists (l :: ms). by rewrite <- app_assoc in *.
        -- intros (more & [= <-] & -> & Hd). exists ms. by rewrite <- app_assoc.
      * split; by intros (? & [=] & _).
Qed.

Lemma validateLanes_spec lanes ls :
  foldR validateLane [] lanes = Ok ls <-> mapO lane_of lanes = Some ls /\ NoDup ls.
Proof.
  rewrite validateLanes_gen by apply NoDup_nil_2. split; [by intros (m & ? & -> & ?)|naive_solver].
Qed.

Lemma lanes_length (ls : list SwapLane) : NoDup ls -> (length ls <= 2)%nat.
Proof.
  intros H. apply (submseteq_length ls [LaneJupiter; LaneLoyal]), NoDup_submseteq; [done|].
  intros [] _; set_solver.
Qed.

Section Laws.
Context {L : PublicKeyLaws PK}.

Lemma uniquePubkeys_length ks : (length (uniquePubkeys ks) <= length ks)%nat.
Proof. rewrite uniquePubkeys_table. apply (table_adds_length ks []). Qed.

Lemma uniquePubkeys_full ks : length (uniquePubkeys ks) = length ks <-> NoDup ks.
Proof.
  rewrite uniquePubkeys_table. split; [|intros H; by rewrite NoDup_table_adds].
  intros Hl. assert (Hn : NoDup (foldl table_add [] ks)) by apply table_adds_NoDup, NoDup_nil_2.
  assert (Hp : foldl table_add [] ks ≡ₚ ks).
  { apply submseteq_length_Permutation; [|lia]. apply NoDup_submseteq; [done|].
    intros k Hk. apply table_adds_elem in Hk as [Hk|Hk]; [set_solver|done]. }
  by rewrite <- Hp.
Qed.

Lemma requireStableMints_spec cluster ms :
  requireStableMints cluster = Ok ms <-> ms = getStablecoinMintsForCluster cluster /\ NoDup ms.
Proof.
  unfold requireStableMints. cbv zeta. set (g := getStablecoinMintsForCluster cluster). clearbody g.
  destruct (Nat.eqb_spec (length (uniquePubkeys g)) (length g)) as [E|E]; rewrite uniquePubkeys_full in E.
  - split; [by intros [= <-]|by intros [-> _]].
  - split; [done|by intros [-> ?]].
Qed.

(** ** The constraints fit a policy: in range, with at most [n] keys each *)
Definition fits (n : nat) (c : InstructionConstraint pubkey) : Prop :=
  constraint_wf 255 c /\ (length (constraint_keys c) <= n)%nat.

Lemma slice_wf d : length d = 8%nat -> Forall is_byte d -> data_wf (dataSliceEquals 0 d).
Proof. intros Hl Hb. split; [byte_lit|]. simpl. split; [done|]. rewrite Hl. lia. Qed.

Lemma u16_wf offset v : is_u64 offset -> 0 <= v < 2 ^ 16 -> data_wf (dataU16LeLessThanOrEqualTo offset v).
Proof. intros Ho Hv. split; [exact Ho|exact Hv]. Qed.

Lemma splAuthority_wf i k t : is_byte i -> account_wf 255 (splTokenAuthorityConstraint i k t).
Proof.
  intros Hi. apply accountData_wf; [done|simpl; lia|]. apply Forall_singleton, toBytes_slice_wf. byte_lit.
Qed.

(** Split a well-formedness goal into its accounts and data. *)
Ltac forall_wf :=
  repeat first [apply Forall_nil_2 | apply Forall_cons_2];
  first [ apply splAuthority_wf; byte_lit
        | apply pubkeyConstraint_wf; [byte_lit | simpl; lia]
        | apply dataU8Equals_wf; byte_lit
        | apply u16_wf; [byte_lit | lia]
        | idtac ].

(** Count the keys of a constraint whose accounts are written out. *)
Ltac count_keys :=
  unfold constraint_keys, account_keys; simpl; repeat (rewrite length_app; simpl); lia.

Ltac wf_parts :=
  unfold constraint_wf, short; cbn [ic_program ic_accounts ic_data]; split_and!;
  try (simpl; lia).

Lemma kamino_fits v ms ls prog d :
  (length ms <= 12)%nat -> (length ls <= 6)%nat -> length d = 8%nat -> Forall is_byte d ->
  fits 24 (kaminoWithdrawConstraint v ms ls prog d).
Proof.
  intros Hm Hs Hd Hb. unfold kaminoWithdrawConstraint.
  pose proof (uniquePubkeys_length ms). pose proof (uniquePubkeys_length ls).
  set (um := uniquePubkeys ms) in *. set (ul := uniquePubkeys ls) in *. clearbody um ul.
  split; [|count_keys]. wf_parts; forall_wf. by apply slice_wf.
Qed.

Lemma lane_fits config v mints fee lane c :
  (length mints <= 6)%nat -> 0 <= fee <= 150 -> laneConstraint config v mints fee lane = Ok c -> fits 24 c.
Proof.
  intros Hm Hf H. pose proof (uniquePubkeys_length mints) as Hu. destruct lane; cbn [laneConstraint] in H.
  - injection H as <-. unfold jupiterConstraint. cbv zeta.
    set (um := uniquePubkeys mints) in *. clearbody um.
    split; [|count_keys]. wf_parts; forall_wf. apply slice_wf; [done|]. repeat constructor; done.
  - unfold loyalHubConstraint in H. simpl_bind H. injection H as <-. cbv zeta.
    set (um := uniquePubkeys mints) in *. clearbody um.
    split; [|count_keys]. wf_parts; forall_wf; apply accountData_wf; [byte_lit|simpl; lia|constructor|byte_lit|simpl; lia|constructor].
Qed.

Lemma init_fits v ms prog d c :
  (length ms <= 12)%nat -> length d = 8%nat -> Forall is_byte d ->
  kaminoInitObligationConstraint v ms prog d = Ok c -> fits 24 c.
Proof.
  intros Hm Hd Hb H. unfold kaminoInitObligationConstraint in H. simpl_bind H. injection H as <-. cbv zeta.
  pose proof (uniquePubkeys_length ms). set (um := uniquePubkeys ms) in *. clearbody um.
  split; [|count_keys]. wf_parts; forall_wf.
  split; [byte_lit|]. cbn [value_wf dc_value dataSliceEquals]. rewrite length_app, Hd. split; [|simpl; lia].
  apply Forall_app. split; [done|]. repeat constructor; done.
Qed.

Lemma crossMint_fits config v ds dialect slippage c :
  (length ds <= 6)%nat -> 0 <= slippage <= 10000 ->
  jupiterCrossMintConstraint config v ds dialect slippage = Ok c -> fits 24 c.
Proof.
  intros Hd Hs H. unfold jupiterCrossMintConstraint in H. simpl_bind H. injection H as <-. cbv zeta.
  apply mapR_Ok_Forall2, Forall2_length in E. pose proof (uniquePubkeys_length v0).
  set (um := uniquePubkeys v0) in *. clearbody um.
  split; [|count_keys]. destruct dialect; wf_parts; forall_wf; apply slice_wf; first [done | by repeat constructor].
Qed.

(** A policy of at most ten such constraints can be installed. *)
Lemma install_ok encoding config context cs ls s acct :
  is_u64 s -> deriveActionAccount config (settings context) (Big s) = Ok acct ->
  is_byte (accountIndex context) -> Forall (fits 24) cs -> (length cs <= 10)%nat ->
  (length ls <= 255)%nat -> Forall (fun l => is_u64 (sl_maxPerPeriod l)) ls ->
  exists ix,
    createProgramInteractionPolicyInstruction config context cs (Big s) ls encoding = Ok ix /\
    programId ix = squadsSmartAccountProgramId config /\
    keys ix = policyAccounts config context acct /\
    d_create (data ix) =
      Some (s, wire_of (accountIndex context) cs ls, toBytes (delegatedSigner context), []).
Proof.
  intros Hs Ha Hi Hf Hc Hl Hu. apply create_policy_ok; try done.
  - unfold policy_wf, short. split_and!; [lia| |lia|done].
    eapply Forall_impl; [exact Hf|]. by intros c [? _].
  - unfold distinct_keys. etrans; [apply table_adds_length|]. cbn [length].
    assert (length (concat (map constraint_keys cs)) <= 24 * length cs)%nat; [|lia].
    clear -Hf. induction Hf as [|c cs [_ Hc] _ IH]; cbn [map concat length]; [lia|].
    rewrite length_app. lia.
Qed.

(** ** Yield-route plans *)
Definition route_valid (input : CreateYieldRoutePolicyPlanInput) (cluster : LoyalCluster) (risk : RiskBasket)
    (lanes : list SwapLane) (fee seed index : Z) : Prop :=
  cluster_of (yr_cluster input) = Some cluster /\
  risk_of (yr_risk input) = Some risk /\
  (mapO lane_of (yr_swapLanes input) = Some lanes /\ NoDup lanes) /\
  (default (Integer 100) (yr_maxFeeBps input) = Integer fee /\ fee ∈ [50; 75; 100; 125; 150]) /\
  (exists n, yr_policySeed input = SeedNumeric n /\ numeric_value n = Some seed /\ is_u64 seed) /\
  (si_accountIndex (yr_squads input) = Integer index /\ is_byte index).

(** The addresses a plan needs exist. *)
Definition route_derivable (input : CreateYieldRoutePolicyPlanInput) (cluster : LoyalCluster)
    (lanes : list SwapLane) (seed : Z) (account : pubkey) : Prop :=
  deriveActionAccount (clusterConfigFor cluster) (si_settings (yr_squads input)) (Big seed) = Ok account /\
  (LaneLoyal ∈ lanes ->
   is_ok (deriveLoyalHubConfig (loyalHubSwapProgramId (clusterConfigFor cluster))) = true).

Lemma requireCluster_spec s c : requireCluster s = Ok c <-> cluster_of s = Some c.
Proof. unfold requireCluster. destruct (cluster_of s); naive_solver. Qed.
Lemma requireRisk_spec s r : requireRisk s = Ok r <-> risk_of s = Some r.
Proof. unfold requireRisk. destruct (risk_of s); naive_solver. Qed.

(** The constraints of a route policy, and the plan once its parts are computed. *)
Definition kaminoConstraints (cluster : LoyalCluster) (risk : RiskBasket) (v : pubkey) (target : KaminoEarnTarget) :
    InstructionConstraint pubkey * InstructionConstraint pubkey :=
  let ms := getRiskBasketMarketsForCluster cluster risk in
  let ls := getStablecoinMintsForCluster cluster in
  (kaminoWithdrawConstraint v ms ls (lendProgramId target) (withdrawDiscriminator target),
   kaminoDepositConstraint v ms ls (lendProgramId target) (depositDiscriminator target)).

Definition route_of (r : YieldRouteRoutes) (lane : SwapLane) : option LoyalActionRoute :=
  match lane with LaneJupiter => jupiterRoute r | LaneLoyal => loyalRoute r end.

(** The constraints a route's indexes designate. *)
Definition route_uses (cs : list (InstructionConstraint pubkey)) (r : LoyalActionRoute)
    (l : list (InstructionConstraint pubkey)) : Prop :=
  map (fun i => cs !! Z.to_nat i) (instructionConstraintIndexes r) = map Some l.

Lemma laneRoutes_spec acct dep lanes : forall off st, NoDup lanes ->
  let out := laneRoutes acct dep off lanes st in
  let route i := {| actionAccount := acct; instructionConstraintIndexes := [0; off + Z.of_nat i + 1; dep] |} in
  sameMint out.1 = sameMint st.1 /\
  (forall i l, lanes !! i = Some l -> route_of out.1 l = Some (route i)) /\
  (forall l, l ∉ lanes -> route_of out.1 l = route_of st.1 l) /\
  out.2 = st.2 ++ imap (fun i l => {| pl_lane := l; pl_actionAccount := toBase58 acct;
                                      pl_indexes := instructionConstraintIndexes (route i) |}) lanes.
Proof.
  induction lanes as [|lane lanes IH]; intros off st Hn; cbn [laneRoutes]; cbv zeta.
  { split_and!; [done|done|done|by rewrite app_nil_r]. }
  apply NoDup_cons in Hn as [Hnot Hn]. cbn [instructionConstraintIndexes].
  match goal with |- context [laneRoutes _ _ _ lanes ?st'] => destruct (IH (off + 1) st' Hn) as (I1 & I2 & I3 & I4) end.
  split_and!.
  - rewrite I1. by destruct lane.
  - intros [|i] l Hl; cbn in Hl.
    + injection Hl as ->. rewrite (I3 l Hnot). replace (off + Z.of_nat 0 + 1) with (off + 1) by lia.
      by destruct l.
    + rewrite (I2 i l Hl). by replace (off + Z.of_nat (S i) + 1) with (off + 1 + Z.of_nat i + 1) by lia.
  - intros l Hl. rewrite (I3 l ltac:(set_solver)). destruct lane, l; try done; set_solver.
  - rewrite I4. cbn [snd]. rewrite <- app_assoc. cbn [app imap]. f_equal. f_equal.
    + by replace (off + Z.of_nat 0 + 1) with (off + 1) by lia.
    + apply imap_ext. intros i l _. cbn [compose].
      by replace (off + Z.of_nat (S i) + 1) with (off + 1 + Z.of_nat i + 1) by lia.
Qed.

Lemma validateInput_spec input cluster risk lanes fee seed index :
  route_valid input cluster risk lanes fee seed index ->
  validateInput input = Ok {| ri_risk := risk; ri_lanes := lanes; ri_fee := fee;
                              ri_squads := squadsContext (yr_squads input) index |} /\
  requirePolicySeed (yr_policySeed input) = Ok seed.
Proof.
  intros (_ & Hr & Hl & Hf & Hs & Hi). unfold validateInput.
  apply requireRisk_spec in Hr as ->. apply validateLanes_spec in Hl as ->.
  apply requireMaxFeeBps_spec in Hf as ->. apply requirePolicySeed_spec in Hs as ->.
  cbn [mbind result_bind]. apply (validateVaultIndex_spec _ "squads.accountIndex") in Hi as ->. done.
Qed.

Lemma validateInput_inv input cluster r :
  cluster_of (yr_cluster input) = Some cluster -> validateInput input = Ok r ->
  exists seed index, route_valid input cluster (ri_risk r) (ri_lanes r) (ri_fee r) seed index /\
    requirePolicySeed (yr_policySeed input) = Ok seed /\ ri_squads r = squadsContext (yr_squads input) index.
Proof.
  intros Hc H. unfold validateInput in H. inv_results. subst r. cbn [ri_risk ri_lanes ri_fee ri_squads].
  exists v2, v3. split; [|done]. unfold route_valid.
  apply requireRisk_spec in E. apply validateLanes_spec in E0. apply requireMaxFeeBps_spec in E1.
  apply requirePolicySeed_spec in E2. apply validateVaultIndex_spec in E3. done.
Qed.

Lemma laneConstraints_ok config v mints fee lanes :
  (LaneLoyal ∈ lanes -> is_ok (deriveLoyalHubConfig (loyalHubSwapProgramId config)) = true) ->
  exists lcs, mapR (laneConstraint config v mints fee) lanes = Ok lcs.
Proof.
  induction lanes as [|l lanes IH]; intros H; cbn [mapR]; [by eexists|].
  destruct IH as [lcs ->]; [set_solver|].
  assert (exists c, laneConstraint config v mints fee l = Ok c) as [c ->].
  { destruct l; cbn [laneConstraint]; [by eexists|]. unfold loyalHubConstraint.
    specialize (H ltac:(set_solver)). destruct (deriveLoyalHubConfig _); [by eexists|done]. }
  by eexists.
Qed.

Lemma route_constraints_fit cluster risk v target fee lanes lcs :
  getKaminoUsdcEarnTargetForCluster cluster = Ok target -> NoDup lanes -> fee ∈ [50; 75; 100; 125; 150] ->
  mapR (laneConstraint (clusterConfigFor cluster) v (getStablecoinMintsForCluster cluster) fee) lanes = Ok lcs ->
  let '(w, d) := kaminoConstraints cluster risk v target in
  Forall (fits 24) ([w] ++ lcs ++ [d]) /\ (length ([w] ++ lcs ++ [d]) <= 10)%nat.
Proof.
  intros Ht Hn Hf Hl. cbn [kaminoConstraints]. apply mapR_Ok_Forall2 in Hl as Hl2.
  pose proof (markets_length cluster risk) as [_ Hm]. pose proof (mints_length cluster) as [_ Hs].
  apply discriminator_bytes in Ht. rewrite !Forall_cons in Ht. destruct Ht as ([? ?] & [? ?] & _).
  assert (Hfee : 0 <= fee <= 150) by (repeat (apply elem_of_cons in Hf as [->|Hf]; [lia|]); set_solver).
  split.
  - apply Forall_app. split; [apply Forall_singleton; by apply kamino_fits|].
    apply Forall_app. split; [|apply Forall_singleton; by apply kamino_fits].
    apply Forall_forall. intros c Hc. apply list_elem_of_lookup in Hc as [i Hi].
    destruct (Forall2_lookup_r _ _ _ _ _ Hl2 Hi) as (l & _ & Hlc). by eapply lane_fits.
  - apply Forall2_length in Hl2. pose proof (lanes_length lanes Hn).
    rewrite !length_app. cbn [length]. lia.
Qed.

(** What a route plan promises, given the two Kamino constraints of its policy. *)
Record route_plan_promise (input : CreateYieldRoutePolicyPlanInput) (cluster : LoyalCluster)
    (lanes : list SwapLane) (fee seed index : Z) (w d : InstructionConstraint pubkey)
    (plan : YieldRoutePolicyPlan) : Prop := {
  (** the policy that the one instruction installs *)
  promise_policy : exists ix lcs,
    instructions plan = [ix] /\
    keys ix = policyAccounts (clusterConfigFor cluster) (squadsContext (yr_squads input) index) (planAccount plan) /\
    Forall2 (fun lane c => laneConstraint (clusterConfigFor cluster) (si_vault (yr_squads input))
                             (getStablecoinMintsForCluster cluster) fee lane = Ok c) lanes lcs /\
    d_create (data ix) = Some (seed, wire_of index ([w] ++ lcs ++ [d]) [],
                               toBytes (si_delegatedSigner (yr_squads input)), []) /\
    (** the constraints each route designates *)
    route_uses ([w] ++ lcs ++ [d]) (sameMint (routes plan)) [w; d] /\
    (forall i lane c, lanes !! i = Some lane -> lcs !! i = Some c -> exists r,
       route_of (routes plan) lane = Some r /\ actionAccount r = planAccount plan /\
       route_uses ([w] ++ lcs ++ [d]) r [w; c; d]);
  promise_absent : forall lane, lane ∉ lanes -> route_of (routes plan) lane = None;
  promise_persisted :
    map pl_lane (pp_swapLanes (persistence plan)) = lanes /\
    forall p, p ∈ pp_swapLanes (persistence plan) -> exists r,
      route_of (routes plan) (pl_lane p) = Some r /\ pl_indexes p = instructionConstraintIndexes r /\
      pl_actionAccount p = toBase58 (planAccount plan);
}.

Lemma lookup_deposit (w d : InstructionConstraint pubkey) lcs :
  ([w] ++ lcs ++ [d]) !! Z.to_nat (1 + Z.of_nat (length lcs)) = Some d.
Proof.
  replace (Z.to_nat (1 + Z.of_nat (length lcs))) with (S (length lcs)) by lia.
  change (([w] ++ lcs ++ [d]) !! S (length lcs)) with ((lcs ++ [d]) !! length lcs).
  rewrite lookup_app_r by lia. by rewrite Nat.sub_diag.
Qed.

Lemma lookup_lane (w d : InstructionConstraint pubkey) lcs i c : lcs !! i = Some c ->
  ([w] ++ lcs ++ [d]) !! Z.to_nat (0 + Z.of_nat i + 1) = Some c.
Proof.
  intros Hc. replace (Z.to_nat (0 + Z.of_nat i + 1)) with (S i) by lia.
  change (([w] ++ lcs ++ [d]) !! S i) with ((lcs ++ [d]) !! i). rewrite lookup_app_l; [done|].
  by apply lookup_lt_Some in Hc.
Qed.

Lemma route_plan_ok input cluster risk lanes fee seed index acct target :
  route_valid input cluster risk lanes fee seed index -> NoDup (getStablecoinMintsForCluster cluster) ->
  route_derivable input cluster lanes seed acct -> getKaminoUsdcEarnTargetForCluster cluster = Ok target ->
  let '(w, d) := kaminoConstraints cluster risk (si_vault (yr_squads input)) target in
  exists plan, createYieldRoutePolicyPlan input = Ok plan /\ planAccount plan = acct /\
    route_plan_promise input cluster lanes fee seed index w d plan.
Proof.
  intros Hv Hm [Ha Hh] Ht. destruct (validateInput_spec _ _ _ _ _ _ _ Hv) as [Ev Es].
  destruct Hv as (Hc & _ & [_ Hn] & [_ Hf] & (n & _ & _ & Hu) & _ & Hi).
  destruct (laneConstraints_ok (clusterConfigFor cluster) (si_vault (yr_squads input))
              (getStablecoinMintsForCluster cluster) fee lanes Hh) as [lcs El].
  pose proof (route_constraints_fit cluster risk (si_vault (yr_squads input)) target fee lanes lcs Ht Hn Hf El) as Hfit.
  cbn [kaminoConstraints] in *. set (w := kaminoWithdrawConstraint _ _ _ _ _) in *.
  set (d := kaminoDepositConstraint _ _ _ _ _) in *. destruct Hfit as [Hfit Hlen].
  destruct (install_ok compact (clusterConfigFor cluster) (squadsContext (yr_squads input) index) ([w] ++ lcs ++ [d]) []
              seed acct Hu Ha Hi Hfit Hlen ltac:(simpl; lia) ltac:(constructor)) as (ix & Eix & _ & Hk & Hd).
  unfold createYieldRoutePolicyPlan. apply requireCluster_spec in Hc as ->. cbn [mbind result_bind]. cbv zeta.
  rewrite Ev. cbn [mbind result_bind ri_risk ri_lanes ri_fee ri_squads].
  rewrite (proj2 (requireStableMints_spec cluster _) (conj eq_refl Hm)). cbn [mbind result_bind].
  rewrite Ht, Es. cbn [mbind result_bind squadsContext settings vault]. rewrite Ha. cbn [mbind result_bind].
  rewrite El. cbn [mbind result_bind]. fold w d. rewrite Eix.
  cbn [mbind result_bind].
  match goal with |- context [laneRoutes ?a ?dep ?o ?l ?st] =>
    destruct (laneRoutes_spec a dep l o st Hn) as (R1 & R2 & R3 & R4);
    destruct (laneRoutes a dep o l st) as [rs ps] eqn:Er end.
  cbn [fst snd] in *. eexists. split; [reflexivity|]. split; [reflexivity|].
  apply mapR_Ok_Forall2 in El. pose proof (Forall2_length _ _ _ El) as Hll.
  constructor; cbn [instructions planAccount routes persistence pp_swapLanes].
  - exists ix, lcs. split_and!; [done|exact Hk|exact El|exact Hd| |].
    + rewrite R1. cbn [sameMint]. unfold route_uses. cbn [instructionConstraintIndexes map].
      by rewrite Hll, lookup_deposit.
    + intros i lane c Hi1 Hi2. eexists. split; [by apply R2|]. split; [done|].
      unfold route_uses. cbn [instructionConstraintIndexes map].
      by rewrite Hll, lookup_deposit, (lookup_lane w d lcs i c Hi2).
  - intros lane Hl. rewrite (R3 lane Hl). by destruct lane.
  - rewrite R4. cbn [app]. split.
    + apply list_eq. intros i. rewrite list_lookup_fmap, list_lookup_imap. by destruct (lanes !! i).
    + intros p Hp. apply list_elem_of_lookup in Hp as [i Hp]. rewrite list_lookup_imap in Hp.
      destruct (lanes !! i) as [l|] eqn:E; [|done]. injection Hp as <-. eexists. split; [by apply R2|done].
Qed.

(** C2. A yield-route plan for a valid input is always computed, and its routes mean what
    they say: the one instruction installs, at the plan's action account, the policy of a
    Kamino withdrawal, one constraint per lane in order and a Kamino deposit, with no
    spending limit; its bytes read back as that policy; the same-mint route designates
    the withdrawal and the deposit, the route of each requested lane the withdrawal, that
    lane's swap and the deposit; a lane not requested has no route; and the persisted
    lanes carry the same indexes and account. *)
Theorem yield_route_plan_readable input cluster risk lanes fee seed index acct target :
  route_valid input cluster risk lanes fee seed index -> NoDup (getStablecoinMintsForCluster cluster) ->
  route_derivable input cluster lanes seed acct -> getKaminoUsdcEarnTargetForCluster cluster = Ok target ->
  let '(w, d) := kaminoConstraints cluster risk (si_vault (yr_squads input)) target in
  exists plan, createYieldRoutePolicyPlan input = Ok plan /\ planAccount plan = acct /\
    route_plan_promise input cluster lanes fee seed index w d plan.
Proof. apply route_plan_ok. Qed.

(** C13. A yield-route plan is refused exactly for invalid inputs: it exists if and only if the
    cluster and the risk basket are supported, the lanes are supported and distinct, the
    fee limit is one of the five allowed, the seed is an integer in the u64 range, the
    account index is a byte, the cluster's mints are distinct and the addresses it needs
    can be derived. *)
Theorem yield_route_planned_iff input :
  (exists plan, createYieldRoutePolicyPlan input = Ok plan) <->
  exists cluster risk lanes fee seed index acct,
    route_valid input cluster risk lanes fee seed index /\ NoDup (getStablecoinMintsForCluster cluster) /\
    route_derivable input cluster lanes seed acct.
Proof.
  split.
  - intros [plan H]. unfold createYieldRoutePolicyPlan in H. simpl_bind H. simpl_bind H. cbv zeta in H.
    simpl_bind H. simpl_bind H. simpl_bind H. simpl_bind H. simpl_bind H.
    apply requireCluster_spec in E. destruct (validateInput_inv _ _ _ E E0) as (seed & index & Hv & Hs & Hq).
    rewrite Hs in E3. injection E3 as <-. rewrite Hq in E4. apply requireStableMints_spec in E1 as [-> Hm].
    exists v, (ri_risk v0), (ri_lanes v0), (ri_fee v0), seed, index, v4. split_and!; [done|done|].
    split; [exact E4|]. intros Hl. apply mapR_Ok_Forall2 in E5. apply list_elem_of_lookup in Hl as [i Hi].
    destruct (Forall2_lookup_l _ _ _ _ _ E5 Hi) as (c & _ & Hc). cbn [laneConstraint] in Hc.
    unfold loyalHubConstraint in Hc. simpl_bind Hc.
    by match goal with Hh : deriveLoyalHubConfig _ = Ok _ |- _ => rewrite Hh end.
  - intros (cluster & risk & lanes & fee & seed & index & acct & Hv & Hm & Hd).
    destruct (getKaminoUsdcEarnTargetForCluster cluster) as [target|e] eqn:Et; [|by destruct cluster].
    pose proof (route_plan_ok _ _ _ _ _ _ _ _ _ Hv Hm Hd Et) as H. cbn [kaminoConstraints] in H.
    destruct H as (plan & -> & _). by exists plan.
Qed.

(** ** Sweep plans *)
Lemma sweep_fits config delegator v mint dAta vAta maxAmount minBalance c :
  subscriptionSweepConstraint config delegator v mint dAta vAta maxAmount minBalance = Ok c -> fits 24 c.
Proof.
  intros H. destruct (sweep_constraint_wf _ _ _ _ _ _ _ _ _ H) as [H1 H2]. split; [done|lia].
Qed.

Lemma sweep_amounts_ok config delegator v mint dAta vAta maxAmount minBalance c :
  subscriptionSweepConstraint config delegator v mint dAta vAta maxAmount minBalance = Ok c ->
  validateSweepAmounts maxAmount minBalance = Ok tt /\
  exists auth event, deriveSubscriptionAuthority delegator mint = Ok auth /\ deriveSubscriptionEventAuthority = Ok event.
Proof.
  unfold subscriptionSweepConstraint, recurringDelegationAccountConstraint, delegatorTokenBalanceConstraints,
    validateSweepAmounts. intros H. inv_results.
  match goal with Hm : normalizeU64 maxAmount _ = Ok _ |- _ => rewrite Hm end. cbn [mbind result_bind].
  split; [|by eauto]. destruct minBalance as [b|]; [|done].
  inv_results. match goal with Hm : normalizeU64 b _ = Ok _ |- _ => by rewrite Hm end.
Qed.

(** The sweep plan of a vault index authorises the vault of that very index: for valid arguments
    the plan is computed, its vault is the address derived from the settings and the
    index, its one instruction reads back as the policy for that index with exactly the
    sweep constraint of the delegator, that vault, the cluster's USDC mint and the two
    token accounts, given or derived. *)
Theorem vault_sweep_plan_readable input cluster sa n seed index v mint dAta vAta acct c :
  cluster_of (vs_cluster input) = Some cluster -> vs_smartAccount input = Some sa ->
  vs_policySeed input = SeedNumeric n -> numeric_value n = Some seed -> is_u64 seed ->
  vs_vaultIndex input = Integer index -> is_byte index ->
  findProgramAddress [SQUADS_SEED_PREFIX; toBytes (sa_settings sa); SQUADS_SEED_PREFIX; [index]]
    (squadsSmartAccountProgramId (clusterConfigFor cluster)) = Ok v ->
  STABLECOIN_MINTS_BY_CLUSTER cluster USDC = Some mint ->
  orDerivedAta (vs_delegatorUsdcAta input) (clusterConfigFor cluster) (vs_delegator input) mint = Ok dAta ->
  orDerivedAta (vs_vaultUsdcAta input) (clusterConfigFor cluster) v mint = Ok vAta ->
  subscriptionSweepConstraint (clusterConfigFor cluster) (vs_delegator input) v mint dAta vAta
    (vs_maxAmountPerPeriodRaw input) (vs_minimumDelegatorBalanceRaw input) = Ok c ->
  deriveActionAccount (clusterConfigFor cluster) (sa_settings sa) (Big seed) = Ok acct ->
  exists plan ix, createVaultSubscriptionSweepPolicyPlan input = Ok plan /\
    ss_instructions plan = [ix] /\ ss_actionAccount plan = acct /\
    md_vault (sm_plan (ss_metadata plan)) = v /\ md_vaultIndex (sm_plan (ss_metadata plan)) = index /\
    sm_delegatorUsdcAta (ss_metadata plan) = dAta /\ sm_vaultUsdcAta (ss_metadata plan) = vAta /\
    keys ix = policyAccounts (clusterConfigFor cluster)
                (squadsContext (vaultSquads sa (Integer index) v) index) acct /\
    d_create (data ix) = Some (seed, wire_of index [c] [], toBytes (sa_delegatedSigner sa), []).
Proof.
  intros Hc Hsa Hs Hn Hu Hi Hb Hv Hm Hd Hva Hcon Ha.
  destruct (sweep_amounts_ok _ _ _ _ _ _ _ _ _ Hcon) as (Hamt & auth & event & Hau & Hev).
  apply requireCluster_spec in Hc.
  assert (Hseed : requirePolicySeed (vs_policySeed input) = Ok seed) by (apply requirePolicySeed_spec; eauto).
  assert (Hidx : forall name, validateVaultIndex (vs_vaultIndex input) name = Ok index)
    by (intros name; by apply validateVaultIndex_spec).
  destruct (install_ok compact (clusterConfigFor cluster) (squadsContext (vaultSquads sa (Integer index) v) index) [c] []
              seed acct Hu Ha Hb) as (ix & Eix & _ & Hk & Hr);
    [by apply Forall_singleton; eapply sweep_fits|simpl; lia..|constructor|].
  unfold createVaultSubscriptionSweepPolicyPlan, validateVaultSubscriptionSweepInput, deriveSquadsVault.
  rewrite Hc. cbn [mbind result_bind]. cbv zeta. rewrite Hseed, Hidx, Hamt, Hsa. cbn [mbind result_bind requireSmartAccountConfig].
  rewrite Hv. cbn [mbind result_bind].
  unfold createSubscriptionSweepPolicyPlan, validateSubscriptionSweepInput.
  cbn [sp_cluster sp_policySeed sp_squads sp_delegator sp_maxAmountPerPeriodRaw sp_minimumDelegatorBalanceRaw
       sp_delegatorUsdcAta sp_vaultUsdcAta si_accountIndex vaultSquads].
  rewrite Hc. cbn [mbind result_bind]. cbv zeta. rewrite Hseed. cbn [mbind result_bind].
  rewrite Hidx, Hamt. cbn [mbind result_bind]. rewrite Hi.
  unfold getStablecoinMintForCluster. rewrite Hm. cbn [mbind result_bind]. rewrite Hd. cbn [mbind result_bind].
  cbn [squadsContext vault settings si_vault si_settings vaultSquads].
  rewrite Hva, Hau, Hev. cbn [mbind result_bind]. rewrite Ha. cbn [mbind result_bind]. rewrite Hcon.
  cbn [mbind result_bind]. fold (vaultSquads sa (Integer index) v). rewrite Eix. cbn [mbind result_bind].
  do 2 eexists. split; [reflexivity|]. by split_and!.
Qed.

(** ** Cross-mint plans *)
Definition crossDestinations : list (pubkey * pubkey) :=
  map (fun s => (STABLECOIN_MINTS s, STABLECOIN_TOKEN_PROGRAMS s)) STABLECOINS.
Definition shard_sources (shard : JupiterCrossMintSourceShard) : list Stablecoin :=
  match shard with Classic => [USDC; USDT; USDS] | Token2022 => [CASH; USDG; PYUSD] end.

Lemma shard_filter shard : TOKEN_2022_PROGRAM_ID <> tokenProgramId (clusterConfigFor MainnetBeta) ->
  map fst (List.filter (sourceMatches (clusterConfigFor MainnetBeta) shard) crossDestinations)
  = map STABLECOIN_MINTS (shard_sources shard).
Proof.
  intros Hne. set (t := tokenProgramId (clusterConfigFor MainnetBeta)) in *.
  assert (H2022 : forall s, s ∈ [CASH; USDG; PYUSD] -> key_equals (STABLECOIN_TOKEN_PROGRAMS s) t = false).
  { intros s Hs. apply bool_decide_eq_false_2.
    repeat (apply elem_of_cons in Hs as [->|Hs]; [done|]). set_solver. }
  assert (Htok : forall s, s ∈ [USDC; USDT; USDS] -> key_equals (STABLECOIN_TOKEN_PROGRAMS s) t = true).
  { intros s Hs. apply bool_decide_eq_true_2.
    repeat (apply elem_of_cons in Hs as [->|Hs]; [done|]). set_solver. }
  unfold crossDestinations, STABLECOINS. cbn [map List.filter].
  destruct shard; unfold sourceMatches; cbn [snd]; fold t;
    rewrite (H2022 CASH), (H2022 USDG), (H2022 PYUSD), (Htok USDC), (Htok USDT), (Htok USDS) by set_solver;
    done.
Qed.

Lemma crossDestinations_ok :
  mapR (fun stablecoin =>
    mint ← getStablecoinMintForCluster MainnetBeta stablecoin;
    tokenProgram ← getStablecoinTokenProgramForCluster MainnetBeta stablecoin;
    Ok (mint, tokenProgram)) (getStablecoinsForCluster MainnetBeta) = Ok crossDestinations.
Proof. reflexivity. Qed.

(** The two constraints of a cross-mint policy. *)
Definition crossConstraints (config : LoyalClusterConfig) (v : pubkey) (slippage : Z)
    (rv sh : InstructionConstraint pubkey) : Prop :=
  jupiterCrossMintConstraint config v crossDestinations route_v2 slippage = Ok rv /\
  jupiterCrossMintConstraint config v crossDestinations shared_accounts_route_v2 slippage = Ok sh.

Lemma cross_plan_ok input shard n seed slippage cap index acct rv sh :
  cluster_of (cm_cluster input) = Some MainnetBeta -> shard_of (cm_sourceShard input) = Some shard ->
  cm_policySeed input = SeedNumeric n -> numeric_value n = Some seed -> is_u64 seed ->
  cm_maxSlippageBps input = Integer slippage -> 1 <= slippage <= 10000 ->
  numeric_value (cm_dailySourceMintSpendingCap input) = Some cap -> is_u64 cap -> cap <> 0 ->
  si_accountIndex (cm_squads input) = Integer index -> is_byte index ->
  TOKEN_2022_PROGRAM_ID <> tokenProgramId (clusterConfigFor MainnetBeta) ->
  deriveActionAccount (clusterConfigFor MainnetBeta) (si_settings (cm_squads input)) (Big seed) = Ok acct ->
  crossConstraints (clusterConfigFor MainnetBeta) (si_vault (cm_squads input)) slippage rv sh ->
  exists plan ix, createJupiterCrossMintPolicyPlan input = Ok plan /\
    cp_instructions plan = [ix] /\ cp_actionAccount plan = acct /\
    cp_sourceMints plan = map STABLECOIN_MINTS (shard_sources shard) /\
    route_uses [rv; sh] (cp_routeV2 plan) [rv] /\ route_uses [rv; sh] (cp_sharedAccountsRouteV2 plan) [sh] /\
    d_create (data ix) =
      Some (seed, wire_of index [rv; sh] (map (fun s => MkLimit (STABLECOIN_MINTS s) cap) (shard_sources shard)),
            toBytes (si_delegatedSigner (cm_squads input)), []).
Proof.
  intros Hc Hsh Hs Hn Hu Hsl Hslr Hcap Hcu Hc0 Hi Hb Hne Ha [Hrv Hsc].
  assert (Hseed : requirePolicySeed (cm_policySeed input) = Ok seed) by (apply requirePolicySeed_spec; eauto).
  assert (Hidx : validateVaultIndex (si_accountIndex (cm_squads input)) "squads.accountIndex" = Ok index)
    by (by apply validateVaultIndex_spec).
  assert (Hnc : normalizeU64 (cm_dailySourceMintSpendingCap input) "dailySourceMintSpendingCap" = Ok cap)
    by (by apply normalizeU64_spec).
  set (ls := map (fun s => MkLimit (STABLECOIN_MINTS s) cap) (shard_sources shard)).
  destruct (install_ok compact (clusterConfigFor MainnetBeta) (squadsContext (cm_squads input) index) [rv; sh] ls
              seed acct Hu Ha Hb) as (ix & Eix & _ & _ & Hr).
  { apply Forall_cons_2; [|apply Forall_singleton].
    - eapply (crossMint_fits _ _ _ route_v2 slippage); [| |exact Hrv]; [simpl; lia|lia].
    - eapply (crossMint_fits _ _ _ shared_accounts_route_v2 slippage); [| |exact Hsc]; [simpl; lia|lia]. }
  { simpl; lia. }
  { unfold ls. rewrite length_map. destruct shard; simpl; lia. }
  { unfold ls. apply Forall_fmap, Forall_forall. by intros s _. }
  unfold createJupiterCrossMintPolicyPlan, validateJupiterCrossMintPolicyInput.
  apply requireCluster_spec in Hc as ->. unfold requireShard. rewrite Hsh, Hsl, Hnc. cbn [mbind result_bind requireSlippage].
  destruct (Z.leb_spec slippage 0), (Z.ltb_spec 10000 slippage); try lia. cbn [orb mbind result_bind].
  destruct (Z.eqb_spec cap 0); [done|]. rewrite Hseed, Hidx. cbn [mbind result_bind]. cbv zeta.
  cbn [ci_cluster ci_squads ci_shard ci_slippage]. rewrite crossDestinations_ok. cbn [mbind result_bind].
  rewrite (shard_filter shard Hne).
  change (length (getStablecoinsForCluster MainnetBeta) =? 6)%nat with true. cbn [negb].
  rewrite length_map. replace (length (shard_sources shard) =? 3)%nat with true by (by destruct shard). cbn [negb].
  cbn [squadsContext settings vault]. rewrite Ha. cbn [mbind result_bind]. rewrite Hrv, Hsc. cbn [mbind result_bind].
  rewrite map_map. fold ls. rewrite Eix. cbn [mbind result_bind].
  do 2 eexists. split; [reflexivity|]. by split_and!.
Qed.

(** The two cross-mint policies of a mainnet set are computed for valid arguments and
    together let every stablecoin of the registry be spent through exactly one of them:
    the classic one limits the three classic mints, the other the three Token-2022
    mints, each to the daily cap; both read back as the same two Jupiter constraints,
    which their routes designate, under different seeds. *)
Theorem cross_mint_set_readable input n1 n2 s1 s2 slippage cap index a1 a2 rv sh :
  cluster_of (ms_cluster input) = Some MainnetBeta ->
  ms_classicSeed input = SeedNumeric n1 -> numeric_value n1 = Some s1 -> is_u64 s1 ->
  ms_token2022Seed input = SeedNumeric n2 -> numeric_value n2 = Some s2 -> is_u64 s2 -> s1 <> s2 ->
  ms_maxSlippageBps input = Integer slippage -> 1 <= slippage <= 10000 ->
  numeric_value (ms_dailySourceMintSpendingCap input) = Some cap -> is_u64 cap -> cap <> 0 ->
  si_accountIndex (ms_squads input) = Integer index -> is_byte index ->
  TOKEN_2022_PROGRAM_ID <> tokenProgramId (clusterConfigFor MainnetBeta) ->
  deriveActionAccount (clusterConfigFor MainnetBeta) (si_settings (ms_squads input)) (Big s1) = Ok a1 ->
  deriveActionAccount (clusterConfigFor MainnetBeta) (si_settings (ms_squads input)) (Big s2) = Ok a2 ->
  crossConstraints (clusterConfigFor MainnetBeta) (si_vault (ms_squads input)) slippage rv sh ->
  exists classic token2022, createJupiterCrossMintPolicySet input = Ok (classic, token2022) /\
    cp_sourceMints classic ++ cp_sourceMints token2022 ≡ₚ getStablecoinMintsForCluster MainnetBeta /\
    Forall (fun '(plan, seed, acct) =>
      cp_actionAccount plan = acct /\
      route_uses [rv; sh] (cp_routeV2 plan) [rv] /\ route_uses [rv; sh] (cp_sharedAccountsRouteV2 plan) [sh] /\
      exists ix, cp_instructions plan = [ix] /\
        d_create (data ix) =
          Some (seed, wire_of index [rv; sh] (map (fun m => MkLimit m cap) (cp_sourceMints plan)),
                toBytes (si_delegatedSigner (ms_squads input)), []))
      [(classic, s1, a1); (token2022, s2, a2)].
Proof.
  intros Hc H1 Hn1 Hu1 H2 Hn2 Hu2 Hne Hsl Hslr Hcap Hcu Hc0 Hi Hb Ht Ha1 Ha2 Hcc.
  unfold createJupiterCrossMintPolicySet.
  rewrite (proj2 (requirePolicySeed_spec (ms_classicSeed input) s1)), (proj2 (requirePolicySeed_spec (ms_token2022Seed input) s2))
    by (eexists; split_and!; done). cbn [mbind result_bind].
  destruct (Z.eqb_spec s1 s2); [done|].
  destruct (cross_plan_ok (commonInput input s1 Classic) Classic (Big s1) s1 slippage cap index a1 rv sh
              Hc eq_refl eq_refl eq_refl Hu1 Hsl Hslr Hcap Hcu Hc0 Hi Hb Ht Ha1 Hcc)
    as (c & ix1 & -> & C2 & C3 & C4 & C5 & C6 & C7).
  destruct (cross_plan_ok (commonInput input s2 Token2022) Token2022 (Big s2) s2 slippage cap index a2 rv sh
              Hc eq_refl eq_refl eq_refl Hu2 Hsl Hslr Hcap Hcu Hc0 Hi Hb Ht Ha2 Hcc)
    as (t & ix2 & -> & T2 & T3 & T4 & T5 & T6 & T7).
  cbn [mbind result_bind]. exists c, t. split; [done|]. split.
  { rewrite C4, T4, <- map_app. apply Permutation_map. cbn [shard_sources app].
    apply (Permutation_app_comm [USDC; USDT; USDS] [CASH; USDG; PYUSD]). }
  repeat first [apply Forall_nil_2|apply Forall_cons_2]; split_and!; try done.
  - exists ix1. split; [done|]. by rewrite C4, map_map.
  - exists ix2. split; [done|]. by rewrite T4, map_map.
Qed.
End Laws.
End Sdk.
Arguments instructions {PK R} _.
Arguments planAccount {PK R} _.
Arguments routes {PK R} _.
Arguments persistence {PK R} _.

(** ** Witnesses *)
Module SdkWitness.
Import DemoKeys.

Definition squads_input : SquadsInput (PK := demo_keys) := {|
  si_settings := key_of 21; si_authority := key_of 22; si_delegatedSigner := key_of 23;
  si_accountIndex := Integer 1; si_vault := key_of 24 |}.

Definition route_input : CreateYieldRoutePolicyPlanInput (PK := demo_keys) := {|
  yr_cluster := "mainnet-beta"; yr_policySeed := SeedNumeric (NumInt 7); yr_risk := "aggressive";
  yr_swapLanes := ["loyal"; "jupiter"]%string; yr_maxFeeBps := None; yr_squads := squads_input |}.

Definition value {A} (d : A) (r : result A) : A := match r with Ok a => a | Throw _ => d end.
Lemma value_ok {A} (d : A) r : is_ok r = true -> r = Ok (value d r).
Proof. by destruct r. Qed.
(** A call that succeeds returns the value it is given by. *)
Ltac computed := apply value_ok; vm_compute; reflexivity.

Definition account (s : Z) : key :=
  value zero_key (deriveActionAccount (clusterConfigFor (PK := demo_keys) MainnetBeta) (key_of 21) (Big s)).

Lemma route_input_valid : route_valid route_input MainnetBeta Aggressive [LaneLoyal; LaneJupiter] 100 7 1.
Proof.
  unfold route_valid. split_and!; try reflexivity; try byte_lit.
  - apply NoDup_cons_2; [set_solver|apply NoDup_singleton].
  - set_solver.
  - exists (NumInt 7). split_and!; try reflexivity; byte_lit.
Qed.

Lemma mints_distinct : NoDup (getStablecoinMintsForCluster (PK := demo_keys) MainnetBeta).
Proof. apply (bool_decide_eq_true_1 (NoDup _)). vm_compute. reflexivity. Qed.

Lemma route_input_derivable : route_derivable route_input MainnetBeta [LaneLoyal; LaneJupiter] 7 (account 7).
Proof. split; [computed|intros _; vm_compute; reflexivity]. Qed.

Definition target : KaminoEarnTarget (PK := demo_keys) :=
  value {| depositDiscriminator := []; initObligationDiscriminator := []; liquidityMint := zero_key;
           lendProgramId := zero_key; market := zero_key; reserve := zero_key; withdrawDiscriminator := [] |}
    (getKaminoUsdcEarnTargetForCluster MainnetBeta).

Lemma yield_route_plan_readable_witness :
  exists plan, createYieldRoutePolicyPlan route_input = Ok plan /\ planAccount plan = account 7.
Proof.
  destruct (yield_route_plan_readable route_input MainnetBeta Aggressive [LaneLoyal; LaneJupiter] 100 7 1
              (account 7) target) as (plan & H1 & H2 & _).
  - apply route_input_valid.
  - apply mints_distinct.
  - apply route_input_derivable.
  - reflexivity.
  - exists plan. exact (conj H1 H2).
Defined.

Lemma yield_route_planned_iff_witness :
  exists plan, createYieldRoutePolicyPlan route_input = Ok plan.
Proof.
  apply (proj2 (yield_route_planned_iff route_input)).
  exists MainnetBeta, Aggressive, [LaneLoyal; LaneJupiter], 100, 7, 1, (account 7).
  exact (conj route_input_valid (conj mints_distinct route_input_derivable)).
Defined.

(** A lane given twice and a fee outside the list are refused. *)
Example refused :
  map (fun lanes => is_ok (createYieldRoutePolicyPlan {|
    yr_cluster := "mainnet-beta"; yr_policySeed := SeedNumeric (NumInt 7); yr_risk := "safe";
    yr_swapLanes := lanes; yr_maxFeeBps := Some (Integer 50); yr_squads := squads_input |}))
    [["jupiter"]; ["jupiter"; "jupiter"]; ["orca"]; []]%string = [true; false; false; true].
Proof. vm_compute. reflexivity. Qed.

Definition smart_account : LoyalSmartAccountConfig (PK := demo_keys) := {|
  sa_settings := key_of 21; sa_authority := key_of 22; sa_delegatedSigner := key_of 23 |}.

Definition sweep_input : CreateVaultSubscriptionSweepPolicyPlanInput (PK := demo_keys) := {|
  vs_cluster := "mainnet-beta"; vs_policySeed := SeedNumeric (Big 9); vs_vaultIndex := Integer 1;
  vs_smartAccount := Some smart_account; vs_delegator := key_of 41;
  vs_maxAmountPerPeriodRaw := NumInt 250000000; vs_minimumDelegatorBalanceRaw := Some (Big 1000000);
  vs_delegatorUsdcAta := None; vs_vaultUsdcAta := Some (key_of 44) |}.

Definition usdc : key := STABLECOIN_MINTS (PK := demo_keys) USDC.
Definition sweep_vault : key :=
  value zero_key (deriveSquadsVault (PK := demo_keys) SMART_ACCOUNTS_PROGRAM_ID (key_of 21) (Integer 1)).
Definition delegator_ata : key :=
  value zero_key (orDerivedAta (PK := demo_keys) None (clusterConfigFor MainnetBeta) (key_of 41) usdc).
Definition sweep_constraint : InstructionConstraint key :=
  value (MkConstraint zero_key [] [])
    (subscriptionSweepConstraint (PK := demo_keys) (clusterConfigFor MainnetBeta) (key_of 41) sweep_vault usdc
       delegator_ata (key_of 44) (NumInt 250000000) (Some (Big 1000000))).

Lemma vault_sweep_plan_readable_witness :
  exists plan ix, createVaultSubscriptionSweepPolicyPlan sweep_input = Ok plan /\
    ss_instructions plan = [ix] /\ md_vault (sm_plan (ss_metadata plan)) = sweep_vault.
Proof.
  destruct (vault_sweep_plan_readable sweep_input MainnetBeta smart_account (Big 9) 9 1 sweep_vault usdc
              delegator_ata (key_of 44) (account 9) sweep_constraint)
    as (plan & ix & H1 & H2 & _ & H3 & _); first [ byte_lit | computed | reflexivity | idtac ].
  exists plan, ix. exact (conj H1 (conj H2 H3)).
Defined.

Definition set_input : CreateJupiterCrossMintPolicySetInput (PK := demo_keys) := {|
  ms_cluster := "mainnet-beta"; ms_classicSeed := SeedNumeric (NumInt 3); ms_token2022Seed := SeedNumeric (NumInt 4);
  ms_maxSlippageBps := Integer 50; ms_dailySourceMintSpendingCap := Big 5000000; ms_squads := squads_input |}.

Definition cross_constraint (d : JupiterV2Dialect) : InstructionConstraint key :=
  value (MkConstraint zero_key [] [])
    (jupiterCrossMintConstraint (PK := demo_keys) (clusterConfigFor MainnetBeta) (key_of 24) crossDestinations d 50).

Lemma cross_mint_set_readable_witness :
  exists classic token2022, createJupiterCrossMintPolicySet set_input = Ok (classic, token2022) /\
    cp_sourceMints classic ++ cp_sourceMints token2022 ≡ₚ getStablecoinMintsForCluster MainnetBeta.
Proof.
  destruct (cross_mint_set_readable set_input (NumInt 3) (NumInt 4) 3 4 50 5000000 1 (account 3) (account 4)
              (cross_constraint route_v2) (cross_constraint shared_accounts_route_v2))
    as (c & t & H1 & H2 & _);
    first [ lia | byte_lit | computed | (split; computed)
          | (apply (bool_decide_eq_false_1 (_ = _)); vm_compute; reflexivity) | reflexivity | idtac ].
  exists c, t. exact (conj H1 H2).
Defined.

(** Devnet has one of the six mints only: no cross-mint policy there. *)
Example devnet_cross_mint :
  match createJupiterCrossMintPolicySet {|
    ms_cluster := "devnet"; ms_classicSeed := SeedNumeric (NumInt 3); ms_token2022Seed := SeedNumeric (NumInt 4);
    ms_maxSlippageBps := Integer 50; ms_dailySourceMintSpendingCap := Big 5000000; ms_squads := squads_input |} with
  | Ok _ => EmptyString | Throw e => exn_message e end
  = "cross-mint policies require the complete six-mint Earn registry"%string.
Proof. vm_compute. reflexivity. Qed.
End SdkWitness.
