(* ===== verification/PreparedWire.v ===== *)
(** The wire form of prepared operations
    (web/packages/smart-account-vaults/src/wire/prepared-operation-wire.shared.ts):
    the chunked base64 of instruction data, the JSON shape of a prepared operation
    and its hydration. The diagnostics of a simulation are an open object type that
    both directions copy, so they are a type parameter. *)
From S2P Require Import Prelude JsString Solana.

(** ** Nullish fields

    An optional field [x?: T | null] is absent, [null] or a value. *)
Inductive nullish (A : Type) := Undefined | Null | Present (a : A).
Arguments Undefined {A}.
Arguments Null {A}.
Arguments Present {A} a.

(** [x ? f(x) : null] on a field that holds an object when present *)
Definition object_or_null {A B} (f : A -> B) (x : nullish A) : nullish B :=
  match x with Present a => Present (f a) | _ => Null end.

Definition object_or_nullR {A B} (f : A -> result B) (x : nullish A) : result (nullish B) :=
  match x with Present a => b ← f a; Ok (Present b) | _ => Ok Null end.

(** The value such a field has after one trip. *)
Definition null_if_absent {A} (x : nullish A) : nullish A := object_or_null id x.

(** [s ? f(s) : null] on a nullable string: the empty string is falsy. *)
Definition string_or_nullR {A} (f : string -> result A) (s : option string) : result (option A) :=
  match s with
  | None | Some EmptyString => Ok None
  | Some s => a ← f s; Ok (Some a)
  end.

(** [x ? f(x) : null] and [x ? { field: f(x) } : {}] on a nullable object *)
Definition option_mapR {A B} (f : A -> result B) (x : option A) : result (option B) :=
  match x with None => Ok None | Some a => b ← f a; Ok (Some b) end.

Lemma object_or_null_roundtrip {A B} (P : A -> Prop) (ser : A -> B) (hyd : B -> result A) n :
  (forall x, P x -> hyd (ser x) = Ok x) ->
  (forall x, n = Present x -> P x) ->
  object_or_nullR hyd (object_or_null ser n) = Ok (null_if_absent n).
Proof. destruct n; simpl; intros H HP; [done..|]. by rewrite H by auto. Qed.

Lemma option_mapR_roundtrip {A B} (ser : A -> B) (hyd : B -> result A) o :
  (forall x, hyd (ser x) = Ok x) -> option_mapR hyd (ser <$> o) = Ok o.
Proof. destruct o; simpl; intros H; [|done]. by rewrite H. Qed.

Lemma string_or_null_roundtrip {A} (ser : A -> string) (hyd : string -> result A) o :
  (forall x, hyd (ser x) = Ok x) -> (forall x, ser x <> EmptyString) ->
  string_or_nullR hyd (ser <$> o) = Ok o.
Proof.
  destruct o as [x|]; simpl; intros H Hne; [|done].
  specialize (Hne x). specialize (H x). destruct (ser x); [done|]. by rewrite H.
Qed.

Section Wire.
Context {PK : PublicKeys} {diagnostics : Type}.

(** ** Native form: [PreparedLoyalSmartAccountsOperation] and web3.js lookup tables *)
Record AddressLookupTableAccount := LookupTable {
  alt_key : pubkey;
  alt_addresses : list pubkey;
  alt_authority : option pubkey;
  alt_deactivationSlot : Z;
  alt_lastExtendedSlot : Z;
  alt_lastExtendedSlotStartIndex : Z;
}.

Record PreparedOperation := Prepared {
  po_instructions : list instruction;
  po_lookupTableAccounts : list AddressLookupTableAccount;
  po_operation : string;
  po_payer : pubkey;
  po_programId : pubkey;
  po_requiresConfirmation : bool;
  po_simulationDiagnostics : option diagnostics;
}.

(** ** Wire form *)
Record WireAccountMeta := WireMeta {
  wm_isSigner : bool;
  wm_isWritable : bool;
  wm_pubkey : string;
}.

Record WirePreparedInstruction := WireInstruction {
  wi_dataBase64 : string;
  wi_keys : list WireAccountMeta;
  wi_programId : string;
}.

Record WireAddressLookupTableAccount := WireLookupTable {
  wa_key : string;
  wa_addresses : list string;
  wa_authority : option string;
  wa_deactivationSlot : string;
  wa_lastExtendedSlot : Z;
  wa_lastExtendedSlotStartIndex : Z;
}.

Record WirePreparedOperation := WirePrepared {
  wo_instructions : list WirePreparedInstruction;
  wo_lookupTableAccounts : list WireAddressLookupTableAccount;
  wo_operation : string;
  wo_payer : string;
  wo_programId : string;
  wo_requiresConfirmation : bool;
  wo_simulationDiagnostics : option diagnostics;
}.

(** ** Bytes

    The loop appends the characters of one chunk of 0x8000 bytes at a time; the
    fuel is the number of iterations still allowed, at most one per byte. *)
Fixpoint bytesToBase64_loop (fuel : nat) (bytes : list Z) (index : nat) (binary : list Z) : list Z :=
  match fuel with
  | O => binary
  | S fuel =>
      if (index <? length bytes)%nat then
        bytesToBase64_loop fuel bytes (index + Z.to_nat 0x8000)
          (binary ++ take (Z.to_nat 0x8000) (drop index bytes))
      else binary
  end.

Definition bytesToBase64 (bytes : list Z) : string :=
  btoa (bytesToBase64_loop (length bytes) bytes 0 []).

(** [bytes[index] = binary.charCodeAt(index)] for each index of the decoded text,
    into an array of zeros. *)
Fixpoint base64ToBytes_loop (binary : list Z) (index : nat) (bytes : list Z) : list Z :=
  match binary with
  | [] => bytes
  | c :: binary => base64ToBytes_loop binary (S index) (<[index := c]> bytes)
  end.

Definition base64ToBytes (value : string) : result (list Z) :=
  binary ← atob value;
  Ok (base64ToBytes_loop binary 0 (replicate (length binary) 0)).

(** ** Serialization and hydration *)
Definition serializeKey (k : account_meta) : WireAccountMeta :=
  WireMeta (isSigner k) (isWritable k) (toBase58 (meta_pubkey k)).

Definition serializeInstruction (i : instruction) : WirePreparedInstruction :=
  WireInstruction (bytesToBase64 (data i)) (map serializeKey (keys i)) (toBase58 (programId i)).

Definition serializeLookupTable (a : AddressLookupTableAccount) : WireAddressLookupTableAccount := {|
  wa_key := toBase58 (alt_key a);
  wa_addresses := map toBase58 (alt_addresses a);
  wa_authority := toBase58 <$> alt_authority a;
  wa_deactivationSlot := bigint_toString (alt_deactivationSlot a);
  wa_lastExtendedSlot := alt_lastExtendedSlot a;
  wa_lastExtendedSlotStartIndex := alt_lastExtendedSlotStartIndex a;
|}.

Definition serializePreparedOperation (p : PreparedOperation) : WirePreparedOperation := {|
  wo_instructions := map serializeInstruction (po_instructions p);
  wo_lookupTableAccounts := map serializeLookupTable (po_lookupTableAccounts p);
  wo_operation := po_operation p;
  wo_payer := toBase58 (po_payer p);
  wo_programId := toBase58 (po_programId p);
  wo_requiresConfirmation := po_requiresConfirmation p;
  wo_simulationDiagnostics := po_simulationDiagnostics p;
|}.

Definition hydrateKey (k : WireAccountMeta) : result account_meta :=
  pk ← newPublicKey (wm_pubkey k);
  Ok (Meta pk (wm_isSigner k) (wm_isWritable k)).

Definition hydrateInstruction (i : WirePreparedInstruction) : result instruction :=
  bytes ← base64ToBytes (wi_dataBase64 i);
  ks ← mapR hydrateKey (wi_keys i);
  program ← newPublicKey (wi_programId i);
  Ok (Instruction program ks bytes).

Definition hydrateLookupTable (a : WireAddressLookupTableAccount) : result AddressLookupTableAccount :=
  key ← newPublicKey (wa_key a);
  addresses ← mapR newPublicKey (wa_addresses a);
  authority ← string_or_nullR newPublicKey (wa_authority a);
  slot ← BigInt_of_string (wa_deactivationSlot a);
  Ok {| alt_key := key;
        alt_addresses := addresses;
        alt_authority := authority;
        alt_deactivationSlot := slot;
        alt_lastExtendedSlot := wa_lastExtendedSlot a;
        alt_lastExtendedSlotStartIndex := wa_lastExtendedSlotStartIndex a |}.

Definition hydratePreparedOperation (w : WirePreparedOperation) : result PreparedOperation :=
  instructions ← mapR hydrateInstruction (wo_instructions w);
  tables ← mapR hydrateLookupTable (wo_lookupTableAccounts w);
  payer ← newPublicKey (wo_payer w);
  program ← newPublicKey (wo_programId w);
  Ok {| po_instructions := instructions;
        po_lookupTableAccounts := tables;
        po_operation := wo_operation w;
        po_payer := payer;
        po_programId := program;
        po_requiresConfirmation := wo_requiresConfirmation w;
        po_simulationDiagnostics := wo_simulationDiagnostics w |}.

(** An operation whose instruction data are byte arrays, as a [Uint8Array] is. *)
Definition bytes_operation (p : PreparedOperation) : Prop :=
  Forall (fun i => Forall is_byte (data i)) (po_instructions p).

(** ** The loops *)
Lemma bytesToBase64_loop_spec fuel bytes index binary :
  (length bytes <= index + fuel * Z.to_nat 0x8000)%nat ->
  bytesToBase64_loop fuel bytes index binary = binary ++ drop index bytes.
Proof.
  revert index binary. induction fuel as [|fuel IH]; intros index binary Hf.
  - cbn [bytesToBase64_loop]. rewrite drop_ge by lia. by rewrite app_nil_r.
  - cbn [bytesToBase64_loop]. destruct (Nat.ltb_spec index (length bytes)) as [Hi|Hi].
    + rewrite IH by lia.
      rewrite <- app_assoc, <- drop_drop, take_drop. done.
    + rewrite drop_ge by lia. by rewrite app_nil_r.
Qed.

Lemma bytesToBase64_btoa bytes : bytesToBase64 bytes = btoa bytes.
Proof.
  unfold bytesToBase64. rewrite bytesToBase64_loop_spec; [done|].
  change (Z.to_nat 0x8000) with (S (Z.to_nat 0x7fff)). lia.
Qed.

Lemma base64ToBytes_loop_spec binary index bytes :
  length bytes = (index + length binary)%nat ->
  base64ToBytes_loop binary index bytes = take index bytes ++ binary.
Proof.
  revert index bytes. induction binary as [|c binary IH]; intros index bytes Hl; simpl.
  - rewrite take_ge by (simpl in Hl; lia). by rewrite app_nil_r.
  - simpl in Hl. rewrite IH by (rewrite length_insert; lia).
    rewrite (take_S_r _ _ c) by (apply list_lookup_insert_eq; lia).
    rewrite take_insert_ge by lia. by rewrite <- app_assoc.
Qed.

Lemma base64ToBytes_atob value : base64ToBytes value = atob value.
Proof.
  unfold base64ToBytes. destruct (atob value) as [l|e]; [|done]. simpl.
  rewrite base64ToBytes_loop_spec by (rewrite length_replicate; lia). done.
Qed.

Lemma base64_roundtrip bytes : Forall is_byte bytes -> base64ToBytes (bytesToBase64 bytes) = Ok bytes.
Proof. intros H. rewrite base64ToBytes_atob, bytesToBase64_btoa. by apply atob_btoa. Qed.

Section Laws.
Context {L : PublicKeyLaws PK}.

Lemma hydrate_key k : hydrateKey (serializeKey k) = Ok k.
Proof. unfold hydrateKey; simpl. rewrite newPublicKey_toBase58. by destruct k. Qed.

Lemma hydrate_keys l : mapR newPublicKey (map toBase58 l) = Ok l.
Proof. apply mapR_roundtrip. intros. apply newPublicKey_toBase58. Qed.

Lemma hydrate_key_option o : string_or_nullR newPublicKey (toBase58 <$> o) = Ok o.
Proof.
  apply string_or_null_roundtrip; intros; [apply newPublicKey_toBase58|apply toBase58_nonempty].
Qed.

Lemma hydrate_bigint_option o : string_or_nullR BigInt_of_string (bigint_toString <$> o) = Ok o.
Proof.
  apply string_or_null_roundtrip; intros;
    [apply BigInt_toString_roundtrip|apply bigint_toString_nonempty].
Qed.

Lemma hydrate_instruction i :
  Forall is_byte (data i) -> hydrateInstruction (serializeInstruction i) = Ok i.
Proof.
  intros H. unfold hydrateInstruction; simpl. rewrite base64_roundtrip by done; simpl.
  rewrite mapR_roundtrip by (intros; apply hydrate_key); simpl.
  rewrite newPublicKey_toBase58. by destruct i.
Qed.

Lemma hydrate_lookup_table a : hydrateLookupTable (serializeLookupTable a) = Ok a.
Proof.
  unfold hydrateLookupTable; simpl. rewrite newPublicKey_toBase58; simpl.
  rewrite hydrate_keys; simpl. rewrite hydrate_key_option; simpl.
  rewrite BigInt_toString_roundtrip. by destruct a.
Qed.

Lemma hydrate_prepared p :
  bytes_operation p -> hydratePreparedOperation (serializePreparedOperation p) = Ok p.
Proof.
  unfold bytes_operation, hydratePreparedOperation; simpl. intros H.
  rewrite (mapR_roundtrip serializeInstruction hydrateInstruction); simpl.
  2:{ intros i Hi. apply hydrate_instruction. rewrite Forall_forall in H. by apply H. }
  rewrite (mapR_roundtrip serializeLookupTable hydrateLookupTable)
    by (intros; apply hydrate_lookup_table); simpl.
  rewrite !newPublicKey_toBase58. by destruct p.
Qed.

End Laws.
End Wire.
#[global] Arguments PreparedOperation {PK} diagnostics.
#[global] Arguments WirePreparedOperation diagnostics : clear implicits.

Create HintDb wire.
#[export] Hint Rewrite @newPublicKey_toBase58 @hydrate_keys @hydrate_key_option
  @BigInt_toString_roundtrip @hydrate_bigint_option using typeclasses eauto : wire.
