(* ===== verification/EarnMax.v ===== *)
(** Earn MAX policies and operations (web/packages/loyal-actions/src/earn-max.ts): the
    accounts of the seven strategies, the manifest of three policies a vault installs, the
    choice of the seeds, the installation operations, the token transfer and the memo intents.

    Answers of the RPC node are arguments: which accounts exist, the settings' current
    seed, the confirmed slot. [AddressLookupTableProgram] of @solana/web3.js is a class of
    operations. The operations that run inside the vault go through the generated program
    client and are not modelled. *)
From S2P Require Import Prelude JsString JsMap Solana Bytes Subscriptions Squads Protocols Registry Sdk PreparedWire.

Definition EARN_MAX_VAULT_INDEX := 0.
Definition SMART_ACCOUNT_SEED := utf8 "smart_account".
Definition FARM_USER_SEED := utf8 "user".

Definition DEPOSIT := [216; 224; 191; 27; 204; 151; 102; 175].
Definition BORROW := [161; 128; 143; 245; 171; 199; 194; 6].
Definition REPAY := [116; 174; 213; 76; 180; 53; 210; 144].
Definition WITHDRAW := [235; 52; 119; 152; 149; 197; 20; 7].
Definition SHARED_ACCOUNTS_ROUTE := [193; 32; 155; 51; 65; 214; 156; 129].

Inductive DebtTokenProgram := token | token2022.

Record EarnMaxStrategyTemplate := Template {
  t_key : string;
  t_label : string;
  t_market : string;
  t_marketAuthority : string;
  t_collateralReserve : string;
  t_collateralMint : string;
  t_debtReserve : string;
  t_debtMint : string;
  t_debtTokenProgram : DebtTokenProgram;
  t_debtFarm : option string;
  t_targetLtvBps : Z;
}.

(** ** Constraint builders *)
Definition sliceEquals (value : list Z) : DataConstraint := MkData 0 (VU8Slice value) equals.
Definition u16Equals (value : Z) : DataConstraint := MkData 0 (VU16Le value) equals.

(** Reading a property of [undefined] *)
Definition throwUndefined {A} : result A := Throw (Exn "TypeError" "Cannot read properties of undefined").

(** [URL-safe] characters of a request id *)
Definition request_char (c : ascii) : bool :=
  let n := char_code c in
  ((65 <=? n) && (n <=? 90)) || ((97 <=? n) && (n <=? 122)) || ((48 <=? n) && (n <=? 57)) ||
  (n =? 95) || (n =? 45).

Definition requestId (value : string) : result string :=
  let n := Z.of_nat (length (chars value)) in
  if (8 <=? n) && (n <=? 64) && forallb request_char (chars value) then Ok value
  else throwError "Earn MAX request id must be 8-64 URL-safe characters.".

(** [AddressLookupTableProgram] of @solana/web3.js *)
Class LookupTableProgram (PK : PublicKeys) := {
  lookupTableProgramId : pubkey;
  (** [createLookupTable({ authority, payer, recentSlot })]: the instruction and the table's address *)
  createLookupTable : pubkey -> pubkey -> Z -> instruction * pubkey;
  (** [extendLookupTable({ authority, lookupTable, payer, addresses })] *)
  extendLookupTable : pubkey -> pubkey -> pubkey -> list pubkey -> instruction;
}.

Section EarnMax.
Context {PK : PublicKeys} {SPL : SplToken PK}.

Definition KLEND : pubkey := KAMINO_LEND_PROGRAM_ID.
Definition FARMS : pubkey := key_literal "FarmsPZpWu9i7Kky8tPN37rs2TpmMrAZrC7S7vJa91Hr".
Definition TOKEN : pubkey := key_literal "TokenkegQfeZyiNwAJbNbGKPFXCWuBvf9Ss623VQ5DA".
Definition TOKEN_2022 : pubkey := key_literal "TokenzQdBNbLqP5VEhdkAS6EPFLC1PHnBqCXEpPxuEb".
Definition ASSOCIATED_TOKEN : pubkey := key_literal "ATokenGPvbdGVxr1b2hvZbsiqW5xWH25efTNsLJA8knL".
Definition MEMO : pubkey := key_literal "MemoSq4gqABAXKb96qnH8TysNcWxMyWCqXgDLGmfcHr".
Definition USDC_MINT : pubkey := key_literal "EPjFWdd5AufqSSqeM2qN1xzybapC8G4wEGGkZwyTDt1v".
Definition PYUSD_MINT : pubkey := key_literal "2b1kV6DkPAnxd5ixfnxCpjxmKwqjjaYmCZfHsFu24GXo".
Definition USDS_MINT : pubkey := key_literal "USDSwr9ApdHk5bvJKMjzff41FfuX8bSxdKcR81vTwcA".

Definition STRATEGY_TEMPLATES : list EarnMaxStrategyTemplate := [
  {| t_key := "onyc_usdc"; t_label := "ONyc / USDC";
     t_market := "47tfyEG9SsdEnUm9cw5kY9BXngQGqu3LBoop9j5uTAv8";
     t_marketAuthority := "FsvTiXTUFDc4aLbrov4PrvDTjXCWCniL1dxTUkZ1T2ss";
     t_collateralReserve := "6ZxkBSJEqsXA3Kdm2PDAzHLUdPTPUK93Lf4bAezec1UQ";
     t_collateralMint := "5Y8NV33Vv7WbnLfq3zBcKSdYPrk7g2KoiQoe7M2tcxp5";
     t_debtReserve := "AYL4LMc4ZCVyq3Z7XPJGWDM4H9PiWjqXAAuuHBEGVR2Z";
     t_debtMint := toBase58 USDC_MINT; t_debtTokenProgram := token;
     t_debtFarm := Some "7vNfe1qX8iDxP5p3A4fosrjLqdn1YjmmGcZZkG2b4APF"%string; t_targetLtvBps := 5000 |};
  {| t_key := "onyc_usds"; t_label := "ONyc / USDS";
     t_market := "47tfyEG9SsdEnUm9cw5kY9BXngQGqu3LBoop9j5uTAv8";
     t_marketAuthority := "FsvTiXTUFDc4aLbrov4PrvDTjXCWCniL1dxTUkZ1T2ss";
     t_collateralReserve := "6ZxkBSJEqsXA3Kdm2PDAzHLUdPTPUK93Lf4bAezec1UQ";
     t_collateralMint := "5Y8NV33Vv7WbnLfq3zBcKSdYPrk7g2KoiQoe7M2tcxp5";
     t_debtReserve := "3yDc9ARvtPLhYxZLgucZGuBtZ9bHshBvXTwHxGe3nhmC";
     t_debtMint := toBase58 USDS_MINT; t_debtTokenProgram := token;
     t_debtFarm := Some "5piFMvvPonJM8zJbCGoPD2jZt59hNURDLDTpXQzgbydc"%string; t_targetLtvBps := 5000 |};
  {| t_key := "prime_usdc"; t_label := "PRIME / USDC";
     t_market := "CqAoLuqWtavaVE8deBjMKe8ZfSt9ghR6Vb8nfsyabyHA";
     t_marketAuthority := "9SLBVnPz8dRGvafST6zNBZYSSt3HtdU68XQLGR13t3uM";
     t_collateralReserve := "BUTND9T7Ux4KR8RAEgd4WoZwnP7xA279oA1y3iPVcvSh";
     t_collateralMint := "3b8X44fLF9ooXaUm3hhSgjpmVs6rZZ3pPoGnGahc3Uu7";
     t_debtReserve := "9GJ9GBRwCp4pHmWrQ43L5xpc9Vykg7jnfwcFGN8FoHYu";
     t_debtMint := toBase58 USDC_MINT; t_debtTokenProgram := token;
     t_debtFarm := None; t_targetLtvBps := 6500 |};
  {| t_key := "prime_pyusd"; t_label := "PRIME / PYUSD";
     t_market := "CqAoLuqWtavaVE8deBjMKe8ZfSt9ghR6Vb8nfsyabyHA";
     t_marketAuthority := "9SLBVnPz8dRGvafST6zNBZYSSt3HtdU68XQLGR13t3uM";
     t_collateralReserve := "BUTND9T7Ux4KR8RAEgd4WoZwnP7xA279oA1y3iPVcvSh";
     t_collateralMint := "3b8X44fLF9ooXaUm3hhSgjpmVs6rZZ3pPoGnGahc3Uu7";
     t_debtReserve := "3ZUAwhEtK8XWfK4fy98z4yoptm4GeyeAu21L11HPXaZ5";
     t_debtMint := toBase58 PYUSD_MINT; t_debtTokenProgram := token2022;
     t_debtFarm := None; t_targetLtvBps := 6500 |};
  {| t_key := "prime_usds"; t_label := "PRIME / USDS";
     t_market := "CqAoLuqWtavaVE8deBjMKe8ZfSt9ghR6Vb8nfsyabyHA";
     t_marketAuthority := "9SLBVnPz8dRGvafST6zNBZYSSt3HtdU68XQLGR13t3uM";
     t_collateralReserve := "BUTND9T7Ux4KR8RAEgd4WoZwnP7xA279oA1y3iPVcvSh";
     t_collateralMint := "3b8X44fLF9ooXaUm3hhSgjpmVs6rZZ3pPoGnGahc3Uu7";
     t_debtReserve := "7SzMWArC8WAenndXFmRyfvcvrNPodqUFkmPrmmoRZvn4";
     t_debtMint := toBase58 USDS_MINT; t_debtTokenProgram := token;
     t_debtFarm := None; t_targetLtvBps := 6500 |};
  {| t_key := "syrup_usdc_usdc"; t_label := "syrupUSDC / USDC";
     t_market := "6WEGfej9B9wjxRs6t4BYpb9iCXd8CpTpJ8fVSNzHCC5y";
     t_marketAuthority := "6QbtpY2jDNcncRFmVf343NThnCdaY8gCAsYATPnYQR9g";
     t_collateralReserve := "AwCyCPZYJSZ93xcVKNK7jR8e1BHzJXq1D4bReNuh9woY";
     t_collateralMint := "AvZZF1YaZDziPY2RCK4oJrRVrbN3mTD9NL24hPeaZeUj";
     t_debtReserve := "Atj6UREVWa7WxbF2EMKNyfmYUY1U1txughe2gjhcPDCo";
     t_debtMint := toBase58 USDC_MINT; t_debtTokenProgram := token;
     t_debtFarm := Some "87gUNr8LwYJCT25HjPEHnrfBBjwEMAjfqCfnKcJNqy9Y"%string; t_targetLtvBps := 6500 |};
  {| t_key := "syrup_usdc_pyusd"; t_label := "syrupUSDC / PYUSD";
     t_market := "6WEGfej9B9wjxRs6t4BYpb9iCXd8CpTpJ8fVSNzHCC5y";
     t_marketAuthority := "6QbtpY2jDNcncRFmVf343NThnCdaY8gCAsYATPnYQR9g";
     t_collateralReserve := "AwCyCPZYJSZ93xcVKNK7jR8e1BHzJXq1D4bReNuh9woY";
     t_collateralMint := "AvZZF1YaZDziPY2RCK4oJrRVrbN3mTD9NL24hPeaZeUj";
     t_debtReserve := "92qeAka3ZzCGPfJriDXrE7tiNqfATVCAM6ZjjctR3TrS";
     t_debtMint := toBase58 PYUSD_MINT; t_debtTokenProgram := token2022;
     t_debtFarm := Some "9AUA7XZ1rynUsZcmVCgj8UFdQuDozFSMpaNGBZAtiPWj"%string; t_targetLtvBps := 6500 |}
].

(** ** Topology *)
Record EarnMaxStrategyTopology := {
  st_key : string;
  st_label : string;
  st_market : pubkey;
  st_marketAuthority : pubkey;
  st_collateralReserve : pubkey;
  st_collateralMint : pubkey;
  st_collateralCustody : pubkey;
  st_debtReserve : pubkey;
  st_debtMint : pubkey;
  st_debtTokenProgram : pubkey;
  st_debtCustody : pubkey;
  st_debtFarm : option pubkey;
  st_debtFarmUser : option pubkey;
  st_obligation : pubkey;
  st_targetLtvBps : Z;
}.

Record EarnMaxTopology := {
  tp_vault : pubkey;
  tp_claimCustody : pubkey;
  tp_collateralCustody : pubkey;
  tp_obligation : pubkey;
  tp_debtFarmUser : option pubkey;
  tp_pyusdCustody : pubkey;
  tp_pyusdObligation : pubkey;
  tp_pyusdDebtFarmUser : option pubkey;
  tp_market : pubkey;
  tp_collateralReserve : pubkey;
  tp_debtReserve : pubkey;
  tp_collateralMint : pubkey;
  tp_claimMint : pubkey;
  tp_debtFarm : option pubkey;
  tp_pyusdDebtFarm : option pubkey;
  tp_strategies : list EarnMaxStrategyTopology;
}.

Definition associatedToken (owner mint tokenProgram : pubkey) : result pubkey :=
  findProgramAddress [toBytes owner; toBytes tokenProgram; toBytes mint]
    (associatedTokenProgramId (clusterConfigFor MainnetBeta)).

Definition farmUser (debtFarm : option pubkey) (obligation : pubkey) : result (option pubkey) :=
  match debtFarm with
  | None => Ok None
  | Some farm =>
      user ← findProgramAddress [FARM_USER_SEED; toBytes farm; toBytes obligation] FARMS; Ok (Some user)
  end.

Definition deriveStrategy (vault : pubkey) (template : EarnMaxStrategyTemplate) :
    result EarnMaxStrategyTopology :=
  market ← newPublicKey (t_market template);
  collateralMint ← newPublicKey (t_collateralMint template);
  debtMint ← newPublicKey (t_debtMint template);
  let debtTokenProgram := match t_debtTokenProgram template with token => TOKEN | token2022 => TOKEN_2022 end in
  obligation ← findProgramAddress
    [[1]; [0]; toBytes vault; toBytes market; toBytes collateralMint; toBytes debtMint] KLEND;
  debtFarm ← match t_debtFarm template with
             | None => Ok None
             | Some f => k ← newPublicKey f; Ok (Some k)
             end;
  marketAuthority ← newPublicKey (t_marketAuthority template);
  collateralReserve ← newPublicKey (t_collateralReserve template);
  collateralCustody ← associatedToken vault collateralMint TOKEN;
  debtReserve ← newPublicKey (t_debtReserve template);
  debtCustody ← associatedToken vault debtMint debtTokenProgram;
  debtFarmUser ← farmUser debtFarm obligation;
  Ok {| st_key := t_key template; st_label := t_label template; st_market := market;
        st_marketAuthority := marketAuthority; st_collateralReserve := collateralReserve;
        st_collateralMint := collateralMint; st_collateralCustody := collateralCustody;
        st_debtReserve := debtReserve; st_debtMint := debtMint; st_debtTokenProgram := debtTokenProgram;
        st_debtCustody := debtCustody; st_debtFarm := debtFarm; st_debtFarmUser := debtFarmUser;
        st_obligation := obligation; st_targetLtvBps := t_targetLtvBps template |}.

(** [strategies.find(({ key }) => key === name)!], of which a property is read *)
Definition findStrategy (strategies : list EarnMaxStrategyTopology) (name : string) :
    result EarnMaxStrategyTopology :=
  match List.find (fun s => String.eqb (st_key s) name) strategies with
  | Some s => Ok s
  | None => throwUndefined
  end.

Definition deriveEarnMaxTopology (settings : pubkey) : result EarnMaxTopology :=
  vault ← findProgramAddress
    [SMART_ACCOUNT_SEED; toBytes settings; SMART_ACCOUNT_SEED; [EARN_MAX_VAULT_INDEX]]
    (squadsSmartAccountProgramId (clusterConfigFor MainnetBeta));
  strategies ← mapR (deriveStrategy vault) STRATEGY_TEMPLATES;
  claimCustody ← associatedToken vault USDC_MINT TOKEN;
  syrupUsdc ← findStrategy strategies "syrup_usdc_usdc";
  syrupPyusd ← findStrategy strategies "syrup_usdc_pyusd";
  Ok {| tp_vault := vault;
        tp_claimCustody := claimCustody;
        tp_collateralCustody := st_collateralCustody syrupUsdc;
        tp_obligation := st_obligation syrupUsdc;
        tp_debtFarmUser := st_debtFarmUser syrupUsdc;
        tp_pyusdCustody := st_debtCustody syrupPyusd;
        tp_pyusdObligation := st_obligation syrupPyusd;
        tp_pyusdDebtFarmUser := st_debtFarmUser syrupPyusd;
        tp_market := st_market syrupUsdc;
        tp_collateralReserve := st_collateralReserve syrupUsdc;
        tp_debtReserve := st_debtReserve syrupUsdc;
        tp_collateralMint := st_collateralMint syrupUsdc;
        tp_claimMint := USDC_MINT;
        tp_debtFarm := st_debtFarm syrupUsdc;
        tp_pyusdDebtFarm := st_debtFarm syrupPyusd;
        tp_strategies := strategies |}.

(** ** The policy manifest *)
Definition pubkeyAt (accountIndex : Z) (pubkeys : list pubkey) : AccountConstraint pubkey :=
  MkAccount accountIndex (KPubkey pubkeys) None.

Definition accountDataPubkey (accountIndex : Z) (owner : pubkey) (dataOffset : Z) (value : pubkey) :
    AccountConstraint pubkey :=
  MkAccount accountIndex (KAccountData [MkData dataOffset (VU8Slice (toBytes value)) equals]) (Some owner).

Definition uniqueByMap (pubkeys : list pubkey) : list pubkey :=
  map snd (foldl (fun entries value => mapSet entries (toBase58 value) value) [] pubkeys).

(** [a[0] | (a[1] << 8)] of the route discriminator *)
Definition routePrefix : Z :=
  match SHARED_ACCOUNTS_ROUTE with b0 :: b1 :: _ => Z.lor b0 (Z.shiftl b1 8) | _ => 0 end.

Definition swapBiclique (vault : pubkey) (sources destinations : list pubkey) : InstructionConstraint pubkey :=
  MkConstraint (jupiterV6ProgramId (clusterConfigFor MainnetBeta))
    [pubkeyAt 2 [vault]; pubkeyAt 3 sources; pubkeyAt 6 destinations]
    [u16Equals routePrefix].

(** The KLend constraint with two more accounts after the vault and its obligation *)
Definition klendConstraint (vault : pubkey) (first second : AccountConstraint pubkey) (discriminator : list Z) :
    InstructionConstraint pubkey :=
  MkConstraint KLEND
    [pubkeyAt 0 [vault]; accountDataPubkey 1 KLEND 64 vault; first; second] [sliceEquals discriminator].

Definition collateralConstraints (t : EarnMaxTopology) : list (InstructionConstraint pubkey) :=
  let reserves := uniqueByMap (map st_collateralReserve (tp_strategies t)) in
  let custodies := uniqueByMap (map st_collateralCustody (tp_strategies t)) in
  [ klendConstraint (tp_vault t) (pubkeyAt 4 reserves) (pubkeyAt 9 custodies) DEPOSIT;
    klendConstraint (tp_vault t) (pubkeyAt 4 reserves) (pubkeyAt 9 custodies) WITHDRAW ].

Definition debtConstraints (t : EarnMaxTopology) : list (InstructionConstraint pubkey) :=
  let markets := uniqueByMap (map st_market (tp_strategies t)) in
  let custodies := uniqueByMap (map st_debtCustody (tp_strategies t)) in
  [ klendConstraint (tp_vault t) (pubkeyAt 2 markets) (pubkeyAt 8 custodies) BORROW;
    klendConstraint (tp_vault t) (pubkeyAt 2 markets) (pubkeyAt 6 custodies) REPAY ].

Definition swapConstraints (t : EarnMaxTopology) : result (list (InstructionConstraint pubkey)) :=
  let strategy := findStrategy (tp_strategies t) in
  onyc_usdc ← strategy "onyc_usdc"%string;
  let usdc := st_debtCustody onyc_usdc in
  onyc_usds ← strategy "onyc_usds"%string;
  let usds := st_debtCustody onyc_usds in
  prime_pyusd ← strategy "prime_pyusd"%string;
  let pyusd := st_debtCustody prime_pyusd in
  let onyc := st_collateralCustody onyc_usdc in
  prime_usdc ← strategy "prime_usdc"%string;
  let prime := st_collateralCustody prime_usdc in
  syrup_usdc ← strategy "syrup_usdc_usdc"%string;
  let syrup := st_collateralCustody syrup_usdc in
  Ok [ swapBiclique (tp_vault t) [usdc; usds] [onyc; prime];
       swapBiclique (tp_vault t) [usdc; pyusd] [prime; syrup];
       swapBiclique (tp_vault t) [onyc; prime] [usdc; usds];
       swapBiclique (tp_vault t) [prime; syrup] [usdc; pyusd] ].

Inductive PolicyFamily := collateral | debt | swap.
#[global] Instance PolicyFamily_eq_dec : EqDecision PolicyFamily.
Proof. solve_decision. Defined.

Definition PolicyFamily_value (f : PolicyFamily) : string :=
  match f with collateral => "collateral" | debt => "debt" | swap => "swap" end.

Record EarnMaxPolicyPreparation := {
  family : PolicyFamily;
  seed : Z;
  policy : pubkey;
  policyInstruction : instruction;
}.

Record ManifestInput := {
  mi_authority : pubkey;
  mi_delegatedSigner : pubkey;
  mi_firstPolicySeed : Z;
  mi_settings : pubkey;
}.

Definition manifestContext (input : ManifestInput) (vault : pubkey) : SquadsContext := {|
  settings := mi_settings input;
  authority := mi_authority input;
  delegatedSigner := mi_delegatedSigner input;
  accountIndex := EARN_MAX_VAULT_INDEX;
  vault := vault;
|}.

Definition preparePolicy (input : ManifestInput) (vault : pubkey) (family : PolicyFamily) (seed : Z)
    (constraints : list (InstructionConstraint pubkey)) : result EarnMaxPolicyPreparation :=
  instruction ← createProgramInteractionPolicyInstruction (clusterConfigFor MainnetBeta)
                  (manifestContext input vault) constraints (Big seed) [] legacy;
  match keys instruction !! 5%nat with
  | Some meta => Ok {| family := family; seed := seed; policy := meta_pubkey meta;
                       policyInstruction := instruction |}
  | None => throwUndefined
  end.

Definition createEarnMaxPolicyManifest (input : ManifestInput) : result (list EarnMaxPolicyPreparation) :=
  topology ← deriveEarnMaxTopology (mi_settings input);
  swaps ← swapConstraints topology;
  let prepare := preparePolicy input (tp_vault topology) in
  collateralPolicy ← prepare collateral (mi_firstPolicySeed input) (collateralConstraints topology);
  debtPolicy ← prepare debt (mi_firstPolicySeed input + 1) (debtConstraints topology);
  swapPolicy ← prepare swap (mi_firstPolicySeed input + 2) swaps;
  Ok [collateralPolicy; debtPolicy; swapPolicy].

(** ** Installation *)
Context {LUT : LookupTableProgram PK} {diagnostics : Type}.
Notation operation := (@PreparedOperation PK diagnostics).

Definition prepared (instructions : list instruction) (name : string) (payer programId : pubkey)
    (lookupTableAccounts : list AddressLookupTableAccount) : operation := {|
  po_instructions := instructions;
  po_lookupTableAccounts := lookupTableAccounts;
  po_operation := name;
  po_payer := payer;
  po_programId := programId;
  po_requiresConfirmation := true;
  po_simulationDiagnostics := None;
|}.

Record InstallInput := {
  ii_delegatedSigner : pubkey;
  ii_feePayer : pubkey;
  ii_firstPolicySeed : option Z;
  ii_programId : pubkey;
  ii_settings : pubkey;
  ii_matchingPolicyAccounts : option (list string);
}.

Definition installManifest (input : InstallInput) (firstPolicySeed : Z) : result (list EarnMaxPolicyPreparation) :=
  createEarnMaxPolicyManifest {|
    mi_authority := ii_feePayer input;
    mi_delegatedSigner := ii_delegatedSigner input;
    mi_firstPolicySeed := firstPolicySeed;
    mi_settings := ii_settings input |}.

(** [currentPolicySeed] is the settings' seed, 0 when it has none; [accountExists] is
    the node's answer for each policy account. *)
Definition resolveEarnMaxInstallSeedBase (input : InstallInput) (currentPolicySeed : Z)
    (accountExists : pubkey -> bool) : result Z :=
  match ii_firstPolicySeed input with
  | None => Ok (currentPolicySeed + 1)
  | Some requestedPolicySeed =>
      requestedManifest ← installManifest input requestedPolicySeed;
      let existingCount := length (List.filter (fun entry => accountExists (policy entry)) requestedManifest) in
      let requestedLastSeed := requestedPolicySeed + Z.of_nat (length requestedManifest) - 1 in
      if (existingCount =? 0)%nat && (requestedLastSeed <=? currentPolicySeed) then Ok (currentPolicySeed + 1)
      else if (0 <? existingCount)%nat && (existingCount <? length requestedManifest)%nat &&
              (requestedLastSeed <? currentPolicySeed)
      then throwError "Earn MAX policy manifest is partially missing after the Settings policy seed advanced."
      else Ok requestedPolicySeed
  end.

(** The entries without an account; an account whose bytes are not the canonical ones stops
    the installation. *)
Fixpoint missingEntries (matching : list string) (accountExists : pubkey -> bool)
    (manifest : list EarnMaxPolicyPreparation) : result (list EarnMaxPolicyPreparation) :=
  match manifest with
  | [] => Ok []
  | entry :: manifest =>
      let present := accountExists (policy entry) in
      let matches := bool_decide (toBase58 (policy entry) ∈ matching) in
      if present && negb matches
      then throwError ("Earn MAX " +:+ PolicyFamily_value (family entry) +:+
             " policy exists with non-canonical bytes; close it before reinstalling.")
      else rest ← missingEntries matching accountExists manifest;
           Ok (if present then rest else entry :: rest)
  end.

(** The lookup table for the swap policy's accounts, and the operations that set it up. *)
Definition swapLookupTable (feePayer : pubkey) (swapEntry : EarnMaxPolicyPreparation) (confirmedSlot : Z) :
    result (AddressLookupTableAccount * list operation) :=
  if confirmedSlot <? 1 then throwError "Solana confirmed slot is invalid."
  else
    let recentSlot := confirmedSlot - 1 in
    let '(create, lookupTableAddress) := createLookupTable feePayer feePayer recentSlot in
    let addresses := uniqueByMap
      (programId (policyInstruction swapEntry) ::
       map meta_pubkey (List.filter (fun m => negb (isSigner m)) (keys (policyInstruction swapEntry)))) in
    let extend := extendLookupTable feePayer lookupTableAddress feePayer addresses in
    Ok ({| alt_key := lookupTableAddress; alt_addresses := addresses; alt_authority := Some feePayer;
           alt_deactivationSlot := U64_MAX; alt_lastExtendedSlot := recentSlot;
           alt_lastExtendedSlotStartIndex := 0 |},
        [prepared [create] "earnMaxInstall:createLookupTable" feePayer lookupTableProgramId [];
         prepared [extend] "earnMaxInstall:extendLookupTable" feePayer lookupTableProgramId []]).

Definition createOperation (input : InstallInput) (table : option AddressLookupTableAccount)
    (entry : EarnMaxPolicyPreparation) : operation :=
  prepared [policyInstruction entry] ("earnMaxInstall:create:" +:+ PolicyFamily_value (family entry))
    (ii_feePayer input) (ii_programId input)
    (match family entry, table with swap, Some t => [t] | _, _ => [] end).

Definition buildEarnMaxInstallInstructions (input : InstallInput) (currentPolicySeed : Z)
    (existsBefore existsNow : pubkey -> bool) (confirmedSlot : Z) : result (list operation) :=
  firstPolicySeed ← resolveEarnMaxInstallSeedBase input currentPolicySeed existsBefore;
  manifest ← installManifest input firstPolicySeed;
  missing ← missingEntries (default [] (ii_matchingPolicyAccounts input)) existsNow manifest;
  match missing with
  | [] => Ok []
  | _ =>
      '(table, tableOps) ←
        match List.find (fun entry => bool_decide (family entry = swap)) missing with
        | None => Ok (None, [])
        | Some entry => '(t, ops) ← swapLookupTable (ii_feePayer input) entry confirmedSlot; Ok (Some t, ops)
        end;
      Ok (tableOps ++ map (createOperation input table) missing)
  end.

(** ** Transfers and intents *)
Definition transferChecked (amountRaw : Z) (destination mint owner source : pubkey) : result instruction :=
  if (amountRaw <=? 0) || (18446744073709551615 <? amountRaw)
  then throwError "Earn MAX token amount must fit in u64 and be positive."
  else Ok (Instruction TOKEN
    [Meta source false true; Meta mint false false; Meta destination false true; Meta owner true true]
    ([12] ++ le_bytes 8 amountRaw ++ [6])).

Definition createAssociatedTokenAccount (payer owner mint tokenProgram : pubkey) : result instruction :=
  ata ← associatedToken owner mint tokenProgram;
  Ok (Instruction ASSOCIATED_TOKEN
    [Meta payer true true; Meta ata false true; Meta owner false false; Meta mint false false;
     Meta systemProgramId false false; Meta tokenProgram false false] [1]).

(** The intents are ASCII: one byte per character. *)
Definition earnMaxIntent (vault : pubkey) (value : string) : result instruction :=
  if 180 <? Z.of_nat (length (utf8 value)) then throwError "Earn MAX intent is too large."
  else Ok (Instruction MEMO [Meta vault true false] (utf8 value)).

Definition deriveEarnMaxWalletClaimAta (wallet : pubkey) : result pubkey := associatedToken wallet USDC_MINT TOKEN.

(** ** Distinct keys by way of a [Map] *)
Section Laws.
Context {L : PublicKeyLaws PK}.

Notation entry k := (toBase58 k, k).

Lemma mapSet_table u k :
  mapSet (map (fun k => entry k) u) (toBase58 k) k = map (fun k => entry k) (table_add u k).
Proof.
  unfold table_add. induction u as [|x u IH]; cbn [map mapSet].
  - rewrite decide_False by set_solver. done.
  - destruct (String.eqb_spec (toBase58 x) (toBase58 k)) as [E|E].
    + apply toBase58_inj in E as ->. by rewrite decide_True by set_solver.
    + rewrite IH. assert (x <> k) by congruence. destruct (decide (k ∈ u)) as [Hk|Hk].
      * by rewrite decide_True by set_solver.
      * by rewrite decide_False by set_solver.
Qed.

(** The two ways the code removes duplicates agree. *)
Lemma uniqueByMap_unique ks : uniqueByMap ks = uniquePubkeys ks.
Proof.
  unfold uniqueByMap. rewrite uniquePubkeys_table.
  enough (forall u, foldl (fun entries value => mapSet entries (toBase58 value) value) (map (fun k => entry k) u) ks
                    = map (fun k => entry k) (foldl table_add u ks)) as H.
  { specialize (H []). cbn [map] in H. rewrite H, map_map. by apply map_ext_id. }
  induction ks as [|k ks IH]; intros u; cbn [foldl]; [done|]. by rewrite mapSet_table, IH.
Qed.

Lemma uniqueByMap_length ks : (length (uniqueByMap ks) <= length ks)%nat.
Proof. rewrite uniqueByMap_unique. apply uniquePubkeys_length. Qed.

(** ** The custodies of the seven strategies *)
Definition collateralCustodyOf (v : pubkey) (t : EarnMaxStrategyTemplate) : result pubkey :=
  m ← newPublicKey (t_collateralMint t); associatedToken v m TOKEN.
Definition debtCustodyOf (v : pubkey) (t : EarnMaxStrategyTemplate) : result pubkey :=
  m ← newPublicKey (t_debtMint t);
  associatedToken v m (match t_debtTokenProgram t with token => TOKEN | token2022 => TOKEN_2022 end).

Lemma deriveStrategy_custodies v t s : deriveStrategy v t = Ok s ->
  st_key s = t_key t /\ collateralCustodyOf v t = Ok (st_collateralCustody s) /\
  debtCustodyOf v t = Ok (st_debtCustody s).
Proof.
  unfold deriveStrategy, collateralCustodyOf, debtCustodyOf. intros H. inv_results. subst s.
  cbn [st_key st_collateralCustody st_debtCustody].
  repeat match goal with Hn : newPublicKey _ = Ok _ |- _ => rewrite Hn end. done.
Qed.

(** Which custody each strategy uses: three collaterals, three debts. *)
Definition custody_table (l : list EarnMaxStrategyTopology) (onyc prime syrup usdc usds pyusd : pubkey) : Prop :=
  map (fun s => (st_key s, st_collateralCustody s, st_debtCustody s)) l =
    [("onyc_usdc", onyc, usdc); ("onyc_usds", onyc, usds); ("prime_usdc", prime, usdc);
     ("prime_pyusd", prime, pyusd); ("prime_usds", prime, usds); ("syrup_usdc_usdc", syrup, usdc);
     ("syrup_usdc_pyusd", syrup, pyusd)]%string.

Lemma strategies_custodies v l : mapR (deriveStrategy v) STRATEGY_TEMPLATES = Ok l ->
  exists onyc prime syrup usdc usds pyusd, custody_table l onyc prime syrup usdc usds pyusd.
Proof.
  intros H. apply mapR_Ok_Forall2 in H.
  assert (H' : Forall2 (fun t s => st_key s = t_key t /\ collateralCustodyOf v t = Ok (st_collateralCustody s) /\
                                   debtCustodyOf v t = Ok (st_debtCustody s)) STRATEGY_TEMPLATES l).
  { eapply Forall2_impl; [exact H|]. intros t s. apply deriveStrategy_custodies. }
  clear H. unfold STRATEGY_TEMPLATES in H'.
  repeat match goal with
  | H : Forall2 _ (_ :: _) _ |- _ => apply Forall2_cons_inv_l in H as (? & ? & (? & ? & ?) & H & ->)
  | H : Forall2 _ [] _ |- _ => apply Forall2_nil_inv_l in H as ->
  end.
  unfold collateralCustodyOf, debtCustodyOf in *. cbn [t_key t_collateralMint t_debtMint t_debtTokenProgram] in *.
  repeat match goal with
  | H1 : ?X = Ok ?a, H2 : ?X = Ok ?b |- _ => rewrite H1 in H2; injection H2 as H2
  end.
  do 6 eexists. unfold custody_table. cbn [map].
  repeat match goal with
  | H : st_key _ = _ |- _ => rewrite H; clear H
  | H : st_collateralCustody _ = st_collateralCustody _ |- _ => rewrite <- H; clear H
  | H : st_debtCustody _ = st_debtCustody _ |- _ => rewrite <- H; clear H
  end.
  reflexivity.
Qed.

Lemma swapConstraints_table t onyc prime syrup usdc usds pyusd :
  custody_table (tp_strategies t) onyc prime syrup usdc usds pyusd ->
  swapConstraints t = Ok [ swapBiclique (tp_vault t) [usdc; usds] [onyc; prime];
                           swapBiclique (tp_vault t) [usdc; pyusd] [prime; syrup];
                           swapBiclique (tp_vault t) [onyc; prime] [usdc; usds];
                           swapBiclique (tp_vault t) [prime; syrup] [usdc; pyusd] ].
Proof.
  unfold custody_table, swapConstraints, findStrategy.
  destruct (tp_strategies t) as [|s1 [|s2 [|s3 [|s4 [|s5 [|s6 [|s7 [|s8 l]]]]]]]]; try discriminate.
  cbn [map]. intros [= K1 C1 D1 K2 C2 D2 K3 C3 D3 K4 C4 D4 K5 C5 D5 K6 C6 D6 K7 C7 D7].
  cbn [List.find]. rewrite K1, K2, K3, K4, K5, K6. cbn -[swapBiclique].
  by rewrite C1, C3, C6, D1, D2, D4.
Qed.

Lemma topology_strategies settings t : deriveEarnMaxTopology settings = Ok t ->
  exists onyc prime syrup usdc usds pyusd,
    custody_table (tp_strategies t) onyc prime syrup usdc usds pyusd /\ length (tp_strategies t) = 7%nat.
Proof.
  unfold deriveEarnMaxTopology. intros H. inv_results. subst t. cbn [tp_strategies].
  match goal with Hm : mapR _ _ = Ok _ |- _ => destruct (strategies_custodies _ _ Hm) as (a & b & c & d & e & f & Ht) end.
  exists a, b, c, d, e, f. split; [done|]. apply (f_equal length) in Ht. by rewrite length_map in Ht.
Qed.

(** A constraint lets a swap draw from one account and pay into another: Jupiter's
    accounts 3 and 6. *)
Definition permits (c : InstructionConstraint pubkey) (source destination : pubkey) : Prop :=
  (exists ks, MkAccount 3 (KPubkey ks) None ∈ ic_accounts c /\ source ∈ ks) /\
  (exists ks, MkAccount 6 (KPubkey ks) None ∈ ic_accounts c /\ destination ∈ ks).

Lemma permits_biclique v srcs dsts a b : permits (swapBiclique v srcs dsts) a b <-> a ∈ srcs /\ b ∈ dsts.
Proof.
  unfold permits, swapBiclique, pubkeyAt. cbn [ic_accounts]. split.
  - intros [(ks & H1 & Ha) (ks' & H2 & Hb)].
    repeat (apply elem_of_cons in H1 as [[=]|H1]); [subst|set_solver..].
    repeat (apply elem_of_cons in H2 as [[=]|H2]); [by subst|set_solver..].
  - intros [Ha Hb]. split; [exists srcs|exists dsts]; set_solver.
Qed.

(** The four swap constraints of a manifest let the vault swap exactly between the two
    custodies of a strategy, in either direction: a pair of accounts is permitted by
    some constraint if and only if it is the debt and the collateral custody of one of the seven
    strategies. *)
Theorem swap_pairs_exact settings t :
  deriveEarnMaxTopology settings = Ok t ->
  exists cs, swapConstraints t = Ok cs /\
    forall source destination,
      (exists c, c ∈ cs /\ permits c source destination) <->
      exists s, s ∈ tp_strategies t /\
        ((source = st_debtCustody s /\ destination = st_collateralCustody s) \/
         (source = st_collateralCustody s /\ destination = st_debtCustody s)).
Proof.
  intros H. destruct (topology_strategies _ _ H) as (onyc & prime & syrup & usdc & usds & pyusd & Ht & _).
  eexists. split; [by apply swapConstraints_table|]. intros a b.
  assert (Hs : forall P : pubkey -> pubkey -> Prop,
    (exists s, s ∈ tp_strategies t /\ P (st_collateralCustody s) (st_debtCustody s)) <->
    P onyc usdc \/ P onyc usds \/ P prime usdc \/ P prime pyusd \/ P prime usds \/ P syrup usdc \/ P syrup pyusd).
  { intros P. unfold custody_table in Ht. set (f := fun s => (st_key s, st_collateralCustody s, st_debtCustody s)) in Ht.
    rewrite <- Exists_exists.
    change (Exists ((fun x => P x.1.2 x.2) ∘ f) (tp_strategies t) <-> P onyc usdc \/ P onyc usds \/ P prime usdc \/
      P prime pyusd \/ P prime usds \/ P syrup usdc \/ P syrup pyusd).
    rewrite <- Exists_fmap. change (f <$> tp_strategies t) with (map f (tp_strategies t)).
    rewrite Ht, !Exists_cons, Exists_nil. cbn [fst snd]. tauto. }
  rewrite (Hs (fun c d => (a = d /\ b = c) \/ (a = c /\ b = d))), <- Exists_exists.
  rewrite !Exists_cons, Exists_nil, !permits_biclique, !elem_of_cons, !elem_of_nil.
  clear. split; [|tauto]. intros H. repeat destruct H as [H|H]; try done; destruct H as [Ha Hb];
    repeat destruct Ha as [Ha|Ha]; try done; repeat destruct Hb as [Hb|Hb]; try done; tauto.
Qed.

(** ** The manifest *)
Lemma klend_fits v first second d :
  account_wf 255 first -> account_wf 255 second ->
  (length (account_keys first) <= 7)%nat -> (length (account_keys second) <= 7)%nat ->
  length d = 8%nat -> Forall is_byte d -> fits 24 (klendConstraint v first second d).
Proof.
  intros H1 H2 K1 K2 Hd Hb. split.
  - unfold klendConstraint, constraint_wf, short; cbn [ic_accounts ic_data]. split_and!; [simpl; lia| |simpl; lia|].
    + repeat first [apply Forall_nil_2|apply Forall_cons_2]; try done.
      apply accountData_wf; [byte_lit|simpl; lia|]. apply Forall_singleton, toBytes_slice_wf. byte_lit.
    + apply Forall_singleton. by apply slice_wf.
  - unfold constraint_keys, klendConstraint. cbn [ic_program ic_accounts map concat length].
    rewrite !length_app. simpl. lia.
Qed.

Lemma pubkeyAt_ok i ks : is_byte i -> (length ks <= 7)%nat ->
  account_wf 255 (pubkeyAt i ks) /\ (length (account_keys (pubkeyAt i ks)) <= 7)%nat.
Proof.
  intros Hi Hk. split; [apply pubkeyConstraint_wf; [done|lia]|].
  unfold account_keys. simpl. rewrite app_nil_r. done.
Qed.

Lemma klend_pair_fits v i ks j js d :
  is_byte i -> is_byte j -> (length ks <= 7)%nat -> (length js <= 7)%nat -> length d = 8%nat -> Forall is_byte d ->
  fits 24 (klendConstraint v (pubkeyAt i ks) (pubkeyAt j js) d).
Proof.
  intros Hi Hj Hk Hjs Hd Hb. destruct (pubkeyAt_ok i ks Hi Hk), (pubkeyAt_ok j js Hj Hjs). by apply klend_fits.
Qed.

Lemma biclique_fits v srcs dsts : (length srcs <= 7)%nat -> (length dsts <= 7)%nat ->
  fits 24 (swapBiclique v srcs dsts).
Proof.
  intros Hs Hd. destruct (pubkeyAt_ok 3 srcs ltac:(byte_lit) Hs) as [W3 K3].
  destruct (pubkeyAt_ok 6 dsts ltac:(byte_lit) Hd) as [W6 K6]. split.
  - unfold swapBiclique, constraint_wf, short; cbn [ic_accounts ic_data]. split_and!; [simpl; lia| |simpl; lia|].
    + repeat first [apply Forall_nil_2|apply Forall_cons_2]; done.
    + apply Forall_singleton. split; [byte_lit|]. vm_compute. split; congruence.
  - unfold constraint_keys, swapBiclique. cbn [ic_program ic_accounts map concat length]. rewrite !length_app.
    simpl. lia.
Qed.

Lemma manifest_fits t onyc prime syrup usdc usds pyusd cs :
  custody_table (tp_strategies t) onyc prime syrup usdc usds pyusd -> length (tp_strategies t) = 7%nat ->
  swapConstraints t = Ok cs ->
  Forall (fun l => Forall (fits 24) l /\ (length l <= 10)%nat) [collateralConstraints t; debtConstraints t; cs].
Proof.
  intros Ht Hl Hcs. rewrite (swapConstraints_table _ _ _ _ _ _ _ Ht) in Hcs. injection Hcs as <-.
  assert (Hu : forall f : EarnMaxStrategyTopology -> pubkey, (length (uniqueByMap (map f (tp_strategies t))) <= 7)%nat).
  { intros f. etrans; [apply uniqueByMap_length|]. rewrite length_map. lia. }
  repeat first [apply Forall_nil_2|apply Forall_cons_2]; (split; [|simpl; lia]);
    repeat first [apply Forall_nil_2|apply Forall_cons_2];
    first [ apply biclique_fits; simpl; lia
          | apply klend_pair_fits; try apply Hu; try byte_lit; first [reflexivity | by repeat constructor] ].
Qed.

Lemma preparePolicy_ok input v fam s cs acct :
  is_u64 s -> deriveActionAccount (clusterConfigFor MainnetBeta) (mi_settings input) (Big s) = Ok acct ->
  Forall (fits 24) cs /\ (length cs <= 10)%nat ->
  exists e, preparePolicy input v fam s cs = Ok e /\ family e = fam /\ seed e = s /\ policy e = acct /\
    keys (policyInstruction e) = policyAccounts (clusterConfigFor MainnetBeta) (manifestContext input v) acct /\
    d_create (data (policyInstruction e)) =
      Some (s, wire_of EARN_MAX_VAULT_INDEX cs [], toBytes (mi_delegatedSigner input), []).
Proof.
  intros Hs Ha [Hf Hl].
  destruct (install_ok legacy (clusterConfigFor MainnetBeta) (manifestContext input v) cs [] s acct Hs Ha
              ltac:(byte_lit) Hf Hl ltac:(simpl; lia) ltac:(constructor)) as (ix & E & _ & Hk & Hd).
  unfold preparePolicy. rewrite E. cbn [mbind result_bind]. rewrite Hk. cbn [policyAccounts lookup list_lookup].
  eexists. split; [reflexivity|]. cbn [family seed policy policyInstruction meta_pubkey]. by split_and!.
Qed.

(** The manifest of a vault is three policies at consecutive seeds, each at the
    address derived from its seed, each read back from its instruction as the policy of
    the topology for vault index 0 with no spending limit; and every constraint of every one of
    them pins the vault itself as an account of the instruction. *)
Theorem earn_max_manifest_readable input t a0 a1 a2 :
  deriveEarnMaxTopology (mi_settings input) = Ok t ->
  0 <= mi_firstPolicySeed input -> mi_firstPolicySeed input + 2 <= U64_MAX ->
  mapR (fun s => deriveActionAccount (clusterConfigFor MainnetBeta) (mi_settings input) (Big s))
    [mi_firstPolicySeed input; mi_firstPolicySeed input + 1; mi_firstPolicySeed input + 2] = Ok [a0; a1; a2] ->
  exists manifest swaps, createEarnMaxPolicyManifest input = Ok manifest /\ swapConstraints t = Ok swaps /\
    map family manifest = [collateral; debt; swap] /\
    map policy manifest = [a0; a1; a2] /\
    Forall2 (fun e cs =>
        d_create (data (policyInstruction e)) =
          Some (seed e, wire_of EARN_MAX_VAULT_INDEX cs [], toBytes (mi_delegatedSigner input), []) /\
        Forall (fun c => exists i, pubkeyAt i [tp_vault t] ∈ ic_accounts c) cs)
      manifest [collateralConstraints t; debtConstraints t; swaps] /\
    map seed manifest = [mi_firstPolicySeed input; mi_firstPolicySeed input + 1; mi_firstPolicySeed input + 2].
Proof.
  intros Ht H0 H2 Ha. apply mapR_Ok_Forall2 in Ha.
  apply Forall2_cons in Ha as [A0 [A1 [A2 _]%Forall2_cons]%Forall2_cons].
  destruct (topology_strategies _ _ Ht) as (onyc & prime & syrup & usdc & usds & pyusd & Hc & Hl).
  pose proof (swapConstraints_table _ _ _ _ _ _ _ Hc) as Hsw. set (swaps := [_; _; _; _]) in Hsw.
  pose proof (manifest_fits t _ _ _ _ _ _ _ Hc Hl Hsw) as Hf. rewrite !Forall_cons in Hf.
  destruct Hf as (F0 & F1 & F2 & _).
  destruct (preparePolicy_ok input (tp_vault t) collateral (mi_firstPolicySeed input) _ a0
    ltac:(unfold is_u64; lia) A0 F0) as (e0 & P0 & I0 & S0 & Q0 & _ & R0).
  destruct (preparePolicy_ok input (tp_vault t) debt (mi_firstPolicySeed input + 1) _ a1
    ltac:(unfold is_u64; lia) A1 F1) as (e1 & P1 & I1 & S1 & Q1 & _ & R1).
  destruct (preparePolicy_ok input (tp_vault t) swap (mi_firstPolicySeed input + 2) _ a2
    ltac:(unfold is_u64; lia) A2 F2) as (e2 & P2 & I2 & S2 & Q2 & _ & R2).
  exists [e0; e1; e2], swaps. unfold createEarnMaxPolicyManifest. rewrite Ht. cbn [mbind result_bind]. rewrite Hsw.
  cbn [mbind result_bind]. cbv zeta. rewrite P0, P1, P2. cbn [mbind result_bind map].
  rewrite I0, I1, I2, Q0, Q1, Q2. split_and!; try done; [|by rewrite S0, S1, S2].
  repeat first [apply Forall2_nil_2|apply Forall2_cons; split]; (split; [congruence|]);
    repeat first [apply Forall_nil_2|apply Forall_cons_2]; eexists; apply list_elem_of_here.
Qed.

(** ** The installation *)
Definition canonical (matching : list string) (accountExists : pubkey -> bool) (e : EarnMaxPolicyPreparation) : bool :=
  negb (accountExists (policy e)) || bool_decide (toBase58 (policy e) ∈ matching).

Lemma missingEntries_spec matching ex m :
  if forallb (canonical matching ex) m
  then missingEntries matching ex m = Ok (List.filter (fun e => negb (ex (policy e))) m)
  else exists x, missingEntries matching ex m = Throw x.
Proof.
  induction m as [|e m IH]; cbn [forallb missingEntries List.filter]; [done|].
  unfold canonical at 1. cbv zeta. destruct (ex (policy e)); cbn [negb orb andb].
  - destruct (bool_decide _); cbn [negb andb]; [|by eexists].
    destruct (forallb _ m); [by rewrite IH|]. destruct IH as [x ->]. by exists x.
  - destruct (forallb _ m); [by rewrite IH|]. destruct IH as [x ->]. by exists x.
Qed.

Lemma swapLookupTable_ok payer e slot : 1 <= slot ->
  exists t ops, swapLookupTable payer e slot = Ok (t, ops) /\ length ops = 2%nat /\ NoDup (alt_addresses t) /\
    programId (policyInstruction e) ∈ alt_addresses t /\
    forall m, m ∈ keys (policyInstruction e) -> isSigner m = false -> meta_pubkey m ∈ alt_addresses t.
Proof.
  intros Hs. unfold swapLookupTable. destruct (Z.ltb_spec slot 1); [lia|].
  destruct (createLookupTable _ _ _) as [create addr]. cbv zeta.
  do 2 eexists. split; [reflexivity|]. cbn [alt_addresses length].
  assert (Hin : forall k ks, k ∈ uniqueByMap ks <-> k ∈ ks).
  { intros k ks. rewrite uniqueByMap_unique, uniquePubkeys_table, table_adds_elem. set_solver. }
  split_and!; [done| |by apply Hin; left|].
  - rewrite uniqueByMap_unique, uniquePubkeys_table. apply table_adds_NoDup, NoDup_nil_2.
  - intros m Hm Hsig. apply Hin. right. apply (list_elem_of_fmap_2 meta_pubkey), list_elem_of_In, filter_In.
    split; [by apply list_elem_of_In|by rewrite Hsig].
Qed.

(** An installation creates exactly the policies that are not there: when every
    account found holds its policy's canonical bytes, the plan is the creation of each
    missing policy in manifest order, preceded, when the swap policy is among them, by the two
    operations that set up a lookup table with that policy's program and every account
    that does not sign; when some account does not, there is no plan. *)
Theorem install_plan_sound input current before now slot base m :
  resolveEarnMaxInstallSeedBase input current before = Ok base -> installManifest input base = Ok m -> 1 <= slot ->
  let missing := List.filter (fun e => negb (now (policy e))) m in
  if forallb (canonical (default [] (ii_matchingPolicyAccounts input)) now) m
  then exists tableOps table,
    buildEarnMaxInstallInstructions input current before now slot
      = Ok (tableOps ++ map (createOperation input table) missing) /\
    ((table = None /\ tableOps = [] /\ forall e, e ∈ missing -> family e <> swap) \/
     exists t e, table = Some t /\ length tableOps = 2%nat /\ e ∈ missing /\ family e = swap /\
       NoDup (alt_addresses t) /\ programId (policyInstruction e) ∈ alt_addresses t /\
       forall k, k ∈ keys (policyInstruction e) -> isSigner k = false -> meta_pubkey k ∈ alt_addresses t)
  else exists x, buildEarnMaxInstallInstructions input current before now slot = Throw x.
Proof.
  intros Hb Hm Hs missing. unfold buildEarnMaxInstallInstructions. rewrite Hb. cbn [mbind result_bind]. rewrite Hm.
  cbn [mbind result_bind]. pose proof (missingEntries_spec (default [] (ii_matchingPolicyAccounts input)) now m) as He.
  destruct (forallb _ m); [|destruct He as [x ->]; by exists x].
  rewrite He. cbn [mbind result_bind]. fold missing. clearbody missing.
  destruct missing as [|e0 rest]; [exists [], None; split; [done|left; set_solver]|].
  set (missing := e0 :: rest). destruct (List.find _ missing) as [e|] eqn:Ef.
  - apply List.find_some in Ef as [Hin Hsw]. apply bool_decide_eq_true in Hsw. apply list_elem_of_In in Hin.
    destruct (swapLookupTable_ok (ii_feePayer input) e slot Hs) as (t & ops & -> & H2 & H3 & H4 & H5).
    exists ops, (Some t). split; [done|]. right. exists t, e. by split_and!.
  - exists [], None. split; [done|]. left. split_and!; [done..|]. intros e He' Hsw.
    pose proof (List.find_none _ _ Ef e ltac:(by apply list_elem_of_In)) as Hn. by rewrite bool_decide_eq_false in Hn.
Qed.

(** Installing converges: once every policy of the manifest at the requested seeds is there with its
    canonical bytes, as after carrying out a plan, installing again at those seeds has nothing to do, whatever
    the settings' seed has become. *)
Theorem install_converges input s m current matching ex slot :
  ii_firstPolicySeed input = Some s -> installManifest input s = Ok m ->
  ii_matchingPolicyAccounts input = Some matching -> m <> [] ->
  (forall e, e ∈ m -> ex (policy e) = true /\ toBase58 (policy e) ∈ matching) ->
  buildEarnMaxInstallInstructions input current ex ex slot = Ok [].
Proof.
  intros Hf Hm Hmt Hne Hall.
  assert (Hfil : List.filter (fun e => ex (policy e)) m = m).
  { clear -Hall. induction m as [|e m IH]; cbn [List.filter]; [done|].
    rewrite (proj1 (Hall e ltac:(set_solver))), IH by set_solver. done. }
  assert (Hbase : resolveEarnMaxInstallSeedBase input current ex = Ok s).
  { unfold resolveEarnMaxInstallSeedBase. rewrite Hf, Hm. cbn [mbind result_bind]. cbv zeta. rewrite Hfil.
    destruct m as [|e m']; [done|]. cbn [length Nat.eqb andb]. rewrite Nat.ltb_irrefl, andb_false_r. done. }
  unfold buildEarnMaxInstallInstructions. rewrite Hbase. cbn [mbind result_bind]. rewrite Hm, Hmt.
  cbn [mbind result_bind default from_option id].
  pose proof (missingEntries_spec matching ex m) as He.
  assert (forallb (canonical matching ex) m = true) as Hc.
  { apply forallb_forall. intros e Hin. apply list_elem_of_In in Hin. destruct (Hall e Hin) as [_ Hb].
    unfold canonical. by rewrite (bool_decide_eq_true_2 _ Hb), orb_true_r. }
  rewrite Hc in He. rewrite He. cbn [mbind result_bind].
  assert (List.filter (fun e => negb (ex (policy e))) m = []) as ->; [|done].
  clear -Hall. induction m as [|e m IH]; cbn [List.filter]; [done|].
  rewrite (proj1 (Hall e ltac:(set_solver))). cbn [negb]. apply IH. set_solver.
Qed.
End Laws.
End EarnMax.

(** ** Witnesses *)
Module EarnMaxWitness.
Import DemoKeys SdkWitness.

#[local] Instance demo_tables : LookupTableProgram demo_keys := {|
  lookupTableProgramId := key_of 70;
  createLookupTable authority payer slot :=
    (Instruction (PK := demo_keys) (key_of 70) [Meta authority true false; Meta payer true true] (le_bytes 8 slot), key_of 71);
  extendLookupTable authority table payer addresses :=
    Instruction (PK := demo_keys) (key_of 70) [Meta table false true; Meta authority true false; Meta payer true true]
      (concat (map key_bytes addresses));
|}.

Definition empty_topology : EarnMaxTopology (PK := demo_keys) := {|
  tp_vault := zero_key; tp_claimCustody := zero_key; tp_collateralCustody := zero_key; tp_obligation := zero_key;
  tp_debtFarmUser := None; tp_pyusdCustody := zero_key; tp_pyusdObligation := zero_key; tp_pyusdDebtFarmUser := None;
  tp_market := zero_key; tp_collateralReserve := zero_key; tp_debtReserve := zero_key; tp_collateralMint := zero_key;
  tp_claimMint := zero_key; tp_debtFarm := None; tp_pyusdDebtFarm := None; tp_strategies := [] |}.

Definition demo_topology : EarnMaxTopology (PK := demo_keys) :=
  value empty_topology (deriveEarnMaxTopology (key_of 21)).

Lemma demo_topology_ok : deriveEarnMaxTopology (PK := demo_keys) (key_of 21) = Ok demo_topology.
Proof. computed. Qed.

Lemma swap_pairs_exact_witness :
  exists cs, swapConstraints demo_topology = Ok cs /\
    forall source destination,
      (exists c, c ∈ cs /\ permits c source destination) <->
      exists s, s ∈ tp_strategies demo_topology /\
        ((source = st_debtCustody s /\ destination = st_collateralCustody s) \/
         (source = st_collateralCustody s /\ destination = st_debtCustody s)).
Proof. exact (swap_pairs_exact (key_of 21) demo_topology demo_topology_ok). Defined.

(** The six custodies of the demonstration topology are different accounts. *)
Example custodies_distinct :
  let l := tp_strategies demo_topology in
  length (uniqueByMap (map st_collateralCustody l ++ map st_debtCustody l)) = 6%nat.
Proof. vm_compute. reflexivity. Qed.

Definition manifest_input : ManifestInput (PK := demo_keys) := {|
  mi_authority := key_of 22; mi_delegatedSigner := key_of 23; mi_firstPolicySeed := 11; mi_settings := key_of 21 |}.

Lemma earn_max_manifest_readable_witness :
  exists manifest swaps, createEarnMaxPolicyManifest manifest_input = Ok manifest /\
    swapConstraints demo_topology = Ok swaps /\ map family manifest = [collateral; debt; swap].
Proof.
  destruct (earn_max_manifest_readable manifest_input demo_topology (account 11) (account 12) (account 13))
    as (m & sw & H1 & H2 & H3 & _).
  - apply demo_topology_ok.
  - cbn; lia.
  - vm_compute. congruence.
  - apply mapR_Ok_Forall2. repeat (apply Forall2_cons; split; [computed|]). apply Forall2_nil_2.
  - exists m, sw. exact (conj H1 (conj H2 H3)).
Defined.

Definition install_input (matching : option (list string)) : InstallInput (PK := demo_keys) := {|
  ii_delegatedSigner := key_of 23; ii_feePayer := key_of 22; ii_firstPolicySeed := Some 11;
  ii_programId := key_of 30; ii_settings := key_of 21; ii_matchingPolicyAccounts := matching |}.

Definition demo_manifest : list (EarnMaxPolicyPreparation (PK := demo_keys)) :=
  value [] (createEarnMaxPolicyManifest manifest_input).

(** The first policy is there and canonical: the other two are created, the swap
    policy with a lookup table. *)
Definition first_there (k : key) : bool := key_equals (PK := demo_keys) k (account 11).

Lemma install_plan_sound_witness :
  exists tableOps table, buildEarnMaxInstallInstructions (diagnostics := unit) (install_input (Some [text (account 11)]))
      10 (fun _ => false) first_there 500 = Ok (tableOps ++ map (createOperation (install_input (Some [text (account 11)])) table)
        (List.filter (fun e => negb (first_there (policy e))) demo_manifest)).
Proof.
  pose proof (install_plan_sound (diagnostics := unit) (install_input (Some [text (account 11)])) 10 (fun _ => false)
                first_there 500 11 demo_manifest) as H.
  assert (Hc : forallb (canonical (default [] (ii_matchingPolicyAccounts (install_input (Some [text (account 11)]))))
                          first_there) demo_manifest = true) by (vm_compute; reflexivity).
  cbv zeta in H. rewrite Hc in H.
  destruct H as (ops & table & H & _).
  - vm_compute. reflexivity.
  - computed.
  - lia.
  - exists ops, table. exact H.
Defined.

Lemma install_converges_witness :
  buildEarnMaxInstallInstructions (diagnostics := unit)
    (install_input (Some (map (fun e => toBase58 (policy e)) demo_manifest))) 900 (fun _ => true) (fun _ => true) 7 = Ok [].
Proof.
  apply (install_converges (install_input (Some (map (fun e => toBase58 (policy e)) demo_manifest))) 11 demo_manifest 900
           (map (fun e => toBase58 (policy e)) demo_manifest)).
  - reflexivity.
  - computed.
  - reflexivity.
  - intros H. apply (f_equal length) in H. vm_compute in H. discriminate H.
  - intros e He. split; [reflexivity|]. apply (list_elem_of_fmap_2 (fun e => toBase58 (policy e))), He.
Defined.
End EarnMaxWitness.
