(* ===== verification/EarnWire.v ===== *)
(** The wire form of the prepared Earn operations
    (web/packages/smart-account-vaults/src/wire/earn-prepare-wire.shared.ts and the
    types it moves, of src/types.ts): autodeposit setup and close, deposit, and
    withdrawal with its steps. A record is polymorphic in its keys and integers,
    [pubkey] and [Z] in memory, [string] on the wire. [unknown] is the type of the
    open [sourceMetadata] object, [diagnostics] that of simulation diagnostics. *)
From S2P Require Import Prelude JsString Solana PreparedWire.

(** ** Metadata the two forms share *)
Inductive LoyalCluster := Devnet | MainnetBeta.

Inductive WithdrawMode := Partial | Full.

Inductive SetupStage :=
| InitializeSubscriptionAuthority
| ApproveTokenDelegate
| CreatePolicy
| CreateRecurringDelegation.

Inductive PolicyInitialization := PolicyCreate | PolicyReuse.

Inductive AuthorityInitialization := AuthorityRequired | AuthorityExists.

Inductive SourceType := SourceReserve | SourceIdle.

Inductive BalanceSource := AssumedSufficient | Provided | Queried.

Inductive NativeSolRequirementItemKind :=
| TransactionFee
| PolicyRent
| TokenAccountRent
| KaminoSetupTopUp
| SubscriptionAuthorityRent
| RecurringDelegationRent.

Record NativeSolRequirementItem := {
  nsi_account : option string;
  nsi_kind : NativeSolRequirementItemKind;
  nsi_label : string;
  nsi_lamports : string;
  nsi_stage : string;
}.

Record NativeSolRequirement := {
  ns_balanceLamports : string;
  ns_balanceSource : option BalanceSource;
  ns_canProceed : bool;
  ns_deficitLamports : string;
  ns_items : list NativeSolRequirementItem;
  ns_payer : string;
  ns_requiredLamports : string;
}.

Record DepositMetadata := {
  dm_cluster : LoyalCluster;
  dm_walletAddress : string;
  dm_delegatedSigner : string;
  dm_settings : string;
  dm_vaultIndex : Z;
  dm_vaultPubkey : string;
  dm_policyId : string;
  dm_policyAccount : string;
  dm_policySeed : string;
  dm_setupPolicyId : option string;
  dm_setupPolicyAccount : option string;
  dm_setupPolicySeed : option string;
  dm_targetReserve : string;
  dm_market : string;
  dm_liquidityMint : string;
  dm_depositMint : string;
  dm_principalAmountRaw : string;
  dm_policyInitialization : PolicyInitialization;
  dm_targetSupplyApyBps : option string;
  dm_riskProfile : string;
  dm_routeModes : list string;
  dm_stableMints : list string;
  dm_kaminoMarkets : list string;
  dm_kaminoLiquidityMints : list string;
  dm_universePreset : string;
}.

Record AutodepositSetupMetadata := {
  asm_cluster : LoyalCluster;
  asm_walletAddress : string;
  asm_delegatedSigner : string;
  asm_settings : string;
  asm_vaultIndex : Z;
  asm_vaultPubkey : string;
  asm_policyId : option string;
  asm_policyAccount : option string;
  asm_policySeed : option string;
  asm_subscriptionDelegatee : string;
  asm_amountPerPeriodRaw : string;
  asm_minimumDelegatorBalanceRaw : option string;
  asm_periodLengthSeconds : string;
  asm_nonce : string;
  asm_startTimestamp : string;
  asm_expiryTimestamp : string;
  asm_liquidityMint : string;
  asm_subscriptionAuthority : string;
  asm_recurringDelegation : string;
  asm_walletUsdcAta : string;
  asm_vaultUsdcAta : string;
  asm_subscriptionAuthorityInitialization : AuthorityInitialization;
}.

(** Present on the prepared setup only; the wire form has no field for it. *)
Record SetupAccountEvidence := {
  sae_observedAtMs : Z;
  sae_policyAccount : option string;
  sae_policyExists : option bool;
  sae_policySeed : option string;
  sae_recurringDelegation : string;
  sae_recurringDelegationExists : option bool;
  sae_subscriptionAuthority : string;
  sae_subscriptionAuthorityExists : option bool;
  sae_subscriptionAuthorityInitId : nullish string;
  sae_subscriptionAuthorityOwnerVerified : option bool;
  sae_vaultUsdcAta : string;
  sae_vaultUsdcAtaExists : option bool;
}.

Record AutodepositCloseMetadata := {
  acm_cluster : LoyalCluster;
  acm_walletAddress : string;
  acm_delegatedSigner : string;
  acm_settings : string;
  acm_vaultIndex : Z;
  acm_vaultPubkey : string;
  acm_policyAccount : string;
  acm_recurringDelegation : string;
}.

Record ReserveWithdrawalMetadata := {
  rwm_accountingReserve : string;
  rwm_collateralAta : string;
  rwm_executionMarket : string;
  rwm_executionReserve : string;
  rwm_kaminoWithdrawAmountRaw : string;
  rwm_liquidityMint : string;
  rwm_market : option string;
  rwm_reserve : string;
  rwm_withdrawnAmountRaw : string;
}.

Record WithdrawMetadata (unknown : Type) := {
  wm_cluster : LoyalCluster;
  wm_walletAddress : string;
  wm_delegatedSigner : string;
  wm_settings : string;
  wm_vaultIndex : Z;
  wm_vaultPubkey : string;
  wm_policyId : string;
  wm_policyAccount : string;
  wm_policySeed : string;
  wm_setupPolicyId : option string;
  wm_setupPolicyAccount : option string;
  wm_setupPolicySeed : option string;
  wm_targetReserve : option string;
  wm_market : option string;
  wm_liquidityMint : string;
  wm_requestedWithdrawAmountRaw : string;
  wm_withdrawnAmountRaw : string;
  wm_mode : WithdrawMode;
  wm_sourceType : option SourceType;
  wm_sourceId : option string;
  wm_sourceAmountRaw : option string;
  wm_sourceTokenAccount : option string;
  wm_sourceMint : option string;
  wm_sourceMetadata : option (list (string * unknown));
  wm_kaminoWithdrawAmountRaw : option string;
  wm_vaultCollateralCleanupIncluded : option bool;
  wm_vaultUsdcRemainderRaw : option string;
  wm_walletTransferAmountRaw : option string;
  wm_autodepositClose : nullish AutodepositCloseMetadata;
  wm_accountingReserve : option string;
  wm_executionReserve : option string;
  wm_reserveWithdrawals : option (list ReserveWithdrawalMetadata);
  wm_stepIndex : option Z;
  wm_stepCount : option Z;
  wm_isFinalStep : option bool;
}.
Arguments wm_reserveWithdrawals {unknown} _.

(** ** Records with keys [K] and integers [I] *)
Record ReserveRef (K : Type) := {
  rr_liquidityMint : K; rr_market : K; rr_reserve : K;
}.
Record ObligationRef (K : Type) := {
  or_liquidityMint : K; or_market : K; or_obligation : K; or_reserve : K;
}.
Record TargetReserve (K : Type) := {
  tr_liquidityMint : K; tr_liquidityTokenProgram : K; tr_market : K;
  tr_obligation : K; tr_reserve : K;
}.
Record PolicyRef (K I : Type) := {
  pol_account : K; pol_id : I; pol_seed : I;
}.
Record VaultRef (K : Type) := {
  v_accountIndex : Z; v_collateralAta : option K; v_pubkey : K; v_usdcAta : K;
}.
Record SubscriptionRef (K I : Type) := {
  sub_amountPerPeriodRaw : I; sub_authority : K; sub_expiryTimestamp : I; sub_nonce : I;
  sub_periodLengthSeconds : I; sub_recurringDelegation : K; sub_startTimestamp : I;
}.
Arguments rr_liquidityMint {K}. Arguments rr_market {K}. Arguments rr_reserve {K}.
Arguments or_liquidityMint {K}. Arguments or_market {K}. Arguments or_obligation {K}.
Arguments or_reserve {K}.
Arguments tr_liquidityMint {K}. Arguments tr_liquidityTokenProgram {K}. Arguments tr_market {K}.
Arguments tr_obligation {K}. Arguments tr_reserve {K}.
Arguments pol_account {K I}. Arguments pol_id {K I}. Arguments pol_seed {K I}.
Arguments v_accountIndex {K}. Arguments v_collateralAta {K}. Arguments v_pubkey {K}.
Arguments v_usdcAta {K}.
Arguments sub_amountPerPeriodRaw {K I}. Arguments sub_authority {K I}.
Arguments sub_expiryTimestamp {K I}. Arguments sub_nonce {K I}.
Arguments sub_periodLengthSeconds {K I}. Arguments sub_recurringDelegation {K I}.
Arguments sub_startTimestamp {K I}.

(** The prepared forms, in memory ([K := pubkey], [I := Z], [Op] a prepared operation)
    and on the wire ([K := I := string], [Op] its wire form). *)
Record EarnAutodepositSetup (K I Op : Type) := {
  as_authorityInitializationRequired : bool;
  as_nativeSolRequirement : NativeSolRequirement;
  as_persistence : AutodepositSetupMetadata;
  as_policyAccount : option K;
  as_policyId : option I;
  as_policySeed : option I;
  as_prepared : Op;
  as_stage : SetupStage;
  as_subscription : SubscriptionRef K I;
  as_vaultAccountIndex : Z;
  as_vaultPubkey : K;
  as_vaultUsdcAta : K;
}.
Arguments as_authorityInitializationRequired {K I Op}. Arguments as_nativeSolRequirement {K I Op}.
Arguments as_persistence {K I Op}. Arguments as_policyAccount {K I Op}.
Arguments as_policyId {K I Op}. Arguments as_policySeed {K I Op}.
Arguments as_prepared {K I Op}. Arguments as_stage {K I Op}.
Arguments as_subscription {K I Op}. Arguments as_vaultAccountIndex {K I Op}.
Arguments as_vaultPubkey {K I Op}. Arguments as_vaultUsdcAta {K I Op}.

Record EarnAutodepositClose (K Op : Type) := {
  ac_persistence : AutodepositCloseMetadata;
  ac_policyAccount : K;
  ac_prepared : Op;
  ac_recurringDelegation : K;
  ac_vaultAccountIndex : Z;
  ac_vaultPubkey : K;
}.
Arguments ac_persistence {K Op}. Arguments ac_policyAccount {K Op}. Arguments ac_prepared {K Op}.
Arguments ac_recurringDelegation {K Op}. Arguments ac_vaultAccountIndex {K Op}.
Arguments ac_vaultPubkey {K Op}.

Record EarnDeposit (K I Op : Type) := {
  ed_kaminoSetupAccountCount : Z;
  ed_kaminoSetupRentLamports : string;
  ed_kaminoSetupRequired : bool;
  ed_nativeSolRequirement : NativeSolRequirement;
  ed_persistence : DepositMetadata;
  ed_policyFinalizePrepared : nullish Op;
  ed_policy : PolicyRef K I;
  ed_sameMintInstructionConstraintIndexes : Z * Z;
  ed_setupPolicy : option (PolicyRef K I * Z);
  ed_policySetupPrepared : nullish Op;
  ed_prepared : Op;
  ed_targetReserve : TargetReserve K;
  ed_supplyApyBps : option I;
  ed_vault : VaultRef K;
}.
Arguments ed_kaminoSetupAccountCount {K I Op}. Arguments ed_kaminoSetupRentLamports {K I Op}.
Arguments ed_kaminoSetupRequired {K I Op}. Arguments ed_nativeSolRequirement {K I Op}.
Arguments ed_persistence {K I Op}. Arguments ed_policyFinalizePrepared {K I Op}.
Arguments ed_policy {K I Op}. Arguments ed_sameMintInstructionConstraintIndexes {K I Op}.
Arguments ed_setupPolicy {K I Op}. Arguments ed_policySetupPrepared {K I Op}.
Arguments ed_prepared {K I Op}. Arguments ed_targetReserve {K I Op}.
Arguments ed_supplyApyBps {K I Op}. Arguments ed_vault {K I Op}.

(** [RW] is the type of the step's [reserveWithdrawals]: a list in memory, optional
    on the wire. *)
Record EarnWithdrawStep (K I Op M RW : Type) := {
  ws_accountingReserve : option (ObligationRef K);
  ws_amountRaw : I;
  ws_collateralAta : option K;
  ws_executionReserve : option (ReserveRef K);
  ws_mode : WithdrawMode;
  ws_persistence : M;
  ws_prepared : Op;
  ws_reserveWithdrawals : RW;
  ws_stepCount : Z;
  ws_stepIndex : Z;
}.
Arguments ws_accountingReserve {K I Op M RW}. Arguments ws_amountRaw {K I Op M RW}.
Arguments ws_collateralAta {K I Op M RW}. Arguments ws_executionReserve {K I Op M RW}.
Arguments ws_mode {K I Op M RW}. Arguments ws_persistence {K I Op M RW}.
Arguments ws_prepared {K I Op M RW}. Arguments ws_reserveWithdrawals {K I Op M RW}.
Arguments ws_stepCount {K I Op M RW}. Arguments ws_stepIndex {K I Op M RW}.

(** [Steps] is a list of steps in memory, an optional one on the wire. *)
Record EarnWithdraw (K I Op M Steps : Type) := {
  ew_amountRaw : I;
  ew_autodepositClosePrepared : nullish (EarnAutodepositClose K Op);
  ew_mode : WithdrawMode;
  ew_persistence : M;
  ew_policy : PolicyRef K I;
  ew_sameMintInstructionConstraintIndexes : Z * Z;
  ew_withdrawInstructionConstraintIndex : Z;
  ew_setupPolicy : option (PolicyRef K I);
  ew_prepared : Op;
  ew_withdrawSteps : Steps;
  ew_targetReserve : option (TargetReserve K);
  ew_vault : VaultRef K;
}.
Arguments ew_amountRaw {K I Op M Steps}. Arguments ew_autodepositClosePrepared {K I Op M Steps}.
Arguments ew_mode {K I Op M Steps}. Arguments ew_persistence {K I Op M Steps}.
Arguments ew_policy {K I Op M Steps}.
Arguments ew_sameMintInstructionConstraintIndexes {K I Op M Steps}.
Arguments ew_withdrawInstructionConstraintIndex {K I Op M Steps}.
Arguments ew_setupPolicy {K I Op M Steps}. Arguments ew_prepared {K I Op M Steps}.
Arguments ew_withdrawSteps {K I Op M Steps}. Arguments ew_targetReserve {K I Op M Steps}.
Arguments ew_vault {K I Op M Steps}.

Section EarnWire.
Context {PK : PublicKeys} {diagnostics unknown : Type}.

#[local] Abbreviation Op := (PreparedOperation diagnostics).
#[local] Abbreviation WireOp := (WirePreparedOperation diagnostics).
#[local] Abbreviation Meta := (WithdrawMetadata unknown).

(** ** In-memory and wire types *)
Record PreparedEarnUsdcAutodepositSetup := {
  pes_accountEvidence : option SetupAccountEvidence;
  pes_setup : EarnAutodepositSetup pubkey Z Op;
}.
Definition WirePreparedEarnUsdcAutodepositSetup := EarnAutodepositSetup string string WireOp.

Definition PreparedEarnUsdcAutodepositClose := EarnAutodepositClose pubkey Op.
Definition WirePreparedEarnUsdcAutodepositClose := EarnAutodepositClose string WireOp.

Definition PreparedEarnUsdcDeposit := EarnDeposit pubkey Z Op.
Definition WirePreparedEarnUsdcDeposit := EarnDeposit string string WireOp.

Definition WithdrawStep := EarnWithdrawStep pubkey Z Op Meta (list ReserveWithdrawalMetadata).
Definition WireWithdrawStep :=
  EarnWithdrawStep string string WireOp Meta (option (list ReserveWithdrawalMetadata)).

Definition PreparedEarnUsdcWithdraw := EarnWithdraw pubkey Z Op Meta (list WithdrawStep).
Definition WirePreparedEarnUsdcWithdraw :=
  EarnWithdraw string string WireOp Meta (option (list WireWithdrawStep)).

(** ** Nested objects *)
Definition serializeSubscription (s : SubscriptionRef pubkey Z) : SubscriptionRef string string := {|
  sub_amountPerPeriodRaw := bigint_toString (sub_amountPerPeriodRaw s);
  sub_authority := toBase58 (sub_authority s);
  sub_expiryTimestamp := bigint_toString (sub_expiryTimestamp s);
  sub_nonce := bigint_toString (sub_nonce s);
  sub_periodLengthSeconds := bigint_toString (sub_periodLengthSeconds s);
  sub_recurringDelegation := toBase58 (sub_recurringDelegation s);
  sub_startTimestamp := bigint_toString (sub_startTimestamp s);
|}.

Definition hydrateSubscription (s : SubscriptionRef string string) : result (SubscriptionRef pubkey Z) :=
  amount ← BigInt_of_string (sub_amountPerPeriodRaw s);
  authority ← newPublicKey (sub_authority s);
  expiry ← BigInt_of_string (sub_expiryTimestamp s);
  nonce ← BigInt_of_string (sub_nonce s);
  period ← BigInt_of_string (sub_periodLengthSeconds s);
  delegation ← newPublicKey (sub_recurringDelegation s);
  start ← BigInt_of_string (sub_startTimestamp s);
  Ok (Build_SubscriptionRef pubkey Z amount authority expiry nonce period delegation start).

Definition serializePolicy (p : PolicyRef pubkey Z) : PolicyRef string string := {|
  pol_account := toBase58 (pol_account p);
  pol_id := bigint_toString (pol_id p);
  pol_seed := bigint_toString (pol_seed p);
|}.

Definition hydratePolicy (p : PolicyRef string string) : result (PolicyRef pubkey Z) :=
  account ← newPublicKey (pol_account p);
  id ← BigInt_of_string (pol_id p);
  seed ← BigInt_of_string (pol_seed p);
  Ok (Build_PolicyRef pubkey Z account id seed).

Definition serializeTarget (r : TargetReserve pubkey) : TargetReserve string := {|
  tr_liquidityMint := toBase58 (tr_liquidityMint r);
  tr_liquidityTokenProgram := toBase58 (tr_liquidityTokenProgram r);
  tr_market := toBase58 (tr_market r);
  tr_obligation := toBase58 (tr_obligation r);
  tr_reserve := toBase58 (tr_reserve r);
|}.

Definition hydrateTarget (r : TargetReserve string) : result (TargetReserve pubkey) :=
  mint ← newPublicKey (tr_liquidityMint r);
  program ← newPublicKey (tr_liquidityTokenProgram r);
  market ← newPublicKey (tr_market r);
  obligation ← newPublicKey (tr_obligation r);
  reserve ← newPublicKey (tr_reserve r);
  Ok (Build_TargetReserve pubkey mint program market obligation reserve).

Definition serializeAccounting (r : ObligationRef pubkey) : ObligationRef string := {|
  or_liquidityMint := toBase58 (or_liquidityMint r);
  or_market := toBase58 (or_market r);
  or_obligation := toBase58 (or_obligation r);
  or_reserve := toBase58 (or_reserve r);
|}.

Definition hydrateAccounting (r : ObligationRef string) : result (ObligationRef pubkey) :=
  mint ← newPublicKey (or_liquidityMint r);
  market ← newPublicKey (or_market r);
  obligation ← newPublicKey (or_obligation r);
  reserve ← newPublicKey (or_reserve r);
  Ok (Build_ObligationRef pubkey mint market obligation reserve).

Definition serializeExecution (r : ReserveRef pubkey) : ReserveRef string := {|
  rr_liquidityMint := toBase58 (rr_liquidityMint r);
  rr_market := toBase58 (rr_market r);
  rr_reserve := toBase58 (rr_reserve r);
|}.

Definition hydrateExecution (r : ReserveRef string) : result (ReserveRef pubkey) :=
  mint ← newPublicKey (rr_liquidityMint r);
  market ← newPublicKey (rr_market r);
  reserve ← newPublicKey (rr_reserve r);
  Ok (Build_ReserveRef pubkey mint market reserve).

Definition serializeVault (v : VaultRef pubkey) : VaultRef string := {|
  v_accountIndex := v_accountIndex v;
  v_collateralAta := toBase58 <$> v_collateralAta v;
  v_pubkey := toBase58 (v_pubkey v);
  v_usdcAta := toBase58 (v_usdcAta v);
|}.

Definition hydrateVault (v : VaultRef string) : result (VaultRef pubkey) :=
  collateral ← string_or_nullR newPublicKey (v_collateralAta v);
  pk ← newPublicKey (v_pubkey v);
  ata ← newPublicKey (v_usdcAta v);
  Ok (Build_VaultRef pubkey (v_accountIndex v) collateral pk ata).

(** ** Autodeposit setup *)
Definition serializePreparedEarnUsdcAutodepositSetup
    (x : PreparedEarnUsdcAutodepositSetup) : WirePreparedEarnUsdcAutodepositSetup :=
  let s := pes_setup x in {|
  as_authorityInitializationRequired := as_authorityInitializationRequired s;
  as_nativeSolRequirement := as_nativeSolRequirement s;
  as_persistence := as_persistence s;
  as_policyAccount := toBase58 <$> as_policyAccount s;
  as_policyId := bigint_toString <$> as_policyId s;
  as_policySeed := bigint_toString <$> as_policySeed s;
  as_prepared := serializePreparedOperation (as_prepared s);
  as_stage := as_stage s;
  as_subscription := serializeSubscription (as_subscription s);
  as_vaultAccountIndex := as_vaultAccountIndex s;
  as_vaultPubkey := toBase58 (as_vaultPubkey s);
  as_vaultUsdcAta := toBase58 (as_vaultUsdcAta s);
|}.

Definition hydratePreparedEarnUsdcAutodepositSetup
    (w : WirePreparedEarnUsdcAutodepositSetup) : result PreparedEarnUsdcAutodepositSetup :=
  account ← string_or_nullR newPublicKey (as_policyAccount w);
  id ← string_or_nullR BigInt_of_string (as_policyId w);
  seed ← string_or_nullR BigInt_of_string (as_policySeed w);
  prepared ← hydratePreparedOperation (as_prepared w);
  subscription ← hydrateSubscription (as_subscription w);
  vault ← newPublicKey (as_vaultPubkey w);
  ata ← newPublicKey (as_vaultUsdcAta w);
  Ok {| pes_accountEvidence := None;
        pes_setup :=
          {| as_authorityInitializationRequired := as_authorityInitializationRequired w;
             as_nativeSolRequirement := as_nativeSolRequirement w;
             as_persistence := as_persistence w;
             as_policyAccount := account;
             as_policyId := id;
             as_policySeed := seed;
             as_prepared := prepared;
             as_stage := as_stage w;
             as_subscription := subscription;
             as_vaultAccountIndex := as_vaultAccountIndex w;
             as_vaultPubkey := vault;
             as_vaultUsdcAta := ata |} |}.

(** ** Autodeposit close *)
Definition serializePreparedEarnUsdcAutodepositClose
    (c : PreparedEarnUsdcAutodepositClose) : WirePreparedEarnUsdcAutodepositClose := {|
  ac_persistence := ac_persistence c;
  ac_policyAccount := toBase58 (ac_policyAccount c);
  ac_prepared := serializePreparedOperation (ac_prepared c);
  ac_recurringDelegation := toBase58 (ac_recurringDelegation c);
  ac_vaultAccountIndex := ac_vaultAccountIndex c;
  ac_vaultPubkey := toBase58 (ac_vaultPubkey c);
|}.

Definition hydratePreparedEarnUsdcAutodepositClose
    (w : WirePreparedEarnUsdcAutodepositClose) : result PreparedEarnUsdcAutodepositClose :=
  account ← newPublicKey (ac_policyAccount w);
  prepared ← hydratePreparedOperation (ac_prepared w);
  delegation ← newPublicKey (ac_recurringDelegation w);
  vault ← newPublicKey (ac_vaultPubkey w);
  Ok (Build_EarnAutodepositClose pubkey Op (ac_persistence w) account prepared delegation
        (ac_vaultAccountIndex w) vault).

(** ** Deposit *)
Definition serializePreparedEarnUsdcDeposit
    (d : PreparedEarnUsdcDeposit) : WirePreparedEarnUsdcDeposit := {|
  ed_kaminoSetupAccountCount := ed_kaminoSetupAccountCount d;
  ed_kaminoSetupRentLamports := ed_kaminoSetupRentLamports d;
  ed_kaminoSetupRequired := ed_kaminoSetupRequired d;
  ed_nativeSolRequirement := ed_nativeSolRequirement d;
  ed_persistence := ed_persistence d;
  ed_policyFinalizePrepared :=
    object_or_null serializePreparedOperation (ed_policyFinalizePrepared d);
  ed_policy := serializePolicy (ed_policy d);
  ed_sameMintInstructionConstraintIndexes := ed_sameMintInstructionConstraintIndexes d;
  ed_setupPolicy := (fun p => (serializePolicy p.1, p.2)) <$> ed_setupPolicy d;
  ed_policySetupPrepared := object_or_null serializePreparedOperation (ed_policySetupPrepared d);
  ed_prepared := serializePreparedOperation (ed_prepared d);
  ed_targetReserve := serializeTarget (ed_targetReserve d);
  ed_supplyApyBps := bigint_toString <$> ed_supplyApyBps d;
  ed_vault := serializeVault (ed_vault d);
|}.

Definition hydrateSetupPolicy (p : PolicyRef string string * Z) : result (PolicyRef pubkey Z * Z) :=
  q ← hydratePolicy p.1; Ok (q, p.2).

Definition hydratePreparedEarnUsdcDeposit
    (w : WirePreparedEarnUsdcDeposit) : result PreparedEarnUsdcDeposit :=
  finalize ← object_or_nullR hydratePreparedOperation (ed_policyFinalizePrepared w);
  policy ← hydratePolicy (ed_policy w);
  setup ← option_mapR hydrateSetupPolicy (ed_setupPolicy w);
  setupPrepared ← object_or_nullR hydratePreparedOperation (ed_policySetupPrepared w);
  prepared ← hydratePreparedOperation (ed_prepared w);
  target ← hydrateTarget (ed_targetReserve w);
  apy ← string_or_nullR BigInt_of_string (ed_supplyApyBps w);
  vault ← hydrateVault (ed_vault w);
  Ok {| ed_kaminoSetupAccountCount := ed_kaminoSetupAccountCount w;
        ed_kaminoSetupRentLamports := ed_kaminoSetupRentLamports w;
        ed_kaminoSetupRequired := ed_kaminoSetupRequired w;
        ed_nativeSolRequirement := ed_nativeSolRequirement w;
        ed_persistence := ed_persistence w;
        ed_policyFinalizePrepared := finalize;
        ed_policy := policy;
        ed_sameMintInstructionConstraintIndexes := ed_sameMintInstructionConstraintIndexes w;
        ed_setupPolicy := setup;
        ed_policySetupPrepared := setupPrepared;
        ed_prepared := prepared;
        ed_targetReserve := target;
        ed_supplyApyBps := apy;
        ed_vault := vault |}.

(** ** Withdrawal *)
Definition serializeStep (s : WithdrawStep) : WireWithdrawStep := {|
  ws_accountingReserve := serializeAccounting <$> ws_accountingReserve s;
  ws_amountRaw := bigint_toString (ws_amountRaw s);
  ws_collateralAta := toBase58 <$> ws_collateralAta s;
  ws_executionReserve := serializeExecution <$> ws_executionReserve s;
  ws_mode := ws_mode s;
  ws_persistence := ws_persistence s;
  ws_prepared := serializePreparedOperation (ws_prepared s);
  ws_reserveWithdrawals := Some (ws_reserveWithdrawals s);
  ws_stepCount := ws_stepCount s;
  ws_stepIndex := ws_stepIndex s;
|}.

Definition hydrateStep (s : WireWithdrawStep) : result WithdrawStep :=
  accounting ← option_mapR hydrateAccounting (ws_accountingReserve s);
  amount ← BigInt_of_string (ws_amountRaw s);
  collateral ← string_or_nullR newPublicKey (ws_collateralAta s);
  execution ← option_mapR hydrateExecution (ws_executionReserve s);
  prepared ← hydratePreparedOperation (ws_prepared s);
  Ok {| ws_accountingReserve := accounting;
        ws_amountRaw := amount;
        ws_collateralAta := collateral;
        ws_executionReserve := execution;
        ws_mode := ws_mode s;
        ws_persistence := ws_persistence s;
        ws_prepared := prepared;
        ws_reserveWithdrawals :=
          default (default [] (wm_reserveWithdrawals (ws_persistence s))) (ws_reserveWithdrawals s);
        ws_stepCount := ws_stepCount s;
        ws_stepIndex := ws_stepIndex s |}.

Definition serializePreparedEarnUsdcWithdraw
    (x : PreparedEarnUsdcWithdraw) : WirePreparedEarnUsdcWithdraw := {|
  ew_amountRaw := bigint_toString (ew_amountRaw x);
  ew_autodepositClosePrepared :=
    object_or_null serializePreparedEarnUsdcAutodepositClose (ew_autodepositClosePrepared x);
  ew_mode := ew_mode x;
  ew_persistence := ew_persistence x;
  ew_policy := serializePolicy (ew_policy x);
  ew_sameMintInstructionConstraintIndexes := ew_sameMintInstructionConstraintIndexes x;
  ew_withdrawInstructionConstraintIndex := ew_withdrawInstructionConstraintIndex x;
  ew_setupPolicy := serializePolicy <$> ew_setupPolicy x;
  ew_prepared := serializePreparedOperation (ew_prepared x);
  ew_withdrawSteps := Some (map serializeStep (ew_withdrawSteps x));
  ew_targetReserve := serializeTarget <$> ew_targetReserve x;
  ew_vault := serializeVault (ew_vault x);
|}.

(** The single step of a message without [withdrawSteps]; it is computed first,
    whether it is used or not. *)
Definition accountingOfTarget (r : TargetReserve string) : result (ObligationRef pubkey) :=
  mint ← newPublicKey (tr_liquidityMint r);
  market ← newPublicKey (tr_market r);
  obligation ← newPublicKey (tr_obligation r);
  reserve ← newPublicKey (tr_reserve r);
  Ok (Build_ObligationRef pubkey mint market obligation reserve).

Definition executionOfTarget (r : TargetReserve string) : result (ReserveRef pubkey) :=
  mint ← newPublicKey (tr_liquidityMint r);
  market ← newPublicKey (tr_market r);
  reserve ← newPublicKey (tr_reserve r);
  Ok (Build_ReserveRef pubkey mint market reserve).

Definition fallbackStep (w : WirePreparedEarnUsdcWithdraw) : result WithdrawStep :=
  accounting ← option_mapR accountingOfTarget (ew_targetReserve w);
  amount ← BigInt_of_string (ew_amountRaw w);
  collateral ← string_or_nullR newPublicKey (v_collateralAta (ew_vault w));
  execution ← option_mapR executionOfTarget (ew_targetReserve w);
  prepared ← hydratePreparedOperation (ew_prepared w);
  Ok {| ws_accountingReserve := accounting;
        ws_amountRaw := amount;
        ws_collateralAta := collateral;
        ws_executionReserve := execution;
        ws_mode := ew_mode w;
        ws_persistence := ew_persistence w;
        ws_prepared := prepared;
        ws_reserveWithdrawals := default [] (wm_reserveWithdrawals (ew_persistence w));
        ws_stepCount := 1;
        ws_stepIndex := 0 |}.

Definition hydratePreparedEarnUsdcWithdraw
    (w : WirePreparedEarnUsdcWithdraw) : result PreparedEarnUsdcWithdraw :=
  fallback ← fallbackStep w;
  amount ← BigInt_of_string (ew_amountRaw w);
  close ← object_or_nullR hydratePreparedEarnUsdcAutodepositClose (ew_autodepositClosePrepared w);
  policy ← hydratePolicy (ew_policy w);
  setup ← option_mapR hydratePolicy (ew_setupPolicy w);
  prepared ← hydratePreparedOperation (ew_prepared w);
  steps ← match ew_withdrawSteps w with
          | Some steps => mapR hydrateStep steps
          | None => Ok [fallback]
          end;
  target ← option_mapR hydrateTarget (ew_targetReserve w);
  vault ← hydrateVault (ew_vault w);
  Ok {| ew_amountRaw := amount;
        ew_autodepositClosePrepared := close;
        ew_mode := ew_mode w;
        ew_persistence := ew_persistence w;
        ew_policy := policy;
        ew_sameMintInstructionConstraintIndexes := ew_sameMintInstructionConstraintIndexes w;
        ew_withdrawInstructionConstraintIndex := ew_withdrawInstructionConstraintIndex w;
        ew_setupPolicy := setup;
        ew_prepared := prepared;
        ew_withdrawSteps := steps;
        ew_targetReserve := target;
        ew_vault := vault |}.

(** ** Round trips *)

(** Instruction data of every operation inside are byte arrays. *)
Definition bytes_nullish (o : nullish Op) : Prop := forall p, o = Present p -> bytes_operation p.

Definition bytes_deposit (d : PreparedEarnUsdcDeposit) : Prop :=
  bytes_nullish (ed_policyFinalizePrepared d) /\ bytes_nullish (ed_policySetupPrepared d) /\
  bytes_operation (ed_prepared d).

Definition bytes_withdraw (x : PreparedEarnUsdcWithdraw) : Prop :=
  (forall c, ew_autodepositClosePrepared x = Present c -> bytes_operation (ac_prepared c)) /\
  bytes_operation (ew_prepared x) /\
  Forall (fun s => bytes_operation (ws_prepared s)) (ew_withdrawSteps x).

(** What a trip changes: an absent optional operation becomes [null], and the
    account evidence of a setup, which the wire form has no field for, is dropped. *)
Definition arrived_setup (x : PreparedEarnUsdcAutodepositSetup) : PreparedEarnUsdcAutodepositSetup :=
  {| pes_accountEvidence := None; pes_setup := pes_setup x |}.

Definition arrived_deposit (d : PreparedEarnUsdcDeposit) : PreparedEarnUsdcDeposit := {|
  ed_kaminoSetupAccountCount := ed_kaminoSetupAccountCount d;
  ed_kaminoSetupRentLamports := ed_kaminoSetupRentLamports d;
  ed_kaminoSetupRequired := ed_kaminoSetupRequired d;
  ed_nativeSolRequirement := ed_nativeSolRequirement d;
  ed_persistence := ed_persistence d;
  ed_policyFinalizePrepared := null_if_absent (ed_policyFinalizePrepared d);
  ed_policy := ed_policy d;
  ed_sameMintInstructionConstraintIndexes := ed_sameMintInstructionConstraintIndexes d;
  ed_setupPolicy := ed_setupPolicy d;
  ed_policySetupPrepared := null_if_absent (ed_policySetupPrepared d);
  ed_prepared := ed_prepared d;
  ed_targetReserve := ed_targetReserve d;
  ed_supplyApyBps := ed_supplyApyBps d;
  ed_vault := ed_vault d;
|}.

Definition with_close {Steps} (close : nullish PreparedEarnUsdcAutodepositClose)
    (x : EarnWithdraw pubkey Z Op Meta Steps) : EarnWithdraw pubkey Z Op Meta Steps := {|
  ew_amountRaw := ew_amountRaw x;
  ew_autodepositClosePrepared := close;
  ew_mode := ew_mode x;
  ew_persistence := ew_persistence x;
  ew_policy := ew_policy x;
  ew_sameMintInstructionConstraintIndexes := ew_sameMintInstructionConstraintIndexes x;
  ew_withdrawInstructionConstraintIndex := ew_withdrawInstructionConstraintIndex x;
  ew_setupPolicy := ew_setupPolicy x;
  ew_prepared := ew_prepared x;
  ew_withdrawSteps := ew_withdrawSteps x;
  ew_targetReserve := ew_targetReserve x;
  ew_vault := ew_vault x;
|}.

Definition arrived_withdraw (x : PreparedEarnUsdcWithdraw) : PreparedEarnUsdcWithdraw :=
  with_close (null_if_absent (ew_autodepositClosePrepared x)) x.

Section Laws.
Context {L : PublicKeyLaws PK}.

Ltac hydrate := repeat (autorewrite with wire; simpl).

Lemma hydrate_subscription s : hydrateSubscription (serializeSubscription s) = Ok s.
Proof. unfold hydrateSubscription; simpl. hydrate. by destruct s. Qed.

Lemma hydrate_policy p : hydratePolicy (serializePolicy p) = Ok p.
Proof. unfold hydratePolicy; simpl. hydrate. by destruct p. Qed.

Lemma hydrate_target r : hydrateTarget (serializeTarget r) = Ok r.
Proof. unfold hydrateTarget; simpl. hydrate. by destruct r. Qed.

Lemma hydrate_accounting r : hydrateAccounting (serializeAccounting r) = Ok r.
Proof. unfold hydrateAccounting; simpl. hydrate. by destruct r. Qed.

Lemma hydrate_execution r : hydrateExecution (serializeExecution r) = Ok r.
Proof. unfold hydrateExecution; simpl. hydrate. by destruct r. Qed.

Lemma hydrate_vault v : hydrateVault (serializeVault v) = Ok v.
Proof. unfold hydrateVault; simpl. hydrate. by destruct v. Qed.

Lemma hydrate_setup_policy p :
  option_mapR hydrateSetupPolicy ((fun q => (serializePolicy q.1, q.2)) <$> p) = Ok p.
Proof.
  apply option_mapR_roundtrip. intros [q z]. unfold hydrateSetupPolicy; simpl.
  by rewrite hydrate_policy.
Qed.

Lemma hydrate_nullish o : bytes_nullish o ->
  object_or_nullR hydratePreparedOperation (object_or_null serializePreparedOperation o)
  = Ok (null_if_absent o).
Proof. apply object_or_null_roundtrip. intros. by apply hydrate_prepared. Qed.

Lemma hydrate_close c :
  bytes_operation (ac_prepared c) ->
  hydratePreparedEarnUsdcAutodepositClose (serializePreparedEarnUsdcAutodepositClose c) = Ok c.
Proof.
  intros H. unfold hydratePreparedEarnUsdcAutodepositClose; simpl. hydrate.
  rewrite hydrate_prepared by done. hydrate. by destruct c.
Qed.

Lemma hydrate_nullish_close (o : nullish PreparedEarnUsdcAutodepositClose) :
  (forall c, o = Present c -> bytes_operation (ac_prepared c)) ->
  object_or_nullR hydratePreparedEarnUsdcAutodepositClose
    (object_or_null serializePreparedEarnUsdcAutodepositClose o) = Ok (null_if_absent o).
Proof.
  apply (object_or_null_roundtrip (fun c => bytes_operation (ac_prepared c))).
  intros. by apply hydrate_close.
Qed.

Lemma hydrate_step s :
  bytes_operation (ws_prepared s) -> hydrateStep (serializeStep s) = Ok s.
Proof.
  intros H. unfold hydrateStep; simpl.
  rewrite (option_mapR_roundtrip serializeAccounting) by apply hydrate_accounting. hydrate.
  rewrite (option_mapR_roundtrip serializeExecution) by apply hydrate_execution. hydrate.
  rewrite hydrate_prepared by done. hydrate. by destruct s.
Qed.

(** The two views of the target that the fallback step uses. *)
Definition accounting_ref (r : TargetReserve pubkey) : ObligationRef pubkey :=
  Build_ObligationRef pubkey (tr_liquidityMint r) (tr_market r) (tr_obligation r) (tr_reserve r).
Definition execution_ref (r : TargetReserve pubkey) : ReserveRef pubkey :=
  Build_ReserveRef pubkey (tr_liquidityMint r) (tr_market r) (tr_reserve r).

(** The step a message without steps stands for. *)
Definition whole_step (x : PreparedEarnUsdcWithdraw) : WithdrawStep := {|
  ws_accountingReserve := accounting_ref <$> ew_targetReserve x;
  ws_amountRaw := ew_amountRaw x;
  ws_collateralAta := v_collateralAta (ew_vault x);
  ws_executionReserve := execution_ref <$> ew_targetReserve x;
  ws_mode := ew_mode x;
  ws_persistence := ew_persistence x;
  ws_prepared := ew_prepared x;
  ws_reserveWithdrawals := default [] (wm_reserveWithdrawals (ew_persistence x));
  ws_stepCount := 1;
  ws_stepIndex := 0;
|}.

(** A wire message with the steps field replaced. *)
Definition with_wire_steps (steps : option (list WireWithdrawStep))
    (w : WirePreparedEarnUsdcWithdraw) : WirePreparedEarnUsdcWithdraw := {|
  ew_amountRaw := ew_amountRaw w;
  ew_autodepositClosePrepared := ew_autodepositClosePrepared w;
  ew_mode := ew_mode w;
  ew_persistence := ew_persistence w;
  ew_policy := ew_policy w;
  ew_sameMintInstructionConstraintIndexes := ew_sameMintInstructionConstraintIndexes w;
  ew_withdrawInstructionConstraintIndex := ew_withdrawInstructionConstraintIndex w;
  ew_setupPolicy := ew_setupPolicy w;
  ew_prepared := ew_prepared w;
  ew_withdrawSteps := steps;
  ew_targetReserve := ew_targetReserve w;
  ew_vault := ew_vault w;
|}.

Definition with_steps (steps : list WithdrawStep)
    (x : PreparedEarnUsdcWithdraw) : PreparedEarnUsdcWithdraw := {|
  ew_amountRaw := ew_amountRaw x;
  ew_autodepositClosePrepared := ew_autodepositClosePrepared x;
  ew_mode := ew_mode x;
  ew_persistence := ew_persistence x;
  ew_policy := ew_policy x;
  ew_sameMintInstructionConstraintIndexes := ew_sameMintInstructionConstraintIndexes x;
  ew_withdrawInstructionConstraintIndex := ew_withdrawInstructionConstraintIndex x;
  ew_setupPolicy := ew_setupPolicy x;
  ew_prepared := ew_prepared x;
  ew_withdrawSteps := steps;
  ew_targetReserve := ew_targetReserve x;
  ew_vault := ew_vault x;
|}.

Lemma fallback_of_serialized steps x :
  bytes_operation (ew_prepared x) ->
  fallbackStep (with_wire_steps steps (serializePreparedEarnUsdcWithdraw x)) = Ok (whole_step x).
Proof.
  intros H. unfold fallbackStep; simpl.
  replace (option_mapR accountingOfTarget (serializeTarget <$> ew_targetReserve x))
    with (Ok (accounting_ref <$> ew_targetReserve x)).
  2:{ destruct (ew_targetReserve x); simpl; [|done]. unfold accountingOfTarget; simpl. by hydrate. }
  hydrate.
  replace (option_mapR executionOfTarget (serializeTarget <$> ew_targetReserve x))
    with (Ok (execution_ref <$> ew_targetReserve x)).
  2:{ destruct (ew_targetReserve x); simpl; [|done]. unfold executionOfTarget; simpl. by hydrate. }
  hydrate. by rewrite hydrate_prepared.
Qed.

(** Hydration of a serialized withdrawal whose steps field was replaced. *)
Lemma hydrate_withdraw_steps wire_steps steps x :
  bytes_withdraw x ->
  match wire_steps with Some ws => mapR hydrateStep ws | None => Ok [whole_step x] end = Ok steps ->
  hydratePreparedEarnUsdcWithdraw (with_wire_steps wire_steps (serializePreparedEarnUsdcWithdraw x))
  = Ok (with_steps steps (arrived_withdraw x)).
Proof.
  intros (Hc & Hp & Hs) Hsteps. unfold hydratePreparedEarnUsdcWithdraw.
  rewrite fallback_of_serialized by done. simpl. hydrate.
  rewrite hydrate_nullish_close by done. simpl.
  rewrite hydrate_policy. simpl.
  rewrite (option_mapR_roundtrip serializePolicy) by apply hydrate_policy. simpl.
  rewrite hydrate_prepared by done. simpl. rewrite Hsteps. simpl.
  rewrite (option_mapR_roundtrip serializeTarget) by apply hydrate_target. simpl.
  by rewrite hydrate_vault.
Qed.

(** What a client hydrates from a serialized autodeposit setup or close is the
    operation the server prepared, up to the account evidence, which does not
    travel. *)
Theorem autodeposit_roundtrip (x : PreparedEarnUsdcAutodepositSetup) (c : PreparedEarnUsdcAutodepositClose) :
  bytes_operation (as_prepared (pes_setup x)) -> bytes_operation (ac_prepared c) ->
  hydratePreparedEarnUsdcAutodepositSetup (serializePreparedEarnUsdcAutodepositSetup x)
  = Ok (arrived_setup x) /\
  hydratePreparedEarnUsdcAutodepositClose (serializePreparedEarnUsdcAutodepositClose c) = Ok c.
Proof.
  intros Hx Hc. split; [|by apply hydrate_close].
  unfold hydratePreparedEarnUsdcAutodepositSetup; simpl. hydrate.
  rewrite hydrate_prepared by done. simpl. rewrite hydrate_subscription. hydrate.
  unfold arrived_setup. by destruct x as [e []].
Qed.

(** What a client hydrates from a serialized deposit is the deposit the server
    prepared: every key, amount, seed and instruction, with the optional policy
    operations absent or [null] arriving as [null]. *)
Theorem deposit_roundtrip (d : PreparedEarnUsdcDeposit) :
  bytes_deposit d ->
  hydratePreparedEarnUsdcDeposit (serializePreparedEarnUsdcDeposit d) = Ok (arrived_deposit d).
Proof.
  intros (Hf & Hs & Hp). unfold hydratePreparedEarnUsdcDeposit; simpl.
  rewrite hydrate_nullish by done. simpl. rewrite hydrate_policy. simpl.
  rewrite hydrate_setup_policy. simpl. rewrite hydrate_nullish by done. simpl.
  rewrite hydrate_prepared by done. simpl. rewrite hydrate_target. hydrate.
  by rewrite hydrate_vault.
Qed.

(** C15. What a client hydrates from a serialized withdrawal is the withdrawal the
    server prepared, all its steps in order with their own reserve withdrawals
    included; only an absent autodeposit close arrives as [null]. *)
Theorem withdraw_roundtrip (x : PreparedEarnUsdcWithdraw) :
  bytes_withdraw x ->
  hydratePreparedEarnUsdcWithdraw (serializePreparedEarnUsdcWithdraw x) = Ok (arrived_withdraw x).
Proof.
  intros H. pose proof H as (_ & _ & Hs). rewrite Forall_forall in Hs.
  enough (E : mapR hydrateStep (map serializeStep (ew_withdrawSteps x)) = Ok (ew_withdrawSteps x)).
  { apply (hydrate_withdraw_steps (Some _) _ x) in E; [|done]. by destruct x. }
  apply mapR_roundtrip. intros s Hin. by apply hydrate_step, Hs.
Qed.

(** A withdrawal message of the older form, without [withdrawSteps], hydrates to
    the same withdrawal with exactly one step, number 0 of 1, that covers the whole
    amount with the withdrawal's own operation, reserve and persistence. *)
Theorem withdraw_fallback_step (x : PreparedEarnUsdcWithdraw) :
  bytes_withdraw x ->
  hydratePreparedEarnUsdcWithdraw (with_wire_steps None (serializePreparedEarnUsdcWithdraw x))
  = Ok (with_steps [whole_step x] (arrived_withdraw x)).
Proof. intros H. by apply hydrate_withdraw_steps. Qed.

End Laws.
End EarnWire.

Module EarnWireWitness.
Import DemoKeys.

Definition op : @PreparedOperation demo_keys string := {|
  po_instructions := [Instruction (PK := demo_keys) (key_of 1) [Meta (key_of 2) true false] [0; 7; 255; 128]];
  po_lookupTableAccounts := [LookupTable (PK := demo_keys) (key_of 3) [key_of 4; key_of 5] None U64_MAX 12 0];
  po_operation := "executeTransactionSync";
  po_payer := key_of 2;
  po_programId := key_of 1;
  po_requiresConfirmation := true;
  po_simulationDiagnostics := Some "kamino";
|}.

Lemma op_bytes : bytes_operation op.
Proof. repeat constructor; discriminate. Qed.

Definition close_meta : AutodepositCloseMetadata :=
  Build_AutodepositCloseMetadata MainnetBeta "wallet" "signer" "settings" 1 "vault" "policy" "delegation".

Definition close : @PreparedEarnUsdcAutodepositClose demo_keys string :=
  Build_EarnAutodepositClose key _ close_meta (key_of 6) op (key_of 7) 1 (key_of 8).

Definition sol : NativeSolRequirement :=
  Build_NativeSolRequirement "0" None true "0"
    [Build_NativeSolRequirementItem None TransactionFee "fee" "5000" "deposit"] "payer" "5000".

Definition setup_meta : AutodepositSetupMetadata :=
  Build_AutodepositSetupMetadata MainnetBeta "wallet" "signer" "settings" 1 "vault" None None None
    "delegatee" "1000000" None "86400" "0" "1" "2" "mint" "authority" "delegation" "walletAta"
    "vaultAta" AuthorityRequired.

Definition evidence : SetupAccountEvidence :=
  Build_SetupAccountEvidence 1 None None None "delegation" None "authority" None Null None "ata" None.

Definition setup : @PreparedEarnUsdcAutodepositSetup demo_keys string := {|
  pes_accountEvidence := Some evidence;
  pes_setup := Build_EarnAutodepositSetup key Z _ true sol setup_meta (Some (key_of 6)) (Some 0) None
    op CreatePolicy (Build_SubscriptionRef key Z 1000000 (key_of 1) (-1) 3 86400 (key_of 2) 17)
    1 (key_of 8) (key_of 9);
|}.

Definition target : TargetReserve key :=
  Build_TargetReserve key (key_of 1) (key_of 2) (key_of 3) (key_of 4) (key_of 5).

Definition vault : VaultRef key := Build_VaultRef key 1 (Some (key_of 1)) (key_of 8) (key_of 9).

Definition deposit_meta : DepositMetadata :=
  Build_DepositMetadata Devnet "wallet" "signer" "settings" 1 "vault" "4" "policy" "4" None None None
    "reserve" "market" "mint" "mint" "25" PolicyCreate None "low" [] [] [] [] "stable".

Definition deposit : @PreparedEarnUsdcDeposit demo_keys string :=
  Build_EarnDeposit key Z _ 2 "890880" true sol deposit_meta Undefined
    (Build_PolicyRef key Z (key_of 6) 4 4) (0, 1) (Some (Build_PolicyRef key Z (key_of 7) 5 5, 0))
    (Present op) op target (Some 512) vault.

Definition withdraw_meta : WithdrawMetadata string :=
  Build_WithdrawMetadata string MainnetBeta "wallet" "signer" "settings" 1 "vault" "4" "policy" "4"
    None None None None None "mint" "10" "10" Partial None None None None None None None None None
    None Null None None None None None None.

Definition step : @WithdrawStep demo_keys string string :=
  Build_EarnWithdrawStep key Z _ _ _ None 10 None None Partial withdraw_meta op [] 1 0.

Definition withdraw : @PreparedEarnUsdcWithdraw demo_keys string string :=
  Build_EarnWithdraw key Z _ _ _ 10 (Present close) Partial withdraw_meta
    (Build_PolicyRef key Z (key_of 6) 4 4) (0, 1) 0 None op [step; step] (Some target) vault.

Lemma withdraw_bytes : bytes_withdraw withdraw.
Proof.
  split; [|split]; [intros c [= <-]; apply op_bytes|apply op_bytes|].
  apply Forall_cons_2; [apply op_bytes|]. apply Forall_cons_2; [apply op_bytes|apply Forall_nil_2].
Qed.

Lemma autodeposit_roundtrip_witness :
  hydratePreparedEarnUsdcAutodepositSetup (serializePreparedEarnUsdcAutodepositSetup setup)
  = Ok (arrived_setup setup) /\
  hydratePreparedEarnUsdcAutodepositClose (serializePreparedEarnUsdcAutodepositClose close) = Ok close.
Proof. apply (autodeposit_roundtrip setup close); apply op_bytes. Defined.

Lemma deposit_roundtrip_witness :
  hydratePreparedEarnUsdcDeposit (serializePreparedEarnUsdcDeposit deposit)
  = Ok (arrived_deposit deposit).
Proof.
  apply (deposit_roundtrip deposit). split; [|split]; [discriminate| |apply op_bytes].
  intros p [= <-]. apply op_bytes.
Defined.

Lemma withdraw_roundtrip_witness :
  hydratePreparedEarnUsdcWithdraw (serializePreparedEarnUsdcWithdraw withdraw)
  = Ok (arrived_withdraw withdraw).
Proof. apply (withdraw_roundtrip withdraw), withdraw_bytes. Defined.

Lemma withdraw_fallback_step_witness :
  hydratePreparedEarnUsdcWithdraw (with_wire_steps None (serializePreparedEarnUsdcWithdraw withdraw))
  = Ok (with_steps [whole_step withdraw] (arrived_withdraw withdraw)).
Proof. apply (withdraw_fallback_step withdraw), withdraw_bytes. Defined.

End EarnWireWitness.
