(* ===== verification/Lighthouse.v ===== *)
(** Lighthouse assertions (web/packages/smart-account-vaults/src/voltr/lighthouse.ts):
    the variable-length integers, the instruction builders, and the grammar the
    assertions are read back with. *)
From S2P Require Import Prelude JsString Solana Bytes.

(** ** Integers of [Buffer]

    [buffer.writeBigUInt64LE] and [buffer.writeBigInt64LE] throw a RangeError
    outside their width. *)
Definition writeBigUInt64LE (value : Z) : result (list Z) :=
  if (0 <=? value) && (value <=? U64_MAX) then Ok (le_bytes 8 value)
  else throwRange "value".

Definition writeBigInt64LE (value : Z) : result (list Z) :=
  if (I64_MIN <=? value) && (value <=? I64_MAX) then Ok (le_bytes 8 value)
  else throwRange "value".

(** ** LEB128

    [rest & 0x7f] works on ToInt32 of the number. Each turn divides by 128, so the
    bit length of the value bounds the number of turns. *)
Fixpoint leb128_loop (fuel : nat) (rest : Z) : list Z :=
  match fuel with
  | O => []
  | S fuel =>
      let byte := Z.land (to_int32 rest) 127 in
      let rest := rest / 128 in
      if 0 <? rest then Z.lor byte 128 :: leb128_loop fuel rest else [byte]
  end.

Definition leb128 (value : Z) : list Z := leb128_loop (S (Z.to_nat (Z.log2 value))) value.

(** ** Assertions *)
Definition Tag_AssertAccountData := 2.
Definition Tag_AssertAccountDataMulti := 3.
Definition Tag_AssertMintAccount := 7.
Definition Tag_AssertTokenAccount := 9.
Definition Tag_AssertTokenAccountMulti := 10.
Definition Tag_AssertSysvarClock := 15.
Definition SILENT := 0.
Definition DATA_U64 := 7.
Definition DATA_BYTES := 11.
Definition MINT_SUPPLY := 1.
Definition TOKEN_AMOUNT := 2.
Definition CLOCK_SLOT := 0.
Definition CLOCK_UNIX_TIMESTAMP := 4.
Definition EQUAL := 0.

Inductive IntegerOperator := equal | greaterThanOrEqual | lessThanOrEqual.
Definition IntegerOperator_value (o : IntegerOperator) : Z :=
  match o with equal => 0 | greaterThanOrEqual => 4 | lessThanOrEqual => 5 end.

#[global] Instance IntegerOperator_eq_dec : EqDecision IntegerOperator.
Proof. solve_decision. Defined.

Record U64Bound := Bound { operator : IntegerOperator; value : Z }.
Record BytePin := Pin { offset : Z; pin_bytes : list Z }.

#[global] Instance U64Bound_eq_dec : EqDecision U64Bound.
Proof. solve_decision. Defined.
#[global] Instance BytePin_eq_dec : EqDecision BytePin.
Proof. solve_decision. Defined.

Definition u64 (value : Z) : result (list Z) :=
  if (value <? 0) || (U64_MAX <? value) then throwRange "Lighthouse u64 out of range"
  else writeBigUInt64LE value.

Definition i64 (value : Z) : result (list Z) := writeBigInt64LE value.

Section Lighthouse.
Context {PK : PublicKeys}.

Definition LIGHTHOUSE_PROGRAM_ID : pubkey :=
  key_literal "L2TExMFKdjpN9kozasaurPirfHy9P8sbXoAN1qA3S95".

(** One element of the [data] array: [Buffer.of(number)] or a buffer. *)
Inductive part := Num (n : Z) | Buf (bs : list Z).
Definition part_bytes (p : part) : list Z :=
  match p with Num n => [n mod 256] | Buf bs => bs end.

Definition assertion (parts : list part) (target : option pubkey) : instruction :=
  Instruction LIGHTHOUSE_PROGRAM_ID
    (match target with Some k => [Meta k false false] | None => [] end)
    (concat (map part_bytes parts)).

Definition pinParts (pin : BytePin) : list part :=
  [Buf (leb128 (offset pin)); Num DATA_BYTES;
   Buf (leb128 (Z.of_nat (length (pin_bytes pin)))); Buf (pin_bytes pin); Num EQUAL].

Definition assertAccountBytes (target : pubkey) (pins : list BytePin) : instruction :=
  assertion
    ([Num Tag_AssertAccountDataMulti; Num SILENT; Buf (leb128 (Z.of_nat (length pins)))] ++
     concat (map pinParts pins))
    (Some target).

Definition assertAccountU64 (target : pubkey) (offset : Z) (bound : U64Bound) : result instruction :=
  v ← u64 (value bound);
  Ok (assertion
    [Num Tag_AssertAccountData; Num SILENT; Buf (leb128 offset); Num DATA_U64; Buf v;
     Num (IntegerOperator_value (operator bound))] (Some target)).

Definition assertMintSupply (mint : pubkey) (bound : U64Bound) : result instruction :=
  v ← u64 (value bound);
  Ok (assertion
    [Num Tag_AssertMintAccount; Num SILENT; Num MINT_SUPPLY; Buf v;
     Num (IntegerOperator_value (operator bound))] (Some mint)).

Definition tokenBoundParts (bound : U64Bound) : result (list part) :=
  v ← u64 (value bound);
  Ok [Num TOKEN_AMOUNT; Buf v; Num (IntegerOperator_value (operator bound))].

Definition assertTokenAmount (account : pubkey) (bounds : list U64Bound) : result instruction :=
  encoded ← mapR tokenBoundParts bounds;
  let encoded := concat encoded in
  Ok (if (length bounds =? 1)%nat then
        assertion ([Num Tag_AssertTokenAccount; Num SILENT] ++ encoded) (Some account)
      else
        assertion ([Num Tag_AssertTokenAccountMulti; Num SILENT;
                    Buf (leb128 (Z.of_nat (length bounds)))] ++ encoded) (Some account)).

Definition assertClockSlot (bound : U64Bound) : result instruction :=
  v ← u64 (value bound);
  Ok (assertion
    [Num Tag_AssertSysvarClock; Num SILENT; Num CLOCK_SLOT; Buf v;
     Num (IntegerOperator_value (operator bound))] None).

Definition assertClockUnixTimestamp (bound : U64Bound) : result instruction :=
  v ← i64 (value bound);
  Ok (assertion
    [Num Tag_AssertSysvarClock; Num SILENT; Num CLOCK_UNIX_TIMESTAMP; Buf v;
     Num (IntegerOperator_value (operator bound))] None).
End Lighthouse.

(** ** The reader's side *)
Inductive Check :=
| CheckAccountBytes (pins : list BytePin)
| CheckAccountU64 (offset : Z) (bound : U64Bound)
| CheckMintSupply (bound : U64Bound)
| CheckTokenAmount (bounds : list U64Bound)
| CheckClockSlot (bound : U64Bound)
| CheckClockUnixTimestamp (bound : U64Bound).

(** Seven bits per byte, least significant first, up to 16 bytes. *)
Fixpoint d_leb_loop (fuel : nat) : dec Z :=
  match fuel with
  | O => dfail
  | S fuel =>
      b <~ d_u8;
      if b <? 128 then dret b else (rest <~ d_leb_loop fuel; dret (b - 128 + 128 * rest))
  end.
Definition d_leb : dec Z := d_leb_loop 16.

Definition d_operator : dec IntegerOperator :=
  o <~ d_u8;
  if o =? 0 then dret equal else if o =? 4 then dret greaterThanOrEqual
  else if o =? 5 then dret lessThanOrEqual else dfail.

Definition d_bound (d : dec Z) : dec U64Bound := v <~ d; o <~ d_operator; dret (Bound o v).

Definition d_pin : dec BytePin :=
  off <~ d_leb; _ <~ d_const DATA_BYTES; n <~ d_leb; bs <~ d_take (Z.to_nat n);
  _ <~ d_const EQUAL; dret (Pin off bs).

Definition d_tagged_bound (tag : Z) (d : dec Z) : dec U64Bound := _ <~ d_const tag; d_bound d.

Definition d_check_body (tag : Z) : dec Check :=
  if tag =? Tag_AssertAccountDataMulti then
    n <~ d_leb; pins <~ d_items (Z.to_nat n) d_pin; dret (CheckAccountBytes pins)
  else if tag =? Tag_AssertAccountData then
    off <~ d_leb; b <~ d_tagged_bound DATA_U64 d_u64; dret (CheckAccountU64 off b)
  else if tag =? Tag_AssertMintAccount then
    b <~ d_tagged_bound MINT_SUPPLY d_u64; dret (CheckMintSupply b)
  else if tag =? Tag_AssertTokenAccount then
    b <~ d_tagged_bound TOKEN_AMOUNT d_u64; dret (CheckTokenAmount [b])
  else if tag =? Tag_AssertTokenAccountMulti then
    n <~ d_leb; bs <~ d_items (Z.to_nat n) (d_tagged_bound TOKEN_AMOUNT d_u64);
    dret (CheckTokenAmount bs)
  else if tag =? Tag_AssertSysvarClock then
    field <~ d_u8;
    if field =? CLOCK_SLOT then (b <~ d_bound d_u64; dret (CheckClockSlot b))
    else if field =? CLOCK_UNIX_TIMESTAMP then
      (b <~ d_bound d_i64; dret (CheckClockUnixTimestamp b))
    else dfail
  else dfail.

Definition d_check : dec Check := tag <~ d_u8; _ <~ d_const SILENT; d_check_body tag.

(** ** What a builder wrote is what the reader sees *)
Lemma reads_operator o : reads d_operator [IntegerOperator_value o] o.
Proof. intros rest. by destruct o. Qed.

(** *** LEB128 *)
Lemma land_127 z : Z.land z 127 = z mod 128.
Proof. change 127 with (Z.ones 7). by rewrite Z.land_ones. Qed.

Lemma lor_128 b : 0 <= b < 128 -> Z.lor b 128 = b + 128.
Proof.
  intros Hb. rewrite <- Z.lxor_lor, <- Z.add_nocarry_lxor; [done| |];
  (change 128 with (2 ^ 7); apply Z.bits_inj'; intros n Hn;
   rewrite Z.land_spec, Z.bits_0, Z.pow2_bits_eqb by lia;
   destruct (Z.eqb_spec 7 n) as [<-|]; [|by rewrite andb_false_r];
   rewrite andb_true_r; apply Z.bits_above_log2; [lia|];
   destruct (Z.eq_dec b 0) as [->|]; [done|apply Z.log2_lt_pow2; lia]).
Qed.

Lemma leb128_loop_reads m n v :
  0 <= v < 2 ^ Z.of_nat n -> v < 128 ^ Z.of_nat m -> (0 < n)%nat -> (0 < m)%nat ->
  Forall is_byte (leb128_loop n v) /\ reads (d_leb_loop m) (leb128_loop n v) v.
Proof.
  revert n v. induction m as [|m IH]; intros n v Hn Hm Hn0 Hm0; [lia|].
  destruct n as [|n]; [lia|]. cbn [leb128_loop d_leb_loop].
  assert (Hb : Z.land (to_int32 v) 127 = v mod 128).
  { rewrite land_127. change 128 with (2 ^ 7). by rewrite to_int32_mod. }
  rewrite Hb. pose proof (Z.mod_pos_bound v 128 ltac:(lia)) as Hr.
  pose proof (Z.div_mod v 128 ltac:(lia)) as Hd.
  rewrite Nat2Z.inj_succ, Z.pow_succ_r in Hn, Hm by lia.
  destruct (Z.ltb_spec 0 (v / 128)) as [Hq|Hq].
  - rewrite lor_128 by lia.
    assert (Hn1 : (0 < n)%nat) by (destruct n; [simpl in Hn|]; lia).
    assert (Hm1 : (0 < m)%nat) by (destruct m; [simpl in Hm|]; lia).
    destruct (IH n (v / 128)) as [F R]; [lia..|]. split.
    + constructor; [unfold is_byte; lia|done].
    + change (v mod 128 + 128 :: leb128_loop n (v / 128))
        with ([v mod 128 + 128] ++ leb128_loop n (v / 128)).
      eapply reads_bind; [apply reads_u8; unfold is_byte; lia|].
      cbv beta. destruct (Z.ltb_spec (v mod 128 + 128) 128); [lia|].
      pose proof (reads_map _ (fun r => v mod 128 + 128 - 128 + 128 * r) _ _ R) as R'.
      cbv beta in R'. replace (v mod 128 + 128 - 128 + 128 * (v / 128)) with v in R' by lia.
      exact R'.
  - assert (v / 128 = 0) by (pose proof (Z.div_pos v 128 ltac:(lia) ltac:(lia)); lia).
    split; [repeat constructor; lia|].
    change ([v mod 128]) with ([v mod 128] ++ []).
    eapply reads_bind; [apply reads_u8; unfold is_byte; lia|].
    cbv beta. destruct (Z.ltb_spec (v mod 128) 128); [|lia].
    pose proof (reads_ret (v mod 128)) as R. replace (v mod 128) with v in R at 2 by lia. exact R.
Qed.

Lemma leb128_reads v : 0 <= v < 2 ^ 64 -> Forall is_byte (leb128 v) /\ reads d_leb (leb128 v) v.
Proof.
  intros Hv. unfold leb128, d_leb. apply leb128_loop_reads; [|lia..].
  split; [lia|]. destruct (Z.eq_dec v 0) as [->|Hn]; [reflexivity|].
  pose proof (Z.log2_spec v ltac:(lia)) as [_ H].
  rewrite Nat2Z.inj_succ, Z2Nat.id by apply Z.log2_nonneg. lia.
Qed.

(** *** The builders *)
Lemma u64_spec v : u64 v = if bool_decide (is_u64 v) then Ok (le_bytes 8 v)
                           else throwRange "Lighthouse u64 out of range".
Proof.
  unfold u64, writeBigUInt64LE. case_bool_decide as H; unfold is_u64 in H;
    destruct (Z.ltb_spec v 0), (Z.ltb_spec U64_MAX v); simpl; try done; try lia.
  destruct (Z.leb_spec 0 v), (Z.leb_spec v U64_MAX); simpl; (done || lia).
Qed.

Lemma u64_ok v : is_u64 v -> u64 v = Ok (le_bytes 8 v).
Proof. intros H. rewrite u64_spec. by rewrite bool_decide_true. Qed.

Lemma i64_ok v : is_i64 v -> i64 v = Ok (le_bytes 8 v).
Proof.
  intros H. unfold is_i64 in H. unfold i64, writeBigInt64LE.
  destruct (Z.leb_spec I64_MIN v), (Z.leb_spec v I64_MAX); simpl; (done || lia).
Qed.

(** A pin the reader can see: its offset and length fit the format and it pins bytes. *)
Definition pin_ok (p : BytePin) : Prop :=
  0 <= offset p < 2 ^ 53 /\ Z.of_nat (length (pin_bytes p)) < 2 ^ 53.

#[local] Arguments le_bytes : simpl never.

Lemma d_check_intro tag bs c :
  is_byte tag -> reads (d_check_body tag) bs c -> d_check (tag :: SILENT :: bs) = Some (c, []).
Proof.
  intros Ht H.
  assert (R : reads d_check ([tag] ++ [SILENT] ++ bs) c).
  { eapply reads_bind; [by apply reads_u8|].
    eapply reads_bind; [apply reads_const; byte_lit|exact H]. }
  specialize (R []). by rewrite app_nil_r in R.
Qed.

Lemma reads_bound d b bs : reads d bs (value b) ->
  reads (d_bound d) (bs ++ [IntegerOperator_value (operator b)]) b.
Proof.
  intros H. destruct b as [o v]. unfold d_bound. eapply reads_bind; [exact H|].
  apply (reads_map _ (fun o => Bound o v)), reads_operator.
Qed.

Definition bound_bytes (b : U64Bound) : list Z :=
  le_bytes 8 (value b) ++ [IntegerOperator_value (operator b)].

Lemma reads_tagged_bound tag b : is_byte tag -> is_u64 (value b) ->
  reads (d_tagged_bound tag d_u64) (tag :: bound_bytes b) b.
Proof.
  intros Ht Hb.
  apply (reads_bind (d_const tag) (fun _ => d_bound d_u64) [tag] _ tt); [by apply reads_const|].
  by apply reads_bound, reads_u64.
Qed.

Lemma reads_pin p : pin_ok p -> reads d_pin (concat (map part_bytes (pinParts p))) p.
Proof.
  intros [Ho Hl]. destruct p as [off bs]. cbn [offset pin_bytes] in *.
  destruct (leb128_reads off ltac:(lia)) as [_ R1].
  destruct (leb128_reads (Z.of_nat (length bs)) ltac:(lia)) as [_ R2].
  cbn [pinParts map part_bytes concat]. unfold d_pin.
  eapply reads_bind; [exact R1|].
  eapply reads_bind; [apply reads_const; byte_lit|].
  eapply reads_bind; [exact R2|]. cbv beta. rewrite Nat2Z.id.
  eapply reads_bind; [apply reads_take|]. rewrite app_nil_r.
  apply (reads_map _ (fun _ => Pin off bs) [EQUAL] tt), reads_const. byte_lit.
Qed.

Lemma concat_map_concat {A B} (f : A -> list B) (l : list (list A)) :
  concat (map f (concat l)) = concat (map (fun x => concat (map f x)) l).
Proof.
  induction l as [|x l IH]; simpl; [done|]. by rewrite List.map_app, List.concat_app, IH.
Qed.

Section Readable.
Context {PK : PublicKeys}.

Lemma operator_byte o : IntegerOperator_value o mod 256 = IntegerOperator_value o.
Proof. by destruct o. Qed.

Lemma d_check_bytes target pins :
  Forall pin_ok pins -> Z.of_nat (length pins) < 2 ^ 53 ->
  d_check (data (assertAccountBytes target pins)) = Some (CheckAccountBytes pins, []).
Proof.
  intros Hp Hn. destruct (leb128_reads (Z.of_nat (length pins)) ltac:(lia)) as [_ R].
  unfold assertAccountBytes, assertion, data.
  rewrite List.map_app, List.concat_app, concat_map_concat, List.map_map.
  cbn [map part_bytes concat app]. rewrite List.app_nil_r.
  apply d_check_intro; [byte_lit|]. unfold d_check_body. cbn [Z.eqb].
  eapply reads_bind; [exact R|]. cbv beta. rewrite Nat2Z.id.
  apply (reads_map _ CheckAccountBytes).
  rewrite <- (List.map_id pins) at 3. apply reads_items.
  intros p Hin. apply reads_pin. rewrite Forall_forall in Hp. by apply Hp.
Qed.

Lemma accountU64_check target off b :
  is_u64 (value b) -> 0 <= off < 2 ^ 53 ->
  exists i, assertAccountU64 target off b = Ok i /\
            keys i = [Meta target false false] /\
            d_check (data i) = Some (CheckAccountU64 off b, []).
Proof.
  intros Hb Ho. unfold assertAccountU64. rewrite u64_ok by done. eexists.
  split_and!; [reflexivity..|]. cbn [assertion data map part_bytes concat app].
  rewrite operator_byte. apply d_check_intro; [byte_lit|]. unfold d_check_body. cbn [Z.eqb].
  destruct (leb128_reads off ltac:(lia)) as [_ R].
  eapply reads_bind; [exact R|]. apply (reads_map _ (CheckAccountU64 off)).
  apply reads_tagged_bound; [byte_lit|done].
Qed.

Lemma mintSupply_check mint b :
  is_u64 (value b) ->
  exists i, assertMintSupply mint b = Ok i /\
            keys i = [Meta mint false false] /\ d_check (data i) = Some (CheckMintSupply b, []).
Proof.
  intros Hb. unfold assertMintSupply. rewrite u64_ok by done. eexists.
  split_and!; [reflexivity..|]. cbn [assertion data map part_bytes concat app].
  rewrite operator_byte. apply d_check_intro; [byte_lit|]. unfold d_check_body. cbn [Z.eqb].
  apply (reads_map _ CheckMintSupply). apply reads_tagged_bound; [byte_lit|done].
Qed.

Lemma tokenBound_ok b : is_u64 (value b) ->
  tokenBoundParts b = Ok [Num TOKEN_AMOUNT; Buf (le_bytes 8 (value b));
                          Num (IntegerOperator_value (operator b))].
Proof. intros H. unfold tokenBoundParts. by rewrite u64_ok. Qed.

Lemma tokenBounds_bytes bounds :
  Forall (fun b => is_u64 (value b)) bounds ->
  exists parts, mapR tokenBoundParts bounds = Ok parts /\
    concat (map part_bytes (concat parts)) = concat (map (fun b => TOKEN_AMOUNT :: bound_bytes b) bounds).
Proof.
  induction 1 as [|b bounds Hb _ (parts & E & H)]; cbn [mapR]; [by exists []|].
  rewrite tokenBound_ok by done. simpl. rewrite E.
  eexists. split; [reflexivity|]. simpl. rewrite operator_byte, H.
  reflexivity.
Qed.

Lemma tokenAmount_check account bounds :
  Forall (fun b => is_u64 (value b)) bounds -> Z.of_nat (length bounds) < 2 ^ 53 ->
  exists i, assertTokenAmount account bounds = Ok i /\
            keys i = [Meta account false false] /\ d_check (data i) = Some (CheckTokenAmount bounds, []).
Proof.
  intros Hb Hn. destruct (tokenBounds_bytes bounds Hb) as (parts & E & H).
  unfold assertTokenAmount. rewrite E. eexists. split; [reflexivity|].
  destruct (Nat.eqb_spec (length bounds) 1) as [H1|H1]; (split; [done|]);
    unfold assertion, data; rewrite List.map_app, List.concat_app, H;
    cbn [map part_bytes concat app]; (apply d_check_intro; [byte_lit|]);
    unfold d_check_body; cbn [Z.eqb].
  - destruct bounds as [|b [|]]; [done| |done]. cbn [map concat]. rewrite app_nil_r.
    apply (reads_map _ (fun b => CheckTokenAmount [b])).
    apply reads_tagged_bound; [byte_lit|by apply Forall_inv in Hb].
  - destruct (leb128_reads (Z.of_nat (length bounds)) ltac:(lia)) as [_ R].
    rewrite app_nil_r. eapply reads_bind; [exact R|]. cbv beta. rewrite Nat2Z.id.
    apply (reads_map _ CheckTokenAmount). rewrite <- (List.map_id bounds) at 3.
    apply reads_items. intros b Hin. apply reads_tagged_bound; [byte_lit|].
    rewrite Forall_forall in Hb. by apply Hb.
Qed.

Lemma clockSlot_check b :
  is_u64 (value b) ->
  exists i, assertClockSlot b = Ok i /\ keys i = [] /\ d_check (data i) = Some (CheckClockSlot b, []).
Proof.
  intros Hb. unfold assertClockSlot. rewrite u64_ok by done. eexists.
  split_and!; [reflexivity..|]. cbn [assertion data map part_bytes concat app].
  rewrite operator_byte. apply d_check_intro; [byte_lit|]. unfold d_check_body. cbn [Z.eqb].
  apply (reads_bind d_u8 _ [CLOCK_SLOT] _ CLOCK_SLOT); [apply reads_u8; byte_lit|]. cbn [Z.eqb].
  apply (reads_map _ CheckClockSlot), reads_bound, reads_u64, Hb.
Qed.

Lemma clockUnixTimestamp_check b :
  is_i64 (value b) ->
  exists i, assertClockUnixTimestamp b = Ok i /\ keys i = [] /\
            d_check (data i) = Some (CheckClockUnixTimestamp b, []).
Proof.
  intros Hb. unfold assertClockUnixTimestamp. rewrite i64_ok by done. eexists.
  split_and!; [reflexivity..|]. cbn [assertion data map part_bytes concat app].
  rewrite operator_byte. apply d_check_intro; [byte_lit|]. unfold d_check_body. cbn [Z.eqb].
  apply (reads_bind d_u8 _ [CLOCK_UNIX_TIMESTAMP] _ CLOCK_UNIX_TIMESTAMP);
    [apply reads_u8; byte_lit|]. cbn [Z.eqb].
  apply (reads_map _ CheckClockUnixTimestamp), reads_bound, reads_i64, Hb.
Qed.

End Readable.
