(* ===== verification/Voltr.v ===== *)
(** The Earn MAX vault program (web/packages/smart-account-vaults/src/voltr/program.ts):
    addresses, hand-encoded instructions, and the position read from one snapshot of
    accounts, with its pricing arithmetic.

    A [bigint] quotient truncates and throws on a zero divisor. Account data are byte
    lists; a read past the end throws. [Date.now()] is an argument in milliseconds:
    for every valid time value the quotient by 1000 is rounded so finely that its
    floor and its order against integers are those of the exact quotient. *)
From S2P Require Import Prelude JsString Solana Bytes Subscriptions Lighthouse.

(** ** Arithmetic of [bigint] and reads of [Buffer] *)
Definition bigint_div (a b : Z) : result Z :=
  if b =? 0 then throwRange "Division by zero" else Ok (Z.quot a b).

Definition read_le (width : nat) (data : list Z) (offset : Z) : result Z :=
  if (offset <? 0) || (Z.of_nat (length data) <? offset + Z.of_nat width)
  then throwRange "Attempt to access memory outside buffer bounds"
  else Ok (le_value (take width (drop (Z.to_nat offset) data))).

Definition readU64 (data : list Z) (offset : Z) : result Z := read_le 8 data offset.
Definition readU16 (data : list Z) (offset : Z) : result Z := read_le 2 data offset.
Definition readU80F48 (data : list Z) (offset : Z) : result Z :=
  low ← readU64 data offset;
  high ← readU64 data (offset + 8);
  Ok (Z.shiftr (Z.lor low (Z.shiftl high 64)) 48).

(** [Number(bigint)]: the nearest double, ties to even; an integer below 2^1024. *)
Definition Number_of_bigint (z : Z) : Z :=
  let a := Z.abs z in
  if a <? 2 ^ 53 then z
  else
    let unit := 2 ^ (Z.log2 a - 52) in
    let q := a / unit in
    let r := a mod unit in
    let q' := if (unit <? 2 * r) || ((2 * r =? unit) && Z.odd q) then q + 1 else q in
    Z.sgn z * (q' * unit).

(** ** The accounts of a snapshot *)
Section Voltr.
Context {PK : PublicKeys}.

Record AccountInfo := {
  info_executable : bool;
  info_lamports : Z;
  info_owner : pubkey;
  info_data : list Z;
}.

(** [unpackAccount] and [AccountLayout.decode] of @solana/spl-token. *)
Record TokenAccount := { ta_mint : pubkey; ta_owner : pubkey; ta_amount : Z }.

Class SplAccounts := {
  ACCOUNT_SIZE : Z;
  unpackAccount : pubkey -> AccountInfo -> pubkey -> result TokenAccount;
  decodeAccountState : list Z -> result Z;
  AccountState_Initialized : Z;
}.

Context {TOKEN : SplToken PK} {ACCOUNTS : SplAccounts}.

(** ** Constants and addresses *)
Definition VOLTR_PROGRAM_ID : pubkey := key_literal "vVoLTRjQmtFpiYoegx285Ze4gsLJ8ZxgFKVcuvmG1a8".
Definition VOLTR_VAULT : pubkey := key_literal "HXtk15EA5pBg3rSKxBm8sWPExScPkTknSRp37fXNHgNA".
Definition VOLTR_ASSET_MINT : pubkey := key_literal "EPjFWdd5AufqSSqeM2qN1xzybapC8G4wEGGkZwyTDt1v".
Definition VOLTR_ASSET_DECIMALS := 6.
Definition IS_AMOUNT_IN_LP := 1.
Definition VOLTR_VAULT_SIZE := 928.
Definition VOLTR_VAULT_TOTAL_VALUE_OFFSET := 168.
Definition VOLTR_DEPOSIT_PRICING_RANGES : list (Z * Z) :=
  [(168, 176); (448, 456); (512, 528); (568, 600); (616, 640); (672, 688)].
Definition VAULT_LOCKED_PROFIT_DURATION_OFFSET := 448.
Definition VAULT_LOCKED_PROFIT_OFFSET := 672.
Definition VAULT_LAST_REPORT_OFFSET := 680.

Definition voltrPda (seeds : list (list Z)) : result pubkey :=
  findProgramAddress seeds VOLTR_PROGRAM_ID.

Definition vaultSeed : list Z := toBytes VOLTR_VAULT.

(** A module-level derivation: a failure would stop the module from loading; the
    default key stands for the value in that case. *)
Definition module_key (r : result pubkey) : pubkey :=
  match r with Ok k => k | Throw _ => defaultKey end.

Definition VOLTR_PROTOCOL := module_key (voltrPda [utf8 "protocol"]).
Definition VOLTR_IDLE_AUTH := module_key (voltrPda [utf8 "vault_asset_idle_auth"; vaultSeed]).
Definition VOLTR_LP_MINT := module_key (voltrPda [utf8 "vault_lp_mint"; vaultSeed]).
Definition VOLTR_LP_MINT_AUTH := module_key (voltrPda [utf8 "vault_lp_mint_auth"; vaultSeed]).
Definition VOLTR_IDLE_ATA :=
  module_key (getAssociatedTokenAddress VOLTR_ASSET_MINT VOLTR_IDLE_AUTH true).

Record UserAccounts := {
  assetAta : pubkey;
  escrowLpAta : pubkey;
  lpAta : pubkey;
  receipt : pubkey;
}.

Definition voltrUserAccounts (authority : pubkey) : result UserAccounts :=
  receipt ← voltrPda [utf8 "request_withdraw_vault_receipt"; vaultSeed; toBytes authority];
  asset ← getAssociatedTokenAddress VOLTR_ASSET_MINT authority true;
  escrow ← getAssociatedTokenAddress VOLTR_LP_MINT receipt true;
  lp ← getAssociatedTokenAddress VOLTR_LP_MINT authority true;
  Ok {| assetAta := asset; escrowLpAta := escrow; lpAta := lp; receipt := receipt |}.

(** ** Instructions *)
Definition voltrInstruction (discriminator args : list Z) (metas : list account_meta) : instruction :=
  Instruction VOLTR_PROGRAM_ID metas (discriminator ++ args).

Definition depositVaultInstruction (authority : pubkey) (amountRaw : Z) : result instruction :=
  user ← voltrUserAccounts authority;
  amount ← writeBigUInt64LE amountRaw;
  Ok (voltrInstruction [126; 224; 21; 255; 228; 53; 117; 33] amount
    [Meta authority true false;
     Meta VOLTR_PROTOCOL false false;
     Meta VOLTR_VAULT false true;
     Meta VOLTR_ASSET_MINT false false;
     Meta VOLTR_LP_MINT false true;
     Meta (assetAta user) false true;
     Meta VOLTR_IDLE_ATA false true;
     Meta VOLTR_IDLE_AUTH false false;
     Meta (lpAta user) false true;
     Meta VOLTR_LP_MINT_AUTH false false;
     Meta TOKEN_PROGRAM_ID false false;
     Meta TOKEN_PROGRAM_ID false false;
     Meta systemProgramId false false]).

Definition requestWithdrawVaultInstruction (amountLpRaw : Z) (authority payer : pubkey)
    (withdrawAll : bool) : result instruction :=
  user ← voltrUserAccounts authority;
  amount ← writeBigUInt64LE amountLpRaw;
  Ok (voltrInstruction [248; 225; 47; 22; 116; 144; 23; 143]
    (amount ++ [IS_AMOUNT_IN_LP; if withdrawAll then 1 else 0])
    [Meta payer true true;
     Meta authority true false;
     Meta VOLTR_PROTOCOL false false;
     Meta VOLTR_VAULT false false;
     Meta VOLTR_LP_MINT false false;
     Meta (lpAta user) false true;
     Meta (escrowLpAta user) false true;
     Meta (receipt user) false true;
     Meta TOKEN_PROGRAM_ID false false;
     Meta systemProgramId false false]).

Definition unprotectedWithdrawVaultInstruction (authority : pubkey) : result instruction :=
  user ← voltrUserAccounts authority;
  Ok (voltrInstruction [135; 7; 237; 120; 149; 94; 95; 7] []
    [Meta authority true true;
     Meta VOLTR_PROTOCOL false false;
     Meta VOLTR_VAULT false true;
     Meta VOLTR_ASSET_MINT false false;
     Meta VOLTR_LP_MINT false true;
     Meta (escrowLpAta user) false true;
     Meta VOLTR_IDLE_ATA false true;
     Meta VOLTR_IDLE_AUTH false true;
     Meta (assetAta user) false true;
     Meta (receipt user) false true;
     Meta TOKEN_PROGRAM_ID false false;
     Meta TOKEN_PROGRAM_ID false false;
     Meta systemProgramId false false]).

(** ** Fees *)
Definition BPS := 10000.
Definition SECONDS_PER_YEAR := 365 * 24 * 60 * 60.

Definition ceilDiv (a b : Z) : result Z := bigint_div (a + b - 1) b.

Definition unrealisedManagementFeeLp (totalLp totalValue lastUpdateTs feeBps nowSec : Z) : result Z :=
  let elapsed := nowSec - lastUpdateTs in
  if (lastUpdateTs =? 0) || (totalValue =? 0) || (feeBps =? 0) || (elapsed <=? 0) then Ok 0
  else
    feeAsset ← ceilDiv (totalValue * elapsed * feeBps) (BPS * SECONDS_PER_YEAR);
    if totalValue <=? feeAsset then
      throwError "Voltr accrued management fee exceeds vault value."
    else ceilDiv (feeAsset * totalLp) (totalValue - feeAsset).

(** ** Position *)
Record VoltrWithdrawal := {
  receiptBytes : list Z;
  escrowedLpRaw : Z;
  payoutRaw : Z;
  withdrawableFromTs : Z;
}.

Record VoltrPosition := {
  observedSlot : string;
  assetRaw : Z;
  assetAtaExists : bool;
  authorityLamports : Z;
  escrowLpAtaExists : bool;
  idleAssetRaw : option Z;
  issuanceFeeBps : Z;
  lpRaw : Z;
  valueRaw : Z;
  withdrawal : option VoltrWithdrawal;
  assetsToLp : Z -> result Z;
}.

Inductive VoltrClaimBlockReason := NotReady | InsufficientLiquidity | LiquidityUnavailable.

Definition voltrClaimBlockReason (position : VoltrPosition) (nowMs : Z) : option VoltrClaimBlockReason :=
  match withdrawal position with
  | None => Some NotReady
  | Some pending =>
      if nowMs <? 1000 * withdrawableFromTs pending then Some NotReady
      else match idleAssetRaw position with
           | None => Some LiquidityUnavailable
           | Some idle => if idle <? payoutRaw pending then Some InsufficientLiquidity else None
           end
  end.

(** The snapshot of the eight accounts, and its slot. *)
Record VoltrSnapshot := {
  snap_slot : Z;
  snap_vault : option AccountInfo;
  snap_lpMint : option AccountInfo;
  snap_assetAta : option AccountInfo;
  snap_lpAta : option AccountInfo;
  snap_receipt : option AccountInfo;
  snap_escrow : option AccountInfo;
  snap_authority : option AccountInfo;
  snap_idle : option AccountInfo;
}.

(** The addresses, in the order they are requested; the answer is one entry per
    address, [null] for an account that does not exist. *)
Definition voltrAccounts (authority : pubkey) (user : UserAccounts) : list pubkey :=
  [VOLTR_VAULT; VOLTR_LP_MINT; assetAta user; lpAta user; receipt user; escrowLpAta user;
   authority; VOLTR_IDLE_ATA].

Definition snapshotOf (slot : Z) (infos : list (option AccountInfo)) : VoltrSnapshot :=
  let nth i := default None (infos !! i) in
  {| snap_slot := slot;
     snap_vault := nth 0%nat;
     snap_lpMint := nth 1%nat;
     snap_assetAta := nth 2%nat;
     snap_lpAta := nth 3%nat;
     snap_receipt := nth 4%nat;
     snap_escrow := nth 5%nat;
     snap_authority := nth 6%nat;
     snap_idle := nth 7%nat |}.

Definition readIdleAsset (idle : option AccountInfo) : option Z :=
  match idle with
  | None => None
  | Some info =>
      if info_executable info || negb (Z.of_nat (length (info_data info)) =? ACCOUNT_SIZE) then None
      else
        match unpackAccount VOLTR_IDLE_ATA info TOKEN_PROGRAM_ID with
        | Throw _ => None
        | Ok account =>
            if key_equals (ta_mint account) VOLTR_ASSET_MINT
               && key_equals (ta_owner account) VOLTR_IDLE_AUTH then
              match decodeAccountState (info_data info) with
              | Throw _ => None
              | Ok state => if state =? AccountState_Initialized then Some (ta_amount account) else None
              end
            else None
        end
  end.

Definition lockedProfitAt (lockedDuration lockedAmount sinceReport : Z) : result Z :=
  if (lockedDuration =? 0) || (lockedDuration <=? sinceReport) then Ok 0
  else if sinceReport <=? 0 then Ok lockedAmount
  else bigint_div (lockedAmount * (lockedDuration - sinceReport)) lockedDuration.

(** The two prices, from the unlocked value, the total LP and the redemption keep rate. *)
Definition lpToAssets (totalLp unlockedValue redemptionKeepBps lp : Z) : result Z :=
  if totalLp =? 0 then Ok 0
  else bigint_div (lp * unlockedValue * redemptionKeepBps) (totalLp * BPS).

Definition assetsToLpAt (totalLp unlockedValue redemptionKeepBps asset : Z) : result Z :=
  if unlockedValue <=? 0 then Ok 0
  else bigint_div (asset * totalLp * BPS) (unlockedValue * redemptionKeepBps).

Definition amountAt (info : option AccountInfo) (offset : Z) : result Z :=
  match info with Some i => readU64 (info_data i) offset | None => Ok 0 end.

Definition readReceipt (price : Z -> result Z) (info : option AccountInfo) : result (option VoltrWithdrawal) :=
  match info with
  | None => Ok None
  | Some i =>
      let r := info_data i in
      escrowed ← readU64 r 72;
      atRequest ← readU80F48 r 80;
      atPresent ← price escrowed;
      from ← readU64 r 96;
      Ok (Some {| receiptBytes := r;
                  escrowedLpRaw := escrowed;
                  payoutRaw := if atPresent <? atRequest then atPresent else atRequest;
                  withdrawableFromTs := Number_of_bigint from |})
  end.

(** What the vault and the LP mint say at time [nowSec]: unlocked value, redemption
    keep rate and total LP. *)
Definition readPricing (v lpMint : list Z) (nowSec : Z) : result (Z * Z * Z) :=
  lockedDuration ← readU64 v VAULT_LOCKED_PROFIT_DURATION_OFFSET;
  lockedAmount ← readU64 v VAULT_LOCKED_PROFIT_OFFSET;
  lastReport ← readU64 v VAULT_LAST_REPORT_OFFSET;
  lockedProfit ← lockedProfitAt lockedDuration lockedAmount (nowSec - lastReport);
  totalValue ← readU64 v VOLTR_VAULT_TOTAL_VALUE_OFFSET;
  redemptionFee ← readU16 v 520;
  supply ← readU64 lpMint 36;
  lp576 ← readU64 v 576;
  lp584 ← readU64 v 584;
  lp592 ← readU64 v 592;
  lp616 ← readU64 v 616;
  let accountedLp := supply + lp576 + lp584 + lp592 + lp616 in
  lastUpdate ← readU64 v 568;
  fee516 ← readU16 v 516;
  fee518 ← readU16 v 518;
  fee526 ← readU16 v 526;
  feeLp ← unrealisedManagementFeeLp accountedLp totalValue lastUpdate (fee516 + fee518 + fee526) nowSec;
  Ok (totalValue - lockedProfit, BPS - redemptionFee, accountedLp + feeLp).

Definition positionOfSnapshot (snapshot : VoltrSnapshot) (nowMs : Z) : result VoltrPosition :=
  match snap_vault snapshot, snap_lpMint snapshot with
  | Some vault, Some lpMint =>
      let v := info_data vault in
      '(unlockedValue, redemptionKeepBps, totalLp) ← readPricing v (info_data lpMint) (nowMs / 1000);
      let price := lpToAssets totalLp unlockedValue redemptionKeepBps in
      lp ← amountAt (snap_lpAta snapshot) 64;
      pending ← readReceipt price (snap_receipt snapshot);
      asset ← amountAt (snap_assetAta snapshot) 64;
      issuanceFee ← readU16 v 522;
      value ← price lp;
      Ok {| observedSlot := bigint_toString (snap_slot snapshot);
            assetRaw := asset;
            assetAtaExists := match snap_assetAta snapshot with Some _ => true | None => false end;
            authorityLamports := default 0 (info_lamports <$> snap_authority snapshot);
            escrowLpAtaExists := match snap_escrow snapshot with Some _ => true | None => false end;
            idleAssetRaw := readIdleAsset (snap_idle snapshot);
            issuanceFeeBps := issuanceFee;
            lpRaw := lp;
            valueRaw := value;
            withdrawal := pending;
            assetsToLp := assetsToLpAt totalLp unlockedValue redemptionKeepBps |}
  | _, _ => throwError "Voltr vault is not available on this cluster."
  end.

(** [connection.getMultipleAccountsInfoAndContext], then the position. *)
Definition readVoltrPosition
    (getMultipleAccountsInfo : list pubkey -> result (Z * list (option AccountInfo)))
    (authority : pubkey) (nowMs : Z) : result VoltrPosition :=
  user ← voltrUserAccounts authority;
  '(slot, infos) ← getMultipleAccountsInfo (voltrAccounts authority user);
  positionOfSnapshot (snapshotOf slot infos) nowMs.

End Voltr.
#[global] Arguments AccountInfo {PK}.

(** ** Arithmetic lemmas *)
Lemma bigint_div_pos a b : 0 <= a -> 0 < b -> bigint_div a b = Ok (a / b).
Proof.
  intros Ha Hb. unfold bigint_div. destruct (Z.eqb_spec b 0); [lia|].
  by rewrite Z.quot_div_nonneg.
Qed.

Lemma ceilDiv_spec a b : 0 <= a -> 0 < b ->
  exists q, ceilDiv a b = Ok q /\ 0 <= q /\ a <= q * b /\ (q - 1) * b < a.
Proof.
  intros Ha Hb. unfold ceilDiv. rewrite bigint_div_pos by lia. eexists. split; [done|].
  pose proof (Z.div_mod (a + b - 1) b ltac:(lia)) as Hd.
  pose proof (Z.mod_pos_bound (a + b - 1) b Hb) as Hm.
  pose proof (Z.div_pos (a + b - 1) b ltac:(lia) Hb) as Hp.
  set (q := (a + b - 1) / b) in *. nia.
Qed.

(** The accrued management fee in assets, rounded up. *)
Definition accrued_fee (totalValue elapsed feeBps q : Z) : Prop :=
  totalValue * elapsed * feeBps <= q * (BPS * SECONDS_PER_YEAR) /\
  (q - 1) * (BPS * SECONDS_PER_YEAR) < totalValue * elapsed * feeBps.

(** The fee LP a deposit or withdrawal is priced with. While a fee accrues on a
    vault with value, let [q] be the accrued fee in assets, rounded up: if [q] reaches
    the vault's value the call throws, otherwise it returns the least number of LP
    tokens whose share of the diluted supply is worth at least [q]. *)
Theorem management_fee_dilution (totalLp totalValue lastUpdateTs feeBps nowSec : Z) :
  0 <= totalLp -> 0 < totalValue -> 0 < lastUpdateTs < nowSec -> 0 < feeBps ->
  exists q, accrued_fee totalValue (nowSec - lastUpdateTs) feeBps q /\
    (totalValue <= q ->
     unrealisedManagementFeeLp totalLp totalValue lastUpdateTs feeBps nowSec
     = throwError "Voltr accrued management fee exceeds vault value.") /\
    (q < totalValue ->
     exists fee,
       unrealisedManagementFeeLp totalLp totalValue lastUpdateTs feeBps nowSec = Ok fee /\
       0 <= fee /\
       forall lp, 0 <= lp -> (q * (totalLp + lp) <= lp * totalValue <-> fee <= lp)).
Proof.
  intros Hlp Hv Ht Hf. unfold unrealisedManagementFeeLp.
  destruct (Z.eqb_spec lastUpdateTs 0), (Z.eqb_spec totalValue 0), (Z.eqb_spec feeBps 0),
    (Z.leb_spec (nowSec - lastUpdateTs) 0); try lia. simpl orb. cbv iota.
  destruct (ceilDiv_spec (totalValue * (nowSec - lastUpdateTs) * feeBps) (BPS * SECONDS_PER_YEAR))
    as (q & -> & Hq & Hup & Hlow); [nia|done|].
  exists q. split; [done|]. simpl mbind.
  split; intros Hqv; destruct (Z.leb_spec totalValue q) as [Hc|Hc]; try lia; [done|].
  destruct (ceilDiv_spec (q * totalLp) (totalValue - q)) as (fee & -> & Hfee & Hfu & Hfl); [nia|lia|].
  exists fee. split_and!; [done..|]. intros lp Hlp'. split; intros Hl; nia.
Qed.

(** C39. The price an LP token redeems at: with a positive supply of LP, a positive
    unlocked value and a keep rate above 0 and of at most 100%, all LP together never
    redeem for more than the unlocked value, more LP never redeems for less, the LP
    escrowed for [a] redeem for at most [a], and one LP more would redeem for at least
    [a]. *)
Theorem redemption_pricing (T U K : Z) :
  0 < T -> 0 < U -> 0 < K <= BPS ->
  exists price shares : Z -> Z,
    (forall lp, 0 <= lp -> lpToAssets T U K lp = Ok (price lp)) /\
    (forall a, 0 <= a -> assetsToLpAt T U K a = Ok (shares a)) /\
    price T <= U /\
    (forall lp lp', 0 <= lp <= lp' -> 0 <= price lp <= price lp') /\
    (forall a, 0 <= a -> 0 <= shares a /\ price (shares a) <= a <= price (shares a + 1)).
Proof.
  intros HT HU HK. unfold BPS in HK.
  exists (fun lp => lp * U * K / (T * BPS)), (fun a => a * T * BPS / (U * K)).
  assert (HB : 0 < T * BPS) by (unfold BPS; lia).
  assert (HUK : 0 < U * K) by nia.
  split_and!.
  - intros lp Hl. unfold lpToAssets. destruct (Z.eqb_spec T 0); [lia|].
    apply bigint_div_pos; nia.
  - intros a Ha. unfold assetsToLpAt. destruct (Z.leb_spec U 0); [lia|].
    apply bigint_div_pos; unfold BPS; nia.
  - apply Z.div_le_upper_bound; [done|]. unfold BPS. nia.
  - intros lp lp' H. split; [apply Z.div_pos; nia|]. apply Z.div_le_mono; nia.
  - intros a Ha. set (n := a * T * BPS).
    assert (Hn : 0 <= n) by (unfold n, BPS; nia).
    pose proof (Z.div_mod n (U * K) ltac:(lia)) as Hd.
    pose proof (Z.mod_pos_bound n (U * K) HUK) as Hm.
    pose proof (Z.div_pos n (U * K) Hn HUK) as Hp. set (l := n / (U * K)) in *.
    split_and!; [done| |].
    + apply Z.div_le_upper_bound; [done|].
      replace (T * BPS * a) with n by (unfold n; ring).
      replace (l * U * K) with (U * K * l) by ring. lia.
    + apply Z.div_le_lower_bound; [done|].
      replace (T * BPS * a) with n by (unfold n; ring).
      replace ((l + 1) * U * K) with (U * K * l + U * K) by ring. lia.
Qed.

(** The profit still locked is between nothing and the reported amount, all of it
    at the report, none once the unlock period is over (or when there is none), and it
    never grows with time. *)
Theorem locked_profit_decay (duration amount t t' : Z) :
  0 <= duration -> 0 <= amount -> t <= t' ->
  exists p p',
    lockedProfitAt duration amount t = Ok p /\ lockedProfitAt duration amount t' = Ok p' /\
    0 <= p' <= p /\ p <= amount /\
    (duration <= t -> p = 0) /\ (t <= 0 < duration -> p = amount).
Proof.
  intros Hd Ha Ht.
  assert (L : forall t, lockedProfitAt duration amount t =
    Ok (if duration <=? t then 0 else if t <=? 0 then (if duration =? 0 then 0 else amount)
        else amount * (duration - t) / duration)).
  { intros u. unfold lockedProfitAt.
    destruct (Z.eqb_spec duration 0), (Z.leb_spec duration u), (Z.leb_spec u 0); simpl; try done; try lia.
    rewrite bigint_div_pos by nia. done. }
  rewrite !L. do 2 eexists. split_and!; [reflexivity..| | | | |].
  - destruct (Z.leb_spec duration t'), (Z.leb_spec t' 0), (Z.eqb_spec duration 0); try lia.
    apply Z.div_pos; nia.
  - destruct (Z.leb_spec duration t), (Z.leb_spec duration t'), (Z.leb_spec t 0), (Z.leb_spec t' 0),
      (Z.eqb_spec duration 0); try lia.
    + apply Z.div_pos; nia.
    + apply Z.div_le_upper_bound; nia.
    + apply Z.div_le_mono; nia.
  - destruct (Z.leb_spec duration t), (Z.leb_spec t 0), (Z.eqb_spec duration 0); try lia.
    apply Z.div_le_upper_bound; nia.
  - intros H. destruct (Z.leb_spec duration t); lia.
  - intros H. destruct (Z.leb_spec duration t), (Z.leb_spec t 0), (Z.eqb_spec duration 0); lia.
Qed.

(** ** The position of a well-formed snapshot *)
Lemma read_le_ok width data offset :
  Forall is_byte data -> 0 <= offset -> offset + Z.of_nat width <= Z.of_nat (length data) ->
  exists v, read_le width data offset = Ok v /\ 0 <= v < 256 ^ Z.of_nat width.
Proof.
  intros Hb Ho Hl. unfold read_le.
  destruct (Z.ltb_spec offset 0), (Z.ltb_spec (Z.of_nat (length data)) (offset + Z.of_nat width));
    try lia. simpl. eexists. split; [reflexivity|].
  assert (Hlen : length (take width (drop (Z.to_nat offset) data)) = width).
  { rewrite length_take, length_drop. lia. }
  pose proof (le_value_bound (take width (drop (Z.to_nat offset) data))) as Hbound.
  rewrite Hlen in Hbound. by apply Hbound, Forall_take, Forall_drop.
Qed.

Lemma readU64_ok data offset :
  Forall is_byte data -> 0 <= offset -> offset + 8 <= Z.of_nat (length data) ->
  exists v, readU64 data offset = Ok v /\ 0 <= v.
Proof.
  intros Hb Ho Hl. destruct (read_le_ok 8 data offset) as (v & E & Hv); [done..|].
  exists v. split; [done|lia].
Qed.

Lemma readU16_ok data offset :
  Forall is_byte data -> 0 <= offset -> offset + 2 <= Z.of_nat (length data) ->
  exists v, readU16 data offset = Ok v /\ 0 <= v.
Proof.
  intros Hb Ho Hl. destruct (read_le_ok 2 data offset) as (v & E & Hv); [done..|].
  exists v. split; [done|lia].
Qed.

Lemma fee_total lp value last bps now :
  0 <= lp -> 0 <= value -> 0 <= last -> 0 <= bps ->
  (exists fee, unrealisedManagementFeeLp lp value last bps now = Ok fee /\ 0 <= fee) \/
  unrealisedManagementFeeLp lp value last bps now
  = throwError "Voltr accrued management fee exceeds vault value.".
Proof.
  intros Hlp Hv Hl Hb. unfold unrealisedManagementFeeLp.
  destruct (Z.eqb_spec last 0), (Z.eqb_spec value 0), (Z.eqb_spec bps 0), (Z.leb_spec (now - last) 0);
    simpl orb; cbv iota; try (left; by exists 0).
  destruct (ceilDiv_spec (value * (now - last) * bps) (BPS * SECONDS_PER_YEAR))
    as (q & -> & Hq & _ & _); [nia|done|]. simpl mbind.
  destruct (Z.leb_spec value q); [by right|left].
  destruct (ceilDiv_spec (q * lp) (value - q)) as (fee & -> & Hfee & _ & _); [nia|lia|].
  by exists fee.
Qed.

(** Rewrite with a read that is in bounds, and keep that the value is not negative. *)
Ltac read_step :=
  match goal with
  | |- context [mbind _ (readU64 ?d ?o)] =>
      let v := fresh "r" in let E := fresh "E" in let H := fresh "Hr" in
      destruct (readU64_ok d o) as (v & E & H); [done|done|lia|]; rewrite E; cbn [mbind result_bind]
  | |- context [mbind _ (readU16 ?d ?o)] =>
      let v := fresh "r" in let E := fresh "E" in let H := fresh "Hr" in
      destruct (readU16_ok d o) as (v & E & H); [done|done|lia|]; rewrite E; cbn [mbind result_bind]
  end.

Lemma pricing_total v mint now :
  Forall is_byte v -> 688 <= Z.of_nat (length v) ->
  Forall is_byte mint -> 44 <= Z.of_nat (length mint) ->
  (exists U K T, readPricing v mint now = Ok (U, K, T) /\ K <= BPS /\ 0 <= T) \/
  readPricing v mint now = throwError "Voltr accrued management fee exceeds vault value.".
Proof.
  intros Hv Lv Hm Lm. unfold readPricing.
  unfold VAULT_LOCKED_PROFIT_DURATION_OFFSET, VAULT_LOCKED_PROFIT_OFFSET, VAULT_LAST_REPORT_OFFSET,
    VOLTR_VAULT_TOTAL_VALUE_OFFSET.
  do 3 read_step.
  destruct (lockedProfitAt r r0 (now - r1)) as [p|e] eqn:EP; cbn [mbind result_bind].
  2:{ unfold lockedProfitAt, bigint_div in EP.
      destruct (Z.eqb_spec r 0); simpl in EP; [done|].
      destruct (r <=? now - r1); [done|]. by destruct (now - r1 <=? 0). }
  do 7 read_step. do 4 read_step.
  match goal with |- context [unrealisedManagementFeeLp ?a ?b ?c ?d ?e] =>
    destruct (fee_total a b c d e) as [(fee & -> & Hfee)| ->]; [lia..| |] end;
    cbn [mbind result_bind]; [left|by right].
  do 3 eexists. split; [reflexivity|]. unfold BPS. lia.
Qed.

Section Position.
Context {PK : PublicKeys} {TOKEN : SplToken PK} {ACCOUNTS : SplAccounts}.

Definition data_at_least (n : Z) (o : option AccountInfo) : Prop :=
  match o with Some i => Forall is_byte (info_data i) /\ n <= Z.of_nat (length (info_data i)) | None => True end.

(** Accounts as their programs lay them out: the vault, an SPL mint, SPL token
    accounts and a withdrawal receipt. *)
Definition well_formed (s : VoltrSnapshot) : Prop :=
  data_at_least 688 (snap_vault s) /\ data_at_least 44 (snap_lpMint s) /\
  data_at_least 72 (snap_assetAta s) /\ data_at_least 72 (snap_lpAta s) /\
  data_at_least 104 (snap_receipt s).

Lemma price_total T U K lp : 0 <= T -> exists a, lpToAssets T U K lp = Ok a.
Proof.
  intros HT. unfold lpToAssets, bigint_div, BPS. destruct (Z.eqb_spec T 0); [by eexists|].
  destruct (Z.eqb_spec (T * 10000) 0); [lia|]. by eexists.
Qed.

Lemma amountAt_total o : data_at_least 72 o -> exists a, amountAt o 64 = Ok a /\ 0 <= a.
Proof.
  destruct o as [i|]; simpl; [|by exists 0]. intros [Hb Hl]. apply readU64_ok; [done|lia|lia].
Qed.

(** A receipt's payout is the smaller of the quote at request time and the present
    price of the escrowed LP. *)
Lemma receipt_total T U K o :
  0 <= T -> data_at_least 104 o ->
  exists w, readReceipt (lpToAssets T U K) o = Ok w /\
    match o, w with
    | None, None => True
    | Some i, Some w =>
        receiptBytes w = info_data i /\ readU64 (info_data i) 72 = Ok (escrowedLpRaw w) /\
        exists quote present,
          readU80F48 (info_data i) 80 = Ok quote /\
          lpToAssets T U K (escrowedLpRaw w) = Ok present /\
          payoutRaw w = Z.min quote present
    | _, _ => False
    end.
Proof.
  intros HT. destruct o as [i|]; simpl; [|by exists None]. intros [Hb Hl].
  read_step.
  assert (exists q, readU80F48 (info_data i) 80 = Ok q) as [q Eq].
  { unfold readU80F48. do 2 read_step. by eexists. }
  rewrite Eq. cbn [mbind result_bind].
  destruct (price_total T U K r HT) as [present Ep]. rewrite Ep. cbn [mbind result_bind].
  read_step. eexists. split; [reflexivity|]. simpl. split_and!; [done..|].
  exists q, present. split_and!; [done..|]. destruct (Z.ltb_spec present q); lia.
Qed.

(** Reading a position from a well-formed snapshot never fails with a decoding or
    arithmetic error: without the vault or its LP mint it throws that the vault is not
    available, an accrued fee above the vault's value is reported as such, and
    otherwise there is a position, whose free LP is valued and whose pending payout is
    the smaller of the request-time quote and the present price, at one and the same
    price. *)
Theorem position_of_snapshot (s : VoltrSnapshot) (nowMs : Z) :
  well_formed s ->
  match snap_vault s, snap_lpMint s with
  | Some vault, Some lpMint =>
      positionOfSnapshot s nowMs = throwError "Voltr accrued management fee exceeds vault value." \/
      exists U K T position,
        readPricing (info_data vault) (info_data lpMint) (nowMs / 1000) = Ok (U, K, T) /\
        positionOfSnapshot s nowMs = Ok position /\
        lpToAssets T U K (lpRaw position) = Ok (valueRaw position) /\
        match snap_receipt s, withdrawal position with
        | None, None => True
        | Some i, Some w =>
            exists quote present,
              readU80F48 (info_data i) 80 = Ok quote /\
              lpToAssets T U K (escrowedLpRaw w) = Ok present /\
              payoutRaw w = Z.min quote present
        | _, _ => False
        end
  | _, _ => positionOfSnapshot s nowMs = throwError "Voltr vault is not available on this cluster."
  end.
Proof.
  intros (Wv & Wm & Wa & Wl & Wr). unfold positionOfSnapshot.
  destruct (snap_vault s) as [vault|]; [|done]. destruct (snap_lpMint s) as [mint|]; [|done].
  destruct Wv as [Bv Lv], Wm as [Bm Lm].
  destruct (pricing_total (info_data vault) (info_data mint) (nowMs / 1000))
    as [(U & K & T & Ep & HK & HT)|Ep]; [done..| |]; rewrite Ep; [right|by left].
  exists U, K, T. cbn [mbind result_bind].
  destruct (amountAt_total _ Wl) as (lp & El & Hlp). rewrite El. cbn [mbind result_bind].
  destruct (receipt_total T U K _ HT Wr) as (w & Ew & Hw). rewrite Ew. cbn [mbind result_bind].
  destruct (amountAt_total _ Wa) as (asset & Ea & Ha). rewrite Ea. cbn [mbind result_bind].
  read_step. destruct (price_total T U K lp HT) as [value Ev]. rewrite Ev. cbn [mbind result_bind].
  eexists. split_and!; [reflexivity..|done|]. simpl.
  destruct (snap_receipt s) as [i|], w as [w|]; try done.
  destruct Hw as (_ & _ & quote & present & H1 & H2 & H3). eauto.
Qed.

(** A claim is let through exactly when a withdrawal is pending, its cooldown is
    over, and the validated idle balance covers its whole payout. *)
Theorem claim_block_reason (position : VoltrPosition) (nowMs : Z) :
  voltrClaimBlockReason position nowMs = None <->
  exists pending idle,
    withdrawal position = Some pending /\ 1000 * withdrawableFromTs pending <= nowMs /\
    idleAssetRaw position = Some idle /\ payoutRaw pending <= idle.
Proof.
  unfold voltrClaimBlockReason. destruct (withdrawal position) as [w|].
  2:{ split; [done|]. intros (? & ? & [=] & _). }
  destruct (Z.ltb_spec nowMs (1000 * withdrawableFromTs w)) as [H|H].
  { split; [done|]. intros (? & ? & [= <-] & H1 & _). lia. }
  destruct (idleAssetRaw position) as [idle|].
  2:{ split; [done|]. intros (? & ? & _ & _ & [=] & _). }
  destruct (Z.ltb_spec idle (payoutRaw w)) as [Hi|Hi]; split; try done.
  - intros (? & ? & [= <-] & _ & [= <-] & Hle). lia.
  - intros _. eauto 10.
Qed.

End Position.

Module VoltrWitness.
Import DemoKeys.

(** Token accounts that decode as initialized accounts of the vault's idle authority. *)
#[global] Instance accounts : SplAccounts (PK := demo_keys) := {|
  ACCOUNT_SIZE := 165;
  unpackAccount _ info _ :=
    amount ← readU64 (info_data info) 64;
    Ok {| ta_mint := VOLTR_ASSET_MINT; ta_owner := VOLTR_IDLE_AUTH; ta_amount := amount |};
  decodeAccountState _ := Ok 1;
  AccountState_Initialized := 1;
|}.

Definition info (bytes : list Z) : AccountInfo (PK := demo_keys) :=
  {| info_executable := false; info_lamports := 2000; info_owner := key_of 1; info_data := bytes |}.

(** Total value 3000, no locked profit, 1000 LP, no fees. *)
Definition vault_data : list Z := replicate 168 0 ++ le_bytes 8 3000 ++ replicate 752 0.
Definition mint_data : list Z := replicate 36 0 ++ le_bytes 8 1000 ++ replicate 38 0.
Definition token_data (amount : Z) : list Z := replicate 64 0 ++ le_bytes 8 amount ++ replicate 93 0.
(** 100 LP in escrow, quoted at 250 when requested, claimable from time 5. *)
Definition receipt_data : list Z :=
  replicate 72 0 ++ le_bytes 8 100 ++ le_bytes 16 (250 * 2 ^ 48) ++ le_bytes 8 5 ++ replicate 8 0.

Definition accounts_with (receipt : option (AccountInfo (PK := demo_keys))) :
    list (option (AccountInfo (PK := demo_keys))) :=
  [Some (info vault_data); Some (info mint_data); Some (info (token_data 7)); Some (info (token_data 40));
   receipt; None; Some (info []); Some (info (token_data 900))].

Definition snapshot := snapshotOf 12 (accounts_with (Some (info receipt_data))).

Lemma snapshot_well_formed : well_formed snapshot.
Proof.
  assert (H : forall l, forallb (fun b => (0 <=? b) && (b <? 256)) l = true -> Forall is_byte l).
  { intros l Hl. apply Forall_forall. intros b Hb. rewrite forallb_forall in Hl.
    apply is_byte_lit, Hl, list_elem_of_In, Hb. }
  unfold well_formed; simpl; split_and!; try done; apply H; vm_compute; reflexivity.
Qed.

Lemma management_fee_dilution_witness :
  exists q, accrued_fee 1000000 1000 100 q.
Proof.
  destruct (management_fee_dilution 1000 1000000 500 100 1500) as (q & Hq & _); [lia..|].
  by exists q.
Defined.

Lemma redemption_pricing_witness :
  exists price shares : Z -> Z, price 1000 <= 3000 /\ price (shares 10) <= 10 <= price (shares 10 + 1).
Proof.
  destruct (redemption_pricing 1000 3000 9900) as (price & shares & _ & _ & H1 & _ & H2);
    [lia|lia|unfold BPS; lia|].
  exists price, shares. split; [done|]. apply (H2 10). lia.
Defined.

Lemma locked_profit_decay_witness :
  exists p p', lockedProfitAt 100 50 10 = Ok p /\ lockedProfitAt 100 50 20 = Ok p' /\ 0 <= p' <= p.
Proof.
  destruct (locked_profit_decay 100 50 10 20) as (p & p' & H1 & H2 & H3 & _); [lia..|].
  by exists p, p'.
Defined.

Lemma position_of_snapshot_witness :
  positionOfSnapshot snapshot 9000 = throwError "Voltr accrued management fee exceeds vault value." \/
  exists position, positionOfSnapshot snapshot 9000 = Ok position.
Proof.
  destruct (position_of_snapshot snapshot 9000 snapshot_well_formed) as [H|(U & K & T & p & _ & H & _)].
  - by left.
  - right. by exists p.
Defined.

Example pending_payout :
  match positionOfSnapshot snapshot 9000 with
  | Ok p => (valueRaw p, payoutRaw <$> withdrawal p, idleAssetRaw p, voltrClaimBlockReason p 9000)
            = (120, Some 250, Some 900, None)
  | Throw _ => False
  end.
Proof. vm_compute. reflexivity. Qed.

End VoltrWitness.
