(* ===== verification/Json.v ===== *)
(** Values of type [unknown] as the code inspects them: the result of [JSON.parse]
    (or [undefined]), property access, [typeof] tests and the [in] operator on a
    plain object. *)
From S2P Require Import Prelude JsString.

(** A number is an integer or something else: a fraction, an infinity or NaN. *)
Inductive json_number := JInt (z : Z) | JOther.

Inductive json :=
| JUndefined
| JNull
| JBool (b : bool)
| JNumber (n : json_number)
| JString (s : string)
| JArray (l : list json)
| JObject (fields : list (string * json)).

(** [value.key], for a value that is an object; every other value the code reads a
    property of has none of the names it reads. *)
Fixpoint field (key : string) (fields : list (string * json)) : json :=
  match fields with
  | [] => JUndefined
  | (k, v) :: fields => if String.eqb k key then v else field key fields
  end.

Definition get (key : string) (value : json) : json :=
  match value with JObject fields => field key fields | _ => JUndefined end.

(** [typeof value === "object" && value !== null] *)
Definition is_object (value : json) : bool :=
  match value with JArray _ | JObject _ => true | _ => false end.

(** The names every plain object inherits: [key in object] holds for them too. *)
Definition object_prototype_keys : list string :=
  ["constructor"; "__defineGetter__"; "__defineSetter__"; "hasOwnProperty"; "__lookupGetter__";
   "__lookupSetter__"; "isPrototypeOf"; "propertyIsEnumerable"; "toString"; "valueOf";
   "__proto__"; "toLocaleString"].

(** [key in object] for an object literal with the given own keys *)
Definition in_object (key : string) (own : list string) : bool :=
  existsb (String.eqb key) (own ++ object_prototype_keys).
