(* ===== verification/DepositQuote.v ===== *)
(** The certified deposit quote of Earn MAX
    (web/packages/smart-account-vaults/src/voltr/deposit-quote.ts): parsing the body the
    server answers with, and the request itself. *)
From S2P Require Import Prelude JsString Solana Bytes Lighthouse Voltr Json.

Definition EARN_MAX_DEPOSIT_QUOTE_PATH := "/api/smart-accounts/earn-max/deposit-quote"%string.

(** The error class carries its code. *)
Definition EarnMaxDepositQuoteError {A} (code : string) : result A :=
  Throw (Exn "EarnMaxDepositQuoteError" code).

Definition HELD_REASONS : list string :=
  ["release_control_held"; "owner_not_admitted"; "amount_over_canary_limit"; "nav_uncertified";
   "deposit_waiting_nav_publication"].

Section Quote.
Context {PK : PublicKeys}.

Record EarnMaxDepositQuote := {
  q_amountRaw : Z;
  q_authority : pubkey;
  q_certificateId : string;
  q_certifiedSlot : Z;
  q_expiresAt : Z;
  q_lpAta : pubkey;
  q_lpBaselineRaw : Z;
  q_lpMaxRaw : Z;
  q_lpMinRaw : Z;
  q_lpMint : pubkey;
  q_lpSupplyRaw : Z;
  q_notAfterSlot : Z;
  q_supplyMaxRaw : Z;
  q_vault : pubkey;
  q_vaultPins : list BytePin;
}.

(** /^(0|[1-9][0-9]{0,19})$/ *)
Definition u64_pattern (s : string) : bool :=
  match chars s with
  | ["0"%char] => true
  | c :: l => is_digit c && negb (Ascii.eqb c "0") && forallb is_digit l && (length l <=? 19)%nat
  | [] => false
  end.

Definition quote_u64 (value : json) : result Z :=
  match value with
  | JString s =>
      if u64_pattern s then
        parsed ← BigInt_of_string s;
        if U64_MAX <? parsed then EarnMaxDepositQuoteError "invalid_quote" else Ok parsed
      else EarnMaxDepositQuoteError "invalid_quote"
  | _ => EarnMaxDepositQuoteError "invalid_quote"
  end.

Definition quote_key (value : json) : result pubkey :=
  match value with
  | JString s => try_catch (newPublicKey s) (fun _ => EarnMaxDepositQuoteError "invalid_quote")
  | _ => EarnMaxDepositQuoteError "invalid_quote"
  end.

(** /^([0-9a-f]{2})+$/ and [Buffer.from(hex, "hex")] in one pass: the bytes of a
    non-empty lower-case hexadecimal text. *)
Definition lower_hex (c : ascii) : option Z :=
  let v := char_code c in
  if (48 <=? v) && (v <=? 57) then Some (v - 48)
  else if (97 <=? v) && (v <=? 102) then Some (v - 87)
  else None.

Fixpoint hex_pairs (l : list ascii) : option (list Z) :=
  match l with
  | [] => Some []
  | [_] => None
  | a :: b :: l =>
      match lower_hex a, lower_hex b, hex_pairs l with
      | Some x, Some y, Some bs => Some (16 * x + y :: bs)
      | _, _, _ => None
      end
  end.

Definition hex_bytes (s : string) : option (list Z) :=
  match chars s with [] => None | l => hex_pairs l end.

(** One element of [pins], with the end of the previous one. *)
Definition parsePin (last : Z) (pin : json) : result BytePin :=
  match get "offset" pin, get "hex" pin with
  | JNumber (JInt off), JString hex =>
      match hex_bytes hex with
      | Some bytes =>
          if negb (isSafeInteger off) || (off <? last)
             || (VOLTR_VAULT_SIZE <? off + Z.of_nat (length bytes))
          then EarnMaxDepositQuoteError "invalid_quote"
          else Ok (Pin off bytes)
      | None => EarnMaxDepositQuoteError "invalid_quote"
      end
  | _, _ => EarnMaxDepositQuoteError "invalid_quote"
  end.

Fixpoint parsePins (last : Z) (l : list json) : result (list BytePin) :=
  match l with
  | [] => Ok []
  | pin :: l =>
      p ← parsePin last pin;
      ps ← parsePins (offset p + Z.of_nat (length (pin_bytes p))) l;
      Ok (p :: ps)
  end.

Definition pins (value : json) : result (list BytePin) :=
  match value with
  | JArray (pin :: l) => parsePins 0 (pin :: l)
  | _ => EarnMaxDepositQuoteError "invalid_quote"
  end.

Definition parseEarnMaxDepositQuote (body : json) : result EarnMaxDepositQuote :=
  if negb (is_object body) then EarnMaxDepositQuoteError "invalid_quote"
  else
    match get "certificateId" body with
    | JString certificateId =>
        if String.eqb certificateId "" then EarnMaxDepositQuoteError "invalid_quote"
        else
          amountRaw ← quote_u64 (get "amountRaw" body);
          authority ← quote_key (get "authority" body);
          certifiedSlot ← quote_u64 (get "certifiedSlot" body);
          expiresAt ← quote_u64 (get "expiresAt" body);
          lpAta ← quote_key (get "lpAta" body);
          lpBaselineRaw ← quote_u64 (get "lpBaselineRaw" body);
          lpMaxRaw ← quote_u64 (get "lpMaxRaw" body);
          lpMinRaw ← quote_u64 (get "lpMinRaw" body);
          lpMint ← quote_key (get "lpMint" body);
          lpSupplyRaw ← quote_u64 (get "lpSupplyRaw" body);
          notAfterSlot ← quote_u64 (get "notAfterSlot" body);
          supplyMaxRaw ← quote_u64 (get "supplyMaxRaw" body);
          vault ← quote_key (get "vault" body);
          vaultPins ← pins (get "vaultPins" body);
          Ok {| q_amountRaw := amountRaw;
                q_authority := authority;
                q_certificateId := certificateId;
                q_certifiedSlot := certifiedSlot;
                q_expiresAt := expiresAt;
                q_lpAta := lpAta;
                q_lpBaselineRaw := lpBaselineRaw;
                q_lpMaxRaw := lpMaxRaw;
                q_lpMinRaw := lpMinRaw;
                q_lpMint := lpMint;
                q_lpSupplyRaw := lpSupplyRaw;
                q_notAfterSlot := notAfterSlot;
                q_supplyMaxRaw := supplyMaxRaw;
                q_vault := vault;
                q_vaultPins := vaultPins |}
    | _ => EarnMaxDepositQuoteError "invalid_quote"
    end.

(** The answer of the server; [resp_json] is [None] when the body is not JSON. *)
Record Response := { resp_status : Z; resp_json : option json }.
Definition resp_ok (r : Response) : bool := (200 <=? resp_status r) && (resp_status r <=? 299).

(** [request] is the client's transport; the posted body is the JSON text of
    [{ amountRaw }]. *)
Definition quoted (s : string) : list ascii := ["034"%char] ++ chars s ++ ["034"%char].
Definition quote_request_body (amountRaw : Z) : string :=
  unchars (chars "{" ++ quoted "amountRaw" ++ chars ":" ++ quoted (bigint_toString amountRaw) ++ chars "}").

Definition fetchEarnMaxDepositQuote (request : string -> string -> result Response)
    (amountRaw : Z) : result EarnMaxDepositQuote :=
  response ← request EARN_MAX_DEPOSIT_QUOTE_PATH (quote_request_body amountRaw);
  if resp_status response =? 409 then
    match get "reason" (default JNull (resp_json response)) with
    | JString reason =>
        EarnMaxDepositQuoteError
          (if in_object reason HELD_REASONS then reason else "deposit_unavailable")
    | _ => EarnMaxDepositQuoteError "deposit_unavailable"
    end
  else if negb (resp_ok response) then EarnMaxDepositQuoteError "deposit_unavailable"
  else
    quote ← parseEarnMaxDepositQuote (default JNull (resp_json response));
    if q_amountRaw quote =? amountRaw then Ok quote
    else EarnMaxDepositQuoteError "invalid_quote".

(** ** Which quotes a body can carry *)

(** Pins in order, not overlapping, each of at least one byte, inside the vault account. *)
Fixpoint pins_ordered (last : Z) (ps : list BytePin) : Prop :=
  match ps with
  | [] => True
  | p :: ps =>
      last <= offset p /\ pin_bytes p <> [] /\ Forall is_byte (pin_bytes p) /\
      offset p + Z.of_nat (length (pin_bytes p)) <= VOLTR_VAULT_SIZE /\
      pins_ordered (offset p + Z.of_nat (length (pin_bytes p))) ps
  end.

Definition valid_quote (q : EarnMaxDepositQuote) : Prop :=
  Forall is_u64 [q_amountRaw q; q_certifiedSlot q; q_expiresAt q; q_lpBaselineRaw q; q_lpMaxRaw q;
                 q_lpMinRaw q; q_lpSupplyRaw q; q_notAfterSlot q; q_supplyMaxRaw q] /\
  q_certificateId q <> EmptyString /\
  q_vaultPins q <> [] /\ pins_ordered 0 (q_vaultPins q).

(** The body that carries a quote. *)
Definition hex_char (v : Z) : ascii := ascii_of_N (Z.to_N (if v <? 10 then v + 48 else v + 87)).
Definition hex_text (bs : list Z) : string :=
  unchars (concat (map (fun b => [hex_char (b / 16); hex_char (b mod 16)]) bs)).
Definition render_u64 (z : Z) : json := JString (bigint_toString z).
Definition render_key (k : pubkey) : json := JString (toBase58 k).
Definition render_pin (p : BytePin) : json :=
  JObject [("offset"%string, JNumber (JInt (offset p))); ("hex"%string, JString (hex_text (pin_bytes p)))].
Definition render_quote (q : EarnMaxDepositQuote) : json := JObject [
  ("amountRaw"%string, render_u64 (q_amountRaw q));
  ("authority"%string, render_key (q_authority q));
  ("certificateId"%string, JString (q_certificateId q));
  ("certifiedSlot"%string, render_u64 (q_certifiedSlot q));
  ("expiresAt"%string, render_u64 (q_expiresAt q));
  ("lpAta"%string, render_key (q_lpAta q));
  ("lpBaselineRaw"%string, render_u64 (q_lpBaselineRaw q));
  ("lpMaxRaw"%string, render_u64 (q_lpMaxRaw q));
  ("lpMinRaw"%string, render_u64 (q_lpMinRaw q));
  ("lpMint"%string, render_key (q_lpMint q));
  ("lpSupplyRaw"%string, render_u64 (q_lpSupplyRaw q));
  ("notAfterSlot"%string, render_u64 (q_notAfterSlot q));
  ("supplyMaxRaw"%string, render_u64 (q_supplyMaxRaw q));
  ("vault"%string, render_key (q_vault q));
  ("vaultPins"%string, JArray (map render_pin (q_vaultPins q)))].

Lemma lower_hex_range c v : lower_hex c = Some v -> 0 <= v < 16.
Proof.
  unfold lower_hex. intros H.
  destruct (Z.leb_spec 48 (char_code c)), (Z.leb_spec (char_code c) 57); simpl in H;
    try (injection H as <-; lia);
    destruct (Z.leb_spec 97 (char_code c)), (Z.leb_spec (char_code c) 102); simpl in H;
    try (injection H as <-; lia); discriminate.
Qed.

Lemma hex_pairs_bytes n l bs : (length l <= n)%nat -> hex_pairs l = Some bs -> Forall is_byte bs.
Proof.
  revert l bs. induction n as [|n IH]; intros [|a [|b l]] bs Hn H; simpl in *;
    try (injection H as <-; constructor); try discriminate; try lia.
  destruct (lower_hex a) as [x|] eqn:Ea; [|discriminate].
  destruct (lower_hex b) as [y|] eqn:Eb; [|discriminate].
  destruct (hex_pairs l) as [bs'|] eqn:El; [|discriminate].
  injection H as <-. apply lower_hex_range in Ea, Eb.
  constructor; [unfold is_byte; lia|]. apply (IH l); [lia|done].
Qed.

Lemma hex_bytes_ok s bs : hex_bytes s = Some bs -> Forall is_byte bs /\ bs <> [].
Proof.
  unfold hex_bytes. destruct (chars s) as [|c l] eqn:E; [discriminate|]. intros H. split.
  - by apply (hex_pairs_bytes (length (c :: l)) (c :: l)).
  - destruct l as [|b l]; [discriminate|]. simpl in H.
    destruct (lower_hex c), (lower_hex b), (hex_pairs l); congruence.
Qed.

Lemma parsePin_ok last j p :
  parsePin last j = Ok p ->
  last <= offset p /\ pin_bytes p <> [] /\ Forall is_byte (pin_bytes p) /\
  offset p + Z.of_nat (length (pin_bytes p)) <= VOLTR_VAULT_SIZE.
Proof.
  unfold parsePin. destruct (get "offset" j) as [| | |[off|]| | |]; try done.
  destruct (get "hex" j) as [| | | |hex| |]; try done.
  destruct (hex_bytes hex) as [bs|] eqn:Eb; [|done]. apply hex_bytes_ok in Eb as [Hb Hne].
  destruct (isSafeInteger off); simpl; [|done].
  destruct (Z.ltb_spec off last); simpl; [done|].
  destruct (Z.ltb_spec VOLTR_VAULT_SIZE (off + Z.of_nat (length bs))); [done|].
  intros [= <-]. done.
Qed.

Lemma parsePins_ordered l : forall last ps, parsePins last l = Ok ps -> pins_ordered last ps /\ length ps = length l.
Proof.
  induction l as [|j l IH]; intros last ps H; simpl in H; inv_results; subst; [done|].
  apply parsePin_ok in E as (P1 & P2 & P3 & P4). apply IH in E0 as [H1 H2]. simpl.
  split; [by split_and!|by rewrite H2].
Qed.

Lemma quote_u64_range j v : quote_u64 j = Ok v -> is_u64 v.
Proof.
  unfold quote_u64. destruct j as [| | | |s| |]; try done.
  destruct (u64_pattern s) eqn:Ep; [|done].
  assert (Hd : all_digits (chars s) = true).
  { unfold u64_pattern in Ep. destruct (chars s) as [|c l]; [done|]. unfold all_digits.
    destruct (Ascii.eqb_spec c "0") as [->|Hc].
    - destruct l; [done|]. discriminate.
    - assert (is_digit c && negb false && forallb is_digit l && (length l <=? 19)%nat = true) as Ep'.
      { destruct c as [[] [] [] [] [] [] [] []], l; try done. }
      simpl. destruct (is_digit c), (forallb is_digit l); done. }
  rewrite (BigInt_of_digits _ Hd). simpl.
  destruct (Z.ltb_spec U64_MAX (dec_value (chars s))); [done|]. intros [= <-].
  split; [|done]. apply dec_value_nonneg. by apply all_digits_forallb.
Qed.

Lemma quote_u64_render z : is_u64 z -> quote_u64 (render_u64 z) = Ok z.
Proof.
  intros [H0 Hm]. simpl. unfold u64_pattern.
  destruct (Z.eq_dec z 0) as [->|Hz]; [done|].
  destruct (bigint_toString_leading z ltac:(lia)) as (c & l & E & Hc & Hnz & Hl).
  destruct (bigint_toString_nonneg z H0) as [_ Hv].
  pose proof (dec_value_lower c l Hc Hnz Hl) as Hlow. rewrite <- E, Hv in Hlow.
  assert (Hlen : (length l <= 19)%nat).
  { destruct (Nat.le_gt_cases (length l) 19) as [|Hgt]; [done|exfalso].
    pose proof (Z.pow_le_mono_r 10 20 (Z.of_nat (length l)) ltac:(lia) ltac:(lia)) as Hp.
    assert (U64_MAX < 10 ^ 20) by reflexivity. lia. }
  rewrite E. apply Nat.leb_le in Hlen.
  assert (Hpat : is_digit c && negb (Ascii.eqb c "0") && forallb is_digit l && (length l <=? 19)%nat = true)
    by (rewrite Hc, Hnz, Hl, Hlen; done).
  rewrite BigInt_toString_roundtrip. cbn [mbind result_bind].
  destruct (Z.ltb_spec U64_MAX z); [lia|].
  destruct c as [[] [] [] [] [] [] [] []], l; rewrite ?Hpat; try done.
Qed.

Lemma lower_hex_char v : 0 <= v < 16 -> lower_hex (hex_char v) = Some v.
Proof.
  intros H.
  assert (Hall : forallb (fun n => bool_decide (lower_hex (hex_char (Z.of_nat n)) = Some (Z.of_nat n)))
                   (seq 0 16) = true) by (vm_compute; reflexivity).
  rewrite forallb_forall in Hall. specialize (Hall (Z.to_nat v)).
  rewrite in_seq in Hall. specialize (Hall ltac:(lia)).
  apply bool_decide_eq_true in Hall. by rewrite Z2Nat.id in Hall by lia.
Qed.

Lemma hex_bytes_text bs : Forall is_byte bs -> bs <> [] -> hex_bytes (hex_text bs) = Some bs.
Proof.
  intros Hb Hne. unfold hex_bytes, hex_text. rewrite chars_unchars.
  assert (H : hex_pairs (concat (map (fun b => [hex_char (b / 16); hex_char (b mod 16)]) bs)) = Some bs).
  { clear Hne. induction Hb as [|b bs Hb _ IH]; [done|]. cbn [map concat app hex_pairs].
    unfold is_byte in Hb. pose proof (Z.div_mod b 16 ltac:(lia)) as Hd.
    pose proof (Z.mod_pos_bound b 16 ltac:(lia)).
    rewrite lower_hex_char by (split; [apply Z.div_pos|apply Z.div_lt_upper_bound]; lia).
    rewrite lower_hex_char, IH, <- Hd by done. done. }
  by destruct bs.
Qed.

Lemma parsePins_render ps last :
  0 <= last -> pins_ordered last ps -> parsePins last (map render_pin ps) = Ok ps.
Proof.
  revert last. induction ps as [|p ps IH]; intros last Hl; simpl; [done|].
  intros (H1 & H2 & H3 & H4 & H5). unfold parsePin; simpl.
  rewrite hex_bytes_text by done. unfold isSafeInteger, MAX_SAFE_INTEGER, VOLTR_VAULT_SIZE in *.
  destruct (Z.leb_spec (- (2 ^ 53 - 1)) (offset p)), (Z.leb_spec (offset p) (2 ^ 53 - 1)),
    (Z.ltb_spec (offset p) last),
    (Z.ltb_spec 928 (offset p + Z.of_nat (length (pin_bytes p)))); simpl; try lia.
  rewrite IH by (done || lia). by destruct p.
Qed.

Context {L : PublicKeyLaws PK}.

Lemma quote_key_render k : quote_key (render_key k) = Ok k.
Proof. simpl. by rewrite newPublicKey_toBase58. Qed.

Lemma parse_render q : valid_quote q -> parseEarnMaxDepositQuote (render_quote q) = Ok q.
Proof.
  intros (Hu & Hc & Hp & Ho). rewrite !Forall_cons in Hu.
  destruct Hu as (U1 & U2 & U3 & U4 & U5 & U6 & U7 & U8 & U9 & _).
  unfold parseEarnMaxDepositQuote, render_quote.
  cbn [is_object negb get field String.eqb Ascii.eqb Bool.eqb].
  destruct (String.eqb_spec (q_certificateId q) "") as [|_]; [done|].
  rewrite !quote_u64_render, !quote_key_render by done. cbn [mbind result_bind].
  assert (E : pins (JArray (map render_pin (q_vaultPins q))) = Ok (q_vaultPins q)).
  { pose proof (parsePins_render (q_vaultPins q) 0 ltac:(lia) Ho) as E. by destruct (q_vaultPins q). }
  rewrite E. by destruct q.
Qed.

Lemma parse_valid body q : parseEarnMaxDepositQuote body = Ok q -> valid_quote q.
Proof.
  unfold parseEarnMaxDepositQuote. destruct (is_object body); [|done]. cbn [negb].
  destruct (get "certificateId" body) as [| | | |cert| |]; try done.
  destruct (String.eqb_spec cert ""); [done|]. intros H. inv_results. subst.
  repeat match goal with H : quote_u64 _ = Ok _ |- _ => apply quote_u64_range in H end.
  unfold valid_quote; simpl. split; [by rewrite !Forall_cons, Forall_nil|]. split; [done|].
  match goal with H : pins ?j = Ok _ |- _ => destruct j as [| | | | |l|]; try done end.
  destruct l as [|j l]; [done|]. unfold pins in *.
  match goal with H : parsePins _ _ = Ok _ |- _ => apply parsePins_ordered in H as [Ho Hl] end.
  split; [|done]. by intros ->.
Qed.

(** The quotes a response body can carry are exactly the valid ones: every amount
    and slot within u64, a certificate, and a non-empty list of byte pins that are in
    order, disjoint and inside the 928-byte vault account; each such quote has a body
    that parses to it. *)
Theorem parse_quote_valid (q : EarnMaxDepositQuote) :
  (exists body, parseEarnMaxDepositQuote body = Ok q) <-> valid_quote q.
Proof.
  split; [intros [body H]; by eapply parse_valid|].
  intros H. exists (render_quote q). by apply parse_render.
Qed.

(** A fetched quote is valid and is for the requested amount, whatever the server
    answers; and an answer with status 200 that carries a valid quote for that amount
    is accepted. *)
Theorem fetch_quote_sound (request : string -> string -> result Response) (amount : Z)
    (q : EarnMaxDepositQuote) :
  (fetchEarnMaxDepositQuote request amount = Ok q -> valid_quote q /\ q_amountRaw q = amount) /\
  (request EARN_MAX_DEPOSIT_QUOTE_PATH (quote_request_body amount)
     = Ok {| resp_status := 200; resp_json := Some (render_quote q) |} ->
   valid_quote q -> q_amountRaw q = amount -> fetchEarnMaxDepositQuote request amount = Ok q).
Proof.
  unfold fetchEarnMaxDepositQuote. split.
  - intros H. inv_results. destruct (resp_status v =? 409).
    { by destruct (get "reason" _). }
    destruct (resp_ok v); [|done]. cbn [negb] in H. inv_results.
    destruct (Z.eqb_spec (q_amountRaw v0) amount); [|done]. inv_results. subst.
    split; [by eapply parse_valid|done].
  - intros -> Hv <-. cbn [mbind result_bind resp_status resp_json].
    change (200 =? 409) with false. change (negb (resp_ok _)) with false. cbv iota.
    change (default JNull (Some ?x)) with x.
    rewrite parse_render by done. cbn [mbind result_bind]. by rewrite Z.eqb_refl.
Qed.

(** The values of [EarnMaxDepositQuoteErrorCode]. *)
Definition quote_error_codes : list string :=
  HELD_REASONS ++ ["deposit_unavailable"; "invalid_quote"; "quote_expired"].

(** A held deposit whose reason is the name of a property every object inherits is
    reported under that name, which is none of the codes of
    [EarnMaxDepositQuoteErrorCode]. *)
Theorem held_reason_prototype (request : string -> string -> result Response) (amount : Z) :
  request EARN_MAX_DEPOSIT_QUOTE_PATH (quote_request_body amount)
  = Ok {| resp_status := 409; resp_json := Some (JObject [("reason"%string, JString "constructor")]) |} ->
  fetchEarnMaxDepositQuote request amount = EarnMaxDepositQuoteError "constructor" /\
  "constructor"%string ∉ quote_error_codes.
Proof.
  intros E. unfold fetchEarnMaxDepositQuote. rewrite E. split; [done|].
  apply (bool_decide_eq_true_1 ("constructor"%string ∉ quote_error_codes)). vm_compute. reflexivity.
Qed.

End Quote.

Module DepositQuoteWitness.
Import DemoKeys.

Definition user : UserAccounts (PK := demo_keys) :=
  match voltrUserAccounts (PK := demo_keys) (key_of 3) with
  | Ok u => u
  | Throw _ => {| assetAta := zero_key; escrowLpAta := zero_key; lpAta := zero_key; receipt := zero_key |}
  end.

(** A quote for a vault of value 3000 with 1000 LP: one pin from offset 168 to 688. *)
Definition quote : EarnMaxDepositQuote (PK := demo_keys) := {|
  q_amountRaw := 300;
  q_authority := key_of 3;
  q_certificateId := "certificate";
  q_certifiedSlot := 10;
  q_expiresAt := 60;
  q_lpAta := lpAta user;
  q_lpBaselineRaw := 40;
  q_lpMaxRaw := 100;
  q_lpMinRaw := 99;
  q_lpMint := VOLTR_LP_MINT;
  q_lpSupplyRaw := 1000;
  q_notAfterSlot := 20;
  q_supplyMaxRaw := 1100;
  q_vault := VOLTR_VAULT;
  q_vaultPins := [Pin 168 (le_bytes 8 3000 ++ replicate 512 0)];
|}.

Lemma quote_valid : valid_quote quote.
Proof.
  unfold valid_quote. split; [|split; [done|split; [done|]]].
  - rewrite !Forall_cons, Forall_nil. split_and!; done.
  - cbn [quote q_vaultPins pins_ordered offset pin_bytes]. split_and!; try done.
    apply Forall_app. split; [apply le_bytes_bytes|]. by apply Forall_replicate.
Qed.

Definition request : string -> string -> result Response :=
  fun _ _ => Ok {| resp_status := 200; resp_json := Some (render_quote quote) |}.

Lemma parse_quote_valid_witness : exists body, parseEarnMaxDepositQuote body = Ok quote.
Proof. apply (parse_quote_valid (PK := demo_keys) quote), quote_valid. Defined.

Lemma fetch_quote_sound_witness : fetchEarnMaxDepositQuote request 300 = Ok quote.
Proof.
  apply (fetch_quote_sound (PK := demo_keys) request 300 quote); [reflexivity|apply quote_valid|reflexivity].
Defined.

Definition held_request : string -> string -> result Response :=
  fun _ _ => Ok {| resp_status := 409;
                   resp_json := Some (JObject [("reason"%string, JString "constructor")]) |}.

Lemma held_reason_prototype_witness :
  fetchEarnMaxDepositQuote (PK := demo_keys) held_request 300 = EarnMaxDepositQuoteError "constructor".
Proof. by destruct (held_reason_prototype (PK := demo_keys) held_request 300 eq_refl). Defined.

End DepositQuoteWitness.
