(* ===== verification/VoltrPlans.v ===== *)
(** The Earn MAX transaction plans (web/packages/smart-account-vaults/src/voltr/plans.ts):
    deposit under a certified quote, withdrawal request, claim with or without a signed
    consent, recovery of a remainder, and the consent message.

    The accounts come from [getMultipleAccountsInfo] and the rent from
    [getMinimumBalanceForRentExemption], both arguments; each call of [Date.now()] is an
    argument of its own, in milliseconds. *)
From S2P Require Import Prelude JsString Solana Bytes Subscriptions Lighthouse Voltr Json DepositQuote.

(** ** The consent message *)
Record VoltrWithdrawalConsent := {
  c_authority : string;
  c_cluster : string;
  c_destination : string;
  c_expiresAt : string;
  c_feeBasisHash : string;
  c_lpRaw : string;
  c_maxUserFeeLamports : string;
  c_minClaimUsdcRaw : string;
  c_nonce : string;
  c_owner : string;
  c_ownerSignature : string;
  c_program : string;
  c_referenceSlot : string;
  c_referenceUsdcRaw : string;
  c_requestInstruction : Z;
  c_requestSignature : string;
  c_settings : string;
  c_vault : string;
  c_version : string;
  c_policySeed : string;
}.

(** [JSON.stringify] of a string: the quote, the backslash and the control characters
    are escaped. *)
Definition backslash : ascii := "092".
Definition dquote : ascii := "034".

Definition hex_lower (v : Z) : ascii := ascii_of_N (Z.to_N (if v <? 10 then v + 48 else v + 87)).

Definition json_escape (c : ascii) : list ascii :=
  let v := char_code c in
  if v =? 34 then [backslash; dquote]
  else if v =? 92 then [backslash; backslash]
  else if v =? 8 then [backslash; "b"%char]
  else if v =? 9 then [backslash; "t"%char]
  else if v =? 10 then [backslash; "n"%char]
  else if v =? 12 then [backslash; "f"%char]
  else if v =? 13 then [backslash; "r"%char]
  else if v <? 32 then [backslash; "u"%char; "0"%char; "0"%char; hex_lower (v / 16); hex_lower (v mod 16)]
  else [c].

Definition json_string (s : string) : list ascii :=
  [dquote] ++ concat (map json_escape (chars s)) ++ [dquote].

Fixpoint json_items (l : list string) : list ascii :=
  match l with
  | [] => []
  | [s] => json_string s
  | s :: l => json_string s ++ [","%char] ++ json_items l
  end.
Definition json_array (l : list string) : list ascii := ["["%char] ++ json_items l ++ ["]"%char].

(** [TextEncoder]: UTF-8 of a Latin-1 text. *)
Definition utf8_char (c : ascii) : list Z :=
  let v := char_code c in if v <? 128 then [v] else [192 + v / 64; 128 + v mod 64].
Definition text_encode (l : list ascii) : list Z := concat (map utf8_char l).

Definition consent_fields (c : VoltrWithdrawalConsent) : list string :=
  ["loyal:earn-max:withdrawal-consent:v1"%string; c_cluster c; c_program c; c_vault c; c_settings c;
   c_owner c; c_authority c; c_destination c; c_requestSignature c;
   bigint_toString (c_requestInstruction c); c_policySeed c; c_lpRaw c; c_referenceUsdcRaw c;
   c_referenceSlot c; c_feeBasisHash c; c_minClaimUsdcRaw c; c_maxUserFeeLamports c; c_version c;
   c_nonce c; c_expiresAt c].

Definition voltrWithdrawalConsentMessage (c : VoltrWithdrawalConsent) : list Z :=
  text_encode (json_array (consent_fields c)).

(** ** Errors *)
Definition VoltrWithdrawalConsentError {A} (code : string) : result A :=
  Throw (Exn "VoltrWithdrawalConsentError" code).
Definition VoltrClaimLiquidityError {A} (reason : VoltrClaimBlockReason) : result A :=
  Throw (Exn "VoltrClaimLiquidityError"
    (match reason with
     | InsufficientLiquidity =>
         "The vault does not have enough available USDC to pay this withdrawal yet. Check again later."
     | _ => "Vault liquidity could not be verified. Check status before claiming."
     end)).

Definition CLAIM_HELD_REASONS : list string := ["claim_waiting_nav_publication"%string].

Definition voltrClaimHeld (code : json) : option exn :=
  match code with
  | JString s => if in_object s CLAIM_HELD_REASONS then Some (Exn "VoltrClaimHeldError" s) else None
  | _ => None
  end.

(** ** Plans *)
Section Plans.
Context {PK : PublicKeys} {TOKEN : SplToken PK} {ACCOUNTS : SplAccounts}.

Record ClaimProtection := {
  cp_consent : VoltrWithdrawalConsent;
  cp_receiptBytes : list Z;
  cp_expiresAt : Z;
  cp_maxFeeLamports : Z;
  cp_settings : string;
}.

Record VoltrPlan := {
  outer : list instruction;
  vault : list instruction;
  after : option (list instruction);
  claimProtection : option ClaimProtection;
  lifecycleFence : bool;
  withdrawalReceiptBytes : option (list Z);
}.

Record PlanContext := { ctx_authority : pubkey; ctx_owner : pubkey }.

Definition RECEIPT_SPACE := 112.

(** [pinned.set(pin.offset + i, byte)] for every byte of every pin. *)
Definition pinByte (off : Z) (pinned : gmap Z Z) (ib : nat * Z) : gmap Z Z :=
  <[off + Z.of_nat ib.1 := ib.2]> pinned.
Definition pinBytes (pinned : gmap Z Z) (pin : BytePin) : gmap Z Z :=
  fold_left (pinByte (offset pin)) (imap pair (pin_bytes pin)) pinned.
Definition pinnedBytes (ps : list BytePin) : gmap Z Z := fold_left pinBytes ps ∅.

Definition rangePinned (pinned : gmap Z Z) (r : Z * Z) : bool :=
  forallb (fun i => bool_decide (is_Some (pinned !! (fst r + Z.of_nat i)))) (seq 0 (Z.to_nat (snd r - fst r))).

(** [for (let i = 7; i >= 0; i--) value = (value << 8) | byte] *)
Fixpoint totalValueLoop (pinned : gmap Z Z) (n : nat) (value : Z) : Z :=
  match n with
  | O => value
  | S i =>
      totalValueLoop pinned i
        (Z.lor (Z.shiftl value 8)
           (default 0 (pinned !! (VOLTR_VAULT_TOTAL_VALUE_OFFSET + Z.of_nat i))))
  end.

Definition pinnedTotalValue (quote : EarnMaxDepositQuote) : result Z :=
  let pinned := pinnedBytes (q_vaultPins quote) in
  if forallb (rangePinned pinned) VOLTR_DEPOSIT_PRICING_RANGES
  then Ok (totalValueLoop pinned 8 0)
  else EarnMaxDepositQuoteError "invalid_quote".

Definition quoteRejected (authority lpAtaKey : pubkey) (quote : EarnMaxDepositQuote) (totalValue : Z) : bool :=
  let amount := q_amountRaw quote in
  negb (key_equals (q_vault quote) VOLTR_VAULT) ||
  negb (key_equals (q_lpMint quote) VOLTR_LP_MINT) ||
  negb (key_equals (q_authority quote) authority) ||
  negb (key_equals (q_lpAta quote) lpAtaKey) ||
  (amount <=? 0) ||
  (q_lpMinRaw quote <=? 0) ||
  (q_lpMaxRaw quote <? q_lpMinRaw quote) ||
  (U64_MAX <? q_lpBaselineRaw quote + q_lpMaxRaw quote) ||
  (q_supplyMaxRaw quote <? q_lpSupplyRaw quote + q_lpMinRaw quote) ||
  (U64_MAX <? totalValue + amount) ||
  (q_notAfterSlot quote <? q_certifiedSlot quote).

Definition voltrDepositPlan (ctx : PlanContext) (quote : EarnMaxDepositQuote) (nowSec : Z) :
    result VoltrPlan :=
  let authority := ctx_authority ctx in
  let owner := ctx_owner ctx in
  user ← voltrUserAccounts authority;
  let amount := q_amountRaw quote in
  totalValue ← pinnedTotalValue quote;
  if quoteRejected authority (lpAta user) quote totalValue
  then EarnMaxDepositQuoteError "invalid_quote"
  else if q_expiresAt quote <=? nowSec then EarnMaxDepositQuoteError "quote_expired"
  else
    walletAta ← getAssociatedTokenAddress VOLTR_ASSET_MINT owner false;
    supplyBefore ← assertMintSupply VOLTR_LP_MINT (Bound equal (q_lpSupplyRaw quote));
    balanceBefore ← assertTokenAmount (lpAta user) [Bound equal (q_lpBaselineRaw quote)];
    slot ← assertClockSlot (Bound lessThanOrEqual (q_notAfterSlot quote));
    clock ← assertClockUnixTimestamp (Bound lessThanOrEqual (q_expiresAt quote));
    deposit ← depositVaultInstruction authority amount;
    balanceAfter ← assertTokenAmount (lpAta user)
      [Bound greaterThanOrEqual (q_lpBaselineRaw quote + q_lpMinRaw quote);
       Bound lessThanOrEqual (q_lpBaselineRaw quote + q_lpMaxRaw quote)];
    supplyAfter ← assertMintSupply VOLTR_LP_MINT (Bound lessThanOrEqual (q_supplyMaxRaw quote));
    valueAfter ← assertAccountU64 VOLTR_VAULT VOLTR_VAULT_TOTAL_VALUE_OFFSET
      (Bound equal (totalValue + amount));
    Ok {| outer :=
            [createAssociatedTokenAccountIdempotent owner (assetAta user) authority VOLTR_ASSET_MINT;
             createAssociatedTokenAccountIdempotent owner (lpAta user) authority VOLTR_LP_MINT;
             createTransferChecked walletAta VOLTR_ASSET_MINT (assetAta user) owner amount
               VOLTR_ASSET_DECIMALS;
             assertAccountBytes VOLTR_VAULT (q_vaultPins quote);
             supplyBefore; balanceBefore; slot; clock];
          vault := [deposit];
          after := Some [balanceAfter; supplyAfter; valueAfter];
          claimProtection := None;
          lifecycleFence := false;
          withdrawalReceiptBytes := None |}.

Context (getMultipleAccountsInfo : list pubkey -> result (Z * list (option AccountInfo)))
  (getMinimumBalanceForRentExemption : Z -> result Z).

Inductive WithdrawAmount := Amount (raw : Z) | Max.

Definition voltrRequestWithdrawalPlan (ctx : PlanContext) (amountRaw : WithdrawAmount) (nowMs : Z) :
    result VoltrPlan :=
  let authority := ctx_authority ctx in
  let owner := ctx_owner ctx in
  position ← readVoltrPosition getMultipleAccountsInfo authority nowMs;
  match withdrawal position with
  | Some _ => throwError "A withdrawal is already in progress."
  | None =>
      lp ← match amountRaw with Max => Ok (lpRaw position) | Amount raw => assetsToLp position raw end;
      let withdrawAll := match amountRaw with Max => true | Amount _ => false end in
      let amountLpRaw := if lp <? lpRaw position then lp else lpRaw position in
      if amountLpRaw <=? 0 then throwError "Nothing to withdraw."
      else
        receiptRent ← getMinimumBalanceForRentExemption RECEIPT_SPACE;
        floor ← getMinimumBalanceForRentExemption 0;
        let needed := receiptRent + floor in
        user ← voltrUserAccounts authority;
        request ← requestWithdrawVaultInstruction amountLpRaw authority authority withdrawAll;
        Ok {| outer :=
                (if escrowLpAtaExists position then []
                 else [createAssociatedTokenAccountIdempotent owner (escrowLpAta user) (receipt user)
                         VOLTR_LP_MINT]) ++
                (if needed <=? authorityLamports position then []
                 else [systemTransfer owner authority (needed - authorityLamports position)]);
              vault := [request];
              after := None;
              claimProtection := None;
              lifecycleFence := true;
              withdrawalReceiptBytes := None |}
  end.

(** The identity fields of a consent. *)
Definition consentMismatch (ctx : PlanContext) (c : VoltrWithdrawalConsent) : bool :=
  negb (String.eqb (c_owner c) (toBase58 (ctx_owner ctx))) ||
  negb (String.eqb (c_authority c) (toBase58 (ctx_authority ctx))) ||
  negb (String.eqb (c_destination c) (toBase58 (ctx_owner ctx))) ||
  negb (String.eqb (c_cluster c) "mainnet-beta") ||
  negb (String.eqb (c_program c) (toBase58 VOLTR_PROGRAM_ID)) ||
  negb (String.eqb (c_vault c) (toBase58 VOLTR_VAULT)).

Definition checkConsent (ctx : PlanContext) (consent : option VoltrWithdrawalConsent) (nowMs : Z) :
    result unit :=
  match consent with
  | None => Ok tt
  | Some c =>
      if consentMismatch ctx c then VoltrWithdrawalConsentError "needs_consent"
      else
        expiresAt ← BigInt_of_string (c_expiresAt c);
        if expiresAt <=? nowMs / 1000 then VoltrWithdrawalConsentError "expired" else Ok tt
  end.

Definition claimFloor (consent : option VoltrWithdrawalConsent) (payout : Z) : result Z :=
  match consent with
  | Some c => BigInt_of_string (c_minClaimUsdcRaw c)
  | None => Ok (if 1 <? payout then payout - 1 else payout)
  end.

Definition protectionOf (consent : option VoltrWithdrawalConsent) (pending : VoltrWithdrawal) :
    result (option ClaimProtection) :=
  match consent with
  | None => Ok None
  | Some c =>
      expiresAt ← BigInt_of_string (c_expiresAt c);
      maxFee ← BigInt_of_string (c_maxUserFeeLamports c);
      Ok (Some {| cp_consent := c; cp_receiptBytes := receiptBytes pending; cp_expiresAt := expiresAt;
                  cp_maxFeeLamports := maxFee; cp_settings := c_settings c |})
  end.

(** The floor is positive and the consent is for the LP in escrow: the right operand
    of [||] is evaluated only when the left one is false. *)
Definition checkFloor (consent : option VoltrWithdrawalConsent) (floor : Z) (pending : VoltrWithdrawal) :
    result unit :=
  if floor <=? 0 then VoltrWithdrawalConsentError "needs_consent"
  else match consent with
       | None => Ok tt
       | Some c =>
           lp ← BigInt_of_string (c_lpRaw c);
           if lp =? escrowedLpRaw pending then Ok tt
           else VoltrWithdrawalConsentError "needs_consent"
       end.

Definition voltrClaimPlan (ctx : PlanContext) (consent : option VoltrWithdrawalConsent)
    (nowConsent nowRead nowBlock : Z) : result VoltrPlan :=
  let authority := ctx_authority ctx in
  let owner := ctx_owner ctx in
  _ ← checkConsent ctx consent nowConsent;
  position ← readVoltrPosition getMultipleAccountsInfo authority nowRead;
  match withdrawal position, voltrClaimBlockReason position nowBlock with
  | None, _ | _, Some NotReady => throwError "Earn MAX withdrawal is not claimable yet."
  | _, Some reason => VoltrClaimLiquidityError reason
  | Some pending, None =>
      floor ← claimFloor consent (payoutRaw pending);
      _ ← checkFloor consent floor pending;
      if payoutRaw pending <? floor then VoltrWithdrawalConsentError "waiting_price"
      else
        walletAta ← getAssociatedTokenAddress VOLTR_ASSET_MINT owner false;
        user ← voltrUserAccounts authority;
        let baseline := if assetAtaExists position then assetRaw position else 0 in
        if U64_MAX <? baseline + floor then VoltrWithdrawalConsentError "needs_consent"
        else
          protection ← protectionOf consent pending;
          claim ← unprotectedWithdrawVaultInstruction authority;
          Ok {| outer :=
                  [createAssociatedTokenAccountIdempotent owner walletAta owner VOLTR_ASSET_MINT;
                   createAssociatedTokenAccountIdempotent owner (assetAta user) authority VOLTR_ASSET_MINT];
                vault :=
                  [claim;
                   createTransferChecked (assetAta user) VOLTR_ASSET_MINT walletAta authority
                     (baseline + floor) VOLTR_ASSET_DECIMALS];
                after := None;
                claimProtection := protection;
                lifecycleFence := true;
                withdrawalReceiptBytes := Some (receiptBytes pending) |}
  end.

Definition voltrRecoverClaimRemainderPlan (ctx : PlanContext) (nowMs : Z) : result VoltrPlan :=
  let authority := ctx_authority ctx in
  let owner := ctx_owner ctx in
  position ← readVoltrPosition getMultipleAccountsInfo authority nowMs;
  if assetRaw position <=? 0 then throwError "No remaining USDC to recover."
  else
    walletAta ← getAssociatedTokenAddress VOLTR_ASSET_MINT owner false;
    user ← voltrUserAccounts authority;
    Ok {| outer := [createAssociatedTokenAccountIdempotent owner walletAta owner VOLTR_ASSET_MINT];
          vault :=
            [createTransferChecked (assetAta user) VOLTR_ASSET_MINT walletAta authority
               (assetRaw position) VOLTR_ASSET_DECIMALS];
          after := None;
          claimProtection := None;
          lifecycleFence := false;
          withdrawalReceiptBytes := None |}.

End Plans.

(** ** The pinned bytes *)
Section Pinned.
Context {PK : PublicKeys}.

Lemma pinBytes_lookup pinned off bs k :
  pinBytes pinned (Pin off bs) !! k =
  if (off <=? k) && (k <? off + Z.of_nat (length bs)) then bs !! Z.to_nat (k - off) else pinned !! k.
Proof.
  unfold pinBytes; cbn [offset pin_bytes].
  induction bs as [|b bs IH] using rev_ind; cbn [length imap fold_left].
  - destruct (Z.leb_spec off k), (Z.ltb_spec k (off + Z.of_nat 0)); simpl; (done || lia).
  - rewrite imap_app, fold_left_app, length_app. cbn [imap fold_left length].
    unfold pinByte at 1. cbn [fst snd compose]. rewrite Nat.add_0_r.
    destruct (decide (k = off + Z.of_nat (length bs))) as [->|Hne].
    + rewrite lookup_insert_eq.
      destruct (Z.leb_spec off (off + Z.of_nat (length bs))),
        (Z.ltb_spec (off + Z.of_nat (length bs)) (off + Z.of_nat (length bs + 1))); try lia. cbn [andb].
      replace (Z.to_nat (off + Z.of_nat (length bs) - off)) with (length bs) by lia.
      rewrite lookup_app_r by lia. by rewrite Nat.sub_diag.
    + rewrite lookup_insert_ne by done. rewrite IH.
      destruct (Z.leb_spec off k), (Z.ltb_spec k (off + Z.of_nat (length bs))),
        (Z.ltb_spec k (off + Z.of_nat (length bs + 1))); cbn [andb]; try done; try lia.
      rewrite lookup_app_l by lia. done.
Qed.

(** Every byte a pin fixes is a byte of the account at that place. *)
Definition matches (data : list Z) (p : BytePin) : Prop :=
  0 <= offset p /\ forall i b, pin_bytes p !! i = Some b -> data !! (Z.to_nat (offset p) + i)%nat = Some b.

Definition covers (p : BytePin) (k : Z) : Prop :=
  offset p <= k < offset p + Z.of_nat (length (pin_bytes p)).

Lemma pinned_fold ps : forall pinned k,
  (exists p, p ∈ ps /\ covers p k) \/ (exists b, pinned !! k = Some b) <->
  exists b, fold_left pinBytes ps pinned !! k = Some b.
Proof.
  induction ps as [|[off bs] ps IH]; intros pinned k; cbn [fold_left].
  - split; [intros [(p & Hp & _)|H]; [set_solver|done]|by right].
  - rewrite <- IH, pinBytes_lookup. unfold covers.
    destruct (Z.leb_spec off k), (Z.ltb_spec k (off + Z.of_nat (length bs))); cbn [andb].
    2-4: split; intros [(p & Hp & Hc)|Hb]; [|by right|left|by right];
      [apply elem_of_cons in Hp as [->|Hp]; [simpl in Hc; lia|left; by exists p]
      |exists p; split; [by apply elem_of_cons; right|done]].
    destruct (lookup_lt_is_Some_2 bs (Z.to_nat (k - off)) ltac:(lia)) as [b Hb].
    split; intros _; [right; by exists b|].
    left. exists (Pin off bs). split; [by apply elem_of_cons; left|simpl; lia].
Qed.

Lemma pinned_matches ps data : Forall (matches data) ps -> forall pinned k b,
  (forall k b, pinned !! k = Some b -> 0 <= k /\ data !! Z.to_nat k = Some b) ->
  fold_left pinBytes ps pinned !! k = Some b -> 0 <= k /\ data !! Z.to_nat k = Some b.
Proof.
  induction 1 as [|[off bs] ps [H0 Hm] _ IH]; intros pinned k b Hp; cbn [fold_left]; [apply Hp|].
  apply IH. clear k b IH. intros k b. rewrite pinBytes_lookup. simpl in *.
  destruct (Z.leb_spec off k), (Z.ltb_spec k (off + Z.of_nat (length bs))); cbn [andb]; try apply Hp.
  intros Hb. split; [lia|]. apply Hm in Hb. by replace (Z.to_nat off + Z.to_nat (k - off))%nat
    with (Z.to_nat k) in Hb by lia.
Qed.

Lemma totalValueLoop_spec pinned n bs v :
  length bs = n -> Forall is_byte bs ->
  (forall i b, bs !! i = Some b -> pinned !! (VOLTR_VAULT_TOTAL_VALUE_OFFSET + Z.of_nat i) = Some b) ->
  totalValueLoop pinned n v = v * 256 ^ Z.of_nat n + le_value bs.
Proof.
  revert bs v. induction n as [|n IH]; intros bs v Hl Hb Hp.
  - destruct bs; [|done]. cbn [totalValueLoop le_value]. rewrite Z.pow_0_r. lia.
  - destruct bs as [|b bs' _] using rev_ind; [done|].
    rewrite length_app in Hl. cbn [length] in Hl.
    apply Forall_app in Hb as [Hb' Hb]. apply Forall_inv in Hb.
    assert (Hn : length bs' = n) by lia. cbn [totalValueLoop].
    rewrite (Hp n b). 2:{ rewrite lookup_app_r by lia. by rewrite Hn, Nat.sub_diag. }
    cbn [default from_option id]. rewrite lor_shiftl_8 by done.
    rewrite (IH bs'); [|done..|].
    2:{ intros i c Hi. apply Hp. rewrite lookup_app_l; [done|]. by eapply lookup_lt_Some. }
    rewrite le_value_app, Hn, Nat2Z.inj_succ, Z.pow_succ_r by lia. cbn [le_value]. ring.
Qed.

Lemma rangePinned_spec pinned start stop :
  rangePinned pinned (start, stop) = true <->
  forall k, start <= k < stop -> exists b, pinned !! k = Some b.
Proof.
  unfold rangePinned. rewrite forallb_forall. cbn [fst snd]. split; intros H.
  - intros k Hk. specialize (H (Z.to_nat (k - start))). rewrite in_seq in H.
    specialize (H ltac:(lia)). apply bool_decide_eq_true in H as [b Hb].
    exists b. by replace (start + Z.of_nat (Z.to_nat (k - start))) with k in Hb by lia.
  - intros i [_ Hi]%in_seq. apply bool_decide_eq_true. destruct (H (start + Z.of_nat i)) as [b Hb]; [lia|].
    by exists b.
Qed.

Lemma pinnedTotalValue_ok q total :
  pinnedTotalValue q = Ok total ->
  (forall r, r ∈ VOLTR_DEPOSIT_PRICING_RANGES -> rangePinned (pinnedBytes (q_vaultPins q)) r = true) /\
  total = totalValueLoop (pinnedBytes (q_vaultPins q)) 8 0.
Proof.
  unfold pinnedTotalValue.
  destruct (forallb (rangePinned _) VOLTR_DEPOSIT_PRICING_RANGES) eqn:E; [|done]. intros [= <-].
  split; [|done]. intros r Hr. rewrite forallb_forall in E. by apply E, list_elem_of_In.
Qed.

Lemma pinned_value_read q total data :
  pinnedTotalValue q = Ok total -> Forall is_byte data -> Forall (matches data) (q_vaultPins q) ->
  readU64 data VOLTR_VAULT_TOTAL_VALUE_OFFSET = Ok total.
Proof.
  intros Ht Hb Hm. apply pinnedTotalValue_ok in Ht as [Hr ->].
  assert (Hin : (168, 176) ∈ VOLTR_DEPOSIT_PRICING_RANGES) by (apply elem_of_cons; by left).
  pose proof (proj1 (rangePinned_spec _ _ _) (Hr _ Hin)) as Hp. clear Hr Hin.
  assert (Hd : forall k, 168 <= k < 176 -> exists b,
    pinnedBytes (q_vaultPins q) !! k = Some b /\ data !! Z.to_nat k = Some b).
  { intros k Hk. destruct (Hp k Hk) as [b E]. exists b. split; [done|].
    apply (pinned_matches _ _ Hm ∅ k b); [|done]. intros k' b'. by rewrite lookup_empty. }
  assert (Hlen : (176 <= length data)%nat).
  { destruct (Hd 175 ltac:(lia)) as (b & _ & E). apply lookup_lt_Some in E. lia. }
  set (bs := take 8 (drop 168 data)).
  assert (Hbs : length bs = 8%nat) by (unfold bs; rewrite length_take, length_drop; lia).
  rewrite (totalValueLoop_spec _ 8 bs); [|done|unfold bs; by apply Forall_take, Forall_drop|].
  - unfold readU64, read_le, VOLTR_VAULT_TOTAL_VALUE_OFFSET.
    destruct (Z.ltb_spec (Z.of_nat (length data)) (168 + Z.of_nat 8)); [lia|]. done.
  - intros i b Hi. pose proof (lookup_lt_Some _ _ _ Hi) as Hl.
    unfold bs in Hi. rewrite lookup_take_lt, lookup_drop in Hi by lia.
    unfold VOLTR_VAULT_TOTAL_VALUE_OFFSET.
    destruct (Hd (168 + Z.of_nat i) ltac:(lia)) as (b' & E & E').
    replace (Z.to_nat (168 + Z.of_nat i)) with (168 + i)%nat in E' by lia. congruence.
Qed.

(** The total value a deposit is certified against: it is computed exactly when the
    pins cover every byte the vault prices a deposit with, and it is then the
    little-endian integer at offset 168 of every vault account that satisfies the
    pins, so the assertion after the deposit compares with the real prior value. *)
Theorem pinned_total_value (q : EarnMaxDepositQuote) :
  (is_ok (pinnedTotalValue q) = true <->
   forall start stop k, (start, stop) ∈ VOLTR_DEPOSIT_PRICING_RANGES -> start <= k < stop ->
     exists p, p ∈ q_vaultPins q /\ covers p k) /\
  (forall total data,
     pinnedTotalValue q = Ok total -> Forall is_byte data -> Forall (matches data) (q_vaultPins q) ->
     readU64 data VOLTR_VAULT_TOTAL_VALUE_OFFSET = Ok total).
Proof.
  split; [|intros; by eapply pinned_value_read]. split.
  - destruct (pinnedTotalValue q) as [total|] eqn:E; [|done]. intros _ start stop k Hr Hk.
    apply pinnedTotalValue_ok in E as [E _].
    destruct (proj1 (rangePinned_spec _ _ _) (E _ Hr) k Hk) as [b Hb].
    destruct (proj2 (pinned_fold (q_vaultPins q) ∅ k) (ex_intro _ b Hb)) as [|[b' Hb']]; [done|].
    by rewrite lookup_empty in Hb'.
  - intros H. unfold pinnedTotalValue.
    assert (E : forallb (rangePinned (pinnedBytes (q_vaultPins q))) VOLTR_DEPOSIT_PRICING_RANGES = true).
    { apply forallb_forall. intros [start stop] Hr%list_elem_of_In. apply rangePinned_spec.
      intros k Hk. apply (pinned_fold (q_vaultPins q) ∅ k). left. by apply (H start stop). }
    by rewrite E.
Qed.

End Pinned.

(** ** The deposit plan *)
Section Deposit.
Context {PK : PublicKeys} {TOKEN : SplToken PK}.

(** A quote this client deposits under: for its vault, LP mint and LP account, with a
    positive amount and LP bounds that cannot leave u64. *)
Record accepted (authority lpAtaKey : pubkey) (q : EarnMaxDepositQuote) (total : Z) : Prop := {
  acc_vault : q_vault q = VOLTR_VAULT;
  acc_mint : q_lpMint q = VOLTR_LP_MINT;
  acc_authority : q_authority q = authority;
  acc_lpAta : q_lpAta q = lpAtaKey;
  acc_amount : 0 < q_amountRaw q;
  acc_min : 0 < q_lpMinRaw q <= q_lpMaxRaw q;
  acc_max : q_lpBaselineRaw q + q_lpMaxRaw q <= U64_MAX;
  acc_supply : q_lpSupplyRaw q + q_lpMinRaw q <= q_supplyMaxRaw q;
  acc_total : total + q_amountRaw q <= U64_MAX;
  acc_slot : q_certifiedSlot q <= q_notAfterSlot q;
}.

Lemma quoteRejected_false authority lpAtaKey q total :
  quoteRejected authority lpAtaKey q total = false <-> accepted authority lpAtaKey q total.
Proof.
  unfold quoteRejected, key_equals.
  rewrite !orb_false_iff, !negb_false_iff, !bool_decide_eq_true, !Z.leb_gt, !Z.ltb_ge.
  split; [intros; destruct_and!; by constructor|intros []; split_and!; done || lia].
Qed.

Lemma totalValue_nonneg pinned n v : (forall k b, pinned !! k = Some b -> is_byte b) ->
  0 <= v -> 0 <= totalValueLoop pinned n v.
Proof.
  intros Hp. revert v. induction n as [|n IH]; intros v Hv; cbn [totalValueLoop]; [done|].
  apply IH. destruct (pinned !! _) as [b|] eqn:E; cbn [default from_option id].
  - pose proof (Hp _ _ E) as Hb. rewrite lor_shiftl_8 by done. unfold is_byte in Hb. lia.
  - rewrite Z.lor_0_r, Z.shiftl_mul_pow2 by lia. lia.
Qed.

Lemma pins_ordered_Forall ps : forall last, 0 <= last -> pins_ordered last ps ->
  Forall (fun p => 0 <= offset p /\ Forall is_byte (pin_bytes p) /\
                   offset p + Z.of_nat (length (pin_bytes p)) <= VOLTR_VAULT_SIZE) ps.
Proof.
  induction ps as [|p ps IH]; intros last Hl; simpl; [constructor|].
  intros (H1 & H2 & H3 & H4 & H5). constructor; [split_and!; [lia|done..]|]. eapply IH; [|exact H5]. lia.
Qed.

Lemma pins_ordered_length ps : forall last, 0 <= last <= VOLTR_VAULT_SIZE -> pins_ordered last ps ->
  last + Z.of_nat (length ps) <= VOLTR_VAULT_SIZE.
Proof.
  induction ps as [|p ps IH]; intros last Hl; cbn [pins_ordered length]; [lia|].
  intros (H1 & H2 & H3 & H4 & H5). apply IH in H5; [|lia].
  destruct (pin_bytes p); [done|]. cbn [length] in *. lia.
Qed.

Lemma pinnedBytes_bytes ps k b :
  Forall (fun p => Forall is_byte (pin_bytes p)) ps -> pinnedBytes ps !! k = Some b -> is_byte b.
Proof.
  intros Hps. unfold pinnedBytes.
  assert (H0 : forall k b, (∅ : gmap Z Z) !! k = Some b -> is_byte b)
    by (intros ? ?; by rewrite lookup_empty).
  revert k b H0. generalize (∅ : gmap Z Z).
  induction Hps as [|[off bs] ps Hp _ IH]; intros pinned k b H0; cbn [fold_left]; [apply H0|].
  apply IH. clear k b. intros k b. rewrite pinBytes_lookup.
  destruct (_ && _); [|apply H0]. intros Hb. rewrite Forall_lookup in Hp. by eapply Hp.
Qed.

Lemma valid_quote_pins q : valid_quote q ->
  Forall pin_ok (q_vaultPins q) /\ Z.of_nat (length (q_vaultPins q)) < 2 ^ 53 /\
  forall total, pinnedTotalValue q = Ok total -> 0 <= total.
Proof.
  intros (_ & _ & _ & Ho). split_and!.
  - eapply Forall_impl; [apply (pins_ordered_Forall _ 0); [lia|exact Ho]|].
    intros p (H1 & H2 & H3). unfold pin_ok, VOLTR_VAULT_SIZE in *. lia.
  - pose proof (pins_ordered_length _ 0 ltac:(done) Ho). unfold VOLTR_VAULT_SIZE in *. lia.
  - intros total [_ ->]%pinnedTotalValue_ok. apply totalValue_nonneg; [|done].
    intros k b. apply pinnedBytes_bytes.
    eapply Forall_impl; [apply (pins_ordered_Forall _ 0); [lia|exact Ho]|]. by intros p (_ & H & _).
Qed.

Definition check_of (i : instruction) : option (list account_meta * Check) :=
  match d_check (data i) with Some (c, []) => Some (keys i, c) | _ => None end.

(** What the plan of an accepted quote contains. *)
Record deposit_terms (ctx : PlanContext) (user : UserAccounts) (q : EarnMaxDepositQuote) (total : Z)
    (plan : VoltrPlan) : Prop := {
  terms_vault : exists i, depositVaultInstruction (ctx_authority ctx) (q_amountRaw q) = Ok i /\
                          vault plan = [i];
  terms_before : mapO check_of (drop 3 (outer plan)) = Some [
    ([Meta VOLTR_VAULT false false], CheckAccountBytes (q_vaultPins q));
    ([Meta VOLTR_LP_MINT false false], CheckMintSupply (Bound equal (q_lpSupplyRaw q)));
    ([Meta (lpAta user) false false], CheckTokenAmount [Bound equal (q_lpBaselineRaw q)]);
    ([], CheckClockSlot (Bound lessThanOrEqual (q_notAfterSlot q)));
    ([], CheckClockUnixTimestamp (Bound lessThanOrEqual (q_expiresAt q)))];
  terms_after : exists l, after plan = Some l /\ mapO check_of l = Some [
    ([Meta (lpAta user) false false],
     CheckTokenAmount [Bound greaterThanOrEqual (q_lpBaselineRaw q + q_lpMinRaw q);
                       Bound lessThanOrEqual (q_lpBaselineRaw q + q_lpMaxRaw q)]);
    ([Meta VOLTR_LP_MINT false false], CheckMintSupply (Bound lessThanOrEqual (q_supplyMaxRaw q)));
    ([Meta VOLTR_VAULT false false],
     CheckAccountU64 VOLTR_VAULT_TOTAL_VALUE_OFFSET (Bound equal (total + q_amountRaw q)))];
}.

Lemma check_of_ok i ks c : keys i = ks -> d_check (data i) = Some (c, []) -> check_of i = Some (ks, c).
Proof. intros <- H. unfold check_of. by rewrite H. Qed.

Lemma writeBigUInt64LE_ok v : is_u64 v -> writeBigUInt64LE v = Ok (le_bytes 8 v).
Proof.
  unfold is_u64, writeBigUInt64LE. intros H.
  destruct (Z.leb_spec 0 v), (Z.leb_spec v U64_MAX); (done || lia).
Qed.

Lemma clock_out_of_range o v : I64_MAX < v -> assertClockUnixTimestamp (Bound o v) = throwRange "value".
Proof.
  intros H. unfold assertClockUnixTimestamp, i64, writeBigInt64LE. cbn [value].
  destruct (Z.leb_spec I64_MIN v), (Z.leb_spec v I64_MAX); (done || lia).
Qed.

(** A step of the plan that writes one assertion. *)
Ltac check_step lem :=
  let i := fresh "i" in let E := fresh "E" in let K := fresh "K" in let D := fresh "D" in
  destruct lem as (i & E & K & D);
    [try done; try (repeat constructor); simpl; unfold is_i64, is_u64 in *; try done; lia..|];
  rewrite E; cbn [mbind result_bind]; pose proof (check_of_ok _ _ _ K D).

(** C9. A deposit under a valid quote goes ahead exactly when the quote is for this
    client's vault, LP mint and accounts, has a positive amount and consistent bounds,
    pins every pricing byte, has not expired and expires within i64; the plan then
    deposits exactly the quoted amount between assertions that read back as the
    certified basis before (pinned bytes, LP supply, LP balance, slot and clock) and
    the certified outcome after (LP balance between minimum and maximum, LP supply
    bound, total value grown by exactly the amount). *)
Theorem deposit_plan_exact (ctx : PlanContext) (q : EarnMaxDepositQuote) (nowSec : Z)
    (user : UserAccounts) (walletAta : pubkey) :
  valid_quote q ->
  voltrUserAccounts (ctx_authority ctx) = Ok user ->
  getAssociatedTokenAddress VOLTR_ASSET_MINT (ctx_owner ctx) false = Ok walletAta ->
  (is_ok (voltrDepositPlan ctx q nowSec) = true <->
   exists total, pinnedTotalValue q = Ok total /\ accepted (ctx_authority ctx) (lpAta user) q total /\
                 nowSec < q_expiresAt q <= I64_MAX) /\
  (forall plan, voltrDepositPlan ctx q nowSec = Ok plan ->
   exists total, pinnedTotalValue q = Ok total /\ deposit_terms ctx user q total plan).
Proof.
  intros Hq Hu Hw. unfold voltrDepositPlan. rewrite Hu. cbn [mbind result_bind].
  destruct (pinnedTotalValue q) as [total|] eqn:Et; cbn [mbind result_bind].
  2:{ split; [|done]. split; [done|]. by intros (? & [=] & _). }
  destruct (valid_quote_pins q Hq) as (Hpins & Hlen & Hpos). specialize (Hpos total Et).
  destruct Hq as (Hf & _). rewrite !Forall_cons in Hf.
  destruct Hf as (U1 & U2 & U3 & U4 & U5 & U6 & U7 & U8 & U9 & _).
  destruct (quoteRejected _ _ q total) eqn:Er.
  { split; [|done]. split; [done|]. intros (t & [= <-] & Ha & _).
    apply quoteRejected_false in Ha. congruence. }
  apply quoteRejected_false in Er. pose proof Er as [].
  destruct (Z.leb_spec (q_expiresAt q) nowSec) as [He|He].
  { split; [|done]. split; [done|]. intros (? & _ & _ & ?). lia. }
  rewrite Hw. cbn [mbind result_bind].
  assert (D0 : check_of (assertAccountBytes VOLTR_VAULT (q_vaultPins q))
             = Some ([Meta VOLTR_VAULT false false], CheckAccountBytes (q_vaultPins q)))
    by (apply check_of_ok; [done|by apply d_check_bytes]).
  check_step (mintSupply_check VOLTR_LP_MINT (Bound equal (q_lpSupplyRaw q))).
  check_step (tokenAmount_check (lpAta user) [Bound equal (q_lpBaselineRaw q)]).
  check_step (clockSlot_check (Bound lessThanOrEqual (q_notAfterSlot q))).
  destruct (Z.leb_spec (q_expiresAt q) I64_MAX) as [Hi|Hi].
  2:{ rewrite clock_out_of_range by done. cbn [mbind result_bind]. split; [|done].
      split; [done|]. intros (? & _ & _ & ?). lia. }
  assert (I64_MIN <= 0) by done.
  check_step (clockUnixTimestamp_check (Bound lessThanOrEqual (q_expiresAt q))).
  assert (Ed : exists d, depositVaultInstruction (ctx_authority ctx) (q_amountRaw q) = Ok d).
  { unfold depositVaultInstruction. rewrite Hu. cbn [mbind result_bind].
    rewrite writeBigUInt64LE_ok by done. by eexists. }
  destruct Ed as [d Ed]. rewrite Ed. cbn [mbind result_bind].
  check_step (tokenAmount_check (lpAta user)
    [Bound greaterThanOrEqual (q_lpBaselineRaw q + q_lpMinRaw q);
     Bound lessThanOrEqual (q_lpBaselineRaw q + q_lpMaxRaw q)]).
  check_step (mintSupply_check VOLTR_LP_MINT (Bound lessThanOrEqual (q_supplyMaxRaw q))).
  check_step (accountU64_check VOLTR_VAULT VOLTR_VAULT_TOTAL_VALUE_OFFSET
    (Bound equal (total + q_amountRaw q))).
  split.
  - split; [|done]. intros _. exists total. split_and!; [done..|lia|lia].
  - intros plan [= <-]. exists total. split; [done|]. constructor.
    + exists d. done.
    + cbn [outer drop mapO]. by repeat (match goal with H : check_of _ = _ |- _ => rewrite H; clear H end).
    + eexists. split; [reflexivity|]. cbn [mapO].
      by repeat (match goal with H : check_of _ = _ |- _ => rewrite H; clear H end).
Qed.

End Deposit.

(** ** Withdrawal request and claim *)
Section Withdraw.
Context {PK : PublicKeys} {TOKEN : SplToken PK} {ACCOUNTS : SplAccounts}.
Context (getMultipleAccountsInfo : list pubkey -> result (Z * list (option AccountInfo)))
  (getMinimumBalanceForRentExemption : Z -> result Z).

(** The LP a request escrows. *)
Definition requested_lp (position : VoltrPosition) (amountRaw : WithdrawAmount) (lp : Z) : Prop :=
  match amountRaw with
  | Max => lp = lpRaw position
  | Amount raw => exists shares, assetsToLp position raw = Ok shares /\ lp = Z.min shares (lpRaw position)
  end.

Lemma request_data lp authority payer all i :
  requestWithdrawVaultInstruction lp authority payer all = Ok i ->
  is_u64 lp /\ programId i = VOLTR_PROGRAM_ID /\
  data i = [248; 225; 47; 22; 116; 144; 23; 143] ++ le_bytes 8 lp ++ [1; if all then 1 else 0].
Proof.
  unfold requestWithdrawVaultInstruction, writeBigUInt64LE, is_u64. intros H. inv_results.
  destruct (Z.leb_spec 0 lp), (Z.leb_spec lp U64_MAX); simpl in E0; inv_results; subst; done.
Qed.

(** A withdrawal request is planned only when none is pending; it escrows a
    positive number of LP tokens the account holds, all of them for a maximal request
    and the LP of the asked amount (at most all) otherwise; and the transfer it adds,
    if any, brings the vault authority exactly to the rent of the receipt plus its own
    rent-exempt minimum when it had less. *)
Theorem request_plan_sound (ctx : PlanContext) (amountRaw : WithdrawAmount) (nowMs : Z) (plan : VoltrPlan) :
  voltrRequestWithdrawalPlan getMultipleAccountsInfo getMinimumBalanceForRentExemption
    ctx amountRaw nowMs = Ok plan ->
  exists position lp receiptRent floor topUp,
    readVoltrPosition getMultipleAccountsInfo (ctx_authority ctx) nowMs = Ok position /\
    withdrawal position = None /\
    requested_lp position amountRaw lp /\ 0 < lp <= lpRaw position /\
    (exists i, vault plan = [i] /\ programId i = VOLTR_PROGRAM_ID /\
       data i = [248; 225; 47; 22; 116; 144; 23; 143] ++ le_bytes 8 lp ++
                [1; match amountRaw with Max => 1 | Amount _ => 0 end]) /\
    getMinimumBalanceForRentExemption RECEIPT_SPACE = Ok receiptRent /\
    getMinimumBalanceForRentExemption 0 = Ok floor /\
    authorityLamports position + topUp = Z.max (authorityLamports position) (receiptRent + floor) /\
    (0 < topUp -> systemTransfer (ctx_owner ctx) (ctx_authority ctx) topUp ∈ outer plan).
Proof.
  unfold voltrRequestWithdrawalPlan. intros H. simpl_bind H. rename v into position.
  destruct (withdrawal position) eqn:Ew; [done|]. simpl_bind H. rename v into shares.
  set (lp := if shares <? lpRaw position then shares else lpRaw position) in *.
  destruct (Z.leb_spec lp 0) as [|Hlp]; [done|]. inv_results. subst plan.
  match goal with H : requestWithdrawVaultInstruction _ _ _ _ = Ok _ |- _ =>
    apply request_data in H as (_ & Hpid & Hdata) end.
  assert (Hmin : lp = Z.min shares (lpRaw position))
    by (unfold lp; destruct (Z.ltb_spec shares (lpRaw position)); lia).
  match goal with H : getMinimumBalanceForRentExemption RECEIPT_SPACE = Ok ?r,
                  H' : getMinimumBalanceForRentExemption 0 = Ok ?f |- _ =>
    exists position, lp, r, f, (Z.max 0 (r + f - authorityLamports position)) end.
  split_and!; try done; try lia.
  - destruct amountRaw as [raw|]; simpl; [eauto|]. inv_results. lia.
  - eexists. split_and!; [reflexivity|done|]. rewrite Hdata. by destruct amountRaw.
  - intros Ht. cbn [outer]. apply elem_of_app. right.
    match goal with |- context [?n <=? authorityLamports position] =>
      destruct (Z.leb_spec n (authorityLamports position)); [lia|];
      replace (Z.max 0 (n - authorityLamports position)) with (n - authorityLamports position) by lia end.
    by apply list_elem_of_singleton.
Qed.

(** What a consent must say for a claim to go ahead under it. *)
Definition consent_allows (ctx : PlanContext) (c : VoltrWithdrawalConsent) (nowMs floor escrowed : Z) : Prop :=
  c_owner c = toBase58 (ctx_owner ctx) /\ c_authority c = toBase58 (ctx_authority ctx) /\
  c_destination c = toBase58 (ctx_owner ctx) /\ c_cluster c = "mainnet-beta"%string /\
  c_program c = toBase58 VOLTR_PROGRAM_ID /\ c_vault c = toBase58 VOLTR_VAULT /\
  (exists expiry, BigInt_of_string (c_expiresAt c) = Ok expiry /\ nowMs / 1000 < expiry) /\
  BigInt_of_string (c_minClaimUsdcRaw c) = Ok floor /\ BigInt_of_string (c_lpRaw c) = Ok escrowed.

Lemma consentMismatch_false ctx c : consentMismatch ctx c = false ->
  c_owner c = toBase58 (ctx_owner ctx) /\ c_authority c = toBase58 (ctx_authority ctx) /\
  c_destination c = toBase58 (ctx_owner ctx) /\ c_cluster c = "mainnet-beta"%string /\
  c_program c = toBase58 VOLTR_PROGRAM_ID /\ c_vault c = toBase58 VOLTR_VAULT.
Proof.
  unfold consentMismatch. rewrite !orb_false_iff, !negb_false_iff, !String.eqb_eq. tauto.
Qed.

Lemma claim_checks ctx consent nowMs payout floor pending :
  checkConsent ctx consent nowMs = Ok tt -> claimFloor consent payout = Ok floor ->
  checkFloor consent floor pending = Ok tt ->
  0 < floor /\
  match consent with
  | Some c => consent_allows ctx c nowMs floor (escrowedLpRaw pending)
  | None => floor = Z.max (payout - 1) (Z.min payout 1)
  end.
Proof.
  unfold checkConsent, claimFloor, checkFloor. intros Hc Hf Hl.
  destruct (Z.leb_spec floor 0) as [|H0]; [done|]. split; [done|].
  destruct consent as [c|].
  - destruct (consentMismatch ctx c) eqn:Em; [done|]. apply consentMismatch_false in Em.
    inv_results. destruct (Z.leb_spec v0 (nowMs / 1000)); [done|].
    destruct (Z.eqb_spec v (escrowedLpRaw pending)) as [->|]; [|done].
    unfold consent_allows. destruct_and!. split_and!; eauto.
  - injection Hf as <-. destruct (Z.ltb_spec 1 payout); lia.
Qed.

(** C10. A claim is planned only for a pending withdrawal past its cooldown whose payout
    the vault's idle balance covers. Its floor is positive and at most the payout: the
    consent's minimum when a matching, unexpired consent for the same escrowed LP is
    given, the payout less one raw unit otherwise. The plan consumes the receipt and
    transfers the balance already there plus the floor to the owner, an amount that
    fits u64 and that the balance plus the payout covers. *)
Theorem claim_plan_sound (ctx : PlanContext) (consent : option VoltrWithdrawalConsent)
    (nowConsent nowRead nowBlock : Z) (plan : VoltrPlan) :
  voltrClaimPlan getMultipleAccountsInfo ctx consent nowConsent nowRead nowBlock = Ok plan ->
  exists position pending idle floor user walletAta claim,
    readVoltrPosition getMultipleAccountsInfo (ctx_authority ctx) nowRead = Ok position /\
    withdrawal position = Some pending /\
    1000 * withdrawableFromTs pending <= nowBlock /\
    idleAssetRaw position = Some idle /\ payoutRaw pending <= idle /\
    0 < floor <= payoutRaw pending /\
    match consent with
    | Some c => consent_allows ctx c nowConsent floor (escrowedLpRaw pending)
    | None => floor = Z.max (payoutRaw pending - 1) (Z.min (payoutRaw pending) 1)
    end /\
    voltrUserAccounts (ctx_authority ctx) = Ok user /\
    getAssociatedTokenAddress VOLTR_ASSET_MINT (ctx_owner ctx) false = Ok walletAta /\
    unprotectedWithdrawVaultInstruction (ctx_authority ctx) = Ok claim /\
    withdrawalReceiptBytes plan = Some (receiptBytes pending) /\
    let baseline := if assetAtaExists position then assetRaw position else 0 in
    vault plan = [claim;
                  createTransferChecked (assetAta user) VOLTR_ASSET_MINT walletAta (ctx_authority ctx)
                    (baseline + floor) VOLTR_ASSET_DECIMALS] /\
    baseline + floor <= U64_MAX /\ baseline + floor <= baseline + payoutRaw pending.
Proof.
  unfold voltrClaimPlan. intros H. simpl_bind H. destruct v. simpl_bind H. rename v into position.
  destruct (withdrawal position) as [pending|] eqn:Ew; [|done].
  destruct (voltrClaimBlockReason position nowBlock) as [[]|] eqn:Eb; [done..|].
  unfold voltrClaimBlockReason in Eb. rewrite Ew in Eb.
  destruct (Z.ltb_spec nowBlock (1000 * withdrawableFromTs pending)); [done|].
  destruct (idleAssetRaw position) as [idle|] eqn:Ei; [|done].
  destruct (Z.ltb_spec idle (payoutRaw pending)); [done|].
  simpl_bind H. rename v into floor. simpl_bind H. destruct v.
  destruct (claim_checks _ _ _ _ _ _ E E1 E2) as [Hf Hc].
  destruct (Z.ltb_spec (payoutRaw pending) floor); [done|].
  simpl_bind H. simpl_bind H. cbv zeta in H.
  match type of H with context [U64_MAX <? ?x] => destruct (Z.ltb_spec U64_MAX x); [done|] end.
  inv_results. subst plan. do 7 eexists. split_and!; cbv zeta; try done; lia.
Qed.

(** Recovery moves exactly the balance that is there, when there is one, and consumes
    no receipt. *)
Lemma recover_plan_sound ctx nowMs plan :
  voltrRecoverClaimRemainderPlan getMultipleAccountsInfo ctx nowMs = Ok plan ->
  exists position user walletAta,
    readVoltrPosition getMultipleAccountsInfo (ctx_authority ctx) nowMs = Ok position /\
    0 < assetRaw position /\ withdrawalReceiptBytes plan = None /\
    vault plan = [createTransferChecked (assetAta user) VOLTR_ASSET_MINT walletAta (ctx_authority ctx)
                    (assetRaw position) VOLTR_ASSET_DECIMALS].
Proof.
  unfold voltrRecoverClaimRemainderPlan. intros H. simpl_bind H. rename v into position.
  destruct (Z.leb_spec (assetRaw position) 0); [done|]. inv_results. subst plan.
  do 3 eexists. split_and!; done.
Qed.

End Withdraw.

(** ** The consent message binds every term *)

(** A code whose words can be read off the front of a text. *)
Lemma prefix_code_inj {A B} (f : A -> list B) (read : list B -> option (A * list B)) :
  (forall a x, read (f a ++ x) = Some (a, x)) -> forall l l' stop r r',
  read (stop ++ r) = None -> read (stop ++ r') = None ->
  concat (map f l) ++ stop ++ r = concat (map f l') ++ stop ++ r' -> l = l' /\ r = r'.
Proof.
  intros Hr l. induction l as [|a l IH]; intros [|a' l'] stop r r' Hs Hs' H; cbn [map concat app] in H.
  - by apply app_inv_head in H.
  - rewrite H, <- app_assoc, Hr in Hs. done.
  - rewrite <- H, <- app_assoc, Hr in Hs'. done.
  - rewrite <- !app_assoc in H. apply (f_equal read) in H. rewrite !Hr in H. injection H as -> H.
    destruct (IH _ _ _ _ Hs Hs' H) as [-> ->]. done.
Qed.

Definition unescape (l : list ascii) : option (ascii * list ascii) :=
  match l with
  | "\"%char :: c :: x =>
      if Ascii.eqb c "u" then
        match x with
        | _ :: _ :: a :: b :: x =>
            match lower_hex a, lower_hex b with
            | Some h, Some k => Some (ascii_of_N (Z.to_N (16 * h + k)), x)
            | _, _ => None
            end
        | _ => None
        end
      else if Ascii.eqb c "b" then Some ("008"%char, x)
      else if Ascii.eqb c "t" then Some ("009"%char, x)
      else if Ascii.eqb c "n" then Some ("010"%char, x)
      else if Ascii.eqb c "f" then Some ("012"%char, x)
      else if Ascii.eqb c "r" then Some ("013"%char, x)
      else Some (c, x)
  | c :: x => if Ascii.eqb c dquote then None else Some (c, x)
  | [] => None
  end.

Lemma unescape_escape c x : unescape (json_escape c ++ x) = Some (c, x).
Proof. destruct c as [[] [] [] [] [] [] [] []]; reflexivity. Qed.

Lemma json_string_inj s s' r r' :
  json_string s ++ r = json_string s' ++ r' -> s = s' /\ r = r'.
Proof.
  unfold json_string. cbn [app]. intros [= H]. rewrite <- !app_assoc in H.
  apply (prefix_code_inj json_escape unescape) in H as [H ->]; [|apply unescape_escape|done..].
  split; [|done]. rewrite <- (unchars_chars s), <- (unchars_chars s'). by rewrite H.
Qed.

Lemma json_items_inj l : forall l' r r', length l = length l' ->
  json_items l ++ r = json_items l' ++ r' -> l = l'.
Proof.
  induction l as [|s [|t l] IH]; intros [|s' [|t' l']] r r' Hl H; try discriminate Hl; [done|..].
  - cbn [json_items] in H. by apply json_string_inj in H as [-> _].
  - change (json_items (s :: t :: l)) with (json_string s ++ [","%char] ++ json_items (t :: l)) in H.
    change (json_items (s' :: t' :: l')) with (json_string s' ++ [","%char] ++ json_items (t' :: l')) in H.
    rewrite <- !app_assoc in H. apply json_string_inj in H as [-> H]. cbn [app] in H. injection H as H.
    f_equal. by apply (IH (t' :: l') r r'); [injection Hl as Hl; simpl; f_equal|].
Qed.

Lemma json_array_inj l l' : length l = length l' -> json_array l = json_array l' -> l = l'.
Proof. unfold json_array. intros Hl H%app_inv_head. by apply json_items_inj in H. Qed.

Definition read_utf8 (l : list Z) : option (ascii * list Z) :=
  match l with
  | v :: x =>
      if v <? 128 then Some (ascii_of_N (Z.to_N v), x)
      else match x with
           | w :: x => Some (ascii_of_N (Z.to_N ((v - 192) * 64 + (w - 128))), x)
           | [] => None
           end
  | [] => None
  end.

Lemma read_utf8_char c x : read_utf8 (utf8_char c ++ x) = Some (c, x).
Proof. destruct c as [[] [] [] [] [] [] [] []]; reflexivity. Qed.

Lemma text_encode_inj l l' : text_encode l = text_encode l' -> l = l'.
Proof.
  unfold text_encode. intros H.
  apply (prefix_code_inj utf8_char read_utf8 read_utf8_char l l' [] [] []); [done..|].
  by rewrite !app_nil_r.
Qed.

(** A consent with its signature replaced. *)
Definition unsigned (c : VoltrWithdrawalConsent) : VoltrWithdrawalConsent := {|
  c_authority := c_authority c; c_cluster := c_cluster c; c_destination := c_destination c;
  c_expiresAt := c_expiresAt c; c_feeBasisHash := c_feeBasisHash c; c_lpRaw := c_lpRaw c;
  c_maxUserFeeLamports := c_maxUserFeeLamports c; c_minClaimUsdcRaw := c_minClaimUsdcRaw c;
  c_nonce := c_nonce c; c_owner := c_owner c; c_ownerSignature := ""; c_program := c_program c;
  c_referenceSlot := c_referenceSlot c; c_referenceUsdcRaw := c_referenceUsdcRaw c;
  c_requestInstruction := c_requestInstruction c; c_requestSignature := c_requestSignature c;
  c_settings := c_settings c; c_vault := c_vault c; c_version := c_version c;
  c_policySeed := c_policySeed c;
|}.

(** C16. Two consents have the same message to sign exactly when they agree on every
    field but the signature: no term of an approval can be changed, and no text of one
    field can pass for another, under the same signed bytes. *)
Theorem consent_message_binding (c c' : VoltrWithdrawalConsent) :
  voltrWithdrawalConsentMessage c = voltrWithdrawalConsentMessage c' <-> unsigned c = unsigned c'.
Proof.
  split.
  - unfold voltrWithdrawalConsentMessage. intros H.
    apply text_encode_inj, json_array_inj in H; [|done].
    unfold consent_fields in H. injection H; intros.
    assert (c_requestInstruction c = c_requestInstruction c').
    { apply bigint_toString_inj. assumption. }
    unfold unsigned. f_equal; assumption.
  - intros H.
    assert (Hu : forall c, voltrWithdrawalConsentMessage c = voltrWithdrawalConsentMessage (unsigned c))
      by done.
    rewrite (Hu c), (Hu c'). by rewrite H.
Qed.

Module VoltrPlansWitness.
Import DemoKeys VoltrWitness DepositQuoteWitness.

Definition ctx : PlanContext (PK := demo_keys) := {| ctx_authority := key_of 3; ctx_owner := key_of 4 |}.

Definition wallet : key :=
  match getAssociatedTokenAddress (SplToken := spl) VOLTR_ASSET_MINT (key_of 4) false with
  | Ok k => k | Throw _ => zero_key end.

Lemma deposit_plan_exact_witness : is_ok (voltrDepositPlan ctx quote 0) = true.
Proof.
  apply (deposit_plan_exact (PK := demo_keys) ctx quote 0 user wallet quote_valid);
    [vm_compute; reflexivity|vm_compute; reflexivity|].
  exists 3000. split; [vm_compute; reflexivity|]. split; [|done].
  constructor; done.
Defined.

Definition rpc (receipt : option (AccountInfo (PK := demo_keys))) (_ : list (@pubkey demo_keys)) :
    result (Z * list (option (AccountInfo (PK := demo_keys)))) := Ok (12, accounts_with receipt).
Definition rent (size : Z) : result Z := Ok (1000 + 10 * size).

Definition empty_plan : VoltrPlan (PK := demo_keys) :=
  {| outer := []; vault := []; after := None; claimProtection := None; lifecycleFence := false;
     withdrawalReceiptBytes := None |}.
Definition plan_of (r : result (VoltrPlan (PK := demo_keys))) : VoltrPlan :=
  match r with Ok p => p | Throw _ => empty_plan end.
Lemma plan_of_ok r : is_ok r = true -> r = Ok (plan_of r).
Proof. by destruct r. Qed.

Lemma request_plan_sound_witness :
  exists position lp, readVoltrPosition (rpc None) (key_of 3) 9000 = Ok position /\
    requested_lp position (Amount 30) lp /\ 0 < lp <= lpRaw position.
Proof.
  destruct (request_plan_sound (PK := demo_keys) (rpc None) rent ctx (Amount 30) 9000
    (plan_of (voltrRequestWithdrawalPlan (rpc None) rent ctx (Amount 30) 9000)))
    as (position & lp & _ & _ & _ & H1 & _ & H2 & H3 & _); [|exists position, lp; exact (conj H1 (conj H2 H3))].
  apply plan_of_ok. vm_compute. reflexivity.
Defined.

Lemma claim_plan_sound_witness :
  exists position pending floor,
    readVoltrPosition (rpc (Some (info receipt_data))) (key_of 3) 9000 = Ok position /\
    withdrawal position = Some pending /\ 0 < floor <= payoutRaw pending.
Proof.
  destruct (claim_plan_sound (PK := demo_keys) (rpc (Some (info receipt_data))) ctx None 9000 9000 9000
    (plan_of (voltrClaimPlan (rpc (Some (info receipt_data))) ctx None 9000 9000 9000)))
    as (position & pending & _ & floor & _ & _ & _ & H1 & H2 & _ & _ & _ & H3 & _);
    [|exists position, pending, floor; exact (conj H1 (conj H2 H3))].
  apply plan_of_ok. vm_compute. reflexivity.
Defined.

End VoltrPlansWitness.
