(* ===== verification/F64.v ===== *)
(** JavaScript numbers as IEEE 754 binary64, on the Standard Library's executable
    specification of floating-point arithmetic: 53 bits of precision, exponents up to
    1024, round to nearest, ties to even. *)
From Stdlib Require Import Floats.SpecFloat.
From S2P Require Import Prelude.

Definition f64 := spec_float.

Definition prec := 53.
Definition emax := 1024.

Definition f64_add : f64 -> f64 -> f64 := SFadd prec emax.
Definition f64_mul : f64 -> f64 -> f64 := SFmul prec emax.
Definition f64_div : f64 -> f64 -> f64 := SFdiv prec emax.

(** An integer as a number: [Number(bigint)], or an integer literal. *)
Definition f64_of_Z (z : Z) : f64 := binary_normalize prec emax z 0 false.

Definition f64_zero : f64 := S754_zero false.

(** [a > b], [a <= b]; false when either is NaN. *)
Definition f64_gt (a b : f64) : bool := match SFcompare a b with Some Gt => true | _ => false end.
Definition f64_le (a b : f64) : bool := match SFcompare a b with Some Gt | None => false | _ => true end.

(** [Math.round]: the nearest integer, ties towards positive infinity; a value that is
    already integral, infinite or NaN is unchanged, and a result of zero keeps the sign
    of a negative argument. *)
Definition f64_round (x : f64) : f64 :=
  match x with
  | S754_finite s m e =>
      if 0 <=? e then x
      else
        let n := if s then Z.neg m else Z.pos m in
        let d := 2 ^ (- e) in
        let r := (2 * n + d) / (2 * d) in
        if r =? 0 then S754_zero s else f64_of_Z r
  | _ => x
  end.

Example f64_round_half : map f64_round [f64_div (f64_of_Z 5) (f64_of_Z 2); f64_div (f64_of_Z (-5)) (f64_of_Z 2)]
                         = [f64_of_Z 3; f64_of_Z (-2)].
Proof. reflexivity. Qed.
