(* ===== verification/Earnings.v ===== *)
(** The earnings calculator of the web server
    (web/apps/web/src/lib/yield-optimization/earnings-calculator.server.ts): event order,
    the sorted-array indexes, principal accounting and the piecewise integration of a
    window.

    A [Date] is its time value in milliseconds, an integer. USD amounts and rates are
    binary64 numbers. The code caches each index in a [WeakMap] keyed by the array it
    was built from; the arrays are not changed after that, so an index is a function of
    the array. *)
From S2P Require Import Prelude JsString F64.

(** ** Sorting

    [Array.prototype.sort] with a comparator that may throw. ECMAScript leaves the
    sequence of comparisons open; insertion is one of the allowed ones. *)
Section Sort.
Context {A : Type} (cmp : A -> A -> result Z).

Fixpoint sort_insert (x : A) (l : list A) : result (list A) :=
  match l with
  | [] => Ok [x]
  | y :: l' =>
      c ← cmp x y;
      if c <? 0 then Ok (x :: l) else (l'' ← sort_insert x l'; Ok (y :: l''))
  end.

Definition sort (l : list A) : result (list A) := foldR (fun acc x => sort_insert x acc) [] l.
End Sort.

(** A comparator on keys, [(a, b) => key(a) - key(b)], never throws. *)
Definition by_key {A} (key : A -> Z) (a b : A) : result Z := Ok (key a - key b).
Definition sort_by {A} (key : A -> Z) (l : list A) : list A :=
  match sort (by_key key) l with Ok l => l | Throw _ => [] end.

(** ** Data *)
Inductive EventType := Deposit | Withdrawal.
#[global] Instance EventType_eq_dec : EqDecision EventType.
Proof. solve_decision. Defined.

Record YieldPositionEvent := {
  ev_amountRaw : Z;
  ev_confirmedAt : Z;
  ev_confirmedSlot : option Z;
  ev_holdingEventId : option Z;
  ev_positionId : option Z;
  ev_initializesPosition : option bool;
  ev_principalDeltaRaw : option Z;
  ev_settlesPosition : option bool;
  ev_liquidityMint : option string;
  ev_type : EventType;
}.

Definition EarningsPrincipalHistoryError {A} (message : string) : result A :=
  Throw (Exn "EarningsPrincipalHistoryError" message).

Inductive ExposureKind := Idle | Kamino.

Record YieldPortfolioExposure := {
  ex_amountRaw : Z;
  ex_kind : ExposureKind;
  ex_liquidityMint : string;
  ex_reserve : option string;
  ex_sourceId : string;
}.

Record YieldPortfolioSnapshot := {
  sn_exposures : list YieldPortfolioExposure;
  sn_observedAt : Z;
  sn_observedSlot : Z;
}.

Inductive PathEventType := PathDeposit | PathReconciliation | PathRebalance | PathWithdrawal.

Record YieldPositionPathEvent := {
  pe_amountRaw : Z;
  pe_confirmedAt : Z;
  pe_liquidityMint : string;
  pe_market : option string;
  pe_principalAmountRaw : Z;
  pe_reserve : string;
  pe_type : PathEventType;
}.

Record ReserveApySample := {
  sa_observedAt : Z;
  sa_reserve : option string;
  sa_supplyApy : f64;
}.

Definition STABLECOIN_MICROS_FACTOR := 1000000.
Definition SECONDS_PER_YEAR := 365 * 24 * 60 * 60.

(** ** Order of events *)

(** [!x] of an optional boolean *)
Definition falsy (b : option bool) : bool := match b with Some true => false | _ => true end.

(** The order two present and different values decide, if they do. *)
Definition order_by (l r : option Z) : option Z :=
  match l, r with
  | Some a, Some b => if a =? b then None else Some (if a <? b then -1 else 1)
  | _, _ => None
  end.

Definition compareEvents (left right : YieldPositionEvent) : result Z :=
  let timeDelta := ev_confirmedAt left - ev_confirmedAt right in
  if negb (timeDelta =? 0) then Ok timeDelta
  else match order_by (ev_confirmedSlot left) (ev_confirmedSlot right) with
  | Some c => Ok c
  | None =>
      match order_by (ev_holdingEventId left) (ev_holdingEventId right) with
      | Some c => Ok c
      | None =>
          if bool_decide (ev_type left = ev_type right) &&
             falsy (ev_initializesPosition left) && falsy (ev_initializesPosition right) &&
             falsy (ev_settlesPosition left) && falsy (ev_settlesPosition right)
          then Ok 0
          else EarningsPrincipalHistoryError "principal_history_order_ambiguous"
      end
  end.

Definition sortEarningsEvents (events : list YieldPositionEvent) : result (list YieldPositionEvent) :=
  sort compareEvents events.

(** ** Lookup in ascending times

    [(low + high) >> 1] works on 32-bit integers. Every turn shrinks the interval, so
    the length plus one bounds the number of turns. *)
Fixpoint lastIndexLoop (fuel : nat) (times : list Z) (atMs low high found : Z) : Z :=
  match fuel with
  | O => found
  | S fuel =>
      if low <=? high then
        let mid := Z.shiftr (to_int32 (low + high)) 1 in
        match times !! Z.to_nat mid with
        | Some t =>
            if t <=? atMs then lastIndexLoop fuel times atMs (mid + 1) high mid
            else lastIndexLoop fuel times atMs low (mid - 1) found
        | None => lastIndexLoop fuel times atMs low (mid - 1) found
        end
      else found
  end.

Definition lastIndexAtOrBefore (times : list Z) (atMs : Z) : Z :=
  lastIndexLoop (S (length times)) times atMs 0 (Z.of_nat (length times) - 1) (-1).

(** [found === -1 ? null : items[found]] *)
Definition itemAt {A} (items : list A) (found : Z) : option A :=
  if found =? -1 then None else items !! Z.to_nat found.

Definition getPathStateAt (pathEvents : list YieldPositionPathEvent) (atMs : Z) :
    option YieldPositionPathEvent :=
  itemAt pathEvents (lastIndexAtOrBefore (map pe_confirmedAt pathEvents) atMs).

Definition getPortfolioSnapshotAt (snapshots : list YieldPortfolioSnapshot) (atMs : Z) :
    option YieldPortfolioSnapshot :=
  itemAt snapshots (lastIndexAtOrBefore (map sn_observedAt snapshots) atMs).

(** ** The APY index *)
Record ApySeries := { apys : list f64; positions : list Z; times : list Z }.

Record ApyIndex := {
  all : ApySeries;
  byReserve : gmap string ApySeries;
  unscoped : ApySeries;
}.

Definition makeSeries : ApySeries := {| apys := []; positions := []; times := [] |}.

Definition pushSample (sample : ReserveApySample) (position : Z) (s : ApySeries) : ApySeries :=
  {| apys := apys s ++ [sa_supplyApy sample];
     positions := positions s ++ [position];
     times := times s ++ [sa_observedAt sample] |}.

Definition indexSample (index : ApyIndex) (p : Z * ReserveApySample) : ApyIndex :=
  let push := pushSample p.2 p.1 in
  match sa_reserve p.2 with
  | None => {| all := push (all index); byReserve := byReserve index; unscoped := push (unscoped index) |}
  | Some r =>
      {| all := push (all index);
         byReserve := <[r := push (default makeSeries (byReserve index !! r))]> (byReserve index);
         unscoped := unscoped index |}
  end.

Definition indexed (samples : list ReserveApySample) : list (Z * ReserveApySample) :=
  imap (fun i s => (Z.of_nat i, s)) samples.

Definition getApyIndex (samples : list ReserveApySample) : ApyIndex :=
  fold_left indexSample (indexed samples) {| all := makeSeries; byReserve := ∅; unscoped := makeSeries |}.

Definition getApyAt (samples : list ReserveApySample) (reserve : option string) (atMs : Z) : option f64 :=
  let index := getApyIndex samples in
  match reserve with
  | None | Some EmptyString => itemAt (apys (all index)) (lastIndexAtOrBefore (times (all index)) atMs)
  | Some reserve =>
      let scoped := byReserve index !! reserve in
      let scopedFound :=
        match scoped with Some s => lastIndexAtOrBefore (times s) atMs | None => -1 end in
      let unscopedFound := lastIndexAtOrBefore (times (unscoped index)) atMs in
      let scopedPosition :=
        match scoped with Some s => default (-1) (itemAt (positions s) scopedFound) | None => -1 end in
      let unscopedPosition := default (-1) (itemAt (positions (unscoped index)) unscopedFound) in
      if (scopedPosition =? -1) && (unscopedPosition =? -1) then None
      else match scoped with
           | Some s =>
               if unscopedPosition <? scopedPosition then apys s !! Z.to_nat scopedFound
               else apys (unscoped index) !! Z.to_nat unscopedFound
           | None => apys (unscoped index) !! Z.to_nat unscopedFound
           end
  end.

(** ** Principal *)
Inductive PrincipalClamp := ClampTotal | ClampPerMint | ClampPosition.
#[global] Instance PrincipalClamp_eq_dec : EqDecision PrincipalClamp.
Proof. solve_decision. Defined.

Definition clampedSubtract (current amount : Z) : Z := if amount <? current then current - amount else 0.

(** The accounting state: the balances by key, the running total and the index. *)
Record PrincipalState := {
  ps_byMint : gmap string Z;
  ps_total : Z;
  ps_totals : list Z;
  ps_times : list Z;
}.

(** [String(event.positionId)] *)
Definition positionKey (id : option Z) : string :=
  match id with Some z => bigint_toString z | None => "undefined" end.

Definition eventAmount (event : YieldPositionEvent) : Z :=
  match ev_principalDeltaRaw event with
  | None => ev_amountRaw event
  | Some d => match ev_type event with Deposit => d | Withdrawal => - d end
  end.

Definition deltaInvalid (event : YieldPositionEvent) : bool :=
  match ev_principalDeltaRaw event with
  | None => false
  | Some d => match ev_type event with Deposit => d <? 0 | Withdrawal => 0 <? d end
  end.

Definition truthy (b : option bool) : bool := negb (falsy b).

Definition isPosition (clamp : PrincipalClamp) : bool :=
  match clamp with ClampPosition => true | _ => false end.

Definition eventKey (clamp : PrincipalClamp) (event : YieldPositionEvent) : string :=
  if isPosition clamp then positionKey (ev_positionId event) else default EmptyString (ev_liquidityMint event).

(** The balance of the event's key after it. *)
Definition nextBalance (clamp : PrincipalClamp) (event : YieldPositionEvent) (current : Z) : Z :=
  if truthy (ev_settlesPosition event) then 0
  else match ev_type event with
       | Deposit =>
           (if isPosition clamp && truthy (ev_initializesPosition event) then 0 else current)
           + eventAmount event
       | Withdrawal => clampedSubtract current (eventAmount event)
       end.

Definition positionIncomplete (clamp : PrincipalClamp) (event : YieldPositionEvent) (known : bool) : bool :=
  isPosition clamp &&
  (match ev_positionId event, ev_initializesPosition event with Some _, Some _ => false | _, _ => true end ||
   (negb known &&
    (negb (bool_decide (ev_type event = Deposit)) || falsy (ev_initializesPosition event)))).

Definition principalStep (clamp : PrincipalClamp) (st : PrincipalState) (event : YieldPositionEvent) :
    result PrincipalState :=
  if deltaInvalid event then EarningsPrincipalHistoryError "principal_history_delta_invalid"
  else
    let amount := eventAmount event in
    '(byMint, total) ←
      match clamp with
      | ClampTotal =>
          Ok (ps_byMint st,
              match ev_type event with
              | Deposit => ps_total st + amount
              | Withdrawal => clampedSubtract (ps_total st) amount
              end)
      | _ =>
          let mint := eventKey clamp event in
          if positionIncomplete clamp event (bool_decide (is_Some (ps_byMint st !! mint)))
          then EarningsPrincipalHistoryError "principal_history_position_incomplete"
          else
            let current := default 0 (ps_byMint st !! mint) in
            let next := nextBalance clamp event current in
            Ok (<[mint := next]> (ps_byMint st), ps_total st + (next - current))
      end;
    Ok {| ps_byMint := byMint;
          ps_total := total;
          ps_totals := ps_totals st ++ [total];
          ps_times := ps_times st ++ [ev_confirmedAt event] |}.

Definition emptyPrincipal : PrincipalState :=
  {| ps_byMint := ∅; ps_total := 0; ps_totals := []; ps_times := [] |}.

Definition getPrincipalIndex (events : list YieldPositionEvent) (clamp : PrincipalClamp) :
    result PrincipalState :=
  sorted ← sortEarningsEvents events;
  foldR (principalStep clamp) emptyPrincipal sorted.

Definition principalAt (events : list YieldPositionEvent) (atMs : Z) (clamp : PrincipalClamp) : result Z :=
  index ← getPrincipalIndex events clamp;
  Ok (default 0 (itemAt (ps_totals index) (lastIndexAtOrBefore (ps_times index) atMs))).

(** ** Windows *)
Definition rawToUsd (raw : Z) : f64 := f64_div (f64_of_Z raw) (f64_of_Z STABLECOIN_MICROS_FACTOR).

(** [set.add(x)] on a set in insertion order *)
Definition set_add (x : Z) (s : list Z) : list Z := if bool_decide (x ∈ s) then s else s ++ [x].

Definition addChange (startMs endMs : Z) (s : list Z) (time : Z) : list Z :=
  if (startMs <? time) && (time <? endMs) then set_add time s else s.

(** The times at which the window changes, in order. *)
Definition changeTimes (startMs endMs : Z) (all_times : list Z) : list Z :=
  sort_by id (fold_left (addChange startMs endMs) all_times (set_add endMs [startMs])).

(** Consecutive pairs *)
Fixpoint segments (l : list Z) : list (Z * Z) :=
  match l with
  | a :: (b :: _) as l' => (a, b) :: segments l'
  | _ => []
  end.

Record WindowResult := {
  avgPrincipalUsd : f64;
  earnedUsd : f64;
  principalAmountRaw : Z;
}.

Definition seconds (ms : Z) : f64 := f64_div (f64_of_Z ms) (f64_of_Z 1000).

Definition accrue (principalUsd apy segmentSeconds : f64) : f64 :=
  f64_div (f64_mul (f64_mul principalUsd apy) segmentSeconds) (f64_of_Z SECONDS_PER_YEAR).

Definition windowSegment (apySamples : list ReserveApySample) (pathEvents : list YieldPositionPathEvent)
    (acc : f64 * f64) (segment : Z * Z) : f64 * f64 :=
  let '(earned, principalSeconds) := acc in
  let segmentSeconds := seconds (segment.2 - segment.1) in
  let pathState := getPathStateAt pathEvents segment.1 in
  let principalUsd :=
    match pathState with Some s => rawToUsd (pe_principalAmountRaw s) | None => f64_zero end in
  let apy := getApyAt apySamples (pe_reserve <$> pathState) segment.1 in
  (match apy with
   | Some apy =>
       if f64_gt principalUsd f64_zero && f64_gt segmentSeconds f64_zero
       then f64_add earned (accrue principalUsd apy segmentSeconds) else earned
   | None => earned
   end,
   f64_add principalSeconds (f64_mul principalUsd segmentSeconds)).

Definition pathPrincipalAt (pathEvents : list YieldPositionPathEvent) (atMs : Z) : Z :=
  default 0 (pe_principalAmountRaw <$> getPathStateAt pathEvents atMs).

Definition average (principalSeconds : f64) (startMs endMs : Z) : f64 :=
  let bucketSeconds := seconds (endMs - startMs) in
  if f64_gt bucketSeconds f64_zero then f64_div principalSeconds bucketSeconds else f64_zero.

Definition calculateWindow (apySamples : list ReserveApySample)
    (pathEvents : list YieldPositionPathEvent) (startMs endMs : Z) : WindowResult :=
  if endMs <=? startMs then
    {| avgPrincipalUsd := f64_zero; earnedUsd := f64_zero;
       principalAmountRaw := pathPrincipalAt pathEvents endMs |}
  else
    let sortedTimes :=
      changeTimes startMs endMs (map pe_confirmedAt pathEvents ++ map sa_observedAt apySamples) in
    let '(earned, principalSeconds) :=
      fold_left (windowSegment apySamples pathEvents) (segments sortedTimes) (f64_zero, f64_zero) in
    {| avgPrincipalUsd := average principalSeconds startMs endMs;
       earnedUsd := earned;
       principalAmountRaw := pathPrincipalAt pathEvents endMs |}.

Definition deriveApyBps (avg bucketSeconds earned : f64) : option f64 :=
  if f64_le avg f64_zero || f64_le bucketSeconds f64_zero then None
  else Some (f64_round
    (f64_mul (f64_mul (f64_div earned avg) (f64_div (f64_of_Z SECONDS_PER_YEAR) bucketSeconds))
       (f64_of_Z 10000))).

(** [undefined] becomes an early [return null] of the whole function. *)
Fixpoint weighExposures (apySamples : list ReserveApySample) (atMs : Z) (weighted : f64) (totalRaw : Z)
    (exposures : list YieldPortfolioExposure) : option (f64 * Z) :=
  match exposures with
  | [] => Some (weighted, totalRaw)
  | e :: exposures =>
      if ex_amountRaw e <=? 0 then weighExposures apySamples atMs weighted totalRaw exposures
      else
        let totalRaw := totalRaw + ex_amountRaw e in
        match ex_kind e with
        | Idle => weighExposures apySamples atMs weighted totalRaw exposures
        | Kamino =>
            match getApyAt apySamples (ex_reserve e) atMs with
            | None => None
            | Some apy =>
                weighExposures apySamples atMs
                  (f64_add weighted (f64_mul (f64_of_Z (ex_amountRaw e)) apy)) totalRaw exposures
            end
        end
  end.

Definition portfolioApyAt (apySamples : list ReserveApySample) (atMs : Z)
    (snapshot : option YieldPortfolioSnapshot) : option f64 :=
  match snapshot with
  | None => None
  | Some s =>
      match weighExposures apySamples atMs f64_zero 0 (sn_exposures s) with
      | Some (weighted, totalRaw) =>
          if 0 <? totalRaw then Some (f64_div weighted (f64_of_Z totalRaw)) else None
      | None => None
      end
  end.

Definition earnExposure (apySamples : list ReserveApySample) (atMs : Z) (segmentSeconds : f64)
    (earned : f64) (e : YieldPortfolioExposure) : f64 :=
  match ex_kind e, ex_reserve e with
  | Kamino, Some (String _ _ as reserve) =>
      if ex_amountRaw e <=? 0 then earned
      else match getApyAt apySamples (Some reserve) atMs with
           | Some apy => f64_add earned (accrue (rawToUsd (ex_amountRaw e)) apy segmentSeconds)
           | None => earned
           end
  | _, _ => earned
  end.

Definition portfolioSegment (apySamples : list ReserveApySample) (events : list YieldPositionEvent)
    (clamp : PrincipalClamp) (snapshots : list YieldPortfolioSnapshot)
    (acc : f64 * f64) (segment : Z * Z) : result (f64 * f64) :=
  let '(earned, principalSeconds) := acc in
  let segmentSeconds := seconds (segment.2 - segment.1) in
  principalRaw ← principalAt events segment.1 clamp;
  let snapshot := getPortfolioSnapshotAt snapshots segment.1 in
  Ok (fold_left (earnExposure apySamples segment.1 segmentSeconds)
        (match snapshot with Some s => sn_exposures s | None => [] end) earned,
      f64_add principalSeconds (f64_mul (rawToUsd principalRaw) segmentSeconds)).

Definition calculatePortfolioWindow (apySamples : list ReserveApySample)
    (events : list YieldPositionEvent) (clamp : PrincipalClamp)
    (snapshots : list YieldPortfolioSnapshot) (startMs endMs : Z) : result WindowResult :=
  if endMs <=? startMs then
    principal ← principalAt events endMs clamp;
    Ok {| avgPrincipalUsd := f64_zero; earnedUsd := f64_zero; principalAmountRaw := principal |}
  else
    let sortedTimes :=
      changeTimes startMs endMs
        (map ev_confirmedAt events ++ map sn_observedAt snapshots ++ map sa_observedAt apySamples) in
    '(earned, principalSeconds) ←
      foldR (portfolioSegment apySamples events clamp snapshots) (f64_zero, f64_zero) (segments sortedTimes);
    principal ← principalAt events endMs clamp;
    Ok {| avgPrincipalUsd := average principalSeconds startMs endMs;
          earnedUsd := earned;
          principalAmountRaw := principal |}.

(** ** Paths of older wallets *)
Definition legacyStep (principal : Z) (event : YieldPositionEvent) : Z :=
  let p := match ev_type event with
           | Deposit => principal + ev_amountRaw event
           | Withdrawal => principal - ev_amountRaw event
           end in
  if p <? 0 then 0 else p.

Fixpoint legacyPath (principal : Z) (events : list YieldPositionEvent) : list YieldPositionPathEvent :=
  match events with
  | [] => []
  | event :: events =>
      let principal := legacyStep principal event in
      {| pe_amountRaw := principal;
         pe_confirmedAt := ev_confirmedAt event;
         pe_liquidityMint := EmptyString;
         pe_market := None;
         pe_principalAmountRaw := principal;
         pe_reserve := EmptyString;
         pe_type := match ev_type event with Deposit => PathDeposit | Withdrawal => PathWithdrawal end |}
      :: legacyPath principal events
  end.

Definition legacyEventsToPathEvents (events : list YieldPositionEvent) : list YieldPositionPathEvent :=
  legacyPath 0 events.

(** ** Sorting is right *)
Section SortLemmas.
Context {A : Type} (cmp : A -> A -> result Z).

(** [a] may stand before [b]. *)
Definition before (a b : A) : Prop := exists c, cmp a b = Ok c /\ c <= 0.

(** Swapping the arguments of the comparator swaps the sign of its answer. *)
Definition antisymmetric : Prop :=
  forall a b c, cmp a b = Ok c -> exists c', cmp b a = Ok c' /\ (c < 0 -> 0 <= c') /\ (0 <= c -> c' <= 0).

Lemma sort_insert_head x l l' : sort_insert cmp x l = Ok l' ->
  exists y t, l' = y :: t /\ (y = x \/ exists t', l = y :: t').
Proof.
  destruct l as [|y l]; cbn [sort_insert]; intros H; inv_results; subst.
  - eauto.
  - destruct (_ <? 0); inv_results; subst; eauto 6.
Qed.

Lemma sort_insert_spec x : antisymmetric -> forall l l',
  Sorted before l -> sort_insert cmp x l = Ok l' -> Sorted before l' /\ l' ≡ₚ x :: l.
Proof.
  intros Ha l. induction l as [|y l IH]; intros l' Hs; cbn [sort_insert]; intros H; inv_results; subst.
  - split; [by repeat constructor|done].
  - destruct (Z.ltb_spec v 0) as [Hc|Hc]; inv_results; subst.
    + split; [|done]. constructor; [done|]. constructor. exists v. split; [done|lia].
    + apply Sorted_inv in Hs as [Hs Hhd]. destruct (IH _ Hs E0) as [H1 H2]. split.
      * constructor; [done|]. destruct (sort_insert_head _ _ _ E0) as (z & t & -> & [->|[t' ->]]).
        -- constructor. destruct (Ha _ _ _ E) as (c' & Hc' & _ & Hle). exists c'. auto.
        -- by inversion Hhd; constructor.
      * rewrite H2. apply perm_swap.
Qed.

Lemma sort_spec l l' : antisymmetric -> sort cmp l = Ok l' -> Sorted before l' /\ l' ≡ₚ l.
Proof.
  intros Ha. unfold sort.
  assert (H : forall l acc l', Sorted before acc ->
    foldR (fun acc x => sort_insert cmp x acc) acc l = Ok l' -> Sorted before l' /\ l' ≡ₚ l ++ acc).
  { clear l l'. induction l as [|x l IH]; intros acc l' Hs; cbn [foldR]; intros H; inv_results; subst; [done|].
    destruct (sort_insert_spec x Ha _ _ Hs E) as [H1 H2].
    destruct (IH _ _ H1 H) as [H3 H4]. split; [done|]. rewrite H4, H2. symmetry. apply Permutation_middle. }
  intros E. destruct (H l [] l') as [H1 H2]; [constructor|done|]. by rewrite app_nil_r in H2.
Qed.

(** Nothing is lost to an exception when no comparison throws. *)
Lemma sort_total l : (forall a b, is_ok (cmp a b) = true) -> exists l', sort cmp l = Ok l'.
Proof.
  intros Ht.
  assert (Hi : forall x l, exists l', sort_insert cmp x l = Ok l').
  { intros x l'. induction l' as [|y l' [l'' IH]]; cbn [sort_insert]; [by eexists|].
    specialize (Ht x y). destruct (cmp x y) as [c|]; [|done]. cbn [mbind result_bind].
    destruct (c <? 0); [by eexists|]. rewrite IH. by eexists. }
  unfold sort. generalize (@nil A). induction l as [|x l IH]; intros acc; cbn [foldR]; [by eexists|].
  destruct (Hi x acc) as [l' ->]. apply IH.
Qed.
End SortLemmas.

Lemma by_key_antisymmetric {A} (key : A -> Z) : antisymmetric (by_key key).
Proof. intros a b c [= <-]. exists (key b - key a). split; [done|lia]. Qed.

Definition key_le {A} (key : A -> Z) (a b : A) : Prop := key a <= key b.

Lemma StronglySorted_key {A} (key : A -> Z) (R : A -> A -> Prop) l :
  (forall a b, R a b -> key_le key a b) -> Sorted R l -> StronglySorted (key_le key) l.
Proof.
  intros HR Hs. apply Sorted_StronglySorted.
  - intros a b c. unfold key_le. lia.
  - induction Hs as [|a l Hs IH Hhd]; constructor; [done|]. destruct Hhd; constructor; auto.
Qed.

Lemma sort_by_spec {A} (key : A -> Z) l :
  StronglySorted (key_le key) (sort_by key l) /\ sort_by key l ≡ₚ l.
Proof.
  unfold sort_by. destruct (sort_total (by_key key) l) as [l' E]; [done|]. rewrite E.
  destruct (sort_spec _ _ _ (by_key_antisymmetric key) E) as [H1 H2]. split; [|done].
  eapply StronglySorted_key; [|done]. intros a b (c & [= <-] & Hc). unfold key_le. lia.
Qed.

Lemma order_by_swap l r c : order_by l r = Some c -> order_by r l = Some (- c) /\ c <> 0.
Proof.
  unfold order_by. destruct l as [a|], r as [b|]; try done.
  destruct (Z.eqb_spec a b); [done|]. destruct (Z.eqb_spec b a); [lia|].
  intros [= <-]. destruct (Z.ltb_spec a b), (Z.ltb_spec b a); split; (done || lia).
Qed.

Lemma order_by_none l r : order_by l r = None -> order_by r l = None.
Proof.
  unfold order_by. destruct l as [a|], r as [b|]; try done. rewrite (Z.eqb_sym b a). by destruct (a =? b).
Qed.

(** The comparator answers the two directions alike: it throws for both or is
    antisymmetric. *)
Lemma compareEvents_antisymmetric : antisymmetric compareEvents.
Proof.
  intros a b c. unfold compareEvents.
  destruct (Z.eqb_spec (ev_confirmedAt a - ev_confirmedAt b) 0) as [Ht|Ht]; cbn [negb].
  2:{ intros [= <-]. exists (ev_confirmedAt b - ev_confirmedAt a).
      destruct (Z.eqb_spec (ev_confirmedAt b - ev_confirmedAt a) 0); [lia|]. split; [done|lia]. }
  destruct (Z.eqb_spec (ev_confirmedAt b - ev_confirmedAt a) 0) as [_|]; [|lia]. cbn [negb].
  destruct (order_by (ev_confirmedSlot a) (ev_confirmedSlot b)) as [s|] eqn:Es.
  { apply order_by_swap in Es as [-> Hs]. intros [= <-]. exists (- s). split; [done|lia]. }
  rewrite (order_by_none _ _ Es).
  destruct (order_by (ev_holdingEventId a) (ev_holdingEventId b)) as [s|] eqn:Eh.
  { apply order_by_swap in Eh as [-> Hs]. intros [= <-]. exists (- s). split; [done|lia]. }
  rewrite (order_by_none _ _ Eh).
  destruct (bool_decide_reflect (ev_type a = ev_type b)) as [Ety|]; [|done].
  rewrite bool_decide_true by done.
  destruct (falsy (ev_initializesPosition a)), (falsy (ev_initializesPosition b)),
    (falsy (ev_settlesPosition a)), (falsy (ev_settlesPosition b)); try done.
  intros [= <-]. exists 0. split; [done|lia].
Qed.

Lemma before_time a b : before compareEvents a b -> key_le ev_confirmedAt a b.
Proof.
  intros (c & Hc & Hle). unfold compareEvents in Hc. unfold key_le.
  destruct (Z.eqb_spec (ev_confirmedAt a - ev_confirmedAt b) 0); cbn [negb] in Hc; [lia|].
  injection Hc as <-. lia.
Qed.

Lemma sort_events events l : sortEarningsEvents events = Ok l ->
  Sorted (before compareEvents) l /\ StronglySorted (key_le ev_confirmedAt) l /\ l ≡ₚ events.
Proof.
  intros H. destruct (sort_spec _ _ _ compareEvents_antisymmetric H) as [H1 H2].
  split_and!; [done| |done]. by apply (StronglySorted_key _ _ _ before_time).
Qed.

(** ** Binary search is linear search *)
Definition at_or_before {A} (key : A -> Z) (atMs : Z) (l : list A) : list A :=
  filter (fun x => key x <= atMs) l.

Lemma at_or_before_map {A} (key : A -> Z) atMs l :
  length (at_or_before id atMs (map key l)) = length (at_or_before key atMs l).
Proof.
  unfold at_or_before. induction l as [|x l IH]; [done|]. cbn [map]. rewrite !filter_cons.
  unfold id at 1. case_decide as H1; case_decide as H2; cbn [length]; [by f_equal|lia|lia|done].
Qed.

Lemma at_or_before_none {A} (key : A -> Z) atMs l :
  Forall (fun x => atMs < key x) l -> at_or_before key atMs l = [].
Proof.
  unfold at_or_before. induction 1 as [|x l Hx _ IH]; [done|].
  rewrite filter_cons. case_decide; [lia|done].
Qed.

Lemma at_or_before_take {A} (key : A -> Z) atMs l :
  StronglySorted (key_le key) l ->
  at_or_before key atMs l = take (length (at_or_before key atMs l)) l.
Proof.
  induction 1 as [|x l Hs IH Hx]; [done|]. unfold at_or_before at 1 2. rewrite filter_cons.
  case_decide as Hd; cbn [length take]; [by f_equal|].
  fold (at_or_before key atMs l). rewrite at_or_before_none; [done|].
  eapply Forall_impl; [exact Hx|]. unfold key_le. intros y Hy. lia.
Qed.

Lemma at_or_before_index times atMs i t :
  StronglySorted (key_le id) times -> times !! i = Some t ->
  (t <= atMs <-> (i < length (at_or_before id atMs times))%nat).
Proof.
  intros Hs. revert i. induction Hs as [|x l Hs IH Hx]; intros i Hi; [done|].
  unfold at_or_before. rewrite filter_cons. fold (at_or_before id atMs l). unfold id at 1.
  case_decide as Hd; destruct i as [|i]; cbn [length lookup list_lookup] in *.
  - injection Hi as ->. lia.
  - rewrite (IH i Hi). lia.
  - injection Hi as ->. split; [lia|]. rewrite at_or_before_none; [simpl; lia|].
    eapply Forall_impl; [exact Hx|]. unfold key_le, id. intros y Hy. lia.
  - rewrite (IH i Hi). rewrite at_or_before_none; [simpl; lia|].
    eapply Forall_impl; [exact Hx|]. unfold key_le, id. intros y Hy. lia.
Qed.

Lemma lastIndexLoop_spec fuel times atMs low high :
  StronglySorted (key_le id) times -> Z.of_nat (length times) < 2 ^ 30 ->
  let n := Z.of_nat (length (at_or_before id atMs times)) in
  0 <= low <= n -> n <= high + 1 -> high < Z.of_nat (length times) ->
  high - low + 1 < Z.of_nat fuel ->
  lastIndexLoop fuel times atMs low high (low - 1) = n - 1.
Proof.
  intros Hs Hlen n. revert low high.
  induction fuel as [|fuel IH]; intros low high Hlow Hhigh Hlt Hf; [lia|]. cbn [lastIndexLoop].
  destruct (Z.leb_spec low high) as [Hle|Hgt]; [|lia].
  rewrite to_int32_small, Z.shiftr_div_pow2 by lia. change (2 ^ 1) with 2.
  set (mid := (low + high) / 2).
  assert (Hmid : low <= mid <= high)
    by (unfold mid; split; [apply Z.div_le_lower_bound|apply Z.div_le_upper_bound]; lia).
  destruct (lookup_lt_is_Some_2 times (Z.to_nat mid)) as [t Ht]; [lia|]. rewrite Ht.
  pose proof (at_or_before_index times atMs _ _ Hs Ht) as Hiff.
  destruct (Z.leb_spec t atMs) as [Hta|Hta].
  - replace mid with (mid + 1 - 1) at 2 by lia. apply IH; unfold n in *; lia.
  - apply IH; unfold n in *; lia.
Qed.

Lemma lastIndex_count times atMs :
  StronglySorted (key_le id) times -> Z.of_nat (length times) < 2 ^ 30 ->
  lastIndexAtOrBefore times atMs = Z.of_nat (length (at_or_before id atMs times)) - 1.
Proof.
  intros Hs Hl. unfold lastIndexAtOrBefore. change (-1) with (0 - 1) at 1.
  apply lastIndexLoop_spec; try done; try lia.
  unfold at_or_before. pose proof (length_filter (fun x => id x <= atMs) times). lia.
Qed.

Lemma StronglySorted_map {A} (key : A -> Z) l :
  StronglySorted (key_le key) l -> StronglySorted (key_le id) (map key l).
Proof.
  induction 1 as [|x l Hs IH Hx]; constructor; [done|]. by apply Forall_map.
Qed.

(** The item found is the last one at or before the time. *)
Lemma itemAt_last {A} (key : A -> Z) items atMs :
  StronglySorted (key_le key) items -> Z.of_nat (length items) < 2 ^ 30 ->
  itemAt items (lastIndexAtOrBefore (map key items) atMs) = last (at_or_before key atMs items).
Proof.
  intros Hs Hl. rewrite lastIndex_count by (by apply StronglySorted_map || by rewrite length_map).
  rewrite at_or_before_map. unfold itemAt.
  pose proof (at_or_before_take key atMs items Hs) as Ht.
  set (n := length (at_or_before key atMs items)) in *.
  destruct (Z.eqb_spec (Z.of_nat n - 1) (-1)) as [H0|H0].
  - replace n with O in Ht by lia. by rewrite Ht.
  - rewrite last_lookup. fold n. rewrite Ht, lookup_take_lt by lia.
    f_equal. lia.
Qed.

(** ** The APY index *)
Definition sample_time (p : Z * ReserveApySample) : Z := sa_observedAt p.2.

Definition series_of (l : list (Z * ReserveApySample)) : ApySeries :=
  {| apys := map (fun p => sa_supplyApy p.2) l; positions := map fst l; times := map sample_time l |}.

Definition in_scope (r : option string) (p : Z * ReserveApySample) : Prop := sa_reserve p.2 = r.
#[global] Instance in_scope_dec r p : Decision (in_scope r p).
Proof. unfold in_scope. apply _. Defined.

Lemma series_push l p : series_of (l ++ [p]) = pushSample p.2 p.1 (series_of l).
Proof. unfold series_of, pushSample. by rewrite !map_app. Qed.

Definition scope_series (l : list (Z * ReserveApySample)) : option ApySeries :=
  match l with [] => None | _ => Some (series_of l) end.

Lemma scope_series_push l p :
  scope_series (l ++ [p]) = Some (pushSample p.2 p.1 (default makeSeries (scope_series l))).
Proof.
  destruct l as [|q l]; [done|]. cbn [app scope_series default from_option id].
  change (q :: l ++ [p]) with ((q :: l) ++ [p]). by rewrite series_push.
Qed.

Definition indexOf (l : list (Z * ReserveApySample)) : ApyIndex :=
  fold_left indexSample l {| all := makeSeries; byReserve := ∅; unscoped := makeSeries |}.

Lemma indexOf_spec l :
  all (indexOf l) = series_of l /\
  unscoped (indexOf l) = series_of (filter (in_scope None) l) /\
  forall r, byReserve (indexOf l) !! r = scope_series (filter (in_scope (Some r)) l).
Proof.
  induction l as [|p l (IH1 & IH2 & IH3)] using rev_ind; [done|].
  assert (E : indexOf (l ++ [p]) = indexSample (indexOf l) p) by (unfold indexOf; by rewrite fold_left_app).
  rewrite E. unfold indexSample.
  destruct (sa_reserve p.2) as [r'|] eqn:Er; cbn [all byReserve unscoped]; rewrite series_push, IH1;
    (split; [done|]); split.
  - rewrite filter_app, filter_cons_False, app_nil_r; [done|]. unfold in_scope. congruence.
  - intros r. rewrite filter_app. destruct (decide (r' = r)) as [->|Hne].
    + rewrite lookup_insert_eq, filter_cons_True, scope_series_push, IH3 by done. done.
    + rewrite lookup_insert_ne by done. rewrite filter_cons_False, app_nil_r, IH3; [done|].
      unfold in_scope. congruence.
  - by rewrite filter_app, filter_cons_True, series_push, IH2.
  - intros r. rewrite filter_app, filter_cons_False, app_nil_r, IH3; [done|]. unfold in_scope. congruence.
Qed.

Lemma StronglySorted_filter {A} (R : A -> A -> Prop) (P : A -> Prop) `{!forall x, Decision (P x)} l :
  StronglySorted R l -> StronglySorted R (filter P l).
Proof.
  induction 1 as [|x l Hs IH Hx]; [constructor|]. rewrite filter_cons. case_decide; [|done].
  constructor; [done|]. apply Forall_forall. intros y Hy%list_elem_of_filter.
  rewrite Forall_forall in Hx. apply Hx, Hy.
Qed.

Lemma itemAt_map {A B} (f : A -> B) l found : itemAt (map f l) found = f <$> itemAt l found.
Proof. unfold itemAt. destruct (_ =? _); [done|]. apply list_lookup_fmap. Qed.

(** The last element that satisfies one of two conditions is the later of the two last
    ones. *)
Lemma last_filter_or {A} (l : list (Z * A)) (P Q : Z * A -> Prop)
    `{!forall x, Decision (P x)} `{!forall x, Decision (Q x)} :
  StronglySorted (fun a b => a.1 < b.1) l ->
  last (filter (fun x => P x \/ Q x) l) =
  match last (filter P l), last (filter Q l) with
  | Some a, Some b => if b.1 <? a.1 then Some a else Some b
  | Some a, None => Some a
  | None, o => o
  end.
Proof.
  induction l as [|x l IH] using rev_ind; [done|]. intros Hs.
  assert (Hl : StronglySorted (fun a b : Z * A => a.1 < b.1) l /\ forall y, y ∈ l -> y.1 < x.1).
  { clear IH. induction l as [|y l IH]; [split; [constructor|set_solver]|].
    cbn [app] in Hs. apply StronglySorted_inv in Hs as [Hs Hy].
    destruct (IH Hs) as [H1 H2]. rewrite Forall_app in Hy. destruct Hy as [Hy1 Hy2]. split.
    - by constructor.
    - intros z [->|Hz]%elem_of_cons; [by apply Forall_inv in Hy2|by apply H2]. }
  destruct Hl as [Hl Hx]. specialize (IH Hl).
  assert (Hlast : forall (F : Z * A -> Prop) `{!forall x, Decision (F x)} y,
    last (filter F l) = Some y -> y.1 < x.1).
  { intros F HF y Hy. apply Hx. apply last_Some_elem_of in Hy. by apply list_elem_of_filter in Hy as [_ ?]. }
  rewrite !filter_app, !filter_cons, !filter_nil.
  destruct (decide (P x)) as [HP|HP], (decide (Q x)) as [HQ|HQ];
    destruct (decide (P x \/ Q x)) as [HPQ|HPQ]; try tauto; rewrite ?app_nil_r, ?last_snoc.
  - by rewrite Z.ltb_irrefl.
  - destruct (last (filter Q l)) as [b|] eqn:Eb; [|done].
    apply Hlast in Eb. by rewrite (proj2 (Z.ltb_lt _ _) Eb).
  - destruct (last (filter P l)) as [a|] eqn:Ea; [|done].
    apply Hlast in Ea. destruct (Z.ltb_spec x.1 a.1); [lia|done].
  - exact IH.
Qed.

Lemma StronglySorted_snoc {A} (R : A -> A -> Prop) l x :
  StronglySorted R l -> (forall y, y ∈ l -> R y x) -> StronglySorted R (l ++ [x]).
Proof.
  induction 1 as [|y l Hs IH Hy]; intros Hx; cbn [app]; [by repeat constructor|].
  constructor; [apply IH; set_solver|]. apply Forall_app. split; [done|].
  constructor; [apply Hx; set_solver|constructor].
Qed.

Lemma indexed_snoc l x : indexed (l ++ [x]) = indexed l ++ [(Z.of_nat (length l), x)].
Proof.
  unfold indexed. rewrite imap_app. cbn [imap]. do 3 f_equal. unfold compose. by rewrite Nat.add_0_r.
Qed.

Lemma indexed_spec l :
  StronglySorted (fun a b : Z * ReserveApySample => a.1 < b.1) (indexed l) /\
  map snd (indexed l) = l /\ forall p, p ∈ indexed l -> 0 <= p.1 < Z.of_nat (length l).
Proof.
  induction l as [|x l (IH1 & IH2 & IH3)] using rev_ind.
  { split_and!; [constructor|done|]. intros p Hp. set_solver. }
  rewrite indexed_snoc, length_app. cbn [length]. split_and!.
  - apply StronglySorted_snoc; [done|]. intros y Hy. apply IH3 in Hy. simpl. lia.
  - by rewrite map_app, IH2.
  - intros p [Hp|Hp]%elem_of_app; [apply IH3 in Hp; lia|].
    apply list_elem_of_singleton in Hp as ->. simpl. lia.
Qed.

Lemma StronglySorted_map_inv {A B} (f : A -> B) (key : B -> Z) l :
  StronglySorted (key_le key) (map f l) -> StronglySorted (key_le (fun x => key (f x))) l.
Proof.
  induction l as [|x l IH]; intros Hs; [constructor|]. apply StronglySorted_inv in Hs as [Hs Hx].
  constructor; [by apply IH|]. exact (proj1 (List.Forall_map _ _ _) Hx).
Qed.

(** The last of the numbered samples in a scope that are not after [atMs]. *)
Definition last_in_scope (samples : list ReserveApySample) (r : option string) (atMs : Z) :
    option (Z * ReserveApySample) :=
  last (at_or_before sample_time atMs (filter (in_scope r) (indexed samples))).

Section ApyLookup.
Context (samples : list ReserveApySample).
Hypothesis samples_sorted : StronglySorted (key_le sa_observedAt) samples.
Hypothesis samples_short : Z.of_nat (length samples) < 2 ^ 30.

Lemma indexed_time_sorted : StronglySorted (key_le sample_time) (indexed samples).
Proof.
  destruct (indexed_spec samples) as (_ & E & _). apply (StronglySorted_map_inv snd sa_observedAt).
  by rewrite E.
Qed.

Lemma length_indexed : length (indexed samples) = length samples.
Proof. unfold indexed. apply length_imap. Qed.

Lemma series_lookup {B} (f : Z * ReserveApySample -> B) (P : Z * ReserveApySample -> Prop)
    `{!forall x, Decision (P x)} atMs :
  itemAt (map f (filter P (indexed samples)))
    (lastIndexAtOrBefore (map sample_time (filter P (indexed samples))) atMs)
  = f <$> last (at_or_before sample_time atMs (filter P (indexed samples))).
Proof.
  rewrite itemAt_map, itemAt_last; [done|apply StronglySorted_filter, indexed_time_sorted|].
  pose proof (length_filter P (indexed samples)) as Hle. pose proof length_indexed. lia.
Qed.

Lemma all_lookup {B} (f : Z * ReserveApySample -> B) atMs :
  itemAt (map f (indexed samples)) (lastIndexAtOrBefore (map sample_time (indexed samples)) atMs)
  = f <$> last (at_or_before sample_time atMs (indexed samples)).
Proof.
  rewrite itemAt_map, itemAt_last; [done|apply indexed_time_sorted|]. by rewrite length_indexed.
Qed.

(** A found position is an index that is not -1, and the rate is the one found there. *)
Lemma found_item {A} (l : list A) found x : itemAt l found = Some x -> l !! Z.to_nat found = Some x.
Proof. unfold itemAt. by destruct (found =? -1). Qed.

Lemma last_in_scope_position r atMs p : last_in_scope samples r atMs = Some p -> 0 <= p.1.
Proof.
  intros Hp. apply last_Some_elem_of, list_elem_of_filter in Hp as [_ [_ Hp]%list_elem_of_filter].
  destruct (indexed_spec samples) as (_ & _ & H). apply H in Hp. lia.
Qed.

Lemma getApyAt_scoped r atMs : r <> EmptyString ->
  getApyAt samples (Some r) atMs =
  (fun p => sa_supplyApy p.2) <$>
  match last_in_scope samples (Some r) atMs, last_in_scope samples None atMs with
  | Some a, Some b => if b.1 <? a.1 then Some a else Some b
  | Some a, None => Some a
  | None, o => o
  end.
Proof.
  intros Hr. unfold getApyAt, last_in_scope. destruct r as [|ch r0]; [done|].
  destruct (indexOf_spec (indexed samples)) as (_ & Hu & Hby).
  change (getApyIndex samples) with (indexOf (indexed samples)).
  rewrite Hu, Hby. cbn [series_of apys positions times].
  rewrite (series_lookup fst (in_scope None)).
  pose proof (series_lookup (fun p => sa_supplyApy p.2) (in_scope None) atMs) as HU.
  pose proof (last_in_scope_position None atMs) as PU. unfold last_in_scope in PU.
  pose proof (series_lookup fst (in_scope (Some (String ch r0))) atMs) as HP.
  pose proof (series_lookup (fun p => sa_supplyApy p.2) (in_scope (Some (String ch r0))) atMs) as HA.
  pose proof (last_in_scope_position (Some (String ch r0)) atMs) as PS. unfold last_in_scope in PS.
  set (F := filter (in_scope (Some (String ch r0))) (indexed samples)) in *.
  set (G := filter (in_scope None) (indexed samples)) in *.
  destruct (last (at_or_before sample_time atMs G)) as [b|];
    cbn [fmap option_fmap option_map default from_option id] in *;
    [specialize (PU b eq_refl); apply found_item in HU|];
    (destruct F as [|p F'] eqn:EF; cbn [scope_series]; [cbn [at_or_before filter list_filter last]|
     cbn [series_of positions times apys]; rewrite HP;
     destruct (last (at_or_before sample_time atMs (p :: F'))) as [a|];
       cbn [fmap option_fmap option_map default from_option id] in *;
       [specialize (PS a eq_refl); apply found_item in HA|]]).
  all: repeat match goal with
    | |- context [?a =? ?b] => destruct (Z.eqb_spec a b)
    | |- context [?a <? ?b] => destruct (Z.ltb_spec a b)
    end; cbn [andb]; try lia; try done; rewrite ?HU, ?HA; done.
Qed.

Lemma filter_snd (P : ReserveApySample -> Prop) `{!forall x, Decision (P x)} (l : list (Z * ReserveApySample)) :
  filter P (map snd l) = map snd (filter (fun p => P p.2) l).
Proof.
  induction l as [|x l IH]; [done|]. cbn [map]. rewrite !filter_cons.
  case_decide; cbn [map]; by rewrite IH.
Qed.

Lemma last_map {A B} (f : A -> B) l : last (map f l) = f <$> last l.
Proof. induction l as [|x [|y l] IH]; [done..|]. exact IH. Qed.

(** The samples that rate an exposure to a reserve: its own and those without a
    reserve; all of them when no reserve is named. *)
Definition relevant (reserve : option string) (s : ReserveApySample) : Prop :=
  match reserve with
  | None | Some EmptyString => True
  | Some r => sa_reserve s = Some r \/ sa_reserve s = None
  end.
#[global] Instance relevant_dec reserve s : Decision (relevant reserve s).
Proof. unfold relevant. destruct reserve as [[|]|]; apply _. Defined.

Lemma getApyAt_linear reserve atMs :
  getApyAt samples reserve atMs =
  sa_supplyApy <$> last (filter (fun s => sa_observedAt s <= atMs /\ relevant reserve s) samples).
Proof.
  destruct (indexed_spec samples) as (Hfst & Hsnd & _).
  rewrite <- Hsnd at 2. rewrite filter_snd, last_map.
  assert (Hall : match reserve with None | Some EmptyString => True | _ => False end ->
    getApyAt samples reserve atMs
    = (fun p => sa_supplyApy p.2) <$> last (at_or_before sample_time atMs (indexed samples))).
  { intros Hr. rewrite <- all_lookup. unfold getApyAt.
    destruct (indexOf_spec (indexed samples)) as (Ha & _ & _).
    change (getApyIndex samples) with (indexOf (indexed samples)). rewrite Ha.
    by destruct reserve as [[|]|]. }
  assert (Hgo : forall (P Q : Z * ReserveApySample -> Prop) `{!forall x, Decision (P x)} `{!forall x, Decision (Q x)},
    (forall p, P p <-> Q p) -> filter P (indexed samples) = filter Q (indexed samples))
    by (intros; by apply list_filter_iff).
  rewrite <- option_fmap_compose.
  destruct reserve as [[|ch r]|]; [| |].
  - rewrite Hall by done. do 2 f_equal. apply Hgo. intros p. simpl. tauto.
  - rewrite getApyAt_scoped by done. unfold last_in_scope, at_or_before.
    rewrite !list_filter_filter, <- last_filter_or by done. do 2 f_equal. apply Hgo.
    intros p. unfold in_scope, sample_time. simpl. tauto.
  - rewrite Hall by done. do 2 f_equal. apply Hgo. intros p. simpl. tauto.
Qed.
End ApyLookup.

(** ** Principal accounting *)
Definition msum (m : gmap string Z) : Z := map_fold (fun _ v acc => v + acc) 0 m.

Lemma msum_fresh k v m : m !! k = None -> msum (<[k := v]> m) = v + msum m.
Proof. intros H. unfold msum. rewrite map_fold_insert_L; [done| |done]. intros. lia. Qed.

Lemma msum_insert k v m : msum (<[k := v]> m) = msum m + (v - default 0 (m !! k)).
Proof.
  destruct (m !! k) as [w|] eqn:E; cbn [default from_option id].
  - rewrite <- (insert_delete_id m k w E) at 2. rewrite <- insert_delete_eq.
    rewrite !msum_fresh by apply lookup_delete_eq. lia.
  - rewrite msum_fresh by done. lia.
Qed.

Lemma msum_nonneg m : (forall k v, m !! k = Some v -> 0 <= v) -> 0 <= msum m.
Proof.
  intros H. unfold msum. apply (map_fold_weak_ind (fun r m' => (forall k v, m' !! k = Some v -> m !! k = Some v) -> 0 <= r)
    (fun _ v acc => v + acc)); [done| |done].
  intros k v m' r Hk IH Hsub. pose proof (H k v (Hsub k v (lookup_insert_eq m' k v))).
  enough (0 <= r) by lia. apply IH. intros k' v' Hk'. apply Hsub.
  rewrite lookup_insert_ne; [done|]. congruence.
Qed.

(** Amounts that cannot be negative. *)
Definition amounts_ok (l : list YieldPositionEvent) : Prop := Forall (fun e => 0 <= ev_amountRaw e) l.

(** The balance of one key, replayed over its own events. *)
Definition own_balance (clamp : PrincipalClamp) (k : string) (l : list YieldPositionEvent) : Z :=
  fold_left (fun c e => nextBalance clamp e c) (filter (fun e => eventKey clamp e = k) l) 0.

(** The accounting state after the events [l]. *)
Record accounts_for (clamp : PrincipalClamp) (l : list YieldPositionEvent) (st : PrincipalState) : Prop := {
  af_total : 0 <= ps_total st;
  af_sum : clamp <> ClampTotal -> ps_total st = msum (ps_byMint st);
  af_balance : clamp <> ClampTotal -> forall k b,
    ps_byMint st !! k = Some b -> 0 <= b /\ b = own_balance clamp k l;
  af_missing : clamp <> ClampTotal -> forall k, ps_byMint st !! k = None -> own_balance clamp k l = 0;
}.

Lemma clampedSubtract_nonneg c a : 0 <= c -> 0 <= a -> 0 <= clampedSubtract c a <= c.
Proof. unfold clampedSubtract. destruct (Z.ltb_spec a c); lia. Qed.

Lemma eventAmount_nonneg e : 0 <= ev_amountRaw e -> deltaInvalid e = false -> 0 <= eventAmount e.
Proof.
  unfold eventAmount, deltaInvalid. destruct (ev_principalDeltaRaw e) as [d|]; [|done].
  destruct (ev_type e); intros _; [rewrite Z.ltb_ge|rewrite Z.ltb_ge]; lia.
Qed.

Lemma nextBalance_nonneg clamp e c :
  0 <= c -> 0 <= eventAmount e -> 0 <= nextBalance clamp e c.
Proof.
  intros Hc Ha. unfold nextBalance. destruct (truthy (ev_settlesPosition e)); [done|].
  destruct (ev_type e); [destruct (_ && _); lia|]. by apply clampedSubtract_nonneg.
Qed.

Lemma own_balance_snoc clamp k l e :
  own_balance clamp k (l ++ [e]) =
  if decide (eventKey clamp e = k) then nextBalance clamp e (own_balance clamp k l) else own_balance clamp k l.
Proof.
  unfold own_balance. rewrite filter_app, fold_left_app, filter_cons, filter_nil. by case_decide.
Qed.

Lemma principalStep_spec clamp st e st' :
  principalStep clamp st e = Ok st' ->
  deltaInvalid e = false /\
  ps_totals st' = ps_totals st ++ [ps_total st'] /\
  ps_times st' = ps_times st ++ [ev_confirmedAt e] /\
  (clamp = ClampTotal ->
     ps_total st' = match ev_type e with
                    | Deposit => ps_total st + eventAmount e
                    | Withdrawal => clampedSubtract (ps_total st) (eventAmount e) end) /\
  (clamp <> ClampTotal ->
     let k := eventKey clamp e in
     let next := nextBalance clamp e (default 0 (ps_byMint st !! k)) in
     ps_byMint st' = <[k := next]> (ps_byMint st) /\
     ps_total st' = ps_total st + (next - default 0 (ps_byMint st !! k))).
Proof.
  unfold principalStep. destruct (deltaInvalid e); [done|]. intros H. simpl_bind H.
  destruct v as [byMint total]. inv_results. subst st'. cbn [ps_totals ps_times ps_total ps_byMint].
  destruct clamp; [| |]; cbv zeta in E |- *;
    try (destruct (positionIncomplete _ e _); [done|]); injection E as <- <-;
    (split_and!; [done..| |]); intros; try done.
Qed.

Lemma accounts_step clamp l st e st' :
  accounts_for clamp l st -> 0 <= ev_amountRaw e -> principalStep clamp st e = Ok st' ->
  accounts_for clamp (l ++ [e]) st'.
Proof.
  intros [Ht Hs Hb Hm] Ha H. apply principalStep_spec in H as (Hd & _ & _ & H1 & H2).
  pose proof (eventAmount_nonneg e Ha Hd) as Hamt.
  destruct (decide (clamp = ClampTotal)) as [->|Hc].
  { constructor; [|done..]. rewrite (H1 eq_refl).
    destruct (ev_type e); [lia|]. by apply clampedSubtract_nonneg. }
  specialize (Hs Hc). specialize (Hb Hc). specialize (Hm Hc). destruct (H2 Hc) as [E1 E2]. clear H1 H2.
  set (k0 := eventKey clamp e) in *.
  assert (Hown : default 0 (ps_byMint st !! k0) = own_balance clamp k0 l /\ 0 <= own_balance clamp k0 l).
  { destruct (ps_byMint st !! k0) as [b|] eqn:E; cbn [default from_option id].
    - apply Hb in E. lia.
    - apply Hm in E. lia. }
  destruct Hown as [Hown Hown0]. rewrite Hown in E1, E2.
  assert (Hbal : forall k b, ps_byMint st' !! k = Some b -> 0 <= b /\ b = own_balance clamp k (l ++ [e])).
  { intros k b. rewrite E1, own_balance_snoc. fold k0. destruct (decide (k0 = k)) as [<-|Hne].
    - rewrite lookup_insert_eq. intros [= <-]. split; [|done]. by apply nextBalance_nonneg.
    - rewrite lookup_insert_ne by done. apply Hb. }
  assert (Hsum : ps_total st' = msum (ps_byMint st')) by (rewrite E1, E2, msum_insert, Hown; lia).
  constructor; [|done|intros _; exact Hbal|].
  - rewrite Hsum. apply msum_nonneg. intros k v Hv. apply (Hbal k v Hv).
  - intros _ k Hk. rewrite own_balance_snoc. fold k0. rewrite E1 in Hk.
    destruct (decide (k0 = k)) as [<-|Hne]; [by rewrite lookup_insert_eq in Hk|].
    rewrite lookup_insert_ne in Hk by done. by apply Hm.
Qed.

Lemma accounts_empty clamp : accounts_for clamp [] emptyPrincipal.
Proof. constructor; [done..| |done]. intros _ k b. cbn [emptyPrincipal ps_byMint]. by rewrite lookup_empty. Qed.

Lemma foldR_app {A S} (f : S -> A -> result S) s l1 l2 :
  foldR f s (l1 ++ l2) = (s' ← foldR f s l1; foldR f s' l2).
Proof.
  revert s. induction l1 as [|x l1 IH]; intros s; [done|]. cbn [foldR app].
  destruct (f s x); [|done]. apply IH.
Qed.

(** Replaying all events goes through the replay of every prefix. *)
Lemma replay_prefix clamp l st :
  amounts_ok l -> foldR (principalStep clamp) emptyPrincipal l = Ok st ->
  ps_times st = map ev_confirmedAt l /\ length (ps_totals st) = length l /\ accounts_for clamp l st /\
  forall n, (n <= length l)%nat -> exists stn,
    foldR (principalStep clamp) emptyPrincipal (take n l) = Ok stn /\
    accounts_for clamp (take n l) stn /\
    (0 < n -> ps_totals st !! (n - 1) = Some (ps_total stn))%nat.
Proof.
  revert st. induction l as [|e l IH] using rev_ind; intros st Ha H.
  - cbn [foldR] in H. injection H as <-. split_and!; [done|done|apply accounts_empty|].
    intros n Hn. destruct n; [|simpl in Hn; lia]. exists emptyPrincipal.
    split_and!; [done|apply accounts_empty|lia].
  - apply Forall_app in Ha as [Ha He]. apply Forall_inv in He.
    rewrite foldR_app in H. simpl_bind H. cbn [foldR] in H. simpl_bind H. injection H as <-.
    destruct (IH _ Ha E) as (T1 & T2 & T3 & T4). clear IH.
    pose proof (accounts_step _ _ _ _ _ T3 He E0) as Hacc.
    apply principalStep_spec in E0 as Hst. destruct Hst as (_ & Htot & Htim & _).
    rewrite Htim, Htot, T1, map_app, !length_app, T2. split_and!; [done..|].
    intros n Hn. cbn [length] in Hn. destruct (decide (n <= length l)%nat) as [Hle|Hgt].
    + rewrite take_app_le by done. destruct (T4 n Hle) as (stn & H1 & H2 & H3).
      exists stn. split_and!; [done..|]. intros H0. rewrite lookup_app_l by lia. by apply H3.
    + replace n with (length l + 1)%nat by lia. rewrite take_ge by (rewrite length_app; simpl; lia).
      exists v0. rewrite foldR_app, E. cbn [mbind result_bind foldR]. rewrite E0.
      split_and!; [done..|]. intros _. rewrite lookup_app_r by lia.
      by replace (length l + 1 - 1 - length (ps_totals v))%nat with O by lia.
Qed.

Lemma amounts_ok_perm l l' : l' ≡ₚ l -> amounts_ok l -> amounts_ok l'.
Proof. intros Hp H. unfold amounts_ok in *. by rewrite Hp. Qed.

Lemma replay_times clamp l st :
  foldR (principalStep clamp) emptyPrincipal l = Ok st -> ps_times st = map ev_confirmedAt l.
Proof.
  revert st. induction l as [|e l IH] using rev_ind; intros st H; [by injection H as <-|].
  rewrite foldR_app in H. simpl_bind H. cbn [foldR] in H. simpl_bind H. injection H as <-.
  apply principalStep_spec in E0 as (_ & _ & -> & _). by rewrite (IH _ E), map_app.
Qed.

(** The principal at a time is the total after replaying the events confirmed by then. *)
Lemma principalAt_replay events atMs clamp p :
  amounts_ok events -> Z.of_nat (length events) < 2 ^ 30 -> principalAt events atMs clamp = Ok p ->
  exists sorted st,
    sortEarningsEvents events = Ok sorted /\
    foldR (principalStep clamp) emptyPrincipal (at_or_before ev_confirmedAt atMs sorted) = Ok st /\
    accounts_for clamp (at_or_before ev_confirmedAt atMs sorted) st /\ p = ps_total st.
Proof.
  intros Ha Hl H. unfold principalAt, getPrincipalIndex in H. inv_results. subst p.
  rename v0 into sorted, v into st, E0 into Es, E into Ef. exists sorted.
  destruct (sort_events _ _ Es) as (_ & Hs & Hp).
  apply (amounts_ok_perm events sorted Hp) in Ha. apply Permutation_length in Hp.
  destruct (replay_prefix _ _ _ Ha Ef) as (Ht & Hlen & _ & Hpre).
  pose proof (at_or_before_take ev_confirmedAt atMs sorted Hs) as Htk.
  set (n := length (at_or_before ev_confirmedAt atMs sorted)) in *.
  assert (Hn : (n <= length sorted)%nat) by (unfold n, at_or_before; apply length_filter).
  destruct (Hpre n Hn) as (stn & H1 & H2 & H3). exists stn. rewrite Htk. split_and!; [done..|].
  rewrite Ht, lastIndex_count by (by apply StronglySorted_map || (rewrite length_map; lia)).
  rewrite at_or_before_map. fold n. unfold itemAt.
  destruct (Z.eqb_spec (Z.of_nat n - 1) (-1)).
  - replace n with O in * by lia. cbn [take foldR] in H1. by injection H1 as <-.
  - replace (Z.to_nat (Z.of_nat n - 1)) with (n - 1)%nat by lia. by rewrite H3 by lia.
Qed.

(** ** Windows integrate piecewise constant functions *)
Lemma at_or_before_same {A} (key : A -> Z) a u l :
  a <= u -> (forall x, x ∈ l -> key x <= a \/ u < key x) -> at_or_before key u l = at_or_before key a l.
Proof.
  intros Hau. unfold at_or_before. induction l as [|x l IH]; intros Hx; [done|].
  rewrite !filter_cons, IH by set_solver. destruct (Hx x); [set_solver|..];
    repeat case_decide; (done || lia).
Qed.

Lemma set_add_spec y s : NoDup s -> NoDup (set_add y s) /\ forall x, x ∈ set_add y s <-> x = y \/ x ∈ s.
Proof.
  intros Hs. unfold set_add. case_bool_decide as Hy.
  - split; [done|]. intros x. split; [tauto|]. by intros [->|].
  - split; [apply NoDup_app; split_and!; [done|set_solver|apply NoDup_singleton]|]. set_solver.
Qed.

Lemma addChange_fold startMs endMs l : forall s, NoDup s ->
  NoDup (fold_left (addChange startMs endMs) l s) /\
  forall x, x ∈ fold_left (addChange startMs endMs) l s <->
            x ∈ s \/ (x ∈ l /\ startMs < x < endMs).
Proof.
  induction l as [|t l IH]; intros s Hs; cbn [fold_left]; [split; [done|set_solver]|].
  unfold addChange at 2 4. destruct (Z.ltb_spec startMs t), (Z.ltb_spec t endMs); cbn [andb].
  2-4: destruct (IH s Hs) as [H1 H2]; split; [done|]; intros x; rewrite H2, elem_of_cons;
    split; [tauto|]; intros [|[[->|] ?]]; [tauto|lia|tauto].
  destruct (set_add_spec t s Hs) as [Hn Hm]. destruct (IH _ Hn) as [H1 H2]. split; [done|].
  intros x. rewrite H2, Hm, elem_of_cons. split; [|tauto].
  intros [[->|]|]; [right; split; [tauto|lia]|tauto..].
Qed.

Lemma changeTimes_spec startMs endMs l : startMs < endMs ->
  StronglySorted Z.lt (changeTimes startMs endMs l) /\
  forall x, x ∈ changeTimes startMs endMs l <->
            x = startMs \/ x = endMs \/ (x ∈ l /\ startMs < x < endMs).
Proof.
  intros H. unfold changeTimes.
  destruct (set_add_spec endMs [startMs] (NoDup_singleton _)) as [Hn Hm].
  destruct (addChange_fold startMs endMs l _ Hn) as [H1 H2].
  set (s := fold_left _ l _) in *. destruct (sort_by_spec id s) as [Hs Hp]. split.
  - assert (Hnd : NoDup (sort_by id s)) by (by rewrite Hp). clear -Hs Hnd.
    induction Hs as [|x l' Hs IH Hx]; [constructor|]. apply NoDup_cons in Hnd as [Hnx Hnd].
    constructor; [by apply IH|]. apply Forall_forall. intros y Hy.
    rewrite Forall_forall in Hx. specialize (Hx y Hy). unfold key_le, id in Hx.
    destruct (Z.eq_dec x y) as [->|]; [done|lia].
  - intros x. rewrite Hp, H2, Hm, list_elem_of_singleton. tauto.
Qed.

Lemma segments_spec l a b : StronglySorted Z.lt l -> (a, b) ∈ segments l ->
  a ∈ l /\ b ∈ l /\ a < b /\ forall x, x ∈ l -> x <= a \/ b <= x.
Proof.
  induction 1 as [|x l Hs IH Hx]; [set_solver|]. destruct l as [|y l]; [set_solver|].
  change (segments (x :: y :: l)) with ((x, y) :: segments (y :: l)).
  rewrite Forall_cons in Hx. destruct Hx as [Hxy Hx].
  intros [[= -> ->]|Hin]%elem_of_cons.
  - split_and!; [set_solver..|done|]. intros z [->|Hz]%elem_of_cons; [lia|]. right.
    apply elem_of_cons in Hz as [->|Hz]; [lia|]. apply StronglySorted_inv in Hs as [_ Hy].
    rewrite Forall_forall in Hy. specialize (Hy z Hz). lia.
  - destruct (IH Hin) as (H1 & H2 & H3 & H4). split_and!; [set_solver..|done|].
    intros z [->|Hz]%elem_of_cons; [|by apply H4]. left.
    apply elem_of_cons in H1 as [->|H1]; [lia|]. rewrite Forall_forall in Hx. specialize (Hx a H1). lia.
Qed.

(** The segments between ordered times cover everything from the first to the last. *)
Lemma segments_cover_head l x last' u :
  StronglySorted Z.lt (x :: l) -> last' ∈ x :: l -> x <= u < last' ->
  exists a b, (a, b) ∈ segments (x :: l) /\ a <= u < b.
Proof.
  revert x. induction l as [|y l IH]; intros x Hs Hl Hu.
  { apply list_elem_of_singleton in Hl. lia. }
  change (segments (x :: y :: l)) with ((x, y) :: segments (y :: l)).
  destruct (Z.lt_ge_cases u y); [exists x, y; split; [set_solver|lia]|].
  apply StronglySorted_inv in Hs as [Hs Hx].
  destruct (IH y Hs) as (a & b & H1 & H2); [|lia|exists a, b; split; [set_solver|done]].
  apply elem_of_cons in Hl as [->|]; [lia|done].
Qed.

Lemma segments_cover l first last' u : StronglySorted Z.lt l -> first ∈ l -> last' ∈ l -> first <= u < last' ->
  exists a b, (a, b) ∈ segments l /\ a <= u < b.
Proof.
  intros Hs Hf Hl Hu. destruct l as [|x l]; [set_solver|].
  apply (segments_cover_head l x last'); [done..|]. split; [|lia].
  apply elem_of_cons in Hf as [->|Hf]; [lia|]. apply StronglySorted_inv in Hs as [_ Hx].
  rewrite Forall_forall in Hx. specialize (Hx _ Hf). lia.
Qed.

Definition span (segs : list (Z * Z)) : Z := foldr (fun s acc => s.2 - s.1 + acc) 0 segs.

Lemma segments_span l x : span (segments (x :: l)) = default x (last l) - x.
Proof.
  revert x. induction l as [|y l IH]; intros x; [cbn; lia|].
  change (segments (x :: y :: l)) with ((x, y) :: segments (y :: l)). cbn [span foldr fst snd].
  change (foldr _ 0 (segments (y :: l))) with (span (segments (y :: l))). rewrite IH.
  destruct l as [|z l]; cbn [last default from_option id]; [lia|].
  change (last (y :: z :: l)) with (last (z :: l)).
  destruct (last (z :: l)) eqn:E; cbn [default from_option id]; [lia|].
  apply last_None in E. done.
Qed.

(** The segments of a window partition it, and no change lies inside one. *)
Lemma window_partition startMs endMs l : startMs < endMs ->
  let segs := segments (changeTimes startMs endMs l) in
  span segs = endMs - startMs /\
  forall u, startMs <= u < endMs ->
    exists a b, (a, b) ∈ segs /\ startMs <= a <= u /\ u < b <= endMs /\
                forall t, t ∈ l -> t <= a \/ u < t.
Proof.
  intros H segs. destruct (changeTimes_spec startMs endMs l H) as [Hs Hm].
  set (ts := changeTimes startMs endMs l) in *. split.
  - destruct ts as [|x ts'] eqn:E; [pose proof (proj2 (Hm startMs) (or_introl eq_refl)); set_solver|].
    unfold segs. rewrite segments_span. apply StronglySorted_inv in Hs as Hs'. destruct Hs' as [Hs' Hx].
    assert (Hin : forall y, y ∈ x :: ts' -> startMs <= y <= endMs) by (intros y Hy; apply Hm in Hy; lia).
    assert (x = startMs) as ->.
    { assert (Hst : startMs ∈ x :: ts') by (apply Hm; tauto).
      apply elem_of_cons in Hst as [|Hst]; [done|]. rewrite Forall_forall in Hx.
      specialize (Hx _ Hst). specialize (Hin x ltac:(set_solver)). lia. }
    assert (Hend : endMs ∈ ts') by (assert (endMs ∈ startMs :: ts') by (apply Hm; tauto); set_solver by lia).
    clear Hx Hs Hm E segs. f_equal. destruct ts' as [|y ts'] using rev_ind; [set_solver|].
    rewrite last_snoc. cbn [default from_option id].
    apply elem_of_app in Hend as [Hend|Hend]; [|by apply list_elem_of_singleton in Hend].
    assert (Hlt : endMs < y).
    { clear -Hs' Hend. induction ts' as [|z ts' IH]; [set_solver|].
      cbn [app] in Hs'. apply StronglySorted_inv in Hs' as [Hs' Hz].
      apply elem_of_cons in Hend as [->|Hend]; [|by apply IH].
      rewrite Forall_app in Hz. destruct Hz as [_ Hz]. by apply Forall_inv in Hz. }
    specialize (Hin y ltac:(set_solver)). lia.
  - intros u Hu.
    destruct (segments_cover ts startMs endMs u Hs) as (a & b & Hin & Hab); [apply Hm; tauto..|done|].
    destruct (segments_spec ts a b Hs Hin) as (Ha & Hb & Hlt & Hgap).
    apply Hm in Ha as Ha'. apply Hm in Hb as Hb'. exists a, b. split_and!; try done; try lia.
    intros t Ht. destruct (Z.le_gt_cases t a) as [|Hta]; [by left|]. right.
    destruct (Z.lt_ge_cases u t) as [|Htu]; [done|exfalso].
    assert (Htin : t ∈ ts) by (apply Hm; right; right; split; [done|lia]).
    apply Hgap in Htin. lia.
Qed.

Lemma itemAt_same {A} (key : A -> Z) items a u :
  StronglySorted (key_le key) items -> Z.of_nat (length items) < 2 ^ 30 ->
  a <= u -> (forall x, x ∈ items -> key x <= a \/ u < key x) ->
  itemAt items (lastIndexAtOrBefore (map key items) u) = itemAt items (lastIndexAtOrBefore (map key items) a).
Proof. intros. rewrite !itemAt_last by done. f_equal. by apply at_or_before_same. Qed.

Lemma getApyAt_same samples reserve a u :
  StronglySorted (key_le sa_observedAt) samples -> Z.of_nat (length samples) < 2 ^ 30 ->
  a <= u -> (forall s, s ∈ samples -> sa_observedAt s <= a \/ u < sa_observedAt s) ->
  getApyAt samples reserve u = getApyAt samples reserve a.
Proof.
  intros Hs Hl Hau Hx. rewrite !getApyAt_linear by done. do 2 f_equal.
  clear Hs Hl. induction samples as [|s l IH]; [done|]. rewrite !filter_cons, IH by set_solver.
  assert (E : sa_observedAt s <= u <-> sa_observedAt s <= a) by (destruct (Hx s ltac:(set_solver)); lia).
  case_decide as H1; case_decide as H2; first [done|exfalso; tauto].
Qed.

Lemma principalAt_same events clamp a u :
  Z.of_nat (length events) < 2 ^ 30 ->
  a <= u -> (forall e, e ∈ events -> ev_confirmedAt e <= a \/ u < ev_confirmedAt e) ->
  principalAt events u clamp = principalAt events a clamp.
Proof.
  intros Hl Hau Hx. unfold principalAt, getPrincipalIndex.
  destruct (sortEarningsEvents events) as [sorted|] eqn:Es; [|done]. cbn [mbind result_bind].
  destruct (sort_events _ _ Es) as (_ & Hs & Hp).
  destruct (foldR _ _ sorted) as [st|] eqn:Ef; [|done]. cbn [mbind result_bind]. do 2 f_equal.
  rewrite (replay_times _ _ _ Ef). f_equal.
  rewrite !lastIndex_count
    by (by apply StronglySorted_map || (rewrite length_map, (Permutation_length Hp); done)).
  do 3 f_equal. apply at_or_before_same; [done|]. intros t (e & -> & He)%list_elem_of_fmap.
  unfold id. apply Hx. by rewrite <- Hp.
Qed.

Lemma sort_insert_throws {A} (cmp : A -> A -> result Z) x l e :
  sort_insert cmp x l = Throw e -> exists y, y ∈ l /\ cmp x y = Throw e.
Proof.
  induction l as [|y l IH]; cbn [sort_insert]; [done|].
  destruct (cmp x y) as [c|e'] eqn:E; cbn [mbind result_bind].
  - destruct (c <? 0); [done|]. destruct (sort_insert cmp x l); [done|]. intros [= ->].
    destruct (IH eq_refl) as (z & Hz & Hc). exists z. set_solver.
  - intros [= ->]. exists y. set_solver.
Qed.

Lemma sort_throws {A} (cmp : A -> A -> result Z) l e : antisymmetric cmp ->
  sort cmp l = Throw e -> exists a b, a ∈ l /\ b ∈ l /\ cmp a b = Throw e.
Proof.
  intros Ha. unfold sort.
  assert (H : forall l acc, Sorted (before cmp) acc ->
    foldR (fun acc x => sort_insert cmp x acc) acc l = Throw e ->
    exists a b, a ∈ l /\ (b ∈ l \/ b ∈ acc) /\ cmp a b = Throw e).
  { clear l. induction l as [|x l IH]; intros acc Hs; cbn [foldR]; [done|].
    destruct (sort_insert cmp x acc) as [acc'|e'] eqn:E; cbn [mbind result_bind]; intros H.
    - destruct (sort_insert_spec cmp x Ha _ _ Hs E) as [Hs' Hp].
      destruct (IH acc' Hs' H) as (a & b & H1 & H2 & H3). exists a, b.
      split_and!; [set_solver| |done]. rewrite Hp in H2. set_solver.
    - injection H as ->. destruct (sort_insert_throws _ _ _ _ E) as (y & Hy & Hc).
      exists x, y. set_solver. }
  intros Ht. destruct (H l []) as (a & b & H1 & [H2|H2] & H3);
    [constructor|done|by exists a, b|set_solver].
Qed.

(** Ordering the history: the result is the same events, in time order, and every
    neighbouring pair is in an order that its timestamps, slots or ledger ids establish
    (or does not need one); when the order cannot be established the call throws, and
    then two of the events are indeed ambiguous. *)
Theorem sort_events_by_evidence (events : list YieldPositionEvent) :
  match sortEarningsEvents events with
  | Ok l => l ≡ₚ events /\ Sorted (before compareEvents) l /\
            StronglySorted (fun a b => ev_confirmedAt a <= ev_confirmedAt b) l
  | Throw e => exists a b, a ∈ events /\ b ∈ events /\ compareEvents a b = Throw e
  end.
Proof.
  destruct (sortEarningsEvents events) as [l|e] eqn:E.
  - destruct (sort_events _ _ E) as (H1 & H2 & H3). done.
  - by apply sort_throws in E; [|apply compareEvents_antisymmetric].
Qed.

(** The binary searches are linear searches: on time-ordered arrays the path state,
    the portfolio snapshot and the rate at a time are those of the last entry not after
    it, the rate over the reserve's own samples and those without a reserve. *)
Theorem indexed_lookups_linear (pathEvents : list YieldPositionPathEvent)
    (snapshots : list YieldPortfolioSnapshot) (samples : list ReserveApySample)
    (reserve : option string) (atMs : Z) :
  StronglySorted (fun a b => pe_confirmedAt a <= pe_confirmedAt b) pathEvents ->
  StronglySorted (fun a b => sn_observedAt a <= sn_observedAt b) snapshots ->
  StronglySorted (fun a b => sa_observedAt a <= sa_observedAt b) samples ->
  Forall (fun n => Z.of_nat n < 2 ^ 30) [length pathEvents; length snapshots; length samples] ->
  getPathStateAt pathEvents atMs = last (filter (fun e => pe_confirmedAt e <= atMs) pathEvents) /\
  getPortfolioSnapshotAt snapshots atMs = last (filter (fun s => sn_observedAt s <= atMs) snapshots) /\
  getApyAt samples reserve atMs =
    sa_supplyApy <$> last (filter (fun s => sa_observedAt s <= atMs /\ relevant reserve s) samples).
Proof.
  intros Hp Hn Hs Hl. rewrite !Forall_cons in Hl. destruct Hl as (L1 & L2 & L3 & _).
  split_and!; [by apply itemAt_last..|by apply getApyAt_linear].
Qed.

(** C14. The principal at a time is the replay of exactly the events confirmed by then:
    it is never negative and, unless one total is kept, it is the sum over mints (or
    positions) of each one's own clamped running balance. *)
Theorem principal_is_replay (events : list YieldPositionEvent) (atMs : Z) (clamp : PrincipalClamp) (p : Z) :
  Forall (fun e => 0 <= ev_amountRaw e) events -> Z.of_nat (length events) < 2 ^ 30 ->
  principalAt events atMs clamp = Ok p ->
  exists sorted st,
    sortEarningsEvents events = Ok sorted /\
    let confirmed := filter (fun e => ev_confirmedAt e <= atMs) sorted in
    foldR (principalStep clamp) emptyPrincipal confirmed = Ok st /\
    p = ps_total st /\ 0 <= p /\
    (clamp <> ClampTotal ->
     p = msum (ps_byMint st) /\
     forall k b, ps_byMint st !! k = Some b -> 0 <= b /\ b = own_balance clamp k confirmed).
Proof.
  intros Ha Hl H. destruct (principalAt_replay _ _ _ _ Ha Hl H) as (sorted & st & H1 & H2 & [] & ->).
  exists sorted, st. split; [done|]. cbv zeta. split; [done|]. split; [done|]. split; [done|].
  intros Hc. split; [auto|]. intros k b Hk. by apply af_balance0.
Qed.

(** A window is integrated over segments that partition it, and nothing changes
    inside a segment: at every moment of the window the path state and every rate are
    those at the start of the segment it lies in. *)
Theorem window_piecewise_constant (samples : list ReserveApySample)
    (pathEvents : list YieldPositionPathEvent) (startMs endMs : Z) :
  startMs < endMs ->
  StronglySorted (fun a b => pe_confirmedAt a <= pe_confirmedAt b) pathEvents ->
  StronglySorted (fun a b => sa_observedAt a <= sa_observedAt b) samples ->
  Forall (fun n => Z.of_nat n < 2 ^ 30) [length pathEvents; length samples] ->
  exists segs,
    calculateWindow samples pathEvents startMs endMs =
      (let '(earned, principalSeconds) :=
         fold_left (windowSegment samples pathEvents) segs (f64_zero, f64_zero) in
       {| avgPrincipalUsd := average principalSeconds startMs endMs; earnedUsd := earned;
          principalAmountRaw := pathPrincipalAt pathEvents endMs |}) /\
    span segs = endMs - startMs /\
    forall u, startMs <= u < endMs -> exists a b, (a, b) ∈ segs /\ a <= u < b /\
      getPathStateAt pathEvents u = getPathStateAt pathEvents a /\
      forall reserve, getApyAt samples reserve u = getApyAt samples reserve a.
Proof.
  intros H Hp Hs Hl. rewrite !Forall_cons in Hl. destruct Hl as (L1 & L2 & _).
  destruct (window_partition startMs endMs (map pe_confirmedAt pathEvents ++ map sa_observedAt samples) H)
    as [Hspan Hcover].
  eexists. split; [|split; [exact Hspan|]].
  - unfold calculateWindow. by destruct (Z.leb_spec endMs startMs); [lia|].
  - intros u Hu. destruct (Hcover u Hu) as (a & b & Hin & Ha & Hb & Hgap). exists a, b.
    split_and!; [done|lia|lia| |].
    + apply itemAt_same; [done..|lia|]. intros e He. apply Hgap, elem_of_app. left.
      by apply list_elem_of_fmap_2.
    + intros r. apply getApyAt_same; [done..|lia|]. intros s Hin'. apply Hgap, elem_of_app. right.
      by apply list_elem_of_fmap_2.
Qed.

(** The same for portfolio windows: the segments partition the window and the
    principal (or its failure), the snapshot and every rate are constant inside each. *)
Theorem portfolio_window_piecewise_constant (samples : list ReserveApySample)
    (events : list YieldPositionEvent) (clamp : PrincipalClamp)
    (snapshots : list YieldPortfolioSnapshot) (startMs endMs : Z) :
  startMs < endMs ->
  StronglySorted (fun a b => sn_observedAt a <= sn_observedAt b) snapshots ->
  StronglySorted (fun a b => sa_observedAt a <= sa_observedAt b) samples ->
  Forall (fun n => Z.of_nat n < 2 ^ 30) [length events; length snapshots; length samples] ->
  exists segs,
    calculatePortfolioWindow samples events clamp snapshots startMs endMs =
      ('(earned, principalSeconds) ←
         foldR (portfolioSegment samples events clamp snapshots) (f64_zero, f64_zero) segs;
       principal ← principalAt events endMs clamp;
       Ok {| avgPrincipalUsd := average principalSeconds startMs endMs; earnedUsd := earned;
             principalAmountRaw := principal |}) /\
    span segs = endMs - startMs /\
    forall u, startMs <= u < endMs -> exists a b, (a, b) ∈ segs /\ a <= u < b /\
      principalAt events u clamp = principalAt events a clamp /\
      getPortfolioSnapshotAt snapshots u = getPortfolioSnapshotAt snapshots a /\
      forall reserve, getApyAt samples reserve u = getApyAt samples reserve a.
Proof.
  intros H Hn Hs Hl. rewrite !Forall_cons in Hl. destruct Hl as (L1 & L2 & L3 & _).
  destruct (window_partition startMs endMs
    (map ev_confirmedAt events ++ map sn_observedAt snapshots ++ map sa_observedAt samples) H)
    as [Hspan Hcover].
  eexists. split; [|split; [exact Hspan|]].
  - unfold calculatePortfolioWindow. by destruct (Z.leb_spec endMs startMs); [lia|].
  - intros u Hu. destruct (Hcover u Hu) as (a & b & Hin & Ha & Hb & Hgap). exists a, b.
    split_and!; [done|lia|lia| | |].
    + apply principalAt_same; [done|lia|]. intros e He. apply Hgap, elem_of_app. left.
      by apply list_elem_of_fmap_2.
    + apply itemAt_same; [done..|lia|]. intros e He. apply Hgap. rewrite !elem_of_app. right; left.
      by apply list_elem_of_fmap_2.
    + intros r. apply getApyAt_same; [done..|lia|]. intros s Hin'. apply Hgap. rewrite !elem_of_app.
      right; right. by apply list_elem_of_fmap_2.
Qed.

(** ** Older wallets *)
Lemma legacyPath_times p l : map pe_confirmedAt (legacyPath p l) = map ev_confirmedAt l.
Proof. revert p. induction l as [|e l IH]; intros p; cbn [legacyPath map]; [done|]. by rewrite IH. Qed.

Lemma legacyPath_last p l :
  pe_principalAmountRaw <$> last (legacyPath p l) = if l is [] then None else Some (fold_left legacyStep l p).
Proof.
  revert p. induction l as [|e l IH]; intros p; [done|]. cbn [legacyPath fold_left].
  specialize (IH (legacyStep p e)). destruct l as [|e' l]; [done|]. exact IH.
Qed.

Lemma legacyPath_take p l n : take n (legacyPath p l) = legacyPath p (take n l).
Proof.
  revert p n. induction l as [|e l IH]; intros p [|n]; [done..|]. cbn [legacyPath take]. by rewrite IH.
Qed.

Definition plain_history (l : list YieldPositionEvent) : Prop :=
  Forall (fun e => 0 <= ev_amountRaw e /\ ev_principalDeltaRaw e = None) l.

Lemma total_replay l : plain_history l ->
  exists st, foldR (principalStep ClampTotal) emptyPrincipal l = Ok st /\
             ps_total st = fold_left legacyStep l 0 /\ 0 <= ps_total st.
Proof.
  induction l as [|e l IH] using rev_ind; intros H; [by exists emptyPrincipal|].
  apply Forall_app in H as [H He]. apply Forall_inv in He as [Ha Hd].
  destruct (IH H) as (st & E & Et & H0). rewrite foldR_app, E, fold_left_app. cbn [mbind result_bind foldR].
  unfold principalStep, deltaInvalid. rewrite Hd. cbn [mbind result_bind]. eexists. split; [reflexivity|].
  cbn [ps_total fold_left]. rewrite <- Et. unfold legacyStep, eventAmount, clampedSubtract. rewrite Hd.
  destruct (ev_type e); [destruct (Z.ltb_spec (ps_total st + ev_amountRaw e) 0); lia|].
  destruct (Z.ltb_spec (ev_amountRaw e) (ps_total st)), (Z.ltb_spec (ps_total st - ev_amountRaw e) 0); lia.
Qed.

(** For a history of plain deposits and withdrawals the path built for older
    wallets carries, at every time, the principal of the ledger that keeps one total;
    and the ledger has one. *)
Theorem legacy_path_agrees (events sorted : list YieldPositionEvent) (atMs : Z) :
  Forall (fun e => 0 <= ev_amountRaw e /\ ev_principalDeltaRaw e = None) events ->
  Z.of_nat (length events) < 2 ^ 30 ->
  sortEarningsEvents events = Ok sorted ->
  principalAt events atMs ClampTotal = Ok (pathPrincipalAt (legacyEventsToPathEvents sorted) atMs).
Proof.
  intros Hh Hl Es. destruct (sort_events _ _ Es) as (_ & Hs & Hp).
  assert (Hh' : plain_history sorted) by (unfold plain_history; by rewrite Hp).
  destruct (total_replay sorted Hh') as (st & Ef & _).
  assert (exists p, principalAt events atMs ClampTotal = Ok p) as [p Ep].
  { unfold principalAt, getPrincipalIndex. rewrite Es. cbn [mbind result_bind]. rewrite Ef. by eexists. }
  rewrite Ep. f_equal. destruct (principalAt_replay events atMs ClampTotal p) as (s & st' & E1 & E2 & _ & ->);
    [eapply Forall_impl; [exact Hh|]; by intros ? []|done..|].
  rewrite Es in E1. injection E1 as <-.
  pose proof (at_or_before_take ev_confirmedAt atMs sorted Hs) as Ht.
  set (n := length (at_or_before ev_confirmedAt atMs sorted)) in *. rewrite Ht in E2.
  destruct (total_replay (take n sorted)) as (st'' & E3 & E4 & _); [by apply Forall_take|].
  rewrite E2 in E3. injection E3 as <-. rewrite E4.
  unfold pathPrincipalAt, getPathStateAt, legacyEventsToPathEvents.
  assert (Hsp : StronglySorted (key_le pe_confirmedAt) (legacyPath 0 sorted)).
  { apply (StronglySorted_map_inv pe_confirmedAt id). rewrite legacyPath_times. by apply StronglySorted_map. }
  assert (Hlen : length (legacyPath 0 sorted) = length events).
  { rewrite <- (length_map pe_confirmedAt), legacyPath_times, length_map. by apply Permutation_length. }
  rewrite itemAt_last by (done || by rewrite Hlen).
  rewrite (at_or_before_take _ _ _ Hsp), <- at_or_before_map, legacyPath_times, at_or_before_map. fold n.
  rewrite legacyPath_take, legacyPath_last. by destruct (take n sorted).
Qed.

Module EarningsWitness.

Definition event (t : EventType) (amount time slot : Z) : YieldPositionEvent := {|
  ev_amountRaw := amount; ev_confirmedAt := time; ev_confirmedSlot := Some slot;
  ev_holdingEventId := None; ev_positionId := Some 1; ev_initializesPosition := Some false;
  ev_principalDeltaRaw := None; ev_settlesPosition := None; ev_liquidityMint := Some "usdc"%string;
  ev_type := t |}.

Definition history : list YieldPositionEvent :=
  [event Withdrawal 400 2000 21; event Deposit 1000 1000 10; event Deposit 50 2000 20].

Definition sorted_history : list YieldPositionEvent :=
  [event Deposit 1000 1000 10; event Deposit 50 2000 20; event Withdrawal 400 2000 21].

Example sort_history : sortEarningsEvents history = Ok sorted_history.
Proof. reflexivity. Qed.

Example sort_ambiguous :
  let e := {| ev_amountRaw := 1; ev_confirmedAt := 5; ev_confirmedSlot := None; ev_holdingEventId := None;
              ev_positionId := None; ev_initializesPosition := None; ev_principalDeltaRaw := None;
              ev_settlesPosition := None; ev_liquidityMint := None; ev_type := Deposit |} in
  sortEarningsEvents [e; event Withdrawal 1 5 9]
  = EarningsPrincipalHistoryError "principal_history_order_ambiguous".
Proof. reflexivity. Qed.

Example history_principal :
  map (fun t => principalAt history t ClampPerMint) [500; 1000; 2000] = [Ok 0; Ok 1000; Ok 650].
Proof. vm_compute. reflexivity. Qed.

Definition path : list YieldPositionPathEvent := legacyEventsToPathEvents sorted_history.
Definition samples : list ReserveApySample :=
  [{| sa_observedAt := 900; sa_reserve := None; sa_supplyApy := f64_of_Z 1 |};
   {| sa_observedAt := 1500; sa_reserve := Some "reserve"%string; sa_supplyApy := f64_of_Z 2 |}].
Definition snapshots : list YieldPortfolioSnapshot :=
  [{| sn_exposures := []; sn_observedAt := 1200; sn_observedSlot := 11 |}].

Lemma indexed_lookups_linear_witness :
  getApyAt samples (Some "reserve"%string) 1600 =
    sa_supplyApy <$> last (filter (fun s => sa_observedAt s <= 1600 /\ relevant (Some "reserve"%string) s) samples).
Proof.
  apply (indexed_lookups_linear path snapshots samples (Some "reserve"%string) 1600);
    repeat constructor; done.
Defined.

Lemma principal_is_replay_witness : exists st : PrincipalState, 650 = ps_total st /\ 0 <= 650.
Proof.
  destruct (principal_is_replay history 2000 ClampPerMint 650) as (sorted & st & _ & _ & H1 & H2 & _);
    [repeat constructor; done|done|vm_compute; reflexivity|].
  by exists st.
Defined.

Lemma window_piecewise_constant_witness :
  exists segs, span segs = 2000 /\
    forall u, 500 <= u < 2500 -> exists a b, (a, b) ∈ segs /\ a <= u < b /\
      getPathStateAt path u = getPathStateAt path a.
Proof.
  destruct (window_piecewise_constant samples path 500 2500) as (segs & _ & H1 & H2);
    [done|repeat constructor; done..|].
  exists segs. split; [exact H1|]. intros u Hu. destruct (H2 u Hu) as (a & b & G1 & G2 & G3 & _).
  by exists a, b.
Defined.

Lemma portfolio_window_piecewise_constant_witness :
  exists segs, span segs = 2000 /\
    forall u, 500 <= u < 2500 -> exists a b, (a, b) ∈ segs /\ a <= u < b /\
      principalAt history u ClampPerMint = principalAt history a ClampPerMint.
Proof.
  destruct (portfolio_window_piecewise_constant samples history ClampPerMint snapshots 500 2500)
    as (segs & _ & H1 & H2); [done|repeat constructor; done..|].
  exists segs. split; [exact H1|]. intros u Hu. destruct (H2 u Hu) as (a & b & G1 & G2 & G3 & _).
  exists a, b. exact (conj G1 (conj G2 G3)).
Defined.

Lemma legacy_path_agrees_witness :
  principalAt history 2000 ClampTotal = Ok (pathPrincipalAt path 2000).
Proof.
  apply (legacy_path_agrees history sorted_history 2000); [repeat constructor; done|done|reflexivity].
Defined.

End EarningsWitness.
