(* ===== verification/Amounts.v ===== *)
(** Token amounts as decimal labels and spending limits
    (web/packages/smart-account-vaults/src/spending-limits.ts), and the plan of a stable
    swap (src/features/yield-routing/domain/swap-lanes.ts).

    Times and periods are integers of seconds below 2^53: the floor of a quotient of
    such numbers is the integer quotient. *)
From S2P Require Import Prelude JsString Json.

(** ** Spending limits *)
Inductive SpendingLimitPeriod := OneTime | Day | Week | Month | Custom.

Definition getSpendingLimitPeriodSeconds (period : SpendingLimitPeriod) : option Z :=
  match period with
  | OneTime => None
  | Day => Some (24 * 60 * 60)
  | Week => Some (7 * 24 * 60 * 60)
  | Month => Some (30 * 24 * 60 * 60)
  | Custom => None
  end.

(** [args.periodSeconds ?? getSpendingLimitPeriodSeconds(args.period)] *)
Definition resetPeriod (period : SpendingLimitPeriod) (periodSeconds : option Z) : option Z :=
  match periodSeconds with Some s => Some s | None => getSpendingLimitPeriodSeconds period end.

(** A quotient by a period of zero is infinite: it is positive, and [BigInt] of it
    throws. *)
Definition getEffectiveSpendingLimitRemainingAmount (amount : Z) (accumulateUnused : bool)
    (lastReset now : Z) (period : SpendingLimitPeriod) (periodSeconds : option Z)
    (remainingAmount : Z) : result Z :=
  match resetPeriod period periodSeconds with
  | None => Ok remainingAmount
  | Some reset =>
      let elapsed := now - lastReset in
      if elapsed <=? reset then Ok remainingAmount
      else if reset =? 0 then
        if accumulateUnused then throwRange "The number Infinity cannot be converted to a BigInt"
        else Ok amount
      else
        let periodsPassed := elapsed / reset in
        if periodsPassed <=? 0 then Ok remainingAmount
        else Ok (if accumulateUnused then remainingAmount + amount * periodsPassed else amount)
  end.

(** With a period of zero the answer is NaN. *)
Definition getSpendingLimitNextReset (lastReset now : Z) (period : SpendingLimitPeriod)
    (periodSeconds : option Z) : option json_number :=
  match resetPeriod period periodSeconds with
  | None => None
  | Some reset =>
      if reset =? 0 then Some JOther
      else
        let elapsed := Z.max 0 (now - lastReset) in
        Some (JInt (lastReset + (elapsed / reset + 1) * reset))
  end.

(** ** Labels *)
Definition formatTokenAmount (amountRaw decimals : Z) : string :=
  if decimals =? 0 then bigint_toString amountRaw
  else
    let base := 10 ^ decimals in
    let whole := Z.quot amountRaw base in
    let fraction := Z.rem amountRaw base in
    if fraction =? 0 then bigint_toString whole
    else
      unchars (chars (bigint_toString whole) ++ ["."%char] ++
               strip_trailing_zeros (padStart0 (Z.to_nat decimals) (chars (bigint_toString fraction)))).

(** A decimal numeral: digits, and after a point further digits when there are any. *)
Definition numeral (s : string) (whole frac : list ascii) : Prop :=
  chars s = whole ++ (match frac with [] => [] | _ => "."%char :: frac end) /\
  all_digits whole = true /\ forallb is_digit frac = true.

Lemma forallb_replicate0 k : forallb is_digit (replicate k "0"%char) = true.
Proof. induction k; simpl; auto. Qed.

(** The digits of a fraction below [10 ^ n], without trailing zeros, are worth it. *)
Lemma fraction_digits n f : 0 < f < 10 ^ Z.of_nat n ->
  let frac := strip_trailing_zeros (padStart0 n (chars (bigint_toString f))) in
  forallb is_digit frac = true /\ frac <> [] /\ last frac <> Some "0"%char /\ (length frac <= n)%nat /\
  dec_value frac * 10 ^ (Z.of_nat n - Z.of_nat (length frac)) = f.
Proof.
  intros Hf frac. destruct (bigint_toString_nonneg f ltac:(lia)) as [Hd Hv].
  apply all_digits_forallb in Hd as [Hd _].
  destruct (bigint_toString_leading f ltac:(lia)) as (c & l & El & Hc & Hnz & Hl).
  assert (Hlen : (length (chars (bigint_toString f)) <= n)%nat).
  { pose proof (dec_value_lower c l Hc Hnz Hl) as Hlow. rewrite <- El, Hv in Hlow. rewrite El. cbn [length].
    destruct (Nat.le_gt_cases (S (length l)) n) as [|Hgt]; [done|exfalso].
    pose proof (Z.pow_le_mono_r 10 (Z.of_nat n) (Z.of_nat (length l)) ltac:(lia) ltac:(lia)). lia. }
  set (p := padStart0 n (chars (bigint_toString f))) in *.
  assert (Hp : length p = n) by (by apply padStart_length).
  assert (Hpv : dec_value p = f) by (unfold p; by rewrite dec_value_padStart).
  assert (Hpd : forallb is_digit p = true).
  { unfold p, padStart0. rewrite forallb_app, Hd, andb_true_r. apply forallb_replicate0. }
  destruct (strip_trailing_zeros_spec p) as (k & Hk). fold frac in Hk.
  assert (Hv2 : dec_value frac * 10 ^ Z.of_nat k = f).
  { rewrite <- Hpv, Hk, dec_value_split, length_replicate.
    assert (Hz : dec_value (replicate k "0"%char) = 0).
    { clear. induction k as [|k IH]; [done|].
      replace (S k) with (k + 1)%nat by lia. rewrite replicate_add, dec_value_split, IH. done. }
    rewrite Hz. lia. }
  assert (Hn : (length frac + k)%nat = n) by (rewrite <- Hp, Hk, length_app, length_replicate; done).
  split_and!.
  - rewrite Hk, forallb_app in Hpd. by apply andb_true_iff in Hpd as [? _].
  - intros E. rewrite E in Hv2. unfold dec_value in Hv2. simpl in Hv2. lia.
  - apply strip_trailing_zeros_last.
  - lia.
  - by replace (Z.of_nat n - Z.of_nat (length frac)) with (Z.of_nat k) by lia.
Qed.

Lemma formatTokenAmount_label amountRaw decimals : 0 <= amountRaw -> 0 <= decimals ->
  exists whole frac, numeral (formatTokenAmount amountRaw decimals) whole frac /\
    Z.of_nat (length frac) <= decimals /\ last frac <> Some "0"%char /\
    dec_value whole * 10 ^ decimals + dec_value frac * 10 ^ (decimals - Z.of_nat (length frac)) = amountRaw.
Proof.
  intros Ha Hd. unfold formatTokenAmount, numeral. destruct (Z.eqb_spec decimals 0) as [->|Hd0].
  { destruct (bigint_toString_nonneg amountRaw Ha) as [H1 H2].
    exists (chars (bigint_toString amountRaw)), []. rewrite app_nil_r. split_and!; try done.
    rewrite H2. unfold dec_value. simpl. lia. }
  assert (Hb : 0 < 10 ^ decimals) by (apply Z.pow_pos_nonneg; lia).
  rewrite Z.quot_div_nonneg, Z.rem_mod_nonneg by lia.
  set (w := amountRaw / 10 ^ decimals). set (f := amountRaw mod 10 ^ decimals).
  assert (Hw : 0 <= w) by (by apply Z.div_pos).
  assert (Hf : 0 <= f < 10 ^ decimals) by (by apply Z.mod_pos_bound).
  assert (Hwf : amountRaw = 10 ^ decimals * w + f) by (apply Z.div_mod; lia).
  destruct (bigint_toString_nonneg w Hw) as [H1 H2].
  destruct (Z.eqb_spec f 0) as [Hf0|Hf0].
  - exists (chars (bigint_toString w)), []. rewrite app_nil_r. split_and!; try done.
    rewrite H2. unfold dec_value. simpl. lia.
  - destruct (fraction_digits (Z.to_nat decimals) f) as (F1 & F2 & F3 & F4 & F5);
      [rewrite Z2Nat.id by lia; lia|].
    set (frac := strip_trailing_zeros _) in *. rewrite Z2Nat.id in F5 by lia.
    exists (chars (bigint_toString w)), frac. rewrite chars_unchars. split_and!; try done; [|lia|].
    + by destruct frac.
    + rewrite H2, F5. lia.
Qed.

(** The label of a token amount is a plain decimal numeral worth exactly that amount:
    digits, and after a point at most as many digits as the mint has decimals, the last
    one not a zero. *)
Theorem token_label_exact (amountRaw decimals : Z) : 0 <= amountRaw -> 0 <= decimals ->
  exists whole frac, numeral (formatTokenAmount amountRaw decimals) whole frac /\
    Z.of_nat (length frac) <= decimals /\ last frac <> Some "0"%char /\
    dec_value whole * 10 ^ decimals + dec_value frac * 10 ^ (decimals - Z.of_nat (length frac)) = amountRaw.
Proof. apply formatTokenAmount_label. Qed.

(** A periodic limit is untouched until strictly more than one period has passed
    since the last reset; after that it is the full amount again or, when unused
    amounts accumulate, the remainder plus one amount per whole period. The next reset
    shown is the first time after now that is a whole number of periods from the last
    reset. *)
Theorem spending_limit_reset (amount remaining lastReset now reset : Z) (period : SpendingLimitPeriod)
    (periodSeconds : option Z) :
  resetPeriod period periodSeconds = Some reset -> 0 < reset -> lastReset <= now ->
  (now <= lastReset + reset -> forall acc,
     getEffectiveSpendingLimitRemainingAmount amount acc lastReset now period periodSeconds remaining
     = Ok remaining) /\
  (lastReset + reset < now ->
     getEffectiveSpendingLimitRemainingAmount amount false lastReset now period periodSeconds remaining
     = Ok amount /\
     exists n, 1 <= n /\ lastReset + n * reset <= now < lastReset + (n + 1) * reset /\
       getEffectiveSpendingLimitRemainingAmount amount true lastReset now period periodSeconds remaining
       = Ok (remaining + n * amount)) /\
  exists next n, getSpendingLimitNextReset lastReset now period periodSeconds = Some (JInt next) /\
    next = lastReset + n * reset /\ now < next <= now + reset.
Proof.
  intros Hr H0 Hn. unfold getEffectiveSpendingLimitRemainingAmount, getSpendingLimitNextReset.
  rewrite Hr. cbv zeta. destruct (Z.eqb_spec reset 0); [lia|].
  pose proof (Z.div_mod (now - lastReset) reset ltac:(lia)) as Hd.
  pose proof (Z.mod_pos_bound (now - lastReset) reset H0) as Hm.
  set (q := (now - lastReset) / reset) in *. split_and!.
  - intros H acc. destruct (Z.leb_spec (now - lastReset) reset); [done|lia].
  - intros H. destruct (Z.leb_spec (now - lastReset) reset); [lia|].
    assert (1 <= q) by (apply Z.div_le_lower_bound; lia).
    destruct (Z.leb_spec q 0); [lia|]. split; [done|]. exists q. split_and!; [lia..|]. f_equal. lia.
  - rewrite Z.max_r by lia. exists (lastReset + (q + 1) * reset), (q + 1). split_and!; [done..|lia|lia].
Qed.

(** ** Stable swaps *)
Inductive SwapLane :=
| SameMint
| LoyalHub (inputMint outputMint : string) (amountIn minOut maxFeeBps : Z)
| Jupiter (inputMint outputMint : string) (amountIn minOut : Z).

Record HubLiquidityQuote := {
  hub_inputMint : string; hub_outputMint : string; hub_amountIn : Z; hub_minOut : Z; hub_maxFeeBps : Z;
}.
Record JupiterQuote := {
  jup_inputMint : string; jup_outputMint : string; jup_amountIn : Z; jup_minOut : Z;
}.
Record StableSwapRouteInput := {
  in_inputMint : string; in_outputMint : string; in_amountIn : Z; in_minOut : Z;
  in_hub : option HubLiquidityQuote; in_jupiter : option JupiterQuote;
}.

Definition planHubFill (input : StableSwapRouteInput) : result (option (Z * SwapLane)) :=
  match in_hub input with
  | None => Ok None
  | Some hub =>
      if negb (String.eqb (hub_inputMint hub) (in_inputMint input)) ||
         negb (String.eqb (hub_outputMint hub) (in_outputMint input)) ||
         (hub_amountIn hub <=? 0) || (hub_minOut hub <=? 0)
      then Ok None
      else if in_amountIn input <? hub_amountIn hub then
        throwError "hub fill cannot exceed route input amount"
      else Ok (Some (hub_amountIn hub,
        LoyalHub (in_inputMint input) (in_outputMint input) (hub_amountIn hub) (hub_minOut hub)
          (hub_maxFeeBps hub)))
  end.

Definition jupiterFits (input : StableSwapRouteInput) (residualIn : Z) (j : JupiterQuote) : bool :=
  String.eqb (jup_inputMint j) (in_inputMint input) &&
  String.eqb (jup_outputMint j) (in_outputMint input) && (jup_amountIn j =? residualIn).

Definition planStableSwapRoute (input : StableSwapRouteInput) : result (list SwapLane) :=
  if in_amountIn input <=? 0 then throwError "amountIn must be positive"
  else if String.eqb (in_inputMint input) (in_outputMint input) then Ok [SameMint]
  else
    hubFill ← planHubFill input;
    let lanes := match hubFill with Some f => [f.2] | None => [] end in
    let residualIn := in_amountIn input - match hubFill with Some f => f.1 | None => 0 end in
    if 0 <? residualIn then
      match in_jupiter input with
      | Some j =>
          if jupiterFits input residualIn j then
            Ok (lanes ++ [Jupiter (in_inputMint input) (in_outputMint input) (jup_amountIn j) (jup_minOut j)])
          else throwError "missing Jupiter residual quote"
      | None => throwError "missing Jupiter residual quote"
      end
    else Ok lanes.

Definition lane_amount (l : SwapLane) : Z :=
  match l with SameMint => 0 | LoyalHub _ _ a _ _ => a | Jupiter _ _ a _ => a end.
Definition lane_mints (l : SwapLane) : option (string * string) :=
  match l with SameMint => None | LoyalHub i o _ _ _ => Some (i, o) | Jupiter i o _ _ => Some (i, o) end.

(** A planned swap between two mints spends exactly the route's input: every lane is
    between the route's mints with a positive amount, and the amounts add up to it; a
    swap within one mint is the trivial lane; an amount that is not positive is
    refused. *)
Theorem swap_lanes_spend_input (input : StableSwapRouteInput) (lanes : list SwapLane) :
  planStableSwapRoute input = Ok lanes ->
  0 < in_amountIn input /\
  (in_inputMint input = in_outputMint input -> lanes = [SameMint]) /\
  (in_inputMint input <> in_outputMint input ->
   foldr (fun l acc => lane_amount l + acc) 0 lanes = in_amountIn input /\
   Forall (fun l => 0 < lane_amount l /\
                    lane_mints l = Some (in_inputMint input, in_outputMint input)) lanes).
Proof.
  unfold planStableSwapRoute. destruct (Z.leb_spec (in_amountIn input) 0); [done|].
  destruct (String.eqb_spec (in_inputMint input) (in_outputMint input)) as [He|He].
  { intros [= <-]. split_and!; done. }
  intros H0. split_and!; [done|done|]. intros _. simpl_bind H0.
  assert (Hf : match v with Some (a, l) => 0 < a <= in_amountIn input /\ lane_amount l = a /\
                 lane_mints l = Some (in_inputMint input, in_outputMint input) | None => True end).
  { unfold planHubFill in E. destruct (in_hub input) as [hub|]; [|by injection E as <-].
    destruct (negb _ || _ || _ || _) eqn:Eg; [by injection E as <-|].
    rewrite !orb_false_iff in Eg. destruct Eg as [[[_ _] Eg] _]. apply Z.leb_gt in Eg.
    destruct (Z.ltb_spec (in_amountIn input) (hub_amountIn hub)); [done|]. injection E as <-.
    split_and!; (done || lia). }
  assert (Hj : forall j r, jupiterFits input r j = true -> jup_amountIn j = r).
  { intros j r Hj. unfold jupiterFits in Hj. rewrite !andb_true_iff in Hj. by apply Z.eqb_eq, Hj. }
  destruct v as [[a l]|]; cbn [fst snd] in H0; cbv zeta in H0.
  - destruct Hf as (Ha & Hl & Hm). destruct (Z.ltb_spec 0 (in_amountIn input - a)) as [Hr|Hr].
    + destruct (in_jupiter input) as [j|]; [|done]. destruct (jupiterFits _ _ j) eqn:Ej; [|done].
      apply Hj in Ej. injection H0 as <-. simpl. split; [lia|].
      repeat constructor; simpl; (done || lia).
    + injection H0 as <-. simpl. split; [lia|]. repeat constructor; (done || lia).
  - destruct (Z.ltb_spec 0 (in_amountIn input - 0)) as [Hr|Hr]; [|lia].
    destruct (in_jupiter input) as [j|]; [|done]. destruct (jupiterFits _ _ j) eqn:Ej; [|done].
    apply Hj in Ej. injection H0 as <-. simpl. split; [lia|]. repeat constructor; simpl; (done || lia).
Qed.

Module AmountsWitness.

Lemma token_label_exact_witness : exists whole frac, numeral (formatTokenAmount 1500000 6) whole frac.
Proof.
  destruct (token_label_exact 1500000 6) as (w & f & H & _); [lia|lia|]. by exists w, f.
Defined.

Example label_values :
  (formatTokenAmount 1500000 6, formatTokenAmount 7 6, formatTokenAmount 3000000 6)
  = ("1.5", "0.000007", "3")%string.
Proof. reflexivity. Qed.

Lemma spending_limit_reset_witness :
  getEffectiveSpendingLimitRemainingAmount 100 false 0 90000 Day None 7 = Ok 100.
Proof.
  destruct (spending_limit_reset 100 7 0 90000 86400 Day None) as (_ & H & _); [reflexivity|lia|lia|].
  apply H. lia.
Defined.

Definition route : StableSwapRouteInput := {|
  in_inputMint := "usdc"; in_outputMint := "usdt"; in_amountIn := 100; in_minOut := 99;
  in_hub := Some {| hub_inputMint := "usdc"; hub_outputMint := "usdt"; hub_amountIn := 60;
                    hub_minOut := 59; hub_maxFeeBps := 5 |};
  in_jupiter := Some {| jup_inputMint := "usdc"; jup_outputMint := "usdt"; jup_amountIn := 40;
                        jup_minOut := 1 |};
|}.

Lemma swap_lanes_spend_input_witness :
  foldr (fun l acc => lane_amount l + acc) 0 [LoyalHub "usdc" "usdt" 60 59 5; Jupiter "usdc" "usdt" 40 1] = 100.
Proof.
  destruct (swap_lanes_spend_input route [LoyalHub "usdc" "usdt" 60 59 5; Jupiter "usdc" "usdt" 40 1])
    as (_ & _ & H); [reflexivity|]. apply H. discriminate.
Defined.

End AmountsWitness.
