(* ===== verification/Autodeposit.v ===== *)
(** The loaded state of an autodeposit
    (web/packages/shared/src/earn-autodeposit-loaded-state.ts): which scheduled sweeps are
    displayed and with what amounts, the validators of stored values, the labels and the
    configuration derived from the loaded state.

    The locale's date format is an argument. *)
From S2P Require Import Prelude JsString Json Amounts F64.

Record LoadedEarnAutodepositScheduledSweep := {
  sw_classification : string;
  sw_confidence : string;
  sw_eligibleAfter : string;
  sw_executeNowAvailableAt : option (option string);
  sw_id : string;
  sw_lotCount : option Z;
  sw_originalAmountRaw : string;
  sw_reason : string;
  sw_remainingAmountRaw : string;
  sw_slotId : option string;
  sw_status : string;
}.

Inductive LoadedStatus := Active | Paused | Pending.
Inductive ConfigState := Created | Creating | PausedState.

(** An optional nullable string is [None] when absent or [null]: the code uses both
    through [??]. *)
Record LoadedEarnAutodepositState := {
  ls_amountPerPeriodRaw : string;
  ls_cluster : option string;
  ls_depositedThisPeriodRaw : option string;
  ls_expiryTimestamp : option string;
  ls_nonce : option string;
  ls_policyAccount : string;
  ls_policyConfirmedSlot : option string;
  ls_policySeed : string;
  ls_policySignature : option string;
  ls_periodLengthSeconds : option string;
  ls_recurringDelegation : option string;
  ls_recurringDelegationConfirmedSlot : option string;
  ls_recurringDelegationSignature : option string;
  ls_scheduledSweeps : option (list LoadedEarnAutodepositScheduledSweep);
  ls_startTimestamp : option string;
  ls_status : LoadedStatus;
  ls_walletBalanceFloorRaw : option string;
}.

Record LoadedEarnAutodepositConfig := {
  lc_amount : string;
  lc_depositedAmount : string;
  lc_keepAmount : string;
  lc_nextPeriodLabel : option string;
  lc_expiryTimestamp : option string;
  lc_periodLengthSeconds : option string;
  lc_policyAccount : string;
  lc_policySeed : string;
  lc_recurringDelegation : string;
  lc_setupNonce : option string;
  lc_nonce : string;
  lc_scheduledSweeps : option (list LoadedEarnAutodepositScheduledSweep);
  lc_startTimestamp : option string;
  lc_state : ConfigState;
}.

(** ** Displayed sweeps *)
Definition isScheduledSweepExecuting (sweep : LoadedEarnAutodepositScheduledSweep) : bool :=
  String.eqb (sw_status sweep) "requested" || String.eqb (sw_status sweep) "selected".

(** The display states: those of a configuration, of a loaded state, and the
    transitional ones. *)
Inductive DisplayStatus := OfConfig (s : ConfigState) | OfLoaded (s : LoadedStatus) | Closing | Pausing | Resuming.

Definition displays (status : DisplayStatus) : bool :=
  match status with OfLoaded Active | OfConfig Created => true | _ => false end.

Definition getDisplayableEarnAutodepositScheduledSweeps (status : DisplayStatus)
    (scheduledSweeps : option (list LoadedEarnAutodepositScheduledSweep)) :
    list LoadedEarnAutodepositScheduledSweep :=
  if negb (displays status) then []
  else
    let sweeps := default [] scheduledSweeps in
    if existsb isScheduledSweepExecuting sweeps
    then List.filter (fun sweep => negb (String.eqb (sw_status sweep) "scheduled")) sweeps
    else sweeps.

Definition EARN_AUTODEPOSIT_MIN_VISIBLE_SCHEDULED_SWEEP_RAW := 10000.

Definition parseUnsignedRawTokenAmount (amountRaw : string) : result (option Z) :=
  if all_digits (chars amountRaw) then v ← BigInt_of_string amountRaw; Ok (Some v) else Ok None.

Definition withRemaining (amount : Z) (s : LoadedEarnAutodepositScheduledSweep) :
    LoadedEarnAutodepositScheduledSweep := {|
  sw_classification := sw_classification s;
  sw_confidence := sw_confidence s;
  sw_eligibleAfter := sw_eligibleAfter s;
  sw_executeNowAvailableAt := sw_executeNowAvailableAt s;
  sw_id := sw_id s;
  sw_lotCount := sw_lotCount s;
  sw_originalAmountRaw := sw_originalAmountRaw s;
  sw_reason := sw_reason s;
  sw_remainingAmountRaw := bigint_toString amount;
  sw_slotId := sw_slotId s;
  sw_status := sw_status s;
|}.

Fixpoint aboveThreshold (sweeps : list LoadedEarnAutodepositScheduledSweep) :
    result (list LoadedEarnAutodepositScheduledSweep) :=
  match sweeps with
  | [] => Ok []
  | sweep :: sweeps =>
      remaining ← parseUnsignedRawTokenAmount (sw_remainingAmountRaw sweep);
      rest ← aboveThreshold sweeps;
      Ok (match remaining with
          | Some r => if EARN_AUTODEPOSIT_MIN_VISIBLE_SCHEDULED_SWEEP_RAW <=? r then sweep :: rest else rest
          | None => rest
          end)
  end.

Fixpoint visibleLoop (remainingSurplusRaw : Z) (sweeps : list LoadedEarnAutodepositScheduledSweep) :
    result (list LoadedEarnAutodepositScheduledSweep) :=
  match sweeps with
  | [] => Ok []
  | sweep :: sweeps =>
      remaining ← parseUnsignedRawTokenAmount (sw_remainingAmountRaw sweep);
      match remaining with
      | None => visibleLoop remainingSurplusRaw sweeps
      | Some remainingAmountRaw =>
          let displayAmountRaw :=
            if remainingAmountRaw <? remainingSurplusRaw then remainingAmountRaw else remainingSurplusRaw in
          let surplus := remainingSurplusRaw - displayAmountRaw in
          if displayAmountRaw <? EARN_AUTODEPOSIT_MIN_VISIBLE_SCHEDULED_SWEEP_RAW then Ok []
          else
            let shown := if displayAmountRaw =? remainingAmountRaw then sweep
                         else withRemaining displayAmountRaw sweep in
            if surplus <? EARN_AUTODEPOSIT_MIN_VISIBLE_SCHEDULED_SWEEP_RAW then Ok [shown]
            else rest ← visibleLoop surplus sweeps; Ok (shown :: rest)
      end
  end.

Definition getVisibleEarnAutodepositScheduledSweeps
    (scheduledSweeps : list LoadedEarnAutodepositScheduledSweep)
    (walletBalanceFloorRaw walletBalanceRaw : option Z) : result (list LoadedEarnAutodepositScheduledSweep) :=
  above ← aboveThreshold scheduledSweeps;
  match walletBalanceRaw, walletBalanceFloorRaw with
  | Some balance, Some floor =>
      let surplus := balance - floor in
      if surplus <? EARN_AUTODEPOSIT_MIN_VISIBLE_SCHEDULED_SWEEP_RAW then Ok []
      else visibleLoop surplus above
  | _, _ => Ok above
  end.

(** ** Labels and configuration *)
Definition rawTokenAmountToLabel (amountRaw : option string) : result string :=
  match amountRaw with
  | Some s =>
      if all_digits (chars s) then
        raw ← BigInt_of_string s;
        let whole := Z.quot raw 1000000 in
        let fraction := Z.rem raw 1000000 in
        Ok (if fraction =? 0 then bigint_toString whole
            else unchars (chars (bigint_toString whole) ++ ["."%char] ++
                          strip_trailing_zeros (padStart0 6 (chars (bigint_toString fraction)))))
      else Ok "0"%string
  | None => Ok "0"%string
  end.

Section Config.
(** [date.toLocaleDateString("en-US", { day, month })] of a time value *)
Context (toLocaleDateString : f64 -> string).

(** [Number.isFinite] and the comparison with a time value. The period arithmetic is on
    numbers; [floor] is the integer part of a finite quotient. *)
Definition f64_finite (x : f64) : bool :=
  match x with SpecFloat.S754_finite _ _ _ | SpecFloat.S754_zero _ => true | _ => false end.

Definition f64_floor (x : f64) : f64 :=
  match x with
  | SpecFloat.S754_finite s m e =>
      if 0 <=? e then x
      else
        let n := if s then Z.neg m else Z.pos m in
        let r := n / 2 ^ (- e) in
        if r =? 0 then SpecFloat.S754_zero s else f64_of_Z r
  | _ => x
  end.

Definition f64_sub : f64 -> f64 -> f64 := SpecFloat.SFsub prec emax.

Definition formatNextPeriodLabel (startTimestamp periodLengthSeconds : option string) (nowMs : Z) :
    result (option string) :=
  match startTimestamp, periodLengthSeconds with
  | Some start, Some period =>
      if all_digits (chars start) && all_digits (chars period) then
        s ← BigInt_of_string start;
        p ← BigInt_of_string period;
        let startMs := f64_of_Z (s * 1000) in
        let periodMs := f64_of_Z (p * 1000) in
        if negb (f64_finite startMs) || negb (f64_finite periodMs) || f64_le periodMs f64_zero then Ok None
        else
          let now := f64_of_Z nowMs in
          let periodsElapsed :=
            if f64_gt startMs now then f64_zero
            else f64_add (f64_floor (f64_div (f64_sub now startMs) periodMs)) (f64_of_Z 1) in
          Ok (Some (toLocaleDateString (f64_add startMs (f64_mul periodsElapsed periodMs))))
      else Ok None
  | _, _ => Ok None
  end.

Definition configState (status : LoadedStatus) : ConfigState :=
  match status with Active => Created | Paused => PausedState | Pending => Creating end.

Definition earnAutodepositConfigFromLoadedState (autodeposit : option LoadedEarnAutodepositState) (nowMs : Z) :
    result (option LoadedEarnAutodepositConfig) :=
  match autodeposit with
  | None => Ok None
  | Some a =>
      let state := configState (ls_status a) in
      amount ← rawTokenAmountToLabel (Some (ls_amountPerPeriodRaw a));
      deposited ← rawTokenAmountToLabel (ls_depositedThisPeriodRaw a);
      keep ← rawTokenAmountToLabel (ls_walletBalanceFloorRaw a);
      next ← formatNextPeriodLabel (ls_startTimestamp a) (ls_periodLengthSeconds a) nowMs;
      Ok (Some {|
        lc_amount := amount;
        lc_depositedAmount := deposited;
        lc_keepAmount := keep;
        lc_nextPeriodLabel := next;
        lc_expiryTimestamp := ls_expiryTimestamp a;
        lc_nonce := ls_policySeed a;
        lc_periodLengthSeconds := ls_periodLengthSeconds a;
        lc_policyAccount := ls_policyAccount a;
        lc_policySeed := ls_policySeed a;
        lc_recurringDelegation := default EmptyString (ls_recurringDelegation a);
        lc_scheduledSweeps :=
          Some (getDisplayableEarnAutodepositScheduledSweeps (OfConfig state) (ls_scheduledSweeps a));
        lc_setupNonce := ls_nonce a;
        lc_startTimestamp := ls_startTimestamp a;
        lc_state := state |})
  end.
End Config.

(** ** Validators of stored values *)
Definition is_string (v : json) : bool := match v with JString _ => true | _ => false end.
Definition string_or_null (v : json) : bool := match v with JString _ | JNull => true | _ => false end.
Definition optional_string_or_null (v : json) : bool :=
  match v with JUndefined | JString _ | JNull => true | _ => false end.

Definition isLoadedScheduledSweep (value : json) : bool :=
  is_object value &&
  is_string (get "classification" value) &&
  is_string (get "confidence" value) &&
  is_string (get "eligibleAfter" value) &&
  optional_string_or_null (get "executeNowAvailableAt" value) &&
  is_string (get "id" value) &&
  is_string (get "originalAmountRaw" value) &&
  is_string (get "reason" value) &&
  is_string (get "remainingAmountRaw" value) &&
  is_string (get "status" value).

Definition validState (v : json) : bool :=
  match v with
  | JString s => String.eqb s "created" || String.eqb s "creating" || String.eqb s "paused"
  | _ => false
  end.

Definition validSweeps (v : json) : bool :=
  match v with JUndefined => true | JArray l => forallb isLoadedScheduledSweep l | _ => false end.

Definition isLoadedEarnAutodepositConfig (value : json) : bool :=
  is_object value &&
  is_string (get "amount" value) &&
  is_string (get "depositedAmount" value) &&
  is_string (get "keepAmount" value) &&
  string_or_null (get "nextPeriodLabel" value) &&
  string_or_null (get "expiryTimestamp" value) &&
  string_or_null (get "periodLengthSeconds" value) &&
  is_string (get "policyAccount" value) &&
  is_string (get "policySeed" value) &&
  is_string (get "recurringDelegation" value) &&
  string_or_null (get "setupNonce" value) &&
  is_string (get "nonce" value) &&
  string_or_null (get "startTimestamp" value) &&
  validState (get "state" value) &&
  validSweeps (get "scheduledSweeps" value).

(** ** What is shown *)
Definition remaining (s : LoadedEarnAutodepositScheduledSweep) : Z := dec_value (chars (sw_remainingAmountRaw s)).

Lemma parse_digits s : all_digits (chars s) = true -> parseUnsignedRawTokenAmount s = Ok (Some (dec_value (chars s))).
Proof. intros H. unfold parseUnsignedRawTokenAmount. rewrite H, (BigInt_of_digits _ H). done. Qed.

Definition worth_showing (s : LoadedEarnAutodepositScheduledSweep) : Prop :=
  all_digits (chars (sw_remainingAmountRaw s)) = true /\
  EARN_AUTODEPOSIT_MIN_VISIBLE_SCHEDULED_SWEEP_RAW <= remaining s.

Lemma aboveThreshold_spec sweeps :
  exists above, aboveThreshold sweeps = Ok above /\ Forall worth_showing above /\ above `sublist_of` sweeps /\
    forall s, s ∈ sweeps -> worth_showing s -> s ∈ above.
Proof.
  induction sweeps as [|s sweeps (above & E & Hw & Hs & Ha)]; cbn [aboveThreshold].
  { exists []. split_and!; [done|constructor|constructor|set_solver]. }
  rewrite E. unfold parseUnsignedRawTokenAmount. destruct (all_digits (chars (sw_remainingAmountRaw s))) eqn:Ed.
  - rewrite (BigInt_of_digits _ Ed). cbn [mbind result_bind]. fold (remaining s).
    destruct (Z.leb_spec EARN_AUTODEPOSIT_MIN_VISIBLE_SCHEDULED_SWEEP_RAW (remaining s)) as [Hr|Hr].
    + exists (s :: above). split_and!; [done|by constructor|by apply sublist_skip|].
      intros x [->|Hx]%elem_of_cons Hwx; [set_solver|]. apply elem_of_cons. right. by apply Ha.
    + exists above. split_and!; [done..|by apply sublist_cons|].
      intros x [->|Hx]%elem_of_cons Hwx; [destruct Hwx; lia|by apply Ha].
  - exists above. split_and!; [done..|by apply sublist_cons|].
    intros x [->|Hx]%elem_of_cons Hwx; [destruct Hwx; congruence|by apply Ha].
Qed.

(** How a sweep appears: as it is, or cut to a smaller amount. *)
Definition shown_as (v s : LoadedEarnAutodepositScheduledSweep) : Prop :=
  v = s \/ exists a, a < remaining s /\ v = withRemaining a s.

Definition total_remaining (l : list LoadedEarnAutodepositScheduledSweep) : Z :=
  foldr (fun s acc => remaining s + acc) 0 l.

Lemma remaining_withRemaining a s : 0 <= a ->
  all_digits (chars (sw_remainingAmountRaw (withRemaining a s))) = true /\ remaining (withRemaining a s) = a.
Proof. intros Ha. apply (bigint_toString_nonneg a Ha). Qed.

Lemma visibleLoop_spec above : forall surplus, Forall worth_showing above ->
  EARN_AUTODEPOSIT_MIN_VISIBLE_SCHEDULED_SWEEP_RAW <= surplus ->
  exists vis, visibleLoop surplus above = Ok vis /\ Forall worth_showing vis /\
    total_remaining vis <= surplus /\ Forall2 shown_as vis (take (length vis) above) /\
    (vis = above \/ surplus - total_remaining vis < EARN_AUTODEPOSIT_MIN_VISIBLE_SCHEDULED_SWEEP_RAW).
Proof.
  unfold EARN_AUTODEPOSIT_MIN_VISIBLE_SCHEDULED_SWEEP_RAW.
  induction above as [|s above IH]; intros surplus Hw Hs; cbn [visibleLoop].
  { exists []. split_and!; [done|constructor|simpl; lia|constructor|by left]. }
  apply Forall_cons in Hw as [[Hd Hr] Hw]. rewrite (parse_digits _ Hd). cbn [mbind result_bind].
  fold (remaining s). cbv zeta. unfold EARN_AUTODEPOSIT_MIN_VISIBLE_SCHEDULED_SWEEP_RAW in *.
  destruct (Z.ltb_spec (remaining s) surplus) as [Hlt|Hge].
  - destruct (Z.ltb_spec (remaining s) 10000); [lia|]. rewrite Z.eqb_refl.
    destruct (Z.ltb_spec (surplus - remaining s) 10000) as [Hl|Hl].
    + exists [s]. unfold total_remaining. simpl. split_and!; [done| |lia| |right; lia].
      * repeat constructor; done.
      * rewrite firstn_0. repeat constructor.
    + destruct (IH (surplus - remaining s) Hw Hl) as (vis & -> & H1 & H2 & H3 & H4).
      exists (s :: vis). unfold total_remaining in *. simpl. split_and!; [done| |lia| |].
      * by repeat constructor.
      * constructor; [by left|done].
      * destruct H4 as [->|H4]; [by left|right; lia].
  - destruct (Z.ltb_spec surplus 10000); [lia|]. rewrite Z.sub_diag. cbn [Z.ltb Z.compare].
    destruct (Z.eqb_spec surplus (remaining s)) as [He|Hn].
    + exists [s]. unfold total_remaining. simpl. split_and!; [done| |lia| |right; lia].
      * repeat constructor; done.
      * rewrite firstn_0. repeat constructor.
    + destruct (remaining_withRemaining surplus s ltac:(lia)) as [Hd' Hr'].
      exists [withRemaining surplus s]. unfold total_remaining. simpl. rewrite Hr'.
      split_and!; [done| |lia| |right; lia].
      * constructor; [|constructor]. split; [done|]. by rewrite Hr'.
      * rewrite firstn_0. constructor; [|constructor]. right. exists surplus. split; [lia|done].
Qed.

(** The scheduled sweeps shown against a wallet's balance never add up to more than
    the surplus over the floor. Each one is worth showing (a decimal amount of at least
    10000 raw units); they are a prefix of the sweeps worth showing, each as it is or cut to a
    smaller amount; and nothing is left out unless less than 10000 of the surplus is
    left. The call never throws. *)
Theorem visible_sweeps_within_surplus (sweeps : list LoadedEarnAutodepositScheduledSweep) (floor balance : Z) :
  exists above vis, aboveThreshold sweeps = Ok above /\
    getVisibleEarnAutodepositScheduledSweeps sweeps (Some floor) (Some balance) = Ok vis /\
    (forall s, s ∈ above <-> s ∈ sweeps /\ worth_showing s) /\
    Forall worth_showing vis /\
    total_remaining vis <= Z.max 0 (balance - floor) /\
    Forall2 shown_as vis (take (length vis) above) /\
    (vis = above \/
     balance - floor - total_remaining vis < EARN_AUTODEPOSIT_MIN_VISIBLE_SCHEDULED_SWEEP_RAW).
Proof.
  destruct (aboveThreshold_spec sweeps) as (above & E & Hw & Hs & Ha). exists above.
  unfold getVisibleEarnAutodepositScheduledSweeps. rewrite E. cbn [mbind result_bind].
  assert (Hin : forall s, s ∈ above <-> s ∈ sweeps /\ worth_showing s).
  { intros s. split; [|intros [? ?]; by apply Ha]. intros Hi. split.
    - eapply elem_of_submseteq; [exact Hi|by apply sublist_submseteq].
    - by apply (proj1 (Forall_forall _ _) Hw). }
  destruct (Z.ltb_spec (balance - floor) EARN_AUTODEPOSIT_MIN_VISIBLE_SCHEDULED_SWEEP_RAW) as [Hl|Hl].
  - exists []. split_and!; [done..|constructor|simpl; lia|constructor|right; simpl; lia].
  - destruct (visibleLoop_spec above _ Hw Hl) as (vis & -> & H1 & H2 & H3 & H4).
    exists vis. split_and!; try done. lia.
Qed.

Lemma rawTokenAmountToLabel_format n : 0 <= n ->
  rawTokenAmountToLabel (Some (bigint_toString n)) = Ok (formatTokenAmount n 6).
Proof.
  intros Hn. destruct (bigint_toString_nonneg n Hn) as [Hd Hv].
  unfold rawTokenAmountToLabel. rewrite Hd, (BigInt_of_digits _ Hd), Hv. cbn [mbind result_bind].
  unfold formatTokenAmount. cbn [Z.eqb]. change (10 ^ 6) with 1000000. by destruct (_ =? 0).
Qed.

Lemma rawTokenAmountToLabel_total o : exists l, rawTokenAmountToLabel o = Ok l.
Proof.
  destruct o as [s|]; cbn [rawTokenAmountToLabel]; [|by eexists].
  destruct (all_digits (chars s)) eqn:E; [|by eexists]. rewrite (BigInt_of_digits _ E). by eexists.
Qed.

Lemma formatNextPeriodLabel_total fmt start period nowMs :
  exists l, formatNextPeriodLabel fmt start period nowMs = Ok l.
Proof.
  unfold formatNextPeriodLabel. destruct start as [s|], period as [p|]; try by eexists.
  destruct (all_digits (chars s)) eqn:Es; [|by eexists].
  destruct (all_digits (chars p)) eqn:Ep; [|by eexists]. cbn [andb].
  rewrite (BigInt_of_digits _ Es), (BigInt_of_digits _ Ep). cbn [mbind result_bind]. cbv zeta.
  destruct (negb _ || _ || _); by eexists.
Qed.

Lemma displayable_executing status sweeps :
  let shown := getDisplayableEarnAutodepositScheduledSweeps status (Some sweeps) in
  (displays status = false -> shown = []) /\
  (displays status = true ->
     Forall (fun s => isScheduledSweepExecuting s = false) sweeps -> shown = sweeps) /\
  (displays status = true -> forall e, e ∈ sweeps -> isScheduledSweepExecuting e = true ->
     forall s, s ∈ shown <-> s ∈ sweeps /\ sw_status s <> "scheduled"%string).
Proof.
  unfold getDisplayableEarnAutodepositScheduledSweeps. cbv zeta. cbn [default from_option id].
  destruct (displays status); cbn [negb]; [|by split_and!]. split_and!; [done| |].
  - intros _ Hf. destruct (existsb _ _) eqn:E; [|done].
    apply existsb_exists in E as (x & Hx & Ex). apply list_elem_of_In in Hx.
    rewrite (proj1 (Forall_forall _ _) Hf x Hx) in Ex. done.
  - intros _ e He Ee s.
    assert (existsb isScheduledSweepExecuting sweeps = true) as ->.
    { apply existsb_exists. exists e. split; [by apply list_elem_of_In|done]. }
    rewrite list_elem_of_In, filter_In, <- list_elem_of_In, negb_true_iff, String.eqb_neq. done.
Qed.

(** The configuration of a loaded autodeposit is always computed. Its labels are
    those of the raw amounts, and its sweeps are those of an active autodeposit only; while one of
    them is executing, the merely scheduled ones are withheld and every other one,
    the executing one included, is kept. *)
Theorem config_of_loaded_state (fmt : f64 -> string) (a : LoadedEarnAutodepositState) (nowMs perPeriod : Z)
    (sweeps : list LoadedEarnAutodepositScheduledSweep) :
  0 <= perPeriod -> ls_amountPerPeriodRaw a = bigint_toString perPeriod -> ls_scheduledSweeps a = Some sweeps ->
  exists c shown, earnAutodepositConfigFromLoadedState fmt (Some a) nowMs = Ok (Some c) /\
    lc_scheduledSweeps c = Some shown /\
    lc_amount c = formatTokenAmount perPeriod 6 /\
    (lc_state c = Created <-> ls_status a = Active) /\
    (ls_status a <> Active -> shown = []) /\
    (ls_status a = Active ->
     (Forall (fun s => isScheduledSweepExecuting s = false) sweeps -> shown = sweeps) /\
     forall e, e ∈ sweeps -> isScheduledSweepExecuting e = true ->
       e ∈ shown /\ forall s, s ∈ shown <-> s ∈ sweeps /\ sw_status s <> "scheduled"%string).
Proof.
  intros Hp Ha Hs. unfold earnAutodepositConfigFromLoadedState.
  rewrite Ha, (rawTokenAmountToLabel_format _ Hp), Hs. cbn [mbind result_bind].
  destruct (rawTokenAmountToLabel_total (ls_depositedThisPeriodRaw a)) as [d ->].
  destruct (rawTokenAmountToLabel_total (ls_walletBalanceFloorRaw a)) as [k ->].
  destruct (formatNextPeriodLabel_total fmt (ls_startTimestamp a) (ls_periodLengthSeconds a) nowMs) as [l ->].
  cbn [mbind result_bind].
  destruct (displayable_executing (OfConfig (configState (ls_status a))) sweeps) as (D1 & D2 & D3).
  do 2 eexists. split; [reflexivity|]. cbn [lc_scheduledSweeps lc_amount lc_state].
  split; [reflexivity|]. split; [done|]. split; [by destruct (ls_status a)|]. split.
  - intros Hn. apply D1. by destruct (ls_status a).
  - intros Hact. rewrite Hact in *. split; [by apply D2|]. intros e He Ee.
    assert (Hsh := D3 eq_refl e He Ee). split; [|done]. apply Hsh. split; [done|].
    intros Hc. unfold isScheduledSweepExecuting in Ee. by rewrite Hc in Ee.
Qed.

Module AutodepositWitness.

Definition sweep (id raw status : string) : LoadedEarnAutodepositScheduledSweep := {|
  sw_classification := "surplus"; sw_confidence := "high"; sw_eligibleAfter := "2026-01-01T00:00:00Z";
  sw_executeNowAvailableAt := None; sw_id := id; sw_lotCount := None; sw_originalAmountRaw := raw;
  sw_reason := "surplus"; sw_remainingAmountRaw := raw; sw_slotId := None; sw_status := status |}.

Definition loaded (sweeps : list LoadedEarnAutodepositScheduledSweep) : LoadedEarnAutodepositState := {|
  ls_amountPerPeriodRaw := "2500000"; ls_cluster := None; ls_depositedThisPeriodRaw := None;
  ls_expiryTimestamp := None; ls_nonce := Some "1"%string; ls_policyAccount := "policy";
  ls_policyConfirmedSlot := None; ls_policySeed := "7"; ls_policySignature := None;
  ls_periodLengthSeconds := Some "86400"%string; ls_recurringDelegation := None;
  ls_recurringDelegationConfirmedSlot := None; ls_recurringDelegationSignature := None;
  ls_scheduledSweeps := Some sweeps; ls_startTimestamp := Some "1700000000"%string;
  ls_status := Active; ls_walletBalanceFloorRaw := Some "1000000"%string |}.

(** Of two sweeps against a surplus of 50000 the first is complete and the second cut. *)
Example visible_values :
  getVisibleEarnAutodepositScheduledSweeps
    [sweep "a" "9999" "scheduled"; sweep "b" "30000" "scheduled"; sweep "c" "30000" "scheduled"]
    (Some 100000) (Some 150000)
  = Ok [sweep "b" "30000" "scheduled"; withRemaining 20000 (sweep "c" "30000" "scheduled")].
Proof. reflexivity. Qed.

Lemma config_of_loaded_state_witness :
  let sweeps := [sweep "a" "20000" "requested"; sweep "b" "30000" "scheduled"] in
  exists c shown, earnAutodepositConfigFromLoadedState (fun _ => "Jan 01"%string) (Some (loaded sweeps))
      1700000500000 = Ok (Some c) /\
    lc_scheduledSweeps c = Some shown /\ lc_amount c = "2.5"%string /\
    sweep "a" "20000" "requested" ∈ shown.
Proof.
  intros sweeps.
  destruct (config_of_loaded_state (fun _ => "Jan 01"%string) (loaded sweeps) 1700000500000 2500000 sweeps)
    as (c & shown & H1 & H2 & H3 & _ & _ & H4); [lia|reflexivity|reflexivity|].
  exists c, shown. split; [exact H1|]. split; [exact H2|]. split; [exact H3|].
  refine (proj1 (proj2 (H4 eq_refl) (sweep "a" "20000" "requested") _ _)); [left|reflexivity].
Defined.

(** On a period boundary the next one is shown, before it that boundary. *)
Example next_period :
  map (formatNextPeriodLabel
        (fun t => if SpecFloat.SFeqb t (f64_of_Z 1700172800000) then "third"%string
                  else if SpecFloat.SFeqb t (f64_of_Z 1700086400000) then "second"%string else "other"%string)
        (Some "1700000000"%string) (Some "86400"%string))
      [1700086400000; 1700086399999; 1600000000000]
  = [Ok (Some "third"%string); Ok (Some "second"%string); Ok (Some "other"%string)].
Proof. vm_compute. reflexivity. Qed.

End AutodepositWitness.
