(* ===== verification/RpcQueue.v ===== *)
(** The request queue of a Solana RPC endpoint
    (web/apps/web/src/lib/solana/rpc-rate-limit.ts, first half): priorities, the rolling
    dispatch window, the cooldown after a rate limit, the single recovery probe, and the
    retry loop of one read.

    [RpcEndpointState] is the record of the source. A [World] is that state with what
    lives outside of it: the requests under way, the promises settled so far, the times
    of all dispatches and the number of clock readings made. Everything the event loop
    may run next is an [event]: a new request, a settled response (the [then] or [catch]
    callback), its [finally] callback, the timer. [step] runs one, [reachable] closes
    under all of them, in any order.

    [clock n] is the [n]-th value [Date.now()] returns. [Number(string)] and
    [Date.parse] are arguments, as is the jitter [Math.floor(Math.random() * 125)]. A delay
    is an integer; an infinite one is written [2 ^ 1024], above every finite double. *)
From S2P Require Import Prelude JsString JsMap F64.
From Stdlib Require Import Floats.SpecFloat.

(** ** Constants *)
Definition DEFAULT_FRONTEND_SOLANA_RPC_MAX_REQUESTS_PER_WINDOW := 5.
Definition FRONTEND_SOLANA_RPC_WINDOW_MS := 1000.
Definition FRONTEND_SOLANA_RPC_MAX_READ_ATTEMPTS := 3.
Definition FRONTEND_SOLANA_RPC_RETRY_BASE_DELAY_MS := 250.
Definition FRONTEND_SOLANA_RPC_RETRY_MAX_DELAY_MS := 2000.
Definition FRONTEND_SOLANA_RPC_RETRY_JITTER_MS := 125.

Definition RECENTLY_CACHEABLE_RPC_METHODS : list string :=
  ["getAccountInfo"; "getBalance"; "getBlockHeight"; "getLatestBlockhash"; "getMultipleAccounts";
   "getProgramAccounts"; "getProgramAccountsV2"; "getTokenAccountsByOwner"]%string.
Definition RETRYABLE_RPC_METHODS : list string := RECENTLY_CACHEABLE_RPC_METHODS.
Definition TRANSACTION_CRITICAL_RPC_METHODS : list string :=
  ["getBlockHeight"; "getLatestBlockhash"; "getSignatureStatuses"; "sendTransaction";
   "simulateTransaction"]%string.
Definition BACKGROUND_RPC_METHODS : list string := ["getSignaturesForAddress"%string].

Definition has (set : list string) (name : string) : bool := existsb (String.eqb name) set.

(** ** Data *)
(** [headers] holds the combined headers under their lower-case names, as [Headers] does. *)
Record Response := {
  status : Z;
  headers : list (string * string);
  ok : bool;
  statusText : string;
  responseText : string;
}.

Inductive Outcome := Resolved (response : Response) | Rejected (error : exn).

Record RpcQueueEntry := { priority : Z; sequence : Z }.

#[export] Instance RpcQueueEntry_eq_dec : EqDecision RpcQueueEntry.
Proof. solve_decision. Defined.

Record RpcEndpointState := {
  cooldownUntil : Z;
  dispatchedAt : list Z;
  nextSequence : Z;
  queue : list RpcQueueEntry;
  rateLimitFailures : Z;
  rateLimited : bool;
  recoveryProbeInFlight : bool;
  timer : option Z;  (** when the pending timer is due *)
}.

Definition newEndpointState : RpcEndpointState := {|
  cooldownUntil := 0; dispatchedAt := []; nextSequence := 0; queue := []; rateLimitFailures := 0;
  rateLimited := false; recoveryProbeInFlight := false; timer := None |}.

(** The environment variables, when there is a [process] *)
Record ProcessEnv := {
  env_max_requests : option string;
  env_min_interval : option string;
}.

(** [Number.parseInt(text, 10)], [None] for NaN. A value beyond the doubles is infinite; the
    rounding of others is not observable, as results are compared with array lengths. *)
Fixpoint digit_prefix (l : list ascii) : list ascii :=
  match l with
  | c :: l => if is_digit c then c :: digit_prefix l else []
  | [] => []
  end.

Definition parseInt10 (text : string) : option Z :=
  let l := drop_spaces (chars text) in
  let '(sign, l) := match l with
                    | "-"%char :: l => (-1, l)
                    | "+"%char :: l => (1, l)
                    | _ => (1, l)
                    end in
  match digit_prefix l with
  | [] => None
  | digits => Some (sign * dec_value digits)
  end.

Definition finitePositive (parsed : option Z) : option Z :=
  match parsed with
  | Some z => if (z <? 2 ^ 1024 - 2 ^ 970) && (0 <? z) then Some z else None
  | None => None
  end.

(** [if (raw) { parsed = ...; if (finite && > 0) ... }] *)
Definition envPositive (raw : option string) : option Z :=
  match raw with
  | Some text => if String.eqb text "" then None else finitePositive (parseInt10 text)
  | None => None
  end.

Definition getFrontendSolanaRpcMaxRequestsPerWindow (env : option ProcessEnv) : Z :=
  match envPositive (env ≫= env_max_requests) with
  | Some parsed => parsed
  | None =>
      match envPositive (env ≫= env_min_interval) with
      | Some parsed => Z.max 1 (FRONTEND_SOLANA_RPC_WINDOW_MS / parsed)
      | None => DEFAULT_FRONTEND_SOLANA_RPC_MAX_REQUESTS_PER_WINDOW
      end
  end.

(** The method of a request whose body was understood *)
Definition getRpcPriority (method : option string) : Z :=
  match method with
  | Some name =>
      if has TRANSACTION_CRITICAL_RPC_METHODS name then 0
      else if has BACKGROUND_RPC_METHODS name then 2
      else 1
  | None => 1
  end.

(** ** Delays *)
(** [Math.ceil] of a non-negative double *)
Definition f64_ceil (x : f64) : Z :=
  match x with
  | S754_finite false m e => if 0 <=? e then Z.pos m * 2 ^ e else - ((- Z.pos m) / 2 ^ (- e))
  | S754_infinity false => 2 ^ 1024
  | _ => 0
  end.

Definition f64_is_finite (x : f64) : bool :=
  match x with S754_finite _ _ _ | S754_zero _ => true | _ => false end.

Definition getBackoffDelayMs (attempt jitter : Z) : Z :=
  let exponentialDelay := FRONTEND_SOLANA_RPC_RETRY_BASE_DELAY_MS * 2 ^ attempt in
  Z.min FRONTEND_SOLANA_RPC_RETRY_MAX_DELAY_MS (exponentialDelay + jitter).

(** ** Selection *)
Definition precedes (candidate selected : RpcQueueEntry) : bool :=
  (priority candidate <? priority selected) ||
  ((priority candidate =? priority selected) && (sequence candidate <? sequence selected)).

(** [selected] is [queue[selectedIndex]]; [rest] starts at [index]. *)
Fixpoint selectLoop (rest : list RpcQueueEntry) (index selectedIndex : nat) (selected : RpcQueueEntry) : nat :=
  match rest with
  | [] => selectedIndex
  | candidate :: rest =>
      if precedes candidate selected then selectLoop rest (S index) index candidate
      else selectLoop rest (S index) selectedIndex selected
  end.

(** The entry and the queue without it *)
Definition selectNextQueueEntry (queue : list RpcQueueEntry) : option (RpcQueueEntry * list RpcQueueEntry) :=
  match queue with
  | [] => None
  | first :: rest =>
      let selectedIndex := selectLoop rest 1 0 first in
      match queue !! selectedIndex with
      | Some entry => Some (entry, take selectedIndex queue ++ drop (S selectedIndex) queue)
      | None => None
      end
  end.

Fixpoint pruneWindow (dispatchedAt : list Z) (now : Z) : list Z :=
  match dispatchedAt with
  | [] => []
  | oldestDispatch :: rest =>
      if now - FRONTEND_SOLANA_RPC_WINDOW_MS <? oldestDispatch then dispatchedAt else pruneWindow rest now
  end.

Definition pruneDispatchWindow (s : RpcEndpointState) (now : Z) : RpcEndpointState := {|
  cooldownUntil := cooldownUntil s; dispatchedAt := pruneWindow (dispatchedAt s) now;
  nextSequence := nextSequence s; queue := queue s; rateLimitFailures := rateLimitFailures s;
  rateLimited := rateLimited s; recoveryProbeInFlight := recoveryProbeInFlight s; timer := timer s |}.

(** [setTimeout] at time [now]. A delay above 32 bits does not wait. *)
Definition setTimeout (now delayMs : Z) : Z := if 2147483647 <? delayMs then now else now + delayMs.

Definition withTimer (s : RpcEndpointState) (t : option Z) : RpcEndpointState := {|
  cooldownUntil := cooldownUntil s; dispatchedAt := dispatchedAt s; nextSequence := nextSequence s;
  queue := queue s; rateLimitFailures := rateLimitFailures s; rateLimited := rateLimited s;
  recoveryProbeInFlight := recoveryProbeInFlight s; timer := t |}.

Definition withQueue (s : RpcEndpointState) (q : list RpcQueueEntry) : RpcEndpointState := {|
  cooldownUntil := cooldownUntil s; dispatchedAt := dispatchedAt s; nextSequence := nextSequence s;
  queue := q; rateLimitFailures := rateLimitFailures s; rateLimited := rateLimited s;
  recoveryProbeInFlight := recoveryProbeInFlight s; timer := timer s |}.

Definition scheduleEndpointPump (s : RpcEndpointState) (now delayMs : Z) : RpcEndpointState :=
  match timer s with
  | Some _ => s
  | None => withTimer s (Some (setTimeout now (Z.max 0 delayMs)))
  end.

Definition clearEndpointRateLimit (s : RpcEndpointState) : RpcEndpointState := {|
  cooldownUntil := 0; dispatchedAt := dispatchedAt s; nextSequence := nextSequence s; queue := queue s;
  rateLimitFailures := 0; rateLimited := false; recoveryProbeInFlight := false; timer := timer s |}.

(** A request that was handed to [fetch]; [fl_settled] once its response was handled. *)
Record Flight := { fl_entry : RpcQueueEntry; fl_probe : bool; fl_settled : bool }.

Record World := {
  w_readings : nat;
  w_state : RpcEndpointState;
  w_flights : list Flight;
  w_dispatches : list Z;
  w_outcomes : list (Z * Outcome);
}.

Definition setState (w : World) (s : RpcEndpointState) : World := {|
  w_readings := w_readings w; w_state := s; w_flights := w_flights w;
  w_dispatches := w_dispatches w; w_outcomes := w_outcomes w |}.

Definition readClock (w : World) : World := {|
  w_readings := S (w_readings w); w_state := w_state w; w_flights := w_flights w;
  w_dispatches := w_dispatches w; w_outcomes := w_outcomes w |}.

Section Endpoint.
Context (clock : nat -> Z) (env : option ProcessEnv) (toNumber : string -> f64) (dateParse : string -> option Z).

Definition DateNow (w : World) : Z := clock (w_readings w).
Definition maxRequests : Z := getFrontendSolanaRpcMaxRequestsPerWindow env.

(** [now] is read only for a header that is a date. *)
Definition getRetryAfterMs (response : option Response) (now : Z) : option Z :=
  match response ≫= fun r => mapGet (headers r) "retry-after" with
  | None => None
  | Some text =>
      let retryAfter := unchars (trim (chars text)) in
      if String.eqb retryAfter "" then None
      else
        let seconds := toNumber retryAfter in
        if f64_is_finite seconds && f64_gt seconds f64_zero
        then Some (f64_ceil (f64_mul seconds (f64_of_Z 1000)))
        else match dateParse retryAfter with
             | None => None
             | Some retryAt => let delayMs := retryAt - now in if 0 <? delayMs then Some delayMs else None
             end
  end.

(** Two readings of the clock: one for the header, one for the cooldown. *)
Definition markEndpointRateLimited (w : World) (response : option Response) (isRecoveryProbe : bool)
    (jitter : Z) : World :=
  let s := w_state w in
  let failures := if negb (rateLimited s) || isRecoveryProbe then rateLimitFailures s + 1
                  else rateLimitFailures s in
  let retryAfterMs := getRetryAfterMs response (DateNow w) in
  let w := readClock w in
  let cooldownMs := match retryAfterMs with
                    | Some ms => ms
                    | None => getBackoffDelayMs (Z.max 0 (failures - 1)) jitter
                    end in
  let until := Z.max (cooldownUntil s) (DateNow w + cooldownMs) in
  readClock (setState w {|
    cooldownUntil := until; dispatchedAt := dispatchedAt s; nextSequence := nextSequence s; queue := queue s;
    rateLimitFailures := failures; rateLimited := true;
    recoveryProbeInFlight := if isRecoveryProbe then false else recoveryProbeInFlight s;
    timer := timer s |}).

Definition dispatchQueueEntry (w : World) (entry : RpcQueueEntry) (isRecoveryProbe : bool) : World :=
  let s := w_state w in
  let now := DateNow w in {|
    w_readings := S (w_readings w);
    w_state := {|
      cooldownUntil := cooldownUntil s; dispatchedAt := dispatchedAt s ++ [now];
      nextSequence := nextSequence s; queue := queue s; rateLimitFailures := rateLimitFailures s;
      rateLimited := rateLimited s;
      recoveryProbeInFlight := if isRecoveryProbe then true else recoveryProbeInFlight s;
      timer := timer s |};
    w_flights := w_flights w ++ [{| fl_entry := entry; fl_probe := isRecoveryProbe; fl_settled := false |}];
    w_dispatches := w_dispatches w ++ [now];
    w_outcomes := w_outcomes w |}.

(** Select an entry, remove it from the queue and send it. *)
Definition sendNext (w : World) (isRecoveryProbe : bool) : World :=
  match selectNextQueueEntry (queue (w_state w)) with
  | Some (entry, rest) =>
      dispatchQueueEntry (setState w (withQueue (w_state w) rest)) entry isRecoveryProbe
  | None => w
  end.

Definition mayDispatch (s : RpcEndpointState) : bool :=
  (0 <? length (queue s))%nat && (Z.of_nat (length (dispatchedAt s)) <? maxRequests) && negb (rateLimited s).

(** The [while] loop of the pump; each round takes an entry off the queue. *)
Fixpoint drainQueue (fuel : nat) (w : World) : World :=
  match fuel with
  | O => w
  | S fuel => if mayDispatch (w_state w) then drainQueue fuel (sendNext w false) else w
  end.

Definition windowReadyAt (s : RpcEndpointState) (now : Z) : Z :=
  match dispatchedAt s with
  | oldestDispatch :: _ =>
      if maxRequests <=? Z.of_nat (length (dispatchedAt s))
      then oldestDispatch + FRONTEND_SOLANA_RPC_WINDOW_MS else now
  | [] => now
  end.

Definition pumpEndpointQueue (w : World) : World :=
  match queue (w_state w) with
  | [] => w
  | _ =>
      let now := DateNow w in
      let w := readClock w in
      let w := setState w (pruneDispatchWindow (w_state w) now) in
      let s := w_state w in
      if rateLimited s then
        if recoveryProbeInFlight s then w
        else
          let recoveryReadyAt := Z.max (cooldownUntil s) (windowReadyAt s now) in
          if now <? recoveryReadyAt
          then setState w (scheduleEndpointPump s now (recoveryReadyAt - now))
          else sendNext w true
      else
        let w := drainQueue (length (queue s)) w in
        let s := w_state w in
        match queue s, dispatchedAt s with
        | _ :: _, oldestDispatch :: _ =>
            let now := DateNow w in
            readClock (setState w
              (scheduleEndpointPump s now (oldestDispatch + FRONTEND_SOLANA_RPC_WINDOW_MS - now)))
        | _, _ => w
        end
  end.

Definition runQueuedFetch (w : World) (method : option string) : World :=
  let s := w_state w in
  pumpEndpointQueue (setState w {|
    cooldownUntil := cooldownUntil s; dispatchedAt := dispatchedAt s; nextSequence := nextSequence s + 1;
    queue := queue s ++ [{| priority := getRpcPriority method; sequence := nextSequence s |}];
    rateLimitFailures := rateLimitFailures s; rateLimited := rateLimited s;
    recoveryProbeInFlight := recoveryProbeInFlight s; timer := timer s |}).

(** The [then] and [catch] callbacks of a dispatched request *)
Definition settleState (w : World) (outcome : Outcome) (isRecoveryProbe : bool) (jitter : Z) : World :=
  let clear := if isRecoveryProbe then setState w (clearEndpointRateLimit (w_state w)) else w in
  match outcome with
  | Resolved response =>
      if status response =? 429 then markEndpointRateLimited w (Some response) isRecoveryProbe jitter else clear
  | Rejected error =>
      if String.eqb (exn_name error) "TypeError" then markEndpointRateLimited w None isRecoveryProbe jitter
      else clear
  end.

Inductive event :=
| Request (method : option string)
| Settle (flight : nat) (outcome : Outcome) (jitter : Z)
| Finally (flight : nat)
| TimerFires.

Definition settled (f : Flight) : Flight :=
  {| fl_entry := fl_entry f; fl_probe := fl_probe f; fl_settled := true |}.

Definition jitter_ok (jitter : Z) : bool := (0 <=? jitter) && (jitter <? FRONTEND_SOLANA_RPC_RETRY_JITTER_MS).

(** One event, [None] when it cannot happen. The callbacks of a request run in order;
    a timer runs when its time has come. *)
Definition step (e : event) (w : World) : option World :=
  match e with
  | Request method => Some (runQueuedFetch w method)
  | Settle i outcome jitter =>
      f ← w_flights w !! i;
      if fl_settled f || negb (jitter_ok jitter) then None
      else
        let w := settleState w outcome (fl_probe f) jitter in
        Some {| w_readings := w_readings w; w_state := w_state w; w_flights := <[i:=settled f]> (w_flights w);
                w_dispatches := w_dispatches w;
                w_outcomes := w_outcomes w ++ [(sequence (fl_entry f), outcome)] |}
  | Finally i =>
      f ← w_flights w !! i;
      if fl_settled f then
        Some (pumpEndpointQueue {|
          w_readings := w_readings w; w_state := w_state w;
          w_flights := take i (w_flights w) ++ drop (S i) (w_flights w);
          w_dispatches := w_dispatches w; w_outcomes := w_outcomes w |})
      else None
  | TimerFires =>
      due ← timer (w_state w);
      if due <=? DateNow w then Some (pumpEndpointQueue (setState w (withTimer (w_state w) None))) else None
  end.

Definition initial : World := {|
  w_readings := 0; w_state := newEndpointState; w_flights := []; w_dispatches := []; w_outcomes := [] |}.

Inductive reachable : World -> Prop :=
| reachable_initial : reachable initial
| reachable_step w e w' : reachable w -> step e w = Some w' -> reachable w'.

Fixpoint run (events : list event) (w : World) : option World :=
  match events with
  | [] => Some w
  | e :: events => w' ← step e w; run events w'
  end.

(** ** Selection *)
Lemma selectLoop_spec rest pre index sel selected :
  index = length pre -> (pre ++ rest) !! sel = Some selected ->
  Forall (fun x => precedes x selected = false) pre ->
  exists e, (pre ++ rest) !! selectLoop rest index sel selected = Some e /\
    Forall (fun x => precedes x e = false) (pre ++ rest).
Proof.
  revert pre index sel selected. induction rest as [|c rest IH]; intros pre index sel selected -> Hs Hp;
    cbn [selectLoop].
  - exists selected. by rewrite app_nil_r in *.
  - rewrite cons_middle, app_assoc in Hs |- *. destruct (precedes c selected) eqn:Hc.
    + apply IH; [rewrite length_app; simpl; lia| |].
      * rewrite lookup_app_l by (rewrite length_app; simpl; lia). by apply list_lookup_middle.
      * apply Forall_app. split; [|by apply Forall_singleton; unfold precedes; lia].
        eapply Forall_impl; [exact Hp|]. unfold precedes in *. intros x Hx. lia.
    + apply IH; [rewrite length_app; simpl; lia|done|]. apply Forall_app. split; [done|by apply Forall_singleton].
Qed.

Lemma select_nonempty q : q <> [] ->
  exists e rest, selectNextQueueEntry q = Some (e, rest) /\ q ≡ₚ e :: rest /\
    Forall (fun x => precedes x e = false) q.
Proof.
  destruct q as [|first q]; [done|]. intros _. unfold selectNextQueueEntry.
  destruct (selectLoop_spec q [first] 1 0 first eq_refl eq_refl) as (e & He & Hmin).
  { apply Forall_singleton. unfold precedes. lia. }
  cbn [app] in *. rewrite He. do 2 eexists. split; [reflexivity|]. split; [|done].
  rewrite <- (take_drop_middle _ _ _ He) at 1. by rewrite <- Permutation_middle.
Qed.

(** ** Lists of requests under way *)
Lemma filter_perm {A} (P : A -> bool) l l' : l ≡ₚ l' -> List.filter P l ≡ₚ List.filter P l'.
Proof.
  induction 1 as [|x l l' _ IH|x y l|l1 l2 l3 _ IH1 _ IH2]; cbn [List.filter]; [done| | |by etrans].
  - by destruct (P x); [constructor|].
  - destruct (P x), (P y); try done. constructor.
Qed.

Lemma lookup_perm {A} (l : list A) i x : l !! i = Some x -> l ≡ₚ x :: take i l ++ drop (S i) l.
Proof. intros H. rewrite <- (take_drop_middle _ _ _ H) at 1. by rewrite <- Permutation_middle. Qed.

Lemma insert_perm {A} (l : list A) i x y : l !! i = Some x -> <[i:=y]> l ≡ₚ y :: take i l ++ drop (S i) l.
Proof.
  intros H. rewrite insert_take_drop by (by eapply lookup_lt_Some). by rewrite <- Permutation_middle.
Qed.

(** The unsettled requests, and the unsettled recovery probes *)
Definition unsettled (l : list Flight) : list Flight := List.filter (fun f => negb (fl_settled f)) l.
Definition probes (l : list Flight) : list Flight := List.filter fl_probe (unsettled l).

#[export] Instance unsettled_perm : Proper ((≡ₚ) ==> (≡ₚ)) unsettled.
Proof. intros l l' H. by apply filter_perm. Qed.
#[export] Instance probes_perm : Proper ((≡ₚ) ==> (≡ₚ)) probes.
Proof. intros l l' H. by apply filter_perm, filter_perm. Qed.

(** ** The invariant *)
(** Dispatches in the window that ends at [t] *)
Definition dispatchesWithin (t : Z) (l : list Z) : nat :=
  length (List.filter (fun d => (t - FRONTEND_SOLANA_RPC_WINDOW_MS <? d) && (d <=? t)) l).

(** Nothing but an outstanding probe holds back a dispatch at [now]. *)
Definition ready (s : RpcEndpointState) (now : Z) : Prop :=
  (rateLimited s = true -> cooldownUntil s <= now) /\
  match dispatchedAt s with
  | oldest :: _ => maxRequests <= Z.of_nat (length (dispatchedAt s)) -> oldest + FRONTEND_SOLANA_RPC_WINDOW_MS <= now
  | [] => True
  end.

(** The sequence numbers of the queue, of the requests under way and of the settled ones *)
Definition accounted (w : World) : list Z :=
  map sequence (queue (w_state w)) ++ map (fun f => sequence (fl_entry f)) (unsettled (w_flights w)) ++
  map fst (w_outcomes w).

Record inv (w : World) : Prop := {
  inv_window : exists old, w_dispatches w = old ++ dispatchedAt (w_state w) /\
                 Forall (fun t => t <= DateNow w - FRONTEND_SOLANA_RPC_WINDOW_MS) old;
  inv_rate t : Z.of_nat (dispatchesWithin t (w_dispatches w)) <= maxRequests;
  inv_length : Z.of_nat (length (dispatchedAt (w_state w))) <= maxRequests;
  inv_probe : length (probes (w_flights w)) = if recoveryProbeInFlight (w_state w) then 1%nat else 0%nat;
  inv_limited : recoveryProbeInFlight (w_state w) = true -> rateLimited (w_state w) = true;
  inv_accounted : 0 <= nextSequence (w_state w) /\ accounted w ≡ₚ seqZ 0 (nextSequence (w_state w));
  inv_timer due : timer (w_state w) = Some due ->
    (recoveryProbeInFlight (w_state w) = true -> due <= DateNow w) /\
    forall now, DateNow w <= now -> ready (w_state w) now -> due <= now;
}.

(** Something will run the pump again. *)
Definition awake (w : World) : Prop :=
  queue (w_state w) <> [] -> timer (w_state w) <> None \/ w_flights w <> [].

Lemma maxRequests_positive : 1 <= maxRequests.
Proof.
  unfold maxRequests, getFrontendSolanaRpcMaxRequestsPerWindow.
  assert (H : forall raw z, envPositive raw = Some z -> 1 <= z).
  { intros [t|] z; cbn [envPositive]; [|done]. destruct (String.eqb t ""); [done|].
    destruct (parseInt10 t) as [p|]; cbn [finitePositive]; [|done].
    destruct (_ && _) eqn:E; [intros [= <-]; lia|done]. }
  destruct (envPositive _) as [z|] eqn:E; [by eapply H|].
  destruct (envPositive (env ≫= env_min_interval)); unfold DEFAULT_FRONTEND_SOLANA_RPC_MAX_REQUESTS_PER_WINDOW; lia.
Qed.

Lemma reachable_run es w w' : reachable w -> run es w = Some w' -> reachable w'.
Proof.
  revert w. induction es as [|e es IH]; intros w Hw; cbn [run]; [by intros [= <-]|].
  destruct (step e w) as [w1|] eqn:E; [|done]. cbn [mbind option_bind]. apply IH. by eapply reachable_step.
Qed.

Section Laws.
Context (clock_mono : forall i, clock i <= clock (S i)).

Lemma initial_inv : inv initial.
Proof.
  split; cbn; try done; [by exists []| |]; pose proof maxRequests_positive; lia.
Qed.

Lemma readClock_inv w : inv w -> inv (readClock w).
Proof.
  pose proof (clock_mono (w_readings w)) as Hc.
  intros [(old & Hw & Ho) Hr Hl Hp Hli Ha Ht]. split; try done.
  - exists old. split; [done|]. eapply Forall_impl; [exact Ho|]. unfold DateNow; cbn. lia.
  - intros due Hd. destruct (Ht due Hd) as [H1 H2]. unfold DateNow in *; cbn in *.
    split; [intros Hq; specialize (H1 Hq); lia|]. intros now Hn Hrdy. apply H2; [lia|done].
Qed.

Lemma pruneWindow_split l now :
  exists old, l = old ++ pruneWindow l now /\ Forall (fun t => t <= now - FRONTEND_SOLANA_RPC_WINDOW_MS) old.
Proof.
  induction l as [|t l IH]; cbn [pruneWindow]; [by exists []|].
  destruct (Z.ltb_spec (now - FRONTEND_SOLANA_RPC_WINDOW_MS) t); [by exists []|].
  destruct IH as (old & E & Ho). exists (t :: old). split; [by rewrite E at 1|]. by constructor.
Qed.

Lemma pruneWindow_ready s now now' :
  now <= now' -> ready (pruneDispatchWindow s now) now' -> ready s now'.
Proof.
  intros Hn [Hc Hw]. split; [done|]. cbn [pruneDispatchWindow dispatchedAt] in Hw.
  destruct (dispatchedAt s) as [|t l]; [done|]. cbn [pruneWindow] in Hw.
  destruct (Z.ltb_spec (now - FRONTEND_SOLANA_RPC_WINDOW_MS) t); [done|lia].
Qed.

(** Pruning with the reading just made *)
Lemma prune_inv w : inv w -> inv (setState (readClock w) (pruneDispatchWindow (w_state w) (DateNow w))).
Proof.
  intros Hi. destruct (readClock_inv w Hi) as [(old & Hw & Ho) Hr Hl Hp Hli Ha Ht].
  pose proof (clock_mono (w_readings w)) as Hc. cbn [readClock w_state w_dispatches] in *.
  destruct (pruneWindow_split (dispatchedAt (w_state w)) (DateNow w)) as (cut & E & Hcut).
  split; cbn [setState readClock w_state w_dispatches pruneDispatchWindow dispatchedAt]; try done.
  - exists (old ++ cut). split; [by rewrite <- app_assoc, <- E|]. apply Forall_app. split; [done|].
    eapply Forall_impl; [exact Hcut|]. unfold DateNow; cbn. lia.
  - rewrite E, length_app in Hl. lia.
  - intros due Hd. destruct (Ht due Hd) as [H1 H2]. split; [done|]. intros now Hn Hrdy. apply H2; [done|].
    eapply pruneWindow_ready; [|exact Hrdy]. unfold DateNow in *; cbn in *. lia.
Qed.

Lemma dispatchesWithin_app t l l' : dispatchesWithin t (l ++ l') = (dispatchesWithin t l + dispatchesWithin t l')%nat.
Proof. unfold dispatchesWithin. by rewrite List.filter_app, length_app. Qed.

Lemma dispatchesWithin_length t l : (dispatchesWithin t l <= length l)%nat.
Proof. apply List.filter_length_le. Qed.

(** A dispatch now, when fewer than the maximum are remembered, keeps every window within it. *)
Lemma dispatch_rate old recent now t :
  Forall (fun d => d <= now - FRONTEND_SOLANA_RPC_WINDOW_MS) old ->
  Z.of_nat (dispatchesWithin t (old ++ recent)) <= maxRequests -> Z.of_nat (length recent) < maxRequests ->
  Z.of_nat (dispatchesWithin t ((old ++ recent) ++ [now])) <= maxRequests.
Proof.
  intros Ho Hr Hl. rewrite dispatchesWithin_app. destruct (Z.leb_spec now t) as [Hn|Hn].
  - rewrite dispatchesWithin_app in *. assert (dispatchesWithin t old = 0%nat) as ->.
    { unfold dispatchesWithin. clear -Ho Hn. induction Ho as [|d l Hd _ IH]; cbn [List.filter]; [done|].
      destruct (Z.ltb_spec (t - FRONTEND_SOLANA_RPC_WINDOW_MS) d); [lia|done]. }
    pose proof (dispatchesWithin_length t recent). pose proof (dispatchesWithin_length t [now]). cbn in *. lia.
  - assert (dispatchesWithin t [now] = 0%nat) as ->; [|lia].
    unfold dispatchesWithin. cbn [List.filter]. destruct (Z.leb_spec now t); [lia|]. by rewrite andb_false_r.
Qed.

Lemma ready_snoc s s' now d : rateLimited s' = rateLimited s -> cooldownUntil s' = cooldownUntil s ->
  dispatchedAt s' = dispatchedAt s ++ [d] -> ready s' now -> ready s now.
Proof.
  intros Hl Hc Hd [H1 H2]. rewrite Hl, Hc in H1. split; [done|]. rewrite Hd in H2.
  destruct (dispatchedAt s) as [|o l]; [done|]. cbn [app length] in *. rewrite length_app in H2. intros Hm.
  apply H2. simpl. lia.
Qed.

Lemma probes_app l l' : probes (l ++ l') = probes l ++ probes l'.
Proof. unfold probes, unsettled. by rewrite !List.filter_app. Qed.

Lemma sendNext_inv w probe :
  inv w -> queue (w_state w) <> [] -> Z.of_nat (length (dispatchedAt (w_state w))) < maxRequests ->
  (probe = true -> rateLimited (w_state w) = true /\ recoveryProbeInFlight (w_state w) = false /\
                   ready (w_state w) (DateNow w)) ->
  inv (sendNext w probe).
Proof.
  intros [(old & Hw & Ho) Hr Hl Hp Hli [Hn Ha] Ht] Hq Hlen Hprobe. unfold sendNext.
  destruct (select_nonempty _ Hq) as (e & rest & -> & Hperm & _).
  pose proof (clock_mono (w_readings w)) as Hc.
  split; cbn [dispatchQueueEntry setState withQueue w_state w_dispatches w_flights w_outcomes dispatchedAt
    recoveryProbeInFlight rateLimited nextSequence timer].
  - exists old. split; [by rewrite Hw, app_assoc|]. eapply Forall_impl; [exact Ho|]. unfold DateNow; cbn. lia.
  - intros t. rewrite Hw in Hr |- *. apply dispatch_rate; [|apply Hr|done]. exact Ho.
  - rewrite length_app. simpl. lia.
  - rewrite probes_app, length_app, Hp. destruct probe; cbn; [|lia].
    destruct (Hprobe eq_refl) as (_ & -> & _). done.
  - destruct probe; [by intros _; apply Hprobe|done].
  - split; [done|]. rewrite <- Ha. unfold accounted.
    cbn [dispatchQueueEntry setState withQueue w_state w_flights w_outcomes queue]. rewrite Hperm.
    unfold unsettled. rewrite List.filter_app, map_app. cbn. solve_Permutation.
  - intros due Hd. destruct (Ht due Hd) as [H1 H2]. unfold DateNow in *; cbn in *.
    assert (Hrdy : forall now, clock (S (w_readings w)) <= now -> ready (w_state w) now -> due <= now)
      by (intros now Hn' Hrd; apply H2; [lia|done]).
    split.
    + destruct probe; [|intros Hf; specialize (H1 Hf); lia]. intros _. destruct (Hprobe eq_refl) as (_ & _ & Hrd).
      specialize (H2 _ ltac:(reflexivity) Hrd). lia.
    + intros now Hn' Hrd. apply Hrdy; [done|]. eapply ready_snoc; [..|exact Hrd]; reflexivity.
Qed.

(** What one send changes *)
Lemma sendNext_frame w probe : queue (w_state w) <> [] ->
  exists e, Forall (fun x => precedes x e = false) (queue (w_state w)) /\ e ∈ queue (w_state w) /\
    w_flights (sendNext w probe) = w_flights w ++ [{| fl_entry := e; fl_probe := probe; fl_settled := false |}] /\
    S (length (queue (w_state (sendNext w probe)))) = length (queue (w_state w)) /\
    rateLimited (w_state (sendNext w probe)) = rateLimited (w_state w) /\
    timer (w_state (sendNext w probe)) = timer (w_state w) /\
    (w_readings w <= w_readings (sendNext w probe))%nat.
Proof.
  intros Hq. unfold sendNext. destruct (select_nonempty _ Hq) as (e & rest & -> & Hperm & Hmin). exists e.
  pose proof (Permutation_length Hperm) as Hlen. cbn in Hlen |- *.
  split_and!; try done; [rewrite Hperm; left|lia].
Qed.

Lemma mayDispatch_true s : mayDispatch s = true <->
  queue s <> [] /\ Z.of_nat (length (dispatchedAt s)) < maxRequests /\ rateLimited s = false.
Proof.
  unfold mayDispatch. rewrite !andb_true_iff, Nat.ltb_lt, Z.ltb_lt, negb_true_iff.
  destruct (queue s); cbn; split; intros; destruct_and?; split_and!; try done; lia.
Qed.

(** The loop ends because its guard fails, with the work it did. *)
Lemma drainQueue_spec fuel w : inv w -> (length (queue (w_state w)) <= fuel)%nat ->
  let w' := drainQueue fuel w in
  inv w' /\ mayDispatch (w_state w') = false /\
  rateLimited (w_state w') = rateLimited (w_state w) /\ timer (w_state w') = timer (w_state w) /\
  exists new, w_flights w' = w_flights w ++ new /\
    (length new + length (queue (w_state w')) = length (queue (w_state w)))%nat.
Proof.
  revert w. induction fuel as [|fuel IH]; intros w Hi Hf w'; subst w'; cbn [drainQueue].
  - split_and!; try done; [|by exists []; rewrite app_nil_r].
    unfold mayDispatch. destruct (queue (w_state w)); [done|simpl in Hf; lia].
  - destruct (mayDispatch (w_state w)) eqn:Hm; [|split_and!; try done; by exists []; rewrite app_nil_r].
    apply mayDispatch_true in Hm as (Hq & Hl & Hr).
    destruct (sendNext_frame w false Hq) as (e & _ & _ & Hfl & Hlen & Hrl & Htm & _).
    destruct (IH (sendNext w false)) as (Hi' & Hm' & Hr' & Ht' & new & Hn & Hln).
    { by apply sendNext_inv. }
    { lia. }
    split_and!; try congruence. eexists (_ :: new). split; [by rewrite Hn, Hfl, <- app_assoc|]. simpl. lia.
Qed.

Lemma schedule_inv w now delay :
  inv w -> now <= DateNow w ->
  (recoveryProbeInFlight (w_state w) = false) ->
  (forall t, DateNow w <= t -> ready (w_state w) t -> now + delay <= t) ->
  inv (setState w (scheduleEndpointPump (w_state w) now delay)) /\
  timer (scheduleEndpointPump (w_state w) now delay) <> None.
Proof.
  intros Hi Hnow Hp Hdelay. unfold scheduleEndpointPump. destruct (timer (w_state w)) eqn:E.
  { split; [by destruct w|by rewrite E]. }
  split; [|done]. destruct Hi. split; try done. cbn [setState withTimer w_state timer]. intros due [= <-].
  split; [by cbn; rewrite Hp|]. intros t Ht Hrdy. specialize (Hdelay t Ht Hrdy). cbn in Ht. unfold DateNow in *.
  cbn in Ht. unfold setTimeout. destruct (_ <? _); lia.
Qed.

Lemma windowReady_ready s now t : now <= t -> ready s t -> windowReadyAt s now <= t.
Proof.
  intros Hn [_ Hw]. unfold windowReadyAt. destruct (dispatchedAt s) as [|o l]; [done|].
  destruct (Z.leb_spec maxRequests (Z.of_nat (length (o :: l)))); [auto|done].
Qed.

Lemma pruned_window s now : Z.of_nat (length (dispatchedAt s)) <= maxRequests ->
  windowReadyAt (pruneDispatchWindow s now) now <= now ->
  Z.of_nat (length (dispatchedAt (pruneDispatchWindow s now))) < maxRequests.
Proof.
  pose proof maxRequests_positive. intros Hl. unfold windowReadyAt. cbn [pruneDispatchWindow dispatchedAt].
  destruct (pruneWindow (dispatchedAt s) now) as [|o l] eqn:E; [cbn; lia|].
  assert (now - FRONTEND_SOLANA_RPC_WINDOW_MS < o).
  { clear -E. revert E. generalize (dispatchedAt s). intros m. induction m as [|t m IH]; cbn [pruneWindow]; [done|].
    destruct (Z.ltb_spec (now - FRONTEND_SOLANA_RPC_WINDOW_MS) t); [by intros [= <- <-]|done]. }
  destruct (Z.leb_spec maxRequests (Z.of_nat (length (o :: l)))); lia.
Qed.

Lemma ready_of_window s now : cooldownUntil s <= now ->
  Z.of_nat (length (dispatchedAt s)) < maxRequests -> ready s now.
Proof. intros Hc Hl. split; [done|]. destruct (dispatchedAt s); [done|lia]. Qed.

Lemma pump_inv w : inv w -> inv (pumpEndpointQueue w) /\ awake (pumpEndpointQueue w).
Proof.
  intros Hi. unfold pumpEndpointQueue. destruct (queue (w_state w)) as [|q0 qs] eqn:Hq; [by split; [|intros []]|].
  cbv zeta. set (now := DateNow w). change (w_state (readClock w)) with (w_state w).
  pose proof (prune_inv w Hi) as Hp. fold now in Hp. set (w1 := setState _ _) in *.
  assert (Hq1 : queue (w_state w1) <> []) by (cbn; by rewrite Hq).
  assert (Hnow : now <= DateNow w1) by (unfold now, DateNow; apply clock_mono).
  destruct (rateLimited (w_state w1)) eqn:Hrl.
  - destruct (recoveryProbeInFlight (w_state w1)) eqn:Hpf.
    { split; [done|]. intros _. right. pose proof (inv_probe _ Hp) as H. rewrite Hpf in H. by intros E; rewrite E in H. }
    destruct (Z.ltb_spec now (Z.max (cooldownUntil (w_state w1)) (windowReadyAt (w_state w1) now))) as [Hlt|Hge].
    + edestruct (schedule_inv w1 now) as [H1 H2]; [done..| |split; [exact H1|intros _; by left]].
      intros t Ht Hrdy. pose proof (windowReady_ready _ now t ltac:(lia) Hrdy). destruct Hrdy as [Hc _].
      specialize (Hc Hrl). lia.
    + assert (Hlen : Z.of_nat (length (dispatchedAt (w_state w1))) < maxRequests).
      { apply pruned_window; [apply (inv_length _ Hi)|]. change (pruneDispatchWindow (w_state w) now) with (w_state w1). lia. }
      split.
      * apply sendNext_inv; [done..|]. intros _. split_and!; [done..|]. apply ready_of_window; [lia|done].
      * destruct (sendNext_frame w1 true Hq1) as (e & _ & _ & Hfl & _). intros _. right. rewrite Hfl. by destruct (w_flights w1).
  - destruct (drainQueue_spec (length (queue (w_state w1))) w1 Hp ltac:(lia)) as (Hi2 & Hm & Hr2 & Ht2 & new & Hn & Hln).
    set (w2 := drainQueue _ w1) in *.
    destruct (queue (w_state w2)) as [|e2 q2] eqn:Hq2; [by split; [|intros []]|].
    destruct (dispatchedAt (w_state w2)) as [|o l] eqn:Hd.
    { exfalso. assert (mayDispatch (w_state w2) = true); [|congruence]. apply mayDispatch_true. rewrite Hq2, Hd.
      pose proof maxRequests_positive. split_and!; [done|simpl; lia|by rewrite Hr2]. }
    edestruct (schedule_inv w2 (DateNow w2)) as [H1 H2]; [done|lia| | |split; [apply readClock_inv; exact H1|intros _; by left]].
    + destruct (recoveryProbeInFlight (w_state w2)) eqn:E; [|done]. pose proof (inv_limited _ Hi2 E) as Hx. by rewrite Hr2, Hrl in Hx.
    + intros t Ht [_ Hrdy]. rewrite Hd in Hrdy.
      enough (maxRequests <= Z.of_nat (length (o :: l))) by (specialize (Hrdy ltac:(done)); lia).
      destruct (Z.leb_spec maxRequests (Z.of_nat (length (o :: l)))); [done|].
      assert (mayDispatch (w_state w2) = true); [|congruence]. apply mayDispatch_true. rewrite Hq2, Hd.
      split_and!; [done|lia|by rewrite Hr2].
Qed.

Lemma retryAfter_nonneg response now ms : getRetryAfterMs response now = Some ms -> 0 <= ms.
Proof.
  unfold getRetryAfterMs. destruct (response ≫= _) as [t|]; [|done]. cbv zeta.
  destruct (String.eqb _ ""); [done|]. destruct (_ && _).
  - intros [= <-]. destruct (f64_mul _ _) as [|[]| |[] m e]; cbn [f64_ceil]; try lia.
    destruct (Z.leb_spec 0 e); [lia|]. rewrite <- Z.opp_nonpos_nonneg, Z.opp_involutive.
    apply Z.lt_succ_r, Z.div_lt_upper_bound; lia.
  - destruct (dateParse _) as [r|]; [|done]. destruct (Z.ltb_spec 0 (r - now)); [intros [= <-]; lia|done].
Qed.

Lemma clock_le i j : (i <= j)%nat -> clock i <= clock j.
Proof. induction 1 as [|j _ IH]; [done|]. pose proof (clock_mono j). lia. Qed.

Lemma settle_flights l i f : l !! i = Some f -> fl_settled f = false ->
  unsettled l ≡ₚ f :: unsettled (<[i:=settled f]> l) /\
  length (probes l) = ((if fl_probe f then 1 else 0) + length (probes (<[i:=settled f]> l)))%nat.
Proof.
  intros Hi Hs. pose proof (lookup_perm _ _ _ Hi) as Hl. pose proof (insert_perm _ _ _ (settled f) Hi) as Hl'.
  assert (Hu : unsettled l ≡ₚ f :: unsettled (<[i:=settled f]> l)).
  { rewrite Hl' . rewrite Hl at 1. unfold unsettled. cbn [List.filter]. by rewrite Hs. }
  split; [done|]. unfold probes. rewrite (filter_perm _ _ _ Hu). cbn [List.filter]. by destruct (fl_probe f).
Qed.

(** A response was handled: its request is settled, and the state changed in the fields
    about the rate limit only. *)
Lemma settle_inv w i f outcome n s' :
  inv w -> w_flights w !! i = Some f -> fl_settled f = false -> (w_readings w <= n)%nat ->
  dispatchedAt s' = dispatchedAt (w_state w) -> nextSequence s' = nextSequence (w_state w) ->
  queue s' = queue (w_state w) -> timer s' = timer (w_state w) ->
  recoveryProbeInFlight s' = (if fl_probe f then false else recoveryProbeInFlight (w_state w)) ->
  (recoveryProbeInFlight s' = true -> rateLimited s' = true) ->
  (forall now, ready s' now -> ready (w_state w) now \/ recoveryProbeInFlight (w_state w) = true) ->
  inv {| w_readings := n; w_state := s'; w_flights := <[i:=settled f]> (w_flights w);
         w_dispatches := w_dispatches w; w_outcomes := w_outcomes w ++ [(sequence (fl_entry f), outcome)] |}.
Proof.
  intros [(old & Hw & Ho) Hr Hl Hp Hli [Hn Ha] Ht] Hi Hs Hread Hd Hseq Hq Htm Hpr Hlim Hrdy.
  destruct (settle_flights _ _ _ Hi Hs) as [Hu Hpb]. pose proof (clock_le _ _ Hread) as Hc.
  split; cbn [w_state w_dispatches w_flights w_outcomes]; rewrite ?Hd, ?Hseq, ?Htm; try done.
  - exists old. split; [done|]. eapply Forall_impl; [exact Ho|]. unfold DateNow; cbn. lia.
  - rewrite Hpr. destruct (fl_probe f); [|rewrite <- Hp; lia]. destruct (recoveryProbeInFlight (w_state w)); lia.
  - split; [done|]. rewrite <- Ha. unfold accounted. cbn [w_state w_flights w_outcomes]. rewrite Hq, Hu, map_app.
    cbn [map]. solve_Permutation.
  - intros due Hdue. destruct (Ht due Hdue) as [H1 H2]. unfold DateNow in *. cbn [w_readings] in *. split.
    + rewrite Hpr. destruct (fl_probe f); [done|]. intros Hf. specialize (H1 Hf). lia.
    + intros now Hnow Hx. destruct (Hrdy now Hx) as [Hy|Hy]; [apply H2; [lia|done]|]. specialize (H1 Hy). lia.
Qed.

Lemma probe_flight w i f : inv w -> w_flights w !! i = Some f -> fl_settled f = false -> fl_probe f = true ->
  recoveryProbeInFlight (w_state w) = true.
Proof.
  intros Hi Hl Hs Hp. destruct (settle_flights _ _ _ Hl Hs) as [_ H]. rewrite Hp, (inv_probe _ Hi) in H.
  destruct (recoveryProbeInFlight (w_state w)); [done|lia].
Qed.

Lemma settle_step_inv w i f outcome jitter : inv w -> w_flights w !! i = Some f -> fl_settled f = false ->
  let w1 := settleState w outcome (fl_probe f) jitter in
  inv {| w_readings := w_readings w1; w_state := w_state w1; w_flights := <[i:=settled f]> (w_flights w1);
         w_dispatches := w_dispatches w1; w_outcomes := w_outcomes w1 ++ [(sequence (fl_entry f), outcome)] |}
  /\ w_flights w1 = w_flights w /\ queue (w_state w1) = queue (w_state w).
Proof.
  intros Hi Hl Hs.
  assert (Hmark : forall response, let w1 := markEndpointRateLimited w response (fl_probe f) jitter in
    inv {| w_readings := w_readings w1; w_state := w_state w1; w_flights := <[i:=settled f]> (w_flights w1);
         w_dispatches := w_dispatches w1; w_outcomes := w_outcomes w1 ++ [(sequence (fl_entry f), outcome)] |}).
  { intros response. cbv zeta. apply (settle_inv w i f); try done; [cbn; lia|]. intros now [Hc Hw].
    specialize (Hc eq_refl). cbn in Hc. left. split; [lia|exact Hw]. }
  assert (Hclear : let w1 := if fl_probe f then setState w (clearEndpointRateLimit (w_state w)) else w in
    inv {| w_readings := w_readings w1; w_state := w_state w1; w_flights := <[i:=settled f]> (w_flights w1);
         w_dispatches := w_dispatches w1; w_outcomes := w_outcomes w1 ++ [(sequence (fl_entry f), outcome)] |}).
  { cbv zeta. destruct (fl_probe f) eqn:Hp; cbn [setState w_readings w_state w_flights w_dispatches w_outcomes];
      apply (settle_inv w i f); try done; rewrite ?Hp; try done.
    - intros now _. right. by eapply probe_flight.
    - apply (inv_limited _ Hi).
    - intros now Hx. by left. }
  unfold settleState. cbv zeta in Hmark, Hclear |- *. destruct outcome as [r|x].
  - destruct (status r =? 429); [by split_and!|]. split; [exact Hclear|]. by destruct (fl_probe f).
  - destruct (String.eqb (exn_name x) "TypeError"); [by split_and!|]. split; [exact Hclear|]. by destruct (fl_probe f).
Qed.

Lemma step_inv e w w' : inv w -> awake w -> step e w = Some w' -> inv w' /\ awake w'.
Proof.
  intros Hi Haw. destruct e as [method|i outcome jitter|i|]; cbn [step].
  - intros [= <-]. apply pump_inv. destruct Hi as [Hw Hr Hl Hp Hli [Hn Ha] Ht]. split; try done.
    cbn [setState w_state nextSequence]. split; [lia|].
    rewrite seqZ_app, <- Ha by lia. unfold accounted.
    cbn [setState w_state w_flights w_outcomes queue]. rewrite map_app. cbn [map sequence].
    assert (seqZ (0 + nextSequence (w_state w)) 1 = [nextSequence (w_state w)]) as -> by (unfold seqZ; cbn; f_equal; lia).
    solve_Permutation.
  - destruct (w_flights w !! i) as [f|] eqn:Hl; [|done]. cbn [mbind option_bind].
    destruct (fl_settled f) eqn:Hs; [done|]. destruct (jitter_ok jitter); [|done]. cbn [orb negb]. intros [= <-].
    destruct (settle_step_inv w i f outcome jitter Hi Hl Hs) as (H1 & H2 & H3). split; [exact H1|].
    intros _. right. cbn [w_flights]. rewrite H2. intros E. apply (f_equal length) in E. rewrite length_insert in E.
    apply lookup_lt_Some in Hl. simpl in E. lia.
  - destruct (w_flights w !! i) as [f|] eqn:Hl; [|done]. cbn [mbind option_bind].
    destruct (fl_settled f) eqn:Hs; [|done]. intros [= <-]. apply pump_inv.
    pose proof (lookup_perm _ _ _ Hl) as Hperm.
    assert (Hu : unsettled (w_flights w) ≡ₚ unsettled (take i (w_flights w) ++ drop (S i) (w_flights w))).
    { rewrite Hperm at 1. unfold unsettled. cbn [List.filter]. by rewrite Hs. }
    destruct Hi as [Hw Hr Hl' Hp Hli [Hn Ha] Ht]. split; try done; cbn [w_flights w_state].
    + rewrite <- Hp. apply Permutation_length. unfold probes. by rewrite (filter_perm _ _ _ Hu).
    + split; [done|]. rewrite <- Ha. unfold accounted. cbn [w_flights w_state w_outcomes]. by rewrite Hu.
  - destruct (timer (w_state w)) as [due|] eqn:Htm; [|done]. cbn [mbind option_bind].
    destruct (due <=? DateNow w); [|done]. intros [= <-]. apply pump_inv.
    destruct Hi as [Hw Hr Hl Hp Hli Ha Ht]. by split.
Qed.

Lemma reachable_inv w : reachable w -> inv w /\ awake w.
Proof.
  induction 1 as [|w e w' _ [IH1 IH2] Hs]; [|by eapply step_inv]. split; [apply initial_inv|by intros []].
Qed.

(** ** What a pump sends *)
Lemma ready_window s now : Z.of_nat (length (dispatchedAt s)) <= maxRequests -> ready s now ->
  Z.of_nat (length (dispatchedAt (pruneDispatchWindow s now))) < maxRequests.
Proof.
  intros Hl [_ Hw]. apply pruned_window; [done|]. unfold windowReadyAt. cbn [pruneDispatchWindow dispatchedAt].
  destruct (dispatchedAt s) as [|o l]; [done|]. cbn [pruneWindow].
  destruct (Z.ltb_spec (now - FRONTEND_SOLANA_RPC_WINDOW_MS) o).
  - destruct (Z.leb_spec maxRequests (Z.of_nat (length (o :: l)))); [specialize (Hw ltac:(done))|]; lia.
  - destruct (pruneWindow_split l now) as (cut & E & _). destruct (pruneWindow l now) as [|o' l']; [done|].
    assert (Hle : (length (o' :: l') <= length l)%nat) by (rewrite E, length_app; lia).
    cbn [length] in Hl, Hle |- *. destruct (Z.leb_spec maxRequests (Z.of_nat (S (length l')))); lia.
Qed.

(** When the endpoint is ready, the pump sends the most urgent request first. *)
Lemma pump_ready w : inv w -> queue (w_state w) <> [] -> recoveryProbeInFlight (w_state w) = false ->
  ready (w_state w) (DateNow w) ->
  exists e new, Forall (fun x => precedes x e = false) (queue (w_state w)) /\ e ∈ queue (w_state w) /\
    w_flights (pumpEndpointQueue w) = w_flights w ++
      {| fl_entry := e; fl_probe := rateLimited (w_state w); fl_settled := false |} :: new /\
    (length (queue (w_state (pumpEndpointQueue w))) < length (queue (w_state w)))%nat /\
    (rateLimited (w_state w) = true -> new = []).
Proof.
  intros Hi Hq Hp Hrdy. pose proof (ready_window _ _ (inv_length _ Hi) Hrdy) as Hlen.
  unfold pumpEndpointQueue. destruct (queue (w_state w)) as [|q0 qs] eqn:Eq; [done|]. cbv zeta.
  change (w_state (readClock w)) with (w_state w). pose proof (prune_inv w Hi) as Hi1. set (w1 := setState _ _) in *.
  assert (Hq1 : queue (w_state w1) = q0 :: qs) by exact Eq. rewrite <- Hq1 in *.
  change (rateLimited (w_state w)) with (rateLimited (w_state w1)). change (w_flights w) with (w_flights w1).
  change (recoveryProbeInFlight (w_state w1)) with (recoveryProbeInFlight (w_state w)).
  change (cooldownUntil (w_state w1)) with (cooldownUntil (w_state w)). rewrite Hp.
  destruct (rateLimited (w_state w1)) eqn:Hrl.
  - destruct (Z.ltb_spec (DateNow w) (Z.max (cooldownUntil (w_state w)) (windowReadyAt (w_state w1) (DateNow w)))) as [Hlt|_].
    + exfalso. assert (windowReadyAt (w_state w1) (DateNow w) <= DateNow w).
      { unfold windowReadyAt. change (pruneDispatchWindow (w_state w) (DateNow w)) with (w_state w1) in Hlen.
        destruct (dispatchedAt (w_state w1)) as [|o l]; [done|]. destruct (Z.leb_spec maxRequests (Z.of_nat (length (o :: l)))); lia. }
      destruct Hrdy as [Hc _]. specialize (Hc Hrl). lia.
    + destruct (sendNext_frame w1 true Hq) as (e & Hmin & Hin & Hfl & Hl & _). exists e, []. split_and!; try done. lia.
  - assert (Hm : mayDispatch (w_state w1) = true) by (by apply mayDispatch_true).
    destruct (sendNext_frame w1 false Hq) as (e & Hmin & Hin & Hfl & Hl & _).
    destruct (length (queue (w_state w1))) as [|n] eqn:En; [by rewrite Hq1 in En|]. cbn [drainQueue]. rewrite Hm.
    destruct (drainQueue_spec n (sendNext w1 false)) as (_ & _ & _ & _ & new & Hn & Hln); [by apply sendNext_inv|lia|].
    exists e, new. rewrite Hfl, <- app_assoc in Hn. set (w2 := drainQueue n _) in *.
    enough (w_flights w2 = w_flights w1 ++ {| fl_entry := e; fl_probe := false; fl_settled := false |} :: new /\
      (length (queue (w_state w2)) < S n)%nat) as [Hf Hlt].
    { destruct (queue (w_state w2)) as [|a b] eqn:Ea; [by split_and!; rewrite ?Ea|].
      destruct (dispatchedAt (w_state w2)); [by split_and!; rewrite ?Ea|].
      split_and!; try done. cbn [readClock setState w_state]. unfold scheduleEndpointPump.
      by destruct (timer (w_state w2)); cbn [withTimer queue]; rewrite Ea. }
    split; [exact Hn|lia].
Qed.

(** ** The queue's contract *)
(** C17. Whatever the order of requests, responses and timers, no window of one second ever
    contains more dispatches than the configured maximum, recovery probes and retries included. *)
Theorem dispatches_within_rate w t :
  reachable w -> Z.of_nat (dispatchesWithin t (w_dispatches w)) <= maxRequests.
Proof. intros H. by apply reachable_inv in H as [Hi _]; apply inv_rate. Qed.

(** Every request made so far is in exactly one place: waiting in the queue, under way,
    or settled with one outcome. None is lost, sent twice or settled twice. *)
Theorem requests_accounted w :
  reachable w ->
  accounted w ≡ₚ seqZ 0 (nextSequence (w_state w)) /\ NoDup (accounted w).
Proof.
  intros H. apply reachable_inv in H as [Hi _]. destruct (inv_accounted _ Hi) as [_ Ha].
  split; [done|]. rewrite Ha. apply NoDup_seqZ.
Qed.

Lemma pump_limited w : rateLimited (w_state w) = true ->
  w_flights (pumpEndpointQueue w) = w_flights w \/
  recoveryProbeInFlight (w_state w) = false /\ cooldownUntil (w_state w) <= DateNow w /\
  exists e, e ∈ queue (w_state w) /\
    w_flights (pumpEndpointQueue w) = w_flights w ++ [{| fl_entry := e; fl_probe := true; fl_settled := false |}].
Proof.
  intros Hrl. unfold pumpEndpointQueue. destruct (queue (w_state w)) as [|q0 qs] eqn:Eq; [by left|]. cbv zeta.
  change (w_state (readClock w)) with (w_state w). set (w1 := setState _ _).
  change (rateLimited (w_state w1)) with (rateLimited (w_state w)). rewrite Hrl.
  change (recoveryProbeInFlight (w_state w1)) with (recoveryProbeInFlight (w_state w)).
  destruct (recoveryProbeInFlight (w_state w)); [by left|].
  change (cooldownUntil (w_state w1)) with (cooldownUntil (w_state w)).
  destruct (Z.ltb_spec (DateNow w) (Z.max (cooldownUntil (w_state w)) (windowReadyAt (w_state w1) (DateNow w)))); [by left|].
  right. split; [done|]. split; [lia|]. rewrite <- Eq.
  destruct (sendNext_frame w1 true) as (e & _ & Hin & Hfl & _); [cbn; by rewrite Eq|]. by exists e.
Qed.

(** After a rate limit the endpoint is probed by one request at a time: at most one
    recovery probe is under way, the flag [recoveryProbeInFlight] says so exactly, and a pump
    of a limited endpoint sends nothing unless no probe is under way and the cooldown is
    over, and then one probe. *)
Theorem single_recovery_probe w :
  reachable w ->
  length (probes (w_flights w)) = (if recoveryProbeInFlight (w_state w) then 1%nat else 0%nat) /\
  (recoveryProbeInFlight (w_state w) = true -> rateLimited (w_state w) = true) /\
  (rateLimited (w_state w) = true ->
   w_flights (pumpEndpointQueue w) = w_flights w \/
   probes (w_flights w) = [] /\ cooldownUntil (w_state w) <= DateNow w /\
   exists e, e ∈ queue (w_state w) /\
     w_flights (pumpEndpointQueue w) = w_flights w ++ [{| fl_entry := e; fl_probe := true; fl_settled := false |}]).
Proof.
  intros H. apply reachable_inv in H as [Hi _]. pose proof (inv_probe _ Hi) as Hp.
  split; [done|]. split; [apply (inv_limited _ Hi)|]. intros Hrl.
  destruct (pump_limited w Hrl) as [|(Hf & Hc & He)]; [by left|]. right. split; [|done].
  rewrite Hf in Hp. by apply length_zero_iff_nil.
Qed.

(** C18. The queue does not stall: whenever requests wait and none is under way, a timer
    is pending, it is due by the time the endpoint is ready, and its firing at such a time sends
    the request of least priority number and, among those, the oldest. *)
Theorem queue_progress w :
  reachable w -> queue (w_state w) <> [] -> w_flights w = [] ->
  exists due, timer (w_state w) = Some due /\
    (forall now, DateNow w <= now -> ready (w_state w) now -> due <= now) /\
    (ready (w_state w) (DateNow w) ->
     exists w' e new, step TimerFires w = Some w' /\ e ∈ queue (w_state w) /\
       Forall (fun x => precedes x e = false) (queue (w_state w)) /\
       map fl_entry (w_flights w') = e :: new /\
       (length (queue (w_state w')) < length (queue (w_state w)))%nat).
Proof.
  intros H Hq Hf. apply reachable_inv in H as [Hi Haw].
  destruct (timer (w_state w)) as [due|] eqn:Ht; [|by destruct (Haw Hq)].
  exists due. split; [done|]. destruct (inv_timer _ Hi due Ht) as [_ Hdue]. split; [done|]. intros Hrdy.
  assert (Hp : recoveryProbeInFlight (w_state w) = false).
  { pose proof (inv_probe _ Hi) as Hp. rewrite Hf in Hp. by destruct (recoveryProbeInFlight _). }
  cbn [step]. rewrite Ht. cbn [mbind option_bind]. destruct (Z.leb_spec due (DateNow w)) as [_|Hlt];
    [|specialize (Hdue _ ltac:(reflexivity) Hrdy); lia].
  set (w0 := setState w (withTimer (w_state w) None)).
  destruct (pump_ready w0) as (e & new & Hmin & Hin & Hfl & Hlen & _); try done.
  { destruct Hi as [Hw Hr Hl Hp' Hli Ha Ht']. by split. }
  eexists _, e, _. split; [reflexivity|]. split_and!; try done. rewrite Hfl. cbn [w0 setState w_flights]. rewrite Hf.
  reflexivity.
Qed.
End Laws.
End Endpoint.

(** ** Witnesses *)
Module RpcQueueWitness.

Definition nan (_ : string) : f64 := S754_nan.
Definition no_date (_ : string) : option Z := None.
Definition reply (code : Z) : Outcome :=
  Resolved {| status := code; headers := []; ok := (code =? 200); statusText := ""; responseText := "" |}.

Definition demo_env : option ProcessEnv := Some {| env_max_requests := Some "2 per window"%string; env_min_interval := None |}.

(** One millisecond per reading, with a pause of a second before the reading [pause] *)
Definition demo_clock (pause n : nat) : Z := if (n <? pause)%nat then Z.of_nat n else 1000 + Z.of_nat n.

Lemma demo_clock_mono pause i : demo_clock pause i <= demo_clock pause (S i).
Proof. unfold demo_clock. destruct (Nat.ltb_spec i pause), (Nat.ltb_spec (S i) pause); lia. Qed.

Definition after (pause : nat) (es : list event) : World :=
  default initial (run (demo_clock pause) demo_env nan no_date es initial).

Lemma after_reachable pause es :
  is_Some (run (demo_clock pause) demo_env nan no_date es initial) ->
  reachable (demo_clock pause) demo_env nan no_date (after pause es).
Proof.
  intros [w Hw]. unfold after. rewrite Hw. eapply reachable_run; [apply reachable_initial|exact Hw].
Qed.

(** Three reads and a transaction; the first is answered, the window is full. *)
Definition busy : list event :=
  [Request (Some "getBalance"); Request (Some "getBalance"); Request (Some "getSignaturesForAddress");
   Request (Some "sendTransaction"); Settle 0 (reply 200) 0; Finally 0]%string.

Lemma dispatches_within_rate_witness :
  dispatchesWithin 900 (w_dispatches (after 99 busy)) = 2%nat /\
  (Z.of_nat (dispatchesWithin 900 (w_dispatches (after 99 busy))) <= maxRequests demo_env).
Proof.
  split; [by vm_compute|]. eapply (dispatches_within_rate (demo_clock 99) demo_env nan no_date).
  - apply demo_clock_mono.
  - apply after_reachable. vm_compute. by eexists.
Defined.

Lemma requests_accounted_witness :
  accounted (after 99 busy) = [2; 3; 1; 0] /\ accounted (after 99 busy) ≡ₚ seqZ 0 4.
Proof.
  split; [by vm_compute|]. apply (requests_accounted (demo_clock 99) demo_env nan no_date).
  - apply demo_clock_mono.
  - apply after_reachable. vm_compute. by eexists.
Defined.

(** A rate limit: after the cooldown one probe goes out. *)
Definition limited : list event :=
  [Request (Some "getBalance"); Settle 0 (reply 429) 7; Finally 0; Request (Some "getBalance");
   Request (Some "sendTransaction"); TimerFires]%string.

Lemma single_recovery_probe_witness :
  recoveryProbeInFlight (w_state (after 6 limited)) = true /\
  length (probes (w_flights (after 6 limited))) = (if recoveryProbeInFlight (w_state (after 6 limited)) then 1%nat else 0%nat).
Proof.
  split; [by vm_compute|]. apply (single_recovery_probe (demo_clock 6) demo_env nan no_date).
  - apply demo_clock_mono.
  - apply after_reachable. vm_compute. by eexists.
Defined.

(** The window is full and everything sent was answered; a background read, then a
    transaction wait. *)
Definition waiting : list event := busy ++ [Settle 0 (reply 200) 0; Finally 0].

Lemma queue_progress_witness :
  map sequence (queue (w_state (after 12 waiting))) = [2; 3] /\
  exists due, timer (w_state (after 12 waiting)) = Some due /\
    exists w' e new, step (demo_clock 12) demo_env nan no_date TimerFires (after 12 waiting) = Some w' /\
      map fl_entry (w_flights w') = e :: new.
Proof.
  split; [by vm_compute|].
  destruct (queue_progress (demo_clock 12) demo_env nan no_date (demo_clock_mono 12) (after 12 waiting))
    as (due & Ht & _ & Hs).
  - apply after_reachable. vm_compute. by eexists.
  - vm_compute. discriminate.
  - by vm_compute.
  - exists due. split; [exact Ht|]. destruct Hs as (w' & e & new & H1 & _ & _ & H2 & _).
    { split; vm_compute; [discriminate|]. intros _. discriminate. }
    exists w', e, new. split; [exact H1|exact H2].
Defined.
End RpcQueueWitness.
