(* ===== verification/RpcFetch.v ===== *)
(** Reads of a Solana RPC endpoint
    (web/apps/web/src/lib/solana/rpc-rate-limit.ts, second half): the retry loop of one
    request, the cache of recent responses, and the sharing of a request between the callers
    that ask for the same thing while it is under way.

    [JSON.parse] and [JSON.stringify] are arguments. The state of the module is its two
    maps; a caller that awaits a shared request is an entry of [fw_waiting]. An upstream
    request runs its callbacks in three steps, [Started], [Snapshotted] once the response was
    read and possibly cached, and gone after the [finally] callback, and any call may
    come in between. *)
From S2P Require Import Prelude JsString JsMap F64 Json RpcQueue.

Definition FRONTEND_SOLANA_RPC_COMPLETED_RESULT_TTL_MS := 1000.
Definition FRONTEND_SOLANA_RPC_COMPLETED_RESULT_MAX_ENTRIES := 256%nat.

Record RpcRequestKey := {
  cacheKey : string;
  hasRequestId : bool;
  method : string;
  requestId : json;
}.

Record RpcResponseSnapshot := {
  sn_bodyText : string;
  sn_headers : list (string * string);
  sn_ok : bool;
  sn_status : Z;
  sn_statusText : string;
}.

Record RecentRpcResponseSnapshot := { expiresAt : Z; snapshot : RpcResponseSnapshot }.

(** ** The retry loop of one request *)
Definition isRetryableRpcResponse (response : Response) : bool :=
  (status response =? 429) || (status response =? 500) || (status response =? 502) ||
  (status response =? 503) || (status response =? 504).

Definition SolanaRpcRateLimitError (method : string) : exn :=
  Exn "SolanaRpcRateLimitError" ("Solana RPC " +:+ method +:+ " is rate limited. Please retry.").

Section Fetch.
Context (toNumber : string -> f64) (dateParse : string -> option Z).

Definition getRetryDelayMs (response : option Response) (attempt now jitter : Z) : Z :=
  match getRetryAfterMs toNumber dateParse response now with
  | Some ms => ms
  | None => getBackoffDelayMs attempt jitter
  end.

(** What the loop did: its result, the attempts made, the delays waited between them. *)
Record Attempts := { at_result : result Response; at_count : nat; at_waits : list Z }.

Definition waitFirst (ms : Z) (rest : Attempts) : Attempts :=
  {| at_result := at_result rest; at_count := at_count rest; at_waits := ms :: at_waits rest |}.

(** [outcome i] is how the queue settles the [i]-th attempt; [now i] and [jitter i] are
    read for the delay after it. [remaining] rounds of the [for] loop are left. *)
Fixpoint attemptLoop (retryableMethod : option string) (outcome : nat -> Outcome) (now jitter : nat -> Z)
    (remaining attempt : nat) : Attempts :=
  let return_ r := {| at_result := r; at_count := S attempt; at_waits := [] |} in
  let isLast := Z.of_nat attempt =? FRONTEND_SOLANA_RPC_MAX_READ_ATTEMPTS - 1 in
  match remaining with
  | O => {| at_result := throwError "Frontend Solana RPC retry loop exhausted unexpectedly.";
            at_count := attempt; at_waits := [] |}
  | S remaining =>
      let next := attemptLoop retryableMethod outcome now jitter remaining (S attempt) in
      match outcome attempt with
      | Resolved response =>
          match retryableMethod with
          | Some name =>
              if negb (isRetryableRpcResponse response) then return_ (Ok response)
              else if isLast then
                if status response =? 429 then return_ (Throw (SolanaRpcRateLimitError name))
                else return_ (Ok response)
              else if status response =? 429 then next
              else waitFirst (getRetryDelayMs (Some response) (Z.of_nat attempt) (now attempt) (jitter attempt)) next
          | None => return_ (Ok response)
          end
      | Rejected error =>
          match retryableMethod with
          | Some name =>
              if negb (String.eqb (exn_name error) "TypeError") then return_ (Throw error)
              else if isLast then return_ (Throw (SolanaRpcRateLimitError name))
              else next
          | None => return_ (Throw error)
          end
      end
  end.

Definition runRpcFetch (outcome : nat -> Outcome) (now jitter : nat -> Z) (requestMethod : option string) : Attempts :=
  let retryableMethod := requestMethod ≫= fun name => if has RETRYABLE_RPC_METHODS name then Some name else None in
  attemptLoop retryableMethod outcome now jitter (Z.to_nat FRONTEND_SOLANA_RPC_MAX_READ_ATTEMPTS) 0.

(** An outcome after which a retryable read is tried again *)
Definition transient (o : Outcome) : bool :=
  match o with
  | Resolved response => isRetryableRpcResponse response
  | Rejected error => String.eqb (exn_name error) "TypeError"
  end.

(** The result when no attempt is left *)
Definition exhausted (name : string) (o : Outcome) : result Response :=
  match o with
  | Resolved response => if status response =? 429 then Throw (SolanaRpcRateLimitError name) else Ok response
  | Rejected _ => Throw (SolanaRpcRateLimitError name)
  end.

Definition settledAs (o : Outcome) : result Response :=
  match o with Resolved r => Ok r | Rejected e => Throw e end.

(** A read is attempted until an outcome is not transient, at most three times, and
    its result is that outcome, or after three transient ones the rate-limit error, or the
    server's last 5xx response; every other method, sending a transaction among them, is
    attempted exactly once. *)
Theorem fetch_attempts outcome now jitter name :
  let a := runRpcFetch outcome now jitter (Some name) in
  if has RETRYABLE_RPC_METHODS name then
    (1 <= at_count a <= 3)%nat /\
    (forall i, (S i < at_count a)%nat -> transient (outcome i) = true) /\
    (transient (outcome (pred (at_count a))) = false /\ at_result a = settledAs (outcome (pred (at_count a))) \/
     transient (outcome (pred (at_count a))) = true /\ at_count a = 3%nat /\ at_result a = exhausted name (outcome 2%nat))
  else at_count a = 1%nat /\ at_result a = settledAs (outcome 0%nat) /\ at_waits a = [].
Proof.
  unfold runRpcFetch. change (Z.to_nat FRONTEND_SOLANA_RPC_MAX_READ_ATTEMPTS) with 3%nat.
  cbn [mbind option_bind]. destruct (has RETRYABLE_RPC_METHODS name); cbv zeta;
    [|cbn [attemptLoop]; by destruct (outcome 0%nat)].
  assert (Hstep : forall n k, (n < 2)%nat ->
    let a := attemptLoop (Some name) outcome now jitter (S k) n in
    if transient (outcome n)
    then at_count a = at_count (attemptLoop (Some name) outcome now jitter k (S n)) /\
         at_result a = at_result (attemptLoop (Some name) outcome now jitter k (S n))
    else at_count a = S n /\ at_result a = settledAs (outcome n)).
  { intros n k Hn. cbn [attemptLoop]. unfold FRONTEND_SOLANA_RPC_MAX_READ_ATTEMPTS.
    destruct (Z.eqb_spec (Z.of_nat n) (3 - 1)) as [|_]; [lia|]. destruct (outcome n) as [r|e]; cbn [transient settledAs].
    - destruct (isRetryableRpcResponse r); cbn [negb]; [|done]. by destruct (status r =? 429).
    - by destruct (String.eqb (exn_name e) "TypeError"). }
  assert (Hlast : let a := attemptLoop (Some name) outcome now jitter 1 2 in
    at_count a = 3%nat /\ at_result a = if transient (outcome 2%nat) then exhausted name (outcome 2%nat)
                                       else settledAs (outcome 2%nat)).
  { cbn. destruct (outcome 2%nat) as [r|e]; cbn [transient settledAs exhausted].
    - destruct (isRetryableRpcResponse r); cbn [negb]; [|done]. by destruct (status r =? 429).
    - by destruct (String.eqb (exn_name e) "TypeError"). }
  pose proof (Hstep 0%nat 2%nat (Nat.lt_0_succ 1)) as H0. pose proof (Hstep 1%nat 1%nat (Nat.lt_succ_diag_r 1)) as H1.
  cbv zeta in *.
  destruct (transient (outcome 0%nat)) eqn:T0.
  2:{ destruct H0 as [-> ->]. cbn [pred]. split_and!; [lia|lia|intros i Hi; lia|by left]. }
  destruct H0 as [-> ->]. destruct (transient (outcome 1%nat)) eqn:T1.
  2:{ destruct H1 as [-> ->]. cbn [pred]. split_and!; [lia|lia| |by left]. intros [|i] Hi; [done|lia]. }
  destruct H1 as [-> ->]. destruct Hlast as [-> ->]. cbn [pred]. split_and!; [lia|lia| |].
  - intros [|[|i]] Hi; [done|done|lia].
  - destruct (transient (outcome 2%nat)); [right|left]; done.
Qed.

End Fetch.

(** ** Requests and responses as text *)
Section Sharing.
Context (jsonParse : string -> option json) (jsonStringify : json -> string).

(** The first argument of [fetch]; [InfoOther] is anything the code does not recognise. *)
Inductive RequestInfo := InfoString (text : string) | InfoURL (href : string) | InfoRequest (url method : string) | InfoOther.

(** The second one: its method, and its body when that is a string *)
Record RequestInit := { init_method : option string; init_body : option string }.

Definition getInputUrl (input : RequestInfo) : option string :=
  match input with
  | InfoString text => Some text
  | InfoURL href => Some href
  | InfoRequest url _ => Some url
  | InfoOther => None
  end.

Definition getInputMethod (input : RequestInfo) (init : option RequestInit) : string :=
  match init ≫= init_method with
  | Some (String _ _ as name) => name
  | _ => match input with InfoRequest _ name => name | _ => "GET" end
  end.

(** The endpoint whose queue a request goes to *)
Definition endpointOf (input : RequestInfo) : string := default "unknown-solana-rpc-endpoint"%string (getInputUrl input).

Definition upper_char (c : ascii) : ascii :=
  let n := char_code c in if (97 <=? n) && (n <=? 122) then ascii_of_N (Z.to_N (n - 32)) else c.
Definition lower_char (c : ascii) : ascii :=
  let n := char_code c in if (65 <=? n) && (n <=? 90) then ascii_of_N (Z.to_N (n + 32)) else c.
Definition toUpperCase (s : string) : string := unchars (map upper_char (chars s)).
Definition toLowerCase (s : string) : string := unchars (map lower_char (chars s)).

Definition hasOwn (key : string) (fields : list (string * json)) : bool :=
  existsb (fun f => String.eqb f.1 key) fields.

Definition newline : string := String "010"%char EmptyString.

Definition parseRpcRequestKey (input : RequestInfo) (init : option RequestInit) : option RpcRequestKey :=
  if negb (String.eqb (toUpperCase (getInputMethod input init)) "POST") then None
  else
    match getInputUrl input, init ≫= init_body with
    | Some url, Some body =>
        if String.eqb url "" then None
        else
          match jsonParse body with
          | Some (JObject fields) =>
              match field "method" fields with
              | JString name =>
                  let params := match field "params" fields with JUndefined | JNull => JNull | v => v end in
                  Some {| cacheKey := url +:+ newline +:+ name +:+ newline +:+ jsonStringify params;
                          hasRequestId := hasOwn "id" fields;
                          method := name;
                          requestId := field "id" fields |}
              | _ => None
              end
          | _ => None
          end
    | _, _ => None
    end.

Definition snapshotResponse (response : Response) : RpcResponseSnapshot := {|
  sn_bodyText := responseText response;
  sn_headers := List.filter (fun h =>
    let normalizedName := toLowerCase h.1 in
    negb (String.eqb normalizedName "content-encoding") && negb (String.eqb normalizedName "content-length") &&
    negb (String.eqb normalizedName "transfer-encoding")) (headers response);
  sn_ok := ok response;
  sn_status := status response;
  sn_statusText := statusText response |}.

Definition rewriteRpcResponseId (bodyText : string) (requestKey : RpcRequestKey) : string :=
  if negb (hasRequestId requestKey) then bodyText
  else
    match jsonParse bodyText with
    | Some (JObject fields) =>
        if negb (hasOwn "id" fields) then bodyText
        else jsonStringify (JObject (mapSet fields "id" (requestId requestKey)))
    | _ => bodyText
    end.

(** [new Response(body, { headers, status, statusText })] refuses statuses outside of
    [200, 599] and those that have no body. *)
Definition createResponseFromSnapshot (s : RpcResponseSnapshot) (requestKey : RpcRequestKey) : result Response :=
  let body := rewriteRpcResponseId (sn_bodyText s) requestKey in
  if negb ((200 <=? sn_status s) && (sn_status s <=? 599)) then throwRange "Invalid status code"
  else if (sn_status s =? 204) || (sn_status s =? 205) || (sn_status s =? 304)
  then Throw (Exn "TypeError" "Invalid response status code")
  else Ok {|
    status := sn_status s;
    headers := sn_headers s;
    ok := (200 <=? sn_status s) && (sn_status s <=? 299);
    statusText := sn_statusText s;
    responseText := body |}.

Definition isJsonRpcSuccess (s : RpcResponseSnapshot) : bool :=
  sn_ok s &&
  match jsonParse (sn_bodyText s) with
  | Some (JObject fields) => negb (hasOwn "error" fields)
  | _ => false
  end.

(** The keys the code makes are not empty, as the eviction loop of the cache relies on. *)
Lemma parsed_cacheKey input init key : parseRpcRequestKey input init = Some key -> cacheKey key <> ""%string.
Proof.
  unfold parseRpcRequestKey. destruct (negb _); [done|]. destruct (getInputUrl input) as [url|]; [|done].
  destruct (init ≫= init_body) as [body|]; [|done]. destruct (String.eqb_spec url ""); [done|].
  destruct (jsonParse body) as [[]|]; try done. destruct (field "method" fields); try done. intros [= <-]. cbn [cacheKey].
  by destruct url.
Qed.

(** ** Recent responses *)
Notation recent_map := (list (string * RecentRpcResponseSnapshot)).

(** The snapshot and the map, from which an expired entry is removed *)
Definition getRecentSnapshot (recent : recent_map) (key : string) (now : Z) :
    option RpcResponseSnapshot * recent_map :=
  match mapGet recent key with
  | None => (None, recent)
  | Some entry => if expiresAt entry <=? now then (None, mapDelete recent key) else (Some (snapshot entry), recent)
  end.

(** [while (size >= max) delete the oldest key]; a round removes an entry. *)
Fixpoint evictOldest (fuel : nat) (recent : recent_map) : recent_map :=
  match fuel with
  | O => recent
  | S fuel =>
      if (FRONTEND_SOLANA_RPC_COMPLETED_RESULT_MAX_ENTRIES <=? length recent)%nat then
        match recent with
        | (oldestKey, _) :: _ =>
            if String.eqb oldestKey "" then recent else evictOldest fuel (mapDelete recent oldestKey)
        | [] => recent
        end
      else recent
  end.

Definition setRecentSnapshot (recent : recent_map) (key : string) (s : RpcResponseSnapshot) (now : Z) : recent_map :=
  let live := List.filter (fun e => negb (expiresAt e.2 <=? now)) recent in
  mapSet (evictOldest (length live) live) key
    {| expiresAt := now + FRONTEND_SOLANA_RPC_COMPLETED_RESULT_TTL_MS; snapshot := s |}.

(** ** Sharing requests *)
Inductive Phase := Started | Snapshotted (s : RpcResponseSnapshot) | Failed (e : exn).

(** An upstream request: the key it was made with and how far it is *)
Record Upstream := { up_id : nat; up_key : RpcRequestKey; up_phase : Phase }.

(** A caller [c] with its own request key waits for the request [id]. *)
Record Waiting := { wt_caller : nat; wt_key : RpcRequestKey; wt_request : nat }.

Record FetchWorld := {
  fw_time : Z;
  fw_recent : recent_map;
  fw_inflight : list (string * nat);
  fw_upstream : list Upstream;
  fw_waiting : list Waiting;
  fw_answers : list (nat * RpcRequestKey * result Response);
  fw_snapshots : list (string * RpcResponseSnapshot * Z);  (** every snapshot read: its key and when *)
  fw_started : nat;
  fw_callers : nat;
}.

(** One call of the function [getFrontendSolanaRpcFetch] returns, for an understood request. *)
Definition frontendFetch (w : FetchWorld) (requestKey : RpcRequestKey) (now : Z) : FetchWorld :=
  let caller := fw_callers w in
  let cacheable := has RECENTLY_CACHEABLE_RPC_METHODS (method requestKey) in
  let '(recentSnapshot, recent) :=
    if cacheable then getRecentSnapshot (fw_recent w) (cacheKey requestKey) now else (None, fw_recent w) in
  match recentSnapshot with
  | Some s =>
      {| fw_time := now; fw_recent := recent; fw_inflight := fw_inflight w; fw_upstream := fw_upstream w;
         fw_waiting := fw_waiting w;
         fw_answers := fw_answers w ++ [(caller, requestKey, createResponseFromSnapshot s requestKey)];
         fw_snapshots := fw_snapshots w;
         fw_started := fw_started w; fw_callers := S caller |}
  | None =>
      match mapGet (fw_inflight w) (cacheKey requestKey) with
      | Some existing =>
          {| fw_time := now; fw_recent := recent; fw_inflight := fw_inflight w; fw_upstream := fw_upstream w;
             fw_waiting := fw_waiting w ++ [{| wt_caller := caller; wt_key := requestKey; wt_request := existing |}];
             fw_answers := fw_answers w; fw_snapshots := fw_snapshots w; fw_started := fw_started w; fw_callers := S caller |}
      | None =>
          let id := fw_started w in
          {| fw_time := now; fw_recent := recent;
             fw_inflight := mapSet (fw_inflight w) (cacheKey requestKey) id;
             fw_upstream := fw_upstream w ++ [{| up_id := id; up_key := requestKey; up_phase := Started |}];
             fw_waiting := fw_waiting w ++ [{| wt_caller := caller; wt_key := requestKey; wt_request := id |}];
             fw_answers := fw_answers w; fw_snapshots := fw_snapshots w; fw_started := S id; fw_callers := S caller |}
      end
  end.

(** The [then] callbacks of the request at position [i]: its result is read and cached. *)
Definition completeUpstream (w : FetchWorld) (i : nat) (r : result Response) (now : Z) : option FetchWorld :=
  u ← fw_upstream w !! i;
  match up_phase u with
  | Started =>
      let '(phase, recent, read) :=
        match r with
        | Throw e => (Failed e, fw_recent w, [])
        | Ok response =>
            let s := snapshotResponse response in
            (Snapshotted s,
             if has RECENTLY_CACHEABLE_RPC_METHODS (method (up_key u)) && isJsonRpcSuccess s
             then setRecentSnapshot (fw_recent w) (cacheKey (up_key u)) s now else fw_recent w,
             [(cacheKey (up_key u), s, now)])
        end in
      Some {| fw_time := now; fw_recent := recent; fw_inflight := fw_inflight w;
              fw_upstream := <[i:={| up_id := up_id u; up_key := up_key u; up_phase := phase |}]> (fw_upstream w);
              fw_waiting := fw_waiting w; fw_answers := fw_answers w;
              fw_snapshots := fw_snapshots w ++ read; fw_started := fw_started w;
              fw_callers := fw_callers w |}
  | _ => None
  end.

(** What a caller makes of the settled promise *)
Definition answerOf (settled : result RpcResponseSnapshot) (requestKey : RpcRequestKey) : result Response :=
  s ← settled; createResponseFromSnapshot s requestKey.

Definition settledPhase (phase : Phase) : option (result RpcResponseSnapshot) :=
  match phase with
  | Started => None
  | Snapshotted s => Some (Ok s)
  | Failed e => Some (Throw e)
  end.

Definition waitsFor (id : nat) (c : Waiting) : bool := (wt_request c =? id)%nat.

(** The [finally] callback, after which the promise settles and its callers go on. *)
Definition finishUpstream (w : FetchWorld) (i : nat) : option FetchWorld :=
  u ← fw_upstream w !! i;
  settled ← settledPhase (up_phase u);
  let mine := List.filter (waitsFor (up_id u)) (fw_waiting w) in
  Some {| fw_time := fw_time w; fw_recent := fw_recent w;
          fw_inflight := mapDelete (fw_inflight w) (cacheKey (up_key u));
          fw_upstream := take i (fw_upstream w) ++ drop (S i) (fw_upstream w);
          fw_waiting := List.filter (fun c => negb (waitsFor (up_id u) c)) (fw_waiting w);
          fw_answers := fw_answers w ++ map (fun c => (wt_caller c, wt_key c, answerOf settled (wt_key c))) mine;
          fw_snapshots := fw_snapshots w;
          fw_started := fw_started w; fw_callers := fw_callers w |}.

Inductive fetch_step : FetchWorld -> FetchWorld -> Prop :=
| step_call w input init key now :
    fw_time w <= now -> parseRpcRequestKey input init = Some key -> fetch_step w (frontendFetch w key now)
| step_complete w i r now w' : fw_time w <= now -> completeUpstream w i r now = Some w' -> fetch_step w w'
| step_finish w i w' : finishUpstream w i = Some w' -> fetch_step w w'.

Definition fetch_initial (now : Z) : FetchWorld := {|
  fw_time := now; fw_recent := []; fw_inflight := []; fw_upstream := []; fw_waiting := []; fw_answers := [];
  fw_snapshots := []; fw_started := 0; fw_callers := 0 |}.

(** ** Recent responses *)
Lemma evictOldest_spec fuel (r : recent_map) :
  map_wf r -> Forall (fun e => e.1 <> ""%string) r -> (length r <= fuel)%nat ->
  (length (evictOldest fuel r) < FRONTEND_SOLANA_RPC_COMPLETED_RESULT_MAX_ENTRIES)%nat /\
  exists n, evictOldest fuel r = drop n r.
Proof.
  unfold FRONTEND_SOLANA_RPC_COMPLETED_RESULT_MAX_ENTRIES. revert r. induction fuel as [|fuel IH]; intros r Hw Hk Hl; cbn [evictOldest].
  { destruct r; [|simpl in Hl; lia]. split; [simpl; lia|by exists 0%nat]. }
  unfold FRONTEND_SOLANA_RPC_COMPLETED_RESULT_MAX_ENTRIES.
  destruct (Nat.leb_spec 256 (length r)); [|split; [lia|by exists 0%nat]].
  destruct r as [|[k e] r]; [simpl in *; lia|]. apply Forall_cons in Hk as [Hk0 Hk]. cbn [fst] in Hk0.
  rewrite (proj2 (String.eqb_neq k "") Hk0), (mapDelete_first k e r Hw).
  destruct (IH r) as [H1 [n Hn]]; [by apply NoDup_cons in Hw as [_ Hw]|done|simpl in Hl; lia|].
  split; [done|]. by exists (S n).
Qed.

Lemma drop_elem {A} (n : nat) (l : list A) x : x ∈ drop n l -> x ∈ l.
Proof. intros H. rewrite <- (take_drop n l). set_solver. Qed.

Lemma drop_map_wf {V} n (m : list (string * V)) : map_wf m -> map_wf (drop n m).
Proof.
  unfold map_wf, mapKeys. rewrite <- (take_drop n m) at 1. rewrite map_app. by intros (_ & _ & H)%NoDup_app.
Qed.

(** Recording a response: the cache stays a small map, and holds nothing but the new
    response and entries it held before. *)
Lemma setRecentSnapshot_spec (r : recent_map) key s now :
  map_wf r -> Forall (fun e => e.1 <> ""%string) r ->
  let r' := setRecentSnapshot r key s now in
  map_wf r' /\ (length r' <= FRONTEND_SOLANA_RPC_COMPLETED_RESULT_MAX_ENTRIES)%nat /\
  mapGet r' key = Some {| expiresAt := now + FRONTEND_SOLANA_RPC_COMPLETED_RESULT_TTL_MS; snapshot := s |} /\
  forall e, e ∈ r' -> e = (key, {| expiresAt := now + FRONTEND_SOLANA_RPC_COMPLETED_RESULT_TTL_MS; snapshot := s |}) \/ e ∈ r.
Proof.
  intros Hw Hk r'. subst r'. unfold setRecentSnapshot. set (live := List.filter _ r).
  assert (Hin : forall e, e ∈ live -> e ∈ r).
  { intros e He. apply list_elem_of_In in He. apply filter_In in He as [He _]. by apply list_elem_of_In. }
  assert (Hwl : map_wf live) by (by apply filter_map_wf).
  destruct (evictOldest_spec (length live) live) as [Hl [n Hn]]; [done| |done|].
  { rewrite Forall_forall in Hk |- *. auto. }
  rewrite Hn in *. split_and!.
  - by apply mapSet_wf, drop_map_wf.
  - assert (length (mapSet (drop n live) key {| expiresAt := now + FRONTEND_SOLANA_RPC_COMPLETED_RESULT_TTL_MS; snapshot := s |})
            = length (mapKeys (mapSet (drop n live) key {| expiresAt := now + FRONTEND_SOLANA_RPC_COMPLETED_RESULT_TTL_MS; snapshot := s |})))
      as -> by (unfold mapKeys; by rewrite length_map).
    rewrite mapSet_keys. unfold mapKeys. destruct (decide _); rewrite ?length_app, length_map; [lia|simpl; lia].
  - rewrite mapGet_set, String.eqb_refl. done.
  - intros e [He|He]%elem_of_mapSet; [by left|]. right. by eapply Hin, drop_elem.
Qed.

(** ** The invariant of sharing *)
Record fetch_inv (w : FetchWorld) : Prop := {
  fi_recent : map_wf (fw_recent w) /\ Forall (fun e => e.1 <> ""%string) (fw_recent w) /\
    (length (fw_recent w) <= FRONTEND_SOLANA_RPC_COMPLETED_RESULT_MAX_ENTRIES)%nat;
  fi_source e : e ∈ fw_recent w -> exists t, (e.1, snapshot e.2, t) ∈ fw_snapshots w /\
    expiresAt e.2 = t + FRONTEND_SOLANA_RPC_COMPLETED_RESULT_TTL_MS;
  fi_time x : x ∈ fw_snapshots w -> x.2 <= fw_time w;
  fi_inflight : fw_inflight w = map (fun u => (cacheKey (up_key u), up_id u)) (fw_upstream w);
  fi_keys : map_wf (fw_inflight w) /\ Forall (fun e => e.1 <> ""%string) (fw_inflight w);
  fi_ids : NoDup (map up_id (fw_upstream w)) /\ Forall (fun u => (up_id u < fw_started w)%nat) (fw_upstream w);
  fi_waiting c : c ∈ fw_waiting w -> exists u, u ∈ fw_upstream w /\ up_id u = wt_request c /\
    cacheKey (up_key u) = cacheKey (wt_key c);
  fi_phase u s : u ∈ fw_upstream w -> up_phase u = Snapshotted s ->
    exists t, (cacheKey (up_key u), s, t) ∈ fw_snapshots w;
  fi_callers : map wt_caller (fw_waiting w) ++ map (fun a => a.1.1) (fw_answers w) ≡ₚ seq 0 (fw_callers w);
  fi_answers c key r : (c, key, Ok r) ∈ fw_answers w ->
    exists s t, (cacheKey key, s, t) ∈ fw_snapshots w /\ createResponseFromSnapshot s key = Ok r;
}.

Lemma fetch_initial_inv t : fetch_inv (fetch_initial t).
Proof.
  split; cbn; intros; try set_solver; try done; repeat split; try apply NoDup_nil_2; try constructor; simpl; lia.
Qed.

(** Looking a key up: the map loses at most entries, and what is found is live. *)
Lemma getRecentSnapshot_spec (r : recent_map) key now :
  let '(found, r') := getRecentSnapshot r key now in
  (forall e, e ∈ r' -> e ∈ r) /\ (map_wf r -> map_wf r') /\ (length r' <= length r)%nat /\
  forall s, found = Some s -> exists e, (key, e) ∈ r /\ snapshot e = s /\ now < expiresAt e.
Proof.
  unfold getRecentSnapshot. destruct (mapGet r key) as [e|] eqn:E; [|by split_and!].
  destruct (Z.leb_spec (expiresAt e) now).
  - split_and!; [|apply mapDelete_wf|apply mapDelete_length|done]. intros x [Hx _]%elem_of_mapDelete. done.
  - split_and!; try done. intros s [= <-]. exists e. split_and!; [by apply mapGet_In|done|done].
Qed.

(** The recent responses a call looks at, and leaves *)
Lemma call_recent (w : FetchWorld) key now :
  fetch_inv w ->
  let '(found, r) := if has RECENTLY_CACHEABLE_RPC_METHODS (method key)
                     then getRecentSnapshot (fw_recent w) (cacheKey key) now else (None, fw_recent w) in
  (map_wf r /\ Forall (fun e => e.1 <> ""%string) r /\
   (length r <= FRONTEND_SOLANA_RPC_COMPLETED_RESULT_MAX_ENTRIES)%nat) /\
  (forall e, e ∈ r -> e ∈ fw_recent w) /\
  forall s, found = Some s -> exists t, (cacheKey key, s, t) ∈ fw_snapshots w /\
    now < t + FRONTEND_SOLANA_RPC_COMPLETED_RESULT_TTL_MS.
Proof.
  intros Hi. destruct (fi_recent _ Hi) as (Hw & Hk & Hl).
  destruct (has RECENTLY_CACHEABLE_RPC_METHODS (method key)); [|by split_and!].
  pose proof (getRecentSnapshot_spec (fw_recent w) (cacheKey key) now) as H.
  destruct (getRecentSnapshot _ _ _) as [found r]. destruct H as (Hin & Hw' & Hl' & Hf). split_and!; [auto| |lia|done|].
  - rewrite Forall_forall in Hk |- *. auto.
  - intros s Hs. destruct (Hf s Hs) as (e & He & <- & Hx). destruct (fi_source _ Hi _ He) as (t & Ht & Hexp).
    exists t. cbn [fst snd] in *. split; [done|lia].
Qed.

Ltac fw_cbn := cbn [fw_time fw_recent fw_inflight fw_upstream fw_waiting fw_answers fw_snapshots fw_started fw_callers].

Lemma call_inv w key now : fetch_inv w -> fw_time w <= now -> cacheKey key <> ""%string ->
  fetch_inv (frontendFetch w key now).
Proof.
  intros Hi Hnow Hkey. unfold frontendFetch. cbv zeta. pose proof (call_recent w key now Hi) as Hr.
  destruct (if has _ _ then _ else _) as [found r]. destruct Hr as (Hrec & Hsub & Hfound).
  pose proof Hi as [_ Hsrc Htime Hinf [Hkw Hkn] [Hnd Hids] Hwait Hph Hcall Hans].
  assert (Ht : forall x, x ∈ fw_snapshots w -> x.2 <= now) by (intros x Hx; specialize (Htime x Hx); lia).
  destruct found as [s|].
  - split; fw_cbn; try done; [auto| |].
    + rewrite map_app, app_assoc. cbn [map fst]. rewrite seq_S, Hcall. done.
    + intros c k x [Hx|Hx]%elem_of_app; [eauto|]. apply list_elem_of_singleton in Hx as [= -> -> Hr].
      destruct (Hfound s eq_refl) as (t & Hs & _). by exists s, t.
  - destruct (mapGet (fw_inflight w) (cacheKey key)) as [existing|] eqn:E.
    + split; fw_cbn; try done; [auto| |].
      * intros c [Hc|Hc]%elem_of_app; [auto|]. apply list_elem_of_singleton in Hc as ->. cbn [wt_request wt_key].
        apply mapGet_In in E. rewrite Hinf in E. apply list_elem_of_In, in_map_iff in E as (u & [= Hk Hid] & Hu).
        exists u. by rewrite list_elem_of_In.
      * rewrite map_app, seq_S. cbn [map wt_caller Nat.add]. rewrite <- Hcall. solve_Permutation.
    + rewrite (mapSet_absent _ _ _ E). apply mapGet_None in E. split; fw_cbn; try done.
      * auto.
      * by rewrite Hinf, map_app.
      * split; [|apply Forall_app; split; [done|by apply Forall_singleton]]. unfold map_wf, mapKeys in *. rewrite map_app.
        apply NoDup_app. split_and!; [done|set_solver|apply NoDup_singleton].
      * split; [|apply Forall_app; split; [eapply Forall_impl; [exact Hids|simpl; lia]|apply Forall_singleton; simpl; lia]].
        rewrite map_app. apply NoDup_app. split_and!; [done| |apply NoDup_singleton]. cbn [map up_id].
        intros x Hx ->%list_elem_of_singleton. apply list_elem_of_In, in_map_iff in Hx as (u & Hu & Hin).
        rewrite Forall_forall in Hids. apply list_elem_of_In in Hin. specialize (Hids u Hin). lia.
      * intros c [Hc|Hc]%elem_of_app.
        -- destruct (Hwait c Hc) as (u & Hu & ?). exists u. split; [set_solver|done].
        -- apply list_elem_of_singleton in Hc as ->. eexists. split; [apply elem_of_app; right; left|done].
      * intros u s [Hu|Hu]%elem_of_app; [eauto|]. apply list_elem_of_singleton in Hu as ->. done.
      * rewrite map_app, seq_S. cbn [map wt_caller Nat.add]. rewrite <- Hcall. solve_Permutation.
Qed.

Lemma complete_inv w i r now w' : fetch_inv w -> fw_time w <= now -> completeUpstream w i r now = Some w' ->
  fetch_inv w'.
Proof.
  intros Hi Hnow. unfold completeUpstream. destruct (fw_upstream w !! i) as [u|] eqn:Hu; [|done].
  cbn [mbind option_bind]. destruct (up_phase u) eqn:Hp; [|done..].
  set (out := match r with Ok _ => _ | Throw _ => _ end).
  assert (Hout : let '(phase, recent, read) := out in
    (map_wf recent /\ Forall (fun e => e.1 <> ""%string) recent /\
     (length recent <= FRONTEND_SOLANA_RPC_COMPLETED_RESULT_MAX_ENTRIES)%nat) /\
    (forall e, e ∈ recent -> exists t, (e.1, snapshot e.2, t) ∈ fw_snapshots w ++ read /\
       expiresAt e.2 = t + FRONTEND_SOLANA_RPC_COMPLETED_RESULT_TTL_MS) /\
    (forall x, x ∈ read -> x.2 = now) /\
    forall s, phase = Snapshotted s -> exists t, (cacheKey (up_key u), s, t) ∈ fw_snapshots w ++ read).
  { destruct (fi_recent _ Hi) as (Hw & Hk & Hl). pose proof (fi_source _ Hi) as Hsrc.
    assert (Hold : forall read e, e ∈ fw_recent w -> exists t, (e.1, snapshot e.2, t) ∈ fw_snapshots w ++ read /\
       expiresAt e.2 = t + FRONTEND_SOLANA_RPC_COMPLETED_RESULT_TTL_MS).
    { intros read e He. destruct (Hsrc e He) as (t & Ht & ?). exists t. split; [set_solver|done]. }
    assert (Hkey : cacheKey (up_key u) <> ""%string).
    { destruct (fi_keys _ Hi) as [_ Hn]. rewrite (fi_inflight _ Hi), Forall_forall in Hn.
      apply (Hn (cacheKey (up_key u), up_id u)), (list_elem_of_fmap_2 (fun u => (cacheKey (up_key u), up_id u))).
      by eapply list_elem_of_lookup_2. }
    unfold out. destruct r as [response|e]; cbv zeta.
    - split; [|split; [|split; [set_solver|intros s [= <-]; exists now; set_solver]]].
      + destruct (_ && _); [|done]. destruct (setRecentSnapshot_spec (fw_recent w) (cacheKey (up_key u)) (snapshotResponse response) now Hw Hk)
          as (H1 & H2 & _ & H4). split_and!; [done| |done]. rewrite Forall_forall in Hk |- *. intros e He.
        destruct (H4 e He) as [->|]; auto.
      + destruct (_ && _); [|apply Hold]. intros e He.
        destruct (setRecentSnapshot_spec (fw_recent w) (cacheKey (up_key u)) (snapshotResponse response) now Hw Hk) as (_ & _ & _ & H4).
        destruct (H4 e He) as [->|Hin]; [|by apply Hold]. exists now. cbn [fst snd snapshot expiresAt]. split; [set_solver|done].
    - split_and!; try done; [apply Hold|set_solver]. }
  clearbody out. destruct out as [[phase recent] read]. destruct Hout as (Hrec & Hsrc & Hread & Hphase). intros [= <-].
  destruct Hi as [_ _ Htime Hinf Hkeys [Hnd Hids] Hwait Hph Hcall Hans].
  set (u' := {| up_id := up_id u; up_key := up_key u; up_phase := phase |}).
  assert (Hmap : forall {B} (g : Upstream -> B), g u' = g u -> map g (<[i:=u']> (fw_upstream w)) = map g (fw_upstream w)).
  { intros B g Hg. change (map g (<[i:=u']> (fw_upstream w))) with (g <$> <[i:=u']> (fw_upstream w)).
    rewrite list_fmap_insert, Hg. apply list_insert_id. by rewrite list_lookup_fmap, Hu. }
  assert (Hin : forall x, x ∈ <[i:=u']> (fw_upstream w) -> x = u' \/ x ∈ fw_upstream w).
  { intros x (j & Hj)%list_elem_of_lookup. rewrite list_lookup_insert_Some in Hj. destruct Hj as [(_ & <- & _)|[_ Hj]]; [by left|].
    right. by eapply list_elem_of_lookup_2. }
  split; fw_cbn; try done.
  - intros x [Hx|Hx]%elem_of_app; [specialize (Htime x Hx); lia|]. rewrite (Hread x Hx). done.
  - by rewrite Hmap.
  - rewrite (Hmap _ up_id) by done. split; [done|]. rewrite Forall_forall in Hids |- *. intros x Hx.
    destruct (Hin x Hx) as [->|]; [|auto]. apply (Hids u). by eapply list_elem_of_lookup_2.
  - intros c Hc. destruct (Hwait c Hc) as (x & Hx & Hid & Hk).
    assert (Hg : (up_id x, cacheKey (up_key x)) ∈ map (fun u => (up_id u, cacheKey (up_key u))) (<[i:=u']> (fw_upstream w)))
      by (rewrite Hmap by done; by apply (list_elem_of_fmap_2 (fun u => (up_id u, cacheKey (up_key u))))).
    apply list_elem_of_In, in_map_iff in Hg as (y & [= H1 H2] & Hy). exists y. rewrite list_elem_of_In. by rewrite H1, H2.
  - intros x s Hx Hs. destruct (Hin x Hx) as [->|Hx']; [by apply Hphase|].
    destruct (Hph x s Hx' Hs) as [t Ht]. exists t. set_solver.
  - intros c k x Hx. destruct (Hans c k x Hx) as (s & t & Ht & ?). exists s, t. split; [set_solver|done].
Qed.

Lemma filter_split_perm {A} (P : A -> bool) l : l ≡ₚ List.filter (fun x => negb (P x)) l ++ List.filter P l.
Proof.
  induction l as [|x l IH]; cbn [List.filter]; [done|]. destruct (P x); cbn [negb app]; rewrite IH at 1; [|done].
  by rewrite Permutation_middle.
Qed.

(** Deleting the key of the entry at [i] removes exactly that entry. *)
Lemma mapDelete_at {V} (m : list (string * V)) i k v : map_wf m -> m !! i = Some (k, v) ->
  mapDelete m k = take i m ++ drop (S i) m.
Proof.
  intros Hw Hi. rewrite <- (take_drop_middle _ _ _ Hi) at 1. unfold map_wf, mapKeys in Hw.
  rewrite <- (take_drop_middle _ _ _ Hi), map_app in Hw. cbn [map fst] in Hw.
  apply NoDup_app in Hw as (_ & H1 & [H2 _]%NoDup_cons).
  assert (Hfil : forall l : list (string * V), k ∉ map fst l -> mapDelete l k = l).
  { unfold mapDelete. intros l. induction l as [|[j u] l IH]; cbn [List.filter map fst]; [done|]. intros Hn.
    destruct (String.eqb_spec j k) as [->|]; [set_solver|]. cbn [negb]. rewrite IH; [done|set_solver]. }
  unfold mapDelete in *. rewrite List.filter_app. cbn [List.filter fst]. rewrite String.eqb_refl. cbn [negb].
  rewrite !Hfil; [done|done|set_solver].
Qed.

Lemma finish_inv w i w' : fetch_inv w -> finishUpstream w i = Some w' -> fetch_inv w'.
Proof.
  intros [Hrec Hsrc Htime Hinf [Hkw Hkn] [Hnd Hids] Hwait Hph Hcall Hans]. unfold finishUpstream.
  destruct (fw_upstream w !! i) as [u|] eqn:Hu; [|done]. cbn [mbind option_bind].
  destruct (settledPhase (up_phase u)) as [res|] eqn:Hres; [|done]. cbn [mbind option_bind]. intros [= <-].
  assert (Hsub : forall x, x ∈ take i (fw_upstream w) ++ drop (S i) (fw_upstream w) -> x ∈ fw_upstream w).
  { intros x Hx. rewrite <- (take_drop_middle _ _ _ Hu). set_solver. }
  assert (Hback : forall x, x ∈ fw_upstream w -> up_id x <> up_id u -> x ∈ take i (fw_upstream w) ++ drop (S i) (fw_upstream w)).
  { intros x Hx Hne. rewrite <- (take_drop_middle _ _ _ Hu) in Hx. set_solver. }
  split; fw_cbn; try done.
  - rewrite (mapDelete_at _ i (cacheKey (up_key u)) (up_id u)); [|done|].
    + by rewrite Hinf, map_app, <- fmap_take, <- fmap_drop.
    + rewrite Hinf. change (map ?f (fw_upstream w)) with (f <$> fw_upstream w). by rewrite list_lookup_fmap, Hu.
  - split; [by apply mapDelete_wf|]. rewrite Forall_forall in Hkn |- *. intros e [He _]%elem_of_mapDelete. auto.
  - split.
    + rewrite <- (take_drop_middle _ _ _ Hu), map_app in Hnd. cbn [map] in Hnd. rewrite map_app.
      apply NoDup_app in Hnd as (N1 & N2 & [_ N3]%NoDup_cons). apply NoDup_app. split_and!; [done|set_solver|done].
    + rewrite Forall_forall in Hids |- *. auto.
  - intros c Hc. apply list_elem_of_In, filter_In in Hc as [Hc Hne]. apply list_elem_of_In in Hc.
    destruct (Hwait c Hc) as (x & Hx & Hid & Hk). exists x. split; [|done]. apply Hback; [done|]. intros E.
    unfold waitsFor in Hne. rewrite <- Hid, E, Nat.eqb_refl in Hne. done.
  - intros x s Hx Hs. eapply Hph; [by apply Hsub|done].
  - rewrite <- Hcall, map_app, map_map. cbn [fst]. rewrite (filter_split_perm (waitsFor (up_id u)) (fw_waiting w)) at 3.
    rewrite map_app. solve_Permutation.
  - intros c k r [Hx|Hx]%elem_of_app; [eauto|].
    apply list_elem_of_In, in_map_iff in Hx as (c' & [= <- <- Hr] & Hc'). apply filter_In in Hc' as [Hc' Hw].
    apply list_elem_of_In in Hc'. apply Nat.eqb_eq in Hw. destruct (Hwait c' Hc') as (x & Hx & Hid & Hk).
    assert (x = u) as ->.
    { apply list_elem_of_lookup in Hx as [j Hj]. assert (j = i) as ->; [|congruence].
      eapply NoDup_lookup; [exact Hnd| |].
      - change (map up_id (fw_upstream w)) with (up_id <$> fw_upstream w). by rewrite list_lookup_fmap, Hj.
      - change (map up_id (fw_upstream w)) with (up_id <$> fw_upstream w). rewrite list_lookup_fmap, Hu. cbn. by rewrite Hid, Hw. }
    unfold answerOf in Hr. apply bind_Ok in Hr as (s & -> & Hs). destruct (up_phase u) eqn:Hp; try done. injection Hres as ->.
    destruct (Hph u s) as [t Ht]; [by eapply list_elem_of_lookup_2|done|]. exists s, t. by rewrite <- Hk.
Qed.

Lemma fetch_reachable_inv t w : rtc fetch_step (fetch_initial t) w -> fetch_inv w.
Proof.
  intros H. remember (fetch_initial t) as w0 eqn:E. assert (Hi : fetch_inv w0) by (subst; apply fetch_initial_inv).
  clear E. induction H as [|w0 w1 w2 Hs _ IH]; [done|]. apply IH. destruct Hs.
  - apply call_inv; [done|done|by eapply parsed_cacheKey].
  - by eapply complete_inv.
  - by eapply finish_inv.
Qed.

(** Callers share requests: at any time at most one upstream request per cache key is
    under way; every waiting caller waits for a request made with its own cache key; and every
    caller is either waiting or has been answered, exactly once. *)
Theorem requests_shared t w :
  rtc fetch_step (fetch_initial t) w ->
  NoDup (map (fun u => cacheKey (up_key u)) (fw_upstream w)) /\
  (forall c, c ∈ fw_waiting w ->
     exists u, u ∈ fw_upstream w /\ up_id u = wt_request c /\ cacheKey (up_key u) = cacheKey (wt_key c)) /\
  map wt_caller (fw_waiting w) ++ map (fun a => a.1.1) (fw_answers w) ≡ₚ seq 0 (fw_callers w).
Proof.
  intros H. apply fetch_reachable_inv in H as Hi. split_and!; [|apply (fi_waiting _ Hi)|apply (fi_callers _ Hi)].
  destruct (fi_keys _ Hi) as [Hk _]. unfold map_wf, mapKeys in Hk. by rewrite (fi_inflight _ Hi), map_map in Hk.
Qed.

(** A response given to a caller was made from a snapshot read for the caller's own
    cache key, whichever request read it; a response from the cache is for a cacheable
    method and was read less than a second before; and the cache never holds more than 256 entries. *)
Theorem answers_own_and_fresh t w :
  rtc fetch_step (fetch_initial t) w ->
  (forall c key r, (c, key, Ok r) ∈ fw_answers w ->
     exists s at_, (cacheKey key, s, at_) ∈ fw_snapshots w /\ createResponseFromSnapshot s key = Ok r) /\
  (forall key now, fw_time w <= now -> fw_answers (frontendFetch w key now) <> fw_answers w ->
     has RECENTLY_CACHEABLE_RPC_METHODS (method key) = true /\
     exists s at_, (cacheKey key, s, at_) ∈ fw_snapshots w /\ at_ <= now < at_ + 1000 /\
       fw_answers (frontendFetch w key now) =
         fw_answers w ++ [(fw_callers w, key, createResponseFromSnapshot s key)]) /\
  (length (fw_recent w) <= FRONTEND_SOLANA_RPC_COMPLETED_RESULT_MAX_ENTRIES)%nat.
Proof.
  intros H. apply fetch_reachable_inv in H as Hi. split; [apply (fi_answers _ Hi)|]. split; [|apply (fi_recent _ Hi)].
  intros key now Hnow. pose proof (call_recent w key now Hi) as Hr. unfold frontendFetch. cbv zeta in *.
  destruct (has RECENTLY_CACHEABLE_RPC_METHODS (method key)).
  2:{ destruct (mapGet (fw_inflight w) (cacheKey key)); fw_cbn; done. }
  destruct (getRecentSnapshot _ _ _) as [[s|] r]; [|destruct (mapGet (fw_inflight w) (cacheKey key)); fw_cbn; done].
  fw_cbn. intros _. split; [done|]. destruct Hr as (_ & _ & Hf). destruct (Hf s eq_refl) as (at_ & Hin & Hlt).
  exists s, at_. split; [done|]. split; [|done]. pose proof (fi_time _ Hi _ Hin) as Ht. cbn [snd] in Ht.
  unfold FRONTEND_SOLANA_RPC_COMPLETED_RESULT_TTL_MS in Hlt. lia.
Qed.
End Sharing.

(** ** Witnesses *)
Module RpcFetchWitness.

(** A body that reads as a result, and nothing else *)
Definition parse (s : string) : option json :=
  if String.eqb s "{result}" then Some (JObject [("id"%string, JNumber (JInt 1)); ("result"%string, JNull)])
  else if String.eqb s "{first}"
  then Some (JObject [("id"%string, JNumber (JInt 1)); ("method"%string, JString "getBalance")])
  else if String.eqb s "{second}"
  then Some (JObject [("id"%string, JNumber (JInt 2)); ("method"%string, JString "getBalance")])
  else None.
Definition print (_ : json) : string := "{result}".

Definition post (body : string) : option RequestInit := Some {| init_method := Some "post"%string; init_body := Some body |}.
Definition balance (id : Z) : RpcRequestKey := {|
  cacheKey := "https://rpc" +:+ newline +:+ "getBalance" +:+ newline +:+ "{result}"; hasRequestId := true;
  method := "getBalance"; requestId := JNumber (JInt id) |}.
Definition reply_ok : Response := {|
  status := 200; headers := []; ok := true; statusText := "OK"; responseText := "{result}" |}.

(** Two callers share a request; it is answered; a third call is served from the cache. *)
Definition w1 : FetchWorld := frontendFetch parse print (fetch_initial 0) (balance 1) 10.
Definition w2 : FetchWorld := frontendFetch parse print w1 (balance 2) 20.
Definition w3 : FetchWorld := default w2 (completeUpstream parse w2 0 (Ok reply_ok) 100).
Definition w4 : FetchWorld := default w3 (finishUpstream parse print w3 0).

Lemma w2_reachable : rtc (fetch_step parse print) (fetch_initial 0) w2.
Proof.
  eapply rtc_l; [apply (step_call parse print _ (InfoString "https://rpc") (post "{first}") (balance 1) 10); [simpl; lia|reflexivity]|].
  eapply rtc_l; [apply (step_call parse print _ (InfoString "https://rpc") (post "{second}") (balance 2) 20); [vm_compute; discriminate|reflexivity]|]. apply rtc_refl.
Qed.

Lemma w4_reachable : rtc (fetch_step parse print) (fetch_initial 0) w4.
Proof.
  etrans; [apply w2_reachable|].
  eapply rtc_l; [apply (step_complete parse print _ 0 (Ok reply_ok) 100 w3); [vm_compute; discriminate|reflexivity]|].
  eapply rtc_l; [apply (step_finish parse print _ 0 w4); reflexivity|]. apply rtc_refl.
Qed.

Lemma requests_shared_witness :
  length (fw_upstream w2) = 1%nat /\ length (fw_waiting w2) = 2%nat /\
  NoDup (map (fun u => cacheKey (up_key u)) (fw_upstream w2)).
Proof.
  split; [by vm_compute|]. split; [by vm_compute|].
  apply (requests_shared parse print 0 w2). apply w2_reachable.
Defined.

Lemma answers_own_and_fresh_witness :
  length (fw_answers w4) = 2%nat /\
  has RECENTLY_CACHEABLE_RPC_METHODS (method (balance 3)) = true /\
  exists s at_, (cacheKey (balance 3), s, at_) ∈ fw_snapshots w4 /\ at_ <= 900 < at_ + 1000.
Proof.
  split; [by vm_compute|].
  destruct (answers_own_and_fresh parse print 0 w4 w4_reachable) as (_ & H & _).
  destruct (H (balance 3) 900) as [Hc (s & at_ & Hin & Hat & _)].
  - vm_compute. discriminate.
  - vm_compute. discriminate.
  - split; [exact Hc|]. exists s, at_. split; [exact Hin|exact Hat].
Defined.
End RpcFetchWitness.
