(* ===== verification/RealtimeEvents.v ===== *)
(** Events of the Earn realtime stream
    (web/apps/web/src/features/earn-realtime/types.ts and invalidation.ts): messages and
    their validation, protocol issues, the reads an event calls for, and the progress of a
    scheduled autodeposit. *)
From S2P Require Import Prelude JsString JsMap Json.

(** ** Data *)
Definition EARN_REALTIME_SCHEMA_VERSION := 1.

Module EVENT.
Definition allowance : string := "earn.autodeposit.configuration.changed".
Definition autoswap : string := "earn.autoswap.configuration.changed".
Definition autodeposit : string := "earn.autodeposit.execution.changed".
Definition onboarding : string := "earn.onboarding.changed".
Definition position : string := "earn.position.changed".
Definition rebalance : string := "earn.rebalance.confirmed".
Definition transaction : string := "earn.transaction.recorded".
End EVENT.

Definition KNOWN_EVENT_TYPES : list string :=
  [EVENT.allowance; EVENT.autoswap; EVENT.autodeposit; EVENT.onboarding; EVENT.position; EVENT.rebalance;
   EVENT.transaction].

Definition EARN_AUTODEPOSIT_PROGRESS_STATES : list string :=
  ["scheduled"; "requested"; "selected"; "pull_confirmed"; "completed"; "failed"; "canceled"; "released"]%string.

Record EarnRealtimeInvalidation := {
  eventId : string;
  eventType : string;
  occurredAt : string;
  scope : string;
  state : option string;
  reason : option string;
  targetId : option string;
  scheduledSlotId : option string;
  executionId : option string;
  failureCode : option string;
  protocolIssue : bool;  (** ["unsupported_state"] *)
}.

#[export] Instance EarnRealtimeInvalidation_eq_dec : EqDecision EarnRealtimeInvalidation.
Proof. solve_decision. Defined.

Inductive EarnRealtimeMessage :=
| Invalidation (event : EarnRealtimeInvalidation)
| ResyncRequired (reason : string).

Inductive IssueKind := unknown_event_type | unsupported_state.

Record EarnRealtimeProtocolIssue := {
  issue_eventId : string;
  issue_eventType : string;
  issue_kind : IssueKind;
}.

(** [/^\d+$/.test(text)] *)
Definition decimal (text : string) : bool := all_digits (chars text).


(** ** Parsing a message *)
Definition optionalString (key : string) (value : json) : option string :=
  match get key value with JString s => Some s | _ => None end.

Definition parseEarnRealtimeMessage (value : json) : option EarnRealtimeMessage :=
  if negb (is_object value) then None
  else
    match get "schemaVersion" value, get "eventType" value with
    | JNumber (JInt version), JString type =>
        if negb (version =? EARN_REALTIME_SCHEMA_VERSION) then None
        else if String.eqb type "resync_required" then
          match get "reason" value with JString r => Some (ResyncRequired r) | _ => None end
        else
          match get "eventId" value, get "occurredAt" value, get "scope" value with
          | JString id, JString at_, JString sc =>
              if negb (decimal id) then None
              else
                let invalidation st issue := Some (Invalidation {|
                  eventId := id; eventType := type; occurredAt := at_; scope := sc; state := st;
                  reason := optionalString "reason" value;
                  targetId := optionalString "targetId" value;
                  scheduledSlotId := optionalString "scheduledSlotId" value;
                  executionId := optionalString "executionId" value;
                  failureCode := optionalString "failureCode" value;
                  protocolIssue := issue |}) in
                match get "state" value with
                | JUndefined => invalidation None false
                | JString raw =>
                    if member raw EARN_AUTODEPOSIT_PROGRESS_STATES then invalidation (Some raw) false
                    else invalidation None true
                | _ => None
                end
          | _, _, _ => None
          end
    | _, _ => None
    end.

Definition resolveEarnRealtimeProtocolIssue (event : EarnRealtimeInvalidation) : option EarnRealtimeProtocolIssue :=
  let issue kind := Some {| issue_eventId := eventId event; issue_eventType := eventType event; issue_kind := kind |} in
  if negb (member (eventType event) KNOWN_EVENT_TYPES) then issue unknown_event_type
  else if protocolIssue event then issue unsupported_state
  else if String.eqb (eventType event) EVENT.autodeposit &&
          match state event with None => true | Some s => String.eqb s "" end
  then issue unsupported_state
  else None.

(** ** The reads an event calls for *)
Record EarnRealtimeRefreshPlan := { earnings : bool; earnState : bool; position : bool; transactions : bool }.

Definition no_refresh : EarnRealtimeRefreshPlan :=
  {| earnings := false; earnState := false; position := false; transactions := false |}.

(** The fields set to [true]; others stay. *)
Definition require (earnings' earnState' position' transactions' : bool) (plan : EarnRealtimeRefreshPlan) :
    EarnRealtimeRefreshPlan := {|
  earnings := earnings' || earnings plan; earnState := earnState' || earnState plan;
  position := position' || position plan; transactions := transactions' || transactions plan |}.

Definition planEvent (plan : EarnRealtimeRefreshPlan) (event : EarnRealtimeInvalidation) : EarnRealtimeRefreshPlan :=
  let type := eventType event in
  let is_state name := match state event with Some s => String.eqb s name | None => false end in
  if String.eqb type EVENT.autodeposit then
    if is_state "scheduled"%string then require false true false false plan
    else if is_state "pull_confirmed"%string then require false false true true plan
    else if is_state "completed"%string then require true true true true plan
    else if is_state "failed"%string then require false true true true plan
    else if is_state "released"%string || is_state "canceled"%string then require false true false false plan
    else plan
  else if String.eqb type EVENT.allowance || String.eqb type EVENT.autoswap then
    require false true false (String.eqb type EVENT.allowance) plan
  else if String.eqb type EVENT.rebalance then require true false true true plan
  else if String.eqb type EVENT.transaction then require true false false true plan
  else if String.eqb type EVENT.position then require true false true false plan
  else if String.eqb type EVENT.onboarding then require false true false false plan
  else plan.

Definition resolveEarnRealtimeRefreshPlan (events : list EarnRealtimeInvalidation) : EarnRealtimeRefreshPlan :=
  foldl planEvent no_refresh events.

(** ** The progress of a scheduled autodeposit *)
Record EarnAutodepositProgress := {
  pr_eventId : option string;
  pr_failureCode : option string;
  pr_occurredAt : option string;
  pr_scheduledSlotId : string;
  pr_state : string;
}.

Definition isEarnAutodepositTerminalState (s : string) : bool :=
  member s ["completed"; "failed"; "released"; "canceled"]%string.

(** The rank of a state; every state but ["requesting"] is one of the progress states. *)
Definition AUTODEPOSIT_STATE_RANK (s : string) : Z :=
  if String.eqb s "scheduled" then 0
  else if String.eqb s "requesting" then 1
  else if String.eqb s "requested" then 2
  else if String.eqb s "selected" then 3
  else if String.eqb s "pull_confirmed" then 4
  else 5.

(** An event id that is there and not empty *)
Definition truthyId (id : option string) : option string :=
  match id with Some (String _ _ as s) => Some s | _ => None end.

Definition mergeEarnAutodepositProgress (current : option EarnAutodepositProgress) (next : EarnAutodepositProgress) :
    result EarnAutodepositProgress :=
  match current with
  | None => Ok next
  | Some c =>
      if negb (String.eqb (pr_scheduledSlotId c) (pr_scheduledSlotId next)) then Ok next
      else
        match truthyId (pr_eventId c), truthyId (pr_eventId next) with
        | Some cid, Some nid =>
            n ← BigInt_of_string nid; c0 ← BigInt_of_string cid;
            Ok (if c0 <? n then next else c)
        | Some _, None => Ok c
        | None, _ =>
            Ok (if AUTODEPOSIT_STATE_RANK (pr_state c) <=? AUTODEPOSIT_STATE_RANK (pr_state next) then next else c)
        end
  end.

(** ** Parsed messages *)
(** What the type of an invalidation promises its readers *)
Definition event_wf (e : EarnRealtimeInvalidation) : Prop :=
  decimal (eventId e) = true /\ eventType e <> "resync_required"%string /\
  (forall s, state e = Some s -> s ∈ EARN_AUTODEPOSIT_PROGRESS_STATES /\ protocolIssue e = false).

Lemma parse_event_wf v e : parseEarnRealtimeMessage v = Some (Invalidation e) -> event_wf e.
Proof.
  unfold parseEarnRealtimeMessage. destruct (negb (is_object v)); [done|].
  destruct (get "schemaVersion" v) as [| | |[version|]| | |]; try done. destruct (get "eventType" v) as [| | | |type| |]; try done.
  destruct (negb (version =? _)); [done|]. destruct (String.eqb_spec type "resync_required").
  { by destruct (get "reason" v). }
  destruct (get "eventId" v) as [| | | |id| |]; try done. destruct (get "occurredAt" v) as [| | | |at_| |]; try done.
  destruct (get "scope" v) as [| | | |sc| |]; try done. destruct (decimal id) eqn:Hd; [|done]. cbn [negb]. cbv zeta.
  destruct (get "state" v) as [| | | |raw| |]; try done.
  + intros [= <-]. by split_and!.
  + destruct (member raw EARN_AUTODEPOSIT_PROGRESS_STATES) eqn:Hm; intros [= <-]; split_and!; try done.
    intros s [= <-]. split; [by apply member_spec|done].
Qed.

(** The object a server sends for an event; a state outside of the protocol is sent as it is. *)
Definition optional_field (key : string) (v : option string) : list (string * json) :=
  match v with Some s => [(key, JString s)] | None => [] end.

Definition event_json (e : EarnRealtimeInvalidation) : json := JObject
  ([("schemaVersion"%string, JNumber (JInt 1)); ("eventId"%string, JString (eventId e));
    ("eventType"%string, JString (eventType e)); ("occurredAt"%string, JString (occurredAt e));
    ("scope"%string, JString (scope e))] ++
   optional_field "state" (if protocolIssue e then Some "?"%string else state e) ++
   optional_field "reason" (reason e) ++ optional_field "targetId" (targetId e) ++
   optional_field "scheduledSlotId" (scheduledSlotId e) ++ optional_field "executionId" (executionId e) ++
   optional_field "failureCode" (failureCode e)).

(** The message an event was read from *)
Record read_from (v : json) (e : EarnRealtimeInvalidation) : Prop := {
  from_version : get "schemaVersion" v = JNumber (JInt EARN_REALTIME_SCHEMA_VERSION);
  from_id : get "eventId" v = JString (eventId e);
  from_type : get "eventType" v = JString (eventType e);
  from_time : get "occurredAt" v = JString (occurredAt e);
  from_scope : get "scope" v = JString (scope e);
  from_state : match get "state" v with
               | JUndefined => state e = None /\ protocolIssue e = false
               | JString s => (s ∈ EARN_AUTODEPOSIT_PROGRESS_STATES /\ state e = Some s /\ protocolIssue e = false) \/
                              (s ∉ EARN_AUTODEPOSIT_PROGRESS_STATES /\ state e = None /\ protocolIssue e = true)
               | _ => False
               end;
  from_texts : Forall (fun p => p.2 = optionalString p.1 v)
    [("reason", reason e); ("targetId", targetId e); ("scheduledSlotId", scheduledSlotId e); ("executionId", executionId e); ("failureCode", failureCode e)]%string;
}.

Lemma parse_read_from v e : parseEarnRealtimeMessage v = Some (Invalidation e) -> read_from v e.
Proof.
  unfold parseEarnRealtimeMessage. destruct (negb (is_object v)); [done|].
  destruct (get "schemaVersion" v) as [| | |[version|]| | |] eqn:Ev; try done. destruct (get "eventType" v) as [| | | |type| |] eqn:Et; try done.
  destruct (Z.eqb_spec version EARN_REALTIME_SCHEMA_VERSION) as [->|]; [|done]. cbn [negb]. destruct (String.eqb_spec type "resync_required").
  { by destruct (get "reason" v). }
  destruct (get "eventId" v) as [| | | |id| |] eqn:Ei; try done. destruct (get "occurredAt" v) as [| | | |at_| |] eqn:Ea; try done.
  destruct (get "scope" v) as [| | | |sc| |] eqn:Es; try done. destruct (negb (decimal id)); [done|]. cbv zeta.
  destruct (get "state" v) as [| | | |raw| |] eqn:Est; try done.
  + intros [= <-]. constructor; try done; [by rewrite Est|]. by repeat constructor.
  + destruct (member raw EARN_AUTODEPOSIT_PROGRESS_STATES) eqn:Hm; intros [= <-]; (constructor; try done; [rewrite Est|by repeat constructor]).
    * left. split; [by apply member_spec|done].
    * right. split; [by apply member_false|done].
Qed.

(** C40. Every event that is parsed is well formed and is the one of its message: the message states the supported schema version, and the event carries the
    message's id, type, time, scope and optional texts, with its state when that is one of the protocol, no state and a recorded issue when it is
    another text, and neither when the message has none. And every well-formed event can be sent: its object parses back to it. *)
Theorem parsed_events_wf :
  (forall v e, parseEarnRealtimeMessage v = Some (Invalidation e) -> event_wf e /\ read_from v e) /\
  (forall e, event_wf e -> (protocolIssue e = true -> state e = None) ->
     parseEarnRealtimeMessage (event_json e) = Some (Invalidation e)).
Proof.
  split.
  - intros v e H. split; [by eapply parse_event_wf|by apply parse_read_from].
  - intros e (Hd & Ht & Hs) Hp. destruct e as [id type at_ sc st rs tg sl ex fc issue].
    cbn [eventId eventType state protocolIssue] in *.
    assert (Hsplit : (issue = true /\ st = None) \/
      (issue = false /\ (st = None \/ exists s, st = Some s /\ member s EARN_AUTODEPOSIT_PROGRESS_STATES = true))).
    { destruct issue; [left; split; auto|right; split; [done|]]. destruct st as [s|]; [|by left]. right. exists s. split; [done|].
      apply member_spec. by apply Hs. }
    unfold parseEarnRealtimeMessage, event_json. cbn [eventId eventType occurredAt scope state reason targetId scheduledSlotId
      executionId failureCode protocolIssue].
    apply String.eqb_neq in Ht.
    destruct Hsplit as [[-> ->]|[-> [->|(s & -> & Hm)]]];
      destruct rs, tg, sl, ex, fc; cbn -[EARN_AUTODEPOSIT_PROGRESS_STATES member]; rewrite Ht, Hd; cbn [negb];
      try (rewrite Hm); reflexivity.
Qed.

(** ** Completeness of the plan *)
Definition any_read (p : EarnRealtimeRefreshPlan) : bool := earnings p || earnState p || position p || transactions p.

Lemma planEvent_grows p e :
  (earnings p = true -> earnings (planEvent p e) = true) /\ (earnState p = true -> earnState (planEvent p e) = true) /\
  (position p = true -> position (planEvent p e) = true) /\ (transactions p = true -> transactions (planEvent p e) = true).
Proof.
  unfold planEvent. cbv zeta. repeat case_match; cbn [require earnings earnState position transactions];
    split_and!; intros ->; by rewrite ?orb_true_r.
Qed.

Lemma planEvent_any p e : any_read p = true -> any_read (planEvent p e) = true.
Proof.
  unfold any_read. rewrite !orb_true_iff. destruct (planEvent_grows p e) as (H1 & H2 & H3 & H4). tauto.
Qed.

(** No supported event is ignored: a batch with an event that raises no protocol issue
    calls for at least one read, unless all its events only report that a sweep was
    requested or selected; and a read that any event calls for is in the plan. *)
Theorem refresh_plan_complete events e :
  e ∈ events -> resolveEarnRealtimeProtocolIssue e = None ->
  (forall s, state e = Some s -> s ∈ EARN_AUTODEPOSIT_PROGRESS_STATES) ->
  (eventType e = EVENT.autodeposit -> state e <> Some "requested"%string /\ state e <> Some "selected"%string) ->
  any_read (resolveEarnRealtimeRefreshPlan events) = true.
Proof.
  intros Hin Hi Hst Hq. assert (Hone : forall p, any_read (planEvent p e) = true).
  { intros p. unfold resolveEarnRealtimeProtocolIssue in Hi. cbv zeta in Hi.
    destruct (member (eventType e) KNOWN_EVENT_TYPES) eqn:Hm; [|done]. cbn [negb] in Hi.
    destruct (protocolIssue e); [done|]. unfold planEvent. cbv zeta.
    destruct (String.eqb_spec (eventType e) EVENT.autodeposit) as [Ea|Ea].
    - destruct (state e) as [s|]; [|done]. specialize (Hst s eq_refl). destruct (Hq Ea) as [Hq1 Hq2].
      unfold EARN_AUTODEPOSIT_PROGRESS_STATES in Hst. rewrite !elem_of_cons, elem_of_nil in Hst.
      unfold any_read. destruct p as [[] [] [] []].
      all: repeat destruct Hst as [->|Hst]; try done; try (by destruct Hq1); try (by destruct Hq2).
    - apply member_spec in Hm. unfold KNOWN_EVENT_TYPES in Hm. rewrite !elem_of_cons, elem_of_nil in Hm.
      unfold any_read. destruct p as [[] [] [] []].
      all: repeat destruct Hm as [Hm|Hm]; try done; rewrite Hm in *; try done. }
  unfold resolveEarnRealtimeRefreshPlan. apply list_elem_of_split in Hin as (l1 & l2 & ->).
  rewrite foldl_app. cbn [foldl]. generalize (Hone (foldl planEvent no_refresh l1)).
  generalize (planEvent (foldl planEvent no_refresh l1) e). induction l2 as [|x l2 IH]; intros p Hp; cbn [foldl]; [done|].
  apply IH. by apply planEvent_any.
Qed.

(** ** Merging progress *)
Definition progress_number (p : EarnAutodepositProgress) : Z :=
  dec_value (chars (default ""%string (pr_eventId p))).

Definition numbered (p : EarnAutodepositProgress) : Prop :=
  exists id, pr_eventId p = Some id /\ decimal id = true.

Lemma merge_numbered c n : numbered c -> numbered n -> pr_scheduledSlotId c = pr_scheduledSlotId n ->
  mergeEarnAutodepositProgress (Some c) n = Ok (if progress_number c <? progress_number n then n else c).
Proof.
  intros (cid & Hc & Dc) (nid & Hn & Dn) Hs. unfold mergeEarnAutodepositProgress, progress_number.
  rewrite Hs, String.eqb_refl, Hc, Hn. cbn [negb default from_option id].
  assert (Ht : forall i, decimal i = true -> truthyId (Some i) = Some i) by (by intros [|]).
  rewrite !Ht by done. unfold decimal in *. rewrite !BigInt_of_digits by done. done.
Qed.

(** The progress of a slot is the latest event's, in whatever order the events arrive:
    merging numbered updates of one slot never fails and gives an update of greatest number. *)
Theorem progress_latest_wins first updates :
  Forall (fun p => numbered p /\ pr_scheduledSlotId p = pr_scheduledSlotId first) (first :: updates) ->
  exists p, foldR (fun c n => mergeEarnAutodepositProgress (Some c) n) first updates = Ok p /\
    p ∈ first :: updates /\ forall q, q ∈ first :: updates -> progress_number q <= progress_number p.
Proof.
  revert first. induction updates as [|n l IH]; intros c H.
  { exists c. cbn [foldR]. split; [done|]. split; [left|]. intros q ->%list_elem_of_singleton. done. }
  apply Forall_cons in H as [[Hc _] H]. apply Forall_cons in H as [[Hn Hs] H]. cbn [foldR].
  rewrite merge_numbered by done. cbn [mbind result_bind].
  destruct (Z.ltb_spec (progress_number c) (progress_number n)).
  - destruct (IH n) as (p & Hp & Hin & Hmax).
    { apply Forall_cons. split; [done|]. eapply Forall_impl; [exact H|]. intros x [Hx Hy]. split; congruence. }
    exists p. split; [done|]. split; [by right|]. intros q [->|Hq]%elem_of_cons; [|by apply Hmax].
    specialize (Hmax n ltac:(left)). lia.
  - destruct (IH c) as (p & Hp & Hin & Hmax).
    { by apply Forall_cons. }
    exists p. split; [done|]. split; [set_solver|]. intros q Hq. apply elem_of_cons in Hq as [->|Hq]; [apply Hmax; left|].
    apply elem_of_cons in Hq as [->|Hq]; [|apply Hmax; by right]. specialize (Hmax c ltac:(left)). lia.
Qed.

(** ** Witnesses *)
Module RealtimeEventsWitness.
Definition event (id type : string) (st : option string) : EarnRealtimeInvalidation := {|
  eventId := id; eventType := type; occurredAt := "now"; scope := "earn"; state := st; reason := None; targetId := None;
  scheduledSlotId := None; executionId := None; failureCode := None; protocolIssue := false |}.

Lemma refresh_plan_complete_witness :
  any_read (resolveEarnRealtimeRefreshPlan
    [event "1" EVENT.autodeposit (Some "requested"%string); event "2" EVENT.autodeposit (Some "failed"%string)]) = true.
Proof.
  apply (refresh_plan_complete _ (event "2" EVENT.autodeposit (Some "failed"%string))).
  - right. left.
  - reflexivity.
  - intros s [= <-]. apply member_spec. reflexivity.
  - intros _. split; discriminate.
Defined.

Definition progress (id st : string) : EarnAutodepositProgress := {|
  pr_eventId := Some id; pr_failureCode := None; pr_occurredAt := None; pr_scheduledSlotId := "slot"; pr_state := st |}.

Lemma progress_latest_wins_witness :
  exists p, foldR (fun c n => mergeEarnAutodepositProgress (Some c) n) (progress "9" "selected")
              [progress "10" "completed"; progress "8" "requested"] = Ok p /\
    forall q, q ∈ [progress "9" "selected"; progress "10" "completed"; progress "8" "requested"] ->
      progress_number q <= progress_number p.
Proof.
  destruct (progress_latest_wins (progress "9" "selected") [progress "10" "completed"; progress "8" "requested"])
    as (p & Hp & _ & Hm).
  - repeat first [apply Forall_nil_2|apply Forall_cons_2]; (split; [by eexists|done]).
  - exists p. split; [exact Hp|exact Hm].
Defined.

Lemma parsed_events_wf_witness :
  parseEarnRealtimeMessage (event_json (event "12" EVENT.autodeposit (Some "selected"%string)))
    = Some (Invalidation (event "12" EVENT.autodeposit (Some "selected"%string))).
Proof.
  apply (proj2 parsed_events_wf).
  - split; [reflexivity|]. split; [discriminate|]. intros s [= <-]. split; [apply member_spec; reflexivity|reflexivity].
  - discriminate.
Defined.
End RealtimeEventsWitness.
