(* ===== verification/Sse.v ===== *)
(** Server-sent events (web/apps/web/src/features/earn-realtime/stream.ts): the
    incremental frame parser, the consumption of a stream, the token cache and the
    reconnect delays.

    A chunk is the text the decoder gives for what was read. [JSON.parse] is an argument, and
    so is [Math.random]'s value for the jitter. *)
From S2P Require Import Prelude JsString JsMap Json RealtimeEvents.

Record ParsedSseFrame := { fr_data : string; fr_event : option string; fr_id : option string }.

Definition CR : ascii := "013".
Definition LF : ascii := "010".
Definition is_cr (c : ascii) : bool := Ascii.eqb c CR.
Definition is_lf (c : ascii) : bool := Ascii.eqb c LF.

(** The length of a match of [/\r?\n/] at the start of the text *)
Definition lineBreakAt (l : list ascii) : option nat :=
  match l with
  | c :: l => if is_lf c then Some 1%nat
              else match l with
                   | d :: _ => if is_cr c && is_lf d then Some 2%nat else None
                   | [] => None
                   end
  | [] => None
  end.

(** The same for [/\r?\n\r?\n/] *)
Definition boundaryAt (l : list ascii) : option nat :=
  match lineBreakAt l with
  | Some n => match lineBreakAt (drop n l) with Some k => Some (n + k)%nat | None => None end
  | None => None
  end.

(** [text.match(/\r?\n\r?\n/)]: the index and the length of the leftmost match *)
Fixpoint findBoundary (l : list ascii) : option (nat * nat) :=
  match boundaryAt l with
  | Some n => Some (0%nat, n)
  | None => match l with
            | [] => None
            | _ :: l => match findBoundary l with Some (i, n) => Some (S i, n) | None => None end
            end
  end.

(** [text.split(/\r?\n/)]; [line] is the part of the current line already read. *)
Fixpoint splitLines (line : list ascii) (l : list ascii) : list (list ascii) :=
  match l with
  | [] => [line]
  | c :: rest =>
      if is_lf c then line :: splitLines [] rest
      else match rest with
           | d :: rest' => if is_cr c && is_lf d then line :: splitLines [] rest' else splitLines (line ++ [c]) rest
           | [] => splitLines (line ++ [c]) rest
           end
  end.

(** [line.indexOf(":")] splits the line. *)
Fixpoint splitColon (l : list ascii) : option (list ascii * list ascii) :=
  match l with
  | [] => None
  | c :: l => if Ascii.eqb c ":"%char then Some ([], l)
              else match splitColon l with Some (a, b) => Some (c :: a, b) | None => None end
  end.

(** [value.replace(/^ /, "")] *)
Definition dropSpace (l : list ascii) : list ascii :=
  match l with c :: l' => if Ascii.eqb c " "%char then l' else l | [] => [] end.

Definition frameLine (frame : ParsedSseFrame) (line : list ascii) : ParsedSseFrame :=
  match line with
  | [] => frame
  | c :: _ =>
      if Ascii.eqb c ":"%char then frame
      else
        let '(name, value) := match splitColon line with
                              | Some (a, b) => (unchars a, unchars (dropSpace b))
                              | None => (unchars line, ""%string)
                              end in
        if String.eqb name "id" then {| fr_data := fr_data frame; fr_event := fr_event frame; fr_id := Some value |}
        else if String.eqb name "event" then {| fr_data := fr_data frame; fr_event := Some value; fr_id := fr_id frame |}
        else if String.eqb name "data" then
          {| fr_data := if String.eqb (fr_data frame) "" then value
                        else fr_data frame +:+ String LF EmptyString +:+ value;
             fr_event := fr_event frame; fr_id := fr_id frame |}
        else frame
  end.

Definition truthy (s : option string) : bool := match s with Some (String _ _) => true | _ => false end.

Definition parseSseFrame (block : list ascii) : option ParsedSseFrame :=
  let frame := foldl frameLine {| fr_data := ""; fr_event := None; fr_id := None |} (splitLines [] block) in
  if truthy (fr_id frame) || truthy (fr_event frame) || truthy (Some (fr_data frame)) then Some frame else None.

(** The loop of [push] over the buffer; a round removes at least the boundary. *)
Fixpoint frames (fuel : nat) (buffer : list ascii) : list ParsedSseFrame * list ascii :=
  match fuel with
  | O => ([], buffer)
  | S fuel =>
      match findBoundary buffer with
      | None => ([], buffer)
      | Some (index, len) =>
          let block := take index buffer in
          let '(fs, rest) := frames fuel (drop (index + len) buffer) in
          (match parseSseFrame block with Some f => f :: fs | None => fs end, rest)
      end
  end.

(** [push]: the frames completed by a chunk and the new buffer *)
Definition push (buffer chunk : list ascii) : list ParsedSseFrame * list ascii :=
  frames (length (buffer ++ chunk)) (buffer ++ chunk).

Fixpoint pushAll (buffer : list ascii) (chunks : list (list ascii)) : list ParsedSseFrame * list ascii :=
  match chunks with
  | [] => ([], buffer)
  | c :: chunks =>
      let '(fs, buffer) := push buffer c in
      let '(fs', buffer) := pushAll buffer chunks in
      (fs ++ fs', buffer)
  end.

(** ** Boundaries *)
Lemma lineBreakAt_app l m n : lineBreakAt l = Some n -> lineBreakAt (l ++ m) = Some n /\ (1 <= n <= length l)%nat.
Proof.
  destruct l as [|c [|d l]]; cbn [lineBreakAt app length]; [done| |].
  - destruct (is_lf c); [intros [= <-]; split; [done|lia]|done].
  - destruct (is_lf c); [intros [= <-]; split; [done|lia]|]. destruct (is_cr c && is_lf d); [|done].
    intros [= <-]. split; [done|lia].
Qed.

Lemma boundaryAt_app l m n : boundaryAt l = Some n -> boundaryAt (l ++ m) = Some n /\ (1 <= n <= length l)%nat.
Proof.
  unfold boundaryAt. destruct (lineBreakAt l) as [a|] eqn:Ea; [|done].
  destruct (lineBreakAt (drop a l)) as [b|] eqn:Eb; [|done]. intros [= <-].
  destruct (lineBreakAt_app l m a Ea) as [-> [Ha Hl]]. rewrite drop_app_le by lia.
  destruct (lineBreakAt_app _ m b Eb) as [-> Hb]. rewrite length_drop in Hb. split; [done|lia].
Qed.

Lemma cr_not_lf c : is_cr c = true -> is_lf c = false.
Proof. unfold is_cr, is_lf. intros ->%Ascii.eqb_eq. done. Qed.

(** A match that needs text beyond [l] leaves no match inside [l]. *)
Lemma boundaryAt_late l m n : boundaryAt l = None -> boundaryAt (l ++ m) = Some n -> findBoundary l = None.
Proof.
  intros H1 H2. destruct l as [|a l]; [done|]. pose proof (cr_not_lf a) as Ha.
  destruct l as [|b l]; [cbn [findBoundary]; by rewrite H1|]. pose proof (cr_not_lf b) as Hb.
  destruct l as [|c l]; [|pose proof (cr_not_lf c) as Hc; destruct l as [|d l]].
  all: cbn [findBoundary]; rewrite H1; unfold boundaryAt, lineBreakAt in *; cbn [app] in *.
  all: destruct (is_lf a), (is_cr a); try (by specialize (Ha eq_refl)); cbn [andb drop app] in *.
  all: destruct (is_lf b), (is_cr b); try (by specialize (Hb eq_refl)); cbn [andb drop app] in *; try done.
  all: destruct (is_lf c), (is_cr c); try (by specialize (Hc eq_refl)); cbn [andb drop app] in *; try done.
  all: destruct (is_lf d); cbn [andb drop app] in *; done.
Qed.

Lemma findBoundary_app l m i n : findBoundary l = Some (i, n) ->
  findBoundary (l ++ m) = Some (i, n) /\ (1 <= n)%nat /\ (i + n <= length l)%nat.
Proof.
  revert i n. induction l as [|c l IH]; intros i n.
  - done.
  - cbn [findBoundary]. destruct (boundaryAt (c :: l)) as [k|] eqn:E.
    + intros [= <- <-]. destruct (boundaryAt_app _ m k E) as [Hm Hk]. rewrite <- app_comm_cons in *. cbn [findBoundary].
      rewrite Hm. split; [done|]. lia.
    + destruct (findBoundary l) as [[j k]|] eqn:Ef; [|done]. intros [= <- <-].
      destruct (IH j k eq_refl) as (H1 & H2 & H3). rewrite <- app_comm_cons. cbn [findBoundary].
      destruct (boundaryAt (c :: l ++ m)) as [q|] eqn:Eq.
      { pose proof (boundaryAt_late (c :: l) m q E Eq) as Hn. cbn [findBoundary] in Hn. rewrite E, Ef in Hn. done. }
      rewrite H1. split; [done|]. cbn [length]. lia.
Qed.

Lemma findBoundary_bound l i n : findBoundary l = Some (i, n) -> (1 <= n)%nat /\ (i + n <= length l)%nat.
Proof. intros H. by destruct (findBoundary_app l [] i n H) as (_ & ? & ?). Qed.

(** More fuel than characters changes nothing. *)
Lemma frames_fuel n k b : (length b <= n)%nat -> (length b <= k)%nat -> frames n b = frames k b.
Proof.
  revert k b. induction n as [|n IH]; intros k b Hn Hk.
  - destruct b; [|simpl in Hn; lia]. by destruct k.
  - destruct k as [|k]; [destruct b; [done|simpl in Hk; lia]|]. cbn [frames].
    destruct (findBoundary b) as [[i l]|] eqn:E; [|done]. apply findBoundary_bound in E.
    rewrite (IH k) by (rewrite length_drop; lia). done.
Qed.

Definition parse (b : list ascii) : list ParsedSseFrame * list ascii := frames (length b) b.

Lemma parse_step b : parse b =
  match findBoundary b with
  | None => ([], b)
  | Some (index, len) =>
      let '(fs, rest) := parse (drop (index + len) b) in
      (match parseSseFrame (take index b) with Some f => f :: fs | None => fs end, rest)
  end.
Proof.
  unfold parse at 1. rewrite (frames_fuel (length b) (S (length b))) by lia. cbn [frames].
  destruct (findBoundary b) as [[i l]|] eqn:E; [|done]. unfold parse. apply findBoundary_bound in E.
  by rewrite (frames_fuel (length b) (length (drop (i + l) b))) by (rewrite length_drop; lia).
Qed.

(** Reading on after a parse is reading on the whole text. *)
Lemma parse_app b c : parse (b ++ c) =
  let '(fs, rest) := parse b in let '(fs', rest') := parse (rest ++ c) in (fs ++ fs', rest').
Proof.
  remember (length b) as n eqn:Hn. revert b Hn. induction n as [n IH] using lt_wf_ind. intros b ->.
  rewrite (parse_step b), (parse_step (b ++ c)). destruct (findBoundary b) as [[i l]|] eqn:E.
  - destruct (findBoundary_app b c i l E) as (-> & H1 & H2). rewrite take_app_le, drop_app_le by lia.
    rewrite (IH (length (drop (i + l) b))) by (rewrite ?length_drop; lia).
    destruct (parse (drop (i + l) b)) as [fs rest]. destruct (parse (rest ++ c)) as [fs' rest'].
    by destruct (parseSseFrame (take i b)).
  - rewrite <- (parse_step (b ++ c)). by destruct (parse (b ++ c)).
Qed.

Lemma parse_rest b : findBoundary (snd (parse b)) = None.
Proof.
  remember (length b) as n eqn:Hn. revert b Hn. induction n as [n IH] using lt_wf_ind. intros b ->.
  rewrite (parse_step b). destruct (findBoundary b) as [[i l]|] eqn:E; [|done].
  apply findBoundary_bound in E as [H1 H2]. specialize (IH (length (drop (i + l) b)) ltac:(rewrite length_drop; lia) _ eq_refl).
  by destruct (parse (drop (i + l) b)).
Qed.

Lemma pushAll_parse chunks : pushAll [] chunks = parse (concat chunks).
Proof.
  assert (H : forall b, findBoundary b = None -> pushAll b chunks = parse (b ++ concat chunks)); [|by rewrite (H [])].
  induction chunks as [|c cs IH]; intros b Hb; cbn [pushAll concat].
  - rewrite app_nil_r, parse_step, Hb. done.
  - change (push b c) with (parse (b ++ c)). rewrite app_assoc, (parse_app (b ++ c)).
    pose proof (parse_rest (b ++ c)) as Hr. destruct (parse (b ++ c)) as [fs rest]. cbn [snd] in Hr. by rewrite (IH rest Hr).
Qed.

(** C20. How the network cuts a stream does not matter: pushing the chunks one by one gives
    exactly the frames and the buffer of pushing their concatenation at once, and no
    complete frame is ever left in the buffer. *)
Theorem sse_chunking chunks :
  pushAll [] chunks = push [] (concat chunks) /\ findBoundary (snd (pushAll [] chunks)) = None.
Proof.
  rewrite pushAll_parse. split; [done|apply parse_rest].
Qed.

(** ** Consuming a stream *)
Definition EARN_REALTIME_SILENCE_TIMEOUT_MS := 45000.

Inductive EarnRealtimeStreamResult := closed | resync_required (detail : string).

(** An error of HTTP, with its status and the phase it happened in *)
Inductive Phase := PhaseStream | PhaseToken.
Inductive StreamError :=
| EarnRealtimeHttpError (message : string) (status : Z) (phase : Phase)
| EarnRealtimeSilenceError
| OtherError (e : exn).

Definition isEarnRealtimeAuthRejection (error : StreamError) : bool :=
  match error with
  | EarnRealtimeHttpError _ status PhaseStream => (status =? 401) || (status =? 403)
  | _ => false
  end.

(** What one read of the body gives: text, its end, a heartbeat that did not come, an error *)
Inductive Reading := Chunk (text : list ascii) | Done | Silence | ReadFailed (e : exn).

Definition compareDecimalEventIds (left right : string) : result Z :=
  l ← BigInt_of_string left; r ← BigInt_of_string right;
  Ok (if l <? r then -1 else if r <? l then 1 else 0).

(** How a run of frames ends: the stream goes on after the given event, or is over *)
Inductive Ending := Continues (lastEventId : option string) | Ended (r : EarnRealtimeStreamResult) | Threw (e : StreamError).

Section Stream.
Context (jsonParse : string -> option json).

Inductive Verdict := Skip | Deliver (event : EarnRealtimeInvalidation) | Resync (detail : string) | Fails (e : exn).

Definition judgeFrame (lastEventId : option string) (frame : ParsedSseFrame) : Verdict :=
  match fr_event frame with
  | Some name =>
      if negb (String.eqb name "loyal_yield") || String.eqb (fr_data frame) "" then Skip
      else
        match jsonParse (fr_data frame) ≫= parseEarnRealtimeMessage with
        | None => Skip
        | Some (ResyncRequired detail) => Resync detail
        | Some (Invalidation message) =>
            match fr_id frame with
            | Some (String _ _ as id) =>
                if negb (String.eqb id (eventId message)) then Skip
                else
                  match lastEventId with
                  | Some (String _ _ as last) =>
                      match compareDecimalEventIds (eventId message) last with
                      | Ok c => if c <=? 0 then Skip else Deliver message
                      | Throw e => Fails e
                      end
                  | _ => Deliver message
                  end
            | _ => Skip
            end
        end
  | None => Skip
  end.

(** The [for] loop over the frames of a chunk: the events handed on, and how it ends *)
Fixpoint consumeFrames (lastEventId : option string) (fs : list ParsedSseFrame) :
    list EarnRealtimeInvalidation * Ending :=
  match fs with
  | [] => ([], Continues lastEventId)
  | frame :: fs =>
      match judgeFrame lastEventId frame with
      | Skip => consumeFrames lastEventId fs
      | Resync detail => ([], Ended (resync_required detail))
      | Fails e => ([], Threw (OtherError e))
      | Deliver message =>
          let '(delivered, ending) := consumeFrames (Some (eventId message)) fs in (message :: delivered, ending)
      end
  end.

(** The [while] loop over the reads *)
Fixpoint consumeReads (buffer : list ascii) (lastEventId : option string) (reads : list Reading) :
    list EarnRealtimeInvalidation * Ending :=
  match reads with
  | [] => ([], Continues lastEventId)
  | Done :: _ => ([], Ended closed)
  | Silence :: _ => ([], Threw EarnRealtimeSilenceError)
  | ReadFailed e :: _ => ([], Threw (OtherError e))
  | Chunk text :: reads =>
      let '(fs, buffer) := push buffer text in
      let '(delivered, ending) := consumeFrames lastEventId fs in
      match ending with
      | Continues lastEventId =>
          let '(delivered', ending) := consumeReads buffer lastEventId reads in (delivered ++ delivered', ending)
      | _ => (delivered, ending)
      end
  end.

(** The answer to the request for the stream: [contentType] is its content-type header. *)
Record StreamResponse := { sr_ok : bool; sr_status : Z; sr_hasBody : bool; sr_contentType : option string }.

Fixpoint includes (needle text : list ascii) : bool :=
  match text with
  | [] => match needle with [] => true | _ => false end
  | _ :: rest => bool_decide (take (length needle) text = needle) || includes needle rest
  end.

Definition consumeEarnRealtimeStream (cursor : option string) (response : StreamResponse) (reads : list Reading) :
    list EarnRealtimeInvalidation * Ending :=
  if negb (sr_ok response) then
    ([], Threw (EarnRealtimeHttpError "Earn realtime stream was rejected." (sr_status response) PhaseStream))
  else if negb (sr_hasBody response) ||
          negb (match sr_contentType response with Some t => includes (chars "text/event-stream") (chars t) | None => false end)
  then ([], Threw (OtherError (Exn "Error" "Earn realtime stream was rejected.")))
  else consumeReads [] cursor reads.

(** ** What a stream delivers *)
Definition event_number (e : EarnRealtimeInvalidation) : Z := dec_value (chars (eventId e)).

(** The number of a cursor, below every event when there is none *)
Definition cursor_number (cursor : option string) : Z :=
  match cursor with Some (String _ _ as c) => dec_value (chars c) | _ => -1 end.

Definition cursor_wf (cursor : option string) : Prop := forall c, cursor = Some c -> c = ""%string \/ decimal c = true.

(** Increasing event numbers, from above [low] *)
Fixpoint increasing (low : Z) (l : list EarnRealtimeInvalidation) : Prop :=
  match l with
  | [] => True
  | e :: l => low < event_number e /\ increasing (event_number e) l
  end.

Lemma increasing_weaken low low' l : low' <= low -> increasing low l -> increasing low' l.
Proof. destruct l; cbn; [done|]. intros H [H1 H2]. split; [lia|done]. Qed.

Lemma judge_deliver last frame m : judgeFrame last frame = Deliver m -> cursor_wf last ->
  event_wf m /\ cursor_number last < event_number m.
Proof.
  unfold judgeFrame. destruct (fr_event frame) as [name|]; [|done]. destruct (_ || _); [done|].
  destruct (jsonParse (fr_data frame)) as [v|]; [|done]. cbn [mbind option_bind].
  destruct (parseEarnRealtimeMessage v) as [[e|]|] eqn:Ep; try done.
  destruct (fr_id frame) as [[|c id]|]; try done. destruct (String.eqb_spec (String c id) (eventId e)) as [Hid|]; [|done].
  cbn [negb]. assert (Hw : event_wf e) by (by eapply parse_event_wf).
  destruct last as [[|c' last]|]; [intros [= <-] _|idtac|intros [= <-] _].
  1,3: split; [done|]; cbn [cursor_number]; destruct Hw as [Hd _]; apply all_digits_forallb in Hd as [Hd _];
    pose proof (dec_value_nonneg _ Hd); unfold event_number; lia.
  unfold compareDecimalEventIds. intros Hc Hl. destruct (Hl _ eq_refl) as [|Hd]; [done|].
  rewrite (BigInt_of_digits (eventId e)), (BigInt_of_digits (String c' last)) in Hc by (try apply Hw; done).
  cbn [mbind result_bind] in Hc. cbn [cursor_number]. unfold event_number.
  destruct (Z.ltb_spec (dec_value (chars (eventId e))) (dec_value (chars (String c' last)))); [done|].
  destruct (Z.ltb_spec (dec_value (chars (String c' last))) (dec_value (chars (eventId e)))); [|done].
  injection Hc as <-. done.
Qed.

Lemma cursor_of_event e : event_wf e -> cursor_wf (Some (eventId e)) /\ cursor_number (Some (eventId e)) = event_number e.
Proof.
  intros [Hd _]. split; [intros c [= <-]; by right|]. unfold cursor_number, event_number. by destruct (eventId e).
Qed.

Lemma consumeFrames_ordered last fs : cursor_wf last ->
  let '(delivered, ending) := consumeFrames last fs in
  increasing (cursor_number last) delivered /\ Forall event_wf delivered /\
  match ending with
  | Continues last' => cursor_wf last' /\
      forall l, increasing (cursor_number last') l -> increasing (cursor_number last) (delivered ++ l)
  | _ => True
  end.
Proof.
  revert last. induction fs as [|f fs IH]; intros last Hl; cbn [consumeFrames].
  - by split_and!.
  - destruct (judgeFrame last f) as [|m|d|e] eqn:Ej; [by apply IH| |by split_and!..].
    destruct (judge_deliver _ _ _ Ej Hl) as [Hm Hlt]. destruct (cursor_of_event m Hm) as [Hw Hn].
    specialize (IH _ Hw). rewrite Hn in IH. destruct (consumeFrames (Some (eventId m)) fs) as [delivered ending].
    destruct IH as (H1 & H2 & H3). split_and!; [by split|by constructor|].
    destruct ending; [|done..]. destruct H3 as [H3 H4]. split; [done|]. intros l Hi. cbn [app increasing]. auto.
Qed.

Lemma consumeReads_ordered reads buffer last : cursor_wf last ->
  increasing (cursor_number last) (fst (consumeReads buffer last reads)) /\
  Forall event_wf (fst (consumeReads buffer last reads)).
Proof.
  revert buffer last. induction reads as [|[text| | |e] reads IH]; intros buffer last Hl; cbn [consumeReads]; try done.
  destruct (push buffer text) as [fs buffer']. pose proof (consumeFrames_ordered last fs Hl) as H.
  destruct (consumeFrames last fs) as [delivered ending]. destruct H as (H1 & H2 & H3).
  destruct ending as [last'| |]; [|done..]. destruct H3 as [H3 H4].
  destruct (IH buffer' last' H3) as [I1 I2]. destruct (consumeReads buffer' last' reads) as [delivered' ending'].
  cbn [fst] in *. split; [auto|]. by apply Forall_app.
Qed.

Lemma consumeFrames_app last fs fs' :
  consumeFrames last (fs ++ fs') =
    let '(d, ending) := consumeFrames last fs in
    match ending with
    | Continues last' => let '(d', ending') := consumeFrames last' fs' in (d ++ d', ending')
    | _ => (d, ending)
    end.
Proof.
  revert last. induction fs as [|f fs IH]; intros last; cbn [app consumeFrames]; [by destruct (consumeFrames last fs')|].
  destruct (judgeFrame last f); [apply IH| |done..]. rewrite IH.
  destruct (consumeFrames (Some (eventId event)) fs) as [d [last'| |]]; [|done..]. by destruct (consumeFrames last' fs').
Qed.

Lemma consumeReads_chunks chunks buffer last :
  consumeReads buffer last (map Chunk chunks) = consumeFrames last (fst (pushAll buffer chunks)).
Proof.
  revert buffer last. induction chunks as [|c cs IH]; intros buffer last; cbn [map consumeReads pushAll]; [done|].
  destruct (push buffer c) as [fs buffer']. specialize (IH buffer').
  destruct (pushAll buffer' cs) as [fs' b]. cbn [fst] in *. rewrite consumeFrames_app.
  destruct (consumeFrames last fs) as [d [last'| |]]; [|done..]. by rewrite IH.
Qed.

(** A stream hands events on in strictly increasing order, all after the cursor it was
    opened with and all well formed, however its body reads; and while it only receives
    text, what it hands on depends on the text alone, not on how it is cut. *)
Theorem stream_in_order cursor response reads :
  cursor_wf cursor ->
  let delivered := fst (consumeEarnRealtimeStream cursor response reads) in
  increasing (cursor_number cursor) delivered /\ Forall event_wf delivered /\
  forall chunks chunks', concat chunks = concat chunks' ->
    consumeEarnRealtimeStream cursor response (map Chunk chunks) =
    consumeEarnRealtimeStream cursor response (map Chunk chunks').
Proof.
  intros Hc. unfold consumeEarnRealtimeStream. destruct (negb (sr_ok response)); [by cbn|].
  destruct (_ || _); [by cbn|]. destruct (consumeReads_ordered reads [] cursor Hc) as [H1 H2]. split_and!; [done..|].
  intros chunks chunks' He. by rewrite !consumeReads_chunks, !pushAll_parse, He.
Qed.
End Stream.

(** ** Tokens *)
Record EarnRealtimeTokenResponse := { accessToken : string; eventsUrl : string; expiresAt : string }.

Definition isTokenResponse (value : json) : option EarnRealtimeTokenResponse :=
  if negb (is_object value) then None
  else
    match get "schemaVersion" value, get "accessToken" value, get "eventsUrl" value, get "expiresAt" value with
    | JNumber (JInt 1), JString token, JString url, JString expires =>
        Some {| accessToken := token; eventsUrl := url; expiresAt := expires |}
    | _, _, _, _ => None
    end.

(** The answer to the request for a token; [payload] is [JNull] when its body is not JSON. *)
Definition requestEarnRealtimeToken (ok : bool) (status : Z) (payload : json) :
    EarnRealtimeTokenResponse + StreamError :=
  if negb ok then inr (EarnRealtimeHttpError "Earn realtime is unavailable." status PhaseToken)
  else match isTokenResponse payload with
       | Some token => inl token
       | None => inr (OtherError (Exn "Error" "Earn realtime is unavailable."))
       end.

(** The cache holds one token; [getTime] is [new Date(text).getTime()], [None] for NaN. *)
Definition renewalDelayMs (getTime : string -> option Z) (renewalLeadMs now : Z) (token : EarnRealtimeTokenResponse) : Z :=
  match getTime (expiresAt token) with
  | Some expiresAtMs => expiresAtMs - now - renewalLeadMs
  | None => 0
  end.

(** [get]: the token and the new content of the cache *)
Definition getToken (getTime : string -> option Z) (renewalLeadMs now : Z) (current : option EarnRealtimeTokenResponse)
    (request : EarnRealtimeTokenResponse + StreamError) :
    (EarnRealtimeTokenResponse + StreamError) * option EarnRealtimeTokenResponse :=
  match current with
  | Some token =>
      if 0 <? renewalDelayMs getTime renewalLeadMs now token then (inl token, current)
      else match request with inl fresh => (inl fresh, Some fresh) | inr e => (inr e, current) end
  | None => match request with inl fresh => (inl fresh, Some fresh) | inr e => (inr e, current) end
  end.

(** ** Reconnecting *)
(** [jitter] is [Math.floor(clamped random * 250)]. *)
Definition computeEarnRealtimeReconnectDelayMs (attempt jitter : Z) : Z :=
  let exponential := Z.min 30000 (1000 * 2 ^ Z.min attempt 5) in
  exponential + jitter.

Lemma reconnect_delay_bounds attempt jitter : 0 <= attempt -> 0 <= jitter <= 250 ->
  1000 <= computeEarnRealtimeReconnectDelayMs attempt jitter <= 30250.
Proof.
  intros Ha Hj. unfold computeEarnRealtimeReconnectDelayMs.
  assert (1 <= 2 ^ Z.min attempt 5) by (apply (Z.pow_le_mono_r 2 0 (Z.min attempt 5)); lia). lia.
Qed.

(** ** Witnesses *)
Module SseWitness.
Definition parse_event (text : string) : option json :=
  if String.eqb text "{7}"
  then Some (JObject [("schemaVersion"%string, JNumber (JInt 1)); ("eventType"%string, JString EVENT.position);
                      ("eventId"%string, JString "7"); ("occurredAt"%string, JString "now"); ("scope"%string, JString "earn")])
  else None.

Definition text : list ascii :=
  chars ("id: 7" +:+ String LF "event:loyal_yield" +:+ String CR (String LF "data: {7}") +:+
         String LF (String CR (String LF ""))).

Definition opened : StreamResponse :=
  {| sr_ok := true; sr_status := 200; sr_hasBody := true; sr_contentType := Some "text/event-stream; charset=utf-8"%string |}.

Lemma stream_in_order_witness :
  let delivered := fst (consumeEarnRealtimeStream parse_event (Some "6"%string) opened [Chunk text]) in
  map eventId delivered = ["7"%string] /\ increasing (cursor_number (Some "6"%string)) delivered.
Proof.
  split; [by vm_compute|]. apply (stream_in_order parse_event (Some "6"%string) opened [Chunk text]).
  intros c [= <-]. by right.
Defined.
End SseWitness.
