(* ===== verification/RealtimeClient.v ===== *)
(** The client of the Earn realtime stream: batches of invalidations
    (web/apps/web/src/features/earn-realtime/batch.ts), the durable cursor
    (cursor-storage.ts), and their composition in use-earn-realtime.ts.

    An asynchronous call is split where it awaits: [flushStart] runs up to the call of
    [onBatch], [flushEnd] runs when that settles. Accesses to browser storage may fail; each
    takes a flag that says so. *)
From S2P Require Import Prelude JsString JsMap Json RealtimeEvents Sse.

(** ** Accepting a batch *)
Definition issue_key (i : EarnRealtimeProtocolIssue) : string :=
  (match issue_kind i with unknown_event_type => "unknown_event_type" | unsupported_state => "unsupported_state" end)
  +:+ ":" +:+ issue_eventType i.

(** Events without a protocol issue, and the issues, one of each kind and type *)
Definition splitSupported (events : list EarnRealtimeInvalidation) :
    list EarnRealtimeInvalidation * list (string * EarnRealtimeProtocolIssue) :=
  foldl (fun '(supported, issues) event =>
           match resolveEarnRealtimeProtocolIssue event with
           | Some issue => (supported, mapSet issues (issue_key issue) issue)
           | None => (supported ++ [event], issues)
           end) ([], []) events.

(** What accepting a batch waits for: the read of the supported events, if any, and a full
    resynchronisation, if there was an issue. It is accepted when both succeed. *)
Record BatchWork := { bw_supported : option (list EarnRealtimeInvalidation); bw_resync : bool }.

Definition batchWork (events : list EarnRealtimeInvalidation) : BatchWork :=
  let '(supported, issues) := splitSupported events in
  {| bw_supported := match supported with [] => None | _ => Some supported end;
     bw_resync := match issues with [] => false | _ => true end |}.

Definition acceptEarnRealtimeInvalidationBatch (events : list EarnRealtimeInvalidation)
    (onInvalidationBatch : list EarnRealtimeInvalidation -> result unit) (onResyncRequired : result unit) : result unit :=
  let work := batchWork events in
  match bw_supported work with Some supported => onInvalidationBatch supported | None => Ok tt end ≫= fun _ =>
  if bw_resync work then onResyncRequired else Ok tt.

(** ** The batcher *)
Record Batcher := {
  cancelTimer : option Z;  (** the delay of the pending timer *)
  disposed : bool;
  epoch : Z;
  flushing : bool;
  inFlightIds : list string;
  pending : list (string * EarnRealtimeInvalidation);
  retryAttempt : Z;
}.

Definition newBatcher : Batcher := {|
  cancelTimer := None; disposed := false; epoch := 0; flushing := false; inFlightIds := []; pending := [];
  retryAttempt := 0 |}.

Definition schedule (b : Batcher) (delayMs : Z) : Batcher :=
  match cancelTimer b with
  | Some _ => b
  | None =>
      if flushing b || disposed b then b
      else {| cancelTimer := Some delayMs; disposed := disposed b; epoch := epoch b; flushing := flushing b;
              inFlightIds := inFlightIds b; pending := pending b; retryAttempt := retryAttempt b |}
  end.

Definition enqueue (delayMs : Z) (b : Batcher) (event : EarnRealtimeInvalidation) : Batcher :=
  if disposed b || match mapGet (pending b) (eventId event) with Some _ => true | None => false end ||
     member (eventId event) (inFlightIds b)
  then b
  else schedule {| cancelTimer := cancelTimer b; disposed := disposed b; epoch := epoch b; flushing := flushing b;
                   inFlightIds := inFlightIds b; pending := mapSet (pending b) (eventId event) event;
                   retryAttempt := retryAttempt b |} delayMs.

(** A batch handed to [onBatch] *)
Record Flush := { fs_batch : list EarnRealtimeInvalidation; fs_epoch : Z }.

(** The first half of [flushNow] *)
Definition flushStart (b : Batcher) : Batcher * option Flush :=
  let b := {| cancelTimer := None; disposed := disposed b; epoch := epoch b; flushing := flushing b;
              inFlightIds := inFlightIds b; pending := pending b; retryAttempt := retryAttempt b |} in
  match flushing b, pending b with
  | true, _ | _, [] => (b, None)
  | false, _ =>
      let batch := map snd (pending b) in
      ({| cancelTimer := None; disposed := disposed b; epoch := epoch b; flushing := true;
          inFlightIds := foldl (fun s e => setAdd s (eventId e)) (inFlightIds b) batch;
          pending := []; retryAttempt := retryAttempt b |},
       Some {| fs_batch := batch; fs_epoch := epoch b |})
  end.

(** [batch.reduce(...)] from the first id *)
Definition highestEventId (batch : list EarnRealtimeInvalidation) : result string :=
  foldR (fun highest event =>
           e ← BigInt_of_string (eventId event); h ← BigInt_of_string highest;
           Ok (if h <? e then eventId event else highest))
    (match batch with e :: _ => eventId e | [] => "0"%string end) batch.

(** The second half of [flushNow], when [onBatch] settles: the batcher and the id to
    acknowledge. An error while computing it is caught like one of [onBatch]. *)
Definition flushEnd (delayMs : Z) (b : Batcher) (f : Flush) (outcome : result unit) : Batcher * option string :=
  let same := fs_epoch f =? epoch b in
  let accepted := is_ok outcome in
  let finish pending' retry := {|
    cancelTimer := cancelTimer b; disposed := disposed b; epoch := epoch b; flushing := false;
    inFlightIds := List.filter (fun id => negb (member id (map eventId (fs_batch f)))) (inFlightIds b);
    pending := pending'; retryAttempt := retry |} in
  let '(b', ack) :=
    match outcome ≫= fun _ => highestEventId (fs_batch f) with
    | Ok highest => (finish (pending b) 0, if same then Some highest else None)
    | Throw _ =>
        (if same
         then finish (foldl (fun m '(k, e) => mapSet m k e)
                        (foldl (fun m e => mapSet m (eventId e) e) [] (fs_batch f)) (pending b))
                (Z.min (retryAttempt b + 1) 8)
         else finish (pending b) (retryAttempt b), None)
    end in
  (if negb (disposed b') && match pending b' with [] => false | _ => true end
   then schedule b' (if accepted then delayMs else Z.min 30000 (delayMs * 2 ^ retryAttempt b'))
   else b', ack).

Definition dispose (b : Batcher) : Batcher := {|
  cancelTimer := None; disposed := true; epoch := epoch b + 1; flushing := flushing b; inFlightIds := inFlightIds b;
  pending := pending b; retryAttempt := retryAttempt b |}.

Definition reset (b : Batcher) : Batcher := {|
  cancelTimer := None; disposed := disposed b; epoch := epoch b + 1; flushing := flushing b; inFlightIds := [];
  pending := []; retryAttempt := 0 |}.

(** ** The cursor store *)
Definition isCursor (value : option string) : option string :=
  match value with Some s => if decimal s then Some s else None | None => None end.

Definition latestCursor (left right : option string) : result (option string) :=
  match isCursor left, isCursor right with
  | None, r => Ok r
  | Some l, None => Ok (Some l)
  | Some l, Some r => a ← BigInt_of_string l; b ← BigInt_of_string r; Ok (Some (if b <=? a then l else r))
  end.

Definition earnRealtimeCursorStorageKey (solanaEnv walletAddress settingsPda earnVaultAddress : string) : string :=
  "loyal:earn-realtime-cursor:v1" +:+ ":" +:+ solanaEnv +:+ ":" +:+ walletAddress +:+ ":" +:+ settingsPda +:+ ":" +:+
  earnVaultAddress.

(** The maps all stores of a page share, and the browser storage, when there is one *)
Record Storage := {
  memory : list (string * string);
  tombstones : list string;
  primary : option (list (string * string));
}.

Definition primaryCursor (key : string) (readFails : bool) (s : Storage) : option string :=
  if member key (tombstones s) || readFails then None
  else isCursor (p ← primary s; mapGet p key).

Definition cursorGet (key : string) (readFails : bool) (s : Storage) : result (option string * Storage) :=
  cursor ← latestCursor (primaryCursor key readFails s) (mapGet (memory s) key);
  Ok (cursor, match cursor with
              | Some c => {| memory := mapSet (memory s) key c; tombstones := tombstones s; primary := primary s |}
              | None => s
              end).

Definition cursorAcknowledge (key : string) (readFails writeFails : bool) (cursor : string) (s : Storage) : result Storage :=
  match isCursor (Some cursor) with
  | None => Ok s
  | Some _ =>
      '(current, s) ← cursorGet key readFails s;
      next ← latestCursor current (Some cursor);
      match next with
      | None => Ok s
      | Some next =>
          let memory' := mapSet (memory s) key next in
          match primary s with
          | None => Ok {| memory := memory'; tombstones := tombstones s; primary := None |}
          | Some p =>
              if writeFails then Ok {| memory := memory'; tombstones := setAdd (tombstones s) key; primary := Some p |}
              else Ok {| memory := memory'; tombstones := setRemove (tombstones s) key; primary := Some (mapSet p key next) |}
          end
      end
  end.

Definition cursorClear (key : string) (removeFails : bool) (s : Storage) : Storage :=
  let memory' := mapDelete (memory s) key in
  match primary s with
  | None => {| memory := memory'; tombstones := setAdd (tombstones s) key; primary := None |}
  | Some p =>
      if removeFails then {| memory := memory'; tombstones := setAdd (tombstones s) key; primary := Some p |}
      else {| memory := memory'; tombstones := setRemove (tombstones s) key; primary := Some (mapDelete p key) |}
  end.

(** ** The cursor never goes back *)
Lemma isCursor_Some v c : isCursor v = Some c -> v = Some c /\ decimal c = true.
Proof. unfold isCursor. destruct v as [s|]; [|done]. destruct (decimal s) eqn:E; [|done]. by intros [= <-]. Qed.

Lemma isCursor_idem v : isCursor (isCursor v) = isCursor v.
Proof. destruct v as [s|]; cbn; [|done]. destruct (decimal s) eqn:E; cbn; [by rewrite E|done]. Qed.

Definition number (c : option string) : Z :=
  match isCursor c with Some s => dec_value (chars s) | None => -1 end.

Lemma number_bound c : -1 <= number c.
Proof.
  unfold number. destruct (isCursor c) as [s|] eqn:E; [|done]. apply isCursor_Some in E as [_ E].
  apply all_digits_forallb in E as [E _]. pose proof (dec_value_nonneg _ E). lia.
Qed.

(** The latest of two cursors exists, and its number is the greater one. *)
Lemma latestCursor_max l r : exists c, latestCursor l r = Ok c /\ isCursor c = c /\ number c = Z.max (number l) (number r).
Proof.
  pose proof (number_bound l). pose proof (number_bound r). unfold latestCursor, number in *.
  destruct (isCursor l) as [a|] eqn:El, (isCursor r) as [b|] eqn:Er.
  - destruct (isCursor_Some _ _ El) as [_ Da]. destruct (isCursor_Some _ _ Er) as [_ Db].
    rewrite !BigInt_of_digits by done. cbn [mbind result_bind].
    destruct (Z.leb_spec (dec_value (chars b)) (dec_value (chars a))).
    + exists (Some a). cbn [isCursor]. rewrite Da. split_and!; [done..|lia].
    + exists (Some b). cbn [isCursor]. rewrite Db. split_and!; [done..|lia].
  - destruct (isCursor_Some _ _ El) as [_ Da]. exists (Some a). cbn [isCursor]. rewrite Da. split_and!; [done..|lia].
  - destruct (isCursor_Some _ _ Er) as [_ Db]. exists (Some b). cbn [isCursor]. rewrite Db. split_and!; [done..|lia].
  - exists None. split_and!; [done..|]. cbn. lia.
Qed.

(** What reading gives: at least the remembered cursor, which it becomes. *)
Lemma cursorGet_spec key fails s : exists c s', cursorGet key fails s = Ok (c, s') /\
  number c = Z.max (number (primaryCursor key fails s)) (number (mapGet (memory s) key)) /\ isCursor c = c /\
  number (mapGet (memory s') key) = number c /\ tombstones s' = tombstones s /\ primary s' = primary s /\
  forall k, k <> key -> mapGet (memory s') k = mapGet (memory s) k.
Proof.
  unfold cursorGet. destruct (latestCursor_max (primaryCursor key fails s) (mapGet (memory s) key)) as (c & -> & Hc & Hn).
  cbn [mbind result_bind]. eexists c, _. split; [reflexivity|]. split; [done|]. split; [done|].
  destruct c as [c|]; cbn [memory tombstones primary].
  - rewrite mapGet_set, String.eqb_refl. split_and!; try done. intros k Hk. rewrite mapGet_set.
    by destruct (String.eqb_spec key k).
  - change (number None) with (-1) in *. pose proof (number_bound (mapGet (memory s) key)).
    pose proof (number_bound (primaryCursor key fails s)). split_and!; try done. lia.
Qed.

(** Operations on the stores of a page *)
Inductive cursor_op :=
| OpGet (key : string) (readFails : bool)
| OpAcknowledge (key : string) (readFails writeFails : bool) (cursor : string)
| OpClear (key : string) (removeFails : bool).

Definition op_key (o : cursor_op) : string :=
  match o with OpGet k _ | OpAcknowledge k _ _ _ | OpClear k _ => k end.

Definition runOp (s : Storage) (o : cursor_op) : result Storage :=
  match o with
  | OpGet key r => '(_, s) ← cursorGet key r s; Ok s
  | OpAcknowledge key r w c => cursorAcknowledge key r w c s
  | OpClear key r => Ok (cursorClear key r s)
  end.

Lemma acknowledge_spec key r w c s : exists s', cursorAcknowledge key r w c s = Ok s' /\
  Z.max (number (mapGet (memory s) key)) (number (Some c)) <= number (mapGet (memory s') key) /\
  forall k, k <> key -> mapGet (memory s') k = mapGet (memory s) k.
Proof.
  unfold cursorAcknowledge. destruct (isCursor (Some c)) as [c'|] eqn:Ec.
  2:{ exists s. split_and!; [done| |done]. unfold number at 2. rewrite Ec. pose proof (number_bound (mapGet (memory s) key)). lia. }
  destruct (cursorGet_spec key r s) as (cur & s1 & -> & Hn & _ & Hm & _ & Hp & Hother). cbn [mbind result_bind].
  destruct (latestCursor_max cur (Some c)) as (next & -> & Hi & Hmax). cbn [mbind result_bind].
  assert (Hnext : exists x, next = Some x).
  { destruct next as [x|]; [by exists x|]. exfalso. change (number None) with (-1) in Hmax.
    unfold number in Hmax. rewrite Ec in Hmax. apply isCursor_Some in Ec as [_ Ed]. apply all_digits_forallb in Ed as [Ed _].
    pose proof (dec_value_nonneg _ Ed). lia. }
  destruct Hnext as [x ->].
  assert (Hset : number (mapGet (mapSet (memory s1) key x) key) = Z.max (number cur) (number (Some c)))
    by (by rewrite mapGet_set, String.eqb_refl).
  assert (Hoth : forall k, k <> key -> mapGet (mapSet (memory s1) key x) k = mapGet (memory s) k).
  { intros k Hk. rewrite mapGet_set. destruct (String.eqb_spec key k); [congruence|auto]. }
  assert (Hle : Z.max (number (mapGet (memory s) key)) (number (Some c)) <= number (mapGet (mapSet (memory s1) key x) key))
    by (rewrite Hset; lia).
  destruct (primary s1) as [p|]; [destruct w|]; eexists; (split; [reflexivity|]); by split.
Qed.

(** A cursor never goes back, whatever fails in the browser's storage: after any
    operations on the page's stores that do not clear it, reading it gives at least what it
    was and at least every cursor acknowledged; and after a clear it reads as nothing,
    even when the storage could not be cleared. *)
Theorem cursor_monotone key s ops r :
  Forall (fun o => op_key o = key -> match o with OpClear _ _ => False | _ => True end) ops ->
  exists s', foldR runOp s ops = Ok s' /\
    number (mapGet (memory s) key) <= number (mapGet (memory s') key) /\
    (forall rd wr c, OpAcknowledge key rd wr c ∈ ops -> number (Some c) <= number (mapGet (memory s') key)) /\
    (exists c s'', cursorGet key r s' = Ok (c, s'') /\ number (mapGet (memory s') key) <= number c) /\
    (forall fails, exists s'', cursorGet key r (cursorClear key fails s') = Ok (None, s'')).
Proof.
  assert (Hread : forall s', exists c s'', cursorGet key r s' = Ok (c, s'') /\ number (mapGet (memory s') key) <= number c).
  { intros s'. destruct (cursorGet_spec key r s') as (c & s'' & H & Hn & _). exists c, s''. split; [done|]. lia. }
  assert (Hclear : forall s' fails, exists s'', cursorGet key r (cursorClear key fails s') = Ok (None, s'')).
  { intros s' fails. assert (Hm : mapGet (memory (cursorClear key fails s')) key = None).
    { unfold cursorClear. destruct (primary s') as [p|]; [destruct fails|]; cbn [memory]; by rewrite mapGet_delete, String.eqb_refl. }
    assert (Hp : primaryCursor key r (cursorClear key fails s') = None).
    { assert (Ht : forall l, member key (setAdd l key) = true).
      { intros l. unfold setAdd. destruct (member key l) eqn:E; [done|]. apply member_spec. set_solver. }
      unfold primaryCursor, cursorClear. destruct (primary s') as [p|]; [destruct fails|]; cbn [tombstones primary].
      - by rewrite Ht.
      - destruct (_ || _); [done|]. cbn [mbind option_bind]. by rewrite mapGet_delete, String.eqb_refl.
      - by rewrite Ht. }
    unfold cursorGet. rewrite Hm, Hp. cbn. by eexists. }
  intros Hops. enough (exists s', foldR runOp s ops = Ok s' /\ number (mapGet (memory s) key) <= number (mapGet (memory s') key) /\
    (forall rd wr c, OpAcknowledge key rd wr c ∈ ops -> number (Some c) <= number (mapGet (memory s') key))) as (s' & H1 & H2 & H3).
  { exists s'. by split_and!. }
  clear Hread Hclear. revert s. induction ops as [|o ops IH]; intros s.
  { exists s. split_and!; [done..|]. intros rd wr c H%elem_of_nil. done. }
  apply Forall_cons in Hops as [Ho Hops]. specialize (IH Hops).
  assert (Hone : exists s1, runOp s o = Ok s1 /\ number (mapGet (memory s) key) <= number (mapGet (memory s1) key) /\
    forall rd wr c, o = OpAcknowledge key rd wr c -> number (Some c) <= number (mapGet (memory s1) key)).
  { destruct o as [k rd|k rd wr c|k fails]; cbn [runOp op_key] in *.
    - destruct (cursorGet_spec k rd s) as (c & s1 & -> & Hn & _ & Hm & _ & _ & Hoth). cbn. exists s1. split_and!; try done.
      destruct (String.eqb_spec k key) as [->|Hk]; [lia|]. rewrite Hoth by congruence. done.
    - destruct (acknowledge_spec k rd wr c s) as (s1 & -> & Hn & Hoth). exists s1. split; [done|]. split.
      + destruct (String.eqb_spec k key) as [->|Hk]; [lia|]. rewrite Hoth by congruence. done.
      + intros ? ? ? [= -> -> -> ->]. lia.
    - exists (cursorClear k fails s). split; [done|]. split; [|done].
      destruct (String.eqb_spec k key) as [->|Hk]; [by destruct Ho|].
      unfold cursorClear. destruct (primary s); [destruct fails|]; cbn [memory]; rewrite mapGet_delete;
        by destruct (String.eqb_spec k key). }
  destruct Hone as (s1 & Hr & Hle & Hack). destruct (IH s1) as (s' & Hf & Hle' & Hack'). exists s'. cbn [foldR]. rewrite Hr.
  split; [done|]. split; [lia|]. intros rd wr c [Ho1|Hin]%elem_of_cons; [|eauto]. specialize (Hack _ _ _ (eq_sym Ho1)). lia.
Qed.

(** ** Witnesses *)
Module RealtimeClientWitness.
(** A page whose storage holds a stale cursor, and refuses a write and a removal. *)
Definition page : Storage := {| memory := []; tombstones := []; primary := Some [("a"%string, "3"%string); ("b"%string, "x"%string)] |}.
Definition ops : list cursor_op :=
  [OpGet "a" true; OpAcknowledge "a" false true "12"; OpAcknowledge "b" false false "4"; OpAcknowledge "a" true false "7";
   OpClear "b" true]%string.

Lemma cursor_monotone_witness :
  exists s', foldR runOp page ops = Ok s' /\
    (forall rd wr c, OpAcknowledge "a" rd wr c ∈ ops -> number (Some c) <= number (mapGet (memory s') "a")).
Proof.
  destruct (cursor_monotone "a" page ops false) as (s' & H1 & _ & H2 & _).
  - repeat first [apply Forall_nil_2|apply Forall_cons_2]; cbn; intros H; done.
  - exists s'. split; [exact H1|exact H2].
Defined.
End RealtimeClientWitness.
