(* ===== verification/Realtime.v ===== *)
(** The Earn realtime client as a whole
    (web/apps/web/src/features/earn-realtime/use-earn-realtime.ts with lifecycle.ts): a
    durable log of events on the server, streams that replay it from the client's cursor,
    the batcher, the cursor store, and the full read that admits a connection without a
    cursor.

    The server is the service the client talks to: a stream opened with a cursor sends, in order,
    every event after it; one opened without sends the events published from then on, and the
    client covers the earlier ones with a full read (an [Admission]). A batch waits for the
    admission that was current when it was sent. *)
From S2P Require Import Prelude JsString JsMap Json RealtimeEvents Sse RealtimeClient.

Inductive AdmissionStatus := Waiting | Taken | Refused.

(** The full read of a connection without a cursor covers the events up to [ad_base]. *)
Record Admission := { ad_base : Z; ad_status : AdmissionStatus }.

Record System := {
  sy_log : list EarnRealtimeInvalidation;
  sy_batcher : Batcher;
  sy_storage : Storage;
  sy_flush : option (Flush * nat);  (** the batch under way, and the admission it waits for *)
  sy_position : option Z;           (** the open stream: the number after which it sends *)
  sy_admissions : list Admission;
  sy_accepted : list EarnRealtimeInvalidation;
  sy_low : option Z;                (** events are tracked from here *)
  sy_high : Z;                      (** to here *)
}.

Section System.
Context (key : string) (delayMs : Z).

(** The number of the last event of the log *)
Definition tail_number (log : list EarnRealtimeInvalidation) : Z := foldr (fun e m => Z.max (event_number e) m) (-1) log.

Definition nextAfter (p : Z) (log : list EarnRealtimeInvalidation) : option EarnRealtimeInvalidation :=
  List.find (fun e => p <? event_number e) log.

(** [onInvalidation: enqueueInvalidation], for the next event of the stream *)
Definition deliver (s : System) : option System :=
  p ← sy_position s;
  e ← nextAfter p (sy_log s);
  Some {| sy_log := sy_log s; sy_batcher := enqueue delayMs (sy_batcher s) e; sy_storage := sy_storage s;
          sy_flush := sy_flush s; sy_position := Some (event_number e); sy_admissions := sy_admissions s;
          sy_accepted := sy_accepted s; sy_low := sy_low s; sy_high := Z.max (sy_high s) (event_number e) |}.

(** [getCursor] and the opening of a stream *)
Definition connect (readFails : bool) (s : System) : option System :=
  if disposed (sy_batcher s) then None
  else
    match sy_position s, cursorGet key readFails (sy_storage s) with
    | None, Ok (Some c, storage) =>
        Some {| sy_log := sy_log s; sy_batcher := sy_batcher s; sy_storage := storage; sy_flush := sy_flush s;
                sy_position := Some (number (Some c)); sy_admissions := sy_admissions s; sy_accepted := sy_accepted s;
                sy_low := sy_low s; sy_high := sy_high s |}
    | None, Ok (None, storage) =>
        let base := tail_number (sy_log s) in
        Some {| sy_log := sy_log s; sy_batcher := sy_batcher s; sy_storage := storage; sy_flush := sy_flush s;
                sy_position := Some base;
                sy_admissions := sy_admissions s ++ [{| ad_base := base; ad_status := Waiting |}];
                sy_accepted := sy_accepted s; sy_low := Some base; sy_high := Z.max (sy_high s) base |}
    | _, _ => None
    end.

(** The stream closes or fails. *)
Definition disconnect (s : System) : System := {|
  sy_log := sy_log s; sy_batcher := sy_batcher s; sy_storage := sy_storage s; sy_flush := sy_flush s; sy_position := None;
  sy_admissions := sy_admissions s; sy_accepted := sy_accepted s; sy_low := sy_low s; sy_high := sy_high s |}.

(** [resync_required]: [clearCursor] clears the store and resets the batcher. *)
Definition resync (removeFails : bool) (s : System) : option System :=
  _ ← sy_position s;
  Some {| sy_log := sy_log s; sy_batcher := reset (sy_batcher s); sy_storage := cursorClear key removeFails (sy_storage s);
          sy_flush := sy_flush s; sy_position := None; sy_admissions := sy_admissions s; sy_accepted := sy_accepted s;
          sy_low := None; sy_high := sy_high s |}.

(** The batch timer *)
Definition flush (s : System) : option System :=
  _ ← cancelTimer (sy_batcher s);
  let '(b, f) := flushStart (sy_batcher s) in
  Some {| sy_log := sy_log s; sy_batcher := b; sy_storage := sy_storage s;
          sy_flush := match f with Some f => Some (f, pred (length (sy_admissions s))) | None => sy_flush s end;
          sy_position := sy_position s; sy_admissions := sy_admissions s; sy_accepted := sy_accepted s;
          sy_low := sy_low s; sy_high := sy_high s |}.

(** The reads of the batch under way settle. They succeed only after their admission did. *)
Definition settleBatch (outcome : result unit) (readFails writeFails : bool) (s : System) : option System :=
  '(f, j) ← sy_flush s;
  a ← sy_admissions s !! j;
  if is_ok outcome && negb (match ad_status a with Taken => true | _ => false end) then None
  else
    let '(b, ack) := flushEnd delayMs (sy_batcher s) f outcome in
    storage ← match ack with
              | Some id => match cursorAcknowledge key readFails writeFails id (sy_storage s) with Ok st => Some st | Throw _ => None end
              | None => Some (sy_storage s)
              end;
    Some {| sy_log := sy_log s; sy_batcher := b; sy_storage := storage; sy_flush := None; sy_position := sy_position s;
            sy_admissions := sy_admissions s;
            sy_accepted := if is_ok outcome then sy_accepted s ++ fs_batch f else sy_accepted s;
            sy_low := sy_low s; sy_high := sy_high s |}.

(** The full read of a connection settles. *)
Definition settleAdmission (j : nat) (ok : bool) (s : System) : option System :=
  a ← sy_admissions s !! j;
  match ad_status a with
  | Waiting =>
      Some {| sy_log := sy_log s; sy_batcher := sy_batcher s; sy_storage := sy_storage s; sy_flush := sy_flush s;
              sy_position := sy_position s;
              sy_admissions := <[j:={| ad_base := ad_base a; ad_status := if ok then Taken else Refused |}]> (sy_admissions s);
              sy_accepted := sy_accepted s; sy_low := sy_low s; sy_high := sy_high s |}
  | _ => None
  end.

(** The hook goes away. *)
Definition unmount (s : System) : System := {|
  sy_log := sy_log s; sy_batcher := dispose (sy_batcher s); sy_storage := sy_storage s; sy_flush := sy_flush s;
  sy_position := None; sy_admissions := sy_admissions s; sy_accepted := sy_accepted s; sy_low := sy_low s;
  sy_high := sy_high s |}.

Definition publish (e : EarnRealtimeInvalidation) (s : System) : System := {|
  sy_log := sy_log s ++ [e]; sy_batcher := sy_batcher s; sy_storage := sy_storage s; sy_flush := sy_flush s;
  sy_position := sy_position s; sy_admissions := sy_admissions s; sy_accepted := sy_accepted s; sy_low := sy_low s;
  sy_high := sy_high s |}.

Inductive system_step : System -> System -> Prop :=
| sys_publish s e : event_wf e -> tail_number (sy_log s) < event_number e -> system_step s (publish e s)
| sys_connect s r s' : connect r s = Some s' -> system_step s s'
| sys_deliver s s' : deliver s = Some s' -> system_step s s'
| sys_disconnect s : system_step s (disconnect s)
| sys_resync s r s' : resync r s = Some s' -> system_step s s'
| sys_flush s s' : flush s = Some s' -> system_step s s'
| sys_settle s o r w s' : settleBatch o r w s = Some s' -> system_step s s'
| sys_admission s j ok s' : settleAdmission j ok s = Some s' -> system_step s s'
| sys_unmount s : system_step s (unmount s).

(** The greatest cursor a read of the store can give *)
Definition cursorTop (st : Storage) : Z :=
  Z.max (number (primaryCursor key false st)) (number (mapGet (memory st) key)).

(** A fresh page: events up to the stored cursor were handled before. *)
Definition system_initial (log : list EarnRealtimeInvalidation) (st : Storage) : System := {|
  sy_log := log; sy_batcher := newBatcher; sy_storage := st; sy_flush := None; sy_position := None;
  sy_admissions := [{| ad_base := cursorTop st; ad_status := Taken |}]; sy_accepted := [];
  sy_low := Some (cursorTop st); sy_high := cursorTop st |}.

Definition log_wf (log : list EarnRealtimeInvalidation) : Prop := Forall event_wf log /\ increasing (-1) log.

(** The stored cursor is the number of an event of the log, when there is one. *)
Definition storage_ok (log : list EarnRealtimeInvalidation) (st : Storage) : Prop :=
  cursorTop st = -1 \/ exists e, e ∈ log /\ event_number e = cursorTop st.

(** An event is settled when a batch with it was accepted, or a full read covered it. *)
Definition settled (s : System) (e : EarnRealtimeInvalidation) : Prop :=
  e ∈ sy_accepted s \/ exists a, a ∈ sy_admissions s /\ ad_status a = Taken /\ event_number e <= ad_base a.

(** ** The log *)
Lemma wf_number e : event_wf e -> 0 <= event_number e /\ number (Some (eventId e)) = event_number e.
Proof.
  intros [Hd _]. unfold number, isCursor, event_number. rewrite Hd. split; [|done].
  apply all_digits_forallb in Hd as [Hd _]. by apply dec_value_nonneg.
Qed.

Lemma increasing_elem low l e : increasing low l -> e ∈ l -> low < event_number e.
Proof.
  revert low. induction l as [|x l IH]; intros low; cbn [increasing]; [set_solver|].
  intros [H1 H2] [->|He]%elem_of_cons; [done|]. specialize (IH _ H2 He). lia.
Qed.

Lemma increasing_unique low l x y : increasing low l -> x ∈ l -> y ∈ l -> event_number x = event_number y -> x = y.
Proof.
  revert low. induction l as [|z l IH]; intros low; cbn [increasing]; [set_solver|].
  intros [H1 H2] [->|Hx]%elem_of_cons [->|Hy]%elem_of_cons E; [done| | |eauto].
  - pose proof (increasing_elem _ _ _ H2 Hy). lia.
  - pose proof (increasing_elem _ _ _ H2 Hx). lia.
Qed.

Lemma log_same_id log x y : log_wf log -> x ∈ log -> y ∈ log -> eventId x = eventId y -> x = y.
Proof. intros [_ Hi] Hx Hy E. eapply increasing_unique; eauto. unfold event_number. by rewrite E. Qed.

Lemma nextAfter_spec low p l e : increasing low l -> nextAfter p l = Some e ->
  e ∈ l /\ p < event_number e /\ forall x, x ∈ l -> p < event_number x -> event_number e <= event_number x.
Proof.
  unfold nextAfter. revert low. induction l as [|z l IH]; intros low; cbn [increasing List.find]; [done|].
  intros [H1 H2]. destruct (Z.ltb_spec p (event_number z)).
  - intros [= <-]. split_and!; [left|done|]. intros x [->|Hx]%elem_of_cons _; [done|].
    pose proof (increasing_elem _ _ _ H2 Hx). lia.
  - intros E. destruct (IH _ H2 E) as (I1 & I2 & I3). split_and!; [by right|done|].
    intros x [->|Hx]%elem_of_cons Hp; [lia|auto].
Qed.

Lemma tail_number_spec l : -1 <= tail_number l /\ (forall e, e ∈ l -> event_number e <= tail_number l) /\
  (tail_number l = -1 \/ exists e, e ∈ l /\ event_number e = tail_number l).
Proof.
  unfold tail_number. induction l as [|x l (I1 & I2 & I3)]; cbn [foldr]; [split_and!; [done|set_solver|by left]|].
  split_and!; [lia| |].
  - intros e [->|He]%elem_of_cons; [lia|]. specialize (I2 e He). lia.
  - destruct (Z.le_ge_cases (event_number x) (foldr (fun e m => Z.max (event_number e) m) (-1) l)) as [Hle|Hge].
    + rewrite Z.max_r by done. destruct I3 as [->|(e & He & <-)]; [by left|]. right. exists e. split; [by right|done].
    + rewrite Z.max_l by done. right. exists x. split; [left|done].
Qed.

Lemma increasing_snoc low l e : increasing low l -> low < event_number e ->
  (forall x, x ∈ l -> event_number x < event_number e) -> increasing low (l ++ [e]).
Proof.
  revert low. induction l as [|x l IH]; intros low; cbn [app increasing]; [done|].
  intros [H1 H2] Hl Hx. split; [done|]. apply IH; [done|apply Hx; left|]. intros y Hy. apply Hx. by right.
Qed.

Lemma log_wf_snoc log e : log_wf log -> event_wf e -> tail_number log < event_number e -> log_wf (log ++ [e]).
Proof.
  intros [Hw Hi] He Ht. destruct (tail_number_spec log) as (T1 & T2 & _).
  split; [apply Forall_app; split; [done|by apply Forall_singleton]|]. apply increasing_snoc; [done|lia|].
  intros x Hx. specialize (T2 x Hx). lia.
Qed.

(** ** The greatest cursor *)
Lemma top_bound st : -1 <= cursorTop st.
Proof. unfold cursorTop. pose proof (number_bound (mapGet (memory st) key)). lia. Qed.

Lemma primaryCursor_le r st : number (primaryCursor key r st) <= number (primaryCursor key false st).
Proof.
  unfold primaryCursor. pose proof (number_bound (isCursor (p ← primary st; mapGet p key))).
  destruct (member key (tombstones st)), r; cbn [orb]; try done.
Qed.

Lemma primaryCursor_frame r st st' : tombstones st' = tombstones st -> primary st' = primary st ->
  primaryCursor key r st' = primaryCursor key r st.
Proof. unfold primaryCursor. by intros -> ->. Qed.

Lemma get_top r st c st' : cursorGet key r st = Ok (c, st') -> number c <= cursorTop st /\ cursorTop st' = cursorTop st.
Proof.
  intros H. destruct (cursorGet_spec key r st) as (c0 & s0 & H0 & Hn & _ & Hm & Ht & Hp & _).
  rewrite H in H0. injection H0 as <- <-. pose proof (primaryCursor_le r st). unfold cursorTop in *.
  rewrite (primaryCursor_frame false st st' Ht Hp), Hm. lia.
Qed.

Lemma acknowledge_top r w id st st' : cursorAcknowledge key r w id st = Ok st' ->
  cursorTop st' <= Z.max (cursorTop st) (number (Some id)).
Proof.
  unfold cursorAcknowledge. destruct (isCursor (Some id)) as [c|]; [|intros [= <-]; lia].
  destruct (cursorGet key r st) as [[cur s1]|] eqn:Eg; [|done]. cbn [mbind result_bind].
  destruct (get_top _ _ _ _ Eg) as [Hc Ht]. destruct (latestCursor_max cur (Some id)) as (next & -> & Hi & Hmax).
  cbn [mbind result_bind]. destruct next as [x|]; [|intros [= <-]; lia].
  assert (Hset : forall tb pr, cursorTop {| memory := mapSet (memory s1) key x; tombstones := tb; primary := pr |} =
    Z.max (number (primaryCursor key false {| memory := mapSet (memory s1) key x; tombstones := tb; primary := pr |})) (number (Some x))).
  { intros tb pr. unfold cursorTop. cbn [memory]. by rewrite mapGet_set, String.eqb_refl. }
  assert (Hx : number (Some x) <= Z.max (cursorTop st) (number (Some id))) by lia.
  assert (Hprim : number (primaryCursor key false s1) <= cursorTop st) by (rewrite <- Ht; unfold cursorTop; lia).
  destruct (primary s1) as [p|] eqn:Ep; [destruct w|]; intros [= <-]; rewrite Hset.
  - assert (primaryCursor key false {| memory := mapSet (memory s1) key x; tombstones := setAdd (tombstones s1) key; primary := Some p |} = None) as ->.
    { unfold primaryCursor. cbn [tombstones]. unfold setAdd. destruct (member key (tombstones s1)) eqn:E; [by rewrite E|].
      rewrite (proj2 (member_spec key (tombstones s1 ++ [key]))) by set_solver. done. }
    change (number None) with (-1). pose proof (top_bound st). lia.
  - assert (primaryCursor key false {| memory := mapSet (memory s1) key x; tombstones := setRemove (tombstones s1) key;
      primary := Some (mapSet p key x) |} = Some x) as ->; [|lia].
    unfold primaryCursor. cbn [tombstones primary mbind option_bind]. rewrite mapGet_set, String.eqb_refl.
    destruct (member key (setRemove (tombstones s1) key)) eqn:E; [|by rewrite Hi].
    exfalso. apply member_spec in E. apply list_elem_of_In, filter_In in E as [_ E]. by rewrite String.eqb_refl in E.
  - rewrite (primaryCursor_frame false s1); cbn [tombstones primary]; [lia|done|by rewrite Ep].
Qed.

Lemma clear_top r st : cursorTop (cursorClear key r st) = -1.
Proof.
  unfold cursorTop, cursorClear.
  assert (Ht : forall l, member key (setAdd l key) = true).
  { intros l. unfold setAdd. destruct (member key l) eqn:E; [done|]. apply member_spec. set_solver. }
  assert (Hm : mapGet (mapDelete (memory st) key) key = None) by (by rewrite mapGet_delete, String.eqb_refl).
  destruct (primary st) as [p|] eqn:Ep; [destruct r|]; cbn [memory]; rewrite Hm; unfold primaryCursor; cbn [tombstones primary];
    rewrite ?Ht; cbn [orb]; try done. destruct (_ || _); [done|]. cbn [mbind option_bind].
  by rewrite mapGet_delete, String.eqb_refl.
Qed.

(** ** The invariant *)
(** The batch under way in the current epoch *)
Definition current (s : System) (f : Flush) : Prop :=
  exists j, sy_flush s = Some (f, j) /\ fs_epoch f = epoch (sy_batcher s).

(** A received event waits, is under way, or was accepted. *)
Definition tracked (s : System) (e : EarnRealtimeInvalidation) : Prop :=
  e ∈ map snd (pending (sy_batcher s)) \/ (exists f, current s f /\ e ∈ fs_batch f) \/ e ∈ sy_accepted s.

Record sinv (s : System) : Prop := {
  J_log : log_wf (sy_log s);
  J_pending : map_wf (pending (sy_batcher s)) /\ forall k e, (k, e) ∈ pending (sy_batcher s) ->
    k = eventId e /\ e ∈ sy_log s /\ event_number e <= sy_high s;
  J_flush : match sy_flush s with
    | None => flushing (sy_batcher s) = false /\ inFlightIds (sy_batcher s) = []
    | Some (f, j) => flushing (sy_batcher s) = true /\
        (forall e, e ∈ fs_batch f -> e ∈ sy_log s /\ event_number e <= sy_high s) /\
        is_Some (sy_admissions s !! j) /\
        (forall id, id ∈ inFlightIds (sy_batcher s) -> id ∈ map eventId (fs_batch f)) /\
        fs_epoch f <= epoch (sy_batcher s) /\ fs_batch f <> [] /\
        (fs_epoch f = epoch (sy_batcher s) \/ inFlightIds (sy_batcher s) = [] \/ disposed (sy_batcher s) = true)
    end;
  J_high : -1 <= sy_high s /\ (sy_high s = -1 \/ exists e, e ∈ sy_log s /\ event_number e = sy_high s) /\
    cursorTop (sy_storage s) <= sy_high s /\ forall p, sy_position s = Some p -> -1 <= p <= sy_high s;
  J_low : match sy_low s with
    | None => pending (sy_batcher s) = [] /\ sy_position s = None /\ cursorTop (sy_storage s) = -1 /\
        forall f, ~ current s f
    | Some l => (exists a, last (sy_admissions s) = Some a /\ ad_base a = l) /\ l <= sy_high s /\
        (disposed (sy_batcher s) = false ->
         forall e, e ∈ sy_log s -> l < event_number e <= sy_high s -> tracked s e)
    end;
  J_disposed : disposed (sy_batcher s) = true ->
    sy_position s = None /\ cancelTimer (sy_batcher s) = None /\ forall f, ~ current s f;
  J_claim f j a : sy_flush s = Some (f, j) -> fs_epoch f = epoch (sy_batcher s) -> sy_admissions s !! j = Some a ->
    forall e x, e ∈ sy_log s -> x ∈ fs_batch f -> event_number e <= event_number x ->
      e ∈ fs_batch f \/ e ∈ sy_accepted s \/ event_number e <= ad_base a;
  J_cursor e : e ∈ sy_log s -> event_number e <= cursorTop (sy_storage s) -> settled s e;
}.

Lemma initial_sinv log st : log_wf log -> storage_ok log st -> sinv (system_initial log st).
Proof.
  intros Hl Hs. pose proof (top_bound st). split; cbn -[cursorTop]; try done.
  - split; [apply NoDup_nil_2|set_solver].
  - split_and!; [by eexists|done|]. intros _ e _ Hc. lia.
  - intros e He Hle. right. eexists. split; [left|]. by split.
Qed.

Lemma high_tail s : sinv s -> sy_high s <= tail_number (sy_log s).
Proof.
  intros Hi. destruct (J_high _ Hi) as (_ & [->|(e & He & <-)] & _); destruct (tail_number_spec (sy_log s)) as (T1 & T2 & _); [done|auto].
Qed.

(** Steps that leave the batcher, the flush, the log and the accepted events alone *)
Lemma tracked_frame s s' e : sy_batcher s' = sy_batcher s -> sy_flush s' = sy_flush s -> sy_accepted s' = sy_accepted s ->
  tracked s e -> tracked s' e.
Proof.
  intros Hb Hf Ha. unfold tracked, current. by rewrite Hb, Hf, Ha.
Qed.

Lemma current_frame s s' f : sy_batcher s' = sy_batcher s -> sy_flush s' = sy_flush s -> current s' f -> current s f.
Proof. intros Hb Hf. unfold current. by rewrite Hb, Hf. Qed.

Lemma publish_sinv s e : sinv s -> event_wf e -> tail_number (sy_log s) < event_number e -> sinv (publish e s).
Proof.
  intros Hi He Ht. pose proof (high_tail s Hi) as Hh.
  assert (Hold : forall x, x ∈ sy_log s ++ [e] -> event_number x <= sy_high s -> x ∈ sy_log s).
  { intros x [Hx|Hx]%elem_of_app Hle; [done|]. apply list_elem_of_singleton in Hx as ->. lia. }
  destruct Hi as [Hl [Hw Hp] Hf (H1 & H2 & H3 & H4) Hlow Hd Hc Hcur]. split; cbn [publish sy_log sy_batcher sy_flush sy_high sy_storage
    sy_position sy_low sy_admissions sy_accepted].
  - by apply log_wf_snoc.
  - split; [done|]. intros k x Hx. destruct (Hp k x Hx) as (? & ? & ?). split_and!; [done|set_solver|done].
  - destruct (sy_flush s) as [[f j]|]; [|done]. destruct Hf as (? & Hb & ?). split_and!; try tauto.
    intros x Hx. destruct (Hb x Hx). split; [set_solver|done].
  - split_and!; try done. destruct H2 as [?|(x & ? & ?)]; [by left|]. right. exists x. split; [set_solver|done].
  - destruct (sy_low s) as [l|]; [|done]. destruct Hlow as (? & ? & Htr). split_and!; [done..|]. intros Hdis x Hx Hr.
    apply (tracked_frame s); [done..|]. apply Htr; [done| |done]. apply Hold; [done|lia].
  - done.
  - intros f j a Hfl Hep Ha x y Hx Hy Hle. eapply Hc; try done. apply Hold; [done|]. rewrite Hfl in Hf.
    destruct Hf as (_ & Hb & _). destruct (Hb y Hy). lia.
  - intros x Hx Hle. apply Hcur; [|done]. apply Hold; [done|lia].
Qed.

Lemma disconnect_sinv s : sinv s -> sinv (disconnect s).
Proof.
  intros [Hl Hp Hf (H1 & H2 & H3 & H4) Hlow Hd Hc Hcur]. split; cbn; try done.
  - destruct (sy_low s); [done|]. destruct Hlow as (? & ? & ? & ?). by split_and!.
  - intros Hdis. destruct (Hd Hdis) as (_ & ? & ?). by split_and!.
Qed.

Lemma unmount_sinv s : sinv s -> sinv (unmount s).
Proof.
  intros [Hl Hp Hf (H1 & H2 & H3 & H4) Hlow Hd Hc Hcur].
  assert (Hno : forall f, ~ current (unmount s) f).
  { intros f (j & Hj & He). cbn in Hj, He. rewrite Hj in Hf. destruct Hf as (_ & _ & _ & _ & Hle & _). lia. }
  split; cbn; try done.
  - destruct (sy_flush s) as [[f j]|]; [|done]. destruct Hf as (? & ? & ? & ? & ? & ? & ?). split_and!; try done; [lia|by right; right].
  - destruct (sy_low s); [|by destruct Hlow as (? & ? & ? & ?); split_and!]. destruct Hlow as (? & ? & _). by split_and!.
  - intros f j a Hj He. destruct (Hno f). by exists j.
Qed.

Lemma resync_sinv s r s' : sinv s -> resync r s = Some s' -> sinv s'.
Proof.
  intros [Hl Hp Hf (H1 & H2 & H3 & H4) Hlow Hd Hc Hcur]. unfold resync. destruct (sy_position s) as [p|] eqn:Epos; [|done].
  cbn [mbind option_bind]. intros [= <-]. set (s' := Build_System _ _ _ _ _ _ _ _ _).
  assert (Hno : forall f, ~ current s' f).
  { intros f (j & Hj & He). cbn in Hj, He. rewrite Hj in Hf. destruct Hf as (_ & _ & _ & _ & Hle & _). lia. }
  split; try done; cbn -[cursorTop cursorClear].
  - split; [apply NoDup_nil_2|set_solver].
  - destruct (sy_flush s) as [[f j]|]; [|by destruct Hf]. destruct Hf as (? & ? & ? & _ & ? & ? & ?). do 3 (split; [done|]).
    split; [intros id Hid; by apply elem_of_nil in Hid|]. split_and!; [lia|done|by right; left].
  - rewrite clear_top. by split_and!.
  - rewrite clear_top. by split_and!.
  - intros f j a Hj He. destruct (Hno f). by exists j.
  - intros e He. rewrite clear_top. destruct (wf_number e) as [? _]; [|lia]. destruct Hl as [Hw _]. rewrite Forall_forall in Hw. auto.
Qed.

Lemma connect_sinv s r s' : sinv s -> connect r s = Some s' -> sinv s'.
Proof.
  intros Hi. pose proof (high_tail s Hi) as Hht. unfold connect.
  destruct (disposed (sy_batcher s)) eqn:Edis; [done|].
  destruct Hi as [Hl Hp Hf (H1 & H2 & H3 & H4) Hlow Hd Hc Hcur]. destruct (sy_position s) as [p|] eqn:Epos; [done|].
  destruct (cursorGet key r (sy_storage s)) as [[[c|] st]|] eqn:Eg; [..|done]; destruct (get_top _ _ _ _ Eg) as [Hn Ht].
  - intros [= <-]. split; cbn -[cursorTop number]; rewrite ?Ht; try done.
    + split_and!; [done..|]. intros q [= <-]. pose proof (number_bound (Some c)). lia.
    + destruct (sy_low s) as [l|]; [exact Hlow|]. exfalso. destruct Hlow as (_ & _ & Htop & _).
      assert (Hcc : isCursor (Some c) = Some c).
      { destruct (cursorGet_spec key r (sy_storage s)) as (c0 & s0 & H0 & _ & Hc0 & _). rewrite Eg in H0. by injection H0 as <- <-. }
      pose proof (isCursor_Some _ _ Hcc) as [_ Hdec]. unfold number in Hn. rewrite Hcc in Hn.
      apply all_digits_forallb in Hdec as [Hdec _]. pose proof (dec_value_nonneg _ Hdec). lia.
    + intros Hx. congruence.
  - destruct (tail_number_spec (sy_log s)) as (T1 & T2 & T3). intros [= <-]. set (base := tail_number (sy_log s)) in *.
    rewrite (Z.max_r (sy_high s) base) by lia. split; cbn -[cursorTop]; rewrite ?Ht; try done.
    + destruct Hp as [Hw Hp]. split; [done|]. intros k e Hk. destruct (Hp k e Hk) as (? & ? & ?). split_and!; [done..|lia].
    + destruct (sy_flush s) as [[f j]|]; [|done]. destruct Hf as (? & Hb & [a Ha] & ? & ? & ? & ?). split_and!; try done.
      * intros e He. destruct (Hb e He). split; [done|lia].
      * exists a. by apply lookup_app_l_Some.
    + split_and!; [done|done|lia|]. intros q [= <-]. lia.
    + split_and!; [|done|intros _ e _ Hr; lia]. eexists. split; [by rewrite last_snoc|done].
    + intros Hx. congruence.
    + intros f j a Hj He Ha. rewrite Hj in Hf. destruct Hf as (_ & _ & [a' Ha'] & _).
      rewrite (lookup_app_l_Some _ _ _ _ Ha') in Ha. injection Ha as <-. by eapply Hc.
    + intros e He Hle. destruct (Hcur e He Hle) as [?|(a & ? & ?)]; [by left|]. right. exists a. split; [set_solver|done].
Qed.

(** ** The batcher's part *)
Lemma schedule_frame b d : disposed (schedule b d) = disposed b /\ epoch (schedule b d) = epoch b /\
  flushing (schedule b d) = flushing b /\ inFlightIds (schedule b d) = inFlightIds b /\ pending (schedule b d) = pending b /\
  (disposed b = true -> cancelTimer (schedule b d) = cancelTimer b).
Proof.
  unfold schedule. destruct (cancelTimer b) eqn:E; [by rewrite E|]. destruct (flushing b) eqn:Ef; cbn [orb]; [by rewrite E|].
  destruct (disposed b) eqn:Ed; [by rewrite E|]. by cbn.
Qed.

Lemma enqueue_frame b e : disposed b = false -> let b' := enqueue delayMs b e in
  disposed b' = false /\ epoch b' = epoch b /\ flushing b' = flushing b /\ inFlightIds b' = inFlightIds b /\
  (pending b' = pending b /\ (eventId e ∈ mapKeys (pending b) \/ eventId e ∈ inFlightIds b) \/
   pending b' = pending b ++ [(eventId e, e)] /\ eventId e ∉ mapKeys (pending b)).
Proof.
  intros Hd. unfold enqueue. rewrite Hd. cbn [orb]. destruct (mapGet (pending b) (eventId e)) as [x|] eqn:E.
  - cbv zeta. cbn [orb]. split_and!; try done. left. split; [done|]. left. apply mapGet_In in E.
    by apply (list_elem_of_fmap_2 fst) in E.
  - cbn [orb]. destruct (member (eventId e) (inFlightIds b)) eqn:Em.
    + cbv zeta. split_and!; try done. left. split; [done|]. right. by apply member_spec.
    + rewrite (mapSet_absent _ _ _ E). cbv zeta. set (b0 := Build_Batcher _ _ _ _ _ _ _).
      destruct (schedule_frame b0 delayMs) as (-> & -> & -> & -> & -> & _). split_and!; try done. right. split; [done|].
      by apply mapGet_None.
Qed.

Lemma deliver_sinv s s' : sinv s -> deliver s = Some s' -> sinv s'.
Proof.
  intros Hi. destruct (Hi) as [Hl [Hw Hp] Hf (H1 & H2 & H3 & H4) Hlow Hd Hc Hcur]. unfold deliver.
  destruct (sy_position s) as [p|] eqn:Epos; [|done]. cbn [mbind option_bind].
  destruct (nextAfter p (sy_log s)) as [e|] eqn:En; [|done]. cbn [mbind option_bind]. intros [= <-].
  destruct (nextAfter_spec (-1) p (sy_log s) e (proj2 Hl) En) as (He & Hpe & Hmin).
  assert (Hdis : disposed (sy_batcher s) = false) by (destruct (disposed (sy_batcher s)) eqn:E; [destruct (Hd eq_refl); congruence|done]).
  destruct (enqueue_frame (sy_batcher s) e Hdis) as (D1 & D2 & D3 & D4 & D5). destruct (H4 p eq_refl) as [Hp1 Hp2].
  set (b' := enqueue delayMs (sy_batcher s) e) in *.
  assert (Hcurr : forall f, current {| sy_log := sy_log s; sy_batcher := b'; sy_storage := sy_storage s; sy_flush := sy_flush s;
      sy_position := Some (event_number e); sy_admissions := sy_admissions s; sy_accepted := sy_accepted s; sy_low := sy_low s;
      sy_high := Z.max (sy_high s) (event_number e) |} f <-> current s f).
  { intros f. unfold current. cbn. by rewrite D2. }
  assert (Hmono : forall x, x ∈ map snd (pending (sy_batcher s)) -> x ∈ map snd (pending b')).
  { intros x Hx. destruct D5 as [[-> _]|[-> _]]; [done|]. rewrite map_app. set_solver. }
  split; cbn -[cursorTop]; try done.
  - destruct D5 as [[-> _]|[-> Hnew]].
    + split; [done|]. intros k x Hk. destruct (Hp k x Hk) as (? & ? & ?). split_and!; [done..|lia].
    + split; [unfold map_wf, mapKeys in *; rewrite map_app; apply NoDup_app; split_and!; [done|set_solver|apply NoDup_singleton]|].
      intros k x [Hk|Hk]%elem_of_app; [destruct (Hp k x Hk) as (? & ? & ?); split_and!; [done..|lia]|].
      apply list_elem_of_singleton in Hk as [= -> ->]. split_and!; [done..|lia].
  - rewrite D1, D2, D3, D4. destruct (sy_flush s) as [[f j]|]; [|done]. destruct Hf as (? & Hb & ? & ? & ? & ? & ?).
    split_and!; try done; [|by rewrite <- Hdis]. intros x Hx. destruct (Hb x Hx). split; [done|lia].
  - split_and!; [lia| |lia|intros q [= <-]; destruct (wf_number e); [|lia]; destruct Hl as [Hwf _]; rewrite Forall_forall in Hwf; auto].
    destruct (Z.max_spec (sy_high s) (event_number e)) as [[? ->]|[? ->]]; [|done]. right. by exists e.
  - destruct (sy_low s) as [l|]; [|by destruct Hlow as (_ & ? & _)]. destruct Hlow as (Hlast & Hlh & Htr). split_and!; [done|lia|].
    intros _ x Hx [Hx1 Hx2].
    assert (Hxe : event_number x <= sy_high s \/ x = e).
    { destruct (Z.le_gt_cases (event_number x) (sy_high s)); [by left|]. right. specialize (Hmin x Hx ltac:(lia)).
      eapply increasing_unique; [apply Hl|done|done|lia]. }
    destruct Hxe as [Hle| ->].
    { destruct (Htr Hdis x Hx ltac:(lia)) as [Ht|[(f & Hcf & Hin)|Ha]]; [left; auto| |by right; right].
      right. left. exists f. split; [by apply Hcurr|done]. }
    destruct D5 as [[Heq Hdup]|[Heq _]]; [|left; cbn [sy_batcher]; rewrite Heq, map_app; apply elem_of_app; right; left].
    destruct Hdup as [Hk|Hk].
    { left. cbn [sy_batcher]. rewrite Heq. unfold mapKeys in Hk. apply list_elem_of_In, in_map_iff in Hk as ((k & y) & Hky & Hin). cbn in Hky. subst k.
      apply list_elem_of_In in Hin. destruct (Hp _ _ Hin) as (Hid & Hy & _). assert (y = e) as -> by (by eapply log_same_id).
      by apply (list_elem_of_fmap_2 snd) in Hin. }
    right. left. destruct (sy_flush s) as [[f j]|] eqn:Ef; [|destruct Hf as [_ Hn]; rewrite Hn in Hk; set_solver].
    destruct Hf as (_ & Hb & _ & Hids & _ & _ & Hcase).
    destruct Hcase as [Hep|[Hnil|Hx']]; [|rewrite Hnil in Hk; set_solver|congruence].
    exists f. split; [apply Hcurr; exists j; by split|]. apply Hids in Hk.
    apply list_elem_of_In, in_map_iff in Hk as (y & Hid & Hin). apply list_elem_of_In in Hin. destruct (Hb y Hin) as [Hy _].
    assert (y = e) as <- by (by eapply log_same_id). done.
  - rewrite D1. done.
  - intros f j a Hj He' Ha x y Hx Hy. rewrite D2 in He'. by eapply Hc.
Qed.

Lemma foldl_setAdd l ids y : y ∈ foldl (fun s e => setAdd s (eventId e)) ids l <-> y ∈ ids \/ y ∈ map eventId l.
Proof.
  revert ids. induction l as [|e l IH]; intros ids; cbn [foldl map]; [set_solver|]. rewrite IH, setAdd_elem. set_solver.
Qed.

Definition cancelled (b : Batcher) : Batcher := {|
  cancelTimer := None; disposed := disposed b; epoch := epoch b; flushing := flushing b; inFlightIds := inFlightIds b;
  pending := pending b; retryAttempt := retryAttempt b |}.

Lemma flushStart_spec b : let '(b', f) := flushStart b in
  match f with
  | None => b' = cancelled b
  | Some f => flushing b = false /\ pending b <> [] /\ f = {| fs_batch := map snd (pending b); fs_epoch := epoch b |} /\
      b' = {| cancelTimer := None; disposed := disposed b; epoch := epoch b; flushing := true;
              inFlightIds := foldl (fun s e => setAdd s (eventId e)) (inFlightIds b) (map snd (pending b));
              pending := []; retryAttempt := retryAttempt b |}
  end.
Proof. destruct b as [t d ep [] ids [|p ps] r]; cbn; first [done|by split_and!]. Qed.

Lemma flush_sinv s s' : sinv s -> flush s = Some s' -> sinv s'.
Proof.
  intros Hi. pose proof Hi as [Hl [Hw Hp] Hf (H1 & H2 & H3 & H4) Hlow Hd Hc Hcur]. unfold flush.
  destruct (cancelTimer (sy_batcher s)) eqn:Et; [|done]. cbn [mbind option_bind].
  assert (Hnd : disposed (sy_batcher s) = false)
    by (destruct (disposed (sy_batcher s)) eqn:E; [destruct (Hd eq_refl) as (_ & ? & _); congruence|done]).
  pose proof (flushStart_spec (sy_batcher s)) as Hspec. destruct (flushStart (sy_batcher s)) as [b [f|]].
  2:{ subst b. intros [= <-]. split; try done. cbn. intros Hx. congruence. }
  destruct Hspec as (Efl & Epend & -> & ->). intros [= <-].
  destruct (sy_flush s) as [[f0 j0]|] eqn:Es; [destruct Hf; congruence|]. destruct Hf as [_ Hnil].
  set (batch := map snd (pending (sy_batcher s))).
  assert (Hbatch : forall e, e ∈ batch -> e ∈ sy_log s /\ event_number e <= sy_high s).
  { intros e He. apply list_elem_of_In, in_map_iff in He as ((k & x) & <- & Hin). apply list_elem_of_In in Hin. by destruct (Hp k x Hin). }
  destruct (sy_low s) as [l|] eqn:Elow; [|destruct Hlow as [Hn _]; congruence].
  destruct Hlow as ((a & Hlast & Hbase) & Hlh & Htr).
  assert (Htr' : forall e, e ∈ sy_log s -> l < event_number e <= sy_high s -> e ∈ batch \/ e ∈ sy_accepted s).
  { intros e He Hr. destruct (Htr Hnd e He Hr) as [?|[(f & (j & Hj & _) & _)|?]]; [by left|congruence|by right]. }
  split; cbn -[cursorTop]; try done.
  - split; [apply NoDup_nil_2|]. intros k e Hke. by apply elem_of_nil in Hke.
  - split_and!; try done.
    + rewrite <- last_lookup. by exists a.
    + intros id Hid. apply foldl_setAdd in Hid as [Hid|Hid]; [rewrite Hnil in Hid; by apply elem_of_nil in Hid|done].
    + by destruct (pending (sy_batcher s)).
    + by left.
  - split_and!; [by exists a|done|]. intros _ e He Hr. destruct (Htr' e He Hr) as [Hb|Ha]; [|by right; right].
    right. left. eexists. split; [by eexists|done].
  - intros Hx. congruence.
  - intros f j a' [= <- <-] _ Ha e x He Hx Hle. cbn [fs_batch] in *. rewrite <- last_lookup, Hlast in Ha. injection Ha as <-.
    destruct (Z.le_gt_cases (event_number e) l); [right; right; lia|]. destruct (Hbatch x Hx) as [_ Hxh].
    destruct (Htr' e He ltac:(lia)) as [?|?]; [by left|by right; left].
Qed.

Lemma highest_spec batch : batch <> [] -> Forall event_wf batch ->
  exists x, x ∈ batch /\ highestEventId batch = Ok (eventId x) /\ forall y, y ∈ batch -> event_number y <= event_number x.
Proof.
  unfold highestEventId. destruct batch as [|e0 batch]; [done|]. intros _ Hw.
  assert (Hgen : forall l h, event_wf h -> Forall event_wf l ->
    exists x, x ∈ h :: l /\
      foldR (fun highest event => e ← BigInt_of_string (eventId event); h ← BigInt_of_string highest;
               Ok (if h <? e then eventId event else highest)) (eventId h) l = Ok (eventId x) /\
      forall y, y ∈ h :: l -> event_number y <= event_number x).
  { induction l as [|e l IH]; intros h Hh Hl.
    - exists h. split_and!; [left|done|]. intros y ->%list_elem_of_singleton. done.
    - apply Forall_cons in Hl as [He Hl]. cbn [foldR]. rewrite !BigInt_of_digits by (apply He || apply Hh). cbn [mbind result_bind].
      fold (event_number e) (event_number h). destruct (Z.ltb_spec (event_number h) (event_number e)).
      + destruct (IH e He Hl) as (x & Hx & Hf & Hm). exists x. split_and!; [set_solver|done|].
        intros y [->|Hy]%elem_of_cons; [|auto]. specialize (Hm e ltac:(left)). lia.
      + destruct (IH h Hh Hl) as (x & Hx & Hf & Hm). exists x. split_and!; [set_solver|done|].
        intros y [->|[->|Hy]%elem_of_cons]%elem_of_cons; [apply Hm; left| |apply Hm; by right]. specialize (Hm h ltac:(left)). lia. }
  assert (He0 : event_wf e0) by (by apply Forall_cons in Hw as [? _]).
  destruct (Hgen (e0 :: batch) e0 He0 Hw) as (x & Hx & Hf & Hm).
  exists x. split_and!; [set_solver|done|]. intros y Hy. apply Hm. set_solver.
Qed.

(** The pending events after a failed batch: those of the batch and those that came since *)
Definition requeued (batch : list EarnRealtimeInvalidation) (pending : list (string * EarnRealtimeInvalidation)) :=
  foldl (fun m '(k, e) => mapSet m k e) (foldl (fun m e => mapSet m (eventId e) e) [] batch) pending.

Lemma requeued_spec batch p :
  map_wf (requeued batch p) /\
  (forall k e, (k, e) ∈ requeued batch p -> (k = eventId e /\ e ∈ batch) \/ (k, e) ∈ p) /\
  (forall k, k ∈ map eventId batch \/ k ∈ mapKeys p -> k ∈ mapKeys (requeued batch p)).
Proof.
  unfold requeued.
  assert (Hb : forall l m, map_wf m ->
    map_wf (foldl (fun m e => mapSet m (eventId e) e) m l) /\
    (forall k e, (k, e) ∈ foldl (fun m e => mapSet m (eventId e) e) m l -> (k = eventId e /\ e ∈ l) \/ (k, e) ∈ m) /\
    (forall k, k ∈ map eventId l \/ k ∈ mapKeys m -> k ∈ mapKeys (foldl (fun m e => mapSet m (eventId e) e) m l))).
  { induction l as [|x l IH]; intros m Hm; cbn [foldl map]; [split_and!; [done|by right|set_solver]|].
    destruct (IH (mapSet m (eventId x) x) ltac:(auto with jsmap)) as (I1 & I2 & I3). split_and!; [done| |].
    - intros k e He. destruct (I2 k e He) as [[? ?]|Hin]; [left; split; [done|by right]|].
      apply elem_of_mapSet in Hin as [[= -> ->]|?]; [left; split; [done|left]|by right].
    - intros k Hk. apply I3. rewrite mapSet_keys_elem. set_solver. }
  destruct (Hb batch [] ltac:(apply NoDup_nil_2)) as (B1 & B2 & B3). set (m0 := foldl _ [] batch) in *. clearbody m0. clear Hb.
  assert (Hp : forall l m, map_wf m ->
    map_wf (foldl (fun m '(k, e) => mapSet m k e) m l) /\
    (forall k e, (k, e) ∈ foldl (fun m '(k, e) => mapSet m k e) m l -> (k, e) ∈ l \/ (k, e) ∈ m) /\
    (forall k, k ∈ mapKeys l \/ k ∈ mapKeys m -> k ∈ mapKeys (foldl (fun m '((k, e) : string * EarnRealtimeInvalidation) => mapSet m k e) m l))).
  { induction l as [|[kx x] l IH]; intros m Hm; cbn [foldl]; [split_and!; [done|by right|]; unfold mapKeys; cbn [map]; set_solver|].
    destruct (IH (mapSet m kx x) ltac:(auto with jsmap)) as (I1 & I2 & I3). split_and!; [done| |].
    - intros k e He. destruct (I2 k e He) as [?|Hin]; [left; by right|].
      apply elem_of_mapSet in Hin as [[= -> ->]|?]; [left; left|by right].
    - intros k Hk. apply I3. rewrite mapSet_keys_elem. unfold mapKeys in *. cbn [map fst] in Hk. set_solver. }
  destruct (Hp p m0 B1) as (P1 & P2 & P3). split_and!; [done| |].
  - intros k e He. destruct (P2 k e He) as [?|Hin]; [by right|]. destruct (B2 k e Hin) as [?|?]; [by left|set_solver].
  - intros k [Hk|Hk]; apply P3; [right; apply B3; by left|by left].
Qed.

(** What the end of a flush leaves *)
Lemma flushEnd_spec b f o : fs_batch f <> [] -> Forall event_wf (fs_batch f) ->
  (forall id, id ∈ inFlightIds b -> id ∈ map eventId (fs_batch f)) ->
  let '(b', ack) := flushEnd delayMs b f o in
  disposed b' = disposed b /\ epoch b' = epoch b /\ flushing b' = false /\ inFlightIds b' = [] /\
  (disposed b = true -> cancelTimer b' = cancelTimer b) /\
  if is_ok o
  then pending b' = pending b /\ exists x, x ∈ fs_batch f /\ (forall y, y ∈ fs_batch f -> event_number y <= event_number x) /\
         ack = if fs_epoch f =? epoch b then Some (eventId x) else None
  else ack = None /\ pending b' = if fs_epoch f =? epoch b then requeued (fs_batch f) (pending b) else pending b.
Proof.
  intros Hne Hw Hids. destruct (highest_spec _ Hne Hw) as (x & Hx & Hh & Hm). unfold flushEnd.
  assert (Hnil : List.filter (fun id => negb (member id (map eventId (fs_batch f)))) (inFlightIds b) = []).
  { clear -Hids. induction (inFlightIds b) as [|i l IH]; cbn [List.filter]; [done|].
    rewrite (proj2 (member_spec i (map eventId (fs_batch f)))) by (apply Hids; left). cbn [negb]. apply IH. intros id Hid. apply Hids. by right. }
  assert (Hout : forall (b0 : Batcher) d, disposed b0 = disposed b -> epoch b0 = epoch b -> flushing b0 = false -> inFlightIds b0 = [] ->
    cancelTimer b0 = cancelTimer b ->
    let b' := if negb (disposed b0) && match pending b0 with [] => false | _ => true end then schedule b0 d else b0 in
    disposed b' = disposed b /\ epoch b' = epoch b /\ flushing b' = false /\ inFlightIds b' = [] /\
    (disposed b = true -> cancelTimer b' = cancelTimer b) /\ pending b' = pending b0).
  { intros b0 d E1 E2 E3 E4 E5. destruct (schedule_frame b0 d) as (S1 & S2 & S3 & S4 & S5 & S6). cbv zeta.
    destruct (_ && _); [|by rewrite E1, E2, E3, E4, E5]. rewrite S1, S2, S3, S4, S5, E1, E2, E3, E4. split_and!; try done.
    intros Hdis. rewrite S6, E5; congruence. }
  destruct o as [[]|err]; cbn [mbind result_bind is_ok].
  - rewrite Hh. cbv zeta. match goal with |- context [schedule ?b0 ?d] => destruct (Hout b0 d) as (? & ? & ? & ? & ? & Hpend); try done end.
    split_and!; try done. by exists x.
  - cbv zeta. destruct (fs_epoch f =? epoch b); match goal with |- context [schedule ?b0 ?d] =>
      destruct (Hout b0 d) as (? & ? & ? & ? & ? & Hpend); try done end; by split_and!.
Qed.

Lemma settleBatch_sinv s o r w s' : sinv s -> settleBatch o r w s = Some s' -> sinv s'.
Proof.
  intros Hi. pose proof Hi as [Hl [Hw Hp] Hf (H1 & H2 & H3 & H4) Hlow Hd Hc Hcur]. unfold settleBatch.
  destruct (sy_flush s) as [[f j]|] eqn:Es; [|done]. cbn [mbind option_bind].
  destruct (sy_admissions s !! j) as [a|] eqn:Ea; [|done]. cbn [mbind option_bind].
  destruct (is_ok o && negb _) eqn:Eadm; [done|]. destruct Hf as (_ & Hb & _ & Hids & _ & Hne & _).
  assert (Hwf : Forall event_wf (fs_batch f)).
  { apply Forall_forall. intros e He. destruct Hl as [Hlw _]. rewrite Forall_forall in Hlw. apply Hlw. by destruct (Hb e He). }
  pose proof (flushEnd_spec (sy_batcher s) f o Hne Hwf Hids) as Hspec.
  destruct (flushEnd delayMs (sy_batcher s) f o) as [b ack]. destruct Hspec as (D1 & D2 & D3 & D4 & D5 & Hout).
  set (accepted' := if is_ok o then sy_accepted s ++ fs_batch f else sy_accepted s).
  assert (Hacc : forall e, e ∈ sy_accepted s -> e ∈ accepted') by (intros e He; unfold accepted'; destruct (is_ok o); set_solver).
  (* the new pending events *)
  assert (Hpend : map_wf (pending b) /\ forall k e, (k, e) ∈ pending b -> k = eventId e /\ e ∈ sy_log s /\ event_number e <= sy_high s).
  { destruct (is_ok o); [destruct Hout as [-> _]; done|]. destruct Hout as [_ ->]. destruct (fs_epoch f =? _); [|done].
    destruct (requeued_spec (fs_batch f) (pending (sy_batcher s))) as (Q1 & Q2 & _). split; [done|]. intros k e Hk.
    destruct (Q2 k e Hk) as [[-> Hin]|Hin]; [|auto]. destruct (Hb e Hin). by split_and!. }
  assert (Hkeep : forall e, e ∈ sy_log s -> tracked s e -> e ∈ map snd (pending b) \/ e ∈ accepted').
  { intros e Hlog Ht. destruct (is_ok o) eqn:Eo.
    - destruct Hout as [-> _]. destruct Ht as [?|[(f' & (j' & Hj' & _) & Hin)|?]]; [by left| |right; auto].
      rewrite Es in Hj'. injection Hj' as <- <-. right. unfold accepted'. set_solver.
    - destruct Hout as [_ Hpb]. destruct Ht as [Hin|[(f' & (j' & Hj' & He') & Hin)|?]]; [| |by right].
      + left. rewrite Hpb. destruct (fs_epoch f =? epoch (sy_batcher s)); [|done].
        destruct (requeued_spec (fs_batch f) (pending (sy_batcher s))) as (_ & Q2 & Q3).
        apply list_elem_of_In, in_map_iff in Hin as ((k & x) & <- & Hin). apply list_elem_of_In in Hin. cbn [snd].
        destruct (Hp k x Hin) as (-> & Hx & _).
        assert (Hk : eventId x ∈ mapKeys (pending b)).
        { rewrite Hpb. apply Q3. right. by apply (list_elem_of_fmap_2 fst) in Hin. }
        apply list_elem_of_In, in_map_iff in Hk as ((k & y) & Hky & Hy). cbn in Hky. subst k. apply list_elem_of_In in Hy.
        destruct Hpend as [_ Hpe]. destruct (Hpe _ _ Hy) as (Hid & Hyl & _). assert (x = y) as -> by (by eapply log_same_id).
        rewrite <- Hpb. by apply (list_elem_of_fmap_2 snd) in Hy.
      + left. rewrite Es in Hj'. injection Hj' as <- <-. rewrite He', Z.eqb_refl in Hpb.
        destruct (requeued_spec (fs_batch f) (pending (sy_batcher s))) as (_ & Q2 & Q3).
        assert (Hk : eventId e ∈ mapKeys (pending b)).
        { rewrite Hpb. apply Q3. left. by apply (list_elem_of_fmap_2 eventId). }
        apply list_elem_of_In, in_map_iff in Hk as ((k & y) & Hky & Hy). cbn in Hky. subst k. apply list_elem_of_In in Hy.
        destruct Hpend as [_ Hpe]. destruct (Hpe _ _ Hy) as (Hid & Hyl & _). assert (e = y) as -> by (by eapply log_same_id).
        by apply (list_elem_of_fmap_2 snd) in Hy. }
  (* the new cursor *)
  assert (Hstore : forall storage', match ack with
      | Some id => match cursorAcknowledge key r w id (sy_storage s) with Ok st => Some st | Throw _ => None end
      | None => Some (sy_storage s) end = Some storage' ->
    cursorTop storage' <= sy_high s /\ (sy_low s = None -> cursorTop storage' = -1) /\
    forall e, e ∈ sy_log s -> event_number e <= cursorTop storage' ->
      e ∈ accepted' \/ exists a, a ∈ sy_admissions s /\ ad_status a = Taken /\ event_number e <= ad_base a).
  { assert (Hold : forall e, e ∈ sy_log s -> event_number e <= cursorTop (sy_storage s) ->
      e ∈ accepted' \/ exists a, a ∈ sy_admissions s /\ ad_status a = Taken /\ event_number e <= ad_base a).
    { intros e He Hle. destruct (Hcur e He Hle) as [?|?]; [left; auto|by right]. }
    destruct ack as [id|]; intros storage'; [|intros [= <-]; split_and!; [done| |done]].
    2:{ intros Hn. rewrite Hn in Hlow. by destruct Hlow as (_ & _ & ? & _). }
    destruct (cursorAcknowledge key r w id (sy_storage s)) as [st|] eqn:Eack; [|done]. intros [= <-].
    apply acknowledge_top in Eack. destruct (is_ok o) eqn:Eo; [|by destruct Hout]. destruct Hout as (_ & x & Hx & Hmax & Hid).
    destruct (Z.eqb_spec (fs_epoch f) (epoch (sy_batcher s))) as [Hep|]; [|done]. injection Hid as ->.
    destruct (Hb x Hx) as [Hxl Hxh]. assert (Hxw : event_wf x) by (rewrite Forall_forall in Hwf; auto).
    rewrite (proj2 (wf_number x Hxw)) in Eack. split_and!; [lia| |].
    - intros Hn. rewrite Hn in Hlow. destruct Hlow as (_ & _ & _ & Hno). destruct (Hno f). by exists j.
    - intros e He Hle. destruct (Z.le_gt_cases (event_number e) (cursorTop (sy_storage s))); [by apply Hold|].
      destruct (Hc f j a eq_refl Hep Ea e x He Hx ltac:(lia)) as [Hin|[Hin|Hbase]].
      + left. unfold accepted'. set_solver.
      + left. auto.
      + right. exists a. split; [by eapply list_elem_of_lookup_2|]. split; [|done]. by destruct (ad_status a). }
  destruct (match ack with Some _ => _ | None => _ end) as [storage'|]; [|done]. cbn [mbind option_bind]. intros [= <-].
  destruct (Hstore storage' eq_refl) as (S1 & S2 & S3). split; cbn -[cursorTop]; try done.
  - destruct (sy_low s) as [l|] eqn:Elow.
    + destruct Hlow as (? & ? & Htr). split_and!; [done..|]. rewrite D1. intros Hdis e He Hr.
      destruct (Hkeep e He (Htr Hdis e He Hr)) as [?|?]; [by left|by right; right].
    + destruct Hlow as (Hn1 & Hn2 & _ & Hno). split_and!; [|done|auto|].
      * destruct (is_ok o); [destruct Hout as [-> _]; done|]. destruct Hout as [_ ->].
        destruct (Z.eqb_spec (fs_epoch f) (epoch (sy_batcher s))); [|done]. destruct (Hno f). by exists j.
      * intros f' (j' & Hj' & _). done.
  - rewrite D1. intros Hdis. destruct (Hd Hdis) as (? & ? & _). split_and!; [done|by rewrite D5|]. intros f' (j' & Hj' & _). done.
Qed.

Lemma settleAdmission_sinv s j ok s' : sinv s -> settleAdmission j ok s = Some s' -> sinv s'.
Proof.
  intros [Hl Hp Hf Hh Hlow Hd Hc Hcur]. unfold settleAdmission.
  destruct (sy_admissions s !! j) as [a|] eqn:Ea; [|done]. cbn [mbind option_bind]. destruct (ad_status a) eqn:Est; [|done..].
  intros [= <-]. set (a' := {| ad_base := ad_base a; ad_status := if ok then Taken else Refused |}).
  assert (Hlook : forall i x, <[j:=a']> (sy_admissions s) !! i = Some x ->
    exists y, sy_admissions s !! i = Some y /\ ad_base y = ad_base x).
  { intros i x Hx. rewrite list_lookup_insert_Some in Hx. destruct Hx as [(<- & <- & _)|[_ Hx]]; [by exists a|by exists x]. }
  split; cbn -[cursorTop]; try done.
  - destruct (sy_flush s) as [[f i]|]; [|done]. destruct Hf as (? & ? & Hsome & ? & ? & ? & ?). split_and!; try done.
    apply lookup_lt_is_Some. rewrite length_insert. by apply lookup_lt_is_Some.
  - destruct (sy_low s) as [l|]; [|done]. destruct Hlow as ((x & Hx & Hb) & ? & ?). split_and!; [|done..].
    destruct (last (<[j:=a']> (sy_admissions s))) as [y|] eqn:Ey.
    + exists y. split; [done|]. rewrite last_lookup, length_insert in Ey. destruct (Hlook _ _ Ey) as (z & Hz & <-).
      rewrite last_lookup in Hx. by simplify_eq.
    + exfalso. apply last_None in Ey. apply (f_equal length) in Ey. rewrite length_insert in Ey. by destruct (sy_admissions s).
  - intros f i x Hi He Hx. destruct (Hlook i x Hx) as (y & Hy & <-). by eapply Hc.
  - intros e He Hle. destruct (Hcur e He Hle) as [?|(x & Hx & Hadm & Hb)]; [by left|]. right. exists x. split; [|done].
    apply list_elem_of_lookup in Hx as [i Hi]. apply list_elem_of_lookup. exists i. apply list_lookup_insert_Some. right.
    split; [|done]. intros ->. rewrite Hi in Ea. injection Ea as ->. congruence.
Qed.

Lemma system_reachable_inv log st s : log_wf log -> storage_ok log st -> rtc system_step (system_initial log st) s -> sinv s.
Proof.
  intros Hl Hs H. assert (Hi : sinv (system_initial log st)) by (by apply initial_sinv).
  revert Hi. induction H as [|s0 s1 s2 Hstep _ IH]; intros Hi; [done|]. apply IH. destruct Hstep.
  - by apply publish_sinv.
  - by eapply connect_sinv.
  - by eapply deliver_sinv.
  - by apply disconnect_sinv.
  - by eapply resync_sinv.
  - by eapply flush_sinv.
  - by eapply settleBatch_sinv.
  - by eapply settleAdmission_sinv.
  - by apply unmount_sinv.
Qed.

(** C19. No event is skipped. Whatever the order of events, reconnections, failures of
    reads and of browser storage, resynchronisations and unmounting, every event of the
    server's log up to the cursor a stream would resume from was in an accepted batch or
    covered by a completed full read. *)
Theorem cursor_never_skips log st s r c st' :
  log_wf log -> storage_ok log st -> rtc system_step (system_initial log st) s ->
  cursorGet key r (sy_storage s) = Ok (c, st') ->
  forall e, e ∈ sy_log s -> event_number e <= number c -> settled s e.
Proof.
  intros Hl Hs Hr Hg e He Hle. apply (J_cursor _ (system_reachable_inv _ _ _ Hl Hs Hr)); [done|].
  destruct (get_top _ _ _ _ Hg). lia.
Qed.

(** A batcher with waiting events has a timer, unless a batch is under way. *)
Definition armed (b : Batcher) : Prop :=
  disposed b = false -> flushing b = false -> pending b <> [] -> cancelTimer b <> None.

Lemma schedule_armed b d : armed (schedule b d).
Proof.
  unfold armed, schedule. destruct (cancelTimer b) eqn:E; [by rewrite E|]. destruct (flushing b) eqn:Ef; cbn [orb]; [congruence|].
  destruct (disposed b) eqn:Ed; [congruence|]. done.
Qed.

Lemma step_armed s s' : system_step s s' -> armed (sy_batcher s) -> armed (sy_batcher s').
Proof.
  destruct 1 as [s e|s r s' H|s s' H|s|s r s' H|s s' H|s o r w s' H|s j k s' H|s]; intros Ha; try exact Ha.
  - unfold connect in H. destruct (disposed _); [done|]. destruct (sy_position s); [done|].
    destruct (cursorGet _ _ _) as [[[c|] st]|]; [..|done]; injection H as <-; exact Ha.
  - unfold deliver in H. destruct (sy_position s); [|done]. cbn [mbind option_bind] in H. destruct (nextAfter _ _); [|done].
    cbn [mbind option_bind] in H. injection H as <-. cbn [sy_batcher]. unfold enqueue. destruct (_ || _); [exact Ha|apply schedule_armed].
  - unfold resync in H. destruct (sy_position s); [|done]. injection H as <-. by intros _ _ [].
  - unfold flush in H. destruct (cancelTimer _); [|done]. cbn [mbind option_bind] in H.
    pose proof (flushStart_spec (sy_batcher s)) as Hspec. destruct (flushStart (sy_batcher s)) as [b [f|]] eqn:Ef; injection H as <-.
    + destruct Hspec as (_ & _ & _ & ->). by intros _ [=].
    + subst b. cbn [sy_batcher]. unfold flushStart in Ef. cbn [flushing pending] in Ef.
      destruct (flushing (sy_batcher s)) eqn:Efl; [intros _ Hx; cbn in Hx; congruence|].
      destruct (pending (sy_batcher s)) eqn:Ep; [|done]. intros _ _ Hx. by cbn in Hx.
  - unfold settleBatch in H. destruct (sy_flush s) as [[f j]|]; [|done]. cbn [mbind option_bind] in H.
    destruct (sy_admissions s !! j); [|done]. cbn [mbind option_bind] in H. destruct (_ && _); [done|].
    destruct (flushEnd delayMs (sy_batcher s) f o) as [b ack] eqn:Ef. destruct (match ack with Some _ => _ | None => _ end); [|done].
    injection H as <-. cbn [sy_batcher]. unfold flushEnd in Ef. destruct (match _ with Ok _ => _ | Throw _ => _ end) as [b' ack'].
    injection Ef as <- _. destruct (negb (disposed b') && _) eqn:Eg; [apply schedule_armed|]. intros Hd _ Hp. rewrite Hd in Eg.
    by destruct (pending b').
  - unfold settleAdmission in H. destruct (sy_admissions s !! j) as [a|]; [|done]. cbn [mbind option_bind] in H.
    destruct (ad_status a); [|done..]. injection H as <-. exact Ha.
  - by intros [=].
Qed.

(** Received events are not lost and not left lying: while the client is mounted,
    every event of the log between the last admission and the furthest event received waits in
    the batcher, is under way in a batch, or was accepted; and whenever events wait, a
    timer or a batch under way will take them up. *)
Theorem received_tracked log st s l :
  log_wf log -> storage_ok log st -> rtc system_step (system_initial log st) s ->
  disposed (sy_batcher s) = false -> sy_low s = Some l ->
  (forall e, e ∈ sy_log s -> l < event_number e <= sy_high s -> tracked s e) /\
  (pending (sy_batcher s) <> [] -> cancelTimer (sy_batcher s) <> None \/ sy_flush s <> None).
Proof.
  intros Hl Hs Hr Hd Hlow. pose proof (system_reachable_inv _ _ _ Hl Hs Hr) as Hi. pose proof (J_low _ Hi) as H. rewrite Hlow in H.
  destruct H as (_ & _ & H). split; [by apply H|]. intros Hp.
  assert (Ha : armed (sy_batcher s)).
  { assert (H0 : armed (sy_batcher (system_initial log st))) by (by intros _ _ []).
    clear -Hr H0. induction Hr as [|s0 s1 s2 Hstep _ IH]; [done|]. apply IH. by eapply step_armed. }
  pose proof (J_flush _ Hi) as Hf. destruct (sy_flush s); [by right|]. left. by apply Ha; [|destruct Hf|].
Qed.
End System.

(** ** Witnesses *)
Module RealtimeWitness.
Import RealtimeEventsWitness.

Definition cursor_key : string := "cursor".
Definition e5 : EarnRealtimeInvalidation := event "5" EVENT.position None.
Definition e7 : EarnRealtimeInvalidation := event "7" EVENT.transaction None.
Definition e9 : EarnRealtimeInvalidation := event "9" EVENT.rebalance None.

(** The page starts with cursor 5; its storage can be read and written. *)
Definition stored : Storage :=
  {| memory := []; tombstones := []; primary := Some [(cursor_key, "5"%string)] |}.
Definition s0 : System := system_initial cursor_key [e5; e7] stored.

Definition or_else (s : System) (o : option System) : System := default s o.
Definition s1 : System := or_else s0 (connect cursor_key false s0).
Definition s2 : System := or_else s1 (deliver 150 s1).
Definition s3 : System := or_else s2 (flush s2).
Definition s4 : System := publish e9 s3.
Definition s5 : System := or_else s4 (deliver 150 s4).
Definition s6 : System := or_else s5 (settleBatch cursor_key 150 (Ok tt) false true s5).

Lemma log_ok : log_wf [e5; e7].
Proof. split; [repeat first [apply Forall_nil_2|apply Forall_cons_2]; by split_and!|by vm_compute]. Qed.

Lemma stored_ok : storage_ok cursor_key [e5; e7] stored.
Proof. right. exists e5. split; [left|by vm_compute]. Qed.

Lemma s6_reachable : rtc (system_step cursor_key 150) s0 s6.
Proof.
  eapply rtc_l; [apply (sys_connect cursor_key 150 s0 false s1); vm_compute; reflexivity|].
  eapply rtc_l; [apply (sys_deliver cursor_key 150 s1 s2); vm_compute; reflexivity|].
  eapply rtc_l; [apply (sys_flush cursor_key 150 s2 s3); vm_compute; reflexivity|].
  eapply rtc_l; [apply (sys_publish cursor_key 150 s3 e9); [by split_and!|by vm_compute]|].
  eapply rtc_l; [apply (sys_deliver cursor_key 150 s4 s5); vm_compute; reflexivity|].
  eapply rtc_l; [apply (sys_settle cursor_key 150 s5 (Ok tt) false true s6); vm_compute; reflexivity|]. apply rtc_refl.
Qed.

(** Event 7 was accepted and acknowledged although the storage refused the write. *)
Lemma cursor_never_skips_witness :
  exists c st', cursorGet cursor_key false (sy_storage s6) = Ok (c, st') /\ number c = 7 /\ settled s6 e7.
Proof.
  destruct (cursorGet cursor_key false (sy_storage s6)) as [[c st']|] eqn:E; [|by vm_compute in E].
  exists c, st'. split; [done|]. assert (Hc : number c = 7) by (vm_compute in E; injection E as <- _; reflexivity).
  split; [exact Hc|].
  eapply (cursor_never_skips cursor_key 150 [e5; e7] stored s6 false c st' log_ok stored_ok s6_reachable E).
  - right. left.
  - rewrite Hc. vm_compute. discriminate.
Defined.

(** Event 9 arrived during the batch and waits. *)
Lemma received_tracked_witness :
  tracked s6 e9 /\ (pending (sy_batcher s6) <> [] -> cancelTimer (sy_batcher s6) <> None \/ sy_flush s6 <> None).
Proof.
  destruct (received_tracked cursor_key 150 [e5; e7] stored s6 5 log_ok stored_ok s6_reachable) as [H1 H2].
  - by vm_compute.
  - by vm_compute.
  - split; [|exact H2]. apply H1.
    + right. right. left.
    + vm_compute. split; [reflexivity|discriminate].
Defined.
End RealtimeWitness.
