(* ===== verification/RefreshPlan.v ===== *)
(** Refreshing the smart-account views
    (web/apps/web/src/features/smart-accounts/refresh-plan.ts): which reads may commit
    (orders and generations), which are shared ([SmartAccountRefreshSingleflight]), and which
    a confirmed mutation calls for.

    Asynchronous code is split where it awaits. Objects that are shared and changed in
    place, the flights, live in a store and are referred to by number. *)
From S2P Require Import Prelude JsString JsMap.

(** ** Latest started wins *)
Record Token := { tk_key : string; tk_order : Z }.
Record Order := { latest : list (string * Z); nextOrder : Z }.

Definition newOrder : Order := {| latest := []; nextOrder := 0 |}.

Definition begin (o : Order) (group : string) : Token * Order :=
  let next := nextOrder o + 1 in
  ({| tk_key := group; tk_order := next |}, {| latest := mapSet (latest o) group next; nextOrder := next |}).

Definition clear (o : Order) : Order := {| latest := []; nextOrder := nextOrder o |}.

Definition isCurrent (o : Order) (token : Token) : bool :=
  match mapGet (latest o) (tk_key token) with Some order => order =? tk_order token | None => false end.

(** [SmartAccountReadModelLoadOrder] is the same over cache keys, and can be finished. *)
Definition loadBegin (o : Order) (cacheKey : string) : Token * Order := begin o cacheKey.
Definition loadIsCurrent (o : Order) (token : Token) : bool := isCurrent o token.
Definition loadFinish (o : Order) (token : Token) : Order :=
  if loadIsCurrent o token then {| latest := mapDelete (latest o) (tk_key token); nextOrder := nextOrder o |} else o.

Inductive order_op := Begin (key : string) | Finish (token : Token) | Clear.

Definition runOrder (o : Order) (op : order_op) : Order :=
  match op with
  | Begin key => snd (begin o key)
  | Finish token => loadFinish o token
  | Clear => clear o
  end.

(** No order in use exceeds the counter. *)
Definition order_wf (o : Order) : Prop := forall k n, mapGet (latest o) k = Some n -> n <= nextOrder o.

Lemma runOrder_wf o op : order_wf o -> order_wf (runOrder o op) /\ nextOrder o <= nextOrder (runOrder o op).
Proof.
  intros Hw. destruct op as [key|t|]; cbn [runOrder].
  - split; [|cbn; lia]. intros k n. cbn. rewrite mapGet_set. destruct (String.eqb key k); [intros [= <-]; lia|].
    intros H. specialize (Hw k n H). lia.
  - unfold loadFinish. destruct (loadIsCurrent o t); [|done]. split; [|done]. intros k n. cbn. rewrite mapGet_delete.
    destruct (String.eqb _ _); [done|apply Hw].
  - by split.
Qed.

(** An operation that ends the currency of [token] *)
Definition supersedes (token : Token) (op : order_op) : bool :=
  match op with
  | Begin key => String.eqb key (tk_key token)
  | Finish t => String.eqb (tk_key t) (tk_key token) && (tk_order t =? tk_order token)
  | Clear => true
  end.

Lemma current_step o op token : order_wf o -> tk_order token <= nextOrder o ->
  isCurrent (runOrder o op) token = isCurrent o token && negb (supersedes token op).
Proof.
  intros Hw Hle. unfold isCurrent. destruct op as [key|t|]; cbn [runOrder supersedes].
  - cbn. rewrite mapGet_set. destruct (String.eqb_spec key (tk_key token)) as [->|]; [|by rewrite andb_true_r].
    rewrite andb_false_r. lia.
  - unfold loadFinish. destruct (String.eqb_spec (tk_key t) (tk_key token)) as [E|E].
    + unfold loadIsCurrent, isCurrent. rewrite E. cbn [andb]. destruct (mapGet (latest o) (tk_key token)) as [n|] eqn:Eg.
      * destruct (Z.eqb_spec n (tk_order t)); cbn [latest]; rewrite ?mapGet_delete, ?String.eqb_refl, ?Eg.
        -- subst n. by destruct (tk_order t =? tk_order token).
        -- destruct (Z.eqb_spec n (tk_order token)), (Z.eqb_spec (tk_order t) (tk_order token)); try done; congruence.
      * by rewrite Eg.
    + cbn [andb negb]. rewrite andb_true_r. destruct (loadIsCurrent o t); [|done]. cbn [latest].
      rewrite mapGet_delete. by destruct (String.eqb_spec (tk_key t) (tk_key token)).
  - cbn. by rewrite andb_false_r.
Qed.

(** Only the latest started read may commit: a token stays current exactly until a later
    read of its group begins, it is finished itself, or the order is cleared, whatever
    happened before and whatever else happens. *)
Theorem latest_started_wins before key after :
  let o := foldl runOrder newOrder before in
  let '(token, o1) := begin o key in
  isCurrent (foldl runOrder o1 after) token = forallb (fun op => negb (supersedes token op)) after.
Proof.
  assert (Hw : forall ops o, order_wf o -> order_wf (foldl runOrder o ops)).
  { induction ops as [|op ops IH]; intros o Ho; cbn [foldl]; [done|]. apply IH. by apply runOrder_wf. }
  cbv zeta. set (o := foldl runOrder newOrder before). assert (Ho : order_wf o) by (by apply Hw; intros k n).
  destruct (begin o key) as [token o1] eqn:Eb. injection Eb as <- <-. set (token := Build_Token _ _). set (o1 := Build_Order _ _).
  assert (H1 : order_wf o1) by (apply (runOrder_wf o (Begin key) Ho)).
  assert (Hc : isCurrent o1 token = true) by (unfold isCurrent; cbn; rewrite mapGet_set, String.eqb_refl; lia).
  assert (Hle : tk_order token <= nextOrder o1) by done. clearbody o1 token.
  enough (isCurrent (foldl runOrder o1 after) token = isCurrent o1 token && forallb (fun op => negb (supersedes token op)) after) as ->
    by (by rewrite Hc).
  clear Hc. revert o1 H1 Hle. induction after as [|op ops IH]; intros o1 H1 Hle; cbn [foldl forallb]; [by rewrite andb_true_r|].
  destruct (runOrder_wf o1 op H1). rewrite IH by (done || lia). rewrite current_step by done. by rewrite andb_assoc.
Qed.

(** ** Generations of a scope *)
Record Snapshot := { generation : Z; snapshotScope : string }.

Definition updateScope (current : Snapshot) (scope : string) : Snapshot :=
  if String.eqb (snapshotScope current) scope then current
  else {| generation := generation current + 1; snapshotScope := scope |}.

Definition scopeIsCurrent (current snapshot : Snapshot) : bool :=
  String.eqb (snapshotScope current) (snapshotScope snapshot) && (generation current =? generation snapshot).

(** Work captured under an identity is current exactly as long as the identity never
    changed: after A, B, A the work of the first A is not current again. *)
Theorem scope_never_returns start later :
  scopeIsCurrent (foldl updateScope start later) start = forallb (String.eqb (snapshotScope start)) later.
Proof.
  assert (Hmono : forall l s, generation s <= generation (foldl updateScope s l)).
  { intros l. induction l as [|x l IH]; intros s; cbn [foldl]; [lia|]. etrans; [|apply IH]. unfold updateScope.
    destruct (String.eqb _ _); cbn; lia. }
  induction later as [|x l IH]; cbn [foldl forallb].
  - unfold scopeIsCurrent. by rewrite String.eqb_refl, Z.eqb_refl.
  - unfold updateScope at 2. destruct (String.eqb_spec (snapshotScope start) x) as [E|E]; [exact IH|].
    cbn [andb]. unfold scopeIsCurrent.
    pose proof (Hmono l {| generation := generation start + 1; snapshotScope := x |}) as H. cbn [generation] in H.
    rewrite (proj2 (Z.eqb_neq _ _)) by lia. by rewrite andb_false_r.
Qed.

(** The error shown: the first of these groups that has one *)
Record SmartAccountScopedErrors := {
  err_base : option string; err_bestApyReserves : option string; err_policies : option string;
  err_proposals : option string; err_vaults : option string }.

Definition orElse (a b : option string) : option string := match a with Some _ => a | None => b end.

Definition resolveSmartAccountRefreshError (errors : SmartAccountScopedErrors) : option string :=
  orElse (err_base errors) (orElse (err_vaults errors) (orElse (err_policies errors)
    (orElse (err_proposals errors) (err_bestApyReserves errors)))).

(** ** Reusing a read model *)
Inductive Reuse (T P : Type) :=
| Completed (result : T) (ttlMs : Z)
| InFlight (promise : P)
| LoadAgain (expiredCompletedResult : bool).
Arguments Completed {T P}.
Arguments InFlight {T P}.
Arguments LoadAgain {T P}.

Definition resolveSmartAccountReadModelReuse {T P} (bypassCache : bool) (cachedResult : option (Z * T))
    (existingLoad : option P) (now : Z) : Reuse T P :=
  if bypassCache then LoadAgain false
  else match existingLoad with
       | Some promise => InFlight promise
       | None =>
           match cachedResult with
           | Some (expiresAt, result) => if now <? expiresAt then Completed result (expiresAt - now) else LoadAgain true
           | None => LoadAgain false
           end
       end.

(** ** Sharing reads *)
(** Where a flight is: created, reading ([started]), over but still in the map, gone *)
Inductive FlightPhase := Queued | Loading | Ended | Gone.

(** [fl_callers] are the calls that got the flight's promise, each with whether a read began after it. *)
Record SmartAccountRefreshFlight := {
  fl_key : string;
  fl_dirty : bool;
  fl_loader : nat;
  fl_phase : FlightPhase;
  fl_callers : list (nat * bool);
}.

Record Singleflight := {
  flights : list (string * nat);
  store : list SmartAccountRefreshFlight;
  nextCaller : nat;
  settledCalls : list (nat * bool);
}.

Definition newSingleflight : Singleflight := {| flights := []; store := []; nextCaller := 0; settledCalls := [] |}.

Definition withFlight (s : Singleflight) (id : nat) (f : SmartAccountRefreshFlight) : Singleflight :=
  {| flights := flights s; store := <[id:=f]> (store s); nextCaller := nextCaller s; settledCalls := settledCalls s |}.

(** [run(key, loader)] *)
Definition runShared (s : Singleflight) (key : string) (loader : nat) : option Singleflight :=
  let caller := nextCaller s in
  match mapGet (flights s) key with
  | Some id =>
      f ← store s !! id;
      let s := withFlight s id {|
        fl_key := fl_key f;
        fl_dirty := match fl_phase f with Loading => true | _ => fl_dirty f end;
        fl_loader := loader; fl_phase := fl_phase f; fl_callers := fl_callers f ++ [(caller, false)] |} in
      Some {| flights := flights s; store := store s; nextCaller := S caller; settledCalls := settledCalls s |}
  | None =>
      Some {| flights := mapSet (flights s) key (length (store s));
              store := store s ++ [{| fl_key := key; fl_dirty := false; fl_loader := loader; fl_phase := Queued;
                                      fl_callers := [(caller, false)] |}];
              nextCaller := S caller; settledCalls := settledCalls s |}
  end.

(** A read begins: it serves every call so far. *)
Definition beginRead (f : SmartAccountRefreshFlight) : SmartAccountRefreshFlight := {|
  fl_key := fl_key f; fl_dirty := false; fl_loader := fl_loader f; fl_phase := Loading;
  fl_callers := map (fun c => (c.1, true)) (fl_callers f) |}.

(** The flight's own callback starts, up to the first [await entry.loader()]. *)
Definition startFlight (s : Singleflight) (id : nat) : option Singleflight :=
  f ← store s !! id;
  match fl_phase f with Queued => Some (withFlight s id (beginRead f)) | _ => None end.

(** A read settles, whether it succeeded or not: the next round of the loop, or its end. *)
Definition readSettles (s : Singleflight) (id : nat) : option Singleflight :=
  f ← store s !! id;
  match fl_phase f with
  | Loading =>
      Some (withFlight s id
        (if fl_dirty f then beginRead f
         else {| fl_key := fl_key f; fl_dirty := fl_dirty f; fl_loader := fl_loader f; fl_phase := Ended; fl_callers := fl_callers f |}))
  | _ => None
  end.

(** The [finally] callback, after which the callers go on. *)
Definition finishFlight (s : Singleflight) (id : nat) : option Singleflight :=
  f ← store s !! id;
  match fl_phase f with
  | Ended =>
      Some {| flights := match mapGet (flights s) (fl_key f) with
                         | Some id' => if (id' =? id)%nat then mapDelete (flights s) (fl_key f) else flights s
                         | None => flights s
                         end;
              store := <[id:={| fl_key := fl_key f; fl_dirty := fl_dirty f; fl_loader := fl_loader f; fl_phase := Gone;
                               fl_callers := fl_callers f |}]> (store s);
              nextCaller := nextCaller s; settledCalls := settledCalls s ++ fl_callers f |}
  | _ => None
  end.

Definition clearShared (s : Singleflight) : Singleflight :=
  {| flights := []; store := store s; nextCaller := nextCaller s; settledCalls := settledCalls s |}.

(** The flight a call of [key] would join is over but still in the map. *)
Definition joinsEnded (s : Singleflight) (key : string) : bool :=
  match mapGet (flights s) key ≫= fun id => store s !! id with
  | Some f => match fl_phase f with Ended | Gone => true | _ => false end
  | None => false
  end.

Inductive share_step : Singleflight -> Singleflight -> Prop :=
| share_run s key loader s' : joinsEnded s key = false -> runShared s key loader = Some s' -> share_step s s'
| share_start s id s' : startFlight s id = Some s' -> share_step s s'
| share_settle s id s' : readSettles s id = Some s' -> share_step s s'
| share_finish s id s' : finishFlight s id = Some s' -> share_step s s'
| share_clear s : share_step s (clearShared s).

(** A call without a read since waits for one: its flight has not started, or reads again. *)
Definition flight_ok (f : SmartAccountRefreshFlight) : Prop :=
  forall c, (c, false) ∈ fl_callers f ->
    match fl_phase f with Queued => True | Loading => fl_dirty f = true | Ended => False | Gone => False end.

Definition share_inv (s : Singleflight) : Prop :=
  Forall flight_ok (store s) /\ forall c, (c, false) ∉ settledCalls s.

Lemma flight_served f c : (c, false) ∉ fl_callers (beginRead f).
Proof. cbn. intros ([a b] & [= ] & _)%list_elem_of_fmap. Qed.

Lemma insert_ok (l : list SmartAccountRefreshFlight) id f : Forall flight_ok l -> flight_ok f -> Forall flight_ok (<[id:=f]> l).
Proof. intros Hl Hf. by apply Forall_insert. Qed.

Lemma share_step_inv s s' : share_step s s' -> share_inv s -> share_inv s'.
Proof.
  intros Hs [Hf Hc]. destruct Hs as [s key loader s' Hj Hr|s id s' Hr|s id s' Hr|s id s' Hr|s].
  - unfold runShared in Hr. unfold joinsEnded in Hj. destruct (mapGet (flights s) key) as [id|].
    + cbn [mbind option_bind] in Hj. destruct (store s !! id) as [f|] eqn:E; [|done]. cbn [mbind option_bind] in Hr.
      injection Hr as <-. split; [|done]. apply insert_ok; [done|]. intros c Hin. cbn [fl_callers fl_phase fl_dirty] in *.
      destruct (fl_phase f); done.
    + injection Hr as <-. split; [|done]. apply Forall_app. split; [done|]. apply Forall_singleton. by intros c _.
  - unfold startFlight in Hr. destruct (store s !! id) as [f|] eqn:E; [|done]. cbn [mbind option_bind] in Hr.
    destruct (fl_phase f); try done. injection Hr as <-. split; [|done]. apply insert_ok; [done|]. intros c Hin.
    by destruct (flight_served f c).
  - unfold readSettles in Hr. destruct (store s !! id) as [f|] eqn:E; [|done]. cbn [mbind option_bind] in Hr.
    destruct (fl_phase f) eqn:Ep; try done. injection Hr as <-. split; [|done]. apply insert_ok; [done|].
    destruct (fl_dirty f) eqn:Ed; intros c Hin; [by destruct (flight_served f c)|]. cbn [fl_callers] in Hin.
    pose proof (Forall_lookup_1 _ _ _ _ Hf E c Hin) as H. rewrite Ep, Ed in H. done.
  - unfold finishFlight in Hr. destruct (store s !! id) as [f|] eqn:E; [|done]. cbn [mbind option_bind] in Hr.
    destruct (fl_phase f) eqn:Ep; try done. injection Hr as <-.
    assert (Hall : forall c, (c, false) ∉ fl_callers f).
    { intros c Hin. pose proof (Forall_lookup_1 _ _ _ _ Hf E c Hin) as H. by rewrite Ep in H. }
    split; [apply insert_ok; [done|]; intros c Hin; by destruct (Hall c)|].
    intros c [Hin|Hin]%elem_of_app; [by destruct (Hc c)|by destruct (Hall c)].
  - by split.
Qed.

(** C21. A refresh is never answered by an older read: a call of [run] settles only after a
    read that began after the call, however reads, failures, further calls and clears
    interleave, as long as no call lands between the end of a flight and its removal. *)
Theorem refresh_read_after_call s c served :
  rtc share_step newSingleflight s -> (c, served) ∈ settledCalls s -> served = true.
Proof.
  intros Hr Hin. assert (H0 : share_inv newSingleflight) by (split; [constructor|set_solver]).
  assert (Hi : share_inv s).
  { revert H0. clear Hin. induction Hr as [|s0 s1 s2 Hs _ IH]; [done|]. intros H. apply IH. by eapply share_step_inv. }
  destruct served; [done|]. destruct Hi as [_ Hc]. by destruct (Hc c).
Qed.

(** In that window a call gets the promise of a read that began before it, and no read
    follows: the flight's [started] is already false, so it is not marked dirty. *)
Theorem refresh_window_stale : exists s s',
  rtc share_step newSingleflight s /\ joinsEnded s "policies" = true /\
  runShared s "policies" 1 ≫= (fun s => finishFlight s 0) = Some s' /\ (1%nat, false) ∈ settledCalls s' /\
  mapGet (flights s') "policies" = None.
Proof.
  set (s1 := default newSingleflight (runShared newSingleflight "policies" 0)).
  set (s2 := default s1 (startFlight s1 0)). set (s3 := default s2 (readSettles s2 0)).
  exists s3. eexists. split_and!.
  - eapply rtc_l; [apply (share_run _ "policies"%string 0 s1); reflexivity|].
    eapply rtc_l; [apply (share_start s1 0 s2); reflexivity|].
    eapply rtc_l; [apply (share_settle s2 0 s3); reflexivity|]. apply rtc_refl.
  - reflexivity.
  - reflexivity.
  - cbn. set_solver.
  - reflexivity.
Qed.

(** ** The follow-up read of policies *)
Definition SMART_ACCOUNT_POLICY_FOLLOW_UP_DELAY_MS := 2000.

(** [fu_callbacks] holds the generation captured by each scheduled callback; [fu_ready] those
    whose timer fired and whose refresh is about to run; [fu_ran] the refreshes that ran. *)
Record FollowUp := { fu_generation : Z; fu_cancel : option nat; fu_callbacks : list Z; fu_ready : list nat; fu_ran : list nat }.

Definition newFollowUp : FollowUp := {| fu_generation := 0; fu_cancel := None; fu_callbacks := []; fu_ready := []; fu_ran := [] |}.

Definition resetFollowUp (u : FollowUp) : FollowUp := {|
  fu_generation := fu_generation u + 1; fu_cancel := None; fu_callbacks := fu_callbacks u; fu_ready := fu_ready u;
  fu_ran := fu_ran u |}.

Definition scheduleFollowUp (u : FollowUp) : FollowUp :=
  let u := resetFollowUp u in {|
    fu_generation := fu_generation u; fu_cancel := Some (length (fu_callbacks u));
    fu_callbacks := fu_callbacks u ++ [fu_generation u]; fu_ready := fu_ready u; fu_ran := fu_ran u |}.

(** The timer of callback [i] fires, even one a scheduler failed to cancel. *)
Definition fireFollowUp (u : FollowUp) (i : nat) : option FollowUp :=
  g ← fu_callbacks u !! i;
  Some {| fu_generation := fu_generation u; fu_cancel := None; fu_callbacks := fu_callbacks u;
          fu_ready := if g =? fu_generation u then fu_ready u ++ [i] else fu_ready u; fu_ran := fu_ran u |}.

(** Its refresh is about to run, and checks the generation again. *)
Definition runFollowUp (u : FollowUp) (i : nat) : option FollowUp :=
  g ← fu_callbacks u !! i;
  if bool_decide (i ∈ fu_ready u) then
    Some {| fu_generation := fu_generation u; fu_cancel := fu_cancel u; fu_callbacks := fu_callbacks u;
            fu_ready := List.filter (fun j => negb (j =? i)%nat) (fu_ready u);
            fu_ran := if g =? fu_generation u then fu_ran u ++ [i] else fu_ran u |}
  else None.

(** Captured generations increase and are at most the current one. *)
Definition follow_inv (u : FollowUp) : Prop :=
  forall i g, fu_callbacks u !! i = Some g -> g <= fu_generation u /\
    (g = fu_generation u -> i = pred (length (fu_callbacks u))).

Inductive follow_step : FollowUp -> FollowUp -> Prop :=
| follow_reset u : follow_step u (resetFollowUp u)
| follow_schedule u : follow_step u (scheduleFollowUp u)
| follow_fire u i u' : fireFollowUp u i = Some u' -> follow_step u u'
| follow_run u i u' : runFollowUp u i = Some u' -> follow_step u u'.

Lemma follow_step_inv u u' : follow_step u u' -> follow_inv u -> follow_inv u'.
Proof.
  intros Hs Hi. destruct Hs as [u|u|u i u' H|u i u' H].
  - intros i g Hg. destruct (Hi i g Hg) as [H _]. cbn. split; lia.
  - intros i g Hg. cbn in Hg |- *. rewrite length_app. apply lookup_app_Some in Hg as [Hg|[Hlen Hg]].
    + destruct (Hi i g Hg) as [H _]. split; lia.
    + apply list_lookup_singleton_Some in Hg as [Hi0 <-]. cbn. split; [lia|]. intros _. lia.
  - unfold fireFollowUp in H. destruct (fu_callbacks u !! i); [|done]. injection H as <-. exact Hi.
  - unfold runFollowUp in H. destruct (fu_callbacks u !! i); [|done]. cbn [mbind option_bind] in H.
    destruct (bool_decide _); [|done]. injection H as <-. exact Hi.
Qed.

(** A refresh that runs is the one scheduled last, and nothing was reset since. *)
Lemma follow_up_latest u u' i : rtc follow_step newFollowUp u -> runFollowUp u i = Some u' -> fu_ran u' <> fu_ran u ->
  i = pred (length (fu_callbacks u)) /\ fu_callbacks u !! i = Some (fu_generation u).
Proof.
  intros Hr Hrun Hne. assert (Hi : follow_inv u).
  { assert (H0 : follow_inv newFollowUp) by (by intros [|j] g Hj). revert H0. clear Hrun Hne.
    induction Hr as [|u0 u1 u2 Hs _ IH]; [done|]. intros H. apply IH. by eapply follow_step_inv. }
  unfold runFollowUp in Hrun. destruct (fu_callbacks u !! i) as [g|] eqn:Eg; [|done]. cbn [mbind option_bind] in Hrun.
  destruct (bool_decide _); [|done]. injection Hrun as <-. cbn [fu_ran] in Hne.
  destruct (Z.eqb_spec g (fu_generation u)) as [->|]; [|done]. destruct (Hi i _ Eg) as [_ H]. by split; [apply H|].
Qed.

(** ** The reads after a mutation *)
Inductive SmartAccountRefreshGroup := base | policies | proposals | vaults | activity | earn | wallet.

#[export] Instance SmartAccountRefreshGroup_eq_dec : EqDecision SmartAccountRefreshGroup.
Proof. solve_decision. Defined.

Record SmartAccountRefreshPlan := {
  groups : list SmartAccountRefreshGroup;
  accountIndexes : list Z;
  signerAddresses : list string;
  refreshAuthenticatedWallet : bool;
}.

Inductive ProposalAction := approve | reject | execute.
Inductive PayloadType := transaction | settings_transaction | policy_transaction | unknown.
Inductive SettingsScope := policy | root.
Inductive TransferExecution := proposed | settings | spending_limit.
Inductive SwapExecution := swap_proposed | swap_executed.
Inductive EarnOperation :=
| policy_setup | deposit | withdraw_partial | withdraw_full | cleanup | autodeposit_setup | autodeposit_close.

Inductive SmartAccountMutationRefreshInput :=
| proposal_action (action : ProposalAction) (payloadType : PayloadType) (accountIndex : option Z) (signers : option (list string))
| settings_change (scope : SettingsScope) (threshold : Z) (signers : option (list string))
| spending_limit_use (accountIndex : Z) (signers : option (list string))
| vault_transfer (accountIndex : Z) (execution : TransferExecution) (signers : option (list string))
| vault_swap (accountIndex : Z) (execution : SwapExecution)
| earn_mutation (operation : EarnOperation) (accountIndex : option Z) (signers : option (list string)).

Definition plan (gs : list SmartAccountRefreshGroup) (indexes : list (option Z)) (signers : option (list string))
    (refresh : option bool) : SmartAccountRefreshPlan :=
  let gs := unique gs in {|
    groups := gs;
    accountIndexes := unique (omap id indexes);
    signerAddresses := unique (List.filter (fun s => negb (String.eqb s "")) (default [] signers));
    refreshAuthenticatedWallet := default (bool_decide (wallet ∈ gs)) refresh |}.

Definition resolveSmartAccountMutationRefreshPlan (input : SmartAccountMutationRefreshInput) : SmartAccountRefreshPlan :=
  match input with
  | proposal_action execute settings_transaction _ signers => plan [base; policies; proposals] [] signers None
  | proposal_action execute policy_transaction index signers =>
      plan [policies; proposals; vaults; activity; wallet] [index] signers None
  | proposal_action execute _ index signers => plan [proposals; vaults; activity; wallet] [index] signers None
  | proposal_action _ _ _ signers => plan [proposals] [] signers (Some false)
  | settings_change scope threshold signers =>
      if 1 <? threshold then plan [proposals] [] signers None
      else plan (match scope with root => [base; policies] | policy => [policies] end) [] signers None
  | spending_limit_use index signers => plan [policies; vaults; activity; wallet] [Some index] signers None
  | vault_transfer index proposed signers => plan [base; proposals] [] signers None
  | vault_transfer index spending_limit signers => plan [policies; vaults; activity; wallet] [Some index] signers None
  | vault_transfer index settings signers => plan [proposals; vaults; activity; wallet] [Some index] signers None
  | vault_swap index swap_proposed => plan [base; proposals] [] None None
  | vault_swap index swap_executed => plan [proposals; vaults; activity; wallet] [Some index] None None
  | earn_mutation operation index signers =>
      let gs := match operation with
                | policy_setup | autodeposit_setup | autodeposit_close => [policies; earn]
                | cleanup => [policies; earn; vaults; activity; wallet]
                | _ => [earn; vaults; activity; wallet]
                end in
      plan gs [index] signers None
  end.

(** A mutation that moves funds when it is confirmed *)
Definition moves_funds (input : SmartAccountMutationRefreshInput) : bool :=
  match input with
  | proposal_action execute settings_transaction _ _ => false
  | proposal_action execute _ _ _ => true
  | spending_limit_use _ _ => true
  | vault_transfer _ e _ => match e with proposed => false | _ => true end
  | vault_swap _ e => match e with swap_proposed => false | _ => true end
  | earn_mutation (deposit | withdraw_partial | withdraw_full | cleanup) _ _ => true
  | _ => false
  end.

(** The plan after a mutation reads no group, account or signer twice and no empty
    signer; it reads balances and activity, and refreshes the wallet, exactly after the
    mutations that move funds; and it reads Earn exactly after Earn mutations. *)
Theorem mutation_plan_exact input :
  let p := resolveSmartAccountMutationRefreshPlan input in
  NoDup (groups p) /\ NoDup (accountIndexes p) /\ NoDup (signerAddresses p) /\ (""%string ∉ signerAddresses p) /\
  (forall g, g ∈ [vaults; activity; wallet] -> g ∈ groups p <-> moves_funds input = true) /\
  refreshAuthenticatedWallet p = moves_funds input /\
  (earn ∈ groups p <-> exists o i s, input = earn_mutation o i s).
Proof.
  assert (Hplan : forall gs ix sg rf, NoDup (groups (plan gs ix sg rf)) /\ NoDup (accountIndexes (plan gs ix sg rf)) /\
    NoDup (signerAddresses (plan gs ix sg rf)) /\ ""%string ∉ signerAddresses (plan gs ix sg rf)).
  { intros gs ix sg rf. cbn. split_and!; try apply unique_NoDup. rewrite unique_elem. intros H.
    apply list_elem_of_In, filter_In in H as [_ H]. done. }
  cbv zeta. assert (Hp : exists gs ix sg rf, resolveSmartAccountMutationRefreshPlan input = plan gs ix sg rf).
  { destruct input as [[] []|[] t| |? []|? []|[]]; cbn; try destruct (1 <? _); by repeat eexists. }
  split; [|split; [|split; [|split]]]; [destruct Hp as (gs & ix & sg & rf & ->); apply Hplan..|].
  split; [|split].
  - intros g Hg. rewrite !elem_of_cons, elem_of_nil in Hg.
    destruct input as [[] []|[] t| |? []|? []|[]]; cbn [resolveSmartAccountMutationRefreshPlan moves_funds]; try destruct (1 <? _);
      unfold plan; cbn [groups]; rewrite unique_elem, !elem_of_cons, elem_of_nil;
      destruct Hg as [->|[->|[->|[]]]]; intuition congruence.
  - destruct input as [[] []|[] t| |? []|? []|[]]; cbn [resolveSmartAccountMutationRefreshPlan moves_funds]; try destruct (1 <? _);
      reflexivity.
  - destruct input as [[] []|[] t| |? []|? []|[]]; cbn [resolveSmartAccountMutationRefreshPlan]; try destruct (1 <? _);
      unfold plan; cbn [groups]; rewrite unique_elem, !elem_of_cons, elem_of_nil;
      (split; [intros H|intros (o & i & s & H)]); try congruence; try (intuition congruence); by repeat eexists.
Qed.

Module RefreshPlanWitness.
Definition s1 := default newSingleflight (runShared newSingleflight "policies" 0).
Definition s2 := default s1 (startFlight s1 0).
Definition s3 := default s2 (runShared s2 "policies" 1).
Definition s4 := default s3 (readSettles s3 0).
Definition s5 := default s4 (readSettles s4 0).
Definition s6 := default s5 (finishFlight s5 0).

Lemma run6 : rtc share_step newSingleflight s6.
Proof.
  eapply rtc_l; [apply (share_run _ "policies"%string 0 s1); reflexivity|].
  eapply rtc_l; [apply (share_start s1 0 s2); reflexivity|].
  eapply rtc_l; [apply (share_run s2 "policies"%string 1 s3); reflexivity|].
  eapply rtc_l; [apply (share_settle s3 0 s4); reflexivity|].
  eapply rtc_l; [apply (share_settle s4 0 s5); reflexivity|].
  eapply rtc_l; [apply (share_finish s5 0 s6); reflexivity|]. apply rtc_refl.
Qed.

(** The second call lands while the first read is under way: the flight reads again, and both calls settle served. *)
Lemma refresh_read_after_call_witness : settledCalls s6 = [(0%nat, true); (1%nat, true)] /\ true = true.
Proof.
  split; [reflexivity|]. apply (refresh_read_after_call s6 1%nat true run6). cbn. apply elem_of_cons. right.
  apply list_elem_of_singleton. reflexivity.
Defined.
End RefreshPlanWitness.
