(* ===== verification/Reconciliation.v ===== *)
(** Correlating local mutations with the events that report them
    (web/apps/web/src/features/earn-realtime/mutation-reconciliation.ts,
    [EarnMutationReconciliationRegistry]).

    Entries are objects that the map, the plans and the timers share and change in place:
    they live in a store and are referred to by number. A plan is an object with two methods,
    [reconcileRelated] and [accept]; plans and fallback reads are kept with their progress.
    Time is given with each call. A planned event is known by its plan and its place there,
    which assumes that a plan does not hold the same object twice.
    [owners] is history: which accepted event was attributed to which entry. *)
From S2P Require Import Prelude JsString JsMap Json RealtimeEvents.

Inductive EarnExpectedMutationOperation :=
| autodeposit_close | autodeposit_floor | autodeposit_setup | autodeposit_toggle | cleanup | deposit | policy_setup
| withdraw_full | withdraw_partial.

(** [ex_related]: whether [reconcileRelated] is given. *)
Record ExpectedEarnMutation := {
  ex_key : string;
  ex_operation : EarnExpectedMutationOperation;
  ex_related : bool;
  ex_resources : list string;
  ex_signature : option string;
  ex_targetId : option string;
}.

Record PlannedEarnRealtimeEvent := { pe_event : EarnRealtimeInvalidation; pe_resources : list string }.

(** The timers: whether the callback is still scheduled. *)
Record ExpectedEntry := {
  en_expected : ExpectedEarnMutation;
  en_covered : list string;
  en_order : Z;
  en_pending : list string;
  en_relatedCovered : bool;
  en_relatedPending : bool;
  en_expiryTimer : bool;
  en_fallbackTimer : bool;
}.

Definition en_key (e : ExpectedEntry) : string := ex_key (en_expected e).
Definition en_resources (e : ExpectedEntry) : list string := ex_resources (en_expected e).

Definition truthy (s : option string) : bool := match s with Some s => negb (String.eqb s "") | None => false end.

Definition isCovered (e : ExpectedEntry) : bool :=
  forallb (fun r => member r (en_covered e)) (en_resources e) &&
  (negb (ex_related (en_expected e)) || en_relatedCovered e).

Definition matchesExpectedMutation (expected : ExpectedEarnMutation) (event : EarnRealtimeInvalidation) : bool :=
  let of_type type := String.eqb (eventType event) type in
  if truthy (ex_targetId expected) && negb (bool_decide (targetId event = ex_targetId expected)) then false
  else if match ex_operation expected with cleanup => of_type EVENT.allowance || of_type EVENT.onboarding | _ => false end then true
  else match ex_operation expected with
       | autodeposit_close | autodeposit_floor | autodeposit_setup | autodeposit_toggle => of_type EVENT.allowance
       | policy_setup => of_type EVENT.onboarding
       | operation =>
           if of_type EVENT.position
           then match operation with deposit | withdraw_partial | withdraw_full | cleanup => true | _ => false end
           else if negb (of_type EVENT.transaction) then false
           else let reason := default ""%string (reason event) in
                match operation with
                | deposit => String.prefix "holding_event_deposit_" reason
                | withdraw_partial => String.eqb reason "holding_event_withdrawal_partial"
                | withdraw_full | cleanup => String.eqb reason "holding_event_withdrawal_full"
                | _ => false
                end
       end.

Definition isSignatureOnlyExpectedMutation (expected : ExpectedEarnMutation) : bool :=
  match ex_signature expected with Some _ => negb (truthy (ex_targetId expected)) | None => false end.

Definition matchesHistoricalExpectedMutation (expected : ExpectedEarnMutation) (event : EarnRealtimeInvalidation) : bool :=
  if isSignatureOnlyExpectedMutation expected then false else matchesExpectedMutation expected event.

(** ** The registry *)
Record RecentAcceptedEvent := {
  rc_planned : PlannedEarnRealtimeEvent;
  rc_acceptedAt : Z;
  rc_claimedBy : option string;
  rc_ref : nat * nat;
}.

(** [pl_claimed] and [pl_related] are the maps of the closure, [pl_planned] the entry of each event;
    [pl_settled] is the argument of the first call of [accept]. *)
Record Plan := {
  pl_events : list PlannedEarnRealtimeEvent;
  pl_resources : list string;
  pl_claimed : list (nat * list string);
  pl_related : list nat;
  pl_planned : list (option nat);
  pl_order : Z;
  pl_settled : option bool;
  pl_relatedReconciled : bool;
}.

(** The reads of a fallback *)
Record FallbackRun := { fb_entry : nat; fb_resources : list string; fb_related : bool; fb_settled : bool }.

Record Registry := {
  entries : list (string * nat);
  store : list ExpectedEntry;
  nextOrder : Z;
  recent : list RecentAcceptedEvent;
  plans : list Plan;
  runs : list FallbackRun;
  owners : list ((nat * nat) * nat);
}.

Definition newRegistry : Registry :=
  {| entries := []; store := []; nextOrder := 0; recent := []; plans := []; runs := []; owners := [] |}.

Definition withStore (R : Registry) (s : list ExpectedEntry) : Registry := {|
  entries := entries R; store := s; nextOrder := nextOrder R; recent := recent R; plans := plans R; runs := runs R;
  owners := owners R |}.

Definition withTimers (expiry fallback : bool) (e : ExpectedEntry) : ExpectedEntry := {|
  en_expected := en_expected e; en_covered := en_covered e; en_order := en_order e; en_pending := en_pending e;
  en_relatedCovered := en_relatedCovered e; en_relatedPending := en_relatedPending e; en_expiryTimer := expiry;
  en_fallbackTimer := fallback |}.

Definition withRelated (covered pending : bool) (e : ExpectedEntry) : ExpectedEntry := {|
  en_expected := en_expected e; en_covered := en_covered e; en_order := en_order e; en_pending := en_pending e;
  en_relatedCovered := covered; en_relatedPending := pending; en_expiryTimer := en_expiryTimer e;
  en_fallbackTimer := en_fallbackTimer e |}.

Definition withSets (covered pending : list string) (e : ExpectedEntry) : ExpectedEntry := {|
  en_expected := en_expected e; en_covered := covered; en_order := en_order e; en_pending := pending;
  en_relatedCovered := en_relatedCovered e; en_relatedPending := en_relatedPending e;
  en_expiryTimer := en_expiryTimer e; en_fallbackTimer := en_fallbackTimer e |}.

Definition remove (R : Registry) (key : string) : Registry :=
  match mapGet (entries R) key with
  | None => R
  | Some id => {|
      entries := mapDelete (entries R) key; store := alter (withTimers false false) id (store R);
      nextOrder := nextOrder R; recent := recent R; plans := plans R; runs := runs R; owners := owners R |}
  end.

Section Registry.
Context (retentionMs : Z).

(** [filter] by age, then [slice(-64)] *)
Definition pruneRecent (now : Z) (l : list RecentAcceptedEvent) : list RecentAcceptedEvent :=
  let kept := List.filter (fun i => now - retentionMs <=? rc_acceptedAt i) l in
  drop (length kept - 64) kept.

(** ** Registering a mutation *)
(** The loop over the resources of a recent event *)
Definition coverFrom (e : ExpectedEntry) (resources : list string) : ExpectedEntry * bool :=
  foldl (fun '(e, claimed) r =>
           if member r (en_resources e) && negb (member r (en_covered e))
           then (withSets (setAdd (en_covered e) r) (en_pending e) e, true) else (e, claimed))
    (e, false) resources.

(** The loop over the recent events: the entry, those events, and the references claimed *)
Definition claimRecent : ExpectedEntry * list RecentAcceptedEvent * list (nat * nat) -> RecentAcceptedEvent ->
    ExpectedEntry * list RecentAcceptedEvent * list (nat * nat) :=
  fun '(e, done, refs) rc =>
    if truthy (rc_claimedBy rc) || negb (matchesHistoricalExpectedMutation (en_expected e) (pe_event (rc_planned rc)))
    then (e, done ++ [rc], refs)
    else
      let '(e, claimed) := coverFrom e (pe_resources (rc_planned rc)) in
      if claimed
      then (e, done ++ [{| rc_planned := rc_planned rc; rc_acceptedAt := rc_acceptedAt rc; rc_claimedBy := Some (en_key e);
                           rc_ref := rc_ref rc |}], refs ++ [rc_ref rc])
      else (e, done ++ [rc], refs).

Definition newEntry (order : Z) (expected : ExpectedEarnMutation) : ExpectedEntry := {|
  en_expected := {| ex_key := ex_key expected; ex_operation := ex_operation expected; ex_related := ex_related expected;
                    ex_resources := unique (ex_resources expected); ex_signature := ex_signature expected;
                    ex_targetId := ex_targetId expected |};
  en_covered := []; en_order := order; en_pending := []; en_relatedCovered := false; en_relatedPending := false;
  en_expiryTimer := false; en_fallbackTimer := false |}.

Definition register (now : Z) (expected : ExpectedEarnMutation) (R : Registry) : Registry :=
  let R := remove R (ex_key expected) in
  let order := nextOrder R + 1 in
  let id := length (store R) in
  let '(e, recent', refs) := foldl claimRecent (newEntry order expected, [], []) (pruneRecent now (recent R)) in
  let covered := isCovered e in {|
    entries := if covered then entries R else mapSet (entries R) (en_key e) id;
    store := store R ++ [if covered then e else withTimers true true e];
    nextOrder := order; recent := recent'; plans := plans R; runs := runs R;
    owners := owners R ++ map (fun ref => (ref, id)) refs |}.

(** ** The fallback *)
Definition fallbackFires (R : Registry) (id : nat) : option Registry :=
  e ← store R !! id;
  if en_fallbackTimer e then
    let e := withTimers (en_expiryTimer e) false e in
    let missing := List.filter (fun r => negb (member r (en_covered e)) && negb (member r (en_pending e))) (en_resources e) in
    let related := ex_related (en_expected e) && negb (en_relatedCovered e) && negb (en_relatedPending e) in
    let current := bool_decide (mapGet (entries R) (en_key e) = Some id) in
    if negb current || (match missing with [] => true | _ => false end && negb related)
    then Some (withStore R (<[id:=e]> (store R)))
    else Some {|
      entries := entries R;
      store := <[id:=if related then withRelated (en_relatedCovered e) true e else e]> (store R);
      nextOrder := nextOrder R; recent := recent R; plans := plans R;
      runs := runs R ++ [{| fb_entry := id; fb_resources := missing; fb_related := related; fb_settled := false |}];
      owners := owners R |}
  else None.

(** The reads of the fallback settle. *)
Definition fallbackSettles (R : Registry) (i : nat) (ok : bool) : option Registry :=
  run ← runs R !! i;
  e ← store R !! fb_entry run;
  if fb_settled run then None
  else
    let R := {|
      entries := entries R; store := store R; nextOrder := nextOrder R; recent := recent R; plans := plans R;
      runs := <[i:={| fb_entry := fb_entry run; fb_resources := fb_resources run; fb_related := fb_related run; fb_settled := true |}]> (runs R);
      owners := owners R |} in
    Some (if bool_decide (mapGet (entries R) (en_key e) = Some (fb_entry run))
          then if ok then remove R (en_key e)
               else withStore R (<[fb_entry run:=withRelated (en_relatedCovered e) false e]> (store R))
          else R).

Definition expiryFires (R : Registry) (id : nat) : option Registry :=
  e ← store R !! id;
  if en_expiryTimer e
  then Some (remove (withStore R (<[id:=withTimers false (en_fallbackTimer e) e]> (store R))) (en_key e))
  else None.

(** ** Planning the reads of a batch of events *)
Definition wants (e : ExpectedEntry) (r : string) : bool :=
  member r (en_resources e) && negb (member r (en_covered e)) && negb (member r (en_pending e)).

(** The entry an event is attributed to, of those in the map *)
Definition claimant (ids : list nat) (s : list ExpectedEntry) (planned : PlannedEarnRealtimeEvent) : option nat :=
  let test p id := match s !! id with Some e => p e | None => false end in
  let matches := List.filter (test (fun e => matchesExpectedMutation (en_expected e) (pe_event planned))) ids in
  match List.find (test (fun e => existsb (wants e) (pe_resources planned))) matches with
  | Some id => Some id
  | None => head matches
  end.

(** [claimed.get(entry) ?? new Set()], to which the resources are added *)
Fixpoint claimSet (l : list (nat * list string)) (id : nat) (rs : list string) : list (nat * list string) :=
  match l with
  | [] => [(id, foldl setAdd [] rs)]
  | (i, old) :: l => if (i =? id)%nat then (i, foldl setAdd old rs) :: l else (i, old) :: claimSet l id rs
  end.

(** The resources of an event the entry waits for become pending. *)
Definition claimResources (e : ExpectedEntry) (resources : list string) : ExpectedEntry * list string :=
  foldl (fun '(e, claims) r =>
           if wants e r then (withSets (en_covered e) (setAdd (en_pending e) r) e, claims ++ [r]) else (e, claims))
    (e, []) resources.

Record Planning := {
  pg_store : list ExpectedEntry;
  pg_resources : list string;
  pg_claimed : list (nat * list string);
  pg_related : list nat;
  pg_planned : list (option nat);
}.

Definition planEvent (ids : list nat) (g : Planning) (planned : PlannedEarnRealtimeEvent) : Planning :=
  let resources := foldl setAdd (pg_resources g) (pe_resources planned) in
  let skip := {| pg_store := pg_store g; pg_resources := resources; pg_claimed := pg_claimed g; pg_related := pg_related g;
                 pg_planned := pg_planned g ++ [None] |} in
  match claimant ids (pg_store g) planned with
  | Some id =>
      match pg_store g !! id with
      | Some e =>
          let related := ex_related (en_expected e) && negb (en_relatedCovered e) in
          let e := if related then withRelated (en_relatedCovered e) true e else e in
          let '(e, claims) := claimResources e (pe_resources planned) in
          {| pg_store := <[id:=e]> (pg_store g); pg_resources := resources; pg_claimed := claimSet (pg_claimed g) id claims;
             pg_related := if related && negb (bool_decide (id ∈ pg_related g)) then pg_related g ++ [id] else pg_related g;
             pg_planned := pg_planned g ++ [Some id] |}
      | None => skip
      end
  | None => skip
  end.

Definition plan (now : Z) (events : list PlannedEarnRealtimeEvent) (R : Registry) : Registry :=
  let g := foldl (planEvent (map snd (entries R)))
             {| pg_store := store R; pg_resources := []; pg_claimed := []; pg_related := []; pg_planned := [] |} events in {|
    entries := entries R; store := pg_store g; nextOrder := nextOrder R; recent := pruneRecent now (recent R);
    plans := plans R ++ [{| pl_events := events; pl_resources := pg_resources g; pl_claimed := pg_claimed g;
                            pl_related := pg_related g; pl_planned := pg_planned g; pl_order := nextOrder R;
                            pl_settled := None;
                            pl_relatedReconciled := match pg_related g with [] => true | _ => false end |}];
    runs := runs R; owners := owners R |}.

Definition withPlan (R : Registry) (p : nat) (pl : Plan) : Registry := {|
  entries := entries R; store := store R; nextOrder := nextOrder R; recent := recent R; plans := <[p:=pl]> (plans R);
  runs := runs R; owners := owners R |}.

(** [reconcileRelated] of plan [p] succeeds. *)
Definition relatedSucceeds (R : Registry) (p : nat) : option Registry :=
  pl ← plans R !! p;
  Some (withPlan R p {| pl_events := pl_events pl; pl_resources := pl_resources pl; pl_claimed := pl_claimed pl;
                        pl_related := pl_related pl; pl_planned := pl_planned pl; pl_order := pl_order pl;
                        pl_settled := pl_settled pl; pl_relatedReconciled := true |}).

(** ** Accepting a plan *)
(** One round of the loop over [claimed] *)
Definition settleClaim (accepted : bool) (pl : Plan) (R : Registry) (claim : nat * list string) : Registry :=
  let '(id, rs) := claim in
  match store R !! id with
  | Some e =>
      if bool_decide (mapGet (entries R) (en_key e) = Some id) then
        let e := if bool_decide (id ∈ pl_related pl)
                 then withRelated (en_relatedCovered e || (accepted && pl_relatedReconciled pl)) false e else e in
        let e := foldl (fun e r => withSets (if accepted then setAdd (en_covered e) r else en_covered e)
                                     (setRemove (en_pending e) r) e) e rs in
        let R := withStore R (<[id:=e]> (store R)) in
        if accepted && isCovered e then remove R (en_key e) else R
      else R
  | None => R
  end.

(** One round of the loop over late registrations, for the event at place [i] of plan [p]:
    the registry and the claimant of the event *)
Definition lateClaim (p : nat) (pl : Plan) (R : Registry) (i : nat) (planned : PlannedEarnRealtimeEvent)
    (claimedBy : option string) : Registry * option string :=
  if truthy claimedBy then (R, claimedBy)
  else
    let found := List.find (fun id =>
      match store R !! id with
      | Some e => (pl_order pl <? en_order e) && matchesHistoricalExpectedMutation (en_expected e) (pe_event planned) &&
                  existsb (fun r => member r (en_resources e) && negb (member r (en_covered e))) (pe_resources planned)
      | None => false
      end) (map snd (entries R)) in
    match found with
    | Some id =>
        match store R !! id with
        | Some e =>
            let e := foldl (fun e r => if member r (en_resources e)
                                       then withSets (setAdd (en_covered e) r) (en_pending e) e else e)
                       e (pe_resources planned) in
            let R := {| entries := entries R; store := <[id:=e]> (store R); nextOrder := nextOrder R; recent := recent R;
                        plans := plans R; runs := runs R; owners := owners R ++ [((p, i), id)] |} in
            (if isCovered e then remove R (en_key e) else R, Some (en_key e))
        | None => (R, claimedBy)
        end
    | None => (R, claimedBy)
    end.

(** The key of the entry an event was attributed to when it was planned *)
Definition plannedKey (R : Registry) (owner : option nat) : option string :=
  id ← owner; e ← store R !! id; Some (en_key e).

Fixpoint lateClaims (now : Z) (p : nat) (pl : Plan) (R : Registry) (i : nat)
    (events : list (PlannedEarnRealtimeEvent * option string)) : Registry * list RecentAcceptedEvent :=
  match events with
  | [] => (R, [])
  | (planned, claimedBy) :: events =>
      let '(R, claimedBy) := lateClaim p pl R i planned claimedBy in
      let '(R, rest) := lateClaims now p pl R (S i) events in
      (R, {| rc_planned := planned; rc_acceptedAt := now; rc_claimedBy := claimedBy; rc_ref := (p, i) |} :: rest)
  end.

(** The attributions made when the events were planned *)
Definition plannedOwners (p : nat) (pl : Plan) : list ((nat * nat) * nat) :=
  omap (fun '(i, owner) => id ← owner; Some ((p, i), id)) (imap pair (pl_planned pl)).

Definition accept (now : Z) (R : Registry) (p : nat) (accepted : bool) : option Registry :=
  pl ← plans R !! p;
  match pl_settled pl with
  | Some _ => Some R
  | None =>
      let keys := map (plannedKey R) (pl_planned pl) in
      let R := {|
        entries := entries R; store := store R; nextOrder := nextOrder R; recent := recent R;
        plans := <[p:={| pl_events := pl_events pl; pl_resources := pl_resources pl; pl_claimed := pl_claimed pl;
                         pl_related := pl_related pl; pl_planned := pl_planned pl; pl_order := pl_order pl;
                         pl_settled := Some accepted; pl_relatedReconciled := pl_relatedReconciled pl |}]> (plans R);
        runs := runs R; owners := if accepted then owners R ++ plannedOwners p pl else owners R |} in
      let R := foldl (settleClaim accepted pl) R (pl_claimed pl) in
      let '(R, accepted') := if accepted then lateClaims now p pl R 0 (zip (pl_events pl) keys) else (R, []) in
      Some {| entries := entries R; store := store R; nextOrder := nextOrder R;
              recent := pruneRecent now (recent R ++ accepted'); plans := plans R; runs := runs R; owners := owners R |}
  end.

Definition reset (R : Registry) : Registry :=
  let R := foldl remove R (mapKeys (entries R)) in {|
    entries := entries R; store := store R; nextOrder := nextOrder R; recent := []; plans := plans R; runs := runs R;
    owners := owners R |}.

(** Anything the page does with the registry, in any order; keys are not empty. *)
Inductive reg_step : Registry -> Registry -> Prop :=
| reg_register R now x : ex_key x <> ""%string -> reg_step R (register now x R)
| reg_dispose R key : reg_step R (remove R key)
| reg_plan R now events : reg_step R (plan now events R)
| reg_related R p R' : relatedSucceeds R p = Some R' -> reg_step R R'
| reg_accept R now p ok R' : accept now R p ok = Some R' -> reg_step R R'
| reg_fallback R id R' : fallbackFires R id = Some R' -> reg_step R R'
| reg_fallback_done R i ok R' : fallbackSettles R i ok = Some R' -> reg_step R R'
| reg_expiry R id R' : expiryFires R id = Some R' -> reg_step R R'
| reg_reset R : reg_step R (reset R).
End Registry.

(** ** What holds in every reachable registry *)
(** The claims of a plan, entry by entry *)
Definition flatC (l : list (nat * list string)) : list (nat * string) := l ≫= fun '(id, rs) => map (pair id) rs.

Definition openPlan (pl : Plan) : list (nat * string) :=
  match pl_settled pl with None => flatC (pl_claimed pl) | Some _ => [] end.

(** The claims of plans not yet accepted or refused, and those of [rest], being made or settled *)
Definition openClaims (R : Registry) (rest : list (nat * list string)) : list (nat * string) :=
  (plans R ≫= openPlan) ++ flatC rest.

(** The event at [ref] was accepted and reports the mutation [x], registered [order]-th. One that was
    planned before the mutation was registered counts only if the mutation is not known by its
    signature alone. *)
Definition reports (ps : list Plan) (ref : nat * nat) (m : ExpectedEarnMutation * Z) (planned : PlannedEarnRealtimeEvent) : Prop :=
  exists pl, ps !! ref.1 = Some pl /\ pl_settled pl = Some true /\ pl_events pl !! ref.2 = Some planned /\
    matchesExpectedMutation m.1 (pe_event planned) = true /\
    (pl_order pl < m.2 -> isSignatureOnlyExpectedMutation m.1 = false).

(** What never changes in an entry *)
Definition meta (e : ExpectedEntry) : ExpectedEarnMutation * Z := (en_expected e, en_order e).

Definition planned_ok (ms : list (ExpectedEarnMutation * Z)) (order : Z) (events : list PlannedEarnRealtimeEvent)
    (planned : list (option nat)) (claimed : list (nat * list string)) : Prop :=
  length planned = length events /\
  (forall i id, planned !! i = Some (Some id) -> exists m ev, ms !! id = Some m /\ events !! i = Some ev /\
     matchesExpectedMutation m.1 (pe_event ev) = true /\ m.2 <= order) /\
  (forall id r, (id, r) ∈ flatC claimed -> exists i ev, planned !! i = Some (Some id) /\ events !! i = Some ev /\ r ∈ pe_resources ev).

Definition plan_ok (ms : list (ExpectedEarnMutation * Z)) (pl : Plan) : Prop :=
  planned_ok ms (pl_order pl) (pl_events pl) (pl_planned pl) (pl_claimed pl).

(** A recent event is an accepted one, and is marked when it was attributed. *)
Definition recent_ok (ps : list Plan) (os : list ((nat * nat) * nat)) (rc : RecentAcceptedEvent) : Prop :=
  (exists pl, ps !! (rc_ref rc).1 = Some pl /\ pl_settled pl = Some true /\ pl_events pl !! (rc_ref rc).2 = Some (rc_planned rc)) /\
  (rc_ref rc ∈ map fst os -> truthy (rc_claimedBy rc) = true).

Record rinv (R : Registry) (rest : list (nat * list string)) : Prop := {
  ri_wf : map_wf (entries R);
  ri_entries : forall k id, mapGet (entries R) k = Some id ->
    exists e, store R !! id = Some e /\ en_key e = k /\ en_expiryTimer e = true /\ isCovered e = false;
  ri_timers : forall id e, store R !! id = Some e -> en_expiryTimer e = true \/ en_fallbackTimer e = true ->
    mapGet (entries R) (en_key e) = Some id;
  ri_keys : forall e, e ∈ store R -> en_key e <> ""%string /\ en_order e <= nextOrder R;
  ri_claims : NoDup (openClaims R rest);
  ri_pending : forall id e r, store R !! id = Some e -> mapGet (entries R) (en_key e) = Some id ->
    r ∈ en_pending e <-> (id, r) ∈ openClaims R rest;
  ri_covered : forall id e r, store R !! id = Some e -> r ∈ en_covered e ->
    exists ref ev, (ref, id) ∈ owners R /\ reports (plans R) ref (meta e) ev /\ r ∈ pe_resources ev;
  ri_owners : NoDup (map fst (owners R));
  ri_attributed : forall ref id, (ref, id) ∈ owners R ->
    exists m ev, map meta (store R) !! id = Some m /\ reports (plans R) ref m ev;
  ri_recent : NoDup (map rc_ref (recent R)) /\ Forall (recent_ok (plans R) (owners R)) (recent R);
  ri_plans : Forall (plan_ok (map meta (store R))) (plans R);
  ri_runs : NoDup (map fb_entry (runs R)) /\
    forall run, run ∈ runs R -> exists e, store R !! fb_entry run = Some e /\ en_fallbackTimer e = false;
}.

Lemma newRegistry_rinv : rinv newRegistry [].
Proof.
  split; cbn; try apply NoDup_nil_2; try done; try (split; [apply NoDup_nil_2|]); try apply Forall_nil_2; set_solver.
Qed.

(** *** Single entries *)
Lemma meta_insert (s : list ExpectedEntry) id e e' : s !! id = Some e -> meta e' = meta e -> map meta (<[id:=e']> s) = map meta s.
Proof.
  intros He Hm. change (meta <$> <[id:=e']> s = meta <$> s). rewrite list_fmap_insert. apply list_insert_id.
  rewrite list_lookup_fmap, He. cbn. by rewrite Hm.
Qed.

Lemma meta_key e e' : meta e' = meta e -> en_key e' = en_key e.
Proof. intros [= H _]. unfold en_key. by rewrite H. Qed.

Lemma insert_entry (s : list ExpectedEntry) id e e' j x : s !! id = Some e -> <[id:=e']> s !! j = Some x ->
  (j = id /\ x = e') \/ (j <> id /\ s !! j = Some x).
Proof.
  intros He. destruct (decide (j = id)) as [->|Hn].
  - rewrite list_lookup_insert_eq by (by eapply lookup_lt_Some). intros [= <-]. by left.
  - rewrite list_lookup_insert_ne by done. by right.
Qed.

Lemma elem_of_store (s : list ExpectedEntry) id e : s !! id = Some e -> e ∈ s.
Proof. apply list_elem_of_lookup_2. Qed.

(** Changing one entry: its pending resources are the open claims on it, and what it newly
    covers was reported. *)
Lemma entry_rinv R rest rest' id e e' : rinv R rest -> store R !! id = Some e -> meta e' = meta e ->
  en_expiryTimer e' = en_expiryTimer e ->
  (en_fallbackTimer e' = true -> en_fallbackTimer e = true) ->
  (mapGet (entries R) (en_key e) = Some id -> isCovered e' = false) ->
  NoDup (openClaims R rest') ->
  (forall j r, j <> id -> (j, r) ∈ openClaims R rest' <-> (j, r) ∈ openClaims R rest) ->
  (mapGet (entries R) (en_key e) = Some id -> forall r, r ∈ en_pending e' <-> (id, r) ∈ openClaims R rest') ->
  (forall r, r ∈ en_covered e' -> r ∈ en_covered e \/
     exists ref ev, (ref, id) ∈ owners R /\ reports (plans R) ref (meta e) ev /\ r ∈ pe_resources ev) ->
  rinv (withStore R (<[id:=e']> (store R))) rest'.
Proof.
  intros H He Hm Hx Hf Hc Hnd Hoth Hp Hcov. pose proof (meta_key e e' Hm) as Hk.
  split; cbn [withStore entries store nextOrder recent plans runs owners].
  - apply H.
  - intros k j Hj. destruct (ri_entries _ _ H k j Hj) as (x & Ex & Kx & Tx & Cx). destruct (decide (j = id)) as [->|Hn].
    + rewrite Ex in He. injection He as ->. exists e'. rewrite list_lookup_insert_eq by (by eapply lookup_lt_Some).
      split_and!; [done|congruence|congruence|]. apply Hc. congruence.
    + exists x. by rewrite list_lookup_insert_ne.
  - intros j x Hj Ht. apply (insert_entry _ _ e) in Hj as [[-> ->]|[Hn Hj]]; [|by apply (ri_timers _ _ H)|done].
    rewrite Hk. apply (ri_timers _ _ H); [done|]. rewrite Hx in Ht. naive_solver.
  - intros x Hx'. apply list_elem_of_lookup in Hx' as [j Hj]. apply (insert_entry _ _ e) in Hj as [[-> ->]|[Hn Hj]]; [| |done].
    + destruct (ri_keys _ _ H e (elem_of_store _ _ _ He)). injection Hm as _ Ho. rewrite Hk, Ho. done.
    + apply (ri_keys _ _ H). by eapply elem_of_store.
  - done.
  - intros j x r Hj Hcur. apply (insert_entry _ _ e) in Hj as [[-> ->]|[Hn Hj]]; [| |done].
    + rewrite Hk in Hcur. by apply Hp.
    + rewrite (ri_pending _ _ H j x r Hj Hcur). symmetry. by apply Hoth.
  - intros j x r Hj Hr. apply (insert_entry _ _ e) in Hj as [[-> ->]|[Hn Hj]]; [| |done].
    + rewrite Hm. destruct (Hcov r Hr) as [Hr'|Hr']; [|done]. by apply (ri_covered _ _ H).
    + by apply (ri_covered _ _ H j x).
  - apply H.
  - intros ref j Hin. rewrite (meta_insert _ id e) by done. by apply (ri_attributed _ _ H).
  - apply H.
  - rewrite (meta_insert _ id e) by done. apply H.
  - destruct (ri_runs _ _ H) as [Hn Hr]. split; [done|]. intros run Hrun. destruct (Hr run Hrun) as (x & Ex & Tx).
    destruct (decide (fb_entry run = id)) as [E|Hne]; [|exists x; by rewrite list_lookup_insert_ne].
    rewrite E in Ex |- *. exists e'. rewrite list_lookup_insert_eq by (by eapply lookup_lt_Some). split; [done|].
    rewrite Ex in He. injection He as ->. destruct (en_fallbackTimer e'); [by rewrite Hf in Tx|done].
Qed.

Lemma alter_entry (f : ExpectedEntry -> ExpectedEntry) (s : list ExpectedEntry) (id : nat) e : s !! id = Some e -> alter f id s = <[id:=f e]> s.
Proof. intros He. rewrite list_insert_alter. apply (list_alter_ext _ _ _ _ id); [|done]. intros x Hx. congruence. Qed.

(** An entry leaves the map: its timers stop. *)
Lemma remove_rinv R rest key : rinv R rest -> rinv (remove R key) rest.
Proof.
  intros H. unfold remove. destruct (mapGet (entries R) key) as [id|] eqn:Eg; [|done].
  destruct (ri_entries _ _ H key id Eg) as (e & He & Hk & _ & _).
  rewrite (alter_entry _ _ _ _ He).
  assert (Hget : forall k j, mapGet (mapDelete (entries R) key) k = Some j -> k <> key /\ mapGet (entries R) k = Some j).
  { intros k j. rewrite mapGet_delete. destruct (String.eqb_spec key k); [done|]. by split. }
  assert (Hne : forall k j, mapGet (mapDelete (entries R) key) k = Some j -> j <> id).
  { intros k j Hj ->. apply Hget in Hj as [Hn Hj]. destruct (ri_entries _ _ H k id Hj) as (x & Ex & Kx & _). congruence. }
  split; cbn [entries store nextOrder recent plans runs owners].
  - apply mapDelete_wf, H.
  - intros k j Hj. pose proof (Hne k j Hj). apply Hget in Hj as [Hn Hj]. destruct (ri_entries _ _ H k j Hj) as (x & Hx).
    exists x. by rewrite list_lookup_insert_ne.
  - intros j x Hj Ht. apply (insert_entry _ _ e) in Hj as [[-> ->]|[Hn Hj]]; [by destruct Ht| |done].
    pose proof (ri_timers _ _ H j x Hj Ht) as Hm. rewrite mapGet_delete. destruct (String.eqb_spec key (en_key x)); [|done].
    subst key. congruence.
  - intros x Hx'. apply list_elem_of_lookup in Hx' as [j Hj]. apply (insert_entry _ _ e) in Hj as [[-> ->]|[Hn Hj]]; [| |done].
    + by destruct (ri_keys _ _ H e (elem_of_store _ _ _ He)).
    + apply (ri_keys _ _ H). by eapply elem_of_store.
  - apply H.
  - intros j x r Hj Hcur. pose proof (Hne _ _ Hcur). apply (insert_entry _ _ e) in Hj as [[-> ->]|[Hn Hj]]; [done| |done].
    apply Hget in Hcur as [_ Hcur]. by apply (ri_pending _ _ H).
  - intros j x r Hj Hr. apply (insert_entry _ _ e) in Hj as [[-> ->]|[Hn Hj]]; [| |done].
    + by apply (ri_covered _ _ H id e).
    + by apply (ri_covered _ _ H j x).
  - apply H.
  - intros ref j Hin. rewrite (meta_insert _ id e) by done. by apply (ri_attributed _ _ H).
  - apply H.
  - rewrite (meta_insert _ id e) by done. apply H.
  - destruct (ri_runs _ _ H) as [Hn Hr]. split; [done|]. intros run Hrun. destruct (Hr run Hrun) as (x & Ex & Tx).
    destruct (decide (fb_entry run = id)) as [->|Hne']; [|exists x; by rewrite list_lookup_insert_ne].
    exists (withTimers false false e). rewrite list_lookup_insert_eq by (by eapply lookup_lt_Some). done.
Qed.

(** An entry of the map is changed, and leaves the map when that covers it. *)
Lemma cover_rinv R rest rest' id e e' (leave : bool) : rinv R rest -> store R !! id = Some e ->
  mapGet (entries R) (en_key e) = Some id -> meta e' = meta e ->
  en_expiryTimer e' = en_expiryTimer e -> (en_fallbackTimer e' = true -> en_fallbackTimer e = true) ->
  (leave = false -> isCovered e' = false) ->
  NoDup (openClaims R rest') ->
  (forall j r, j <> id -> (j, r) ∈ openClaims R rest' <-> (j, r) ∈ openClaims R rest) ->
  (forall r, r ∈ en_pending e' <-> (id, r) ∈ openClaims R rest') ->
  (forall r, r ∈ en_covered e' -> r ∈ en_covered e \/
     exists ref ev, (ref, id) ∈ owners R /\ reports (plans R) ref (meta e) ev /\ r ∈ pe_resources ev) ->
  let R' := withStore R (<[id:=e']> (store R)) in
  rinv (if leave && isCovered e' then remove R' (en_key e') else R') rest'.
Proof.
  intros H He Hcur Hm Hx Hf Hc Hnd Hoth Hp Hcov R'. destruct (leave && isCovered e') eqn:El.
  - unfold R', remove. cbn [withStore entries store nextOrder recent plans runs owners]. rewrite (meta_key e e' Hm), Hcur.
    pose proof (remove_rinv R rest (en_key e) H) as H1. unfold remove in H1. rewrite Hcur in H1.
    rewrite (alter_entry _ _ id e He) in H1. pose proof (lookup_lt_Some _ _ _ He) as Hlt.
    rewrite (alter_entry _ _ id e') by (by apply list_lookup_insert_eq).
    apply (entry_rinv _ _ rest' id (withTimers false false e) (withTimers false false e')) in H1;
      cbn [entries store nextOrder recent plans runs owners] in *.
    + unfold withStore in H1. cbn [entries store nextOrder recent plans runs owners] in H1.
      by rewrite !list_insert_insert_eq in H1 |- *.
    + by apply list_lookup_insert_eq.
    + done.
    + done.
    + done.
    + unfold en_key. cbn. fold (en_key e). rewrite mapGet_delete, String.eqb_refl. done.
    + done.
    + done.
    + unfold en_key. cbn. fold (en_key e). rewrite mapGet_delete, String.eqb_refl. done.
    + done.
  - apply (entry_rinv _ rest _ _ e); try done. intros _. destruct leave; [done|]. by apply Hc.
Qed.

(** *** Plans *)
Lemma reports_mono (ps ps' : list Plan) ref m ev :
  (forall i pl, ps !! i = Some pl -> pl_settled pl = Some true ->
     exists pl', ps' !! i = Some pl' /\ pl_settled pl' = Some true /\ pl_events pl' = pl_events pl /\ pl_order pl' = pl_order pl) ->
  reports ps ref m ev -> reports ps' ref m ev.
Proof.
  intros Hps (pl & Hp & Hs & He & Hm & Ho). destruct (Hps _ _ Hp Hs) as (pl' & Hp' & Hs' & He' & Ho').
  exists pl'. rewrite He', Ho'. done.
Qed.

Lemma recent_ok_mono (ps ps' : list Plan) os os' rc :
  (forall i pl, ps !! i = Some pl -> pl_settled pl = Some true ->
     exists pl', ps' !! i = Some pl' /\ pl_settled pl' = Some true /\ pl_events pl' = pl_events pl /\ pl_order pl' = pl_order pl) ->
  (rc_ref rc ∈ map fst os' -> rc_ref rc ∈ map fst os) ->
  recent_ok ps os rc -> recent_ok ps' os' rc.
Proof.
  intros Hps Hos [(pl & Hp & Hs & He) Hc]. destruct (Hps _ _ Hp Hs) as (pl' & Hp' & Hs' & He' & Ho'). split; [|auto].
  exists pl'. by rewrite He'.
Qed.

(** The plans change, no settled one, and attributions are added for events of settled plans that
    are not recent yet. *)
Lemma plans_rinv R rest rest' ps os : rinv R rest ->
  (forall i pl, plans R !! i = Some pl -> pl_settled pl = Some true ->
     exists pl', ps !! i = Some pl' /\ pl_settled pl' = Some true /\ pl_events pl' = pl_events pl /\ pl_order pl' = pl_order pl) ->
  NoDup ((ps ≫= openPlan) ++ flatC rest') ->
  (forall c, c ∈ (ps ≫= openPlan) ++ flatC rest' <-> c ∈ openClaims R rest) ->
  Forall (plan_ok (map meta (store R))) ps ->
  NoDup (map fst (owners R ++ os)) ->
  (forall ref id, (ref, id) ∈ os -> exists m ev, map meta (store R) !! id = Some m /\ reports ps ref m ev) ->
  (forall rc ref, rc ∈ recent R -> ref ∈ map fst os -> rc_ref rc <> ref) ->
  rinv {| entries := entries R; store := store R; nextOrder := nextOrder R; recent := recent R; plans := ps; runs := runs R;
          owners := owners R ++ os |} rest'.
Proof.
  intros H Hps Hnd Hcl Hok Hos Hat Hrc. split; cbn [entries store nextOrder recent plans runs owners].
  - apply H.
  - apply H.
  - apply H.
  - apply H.
  - done.
  - intros id e r He Hc. rewrite (ri_pending _ _ H id e r He Hc). symmetry. apply Hcl.
  - intros id e r He Hr. destruct (ri_covered _ _ H id e r He Hr) as (ref & ev & Ho & Hrep & Hin). exists ref, ev.
    split_and!; [set_solver| |done]. by eapply reports_mono.
  - done.
  - intros ref id [Hin|Hin]%elem_of_app; [|by apply Hat]. destruct (ri_attributed _ _ H ref id Hin) as (m & ev & Hm & Hr).
    exists m, ev. split; [done|]. by eapply reports_mono.
  - destruct (ri_recent _ _ H) as [Hn Hf]. split; [done|]. apply Forall_forall. intros rc Hin.
    eapply recent_ok_mono; [exact Hps| |by eapply (proj1 (Forall_forall _ _) Hf)]. rewrite map_app. intros [?|Ho]%elem_of_app; [done|].
    by destruct (Hrc rc _ Hin Ho).
  - done.
  - apply H.
Qed.

Definition withRecent (R : Registry) (l : list RecentAcceptedEvent) : Registry := {|
  entries := entries R; store := store R; nextOrder := nextOrder R; recent := l; plans := plans R; runs := runs R;
  owners := owners R |}.

Lemma recent_rinv R rest l : rinv R rest -> NoDup (map rc_ref l) -> Forall (recent_ok (plans R) (owners R)) l ->
  rinv (withRecent R l) rest.
Proof. intros H Hn Hf. destruct H. by split. Qed.

Lemma pruneRecent_sublist ms now l : sublist (pruneRecent ms now l) l.
Proof.
  unfold pruneRecent. etrans; [apply sublist_drop|]. induction l as [|x l IH]; cbn [List.filter]; [done|].
  destruct (_ <=? _); by constructor.
Qed.

Lemma pruned_ok ms now ps os l : NoDup (map rc_ref l) /\ Forall (recent_ok ps os) l ->
  NoDup (map rc_ref (pruneRecent ms now l)) /\ Forall (recent_ok ps os) (pruneRecent ms now l).
Proof.
  intros [Hn Hf]. pose proof (pruneRecent_sublist ms now l) as Hs. split.
  - eapply sublist_NoDup; [exact Hn|exact (fmap_sublist rc_ref _ _ Hs)].
  - apply Forall_forall. intros x Hx. eapply Forall_forall; [exact Hf|]. by eapply elem_of_sublist.
Qed.

(** *** Claims *)
Lemma flatC_cons id rs l : flatC ((id, rs) :: l) = map (pair id) rs ++ flatC l.
Proof. done. Qed.

Lemma elem_of_pairs (id j : nat) (r : string) rs : (j, r) ∈ map (pair id) rs <-> j = id /\ r ∈ rs.
Proof.
  rewrite list_elem_of_In, in_map_iff. setoid_rewrite list_elem_of_In. split.
  - intros (x & [= -> ->] & Hx). done.
  - intros [-> Hr]. by exists r.
Qed.

Lemma foldl_setAdd_app old rs : NoDup rs -> (forall r, r ∈ rs -> r ∉ old) -> foldl setAdd old rs = old ++ rs.
Proof.
  revert old. induction rs as [|r rs IH]; intros old Hn Hd; cbn [foldl]; [by rewrite app_nil_r|].
  apply NoDup_cons in Hn as [Hr Hn]. unfold setAdd at 2. rewrite (proj2 (member_false r old)) by set_solver.
  rewrite IH; [by rewrite <- app_assoc|done|set_solver].
Qed.

Lemma flatC_claimSet l id rs : NoDup rs -> (forall r, r ∈ rs -> (id, r) ∉ flatC l) ->
  flatC (claimSet l id rs) ≡ₚ flatC l ++ map (pair id) rs.
Proof.
  intros Hn. induction l as [|[i old] l IH]; intros Hd; cbn [claimSet].
  - rewrite foldl_setAdd_app by (done || set_solver). rewrite flatC_cons. by rewrite app_nil_r.
  - rewrite flatC_cons in Hd. destruct (Nat.eqb_spec i id) as [->|Hne].
    + rewrite foldl_setAdd_app; [|done|].
      * rewrite !flatC_cons, map_app. rewrite <- !app_assoc. apply Permutation_app_head, Permutation_app_comm.
      * intros r Hr Hold. apply (Hd r Hr), elem_of_app. left. by apply elem_of_pairs.
    + rewrite !flatC_cons, <- app_assoc. apply Permutation_app_head, IH. intros r Hr Hin. apply (Hd r Hr), elem_of_app. by right.
Qed.

Lemma claimResources_spec e rs : let '(e', cs) := claimResources e rs in
  e' = withSets (en_covered e) (en_pending e ++ cs) e /\ NoDup cs /\
  (forall r, r ∈ cs <-> r ∈ rs /\ wants e r = true).
Proof.
  unfold claimResources. induction rs as [|x rs IH] using rev_ind; cbn [foldl].
  - split_and!; [|apply NoDup_nil_2|set_solver]. rewrite app_nil_r. by destruct e.
  - rewrite foldl_app. destruct (foldl _ (e, []) rs) as [e1 cs]. destruct IH as (-> & Hn & Hcs). cbn [foldl].
    set (e1 := withSets _ _ e). destruct (wants e1 x) eqn:Ew.
    + assert (Hx : wants e x = true /\ x ∉ en_pending e ++ cs).
      { unfold wants, e1, en_resources in Ew. cbn [withSets en_covered en_pending en_expected] in Ew. apply andb_true_iff in Ew as [Ew Hp]. apply negb_true_iff, member_false in Hp.
        split; [|done]. unfold wants. apply andb_true_iff. split; [done|]. apply negb_true_iff, member_false. set_solver. }
      destruct Hx as [Hx Hni]. split_and!.
      * unfold e1, withSets. cbn. unfold setAdd. rewrite (proj2 (member_false _ _)) by done. by rewrite app_assoc.
      * apply NoDup_app. split_and!; [done|set_solver|apply NoDup_singleton].
      * intros r. rewrite !elem_of_app, Hcs, !list_elem_of_singleton. naive_solver.
    + split_and!; [done|done|]. intros r. rewrite elem_of_app, Hcs, list_elem_of_singleton. split; [naive_solver|].
      intros [[Hr| ->] Hw]; [done|]. split; [|done]. unfold wants, e1, en_resources in Ew, Hw. cbn [withSets en_covered en_pending en_expected] in Ew.
      rewrite !andb_true_iff, !negb_true_iff in Hw. destruct Hw as [[H1 H2] H3]. 
      rewrite H1, H2 in Ew. cbn [andb negb] in Ew. apply negb_false_iff, member_spec, elem_of_app in Ew as [Ew|Ew]; [|by apply Hcs].
      apply member_false in H3. done.
Qed.

Lemma claimant_spec ids s ev id : claimant ids s ev = Some id ->
  id ∈ ids /\ exists e, s !! id = Some e /\ matchesExpectedMutation (en_expected e) (pe_event ev) = true.
Proof.
  unfold claimant. set (matches := List.filter _ ids).
  assert (Hm : forall j, j ∈ matches -> j ∈ ids /\ exists e, s !! j = Some e /\ matchesExpectedMutation (en_expected e) (pe_event ev) = true).
  { intros j Hj. apply list_elem_of_In, filter_In in Hj as [Hin Ht]. split; [by apply list_elem_of_In|].
    destruct (s !! j) as [e|]; [|done]. by exists e. }
  destruct (List.find _ matches) as [j|] eqn:Ef.
  - intros [= <-]. apply find_some in Ef as [Hin _]. by apply Hm, list_elem_of_In.
  - destruct matches as [|j m]; [done|]. intros [= <-]. apply Hm. left.
Qed.

Lemma current_ids R rest id : rinv R rest -> id ∈ map snd (entries R) ->
  exists e, store R !! id = Some e /\ mapGet (entries R) (en_key e) = Some id /\ isCovered e = false.
Proof.
  intros H Hin. apply list_elem_of_In, in_map_iff in Hin as ([k j] & <- & Hin). cbn [snd].
  apply list_elem_of_In, (elem_of_mapGet _ _ _ (ri_wf _ _ H)) in Hin.
  destruct (ri_entries _ _ H k j Hin) as (e & He & Hk & _ & Hc). exists e. by rewrite Hk.
Qed.

Lemma planned_ok_snoc ms order evs planned claimed ev owner : planned_ok ms order evs planned claimed -> forall claimed',
  (forall id, owner = Some id -> exists m, ms !! id = Some m /\ matchesExpectedMutation m.1 (pe_event ev) = true /\ m.2 <= order) ->
  (forall id r, (id, r) ∈ flatC claimed' -> (id, r) ∈ flatC claimed \/ owner = Some id /\ r ∈ pe_resources ev) ->
  planned_ok ms order (evs ++ [ev]) (planned ++ [owner]) claimed'.
Proof.
  intros (Hlen & Hp & Hc) claimed' Ho Hc'. split_and!.
  - rewrite !length_app. cbn. lia.
  - intros i id Hi. apply lookup_app_Some in Hi as [Hi|[Hge Hi]].
    + destruct (Hp i id Hi) as (m & e & Hm & He & Hr). exists m, e. split; [done|]. split; [|done]. by apply lookup_app_l_Some.
    + apply list_lookup_singleton_Some in Hi as [Hi ->]. destruct (Ho id eq_refl) as (m & Hm & Hr). exists m, ev.
      split; [done|]. split; [|done]. rewrite lookup_app_r by lia. by replace (i - length evs)%nat with 0%nat by lia.
  - intros id r Hr. destruct (Hc' id r Hr) as [Hin|[-> Hin]].
    + destruct (Hc id r Hin) as (i & e & Hi & He & Hre). exists i, e. split_and!; [by apply lookup_app_l_Some..|done].
    + exists (length planned), ev. split_and!; [|rewrite Hlen|done]; by rewrite lookup_app_r, Nat.sub_diag by lia.
Qed.

Lemma meta_lookup (s : list ExpectedEntry) id e : s !! id = Some e -> map meta s !! id = Some (meta e).
Proof. intros H. change ((meta <$> s) !! id = Some (meta e)). by rewrite list_lookup_fmap, H. Qed.

Definition planning_ok (R : Registry) (evs : list PlannedEarnRealtimeEvent) (g : Planning) : Prop :=
  rinv (withStore R (pg_store g)) (pg_claimed g) /\
  planned_ok (map meta (pg_store g)) (nextOrder R) evs (pg_planned g) (pg_claimed g).

Lemma planEvent_ok R evs g ev : planning_ok R evs g -> planning_ok R (evs ++ [ev]) (planEvent (map snd (entries R)) g ev).
Proof.
  intros [H Hp]. unfold planEvent. destruct (claimant _ _ ev) as [id|] eqn:Ec.
  2:{ split; [exact H|]. cbn [pg_store pg_claimed pg_planned]. apply (planned_ok_snoc _ _ _ _ _ ev None Hp); [done|auto]. }
  apply claimant_spec in Ec as [Hid (e0 & He0 & Hmatch)].
  destruct (current_ids _ _ id H Hid) as (e & He & Hcur & Hcov). cbn [withStore store entries] in He, Hcur.
  rewrite He in He0 |- *. injection He0 as <-.
  set (e1 := if _ && _ then _ else e). assert (H1 : meta e1 = meta e /\ en_expiryTimer e1 = en_expiryTimer e /\
    en_fallbackTimer e1 = en_fallbackTimer e /\ en_covered e1 = en_covered e /\ en_pending e1 = en_pending e /\
    en_relatedCovered e1 = en_relatedCovered e) by (unfold e1; by destruct (_ && _)).
  clearbody e1. destruct H1 as (Hm & Hx & Hf & Hc & Hpe & Hrel).
  pose proof (claimResources_spec e1 (pe_resources ev)) as Hs. destruct (claimResources e1 (pe_resources ev)) as [e2 cs].
  destruct Hs as (-> & Hnd & Hcs). rewrite Hc, Hpe in *. set (e2 := withSets _ _ e1).
  assert (Hm2 : meta e2 = meta e) by exact Hm.
  assert (Hfresh : forall r, r ∈ cs -> (id, r) ∉ openClaims R (pg_claimed g)).
  { intros r Hr Hin. apply (ri_pending _ _ H id e r He Hcur) in Hin. apply Hcs in Hr as [_ Hw]. unfold wants in Hw.
    rewrite Hpe in Hw. apply andb_true_iff in Hw as [_ Hw]. apply negb_true_iff, member_false in Hw. done. }
  assert (Hperm : openClaims R (claimSet (pg_claimed g) id cs) ≡ₚ openClaims R (pg_claimed g) ++ map (pair id) cs).
  { unfold openClaims. rewrite flatC_claimSet, app_assoc; [done|done|]. intros r Hr Hin. apply (Hfresh r Hr), elem_of_app. by right. }
  split; cbn [pg_store pg_claimed pg_planned].
  - apply (entry_rinv (withStore R (pg_store g)) (pg_claimed g) _ id e e2 H He Hm2 Hx).
    + unfold e2. cbn. by rewrite Hf.
    + intros _. rewrite <- Hcov. unfold isCovered, e2, en_resources. cbn [withSets en_expected en_covered en_relatedCovered].
      injection Hm as -> _. by rewrite Hrel.
    + change (NoDup (openClaims R (claimSet (pg_claimed g) id cs))). rewrite Hperm. apply NoDup_app. split_and!.
      * apply H.
      * intros [j r] Hin Hp'. apply elem_of_pairs in Hp' as [-> Hr]. by destruct (Hfresh r Hr).
      * by apply NoDup_fmap_2; [intros ?? [= ->]|].
    + intros j r Hj. change (openClaims (withStore R ?s) ?l) with (openClaims R l). rewrite Hperm, elem_of_app, elem_of_pairs. naive_solver.
    + intros _ r. change (openClaims (withStore R ?s) ?l) with (openClaims R l). rewrite Hperm, elem_of_app, elem_of_pairs.
      unfold e2. cbn [withSets en_pending]. rewrite elem_of_app.
      pose proof (ri_pending _ _ H id e r He Hcur) as Hq. change (openClaims (withStore R ?s) ?l) with (openClaims R l) in Hq.
      rewrite Hq. naive_solver.
    + intros r Hr. left. exact Hr.
  - rewrite (meta_insert _ id e) by done. apply (planned_ok_snoc _ _ _ _ _ ev (Some id) Hp).
    + intros j [= <-]. exists (meta e). split; [by apply meta_lookup|]. split; [done|].
      by apply (ri_keys _ _ H e), (elem_of_store _ id).
    + intros j r. rewrite flatC_claimSet; [|done|].
      * rewrite elem_of_app, elem_of_pairs. intros [?|[-> Hr]]; [by left|]. right. split; [done|]. by apply Hcs in Hr as [? _].
      * intros r' Hr' Hin. apply (Hfresh r' Hr'), elem_of_app. by right.
Qed.

Lemma plan_rinv ms now events R : rinv R [] -> rinv (plan ms now events R) [].
Proof.
  intros H. unfold plan. set (g0 := {| pg_store := store R |}). set (g := foldl _ g0 events).
  assert (Hg : planning_ok R events g).
  { unfold g. assert (H0 : planning_ok R [] g0).
    { split; [by destruct R|]. split_and!; [done| |]; cbn; [done|set_solver]. }
    clearbody g0. clear g. change events with ([] ++ events) at 1. revert g0 H0. generalize (@nil PlannedEarnRealtimeEvent).
    induction events as [|ev evs IH]; intros done g0 H0; cbn [foldl]; [by rewrite app_nil_r|].
    rewrite cons_middle, app_assoc. apply IH. by apply planEvent_ok. }
  destruct Hg as [Hi Hp]. set (pl := {| pl_events := events |}).
  assert (Hpl : openPlan pl = flatC (pg_claimed g)) by done.
  pose proof (plans_rinv _ _ [] (plans R ++ [pl]) [] Hi) as H1. cbn [withStore entries store nextOrder recent plans runs owners] in H1.
  rewrite !app_nil_r in H1.
  rewrite bind_app in H1. cbn [mbind list_bind] in H1. rewrite Hpl in H1. change (flatC []) with (@nil (nat * string)) in H1.
  rewrite !app_nil_r in H1.
  assert (H2 := H1 ltac:(intros i x Hx Hs; exists x; split; [by apply lookup_app_l_Some|done]) (ri_claims _ _ Hi) ltac:(done)
    ltac:(apply Forall_app; split; [apply Hi|by apply Forall_singleton]) (ri_owners _ _ Hi) ltac:(set_solver) ltac:(set_solver)).
  destruct (pruned_ok ms now _ _ _ (ri_recent _ _ H2)) as [Hn Hf]. exact (recent_rinv _ _ _ H2 Hn Hf).
Qed.

(** *** Accepting *)
Lemma insert_split {A} (l : list A) p x y : l !! p = Some x ->
  exists l1 l2, l = l1 ++ x :: l2 /\ <[p:=y]> l = l1 ++ y :: l2.
Proof.
  intros Hp. exists (take p l), (drop (S p) l). split; [by rewrite take_drop_middle|].
  by rewrite insert_take_drop by (by eapply lookup_lt_Some).
Qed.

Lemma settled_claims (ps : list Plan) p pl pl' : ps !! p = Some pl -> openPlan pl' = [] ->
  (<[p:=pl']> ps ≫= openPlan) ++ openPlan pl ≡ₚ ps ≫= openPlan.
Proof.
  intros Hp He. destruct (insert_split ps p pl pl' Hp) as (l1 & l2 & -> & ->). rewrite !bind_app, !bind_cons, He. cbn [app].
  rewrite <- app_assoc. apply Permutation_app_head. apply Permutation_app_comm.
Qed.

Lemma plannedOwners_spec p pl ref id : (ref, id) ∈ plannedOwners p pl <->
  exists i, ref = (p, i) /\ pl_planned pl !! i = Some (Some id).
Proof.
  unfold plannedOwners. rewrite list_elem_of_omap. split.
  - intros ([i owner] & Hin & Hb). apply elem_of_lookup_imap in Hin as (j & y & [= -> ->] & Hj).
    destruct y as [x|]; [|done]. cbn in Hb. injection Hb as <- <-. by exists j.
  - intros (i & -> & Hi). exists (i, Some id). split; [|done]. apply elem_of_lookup_imap. by exists i, (Some id).
Qed.

Lemma plannedOwners_NoDup p pl : NoDup (map fst (plannedOwners p pl)).
Proof.
  unfold plannedOwners. enough (H : forall k l, NoDup (map fst (omap (fun '(i, owner) => id ← owner; Some ((p, i), id))
      (imap (fun i (x : option nat) => ((k + i)%nat, x)) l)) : list (nat * nat)) /\
    forall j, (p, j) ∈ map fst (omap (fun '(i, owner) => id ← owner; Some ((p, i), id))
      (imap (fun i (x : option nat) => ((k + i)%nat, x)) l)) -> (k <= j)%nat) by apply (H 0%nat (pl_planned pl)).
  intros k l. revert k. induction l as [|x l IH]; intros k; [split; [apply NoDup_nil_2|set_solver]|].
  rewrite imap_cons. assert (Heq : imap ((fun i (x : option nat) => ((k + i)%nat, x)) ∘ S) l = imap (fun i x => ((S k + i)%nat, x)) l).
  { apply imap_ext. intros i y _. cbn. f_equal. lia. }
  rewrite Heq. destruct (IH (S k)) as [Hn Hb]. cbn [omap list_omap]. rewrite Nat.add_0_r. destruct x as [id|]; cbn.
  - split; [apply NoDup_cons; split; [|done]; intros Hin; apply Hb in Hin; lia|].
    intros j [[= ->]|Hin]%elem_of_cons; [lia|]. apply Hb in Hin. lia.
  - split; [done|]. intros j Hin. apply Hb in Hin. lia.
Qed.

Definition settle (accepted : bool) (pl : Plan) : Plan := {|
  pl_events := pl_events pl; pl_resources := pl_resources pl; pl_claimed := pl_claimed pl; pl_related := pl_related pl;
  pl_planned := pl_planned pl; pl_order := pl_order pl; pl_settled := Some accepted;
  pl_relatedReconciled := pl_relatedReconciled pl |}.

(** The registry when [accept] has marked the plan *)
Definition settling (R : Registry) (p : nat) (pl : Plan) (accepted : bool) : Registry := {|
  entries := entries R; store := store R; nextOrder := nextOrder R; recent := recent R;
  plans := <[p:=settle accepted pl]> (plans R); runs := runs R;
  owners := if accepted then owners R ++ plannedOwners p pl else owners R |}.

Lemma planned_reports R p pl i id : rinv R [] -> plans R !! p = Some pl -> pl_planned pl !! i = Some (Some id) ->
  exists m ev, map meta (store R) !! id = Some m /\ pl_events pl !! i = Some ev /\
    reports (<[p:=settle true pl]> (plans R)) (p, i) m ev.
Proof.
  intros H Hp Hi. pose proof (Forall_lookup_1 _ _ _ _ (ri_plans _ _ H) Hp) as (_ & Hpl & _).
  destruct (Hpl i id Hi) as (m & ev & Hm & He & Hmatch & Ho). exists m, ev. split_and!; [done..|].
  exists (settle true pl). split_and!; try done.
  - apply list_lookup_insert_eq. by eapply lookup_lt_Some.
  - cbn. lia.
Qed.

Lemma unsettled_refs R rest p pl : rinv R rest -> plans R !! p = Some pl -> pl_settled pl = None ->
  (forall ref, ref ∈ map fst (owners R) -> ref.1 <> p) /\ (forall rc, rc ∈ recent R -> (rc_ref rc).1 <> p).
Proof.
  intros H Hp Hs. split.
  - intros ref Hin ->%symmetry. apply list_elem_of_In, in_map_iff in Hin as ([ref' id] & <- & Hin).
    apply list_elem_of_In in Hin. destruct (ri_attributed _ _ H ref' id Hin) as (m & ev & _ & x & Hx & Hs' & _).
    cbn in Hp. congruence.
  - intros rc Hin E. destruct (ri_recent _ _ H) as [_ Hf]. pose proof (proj1 (Forall_forall _ _) Hf rc Hin) as [(x & Hx & Hs' & _) _].
    congruence.
Qed.

Lemma settling_rinv R p pl accepted : rinv R [] -> plans R !! p = Some pl -> pl_settled pl = None ->
  rinv (settling R p pl accepted) (pl_claimed pl).
Proof.
  intros H Hp Hs. destruct (unsettled_refs _ _ _ _ H Hp Hs) as [Hu1 Hu2].
  assert (Hperm : (<[p:=settle accepted pl]> (plans R) ≫= openPlan) ++ flatC (pl_claimed pl) ≡ₚ openClaims R []).
  { unfold openClaims. change (flatC []) with (@nil (nat * string)). rewrite app_nil_r.
    rewrite <- (settled_claims (plans R) p pl (settle accepted pl) Hp) by done. apply Permutation_app_head. unfold openPlan. by rewrite Hs. }
  set (os := if accepted then plannedOwners p pl else []).
  assert (Hr : settling R p pl accepted = {| entries := entries R; store := store R; nextOrder := nextOrder R; recent := recent R;
    plans := <[p:=settle accepted pl]> (plans R); runs := runs R; owners := owners R ++ os |}).
  { unfold settling, os. destruct accepted; [done|]. by rewrite app_nil_r. }
  rewrite Hr. clear Hr.
  assert (Hos : forall ref id, (ref, id) ∈ os -> accepted = true /\ exists i, ref = (p, i) /\ pl_planned pl !! i = Some (Some id)).
  { intros ref id Hin. unfold os in Hin. destruct accepted; [|set_solver]. split; [done|]. by apply plannedOwners_spec. }
  assert (Hosp : forall ref, ref ∈ map fst os -> ref.1 = p).
  { intros ref Hin. apply list_elem_of_In, in_map_iff in Hin as ([ref' id] & <- & Hin). apply list_elem_of_In in Hin.
    apply Hos in Hin as [_ (i & -> & _)]. done. }
  apply (plans_rinv R []); try done.
  - intros i x Hx Hsx. exists x. split_and!; try done. rewrite list_lookup_insert_ne; [done|]. intros ->. congruence.
  - rewrite Hperm. apply H.
  - intros c. by rewrite Hperm.
  - apply Forall_insert; [apply H|]. exact (Forall_lookup_1 _ _ _ _ (ri_plans _ _ H) Hp).
  - rewrite map_app. apply NoDup_app. split_and!; [apply H| |].
    + intros ref Hin Hin'. apply (Hu1 ref Hin). by apply Hosp.
    + unfold os. destruct accepted; [apply plannedOwners_NoDup|apply NoDup_nil_2].
  - intros ref id Hin. apply Hos in Hin as [-> (i & -> & Hi)]. destruct (planned_reports R p pl i id H Hp Hi) as (m & ev & Hm & _ & Hrep).
    by exists m, ev.
  - intros rc ref Hin Hin' E. apply (Hu2 rc Hin). rewrite E. by apply Hosp.
Qed.

(** Claims on an entry that left the map are dropped. *)
Lemma drop_claims R id rs rest : rinv R ((id, rs) :: rest) ->
  (forall e, store R !! id = Some e -> mapGet (entries R) (en_key e) <> Some id) -> rinv R rest.
Proof.
  intros H Hne. assert (Hperm : openClaims R ((id, rs) :: rest) ≡ₚ map (pair id) rs ++ openClaims R rest).
  { unfold openClaims. rewrite flatC_cons. rewrite app_assoc, (Permutation_app_comm _ (map (pair id) rs)). by rewrite app_assoc. }
  destruct H as [H1 H2 H3 H4 H5 H6 H7 H8 H9 H10 H11 H12]. split; try done.
  - rewrite Hperm in H5. by apply NoDup_app in H5 as (_ & _ & ?).
  - intros j e r He Hc. rewrite (H6 j e r He Hc), Hperm, elem_of_app, elem_of_pairs. split; [|by right].
    intros [[-> _]|?]; [|done]. by destruct (Hne e He).
Qed.

Lemma settleFold_spec (accepted : bool) e rs :
  foldl (fun e r => withSets (if accepted then setAdd (en_covered e) r else en_covered e) (setRemove (en_pending e) r) e) e rs =
  withSets (if accepted then foldl setAdd (en_covered e) rs else en_covered e) (foldl setRemove (en_pending e) rs) e.
Proof.
  revert e. induction rs as [|r rs IH]; intros e; cbn [foldl]; [by destruct e, accepted|]. rewrite IH.
  unfold withSets. cbn. by destruct accepted.
Qed.

Lemma foldl_setRemove rs l x : x ∈ foldl setRemove l rs <-> x ∈ l /\ x ∉ rs.
Proof.
  revert l. induction rs as [|r rs IH]; intros l; cbn [foldl]; [set_solver|]. rewrite IH, setRemove_elem. set_solver.
Qed.

(** What accepting leaves alone *)
Definition same_record (R R' : Registry) : Prop :=
  plans R' = plans R /\ owners R' = owners R /\ recent R' = recent R /\ map meta (store R') = map meta (store R).

Lemma same_record_trans R R1 R2 : same_record R R1 -> same_record R1 R2 -> same_record R R2.
Proof. unfold same_record. intuition congruence. Qed.

Lemma remove_same R key : same_record R (remove R key).
Proof.
  unfold remove. destruct (mapGet (entries R) key) as [id|]; [|done]. split_and!; try done. cbn [store].
  destruct (store R !! id) as [e|] eqn:He.
  - rewrite (alter_entry _ _ _ _ He). by apply (meta_insert _ id e).
  - f_equal. trans (alter (fun x => x) id (store R)); [|by apply list_alter_id]. apply list_alter_ext; [congruence|done].
Qed.

Lemma settleClaim_rinv accepted pl R id rs rest : rinv R ((id, rs) :: rest) ->
  (accepted = true -> forall e r, store R !! id = Some e -> r ∈ rs ->
     exists ref ev, (ref, id) ∈ owners R /\ reports (plans R) ref (meta e) ev /\ r ∈ pe_resources ev) ->
  rinv (settleClaim accepted pl R (id, rs)) rest /\ same_record R (settleClaim accepted pl R (id, rs)).
Proof.
  intros H Hrep. unfold settleClaim. destruct (store R !! id) as [e|] eqn:He.
  2:{ split; [|done]. apply (drop_claims R id rs rest H). by rewrite He. }
  destruct (bool_decide_reflect (mapGet (entries R) (en_key e) = Some id)) as [Hcur|Hcur].
  2:{ split; [|done]. apply (drop_claims R id rs rest H). rewrite He. by intros ? [= <-]. }
  set (e1 := if bool_decide _ then _ else e).
  assert (H1 : meta e1 = meta e /\ en_expiryTimer e1 = en_expiryTimer e /\ en_fallbackTimer e1 = en_fallbackTimer e /\
    en_covered e1 = en_covered e /\ en_pending e1 = en_pending e /\ (accepted = false -> en_relatedCovered e1 = en_relatedCovered e)).
  { unfold e1. destruct (bool_decide _); [|done]. split_and!; try done. intros ->. apply orb_false_r. }
  clearbody e1. destruct H1 as (Hm & Hx & Hf & Hc & Hp & Hrel). rewrite settleFold_spec, Hc, Hp. cbv zeta.
  set (e2 := withSets _ _ e1). assert (Hm2 : meta e2 = meta e) by exact Hm.
  assert (Hperm : openClaims R ((id, rs) :: rest) ≡ₚ map (pair id) rs ++ openClaims R rest).
  { unfold openClaims. rewrite flatC_cons. rewrite app_assoc, (Permutation_app_comm _ (map (pair id) rs)). by rewrite app_assoc. }
  pose proof (ri_claims _ _ H) as Hnd. rewrite Hperm in Hnd. apply NoDup_app in Hnd as (_ & Hdis & Hnd).
  pose proof (ri_entries _ _ H (en_key e) id Hcur) as (e' & He' & _ & _ & Hic). rewrite He in He'. injection He' as <-.
  split.
  - apply (cover_rinv R ((id, rs) :: rest) rest id e e2 accepted H He Hcur Hm2 Hx); [by rewrite <- Hf| | |..].
    + intros ->. rewrite <- Hic. unfold isCovered, e2, en_resources. cbn [withSets en_expected en_covered en_relatedCovered].
      injection Hm as -> _. by rewrite Hrel.
    + done.
    + intros j r Hj. rewrite Hperm, elem_of_app, elem_of_pairs. naive_solver.
    + intros r. unfold e2. cbn [withSets en_pending]. rewrite foldl_setRemove, (ri_pending _ _ H id e r He Hcur), Hperm, elem_of_app, elem_of_pairs.
      split; [naive_solver|]. intros Hin. split; [by right|]. intros Hr. apply (Hdis (id, r)); [by apply elem_of_pairs|done].
    + intros r. unfold e2. cbn [withSets en_covered]. destruct accepted; [|by left]. rewrite foldl_setAdd_elem.
      intros [Hr|Hr]; [by left|right]. by apply Hrep.
  - assert (H0 : same_record R (withStore R (<[id:=e2]> (store R)))).
    { split_and!; try done. cbn [withStore store]. by apply (meta_insert _ id e). }
    destruct (accepted && isCovered e2); [|done]. eapply same_record_trans; [exact H0|]. apply remove_same.
Qed.

Lemma settleClaims_rinv accepted pl claims R : rinv R claims ->
  (accepted = true -> forall id r m, (id, r) ∈ flatC claims -> map meta (store R) !! id = Some m ->
     exists ref ev, (ref, id) ∈ owners R /\ reports (plans R) ref m ev /\ r ∈ pe_resources ev) ->
  rinv (foldl (settleClaim accepted pl) R claims) [] /\ same_record R (foldl (settleClaim accepted pl) R claims).
Proof.
  revert R. induction claims as [|[id rs] claims IH]; intros R H Hrep; cbn [foldl]; [done|].
  destruct (settleClaim_rinv accepted pl R id rs claims H) as [H1 Hs].
  { intros Ha e r He Hr. apply (Hrep Ha id r); [|by apply meta_lookup]. rewrite flatC_cons. apply elem_of_app. left. by apply elem_of_pairs. }
  destruct (IH _ H1) as [H2 Hs2].
  { intros Ha j r m Hin Hm. destruct Hs as (-> & -> & _ & Hme). rewrite Hme in Hm. apply (Hrep Ha j r m); [|done].
    rewrite flatC_cons. apply elem_of_app. by right. }
  split; [done|]. by eapply same_record_trans.
Qed.

Lemma lateFold_spec e rs :
  foldl (fun e r => if member r (en_resources e) then withSets (setAdd (en_covered e) r) (en_pending e) e else e) e rs =
  withSets (foldl setAdd (en_covered e) (List.filter (fun r => member r (en_resources e)) rs)) (en_pending e) e.
Proof.
  revert e. induction rs as [|r rs IH]; intros e; cbn [foldl List.filter]; [by destruct e|]. rewrite IH.
  destruct (member r (en_resources e)) eqn:Em; [|done]. unfold en_resources in *. unfold withSets. done.
Qed.

Lemma historical_spec x ev : matchesHistoricalExpectedMutation x ev = true ->
  matchesExpectedMutation x ev = true /\ isSignatureOnlyExpectedMutation x = false.
Proof. unfold matchesHistoricalExpectedMutation. by destruct (isSignatureOnlyExpectedMutation x). Qed.

Lemma truthy_key (k : string) : k <> ""%string -> truthy (Some k) = true.
Proof. intros H. cbn. by destruct (String.eqb_spec k ""). Qed.

Lemma lateClaim_spec p pl R i ev cb : rinv R [] -> plans R !! p = Some (settle true pl) -> pl_events pl !! i = Some ev ->
  (forall rc, rc ∈ recent R -> (rc_ref rc).1 <> p) -> ((p, i) ∈ map fst (owners R) -> truthy cb = true) ->
  let '(R1, cb1) := lateClaim p pl R i ev cb in
  rinv R1 [] /\ plans R1 = plans R /\ recent R1 = recent R /\
  (forall ref, ref ∈ map fst (owners R1) -> ref ∈ map fst (owners R) \/ ref = (p, i)) /\
  ((p, i) ∈ map fst (owners R1) -> truthy cb1 = true).
Proof.
  intros H Hp Hev Hrec Hcb. unfold lateClaim. destruct (truthy cb) eqn:Et; [split_and!; auto|].
  destruct (List.find _ _) as [id|] eqn:Ef; [|split_and!; auto; intros Hin; by discriminate (Hcb Hin)]. apply find_some in Ef as [Hid Htest].
  apply list_elem_of_In in Hid. destruct (current_ids _ _ _ H Hid) as (e & He & Hcur & _). rewrite He in Htest |- *.
  apply andb_true_iff in Htest as [Htest _]. apply andb_true_iff in Htest as [_ Hm]. apply historical_spec in Hm as [Hm Hsig].
  rewrite lateFold_spec. cbv zeta. set (e2 := withSets _ _ e).
  assert (Hnew : (p, i) ∉ map fst (owners R)) by (intros Hin; by discriminate (Hcb Hin)).
  assert (Hrep : reports (plans R) (p, i) (meta e) ev).
  { exists (settle true pl). split_and!; try done. }
  assert (H1 : rinv {| entries := entries R; store := store R; nextOrder := nextOrder R; recent := recent R; plans := plans R;
    runs := runs R; owners := owners R ++ [((p, i), id)] |} []).
  { apply (plans_rinv R [] [] (plans R) [((p, i), id)] H).
    - intros j x Hx Hs. by exists x.
    - apply H.
    - done.
    - apply H.
    - rewrite map_app. apply NoDup_app. split_and!; [apply H|set_solver|apply NoDup_singleton].
    - intros ref j Hin. apply list_elem_of_singleton in Hin as [= -> ->]. exists (meta e), ev. split; [by apply meta_lookup|done].
    - intros rc ref Hin Hr. apply list_elem_of_singleton in Hr as ->. intros E. apply (Hrec rc Hin). by rewrite E. }
  set (R0 := Build_Registry _ _ _ _ _ _ _) in H1.
  assert (H2 : rinv (if true && isCovered e2 then remove (withStore R0 (<[id:=e2]> (store R0))) (en_key e2)
                     else withStore R0 (<[id:=e2]> (store R0))) []).
  { apply (cover_rinv R0 [] [] id e e2 true H1); try done.
    - apply H1.
    - intros r. apply (ri_pending _ _ H1 id e r He Hcur).
    - intros r Hr. unfold e2 in Hr. cbn [withSets en_covered] in Hr. apply foldl_setAdd_elem in Hr as [Hr|Hr]; [by left|right].
      apply list_elem_of_In, filter_In in Hr as [Hr _]. exists (p, i), ev. split_and!; [|done|by apply list_elem_of_In].
      cbn [R0 owners]. set_solver. }
  cbn [andb] in H2. split; [exact H2|].
  assert (Hk : truthy (Some (en_key e2)) = true).
  { apply truthy_key. change (en_key e2) with (en_key e). apply (ri_keys _ _ H e). by eapply elem_of_store. }
  assert (Hsame : forall X, same_record X (if isCovered e2 then remove X (en_key e2) else X)).
  { intros X. destruct (isCovered e2); [apply remove_same|done]. }
  match goal with |- context [if isCovered e2 then remove ?X _ else _] => destruct (Hsame X) as (-> & -> & -> & _) end.
  cbn [plans recent owners]. split_and!; [done|done| |by intros _]. intros ref. rewrite map_app. intros [?|Hin]%elem_of_app; [by left|].
  apply list_elem_of_singleton in Hin. by right.
Qed.

Lemma lateClaims_spec now p pl evs : forall R i, rinv R [] -> plans R !! p = Some (settle true pl) ->
  (forall j ev cb, evs !! j = Some (ev, cb) -> pl_events pl !! (i + j)%nat = Some ev) ->
  (forall rc, rc ∈ recent R -> (rc_ref rc).1 <> p) ->
  (forall j ev cb, evs !! j = Some (ev, cb) -> (p, (i + j)%nat) ∈ map fst (owners R) -> truthy cb = true) ->
  let '(R', acc) := lateClaims now p pl R i evs in
  rinv R' [] /\ plans R' = plans R /\ recent R' = recent R /\ map rc_ref acc = map (pair p) (seq i (length evs)) /\
  Forall (recent_ok (plans R') (owners R')) acc /\
  (forall ref, ref ∈ map fst (owners R') -> ref ∈ map fst (owners R) \/ ref.1 = p /\ (i <= ref.2)%nat).
Proof.
  induction evs as [|[ev cb] evs IH]; intros R i H Hp Hev Hrec Hcb; cbn [lateClaims].
  { split_and!; try done. by left. }
  pose proof (Hev 0%nat ev cb eq_refl) as Hev0. rewrite Nat.add_0_r in Hev0.
  pose proof (Hcb 0%nat ev cb eq_refl) as Hcb0. rewrite Nat.add_0_r in Hcb0.
  pose proof (lateClaim_spec p pl R i ev cb H Hp Hev0 Hrec Hcb0) as Hone.
  destruct (lateClaim p pl R i ev cb) as [R1 cb1]. destruct Hone as (H1 & Hpl1 & Hrc1 & Ho1 & Ht1).
  assert (Hshift : forall j, (i + S j)%nat = (S i + j)%nat) by (intros; lia).
  assert (IH' := IH R1 (S i) H1 ltac:(by rewrite Hpl1)).
  destruct (lateClaims now p pl R1 (S i) evs) as [R2 acc].
  destruct IH' as (H2 & Hpl2 & Hrc2 & Href & Hall & Ho2).
  - intros j e c Hj. rewrite <- Hshift. by apply (Hev (S j) e c).
  - by rewrite Hrc1.
  - intros j e c Hj Hin. apply (Hcb (S j) e c Hj). rewrite Hshift. apply Ho1 in Hin as [Hin|[= Hin]]; [done|lia].
  - split_and!.
    + done.
    + congruence.
    + congruence.
    + cbn [map rc_ref length seq]. by rewrite Href.
    + apply Forall_cons. split; [|done]. split; cbn [rc_ref rc_planned rc_claimedBy fst snd].
      * exists (settle true pl). rewrite Hpl2, Hpl1. done.
      * intros Hin. apply Ho2 in Hin as [Hin|[_ Hin]]; [by apply Ht1|]. cbn in Hin. lia.
    + intros ref Hin. apply Ho2 in Hin as [Hin|[? ?]]; [|right; split; [done|lia]].
      apply Ho1 in Hin as [?| ->]; [by left|right]. done.
Qed.

Lemma accept_rinv ms now R p accepted R' : rinv R [] -> accept ms now R p accepted = Some R' -> rinv R' [].
Proof.
  intros H Ha. unfold accept in Ha. destruct (plans R !! p) as [pl|] eqn:Hp; [|done]. cbn [mbind option_bind] in Ha.
  destruct (pl_settled pl) eqn:Hs; [by injection Ha as <-|].
  change (Build_Registry _ _ _ _ _ _ (if accepted then _ else _)) with (settling R p pl accepted) in Ha.
  destruct (unsettled_refs _ _ _ _ H Hp Hs) as [Hu1 Hu2].
  destruct (settleClaims_rinv accepted pl (pl_claimed pl) (settling R p pl accepted)) as [H1 Hsame].
  { by apply settling_rinv. }
  { intros -> id r m Hin Hm. pose proof (Forall_lookup_1 _ _ _ _ (ri_plans _ _ H) Hp) as (_ & _ & Hcl).
    destruct (Hcl id r Hin) as (i & ev & Hi & Hev & Hr).
    destruct (planned_reports R p pl i id H Hp Hi) as (m' & ev' & Hm' & Hev' & Hrep).
    exists (p, i), ev. cbn [settling owners plans]. cbn [settling store] in Hm. rewrite Hm in Hm'. injection Hm' as <-.
    rewrite Hev in Hev'. injection Hev' as <-. split_and!; [|done|done]. apply elem_of_app. right. apply plannedOwners_spec. by exists i. }
  set (R1 := foldl _ _ _) in *. destruct Hsame as (Hpl1 & Ho1 & Hrc1 & _). cbn [settling plans owners recent] in Hpl1, Ho1, Hrc1.
  assert (Hfinal : forall R2 acc, rinv R2 [] -> NoDup (map rc_ref (recent R2 ++ acc)) ->
    Forall (recent_ok (plans R2) (owners R2)) (recent R2 ++ acc) ->
    rinv (withRecent R2 (pruneRecent ms now (recent R2 ++ acc))) []).
  { intros R2 acc H2 Hn Hf. destruct (pruned_ok ms now _ _ _ (conj Hn Hf)). by apply recent_rinv. }
  destruct accepted.
  - assert (Hlate := lateClaims_spec now p pl (zip (pl_events pl) (map (plannedKey R) (pl_planned pl))) R1 0 H1).
    destruct (lateClaims now p pl R1 0 _) as [R2 acc]. injection Ha as <-.
    destruct Hlate as (H2 & Hpl2 & Hrc2 & Href & Hall & Ho2).
    + rewrite Hpl1. apply list_lookup_insert_eq. by eapply lookup_lt_Some.
    + intros j ev cb Hj. by apply lookup_zip_Some in Hj as [? _].
    + by rewrite Hrc1.
    + intros j ev cb Hj Hin. cbn [Nat.add] in Hin. apply lookup_zip_Some in Hj as [_ Hj].
      rewrite Ho1, map_app in Hin. apply elem_of_app in Hin as [Hin|Hin]; [by destruct (Hu1 _ Hin)|].
      apply list_elem_of_In, in_map_iff in Hin as ([ref id] & Hr & Hin). cbn [fst] in Hr. subst ref.
      apply list_elem_of_In, plannedOwners_spec in Hin as (i & [= <-] & Hi).
      change (map (plannedKey R) (pl_planned pl)) with (plannedKey R <$> pl_planned pl) in Hj.
      rewrite list_lookup_fmap, Hi in Hj. cbn in Hj. injection Hj as <-. unfold plannedKey. cbn [mbind option_bind].
      destruct (planned_reports R p pl j id H Hp Hi) as (m & ev' & Hm & _).
      change (map meta (store R)) with (meta <$> store R) in Hm. rewrite list_lookup_fmap in Hm.
      destruct (store R !! id) as [e|] eqn:He; [|done]. cbn [mbind option_bind]. apply truthy_key.
      by apply (ri_keys _ _ H e), (elem_of_store _ id).
    + apply Hfinal; [done| |].
      * rewrite map_app, Href, Hrc2, Hrc1. apply NoDup_app. split_and!; [apply H| |].
        -- intros ref Hin Hin'. apply list_elem_of_In, in_map_iff in Hin as (rc & <- & Hin). apply list_elem_of_In in Hin.
           apply (Hu2 rc Hin). apply list_elem_of_In, in_map_iff in Hin' as (k & <- & _). done.
        -- apply NoDup_fmap_2; [intros ?? [= ->]; done|]. apply NoDup_seq.
      * apply Forall_app. split; [apply H2|done].
  - injection Ha as <-. apply (Hfinal R1 [] H1); rewrite app_nil_r; apply H1.
Qed.

(** *** Registering *)
Lemma coverFrom_spec e rs : let '(e', claimed) := coverFrom e rs in
  e' = withSets (en_covered e') (en_pending e) e /\
  (forall r, r ∈ en_covered e' -> r ∈ en_covered e \/ claimed = true /\ r ∈ rs).
Proof.
  unfold coverFrom. induction rs as [|x rs IH] using rev_ind; cbn [foldl]; [split; [by destruct e|by left]|].
  rewrite foldl_app. destruct (foldl _ (e, false) rs) as [e1 c]. destruct IH as [He Hc]. cbn [foldl].
  destruct (member x (en_resources e1) && negb (member x (en_covered e1))).
  - cbn [withSets en_covered]. split; [by rewrite He|]. intros r [Hr| ->]%setAdd_elem; [|set_solver].
    destruct (Hc r Hr) as [?|[-> ?]]; set_solver.
  - split; [done|]. intros r Hr. destruct (Hc r Hr) as [?|[-> ?]]; set_solver.
Qed.

(** The loop over the recent events [l], for an entry with key [k] and mutation [m] *)
Record claims_ok (m : ExpectedEarnMutation * Z) (l : list RecentAcceptedEvent) (e : ExpectedEntry)
    (done : list RecentAcceptedEvent) (refs : list (nat * nat)) : Prop := {
  co_meta : meta e = m;
  co_timers : en_expiryTimer e = false /\ en_fallbackTimer e = false;
  co_pending : en_pending e = [];
  co_refs : map rc_ref done = map rc_ref l;
  co_done : forall rc', rc' ∈ done -> exists rc, rc ∈ l /\ rc_ref rc' = rc_ref rc /\ rc_planned rc' = rc_planned rc /\
    (truthy (rc_claimedBy rc) = true -> truthy (rc_claimedBy rc') = true);
  co_marked : forall rc', rc' ∈ done -> rc_ref rc' ∈ refs -> truthy (rc_claimedBy rc') = true;
  co_sub : sublist refs (map rc_ref l);
  co_claimed : forall ref, ref ∈ refs -> exists rc, rc ∈ l /\ rc_ref rc = ref /\ truthy (rc_claimedBy rc) = false /\
    matchesHistoricalExpectedMutation m.1 (pe_event (rc_planned rc)) = true;
  co_covered : forall r, r ∈ en_covered e -> exists rc, rc ∈ l /\ rc_ref rc ∈ refs /\ r ∈ pe_resources (rc_planned rc) /\
    matchesHistoricalExpectedMutation m.1 (pe_event (rc_planned rc)) = true;
}.

Lemma claimRecent_ok m l e done refs rc : ex_key m.1 <> ""%string -> NoDup (map rc_ref (l ++ [rc])) -> claims_ok m l e done refs ->
  let '(e', done', refs') := claimRecent (e, done, refs) rc in claims_ok m (l ++ [rc]) e' done' refs'.
Proof.
  intros Hk Hn H. pose proof H as [Hm Ht Hp Hr Hd Hma Hs Hcl Hco]. unfold claimRecent.
  assert (Hfresh : rc_ref rc ∉ map rc_ref l).
  { rewrite map_app in Hn. apply NoDup_app in Hn as (_ & Hn & _). intros Hin. apply (Hn _ Hin). by left. }
  assert (Hfr : rc_ref rc ∉ refs) by (intros Hin; apply Hfresh; by eapply elem_of_sublist).
  assert (Hskip : claims_ok m (l ++ [rc]) e (done ++ [rc]) refs).
  { split; try done.
    - by rewrite !map_app, Hr.
    - intros rc' [Hin| ->%list_elem_of_singleton]%elem_of_app.
      + destruct (Hd rc' Hin) as (x & Hx & ?). exists x. set_solver.
      + exists rc. set_solver.
    - intros rc' [Hin| ->%list_elem_of_singleton]%elem_of_app Hin'; [by apply Hma|done].
    - rewrite map_app. by apply sublist_inserts_r.
    - intros ref Hin. destruct (Hcl ref Hin) as (x & Hx & ?). exists x. set_solver.
    - intros r Hin. destruct (Hco r Hin) as (x & Hx & ?). exists x. set_solver. }
  destruct (truthy (rc_claimedBy rc)) eqn:Etr; [done|]. cbn [orb].
  destruct (matchesHistoricalExpectedMutation (en_expected e) (pe_event (rc_planned rc))) eqn:Emt; [|done]. cbn [negb].
  pose proof (coverFrom_spec e (pe_resources (rc_planned rc))) as Hsp.
  destruct (coverFrom e (pe_resources (rc_planned rc))) as [e' claimed]. destruct Hsp as [He Hc].
  assert (Hm' : meta e' = m) by (rewrite He; exact Hm). pose proof Emt as Emt'.
  replace (en_expected e) with m.1 in Emt' by (by rewrite <- Hm).
  destruct claimed.
  - split; try (rewrite He; done).
    + rewrite !map_app, Hr. done.
    + intros rc' [Hin| ->%list_elem_of_singleton]%elem_of_app.
      * destruct (Hd rc' Hin) as (x & Hx & ?). exists x. set_solver.
      * exists rc. cbn [rc_ref rc_planned rc_claimedBy]. split_and!; try done; [set_solver|]. by rewrite Etr.
    + intros rc' [Hin| ->%list_elem_of_singleton]%elem_of_app Hin'.
      * apply elem_of_app in Hin' as [?|E%list_elem_of_singleton]; [by apply Hma|]. destruct Hfresh. rewrite <- Hr, <- E.
        apply list_elem_of_In, in_map, list_elem_of_In. done.
      * cbn [rc_claimedBy]. apply truthy_key. unfold en_key. by replace (en_expected e') with m.1 by (by rewrite <- Hm').
    + rewrite map_app. by apply sublist_app.
    + intros ref [Hin| ->%list_elem_of_singleton]%elem_of_app.
      * destruct (Hcl ref Hin) as (x & Hx & ?). exists x. set_solver.
      * exists rc. set_solver.
    + intros r Hin. destruct (Hc r Hin) as [Hin'|[_ Hin']].
      * destruct (Hco r Hin') as (x & Hx & ?). exists x. set_solver.
      * exists rc. set_solver.
  - assert (Hcov : forall r, r ∈ en_covered e' -> r ∈ en_covered e) by (intros r Hin; destruct (Hc r Hin) as [?|[? _]]; done).
    destruct Hskip as [_ _ _ S4 S5 S6 S7 S8 S9]. split; try done; try (rewrite He; done). intros r Hin. by apply S9, Hcov.
Qed.

Lemma claimRecents_ok order x l : ex_key x <> ""%string -> NoDup (map rc_ref l) ->
  let '(e, done, refs) := foldl claimRecent (newEntry order x, [], []) l in claims_ok (meta (newEntry order x)) l e done refs.
Proof.
  intros Hk. induction l as [|rc l IH] using rev_ind; intros Hn; cbn [foldl].
  - split; try done; cbn; set_solver.
  - rewrite foldl_app. cbn [foldl]. assert (Hn' : NoDup (map rc_ref l)) by (rewrite map_app in Hn; by apply NoDup_app in Hn as (? & _)).
    specialize (IH Hn'). destruct (foldl claimRecent _ l) as [[e done] refs]. by apply claimRecent_ok.
Qed.

Lemma lookup_snoc {A} (l : list A) x j y : (l ++ [x]) !! j = Some y -> l !! j = Some y \/ j = length l /\ y = x.
Proof.
  intros [H|[Hge H]]%lookup_app_Some; [by left|]. apply list_lookup_singleton_Some in H as [H <-]. right. split; [lia|done].
Qed.

Lemma planned_ok_grow ms m order evs planned claimed : planned_ok ms order evs planned claimed ->
  planned_ok (ms ++ [m]) order evs planned claimed.
Proof.
  intros (Hl & Hp & Hc). split_and!; [done| |done]. intros i id Hi. destruct (Hp i id Hi) as (x & ev & Hx & Hr).
  exists x, ev. split; [by apply lookup_app_l_Some|done].
Qed.

Lemma claims_bound R id r : rinv R [] -> (id, r) ∈ openClaims R [] -> (id < length (store R))%nat.
Proof.
  intros H Hin. unfold openClaims in Hin. change (flatC []) with (@nil (nat * string)) in Hin. rewrite app_nil_r in Hin.
  apply list_elem_of_bind in Hin as (pl & Hc & Hpl). unfold openPlan in Hc. destruct (pl_settled pl); [set_solver|].
  pose proof (proj1 (Forall_forall _ _) (ri_plans _ _ H) pl Hpl) as (_ & Hp & Hcl).
  destruct (Hcl id r Hc) as (i & ev & Hi & _). destruct (Hp i id Hi) as (m & ev' & Hm & _).
  apply lookup_lt_Some in Hm. by rewrite length_map in Hm.
Qed.

(** A new entry: outside the map when it is covered already, in it with its timers otherwise *)
Lemma append_rinv R order e rs refs : rinv R [] -> en_key e <> ""%string -> en_order e = order -> nextOrder R <= order ->
  mapGet (entries R) (en_key e) = None -> en_pending e = [] -> en_expiryTimer e = false -> en_fallbackTimer e = false ->
  NoDup (map fst (owners R) ++ refs) ->
  (forall ref, ref ∈ refs -> exists ev, reports (plans R) ref (meta e) ev) ->
  (forall r, r ∈ en_covered e -> exists ref ev, ref ∈ refs /\ reports (plans R) ref (meta e) ev /\ r ∈ pe_resources ev) ->
  NoDup (map rc_ref rs) -> Forall (recent_ok (plans R) (owners R ++ map (fun ref => (ref, length (store R))) refs)) rs ->
  rinv {| entries := if isCovered e then entries R else mapSet (entries R) (en_key e) (length (store R));
          store := store R ++ [if isCovered e then e else withTimers true true e];
          nextOrder := order; recent := rs; plans := plans R; runs := runs R;
          owners := owners R ++ map (fun ref => (ref, length (store R))) refs |} [].
Proof.
  intros H Hk Ho Hle Hnone Hpe Ht1 Ht2 Hnd Hrefs Hcov Hrn Hrf. set (id := length (store R)) in *.
  set (e' := if isCovered e then e else withTimers true true e).
  assert (He' : meta e' = meta e /\ en_key e' = en_key e /\ en_pending e' = [] /\ en_covered e' = en_covered e /\ isCovered e' = isCovered e)
    by (unfold e'; by destruct (isCovered e) eqn:?).
  destruct He' as (Hm & Hke & Hpe' & Hce & Hic).
  set (es := if isCovered e then entries R else mapSet (entries R) (en_key e) id).
  assert (Hget : forall k j, mapGet es k = Some j -> (j = id /\ k = en_key e /\ isCovered e = false) \/ mapGet (entries R) k = Some j).
  { intros k j. unfold es. destruct (isCovered e); [by right|]. rewrite mapGet_set. destruct (String.eqb_spec (en_key e) k) as [<-|]; [|by right].
    intros [= <-]. by left. }
  assert (Hold : forall k j, mapGet (entries R) k = Some j -> mapGet es k = Some j).
  { intros k j Hj. unfold es. destruct (isCovered e); [done|]. rewrite mapGet_set. destruct (String.eqb_spec (en_key e) k) as [<-|]; [congruence|done]. }
  assert (Hltid : forall k j, mapGet (entries R) k = Some j -> (j < id)%nat).
  { intros k j Hj. destruct (ri_entries _ _ H k j Hj) as (x & Hx & _). by eapply lookup_lt_Some. }
  split; cbn [entries store nextOrder recent plans runs owners].
  - unfold es. destruct (isCovered e); [apply H|]. apply mapSet_wf, H.
  - intros k j Hj. apply Hget in Hj as [(-> & -> & Hc)|Hj].
    + exists e'. unfold id. rewrite lookup_app_r, Nat.sub_diag by lia. split_and!; [done|done| |congruence]. unfold e'. by rewrite Hc.
    + destruct (ri_entries _ _ H k j Hj) as (x & Hx & Hr). exists x. split; [by apply lookup_app_l_Some|done].
  - intros j x Hj Htm. apply lookup_snoc in Hj as [Hj|[-> ->]]; [by apply Hold, (ri_timers _ _ H)|]. rewrite Hke.
    unfold e' in Htm. unfold es. destruct (isCovered e); [destruct Htm; congruence|]. by rewrite mapGet_set, String.eqb_refl.
  - intros x [Hx| ->%list_elem_of_singleton]%elem_of_app.
    + destruct (ri_keys _ _ H x Hx). split; [done|lia].
    + rewrite Hke. split; [done|]. injection Hm as _ ->. lia.
  - apply H.
  - intros j x r Hj Hc. apply lookup_snoc in Hj as [Hj|[-> ->]].
    + apply Hget in Hc as [(-> & _)|Hc]; [apply lookup_lt_Some in Hj; unfold id in Hj; lia|]. by apply (ri_pending _ _ H).
    + rewrite Hpe'. split; [set_solver|]. intros Hin. apply (claims_bound R) in Hin; [lia|done].
  - intros j x r Hj Hr. apply lookup_snoc in Hj as [Hj|[-> ->]].
    + destruct (ri_covered _ _ H j x r Hj Hr) as (ref & ev & Hin & Hrest). exists ref, ev. split; [set_solver|done].
    + rewrite Hce in Hr. destruct (Hcov r Hr) as (ref & ev & Hin & Hrep & Hre). exists ref, ev. rewrite Hm. split_and!; [|done|done].
      apply elem_of_app. right. apply list_elem_of_In, in_map_iff. exists ref. split; [done|]. by apply list_elem_of_In.
  - rewrite map_app, map_map. cbn [fst]. by rewrite map_id.
  - intros ref j [Hin|Hin]%elem_of_app.
    + destruct (ri_attributed _ _ H ref j Hin) as (m & ev & Hmm & Hrep). exists m, ev. split; [|done]. rewrite map_app. by apply lookup_app_l_Some.
    + apply list_elem_of_In, in_map_iff in Hin as (x & [= -> <-] & Hin). apply list_elem_of_In in Hin.
      destruct (Hrefs ref Hin) as (ev & Hrep). exists (meta e'), ev. rewrite Hm. split; [|done].
      rewrite map_app. change (map meta (store R)) with (meta <$> store R). unfold id. rewrite lookup_app_r by (by rewrite length_fmap).
      rewrite length_fmap, Nat.sub_diag. cbn [map lookup list_lookup]. by rewrite Hm.
  - done.
  - rewrite map_app. eapply Forall_impl; [apply H|]. intros pl. apply planned_ok_grow.
  - destruct (ri_runs _ _ H) as [Hn Hr]. split; [done|]. intros run Hrun. destruct (Hr run Hrun) as (x & Hx & Tx).
    exists x. split; [by apply lookup_app_l_Some|done].
Qed.

Lemma remove_gone R key : mapGet (entries (remove R key)) key = None.
Proof. unfold remove. destruct (mapGet (entries R) key) eqn:E; [|done]. cbn [entries]. by rewrite mapGet_delete, String.eqb_refl. Qed.

Lemma register_rinv ms now x R : ex_key x <> ""%string -> rinv R [] -> rinv (register ms now x R) [].
Proof.
  intros Hk H. unfold register. pose proof (remove_rinv R [] (ex_key x) H) as H1. pose proof (remove_gone R (ex_key x)) as Hg.
  set (R1 := remove R (ex_key x)) in *. clearbody R1. clear H R.
  destruct (pruned_ok ms now _ _ _ (ri_recent _ _ H1)) as [Hn Hf]. set (l := pruneRecent ms now (recent R1)) in *. clearbody l.
  set (order := nextOrder R1 + 1). pose proof (claimRecents_ok order x l Hk Hn) as Hc.
  destruct (foldl claimRecent _ l) as [[e done] refs]. destruct Hc as [Cm [Ct1 Ct2] Cp Cr Cd Cma Cs Ccl Cco].
  assert (Hfr : forall ref, ref ∈ refs -> ref ∉ map fst (owners R1)).
  { intros ref Hin Ho. destruct (Ccl ref Hin) as (rc & Hrc & <- & Htr & _).
    destruct (proj1 (Forall_forall _ _) Hf rc Hrc) as [_ Hm]. rewrite (Hm Ho) in Htr. done. }
  assert (Hrep : forall rc, rc ∈ l -> matchesHistoricalExpectedMutation (en_expected e) (pe_event (rc_planned rc)) = true ->
    reports (plans R1) (rc_ref rc) (meta e) (rc_planned rc)).
  { intros rc Hrc Hh. destruct (proj1 (Forall_forall _ _) Hf rc Hrc) as [(pl & Hp & Hs & He) _]. apply historical_spec in Hh as [? ?].
    by exists pl. }
  assert (Hex : en_expected e = en_expected (newEntry order x)) by (by injection Cm).
  assert (Hexp : (meta (newEntry order x)).1 = en_expected e) by (by rewrite Hex).
  rewrite Hexp in Ccl, Cco.
  assert (Hkey : en_key e = ex_key x) by (unfold en_key; by rewrite Hex).
  apply (append_rinv R1 order e done refs); try done.
  - congruence.
  - by injection Cm.
  - unfold order. lia.
  - congruence.
  - apply NoDup_app. split_and!; [apply H1|intros ref Ho Hin; by apply (Hfr ref Hin)|]. by eapply sublist_NoDup.
  - intros ref Hin. destruct (Ccl ref Hin) as (rc & Hrc & <- & _ & Hh). exists (rc_planned rc). by apply Hrep.
  - intros r Hin. destruct (Cco r Hin) as (rc & Hrc & Href & Hr & Hh). exists (rc_ref rc), (rc_planned rc). split_and!; try done. by apply Hrep.
  - by rewrite Cr.
  - apply Forall_forall. intros rc' Hin. destruct (Cd rc' Hin) as (rc & Hrc & E1 & E2 & Htr).
    destruct (proj1 (Forall_forall _ _) Hf rc Hrc) as [Hpl Hown]. split; [by rewrite E1, E2|].
    rewrite map_app, map_map. cbn [fst]. rewrite map_id. intros [Ho|Ho]%elem_of_app; [|by apply Cma].
    apply Htr, Hown. by rewrite <- E1.
Qed.

(** *** Timers *)
Definition withRuns (R : Registry) (l : list FallbackRun) : Registry := {|
  entries := entries R; store := store R; nextOrder := nextOrder R; recent := recent R; plans := plans R; runs := l;
  owners := owners R |}.

Lemma runs_rinv R rest l : rinv R rest -> NoDup (map fb_entry l) ->
  (forall run, run ∈ l -> exists e, store R !! fb_entry run = Some e /\ en_fallbackTimer e = false) -> rinv (withRuns R l) rest.
Proof. intros H Hn Hr. destruct H. by split. Qed.

(** Changes of an entry that keep what it covers and what is pending *)
Lemma quiet_rinv R id e e' : rinv R [] -> store R !! id = Some e -> meta e' = meta e ->
  en_expiryTimer e' = en_expiryTimer e -> (en_fallbackTimer e' = true -> en_fallbackTimer e = true) ->
  en_covered e' = en_covered e -> en_pending e' = en_pending e -> en_relatedCovered e' = en_relatedCovered e ->
  rinv (withStore R (<[id:=e']> (store R))) [].
Proof.
  intros H He Hm Hx Hf Hc Hp Hrel. apply (entry_rinv R [] [] id e e' H He Hm Hx Hf); try done.
  - intros Hcur. destruct (ri_entries _ _ H _ _ Hcur) as (x & Hx' & _ & _ & Hic). rewrite He in Hx'. injection Hx' as <-.
    rewrite <- Hic. unfold isCovered, en_resources. injection Hm as -> _. by rewrite Hc, Hrel.
  - apply H.
  - intros Hcur r. rewrite Hp. by apply (ri_pending _ _ H).
  - intros r. rewrite Hc. by left.
Qed.

Lemma fallbackFires_rinv R id R' : rinv R [] -> fallbackFires R id = Some R' -> rinv R' [].
Proof.
  intros H Hf. unfold fallbackFires in Hf. destruct (store R !! id) as [e|] eqn:He; [|done]. cbn [mbind option_bind] in Hf.
  destruct (en_fallbackTimer e) eqn:Ht; [|done]. cbv zeta in Hf. destruct (_ || _) in Hf.
  - injection Hf as <-. by apply (quiet_rinv R id e).
  - injection Hf as <-. set (e' := if _ && _ && _ then _ else _).
    assert (H1 : rinv (withStore R (<[id:=e']> (store R))) []) by (apply (quiet_rinv R id e); try done; unfold e'; by destruct (_ && _ && _)).
    destruct (ri_runs _ _ H) as [Hn Hr]. refine (runs_rinv _ _ _ H1 _ _).
    + rewrite map_app. apply NoDup_app. split_and!; [done| |apply NoDup_singleton]. intros j Hj Hin.
      apply list_elem_of_singleton in Hin. cbn in Hin. subst j. apply list_elem_of_In, in_map_iff in Hj as (run & E & Hrun).
      apply list_elem_of_In in Hrun. destruct (Hr run Hrun) as (x & Hx & Tx). congruence.
    + intros run [Hrun|Hrun]%elem_of_app; [by apply (ri_runs _ _ H1)|]. apply list_elem_of_singleton in Hrun as ->.
      cbn [fb_entry withStore store]. exists e'. rewrite list_lookup_insert_eq by (by eapply lookup_lt_Some).
      split; [done|]. unfold e'. by destruct (_ && _ && _).
Qed.

Lemma fallbackSettles_rinv R i ok R' : rinv R [] -> fallbackSettles R i ok = Some R' -> rinv R' [].
Proof.
  intros H Hs. unfold fallbackSettles in Hs. destruct (runs R !! i) as [run|] eqn:Hi; [|done]. cbn [mbind option_bind] in Hs.
  destruct (store R !! fb_entry run) as [e|] eqn:He; [|done]. cbn [mbind option_bind] in Hs.
  destruct (fb_settled run); [done|]. set (run' := Build_FallbackRun _ _ _ true) in Hs.
  destruct (ri_runs _ _ H) as [Hn Hr].
  assert (Hmap : map fb_entry (<[i:=run']> (runs R)) = map fb_entry (runs R)).
  { change (fb_entry <$> <[i:=run']> (runs R) = fb_entry <$> runs R). rewrite list_fmap_insert. apply list_insert_id.
    by rewrite list_lookup_fmap, Hi. }
  assert (H1 : rinv (withRuns R (<[i:=run']> (runs R))) []).
  { apply runs_rinv; [done|by rewrite Hmap|]. intros x Hx. apply list_elem_of_lookup in Hx as [j Hj].
    destruct (decide (j = i)) as [->|Hne].
    - rewrite list_lookup_insert_eq in Hj by (by eapply lookup_lt_Some). injection Hj as <-.
      apply (Hr run). by eapply list_elem_of_lookup_2.
    - rewrite list_lookup_insert_ne in Hj by done. apply Hr. by eapply list_elem_of_lookup_2. }
  change (Build_Registry _ _ _ _ _ _ _) with (withRuns R (<[i:=run']> (runs R))) in Hs. injection Hs as <-.
  destruct (bool_decide _); [|done]. destruct ok; [by apply remove_rinv|].
  by apply (quiet_rinv (withRuns R (<[i:=run']> (runs R))) (fb_entry run) e).
Qed.

Lemma expiryFires_rinv R id R' : rinv R [] -> expiryFires R id = Some R' -> rinv R' [].
Proof.
  intros H He. unfold expiryFires in He. destruct (store R !! id) as [e|] eqn:Ee; [|done]. cbn [mbind option_bind] in He.
  destruct (en_expiryTimer e) eqn:Et; [|done]. injection He as <-.
  pose proof (ri_timers _ _ H id e Ee (or_introl Et)) as Hcur. pose proof (remove_rinv R [] (en_key e) H) as H1.
  unfold remove in *. cbn [withStore entries store nextOrder recent plans runs owners]. rewrite Hcur in *.
  rewrite (alter_entry _ _ _ _ Ee) in H1. rewrite (alter_entry _ _ _ (withTimers false (en_fallbackTimer e) e))
    by (apply list_lookup_insert_eq; by eapply lookup_lt_Some).
  rewrite list_insert_insert_eq. exact H1.
Qed.

Lemma relatedSucceeds_rinv R p R' : rinv R [] -> relatedSucceeds R p = Some R' -> rinv R' [].
Proof.
  intros H Hr. unfold relatedSucceeds in Hr. destruct (plans R !! p) as [pl|] eqn:Hp; [|done]. cbn [mbind option_bind] in Hr.
  injection Hr as <-. set (pl' := Build_Plan _ _ _ _ _ _ _ true). unfold withPlan.
  destruct (insert_split _ _ _ pl' Hp) as (l1 & l2 & El & Ei).
  assert (Hop : <[p:=pl']> (plans R) ≫= openPlan = plans R ≫= openPlan) by (by rewrite Ei, El, !bind_app, !bind_cons).
  replace (owners R) with (owners R ++ []) by apply app_nil_r. apply (plans_rinv R []); rewrite ?Hop, ?app_nil_r; try done.
  - intros i x Hx Hs. destruct (decide (i = p)) as [->|]; [|exists x; by rewrite list_lookup_insert_ne].
    rewrite Hp in Hx. injection Hx as <-. exists pl'. rewrite list_lookup_insert_eq by (by eapply lookup_lt_Some). done.
  - pose proof (ri_claims _ _ H) as Hn. unfold openClaims in Hn. by rewrite app_nil_r in Hn.
  - intros c. unfold openClaims. by rewrite app_nil_r.
  - apply Forall_insert; [apply H|]. exact (Forall_lookup_1 _ _ _ _ (ri_plans _ _ H) Hp).
  - apply H.
  - set_solver.
  - set_solver.
Qed.

Lemma reset_rinv R : rinv R [] -> rinv (reset R) [].
Proof.
  intros H. unfold reset. assert (Hr : forall ks R, rinv R [] -> rinv (foldl remove R ks) []).
  { induction ks as [|k ks IH]; intros R0 H0; cbn [foldl]; [done|]. by apply IH, remove_rinv. }
  apply (recent_rinv (foldl remove R (mapKeys (entries R)))); [by apply Hr|apply NoDup_nil_2|constructor].
Qed.

Lemma reg_step_rinv ms R R' : reg_step ms R R' -> rinv R [] -> rinv R' [].
Proof.
  intros Hs H. destruct Hs; eauto using register_rinv, remove_rinv, plan_rinv, relatedSucceeds_rinv, accept_rinv, fallbackFires_rinv,
    fallbackSettles_rinv, expiryFires_rinv, reset_rinv.
Qed.

Lemma reachable_rinv ms R : rtc (reg_step ms) newRegistry R -> rinv R [].
Proof.
  intros Hr. pose proof newRegistry_rinv as H0. revert H0. induction Hr as [|R0 R1 R2 Hs _ IH]; [done|]. intros H.
  apply IH. by eapply reg_step_rinv.
Qed.

(** ** What the registry promises *)
(** The resources read by the fallbacks that start between two states *)
Definition startedReads (R R' : Registry) : list string := drop (length (runs R)) (runs R') ≫= fb_resources.

(** A mutation gets at most one fallback, and it reads exactly the resources of the mutation
    that no accepted event covered and no batch under way is reading. *)
Theorem fallback_reads_unreported ms R id R' : rtc (reg_step ms) newRegistry R -> fallbackFires R id = Some R' ->
  NoDup (map fb_entry (runs R')) /\
  exists e, store R !! id = Some e /\ forall r, r ∈ startedReads R R' <->
    r ∈ en_resources e /\ r ∉ en_covered e /\
    forall pl rs, pl ∈ plans R -> pl_settled pl = None -> (id, rs) ∈ pl_claimed pl -> r ∉ rs.
Proof.
  intros Hr Hf. pose proof (reachable_rinv ms R Hr) as H. pose proof (fallbackFires_rinv R id R' H Hf) as H'.
  split; [apply H'|]. unfold fallbackFires in Hf. destruct (store R !! id) as [e|] eqn:He; [|done]. cbn [mbind option_bind] in Hf.
  destruct (en_fallbackTimer e) eqn:Ht; [|done]. pose proof (ri_timers _ _ H id e He (or_intror Ht)) as Hcur.
  exists e. split; [done|]. intros r. cbv zeta in Hf. set (missing := List.filter _ _) in Hf.
  assert (Hmiss : r ∈ missing <-> r ∈ en_resources e /\ r ∉ en_covered e /\
    forall pl rs, pl ∈ plans R -> pl_settled pl = None -> (id, rs) ∈ pl_claimed pl -> r ∉ rs).
  { unfold missing. cbn [withTimers en_covered en_pending]. rewrite list_elem_of_In, filter_In, <- list_elem_of_In.
    rewrite andb_true_iff, !negb_true_iff, !member_false, (ri_pending _ _ H id e r He Hcur). unfold openClaims.
    change (flatC []) with (@nil (nat * string)). rewrite app_nil_r. change (en_resources (withTimers _ _ e)) with (en_resources e).
    split; intros (H1 & H2 & H3); split_and!; try done.
    - intros pl rs Hpl Hs Hin Hin'. apply H3, list_elem_of_bind. exists pl. split; [|done]. unfold openPlan. rewrite Hs.
      apply list_elem_of_bind. exists (id, rs). split; [by apply elem_of_pairs|done].
    - intros (pl & Hin & Hpl)%list_elem_of_bind. unfold openPlan in Hin. destruct (pl_settled pl) eqn:Hs; [set_solver|].
      apply list_elem_of_bind in Hin as ([j rs] & Hin & Hc). apply elem_of_pairs in Hin as [-> Hin]. by apply (H3 pl rs). }
  rewrite <- Hmiss. change (en_key (withTimers _ _ e)) with (en_key e) in Hf. rewrite (bool_decide_eq_true_2 _ Hcur) in Hf. cbn [negb orb] in Hf.
  destruct (match missing with [] => true | _ => false end) eqn:Em.
  - assert (missing = []) as -> by (by destruct missing). unfold startedReads. destruct (negb _) in Hf; injection Hf as <-; cbn [andb runs withStore].
    + rewrite drop_all. done.
    + rewrite drop_app_length. cbn. done.
  - cbn [andb] in Hf. injection Hf as <-. unfold startedReads. cbn [runs]. rewrite drop_app_length. cbn. by rewrite app_nil_r.
Qed.

(** Every resource a mutation counts as covered is named by an accepted event that reports the
    mutation, one planned after its registration when only its signature is known; and no
    event is attributed to two mutations. *)
Theorem coverage_reported ms R : rtc (reg_step ms) newRegistry R ->
  NoDup (map fst (owners R)) /\
  forall id e r, store R !! id = Some e -> r ∈ en_covered e ->
    exists ref ev, (ref, id) ∈ owners R /\ reports (plans R) ref (meta e) ev /\ r ∈ pe_resources ev.
Proof. intros Hr. pose proof (reachable_rinv ms R Hr) as H. split; apply H. Qed.

(** Correlation never suppresses an event: whatever is registered, a plan reads each
    resource of its events, once, and nothing else. *)
Theorem plan_reads_all ms now events R : exists pl, plans (plan ms now events R) = plans R ++ [pl] /\ pl_events pl = events /\
  NoDup (pl_resources pl) /\ forall r, r ∈ pl_resources pl <-> exists ev, ev ∈ events /\ r ∈ pe_resources ev.
Proof.
  unfold plan. eexists. split; [reflexivity|]. split; [done|]. cbn [pl_resources].
  set (ids := map snd (entries R)). set (g0 := Build_Planning _ _ _ _ _).
  assert (Hstep : forall g ev, pg_resources (planEvent ids g ev) = foldl setAdd (pg_resources g) (pe_resources ev)).
  { intros g ev. unfold planEvent. destruct (claimant ids (pg_store g) ev) as [id|]; [|done].
    destruct (pg_store g !! id) as [e|]; [|done]. by destruct (claimResources _ _). }
  assert (Hall : forall evs g, pg_resources (foldl (planEvent ids) g evs) = foldl setAdd (pg_resources g) (evs ≫= pe_resources)).
  { induction evs as [|ev evs IH]; intros g; cbn [foldl]; [done|]. by rewrite IH, Hstep, bind_cons, foldl_app. }
  rewrite Hall. split; [apply foldl_setAdd_NoDup, NoDup_nil_2|]. intros r. rewrite foldl_setAdd_elem, list_elem_of_bind. cbn [pg_resources g0].
  set_solver.
Qed.

(** A mutation is kept exactly while its expiry timer runs, never once it is covered, and its
    fallback timer never outlives it; when the expiry timer fires the mutation is gone. *)
Theorem entries_expire ms R id e : rtc (reg_step ms) newRegistry R -> store R !! id = Some e ->
  let kept := mapGet (entries R) (en_key e) = Some id in
  (kept <-> en_expiryTimer e = true) /\ (en_fallbackTimer e = true -> kept) /\ (kept -> isCovered e = false) /\
  (kept -> exists R', expiryFires R id = Some R' /\ mapGet (entries R') (en_key e) = None).
Proof.
  intros Hr He kept. pose proof (reachable_rinv ms R Hr) as H.
  assert (Hk : kept -> en_expiryTimer e = true /\ isCovered e = false).
  { intros Hk. destruct (ri_entries _ _ H _ _ Hk) as (x & Hx & _ & ? & ?). rewrite He in Hx. by injection Hx as <-. }
  split_and!.
  - split; [apply Hk|]. intros Ht. apply (ri_timers _ _ H); auto.
  - intros Ht. apply (ri_timers _ _ H); auto.
  - apply Hk.
  - intros Hkept. destruct (Hk Hkept) as [Ht _]. unfold expiryFires. rewrite He. cbn [mbind option_bind]. rewrite Ht.
    eexists. split; [reflexivity|]. apply remove_gone.
Qed.

(** A deposit whose position event arrives, and whose transaction event does not *)
Module ReconciliationWitness.
Definition deposit_expected : ExpectedEarnMutation := {|
  ex_key := "scope:deposit:1"; ex_operation := deposit; ex_related := false;
  ex_resources := ["earn.position"; "earn.transactions"]; ex_signature := None; ex_targetId := None |}.
Definition position_event : PlannedEarnRealtimeEvent := {|
  pe_event := {| eventId := "7"; eventType := EVENT.position; occurredAt := ""; scope := "earn"; state := None; reason := None;
                 targetId := None; scheduledSlotId := None; executionId := None; failureCode := None; protocolIssue := false |};
  pe_resources := ["earn.position"; "earn.earnings"] |}.

Definition r1 := register 15000 100 deposit_expected newRegistry.
Definition r2 := plan 15000 200 [position_event] r1.
Definition r3 := default r2 (accept 15000 300 r2 0 true).
Definition r4 := default r3 (fallbackFires r3 0).

Lemma r1_reachable : rtc (reg_step 15000) newRegistry r1.
Proof. eapply rtc_l; [apply (reg_register _ newRegistry 100 deposit_expected); discriminate|]. apply rtc_refl. Qed.

Lemma r3_reachable : rtc (reg_step 15000) newRegistry r3.
Proof.
  etrans; [apply r1_reachable|]. eapply rtc_l; [apply (reg_plan _ r1 200 [position_event])|].
  eapply rtc_l; [apply (reg_accept _ r2 300 0 true r3); vm_compute; reflexivity|]. apply rtc_refl.
Qed.

Lemma fallback_reads_unreported_witness : startedReads r3 r4 = ["earn.transactions"%string] /\ NoDup (map fb_entry (runs r4)).
Proof.
  split; [vm_compute; reflexivity|]. apply (fallback_reads_unreported 15000 r3 0 r4 r3_reachable). vm_compute. reflexivity.
Defined.

Lemma coverage_reported_witness : NoDup (map fst (owners r3)) /\ map en_covered (store r3) = [["earn.position"%string]].
Proof. split; [apply (coverage_reported 15000 r3 r3_reachable)|vm_compute; reflexivity]. Defined.

Lemma entries_expire_witness : exists e, store r1 !! 0%nat = Some e /\
  exists R', expiryFires r1 0 = Some R' /\ mapGet (entries R') (en_key e) = None.
Proof.
  eexists. split; [vm_compute; reflexivity|].
  apply (entries_expire 15000 r1 0 _ r1_reachable); vm_compute; reflexivity.
Defined.
End ReconciliationWitness.
