(* ===== verification/Settlement.v ===== *)
(** What became of a transaction that was sent
    (web/apps/web/src/lib/solana/confirm-sent-transaction.ts).

    The poll loop is a function of what each round observes: whether it was told to stop,
    the clock at each reading of it, and the answers of the two reads. *)
From S2P Require Import Prelude JsString Json.

Definition STATUS_POLL_MS := 2000.
Definition READ_TIMEOUT_MS := 10000.
Definition SETTLE_DEADLINE_MS := 120000.
Definition STATUS_CACHE_AGE_MS := 30000.

Section Settlement.
(** [TransactionError] of the RPC library *)
Context {E : Type}.

Inductive SentOutcome := landed | failed (err : E) | status_unknown.

Definition outcomeOf (err : option E) : SentOutcome := match err with Some e => failed e | None => landed end.

(** A read answers, fails, or is still under way after [READ_TIMEOUT_MS]. *)
Inductive Read (T : Type) := Answers (value : T) | Rejects | TimesOut.
Arguments Answers {T}.
Arguments Rejects {T}.
Arguments TimesOut {T}.

Definition readOrNull {T} (read : Read T) : option T := match read with Answers v => Some v | _ => None end.

(** An entry of the answer of [getSignatureStatuses]; the answer is [None] for an unknown signature. *)
Record SignatureStatus := { confirmationStatus : option string; status_err : option E }.

Definition readSettledStatus (read : Read (option SignatureStatus)) : option SentOutcome :=
  status ← readOrNull read ≫= id;
  level ← confirmationStatus status;
  if String.eqb level "confirmed" || String.eqb level "finalized" then Some (outcomeOf (status_err status)) else None.

(** One round: the test of the loop, the two readings of the clock after it, and the reads *)
Record Round := {
  rd_stopped : bool;
  rd_testAt : Z;
  rd_sleptAt : Z;
  rd_readAt : Z;
  rd_status : Read (option SignatureStatus);
  rd_height : Read Z;
}.

Definition live (deadline : Z) (r : Round) : bool := negb (rd_stopped r) && (rd_testAt r <? deadline).

Definition expired (lastValidBlockHeight : Z) (r : Round) : bool :=
  match readOrNull (rd_height r) with Some height => lastValidBlockHeight <? height | None => false end.

(** The loop: how it ends ([Some] with an outcome, [None] to go on to the last read), and
    whether each read searched the history. It has not ended when the rounds are used up. *)
Fixpoint pollLoop (deadline lastValidBlockHeight lastReadAt : Z) (rounds : list Round) : option (option SentOutcome * list bool) :=
  match rounds with
  | [] => None
  | r :: rounds =>
      if live deadline r then
        let asleep := STATUS_CACHE_AGE_MS <? rd_sleptAt r - lastReadAt in
        match readSettledStatus (rd_status r) with
        | Some settled => Some (Some settled, [asleep])
        | None =>
            if expired lastValidBlockHeight r then Some (None, [asleep])
            else '(ending, searches) ← pollLoop deadline lastValidBlockHeight (rd_readAt r) rounds;
                 Some (ending, asleep :: searches)
        end
      else Some (None, [])
  end.

(** The last read: whether the poll was told to stop before it, and its answer *)
Record LastRead := { lr_stopped : bool; lr_status : Read (option SignatureStatus) }.

Definition pollUntilSettled (start firstReadAt lastValidBlockHeight : Z) (rounds : list Round) (last : LastRead) :
    option (SentOutcome * list bool) :=
  '(ending, searches) ← pollLoop (start + SETTLE_DEADLINE_MS) lastValidBlockHeight firstReadAt rounds;
  Some match ending with
       | Some settled => (settled, searches)
       | None => if lr_stopped last then (status_unknown, searches)
                 else (default status_unknown (readSettledStatus (lr_status last)), searches ++ [true])
       end.

(** What settles first: the notification of the subscription, or the poll, which may throw on a
    malformed answer. *)
Inductive First := Notified (err : option E) | PollEnds (outcome : SentOutcome) | PollThrows.

(** The outcome, and the subscription that is removed *)
Definition settleSentTransaction (subscription : option Z) (first : First) : SentOutcome * option Z :=
  match subscription with
  | None => (status_unknown, None)  (** [onSignature] threw *)
  | Some id =>
      match first with
      | Notified err => (outcomeOf err, None)
      | PollEnds outcome => (outcome, Some id)
      | PollThrows => (status_unknown, Some id)
      end
  end.

(** ** Sending *)
Inductive Sending := Sent (signature : string) | SendThrew (error : json).

Definition sendRecoveringSignature (send : Sending) : Sending :=
  match send with
  | Sent signature => Sent signature
  | SendThrew error =>
      match get "transactionWasSubmitted" error, get "transactionSignature" error with
      | JBool true, JString signature => if (0 <? String.length signature)%nat then Sent signature else SendThrew error
      | _, _ => SendThrew error
      end
  end.

Definition transactionStatusUnknown (signature : string) : json := JObject
  [("error"%string, JString "Do not retry. Check the transaction below first."); ("success"%string, JBool false);
   ("transactionSignature"%string, JString signature); ("transactionWasSubmitted"%string, JBool true)].

(** ** Properties *)
(** A read that saw the transaction confirmed or finalized, with that outcome *)
Definition confirms (o : SentOutcome) (read : Read (option SignatureStatus)) : Prop :=
  exists level err, read = Answers (Some {| confirmationStatus := Some level; status_err := err |}) /\
    (level = "confirmed"%string \/ level = "finalized"%string) /\ o = outcomeOf err.

Lemma readSettledStatus_spec read o : readSettledStatus read = Some o <-> confirms o read.
Proof.
  unfold readSettledStatus, confirms. split.
  - destruct read as [[[level err]|]| |]; try done. cbn. destruct level as [level|]; [|done]. cbn.
    destruct (String.eqb_spec level "confirmed") as [->|]; cbn [orb]; [|destruct (String.eqb_spec level "finalized") as [->|]; [|done]];
      intros [= <-]; do 2 eexists; (split; [reflexivity|]); (split; [|done]); auto.
  - intros (level & err & -> & Hl & ->). cbn. by destruct Hl as [-> | ->].
Qed.

Lemma pollLoop_settled deadline lvh rounds : forall at' o searches,
  pollLoop deadline lvh at' rounds = Some (Some o, searches) -> exists r, r ∈ rounds /\ confirms o (rd_status r).
Proof.
  induction rounds as [|r rounds IH]; intros at' o searches; cbn [pollLoop]; [done|]. destruct (live deadline r); [|done].
  destruct (readSettledStatus (rd_status r)) as [o'|] eqn:Er.
  - intros [= <- _]. exists r. split; [left|]. by apply readSettledStatus_spec.
  - destruct (expired lvh r); [done|]. destruct (pollLoop _ _ _ rounds) as [[ending s]|] eqn:Ep; [|done]. cbn. intros [= -> <-].
    destruct (IH _ _ _ Ep) as (x & Hx & Hc). exists x. split; [by right|done].
Qed.

(** C22. The app reports a transaction landed or failed only on the chain's word: some read of
    this poll saw it confirmed or finalized with that result, or the subscription, which asks for
    the confirmed level, reported it. A processed status, errors, time-outs and expiry give neither. *)
Theorem settlement_never_guesses start at' lvh rounds last polled searches subscription first o removed :
  pollUntilSettled start at' lvh rounds last = Some (polled, searches) ->
  first = PollEnds polled \/ first = PollThrows \/ (exists err, first = Notified err) ->
  settleSentTransaction subscription first = (o, removed) ->
  o = status_unknown \/ (exists err, first = Notified err /\ o = outcomeOf err) \/
  exists read, read ∈ map rd_status rounds ++ [lr_status last] /\ confirms o read.
Proof.
  intros Hp Hf Hs. assert (Hpoll : polled = status_unknown \/ exists read, read ∈ map rd_status rounds ++ [lr_status last] /\ confirms polled read).
  { unfold pollUntilSettled in Hp. destruct (pollLoop _ _ _ rounds) as [[ending s]|] eqn:Ep; [|done]. cbn in Hp.
    destruct ending as [settled|].
    - injection Hp as <- _. destruct (pollLoop_settled _ _ _ _ _ _ Ep) as (r & Hr & Hc). right. exists (rd_status r). split; [|done].
      apply elem_of_app. left. apply list_elem_of_In, in_map, list_elem_of_In. done.
    - destruct (lr_stopped last); injection Hp as <- _; [by left|]. destruct (readSettledStatus (lr_status last)) as [x|] eqn:Ex; [|by left].
      right. exists (lr_status last). split; [set_solver|]. by apply readSettledStatus_spec. }
  unfold settleSentTransaction in Hs. destruct subscription as [id|]; [|injection Hs as <- _; by left].
  destruct Hf as [->|[->|[err ->]]]; injection Hs as <- _; [|by left|right; left; by exists err].
  destruct Hpoll; [by left|right; by right].
Qed.

(** The clock of the rounds: the loop waits [STATUS_POLL_MS] between two tests unless it is
    told to stop. *)
Fixpoint paced (from : Z) (rounds : list Round) : Prop :=
  match rounds with
  | [] => True
  | r :: rounds => (rd_stopped r = true \/ from <= rd_testAt r) /\ paced (rd_testAt r + STATUS_POLL_MS) rounds
  end.

Lemma pollLoop_ends deadline lvh rounds : forall at' from, paced from rounds -> rounds <> [] ->
  deadline - from <= STATUS_POLL_MS * (Z.of_nat (length rounds) - 1) -> is_Some (pollLoop deadline lvh at' rounds).
Proof.
  unfold STATUS_POLL_MS. induction rounds as [|r rounds IH]; intros at' from Hp Hne Hd; [done|]. destruct Hp as [Hr Hp].
  cbn [pollLoop]. destruct (live deadline r) eqn:El; [|by eexists]. unfold live in El. apply andb_true_iff in El as [Es Et].
  apply negb_true_iff in Es. destruct Hr as [Hr|Hr]; [congruence|]. apply Z.ltb_lt in Et.
  destruct (readSettledStatus (rd_status r)); [by eexists|]. destruct (expired lvh r); [by eexists|].
  cbn [length] in Hd. destruct rounds as [|r' rounds]; [cbn [length] in Hd; lia|].
  destruct (IH (rd_readAt r) (rd_testAt r + STATUS_POLL_MS) Hp) as [[ending s] ->]; [done| |by eexists].
  unfold STATUS_POLL_MS. cbn [length] in Hd |- *. lia.
Qed.

(** C23. The poll ends: the deadline lets it make at most 61 tests of its loop, whatever the answers. *)
Theorem poll_ends start at' lvh rounds last : paced start rounds -> (61 <= length rounds)%nat ->
  is_Some (pollUntilSettled start at' lvh rounds last).
Proof.
  intros Hp Hl. unfold pollUntilSettled.
  destruct (pollLoop_ends (start + SETTLE_DEADLINE_MS) lvh rounds at' start Hp) as [[ending s] ->].
  - intros ->. cbn in Hl. lia.
  - unfold SETTLE_DEADLINE_MS, STATUS_POLL_MS. lia.
  - cbn. by eexists.
Qed.

(** A settled status is never missed: the first live round whose read settles decides the poll, and
    when the poll runs out instead of being stopped, the last read decides, with the history searched. *)
Theorem poll_reports_first start lvh quiet : forall at' r rest last o,
  Forall (fun r => live (start + SETTLE_DEADLINE_MS) r = true /\ readSettledStatus (rd_status r) = None /\ expired lvh r = false) quiet ->
  let result := fst <$> pollUntilSettled start at' lvh (quiet ++ r :: rest) last in
  (live (start + SETTLE_DEADLINE_MS) r = true -> confirms o (rd_status r) -> result = Some o) /\
  (live (start + SETTLE_DEADLINE_MS) r = false \/ (readSettledStatus (rd_status r) = None /\ expired lvh r = true) ->
   lr_stopped last = false -> confirms o (lr_status last) -> result = Some o).
Proof.
  intros at' r rest last o Hq. cbv zeta. set (deadline := start + SETTLE_DEADLINE_MS) in *.
  assert (Hloop : fst <$> pollLoop deadline lvh at' (quiet ++ r :: rest) =
    if live deadline r
    then match readSettledStatus (rd_status r) with
         | Some x => Some (Some x)
         | None => if expired lvh r then Some None else fst <$> pollLoop deadline lvh (rd_readAt r) rest
         end
    else Some None).
  { revert at'. induction Hq as [|x quiet (Hl & Hs & He) _ IH]; intros at'; cbn [app pollLoop].
    - destruct (live deadline r); [|done]. destruct (readSettledStatus (rd_status r)); [done|]. destruct (expired lvh r); [done|].
      by destruct (pollLoop _ _ _ rest) as [[ending s]|].
    - rewrite Hl, Hs, He, <- (IH (rd_readAt x)). by destruct (pollLoop _ _ _ (quiet ++ r :: rest)) as [[ending s]|]. }
  unfold pollUntilSettled. fold deadline. destruct (pollLoop deadline lvh at' (quiet ++ r :: rest)) as [[ending s]|] eqn:Ep; cbn in Hloop |- *.
  - split.
    + intros Hl Hc. apply readSettledStatus_spec in Hc. rewrite Hl, Hc in Hloop. by injection Hloop as ->.
    + intros Hend Hst Hc. apply readSettledStatus_spec in Hc. assert (ending = None) as ->.
      { destruct Hend as [Hl|[Hs He]]; [rewrite Hl in Hloop; by injection Hloop|].
        rewrite Hs, He in Hloop. destruct (live deadline r); by injection Hloop. }
      by rewrite Hst, Hc.
  - split.
    + intros Hl Hc. apply readSettledStatus_spec in Hc. by rewrite Hl, Hc in Hloop.
    + intros Hend _ _. destruct Hend as [Hl|[Hs He]]; [by rewrite Hl in Hloop|]. rewrite Hs, He in Hloop. by destruct (live deadline r).
Qed.
End Settlement.

Arguments SentOutcome : clear implicits.
Arguments SignatureStatus : clear implicits.
Arguments Round : clear implicits.
Arguments LastRead : clear implicits.
Arguments First : clear implicits.

(** A transaction that may have been broadcast is never taken for unsent: an error that carries
    a signature and says it was submitted gives the signature back, and only such an error does; the report of an
    unknown status is such an error. *)
Theorem sent_signature_recovered error signature :
  sendRecoveringSignature (SendThrew error) = Sent signature <->
  get "transactionWasSubmitted" error = JBool true /\ get "transactionSignature" error = JString signature /\
  signature <> ""%string.
Proof.
  unfold sendRecoveringSignature. split.
  - destruct (get "transactionWasSubmitted" error) as [| |[]|?|?|?|?]; try done.
    destruct (get "transactionSignature" error) as [| |?|?|s|?|?]; try done.
    destruct s as [|c s]; cbn; [done|]. by intros [= <-].
  - intros (-> & -> & Hne). by destruct signature.
Qed.

Lemma unknown_recovered signature : signature <> ""%string ->
  sendRecoveringSignature (SendThrew (transactionStatusUnknown signature)) = Sent signature.
Proof. intros H. by destruct signature. Qed.

Module SettlementWitness.
Definition round (at' : Z) (level : string) (height : Z) : Round string := {|
  rd_stopped := false; rd_testAt := at'; rd_sleptAt := at'; rd_readAt := at';
  rd_status := Answers _ (Some {| confirmationStatus := Some level; status_err := None |});
  rd_height := Answers _ height |}.
Definition last_read : LastRead string := {| lr_stopped := false; lr_status := TimesOut _ |}.
Definition rounds : list (Round string) := map (fun i => round (2000 * Z.of_nat i) "processed" 5) (seq 0 61).

(** Processed for two minutes, and no answer at the end: unknown. *)
Lemma poll_ends_witness : is_Some (pollUntilSettled 0 0 10 rounds last_read) /\
  fst <$> pollUntilSettled 0 0 10 rounds last_read = Some status_unknown.
Proof.
  split; [|vm_compute; reflexivity]. apply (poll_ends 0 0 10 rounds last_read).
  - vm_compute. repeat split; right; discriminate.
  - vm_compute. lia.
Defined.

Lemma settlement_never_guesses_witness : exists read : Read (option (SignatureStatus string)),
  read ∈ map rd_status [round 0 "processed" 5; round 2000 "confirmed" 5] ++ [lr_status last_read] /\ confirms landed read.
Proof.
  destruct (settlement_never_guesses 0 0 10 [round 0 "processed" 5; round 2000 "confirmed" 5] last_read landed [false; false]
              (Some 3) (PollEnds landed) landed (Some 3)) as [H|[(err & H & _)|H]].
  - reflexivity.
  - left. reflexivity.
  - reflexivity.
  - discriminate.
  - discriminate.
  - exact H.
Defined.

Lemma poll_reports_first_witness :
  fst <$> pollUntilSettled 0 0 10 [round 0 "processed" 5; round 2000 "confirmed" 5] last_read = Some landed.
Proof.
  refine (proj1 (poll_reports_first 0 10 [round 0 "processed" 5] 0 (round 2000 "confirmed" 5) [] last_read landed _) _ _).
  - repeat constructor.
  - reflexivity.
  - exists "confirmed"%string, None. split; [reflexivity|]. split; [left; reflexivity|reflexivity].
Defined.
End SettlementWitness.
