(* ===== verification/Coordinator.v ===== *)
(** Reading realtime resources
    (web/apps/web/src/features/realtime-sync/resource-refresh-coordinator.ts).

    A resource's state is an object that the map and the run that serves it share: states live
    in a store, runs (the calls of the inner [run]) in another. The scope's signal is aborted
    exactly when the generation changes, so [isCurrent] compares generations. A call of [invalidate] for one
    resource is a caller of the run whose promise it gets. A caller is served once the run begins a refresh after its
    call; it is handed over when the resource's registration handles invalidations in flight itself: its refresh is then called
    at once, and neither awaited nor heard when it fails. *)
From S2P Require Import Prelude JsString JsMap.

(** Why a run is over: its last refresh settled, there was none to call, or the scope changed. *)
Inductive RunEnd := Refreshed | Unregistered | Outdated.
Inductive RunPhase := Starting | Refreshing | Over (why : RunEnd) | Left (why : RunEnd).

Inductive Service := Waiting | Served | Handed.

(** Callers by the number of their call and its resource *)
Record Run := {
  rn_resource : string;
  rn_state : nat;
  rn_generation : Z;
  rn_phase : RunPhase;
  rn_callers : list (nat * string * Service);
}.

Record ResourceRefreshState := { st_dirty : bool; st_inFlight : option nat; st_started : bool }.

(** [registrations] holds [handlesInFlightInvalidation]. *)
Record ResourceRefreshCoordinator := {
  co_disposed : bool;
  co_generation : Z;
  co_scope : option string;
  registrations : list (string * bool);
  states : list (string * nat);
  stateStore : list ResourceRefreshState;
  runStore : list Run;
  nextCall : nat;
  settledCalls : list (nat * string * Service * RunEnd);
}.

Definition newCoordinator : ResourceRefreshCoordinator := {|
  co_disposed := false; co_generation := 0; co_scope := None; registrations := []; states := []; stateStore := [];
  runStore := []; nextCall := 0; settledCalls := [] |}.

Definition withStores (c : ResourceRefreshCoordinator) (ss : list ResourceRefreshState) (rs : list Run) : ResourceRefreshCoordinator := {|
  co_disposed := co_disposed c; co_generation := co_generation c; co_scope := co_scope c; registrations := registrations c;
  states := states c; stateStore := ss; runStore := rs; nextCall := nextCall c; settledCalls := settledCalls c |}.

Definition setScope (c : ResourceRefreshCoordinator) (scope : option string) : ResourceRefreshCoordinator :=
  if co_disposed c || bool_decide (scope = co_scope c) then c
  else {| co_disposed := co_disposed c; co_generation := co_generation c + 1; co_scope := scope; registrations := registrations c;
          states := []; stateStore := stateStore c; runStore := runStore c; nextCall := nextCall c; settledCalls := settledCalls c |}.

Definition withRegistrations (c : ResourceRefreshCoordinator) (rs : list (string * bool)) : ResourceRefreshCoordinator := {|
  co_disposed := co_disposed c; co_generation := co_generation c; co_scope := co_scope c; registrations := rs;
  states := states c; stateStore := stateStore c; runStore := runStore c; nextCall := nextCall c; settledCalls := settledCalls c |}.

Definition registerResource (c : ResourceRefreshCoordinator) (resource : string) (handlesInFlight : bool) : ResourceRefreshCoordinator :=
  withRegistrations c (mapSet (registrations c) resource handlesInFlight).

(** The function [register] returns, when its registration is still the current one *)
Definition unregisterResource (c : ResourceRefreshCoordinator) (resource : string) : ResourceRefreshCoordinator :=
  withRegistrations c (mapDelete (registrations c) resource).

Definition disposeAll (c : ResourceRefreshCoordinator) : ResourceRefreshCoordinator :=
  if co_disposed c then c
  else {| co_disposed := true; co_generation := co_generation c + 1; co_scope := co_scope c; registrations := []; states := [];
          stateStore := stateStore c; runStore := runStore c; nextCall := nextCall c; settledCalls := settledCalls c |}.

Definition withCallers (r : Run) (callers : list (nat * string * Service)) : Run := {|
  rn_resource := rn_resource r; rn_state := rn_state r; rn_generation := rn_generation r; rn_phase := rn_phase r;
  rn_callers := callers |}.

Definition withPhase (r : Run) (phase : RunPhase) : Run := {|
  rn_resource := rn_resource r; rn_state := rn_state r; rn_generation := rn_generation r; rn_phase := phase;
  rn_callers := rn_callers r |}.

(** A call joins run [i] of state [sid]. *)
Definition join (c : ResourceRefreshCoordinator) (resource : string) (sid : nat) (s : ResourceRefreshState) (i : nat) (r : Run) :
    ResourceRefreshCoordinator :=
  let handled := st_started s && default false (mapGet (registrations c) resource) in
  let s := if st_started s && negb handled
           then {| st_dirty := true; st_inFlight := st_inFlight s; st_started := st_started s |} else s in
  let c' := withStores c (<[sid:=s]> (stateStore c)) (<[i:=withCallers r (rn_callers r ++ [(nextCall c, resource, if handled then Handed else Waiting)])]> (runStore c)) in
  {| co_disposed := co_disposed c'; co_generation := co_generation c'; co_scope := co_scope c'; registrations := registrations c';
     states := states c'; stateStore := stateStore c'; runStore := runStore c'; nextCall := S (nextCall c);
     settledCalls := settledCalls c' |}.

(** A call starts a run, for the state given or a new one. *)
Definition startRun (c : ResourceRefreshCoordinator) (resource : string) (existing : option (nat * ResourceRefreshState)) :
    ResourceRefreshCoordinator :=
  let i := length (runStore c) in
  let sid := match existing with Some (sid, _) => sid | None => length (stateStore c) end in
  let s := match existing with
           | Some (_, s) => {| st_dirty := st_dirty s; st_inFlight := Some i; st_started := st_started s |}
           | None => {| st_dirty := false; st_inFlight := Some i; st_started := false |}
           end in
  {| co_disposed := co_disposed c; co_generation := co_generation c; co_scope := co_scope c; registrations := registrations c;
     states := mapSet (states c) resource sid;
     stateStore := match existing with Some _ => <[sid:=s]> (stateStore c) | None => stateStore c ++ [s] end;
     runStore := runStore c ++ [{| rn_resource := resource; rn_state := sid; rn_generation := co_generation c;
                                   rn_phase := Starting; rn_callers := [(nextCall c, resource, Waiting)] |}];
     nextCall := S (nextCall c); settledCalls := settledCalls c |}.

(** [run(resource)] *)
Definition run (c : ResourceRefreshCoordinator) (resource : string) : option ResourceRefreshCoordinator :=
  match mapGet (states c) resource with
  | None => Some (startRun c resource None)
  | Some sid =>
      s ← stateStore c !! sid;
      match st_inFlight s with
      | None => Some (startRun c resource (Some (sid, s)))
      | Some i => r ← runStore c !! i; Some (join c resource sid s i r)
      end
  end.

Fixpoint runAll (c : ResourceRefreshCoordinator) (resources : list string) : option ResourceRefreshCoordinator :=
  match resources with [] => Some c | r :: resources => c ← run c r; runAll c resources end.

Definition invalidate (c : ResourceRefreshCoordinator) (resources : list string) : option ResourceRefreshCoordinator :=
  if co_disposed c then Some c else runAll c (unique resources).

(** A round of the loop begins: [dirty] is reset and the refresh called, if there is one and the
    context is current. *)
Definition roundBegins (c : ResourceRefreshCoordinator) (i : nat) (r : Run) : option ResourceRefreshCoordinator :=
  s ← stateStore c !! rn_state r;
  let r := match mapGet (registrations c) (rn_resource r) with
           | None => withPhase r (Over Unregistered)
           | Some _ =>
               if negb (co_disposed c) && (rn_generation r =? co_generation c)
               then withCallers (withPhase r Refreshing) (map (fun k => (k.1, Served)) (rn_callers r))
               else withPhase r (Over Outdated)
           end in
  Some (withStores c (<[rn_state r:={| st_dirty := false; st_inFlight := st_inFlight s; st_started := true |}]> (stateStore c))
          (<[i:=r]> (runStore c))).

(** The run passes its first [await], and begins its first round. *)
Definition runStarts (c : ResourceRefreshCoordinator) (i : nat) : option ResourceRefreshCoordinator :=
  r ← runStore c !! i;
  match rn_phase r with Starting => roundBegins c i r | _ => None end.

(** The refresh of a run settles, in success or failure. *)
Definition refreshSettles (c : ResourceRefreshCoordinator) (i : nat) : option ResourceRefreshCoordinator :=
  r ← runStore c !! i;
  s ← stateStore c !! rn_state r;
  match rn_phase r with
  | Refreshing =>
      if st_dirty s && (rn_generation r =? co_generation c) then roundBegins c i r
      else Some (withStores c (stateStore c)
                   (<[i:=withPhase r (Over (if rn_generation r =? co_generation c then Refreshed else Outdated))]> (runStore c)))
  | _ => None
  end.

(** The [finally] callback; then the callers go on. *)
Definition runLeaves (c : ResourceRefreshCoordinator) (i : nat) : option ResourceRefreshCoordinator :=
  r ← runStore c !! i;
  s ← stateStore c !! rn_state r;
  match rn_phase r with
  | Over why =>
      let ss := if bool_decide (mapGet (states c) (rn_resource r) = Some (rn_state r))
                then <[rn_state r:={| st_dirty := st_dirty s; st_inFlight := None; st_started := false |}]> (stateStore c)
                else stateStore c in
      Some {| co_disposed := co_disposed c; co_generation := co_generation c; co_scope := co_scope c;
              registrations := registrations c; states := states c; stateStore := ss;
              runStore := <[i:=withPhase r (Left why)]> (runStore c); nextCall := nextCall c;
              settledCalls := settledCalls c ++ map (fun k => (k, why)) (rn_callers r) |}
  | _ => None
  end.

(** The run a call of [run] would join *)
Definition joined (c : ResourceRefreshCoordinator) (resource : string) : option Run :=
  sid ← mapGet (states c) resource;
  s ← stateStore c !! sid;
  i ← st_inFlight s;
  runStore c !! i.

(** That run is over already. *)
Definition joinsOver (c : ResourceRefreshCoordinator) (resource : string) : bool :=
  match joined c resource with
  | Some r => match rn_phase r with Over _ | Left _ => true | _ => false end
  | None => false
  end.

(** [handling]: the resources that may be registered with [handlesInFlightInvalidation] *)
Inductive coord_step (handling : list string) : ResourceRefreshCoordinator -> ResourceRefreshCoordinator -> Prop :=
| coord_scope c scope : coord_step handling c (setScope c scope)
| coord_register c resource h : (h = true -> resource ∈ handling) -> coord_step handling c (registerResource c resource h)
| coord_unregister c resource : coord_step handling c (unregisterResource c resource)
| coord_dispose c : coord_step handling c (disposeAll c)
| coord_invalidate c resources c' : Forall (fun r => joinsOver c r = false) resources ->
    invalidate c resources = Some c' -> coord_step handling c c'
| coord_start c i c' : runStarts c i = Some c' -> coord_step handling c c'
| coord_settle c i c' : refreshSettles c i = Some c' -> coord_step handling c c'
| coord_leave c i c' : runLeaves c i = Some c' -> coord_step handling c c'.

(** ** A call is answered by a refresh that began after it *)
Definition active (r : Run) : Prop := match rn_phase r with Left _ => False | _ => True end.
Definition starting (r : Run) : Prop := match rn_phase r with Starting => True | _ => False end.

(** A call after which no refresh began waits for one, or its run has nothing to read any more. *)
Definition call_ok (c : ResourceRefreshCoordinator) (r : Run) (s : ResourceRefreshState) : Prop :=
  forall k, (k, Waiting) ∈ rn_callers r ->
    match rn_phase r with
    | Starting => True
    | Refreshing => st_dirty s = true \/ rn_generation r < co_generation c
    | Over why | Left why => why <> Refreshed
    end.

Record coord_inv (c : ResourceRefreshCoordinator) : Prop := {
  ci_active : forall i r, runStore c !! i = Some r -> active r -> exists s, stateStore c !! rn_state r = Some s /\
    st_inFlight s = Some i /\ (st_started s = false <-> starting r) /\ call_ok c r s;
  ci_flight : forall sid s i, stateStore c !! sid = Some s -> st_inFlight s = Some i ->
    exists r, runStore c !! i = Some r /\ rn_state r = sid;
  ci_idle : forall sid s, stateStore c !! sid = Some s -> st_inFlight s = None -> st_started s = false;
  ci_states : forall k sid, mapGet (states c) k = Some sid -> is_Some (stateStore c !! sid);
  ci_generation : forall r, r ∈ runStore c -> rn_generation r <= co_generation c;
  ci_settled : forall k why, (k, Waiting, why) ∈ settledCalls c -> why <> Refreshed;
}.

Lemma newCoordinator_inv : coord_inv newCoordinator.
Proof. split; cbn; try done; set_solver. Qed.

(** The scope and the registrations change; generations only grow. *)
Lemma scope_inv c c' : coord_inv c -> stateStore c' = stateStore c -> runStore c' = runStore c -> settledCalls c' = settledCalls c ->
  co_generation c <= co_generation c' -> (forall k sid, mapGet (states c') k = Some sid -> mapGet (states c) k = Some sid) -> coord_inv c'.
Proof.
  intros H Hs Hr Hd Hg Hst. split; rewrite ?Hs, ?Hr, ?Hd; try apply H.
  - intros i r Hi Ha. destruct (ci_active _ H i r Hi Ha) as (s & H1 & H2 & H3 & H4). exists s. split_and!; try done.
    intros k Hk. specialize (H4 k Hk). destruct (rn_phase r); try done. destruct H4; [by left|right; lia].
  - intros k sid Hk. by apply (ci_states _ H k), Hst.
  - intros r Hin. pose proof (ci_generation _ H r Hin). lia.
Qed.

Lemma insert_cases {A} (l : list A) i x j y : <[i:=x]> l !! j = Some y -> (j = i /\ y = x) \/ (j <> i /\ l !! j = Some y).
Proof.
  intros H. destruct (decide (j = i)) as [->|Hn].
  - apply list_lookup_insert_Some in H as [(_ & -> & _)|[? _]]; [by left|done].
  - rewrite list_lookup_insert_ne in H by done. by right.
Qed.

(** A run and the state it serves change together. *)
Lemma touch_inv c i r r' s s' : coord_inv c -> runStore c !! i = Some r -> stateStore c !! rn_state r = Some s ->
  st_inFlight s = Some i -> rn_state r' = rn_state r -> rn_generation r' = rn_generation r -> st_inFlight s' = Some i ->
  (st_started s' = false <-> starting r') -> call_ok c r' s' ->
  coord_inv (withStores c (<[rn_state r:=s']> (stateStore c)) (<[i:=r']> (runStore c))).
Proof.
  intros H Hi Hs Hf Hrs Hrg Hf' Hst Hok. pose proof (lookup_lt_Some _ _ _ Hi) as Hlt. pose proof (lookup_lt_Some _ _ _ Hs) as Hlts.
  split; cbn [withStores stateStore runStore states settledCalls co_generation]; try apply H.
  - intros j x Hj Ha. apply insert_cases in Hj as [[-> ->]|[Hn Hj]].
    + exists s'. rewrite Hrs, list_lookup_insert_eq by done. done.
    + destruct (ci_active _ H j x Hj Ha) as (t & H1 & H2 & H3). exists t. split; [|done].
      rewrite list_lookup_insert_ne; [done|]. intros E. rewrite E in Hs. congruence.
  - intros sid t j Ht Hj. apply insert_cases in Ht as [[-> ->]|[Hn Ht]].
    + rewrite Hf' in Hj. injection Hj as <-. exists r'. by rewrite list_lookup_insert_eq.
    + destruct (ci_flight _ H sid t j Ht Hj) as (x & Hx & Hxs). destruct (decide (j = i)) as [->|]; [congruence|].
      exists x. by rewrite list_lookup_insert_ne.
  - intros sid t Ht Hn. apply insert_cases in Ht as [[-> ->]|[_ Ht]]; [congruence|]. by apply (ci_idle _ H sid).
  - intros k sid Hk. rewrite list_lookup_insert_is_Some. by apply (ci_states _ H k).
  - intros x Hx. apply list_elem_of_lookup in Hx as [j Hj]. apply insert_cases in Hj as [[-> ->]|[_ Hj]].
    + rewrite Hrg. by apply (ci_generation _ H), (list_elem_of_lookup_2 _ i).
    + by apply (ci_generation _ H), (list_elem_of_lookup_2 _ j).
Qed.

Lemma roundBegins_inv c i r c' : coord_inv c -> runStore c !! i = Some r -> active r -> roundBegins c i r = Some c' -> coord_inv c'.
Proof.
  intros H Hi Ha Hr. destruct (ci_active _ H i r Hi Ha) as (s & Hs & Hf & _). unfold roundBegins in Hr. rewrite Hs in Hr.
  cbn [mbind option_bind] in Hr. cbv zeta in Hr. injection Hr as <-. set (r' := match mapGet _ _ with Some _ => _ | None => _ end).
  assert (Hr' : rn_state r' = rn_state r /\ rn_generation r' = rn_generation r /\ (starting r' -> False) /\
    (forall k, (k, Waiting) ∈ rn_callers r' -> match rn_phase r' with Over why => why <> Refreshed | _ => False end)).
  { unfold r'. destruct (mapGet _ _) as [h|]; [|split_and!; try done; cbn; by intros]. destruct (_ && _); [|split_and!; try done; cbn; by intros].
    split_and!; try done. cbn. intros k Hk. apply list_elem_of_In, in_map_iff in Hk as ([? ?] & [= ] & _). }
  destruct Hr' as (E1 & E2 & E3 & E4). rewrite E1. apply (touch_inv c i r r' s); try done.
  intros k Hk. specialize (E4 k Hk). by destruct (rn_phase r').
Qed.

Lemma refreshSettles_inv c i c' : coord_inv c -> refreshSettles c i = Some c' -> coord_inv c'.
Proof.
  intros H Hr. unfold refreshSettles in Hr. destruct (runStore c !! i) as [r|] eqn:Hi; [|done]. cbn [mbind option_bind] in Hr.
  destruct (stateStore c !! rn_state r) as [s|] eqn:Hs; [|done]. cbn [mbind option_bind] in Hr.
  destruct (rn_phase r) eqn:Ep; try done. assert (Ha : active r) by (unfold active; by rewrite Ep).
  destruct (st_dirty s && (rn_generation r =? co_generation c)) eqn:Ed; [by eapply roundBegins_inv|]. injection Hr as <-.
  destruct (ci_active _ H i r Hi Ha) as (s' & Hs' & Hf & Hst & Hok). rewrite Hs in Hs'. injection Hs' as <-.
  rewrite <- (list_insert_id (stateStore c) (rn_state r) s Hs). apply (touch_inv c i r _ s s H Hi Hs Hf); try done.
  - unfold starting in Hst |- *. rewrite Ep in Hst. cbn. done.
  - intros k Hk. specialize (Hok k Hk). rewrite Ep in Hok. cbn. destruct (Z.eqb_spec (rn_generation r) (co_generation c)) as [E|E]; [|done].
    destruct (st_dirty s); [done|]. destruct Hok; [done|lia].
Qed.

Lemma runLeaves_inv c i c' : coord_inv c -> runLeaves c i = Some c' -> coord_inv c'.
Proof.
  intros H Hr. unfold runLeaves in Hr. destruct (runStore c !! i) as [r|] eqn:Hi; [|done]. cbn [mbind option_bind] in Hr.
  destruct (stateStore c !! rn_state r) as [s|] eqn:Hs; [|done]. cbn [mbind option_bind] in Hr.
  destruct (rn_phase r) as [| |why|why] eqn:Ep; try done. injection Hr as <-.
  assert (Ha : active r) by (unfold active; by rewrite Ep).
  destruct (ci_active _ H i r Hi Ha) as (s' & Hs' & Hf & _ & Hok). rewrite Hs in Hs'. injection Hs' as <-.
  set (s' := Build_ResourceRefreshState _ _ _). set (ss := if bool_decide _ then _ else _).
  assert (Hss : forall sid t, ss !! sid = Some t -> (sid = rn_state r /\ t = s') \/ stateStore c !! sid = Some t).
  { intros sid t. unfold ss. destruct (bool_decide _); [|by right]. intros Ht. apply insert_cases in Ht as [?|[_ ?]]; auto. }
  assert (Hss' : forall sid t, stateStore c !! sid = Some t -> sid <> rn_state r -> ss !! sid = Some t).
  { intros sid t Ht Hn. unfold ss. destruct (bool_decide _); [|done]. by rewrite list_lookup_insert_ne. }
  split; cbn [stateStore runStore states settledCalls co_generation].
  - intros j x Hj Hax. apply insert_cases in Hj as [[-> ->]|[Hn Hj]]; [done|].
    destruct (ci_active _ H j x Hj Hax) as (t & H1 & H2 & H3). exists t. split; [|done]. apply Hss'; [done|]. intros E. rewrite E in H1. congruence.
  - intros sid t j Ht Hj. apply Hss in Ht as [[-> ->]|Ht]; [done|]. destruct (ci_flight _ H sid t j Ht Hj) as (x & Hx & Hxs).
    destruct (decide (j = i)) as [->|]; [|exists x; by rewrite list_lookup_insert_ne].
    eexists. rewrite list_lookup_insert_eq by (by eapply lookup_lt_Some). split; [done|]. cbn. congruence.
  - intros sid t Ht Hn. apply Hss in Ht as [[-> ->]|Ht]; [done|]. by apply (ci_idle _ H sid).
  - intros k sid Hk. destruct (ci_states _ H k sid Hk) as [t Ht]. unfold ss. destruct (bool_decide _); [|by exists t].
    apply list_lookup_insert_is_Some. by exists t.
  - intros x Hx. apply list_elem_of_lookup in Hx as [j Hj]. apply insert_cases in Hj as [[-> ->]|[_ Hj]].
    + by apply (ci_generation _ H r), (list_elem_of_lookup_2 _ i).
    + by apply (ci_generation _ H), (list_elem_of_lookup_2 _ j).
  - intros k why' [Hin|Hin]%elem_of_app; [by eapply (ci_settled _ H)|].
    apply list_elem_of_In, in_map_iff in Hin as (k' & [= -> <-] & Hin). apply list_elem_of_In in Hin. specialize (Hok k Hin).
    by rewrite Ep in Hok.
Qed.

Lemma join_inv c resource s i r : coord_inv c -> runStore c !! i = Some r -> stateStore c !! rn_state r = Some s ->
  st_inFlight s = Some i -> match rn_phase r with Over _ | Left _ => true | _ => false end = false ->
  coord_inv (join c resource (rn_state r) s i r).
Proof.
  intros H Hi Hs Ef Hj. assert (Ha : active r) by (unfold active; by destruct (rn_phase r)).
  destruct (ci_active _ H i r Hi Ha) as (s' & Hs' & _ & Hst & Hok). rewrite Hs in Hs'. injection Hs' as <-.
  unfold join. cbv zeta. set (handled := st_started s && default false (mapGet (registrations c) resource)). set (s' := if st_started s && negb handled then _ else s).
  set (r' := withCallers r _).
  assert (H1 : coord_inv (withStores c (<[rn_state r:=s']> (stateStore c)) (<[i:=r']> (runStore c)))); [|by apply (scope_inv _ _ H1)].
  assert (Hs' : st_inFlight s' = st_inFlight s /\ st_started s' = st_started s /\ (st_dirty s = true -> st_dirty s' = true) /\
    (st_started s = true -> handled = false -> st_dirty s' = true)).
  { unfold s'. destruct (st_started s) eqn:Est; [|done]. by destruct handled. }
  destruct Hs' as (Hf' & Hst' & Hd & Hd'). apply (touch_inv c i r r' s s' H Hi Hs Ef); try done; [congruence|by rewrite Hst'|].
  intros k Hk. unfold r' in Hk |- *. cbn [withCallers rn_callers rn_phase rn_generation] in *. apply elem_of_app in Hk as [Hk|Hk].
  - specialize (Hok k Hk). destruct (rn_phase r); try done. destruct Hok; [left; auto|by right].
  - apply list_elem_of_singleton in Hk as [= _ Hh]. destruct (rn_phase r) eqn:Ep; try done. left. apply Hd'; [|by destruct handled].
    destruct (st_started s) eqn:Est; [done|]. destruct Hst as [Hst _]. unfold starting in Hst. rewrite Ep in Hst. by destruct (Hst eq_refl).
Qed.

Lemma startAgain_inv c resource sid s : coord_inv c -> stateStore c !! sid = Some s -> st_inFlight s = None ->
  coord_inv (startRun c resource (Some (sid, s))).
Proof.
  intros H Hs Ef. unfold startRun. cbv zeta. set (s' := Build_ResourceRefreshState _ _ _). set (i := length (runStore c)).
  split; cbn [stateStore runStore states settledCalls co_generation]; try apply H.
  - intros j x Hx Ha. apply lookup_app_Some in Hx as [Hx|[Hge Hx]].
    + destruct (ci_active _ H j x Hx Ha) as (t & H1 & H2 & H3). exists t. split; [|done].
      rewrite list_lookup_insert_ne; [done|]. intros E. rewrite E in Hs. congruence.
    + apply list_lookup_singleton_Some in Hx as [Hx <-]. exists s'. cbn [rn_state]. rewrite list_lookup_insert_eq by (by eapply lookup_lt_Some).
      split_and!; [done|cbn; f_equal; unfold i; lia| |by intros k Hk]. cbn. split; [done|]. intros _. by apply (ci_idle _ H sid).
  - intros sid' t j Ht Hj'. apply insert_cases in Ht as [[-> ->]|[Hn Ht]].
    + injection Hj' as <-. eexists. unfold i. rewrite lookup_app_r, Nat.sub_diag by lia. split; reflexivity.
    + destruct (ci_flight _ H sid' t j Ht Hj') as (x & Hx & Hxs). exists x. split; [by apply lookup_app_l_Some|done].
  - intros sid' t Ht Hn. apply insert_cases in Ht as [[-> ->]|[_ Ht]]; [done|]. by apply (ci_idle _ H sid').
  - intros k sid' Hk. apply list_lookup_insert_is_Some. rewrite mapGet_set in Hk. destruct (String.eqb_spec resource k); [|by apply (ci_states _ H k)].
    injection Hk as <-. by exists s.
  - intros x [Hx| ->%list_elem_of_singleton]%elem_of_app; [by apply (ci_generation _ H)|]. cbn. lia.
Qed.

Lemma startFresh_inv c resource : coord_inv c -> coord_inv (startRun c resource None).
Proof.
  intros H. unfold startRun. cbv zeta. set (s' := Build_ResourceRefreshState _ _ _). set (i := length (runStore c)). set (sid := length (stateStore c)).
  split; cbn [stateStore runStore states settledCalls co_generation]; try apply H.
  - intros j x Hx Ha. apply lookup_app_Some in Hx as [Hx|[Hge Hx]].
    + destruct (ci_active _ H j x Hx Ha) as (t & H1 & H2). exists t. split; [by apply lookup_app_l_Some|done].
    + apply list_lookup_singleton_Some in Hx as [Hx <-]. exists s'. cbn [rn_state]. unfold sid. rewrite lookup_app_r, Nat.sub_diag by lia.
      split_and!; [done|cbn; f_equal; unfold i; lia|done|by intros k Hk].
  - intros sid' t j Ht Hj'. apply lookup_app_Some in Ht as [Ht|[Hge Ht]].
    + destruct (ci_flight _ H sid' t j Ht Hj') as (x & Hx & Hxs). exists x. split; [by apply lookup_app_l_Some|done].
    + apply list_lookup_singleton_Some in Ht as [Ht <-]. injection Hj' as <-. eexists. unfold i. rewrite lookup_app_r, Nat.sub_diag by lia.
      split; [reflexivity|]. cbn. unfold sid. lia.
  - intros sid' t Ht Hn. apply lookup_app_Some in Ht as [Ht|[Hge Ht]]; [by apply (ci_idle _ H sid')|].
    apply list_lookup_singleton_Some in Ht as [Ht <-]. done.
  - intros k sid' Hk. rewrite mapGet_set in Hk. destruct (String.eqb_spec resource k).
    + injection Hk as <-. unfold sid. rewrite lookup_app_r, Nat.sub_diag by lia. by eexists.
    + destruct (ci_states _ H k sid' Hk) as [t Ht]. exists t. by apply lookup_app_l_Some.
  - intros x [Hx| ->%list_elem_of_singleton]%elem_of_app; [by apply (ci_generation _ H)|]. cbn. lia.
Qed.

(** A call keeps the invariant, and no other resource gets a run that is over. *)
Lemma run_inv c resource c' : coord_inv c -> joinsOver c resource = false -> run c resource = Some c' ->
  coord_inv c' /\ forall k, joinsOver c k = false -> joinsOver c' k = false.
Proof.
  intros H Hj Hr. unfold run in Hr. unfold joinsOver, joined in Hj. destruct (mapGet (states c) resource) as [sid|] eqn:Em.
  - destruct (ci_states _ H _ _ Em) as [s Hs]. cbn [mbind option_bind] in Hj. rewrite Hs in Hr, Hj. cbn [mbind option_bind] in Hr, Hj.
    destruct (st_inFlight s) as [i|] eqn:Ef; cbn [mbind option_bind] in Hj.
    + destruct (ci_flight _ H sid s i Hs Ef) as (r & Hi & <-). rewrite Hi in Hr, Hj. cbn [mbind option_bind] in Hr. injection Hr as <-.
      split; [by apply join_inv|]. intros k Hk. unfold joinsOver, joined, join in *. cbv zeta. cbn [withStores states stateStore runStore].
      destruct (mapGet (states c) k) as [sk|]; [|done]. cbn [mbind option_bind] in *.
      destruct (<[_:=_]> (stateStore c) !! sk) as [t|] eqn:Et; [|done]. cbn [mbind option_bind].
      destruct (st_inFlight t) as [j|] eqn:Etf; [|done]. cbn [mbind option_bind].
      destruct (<[i:=_]> (runStore c) !! j) as [x|] eqn:Ex; [|done].
      apply insert_cases in Ex as [[-> ->]|[Hn Ex]]; [done|].
      apply insert_cases in Et as [[-> ->]|[_ Et]]; [destruct (st_started s && _) in Etf; cbn in Etf; congruence|].
      rewrite Et in Hk. cbn [mbind option_bind] in Hk. rewrite Etf in Hk. cbn [mbind option_bind] in Hk. by rewrite Ex in Hk.
    + injection Hr as <-. split; [by apply startAgain_inv|]. intros k Hk. unfold joinsOver, joined, startRun in *. cbv zeta. cbn [states stateStore runStore].
      rewrite mapGet_set. destruct (String.eqb_spec resource k) as [<-|].
      * cbn [mbind option_bind]. rewrite list_lookup_insert_eq by (by eapply lookup_lt_Some). cbn [mbind option_bind st_inFlight].
        by rewrite lookup_app_r, Nat.sub_diag by lia.
      * destruct (mapGet (states c) k) as [sk|]; [|done]. cbn [mbind option_bind] in *.
        destruct (<[sid:=_]> (stateStore c) !! sk) as [t|] eqn:Et; [|done]. cbn [mbind option_bind].
        apply insert_cases in Et as [[-> ->]|[_ Et]]; [cbn [mbind option_bind st_inFlight]; by rewrite lookup_app_r, Nat.sub_diag by lia|].
        rewrite Et in Hk. cbn [mbind option_bind] in Hk. destruct (st_inFlight t) as [j|] eqn:Etf; [|done]. cbn [mbind option_bind] in *.
        destruct (ci_flight _ H sk t j Et Etf) as (x & Hx & _). rewrite Hx in Hk. by rewrite (lookup_app_l_Some _ _ _ _ Hx).
  - injection Hr as <-. split; [by apply startFresh_inv|]. intros k Hk. unfold joinsOver, joined, startRun in *. cbv zeta. cbn [states stateStore runStore].
    rewrite mapGet_set. destruct (String.eqb_spec resource k) as [<-|].
    + cbn [mbind option_bind]. rewrite lookup_app_r, Nat.sub_diag by lia. cbn [lookup list_lookup mbind option_bind st_inFlight].
      by rewrite lookup_app_r, Nat.sub_diag by lia.
    + destruct (mapGet (states c) k) as [sk|] eqn:Ek; [|done]. cbn [mbind option_bind] in *. destruct (ci_states _ H k sk Ek) as [t Ht].
      rewrite (lookup_app_l_Some _ _ _ _ Ht). rewrite Ht in Hk. cbn [mbind option_bind] in *.
      destruct (st_inFlight t) as [j|] eqn:Etf; [|done]. cbn [mbind option_bind] in *.
      destruct (ci_flight _ H sk t j Ht Etf) as (x & Hx & _). rewrite Hx in Hk. by rewrite (lookup_app_l_Some _ _ _ _ Hx).
Qed.

Lemma runAll_inv resources : forall c c', coord_inv c -> Forall (fun r => joinsOver c r = false) resources ->
  runAll c resources = Some c' -> coord_inv c'.
Proof.
  induction resources as [|r rs IH]; intros c c' H Hf Hr; cbn [runAll] in Hr; [by injection Hr as <-|].
  apply Forall_cons in Hf as [Hj Hf]. destruct (run c r) as [c1|] eqn:Er; [|done]. cbn [mbind option_bind] in Hr.
  destruct (run_inv c r c1 H Hj Er) as [H1 Hk]. apply (IH c1 c' H1); [|done]. eapply Forall_impl; [exact Hf|]. intros x. apply Hk.
Qed.

Lemma coord_step_inv handling c c' : coord_step handling c c' -> coord_inv c -> coord_inv c'.
Proof.
  intros Hs H. destruct Hs as [c scope|c resource h _|c resource|c|c resources c' Hf Hr|c i c' Hr|c i c' Hr|c i c' Hr].
  - unfold setScope. destruct (_ || _); [done|]. apply (scope_inv c); try done. cbn. lia.
  - by apply (scope_inv c).
  - by apply (scope_inv c).
  - unfold disposeAll. destruct (co_disposed c); [done|]. apply (scope_inv c); try done. cbn. lia.
  - unfold invalidate in Hr. destruct (co_disposed c); [by injection Hr as <-|]. apply (runAll_inv (unique resources) c c' H); [|done].
    apply Forall_forall. intros x Hx. apply (proj1 (Forall_forall _ _) Hf). by apply unique_elem.
  - unfold runStarts in Hr. destruct (runStore c !! i) as [r|] eqn:Hi; [|done]. cbn [mbind option_bind] in Hr.
    destruct (rn_phase r) eqn:Ep; try done. apply (roundBegins_inv c i r c' H Hi); [|done]. unfold active. by rewrite Ep.
  - by eapply refreshSettles_inv.
  - by eapply runLeaves_inv.
Qed.

(** Only resources whose registration handles invalidations in flight have calls handed over. *)
Record handed_inv (handling : list string) (c : ResourceRefreshCoordinator) : Prop := {
  hi_registrations : forall resource, mapGet (registrations c) resource = Some true -> resource ∈ handling;
  hi_callers : forall r n resource, r ∈ runStore c -> (n, resource, Handed) ∈ rn_callers r -> resource ∈ handling;
  hi_settled : forall n resource why, (n, resource, Handed, why) ∈ settledCalls c -> resource ∈ handling;
}.

Lemma stored_run (rs : list Run) i r x : x ∈ <[i:=r]> rs -> x = r \/ x ∈ rs.
Proof. intros [j Hj]%list_elem_of_lookup. apply insert_cases in Hj as [[_ ->]|[_ Hj]]; [by left|right; by eapply list_elem_of_lookup_2]. Qed.

Lemma roundBegins_handed handling c i r c' : handed_inv handling c -> r ∈ runStore c -> roundBegins c i r = Some c' -> handed_inv handling c'.
Proof.
  intros [H1 H2 H3] Hr H. unfold roundBegins in H. destruct (stateStore c !! rn_state r); [|done]. cbn [mbind option_bind] in H. cbv zeta in H. injection H as <-.
  constructor; cbn [withStores registrations runStore settledCalls]; [done| |done]. intros x n resource [->|Hx]%stored_run Hk; [|by eapply H2].
  destruct (mapGet _ _); [destruct (_ && _)|]; cbn in Hk; try (by eapply H2). apply list_elem_of_fmap in Hk as (? & [= ] & _).
Qed.

Lemma run_handed handling c resource c' : handed_inv handling c -> run c resource = Some c' -> handed_inv handling c'.
Proof.
  intros [H1 H2 H3] H. unfold run in H.
  assert (Hstart : forall existing, handed_inv handling (startRun c resource existing)).
  { intros existing. constructor; cbn [startRun registrations runStore settledCalls]; [done| |done]. intros x n k [Hx|Hx]%elem_of_app Hk; [by eapply H2|].
    apply list_elem_of_singleton in Hx as ->. cbn in Hk. apply list_elem_of_singleton in Hk. congruence. }
  destruct (mapGet (states c) resource) as [sid|]; [|by injection H as <-]. destruct (stateStore c !! sid) as [s|]; [|done]. cbn [mbind option_bind] in H.
  destruct (st_inFlight s) as [i|]; [|by injection H as <-]. destruct (runStore c !! i) as [r|] eqn:Hi; [|done]. cbn [mbind option_bind] in H. injection H as <-.
  constructor; cbn [join withStores registrations runStore settledCalls]; [done| |done]. intros x n k [->|Hx]%stored_run Hk; [|by eapply H2].
  cbn [withCallers rn_callers] in Hk. apply elem_of_app in Hk as [Hk|Hk]; [by eapply H2; [eapply list_elem_of_lookup_2|]|]. apply list_elem_of_singleton in Hk.
  destruct (st_started s); cbn [andb] in Hk; [|congruence]. destruct (mapGet (registrations c) resource) as [[]|] eqn:E; cbn in Hk; try congruence.
  injection Hk as -> ->. by apply H1.
Qed.

Lemma step_handed handling c c' : coord_step handling c c' -> handed_inv handling c -> handed_inv handling c'.
Proof.
  intros Hs H. destruct Hs as [c scope|c resource h Hh|c resource|c|c resources c' _ Hr|c i c' Hr|c i c' Hr|c i c' Hr].
  - unfold setScope. destruct (_ || _); [done|]. by destruct H.
  - destruct H as [H1 H2 H3]. constructor; cbn; [|done|done]. intros k Hk. rewrite mapGet_set in Hk. destruct (String.eqb_spec resource k) as [E|]; [|by apply H1]. rewrite <- E in *.
    apply Hh. congruence.
  - destruct H as [H1 H2 H3]. constructor; cbn; [|done|done]. intros k Hk. rewrite mapGet_delete in Hk. destruct (String.eqb resource k); [done|by apply H1].
  - unfold disposeAll. destruct (co_disposed c); [done|]. by destruct H as [H1 H2 H3].
  - unfold invalidate in Hr. destruct (co_disposed c); [by injection Hr as <-|]. revert c H Hr. induction (unique resources) as [|k ks IH]; intros c H Hr; cbn in Hr; [by injection Hr as <-|].
    destruct (run c k) as [c1|] eqn:E; [|done]. cbn in Hr. eapply IH; [|exact Hr]. by eapply run_handed.
  - unfold runStarts in Hr. destruct (runStore c !! i) as [r|] eqn:Hi; [|done]. cbn [mbind option_bind] in Hr. destruct (rn_phase r); try done.
    eapply roundBegins_handed; [done|by eapply list_elem_of_lookup_2|done].
  - unfold refreshSettles in Hr. destruct (runStore c !! i) as [r|] eqn:Hi; [|done]. cbn [mbind option_bind] in Hr. destruct (stateStore c !! rn_state r) as [s|]; [|done].
    cbn [mbind option_bind] in Hr. destruct (rn_phase r); try done. destruct (st_dirty s && _); [eapply roundBegins_handed; [done|by eapply list_elem_of_lookup_2|done]|].
    injection Hr as <-. destruct H as [H1 H2 H3]. constructor; cbn; [done| |done]. intros x n k [->|Hx]%stored_run Hk; [|by eapply H2]. eapply H2; [by eapply list_elem_of_lookup_2|exact Hk].
  - unfold runLeaves in Hr. destruct (runStore c !! i) as [r|] eqn:Hi; [|done]. cbn [mbind option_bind] in Hr. destruct (stateStore c !! rn_state r) as [s|]; [|done].
    cbn [mbind option_bind] in Hr. destruct (rn_phase r); try done. injection Hr as <-. destruct H as [H1 H2 H3]. assert (Hin : r ∈ runStore c) by (by eapply list_elem_of_lookup_2).
    constructor; cbn; [done| |].
    + intros x n k [->|Hx]%stored_run Hk; [|by eapply H2]. by eapply H2.
    + intros n k why' [Hk|Hk]%elem_of_app; [by eapply H3|]. apply list_elem_of_fmap in Hk as (caller & [= <- _] & Hk). by eapply H2.
Qed.

(** C24. An invalidation of a resource is never answered by an older read: the promise it gets for the resource settles after a refresh that began after the call, unless by then
    nothing is registered for the resource or the scope changed, or the resource's registration handles invalidations in flight itself, when a refresh is called at once without
    the promise waiting for it; however refreshes, failures, further calls and changes of scope interleave, as long as no call lands between the end of a run and its removal. *)
Theorem invalidation_read_after (handling : list string) (c : ResourceRefreshCoordinator) (call : nat) (resource : string) (service : Service) (why : RunEnd) :
  rtc (coord_step handling) newCoordinator c -> (call, resource, service, why) ∈ settledCalls c ->
  service = Served \/ (service = Handed /\ resource ∈ handling) \/ why = Unregistered \/ why = Outdated.
Proof.
  intros Hr Hin. assert (coord_inv c /\ handed_inv handling c) as [H Hh].
  { assert (H0 : coord_inv newCoordinator /\ handed_inv handling newCoordinator) by (split; [apply newCoordinator_inv|constructor; cbn; set_solver]).
    revert H0. clear Hin. induction Hr as [|c0 c1 c2 Hs _ IH]; [done|]. intros [H1 H2]. apply IH. split; [by eapply coord_step_inv|by eapply step_handed]. }
  destruct service; [|by left|right; left; split; [done|by eapply (hi_settled _ _ Hh)]]. pose proof (ci_settled _ H _ why Hin). destruct why; [done|by right; right; left|by right; right; right].
Qed.

Module CoordinatorWitness.
Definition c0 := registerResource newCoordinator "earn.state" false.
Definition c1 := default c0 (invalidate c0 ["earn.state"%string; "earn.state"%string]).
Definition c2 := default c1 (runStarts c1 0).
Definition c3 := default c2 (invalidate c2 ["earn.state"%string]).
Definition c4 := default c3 (refreshSettles c3 0).
Definition c5 := default c4 (refreshSettles c4 0).
Definition c6 := default c5 (runLeaves c5 0).

Lemma c5_reachable : rtc (coord_step []) newCoordinator c5.
Proof.
  eapply rtc_l; [apply (coord_register _ _ "earn.state" false); discriminate|].
  eapply rtc_l; [apply (coord_invalidate [] c0 ["earn.state"%string; "earn.state"%string] c1); [repeat constructor|reflexivity]|].
  eapply rtc_l; [apply (coord_start [] c1 0 c2); reflexivity|].
  eapply rtc_l; [apply (coord_invalidate [] c2 ["earn.state"%string] c3); [repeat constructor|reflexivity]|].
  eapply rtc_l; [apply (coord_settle [] c3 0 c4); reflexivity|].
  eapply rtc_l; [apply (coord_settle [] c4 0 c5); reflexivity|]. apply rtc_refl.
Qed.

(** The second call lands during the first refresh, and a second refresh follows. *)
Lemma invalidation_read_after_witness : settledCalls c6 = [(0%nat, "earn.state"%string, Served, Refreshed); (1%nat, "earn.state"%string, Served, Refreshed)] /\
  (Served = Served \/ (Served = Handed /\ "earn.state"%string ∈ @nil string) \/ Refreshed = Unregistered \/ Refreshed = Outdated).
Proof.
  split; [reflexivity|]. apply (invalidation_read_after [] c6 1%nat "earn.state" Served Refreshed).
  - eapply rtc_r; [apply c5_reachable|]. apply (coord_leave [] c5 0 c6). reflexivity.
  - change (settledCalls c6) with [(0%nat, "earn.state"%string, Served, Refreshed); (1%nat, "earn.state"%string, Served, Refreshed)]. apply elem_of_cons. right.
    apply list_elem_of_singleton. reflexivity.
Defined.

(** A call after the last refresh settled and before the run left marks the state dirty, but the loop is
    over: the call is answered by a refresh that began before it. *)
Lemma invalidation_window_stale : exists c c', rtc (coord_step []) newCoordinator c /\ joinsOver c "earn.state" = true /\
  invalidate c ["earn.state"%string] ≫= (fun c => runLeaves c 0) = Some c' /\ (2%nat, "earn.state"%string, Waiting, Refreshed) ∈ settledCalls c'.
Proof.
  exists c5. eexists. split_and!; [apply c5_reachable|reflexivity|reflexivity|]. vm_compute. right. right. left.
Qed.

(** With a registration that handles invalidations in flight, a call during a refresh settles with that refresh, which began before it. *)
Definition h0 := registerResource newCoordinator "earn.state" true.
Definition h1 := default h0 (invalidate h0 ["earn.state"%string]).
Definition h2 := default h1 (runStarts h1 0).
Definition h3 := default h2 (invalidate h2 ["earn.state"%string]).
Definition h4 := default h3 (refreshSettles h3 0).
Definition h5 := default h4 (runLeaves h4 0).
Example handed_over : settledCalls h5 = [(0%nat, "earn.state"%string, Served, Refreshed); (1%nat, "earn.state"%string, Handed, Refreshed)].
Proof. reflexivity. Qed.
End CoordinatorWitness.
