(* ===== verification/Lifecycle.v ===== *)
(** The connection loop of the Earn realtime client
    (web/apps/web/src/features/earn-realtime/lifecycle.ts), the wait between connections
    (recovery.ts) and the poll that replaces the stream for one sweep (fallback.ts).

    A pass of the loop is a function of what happens during it: the answers of the token service,
    of the stream and of the full read, and whether the lifecycle or the renewal timer
    aborted. Its effects are a list of actions. *)
From S2P Require Import Prelude JsString JsMap Json RealtimeEvents Sse.

(** An [AbortError], or another error *)
Inductive ConnError := Aborted | Failed (e : StreamError).
Definition isAbortError (e : ConnError) : bool := match e with Aborted => true | Failed _ => false end.

Definition authRejected (e : ConnError) : bool := match e with Aborted => false | Failed e => isEarnRealtimeAuthRejection e end.

Inductive StreamEnd := Returns (r : EarnRealtimeStreamResult) | Throws (e : ConnError).

(** The full read of a connection without a cursor: it succeeds while the stream is open or after, or fails. *)
Inductive AdmissionEnd := Granted (streamOpen : bool) | Denied.

Record Pass := {
  ps_abortedFirst : bool;           (** at the test of the loop *)
  ps_now : Z;
  ps_request : EarnRealtimeTokenResponse + ConnError;
  ps_abortedToken : bool;           (** after the token came *)
  ps_cursor : option string;
  ps_connected : bool;              (** whether [onConnected] was called *)
  ps_admission : option AdmissionEnd;
  ps_renewing : bool;               (** whether the renewal timer fired *)
  ps_end : StreamEnd;
  ps_abortedLast : bool;            (** when the stream is over *)
}.

Inductive Action := Connecting (isReconnect : bool) | Connected | ErrorShown | CursorCleared | Wait (attempt : Z).

Record Loop := { lp_attempt : Z; lp_token : option EarnRealtimeTokenResponse }.

Section Lifecycle.
Context (getTime : string -> option Z) (renewalLeadMs : Z).

(** [tokenCache.get]; the request may be aborted. *)
Definition cachedToken (l : Loop) (p : Pass) : (EarnRealtimeTokenResponse + ConnError) * option EarnRealtimeTokenResponse :=
  match lp_token l with
  | Some token =>
      if 0 <? renewalDelayMs getTime renewalLeadMs (ps_now p) token then (inl token, lp_token l)
      else match ps_request p with inl fresh => (inl fresh, Some fresh) | inr e => (inr e, lp_token l) end
  | None => match ps_request p with inl fresh => (inl fresh, Some fresh) | inr e => (inr e, None) end
  end.

(** Whether the stream was admitted, and what that did *)
Definition admits (p : Pass) : bool :=
  ps_connected p && match ps_cursor p with
                    | Some _ => true
                    | None => match ps_admission p with Some (Granted open) => open | _ => false end
                    end.

Definition admissionActions (p : Pass) : list Action :=
  if admits p then [Connected]
  else match ps_connected p, ps_cursor p, ps_admission p with true, None, Some Denied => [ErrorShown] | _, _, _ => [] end.

(** The end of a pass: the wait before the next one, unless the lifecycle was aborted *)
Definition waitNext (shown : list Action) (p : Pass) (l : Loop) : list Action * option Loop :=
  if ps_abortedLast p then (shown, None)
  else (shown ++ [Connecting true; Wait (lp_attempt l)], Some {| lp_attempt := lp_attempt l + 1; lp_token := lp_token l |}).

(** An error reaches the outer [catch]. *)
Definition passFails (e : ConnError) (shown : list Action) (p : Pass) (l : Loop) : list Action * option Loop :=
  if ps_abortedLast p then (shown, None) else waitNext (shown ++ if isAbortError e then [] else [ErrorShown]) p l.

(** One pass of the loop: its actions, and the loop's state if it goes on *)
Definition runPass (l : Loop) (p : Pass) : list Action * option Loop :=
  if ps_abortedFirst p then ([], None)
  else
    let first := [Connecting (0 <? lp_attempt l)] in
    let '(got, cache) := cachedToken l p in
    match got with
    | inr e => passFails e first p {| lp_attempt := lp_attempt l; lp_token := cache |}
    | inl token =>
        if ps_abortedToken p then (first, None)
        else
          let attempt := if admits p then 0 else lp_attempt l in
          let l := {| lp_attempt := attempt; lp_token := if ps_renewing p then None else cache |} in
          let shown := first ++ admissionActions p in
          match ps_end p with
          | Throws e =>
              if ps_renewing p && isAbortError e then (shown, Some l)
              else passFails e shown p {| lp_attempt := attempt; lp_token := if authRejected e then None else lp_token l |}
          | Returns (resync_required _) => (shown ++ [CursorCleared], Some l)
          | Returns closed => waitNext shown p l
          end
    end.

(** The whole lifecycle: its actions and, when it is over, that the token is dropped *)
Fixpoint runEarnRealtimeLifecycle (l : Loop) (passes : list Pass) : list Action * Loop :=
  match passes with
  | [] => ([], l)
  | p :: passes =>
      match runPass l p with
      | (actions, None) => (actions, {| lp_attempt := lp_attempt l; lp_token := None |})
      | (actions, Some l) => let '(rest, l) := runEarnRealtimeLifecycle l passes in (actions ++ rest, l)
      end
  end.

Definition waits (l : list Action) : list Z := omap (fun a => match a with Wait n => Some n | _ => None end) l.

Lemma waits_app a b : waits (a ++ b) = waits a ++ waits b.
Proof. apply omap_app. Qed.

Lemma admission_waits p : waits (admissionActions p) = [].
Proof. unfold admissionActions. destruct (admits p); [done|]. by destruct (ps_connected p), (ps_cursor p), (ps_admission p) as [[]|]. Qed.

(** The counter before the wait of a pass: how many passes were lost since the last admitted stream *)
Definition streak (l : Loop) (p : Pass) : Z :=
  match (cachedToken l p).1 with inl _ => if admits p then 0 else lp_attempt l | inr _ => lp_attempt l end.

(** A pass waits at most once, for its streak, and then the streak grows by one; a pass that does not wait
    (renewal of the token, resynchronisation, the end) leaves it. *)
Lemma runPass_waits l p : let '(actions, next) := runPass l p in
  match next with
  | None => waits actions = []
  | Some l' => (waits actions = [] /\ lp_attempt l' = streak l p) \/ (waits actions = [streak l p] /\ lp_attempt l' = streak l p + 1)
  end.
Proof.
  unfold runPass, streak. destruct (ps_abortedFirst p); [done|]. destruct (cachedToken l p) as [[token|e] cache]; cbn [fst].
  - destruct (ps_abortedToken p); [done|]. cbv zeta. set (a := if admits p then 0 else lp_attempt l).
    assert (Hs : forall x, waits (([Connecting (0 <? lp_attempt l)] ++ admissionActions p) ++ x) = waits x).
    { intros x. rewrite !waits_app, admission_waits. done. }
    assert (Hw : forall x l0, lp_attempt l0 = a -> waits x = [] -> let '(acts, next) := waitNext (([Connecting (0 <? lp_attempt l)] ++ admissionActions p) ++ x) p l0 in
      match next with
      | None => waits acts = []
      | Some l' => (waits acts = [] /\ lp_attempt l' = a) \/ (waits acts = [a] /\ lp_attempt l' = a + 1)
      end).
    { intros x l0 <- Hx. unfold waitNext. destruct (ps_abortedLast p); [by rewrite Hs|]. right. rewrite waits_app, Hs, Hx. done. }
    destruct (ps_end p) as [[|d]|e].
    + specialize (Hw [] {| lp_attempt := a; lp_token := if ps_renewing p then None else cache |} eq_refl eq_refl). by rewrite app_nil_r in Hw.
    + left. by rewrite Hs.
    + destruct (ps_renewing p && isAbortError e). { left. pose proof (Hs []) as Hn. rewrite app_nil_r in Hn. done. }
      unfold passFails. destruct (ps_abortedLast p) eqn:El. { pose proof (Hs []) as Hn. rewrite app_nil_r in Hn. done. }
      apply Hw; [done|]. by destruct (isAbortError e).
  - unfold passFails, waitNext. destruct (ps_abortedLast p); [done|]. right. by destruct (isAbortError e).
Qed.

(** Waits that grow by one from [n], and start again at 0 *)
Fixpoint staircase (n : Z) (l : list Z) : Prop :=
  match l with [] => True | w :: l => (w = n \/ w = 0) /\ staircase (w + 1) l end.

Lemma staircase_reset n l : staircase 0 l -> staircase n l.
Proof. destruct l as [|w l]; [done|]. intros [Hw H]. split; [right; naive_solver|done]. Qed.

(** Reconnections back off: from the first, each wait is one step longer than the last until a stream
    is admitted, which starts again at the shortest; every delay is between one second and 30.25 seconds. *)
Theorem lifecycle_backs_off token passes : let ws := waits (runEarnRealtimeLifecycle {| lp_attempt := 0; lp_token := token |} passes).1 in
  staircase 0 ws /\ Forall (fun w => forall jitter, 0 <= jitter <= 250 -> 1000 <= computeEarnRealtimeReconnectDelayMs w jitter <= 30250) ws.
Proof.
  assert (Hrun : forall l, 0 <= lp_attempt l -> let ws := waits (runEarnRealtimeLifecycle l passes).1 in
    staircase (lp_attempt l) ws /\ Forall (Z.le 0) ws).
  { induction passes as [|p ps IH]; intros l Hl; cbn [runEarnRealtimeLifecycle]; [done|].
    pose proof (runPass_waits l p) as Hp. destruct (runPass l p) as [actions [l'|]]; cbn [fst]; [|by rewrite Hp].
    destruct (runEarnRealtimeLifecycle l' ps) as [rest l''] eqn:Er. cbn [fst]. rewrite waits_app.
    assert (Hst : streak l p = lp_attempt l \/ streak l p = 0).
    { unfold streak. destruct ((cachedToken l p).1); [|by left]. destruct (admits p); auto. }
    destruct (IH l') as [H1 H2]; [destruct Hp as [[_ ->]|[_ ->]]; destruct Hst as [-> | ->]; lia|]. rewrite Er in H1, H2. cbn [fst] in H1, H2.
    destruct Hp as [[-> Ha]|[-> Ha]]; cbn [app].
    - split; [|done]. rewrite Ha in H1. destruct Hst as [E|E]; rewrite E in H1; [done|]. by apply staircase_reset.
    - split; [split; [done|by rewrite Ha in H1]|]. apply Forall_cons. split; [destruct Hst as [-> | ->]; lia|done]. }
  cbv zeta. destruct (Hrun {| lp_attempt := 0; lp_token := token |} ltac:(cbn; lia)) as [H1 H2]. split; [exact H1|].
  eapply Forall_impl; [exact H2|]. intros w Hw jitter Hj. by apply reconnect_delay_bounds.
Qed.

(** A stream is opened with a token that was just requested or has time left, and a rejected or
    renewed token is not used again. *)
Lemma lifecycle_tokens l p token : (cachedToken l p).1 = inl token ->
  (ps_request p = inl token \/ lp_token l = Some token /\ 0 < renewalDelayMs getTime renewalLeadMs (ps_now p) token) /\
  forall actions l', ps_abortedFirst p = false -> ps_abortedToken p = false -> runPass l p = (actions, Some l') ->
    ps_renewing p = true \/ (exists e, ps_end p = Throws e /\ authRejected e = true) -> lp_token l' = None.
Proof.
  intros Ht. split.
  - unfold cachedToken in Ht. destruct (lp_token l) as [t|].
    + destruct (Z.ltb_spec 0 (renewalDelayMs getTime renewalLeadMs (ps_now p) t)) as [Hd|_].
      * injection Ht as <-. by right.
      * destruct (ps_request p); [|done]. injection Ht as <-. by left.
    + destruct (ps_request p); [|done]. injection Ht as <-. by left.
  - intros actions l' Hf Htk Hr Hwhy. unfold runPass in Hr. rewrite Hf, Htk in Hr. destruct (cachedToken l p) as [[t|e] cache]; [|done].
    cbn [fst] in Ht. injection Ht as ->. cbv zeta in Hr. unfold passFails, waitNext in Hr.
    destruct Hwhy as [Hre|(e & He & Hau)].
    + rewrite Hre in Hr. cbn [andb lp_token] in Hr. destruct (ps_end p) as [[|d]|e].
      * destruct (ps_abortedLast p); [done|]. by injection Hr as _ <-.
      * by injection Hr as _ <-.
      * destruct (isAbortError e); [by injection Hr as _ <-|]. destruct (ps_abortedLast p); [done|]. injection Hr as _ <-. cbn.
        by destruct (authRejected e).
    + rewrite He in Hr. destruct e as [|e]; [done|]. cbn [isAbortError] in Hr. rewrite andb_false_r, Hau in Hr.
      destruct (ps_abortedLast p); [done|]. by injection Hr as _ <-.
Qed.
End Lifecycle.

(** ** Waiting to reconnect *)
(** What can happen while it waits; a visibility change tells whether the page is visible and online. *)
Inductive RecoveryEvent := AbortSignalled | Online | VisibilityChanged (visible online : bool) | TimerFired.

Record Recovery := { rv_settled : bool; rv_timer : bool; rv_listening : bool; rv_resolved : nat }.

(** [new Promise(...)]; [aborted] is the signal's state. *)
Definition waitForEarnRealtimeRecovery (aborted : bool) : Recovery :=
  if aborted then {| rv_settled := false; rv_timer := false; rv_listening := false; rv_resolved := 1 |}
  else {| rv_settled := false; rv_timer := true; rv_listening := true; rv_resolved := 0 |}.

Definition finishRecovery (r : Recovery) : Recovery :=
  if rv_settled r then r
  else {| rv_settled := true; rv_timer := false; rv_listening := false; rv_resolved := S (rv_resolved r) |}.

(** Removed listeners and a cancelled timer are not called. *)
Definition recoveryStep (r : Recovery) (e : RecoveryEvent) : Recovery :=
  match e with
  | TimerFired => if rv_timer r then finishRecovery r else r
  | AbortSignalled | Online => if rv_listening r then finishRecovery r else r
  | VisibilityChanged visible online => if rv_listening r && visible && online then finishRecovery r else r
  end.

Definition wakes (e : RecoveryEvent) : bool :=
  match e with VisibilityChanged visible online => visible && online | _ => true end.

(** The wait ends at the first event that wakes it, once, and leaves no timer or listener behind. *)
Lemma recovery_once events : let r := foldl recoveryStep (waitForEarnRealtimeRecovery false) events in
  rv_resolved r = (if existsb wakes events then 1 else 0)%nat /\
  rv_timer r = negb (existsb wakes events) /\ rv_listening r = negb (existsb wakes events).
Proof.
  assert (Hdone : forall es r, rv_timer r = false -> rv_listening r = false -> foldl recoveryStep r es = r).
  { induction es as [|e es IH]; intros r Ht Hl; cbn [foldl]; [done|]. assert (recoveryStep r e = r) as ->; [|auto].
    destruct e; cbn [recoveryStep]; by rewrite ?Ht, ?Hl. }
  cbv zeta. unfold waitForEarnRealtimeRecovery. induction events as [|e es IH]; cbn [foldl existsb]; [done|].
  destruct (wakes e) eqn:Ew; cbn [orb].
  - assert (Hs : recoveryStep {| rv_settled := false; rv_timer := true; rv_listening := true; rv_resolved := 0 |} e =
      {| rv_settled := true; rv_timer := false; rv_listening := false; rv_resolved := 1 |}).
    { destruct e as [| |v o|]; cbn in Ew |- *; try done. by rewrite Ew. }
    rewrite Hs, Hdone by done. done.
  - assert (Hs : recoveryStep {| rv_settled := false; rv_timer := true; rv_listening := true; rv_resolved := 0 |} e =
      {| rv_settled := false; rv_timer := true; rv_listening := true; rv_resolved := 0 |}).
    { destruct e as [| |v o|]; cbn in Ew |- *; try done. by rewrite Ew. }
    by rewrite Hs.
Qed.

(** ** Polling the progress of one sweep *)
(** [value] is the JSON body of the answer, [JNull] when it is not JSON. *)
Definition fetchEarnAutodepositProgress (scheduledSlotId : string) (ok : bool) (value : json) : option EarnAutodepositProgress :=
  if negb (decimal scheduledSlotId) || negb ok then None
  else
    match get "scheduledSlotId" value, get "state" value, get "occurredAt" value with
    | JString slot, JString st, JString at' =>
        let optional (v : json) (good : string -> bool) := match v with JUndefined => Some None | JString s => if good s then Some (Some s) else None | _ => None end in
        if String.eqb slot scheduledSlotId && member st EARN_AUTODEPOSIT_PROGRESS_STATES then
          eventId ← optional (get "eventId" value) decimal;
          failureCode ← optional (get "failureCode" value) (fun _ => true);
          Some {| pr_eventId := eventId; pr_failureCode := failureCode; pr_occurredAt := Some at';
                  pr_scheduledSlotId := scheduledSlotId; pr_state := st |}
        else None
    | _, _, _ => None
    end.

(** What the poll returns can be merged into the progress shown, whatever the server sent. *)
Lemma fetched_progress_merges slot ok value next current : fetchEarnAutodepositProgress slot ok value = Some next ->
  (forall c, current = Some c -> pr_eventId c = None \/ numbered c) ->
  pr_scheduledSlotId next = slot /\ pr_state next ∈ EARN_AUTODEPOSIT_PROGRESS_STATES /\ (pr_eventId next = None \/ numbered next) /\
  exists merged, mergeEarnAutodepositProgress current next = Ok merged.
Proof.
  intros Hf Hc. unfold fetchEarnAutodepositProgress in Hf. destruct (negb (decimal slot) || negb ok); [done|].
  destruct (get "scheduledSlotId" value) as [| | | |s| |]; try done. destruct (get "state" value) as [| | | |st| |]; try done.
  destruct (get "occurredAt" value) as [| | | |at'| |]; try done. cbv zeta in Hf.
  destruct (String.eqb s slot && member st EARN_AUTODEPOSIT_PROGRESS_STATES) eqn:Eb; [|done]. apply andb_true_iff in Eb as [_ Hst].
  apply member_spec in Hst.
  assert (Hnext : pr_scheduledSlotId next = slot /\ pr_state next = st /\ (pr_eventId next = None \/ numbered next)).
  { destruct (get "eventId" value) as [| | | |ev| |]; try done; cbn [mbind option_bind] in Hf.
    - destruct (get "failureCode" value); try done; cbn in Hf; injection Hf as <-; cbn; auto.
    - destruct (decimal ev) eqn:Ed; [|done]. cbn [mbind option_bind] in Hf.
      assert (Hn : forall x, numbered {| pr_eventId := Some ev; pr_failureCode := x; pr_occurredAt := Some at';
        pr_scheduledSlotId := slot; pr_state := st |}) by (intros x; by exists ev).
      destruct (get "failureCode" value); try done; cbn in Hf; injection Hf as <-; cbn; auto. }
  destruct Hnext as (Hs & Hst' & Hid). rewrite Hst'. split_and!; try done.
  destruct current as [c|]; [|by eexists]. destruct (decide (pr_scheduledSlotId c = pr_scheduledSlotId next)) as [E|E].
  - destruct (Hc c eq_refl) as [Hce|Hcn].
    + unfold mergeEarnAutodepositProgress. rewrite E, String.eqb_refl, Hce. cbn. by eexists.
    + destruct Hid as [Hn|Hn].
      * unfold mergeEarnAutodepositProgress. rewrite E, String.eqb_refl, Hn. destruct Hcn as (id & -> & Hd). cbn. by destruct id; eexists.
      * rewrite merge_numbered by done. by eexists.
  - unfold mergeEarnAutodepositProgress. rewrite (proj2 (String.eqb_neq _ _) E). by eexists.
Qed.
