(* ===== verification/EarningsCalendar.v ===== *)
(** The calendar of the earnings chart
    (web/apps/web/src/lib/yield-optimization/earnings-calculator.server.ts,
    [createEarningsBuckets] and the time-zone helpers): days and months of a time zone as
    intervals of instants.

    An instant is a number of milliseconds. The calendar of [Date] is the proleptic
    Gregorian one; what the [Intl] library shows of an instant in a time zone is a parameter. *)
From S2P Require Import Prelude JsString.

Definition MS_PER_DAY := 86400000.

(** ** Dates *)
(** The days from 1970-01-01 to day [d] of month [m] (1 to 12) of year [y] *)
Definition days_from_civil (y m d : Z) : Z :=
  let y := if m <=? 2 then y - 1 else y in
  let yoe := y mod 400 in
  let doy := (153 * ((m + 9) mod 12) + 2) / 5 + d - 1 in
  (y / 400) * 146097 + (yoe * 365 + yoe / 4 - yoe / 100 + doy) - 719468.

(** The year, month and day of a day counted from 1970-01-01 *)
Definition civil_of_doe (doe : Z) : Z * Z * Z :=
  let yoe := (doe - doe / 1460 + doe / 36524 - doe / 146096) / 365 in
  let doy := doe - (365 * yoe + yoe / 4 - yoe / 100) in
  let mp := (5 * doy + 2) / 153 in
  let m := if mp <? 10 then mp + 3 else mp - 9 in
  (if m <=? 2 then yoe + 1 else yoe, m, doy - (153 * mp + 2) / 5 + 1).

Definition civil_from_days (z : Z) : Z * Z * Z :=
  let z := z + 719468 in
  let '(y, m, d) := civil_of_doe (z mod 146097) in
  (y + 400 * (z / 146097), m, d).

(** [Date.UTC(year, month, day, hour, minute, second)]: months are counted from 0 and may lie outside of
    the year, and years 0 to 99 stand for 1900 to 1999. *)
Definition Date_UTC (year month day hour minute second : Z) : Z :=
  let year := if (0 <=? year) && (year <=? 99) then 1900 + year else year in
  let day' := days_from_civil (year + month / 12) (month mod 12 + 1) 1 + (day - 1) in
  day' * MS_PER_DAY + hour * 3600000 + minute * 60000 + second * 1000.

Definition dayOf (t : Z) : Z := t / MS_PER_DAY.
Definition getUTCFullYear (t : Z) : Z := (civil_from_days (dayOf t)).1.1.
Definition getUTCMonth (t : Z) : Z := (civil_from_days (dayOf t)).1.2 - 1.
Definition getUTCDate (t : Z) : Z := (civil_from_days (dayOf t)).2.

(** The year of the era a day falls in, and the day of that year, counted from March *)
Lemma year_of_doe doe : 0 <= doe < 146097 ->
  let yoe := (doe - doe / 1460 + doe / 36524 - doe / 146096) / 365 in
  0 <= yoe < 400 /\ 0 <= doe - (365 * yoe + yoe / 4 - yoe / 100) <= 365.
Proof. intros H. cbv zeta. Z.to_euclidean_division_equations. lia. Qed.

Lemma doe_of_year yoe doy : 0 <= yoe < 400 -> 0 <= doy < 365 ->
  let doe := 365 * yoe + yoe / 4 - yoe / 100 + doy in
  0 <= doe < 146097 /\ (doe - doe / 1460 + doe / 36524 - doe / 146096) / 365 = yoe.
Proof. intros Hy Hd. cbv zeta. Z.to_euclidean_division_equations. lia. Qed.

Lemma days_shift y m d k : days_from_civil (y + 400 * k) m d = days_from_civil y m d + 146097 * k.
Proof.
  unfold days_from_civil. set (y' := if m <=? 2 then y - 1 else y).
  replace (if m <=? 2 then y + 400 * k - 1 else y + 400 * k) with (y' + k * 400) by (unfold y'; destruct (m <=? 2); lia).
  rewrite Z.div_add, Z.mod_add by lia. lia.
Qed.

(** Every day is the day of its date. *)
Lemma civil_roundtrip z : let '(y, m, d) := civil_from_days z in days_from_civil y m d = z /\ 1 <= m <= 12.
Proof.
  unfold civil_from_days, civil_of_doe. set (n := z + 719468). pose proof (Z.mod_pos_bound n 146097 ltac:(lia)) as Hb.
  destruct (year_of_doe (n mod 146097) ltac:(lia)) as [Hy Hd]. set (doe := n mod 146097) in *.
  set (yoe := (doe - doe / 1460 + doe / 36524 - doe / 146096) / 365) in *. set (doy := doe - (365 * yoe + yoe / 4 - yoe / 100)) in *.
  set (mp := (5 * doy + 2) / 153). assert (Hmp : 0 <= mp <= 11) by (unfold mp; Z.to_euclidean_division_equations; lia).
  set (m := if mp <? 10 then mp + 3 else mp - 9).
  assert (Hm : 1 <= m <= 12 /\ (m + 9) mod 12 = mp /\ (m <=? 2) = negb (mp <? 10)).
  { unfold m. destruct (Z.ltb_spec mp 10); (split; [lia|]); (split; [Z.to_euclidean_division_equations; lia|lia]). }
  destruct Hm as (Hm1 & Hm2 & Hm3). split; [|done]. rewrite days_shift. unfold days_from_civil. rewrite Hm2.
  replace (if m <=? 2 then (if m <=? 2 then yoe + 1 else yoe) - 1 else if m <=? 2 then yoe + 1 else yoe) with yoe
    by (destruct (m <=? 2); lia).
  rewrite (Z.mod_small yoe 400), (Z.div_small yoe 400) by lia. pose proof (Z.div_mod n 146097 ltac:(lia)) as Hn.
  unfold doe in *. unfold doy, n in *. lia.
Qed.

Lemma first_of_month y m : 1 <= m <= 12 -> civil_from_days (days_from_civil y m 1) = (y, m, 1).
Proof.
  intros Hm. unfold days_from_civil, civil_from_days. set (y' := if m <=? 2 then y - 1 else y).
  set (mp := (m + 9) mod 12). assert (Hmp : 0 <= mp <= 11 /\ m = if mp <? 10 then mp + 3 else mp - 9).
  { unfold mp. destruct (Z.ltb_spec ((m + 9) mod 12) 10); Z.to_euclidean_division_equations; lia. }
  destruct Hmp as [Hmp Em]. set (doy := (153 * mp + 2) / 5 + 1 - 1).
  assert (Hdoy : 0 <= doy < 365 /\ (5 * doy + 2) / 153 = mp) by (unfold doy; Z.to_euclidean_division_equations; lia).
  destruct Hdoy as [Hdoy Hmpd]. pose proof (Z.mod_pos_bound y' 400 ltac:(lia)) as Hyoe.
  destruct (doe_of_year (y' mod 400) doy ltac:(lia) Hdoy) as [Hdoe Hyoe']. set (yoe := y' mod 400) in *.
  set (doe := 365 * yoe + yoe / 4 - yoe / 100 + doy) in *.
  replace (y' / 400 * 146097 + (yoe * 365 + yoe / 4 - yoe / 100 + doy) - 719468 + 719468) with (doe + y' / 400 * 146097) by (unfold doe; lia).
  rewrite Z.mod_add, Z.div_add by lia. rewrite (Z.mod_small doe), (Z.div_small doe) by lia. unfold civil_of_doe. rewrite Hyoe'.
  replace (doe - (365 * yoe + yoe / 4 - yoe / 100)) with doy by (unfold doe; lia). rewrite Hmpd, <- Em.
  f_equal; [f_equal|unfold doy; lia]. pose proof (Z.div_mod y' 400 ltac:(lia)) as Hd. fold yoe in Hd. unfold y' in *. destruct (m <=? 2); lia.
Qed.

(** Months, counted from January of the year 0 *)
Definition monthIndex (z : Z) : Z := let '(y, m, _) := civil_from_days z in 12 * y + (m - 1).
Definition daysOfMonth (M : Z) : Z := days_from_civil (M / 12) (M mod 12 + 1) 1.

Lemma daysOfMonth_civil y m : 1 <= m <= 12 -> daysOfMonth (12 * y + (m - 1)) = days_from_civil y m 1.
Proof.
  intros Hm. unfold daysOfMonth. replace (12 * y + (m - 1)) with (m - 1 + y * 12) by lia. rewrite Z.div_add, Z.mod_add by lia.
  rewrite (Z.div_small (m - 1)), (Z.mod_small (m - 1)) by lia. f_equal; lia.
Qed.

Lemma monthIndex_first M : monthIndex (daysOfMonth M) = M.
Proof.
  unfold monthIndex, daysOfMonth. pose proof (Z.mod_pos_bound M 12 ltac:(lia)). rewrite first_of_month by lia.
  pose proof (Z.div_mod M 12 ltac:(lia)). lia.
Qed.

(** The first of a month, by the year that starts in March *)
Lemma days_by_march y' mp d : 0 <= mp <= 11 ->
  days_from_civil (if mp <? 10 then y' else y' + 1) (if mp <? 10 then mp + 3 else mp - 9) d =
  (y' / 400) * 146097 + (y' mod 400 * 365 + y' mod 400 / 4 - y' mod 400 / 100 + ((153 * mp + 2) / 5 + d - 1)) - 719468.
Proof.
  intros Hmp. unfold days_from_civil. destruct (Z.ltb_spec mp 10).
  - replace (mp + 3 <=? 2) with false by lia. replace ((mp + 3 + 9) mod 12) with mp; [done|]. Z.to_euclidean_division_equations. lia.
  - replace (mp - 9 <=? 2) with true by lia. replace ((mp - 9 + 9) mod 12) with mp by (Z.to_euclidean_division_equations; lia).
    by replace (y' + 1 - 1) with y' by lia.
Qed.

(** A day lies in its month. *)
Lemma month_bounds z : daysOfMonth (monthIndex z) <= z < daysOfMonth (monthIndex z + 1).
Proof.
  unfold monthIndex, civil_from_days, civil_of_doe. set (n := z + 719468). pose proof (Z.mod_pos_bound n 146097 ltac:(lia)) as Hb.
  destruct (year_of_doe (n mod 146097) ltac:(lia)) as [Hy Hd]. set (doe := n mod 146097) in *.
  set (yoe := (doe - doe / 1460 + doe / 36524 - doe / 146096) / 365) in *.
  assert (Hnext : doe < 365 * (yoe + 1) + (yoe + 1) / 4 - (yoe + 1) / 100 \/ yoe = 399)
    by (unfold yoe; clear -Hb; Z.to_euclidean_division_equations; lia).
  set (doy := doe - (365 * yoe + yoe / 4 - yoe / 100)) in *. set (mp := (5 * doy + 2) / 153).
  assert (Hmp : 0 <= mp <= 11) by (unfold mp; Z.to_euclidean_division_equations; lia).
  set (m := if mp <? 10 then mp + 3 else mp - 9). set (y' := yoe + 400 * (n / 146097)).
  assert (Hm : 1 <= m <= 12 /\ (m <=? 2) = negb (mp <? 10)) by (unfold m; destruct (Z.ltb_spec mp 10); lia). destruct Hm as [Hm Hm2].
  replace ((if m <=? 2 then yoe + 1 else yoe) + 400 * (n / 146097)) with (if mp <? 10 then y' else y' + 1)
    by (rewrite Hm2; unfold y'; destruct (mp <? 10); cbn [negb]; lia).
  assert (Hym : y' mod 400 = yoe /\ y' / 400 = n / 146097).
  { unfold y'. replace (yoe + 400 * (n / 146097)) with (yoe + n / 146097 * 400) by lia. rewrite Z.mod_add, Z.div_add by lia.
    rewrite Z.mod_small, Z.div_small by lia. lia. }
  destruct Hym as [Hym Hyd]. pose proof (Z.div_mod n 146097 ltac:(lia)) as Hn. fold doe in Hn. split.
  - rewrite daysOfMonth_civil by done. unfold m. rewrite days_by_march by done. rewrite Hym, Hyd.
    assert (Hdoy : (153 * mp + 2) / 5 <= doy) by (clear -Hd; unfold mp; clearbody doy; Z.to_euclidean_division_equations; lia).
    unfold n, doy in *. clear -Hn Hdoy. clearbody mp yoe doe. lia.
  - destruct (decide (mp = 11)) as [E|E].
    + replace (12 * (if mp <? 10 then y' else y' + 1) + (m - 1) + 1) with (12 * (y' + 1) + (3 - 1)) by (unfold m; rewrite E; cbn; lia).
      rewrite daysOfMonth_civil by lia. pose proof (days_by_march (y' + 1) 0 1 ltac:(lia)) as Hnx. cbn [Z.ltb Z.compare] in Hnx.
      change (0 + 3) with 3 in Hnx. change ((153 * 0 + 2) / 5) with 0 in Hnx. rewrite Hnx. destruct Hnext as [Hnext|Hnext].
      * destruct (decide (yoe = 399)) as [E9|E9].
        -- replace (y' + 1) with ((n / 146097 + 1) * 400) by (unfold y'; lia). rewrite Z.mod_mul, Z.div_mul by lia.
           change (0 / 4) with 0. change (0 / 100) with 0. unfold n in *. clear -Hn Hb. clearbody doe. lia.
        -- replace ((y' + 1) mod 400) with (yoe + 1) by (unfold y'; replace (yoe + 400 * (n / 146097) + 1) with (yoe + 1 + n / 146097 * 400) by lia;
             rewrite Z.mod_add by lia; rewrite (Z.mod_small (yoe + 1) 400) by lia; done).
           replace ((y' + 1) / 400) with (n / 146097) by (unfold y'; replace (yoe + 400 * (n / 146097) + 1) with (yoe + 1 + n / 146097 * 400) by lia;
             rewrite Z.div_add by lia; rewrite (Z.div_small (yoe + 1) 400) by lia; lia).
           unfold n in *. clear -Hn Hnext. clearbody yoe doe. lia.
      * replace (y' + 1) with ((n / 146097 + 1) * 400) by (unfold y'; lia). rewrite Z.mod_mul, Z.div_mul by lia. change (0 / 4) with 0. change (0 / 100) with 0. unfold n in *. clear -Hn Hb. clearbody doe. lia.
    + assert (Hm1 : 12 * (if mp <? 10 then y' else y' + 1) + (m - 1) + 1 =
        12 * (if mp + 1 <? 10 then y' else y' + 1) + ((if mp + 1 <? 10 then mp + 1 + 3 else mp + 1 - 9) - 1)).
      { unfold m. destruct (Z.ltb_spec mp 10), (Z.ltb_spec (mp + 1) 10); lia. }
      rewrite Hm1, daysOfMonth_civil by (destruct (Z.ltb_spec (mp + 1) 10); lia). rewrite days_by_march by lia. rewrite Hym, Hyd.
      assert (Hdoy : doy < (153 * (mp + 1) + 2) / 5) by (unfold mp; Z.to_euclidean_division_equations; lia).
      unfold n, doy in *. clear -Hn Hdoy. clearbody mp yoe doe. lia.
Qed.

Lemma daysOfMonth_step M : daysOfMonth M < daysOfMonth (M + 1).
Proof. pose proof (month_bounds (daysOfMonth M)) as H. rewrite monthIndex_first in H. lia. Qed.

Lemma daysOfMonth_mono M k : 0 <= k -> daysOfMonth M <= daysOfMonth (M + k).
Proof.
  intros Hk. revert k Hk. apply (natlike_ind (fun k => daysOfMonth M <= daysOfMonth (M + k))); [rewrite Z.add_0_r; lia|].
  intros k _ IH. pose proof (daysOfMonth_step (M + k)). replace (M + Z.succ k) with (M + k + 1) by lia. lia.
Qed.

(** Which months have begun *)
Lemma month_le M z : daysOfMonth M <= z <-> M <= monthIndex z.
Proof.
  pose proof (month_bounds z) as [H1 H2]. split; intros H.
  - destruct (Z.le_gt_cases M (monthIndex z)) as [?|Hgt]; [done|]. exfalso.
    pose proof (daysOfMonth_mono (monthIndex z + 1) (M - (monthIndex z + 1)) ltac:(lia)) as Hm.
    replace (monthIndex z + 1 + (M - (monthIndex z + 1))) with M in Hm by lia. lia.
  - pose proof (daysOfMonth_mono M (monthIndex z - M) ltac:(lia)) as Hm. replace (M + (monthIndex z - M)) with (monthIndex z) in Hm by lia. lia.
Qed.

(** ** Time zones *)
Record ZonedParts := { day : Z; hour : Z; minute : Z; month : Z; second : Z; year : Z }.

(** The date and the time of day, to the second, of [t] as if it were UTC *)
Definition partsOf (t : Z) : ZonedParts :=
  let '(y, m, d) := civil_from_days (dayOf t) in
  let ms := t mod MS_PER_DAY in
  {| day := d; hour := ms / 3600000; minute := ms mod 3600000 / 60000; month := m; second := ms mod 60000 / 1000; year := y |}.

Lemma Date_UTC_day y m d h mi s : 100 <= y -> 1 <= m <= 12 ->
  Date_UTC y (m - 1) d h mi s = (days_from_civil y m d) * MS_PER_DAY + h * 3600000 + mi * 60000 + s * 1000.
Proof.
  intros Hy Hm. unfold Date_UTC. replace ((0 <=? y) && (y <=? 99)) with false by lia.
  rewrite (Z.div_small (m - 1)), (Z.mod_small (m - 1)) by lia. rewrite Z.add_0_r. replace (m - 1 + 1) with m by lia.
  unfold days_from_civil. lia.
Qed.

(** [Date.UTC] undoes [partsOf]. *)
Lemma Date_UTC_partsOf t : 100 <= getUTCFullYear t ->
  let p := partsOf t in Date_UTC (year p) (month p - 1) (day p) (hour p) (minute p) (second p) = 1000 * (t / 1000).
Proof.
  unfold getUTCFullYear, partsOf. pose proof (civil_roundtrip (dayOf t)) as Hr. destruct (civil_from_days (dayOf t)) as [[y m] d].
  destruct Hr as [Hr Hm]. cbn [fst snd year month day hour minute second]. intros Hy. rewrite Date_UTC_day by done. rewrite Hr.
  unfold dayOf, MS_PER_DAY. clear. Z.to_euclidean_division_equations. lia.
Qed.

Inductive EarningsRangeId := Range7D | Range30D | Range1Y | RangeAll.

Definition EARNINGS_RANGE_IDS : list (string * EarningsRangeId) :=
  [("7D"%string, Range7D); ("30D"%string, Range30D); ("1Y"%string, Range1Y); ("ALL"%string, RangeAll)].

Definition isEarningsRangeId (value : string) : bool := bool_decide (value ∈ EARNINGS_RANGE_IDS.*1).

(** [accepts] says whether [Intl.DateTimeFormat] takes the name of a time zone or throws. *)
Definition normalizeEarningsTimezone (accepts : string -> bool) (timezone : option string) : string :=
  match timezone with
  | None | Some EmptyString => "UTC"%string
  | Some timezone => if accepts timezone then timezone else "UTC"%string
  end.

Record Bucket {L : Type} := { endAt : Z; isCurrent : bool; label : L; startAt : Z }.
Arguments Bucket : clear implicits.

(** [Array.from({length})]-like counting loops: 0, 1, ..., n - 1 *)
Definition countTo (n : Z) : list Z := map Z.of_nat (seq 0 (Z.to_nat n)).

Lemma countTo_bound n k : In k (countTo n) -> 0 <= k < n.
Proof. unfold countTo. intros H%in_map_iff. destruct H as (i & <- & Hi%in_seq). lia. Qed.

Lemma countTo_snoc n : 1 <= n -> countTo n = countTo (n - 1) ++ [n - 1].
Proof.
  intros Hn. unfold countTo. replace (Z.to_nat n) with (S (Z.to_nat (n - 1))) by lia. rewrite seq_S, map_app. cbn [map].
  do 2 f_equal. lia.
Qed.

Section Zone.
(** What [Intl.DateTimeFormat] shows of an instant in the time zone, as numbers, and its two label formats *)
Context (intl : Z -> ZonedParts) {L : Type} (monthLabel dayLabel : Z -> L).

Definition getZonedParts (date : Z) : ZonedParts :=
  let values := intl date in
  {| day := day values; hour := if hour values =? 24 then 0 else hour values; minute := minute values;
     month := month values; second := second values; year := year values |}.

Definition getTimezoneOffsetMs (date : Z) : Z :=
  let parts := getZonedParts date in
  Date_UTC (year parts) (month parts - 1) (day parts) (hour parts) (minute parts) (second parts) - date.

(** The callers give a year, a month and a day; the time of day is 0. *)
Definition zonedDateTimeToUtc (parts : Z * Z * Z) : Z :=
  let '(year, month, day) := parts in
  let localAsUtc := Date_UTC year (month - 1) day 0 0 0 in
  let utcMs := localAsUtc - getTimezoneOffsetMs localAsUtc in
  let utcMs := localAsUtc - getTimezoneOffsetMs utcMs in
  localAsUtc - getTimezoneOffsetMs utcMs.

Definition addLocalDays (parts : ZonedParts) (days : Z) : Z * Z * Z :=
  let date := Date_UTC (year parts) (month parts - 1) (day parts + days) 0 0 0 in
  (getUTCFullYear date, getUTCMonth date + 1, getUTCDate date).

Definition addLocalMonths (parts : ZonedParts) (months : Z) : Z * Z * Z :=
  let date := Date_UTC (year parts) (month parts - 1 + months) 1 0 0 0 in
  (getUTCFullYear date, getUTCMonth date + 1, 1).

Definition startOfLocalDay (date : Z) : Z :=
  let parts := getZonedParts date in
  zonedDateTimeToUtc (year parts, month parts, day parts).

Definition startOfLocalMonth (date : Z) : Z :=
  let parts := getZonedParts date in
  zonedDateTimeToUtc (year parts, month parts, 1).

Definition byDay (range : EarningsRangeId) : bool := match range with Range7D | Range30D => true | _ => false end.

Definition formatBucketLabel (startAt : Z) (range : EarningsRangeId) : L :=
  match range with Range1Y | RangeAll => monthLabel startAt | _ => dayLabel startAt end.

Definition bucketStarts (firstDepositAt : option Z) (now : Z) (range : EarningsRangeId) : list Z :=
  let todayParts := getZonedParts (startOfLocalDay now) in
  let currentMonthStart := startOfLocalMonth now in
  let currentMonthParts := getZonedParts currentMonthStart in
  if byDay range then
    let count := match range with Range7D => 7 | _ => 30 end in
    map (fun k => zonedDateTimeToUtc (addLocalDays todayParts (- (count - 1 - k)))) (countTo count)
  else
    let firstMonthStart := match firstDepositAt with Some first => startOfLocalMonth first | None => currentMonthStart end in
    let firstParts := getZonedParts firstMonthStart in
    let '(monthCount, firstOffset, baseParts) :=
      match range with
      | Range1Y => (12, -11, currentMonthParts)
      | _ => (Z.max 1 ((year currentMonthParts - year firstParts) * 12 + month currentMonthParts - month firstParts + 1),
              0, firstParts)
      end in
    map (fun i => zonedDateTimeToUtc (addLocalMonths baseParts (firstOffset + i))) (countTo monthCount).

Definition bucketAt (now : Z) (range : EarningsRangeId) (startAt : Z) : Bucket L :=
  let nextStart :=
    zonedDateTimeToUtc (if byDay range then addLocalDays (getZonedParts startAt) 1
                        else addLocalMonths (getZonedParts startAt) 1) in
  {| endAt := Z.min nextStart now; isCurrent := (startAt <=? now) && (now <? nextStart);
     label := formatBucketLabel startAt range; startAt := startAt |}.

Definition createEarningsBuckets (firstDepositAt : option Z) (now : Z) (range : EarningsRangeId) : list (Bucket L) :=
  map (bucketAt now range) (bucketStarts firstDepositAt now range).
End Zone.

(** ** What the code needs of a time zone *)
(** A zone shows an instant moved by its offset, to the second. From 1970 on: offsets are whole seconds and less than a day;
    local midnight occurs exactly once on every date and begins the date; within two days of it at most two offsets
    are in force (the clock changes at most once). *)
Class RegularZone (intl : Z -> ZonedParts) (offset midnight : Z -> Z) : Prop := {
  zone_shows t : 0 <= t -> getZonedParts intl t = partsOf (t + offset t);
  zone_offset t : 0 <= t -> offset t mod 1000 = 0 /\ - MS_PER_DAY < offset t < MS_PER_DAY;
  zone_midnight D t : 2 <= D -> 0 <= t -> t + offset t = D * MS_PER_DAY <-> t = midnight D;
  zone_begins D t : 2 <= D -> 0 <= t -> midnight D <= t <-> D <= dayOf (t + offset t);
  zone_midnight_nonneg D : 2 <= D -> 0 <= midnight D;
  zone_one_change D : 2 <= D -> exists a b, forall t, (D - 2) * MS_PER_DAY <= t <= (D + 2) * MS_PER_DAY -> offset t = a \/ offset t = b }.

Section Regular.
Context {intl : Z -> ZonedParts} {offset midnight : Z -> Z} {Z0 : RegularZone intl offset midnight}.

(** The local date of an instant, as a day counted from 1970-01-01 *)
Definition localDay (t : Z) : Z := dayOf (t + offset t).

Lemma year_recent D : -1 <= D -> 1900 <= (civil_from_days D).1.1.
Proof.
  intros H. pose proof (proj1 (month_le 22800 D)) as Hle. assert (E : daysOfMonth 22800 = -25567) by reflexivity.
  specialize (Hle ltac:(lia)). pose proof (civil_roundtrip D) as Hr. unfold monthIndex in Hle.
  destruct (civil_from_days D) as [[y m] d]. cbn [fst snd]. lia.
Qed.

Lemma dayOf_day D : dayOf (D * MS_PER_DAY) = D.
Proof. apply Z.div_mul. unfold MS_PER_DAY. lia. Qed.

Lemma shown_day t : 0 <= t -> -1 <= localDay t.
Proof.
  intros Ht. destruct (zone_offset t Ht) as [_ Ho]. unfold localDay, dayOf, MS_PER_DAY in *. Z.to_euclidean_division_equations. lia.
Qed.

Lemma offset_exact t : 0 <= t -> t mod 1000 = 0 -> getTimezoneOffsetMs intl t = offset t.
Proof.
  intros Ht Hm. unfold getTimezoneOffsetMs. rewrite (zone_shows t Ht). destruct (zone_offset t Ht) as [Ho Hb].
  pose proof (shown_day t Ht) as Hd. rewrite Date_UTC_partsOf by (pose proof (year_recent _ Hd); unfold getUTCFullYear, localDay in *; lia).
  Z.to_euclidean_division_equations. lia.
Qed.

Lemma Date_UTC_civil D : -1 <= D -> let '(y, m, d) := civil_from_days D in Date_UTC y (m - 1) d 0 0 0 = D * MS_PER_DAY.
Proof.
  intros HD. pose proof (civil_roundtrip D) as Hr. pose proof (year_recent D HD) as Hy.
  destruct (civil_from_days D) as [[y m] d]. cbn [fst snd] in Hy. destruct Hr as [Hr Hm]. rewrite Date_UTC_day by lia. rewrite Hr. lia.
Qed.

(** The correction loop finds local midnight: two rounds suffice because at most two offsets compete. *)
Lemma midnight_found D : 2 <= D -> zonedDateTimeToUtc intl (civil_from_days D) = midnight D.
Proof.
  intros HD. pose proof (Date_UTC_civil D ltac:(lia)) as HL. destruct (civil_from_days D) as [[y m] d]. unfold zonedDateTimeToUtc.
  rewrite HL. set (u := D * MS_PER_DAY). assert (Hu : u = D * MS_PER_DAY /\ u mod 1000 = 0).
  { unfold u, MS_PER_DAY. split; [done|]. Z.to_euclidean_division_equations. lia. }
  destruct Hu as [Hu Hu0]. clearbody u. pose proof (zone_midnight_nonneg D HD) as Hm0.
  pose proof (proj2 (zone_midnight D _ HD Hm0) eq_refl) as Hmid. destruct (zone_one_change D HD) as (a & b & Hab).
  pose proof (zone_offset _ Hm0) as [Hmo Hmb]. unfold MS_PER_DAY in *.
  assert (Hstep : forall t, (D - 1) * 86400000 <= t <= (D + 1) * 86400000 -> t mod 1000 = 0 ->
    getTimezoneOffsetMs intl t = offset t /\ (D - 1) * 86400000 <= u - offset t <= (D + 1) * 86400000 /\
    (u - offset t) mod 1000 = 0 /\ (offset t = a \/ offset t = b)).
  { intros t Ht Ht0. assert (0 <= t) as Hp by lia. rewrite offset_exact by done. destruct (zone_offset t Hp) as [Ho Hb].
    unfold MS_PER_DAY in Hb. split; [done|]. split; [lia|]. split; [Z.to_euclidean_division_equations; lia|apply Hab; lia]. }
  assert (Hfix : forall t, 0 <= t -> offset t = u - t -> t = midnight D) by (intros t Ht E; apply (zone_midnight D t HD Ht); unfold MS_PER_DAY; lia).
  destruct (Hstep u ltac:(lia) Hu0) as (E1 & R1 & M1 & A1). rewrite E1.
  destruct (Hstep _ R1 M1) as (E2 & R2 & M2 & A2). rewrite E2. destruct (Hstep _ R2 M2) as (E3 & _). rewrite E3.
  assert (Am : offset (midnight D) = a \/ offset (midnight D) = b) by (apply Hab; lia).
  assert (G : u - offset (u - offset u) = midnight D).
  { destruct (decide (offset u = offset (midnight D))) as [E|E].
    - replace (u - offset u) with (midnight D) by lia. lia.
    - destruct (decide (offset (u - offset u) = offset u)) as [E'|E']; [|lia].
      pose proof (Hfix (u - offset u) ltac:(lia) ltac:(lia)). lia. }
  rewrite G. lia.
Qed.

(** ** Dates reached by counting days and months *)
Lemma midnight_parts D : 2 <= D -> getZonedParts intl (midnight D) = partsOf (D * MS_PER_DAY).
Proof.
  intros HD. pose proof (zone_midnight_nonneg D HD) as H0. rewrite (zone_shows _ H0). f_equal. by apply zone_midnight.
Qed.

Lemma date_of_parts t : (year (partsOf t), month (partsOf t), day (partsOf t)) = civil_from_days (dayOf t).
Proof. unfold partsOf. by destruct (civil_from_days (dayOf t)) as [[y m] d]. Qed.

Lemma addLocalDays_date D k : -1 <= D -> addLocalDays (partsOf (D * MS_PER_DAY)) k = civil_from_days (D + k).
Proof.
  intros HD. unfold addLocalDays, partsOf. rewrite dayOf_day. pose proof (civil_roundtrip D) as Hr. pose proof (year_recent D HD) as Hy.
  destruct (civil_from_days D) as [[y m] d]. cbn [fst snd year month day] in *. destruct Hr as [Hr Hm]. rewrite Date_UTC_day by lia.
  replace (days_from_civil y m (d + k)) with (D + k) by (rewrite <- Hr; unfold days_from_civil; lia).
  rewrite !Z.mul_0_l, !Z.add_0_r. unfold getUTCFullYear, getUTCMonth, getUTCDate. rewrite dayOf_day.
  destruct (civil_from_days (D + k)) as [[y' m'] d']. cbn [fst snd]. by replace (m' - 1 + 1) with m' by lia.
Qed.

Lemma addLocalMonths_date D k : -1 <= D ->
  addLocalMonths (partsOf (D * MS_PER_DAY)) k = civil_from_days (daysOfMonth (monthIndex D + k)).
Proof.
  intros HD. unfold addLocalMonths, partsOf, monthIndex. rewrite dayOf_day. pose proof (year_recent D HD) as Hy.
  pose proof (civil_roundtrip D) as Hr. destruct (civil_from_days D) as [[y m] d]. cbn [fst snd year month day] in *.
  unfold Date_UTC. replace ((0 <=? y) && (y <=? 99)) with false by lia. set (M := 12 * y + (m - 1) + k).
  assert (HM : M / 12 = y + (m - 1 + k) / 12 /\ M mod 12 = (m - 1 + k) mod 12)
    by (unfold M; Z.to_euclidean_division_equations; lia). destruct HM as [HM1 HM2].
  rewrite <- HM1, <- HM2. fold (daysOfMonth M). replace (daysOfMonth M + (1 - 1)) with (daysOfMonth M) by lia.
  rewrite !Z.mul_0_l, !Z.add_0_r. unfold getUTCFullYear, getUTCMonth. rewrite dayOf_day. unfold daysOfMonth at 3.
  pose proof (Z.mod_pos_bound M 12 ltac:(lia)). unfold daysOfMonth. rewrite !first_of_month by lia. cbn [fst snd]. f_equal. f_equal. lia.
Qed.

Lemma startOfLocalDay_midnight t : 0 <= t -> 2 <= localDay t -> startOfLocalDay intl t = midnight (localDay t).
Proof.
  intros Ht HD. unfold startOfLocalDay. rewrite (zone_shows t Ht), date_of_parts. by apply midnight_found.
Qed.

Lemma startOfLocalMonth_midnight t : 0 <= t -> 2 <= daysOfMonth (monthIndex (localDay t)) ->
  startOfLocalMonth intl t = midnight (daysOfMonth (monthIndex (localDay t))).
Proof.
  intros Ht HD. unfold startOfLocalMonth. rewrite (zone_shows t Ht), <- midnight_found by done. f_equal.
  unfold monthIndex, partsOf, localDay. pose proof (civil_roundtrip (dayOf (t + offset t))) as Hr.
  destruct (civil_from_days (dayOf (t + offset t))) as [[y m] d]. cbn [year month]. destruct Hr as [_ Hm].
  by rewrite daysOfMonth_civil, first_of_month by lia.
Qed.

Lemma midnight_lt D D' : 2 <= D -> D < D' -> midnight D < midnight D'.
Proof.
  intros HD Hlt. destruct (Z.lt_ge_cases (midnight D) (midnight D')) as [?|Hge]; [done|]. exfalso.
  pose proof (zone_midnight_nonneg D HD) as H0. apply (zone_begins D' _ ltac:(lia) H0) in Hge.
  rewrite (proj2 (zone_midnight D _ HD H0) eq_refl), dayOf_day in Hge. lia.
Qed.

Lemma localDay_mono t u : 0 <= t -> t <= u -> 2 <= localDay t -> localDay t <= localDay u.
Proof.
  intros Ht Hu HD. apply (zone_begins _ u HD ltac:(lia)). etrans; [|exact Hu]. by apply (zone_begins _ t HD Ht).
Qed.

(** ** The buckets of a range *)
(** The local month, the month of the first deposit, how many buckets a range has and the local day the [k]-th one starts *)
Definition localMonth (t : Z) : Z := monthIndex (localDay t).

Definition firstMonth (firstDepositAt : option Z) (now : Z) : Z := localMonth (default now firstDepositAt).

Definition bucketCount (firstDepositAt : option Z) (now : Z) (range : EarningsRangeId) : Z :=
  match range with
  | Range7D => 7
  | Range30D => 30
  | Range1Y => 12
  | RangeAll => localMonth now - firstMonth firstDepositAt now + 1
  end.

Definition bucketDay (firstDepositAt : option Z) (now : Z) (range : EarningsRangeId) (k : Z) : Z :=
  match range with
  | Range7D => localDay now - 6 + k
  | Range30D => localDay now - 29 + k
  | Range1Y => daysOfMonth (localMonth now - 11 + k)
  | RangeAll => daysOfMonth (firstMonth firstDepositAt now + k)
  end.

Definition EARLIEST := 800 * MS_PER_DAY.

Lemma recent_day t : EARLIEST <= t -> 799 <= localDay t.
Proof.
  intros Ht. unfold EARLIEST in Ht. destruct (zone_offset t ltac:(unfold MS_PER_DAY in *; lia)) as [_ Hb].
  unfold localDay, dayOf, MS_PER_DAY in *. Z.to_euclidean_division_equations. lia.
Qed.

Lemma recent_month t : EARLIEST <= t -> 23664 <= localMonth t.
Proof.
  intros Ht. pose proof (recent_day t Ht) as Hd. apply month_le. assert (E : daysOfMonth 23664 = 730) by reflexivity. lia.
Qed.

Lemma recent_month_day M : 23650 <= M -> 2 <= daysOfMonth M.
Proof.
  intros H. pose proof (daysOfMonth_mono 23650 (M - 23650) ltac:(lia)) as Hm. assert (E : daysOfMonth 23650 = 304) by reflexivity.
  replace (23650 + (M - 23650)) with M in Hm by lia. lia.
Qed.

Lemma month_parts M :
  let p := partsOf (daysOfMonth M * MS_PER_DAY) in 12 * year p + month p = M + 1.
Proof.
  cbv zeta. unfold partsOf. rewrite dayOf_day. pose proof (monthIndex_first M) as Hm. unfold monthIndex in Hm.
  destruct (civil_from_days (daysOfMonth M)) as [[y m] d]. cbn [year month]. lia.
Qed.

Section Range.
Context (firstDepositAt : option Z) (now : Z) (range : EarningsRangeId).
Hypothesis Hnow : EARLIEST <= now.
Hypothesis Hfirst : forall first, firstDepositAt = Some first -> EARLIEST <= first <= now.

Local Notation count := (bucketCount firstDepositAt now range).
Local Notation dayAt := (bucketDay firstDepositAt now range).

Lemma now_nonneg : 0 <= now. Proof. unfold EARLIEST, MS_PER_DAY in *. lia. Qed.

Lemma firstMonth_bounds : 23664 <= firstMonth firstDepositAt now <= localMonth now.
Proof.
  pose proof (recent_month now Hnow). unfold firstMonth. destruct firstDepositAt as [f|]; cbn [default]; [|lia].
  destruct (Hfirst f eq_refl) as [H1 H2]. split; [by apply recent_month|]. unfold localMonth. apply month_le.
  pose proof (recent_day f H1). pose proof (month_bounds (localDay f)) as [Hb _]. etrans; [exact Hb|].
  apply localDay_mono; [unfold EARLIEST, MS_PER_DAY in *; lia|done|lia].
Qed.

(** Each bucket starts before the next, and today lies in the last one. *)
Lemma bucketDay_steps :
  1 <= count /\ 2 <= dayAt 0 /\ (forall k, dayAt k < dayAt (k + 1)) /\ dayAt (count - 1) <= localDay now < dayAt count.
Proof.
  pose proof (recent_day now Hnow) as Hd. pose proof (recent_month now Hnow) as Hm. pose proof firstMonth_bounds as Hf.
  pose proof (month_bounds (localDay now)) as Hb. fold (localMonth now) in Hb. unfold bucketCount, bucketDay.
  destruct range; (split; [lia|]); [split; [lia|]; split; [intros k; lia|lia]|split; [lia|]; split; [intros k; lia|lia]| |].
  - split; [apply recent_month_day; lia|]. split; [intros k; rewrite Z.add_assoc; apply daysOfMonth_step|].
    replace (localMonth now - 11 + (12 - 1)) with (localMonth now) by lia. by replace (localMonth now - 11 + 12) with (localMonth now + 1) by lia.
  - split; [apply recent_month_day; lia|]. split; [intros k; rewrite Z.add_assoc; apply daysOfMonth_step|].
    set (F := firstMonth firstDepositAt now) in *. replace (F + (localMonth now - F + 1 - 1)) with (localMonth now) by lia.
    by replace (F + (localMonth now - F + 1)) with (localMonth now + 1) by lia.
Qed.

Lemma bucketDay_ge2 k : 0 <= k -> 2 <= dayAt k.
Proof.
  destruct bucketDay_steps as (_ & H0 & Hs & _). revert k. apply (natlike_ind (fun k => 2 <= dayAt k)); [done|].
  intros k _ IH. specialize (Hs k). unfold Z.succ. lia.
Qed.

Lemma bucketStarts_days : bucketStarts intl firstDepositAt now range = map (fun k => midnight (dayAt k)) (countTo count).
Proof.
  pose proof (recent_day now Hnow) as Hd. pose proof (recent_month now Hnow) as Hm. pose proof firstMonth_bounds as Hf. pose proof now_nonneg as H0.
  pose proof bucketDay_ge2 as Hge. unfold bucketStarts. rewrite startOfLocalDay_midnight, midnight_parts by lia.
  assert (HM2 : 2 <= daysOfMonth (localMonth now)) by (apply recent_month_day; lia).
  rewrite startOfLocalMonth_midnight by done. fold (localMonth now).
  assert (HF : match firstDepositAt with Some first => startOfLocalMonth intl first | None => midnight (daysOfMonth (localMonth now)) end =
               midnight (daysOfMonth (firstMonth firstDepositAt now))).
  { unfold firstMonth. destruct firstDepositAt as [f|]; cbn [default]; [|done]. destruct (Hfirst f eq_refl) as [H1 _].
    apply startOfLocalMonth_midnight; [unfold EARLIEST, MS_PER_DAY in *; lia|]. apply recent_month_day. pose proof (recent_month f H1). unfold localMonth in *. lia. }
  rewrite HF, !midnight_parts by (try apply recent_month_day; lia).
  assert (Hext : forall n (f : Z -> Z * Z * Z), n = count -> (forall k, 0 <= k < n -> f k = civil_from_days (dayAt k)) ->
    map (fun k => zonedDateTimeToUtc intl (f k)) (countTo n) = map (fun k => midnight (dayAt k)) (countTo count)).
  { intros n f -> Hf'. apply map_ext_in. intros k Hk%countTo_bound. rewrite Hf' by lia. apply midnight_found, Hge. lia. }
  pose proof (month_parts (localMonth now)) as Hpm. pose proof (month_parts (firstMonth firstDepositAt now)) as Hpf.
  unfold bucketCount, bucketDay in Hext |- *. destruct range; cbn [byDay]; cbv zeta; apply Hext; try done.
  - intros k Hk. rewrite addLocalDays_date by lia. f_equal. lia.
  - intros k Hk. rewrite addLocalDays_date by lia. f_equal. lia.
  - intros k Hk. rewrite addLocalMonths_date, monthIndex_first by lia. do 2 f_equal. lia.
  - cbv zeta in *. lia.
  - intros k Hk. rewrite addLocalMonths_date, monthIndex_first by (pose proof (recent_month_day (firstMonth firstDepositAt now) ltac:(lia)); lia).
    do 2 f_equal.
Qed.

Context {L : Type} (monthLabel dayLabel : Z -> L).

Lemma bucketAt_day k : 0 <= k < count ->
  bucketAt intl monthLabel dayLabel now range (midnight (dayAt k)) =
  {| endAt := Z.min (midnight (dayAt (k + 1))) now;
     isCurrent := (midnight (dayAt k) <=? now) && (now <? midnight (dayAt (k + 1)));
     label := formatBucketLabel monthLabel dayLabel (midnight (dayAt k)) range; startAt := midnight (dayAt k) |}.
Proof.
  intros Hk. pose proof (bucketDay_ge2 k ltac:(lia)) as H1. pose proof (bucketDay_ge2 (k + 1) ltac:(lia)) as H2.
  assert (E : (if byDay range then addLocalDays (getZonedParts intl (midnight (dayAt k))) 1
               else addLocalMonths (getZonedParts intl (midnight (dayAt k))) 1) = civil_from_days (dayAt (k + 1))).
  { rewrite midnight_parts by done. revert H1. unfold bucketDay. destruct range; cbn [byDay]; intros H1.
    1,2: rewrite addLocalDays_date by lia; f_equal; lia.
    all: rewrite addLocalMonths_date, monthIndex_first by lia; do 2 f_equal; lia. }
  unfold bucketAt. by rewrite E, midnight_found.
Qed.
Local Notation start k := (midnight (dayAt k)).

Lemma starts_increase k : 0 <= k -> start k < start (k + 1).
Proof.
  intros Hk. destruct bucketDay_steps as (_ & _ & Hs & _). apply midnight_lt; [by apply bucketDay_ge2|apply Hs].
Qed.

Lemma starts_before_last k : 0 <= k -> k <= count - 1 -> start k <= start (count - 1).
Proof.
  intros Hk Hkn. replace (count - 1) with (k + (count - 1 - k)) by lia. apply (natlike_ind (fun d => start k <= start (k + d)));
    [rewrite Z.add_0_r; lia| |lia]. intros d Hd IH. pose proof (starts_increase (k + d) ltac:(lia)). unfold Z.succ. rewrite Z.add_assoc. lia.
Qed.

Lemma now_in_last : start (count - 1) <= now < start count.
Proof.
  destruct bucketDay_steps as (Hn & _ & _ & Hl1 & Hl2). pose proof now_nonneg as H0.
  split; [apply (zone_begins _ now (bucketDay_ge2 (count - 1) ltac:(lia)) H0); exact Hl1|].
  apply Z.nle_gt. intros Hc%(zone_begins _ now (bucketDay_ge2 count ltac:(lia)) H0). unfold localDay in Hl2. lia.
Qed.

(** The bucket before the last ones, and the last one *)
Definition closedBucket (k : Z) : Bucket L :=
  {| endAt := start (k + 1); isCurrent := false; label := formatBucketLabel monthLabel dayLabel (start k) range; startAt := start k |}.
Definition currentBucket : Bucket L :=
  {| endAt := now; isCurrent := true; label := formatBucketLabel monthLabel dayLabel (start (count - 1)) range; startAt := start (count - 1) |}.

Lemma buckets_split :
  createEarningsBuckets intl monthLabel dayLabel firstDepositAt now range = map closedBucket (countTo (count - 1)) ++ [currentBucket].
Proof.
  destruct bucketDay_steps as (Hn & _). pose proof now_in_last as Hlast. unfold createEarningsBuckets.
  rewrite bucketStarts_days, map_map, countTo_snoc, map_app by done.
  f_equal; [apply map_ext_in; intros k Hk%countTo_bound|cbn [map]; f_equal]; rewrite bucketAt_day by lia.
  - pose proof (starts_before_last (k + 1) ltac:(lia) ltac:(lia)). unfold closedBucket. f_equal; lia.
  - unfold currentBucket. replace (count - 1 + 1) with count by lia. f_equal; lia.
Qed.
End Range.

(** In a regular time zone the buckets of a range are consecutive local days, or calendar months from the first deposit's (or
    eleven months back) to this one: each ends exactly where the next begins, every bucket but the last lies in the past,
    and the last one is the only current one, contains now and ends there. Nothing is counted twice and nothing is left out. *)
Theorem buckets_partition {L : Type} (monthLabel dayLabel : Z -> L) (firstDepositAt : option Z) (now : Z) (range : EarningsRangeId) :
  EARLIEST <= now -> (forall first, firstDepositAt = Some first -> EARLIEST <= first <= now) ->
  let n := bucketCount firstDepositAt now range in
  let start k := midnight (bucketDay firstDepositAt now range k) in
  createEarningsBuckets intl monthLabel dayLabel firstDepositAt now range =
    map (fun k => {| endAt := start (k + 1); isCurrent := false;
                     label := formatBucketLabel monthLabel dayLabel (start k) range; startAt := start k |}) (countTo (n - 1)) ++
    [{| endAt := now; isCurrent := true; label := formatBucketLabel monthLabel dayLabel (start (n - 1)) range; startAt := start (n - 1) |}] /\
  (forall k, 0 <= k -> start k < start (k + 1)) /\ start (n - 1) <= now < start n /\ 1 <= n.
Proof.
  intros Hnow Hfirst n start. destruct (bucketDay_steps firstDepositAt now range Hnow Hfirst) as (Hn & _).
  split; [by apply buckets_split|]. split; [intros k; by apply starts_increase|]. split; [by apply now_in_last|done].
Qed.
End Regular.

(** ** Zones whose clock changes once *)
(** The zone has offset [a] before [T] and [b] from it on; [Intl] shows the hour of midnight as 24. *)
Definition changingOffset (a b T t : Z) : Z := if t <? T then a else b.

Definition changingZone (a b T t : Z) : ZonedParts :=
  let p := partsOf (t + changingOffset a b T t) in
  {| day := day p; hour := if hour p =? 0 then 24 else hour p; minute := minute p; month := month p; second := second p; year := year p |}.

Lemma le_dayOf D x : D <= dayOf x <-> D * MS_PER_DAY <= x.
Proof. unfold dayOf, MS_PER_DAY. Z.to_euclidean_division_equations. lia. Qed.

Definition changingMidnight (a b D0 D : Z) : Z := D * MS_PER_DAY - (if D <=? D0 then a else b).

Lemma changing_shows a b T t : getZonedParts (changingZone a b T) t = partsOf (t + changingOffset a b T t).
Proof.
  unfold getZonedParts, changingZone. cbn [day hour minute month second year]. set (p := partsOf _).
  assert (Hh : 0 <= hour p < 24).
  { unfold p, partsOf. destruct (civil_from_days _) as [[? ?] ?]. cbn [hour]. unfold MS_PER_DAY. Z.to_euclidean_division_equations. lia. }
  destruct (Z.eqb_spec (hour p) 0) as [E|E].
  - clearbody p. destruct p. cbn [day hour minute month second year] in *. by subst.
  - replace (hour p =? 24) with false by lia. clearbody p. by destruct p.
Qed.

(** When the clock is moved inside a local day, away from its midnights, the zone is regular. *)
Lemma changing_regular a b T D0 : 2 <= D0 ->
  a mod 1000 = 0 -> b mod 1000 = 0 -> - MS_PER_DAY < a < MS_PER_DAY -> - MS_PER_DAY < b < MS_PER_DAY ->
  D0 * MS_PER_DAY < T + Z.min a b -> T + Z.max a b < (D0 + 1) * MS_PER_DAY ->
  RegularZone (changingZone a b T) (changingOffset a b T) (changingMidnight a b D0).
Proof.
  intros HD0 Ha0 Hb0 Ha Hb Hlo Hhi. unfold changingMidnight, changingOffset.
  split; [intros t _; apply changing_shows|..]; unfold MS_PER_DAY in *.
  - intros t Ht. destruct (t <? T); lia.
  - intros D t HD Ht. destruct (Z.ltb_spec t T), (Z.leb_spec D D0); lia.
  - intros D t HD Ht. rewrite le_dayOf. unfold MS_PER_DAY. destruct (Z.ltb_spec t T), (Z.leb_spec D D0); lia.
  - intros D HD. destruct (Z.leb_spec D D0); lia.
  - intros D HD. exists a, b. intros t _. destruct (t <? T); auto.
Qed.

Module CalendarWitness.
(** New York in March 2024: the clock moves from five to four hours behind on the 10th at 07:00Z. *)
Definition T := 1710054000000.
Definition a := -18000000.
Definition b := -14400000.
Definition now := 1710518400000.

Lemma new_york : RegularZone (changingZone a b T) (changingOffset a b T) (changingMidnight a b 19792).
Proof. apply changing_regular; vm_compute; repeat split; done. Qed.

Lemma buckets_partition_witness :
  createEarningsBuckets (changingZone a b T) id id (Some (now - 5 * MS_PER_DAY)) now RangeAll =
  [{| endAt := now; isCurrent := true; label := 1709269200000; startAt := 1709269200000 |}].
Proof.
  refine (proj1 (@buckets_partition _ _ _ new_york _ id id (Some (now - 5 * MS_PER_DAY)) now RangeAll ltac:(vm_compute; done) _)).
  intros first [= <-]. vm_compute. repeat split; done.
Defined.

(** A week across the change has seven buckets, one of 23 hours. *)
Example week_lengths :
  map (fun bk => (endAt bk - startAt bk) / 3600000) (createEarningsBuckets (changingZone a b T) id id None now Range7D) =
  [24; 23; 24; 24; 24; 24; 12].
Proof. vm_compute. done. Qed.
End CalendarWitness.

(** ** A midnight that is skipped *)
(** Beirut moves its clock from two to three hours ahead at midnight: on 2024-03-31 local time goes from 23:59:59 of the 30th to
    01:00:00. The correction loop swings between the two offsets and stops at 23:00 of the day before. *)
Definition beirut : Z -> ZonedParts := changingZone 7200000 10800000 1711836000000.

Theorem skipped_midnight_today_missing :
  let now := 1711875600000 (* 2024-03-31T09:00:00Z, noon in Beirut *) in
  startOfLocalDay beirut now = 1711836000000 - 3600000 /\
  map isCurrent (createEarningsBuckets beirut id id None now Range7D) = replicate 7 false /\
  forallb (fun bk => endAt bk <? now) (createEarningsBuckets beirut id id None now Range7D) = true.
Proof. cbv zeta. split; [|split]; vm_compute; done. Qed.
