(* ===== verification/EarningsReport.v ===== *)
(** The earnings report of the web server
    (web/apps/web/src/lib/yield-optimization/earnings-calculator.server.ts, [calculateEarnEarnings]): the buckets of
    EarningsCalendar.v filled with the windows of Earnings.v, the totals beside them, and the continuation of a
    report from a checkpoint. *)
From S2P Require Import Prelude JsString F64 Earnings EarningsCalendar.

(** ** ISO strings *)
Definition padStart (width : nat) (s : string) : string :=
  (String.string_of_list_ascii (replicate (width - String.length s) "0"%char) +:+ s)%string.

(** [date.toISOString()] of a time value within the range of [Date] *)
Definition toISOString (t : Z) : string :=
  let p := partsOf t in
  let two n := padStart 2 (bigint_toString n) in
  let y := year p in
  let years :=
    if (0 <=? y) && (y <=? 9999) then padStart 4 (bigint_toString y)
    else ((if (y <? 0)%Z then "-" else "+") +:+ padStart 6 (bigint_toString (Z.abs y)))%string in
  (years +:+ "-" +:+ two (month p) +:+ "-" +:+ two (day p) +:+ "T" +:+ two (hour p) +:+ ":" +:+
   two (minute p) +:+ ":" +:+ two (second p) +:+ "." +:+ padStart 3 (bigint_toString (t mod 1000)) +:+ "Z")%string.

Example toISOString_now : toISOString 1711875600042 = "2024-03-31T09:00:00.042Z"%string.
Proof. reflexivity. Qed.

(** ** Data *)
Record EarnEarningsBar := {
  bar_apyBps : option f64;
  bar_avgPrincipalUsd : f64;
  bar_earnedUsd : f64;
  bar_endAt : string;
  bar_isCurrent : bool;
  bar_label : string;
  bar_principalAmountRaw : string;
  bar_principalUsd : f64;
  bar_startAt : string;
}.

Record EarnEarningsResponse := {
  res_bars : list EarnEarningsBar;
  res_currentApyBps : option f64;
  res_lastDepositAt : option string;
  res_lifetimeEarnedUsd : f64;
  res_principalAmountRaw : string;
  res_principalUsd : f64;
  res_rangeEarnedUsd : f64;
  res_sinceLastDepositEarnedUsd : f64;
  res_todayEarnedUsd : f64;
}.

Record Checkpoint := { cp_at : Z; cp_response : EarnEarningsResponse }.

Record EarningsArgs := {
  arg_apySamples : list ReserveApySample;
  arg_events : list YieldPositionEvent;
  arg_now : Z;
  arg_pathEvents : option (list YieldPositionPathEvent);
  arg_portfolioSnapshots : option (list YieldPortfolioSnapshot);
  arg_principalClamp : option PrincipalClamp;
  arg_range : EarningsRangeId;
  arg_checkpoint : option Checkpoint;
}.

(** ** Helpers *)
Definition isDeposit (event : YieldPositionEvent) : bool := match ev_type event with Deposit => true | _ => false end.
Definition isPathDeposit (event : YieldPositionPathEvent) : bool := match pe_type event with PathDeposit => true | _ => false end.

(** [Math.max(x, resumeAt)], where [resumeAt] is minus infinity without a checkpoint *)
Definition maxResume (x : Z) (resumeAt : option Z) : Z := match resumeAt with Some r => Z.max x r | None => x end.
Definition beforeResume (x : Z) (resumeAt : option Z) : bool := match resumeAt with Some r => x <? r | None => false end.
Definition byResume (x : Z) (resumeAt : option Z) : bool := match resumeAt with Some r => x <=? r | None => false end.

(** [new Map(bars.map((bar) => [bar.startAt, bar])).get(key)]: a later bar replaces an earlier one of the same key. *)
Definition previousBar (checkpoint : option Checkpoint) (key : string) : option EarnEarningsBar :=
  match checkpoint with
  | Some c => find (fun bar => bool_decide (bar_startAt bar = key)) (rev (res_bars (cp_response c)))
  | None => None
  end.

Section Report.
Context (intl : Z -> ZonedParts) (monthLabel dayLabel : Z -> string) (args : EarningsArgs).

Local Notation now := (arg_now args).
Definition principalClamp : PrincipalClamp := default ClampTotal (arg_principalClamp args).
Definition resumeAt : option Z := cp_at <$> arg_checkpoint args.

Definition reportEvents : result (list YieldPositionEvent) :=
  sortEarningsEvents (List.filter (fun event => ev_confirmedAt event <=? now) (arg_events args)).

Section Prepared.
Context (events : list YieldPositionEvent).

Definition reportPath : list YieldPositionPathEvent :=
  sort_by pe_confirmedAt (default (legacyEventsToPathEvents events) (arg_pathEvents args)).
Definition reportSamples : list ReserveApySample := sort_by sa_observedAt (arg_apySamples args).
Definition reportSnapshots : list YieldPortfolioSnapshot := sort_by sn_observedAt (default [] (arg_portfolioSnapshots args)).

Definition firstDepositAt : option Z :=
  match find isDeposit events with
  | Some event => Some (ev_confirmedAt event)
  | None => pe_confirmedAt <$> find isPathDeposit reportPath
  end.

Definition lastDepositAt : option Z :=
  match find isDeposit (rev events) with
  | Some event => Some (ev_confirmedAt event)
  | None => pe_confirmedAt <$> find isPathDeposit (rev reportPath)
  end.

Definition usePortfolio : bool := negb (bool_decide (reportSnapshots = [])).

(** The window of the history the report integrates *)
Definition windowOf (startAt endAt : Z) : result WindowResult :=
  if usePortfolio then calculatePortfolioWindow reportSamples events principalClamp reportSnapshots startAt endAt
  else Ok (calculateWindow reportSamples reportPath startAt endAt).

Definition makeBar (bucket : Bucket string) : result EarnEarningsBar :=
  let previous := previousBar (arg_checkpoint args) (toISOString (startAt bucket)) in
  match previous, byResume (endAt bucket) resumeAt with
  | Some p, true =>
      Ok {| bar_apyBps := bar_apyBps p; bar_avgPrincipalUsd := bar_avgPrincipalUsd p; bar_earnedUsd := bar_earnedUsd p;
            bar_endAt := bar_endAt p; bar_isCurrent := isCurrent bucket; bar_label := label bucket;
            bar_principalAmountRaw := bar_principalAmountRaw p; bar_principalUsd := bar_principalUsd p;
            bar_startAt := bar_startAt p |}
  | _, _ =>
      let start := maxResume (startAt bucket) resumeAt in
      result ← windowOf start (endAt bucket);
      let bucketSeconds := seconds (endAt bucket - startAt bucket) in
      let '(avg, earned) :=
        match previous, resumeAt with
        | Some p, Some r =>
            if startAt bucket <? r then
              let previousSeconds := seconds (r - startAt bucket) in
              let tailSeconds := seconds (endAt bucket - start) in
              (if f64_gt bucketSeconds f64_zero then
                 f64_div (f64_add (f64_mul (bar_avgPrincipalUsd p) previousSeconds)
                                  (f64_mul (avgPrincipalUsd result) tailSeconds)) bucketSeconds
               else f64_zero,
               f64_add (earnedUsd result) (bar_earnedUsd p))
            else (avgPrincipalUsd result, earnedUsd result)
        | _, _ => (avgPrincipalUsd result, earnedUsd result)
        end in
      Ok {| bar_apyBps := deriveApyBps avg bucketSeconds earned; bar_avgPrincipalUsd := avg; bar_earnedUsd := earned;
            bar_endAt := toISOString (endAt bucket); bar_isCurrent := isCurrent bucket; bar_label := label bucket;
            bar_principalAmountRaw := bigint_toString (principalAmountRaw result);
            bar_principalUsd := rawToUsd (principalAmountRaw result); bar_startAt := toISOString (startAt bucket) |}
  end.

Definition calculateRange (from : Z) : result WindowResult := windowOf (maxResume from resumeAt) now.

(** [x += checkpoint.response...] when the range began before the checkpoint *)
Definition continued (applies : bool) (earned : f64) (previous : EarnEarningsResponse -> f64) : f64 :=
  match arg_checkpoint args with
  | Some c => if applies then f64_add earned (previous (cp_response c)) else earned
  | None => earned
  end.

Definition reportPrincipal : result Z :=
  if usePortfolio then principalAt events now principalClamp else Ok (pathPrincipalAt reportPath now).

Definition reportApy : option f64 :=
  if usePortfolio then portfolioApyAt reportSamples now (getPortfolioSnapshotAt reportSnapshots now)
  else match getPathStateAt reportPath now with
       | Some state => getApyAt reportSamples (Some (pe_reserve state)) now
       | None => None
       end.

Definition reportOf : result EarnEarningsResponse :=
  bars ← mapR makeBar (createEarningsBuckets intl monthLabel dayLabel firstDepositAt now (arg_range args));
  lifetime ← calculateRange (default now firstDepositAt);
  sinceLastDeposit ← calculateRange (default now lastDepositAt);
  today ← calculateRange (startOfLocalDay intl now);
  principalRaw ← reportPrincipal;
  Ok {| res_bars := bars;
        res_currentApyBps := (fun apy => f64_round (f64_mul apy (f64_of_Z 10000))) <$> reportApy;
        res_lastDepositAt := toISOString <$> lastDepositAt;
        res_lifetimeEarnedUsd := continued true (earnedUsd lifetime) res_lifetimeEarnedUsd;
        res_principalAmountRaw := bigint_toString principalRaw;
        res_principalUsd := rawToUsd principalRaw;
        res_rangeEarnedUsd := fold_left (fun sum bar => f64_add sum (bar_earnedUsd bar)) bars f64_zero;
        res_sinceLastDepositEarnedUsd :=
          continued (match lastDepositAt with Some t => beforeResume t resumeAt | None => false end)
            (earnedUsd sinceLastDeposit) res_sinceLastDepositEarnedUsd;
        res_todayEarnedUsd :=
          continued (beforeResume (startOfLocalDay intl now) resumeAt) (earnedUsd today) res_todayEarnedUsd |}.
End Prepared.

Definition calculateEarnEarnings : result EarnEarningsResponse :=
  events ← reportEvents;
  reportOf events.
End Report.

(** ** Failures *)
Definition history_only {A} (r : result A) : Prop :=
  match r with Ok _ => True | Throw e => exn_name e = "EarningsPrincipalHistoryError"%string end.

Lemma history_bind {A B} (r : result A) (f : A -> result B) :
  history_only r -> (forall a, r = Ok a -> history_only (f a)) -> history_only (r ≫= f).
Proof. destruct r; cbn; auto. Qed.

Lemma history_foldR {A S} (f : S -> A -> result S) s l :
  (forall s x, history_only (f s x)) -> history_only (foldR f s l).
Proof. intros H. revert s. induction l as [|x l IH]; intros s; cbn [foldR]; [done|]. apply history_bind; auto. Qed.

Lemma history_mapR {A B} (f : A -> result B) l : (forall x, history_only (f x)) -> history_only (mapR f l).
Proof.
  intros H. induction l as [|x l IH]; cbn [mapR]; [done|]. apply history_bind; [auto|]. intros y _. apply history_bind; [done|]. done.
Qed.

Lemma history_compare a b : history_only (compareEvents a b).
Proof. unfold compareEvents. by repeat case_match. Qed.

Lemma history_sort l : history_only (sortEarningsEvents l).
Proof.
  apply history_foldR. intros acc x. induction acc as [|y acc IH]; cbn [sort_insert]; [done|].
  apply history_bind; [apply history_compare|]. intros c _. destruct (c <? 0); [done|]. by apply history_bind.
Qed.

Lemma principal_history_only events t clamp : history_only (principalAt events t clamp).
Proof.
  unfold principalAt, getPrincipalIndex. apply history_bind; [|done]. apply history_bind; [apply history_sort|]. intros l _.
  apply history_foldR. intros st e. unfold principalStep. destruct (deltaInvalid e); [done|].
  apply history_bind; [|by intros [? ?]]. destruct clamp; [done|..]; by case_match.
Qed.

Lemma history_portfolio samples events clamp snapshots s t : history_only (calculatePortfolioWindow samples events clamp snapshots s t).
Proof.
  unfold calculatePortfolioWindow. destruct (t <=? s); [apply history_bind; [apply principal_history_only|done]|].
  apply history_bind; [|intros [? ?] _; apply history_bind; [apply principal_history_only|done]].
  apply history_foldR. intros [earned ps] seg. unfold portfolioSegment. apply history_bind; [apply principal_history_only|done].
Qed.

Section Failures.
Context (intl : Z -> ZonedParts) (monthLabel dayLabel : Z -> string) (args : EarningsArgs).

Lemma history_window events s t : history_only (windowOf args events s t).
Proof. unfold windowOf. destruct (usePortfolio args); [apply history_portfolio|done]. Qed.

Lemma history_bar events bucket : history_only (makeBar args events bucket).
Proof.
  unfold makeBar. repeat case_match; try done; (apply history_bind; [apply history_window|]); intros; by repeat case_match.
Qed.

Lemma path_bar events bucket : usePortfolio args = false -> is_ok (makeBar args events bucket) = true.
Proof.
  intros Hu. unfold makeBar, windowOf. rewrite Hu. cbn [mbind result_bind]. by repeat case_match.
Qed.

(** The report fails only for an incomplete or ambiguous principal history, the error the service answers with
    "history incomplete"; without portfolio snapshots it fails exactly when the events up to now cannot be put in order. *)
Theorem report_fails_on_history :
  history_only (calculateEarnEarnings intl monthLabel dayLabel args) /\
  (default [] (arg_portfolioSnapshots args) = [] ->
   is_ok (calculateEarnEarnings intl monthLabel dayLabel args) = is_ok (reportEvents args)).
Proof.
  unfold calculateEarnEarnings. split.
  - apply history_bind; [apply history_sort|]. intros events _. unfold reportOf, calculateRange.
    apply history_bind; [apply history_mapR, history_bar|]. intros bars _.
    do 3 (apply history_bind; [apply history_window|]; intros ? _). apply history_bind; [|done]. unfold reportPrincipal.
    destruct (usePortfolio args); [apply principal_history_only|done].
  - intros Hs. destruct (reportEvents args) as [events|]; [|done]. cbn [mbind result_bind is_ok].
    assert (Hu : usePortfolio args = false) by (unfold usePortfolio, reportSnapshots; rewrite Hs; done).
    unfold reportOf, calculateRange, reportPrincipal, windowOf. rewrite Hu.
    assert (Hm : is_ok (mapR (makeBar args events) (createEarningsBuckets intl monthLabel dayLabel (firstDepositAt args events)
      (arg_now args) (arg_range args))) = true).
    { induction (createEarningsBuckets _ _ _ _ _ _) as [|b l IH]; cbn [mapR]; [done|]. pose proof (path_bar events b Hu) as Hb.
      destruct (makeBar args events b); [|done]. cbn [mbind result_bind]. by destruct (mapR (makeBar args events) l). }
    destruct (mapR _ _); [done|discriminate].
Qed.
End Failures.

(** ** The totals agree with the bars *)
Section Consistent.
Context {intl : Z -> ZonedParts} {offset midnight : Z -> Z} {Z0 : RegularZone intl offset midnight}.
Context (monthLabel dayLabel : Z -> string) (args : EarningsArgs).
Local Notation now := (arg_now args).

Lemma window_principal events s w : windowOf args events s now = Ok w ->
  reportPrincipal args events = Ok (principalAmountRaw w).
Proof.
  unfold windowOf, reportPrincipal. destruct (usePortfolio args).
  - unfold calculatePortfolioWindow. destruct (now <=? s); intros H; inv_results; subst; cbn [principalAmountRaw]; [done|].
    destruct v as [earned ps]. inv_results. by subst.
  - intros [= <-]. unfold calculateWindow. destruct (now <=? s); [done|]. by destruct (fold_left _ _ _).
Qed.

(** A bar that is not taken from the checkpoint ends with its bucket and carries the principal there. *)
Lemma fresh_bar events bucket bar : byResume (endAt bucket) (resumeAt args) = false -> makeBar args events bucket = Ok bar ->
  exists w, windowOf args events (maxResume (startAt bucket) (resumeAt args)) (endAt bucket) = Ok w /\
    bar_principalAmountRaw bar = bigint_toString (principalAmountRaw w) /\ bar_principalUsd bar = rawToUsd (principalAmountRaw w) /\
    bar_endAt bar = toISOString (endAt bucket) /\ bar_startAt bar = toISOString (startAt bucket) /\
    (arg_checkpoint args = None -> bar_earnedUsd bar = earnedUsd w).
Proof.
  intros Hr. unfold makeBar. rewrite Hr. set (prev := previousBar _ _). intros H.
  destruct prev as [p|] eqn:Ep; inv_results; (exists v; split; [done|]); repeat case_match; inv_results; subst;
    cbn [bar_principalAmountRaw bar_principalUsd bar_endAt bar_startAt bar_earnedUsd]; split_and!; try done;
    intros Hc; unfold resumeAt, prev, previousBar in *; rewrite Hc in *; done.
Qed.

Lemma bar_current events bucket bar : makeBar args events bucket = Ok bar -> bar_isCurrent bar = isCurrent bucket.
Proof. unfold makeBar. intros H. repeat case_match; inv_results; subst; try done; repeat case_match; inv_results; by subst. Qed.

Hypothesis Hnow : EARLIEST <= now.
Hypothesis Hevents : forall e, e ∈ arg_events args -> EARLIEST <= ev_confirmedAt e.
Hypothesis Hpath : forall e, e ∈ default [] (arg_pathEvents args) -> EARLIEST <= pe_confirmedAt e <= now.

Lemma reportEvents_bounds events e : reportEvents args = Ok events -> e ∈ events -> EARLIEST <= ev_confirmedAt e <= now.
Proof.
  intros H%sort_events He. destruct H as (_ & _ & Hp). rewrite Hp in He. apply list_elem_of_In, filter_In in He as [He Ht].
  split; [apply Hevents; by apply list_elem_of_In|]. lia.
Qed.

Lemma reportPath_bounds events e : reportEvents args = Ok events -> e ∈ reportPath args events -> EARLIEST <= pe_confirmedAt e <= now.
Proof.
  intros H He. unfold reportPath in He. rewrite (proj2 (sort_by_spec _ _)) in He.
  destruct (arg_pathEvents args) as [path|] eqn:Ea; cbn [default] in He; [by apply Hpath|].
  assert (Ht : pe_confirmedAt e ∈ map ev_confirmedAt events).
  { unfold legacyEventsToPathEvents in He. rewrite <- (legacyPath_times 0). apply list_elem_of_fmap. by exists e. }
  apply list_elem_of_fmap in Ht as (ev & -> & Hev). by eapply reportEvents_bounds.
Qed.

Lemma firstDeposit_bounds events first : reportEvents args = Ok events -> firstDepositAt args events = Some first ->
  EARLIEST <= first <= now.
Proof.
  intros H. unfold firstDepositAt. destruct (find isDeposit events) as [e|] eqn:Ef.
  - intros [= <-]. apply find_some in Ef as [Ef _]. eapply reportEvents_bounds; [done|]. by apply list_elem_of_In.
  - destruct (find isPathDeposit _) as [e|] eqn:Ep; [|done]. intros [= <-]. apply find_some in Ep as [Ep _].
    eapply reportPath_bounds; [done|]. by apply list_elem_of_In.
Qed.

Lemma today_starts_last events : byDay (arg_range args) = true ->
  startOfLocalDay intl now =
  midnight (bucketDay (offset := offset) (firstDepositAt args events) now (arg_range args)
              (bucketCount (offset := offset) (firstDepositAt args events) now (arg_range args) - 1)).
Proof.
  intros Hd. pose proof (recent_day now Hnow). rewrite startOfLocalDay_midnight by (unfold EARLIEST, MS_PER_DAY in *; lia).
  f_equal. unfold bucketDay, bucketCount. destruct (arg_range args); [lia|lia|done|done].
Qed.
End Consistent.

(** C25. In a regular time zone, when now, the events and the path events are not before [EARLIEST], the path events are
    not after now, and the checkpoint, if there is one, was taken before now: a report that is computed ends in exactly one
    current bar; that bar ends now, and its principal is the principal the report states. In a chart of days, a report
    without checkpoint earns today what its last bar earns. *)
Theorem report_consistent {intl : Z -> ZonedParts} {offset midnight : Z -> Z} {Z0 : RegularZone intl offset midnight}
    (monthLabel dayLabel : Z -> string) (args : EarningsArgs) (r : EarnEarningsResponse) :
  EARLIEST <= arg_now args ->
  (forall e, e ∈ arg_events args -> EARLIEST <= ev_confirmedAt e) ->
  (forall e, e ∈ default [] (arg_pathEvents args) -> EARLIEST <= pe_confirmedAt e <= arg_now args) ->
  (forall c, arg_checkpoint args = Some c -> cp_at c < arg_now args) ->
  calculateEarnEarnings intl monthLabel dayLabel args = Ok r ->
  exists past current, res_bars r = past ++ [current] /\
    bar_isCurrent current = true /\ Forall (fun bar => bar_isCurrent bar = false) past /\
    bar_endAt current = toISOString (arg_now args) /\
    bar_principalAmountRaw current = res_principalAmountRaw r /\ bar_principalUsd current = res_principalUsd r /\
    (arg_checkpoint args = None -> byDay (arg_range args) = true -> bar_earnedUsd current = res_todayEarnedUsd r).
Proof.
  intros Hnow Hev Hpath Hcp H. unfold calculateEarnEarnings in H. simpl_bind H. rename v into events, E into Ee.
  pose proof (firstDeposit_bounds args Hev Hpath events) as Hf. unfold reportOf in H. simpl_bind H. rename v into bars, E into Eb.
  rewrite (buckets_split (firstDepositAt args events) (arg_now args) (arg_range args) Hnow (fun f => Hf f Ee)) in Eb.
  apply mapR_Ok_Forall2, Forall2_app_inv_l in Eb as (past & last & Hpast & Hlast & ->).
  apply Forall2_cons_inv_l in Hlast as (current & ? & Hc & Hnil & ->). apply Forall2_nil_inv_l in Hnil as ->.
  assert (Hres : byResume (arg_now args) (resumeAt args) = false).
  { unfold resumeAt. destruct (arg_checkpoint args) as [c|]; cbn; [|done]. specialize (Hcp c eq_refl). lia. }
  pose proof (fun Hr => fresh_bar args events _ current Hr Hc) as Hb. destruct (Hb Hres) as (w & Hw & H1 & H2 & H3 & _ & H5). cbn [endAt currentBucket startAt] in Hw, H3.
  rewrite (window_principal args events _ _ Hw) in H. inv_results. exists past, current. subst.
  cbn [res_bars res_principalAmountRaw res_principalUsd res_todayEarnedUsd]. split; [done|].
  split; [by rewrite (bar_current args events _ _ Hc)|]. split.
  { clear -Hpast. remember (map _ _) as l eqn:El. revert El. generalize (countTo (bucketCount (offset := offset) (firstDepositAt args events)
      (arg_now args) (arg_range args) - 1)). induction Hpast as [|b bar l past Hb _ IH]; intros ks El; [done|].
    destruct ks as [|k ks]; [done|]. injection El as -> El. constructor; [by rewrite (bar_current args events _ _ Hb)|by apply (IH ks)]. }
  split; [done|]. split; [done|]. split; [done|]. intros Hn Hd. rewrite (H5 Hn). unfold calculateRange in *. unfold continued. rewrite Hn.
  rewrite <- today_starts_last in Hw by done. congruence.
Qed.

Module ReportWitness.
Definition now := CalendarWitness.now.
Definition zone := changingZone CalendarWitness.a CalendarWitness.b CalendarWitness.T.

Definition args : EarningsArgs := {|
  arg_apySamples := [{| sa_observedAt := now - 6 * MS_PER_DAY; sa_reserve := None; sa_supplyApy := f64_div (f64_of_Z 5) (f64_of_Z 100) |}];
  arg_events := [EarningsWitness.event Deposit 5000000 (now - 5 * MS_PER_DAY) 10];
  arg_now := now; arg_pathEvents := None; arg_portfolioSnapshots := None; arg_principalClamp := None;
  arg_range := Range7D; arg_checkpoint := None |}.

Definition run : result EarnEarningsResponse := calculateEarnEarnings zone toISOString toISOString args.

(** Seven bars; five dollars in the last one, and something earned today. *)
Example run_bars :
  match run with
  | Ok r => map bar_principalAmountRaw (res_bars r) = ["0"; "5000000"; "5000000"; "5000000"; "5000000"; "5000000"; "5000000"]%string /\
            f64_gt (res_todayEarnedUsd r) f64_zero = true
  | Throw _ => False
  end.
Proof. vm_compute. done. Qed.

Lemma report_consistent_witness :
  match run with
  | Ok r => exists past current, res_bars r = past ++ [current] /\ bar_isCurrent current = true /\
              Forall (fun bar => bar_isCurrent bar = false) past /\ bar_endAt current = toISOString now /\
              bar_principalAmountRaw current = res_principalAmountRaw r /\ bar_principalUsd current = res_principalUsd r /\
              (arg_checkpoint args = None -> byDay (arg_range args) = true -> bar_earnedUsd current = res_todayEarnedUsd r)
  | Throw _ => False
  end.
Proof.
  assert (H : is_ok run = true) by (vm_compute; done). destruct run as [r|e] eqn:E; [|done].
  apply (@report_consistent _ _ _ CalendarWitness.new_york toISOString toISOString args r); [vm_compute; done| |by intros e He; inversion He|done|exact E].
  intros e He. apply list_elem_of_singleton in He as ->. vm_compute. done.
Defined.

Lemma report_fails_on_history_witness : is_ok run = is_ok (reportEvents args).
Proof. exact (proj2 (report_fails_on_history zone toISOString toISOString args) eq_refl). Defined.
End ReportWitness.
