(* ===== verification/MessageCompile.v ===== *)
(** Compilation of instructions into smart-account messages
    (web/packages/loyal-smart-accounts-core/src/utils/compiled-keys.ts, compileToSynchronousMessage.ts,
    compileToSynchronousMessageV2.ts, compileToWrappedMessageV0.ts and [accountsForTransactionExecute] of utils.ts):
    which accounts a transaction names, in which order, with which privileges, and the bytes that refer to them by index.

    A [Map] of key metas holds objects that are changed in place; an entry is owned by its map, so the change is an
    update of the entry. [MessageAccountKeys.compileInstructions] of web3.js and the beet serializer are not
    part of the repository: the model stops at the accounts and look-ups given to them. *)
From S2P Require Import Prelude JsString JsMap Solana Bytes.

(** [assert(condition, message)] and [invariant(value, message)] *)
Definition assert_ (condition : bool) (message : string) : result unit :=
  if condition then Ok tt else Throw (Exn "AssertionError" message).
Definition invariant_ {A} (value : option A) (message : string) : result A :=
  match value with Some v => Ok v | None => Throw (Exn "Invariant Violation" message) end.

Record CompiledKeyMeta := { km_isSigner : bool; km_isWritable : bool; km_isInvoked : bool }.
Abbreviation KeyMetaMap := (list (string * CompiledKeyMeta)).

Definition defaultKeyMeta : CompiledKeyMeta := {| km_isSigner := false; km_isWritable := false; km_isInvoked := false |}.

Record MessageHeader := {
  numRequiredSignatures : Z;
  numReadonlySignedAccounts : Z;
  numReadonlyUnsignedAccounts : Z;
}.

Section Compile.
Context {PK : PublicKeys}.

(** ** [CompiledKeys] *)

(** [getOrInsertDefault(pubkey)] followed by an assignment to fields of the object it returns *)
Definition getOrInsertDefault (keyMetaMap : KeyMetaMap) (key : pubkey) (assign : CompiledKeyMeta -> CompiledKeyMeta) : KeyMetaMap :=
  let address := toBase58 key in
  let keyMeta := default defaultKeyMeta (mapGet keyMetaMap address) in
  mapSet keyMetaMap address (assign keyMeta).

Definition mergeAccount (am : account_meta) (keyMeta : CompiledKeyMeta) : CompiledKeyMeta :=
  {| km_isSigner := km_isSigner keyMeta || isSigner am; km_isWritable := km_isWritable keyMeta || isWritable am;
     km_isInvoked := km_isInvoked keyMeta |}.

Definition notInvoked (keyMeta : CompiledKeyMeta) : CompiledKeyMeta :=
  {| km_isSigner := km_isSigner keyMeta; km_isWritable := km_isWritable keyMeta; km_isInvoked := false |}.

Definition compileInstruction (keyMetaMap : KeyMetaMap) (ix : instruction) : KeyMetaMap :=
  fold_left (fun m am => getOrInsertDefault m (meta_pubkey am) (mergeAccount am)) (keys ix)
    (getOrInsertDefault keyMetaMap (programId ix) notInvoked).

Definition compile (instructions : list instruction) (payer : pubkey) : KeyMetaMap :=
  fold_left compileInstruction instructions
    (getOrInsertDefault [] payer
       (fun keyMeta => {| km_isSigner := true; km_isWritable := true; km_isInvoked := km_isInvoked keyMeta |})).

Definition compileWithoutPayer (instructions : list instruction) : KeyMetaMap := fold_left compileInstruction instructions [].

Definition writableSigner (meta : CompiledKeyMeta) : bool := km_isSigner meta && km_isWritable meta.
Definition readonlySigner (meta : CompiledKeyMeta) : bool := km_isSigner meta && negb (km_isWritable meta).
Definition writableNonSigner (meta : CompiledKeyMeta) : bool := negb (km_isSigner meta) && km_isWritable meta.
Definition readonlyNonSigner (meta : CompiledKeyMeta) : bool := negb (km_isSigner meta) && negb (km_isWritable meta).

Definition entriesOf (P : CompiledKeyMeta -> bool) (m : KeyMetaMap) : KeyMetaMap := List.filter (fun e => P e.2) m.

Definition getMessageComponents (payer : option pubkey) (keyMetaMap : KeyMetaMap) : result (MessageHeader * list pubkey) :=
  _ ← assert_ (Z.of_nat (length keyMetaMap) <=? 256) "Max static account keys length exceeded";
  let writableSigners := entriesOf writableSigner keyMetaMap in
  let readonlySigners := entriesOf readonlySigner keyMetaMap in
  let writableNonSigners := entriesOf writableNonSigner keyMetaMap in
  let readonlyNonSigners := entriesOf readonlyNonSigner keyMetaMap in
  let header := {|
    numRequiredSignatures := Z.of_nat (length writableSigners) + Z.of_nat (length readonlySigners);
    numReadonlySignedAccounts := Z.of_nat (length readonlySigners);
    numReadonlyUnsignedAccounts := Z.of_nat (length readonlyNonSigners) |} in
  _ ← match payer with
      | Some payer =>
          assert_ (bool_decide (fst <$> head writableSigners = Some (toBase58 payer)))
            "Expected first writable signer key to be the fee payer"
      | None => Ok tt
      end;
  staticAccountKeys ← mapR (fun e => newPublicKey e.1)
    (writableSigners ++ readonlySigners ++ writableNonSigners ++ readonlyNonSigners);
  Ok (header, staticAccountKeys).

(** [entries.findIndex((entry) => entry.equals(key))] *)
Fixpoint findIndex (entries : list pubkey) (key : pubkey) : option Z :=
  match entries with
  | [] => None
  | entry :: entries => if key_equals entry key then Some 0 else Z.succ <$> findIndex entries key
  end.

Record Drained := { dr_indexes : list Z; dr_keys : list pubkey; dr_map : KeyMetaMap }.

Definition drainEntry (lookupTableEntries : list pubkey) (keyMetaFilter : CompiledKeyMeta -> bool)
    (d : Drained) (e : string * CompiledKeyMeta) : result Drained :=
  if keyMetaFilter e.2 then
    key ← newPublicKey e.1;
    match findIndex lookupTableEntries key with
    | Some lookupTableIndex =>
        _ ← assert_ (lookupTableIndex <? 256) "Max lookup table index exceeded";
        Ok {| dr_indexes := dr_indexes d ++ [lookupTableIndex]; dr_keys := dr_keys d ++ [key]; dr_map := mapDelete (dr_map d) e.1 |}
    | None => Ok d
    end
  else Ok d.

(** The loop visits every entry: deleting the entry it stands on does not disturb the iteration of a [Map]. *)
Definition drainKeysFoundInLookupTable (keyMetaMap : KeyMetaMap) (lookupTableEntries : list pubkey)
    (keyMetaFilter : CompiledKeyMeta -> bool) : result Drained :=
  foldR (drainEntry lookupTableEntries keyMetaFilter) {| dr_indexes := []; dr_keys := []; dr_map := keyMetaMap |} keyMetaMap.

Record AddressLookupTableAccount := { lt_key : pubkey; lt_addresses : list pubkey }.
Record MessageAddressTableLookup := { lk_accountKey : pubkey; lk_writableIndexes : list Z; lk_readonlyIndexes : list Z }.
Record AccountKeysFromLookups := { fl_writable : list pubkey; fl_readonly : list pubkey }.

Definition drainWritable (meta : CompiledKeyMeta) : bool := negb (km_isSigner meta) && negb (km_isInvoked meta) && km_isWritable meta.
Definition drainReadonly (meta : CompiledKeyMeta) : bool := negb (km_isSigner meta) && negb (km_isInvoked meta) && negb (km_isWritable meta).

Definition extractTableLookup (keyMetaMap : KeyMetaMap) (lookupTable : AddressLookupTableAccount) :
    result (option (MessageAddressTableLookup * AccountKeysFromLookups) * KeyMetaMap) :=
  w ← drainKeysFoundInLookupTable keyMetaMap (lt_addresses lookupTable) drainWritable;
  r ← drainKeysFoundInLookupTable (dr_map w) (lt_addresses lookupTable) drainReadonly;
  Ok (match dr_indexes w, dr_indexes r with
      | [], [] => None
      | _, _ => Some ({| lk_accountKey := lt_key lookupTable; lk_writableIndexes := dr_indexes w; lk_readonlyIndexes := dr_indexes r |},
                      {| fl_writable := dr_keys w; fl_readonly := dr_keys r |})
      end, dr_map r).

(** ** [compileToWrappedMessageV0] *)
Record WrappedState := { ws_map : KeyMetaMap; ws_lookups : list MessageAddressTableLookup; ws_keys : AccountKeysFromLookups }.

Definition wrappedTable (s : WrappedState) (lookupTable : AddressLookupTableAccount) : result WrappedState :=
  '(extractResult, m) ← extractTableLookup (ws_map s) lookupTable;
  Ok match extractResult with
     | Some (addressTableLookup, fromTable) =>
         {| ws_map := m; ws_lookups := ws_lookups s ++ [addressTableLookup];
            ws_keys := {| fl_writable := fl_writable (ws_keys s) ++ fl_writable fromTable;
                          fl_readonly := fl_readonly (ws_keys s) ++ fl_readonly fromTable |} |}
     | None => {| ws_map := m; ws_lookups := ws_lookups s; ws_keys := ws_keys s |}
     end.

(** The parts of the message; the compiled instructions come from web3.js. *)
Record WrappedMessage := {
  wm_header : MessageHeader;
  wm_staticAccountKeys : list pubkey;
  wm_addressTableLookups : list MessageAddressTableLookup;
  wm_accountKeysFromLookups : AccountKeysFromLookups;
}.

Definition compileToWrappedMessageV0 (payerKey : pubkey) (instructions : list instruction)
    (addressLookupTableAccounts : option (list AddressLookupTableAccount)) : result WrappedMessage :=
  s ← foldR wrappedTable
        {| ws_map := compile instructions payerKey; ws_lookups := []; ws_keys := {| fl_writable := []; fl_readonly := [] |} |}
        (default [] addressLookupTableAccounts);
  '(header, staticAccountKeys) ← getMessageComponents (Some payerKey) (ws_map s);
  Ok {| wm_header := header; wm_staticAccountKeys := staticAccountKeys; wm_addressTableLookups := ws_lookups s;
        wm_accountKeysFromLookups := ws_keys s |}.

(** ** Synchronous messages *)
Definition compileSyncTail (vaultPda : pubkey) (instructions : list instruction) : result (list account_meta) :=
  '(header, staticAccountKeys) ← getMessageComponents None (compileWithoutPayer instructions);
  let signers := numRequiredSignatures header in
  let writableSigners := signers - numReadonlySignedAccounts header in
  let writableEnd := Z.of_nat (length staticAccountKeys) - numReadonlyUnsignedAccounts header in
  Ok (imap (fun i key =>
        let index := Z.of_nat i in
        Meta key ((index <? signers) && negb (key_equals key vaultPda))
             ((index <? writableSigners) || ((signers <=? index) && (index <? writableEnd)))) staticAccountKeys).

Definition assembleSyncAccounts (members : list pubkey) (hooks tail : list account_meta) : list account_meta :=
  map (fun key => Meta key true false) (rev members) ++ hooks ++ tail.

(** [Buffer.from([n])] keeps the low byte of each number, [new Uint16Array([n])] the low two. *)
Definition bufferFrom (l : list Z) : list Z := map (fun n => n mod 256) l.

Definition serializeCompiledInstruction (programIdIndex : Z) (accountIndexes : list Z) (data : list Z) : list Z :=
  bufferFrom [programIdIndex] ++ bufferFrom [Z.of_nat (length accountIndexes)] ++ bufferFrom accountIndexes ++
  le_bytes 2 (Z.of_nat (length data) mod 65536) ++ data.

Definition indexOf (accounts : list account_meta) (key : pubkey) (kind : string) : result Z :=
  match findIndex (map meta_pubkey accounts) key with
  | Some index => Ok index
  | None => throwError (kind +:+ " " +:+ toBase58 key +:+ " not found in remaining accounts")
  end.

Definition serializeSyncInstruction (accounts : list account_meta) (ix : instruction) : result (list Z) :=
  accountIndexes ← mapR (fun am => indexOf accounts (meta_pubkey am) "Account") (keys ix);
  programIdIndex ← indexOf accounts (programId ix) "ProgramId";
  Ok (serializeCompiledInstruction programIdIndex accountIndexes (data ix)).

Definition serializeSyncInstructions (instructions : list instruction) (accounts : list account_meta) : result (list Z) :=
  parts ← mapR (serializeSyncInstruction accounts) instructions;
  Ok (bufferFrom [Z.of_nat (length instructions)] ++ concat parts).

Definition compileToSynchronousMessageAndAccountsV2WithHooks (vaultPda : pubkey) (members : list pubkey)
    (preHookAccounts postHookAccounts : list account_meta) (instructions : list instruction) : result (list Z * list account_meta) :=
  tail ← compileSyncTail vaultPda instructions;
  bytes ← serializeSyncInstructions instructions tail;
  Ok (bytes, assembleSyncAccounts members (preHookAccounts ++ postHookAccounts) tail).

Definition compileToSynchronousMessageAndAccountsV2 (vaultPda : pubkey) (members : list pubkey) (instructions : list instruction) :
    result (list Z * list account_meta) :=
  compileToSynchronousMessageAndAccountsV2WithHooks vaultPda members [] [] instructions.

Definition compileToSynchronousMessageAndAccounts (vaultPda : pubkey) (members : list pubkey) (instructions : list instruction) :
    result (list Z * list account_meta) :=
  tail ← compileSyncTail vaultPda instructions;
  let accounts := assembleSyncAccounts members [] tail in
  bytes ← serializeSyncInstructions instructions accounts;
  Ok (bytes, accounts).

(** ** Accounts of an execution *)
Record SmartAccountTransactionMessage := {
  sm_numSigners : Z;
  sm_numWritableSigners : Z;
  sm_numWritableNonSigners : Z;
  sm_accountKeys : list pubkey;
  sm_addressTableLookups : list MessageAddressTableLookup;
}.

(** The numbers and keys [transactionMessageToMultisigTransactionMessageBytes] stores *)
Definition storedMessage (compiledMessage : WrappedMessage) : SmartAccountTransactionMessage :=
  let header := wm_header compiledMessage in
  {| sm_numSigners := numRequiredSignatures header;
     sm_numWritableSigners := numRequiredSignatures header - numReadonlySignedAccounts header;
     sm_numWritableNonSigners := Z.of_nat (length (wm_staticAccountKeys compiledMessage)) - numRequiredSignatures header -
                                 numReadonlyUnsignedAccounts header;
     sm_accountKeys := wm_staticAccountKeys compiledMessage;
     sm_addressTableLookups := wm_addressTableLookups compiledMessage |}.

Definition isStaticWritableIndex (message : SmartAccountTransactionMessage) (index : Z) : bool :=
  if Z.of_nat (length (sm_accountKeys message)) <=? index then false
  else if index <? sm_numWritableSigners message then true
  else if sm_numSigners message <=? index then index - sm_numSigners message <? sm_numWritableNonSigners message
  else false.

Definition isSignerIndex (message : SmartAccountTransactionMessage) (index : Z) : bool := index <? sm_numSigners message.

Definition MissingLookupTableAccount (address : string) (detail : option string) : string :=
  match detail with
  | Some detail => "Address lookup table account " +:+ address +:+ " " +:+ detail
  | None => "Address lookup table account " +:+ address +:+ " not found."
  end.

Definition lookupKey (lookup : MessageAddressTableLookup) (addresses : list pubkey) (accountIndex : Z) : result pubkey :=
  invariant_ (addresses !! Z.to_nat accountIndex)
    (MissingLookupTableAccount (toBase58 (lk_accountKey lookup))
       (Some ("does not contain address at index " +:+ bigint_toString accountIndex +:+ "."))).

Definition lookupMetas (tables : list (string * list pubkey)) (lookup : MessageAddressTableLookup) : result (list account_meta) :=
  addresses ← invariant_ (mapGet tables (toBase58 (lk_accountKey lookup))) (MissingLookupTableAccount (toBase58 (lk_accountKey lookup)) None);
  writable ← mapR (lookupKey lookup addresses) (lk_writableIndexes lookup);
  readonly ← mapR (lookupKey lookup addresses) (lk_readonlyIndexes lookup);
  Ok (map (fun key => Meta key false true) writable ++ map (fun key => Meta key false false) readonly).

(** [getAddressLookupTable] is what the RPC server answers; [ephemeralSignerPdas] are derived addresses. *)
Definition accountsForTransactionExecute (getAddressLookupTable : pubkey -> option (list pubkey))
    (message : SmartAccountTransactionMessage) (ephemeralSignerPdas : list pubkey) (smartAccountPda : pubkey) :
    result (list account_meta * list (string * list pubkey)) :=
  let keySet := fold_left (fun m lookup => mapSet m (toBase58 (lk_accountKey lookup)) (lk_accountKey lookup))
                  (sm_addressTableLookups message) [] in
  tables ← mapR (fun e => match getAddressLookupTable e.2 with
                          | Some value => Ok (toBase58 e.2, value)
                          | None => Throw (Exn "MissingLookupTableAccountError" (MissingLookupTableAccount (toBase58 e.2) None))
                          end) keySet;
  let tableMetas := map (fun e => Meta e.2 false false) keySet in
  let staticMetas := imap (fun i key =>
    let accountIndex := Z.of_nat i in
    Meta key (isSignerIndex message accountIndex && negb (key_equals key smartAccountPda) &&
              negb (existsb (fun k => key_equals key k) ephemeralSignerPdas))
         (isStaticWritableIndex message accountIndex)) (sm_accountKeys message) in
  lookedUp ← mapR (lookupMetas tables) (sm_addressTableLookups message);
  Ok (tableMetas ++ staticMetas ++ concat lookedUp, tables).
End Compile.

(** * The accounts that instructions use, and with which privileges *)
Section Uses.
Context {PK : PublicKeys} {Laws : PublicKeyLaws PK}.

Definition uses (instructions : list instruction) : list account_meta :=
  flat_map (fun ix => Meta (programId ix) false false :: keys ix) instructions.

Definition signs (us : list account_meta) (k : pubkey) : bool := existsb (fun am => key_equals (meta_pubkey am) k && isSigner am) us.
Definition writes (us : list account_meta) (k : pubkey) : bool := existsb (fun am => key_equals (meta_pubkey am) k && isWritable am) us.

(** The keys used, in the order of their first use *)
Definition addKey (K : list pubkey) (k : pubkey) : list pubkey := if decide (k ∈ K) then K else K ++ [k].
Definition distinctKeys (us : list account_meta) : list pubkey := fold_left addKey (map meta_pubkey us) [].

Lemma addKeys_spec l : forall K, NoDup K ->
  NoDup (fold_left addKey l K) /\ (forall k, k ∈ fold_left addKey l K <-> k ∈ K \/ k ∈ l) /\ exists K', fold_left addKey l K = K ++ K'.
Proof.
  induction l as [|x l IH]; intros K HK; cbn [fold_left]; [split; [done|split; [set_solver|exists []; by rewrite app_nil_r]]|].
  assert (HK' : NoDup (addKey K x) /\ (forall k, k ∈ addKey K x <-> k ∈ K \/ k = x) /\ exists K', addKey K x = K ++ K').
  { unfold addKey. case_decide as Hx; [split; [done|split; [set_solver|exists []; by rewrite app_nil_r]]|].
    split; [apply NoDup_app; split_and!; [done|set_solver|apply NoDup_singleton]|split; [set_solver|by exists [x]]]. }
  destruct HK' as (H1 & H2 & K1 & H3). destruct (IH _ H1) as (I1 & I2 & K2 & I3). split; [done|]. split; [set_solver|].
  exists (K1 ++ K2). by rewrite I3, H3, app_assoc.
Qed.

Lemma distinctKeys_NoDup us : NoDup (distinctKeys us).
Proof. apply addKeys_spec, NoDup_nil_2. Qed.

Lemma distinctKeys_elem us k : k ∈ distinctKeys us <-> k ∈ map meta_pubkey us.
Proof. unfold distinctKeys. rewrite (proj1 (proj2 (addKeys_spec (map meta_pubkey us) [] NoDup_nil_2))). set_solver. Qed.

Lemma distinctKeys_head am us : exists K, distinctKeys (am :: us) = meta_pubkey am :: K.
Proof.
  unfold distinctKeys. cbn [map fold_left]. unfold addKey at 2. rewrite decide_False by set_solver. cbn [app].
  destruct (addKeys_spec (map meta_pubkey us) [meta_pubkey am] (NoDup_singleton _)) as (_ & _ & K & ->). by exists K.
Qed.

Lemma distinctKeys_snoc us am : distinctKeys (us ++ [am]) = addKey (distinctKeys us) (meta_pubkey am).
Proof. unfold distinctKeys. by rewrite map_app, fold_left_app. Qed.

(** The entry of a key in the map of key metas *)
Definition metaOf (us : list account_meta) (k : pubkey) : CompiledKeyMeta :=
  {| km_isSigner := signs us k; km_isWritable := writes us k; km_isInvoked := false |}.
Definition entry (us : list account_meta) (k : pubkey) : string * CompiledKeyMeta := (toBase58 k, metaOf us k).

Lemma base58_eqb k k' : String.eqb (toBase58 k) (toBase58 k') = key_equals k k'.
Proof.
  unfold key_equals. destruct (String.eqb_spec (toBase58 k) (toBase58 k')) as [E|E]; symmetry.
  - apply bool_decide_eq_true. by apply toBase58_inj.
  - apply bool_decide_eq_false. congruence.
Qed.

Lemma mapGet_entries us K k : mapGet (map (entry us) K) (toBase58 k) = if decide (k ∈ K) then Some (metaOf us k) else None.
Proof.
  induction K as [|j K IH]; cbn [map mapGet entry]; [by rewrite decide_False by set_solver|]. rewrite base58_eqb, IH.
  unfold key_equals. case_bool_decide as E; [subst; by rewrite decide_True by set_solver|].
  destruct (decide (k ∈ K)); [by rewrite decide_True by set_solver|by rewrite decide_False by set_solver].
Qed.

Lemma mapSet_entries us us' K k : NoDup K -> (forall j, j ∈ K -> j <> k -> metaOf us' j = metaOf us j) ->
  mapSet (map (entry us) K) (toBase58 k) (metaOf us' k) = map (entry us') (addKey K k).
Proof.
  intros HK Hsame. unfold addKey. induction K as [|j K IH]; cbn [map mapSet entry]; [by rewrite decide_False by set_solver|].
  apply NoDup_cons in HK as [Hj HK]. rewrite base58_eqb. unfold key_equals. case_bool_decide as E.
  - subst j. rewrite decide_True by set_solver. cbn [map]. unfold entry at 2. f_equal. apply map_ext_in. intros j Hin%list_elem_of_In.
    unfold entry. rewrite Hsame; [done|set_solver|set_solver].
  - rewrite IH by (try done; set_solver). destruct (decide (k ∈ K)).
    + rewrite decide_True by set_solver. cbn [map]. unfold entry at 2. by rewrite Hsame by set_solver.
    + rewrite decide_False by set_solver. cbn [map app]. unfold entry at 2. by rewrite Hsame by set_solver.
Qed.

Definition touch (m : KeyMetaMap) (am : account_meta) : KeyMetaMap := getOrInsertDefault m (meta_pubkey am) (mergeAccount am).

Lemma metaOf_snoc us am k : metaOf (us ++ [am]) k = if key_equals (meta_pubkey am) k then mergeAccount am (metaOf us k) else metaOf us k.
Proof.
  unfold metaOf, signs, writes, mergeAccount. rewrite !existsb_app. cbn [existsb km_isSigner km_isWritable km_isInvoked].
  rewrite !orb_false_r. by destruct (key_equals (meta_pubkey am) k); cbn [andb]; rewrite ?orb_false_r.
Qed.

Lemma signs_unused us k : k ∉ map meta_pubkey us -> metaOf us k = defaultKeyMeta.
Proof.
  intros Hk. unfold metaOf, defaultKeyMeta. f_equal.
  - apply not_true_iff_false. intros H%existsb_exists. destruct H as (am & Hin & H). apply Hk. apply andb_true_iff in H as [H _].
    unfold key_equals in H. apply bool_decide_eq_true in H as <-. by apply list_elem_of_In, in_map.
  - apply not_true_iff_false. intros H%existsb_exists. destruct H as (am & Hin & H). apply Hk. apply andb_true_iff in H as [H _].
    unfold key_equals in H. apply bool_decide_eq_true in H as <-. by apply list_elem_of_In, in_map.
Qed.

Lemma touches_entries us : fold_left touch us [] = map (entry us) (distinctKeys us).
Proof.
  induction us as [|am us IH] using rev_ind; [done|]. rewrite fold_left_app, IH. cbn [fold_left]. unfold touch, getOrInsertDefault.
  rewrite mapGet_entries, distinctKeys_snoc. set (k := meta_pubkey am).
  replace (mergeAccount am (default defaultKeyMeta (if decide (k ∈ distinctKeys us) then Some (metaOf us k) else None))) with (metaOf (us ++ [am]) k).
  - apply mapSet_entries; [apply distinctKeys_NoDup|]. intros j Hj Hne. rewrite metaOf_snoc. unfold key_equals. by rewrite bool_decide_false.
  - rewrite metaOf_snoc. fold k. unfold key_equals. rewrite bool_decide_true by done. case_decide as Hk; [done|]. cbn [default].
    rewrite signs_unused; [done|]. by rewrite <- distinctKeys_elem.
Qed.

(** ** The map of key metas holds every key with the privileges of all its uses *)
Definition uninvoked (m : KeyMetaMap) : Prop := Forall (fun e => km_isInvoked e.2 = false) m.

Lemma uninvoked_default m a : uninvoked m -> km_isInvoked (default defaultKeyMeta (mapGet m a)) = false.
Proof.
  intros Hm. destruct (mapGet m a) as [meta|] eqn:E; [|done]. apply mapGet_In in E. unfold uninvoked in Hm. rewrite Forall_forall in Hm. by apply (Hm (a, meta)).
Qed.

Lemma uninvoked_set m a meta : uninvoked m -> km_isInvoked meta = false -> uninvoked (mapSet m a meta).
Proof.
  unfold uninvoked. rewrite !Forall_forall. intros Hm Ha e He. apply elem_of_mapSet in He as [->|He]; [done|by apply Hm].
Qed.

Lemma uninvoked_touch m am : uninvoked m -> uninvoked (touch m am).
Proof. intros Hm. apply uninvoked_set; [done|]. cbn. by apply uninvoked_default. Qed.

Lemma program_touch m p : uninvoked m -> getOrInsertDefault m p notInvoked = touch m (Meta p false false).
Proof.
  intros Hm. unfold touch, getOrInsertDefault, notInvoked, mergeAccount. cbn [meta_pubkey isSigner isWritable]. f_equal.
  rewrite !orb_false_r. f_equal. symmetry. by apply uninvoked_default.
Qed.

Lemma uninvoked_touches us m : uninvoked m -> uninvoked (fold_left touch us m).
Proof. revert m. induction us as [|am us IH]; intros m Hm; cbn [fold_left]; [done|]. apply IH. by apply uninvoked_touch. Qed.

Lemma compileInstructions_touch ixs m : uninvoked m -> fold_left compileInstruction ixs m = fold_left touch (uses ixs) m.
Proof.
  revert m. induction ixs as [|ix ixs IH]; intros m Hm; cbn [fold_left uses flat_map]; [done|]. fold (uses ixs).
  unfold compileInstruction at 2. rewrite program_touch by done. fold touch. cbn [app fold_left]. rewrite fold_left_app.
  apply IH. apply uninvoked_touches. by apply uninvoked_touch.
Qed.

Lemma compileWithoutPayer_entries ixs : compileWithoutPayer ixs = map (entry (uses ixs)) (distinctKeys (uses ixs)).
Proof. unfold compileWithoutPayer. rewrite compileInstructions_touch by constructor. apply touches_entries. Qed.

Definition payerUses (payer : pubkey) (ixs : list instruction) : list account_meta := Meta payer true true :: uses ixs.

Lemma compile_entries ixs payer : compile ixs payer = map (entry (payerUses payer ixs)) (distinctKeys (payerUses payer ixs)).
Proof.
  unfold compile. rewrite <- touches_entries. unfold payerUses. cbn [fold_left]. rewrite compileInstructions_touch; [done|].
  apply uninvoked_set; [constructor|done].
Qed.

(** ** Static keys in the order of their privileges *)
Definition having (us : list account_meta) (P : CompiledKeyMeta -> bool) (K : list pubkey) : list pubkey :=
  List.filter (fun k => P (metaOf us k)) K.

Definition staticKeys (us : list account_meta) (K : list pubkey) : list pubkey :=
  having us writableSigner K ++ having us readonlySigner K ++ having us writableNonSigner K ++ having us readonlyNonSigner K.

Definition headerOf (us : list account_meta) (K : list pubkey) : MessageHeader := {|
  numRequiredSignatures := Z.of_nat (length (having us writableSigner K)) + Z.of_nat (length (having us readonlySigner K));
  numReadonlySignedAccounts := Z.of_nat (length (having us readonlySigner K));
  numReadonlyUnsignedAccounts := Z.of_nat (length (having us readonlyNonSigner K)) |}.

Lemma entriesOf_entries us P K : entriesOf P (map (entry us) K) = map (entry us) (having us P K).
Proof.
  unfold entriesOf, having. induction K as [|k K IH]; cbn [map List.filter]; [done|]. cbn [entry snd]. rewrite IH. by destruct (P (metaOf us k)).
Qed.

Lemma components_entries us K payer :
  getMessageComponents payer (map (entry us) K) =
  (_ ← assert_ (Z.of_nat (length K) <=? 256) "Max static account keys length exceeded";
   _ ← match payer with
       | Some payer => assert_ (bool_decide (head (having us writableSigner K) = Some payer)) "Expected first writable signer key to be the fee payer"
       | None => Ok tt
       end;
   Ok (headerOf us K, staticKeys us K)).
Proof.
  unfold getMessageComponents. rewrite length_map, !entriesOf_entries, !length_map, <- !map_app. fold (staticKeys us K).
  destruct (assert_ _ _); [|done]. cbn [mbind result_bind].
  rewrite (mapR_roundtrip (A := pubkey) (entry us)) by (intros k _; apply newPublicKey_toBase58).
  destruct payer as [p|]; [|done]. do 3 f_equal. apply bool_decide_ext. destruct (having us writableSigner K) as [|k l]; cbn; [done|].
  split; [|congruence]. intros [= E%toBase58_inj]. by subst.
Qed.

Lemma static_perm us K : staticKeys us K ≡ₚ K.
Proof.
  unfold staticKeys, having. induction K as [|k K IH]; cbn [List.filter]; [done|]. etrans; [|apply perm_skip, IH].
  unfold writableSigner, readonlySigner, writableNonSigner, readonlyNonSigner. cbn [metaOf km_isSigner km_isWritable].
  destruct (signs us k), (writes us k); cbn [andb negb app]; [done|symmetry; apply Permutation_middle|..].
  - rewrite app_assoc, (app_assoc (List.filter _ _) _ (_ ++ _)). symmetry. apply Permutation_middle.
  - rewrite !app_assoc. symmetry. apply Permutation_middle.
Qed.

Lemma having_elem us P K k : k ∈ having us P K -> k ∈ K /\ P (metaOf us k) = true.
Proof. unfold having. rewrite !list_elem_of_In. apply filter_In. Qed.

Lemma lookup_app4 {A} (a b c d : list A) i x : (a ++ b ++ c ++ d) !! i = Some x ->
  (x ∈ a /\ (i < length a)%nat) \/ (x ∈ b /\ (length a <= i < length a + length b)%nat) \/
  (x ∈ c /\ (length a + length b <= i < length a + length b + length c)%nat) \/
  (x ∈ d /\ (length a + length b + length c <= i < length a + length b + length c + length d)%nat).
Proof.
  intros H. apply lookup_app_Some in H as [H|[Hi H]].
  { left. split; [by eapply list_elem_of_lookup_2|by eapply lookup_lt_Some]. }
  right. apply lookup_app_Some in H as [H|[Hj H]].
  { left. pose proof (lookup_lt_Some _ _ _ H). split; [by eapply list_elem_of_lookup_2|lia]. }
  right. apply lookup_app_Some in H as [H|[Hl H]]; pose proof (lookup_lt_Some _ _ _ H);
    [left|right]; (split; [by eapply list_elem_of_lookup_2|lia]).
Qed.

(** The position of a static key says whether it signs and whether it is written. *)
Definition staticSigner (h : MessageHeader) (i : Z) : bool := i <? numRequiredSignatures h.
Definition staticWritable (h : MessageHeader) (n i : Z) : bool :=
  (i <? numRequiredSignatures h - numReadonlySignedAccounts h) ||
  ((numRequiredSignatures h <=? i) && (i <? n - numReadonlyUnsignedAccounts h)).

Lemma static_flags us K i k : staticKeys us K !! i = Some k ->
  staticSigner (headerOf us K) (Z.of_nat i) = signs us k /\
  staticWritable (headerOf us K) (Z.of_nat (length (staticKeys us K))) (Z.of_nat i) = writes us k.
Proof.
  unfold staticSigner, staticWritable, headerOf, staticKeys. cbn [numRequiredSignatures numReadonlySignedAccounts numReadonlyUnsignedAccounts].
  rewrite !length_app. intros H%lookup_app4.
  assert (Hf : forall P, k ∈ having us P K -> P (metaOf us k) = true) by (intros P Hk; apply (having_elem us P K k Hk)).
  revert H. generalize (length (having us writableSigner K)) as n1. generalize (length (having us readonlySigner K)) as n2.
  generalize (length (having us writableNonSigner K)) as n3. generalize (length (having us readonlyNonSigner K)) as n4. intros n4 n3 n2 n1.
  intros [[Hk%Hf Hr]|[[Hk%Hf Hr]|[[Hk%Hf Hr]|[Hk%Hf Hr]]]]; clear Hf;
    unfold writableSigner, readonlySigner, writableNonSigner, readonlyNonSigner in Hk; cbn [metaOf km_isSigner km_isWritable] in Hk;
    destruct (signs us k), (writes us k); try discriminate Hk; clear -Hr; rewrite !Nat2Z.inj_add;
    repeat match goal with |- context [?a <? ?b] => destruct (Z.ltb_spec a b) | |- context [?a <=? ?b] => destruct (Z.leb_spec a b) end; (done || lia).
Qed.

(** ** Reading a synchronous message *)
Definition CompiledInstruction : Type := Z * list Z * list Z.

Definition d_compiled : dec CompiledInstruction :=
  programIdIndex <~ d_u8; accountIndexes <~ d_small_vec d_u8; n <~ d_u16; bytes <~ d_take (Z.to_nat n);
  dret (programIdIndex, accountIndexes, bytes).

(** An instruction as the program sees it: the accounts it names and its data *)
Definition plain (ix : instruction) : pubkey * list pubkey * list Z := (programId ix, map meta_pubkey (keys ix), data ix).

Definition resolve (accounts : list pubkey) (c : CompiledInstruction) : option (pubkey * list pubkey * list Z) :=
  let '(programIdIndex, accountIndexes, bytes) := c in
  match accounts !! Z.to_nat programIdIndex, mapO (fun i => accounts !! Z.to_nat i) accountIndexes with
  | Some p, Some ks => Some (p, ks, bytes)
  | _, _ => None
  end.

Definition readMessage (accounts : list pubkey) (bytes : list Z) : option (list (pubkey * list pubkey * list Z)) :=
  match d_small_vec d_compiled bytes with
  | Some (cs, []) => mapO (resolve accounts) cs
  | _ => None
  end.

(** What fits the one-byte and two-byte lengths of the format *)
Definition fits (ixs : list instruction) : Prop :=
  (length ixs <= 255)%nat /\
  Forall (fun ix => (length (keys ix) <= 255)%nat /\ (length (data ix) < Z.to_nat 65536)%nat) ixs.

Lemma findIndex_spec l k : k ∈ l -> exists i, findIndex l k = Some i /\ 0 <= i < Z.of_nat (length l) /\ l !! Z.to_nat i = Some k.
Proof.
  induction l as [|x l IH]; intros Hk; [set_solver|]. cbn [findIndex length]. unfold key_equals. case_bool_decide as E.
  - exists 0. subst. split; [done|]. split; [lia|done].
  - destruct IH as (i & H1 & H2 & H3); [set_solver|]. exists (Z.succ i). rewrite H1. split; [done|]. split; [lia|].
    replace (Z.to_nat (Z.succ i)) with (S (Z.to_nat i)) by lia. done.
Qed.

Lemma findIndex_lookup l k i : findIndex l k = Some i -> 0 <= i /\ l !! Z.to_nat i = Some k.
Proof.
  revert i. induction l as [|x l IH]; intros i; cbn [findIndex]; [done|]. unfold key_equals. case_bool_decide as E.
  - intros [= <-]. by subst.
  - destruct (findIndex l k) as [j|]; [|done]. intros [= <-]. destruct (IH j eq_refl) as [H1 H2]. split; [lia|].
    by replace (Z.to_nat (Z.succ j)) with (S (Z.to_nat j)) by lia.
Qed.

Lemma findIndex_absent l k : findIndex l k = None -> k ∉ l.
Proof. intros H Hk. destruct (findIndex_spec l k Hk) as (i & E & _). congruence. Qed.

Lemma bufferFrom_small l : Forall is_byte l -> bufferFrom l = l.
Proof.
  intros H. unfold bufferFrom. rewrite <- (map_id l) at 2. apply map_ext_in. intros x Hx%list_elem_of_In.
  rewrite Forall_forall in H. specialize (H x Hx). unfold is_byte in H. by apply Z.mod_small.
Qed.

Lemma reads_bytes l : Forall is_byte l -> reads (d_items (length l) d_u8) l l.
Proof.
  intros H. pose proof (reads_items d_u8 (fun b => [b]) id l) as R. rewrite map_id in R.
  replace (concat (map (fun b => [b]) l)) with l in R by (clear; induction l as [|x l IH]; cbn; [done|by f_equal]).
  apply R. intros x Hx. rewrite Forall_forall in H. by apply reads_u8, H.
Qed.

Lemma reads_compiled p idx bs : is_byte p -> Forall is_byte idx -> (length idx <= 255)%nat -> (length bs < Z.to_nat 65536)%nat ->
  reads d_compiled (serializeCompiledInstruction p idx bs) (p, idx, bs).
Proof.
  intros Hp Hidx Hl Hb. unfold serializeCompiledInstruction, d_compiled. rewrite !bufferFrom_small by (repeat constructor; unfold is_byte in *; try lia; done).
  apply reads_bind with p; [by apply reads_u8|]. rewrite app_assoc. apply reads_bind with idx.
  { unfold d_small_vec. eapply reads_bind; [apply reads_u8; unfold is_byte; lia|]. rewrite Nat2Z.id. by apply reads_bytes. }
  rewrite Z.mod_small by lia. eapply reads_bind; [apply reads_u16; lia|]. rewrite Nat2Z.id. apply (reads_map _ (fun b => (p, idx, b))), reads_take.
Qed.

Section Serialize.
Context (accounts : list account_meta).
Hypothesis Hsmall : (length accounts <= 256)%nat.

Definition position (k : pubkey) : Z := default 0 (findIndex (map meta_pubkey accounts) k).
Definition present (k : pubkey) : Prop := k ∈ map meta_pubkey accounts.

Lemma position_spec k kind : present k ->
  indexOf accounts k kind = Ok (position k) /\ is_byte (position k) /\ map meta_pubkey accounts !! Z.to_nat (position k) = Some k.
Proof.
  intros Hk. destruct (findIndex_spec _ _ Hk) as (i & E & Hi & Hl). unfold indexOf, position. rewrite E. cbn [default from_option id].
  rewrite length_map in Hi. split; [done|]. split; [unfold is_byte; lia|done].
Qed.

Lemma instruction_reads ix : present (programId ix) -> Forall (fun am => present (meta_pubkey am)) (keys ix) ->
  (length (keys ix) <= 255)%nat -> (length (data ix) < Z.to_nat 65536)%nat ->
  let c := (position (programId ix), map (fun am => position (meta_pubkey am)) (keys ix), data ix) in
  exists bytes, serializeSyncInstruction accounts ix = Ok bytes /\ reads d_compiled bytes c /\
    resolve (map meta_pubkey accounts) c = Some (plain ix).
Proof.
  intros Hp Hks Hl Hd c. destruct (position_spec _ "ProgramId" Hp) as (E1 & B1 & L1). unfold serializeSyncInstruction.
  rewrite Forall_forall in Hks. rewrite (mapR_ok_map _ (fun am => position (meta_pubkey am))) by (intros am Ham; by apply position_spec, Hks).
  cbn [mbind result_bind]. rewrite E1. eexists. split; [done|]. split.
  - apply reads_compiled; [done| |by rewrite length_map|done]. apply Forall_map, Forall_forall. intros am Ham. by apply (position_spec _ "" (Hks am Ham)).
  - unfold resolve, c, plain. rewrite L1. rewrite mapO_map, (mapO_all _ meta_pubkey); [done|]. intros am Ham. by apply (position_spec _ "" (Hks am Ham)).
Qed.

Lemma message_reads ixs : fits ixs -> Forall (fun am => present (meta_pubkey am)) (uses ixs) ->
  exists bytes, serializeSyncInstructions ixs accounts = Ok bytes /\ readMessage (map meta_pubkey accounts) bytes = Some (map plain ixs).
Proof.
  intros [Hn Hf] Hu. unfold serializeSyncInstructions.
  set (c ix := (position (programId ix), map (fun am => position (meta_pubkey am)) (keys ix), data ix)).
  assert (H : exists parts, mapR (serializeSyncInstruction accounts) ixs = Ok parts /\
    reads (d_items (length ixs) d_compiled) (concat parts) (map c ixs) /\ mapO (resolve (map meta_pubkey accounts)) (map c ixs) = Some (map plain ixs)).
  { clear Hn. induction ixs as [|ix ixs IH]; [exists []; split; [done|split; [apply reads_ret|done]]|].
    apply Forall_cons in Hf as [[H1 H2] Hf]. cbn [uses flat_map] in Hu. apply Forall_app in Hu as [Hix Hu]. apply Forall_cons in Hix as [Hp Hk].
    destruct (IH Hf Hu) as (parts & E & R & M). destruct (instruction_reads ix Hp Hk H1 H2) as (b & E' & R' & M'). exists (b :: parts).
    cbn [mapR map mapO]. rewrite E', E. split; [done|]. fold (c ix) in R', M'. split.
    - cbn [length d_items concat]. eapply reads_bind; [exact R'|]. by apply (reads_map _ (cons (c ix))).
    - by rewrite M', M. }
  destruct H as (parts & E & R & M). rewrite E. eexists. split; [done|]. unfold readMessage.
  assert (Rm : reads (d_small_vec d_compiled) (bufferFrom [Z.of_nat (length ixs)] ++ concat parts) (map c ixs)).
  { unfold d_small_vec. rewrite bufferFrom_small by (repeat constructor; lia). eapply reads_bind; [apply reads_u8; unfold is_byte; lia|]. by rewrite Nat2Z.id. }
  specialize (Rm []). rewrite app_nil_r in Rm. by rewrite Rm.
Qed.
End Serialize.

(** ** The accounts of a synchronous message *)
Definition tailMetas (vault : pubkey) (us : list account_meta) : list account_meta :=
  map (fun k => Meta k (signs us k && negb (key_equals k vault)) (writes us k)) (staticKeys us (distinctKeys us)).

Lemma compileSyncTail_metas vault ixs :
  compileSyncTail vault ixs =
  (_ ← assert_ (Z.of_nat (length (distinctKeys (uses ixs))) <=? 256) "Max static account keys length exceeded";
   Ok (tailMetas vault (uses ixs))).
Proof.
  unfold compileSyncTail. rewrite compileWithoutPayer_entries, components_entries. destruct (assert_ _ _); [|done]. cbn [mbind result_bind].
  f_equal. unfold tailMetas. apply list_eq. intros i. rewrite list_lookup_imap, list_lookup_fmap.
  destruct (staticKeys _ _ !! i) as [k|] eqn:E; [|done]. cbn [fmap option_fmap option_map]. destruct (static_flags _ _ _ _ E) as [H1 H2].
  unfold staticSigner, staticWritable in *. by rewrite H1, H2.
Qed.

Lemma tailMetas_keys vault us : map meta_pubkey (tailMetas vault us) = staticKeys us (distinctKeys us).
Proof. unfold tailMetas. rewrite map_map. apply map_id. Qed.

Lemma tail_present vault ixs : Forall (fun am => present (tailMetas vault (uses ixs)) (meta_pubkey am)) (uses ixs).
Proof.
  apply Forall_forall. intros am Ham. unfold present. rewrite tailMetas_keys, static_perm, distinctKeys_elem.
  by apply (list_elem_of_fmap_2 meta_pubkey).
Qed.

Lemma tail_length vault us : length (tailMetas vault us) = length (distinctKeys us).
Proof. unfold tailMetas. rewrite length_map. by rewrite static_perm. Qed.

Lemma sync_faithful (vault : pubkey) (members : list pubkey) (pre post : list account_meta) (ixs : list instruction) :
  fits ixs ->
  match compileToSynchronousMessageAndAccountsV2WithHooks vault members pre post ixs with
  | Ok (bytes, accounts) => exists tail,
      accounts = map (fun k => Meta k true false) (rev members) ++ (pre ++ post) ++ tail /\
      readMessage (map meta_pubkey tail) bytes = Some (map plain ixs) /\
      map meta_pubkey tail ≡ₚ distinctKeys (uses ixs) /\
      Forall (fun am => isSigner am = signs (uses ixs) (meta_pubkey am) && negb (key_equals (meta_pubkey am) vault) /\
                        isWritable am = writes (uses ixs) (meta_pubkey am)) tail
  | Throw e => (256 < length (distinctKeys (uses ixs)))%nat
  end.
Proof.
  intros Hf. unfold compileToSynchronousMessageAndAccountsV2WithHooks. rewrite compileSyncTail_metas.
  destruct (Z.leb_spec (Z.of_nat (length (distinctKeys (uses ixs)))) 256) as [Hl|Hl]; cbn [assert_ mbind result_bind]; [|lia].
  destruct (message_reads (tailMetas vault (uses ixs)) ltac:(rewrite tail_length; lia) ixs Hf (tail_present vault ixs)) as (bytes & -> & R).
  cbn [mbind result_bind]. exists (tailMetas vault (uses ixs)). split; [done|]. split; [done|].
  split; [by rewrite tailMetas_keys, static_perm|]. apply Forall_forall. intros am Ham. unfold tailMetas in Ham.
  apply list_elem_of_fmap in Ham as (k & -> & _). done.
Qed.

(** C38. A synchronous message carries exactly the given instructions: read against the accounts behind the members and the hooks,
    its bytes name the same programs, accounts and data in the same order. Those accounts are the keys the instructions use,
    each once, writable exactly when some use writes it and a signer exactly when some use signs it and it is not the vault.
    Compilation fails only above 256 different keys. *)
Theorem sync_message_faithful (vault : pubkey) (members : list pubkey) (pre post : list account_meta) (ixs : list instruction) :
  fits ixs ->
  match compileToSynchronousMessageAndAccountsV2WithHooks vault members pre post ixs with
  | Ok (bytes, accounts) => exists tail,
      accounts = map (fun k => Meta k true false) (rev members) ++ (pre ++ post) ++ tail /\
      readMessage (map meta_pubkey tail) bytes = Some (map plain ixs) /\
      map meta_pubkey tail ≡ₚ distinctKeys (uses ixs) /\
      Forall (fun am => isSigner am = signs (uses ixs) (meta_pubkey am) && negb (key_equals (meta_pubkey am) vault) /\
                        isWritable am = writes (uses ixs) (meta_pubkey am)) tail
  | Throw e => (256 < length (distinctKeys (uses ixs)))%nat
  end.
Proof. apply sync_faithful. Qed.

(** The older format numbers the members' accounts too; it is faithful while all accounts together fit one byte. *)
Theorem sync_message_v1_faithful (vault : pubkey) (members : list pubkey) (ixs : list instruction) :
  fits ixs -> (length members + length (distinctKeys (uses ixs)) <= 256)%nat ->
  exists bytes accounts, compileToSynchronousMessageAndAccounts vault members ixs = Ok (bytes, accounts) /\
    accounts = map (fun k => Meta k true false) (rev members) ++ tailMetas vault (uses ixs) /\
    readMessage (map meta_pubkey accounts) bytes = Some (map plain ixs).
Proof.
  intros Hf Hl. unfold compileToSynchronousMessageAndAccounts. rewrite compileSyncTail_metas.
  replace (Z.of_nat _ <=? 256) with true by lia. cbn [assert_ mbind result_bind]. unfold assembleSyncAccounts. cbn [app].
  set (accounts := map (fun key => Meta key true false) (rev members) ++ tailMetas vault (uses ixs)).
  destruct (message_reads accounts) with ixs as (bytes & -> & R); [|done| |by exists bytes, accounts].
  - unfold accounts. rewrite length_app, length_map, length_rev, tail_length. lia.
  - eapply Forall_impl; [apply (tail_present vault)|]. intros am. unfold present, accounts. rewrite map_app. intros H. apply elem_of_app. by right.
Qed.

(** ** Keys taken from look-up tables *)
Lemma filter_fuse {A} (p q : A -> bool) l : List.filter p (List.filter q l) = List.filter (fun x => q x && p x) l.
Proof. induction l as [|x l IH]; cbn [List.filter]; [done|]. destruct (q x); cbn [List.filter andb]; [|done]. rewrite IH. by destruct (p x). Qed.

Lemma filter_keep {A} (p q : A -> bool) l : (forall x, x ∈ l -> p x = q x) -> List.filter p l = List.filter q l.
Proof. intros H. apply filter_ext_in. intros x Hx. by apply H, list_elem_of_In. Qed.

Lemma filter_split {A} (p : A -> bool) l : List.filter (fun x => negb (p x)) l ++ List.filter p l ≡ₚ l.
Proof.
  induction l as [|x l IH]; cbn [List.filter]; [done|]. destruct (p x); cbn [negb app].
  - rewrite <- Permutation_middle. by rewrite IH.
  - by rewrite IH.
Qed.

Lemma mapDelete_entries us M k : mapDelete (map (entry us) M) (toBase58 k) = map (entry us) (List.filter (fun j => negb (key_equals j k)) M).
Proof.
  unfold mapDelete. induction M as [|j M IH]; cbn [map List.filter]; [done|]. cbn [entry fst]. rewrite base58_eqb.
  destruct (key_equals j k); cbn [negb map]; by rewrite IH.
Qed.

Section Drain.
Context (us : list account_meta) (T : list pubkey) (f : CompiledKeyMeta -> bool).

Definition drained (k : pubkey) : bool := f (metaOf us k) && match findIndex T k with Some _ => true | None => false end.

(** The indexes name the drained keys in the table, and fit a byte. *)
Definition names (indexes : list Z) (ks : list pubkey) : Prop :=
  mapO (fun i => T !! Z.to_nat i) indexes = Some ks /\ Forall (fun i => 0 <= i < 256) indexes.

Lemma names_nil : names [] []. Proof. split; [done|constructor]. Qed.

Lemma names_snoc is' ks i k : names is' ks -> 0 <= i < 256 -> T !! Z.to_nat i = Some k -> names (is' ++ [i]) (ks ++ [k]).
Proof.
  intros [H1 H2] Hi Hk. split; [|apply Forall_app; by split; [|constructor]].
  apply mapO_Forall2 in H1. apply mapO_Forall2. apply Forall2_app; [done|]. by constructor.
Qed.

Lemma drain_loop K : forall M ks is' d, names is' ks ->
  foldR (drainEntry T f) {| dr_indexes := is'; dr_keys := ks; dr_map := map (entry us) M |} (map (entry us) K) = Ok d ->
  dr_map d = map (entry us) (List.filter (fun j => negb (bool_decide (j ∈ K) && drained j)) M) /\
  dr_keys d = ks ++ List.filter drained K /\ names (dr_indexes d) (dr_keys d).
Proof.
  induction K as [|k K IH]; intros M ks is' d Hn; cbn [map foldR].
  - intros [= <-]. cbn [dr_map dr_keys dr_indexes List.filter]. rewrite app_nil_r. split; [|done]. f_equal. symmetry.
    rewrite (filter_keep _ (fun _ => true)) by (intros x _; by rewrite bool_decide_false by set_solver). clear. induction M; cbn; by f_equal.
  - unfold drainEntry at 2. cbn [entry fst snd List.filter]. unfold drained at 2. destruct (f (metaOf us k)) eqn:Ef; cbn [andb].
    + rewrite newPublicKey_toBase58. cbn [mbind result_bind]. destruct (findIndex T k) as [i|] eqn:Ei.
      * destruct (findIndex_lookup _ _ _ Ei) as [H0 Hi]. destruct (Z.ltb_spec i 256) as [Hlt|]; cbn [assert_ mbind result_bind dr_indexes dr_keys dr_map]; [|done].
        rewrite mapDelete_entries. intros H. apply IH in H; [|by apply names_snoc]. destruct H as (H1 & H2 & H3).
        split; [|split; [rewrite H2, <- app_assoc; done|done]]. rewrite H1. f_equal. rewrite filter_fuse. apply filter_keep. intros j _.
        unfold key_equals. destruct (decide (j = k)) as [->|Hne].
        -- rewrite (bool_decide_true (k = k)), (bool_decide_true (k ∈ k :: K)) by set_solver. unfold drained. by rewrite Ef, Ei.
        -- rewrite (bool_decide_false (j = k)) by done. cbn [negb andb]. do 2 f_equal. apply bool_decide_ext. set_solver.
      * intros H. apply IH in H; [|done]. destruct H as (H1 & H2 & H3). split; [|done]. rewrite H1. f_equal. apply filter_keep. intros j _.
        destruct (decide (j = k)) as [->|Hne]; [unfold drained; by rewrite Ef, Ei, !andb_false_r|]. do 2 f_equal. apply bool_decide_ext. set_solver.
    + intros H. apply IH in H; [|done]. destruct H as (H1 & H2 & H3). split; [|done]. rewrite H1. f_equal. apply filter_keep. intros j _.
      destruct (decide (j = k)) as [->|Hne]; [unfold drained; by rewrite Ef, !andb_false_r|]. do 2 f_equal. apply bool_decide_ext. set_solver.
Qed.

Lemma drain_entries K d : drainKeysFoundInLookupTable (map (entry us) K) T f = Ok d ->
  dr_map d = map (entry us) (List.filter (fun j => negb (drained j)) K) /\ dr_keys d = List.filter drained K /\ names (dr_indexes d) (dr_keys d).
Proof.
  intros H. apply drain_loop in H; [|apply names_nil]. destruct H as (H1 & H2 & H3). split; [|done]. rewrite H1. f_equal.
  apply filter_keep. intros j Hj. by rewrite bool_decide_true.
Qed.
End Drain.

(** Look-ups into [tables] that give the keys [W], writable, and [R], read-only *)
Inductive lookups_give (tables : list AddressLookupTableAccount) : list MessageAddressTableLookup -> list pubkey -> list pubkey -> Prop :=
| give_none : lookups_give tables [] [] []
| give_more lookups W R t lk w r :
    lookups_give tables lookups W R -> t ∈ tables -> lk_accountKey lk = lt_key t ->
    names (lt_addresses t) (lk_writableIndexes lk) w -> names (lt_addresses t) (lk_readonlyIndexes lk) r ->
    lookups_give tables (lookups ++ [lk]) (W ++ w) (R ++ r).

Lemma names_empty T ks : names T [] ks -> ks = [].
Proof. intros [[= <-] _]. done. Qed.

Section Wrapped.
Context (us : list account_meta) (K : list pubkey) (tables : list AddressLookupTableAccount).

Definition nonSigner (w : bool) (k : pubkey) : Prop := signs us k = false /\ writes us k = w.

Record wrapped_inv (s : WrappedState) (M : list pubkey) : Prop := {
  wi_map : ws_map s = map (entry us) M;
  wi_perm : M ++ fl_writable (ws_keys s) ++ fl_readonly (ws_keys s) ≡ₚ K;
  wi_signers : having us writableSigner M = having us writableSigner K;
  wi_writable : Forall (nonSigner true) (fl_writable (ws_keys s));
  wi_readonly : Forall (nonSigner false) (fl_readonly (ws_keys s));
  wi_lookups : lookups_give tables (ws_lookups s) (fl_writable (ws_keys s)) (fl_readonly (ws_keys s)) }.

Lemma drained_nonSigner T (w : bool) k : drained us T (if w then drainWritable else drainReadonly) k = true -> nonSigner w k.
Proof.
  unfold drained, drainWritable, drainReadonly, nonSigner. destruct w; cbn [metaOf km_isSigner km_isWritable km_isInvoked];
    destruct (signs us k), (writes us k); cbn; done.
Qed.

Lemma drained_elems T (w : bool) M : Forall (nonSigner w) (List.filter (drained us T (if w then drainWritable else drainReadonly)) M).
Proof. apply Forall_forall. intros k Hk. apply list_elem_of_In, filter_In in Hk as [_ Hk]. by eapply drained_nonSigner. Qed.

(** Draining leaves the signers alone. *)
Lemma having_drained T (w : bool) M :
  having us writableSigner (List.filter (fun j => negb (drained us T (if w then drainWritable else drainReadonly) j)) M) = having us writableSigner M.
Proof.
  unfold having. rewrite filter_fuse. apply filter_keep. intros k _. destruct (drained _ _ _ k) eqn:E; [|done].
  apply drained_nonSigner in E as [E _]. unfold writableSigner. cbn [metaOf km_isSigner negb andb]. by rewrite E.
Qed.

Lemma wrappedTable_inv s M t s' : t ∈ tables -> wrapped_inv s M -> wrappedTable s t = Ok s' -> exists M', wrapped_inv s' M'.
Proof.
  intros Ht [Hmap Hperm Hsig Hw Hr Hl]. unfold wrappedTable, extractTableLookup. rewrite Hmap. intros H. simpl_bind H.
  destruct v as [er m]. apply bind_Ok in E as (dw & Edw & E). apply bind_Ok in E as (dr & Edr & E). injection E as <- <-.
  destruct (drain_entries us _ drainWritable _ _ Edw) as (W1 & W2 & W3). rewrite W1 in Edr.
  destruct (drain_entries us _ drainReadonly _ _ Edr) as (R1 & R2 & R3). injection H as <-.
  set (M1 := List.filter (fun j => negb (drained us (lt_addresses t) drainWritable j)) M) in *.
  set (M2 := List.filter (fun j => negb (drained us (lt_addresses t) drainReadonly j)) M1) in *. exists M2.
  pose proof (filter_split (drained us (lt_addresses t) drainWritable) M) as P1. fold M1 in P1. rewrite <- W2 in P1.
  pose proof (filter_split (drained us (lt_addresses t) drainReadonly) M1) as P2. fold M2 in P2. rewrite <- R2 in P2.
  pose proof (drained_elems (lt_addresses t) true M) as F1. pose proof (drained_elems (lt_addresses t) false M1) as F2.
  cbn [negb] in F1, F2. rewrite <- W2 in F1. rewrite <- R2 in F2.
  assert (Hs : having us writableSigner M2 = having us writableSigner K).
  { unfold M2. rewrite (having_drained _ false). unfold M1. by rewrite (having_drained _ true). }
  destruct (dr_indexes dw) as [|iw lw] eqn:Ew; [destruct (dr_indexes dr) as [|ir lr] eqn:Er|].
  - apply names_empty in W3, R3. rewrite W3 in P1. rewrite R3 in P2. rewrite app_nil_r in P1, P2.
    split; cbn [ws_map ws_keys ws_lookups]; try done. by rewrite P2, P1.
  - split; cbn [ws_map ws_keys ws_lookups fl_writable fl_readonly]; [done| |done|by apply Forall_app|by apply Forall_app|by econstructor].
    rewrite <- Hperm, <- P1, <- P2. solve_Permutation.
  - split; cbn [ws_map ws_keys ws_lookups fl_writable fl_readonly]; [done| |done|by apply Forall_app|by apply Forall_app|by econstructor].
    rewrite <- Hperm, <- P1, <- P2. solve_Permutation.
Qed.

Lemma wrappedTables_inv ts s M s' : (forall t, t ∈ ts -> t ∈ tables) -> wrapped_inv s M -> foldR wrappedTable s ts = Ok s' -> exists M', wrapped_inv s' M'.
Proof.
  revert s M. induction ts as [|t ts IH]; intros s M Hts Hi; cbn [foldR].
  - intros [= <-]. by exists M.
  - intros H. simpl_bind H. destruct (wrappedTable_inv s M t v (Hts t ltac:(set_solver)) Hi E) as [M' Hi']. apply (IH v M'); [set_solver|done|done].
Qed.
End Wrapped.

(** The stored message puts every key of the instructions in one place: among the static keys, where its position says whether it signs
    and is written, or in a look-up table. *)
Lemma wrapped_message payer ixs tables msg : compileToWrappedMessageV0 payer ixs tables = Ok msg ->
  let us := payerUses payer ixs in
  let W := fl_writable (wm_accountKeysFromLookups msg) in
  let R := fl_readonly (wm_accountKeysFromLookups msg) in
  head (wm_staticAccountKeys msg) = Some payer /\
  wm_staticAccountKeys msg ++ W ++ R ≡ₚ distinctKeys us /\
  (forall i k, wm_staticAccountKeys msg !! i = Some k ->
     isSignerIndex (storedMessage msg) (Z.of_nat i) = signs us k /\ isStaticWritableIndex (storedMessage msg) (Z.of_nat i) = writes us k) /\
  Forall (nonSigner us true) W /\ Forall (nonSigner us false) R /\
  lookups_give (default [] tables) (wm_addressTableLookups msg) W R.
Proof.
  intros H us W R. unfold compileToWrappedMessageV0 in H. simpl_bind H. rename v into s. rewrite compile_entries in E. fold us in E.
  apply (wrappedTables_inv us (distinctKeys us) (default [] tables) _ _ (distinctKeys us)) in E as (M & [Hmap Hperm Hsig Hw Hr Hl]); [|done|].
  2: { split; cbn [ws_map ws_keys ws_lookups fl_writable fl_readonly]; [done|by rewrite app_nil_r|done|constructor|constructor|constructor]. }
  rewrite Hmap, components_entries in H. simpl_bind H. destruct v as [h st]. simpl_bind E. simpl_bind E.
  injection E as <- <-. injection H as <-. subst W R. cbn [wm_staticAccountKeys wm_accountKeysFromLookups wm_addressTableLookups].
  split; [|split; [by rewrite static_perm|]]; [|split; [|done]].
  - unfold assert_ in E1. case_bool_decide as Hh; [|done]. unfold staticKeys. destruct (having us writableSigner M); [done|]. exact Hh.
  - intros i k Hk. destruct (static_flags _ _ _ _ Hk) as [F1 F2]. unfold storedMessage, isSignerIndex, isStaticWritableIndex.
    cbn [sm_numSigners sm_numWritableSigners sm_numWritableNonSigners sm_accountKeys wm_header wm_staticAccountKeys]. split; [exact F1|].
    rewrite <- F2. unfold staticWritable. pose proof (lookup_lt_Some _ _ _ Hk).
    repeat match goal with |- context [?a <? ?b] => destruct (Z.ltb_spec a b) | |- context [?a <=? ?b] => destruct (Z.leb_spec a b) end; (done || lia).
Qed.

(** ** From the instructions to the accounts of their execution *)
Definition keyed (k : pubkey) : string * pubkey := (toBase58 k, k).

Lemma mapSet_keyed K k : mapSet (map keyed K) (toBase58 k) k = map keyed (addKey K k).
Proof.
  unfold addKey. induction K as [|j K IH]; cbn [map mapSet keyed]; [by rewrite decide_False by set_solver|].
  rewrite base58_eqb. unfold key_equals. case_bool_decide as E.
  - subst j. by rewrite decide_True by set_solver.
  - rewrite IH. destruct (decide (k ∈ K)); [by rewrite decide_True by set_solver|by rewrite decide_False by set_solver].
Qed.

Lemma keySet_keyed lookups K :
  fold_left (fun m lk => mapSet m (toBase58 (lk_accountKey lk)) (lk_accountKey lk)) lookups (map keyed K) =
  map keyed (fold_left addKey (map lk_accountKey lookups) K).
Proof. revert K. induction lookups as [|lk lookups IH]; intros K; cbn [fold_left map]; [done|]. by rewrite mapSet_keyed, IH. Qed.

Lemma mapGet_keyed {A} (g : pubkey -> A) K k : k ∈ K -> mapGet (map (fun j => (toBase58 j, g j)) K) (toBase58 k) = Some (g k).
Proof.
  induction K as [|j K IH]; intros Hk; [set_solver|]. cbn [map mapGet]. rewrite base58_eqb. unfold key_equals. case_bool_decide as E; [by subst|].
  apply IH. set_solver.
Qed.

Section Execute.
Context (getTable : pubkey -> option (list pubkey)) (tables : list AddressLookupTableAccount).
Hypothesis Hgrow : forall t, t ∈ tables -> exists added, getTable (lt_key t) = Some (lt_addresses t ++ added).

Definition loadedTable (k : pubkey) : list pubkey := default [] (getTable k).

Lemma lookupKeys lk t idx ks : t ∈ tables -> names (lt_addresses t) idx ks -> lk_accountKey lk = lt_key t ->
  mapR (lookupKey lk (loadedTable (lt_key t))) idx = Ok ks.
Proof.
  intros Ht [Hn _] _. apply mapO_Forall2 in Hn. apply mapR_Ok_Forall2. eapply Forall2_impl; [exact Hn|]. intros i k Hi.
  destruct (Hgrow t Ht) as [added Eg]. unfold lookupKey, loadedTable. rewrite Eg. cbn [default from_option id]. by rewrite (lookup_app_l_Some _ _ _ _ Hi).
Qed.

Definition lookedMetas (w r : list pubkey) : list account_meta := map (fun k => Meta k false true) w ++ map (fun k => Meta k false false) r.

Lemma lookups_metas lookups W R loaded : lookups_give tables lookups W R ->
  (forall lk, lk ∈ lookups -> mapGet loaded (toBase58 (lk_accountKey lk)) = Some (loadedTable (lk_accountKey lk))) ->
  exists parts, mapR (lookupMetas loaded) lookups = Ok parts /\ concat parts ≡ₚ lookedMetas W R.
Proof.
  intros H. induction H as [|lookups W R t lk w r _ IH Ht Ek Hw Hr]; intros Hload; [by exists []|].
  destruct IH as (parts & E & P); [set_solver|]. exists (parts ++ [lookedMetas w r]). split.
  - apply mapR_Ok_Forall2, Forall2_app; [by apply mapR_Ok_Forall2|]. constructor; [|done]. unfold lookupMetas.
    rewrite (Hload lk) by set_solver. cbn [invariant_ mbind result_bind]. rewrite Ek.
    rewrite (lookupKeys lk t _ w Ht Hw Ek). cbn [mbind result_bind]. by rewrite (lookupKeys lk t _ r Ht Hr Ek).
  - rewrite concat_app. cbn [concat]. rewrite app_nil_r, P. unfold lookedMetas. rewrite !map_app. solve_Permutation.
Qed.

Lemma lookups_tables lookups W R lk : lookups_give tables lookups W R -> lk ∈ lookups -> lk_accountKey lk ∈ map lt_key tables.
Proof.
  induction 1 as [|lookups W R t lk' w r _ IH Ht Ek]; intros Hin; [set_solver|]. apply elem_of_app in Hin as [Hin|Hin]; [auto|].
  apply list_elem_of_singleton in Hin as ->. rewrite Ek. by apply (list_elem_of_fmap_2 lt_key).
Qed.
End Execute.

Lemma imap_keys (f g : nat -> pubkey -> bool) l : map meta_pubkey (imap (fun i k => Meta k (f i k) (g i k)) l) = l.
Proof.
  revert f g. induction l as [|k l IH]; intros f g; [done|]. rewrite imap_cons. cbn [map meta_pubkey]. f_equal.
  apply (IH (fun i => f (S i)) (fun i => g (S i))).
Qed.

(** The privileges an execution gives an account *)
Definition executes (us : list account_meta) (vault : pubkey) (ephemeral : list pubkey) (am : account_meta) : Prop :=
  isWritable am = writes us (meta_pubkey am) /\
  isSigner am = signs us (meta_pubkey am) && negb (key_equals (meta_pubkey am) vault) &&
                negb (existsb (fun k => key_equals (meta_pubkey am) k) ephemeral).

Lemma looked_executes us vault ephemeral W R : Forall (nonSigner us true) W -> Forall (nonSigner us false) R ->
  Forall (executes us vault ephemeral) (lookedMetas W R).
Proof.
  rewrite !Forall_forall. intros HW HR am Ham. unfold lookedMetas in Ham.
  apply elem_of_app in Ham as [Ham|Ham]; apply list_elem_of_fmap in Ham as (k & -> & Hk); [destruct (HW k Hk) as [H1 H2]|destruct (HR k Hk) as [H1 H2]];
    unfold executes; cbn [isSigner isWritable meta_pubkey]; by rewrite H1, H2.
Qed.

(** Instructions wrapped into a stored message are executed with exactly their accounts: while the look-up tables only grow,
    the accounts computed for the execution are the tables, read-only, and then every key the payer and the instructions use,
    each once, writable exactly when some use writes it, and a signer exactly when some use signs it and it is neither the
    vault nor an ephemeral signer. *)
Theorem execution_accounts_exact (payer : pubkey) (ixs : list instruction) (tables : option (list AddressLookupTableAccount))
    (msg : WrappedMessage) (getTable : pubkey -> option (list pubkey)) (ephemeral : list pubkey) (vault : pubkey) :
  compileToWrappedMessageV0 payer ixs tables = Ok msg ->
  (forall t, t ∈ default [] tables -> exists added, getTable (lt_key t) = Some (lt_addresses t ++ added)) ->
  exists tableMetas metas loaded,
    accountsForTransactionExecute getTable (storedMessage msg) ephemeral vault = Ok (tableMetas ++ metas, loaded) /\
    Forall (fun am => isSigner am = false /\ isWritable am = false /\ meta_pubkey am ∈ map lt_key (default [] tables)) tableMetas /\
    map meta_pubkey metas ≡ₚ distinctKeys (payerUses payer ixs) /\
    Forall (executes (payerUses payer ixs) vault ephemeral) metas.
Proof.
  intros Hmsg Hgrow. destruct (wrapped_message _ _ _ _ Hmsg) as (_ & Hperm & Hflags & HW & HR & Hlk). clear Hmsg.
  unfold accountsForTransactionExecute. change (sm_addressTableLookups (storedMessage msg)) with (wm_addressTableLookups msg).
  change (sm_accountKeys (storedMessage msg)) with (wm_staticAccountKeys msg).
  set (us := payerUses payer ixs) in *. set (lookups := wm_addressTableLookups msg) in *.
  pose proof (keySet_keyed lookups []) as Hset. change (map keyed []) with (@nil (string * pubkey)) in Hset. rewrite Hset. clear Hset. set (Ks := fold_left addKey (map lk_accountKey lookups) []).
  assert (HKs : forall k, k ∈ Ks <-> k ∈ map lk_accountKey lookups).
  { intros k. unfold Ks. rewrite (proj1 (proj2 (addKeys_spec (map lk_accountKey lookups) [] NoDup_nil_2))). set_solver. }
  assert (HKt : forall k, k ∈ Ks -> k ∈ map lt_key (default [] tables)).
  { intros k Hk%HKs. apply list_elem_of_fmap in Hk as (lk & -> & Hin). by eapply lookups_tables. }
  rewrite mapR_map, (mapR_ok_map _ (fun k => (toBase58 k, loadedTable getTable k))).
  2: { intros k Hk%HKt. apply list_elem_of_fmap in Hk as (t & -> & Ht). destruct (Hgrow t Ht) as [added E]. cbn [keyed snd]. unfold loadedTable. by rewrite E. }
  cbn [mbind result_bind].
  destruct (lookups_metas getTable (default [] tables) Hgrow lookups _ _ (map (fun k => (toBase58 k, loadedTable getTable k)) Ks) Hlk) as (parts & -> & Hparts).
  { intros lk Hin. apply mapGet_keyed, HKs. by apply (list_elem_of_fmap_2 lk_accountKey). }
  cbn [mbind result_bind]. eexists _, _, _. split; [reflexivity|]. split; [|split].
  - rewrite map_map. apply Forall_forall. intros am Ham. apply list_elem_of_fmap in Ham as (k & -> & Hk). cbn. auto.
  - rewrite map_app, Hparts. unfold lookedMetas. rewrite map_app, !map_map, !map_ext_id by done. rewrite <- Hperm.
    apply Permutation_app_tail, Permutation_refl'. apply (imap_keys (fun _ _ => _) (fun _ _ => _)).
  - rewrite Forall_app, Hparts. split; [|by apply looked_executes]. apply Forall_forall. intros am Ham.
    apply list_elem_of_lookup in Ham as [i Hi]. rewrite list_lookup_imap in Hi. destruct (wm_staticAccountKeys msg !! i) as [k|] eqn:Ek; [|done].
    injection Hi as <-. destruct (Hflags i k Ek) as [F1 F2]. unfold executes. cbn [isSigner isWritable meta_pubkey]. by rewrite F1, F2.
Qed.
End Uses.

Module MessageWitness.
Import DemoKeys.

Definition vault : @pubkey demo_keys := key_of 1.
Definition payer : @pubkey demo_keys := key_of 2.
Definition program : @pubkey demo_keys := key_of 3.
Definition source : @pubkey demo_keys := key_of 4.
Definition target : @pubkey demo_keys := key_of 5.

Definition transfer : instruction := Instruction program [Meta source false true; Meta target false true; Meta vault true false] [3; 7].
Definition note : instruction := Instruction program [Meta target false false] [].
Definition table : AddressLookupTableAccount := {| lt_key := key_of 9; lt_addresses := [target; program] |}.

Definition stored : result WrappedMessage := compileToWrappedMessageV0 payer [transfer; note] (Some [table]).

Example sync_accounts :
  (fun r : list Z * list account_meta => map (fun am => (isSigner am, isWritable am)) r.2) <$>
    compileToSynchronousMessageAndAccountsV2 vault [payer] [transfer; note] =
  Ok [(true, false); (false, false); (false, true); (false, true); (false, false)].
Proof. vm_compute. done. Qed.

Lemma sync_message_faithful_witness :
  match compileToSynchronousMessageAndAccountsV2WithHooks vault [payer] [] [] [transfer; note] with
  | Ok (bytes, accounts) => exists tail,
      accounts = map (fun k => Meta k true false) (rev [payer]) ++ ([] ++ []) ++ tail /\
      readMessage (map meta_pubkey tail) bytes = Some (map plain [transfer; note]) /\
      map meta_pubkey tail ≡ₚ distinctKeys (uses [transfer; note]) /\
      Forall (fun am => isSigner am = signs (uses [transfer; note]) (meta_pubkey am) && negb (key_equals (meta_pubkey am) vault) /\
                        isWritable am = writes (uses [transfer; note]) (meta_pubkey am)) tail
  | Throw e => (256 < length (distinctKeys (uses [transfer; note])))%nat
  end.
Proof.
  apply (sync_message_faithful vault [payer] [] [] [transfer; note]). split; [cbn; lia|].
  do 2 (apply Forall_cons; split; [split; cbn [keys data transfer note length]; lia|]). by apply Forall_nil.
Defined.

(** One key is read from the table, the program too. *)
Example stored_lookups :
  (fun m => (length (wm_staticAccountKeys m), map lk_writableIndexes (wm_addressTableLookups m), map lk_readonlyIndexes (wm_addressTableLookups m))) <$> stored =
  Ok (3%nat, [[0]], [[1]]).
Proof. vm_compute. done. Qed.

Lemma execution_accounts_exact_witness :
  match stored with
  | Ok msg => exists tableMetas metas loaded,
      accountsForTransactionExecute (fun _ => Some (lt_addresses table ++ [payer])) (storedMessage msg) [] vault = Ok (tableMetas ++ metas, loaded) /\
      Forall (fun am => isSigner am = false /\ isWritable am = false /\ meta_pubkey am ∈ map lt_key [table]) tableMetas /\
      map meta_pubkey metas ≡ₚ distinctKeys (payerUses payer [transfer; note]) /\
      Forall (executes (payerUses payer [transfer; note]) vault []) metas
  | Throw _ => False
  end.
Proof.
  assert (H : is_ok stored = true) by (vm_compute; done). destruct stored as [msg|] eqn:E; [|done].
  apply (execution_accounts_exact payer [transfer; note] (Some [table]) msg (fun _ => Some (lt_addresses table ++ [payer])) [] vault E).
  intros t Ht. apply list_elem_of_singleton in Ht as ->. by exists [payer].
Defined.
End MessageWitness.
