(* ===== verification/Pda.v ===== *)
(** Derived addresses of the smart-accounts program
    (web/packages/loyal-smart-accounts-core/src/core/pda/index.ts with the registry of core/spec/pda-registry.ts): seeds are
    described by tokens, a static text or the name of an argument with its encoding.

    The integer writers are beet's: a parameter whose documented behaviour is little-endian in range. The cache of
    encoded static seeds returns what it would compute. The bump of a derived address is not used here. *)
From S2P Require Import Prelude JsString JsMap Solana Bytes Subscriptions MessageCompile.

(** ** Integer writers *)
(** [uN.write(buffer, 0, value)] into a buffer of that many bytes *)
Class BeetUints := beet_write : nat -> Z -> result (list Z).
Class BeetLaws (B : BeetUints) : Prop := beet_in_range n v : 0 <= v < 256 ^ Z.of_nat n -> beet_write n v = Ok (le_bytes n v).

Definition demoBeet : BeetUints := fun n v =>
  if (0 <=? v) && (v <? 256 ^ Z.of_nat n) then Ok (le_bytes n v) else throwRange "The value of value is out of range.".

Lemma demoBeet_laws : @BeetLaws demoBeet.
Proof. intros n v Hv. unfold beet_write, demoBeet. by replace ((0 <=? v) && (v <? 256 ^ Z.of_nat n)) with true by lia. Qed.

(** ** Tokens *)
Fixpoint splitAt (c : ascii) (l : list ascii) : list ascii * option (list ascii) :=
  match l with
  | [] => ([], None)
  | x :: l =>
      if Ascii.eqb x c then ([], Some l)
      else let '(a, rest) := splitAt c l in (x :: a, rest)
  end.

(** [token.split(":")] up to its second piece *)
Definition splitToken (token : string) : string * option string :=
  let '(field, rest) := splitAt ":"%char (chars token) in
  (unchars field, (fun r => unchars (splitAt ":"%char r).1) <$> rest).

Section Pda.
Context {PK : PublicKeys} {B : BeetUints}.

Inductive seedValue := SeedKey (k : pubkey) | SeedNumber (z : Z) | SeedBigint (z : Z).
Definition PdaSeedArgs := list (string * seedValue).

Definition toU8Bytes (num : Z) : result (list Z) := beet_write 1 num.
Definition toU32Bytes (num : Z) : result (list Z) := beet_write 4 num.
Definition toU64Bytes (num : Z) : result (list Z) := beet_write 8 num.
Definition toU128Bytes (num : Z) : result (list Z) := beet_write 16 num.

(** A name in double quotes *)
Definition quoted (s : string) : string := String "034"%char (s +:+ String "034"%char EmptyString).

Definition violation {A} (message : string) : result A := Throw (Exn "Invariant Violation" message).

Definition numberSeed (field : string) (value : seedValue) : result Z :=
  match value with
  | SeedNumber z => Ok z
  | _ => violation ("PDA seed " +:+ quoted field +:+ " must be a number")
  end.

Definition integerSeed (field : string) (value : seedValue) : result Z :=
  match value with
  | SeedNumber z | SeedBigint z => Ok z
  | SeedKey _ => violation ("PDA seed " +:+ quoted field +:+ " must be a bigint or number")
  end.

Definition toSeedBytes (token : string) (args : PdaSeedArgs) : result (list Z) :=
  match splitToken token with
  | (_, None) => Ok (utf8 token)
  | (field, Some encoding) =>
      match mapGet args field with
      | None => violation ("Missing PDA seed value for " +:+ quoted field)
      | Some value =>
          if String.eqb encoding "pubkey" then
            match value with
            | SeedKey k => Ok (toBytes k)
            | _ => violation ("PDA seed " +:+ quoted field +:+ " must be a PublicKey")
            end
          else if String.eqb encoding "u8" then num ← numberSeed field value; toU8Bytes num
          else if String.eqb encoding "u32" then num ← numberSeed field value; toU32Bytes num
          else if String.eqb encoding "u64" then num ← integerSeed field value; toU64Bytes num
          else if String.eqb encoding "u128" then num ← integerSeed field value; toU128Bytes num
          else violation ("Unsupported PDA seed encoding " +:+ quoted encoding)
      end
  end.

Inductive PdaRegistryKey :=
  programConfig | settings | smartAccount | transaction | proposal | batchTransaction | ephemeralSigner | spendingLimit |
  transactionBuffer | policy.

Definition PDA_REGISTRY (key : PdaRegistryKey) : list string :=
  match key with
  | programConfig => ["smart_account"; "program_config"]
  | settings => ["smart_account"; "settings"; "accountIndex:u128"]
  | smartAccount => ["smart_account"; "settingsPda:pubkey"; "smart_account"; "accountIndex:u8"]
  | transaction => ["smart_account"; "settingsPda:pubkey"; "transaction"; "transactionIndex:u64"]
  | proposal => ["smart_account"; "settingsPda:pubkey"; "transaction"; "transactionIndex:u64"; "proposal"]
  | batchTransaction =>
      ["smart_account"; "settingsPda:pubkey"; "transaction"; "batchIndex:u64"; "batch_transaction"; "transactionIndex:u32"]
  | ephemeralSigner => ["smart_account"; "transactionPda:pubkey"; "ephemeral_signer"; "ephemeralSignerIndex:u8"]
  | spendingLimit => ["smart_account"; "settingsPda:pubkey"; "spending_limit"; "seed:pubkey"]
  | transactionBuffer => ["smart_account"; "consensusPda:pubkey"; "transaction_buffer"; "creator:pubkey"; "bufferIndex:u8"]
  | policy => ["smart_account"; "policy"; "settingsPda:pubkey"; "policySeed:u64"]
  end%string.

Definition seedsFromRegistry (key : PdaRegistryKey) (args : PdaSeedArgs) : result (list (list Z)) :=
  mapR (fun seed => toSeedBytes seed args) (PDA_REGISTRY key).

Definition derivePdaFromRegistry (key : PdaRegistryKey) (args : PdaSeedArgs) (programId : pubkey) : result pubkey :=
  seeds ← seedsFromRegistry key args;
  findProgramAddress seeds programId.

(** A call of one of the exported derivations, with its arguments *)
Inductive PdaRequest :=
  | ProgramConfigPda
  | SettingsPda (accountIndex : Z)
  | SmartAccountPda (settingsPda : pubkey) (accountIndex : Z)
  | TransactionPda (settingsPda : pubkey) (transactionIndex : Z)
  | ProposalPda (settingsPda : pubkey) (transactionIndex : Z)
  | BatchTransactionPda (settingsPda : pubkey) (batchIndex transactionIndex : Z)
  | EphemeralSignerPda (transactionPda : pubkey) (ephemeralSignerIndex : Z)
  | SpendingLimitPda (settingsPda seed : pubkey)
  | TransactionBufferPda (consensusPda creator : pubkey) (bufferIndex : Z)
  | PolicyPda (settingsPda : pubkey) (policySeed : Z).

Definition requestKey (r : PdaRequest) : PdaRegistryKey :=
  match r with
  | ProgramConfigPda => programConfig | SettingsPda _ => settings | SmartAccountPda _ _ => smartAccount
  | TransactionPda _ _ => transaction | ProposalPda _ _ => proposal | BatchTransactionPda _ _ _ => batchTransaction
  | EphemeralSignerPda _ _ => ephemeralSigner | SpendingLimitPda _ _ => spendingLimit
  | TransactionBufferPda _ _ _ => transactionBuffer | PolicyPda _ _ => policy
  end.

Definition requestArgs (r : PdaRequest) : PdaSeedArgs :=
  match r with
  | ProgramConfigPda => []
  | SettingsPda i => [("accountIndex", SeedBigint i)]
  | SmartAccountPda s i => [("settingsPda", SeedKey s); ("accountIndex", SeedNumber i)]
  | TransactionPda s i => [("settingsPda", SeedKey s); ("transactionIndex", SeedBigint i)]
  | ProposalPda s i => [("settingsPda", SeedKey s); ("transactionIndex", SeedBigint i)]
  | BatchTransactionPda s b i => [("settingsPda", SeedKey s); ("batchIndex", SeedBigint b); ("transactionIndex", SeedNumber i)]
  | EphemeralSignerPda t i => [("transactionPda", SeedKey t); ("ephemeralSignerIndex", SeedNumber i)]
  | SpendingLimitPda s k => [("settingsPda", SeedKey s); ("seed", SeedKey k)]
  | TransactionBufferPda c k i => [("consensusPda", SeedKey c); ("creator", SeedKey k); ("bufferIndex", SeedNumber i)]
  | PolicyPda s i => [("settingsPda", SeedKey s); ("policySeed", SeedNumber i)]
  end%string.

Definition derivePda (r : PdaRequest) (programId : pubkey) : result pubkey :=
  derivePdaFromRegistry (requestKey r) (requestArgs r) programId.

Definition getSmartAccountPda (settingsPda : pubkey) (accountIndex : Z) (programId : pubkey) : result pubkey :=
  if (0 <=? accountIndex) && (accountIndex <? 256) then derivePda (SmartAccountPda settingsPda accountIndex) programId
  else violation "Invalid vault index".

(** ** The seeds of a request *)
Definition request_ok (r : PdaRequest) : Prop :=
  match r with
  | SettingsPda i => 0 <= i < 256 ^ 16
  | SmartAccountPda _ i | EphemeralSignerPda _ i | TransactionBufferPda _ _ i => 0 <= i < 256 ^ 1
  | TransactionPda _ i | ProposalPda _ i | PolicyPda _ i => 0 <= i < 256 ^ 8
  | BatchTransactionPda _ b i => 0 <= b < 256 ^ 8 /\ 0 <= i < 256 ^ 4
  | ProgramConfigPda | SpendingLimitPda _ _ => True
  end.

Definition seedsOf (r : PdaRequest) : list (list Z) :=
  utf8 "smart_account" ::
  match r with
  | ProgramConfigPda => [utf8 "program_config"]
  | SettingsPda i => [utf8 "settings"; le_bytes 16 i]
  | SmartAccountPda s i => [toBytes s; utf8 "smart_account"; le_bytes 1 i]
  | TransactionPda s i => [toBytes s; utf8 "transaction"; le_bytes 8 i]
  | ProposalPda s i => [toBytes s; utf8 "transaction"; le_bytes 8 i; utf8 "proposal"]
  | BatchTransactionPda s b i => [toBytes s; utf8 "transaction"; le_bytes 8 b; utf8 "batch_transaction"; le_bytes 4 i]
  | EphemeralSignerPda t i => [toBytes t; utf8 "ephemeral_signer"; le_bytes 1 i]
  | SpendingLimitPda s k => [toBytes s; utf8 "spending_limit"; toBytes k]
  | TransactionBufferPda c k i => [toBytes c; utf8 "transaction_buffer"; toBytes k; le_bytes 1 i]
  | PolicyPda s i => [utf8 "policy"; toBytes s; le_bytes 8 i]
  end.

Context {BL : BeetLaws B}.

Lemma request_seeds r : request_ok r -> seedsFromRegistry (requestKey r) (requestArgs r) = Ok (seedsOf r).
Proof.
  destruct r; cbn [request_ok]; intros H; unfold seedsFromRegistry, PDA_REGISTRY, requestKey, requestArgs, seedsOf; cbn [mapR];
    unfold toSeedBytes; cbn; unfold toU8Bytes, toU32Bytes, toU64Bytes, toU128Bytes; rewrite ?beet_in_range by (apply H); done.
Qed.

Context {Laws : PublicKeyLaws PK}.

Definition seedLength (key : PdaRegistryKey) : nat :=
  match key with
  | programConfig => 27 | settings => 37 | smartAccount => 59 | transaction => 64 | proposal => 72 | batchTransaction => 85
  | ephemeralSigner => 62 | spendingLimit => 91 | transactionBuffer => 96 | policy => 59
  end.

Lemma seeds_length r : length (concat (seedsOf r)) = seedLength (requestKey r).
Proof. destruct r; unfold seedsOf; cbn [concat requestKey seedLength]; rewrite !length_app, ?le_bytes_length, ?toBytes_length; done. Qed.

Lemma le_bytes_inj n a b : 0 <= a < 256 ^ Z.of_nat n -> 0 <= b < 256 ^ Z.of_nat n -> le_bytes n a = le_bytes n b -> a = b.
Proof. intros Ha Hb H. apply (f_equal le_value) in H. by rewrite !le_value_bytes_small in H. Qed.

(** Split an equation between concatenations of parts of equal lengths. *)
Ltac split_parts H :=
  lazymatch type of H with
  | ?a ++ ?x = ?b ++ ?y =>
      let H1 := fresh "Hpart" in
      apply app_inj_1 in H as [H1 H]; [split_parts H|rewrite ?le_bytes_length, ?toBytes_length; reflexivity]
  | _ => idtac
  end.

Lemma same_key_inj r r' : requestKey r = requestKey r' -> request_ok r -> request_ok r' -> concat (seedsOf r) = concat (seedsOf r') -> r = r'.
Proof.
  intros Hk Ho Ho' H. destruct r, r'; try discriminate Hk; clear Hk; unfold seedsOf in H; cbn [concat] in H; split_parts H; cbn [request_ok] in Ho, Ho'; f_equal;
    first [by apply toBytes_inj | eapply (le_bytes_inj 1); [..|eassumption]; tauto | eapply (le_bytes_inj 4); [..|eassumption]; tauto
          | eapply (le_bytes_inj 8); [..|eassumption]; tauto | eapply (le_bytes_inj 16); [..|eassumption]; tauto].
Qed.

(** Two different derivations of the smart-accounts program never hash the same bytes: the seeds, which are hashed without
    separators, determine the kind of address and its arguments, unless one is a vault and the other a policy. *)
Theorem pda_seeds_distinct (r r' : PdaRequest) (s s' : list (list Z)) :
  request_ok r -> request_ok r' ->
  seedsFromRegistry (requestKey r) (requestArgs r) = Ok s -> seedsFromRegistry (requestKey r') (requestArgs r') = Ok s' ->
  concat s = concat s' ->
  r = r' \/ (requestKey r = smartAccount /\ requestKey r' = policy) \/ (requestKey r = policy /\ requestKey r' = smartAccount).
Proof.
  intros Ho Ho' Hs Hs' H. rewrite request_seeds in Hs, Hs' by done. injection Hs as <-. injection Hs' as <-.
  assert (Hl : seedLength (requestKey r) = seedLength (requestKey r')) by (rewrite <- !seeds_length; by rewrite H).
  destruct (requestKey r) eqn:E, (requestKey r') eqn:E'; try discriminate Hl; try (by right; auto); left; apply same_key_inj; congruence.
Qed.
End Pda.

Module PdaWitness.
Import DemoKeys.

Definition vaultRequest : @PdaRequest demo_keys := SmartAccountPda (key_of 1) 1.

Lemma pda_seeds_distinct_witness :
  vaultRequest = vaultRequest \/ (requestKey vaultRequest = smartAccount /\ requestKey vaultRequest = policy) \/
  (requestKey vaultRequest = policy /\ requestKey vaultRequest = smartAccount).
Proof.
  apply (pda_seeds_distinct (B := demoBeet) (BL := demoBeet_laws) vaultRequest vaultRequest (seedsOf vaultRequest) (seedsOf vaultRequest)); try reflexivity; cbn; lia.
Defined.
End PdaWitness.
