(* ===== verification/Kamino.v ===== *)
(** Accounts of the Kamino lending program (the parsers and the reserve arithmetic of
    web/packages/smart-account-vaults/src/client.ts): reserves, obligations, and the conversion between
    collateral and redeemable liquidity.

    [new PublicKey(bytes)] is a parameter: 32 bytes make the key that has those bytes. *)
From S2P Require Import Prelude JsString Solana Bytes Subscriptions Protocols Registry Voltr.

(** ** Keys from bytes *)
Class KeyBytes (PK : PublicKeys) := keyOfBytes : list Z -> result pubkey.
Class KeyBytesLaws (PK : PublicKeys) (KB : KeyBytes PK) : Prop :=
  key_of_32 bs : length bs = 32%nat -> Forall is_byte bs -> exists k, keyOfBytes bs = Ok k /\ toBytes k = bs.

(** ** Layout *)
Definition KAMINO_RESERVE_DISCRIMINATOR := [43; 242; 204; 202; 26; 247; 59; 127].
Definition KAMINO_OBLIGATION_DISCRIMINATOR := [168; 206; 141; 106; 88; 76; 172; 167].
Definition KAMINO_FRACTION_BITS := 60.
Definition KAMINO_FRACTION_SCALE := Z.shiftl 1 KAMINO_FRACTION_BITS.
Definition KAMINO_RESERVE_ACCOUNT_DISCRIMINATOR_OFFSET := 8.

(** [KAMINO_RESERVE_LAYOUT_OFFSETS] *)
Definition RESERVE_OFFSET_lendingMarket := KAMINO_RESERVE_ACCOUNT_DISCRIMINATOR_OFFSET + 24.
Definition RESERVE_OFFSET_farmCollateral := KAMINO_RESERVE_ACCOUNT_DISCRIMINATOR_OFFSET + 56.
Definition RESERVE_OFFSET_farmDebt := KAMINO_RESERVE_ACCOUNT_DISCRIMINATOR_OFFSET + 88.
Definition RESERVE_OFFSET_liquidityMintPubkey := KAMINO_RESERVE_ACCOUNT_DISCRIMINATOR_OFFSET + 120.
Definition RESERVE_OFFSET_liquiditySupplyVault := KAMINO_RESERVE_ACCOUNT_DISCRIMINATOR_OFFSET + 152.
Definition RESERVE_OFFSET_liquidityAvailableAmount := KAMINO_RESERVE_ACCOUNT_DISCRIMINATOR_OFFSET + 216.
Definition RESERVE_OFFSET_liquidityBorrowedAmountSf := KAMINO_RESERVE_ACCOUNT_DISCRIMINATOR_OFFSET + 224.
Definition RESERVE_OFFSET_liquidityAccumulatedProtocolFeesSf := KAMINO_RESERVE_ACCOUNT_DISCRIMINATOR_OFFSET + 336.
Definition RESERVE_OFFSET_liquidityAccumulatedReferrerFeesSf := KAMINO_RESERVE_ACCOUNT_DISCRIMINATOR_OFFSET + 352.
Definition RESERVE_OFFSET_liquidityPendingReferrerFeesSf := KAMINO_RESERVE_ACCOUNT_DISCRIMINATOR_OFFSET + 368.
Definition RESERVE_OFFSET_liquidityTokenProgram := KAMINO_RESERVE_ACCOUNT_DISCRIMINATOR_OFFSET + 400.
Definition RESERVE_OFFSET_collateralMintPubkey := KAMINO_RESERVE_ACCOUNT_DISCRIMINATOR_OFFSET + 2552.
Definition RESERVE_OFFSET_collateralMintTotalSupply := KAMINO_RESERVE_ACCOUNT_DISCRIMINATOR_OFFSET + 2584.
Definition RESERVE_OFFSET_collateralSupplyVault := KAMINO_RESERVE_ACCOUNT_DISCRIMINATOR_OFFSET + 2592.

(** [KAMINO_OBLIGATION_LAYOUT_OFFSETS] *)
Definition OBLIGATION_OFFSET_lendingMarket := Z.of_nat (length KAMINO_OBLIGATION_DISCRIMINATOR) + 24.
Definition OBLIGATION_OFFSET_owner := Z.of_nat (length KAMINO_OBLIGATION_DISCRIMINATOR) + 56.
Definition OBLIGATION_OFFSET_deposits := Z.of_nat (length KAMINO_OBLIGATION_DISCRIMINATOR) + 88.

Definition KAMINO_OBLIGATION_DEPOSIT_SLOT_COUNT := 8.
Definition KAMINO_OBLIGATION_DEPOSIT_OFFSET := 96.
Definition KAMINO_OBLIGATION_DEPOSIT_SIZE := 136.
Definition KAMINO_OBLIGATION_DEPOSIT_DEPOSITED_AMOUNT_OFFSET := 32.

(** ** Reads *)
Definition bufferStartsWith (data prefix : list Z) : bool :=
  if (length data <? length prefix)%nat then false
  else forallb id (imap (fun index byte => match data !! index with Some b => b =? byte | None => false end) prefix).

Definition readUint64LE (data : list Z) (offset : Z) : result Z :=
  if (offset <? 0) || (Z.of_nat (length data) <? offset + 8)
  then throwRange "Cannot read u64 outside the provided byte range."
  else Ok (fold_left (fun value index => value + Z.shiftl (default 0 (data !! Z.to_nat (offset + index))) (index * 8))
             [0; 1; 2; 3; 4; 5; 6; 7] 0).

Definition readUint128LE (data : list Z) (offset : Z) : result Z :=
  low ← readUint64LE data offset;
  high ← readUint64LE data (offset + 8);
  Ok (low + Z.shiftl high 64).

Record KaminoReserveSnapshot := { collateralSupplyRaw : Z; totalLiquiditySupplyScaled : Z }.

Section Kamino.
Context {PK : PublicKeys} {KB : KeyBytes PK}.

(** [data.subarray(offset, offset + 32)]: a shorter range at the end of the data *)
Definition readPublicKey (data : list Z) (offset : Z) : result pubkey := keyOfBytes (take 32 (drop (Z.to_nat offset) data)).

Record KaminoObligationDeposit := { depositedAmountRaw : Z; dep_reserve : pubkey; slotIndex : Z }.

Record KaminoObligationAccount := {
  deposits : list KaminoObligationDeposit;
  ob_lendingMarket : pubkey;
  ob_owner : pubkey;
}.

Record KaminoReserveTokenAccounts := {
  farmCollateral : pubkey;
  farmDebt : pubkey;
  lendingMarket : pubkey;
  reserveCollateralMint : pubkey;
  reserveCollateralSupply : pubkey;
  reserveLiquidityMint : pubkey;
  reserveLiquiditySupply : pubkey;
  reserveLiquidityTokenProgram : pubkey;
}.

Definition assertKaminoReserveAccountData (data : list Z) : result (list Z) :=
  if bufferStartsWith data KAMINO_RESERVE_DISCRIMINATOR then Ok data
  else throwError "Kamino reserve account has an invalid discriminator.".

Definition assertKaminoObligationAccountData (data : list Z) : result (list Z) :=
  if bufferStartsWith data KAMINO_OBLIGATION_DISCRIMINATOR then Ok data
  else throwError "Kamino obligation account has an invalid discriminator.".

Definition parseKaminoReserveTokenAccounts (data : list Z) : result KaminoReserveTokenAccounts :=
  normalizedData ← assertKaminoReserveAccountData data;
  let requiredLength := RESERVE_OFFSET_collateralSupplyVault + 32 in
  if Z.of_nat (length normalizedData) <? requiredLength then throwError "Kamino reserve account is smaller than expected."
  else
    farmCollateral ← readPublicKey normalizedData RESERVE_OFFSET_farmCollateral;
    farmDebt ← readPublicKey normalizedData RESERVE_OFFSET_farmDebt;
    lendingMarket ← readPublicKey normalizedData RESERVE_OFFSET_lendingMarket;
    reserveCollateralMint ← readPublicKey normalizedData RESERVE_OFFSET_collateralMintPubkey;
    reserveCollateralSupply ← readPublicKey normalizedData RESERVE_OFFSET_collateralSupplyVault;
    reserveLiquidityMint ← readPublicKey normalizedData RESERVE_OFFSET_liquidityMintPubkey;
    reserveLiquiditySupply ← readPublicKey normalizedData RESERVE_OFFSET_liquiditySupplyVault;
    reserveLiquidityTokenProgram ← readPublicKey normalizedData RESERVE_OFFSET_liquidityTokenProgram;
    Ok {| farmCollateral := farmCollateral; farmDebt := farmDebt; lendingMarket := lendingMarket;
          reserveCollateralMint := reserveCollateralMint; reserveCollateralSupply := reserveCollateralSupply;
          reserveLiquidityMint := reserveLiquidityMint; reserveLiquiditySupply := reserveLiquiditySupply;
          reserveLiquidityTokenProgram := reserveLiquidityTokenProgram |}.

(** The loop body over the expected accounts, in their order *)
Definition expectAccount (actual expected : pubkey) (label : string) : result unit :=
  if key_equals actual expected then Ok tt
  else throwError ("Selected Kamino reserve has an unexpected " +:+ label +:+ ".").

Definition validateKaminoEarnReserveAccount (account : AccountInfo) (target : KaminoEarnTarget) (liquidityTokenProgram : pubkey) :
    result KaminoReserveTokenAccounts :=
  if negb (key_equals (info_owner account) (lendProgramId target))
  then throwError "Selected Kamino reserve is not owned by the selected lending program."
  else
    reserveAccounts ← parseKaminoReserveTokenAccounts (info_data account);
    _ ← expectAccount (lendingMarket reserveAccounts) (market target) "lending market";
    _ ← expectAccount (reserveLiquidityMint reserveAccounts) (liquidityMint target) "liquidity mint";
    _ ← expectAccount (reserveLiquidityTokenProgram reserveAccounts) liquidityTokenProgram "liquidity token program";
    Ok reserveAccounts.

(** One slot of the loop *)
Definition parseDepositSlot (normalizedData : list Z) (deposits : list KaminoObligationDeposit) (slotIndex : Z) :
    result (list KaminoObligationDeposit) :=
  let offset := OBLIGATION_OFFSET_deposits + slotIndex * KAMINO_OBLIGATION_DEPOSIT_SIZE in
  reserve ← readPublicKey normalizedData offset;
  depositedAmountRaw ← readUint64LE normalizedData (offset + KAMINO_OBLIGATION_DEPOSIT_DEPOSITED_AMOUNT_OFFSET);
  if key_equals reserve DEFAULT_PUBKEY || (depositedAmountRaw <=? 0) then Ok deposits
  else Ok (deposits ++ [{| depositedAmountRaw := depositedAmountRaw; dep_reserve := reserve; slotIndex := slotIndex |}]).

Definition parseKaminoObligationAccount (data : list Z) : result KaminoObligationAccount :=
  normalizedData ← assertKaminoObligationAccountData data;
  let requiredLength := KAMINO_OBLIGATION_DEPOSIT_OFFSET + KAMINO_OBLIGATION_DEPOSIT_SLOT_COUNT * KAMINO_OBLIGATION_DEPOSIT_SIZE in
  if Z.of_nat (length normalizedData) <? requiredLength then throwError "Kamino obligation account is smaller than expected."
  else
    deposits ← foldR (parseDepositSlot normalizedData) [] (seqZ 0 KAMINO_OBLIGATION_DEPOSIT_SLOT_COUNT);
    lendingMarket ← readPublicKey normalizedData OBLIGATION_OFFSET_lendingMarket;
    owner ← readPublicKey normalizedData OBLIGATION_OFFSET_owner;
    Ok {| deposits := deposits; ob_lendingMarket := lendingMarket; ob_owner := owner |}.

Definition parseKaminoObligationDeposits (data : list Z) : result (list KaminoObligationDeposit) :=
  deposits <$> parseKaminoObligationAccount data.

Definition parseKaminoReserveSnapshot (data : list Z) : result KaminoReserveSnapshot :=
  normalizedData ← assertKaminoReserveAccountData data;
  let requiredLength := RESERVE_OFFSET_collateralMintTotalSupply + 8 in
  if Z.of_nat (length normalizedData) <? requiredLength then throwError "Kamino reserve account is smaller than expected."
  else
    liquidityAvailableAmount ← readUint64LE normalizedData RESERVE_OFFSET_liquidityAvailableAmount;
    liquidityBorrowedAmountSf ← readUint128LE normalizedData RESERVE_OFFSET_liquidityBorrowedAmountSf;
    liquidityAccumulatedProtocolFeesSf ← readUint128LE normalizedData RESERVE_OFFSET_liquidityAccumulatedProtocolFeesSf;
    liquidityAccumulatedReferrerFeesSf ← readUint128LE normalizedData RESERVE_OFFSET_liquidityAccumulatedReferrerFeesSf;
    liquidityPendingReferrerFeesSf ← readUint128LE normalizedData RESERVE_OFFSET_liquidityPendingReferrerFeesSf;
    collateralSupply ← readUint64LE normalizedData RESERVE_OFFSET_collateralMintTotalSupply;
    let grossLiquiditySupplyScaled := Z.shiftl liquidityAvailableAmount KAMINO_FRACTION_BITS + liquidityBorrowedAmountSf in
    let totalFeeAmountScaled :=
      liquidityAccumulatedProtocolFeesSf + liquidityAccumulatedReferrerFeesSf + liquidityPendingReferrerFeesSf in
    Ok {| collateralSupplyRaw := collateralSupply;
          totalLiquiditySupplyScaled :=
            if totalFeeAmountScaled <? grossLiquiditySupplyScaled then grossLiquiditySupplyScaled - totalFeeAmountScaled else 0 |}.

Definition parseKaminoObligationDepositedCollateralAmountRaw (data : list Z) (reserve : pubkey) : result Z :=
  deposits ← parseKaminoObligationDeposits data;
  Ok (default 0 (depositedAmountRaw <$> List.find (fun deposit => key_equals (dep_reserve deposit) reserve) deposits)).

(** The divisors are not zero after the guards. *)
Definition calculateKaminoRedeemableLiquidityAmountRaw (collateralAmountRaw : Z) (snapshot : KaminoReserveSnapshot) : Z :=
  if collateralAmountRaw <=? 0 then 0
  else if (collateralSupplyRaw snapshot =? 0) || (totalLiquiditySupplyScaled snapshot =? 0) then collateralAmountRaw
  else Z.quot (collateralAmountRaw * totalLiquiditySupplyScaled snapshot) (collateralSupplyRaw snapshot * KAMINO_FRACTION_SCALE).

Definition calculateKaminoCollateralAmountForRedeemableLiquidityRaw (liquidityAmountRaw : Z) (snapshot : KaminoReserveSnapshot) : Z :=
  if liquidityAmountRaw <=? 0 then 0
  else if (collateralSupplyRaw snapshot =? 0) || (totalLiquiditySupplyScaled snapshot =? 0) then liquidityAmountRaw
  else
    let numerator := liquidityAmountRaw * collateralSupplyRaw snapshot * KAMINO_FRACTION_SCALE in
    Z.quot (numerator + totalLiquiditySupplyScaled snapshot - 1) (totalLiquiditySupplyScaled snapshot).
End Kamino.

(** ** What the reads return *)
Definition slice (data : list Z) (offset n : nat) : list Z := take n (drop offset data).

Lemma slice_length data offset n : (offset + n <= length data)%nat -> length (slice data offset n) = n.
Proof. intros H. unfold slice. rewrite length_take, length_drop. lia. Qed.

Lemma slice_bytes data offset n : Forall is_byte data -> Forall is_byte (slice data offset n).
Proof. intros H. by apply Forall_take, Forall_drop. Qed.

Lemma slice_split data offset n : drop offset data = slice data offset n ++ drop (offset + n) data.
Proof. unfold slice. rewrite <- drop_drop. by rewrite take_drop. Qed.

Lemma slice_plus data offset n m : slice data offset (n + m) = slice data offset n ++ slice data (offset + n) m.
Proof. unfold slice. by rewrite <- drop_drop, take_take_drop. Qed.

Lemma startsWith_app data prefix : bufferStartsWith data prefix = true <-> take (length prefix) data = prefix.
Proof.
  unfold bufferStartsWith. revert data. induction prefix as [|b p IH]; intros data.
  - cbn. by split.
  - destruct data as [|d data]; [cbn; split; discriminate|]. specialize (IH data). rewrite imap_cons. cbn [length take forallb lookup list_lookup].
    change (S (length data) <? S (length p))%nat with (length data <? length p)%nat.
    destruct (length data <? length p)%nat eqn:E.
    + split; [discriminate|]. intros H. injection H as _ H. apply IH in H. discriminate.
    + rewrite andb_true_iff. unfold id at 1. rewrite Z.eqb_eq.
      change (imap ((fun index byte => match (d :: data) !! index with Some b0 => b0 =? byte | None => false end) ∘ S) p)
        with (imap (fun index byte => match data !! index with Some b0 => b0 =? byte | None => false end) p).
      rewrite IH. split; [by intros [-> ->]|]. intros H. by injection H.
Qed.

Lemma read64_ok data offset : 0 <= offset -> offset + 8 <= Z.of_nat (length data) ->
  readUint64LE data offset = Ok (le_value (slice data (Z.to_nat offset) 8)).
Proof.
  intros H0 H8. unfold readUint64LE. replace ((offset <? 0) || (Z.of_nat (length data) <? offset + 8)) with false by lia. f_equal.
  assert (Hl : forall i, 0 <= i < 8 -> data !! Z.to_nat (offset + i) = slice data (Z.to_nat offset) 8 !! Z.to_nat i).
  { intros i Hi. unfold slice. rewrite lookup_take_lt, lookup_drop by lia. f_equal. lia. }
  assert (Hn := slice_length data (Z.to_nat offset) 8 ltac:(lia)).
  cbn [fold_left]. rewrite !Hl by lia. destruct (slice data (Z.to_nat offset) 8) as [|a0 [|a1 [|a2 [|a3 [|a4 [|a5 [|a6 [|a7 [|]]]]]]]]]; try discriminate Hn.
  rewrite !Z.shiftl_mul_pow2 by lia.
  repeat match goal with |- context [Z.to_nat (Zpos ?p)] => let n := eval vm_compute in (Pos.to_nat p) in change (Z.to_nat (Zpos p)) with n end.
  change (Z.to_nat 0) with 0%nat. cbn [lookup list_lookup default from_option id le_value]. lia.
Qed.

Lemma read128_ok data offset : 0 <= offset -> offset + 16 <= Z.of_nat (length data) ->
  readUint128LE data offset = Ok (le_value (slice data (Z.to_nat offset) 16)).
Proof.
  intros H0 H8. unfold readUint128LE. rewrite !read64_ok by lia. cbn. f_equal. rewrite (slice_plus data _ 8 8), le_value_app, slice_length by lia.
  replace (Z.to_nat (offset + 8)) with (Z.to_nat offset + 8)%nat by lia. rewrite Z.shiftl_mul_pow2 by lia. lia.
Qed.

Section Layout.
Context {PK : PublicKeys} {KB : KeyBytes PK} {Laws : PublicKeyLaws PK} {KBL : KeyBytesLaws PK KB}.

Lemma keyOfBytes_toBytes k : keyOfBytes (toBytes k) = Ok k.
Proof.
  destruct (key_of_32 (toBytes k) (toBytes_length k) (toBytes_bytes k)) as (k' & -> & H). f_equal. by apply toBytes_inj.
Qed.

Lemma readKey_ok data offset : Forall is_byte data -> 0 <= offset -> offset + 32 <= Z.of_nat (length data) ->
  exists k, readPublicKey data offset = Ok k /\ toBytes k = slice data (Z.to_nat offset) 32.
Proof. intros Hb H0 H. apply key_of_32; [apply slice_length; lia|by apply slice_bytes]. Qed.

(** ** Obligations *)
(** A deposit slot: its reserve, the collateral deposited and 96 more bytes. *)
Definition Slot : Type := pubkey * Z * list Z.
Definition slot_ok (s : Slot) : Prop := 0 <= s.1.2 < 256 ^ 8 /\ length s.2 = 96%nat.
Definition slotBytes (s : Slot) : list Z := toBytes s.1.1 ++ le_bytes 8 s.1.2 ++ s.2.

Definition obligationBytes (head : list Z) (market owner : pubkey) (slots : list Slot) (tail : list Z) : list Z :=
  KAMINO_OBLIGATION_DISCRIMINATOR ++ head ++ toBytes market ++ toBytes owner ++ concat (map slotBytes slots) ++ tail.

(** The slots in use, in their order. *)
Definition liveSlot (i : nat) (s : Slot) : list KaminoObligationDeposit :=
  if key_equals s.1.1 defaultKey || (s.1.2 <=? 0) then []
  else [{| depositedAmountRaw := s.1.2; dep_reserve := s.1.1; slotIndex := Z.of_nat i |}].
Definition liveSlots (slots : list Slot) : list KaminoObligationDeposit := concat (imap liveSlot slots).

Definition is_slot (data : list Z) (i : nat) (s : Slot) : Prop :=
  slot_ok s /\ slotBytes s = slice data (96 + i * 136) 136.

Lemma slot_parsed data i acc : Forall is_byte data -> (i < 8)%nat -> (1184 <= length data)%nat ->
  exists s, is_slot data i s /\ parseDepositSlot data acc (Z.of_nat i) = Ok (acc ++ liveSlot i s).
Proof.
  intros Hb Hi Hl. unfold parseDepositSlot.
  set (o := OBLIGATION_OFFSET_deposits + Z.of_nat i * KAMINO_OBLIGATION_DEPOSIT_SIZE).
  assert (Ho : Z.to_nat o = (96 + i * 136)%nat) by (unfold o, OBLIGATION_OFFSET_deposits, KAMINO_OBLIGATION_DEPOSIT_SIZE; cbn; lia).
  destruct (readKey_ok data o Hb) as (k & Hk & Hkb); [unfold o; cbn; lia..|]. rewrite Hk. cbn [mbind result_bind].
  unfold KAMINO_OBLIGATION_DEPOSIT_DEPOSITED_AMOUNT_OFFSET. rewrite read64_ok by lia. cbn [mbind result_bind].
  set (a := le_value (slice data (Z.to_nat (o + 32)) 8)).
  assert (Ha8 : length (slice data (Z.to_nat (o + 32)) 8) = 8%nat) by (apply slice_length; lia).
  assert (Hab : Forall is_byte (slice data (Z.to_nat (o + 32)) 8)) by by apply slice_bytes.
  exists (k, a, slice data (96 + i * 136 + 40) 96). repeat split; cbn [fst snd].
  - apply le_value_bound in Hab. rewrite Ha8 in Hab. apply Hab.
  - apply le_value_bound in Hab. rewrite Ha8 in Hab. apply Hab.
  - apply slice_length. lia.
  - unfold slotBytes; cbn [fst snd]. unfold a. rewrite <- Ha8 at 1. rewrite le_bytes_value by done. rewrite Hkb, Ho.
    replace (Z.to_nat (o + 32)) with (96 + i * 136 + 32)%nat by lia. rewrite (slice_plus data _ 32 104), (slice_plus data _ 8 96).
    do 2 f_equal. f_equal. lia.
  - unfold liveSlot; cbn [fst snd]. unfold DEFAULT_PUBKEY. destruct (key_equals k defaultKey || (a <=? 0)); [by rewrite app_nil_r|done].
Qed.

Lemma slots_parsed data n : forall i acc, Forall is_byte data -> (i + n = 8)%nat -> (1184 <= length data)%nat ->
  exists slots, length slots = n /\ (forall j s, slots !! j = Some s -> is_slot data (i + j) s) /\
    foldR (parseDepositSlot data) acc (seqZ (Z.of_nat i) (Z.of_nat n)) = Ok (acc ++ concat (imap (fun j => liveSlot (i + j)) slots)).
Proof.
  induction n as [|n IH]; intros i acc Hb Hi Hl.
  - exists []. split; [done|split; [done|]]. cbn. by rewrite app_nil_r.
  - rewrite seqZ_cons by lia. destruct (slot_parsed data i acc) as (s & Hs & E); [done..|lia|done|].
    destruct (IH (S i) (acc ++ liveSlot i s)) as (slots & Hn & Hj & Hf); [done|lia|done|]. exists (s :: slots). split; [cbn; lia|]. split.
    + intros [|j] s' Hs'; [injection Hs' as <-; by rewrite Nat.add_0_r|]. replace (i + S j)%nat with (S i + j)%nat by lia. by apply Hj.
    + cbn [foldR]. rewrite E. cbn [mbind result_bind]. replace (Z.succ (Z.of_nat i)) with (Z.of_nat (S i)) by lia.
      replace (Z.pred (Z.of_nat (S n))) with (Z.of_nat n) by lia. rewrite Hf, imap_cons. cbn [concat]. rewrite Nat.add_0_r, <- app_assoc. do 3 f_equal.
      f_equal. apply imap_ext. intros j x _. cbn. f_equal. lia.
Qed.

Lemma slots_bytes data n : forall i slots, length slots = n -> (forall j s, slots !! j = Some s -> is_slot data (i + j) s) ->
  concat (map slotBytes slots) = slice data (96 + i * 136) (n * 136).
Proof.
  induction n as [|n IH]; intros i [|s slots] Hn Hj; try discriminate Hn; [done|]. injection Hn as Hn. cbn [map concat].
  rewrite (IH (S i)); [|done|]. 2: { intros j s' Hs'. replace (S i + j)%nat with (i + S j)%nat by lia. by apply Hj. }
  destruct (Hj 0%nat s eq_refl) as [_ Hs]. rewrite Nat.add_0_r in Hs. rewrite Hs. change (S n * 136)%nat with (136 + n * 136)%nat.
  rewrite slice_plus. do 2 f_equal. lia.
Qed.

(** An obligation account is accepted exactly when it has the program's discriminator and its 1184 bytes, and it is then
    read field by field: its market, its owner, and as deposits exactly the slots with a reserve and a positive amount, in order. *)
Theorem obligation_parse_exact (data : list Z) : Forall is_byte data ->
  match parseKaminoObligationAccount data with
  | Ok account => exists head slots tail,
      data = obligationBytes head (ob_lendingMarket account) (ob_owner account) slots tail /\
      length head = 24%nat /\ length slots = 8%nat /\ Forall slot_ok slots /\
      deposits account = liveSlots slots
  | Throw _ => take 8 data <> KAMINO_OBLIGATION_DISCRIMINATOR \/ (length data < 1184)%nat
  end.
Proof.
  intros Hb. unfold parseKaminoObligationAccount, assertKaminoObligationAccountData.
  destruct (bufferStartsWith data KAMINO_OBLIGATION_DISCRIMINATOR) eqn:Ed; cbn [mbind result_bind].
  2: { left. intros H. apply (startsWith_app data KAMINO_OBLIGATION_DISCRIMINATOR) in H. congruence. }
  apply startsWith_app in Ed. destruct (Z.ltb_spec (Z.of_nat (length data)) (KAMINO_OBLIGATION_DEPOSIT_OFFSET + KAMINO_OBLIGATION_DEPOSIT_SLOT_COUNT * KAMINO_OBLIGATION_DEPOSIT_SIZE)) as [Hl|Hl];
    change (KAMINO_OBLIGATION_DEPOSIT_OFFSET + KAMINO_OBLIGATION_DEPOSIT_SLOT_COUNT * KAMINO_OBLIGATION_DEPOSIT_SIZE) with 1184 in Hl; [right; lia|].
  destruct (slots_parsed data 8 0 []) as (slots & Hn & Hj & Hf); [done|lia..|].
  change (seqZ 0 KAMINO_OBLIGATION_DEPOSIT_SLOT_COUNT) with (seqZ (Z.of_nat 0) (Z.of_nat 8)). rewrite Hf. cbn [mbind result_bind].
  destruct (readKey_ok data OBLIGATION_OFFSET_lendingMarket Hb) as (m & -> & Hm); [done|change OBLIGATION_OFFSET_lendingMarket with 32; lia|].
  destruct (readKey_ok data OBLIGATION_OFFSET_owner Hb) as (o & -> & Ho); [done|change OBLIGATION_OFFSET_owner with 64; lia|]. cbn [mbind result_bind deposits ob_lendingMarket ob_owner].
  exists (slice data 8 24), slots, (drop 1184 data). split; [|split; [apply slice_length; lia|split; [done|split; [|done]]]].
  - unfold obligationBytes. rewrite Hm, Ho, (slots_bytes data 8 0 slots Hn Hj), <- Ed.
    change (Z.to_nat OBLIGATION_OFFSET_lendingMarket) with 32%nat. change (Z.to_nat OBLIGATION_OFFSET_owner) with 64%nat.
    change (96 + 0 * 136)%nat with 96%nat. change (8 * 136)%nat with 1088%nat. change (length KAMINO_OBLIGATION_DISCRIMINATOR) with 8%nat.
    etransitivity; [symmetry; apply (take_drop 8 data)|f_equal]. etransitivity; [apply (slice_split data 8 24)|f_equal].
    etransitivity; [apply (slice_split data 32 32)|f_equal]. etransitivity; [apply (slice_split data 64 32)|f_equal]. apply (slice_split data 96 1088).
  - apply Forall_forall. intros s Hs. apply list_elem_of_lookup in Hs as [j Hs']. by apply (Hj j).
Qed.
End Layout.

(** ** Collateral and liquidity *)
Definition snapshot_ok (s : KaminoReserveSnapshot) : Prop := 0 <= collateralSupplyRaw s /\ 0 <= totalLiquiditySupplyScaled s.

Lemma le_value_nonneg bs : Forall is_byte bs -> 0 <= le_value bs.
Proof. intros H. apply (le_value_bound bs H). Qed.

Lemma snapshot_nonneg data s : Forall is_byte data -> parseKaminoReserveSnapshot data = Ok s -> snapshot_ok s.
Proof.
  intros Hb. unfold parseKaminoReserveSnapshot, assertKaminoReserveAccountData. destruct (bufferStartsWith data KAMINO_RESERVE_DISCRIMINATOR); [|done].
  cbn [mbind result_bind]. destruct (Z.ltb_spec (Z.of_nat (length data)) (RESERVE_OFFSET_collateralMintTotalSupply + 8)) as [Hl|Hl]; [done|].
  change (RESERVE_OFFSET_collateralMintTotalSupply + 8) with 2600 in Hl.
  rewrite !read64_ok, !read128_ok 
    by (unfold RESERVE_OFFSET_liquidityAvailableAmount, RESERVE_OFFSET_liquidityBorrowedAmountSf,
          RESERVE_OFFSET_liquidityAccumulatedProtocolFeesSf, RESERVE_OFFSET_liquidityAccumulatedReferrerFeesSf,
          RESERVE_OFFSET_liquidityPendingReferrerFeesSf, RESERVE_OFFSET_collateralMintTotalSupply,
          KAMINO_RESERVE_ACCOUNT_DISCRIMINATOR_OFFSET; lia). cbn [mbind result_bind]. intros [= <-]. split; cbn [collateralSupplyRaw totalLiquiditySupplyScaled].
  - by apply le_value_nonneg, slice_bytes.
  - case_match eqn:E; [|done]. apply Z.ltb_lt in E. lia.
Qed.

Lemma quot_ceil_le a b c : 0 <= a -> 0 < b -> 0 <= c -> (Z.quot (a + b - 1) b <= c <-> a <= c * b).
Proof.
  intros Ha Hb Hc. rewrite Z.quot_div_nonneg by lia. split; intros H.
  - destruct (Z.le_gt_cases a (c * b)); [done|]. assert (c + 1 <= (a + b - 1) / b) by (apply Z.div_le_lower_bound; lia). lia.
  - apply Z.lt_succ_r, Z.div_lt_upper_bound; lia.
Qed.

Lemma quot_floor_le a b l : 0 <= a -> 0 < b -> (l <= Z.quot a b <-> l * b <= a).
Proof.
  intros Ha Hb. rewrite Z.quot_div_nonneg by lia. split; intros H.
  - transitivity (a / b * b); [by apply Z.mul_le_mono_nonneg_r; lia|]. rewrite Z.mul_comm. by apply Z.mul_div_le.
  - apply Z.div_le_lower_bound; lia.
Qed.

(** C35. The collateral computed for an amount of liquidity is the least that redeems to at least that amount: it is below a
    collateral exactly when that collateral redeems to at least the amount, on every reserve account the parser accepts. *)
Theorem collateral_redeems (data : list Z) (snapshot : KaminoReserveSnapshot) (collateral liquidity : Z) :
  Forall is_byte data -> parseKaminoReserveSnapshot data = Ok snapshot -> 0 <= collateral ->
  (calculateKaminoCollateralAmountForRedeemableLiquidityRaw liquidity snapshot <= collateral <->
   liquidity <= calculateKaminoRedeemableLiquidityAmountRaw collateral snapshot).
Proof.
  intros Hb Hs Hc. apply snapshot_nonneg in Hs as [Hcs Ht]; [|done].
  unfold calculateKaminoCollateralAmountForRedeemableLiquidityRaw, calculateKaminoRedeemableLiquidityAmountRaw.
  set (S := collateralSupplyRaw snapshot) in *. set (T := totalLiquiditySupplyScaled snapshot) in *.
  assert (HK : 0 < KAMINO_FRACTION_SCALE) by done. set (K := KAMINO_FRACTION_SCALE) in *.
  destruct (Z.eqb_spec S 0); [|destruct (Z.eqb_spec T 0)]; cbn [orb].
  1,2: destruct (Z.leb_spec liquidity 0), (Z.leb_spec collateral 0); lia.
  assert (0 < S * K) by nia. destruct (Z.leb_spec liquidity 0), (Z.leb_spec collateral 0).
  - lia.
  - split; [|lia]. intros _. apply quot_floor_le; [|done|]; nia.
  - rewrite quot_ceil_le by nia. nia.
  - rewrite quot_ceil_le, quot_floor_le by nia. lia.
Qed.

Module KaminoWitness.
Import DemoKeys.

#[export] Instance demo_key_bytes : KeyBytes demo_keys := fun bs =>
  match mk bs with Some k => Ok k | None => throwError "Invalid public key input" end.

#[export] Instance demo_key_bytes_laws : KeyBytesLaws demo_keys demo_key_bytes.
Proof.
  intros bs Hl Hb. assert (H : bytes_ok bs = true).
  { unfold bytes_ok. rewrite Hl. apply forallb_forall. intros b Hi. apply list_elem_of_In in Hi.
    rewrite Forall_forall in Hb. specialize (Hb b Hi). unfold is_byte in Hb. unfold byte_ok. lia. }
  destruct (mk_ok bs H) as (k & Hk & Hkb). exists k. unfold keyOfBytes, demo_key_bytes. by rewrite Hk.
Qed.

Lemma bytes_checked l : forallb byte_ok l = true -> Forall is_byte l.
Proof.
  intros H. apply Forall_forall. intros b Hb. rewrite forallb_forall in H. apply list_elem_of_In in Hb. specialize (H b Hb).
  unfold byte_ok in H. unfold is_byte. lia.
Qed.

Definition reserveA : @pubkey demo_keys := key_of 7.
Definition lendMarket : @pubkey demo_keys := key_of 1.
Definition earnVault : @pubkey demo_keys := key_of 2.
Definition freeSlot : Slot := (zero_key, 0, replicate 96 0).
Definition obligation_data : list Z :=
  obligationBytes (replicate 24 0) lendMarket earnVault ([freeSlot; (reserveA, 500, replicate 96 1)] ++ replicate 6 freeSlot) [].

Example obligation_read :
  (fun a => (map slotIndex (deposits a), map depositedAmountRaw (deposits a), map dep_reserve (deposits a))) <$> parseKaminoObligationAccount obligation_data =
  Ok ([1], [500], [reserveA]).
Proof. vm_compute. done. Qed.

Lemma obligation_parse_exact_witness :
  match parseKaminoObligationAccount obligation_data with
  | Ok account => exists head slots tail,
      obligation_data = obligationBytes head (ob_lendingMarket account) (ob_owner account) slots tail /\
      length head = 24%nat /\ length slots = 8%nat /\ Forall slot_ok slots /\ deposits account = liveSlots slots
  | Throw _ => take 8 obligation_data <> KAMINO_OBLIGATION_DISCRIMINATOR \/ (length obligation_data < 1184)%nat
  end.
Proof. apply (obligation_parse_exact obligation_data). apply bytes_checked. vm_compute. reflexivity. Defined.

(** A reserve with 1000 of collateral for liquidity of 1500 and no fees. *)
Definition reserve_data : list Z :=
  KAMINO_RESERVE_DISCRIMINATOR ++ replicate 24 0 ++ toBytes lendMarket ++ replicate 160 0 ++ le_bytes 8 1500 ++ replicate 2360 0 ++ le_bytes 8 1000 ++ replicate 32 0.
Definition reserve_snapshot : KaminoReserveSnapshot := {| collateralSupplyRaw := 1000; totalLiquiditySupplyScaled := 1500 * 2 ^ 60 |}.

Lemma collateral_redeems_witness :
  calculateKaminoCollateralAmountForRedeemableLiquidityRaw 100 reserve_snapshot <= 67 <->
  100 <= calculateKaminoRedeemableLiquidityAmountRaw 67 reserve_snapshot.
Proof.
  apply (collateral_redeems reserve_data reserve_snapshot 67 100); [apply bytes_checked; vm_compute; reflexivity|vm_compute; reflexivity|lia].
Defined.
End KaminoWitness.
