(* ===== verification/Holdings.v ===== *)
(** What the Earn vault holds, read from the chain (web/packages/smart-account-vaults/src/earn): the product assets
    (product-mints.ts), the names shown for a position (position-display.ts), and the snapshot of holdings
    (rpc-holdings.ts): the token accounts of the vault and its Kamino obligations are read first, then the reserves of the
    deposits they list.

    An answer of [getMultipleAccountsInfoAndContext] is a slot and the accounts at that slot; the answers are an argument,
    a function of the number of the call. Slots are integers that print as decimal numbers. [AccountLayout.decode] and
    the associated token address for a token program are parameters. *)
From S2P Require Import Prelude JsString JsMap Solana Bytes Subscriptions Protocols Registry Voltr Pda Kamino.

(** [getAssociatedTokenAddressSync(mint, owner, allowOwnerOffCurve, programId)] and [AccountLayout.decode] *)
Class TokenLayouts (PK : PublicKeys) := {
  associatedTokenAddress : pubkey -> pubkey -> bool -> pubkey -> result pubkey;
  (** [TOKEN_PROGRAM_ID] and [TOKEN_2022_PROGRAM_ID] *)
  splTokenProgram : pubkey;
  splToken2022Program : pubkey;
  decodeTokenAccount : list Z -> result TokenAccount;
}.

(** A loop that appends what each round returns *)
Definition flatMapR {A C} (f : A -> result (list C)) (l : list A) : result (list C) :=
  parts ← mapR f l;
  Ok (concat parts).

(** ** product-mints.ts *)
Section Products.
Context {PK : PublicKeys}.

Definition EARN_PRODUCT_STABLECOINS : list Stablecoin := [CASH; USDG; PYUSD; USDC; USDT; USDS].

(** [decimals] is 6 and [symbol] is the stablecoin. *)
Record EarnProductAsset := { pa_mint : pubkey; pa_stablecoin : Stablecoin; pa_tokenProgramId : pubkey }.

Definition EARN_PRODUCT_DECIMALS := 6.
Definition pa_symbol (asset : EarnProductAsset) : string := Stablecoin_value (pa_stablecoin asset).

Definition productAsset (cluster : LoyalCluster) (stablecoin : Stablecoin) : result EarnProductAsset :=
  mint ← getStablecoinMintForCluster cluster stablecoin;
  tokenProgramId ← getStablecoinTokenProgramForCluster cluster stablecoin;
  Ok {| pa_mint := mint; pa_stablecoin := stablecoin; pa_tokenProgramId := tokenProgramId |}.

Definition getEarnProductAssetsForCluster (cluster : LoyalCluster) : result (list EarnProductAsset) :=
  let clusterStablecoins := getStablecoinsForCluster cluster in
  mapR (productAsset cluster) (List.filter (fun stablecoin => bool_decide (stablecoin ∈ clusterStablecoins)) EARN_PRODUCT_STABLECOINS).

(** The mint as text or as a key *)
Definition resolveEarnProductAsset (cluster : LoyalCluster) (mint : string + pubkey) : result EarnProductAsset :=
  mint ← match mint with inl text => newPublicKey text | inr key => Ok key end;
  assets ← getEarnProductAssetsForCluster cluster;
  match List.find (fun candidate => key_equals (pa_mint candidate) mint) assets with
  | Some asset => Ok asset
  | None => throwError "mint is not a supported Earn product mint."
  end.

Definition buildEarnDepositIntent (amountRaw : Z) (mint : pubkey) : result (string * string) :=
  if amountRaw <=? 0 then throwError "amountRaw must be greater than 0."
  else Ok (bigint_toString amountRaw, toBase58 mint).

(** ** position-display.ts *)
(** [new Map(entries)]: a later entry replaces an earlier one in its place. *)
Definition mapOf (entries : list (string * string)) : list (string * string) := fold_left (fun m e => mapSet m e.1 e.2) entries [].

Definition KNOWN_MARKET_NAMES : list (string * string) :=
  mapOf (map (fun p : pubkey * string => (toBase58 p.1, p.2))
    [ (KAMINO_MAIN_MARKET, "Main Kamino"); (KAMINO_DEVNET_MAIN_MARKET, "Main Kamino"); (KAMINO_FIGURE_MARKET, "Prime Market");
      (KAMINO_MAPLE_MARKET, "Maple Market"); (KAMINO_ONRE_MARKET, "OnRe Market"); (KAMINO_ETHENA_MARKET, "Ethena Market");
      (KAMINO_JLP_MARKET, "JLP Market"); (KAMINO_BITCOIN_MARKET, "Bitcoin Market");
      (KAMINO_SUPERSTATE_OPENING_BELL_MARKET, "Superstate Market"); (KAMINO_HUMA_MARKET, "Huma Market");
      (KAMINO_SOLSTICE_MARKET, "Solstice Market") ]%string).

(** [name.replace(/\s+Market$/, "")]: on the reversed characters *)
Definition dropMarketSuffix (name : string) : string :=
  let reversed := rev (chars name) in
  let suffix := rev (chars "Market"%string) in
  if bool_decide (take (length suffix) reversed = suffix) then
    match drop (length suffix) reversed with
    | c :: rest => if is_space c then unchars (rev (drop_spaces rest)) else name
    | [] => name
    end
  else name.

Definition COMPACT_MARKET_NAMES : list (string * string) := mapOf (map (fun p => (p.1, dropMarketSuffix p.2)) KNOWN_MARKET_NAMES).

Definition KNOWN_MINT_SYMBOLS : list (string * string) :=
  let assetEntries cluster :=
    match getEarnProductAssetsForCluster cluster with
    | Ok assets => map (fun asset => (toBase58 (pa_mint asset), pa_symbol asset)) assets
    | Throw _ => []
    end in
  mapOf
    (assetEntries MainnetBeta ++ assetEntries Devnet ++ [(toBase58 (STABLECOIN_MINTS USDC), "USDC"%string)] ++
     match STABLECOIN_MINTS_BY_CLUSTER Devnet USDC with Some mint => [(toBase58 mint, "USDC"%string)] | None => [] end).

Definition shortenAddress (address : string) : string :=
  let l := chars address in
  if (length l <=? 10)%nat then address
  else unchars (take 4 l) +:+ "..." +:+ unchars (drop (length l - 4) l).

Record EarnPositionDisplay := { display_label : string; display_marketName : string; mintSymbol : string }.

(** The separator is a middle dot between spaces. *)
Definition MIDDLE_DOT : string := String " "%char (String "183"%char (String " "%char EmptyString)).

Definition resolveEarnPositionDisplay (liquidityMint : string) (market : option string) : EarnPositionDisplay :=
  let marketName :=
    match market with
    | Some m => if String.eqb m EmptyString then "Unknown Market"%string else default (shortenAddress m) (mapGet KNOWN_MARKET_NAMES m)
    | None => "Unknown Market"%string
    end in
  let mintSymbol := default (shortenAddress liquidityMint) (mapGet KNOWN_MINT_SYMBOLS liquidityMint) in
  {| display_label := marketName +:+ MIDDLE_DOT +:+ mintSymbol; display_marketName := marketName; mintSymbol := mintSymbol |}.

(** A text that is present and not empty *)
Definition truthy (o : option string) : option string :=
  match o with Some s => if String.eqb s EmptyString then None else Some s | None => None end.

Definition resolveEarnTransactionMarketLabel (liquidityMint market reserve : option string) : string :=
  match truthy market with
  | Some m => default (shortenAddress m) (mapGet COMPACT_MARKET_NAMES m)
  | None =>
      match truthy reserve with
      | Some r => shortenAddress r
      | None =>
          match truthy liquidityMint with
          | Some mint => default (shortenAddress mint) (mapGet KNOWN_MINT_SYMBOLS mint)
          | None => "position"%string
          end
      end
  end.
End Products.

(** ** rpc-holdings.ts *)
Definition GET_MULTIPLE_ACCOUNTS_LIMIT := 100%nat.
Definition SOURCE_COMMITMENT : string := "confirmed".
Definition EARN_VAULT_INDEX := 1.

(** The fields of the metadata that are read; the others are labels. *)
Record EarnRpcPolicyMetadata := {
  kaminoLiquidityMints : option (list string);
  kaminoMarkets : option (list string);
  stableMints : option (list string);
  vaultIndex : Z;
}.

Inductive HoldingKind := Idle | KaminoHolding.

Record EarnRpcHolding := {
  amountRaw : string;
  h_kind : HoldingKind;
  h_label : string;
  h_liquidityMint : string;
  h_market : option string;
  marketName : string;
  h_observedAt : string;
  h_observedSlot : string;
  h_provenance : list (string * option string);
  h_reserve : option string;
  sourceId : string;
  supplyApyBps : option string;
  h_tokenProgramId : string;
}.

Inductive WatchedKind := WatchedIdle | WatchedObligation | WatchedReserve.
Definition WatchedKind_value (k : WatchedKind) : string :=
  match k with WatchedIdle => "idle" | WatchedObligation => "obligation" | WatchedReserve => "reserve" end.

Record EarnRpcWatchedAccount := { w_kind : WatchedKind; w_pubkey : string }.

Record EarnRpcHoldingsSnapshot := {
  currentTotalAmountRaw : string;
  currentTotalNominalUsdMicros : string;
  holdings : list EarnRpcHolding;
  observedAt : string;
  snapshotSlot : string;
  accountCount : nat;
  chunkCount : nat;
  watchedAccounts : list EarnRpcWatchedAccount;
}.

(** [BigInt(text)] that throws is skipped. *)
Definition sumEarnRpcHoldingsAmountRaw (amounts : list string) : Z :=
  fold_left (fun sum amount => match BigInt_of_string amount with Ok z => sum + z | Throw _ => sum end) amounts 0.

Section Holdings.
Context {PK : PublicKeys} {KB : KeyBytes PK} {B : BeetUints} {TL : TokenLayouts PK}.

(** What an answer of the RPC shows. *)
Record RpcAnswer := { context_slot : Z; accountAt : pubkey -> option AccountInfo }.

(** The answers: by number of the call, with [minContextSlot] and the keys asked for *)
Definition AccountReader : Type := nat -> option Z -> list pubkey -> result RpcAnswer.

Record BatchedAccountRead := {
  br_accountCount : nat;
  br_chunkCount : nat;
  maxObservedSlot : Z;
  values : list (option AccountInfo);
}.

Inductive AccountRole :=
  | ReserveRole (pubkey : pubkey) (sourceIndex : nat)
  | ObligationRole (market pubkey : pubkey)
  | IdleRole (asset : EarnProductAsset) (pubkey : pubkey).

Definition rolePubkey (role : AccountRole) : pubkey :=
  match role with ReserveRole k _ | ObligationRole _ k | IdleRole _ k => k end.
Definition roleKind (role : AccountRole) : WatchedKind :=
  match role with ReserveRole _ _ => WatchedReserve | ObligationRole _ _ => WatchedObligation | IdleRole _ _ => WatchedIdle end.

Record DiscoveredReserveDeposit := {
  collateralAmountRaw : Z;
  dd_market : pubkey;
  dd_obligation : pubkey;
  dd_reserve : pubkey;
  dd_slotIndex : Z;
}.

Record ReconciledReserveCandidate := {
  rc_deposit : DiscoveredReserveDeposit;
  rc_asset : EarnProductAsset;
  rc_liquidityMint : pubkey;
  reserveAccount : AccountInfo;
  rc_reserveCollateralMint : pubkey;
}.

Definition deriveEarnVaultPda (programId settingsPda : pubkey) : result pubkey :=
  getSmartAccountPda settingsPda EARN_VAULT_INDEX programId.

Definition assertPolicyUniverse (cluster : LoyalCluster) (policy : option EarnRpcPolicyMetadata) :
    result (list string * list EarnProductAsset) :=
  match policy with
  | None => throwError "Active Earn policy metadata is required for RPC holdings."
  | Some metadata =>
      if negb (vaultIndex metadata =? EARN_VAULT_INDEX) then throwError "Active Earn policy is not for the Earn vault."
      else
        let policyStableMints := default [] (stableMints metadata) in
        let policyKaminoLiquidityMints := default [] (kaminoLiquidityMints metadata) in
        products ← getEarnProductAssetsForCluster cluster;
        let assets := List.filter (fun asset =>
          let mint := toBase58 (pa_mint asset) in member mint policyStableMints && member mint policyKaminoLiquidityMints) products in
        if (length assets =? 0)%nat then throwError "Active Earn policy includes no supported product mint."
        else
          let safeMarkets := map toBase58 (getRiskBasketMarketsForCluster cluster Safe) in
          let allowedMarkets := unique (List.filter (fun market => member market safeMarkets) (default [] (kaminoMarkets metadata))) in
          if (length allowedMarkets =? 0)%nat then throwError "Active Earn policy has no Safe Kamino markets."
          else Ok (allowedMarkets, assets)
  end.

(** One round of the loop: the chunk at [index] *)
Definition readChunk (reader : AccountReader) (firstCall : nat) (minContextSlot : option Z) (pubkeys : list pubkey)
    (read : BatchedAccountRead) (index : nat) : result BatchedAccountRead :=
  let chunk := take GET_MULTIPLE_ACCOUNTS_LIMIT (drop (index * GET_MULTIPLE_ACCOUNTS_LIMIT) pubkeys) in
  answer ← reader (firstCall + index)%nat minContextSlot chunk;
  Ok {| br_accountCount := br_accountCount read;
        br_chunkCount := S (br_chunkCount read);
        maxObservedSlot := Z.max (maxObservedSlot read) (context_slot answer);
        values := values read ++ map (accountAt answer) chunk |}.

(** The rounds [index * 100 < length pubkeys] *)
Definition readAccountsInChunks (reader : AccountReader) (firstCall : nat) (minContextSlot : option Z) (pubkeys : list pubkey) :
    result BatchedAccountRead :=
  foldR (readChunk reader firstCall minContextSlot pubkeys)
    {| br_accountCount := length pubkeys; br_chunkCount := 0; maxObservedSlot := 0; values := [] |}
    (seq 0 ((length pubkeys + (GET_MULTIPLE_ACCOUNTS_LIMIT - 1)) / GET_MULTIPLE_ACCOUNTS_LIMIT)).

Definition validateTokenAccountAmount (account : option AccountInfo) (accountLabel : string)
    (expectedMint expectedOwner tokenProgramId : pubkey) : result Z :=
  match account with
  | None => Ok 0
  | Some account =>
      if negb (key_equals (info_owner account) tokenProgramId) then throwError (accountLabel +:+ " is not owned by the token program.")
      else
        decoded ← decodeTokenAccount (info_data account);
        if negb (key_equals (ta_mint decoded) expectedMint) then throwError (accountLabel +:+ " has an unexpected mint.")
        else if negb (key_equals (ta_owner decoded) expectedOwner) then throwError (accountLabel +:+ " is not owned by the Earn vault.")
        else Ok (ta_amount decoded)
  end.

Definition validateReserveAccount (account : option AccountInfo) (lendProgramId : pubkey) : result (option AccountInfo) :=
  match account with
  | None => Ok None
  | Some account =>
      if negb (key_equals (info_owner account) lendProgramId) then throwError "Kamino reserve account has an unexpected owner."
      else
        _ ← parseKaminoReserveTokenAccounts (info_data account);
        _ ← parseKaminoReserveSnapshot (info_data account);
        Ok (Some account)
  end.

Definition validateObligationAccount (account : option AccountInfo) (lendProgramId : pubkey) : result (option AccountInfo) :=
  match account with
  | None => Ok None
  | Some account =>
      if negb (key_equals (info_owner account) lendProgramId) then throwError "Kamino obligation account has an unexpected owner."
      else Ok (Some account)
  end.

Definition watchStep (state : list string * list EarnRpcWatchedAccount) (role : AccountRole) : list string * list EarnRpcWatchedAccount :=
  let '(seen, accounts) := state in
  let pubkey := toBase58 (rolePubkey role) in
  let key := WatchedKind_value (roleKind role) +:+ ":" +:+ pubkey in
  if member key seen then (seen, accounts)
  else (seen ++ [key], accounts ++ [{| w_kind := roleKind role; w_pubkey := pubkey |}]).
Definition toWatchedAccounts (roles : list AccountRole) : list EarnRpcWatchedAccount := (fold_left watchStep roles ([], [])).2.

Definition toKaminoHolding (amount : Z) (candidate : ReconciledReserveCandidate) (sourceSlot : Z) (observedAt observedSlot : string) :
    option EarnRpcHolding :=
  if amount <=? 0 then None
  else
    let d := rc_deposit candidate in
    let liquidityMint := toBase58 (rc_liquidityMint candidate) in
    let market := toBase58 (dd_market d) in
    let reserve := toBase58 (dd_reserve d) in
    let display := resolveEarnPositionDisplay liquidityMint (Some market) in
    Some {| amountRaw := bigint_toString amount; h_kind := KaminoHolding; h_label := display_label display;
            h_liquidityMint := liquidityMint; h_market := Some market; marketName := display_marketName display;
            h_observedAt := observedAt; h_observedSlot := observedSlot;
            h_provenance :=
              [ ("amountSemantics", Some "kamino_redeemable_liquidity"); ("obligation", Some (toBase58 (dd_obligation d)));
                ("obligationCollateralAmountRaw", Some (bigint_toString (collateralAmountRaw d)));
                ("reserveCollateralMint", Some (toBase58 (rc_reserveCollateralMint candidate)));
                ("slotIndex", Some (bigint_toString (dd_slotIndex d))); ("source", Some "rpc_getMultipleAccounts");
                ("sourceCommitment", Some SOURCE_COMMITMENT); ("sourceSlot", Some (bigint_toString sourceSlot)) ]%string;
            h_reserve := Some reserve; sourceId := "reserve:" +:+ reserve; supplyApyBps := None;
            h_tokenProgramId := toBase58 (pa_tokenProgramId (rc_asset candidate)) |}.

Definition toIdleHolding (amount : Z) (observedAt observedSlot : string) (sourceSlot : Z) (asset : EarnProductAsset)
    (vaultPda vaultUsdcAta : pubkey) : EarnRpcHolding := {|
  amountRaw := bigint_toString amount; h_kind := Idle; h_label := "Idle Balance"; h_liquidityMint := toBase58 (pa_mint asset);
  h_market := None; marketName := pa_symbol asset; h_observedAt := observedAt; h_observedSlot := observedSlot;
  h_provenance :=
    [ ("owner", Some (toBase58 vaultPda)); ("source", Some "rpc_getMultipleAccounts"); ("sourceCommitment", Some SOURCE_COMMITMENT);
      ("sourceSlot", Some (bigint_toString sourceSlot)); ("tokenAccount", Some (toBase58 vaultUsdcAta)) ]%string;
  h_reserve := None; sourceId := "idle:" +:+ toBase58 vaultUsdcAta; supplyApyBps := None;
  h_tokenProgramId := toBase58 (pa_tokenProgramId asset) |}.

(** The roles of the first read: token accounts, then obligations *)
Definition idleRole (vaultPda : pubkey) (asset : EarnProductAsset) : result AccountRole :=
  ata ← associatedTokenAddress (pa_mint asset) vaultPda true (pa_tokenProgramId asset);
  Ok (IdleRole asset ata).
Definition obligationRole (vaultPda lendProgramId market : pubkey) : result AccountRole :=
  obligation ← deriveKaminoVanillaObligation vaultPda market lendProgramId;
  Ok (ObligationRole market obligation).

(** The loop over the obligations, for one role with its account *)
Definition discoverDeposits (vaultPda lendProgramId : pubkey) (p : AccountRole * option AccountInfo) :
    result (list DiscoveredReserveDeposit) :=
  match p.1 with
  | ObligationRole market obligation =>
      obligationAccount ← validateObligationAccount p.2 lendProgramId;
      match obligationAccount with
      | None => Ok []
      | Some account =>
          parsedObligation ← parseKaminoObligationAccount (info_data account);
          if negb (key_equals (ob_owner parsedObligation) vaultPda) then throwError "Kamino obligation owner is not the Earn vault."
          else if negb (key_equals (ob_lendingMarket parsedObligation) market) then throwError "Kamino obligation lending market mismatch."
          else Ok (map (fun deposit => {|
                     collateralAmountRaw := depositedAmountRaw deposit; dd_market := ob_lendingMarket parsedObligation;
                     dd_obligation := obligation; dd_reserve := dep_reserve deposit; dd_slotIndex := slotIndex deposit |})
                     (deposits parsedObligation))
      end
  | _ => Ok []
  end.

(** The loop over the deposits, for one deposit with the account of its reserve *)
Definition reconcileDeposit (allowedMarkets : list string) (assets : list EarnProductAsset) (lendProgramId : pubkey)
    (requireCompleteReserveReads : bool) (p : DiscoveredReserveDeposit * option AccountInfo) : result (list ReconciledReserveCandidate) :=
  let discovered := p.1 in
  if negb (member (toBase58 (dd_market discovered)) allowedMarkets) then throwError "Kamino obligation deposit is outside the Safe policy."
  else
    reserveAccount ← validateReserveAccount p.2 lendProgramId;
    match reserveAccount with
    | None =>
        if requireCompleteReserveReads && (0 <? collateralAmountRaw discovered)
        then throwError "Kamino reserve account is unavailable for a positive Earn obligation."
        else Ok []
    | Some reserveAccount =>
        reserveAccounts ← parseKaminoReserveTokenAccounts (info_data reserveAccount);
        if negb (key_equals (lendingMarket reserveAccounts) (dd_market discovered)) then throwError "Kamino reserve lending market mismatch."
        else
          match List.find (fun asset => key_equals (pa_mint asset) (reserveLiquidityMint reserveAccounts)) assets with
          | None => throwError "Kamino reserve liquidity mint is outside the policy."
          | Some reserveAsset =>
              if negb (key_equals (reserveLiquidityTokenProgram reserveAccounts) (pa_tokenProgramId reserveAsset))
              then throwError "Kamino reserve liquidity token program mismatch."
              else Ok [{| rc_deposit := discovered; rc_asset := reserveAsset; rc_liquidityMint := reserveLiquidityMint reserveAccounts;
                          reserveAccount := reserveAccount; rc_reserveCollateralMint := reserveCollateralMint reserveAccounts |}]
          end
    end.

Definition kaminoHoldings (sourceSlot : Z) (observedAt observedSlot : string) (candidate : ReconciledReserveCandidate) : result (list EarnRpcHolding) :=
  snapshot ← parseKaminoReserveSnapshot (info_data (reserveAccount candidate));
  let amount := calculateKaminoRedeemableLiquidityAmountRaw (collateralAmountRaw (rc_deposit candidate)) snapshot in
  Ok match toKaminoHolding amount candidate sourceSlot observedAt observedSlot with Some holding => [holding] | None => [] end.

Definition idleHoldings (vaultPda : pubkey) (sourceSlot : Z) (observedAt observedSlot : string) (p : AccountRole * option AccountInfo) :
    result (list EarnRpcHolding) :=
  match p.1 with
  | IdleRole asset ata =>
      amount ← validateTokenAccountAmount p.2 ("Earn vault " +:+ pa_symbol asset +:+ " ATA") (pa_mint asset) vaultPda (pa_tokenProgramId asset);
      Ok [toIdleHolding amount observedAt observedSlot sourceSlot asset vaultPda ata]
  | _ => Ok []
  end.

(** Each role or deposit with the value read at its index; a missing value is null. *)
Definition withValues {A} (l : list A) (vs : list (option AccountInfo)) : list (A * option AccountInfo) :=
  imap (fun i x => (x, default None (vs !! i))) l.

Definition fetchEarnRpcHoldingsSnapshot (cluster : LoyalCluster) (reader : AccountReader) (minContextSlot : option Z)
    (policy : option EarnRpcPolicyMetadata) (programId : pubkey) (requireCompleteReserveReads : bool) (settingsPda : pubkey)
    (now : string) : result EarnRpcHoldingsSnapshot :=
  '(allowedMarkets, assets) ← assertPolicyUniverse cluster policy;
  target ← getKaminoUsdcEarnTargetForCluster cluster;
  let lendProgramId := lendProgramId target in
  vaultPda ← deriveEarnVaultPda programId settingsPda;
  safeMarkets ← mapR newPublicKey allowedMarkets;
  idleRoles ← mapR (idleRole vaultPda) assets;
  obligationRoles ← mapR (obligationRole vaultPda lendProgramId) safeMarkets;
  let firstStageRoles := idleRoles ++ obligationRoles in
  firstStage ← readAccountsInChunks reader 0 minContextSlot (map rolePubkey firstStageRoles);
  let firstStageAccounts := withValues firstStageRoles (values firstStage) in
  discoveredDeposits ← flatMapR (discoverDeposits vaultPda lendProgramId) firstStageAccounts;
  let reserveRoles := imap (fun sourceIndex deposit => ReserveRole (dd_reserve deposit) sourceIndex) discoveredDeposits in
  reserveStage ←
    (if (0 <? length reserveRoles)%nat
     then readAccountsInChunks reader (br_chunkCount firstStage) minContextSlot (map rolePubkey reserveRoles)
     else Ok {| br_accountCount := 0; br_chunkCount := 0; maxObservedSlot := maxObservedSlot firstStage; values := [] |});
  reconciledCandidates ←
    flatMapR (reconcileDeposit allowedMarkets assets lendProgramId requireCompleteReserveReads)
                    (withValues discoveredDeposits (values reserveStage));
  let observedSlotNumber := Z.max (maxObservedSlot firstStage) (maxObservedSlot reserveStage) in
  let observedSlot := bigint_toString observedSlotNumber in
  kamino ← flatMapR (kaminoHoldings observedSlotNumber now observedSlot) reconciledCandidates;
  idle ← flatMapR (idleHoldings vaultPda (maxObservedSlot firstStage) now observedSlot) firstStageAccounts;
  let holdings := kamino ++ idle in
  let total := bigint_toString (sumEarnRpcHoldingsAmountRaw (map amountRaw holdings)) in
  Ok {| currentTotalAmountRaw := total; currentTotalNominalUsdMicros := total; holdings := holdings; observedAt := now;
        snapshotSlot := observedSlot; accountCount := br_accountCount firstStage + br_accountCount reserveStage;
        chunkCount := br_chunkCount firstStage + br_chunkCount reserveStage;
        watchedAccounts := toWatchedAccounts (firstStageRoles ++ reserveRoles) |}.
End Holdings.

(** ** Loops and sums *)
Definition sumZ (l : list Z) : Z := fold_right Z.add 0 l.

Lemma sumZ_app l1 l2 : sumZ (l1 ++ l2) = sumZ l1 + sumZ l2.
Proof. induction l1 as [|x l IH]; [done|]. change (x + sumZ (l ++ l2) = x + sumZ l + sumZ l2). lia. Qed.

Lemma sumZ_cons x l : sumZ (x :: l) = x + sumZ l.
Proof. done. Qed.

Lemma flatMapR_Ok {A C} (f : A -> result (list C)) l r :
  flatMapR f l = Ok r <-> exists parts, Forall2 (fun x p => f x = Ok p) l parts /\ r = concat parts.
Proof.
  unfold flatMapR. rewrite bind_Ok. split.
  - intros (parts & H & [= <-]). exists parts. split; [by apply mapR_Ok_Forall2|done].
  - intros (parts & H & ->). exists parts. split; [by apply mapR_Ok_Forall2|done].
Qed.

Lemma flatMapR_app {A C} (f : A -> result (list C)) l1 l2 r :
  flatMapR f (l1 ++ l2) = Ok r <-> exists r1 r2, flatMapR f l1 = Ok r1 /\ flatMapR f l2 = Ok r2 /\ r = r1 ++ r2.
Proof.
  setoid_rewrite flatMapR_Ok. split.
  - intros (parts & H & ->). apply Forall2_app_inv_l in H as (p1 & p2 & H1 & H2 & ->). exists (concat p1), (concat p2).
    rewrite concat_app. naive_solver.
  - intros (r1 & r2 & (p1 & H1 & ->) & (p2 & H2 & ->) & ->). exists (p1 ++ p2). rewrite concat_app. split; [by apply Forall2_app|done].
Qed.

Lemma flatMapR_cons {A C} (f : A -> result (list C)) x l r :
  flatMapR f (x :: l) = Ok r <-> exists r1 r2, f x = Ok r1 /\ flatMapR f l = Ok r2 /\ r = r1 ++ r2.
Proof.
  change (x :: l) with ([x] ++ l). rewrite flatMapR_app. setoid_rewrite flatMapR_Ok at 1. split.
  - intros (r1 & r2 & (ps & H & ->) & H2 & ->). inversion H as [|? p ? ps' Hp Hr]; subst. inversion Hr; subst. exists p, r2.
    cbn. by rewrite app_nil_r.
  - intros (r1 & r2 & H & H2 & ->). exists r1, r2. split; [|done]. exists [r1]. split; [by constructor|]. cbn. by rewrite app_nil_r.
Qed.

(** Two loops in a row are one loop. *)
Lemma flatMapR_comp {A C D} (f : A -> result (list C)) (g : C -> result (list D)) l m r :
  flatMapR f l = Ok m -> flatMapR g m = Ok r -> flatMapR (fun x => y ← f x; flatMapR g y) l = Ok r.
Proof.
  revert m r. induction l as [|x l IH]; intros m r Hm Hr.
  - injection Hm as <-. by injection Hr as <-.
  - apply flatMapR_cons in Hm as (m1 & m2 & H1 & H2 & ->). apply flatMapR_app in Hr as (r1 & r2 & Hr1 & Hr2 & ->).
    apply flatMapR_cons. exists r1, r2. rewrite H1. cbn. split; [done|]. split; [|done]. by eapply IH.
Qed.

Lemma flatMapR_map {A A' C} (f : A -> result (list C)) (g : A' -> A) l : flatMapR f (map g l) = flatMapR (fun x => f (g x)) l.
Proof. unfold flatMapR. by rewrite mapR_map. Qed.

(** A quantity of the elements appended adds up over the rounds. *)
Lemma flatMapR_sum {A C} (f : A -> result (list C)) (w : C -> Z) (v : A -> Z) l r :
  (forall x p, x ∈ l -> f x = Ok p -> sumZ (map w p) = v x) -> flatMapR f l = Ok r -> sumZ (map w r) = sumZ (map v l).
Proof.
  revert r. induction l as [|x l IH]; intros r Hx H; [by injection H as <-|].
  apply flatMapR_cons in H as (r1 & r2 & H1 & H2 & ->). rewrite map_app, sumZ_app. cbn [map]. rewrite sumZ_cons.
  rewrite (Hx x r1) by (set_solver || done). rewrite (IH r2); [done| |done]. set_solver.
Qed.

Lemma flatMapR_total {A C} (f : A -> result (list C)) (g : A -> list C) l r :
  (forall x p, x ∈ l -> f x = Ok p -> p = g x) -> flatMapR f l = Ok r -> r = flat_map g l.
Proof.
  revert r. induction l as [|x l IH]; intros r Hx H; [by injection H as <-|].
  apply flatMapR_cons in H as (r1 & r2 & H1 & H2 & ->). cbn. rewrite (Hx x r1) by (set_solver || done). f_equal.
  apply IH; [|done]. set_solver.
Qed.

Lemma flatMapR_image {A C D} (f : A -> result (list C)) (w : C -> D) (v : A -> list D) l r :
  (forall x p, x ∈ l -> f x = Ok p -> map w p = v x) -> flatMapR f l = Ok r -> map w r = flat_map v l.
Proof.
  revert r. induction l as [|x l IH]; intros r Hx H; [by injection H as <-|].
  apply flatMapR_cons in H as (r1 & r2 & H1 & H2 & ->). rewrite map_app. cbn [flat_map].
  rewrite (Hx x r1) by (set_solver || done). rewrite (IH r2); [done| |done]. set_solver.
Qed.

Lemma flatMapR_elem {A C} (f : A -> result (list C)) l r x : flatMapR f l = Ok r -> x ∈ l -> exists p, f x = Ok p /\ p ⊆ r.
Proof.
  revert r. induction l as [|y l IH]; intros r H Hx; [set_solver|].
  apply flatMapR_cons in H as (r1 & r2 & H1 & H2 & ->). apply elem_of_cons in Hx as [->|Hx]; [set_solver|].
  destruct (IH r2 H2 Hx) as (p & Hp & Hs). set_solver.
Qed.

(** ** The two reads *)
Section Seen.
Context {PK : PublicKeys} {KB : KeyBytes PK} {B : BeetUints} {TL : TokenLayouts PK}.

Lemma one_chunk reader first min ks : (1 <= length ks <= 100)%nat ->
  readAccountsInChunks reader first min ks =
  (answer ← reader first min ks;
   Ok {| br_accountCount := length ks; br_chunkCount := 1; maxObservedSlot := Z.max 0 (context_slot answer); values := map (accountAt answer) ks |}).
Proof.
  intros H. unfold readAccountsInChunks, GET_MULTIPLE_ACCOUNTS_LIMIT.
  replace ((length ks + (100 - 1)) / 100)%nat with 1%nat by (apply (Nat.div_unique _ _ _ (length ks - 1)); lia).
  cbn [seq foldR]. unfold readChunk, GET_MULTIPLE_ACCOUNTS_LIMIT. cbn [Nat.mul]. rewrite drop_0, take_ge, Nat.add_0_r by lia.
  destruct (reader first min ks); [|done]. reflexivity.
Qed.

Lemma withValues_read {A} (l : list A) (g : A -> pubkey) (f : pubkey -> option AccountInfo) :
  withValues l (map f (map g l)) = map (fun x => (x, f (g x))) l.
Proof.
  apply list_eq. intros i. unfold withValues. rewrite list_lookup_imap, !list_lookup_fmap. by destruct (l !! i).
Qed.

Lemma mapR_length {A C} (f : A -> result C) l l' : mapR f l = Ok l' -> length l' = length l.
Proof. intros H. apply mapR_Ok_Forall2 in H. symmetry. by eapply Forall2_length. Qed.

Lemma products_length cluster assets : getEarnProductAssetsForCluster cluster = Ok assets -> (length assets <= 6)%nat.
Proof. intros H. apply mapR_length in H. rewrite H. apply (List.filter_length_le _ EARN_PRODUCT_STABLECOINS). Qed.

Lemma universe_bounds cluster metadata allowed assets : assertPolicyUniverse cluster metadata = Ok (allowed, assets) ->
  (1 <= length assets <= 6)%nat /\ (1 <= length allowed <= 5)%nat.
Proof.
  unfold assertPolicyUniverse. destruct metadata as [md|]; [|done]. destruct (vaultIndex md =? EARN_VAULT_INDEX); [|done]. cbn [negb].
  intros H. apply bind_Ok in H as (products & Hp & H). apply products_length in Hp.
  repeat case_match; try discriminate H. injection H as <- <-.
  match goal with H1 : (_ =? 0)%nat = false, H2 : (_ =? 0)%nat = false |- _ => apply Nat.eqb_neq in H1, H2 end.
  split; (split; [lia|]).
  - etransitivity; [apply List.filter_length_le|done].
  - set (l := unique _). assert (Hl : l ⊆+ map toBase58 (getRiskBasketMarketsForCluster cluster Safe)).
    { apply NoDup_submseteq; [apply unique_NoDup|]. intros m Hm. unfold l in Hm. apply (proj1 (unique_elem _ _)) in Hm.
      apply list_elem_of_In, filter_In in Hm as [_ Hm]. by apply member_spec. }
    apply submseteq_length in Hl. rewrite length_map in Hl. by destruct cluster; cbn in Hl; lia.
Qed.

Lemma deposit_count data account : parseKaminoObligationAccount data = Ok account -> (length (deposits account) <= 8)%nat.
Proof.
  unfold parseKaminoObligationAccount. intros H. apply bind_Ok in H as (d & _ & H). case_match; [done|].
  apply bind_Ok in H as (ds & Hf & H). apply bind_Ok in H as (m & _ & H). apply bind_Ok in H as (o & _ & [= <-]). cbn.
  assert (Hg : forall l acc r, foldR (parseDepositSlot d) acc l = Ok r -> (length r <= length acc + length l)%nat).
  { induction l as [|i l IH]; intros acc r Hr; [injection Hr as <-; lia|]. apply bind_Ok in Hr as (acc' & Ha & Hr). apply IH in Hr.
    unfold parseDepositSlot in Ha. apply bind_Ok in Ha as (k & _ & Ha). apply bind_Ok in Ha as (z & _ & Ha).
    case_match; injection Ha as <-; [|rewrite length_app in Hr; cbn in Hr]; cbn [length]; lia. }
  apply Hg in Hf. rewrite length_seqZ in Hf. change (Z.to_nat KAMINO_OBLIGATION_DEPOSIT_SLOT_COUNT) with 8%nat in Hf. cbn [length] in Hf. lia.
Qed.

Lemma discover_count vault lend p ds : discoverDeposits vault lend p = Ok ds -> (length ds <= 8)%nat.
Proof.
  unfold discoverDeposits. destruct p.1; [by intros [= <-]; cbn; lia| |by intros [= <-]; cbn; lia].
  intros H. apply bind_Ok in H as ([acc|] & _ & H); [|by injection H as <-; cbn; lia]. apply bind_Ok in H as (ob & Ho & H).
  repeat case_match; try done. injection H as <-. rewrite length_map. by eapply deposit_count.
Qed.

Lemma discover_total vault lend l ds : flatMapR (discoverDeposits vault lend) l = Ok ds -> (length ds <= 8 * length l)%nat.
Proof.
  revert ds. induction l as [|p l IH]; intros ds H; [by injection H as <-|].
  apply flatMapR_cons in H as (r1 & r2 & H1 & H2 & ->). apply discover_count in H1. apply IH in H2. rewrite length_app. cbn [length]. lia.
Qed.

(** ** What the two answers show *)
(** The deposits of an obligation, by its market and address *)
Definition heldDeposits (a : RpcAnswer) (mo : pubkey * pubkey) : list DiscoveredReserveDeposit :=
  match accountAt a mo.2 with
  | Some account =>
      match parseKaminoObligationAccount (info_data account) with
      | Ok parsed => map (fun deposit => {|
          collateralAmountRaw := depositedAmountRaw deposit; dd_market := mo.1; dd_obligation := mo.2;
          dd_reserve := dep_reserve deposit; dd_slotIndex := slotIndex deposit |}) (deposits parsed)
      | Throw _ => []
      end
  | None => []
  end.

(** The liquidity a deposit redeems to *)
Definition redeemableAt (a : RpcAnswer) (d : DiscoveredReserveDeposit) : Z :=
  match accountAt a (dd_reserve d) with
  | Some account =>
      match parseKaminoReserveSnapshot (info_data account) with
      | Ok snapshot => calculateKaminoRedeemableLiquidityAmountRaw (collateralAmountRaw d) snapshot
      | Throw _ => 0
      end
  | None => 0
  end.

Definition idleAt (a : RpcAnswer) (ata : pubkey) : Z :=
  match accountAt a ata with
  | Some account => match decodeTokenAccount (info_data account) with Ok decoded => ta_amount decoded | Throw _ => 0 end
  | None => 0
  end.

Definition amountOf (h : EarnRpcHolding) : Z := match BigInt_of_string (amountRaw h) with Ok z => z | Throw _ => 0 end.

Lemma sum_amounts hs : sumEarnRpcHoldingsAmountRaw (map amountRaw hs) = sumZ (map amountOf hs).
Proof.
  unfold sumEarnRpcHoldingsAmountRaw. enough (H : forall acc, fold_left (fun sum amount => match BigInt_of_string amount with Ok z => sum + z | Throw _ => sum end)
    (map amountRaw hs) acc = acc + sumZ (map amountOf hs)) by (rewrite H; lia).
  induction hs as [|h hs IH]; intros acc; cbn [map fold_left]; [cbn; lia|]. rewrite IH, sumZ_cons. unfold amountOf at 2. case_match; lia.
Qed.

Lemma key_equals_true a b : negb (key_equals a b) = false -> a = b.
Proof. unfold key_equals. intros H%negb_false_iff. by apply bool_decide_eq_true in H. Qed.

Lemma discover_held vault lend a role ds : discoverDeposits vault lend (role, accountAt a (rolePubkey role)) = Ok ds ->
  ds = match role with ObligationRole m o => heldDeposits a (m, o) | _ => [] end.
Proof.
  unfold discoverDeposits. destruct role as [|m o|]; cbn [fst snd rolePubkey]; [by intros [= <-]| |by intros [= <-]].
  unfold validateObligationAccount, heldDeposits. cbn [fst snd]. destruct (accountAt a o) as [account|]; [|by intros [= <-]].
  case_match; [done|]. cbn [mbind result_bind]. destruct (parseKaminoObligationAccount (info_data account)) as [parsed|]; [|done]. cbn [mbind result_bind].
  case_match; [done|]. case_match eqn:Em; [done|]. apply key_equals_true in Em. intros [= <-]. by rewrite Em.
Qed.

Lemma redeemable_nonneg c s : snapshot_ok s -> 0 <= calculateKaminoRedeemableLiquidityAmountRaw c s.
Proof.
  intros [Hc Ht]. unfold calculateKaminoRedeemableLiquidityAmountRaw. destruct (Z.leb_spec c 0); [done|]. case_match; [lia|].
  apply Z.quot_pos; [nia|]. assert (0 < KAMINO_FRACTION_SCALE) by done. nia.
Qed.

(** What is shown of a Kamino holding, and for a deposit *)
Definition shown (h : EarnRpcHolding) : option string * option string * string := (h_market h, h_reserve h, amountRaw h).
Definition shownDeposit (a : RpcAnswer) (d : DiscoveredReserveDeposit) : list (option string * option string * string) :=
  if 0 <? redeemableAt a d
  then [(Some (toBase58 (dd_market d)), Some (toBase58 (dd_reserve d)), bigint_toString (redeemableAt a d))] else [].

(** The keys of a Kamino holding are written out. *)
Definition kamino_keyed (h : EarnRpcHolding) : Prop :=
  h_kind h = KaminoHolding /\ supplyApyBps h = None /\ exists mint program collateral,
    h_liquidityMint h = toBase58 mint /\ h_tokenProgramId h = toBase58 program /\
    mapGet (h_provenance h) "reserveCollateralMint" = Some (Some (toBase58 collateral)) /\
    sourceId h = "reserve:" +:+ default EmptyString (h_reserve h).

(** The keys of the holding of a token account that holds [z] *)
Definition idle_keyed (z : Z) (ata : pubkey) (h : EarnRpcHolding) : Prop :=
  h_kind h = Idle /\ amountRaw h = bigint_toString z /\ sourceId h = "idle:" +:+ toBase58 ata /\
  mapGet (h_provenance h) "tokenAccount" = Some (Some (toBase58 ata)) /\ exists mint program,
    h_liquidityMint h = toBase58 mint /\ h_tokenProgramId h = toBase58 program.

(** What one deposit adds to the holdings *)
Lemma reconciled_value allowed assets lend complete a slot now text d hs :
  (forall info, accountAt a (dd_reserve d) = Some info -> Forall is_byte (info_data info)) ->
  (cs ← reconcileDeposit allowed assets lend complete (d, accountAt a (dd_reserve d)); flatMapR (kaminoHoldings slot now text) cs) = Ok hs ->
  sumZ (map amountOf hs) = redeemableAt a d /\ (map shown hs = shownDeposit a d /\ Forall kamino_keyed hs) /\
  (complete = true -> 0 < collateralAmountRaw d -> is_Some (accountAt a (dd_reserve d))).
Proof.
  intros Hb H. apply bind_Ok in H as (cs & Hc & H). unfold reconcileDeposit in Hc. cbn [fst snd] in Hc. case_match; [done|].
  unfold redeemableAt at 1. destruct (accountAt a (dd_reserve d)) as [account|] eqn:Eacc; cbn [validateReserveAccount] in Hc.
  - specialize (Hb account eq_refl). destruct (negb (key_equals (info_owner account) lend)); [discriminate Hc|]. apply bind_Ok in Hc as (acc & Hv & Hc).
    apply bind_Ok in Hv as (ra & Hra & Hv). apply bind_Ok in Hv as (sn & Hsn & [= <-]). rewrite Hra in Hc. cbn [mbind result_bind] in Hc. rewrite Hsn.
    repeat case_match; try done. injection Hc as <-. apply flatMapR_cons in H as (h1 & h2 & Hk & [= <-] & ->). rewrite app_nil_r.
    unfold kaminoHoldings in Hk. cbn [reserveAccount] in Hk. rewrite Hsn in Hk. cbn [mbind result_bind rc_deposit] in Hk. injection Hk as <-.
    split; [|split; [|intros _ _; by eexists]].
    + unfold toKaminoHolding. destruct (Z.leb_spec (calculateKaminoRedeemableLiquidityAmountRaw (collateralAmountRaw d) sn) 0) as [Hz|Hz].
      * apply snapshot_nonneg in Hsn; [|done]. pose proof (redeemable_nonneg (collateralAmountRaw d) sn Hsn). cbn. lia.
      * cbn [map]. rewrite sumZ_cons. unfold amountOf. cbn [amountRaw]. rewrite BigInt_toString_roundtrip. cbn. lia.
    + unfold toKaminoHolding, shownDeposit, redeemableAt. rewrite Eacc, Hsn.
      destruct (Z.leb_spec (calculateKaminoRedeemableLiquidityAmountRaw (collateralAmountRaw d) sn) 0),
        (Z.ltb_spec 0 (calculateKaminoRedeemableLiquidityAmountRaw (collateralAmountRaw d) sn)); try lia; [by split; [|apply Forall_nil]|].
      split; [done|]. apply Forall_singleton. split; [done|]. split; [done|]. by do 3 eexists.
  - cbn [mbind result_bind] in Hc. case_match eqn:E; [done|]. injection Hc as <-. injection H as <-. split; [done|]. split.
    + unfold shownDeposit, redeemableAt. rewrite Eacc. by split; [|apply Forall_nil].
    + intros -> Hpos. apply Z.ltb_lt in Hpos. rewrite Hpos in E. discriminate.
Qed.

(** What one role adds to the holdings *)
Lemma idle_value vault a slot now text role hs : idleHoldings vault slot now text (role, accountAt a (rolePubkey role)) = Ok hs ->
  match role with IdleRole _ ata => exists h, hs = [h] /\ idle_keyed (idleAt a ata) ata h | _ => hs = [] end.
Proof.
  unfold idleHoldings. destruct role as [| |asset ata]; cbn [fst snd rolePubkey]; [by intros [= <-]..|].
  intros H. apply bind_Ok in H as (z & Hz & [= <-]). eexists. split; [done|]. replace (idleAt a ata) with z; [by do 4 (split; [done|]); do 2 eexists|].
  unfold validateTokenAccountAmount in Hz. unfold idleAt. destruct (accountAt a ata); [|by injection Hz as <-].
  case_match; [done|]. apply bind_Ok in Hz as (dec & -> & Hz). repeat case_match; try done. by injection Hz as <-.
Qed.

(** ** The snapshot *)
(** What a snapshot was computed from *)
Record HoldingsRead := {
  hr_allowed : list string;
  hr_assets : list EarnProductAsset;
  hr_vault : pubkey;
  hr_lend : pubkey;
  hr_markets : list pubkey;
  hr_atas : list pubkey;
  hr_obligations : list pubkey;
  hr_first : RpcAnswer;
  hr_second : RpcAnswer;
}.

(** The deposits the first answer shows in the obligations of the vault in the allowed markets *)
Definition depositsSeen (r : HoldingsRead) : list DiscoveredReserveDeposit :=
  flat_map (heldDeposits (hr_first r)) (zip (hr_markets r) (hr_obligations r)).

Definition redeemableSeen (r : HoldingsRead) : Z := sumZ (map (redeemableAt (hr_second r)) (depositsSeen r)).
Definition idleSeen (r : HoldingsRead) : Z := sumZ (map (idleAt (hr_first r)) (hr_atas r)).

(** One call reads the token accounts and obligations of the allowed markets, the next one the reserves of the deposits. *)
Record reads_chain (cluster : LoyalCluster) (reader : AccountReader) (min : option Z) (metadata : option EarnRpcPolicyMetadata)
    (programId settingsPda : pubkey) (r : HoldingsRead) : Prop := {
  rd_universe : assertPolicyUniverse cluster metadata = Ok (hr_allowed r, hr_assets r);
  rd_program : lendProgramId <$> getKaminoUsdcEarnTargetForCluster cluster = Ok (hr_lend r);
  rd_vault : deriveEarnVaultPda programId settingsPda = Ok (hr_vault r);
  rd_markets : mapR newPublicKey (hr_allowed r) = Ok (hr_markets r);
  rd_atas : mapR (fun asset => associatedTokenAddress (pa_mint asset) (hr_vault r) true (pa_tokenProgramId asset)) (hr_assets r) = Ok (hr_atas r);
  rd_obligations : mapR (fun market => deriveKaminoVanillaObligation (hr_vault r) market (hr_lend r)) (hr_markets r) = Ok (hr_obligations r);
  rd_first : reader 0%nat min (hr_atas r ++ hr_obligations r) = Ok (hr_first r);
  rd_second : depositsSeen r = [] \/ reader 1%nat min (map dd_reserve (depositsSeen r)) = Ok (hr_second r);
}.

Definition answers_bytes (reader : AccountReader) : Prop := forall i min ks a k info,
  reader i min ks = Ok a -> accountAt a k = Some info -> Forall is_byte (info_data info).

Lemma mapR_zip {A C D} (f : A -> result C) (g : A -> C -> D) l r :
  mapR (fun x => y ← f x; Ok (g x y)) l = Ok r -> exists ys, mapR f l = Ok ys /\ length ys = length l /\ r = zip_with g l ys.
Proof.
  intros H. apply mapR_Ok_Forall2 in H. induction H as [|x y l r Hx Hr IH]; [by exists []|].
  apply bind_Ok in Hx as (z & Hz & [= <-]). destruct IH as (ys & Hys & Hl & ->). exists (z :: ys). cbn. rewrite Hz, Hys. cbn. auto.
Qed.

Lemma map_zip_snd {A C D} (g : A -> C -> D) (h : D -> C) (l : list A) ys : (forall x y, h (g x y) = y) -> length ys = length l -> map h (zip_with g l ys) = ys.
Proof. intros H. revert ys. induction l as [|x l IH]; intros [|y ys] Hl; try done. cbn. f_equal; [by rewrite H|]. apply IH. by injection Hl. Qed.

Lemma obligations_held a ms os :
  flat_map (fun role => match role with ObligationRole m o => heldDeposits a (m, o) | _ => [] end) (zip_with ObligationRole ms os) =
  flat_map (heldDeposits a) (zip ms os).
Proof. revert os. induction ms as [|m ms IH]; intros [|o os]; cbn; [done..|]. by rewrite <- IH. Qed.

Lemma idle_roles_held a xs ys :
  flat_map (fun role => match role with ObligationRole m o => heldDeposits a (m, o) | _ => [] end) (zip_with IdleRole xs ys) = [].
Proof. revert ys. induction xs as [|x xs IH]; intros [|y ys]; cbn; done. Qed.

Lemma deposits_positive data account : parseKaminoObligationAccount data = Ok account -> Forall (fun d => 0 < depositedAmountRaw d) (deposits account).
Proof.
  unfold parseKaminoObligationAccount. intros H. apply bind_Ok in H as (d & _ & H). case_match; [done|].
  apply bind_Ok in H as (ds & Hf & H). apply bind_Ok in H as (m & _ & H). apply bind_Ok in H as (o & _ & [= <-]). cbn.
  assert (Hg : forall l acc r, Forall (fun d => 0 < depositedAmountRaw d) acc -> foldR (parseDepositSlot d) acc l = Ok r -> Forall (fun d => 0 < depositedAmountRaw d) r).
  { induction l as [|i l IH]; intros acc r Ha Hr; [by injection Hr as <-|]. apply bind_Ok in Hr as (acc' & Hs & Hr). eapply IH, Hr.
    unfold parseDepositSlot in Hs. apply bind_Ok in Hs as (k & _ & Hs). apply bind_Ok in Hs as (z & _ & Hs).
    destruct (key_equals k DEFAULT_PUBKEY); [by injection Hs as <-|]. destruct (Z.leb_spec z 0); [by injection Hs as <-|].
    injection Hs as <-. apply Forall_app. split; [done|]. by apply Forall_singleton. }
  by eapply Hg, Hf.
Qed.

Lemma seen_positive r d : d ∈ depositsSeen r -> 0 < collateralAmountRaw d.
Proof.
  unfold depositsSeen. intros H. apply list_elem_of_In, in_flat_map in H as (mo & _ & H). unfold heldDeposits in H.
  repeat case_match; try done. match goal with H : parseKaminoObligationAccount _ = Ok _ |- _ => apply deposits_positive in H; rename H into Hp end.
  apply in_map_iff in H as (x & <- & Hx). cbn. rewrite Forall_forall in Hp. by apply Hp, list_elem_of_In.
Qed.

Lemma map_imap_const {A C D} (f : C -> D) (g : nat -> A -> C) (h : A -> D) l : (forall i x, f (g i x) = h x) -> map f (imap g l) = map h l.
Proof. intros H. apply list_eq. intros i. rewrite !list_lookup_fmap, list_lookup_imap. destruct (l !! i); cbn; [by rewrite H|done]. Qed.

(** The reserves of the deposits, read when there are any *)
Lemma reserve_stage reader first min (ds : list DiscoveredReserveDeposit) stage (a1 : RpcAnswer) none :
  (length ds <= 100)%nat -> values none = [] ->
  (if (0 <? length (imap (fun i d => ReserveRole (dd_reserve d) i) ds))%nat
   then readAccountsInChunks reader first min (map rolePubkey (imap (fun i d => ReserveRole (dd_reserve d) i) ds))
   else Ok none) = Ok stage ->
  exists a2, (ds = [] \/ reader first min (map dd_reserve ds) = Ok a2) /\
    withValues ds (values stage) = map (fun d => (d, accountAt a2 (dd_reserve d))) ds /\
    (maxObservedSlot stage = if (0 <? length ds)%nat then Z.max 0 (context_slot a2) else maxObservedSlot none).
Proof.
  intros Hl Hn. rewrite (map_imap_const rolePubkey _ dd_reserve) by done. rewrite length_imap. destruct ds as [|d ds].
  - cbn [length Nat.ltb Nat.leb]. intros [= <-]. exists a1. split; [by left|done].
  - replace (0 <? length (d :: ds))%nat with true by done. rewrite one_chunk by (rewrite length_map; cbn [length] in *; lia).
    intros H. apply bind_Ok in H as (a2 & Ha & [= <-]). exists a2. split; [by right|]. split; [|done].
    exact (withValues_read (d :: ds) dd_reserve (accountAt a2)).
Qed.

(** What all deposits add *)
Lemma reconciled_values allowed assets lend complete a slot now text ds hs :
  (forall d info, d ∈ ds -> accountAt a (dd_reserve d) = Some info -> Forall is_byte (info_data info)) ->
  flatMapR (fun d => cs ← reconcileDeposit allowed assets lend complete (d, accountAt a (dd_reserve d)); flatMapR (kaminoHoldings slot now text) cs) ds = Ok hs ->
  sumZ (map amountOf hs) = sumZ (map (redeemableAt a) ds) /\ (map shown hs = flat_map (shownDeposit a) ds /\ Forall kamino_keyed hs) /\
  (complete = true -> (forall d, d ∈ ds -> 0 < collateralAmountRaw d) -> Forall (fun d => is_Some (accountAt a (dd_reserve d))) ds).
Proof.
  intros Hb H. split; [|split].
  - eapply flatMapR_sum, H. intros d p Hin Hp. eapply reconciled_value; [|exact Hp]. intros info. by apply Hb.
  - split.
    + eapply flatMapR_image, H. intros d p Hin Hp. eapply reconciled_value; [|exact Hp]. intros info. by apply Hb.
    + apply flatMapR_Ok in H as (parts & Hp & ->). apply Forall_concat. eapply Forall2_Forall_r; [exact Hp|].
      apply Forall_forall. intros d Hin p Hdp. eapply reconciled_value; [|exact Hdp]. intros info. by apply Hb.
  - intros Hc Hpos. apply Forall_forall. intros d Hin. destruct (flatMapR_elem _ _ _ _ H Hin) as (p & Hp & _).
    eapply reconciled_value; [|exact Hp|exact Hc|by apply Hpos]. intros info. by apply Hb.
Qed.

(** What all roles add *)
Lemma idle_values vault a slot now text assets atas markets os hs : length atas = length assets ->
  flatMapR (fun role => idleHoldings vault slot now text (role, accountAt a (rolePubkey role)))
    (zip_with IdleRole assets atas ++ zip_with ObligationRole markets os) = Ok hs ->
  Forall2 (fun ata h => idle_keyed (idleAt a ata) ata h) atas hs.
Proof.
  intros Hl H. apply flatMapR_app in H as (h1 & h2 & H1 & H2 & ->). replace h2 with (@nil EarnRpcHolding).
  2: { clear -H2. revert h2 os H2. induction markets as [|m ms IH]; intros h2 [|o os] H2; try by injection H2 as <-.
       apply flatMapR_cons in H2 as (p & h & Hp%idle_value & H2 & ->). cbn in Hp. subst p. by apply IH in H2 as <-. }
  rewrite app_nil_r. clear H2. revert atas h1 Hl H1. induction assets as [|x xs IH]; intros [|ata atas] h1 Hl H1; try done; [injection H1 as <-; constructor|].
  apply flatMapR_cons in H1 as (p & h & Hp%idle_value & H1 & ->). destruct Hp as (hd & -> & Hk). constructor; [done|]. apply IH; [by injection Hl|done].
Qed.

(** What the holdings of token accounts add up to *)
Lemma idle_total f atas hs : Forall2 (fun ata h => idle_keyed (f ata) ata h) atas hs ->
  sumZ (map amountOf hs) = sumZ (map f atas) /\ Forall (fun h => h_kind h = Idle) hs.
Proof.
  induction 1 as [|ata h atas hs (Hk & Ha & _) _ [IH1 IH2]]; [by split; [|apply Forall_nil]|]. split; [|by apply Forall_cons].
  cbn [map]. rewrite !sumZ_cons, IH1. unfold amountOf at 1. by rewrite Ha, BigInt_toString_roundtrip.
Qed.

Record snapshot_seen (r : HoldingsRead) (complete : bool) (s : EarnRpcHoldingsSnapshot) (kamino idle : list EarnRpcHolding) : Prop := {
  sn_holdings : holdings s = kamino ++ idle;
  sn_shown : map shown kamino = flat_map (shownDeposit (hr_second r)) (depositsSeen r);
  sn_keyed : Forall kamino_keyed kamino;
  sn_idle : Forall (fun h => h_kind h = Idle) idle;
  sn_atas : Forall2 (fun ata h => idle_keyed (idleAt (hr_first r) ata) ata h) (hr_atas r) idle;
  sn_redeemable : sumZ (map amountOf kamino) = redeemableSeen r;
  sn_idleSum : sumZ (map amountOf idle) = idleSeen r;
  sn_total : currentTotalAmountRaw s = bigint_toString (redeemableSeen r + idleSeen r);
  sn_slot : snapshotSlot s = bigint_toString
    (Z.max (Z.max 0 (context_slot (hr_first r))) (if (0 <? length (depositsSeen r))%nat then Z.max 0 (context_slot (hr_second r)) else Z.max 0 (context_slot (hr_first r))));
  sn_complete : complete = true -> Forall (fun d => is_Some (accountAt (hr_second r) (dd_reserve d))) (depositsSeen r);
}.

Lemma fetch_seen cluster reader min metadata programId complete settings now s : answers_bytes reader ->
  fetchEarnRpcHoldingsSnapshot cluster reader min metadata programId complete settings now = Ok s ->
  exists r kamino idle, reads_chain cluster reader min metadata programId settings r /\ snapshot_seen r complete s kamino idle.
Proof.
  intros Hb H. unfold fetchEarnRpcHoldingsSnapshot in H. apply bind_Ok in H as ([allowed assets] & Hu & H).
  apply bind_Ok in H as (target & Ht & H). apply bind_Ok in H as (vault & Hv & H). apply bind_Ok in H as (markets & Hm & H).
  apply bind_Ok in H as (idles & Hi & H). apply bind_Ok in H as (obls & Ho & H). apply bind_Ok in H as (first & Hf & H).
  apply bind_Ok in H as (ds & Hd & H). apply bind_Ok in H as (stage & Hs & H). apply bind_Ok in H as (cands & Hc & H).
  apply bind_Ok in H as (kamino & Hk & H). apply bind_Ok in H as (idle & Hid & [= <-]).
  destruct (universe_bounds _ _ _ _ Hu) as [Ha Hal]. assert (Hml := mapR_length _ _ _ Hm).
  apply mapR_zip in Hi as (atas & Hat & Hla & ->). apply mapR_zip in Ho as (os & Hos & Hlo & ->).
  assert (Hkeys : map rolePubkey (zip_with IdleRole assets atas ++ zip_with ObligationRole markets os) = atas ++ os).
  { rewrite map_app, !map_zip_snd; done. }
  rewrite Hkeys, one_chunk in Hf by (rewrite length_app; lia). apply bind_Ok in Hf as (a1 & Ha1 & [= <-]).
  cbn [values br_chunkCount maxObservedSlot] in *. rewrite <- Hkeys, withValues_read in Hd, Hid. rewrite flatMapR_map in Hd. rewrite flatMapR_map in Hid.
  assert (Hn := Hd). rewrite <- flatMapR_map in Hn. apply discover_total in Hn. rewrite length_map, length_app, !length_zip_with in Hn.
  apply (flatMapR_total _ (fun role => match role with ObligationRole m o => heldDeposits a1 (m, o) | _ => [] end)) in Hd; [|intros role p _; apply discover_held].
  rewrite flat_map_app, obligations_held, idle_roles_held in Hd. cbn [app] in Hd.
  apply (reserve_stage reader 1 min ds stage a1) in Hs as (a2 & Ha2 & Hw & Hslot); [|lia|done]. rewrite Hw in Hc.
  assert (Hck := flatMapR_comp _ _ _ _ _ Hc Hk). rewrite flatMapR_map in Hck.
  assert (Hbytes : forall d info, d ∈ ds -> accountAt a2 (dd_reserve d) = Some info -> Forall is_byte (info_data info)).
  { intros d info Hin Hacc. destruct Ha2 as [->|Ha2]; [set_solver|]. by eapply Hb. }
  apply reconciled_values in Hck as (Hsum & [Hshown Hkeyed] & Hall); [|done]. apply idle_values in Hid as Hatas; [|done].
  destruct (idle_total _ _ _ Hatas) as [Hisum Hidle].
  set (r := {| hr_allowed := allowed; hr_assets := assets; hr_vault := vault; hr_lend := lendProgramId target; hr_markets := markets;
               hr_atas := atas; hr_obligations := os; hr_first := a1; hr_second := a2 |}).
  assert (Hds : depositsSeen r = ds) by by rewrite Hd. exists r, kamino, idle. split.
  - split; rewrite ?Hds; try done. cbn. by rewrite Ht.
  - split; unfold redeemableSeen, idleSeen; rewrite ?Hds; try done.
    + cbn. f_equal. rewrite sum_amounts, map_app, sumZ_app, Hsum, Hisum. done.
    + cbn. by rewrite Hslot.
    + intros Hcomp. apply Hall; [done|]. intros d Hin. apply (seen_positive r). by rewrite Hds.
Qed.

(** C34. A snapshot of the Earn vault shows what the chain holds: it is computed from at most two calls, the first of which
    reads every product token account and every obligation of the allowed markets at one slot, and its total is the liquidity
    that every deposit of those obligations redeems to plus the balances of the token accounts; when complete reserve reads
    are required, the reserve of every deposit was read. *)
Theorem holdings_total_exact (cluster : LoyalCluster) (reader : AccountReader) (min : option Z) (metadata : option EarnRpcPolicyMetadata)
    (programId settings : pubkey) (complete : bool) (now : string) (s : EarnRpcHoldingsSnapshot) :
  answers_bytes reader -> fetchEarnRpcHoldingsSnapshot cluster reader min metadata programId complete settings now = Ok s ->
  exists r, reads_chain cluster reader min metadata programId settings r /\
    currentTotalAmountRaw s = bigint_toString (redeemableSeen r + idleSeen r) /\
    sumEarnRpcHoldingsAmountRaw (map amountRaw (holdings s)) = redeemableSeen r + idleSeen r /\
    (complete = true -> Forall (fun d => is_Some (accountAt (hr_second r) (dd_reserve d))) (depositsSeen r)).
Proof.
  intros Hb H. destruct (fetch_seen _ _ _ _ _ _ _ _ _ Hb H) as (r & kamino & idle & Hr & Hs). exists r. split; [done|].
  split; [by apply Hs|]. split; [|by apply Hs]. rewrite sum_amounts, (sn_holdings _ _ _ _ _ Hs), map_app, sumZ_app.
  by rewrite (sn_redeemable _ _ _ _ _ Hs), (sn_idleSum _ _ _ _ _ Hs).
Qed.
End Seen.

Module HoldingsWitness.
Import DemoKeys KaminoWitness.

#[export] Instance demo_beet : BeetUints := demoBeet.

Definition okKey (r : result key) : key := match r with Ok k => k | Throw _ => zero_key end.
Definition usdcMint : key := okKey (getStablecoinMintForCluster Devnet USDC).
Definition usdcProgram : key := okKey (getStablecoinTokenProgramForCluster Devnet USDC).

#[export] Instance demo_layouts : TokenLayouts demo_keys := {|
  associatedTokenAddress mint owner _ program := derive [key_bytes owner; key_bytes program; key_bytes mint] (key_of 8);
  splTokenProgram := usdcProgram;
  splToken2022Program := key_of 10;
  decodeTokenAccount data :=
    mint ← keyOfBytes (take 32 data);
    owner ← keyOfBytes (take 32 (drop 32 data));
    amount ← readUint64LE data 64;
    Ok {| ta_mint := mint; ta_owner := owner; ta_amount := amount |};
|}.

Definition demoMarket : key := KAMINO_DEVNET_MAIN_MARKET.
Definition demoProgram : key := key_of 3.
Definition demoSettings : key := key_of 4.
Definition demoReserve : key := key_of 7.
Definition demoVault : key := okKey (deriveEarnVaultPda demoProgram demoSettings).
Definition demoAta : key := okKey (associatedTokenAddress usdcMint demoVault true usdcProgram).
Definition demoObligation : key := okKey (deriveKaminoVanillaObligation demoVault demoMarket KAMINO_DEVNET_LEND_PROGRAM_ID).

Definition info (owner : key) (bytes : list Z) : AccountInfo := {| info_executable := false; info_lamports := 1; info_owner := owner; info_data := bytes |}.

Definition ataInfo (amount : Z) : AccountInfo := info usdcProgram (key_bytes usdcMint ++ key_bytes demoVault ++ le_bytes 8 amount ++ replicate 93 0).
Definition obligationInfo (amount : Z) : AccountInfo :=
  info KAMINO_DEVNET_LEND_PROGRAM_ID
    (obligationBytes (replicate 24 0) demoMarket demoVault ([freeSlot; (demoReserve, amount, replicate 96 1)] ++ replicate 6 freeSlot) []).
Definition reserveInfo : AccountInfo :=
  info KAMINO_DEVNET_LEND_PROGRAM_ID
    (KAMINO_RESERVE_DISCRIMINATOR ++ replicate 24 0 ++ key_bytes demoMarket ++ replicate 64 0 ++ key_bytes usdcMint ++ replicate 64 0 ++
     le_bytes 8 1500 ++ replicate 176 0 ++ key_bytes usdcProgram ++ replicate 2152 0 ++ le_bytes 8 1000 ++ replicate 32 0).

(** The vault holds [idle] and a deposit of [amount] in collateral. *)
Definition chain (idle amount : Z) (k : key) : option AccountInfo :=
  if bool_decide (k = demoAta) then Some (ataInfo idle)
  else if bool_decide (k = demoObligation) then Some (obligationInfo amount)
  else if bool_decide (k = demoReserve) then Some reserveInfo
  else None.

Definition demoReader (idle amount : Z) : AccountReader := fun call _ _ => Ok {| context_slot := 10 + Z.of_nat call; accountAt := chain idle amount |}.

Definition demoPolicy : EarnRpcPolicyMetadata := {|
  kaminoLiquidityMints := Some [text usdcMint]; kaminoMarkets := Some [text demoMarket]; stableMints := Some [text usdcMint]; vaultIndex := 1 |}.

Lemma info_bytes (a : AccountInfo (PK := demo_keys)) : forallb byte_ok (info_data a) = true -> Forall is_byte (info_data a).
Proof. apply bytes_checked. Qed.

Lemma demo_bytes idle amount : Forall is_byte (info_data (ataInfo idle)) -> Forall is_byte (info_data (obligationInfo amount)) ->
  Forall is_byte (info_data reserveInfo) -> answers_bytes (demoReader idle amount).
Proof.
  intros H1 H2 H3 i min ks a k acc [= <-]. cbn [accountAt]. unfold chain.
  repeat case_bool_decide; intros [= <-]; done.
Qed.

Definition demoFetch : result EarnRpcHoldingsSnapshot :=
  fetchEarnRpcHoldingsSnapshot Devnet (demoReader 250 500) (Some 5) (Some demoPolicy) demoProgram true demoSettings "now".

Example demo_total : (fun s => (currentTotalAmountRaw s, snapshotSlot s, chunkCount s)) <$> demoFetch = Ok ("1000"%string, "11"%string, 2%nat).
Proof. vm_compute. done. Qed.

Lemma holdings_total_exact_witness :
  match demoFetch with
  | Ok s => exists r, reads_chain Devnet (demoReader 250 500) (Some 5) (Some demoPolicy) demoProgram demoSettings r /\
      currentTotalAmountRaw s = bigint_toString (redeemableSeen r + idleSeen r) /\
      sumEarnRpcHoldingsAmountRaw (map amountRaw (holdings s)) = redeemableSeen r + idleSeen r /\
      (true = true -> Forall (fun d => is_Some (accountAt (hr_second r) (dd_reserve d))) (depositsSeen r))
  | Throw _ => False
  end.
Proof.
  assert (H : is_ok demoFetch = true) by (vm_compute; reflexivity). destruct demoFetch as [s|] eqn:E; [|discriminate H].
  apply (holdings_total_exact Devnet (demoReader 250 500) (Some 5) (Some demoPolicy) demoProgram demoSettings true "now" s); [|exact E].
  apply demo_bytes; apply info_bytes; vm_compute; reflexivity.
Defined.
End HoldingsWitness.
