(* ===== verification/FullExit.v ===== *)
(** The proof that a full exit left nothing behind
    (web/apps/web/src/lib/yield-optimization/earn-full-exit-zero-proof.server.ts), over the holdings of Holdings.v and the
    inventory of the vault's token accounts (fetchEarnVaultRefundSnapshot of
    web/packages/smart-account-vaults/src/client.ts), and the sources of a full withdrawal (earn/withdraw-sources.ts).

    What the RPC answers at each attempt, the order in which concurrent reads fail, the [code] of a thrown error and
    [localeCompare] are arguments. Thrown values are [Error]s. *)
From S2P Require Import Prelude JsString JsMap Solana Bytes Subscriptions Protocols Registry Voltr Json RpcFetch Pda Kamino Holdings.

(** ** Promises and errors *)
(** [Promise.all([a, b])]: of two rejections the first one counts. *)
Definition promiseAll {A C} (secondFirst : bool) (a : result A) (b : result C) : result (A * C) :=
  match a, b with
  | Ok x, Ok y => Ok (x, y)
  | Throw e, Ok _ => Throw e
  | Ok _, Throw e => Throw e
  | Throw e, Throw e' => Throw (if secondFirst then e' else e)
  end.

Fixpoint hasPrefix (p l : list ascii) : bool :=
  match p, l with
  | [], _ => true
  | c :: p, d :: l => Ascii.eqb c d && hasPrefix p l
  | _ :: _, [] => false
  end.
Fixpoint includesChars (l p : list ascii) : bool :=
  hasPrefix p l || match l with [] => false | _ :: l => includesChars l p end.

(** [Array.prototype.filter] with a callback that may throw *)
Fixpoint filterR {A} (f : A -> result bool) (l : list A) : result (list A) :=
  match l with
  | [] => Ok []
  | x :: l => b ← f x; rest ← filterR f l; Ok (if b : bool then x :: rest else rest)
  end.

(** A stable sort *)
Fixpoint insertStable {A} (compare : A -> A -> Z) (x : A) (l : list A) : list A :=
  match l with
  | [] => [x]
  | y :: l' => if compare x y <? 0 then x :: l else y :: insertStable compare x l'
  end.
Definition sortStable {A} (compare : A -> A -> Z) (l : list A) : list A := fold_left (fun sorted x => insertStable compare x sorted) l [].

Lemma insertStable_perm {A} (compare : A -> A -> Z) (x : A) (l : list A) : insertStable compare x l ≡ₚ x :: l.
Proof. induction l as [|y l IH]; cbn; [done|]. case_match; [done|]. rewrite IH. apply Permutation_swap. Qed.

Lemma sortStable_perm {A} (compare : A -> A -> Z) (l : list A) : sortStable compare l ≡ₚ l.
Proof.
  unfold sortStable. enough (H : forall acc, fold_left (fun sorted x => insertStable compare x sorted) l acc ≡ₚ l ++ acc) by (rewrite H; by rewrite app_nil_r).
  induction l as [|x l IH]; intros acc; cbn; [done|]. rewrite IH, insertStable_perm. by rewrite Permutation_middle.
Qed.

Section FullExit.
Context {PK : PublicKeys} {KB : KeyBytes PK} {B : BeetUints} {TL : TokenLayouts PK}.

(** ** Sources of a full withdrawal *)
(** The first key whose value is a text that is not blank and reads as a key *)
Fixpoint publicKeyFromMetadata (metadata : list (string * option string)) (keys : list string) : option pubkey :=
  match keys with
  | [] => None
  | key :: keys =>
      match mapGet metadata key with
      | Some (Some value) =>
          if (length (trim (chars value)) =? 0)%nat then publicKeyFromMetadata metadata keys
          else match newPublicKey value with Ok k => Some k | Throw _ => publicKeyFromMetadata metadata keys end
      | _ => publicKeyFromMetadata metadata keys
      end
  end.

Record WithdrawalTarget := {
  wt_amountRaw : Z;
  wt_liquidityMint : pubkey;
  wt_liquidityTokenProgram : pubkey;
  wt_market : pubkey;
  wt_reserve : pubkey;
  wt_reserveCollateralMint : option pubkey;
  wt_supplyApyBps : option Z;
}.

Definition withdrawalTarget (holding : EarnRpcHolding) : result (list WithdrawalTarget) :=
  match h_kind holding, truthy (h_reserve holding), truthy (h_market holding) with
  | KaminoHolding, Some reserve, Some market =>
      match BigInt_of_string (amountRaw holding) with
      | Throw _ => Ok []
      | Ok amount =>
          if amount <=? 0 then Ok []
          else
            let supplyApy := match truthy (supplyApyBps holding) with
                             | Some text => match BigInt_of_string text with Ok z => Some z | Throw _ => None end
                             | None => None
                             end in
            let reserveCollateralMint := publicKeyFromMetadata (h_provenance holding) ["reserveCollateralMint"%string] in
            liquidityMint ← newPublicKey (h_liquidityMint holding);
            liquidityTokenProgram ← newPublicKey (h_tokenProgramId holding);
            market ← newPublicKey market;
            reserve ← newPublicKey reserve;
            Ok [{| wt_amountRaw := amount; wt_liquidityMint := liquidityMint; wt_liquidityTokenProgram := liquidityTokenProgram;
                   wt_market := market; wt_reserve := reserve; wt_reserveCollateralMint := reserveCollateralMint;
                   wt_supplyApyBps := supplyApy |}]
      end
  | _, _, _ => Ok []
  end.

Definition snapshotFullWithdrawalTargets (holdings : list EarnRpcHolding) : result (list WithdrawalTarget) := flatMapR withdrawalTarget holdings.

(** ** The inventory of the vault *)
Record TokenAccountsAnswer := { tokens_slot : Z; tokens_value : list (pubkey * AccountInfo) }.

(** A connection: what each of its methods answers at each attempt (the last two may be missing), and which of two
    concurrent reads fails first. *)
Record Connection := {
  conn_accounts : nat -> AccountReader;
  conn_tokenAccounts : option (nat -> pubkey -> pubkey -> option Z -> result TokenAccountsAnswer);
  conn_balance : option (nat -> result Z);
  conn_token2022First : nat -> bool;
  conn_vaultFirst : nat -> bool;
}.

Record RefundTokenAccount := {
  rt_address : pubkey;
  rt_amountRaw : Z;
  rt_isUsdc : bool;
  rt_lamports : Z;
  rt_mint : pubkey;
  rt_tokenProgramId : pubkey;
}.

Record SmartAccountEarnVaultRefundSnapshot := {
  vs_lamports : Z;
  vs_observedSlot : Z;
  vs_tokenAccounts : list RefundTokenAccount;
  vs_vaultPda : pubkey;
  vs_vaultUsdcAta : pubkey;
}.

Definition getVaultSweepLamportsOrZero (connection : Connection) (attempt : nat) : Z :=
  match conn_balance connection with
  | Some getBalance => match getBalance attempt with Ok lamports => lamports | Throw _ => 0 end
  | None => 0
  end.

Definition refundTokenAccount (usdcMint : pubkey) (entry : pubkey * AccountInfo) : result RefundTokenAccount :=
  decoded ← decodeTokenAccount (info_data entry.2);
  Ok {| rt_address := entry.1; rt_amountRaw := ta_amount decoded; rt_isUsdc := key_equals (ta_mint decoded) usdcMint;
        rt_lamports := info_lamports entry.2; rt_mint := ta_mint decoded; rt_tokenProgramId := info_owner entry.2 |}.

Context (localeCompare : string -> string -> Z).

Definition fetchEarnVaultRefundSnapshot (connection : Connection) (attempt : nat) (programId : pubkey) (cluster : LoyalCluster)
    (minContextSlot : option Z) (settingsPda : pubkey) : result SmartAccountEarnVaultRefundSnapshot :=
  usdcMint ← getStablecoinMintForCluster cluster USDC;
  vaultPda ← getSmartAccountPda settingsPda EARN_VAULT_INDEX programId;
  vaultUsdcAta ← associatedTokenAddress usdcMint vaultPda true splTokenProgram;
  '(tokens, tokens2022) ←
    match conn_tokenAccounts connection with
    | Some read =>
        '(a, b) ← promiseAll (conn_token2022First connection attempt)
                    (read attempt vaultPda splTokenProgram minContextSlot) (read attempt vaultPda splToken2022Program minContextSlot);
        Ok (Some a, Some b)
    | None => Ok (None, None)
    end;
  let entries (r : option TokenAccountsAnswer) := default [] (tokens_value <$> r) in
  accounts ← mapR (refundTokenAccount usdcMint) (entries tokens ++ entries tokens2022);
  let tokenAccounts := sortStable (fun left right => localeCompare (toBase58 (rt_address left)) (toBase58 (rt_address right))) accounts in
  let slotOf (r : option TokenAccountsAnswer) := default (default 0 minContextSlot) (tokens_slot <$> r) in
  Ok {| vs_lamports := getVaultSweepLamportsOrZero connection attempt;
        vs_observedSlot := Z.min (slotOf tokens) (slotOf tokens2022);
        vs_tokenAccounts := tokenAccounts; vs_vaultPda := vaultPda; vs_vaultUsdcAta := vaultUsdcAta |}.

(** ** The proof *)
Definition SLOT_LAG_ATTEMPTS := 3%nat.
Definition SLOT_LAG_RETRY_DELAY_MS := 500.
Definition EARN_FINAL_EXIT_IDLE_DUST_TOLERANCE_RAW := 10000.

Record ProofTokenAccount := { pt_address : string; pt_amountRaw : string; pt_mint : string; pt_tokenProgramId : string }.
Inductive ExitStatus := full_exit_incomplete | policy_close_required.

(** Cleanup accounts also carry the number of decimals 6. *)
Record EarnFullExitZeroProof := {
  blockingTokenAccounts : list ProofTokenAccount;
  cleanupTokenAccounts : list ProofTokenAccount;
  zp_observedSlot : string;
  remainingHoldings : list EarnRpcHolding;
  status : ExitStatus;
}.

Definition resolveFullExitPolicyMetadata (cluster : LoyalCluster) (metadata : EarnRpcPolicyMetadata) : result EarnRpcPolicyMetadata :=
  assets ← getEarnProductAssetsForCluster cluster;
  let canonicalMints := map (fun asset => toBase58 (pa_mint asset)) assets in
  Ok {| kaminoLiquidityMints := Some (default canonicalMints (kaminoLiquidityMints metadata));
        kaminoMarkets := Some (default (map toBase58 (getRiskBasketMarketsForCluster cluster Safe)) (kaminoMarkets metadata));
        stableMints := Some (default canonicalMints (stableMints metadata));
        vaultIndex := vaultIndex metadata |}.

Context (errorCode : exn -> option Z).

Definition isMinContextSlotError (error : exn) : bool :=
  bool_decide (errorCode error = Some (-32016)) ||
  includesChars (map lower_char (chars (exn_message error))) (chars "minimum context slot has not been reached"%string).

(** From attempt [attempt] on, with [remaining] attempts left *)
Fixpoint readAttempts {T} (read : nat -> result T) (lastError : exn) (attempt remaining : nat) : result T :=
  match remaining with
  | O => Throw lastError
  | S remaining =>
      match read attempt with
      | Ok value => Ok value
      | Throw error => if isMinContextSlotError error then readAttempts read error (S attempt) remaining else Throw error
      end
  end.

(** The first attempt always runs: the initial [lastError] is never thrown. *)
Definition readWithSlotLagRetry {T} (read : nat -> result T) : result T :=
  readAttempts read (Exn "undefined" EmptyString) 0 SLOT_LAG_ATTEMPTS.

Definition positiveAmountRaw (text : string) : result Z :=
  if all_digits (chars text) then BigInt_of_string text else throwError "Earn full-exit proof received an invalid balance.".

(** [new Map(assets.map(asset => [ata, asset]))] *)
Definition idleAssetEntry (vaultPda : pubkey) (m : list (string * EarnProductAsset)) (asset : EarnProductAsset) : result (list (string * EarnProductAsset)) :=
  ata ← associatedTokenAddress (pa_mint asset) vaultPda true (pa_tokenProgramId asset);
  Ok (mapSet m (toBase58 ata) asset).

Definition isBlocking (idleAssetByTokenAccount : list (string * EarnProductAsset)) (account : RefundTokenAccount) : bool :=
  if rt_amountRaw account <=? 0 then false
  else
    match mapGet idleAssetByTokenAccount (toBase58 (rt_address account)) with
    | None => true
    | Some asset =>
        negb (key_equals (pa_mint asset) (rt_mint account)) || negb (key_equals (pa_tokenProgramId asset) (rt_tokenProgramId account)) ||
        (EARN_FINAL_EXIT_IDLE_DUST_TOLERANCE_RAW <=? rt_amountRaw account)
    end.

Definition proofTokenAccount (account : RefundTokenAccount) : ProofTokenAccount := {|
  pt_address := toBase58 (rt_address account); pt_amountRaw := bigint_toString (rt_amountRaw account);
  pt_mint := toBase58 (rt_mint account); pt_tokenProgramId := toBase58 (rt_tokenProgramId account) |}.

Definition isPositiveKamino (holding : EarnRpcHolding) : result bool :=
  match h_kind holding with
  | KaminoHolding => amount ← positiveAmountRaw (amountRaw holding); Ok (0 <? amount)
  | Idle => Ok false
  end.
Definition isPositive (holding : EarnRpcHolding) : result bool := amount ← positiveAmountRaw (amountRaw holding); Ok (0 <? amount).

(** The slot of the holdings is a decimal integer. *)
Definition classifyZeroProof (cluster : LoyalCluster) (holdingsSnapshot : EarnRpcHoldingsSnapshot) (minContextSlot : Z)
    (vaultSnapshot : SmartAccountEarnVaultRefundSnapshot) : result EarnFullExitZeroProof :=
  observedSlot ←
    match BigInt_of_string (snapshotSlot holdingsSnapshot) with
    | Ok slot =>
        if negb (isSafeInteger slot) || (slot <? minContextSlot)
        then throwError "Earn full-exit proof was observed before the withdrawal confirmation slot." else Ok slot
    | Throw _ => throwError "Earn full-exit proof was observed before the withdrawal confirmation slot."
    end;
  if vs_observedSlot vaultSnapshot <? minContextSlot
  then throwError "Earn vault token inventory was observed before the withdrawal confirmation slot."
  else
    remainingReserveHoldings ← filterR isPositiveKamino (holdings holdingsSnapshot);
    assets ← getEarnProductAssetsForCluster cluster;
    idleAssetByTokenAccount ← foldR (idleAssetEntry (vs_vaultPda vaultSnapshot)) [] assets;
    let blockingTokenAccounts := map proofTokenAccount (List.filter (isBlocking idleAssetByTokenAccount) (vs_tokenAccounts vaultSnapshot)) in
    let blockedAddresses := map pt_address blockingTokenAccounts in
    let cleanupTokenAccounts :=
      map proofTokenAccount (List.filter (fun account => negb (member (toBase58 (rt_address account)) blockedAddresses)) (vs_tokenAccounts vaultSnapshot)) in
    let status := if (length remainingReserveHoldings =? 0)%nat && (length blockingTokenAccounts =? 0)%nat
                  then policy_close_required else full_exit_incomplete in
    remaining ← filterR isPositive (holdings holdingsSnapshot);
    Ok {| blockingTokenAccounts := blockingTokenAccounts; cleanupTokenAccounts := cleanupTokenAccounts;
          zp_observedSlot := bigint_toString observedSlot; remainingHoldings := remaining; status := status |}.

(** The two snapshots of one attempt *)
Definition readBoth (cluster : LoyalCluster) (connection : Connection) (attempt : nat) (minContextSlot : Z) (metadata : EarnRpcPolicyMetadata)
    (programId settingsPda : pubkey) (now : string) : result (EarnRpcHoldingsSnapshot * SmartAccountEarnVaultRefundSnapshot) :=
  promiseAll (conn_vaultFirst connection attempt)
    (fetchEarnRpcHoldingsSnapshot cluster (conn_accounts connection attempt) (Some minContextSlot) (Some metadata) programId true settingsPda now)
    (fetchEarnVaultRefundSnapshot connection attempt programId cluster (Some minContextSlot) settingsPda).

(** Without dependencies: the snapshots are read from the connection; the clock at each attempt is an argument. *)
Definition verifyEarnFullExitZeroBalances (cluster : LoyalCluster) (connection : Connection)
    (minContextSlot : Z) (metadata : EarnRpcPolicyMetadata) (programId settingsPda : pubkey) (now : nat -> string) : result EarnFullExitZeroProof :=
  if negb (isSafeInteger minContextSlot) || (minContextSlot <? 0) then throwError "Earn full-exit minContextSlot is outside the safe range."
  else if match conn_tokenAccounts connection with Some _ => false | None => true end then throwError "Earn full-exit proof cannot read all vault token accounts."
  else
    metadata ← resolveFullExitPolicyMetadata cluster metadata;
    '(holdingsSnapshot, vaultSnapshot) ← readWithSlotLagRetry (fun attempt =>
      readBoth cluster connection attempt minContextSlot metadata programId settingsPda (now attempt));
    classifyZeroProof cluster holdingsSnapshot minContextSlot vaultSnapshot.

(** ** Attempts *)
Lemma attempts_spec {T} (read : nat -> result T) (r : result T) n : forall e i, readAttempts read e i n = r ->
  (exists j, (j < n)%nat /\ (forall k, (k < j)%nat -> exists x, read (i + k)%nat = Throw x /\ isMinContextSlotError x = true) /\
             read (i + j)%nat = r /\ match r with Ok _ => True | Throw x => isMinContextSlotError x = true -> j = pred n end) \/
  (n = 0%nat /\ r = Throw e).
Proof.
  induction n as [|n IH]; intros e i H; [by right|]. left. cbn in H. destruct (read i) as [v|x] eqn:E.
  - exists 0%nat. rewrite Nat.add_0_r, E. subst r. split; [lia|]. split; [intros; lia|done].
  - destruct (isMinContextSlotError x) eqn:Ex.
    + destruct (IH x (S i) H) as [(j & Hj & Hk & Hr & Hl)|[-> ->]].
      * exists (S j). split; [lia|]. split; [|split; [by replace (i + S j)%nat with (S i + j)%nat by lia|]].
        -- intros [|k] Hlt; [exists x; by rewrite Nat.add_0_r|]. replace (i + S k)%nat with (S i + k)%nat by lia. apply Hk. lia.
        -- destruct r; [done|]. intros Hx. specialize (Hl Hx). lia.
      * exists 0%nat. split; [lia|]. split; [intros; lia|]. by rewrite Nat.add_0_r.
    + exists 0%nat. split; [lia|]. split; [intros; lia|]. rewrite Nat.add_0_r, E. subst r. split; [done|]. intros; congruence.
Qed.

(** A slot-lag retry makes one to three reads: it returns what the first read that does not fail for slot lag returns
    or throws, and only when all three fail for slot lag, the third error. *)
Theorem slot_lag_retry {T} (read : nat -> result T) :
  exists j, (j < 3)%nat /\ readWithSlotLagRetry read = read j /\
    (forall k, (k < j)%nat -> exists e, read k = Throw e /\ isMinContextSlotError e = true) /\
    (j = 2%nat \/ forall e, read j = Throw e -> isMinContextSlotError e = false).
Proof.
  destruct (attempts_spec read (readWithSlotLagRetry read) 3 (Exn "undefined" EmptyString) 0 eq_refl) as [(j & Hj & Hk & Hr & Hl)|[H _]]; [|discriminate H].
  exists j. split; [done|]. split; [done|]. split; [done|]. unfold readWithSlotLagRetry in *. cbn [Nat.add] in Hr.
  destruct (decide (j = 2%nat)); [by left|right]. intros e He. rewrite Hr in He. rewrite He in Hl.
  destruct (isMinContextSlotError e); [|done]. cbn in Hl. specialize (Hl eq_refl). done.
Qed.

(** ** Balances *)
Lemma positive_printed z : 0 < z -> positiveAmountRaw (bigint_toString z) = Ok z.
Proof. intros H. unfold positiveAmountRaw. destruct (bigint_toString_nonneg z) as [-> _]; [lia|]. apply BigInt_toString_roundtrip. Qed.

Lemma filterR_spec {A} (f : A -> result bool) l r : filterR f l = Ok r -> Forall (fun x => f x = Ok false \/ (f x = Ok true /\ x ∈ r)) l.
Proof.
  revert r. induction l as [|x l IH]; intros r H; [by apply Forall_nil|]. cbn in H. apply bind_Ok in H as (b & Hb & H).
  apply bind_Ok in H as (rest & Hr & [= <-]). apply IH in Hr. apply Forall_cons. split.
  - destruct b; [right; set_solver|by left].
  - eapply Forall_impl; [exact Hr|]. intros y [?|[? ?]]; [by left|right]. destruct b; set_solver.
Qed.

Lemma filterR_none {A} (f : A -> result bool) l r : filterR f l = Ok r -> Forall (fun x => f x <> Ok true) l -> r = [].
Proof.
  revert r. induction l as [|x l IH]; intros r H Hf; [by injection H as <-|]. apply Forall_cons in Hf as [Hx Hl]. cbn in H.
  apply bind_Ok in H as (b & Hb & H). apply bind_Ok in H as (rest & Hr & [= <-]). destruct b; [done|]. by apply IH.
Qed.

Lemma shown_none a ds : flat_map (shownDeposit a) ds = [] <-> Forall (fun d => redeemableAt a d <= 0) ds.
Proof.
  induction ds as [|d ds IH]; cbn; [by split|]. rewrite Forall_cons, <- IH. unfold shownDeposit at 1.
  destruct (Z.ltb_spec 0 (redeemableAt a d)); cbn [app].
  - split; [done|]. intros [Hx _]. lia.
  - split; [intros ->; split; [lia|done]|by intros [_ ->]].
Qed.

(** Kamino holdings remain exactly when a deposit redeems to something. *)
Lemma remaining_kamino r complete s kamino idle rest : snapshot_seen r complete s kamino idle -> filterR isPositiveKamino (holdings s) = Ok rest ->
  (rest = [] <-> Forall (fun d => redeemableAt (hr_second r) d <= 0) (depositsSeen r)).
Proof.
  intros Hs Hf. rewrite <- shown_none, <- (sn_shown _ _ _ _ _ Hs). rewrite (sn_holdings _ _ _ _ _ Hs) in Hf. split.
  - intros ->. destruct kamino as [|h kamino]; [done|]. exfalso. apply filterR_spec, Forall_cons in Hf as [Hh _].
    assert (Hsh := sn_shown _ _ _ _ _ Hs). assert (Hin : shown h ∈ flat_map (shownDeposit (hr_second r)) (depositsSeen r)) by (rewrite <- Hsh; cbn; set_solver).
    apply list_elem_of_In, in_flat_map in Hin as (d & _ & Hin). unfold shownDeposit in Hin. destruct (Z.ltb_spec 0 (redeemableAt (hr_second r) d)); [|done].
    destruct Hin as [Hin|[]]. injection Hin as _ _ Ha. assert (Hk := sn_keyed _ _ _ _ _ Hs). apply Forall_cons in Hk as [[Hk _] _].
    destruct Hh as [Hh|[_ Hh]]; [|set_solver]. unfold isPositiveKamino in Hh. rewrite Hk, <- Ha, positive_printed in Hh by done. cbn in Hh.
    injection Hh as Hh. lia.
  - intros Hn. apply map_eq_nil in Hn as ->. eapply filterR_none; [exact Hf|]. cbn. eapply Forall_impl; [exact (sn_idle _ _ _ _ _ Hs)|].
    intros h Hh. unfold isPositiveKamino. by rewrite Hh.
Qed.

(** ** Token accounts *)
Context {Laws : PublicKeyLaws PK}.

(** The map of product token accounts holds product assets under their addresses. *)
Lemma idle_map vault assets m : foldR (idleAssetEntry vault) [] assets = Ok m -> forall k asset, mapGet m k = Some asset ->
  asset ∈ assets /\ exists ata, associatedTokenAddress (pa_mint asset) vault true (pa_tokenProgramId asset) = Ok ata /\ toBase58 ata = k.
Proof.
  assert (H : forall l m0 m, foldR (idleAssetEntry vault) m0 l = Ok m -> forall k asset, mapGet m k = Some asset ->
    mapGet m0 k = Some asset \/ (asset ∈ l /\ exists ata, associatedTokenAddress (pa_mint asset) vault true (pa_tokenProgramId asset) = Ok ata /\ toBase58 ata = k)).
  { induction l as [|x l IH]; intros m0 m' Hf k asset Hk; [injection Hf as <-; by left|]. cbn in Hf. apply bind_Ok in Hf as (m1 & H1 & Hf).
    apply bind_Ok in H1 as (ata & Ha & [= <-]). destruct (IH _ _ Hf k asset Hk) as [Hm|(Hin & Hx)]; [|right; set_solver].
    rewrite mapGet_set in Hm. destruct (String.eqb_spec (toBase58 ata) k) as [<-|]; [|by left]. injection Hm as ->. right. set_solver. }
  intros Hf k asset Hk. by destruct (H assets [] m Hf k asset Hk) as [?|?].
Qed.

(** A token account that does not stand in the way of closing the policy: empty, or the account of a product asset with dust *)
Definition settled_account (cluster : LoyalCluster) (vault : pubkey) (entry : pubkey * AccountInfo) : Prop :=
  exists decoded, decodeTokenAccount (info_data entry.2) = Ok decoded /\
    (ta_amount decoded <= 0 \/
     exists assets asset, getEarnProductAssetsForCluster cluster = Ok assets /\ asset ∈ assets /\
       associatedTokenAddress (pa_mint asset) vault true (pa_tokenProgramId asset) = Ok entry.1 /\
       ta_mint decoded = pa_mint asset /\ info_owner entry.2 = pa_tokenProgramId asset /\ ta_amount decoded < 10000).

Definition funded_account (entry : pubkey * AccountInfo) : Prop :=
  exists decoded, decodeTokenAccount (info_data entry.2) = Ok decoded /\ 0 < ta_amount decoded.

Lemma blocking_account cluster vault assets m mint entry account :
  getEarnProductAssetsForCluster cluster = Ok assets -> foldR (idleAssetEntry vault) [] assets = Ok m ->
  refundTokenAccount mint entry = Ok account ->
  if isBlocking m account then funded_account entry else settled_account cluster vault entry.
Proof.
  intros Ha Hm Hr. unfold refundTokenAccount in Hr. apply bind_Ok in Hr as (decoded & Hd & [= <-]). unfold isBlocking. cbn [rt_amountRaw rt_address rt_mint rt_tokenProgramId].
  destruct (Z.leb_spec (ta_amount decoded) 0) as [Hz|Hz]; [exists decoded; auto|].
  destruct (mapGet m (toBase58 entry.1)) as [asset|] eqn:Eg; [|by exists decoded].
  case_match eqn:Eb; [by exists decoded|]. apply orb_false_iff in Eb as [Eb Hdust]. apply orb_false_iff in Eb as [E1 E2].
  apply key_equals_true in E1, E2. apply Z.leb_gt in Hdust. destruct (idle_map _ _ _ Hm _ _ Eg) as (Hin & ata & Hata & Heq).
  apply toBase58_inj in Heq as ->. exists decoded. split; [done|]. right. exists assets, asset. rewrite <- E1, <- E2. unfold EARN_FINAL_EXIT_IDLE_DUST_TOLERANCE_RAW in Hdust. auto 10.
Qed.

Lemma filter_none {A} (f : A -> bool) l : List.filter f l = [] <-> Forall (fun x => f x = false) l.
Proof.
  induction l as [|x l IH]; cbn; [by split|]. rewrite Forall_cons, <- IH. destruct (f x); [|naive_solver]. split; [done|]. by intros [? _].
Qed.

(** No account blocks exactly when all are settled; an account that blocks holds something. *)
Lemma blocking_accounts cluster vault assets m mint entries accounts sorted :
  getEarnProductAssetsForCluster cluster = Ok assets -> foldR (idleAssetEntry vault) [] assets = Ok m ->
  mapR (refundTokenAccount mint) entries = Ok accounts -> sorted ≡ₚ accounts ->
  if (length (List.filter (isBlocking m) sorted) =? 0)%nat then Forall (settled_account cluster vault) entries else Exists funded_account entries.
Proof.
  intros Ha Hm Hr Hp. apply mapR_Ok_Forall2 in Hr. destruct (Nat.eqb_spec (length (List.filter (isBlocking m) sorted)) 0) as [H0|H0].
  - apply nil_length_inv, filter_none in H0. rewrite Hp in H0. apply Forall_forall. intros e He. apply list_elem_of_lookup in He as (i & Hi).
    destruct (Forall2_lookup_l _ _ _ _ _ Hr Hi) as (account & Hai & Hra). pose proof (blocking_account _ _ _ _ _ _ _ Ha Hm Hra) as Hb.
    rewrite Forall_forall in H0. by rewrite H0 in Hb by (by eapply list_elem_of_lookup_2).
  - destruct (List.filter (isBlocking m) sorted) as [|x l] eqn:Ef; [done|]. assert (Hx : In x (x :: l)) by by left. rewrite <- Ef in Hx.
    apply filter_In in Hx as [Hx Hbx]. apply list_elem_of_In in Hx. rewrite Hp in Hx. apply list_elem_of_lookup in Hx as (i & Hi).
    destruct (Forall2_lookup_r _ _ _ _ _ Hr Hi) as (e & Hei & Hre). pose proof (blocking_account _ _ _ _ _ _ _ Ha Hm Hre) as Hb. rewrite Hbx in Hb.
    apply Exists_exists. exists e. split; [by eapply list_elem_of_lookup_2|done].
Qed.

Lemma promiseAll_ok {A C} first (a : result A) (b : result C) x y : promiseAll first a b = Ok (x, y) <-> a = Ok x /\ b = Ok y.
Proof. destruct a, b; cbn; naive_solver. Qed.

Lemma vault_seen connection attempt programId cluster min settings vs read :
  fetchEarnVaultRefundSnapshot connection attempt programId cluster min settings = Ok vs -> conn_tokenAccounts connection = Some read ->
  exists t1 t2 mint accounts, deriveEarnVaultPda programId settings = Ok (vs_vaultPda vs) /\
    read attempt (vs_vaultPda vs) splTokenProgram min = Ok t1 /\ read attempt (vs_vaultPda vs) splToken2022Program min = Ok t2 /\
    mapR (refundTokenAccount mint) (tokens_value t1 ++ tokens_value t2) = Ok accounts /\ vs_tokenAccounts vs ≡ₚ accounts /\
    vs_observedSlot vs = Z.min (tokens_slot t1) (tokens_slot t2).
Proof.
  unfold fetchEarnVaultRefundSnapshot. intros H Hread. rewrite Hread in H. apply bind_Ok in H as (mint & _ & H). apply bind_Ok in H as (vault & Hv & H).
  apply bind_Ok in H as (ata & _ & H). apply bind_Ok in H as ([o1 o2] & Ho & H). apply bind_Ok in Ho as ([t1 t2] & Ht & [= <- <-]).
  apply promiseAll_ok in Ht as [H1 H2]. apply bind_Ok in H as (accounts & Ha & [= <-]). exists t1, t2, mint, accounts. cbn in *.
  repeat split; try done. apply sortStable_perm.
Qed.

Lemma not_Forall_Exists_leb {A} (f : A -> Z) l : ~ Forall (fun x => f x <= 0) l -> Exists (fun x => 0 < f x) l.
Proof.
  intros H. destruct (decide (Exists (fun x => 0 < f x) l)) as [|Hn]; [done|]. exfalso. apply H. apply not_Exists_Forall in Hn; [|intros x; apply _].
  eapply Forall_impl; [exact Hn|]. cbn. lia.
Qed.

(** What a status says of the deposits and token accounts read *)
Definition status_holds (cluster : LoyalCluster) (r : HoldingsRead) (entries : list (pubkey * AccountInfo)) (st : ExitStatus) : Prop :=
  match st with
  | policy_close_required =>
      Forall (fun d => is_Some (accountAt (hr_second r) (dd_reserve d)) /\ redeemableAt (hr_second r) d = 0) (depositsSeen r) /\
      Forall (settled_account cluster (hr_vault r)) entries
  | full_exit_incomplete =>
      Exists (fun d => 0 < redeemableAt (hr_second r) d) (depositsSeen r) \/ Exists funded_account entries
  end.

Lemma redeemable_at_nonneg a d : (forall info, accountAt a (dd_reserve d) = Some info -> Forall is_byte (info_data info)) -> 0 <= redeemableAt a d.
Proof.
  intros Hb. unfold redeemableAt. destruct (accountAt a (dd_reserve d)) as [info|]; [|done]. destruct (parseKaminoReserveSnapshot (info_data info)) eqn:E; [|done].
  eapply redeemable_nonneg, snapshot_nonneg, E. by apply Hb.
Qed.

Lemma status_of cluster reader min metadata programId settings r s kamino idle assets m mint entries accounts sorted rest :
  answers_bytes reader -> reads_chain cluster reader min metadata programId settings r -> snapshot_seen r true s kamino idle ->
  filterR isPositiveKamino (holdings s) = Ok rest ->
  getEarnProductAssetsForCluster cluster = Ok assets -> foldR (idleAssetEntry (hr_vault r)) [] assets = Ok m ->
  mapR (refundTokenAccount mint) entries = Ok accounts -> sorted ≡ₚ accounts ->
  status_holds cluster r entries
    (if (length rest =? 0)%nat && (length (map proofTokenAccount (List.filter (isBlocking m) sorted)) =? 0)%nat
     then policy_close_required else full_exit_incomplete).
Proof.
  intros Hb Hr Hs Hrest Ha Hm Hent Hsort. pose proof (blocking_accounts _ _ _ _ _ _ _ _ Ha Hm Hent Hsort) as Hblock.
  pose proof (remaining_kamino _ _ _ _ _ _ Hs Hrest) as Hk. rewrite length_map.
  destruct (Nat.eqb_spec (length rest) 0) as [H0|H0]; cbn [andb].
  - apply nil_length_inv, Hk in H0. destruct (length (List.filter (isBlocking m) sorted) =? 0)%nat; [|by right]. split; [|done].
    assert (Hc := sn_complete _ _ _ _ _ Hs eq_refl). rewrite Forall_forall in Hc, H0. apply Forall_forall. intros d Hd. split; [by apply Hc|].
    enough (0 <= redeemableAt (hr_second r) d) by (specialize (H0 d Hd); cbn in H0; lia). apply redeemable_at_nonneg. intros info Hi.
    destruct (rd_second _ _ _ _ _ _ _ Hr) as [E|E]; [rewrite E in Hd; set_solver|]. by eapply Hb.
  - left. apply not_Forall_Exists_leb. intros Hall. apply H0. apply Hk in Hall as ->. done.
Qed.

(** The slot the snapshot of the holdings states: the greatest of the slots answered, which does not bound the older answer *)
Definition slotSeen (r : HoldingsRead) : Z :=
  Z.max (Z.max 0 (context_slot (hr_first r))) (if (0 <? length (depositsSeen r))%nat then Z.max 0 (context_slot (hr_second r)) else Z.max 0 (context_slot (hr_first r))).

Lemma classified cluster reader min metadata programId settings r s kamino idle vs mint entries accounts proof :
  answers_bytes reader -> reads_chain cluster reader (Some min) metadata programId settings r -> snapshot_seen r true s kamino idle ->
  vs_vaultPda vs = hr_vault r -> mapR (refundTokenAccount mint) entries = Ok accounts -> vs_tokenAccounts vs ≡ₚ accounts ->
  classifyZeroProof cluster s min vs = Ok proof ->
  min <= slotSeen r /\ min <= vs_observedSlot vs /\ status_holds cluster r entries (status proof).
Proof.
  intros Hb Hr Hs Hv Hent Hperm H. unfold classifyZeroProof in H. rewrite (sn_slot _ _ _ _ _ Hs), BigInt_toString_roundtrip in H. fold (slotSeen r) in H.
  destruct (negb (isSafeInteger (slotSeen r)) || (slotSeen r <? min)) eqn:E; [done|]. apply orb_false_iff in E as [_ E]. apply Z.ltb_ge in E.
  cbn [mbind result_bind] in H. destruct (Z.ltb_spec (vs_observedSlot vs) min) as [|Hslot]; [done|]. apply bind_Ok in H as (rest & Hrest & H).
  apply bind_Ok in H as (assets & Ha & H). apply bind_Ok in H as (m & Hm & H). apply bind_Ok in H as (remaining & _ & [= <-]).
  split; [done|]. split; [done|]. cbn [status]. rewrite Hv in Hm. by eapply status_of.
Qed.

(** The answers of a node that keeps to [minContextSlot] come from that slot or a later one. *)
Definition keeps_to (reader : AccountReader) (min : Z) : Prop := forall call ks a, reader call (Some min) ks = Ok a -> min <= context_slot a.

(** Then both holdings reads are at or after the slot. *)
Lemma both_reads cluster reader min metadata programId settings r : reads_chain cluster reader (Some min) metadata programId settings r -> keeps_to reader min ->
  min <= context_slot (hr_first r) /\ (depositsSeen r = [] \/ min <= context_slot (hr_second r)).
Proof.
  intros Hr Hk. split; [exact (Hk _ _ _ (rd_first _ _ _ _ _ _ _ Hr))|]. destruct (rd_second _ _ _ _ _ _ _ Hr) as [E|E]; [by left|right; exact (Hk _ _ _ E)].
Qed.

(** What was read when a proof has status [st] *)
Definition exit_evidence (cluster : LoyalCluster) (connection : Connection) (min : Z) (metadata : EarnRpcPolicyMetadata)
    (programId settings : pubkey) (st : ExitStatus) : Prop :=
  exists resolved attempt r read t1 t2,
    resolveFullExitPolicyMetadata cluster metadata = Ok resolved /\ (attempt < 3)%nat /\
    reads_chain cluster (conn_accounts connection attempt) (Some min) (Some resolved) programId settings r /\
    conn_tokenAccounts connection = Some read /\
    read attempt (hr_vault r) splTokenProgram (Some min) = Ok t1 /\ read attempt (hr_vault r) splToken2022Program (Some min) = Ok t2 /\
    min <= slotSeen r /\ min <= tokens_slot t1 /\ min <= tokens_slot t2 /\
    (keeps_to (conn_accounts connection attempt) min -> min <= context_slot (hr_first r) /\ (depositsSeen r = [] \/ min <= context_slot (hr_second r))) /\
    status_holds cluster r (tokens_value t1 ++ tokens_value t2) st.

Lemma exit_seen cluster connection min metadata programId settings now proof :
  (forall attempt, answers_bytes (conn_accounts connection attempt)) ->
  verifyEarnFullExitZeroBalances cluster connection min metadata programId settings now = Ok proof ->
  exit_evidence cluster connection min metadata programId settings (status proof).
Proof.
  intros Hb H. unfold verifyEarnFullExitZeroBalances in H. destruct (negb (isSafeInteger min) || (min <? 0)); [done|].
  destruct (conn_tokenAccounts connection) as [read|] eqn:Eread; [|done]. apply bind_Ok in H as (resolved & Hres & H). apply bind_Ok in H as ([s vs] & Hboth & H).
  destruct (attempts_spec _ _ _ _ _ Hboth) as [(attempt & Hlt & _ & Hat & _)|[_ ?]]; [|done]. cbn [Nat.add] in Hat.
  apply promiseAll_ok in Hat as [Hh Hvs]. destruct (fetch_seen _ _ _ _ _ _ _ _ _ (Hb attempt) Hh) as (r & kamino & idle & Hr & Hs).
  destruct (vault_seen _ _ _ _ _ _ _ _ Hvs Eread) as (t1 & t2 & mint & accounts & Hv & H1 & H2 & Hent & Hperm & Hslot).
  assert (Hvault : vs_vaultPda vs = hr_vault r) by (pose proof (rd_vault _ _ _ _ _ _ _ Hr); congruence). rewrite Hvault in H1, H2.
  destruct (classified _ _ _ _ _ _ _ _ _ _ _ _ _ _ _ (Hb attempt) Hr Hs Hvault Hent Hperm H) as (Hs1 & Hs2 & Hst).
  exists resolved, attempt, r, read, t1, t2. unfold SLOT_LAG_ATTEMPTS in Hlt. do 9 (split; [done || lia|]). split; [by eapply both_reads|done].
Qed.

(** C26. A full exit is declared complete only on evidence. The proof comes from one of at most three attempts, in which every read asked the node for at least the confirmation
    slot; the two reads of token accounts were answered at or after it, and so was the later of the two reads of the holdings, both of them when the node keeps to the slot asked for.
    "policy_close_required" then means that every deposit of every obligation in the allowed markets, its reserve read too, redeems to nothing and every token account of the vault is
    empty or is the account of a product asset with less than a cent; and "full_exit_incomplete" that a deposit redeems to something or a token account holds something. *)
Theorem zero_proof_exact (cluster : LoyalCluster) (connection : Connection) (min : Z) (metadata : EarnRpcPolicyMetadata)
    (programId settings : pubkey) (now : nat -> string) (proof : EarnFullExitZeroProof) :
  (forall attempt, answers_bytes (conn_accounts connection attempt)) ->
  verifyEarnFullExitZeroBalances cluster connection min metadata programId settings now = Ok proof ->
  exists resolved attempt r read t1 t2,
    resolveFullExitPolicyMetadata cluster metadata = Ok resolved /\ (attempt < 3)%nat /\
    reads_chain cluster (conn_accounts connection attempt) (Some min) (Some resolved) programId settings r /\
    conn_tokenAccounts connection = Some read /\
    read attempt (hr_vault r) splTokenProgram (Some min) = Ok t1 /\ read attempt (hr_vault r) splToken2022Program (Some min) = Ok t2 /\
    min <= slotSeen r /\ min <= tokens_slot t1 /\ min <= tokens_slot t2 /\
    (keeps_to (conn_accounts connection attempt) min -> min <= context_slot (hr_first r) /\ (depositsSeen r = [] \/ min <= context_slot (hr_second r))) /\
    status_holds cluster r (tokens_value t1 ++ tokens_value t2) (status proof).
Proof. intros Hb H. exact (exit_seen _ _ _ _ _ _ _ _ Hb H). Qed.

(** ** Targets of a full withdrawal *)
Definition targetShown (t : WithdrawalTarget) : pubkey * pubkey * Z := (wt_market t, wt_reserve t, wt_amountRaw t).
Definition depositTarget (a : RpcAnswer) (d : DiscoveredReserveDeposit) : list (pubkey * pubkey * Z) :=
  if 0 <? redeemableAt a d then [(dd_market d, dd_reserve d, redeemableAt a d)] else [].

Lemma truthy_toBase58 k : truthy (Some (toBase58 k)) = Some (toBase58 k).
Proof. unfold truthy. destruct (String.eqb_spec (toBase58 k) EmptyString) as [E|]; [|done]. by apply toBase58_nonempty in E. Qed.

Lemma kamino_target h market reserve z : kamino_keyed h -> h_market h = Some (toBase58 market) -> h_reserve h = Some (toBase58 reserve) ->
  amountRaw h = bigint_toString z -> 0 < z ->
  exists t, withdrawalTarget h = Ok [t] /\ targetShown t = (market, reserve, z).
Proof.
  intros (Hk & Ha & mint & program & collateral & Hm & Hp & _) Hmk Hrs Ham Hz. unfold withdrawalTarget.
  rewrite Hk, Hmk, Hrs, !truthy_toBase58, Ham, BigInt_toString_roundtrip, Hm, Hp, !newPublicKey_toBase58. destruct (Z.leb_spec z 0); [lia|].
  cbn [mbind result_bind]. by eexists.
Qed.

Lemma kamino_targets a ds kamino : Forall kamino_keyed kamino -> map shown kamino = flat_map (shownDeposit a) ds ->
  exists ts, flatMapR withdrawalTarget kamino = Ok ts /\ map targetShown ts = flat_map (depositTarget a) ds.
Proof.
  revert kamino. induction ds as [|d ds IH]; intros kamino Hk Hs.
  - apply map_eq_nil in Hs as ->. by exists [].
  - cbn [flat_map] in *. unfold shownDeposit, depositTarget in *. destruct (Z.ltb_spec 0 (redeemableAt a d)) as [Hz|]; [|by apply IH].
    destruct kamino as [|h kamino]; [done|]. cbn [map app] in *. injection Hs as H1 H2 H3 Hs. apply Forall_cons in Hk as [Hkh Hk].
    destruct (IH kamino Hk Hs) as (ts & Hts & Hmap). destruct (kamino_target h _ _ _ Hkh H1 H2 H3 Hz) as (t & Ht & Hsh).
    exists (t :: ts). split; [|cbn; by rewrite Hsh, Hmap]. apply flatMapR_cons. by exists [t], ts.
Qed.

Lemma targets_seen r complete s kamino idle : snapshot_seen r complete s kamino idle ->
  exists targets, snapshotFullWithdrawalTargets (holdings s) = Ok targets /\
    map targetShown targets = flat_map (depositTarget (hr_second r)) (depositsSeen r).
Proof.
  intros Hs. destruct (kamino_targets _ _ _ (sn_keyed _ _ _ _ _ Hs) (sn_shown _ _ _ _ _ Hs)) as (ts & Hts & Hmap). exists ts. split; [|done].
  rewrite (sn_holdings _ _ _ _ _ Hs). unfold snapshotFullWithdrawalTargets. apply flatMapR_app. exists ts, []. split; [done|]. split; [|by rewrite app_nil_r].
  assert (Hi := sn_idle _ _ _ _ _ Hs). clear -Hi. induction Hi as [|h l Hh _ IH]; [done|]. apply flatMapR_cons. exists [], []. split; [|done].
  unfold withdrawalTarget. by rewrite Hh.
Qed.

(** A full withdrawal takes out of every reserve: on a snapshot of the vault, its targets are, in order, the deposits that
    redeem to something, each with its market, its reserve and the whole amount it redeems to. *)
Theorem withdrawal_targets_exact (cluster : LoyalCluster) (reader : AccountReader) (min : option Z) (metadata : option EarnRpcPolicyMetadata)
    (programId settings : pubkey) (complete : bool) (now : string) (s : EarnRpcHoldingsSnapshot) :
  answers_bytes reader -> fetchEarnRpcHoldingsSnapshot cluster reader min metadata programId complete settings now = Ok s ->
  exists r targets, reads_chain cluster reader min metadata programId settings r /\ snapshotFullWithdrawalTargets (holdings s) = Ok targets /\
    map targetShown targets = flat_map (depositTarget (hr_second r)) (depositsSeen r).
Proof.
  intros Hb H. destruct (fetch_seen _ _ _ _ _ _ _ _ _ Hb H) as (r & kamino & idle & Hr & Hs). destruct (targets_seen _ _ _ _ _ Hs) as (ts & Hts).
  by exists r, ts.
Qed.
End FullExit.

Module FullExitWitness.
Import DemoKeys KaminoWitness HoldingsWitness.

Definition compareTexts (_ _ : string) : Z := 0.
Definition noCode (_ : exn) : option Z := None.

(** The first attempt lags behind; then the vault has dust of 250 and a deposit of [amount]. *)
Definition demoConnection (amount : Z) : Connection := {|
  conn_accounts attempt := if (attempt =? 0)%nat then fun _ _ _ => throwError "Minimum context slot has not been reached" else demoReader 250 amount;
  conn_tokenAccounts := Some (fun _ _ program _ =>
    Ok {| tokens_slot := 20; tokens_value := if bool_decide (program = usdcProgram) then [(demoAta, ataInfo 250)] else [] |});
  conn_balance := None;
  conn_token2022First _ := false;
  conn_vaultFirst _ := false;
|}.

Definition demoVerify (amount : Z) : result EarnFullExitZeroProof :=
  verifyEarnFullExitZeroBalances compareTexts noCode Devnet (demoConnection amount) 5 demoPolicy demoProgram demoSettings (fun _ => "now"%string).

Example verify_empty : (fun p => (status p, map pt_amountRaw (cleanupTokenAccounts p))) <$> demoVerify 0 = Ok (policy_close_required, ["250"%string]).
Proof. vm_compute. done. Qed.
Example verify_deposit : status <$> demoVerify 500 = Ok full_exit_incomplete.
Proof. vm_compute. done. Qed.

Lemma connection_bytes amount : Forall is_byte (info_data (obligationInfo amount)) -> forall attempt, answers_bytes (conn_accounts (demoConnection amount) attempt).
Proof.
  intros Ha [|attempt]; [intros i min ks a k acc H; discriminate H|].
  apply demo_bytes; [apply info_bytes; vm_compute; reflexivity|done|apply info_bytes; vm_compute; reflexivity].
Qed.

Lemma zero_proof_exact_witness :
  match demoVerify 0 with
  | Ok proof => exists resolved attempt r read t1 t2,
      resolveFullExitPolicyMetadata Devnet demoPolicy = Ok resolved /\ (attempt < 3)%nat /\
      reads_chain Devnet (conn_accounts (demoConnection 0) attempt) (Some 5) (Some resolved) demoProgram demoSettings r /\
      conn_tokenAccounts (demoConnection 0) = Some read /\
      read attempt (hr_vault r) splTokenProgram (Some 5) = Ok t1 /\ read attempt (hr_vault r) splToken2022Program (Some 5) = Ok t2 /\
      5 <= slotSeen r /\ 5 <= tokens_slot t1 /\ 5 <= tokens_slot t2 /\
      (keeps_to (conn_accounts (demoConnection 0) attempt) 5 -> 5 <= context_slot (hr_first r) /\ (depositsSeen r = [] \/ 5 <= context_slot (hr_second r))) /\
      status_holds Devnet r (tokens_value t1 ++ tokens_value t2) (status proof)
  | Throw _ => False
  end.
Proof.
  assert (H : is_ok (demoVerify 0) = true) by (vm_compute; reflexivity). destruct (demoVerify 0) as [proof|] eqn:E; [|discriminate H].
  apply (zero_proof_exact compareTexts noCode Devnet (demoConnection 0) 5 demoPolicy demoProgram demoSettings (fun _ => "now"%string) proof); [|exact E].
  apply connection_bytes, info_bytes. vm_compute. reflexivity.
Defined.

Lemma withdrawal_targets_exact_witness :
  match demoFetch with
  | Ok s => exists r targets, reads_chain Devnet (demoReader 250 500) (Some 5) (Some demoPolicy) demoProgram demoSettings r /\
      snapshotFullWithdrawalTargets (holdings s) = Ok targets /\
      map targetShown targets = flat_map (depositTarget (hr_second r)) (depositsSeen r)
  | Throw _ => False
  end.
Proof.
  assert (H : is_ok demoFetch = true) by (vm_compute; reflexivity). destruct demoFetch as [s|] eqn:E; [|discriminate H].
  apply (withdrawal_targets_exact Devnet (demoReader 250 500) (Some 5) (Some demoPolicy) demoProgram demoSettings true "now" s); [|exact E].
  apply demo_bytes; apply info_bytes; vm_compute; reflexivity.
Defined.
End FullExitWitness.
