(* ===== verification/WithdrawInput.v ===== *)
(** From the body of a withdrawal request to the input of the withdrawal
    (web/apps/web/src/lib/yield-optimization: earn-withdraw-prepare-contracts.shared.ts and
    earn-withdraw-input-resolution.server.ts, with the two queries of yield-deposit-repository.server.ts it rests on): the
    request, in its present and its legacy form; the active policy of the vault; the sources of the snapshot of Holdings.v;
    the choice of a source, the amount and the targets; the form in which the input travels to a device; and the errors
    shown to the caller.

    The tables of the database are an argument: what each query of each attempt sees, in the order in which rows come when
    none is asked for. *)
From S2P Require Import Prelude JsString JsMap Solana Bytes Subscriptions Protocols Registry Voltr Json RpcFetch Pda Kamino Holdings FullExit.

(** ** Thrown values *)
Inductive Thrown :=
  | ThrownResolve (status : Z) (code message : string)
  | ThrownError (error : exn) (code : option string)
  | ThrownObject (code message : option string)
  | ThrownText (text : string)
  | ThrownOther.

(** What an asynchronous function of the resolution gives *)
Inductive outcome (A : Type) := Done (a : A) | Failed (e : Thrown).
Arguments Done {A} a.
Arguments Failed {A} e.

#[export] Instance outcome_bind : MBind outcome := fun A C f m => match m with Done a => f a | Failed e => Failed e end.

Definition lift {A} (r : result A) : outcome A := match r with Ok a => Done a | Throw e => Failed (ThrownError e None) end.
Definition resolveError {A} (status : Z) (code message : string) : outcome A := Failed (ThrownResolve status code message).

Lemma outcome_done {A C} (m : outcome A) (f : A -> outcome C) c : (m ≫= f) = Done c <-> exists a, m = Done a /\ f a = Done c.
Proof. destruct m; cbn; naive_solver. Qed.

Lemma lift_done {A} (r : result A) a : lift r = Done a <-> r = Ok a.
Proof. destruct r; cbn; naive_solver. Qed.

Ltac inv_outcome :=
  repeat match goal with
  | H : mbind _ _ = Done _ |- _ => apply outcome_done in H; destruct H as (? & ? & H)
  | H : lift _ = Done _ |- _ => apply lift_done in H
  | H : Done _ = Done _ |- _ => injection H as H
  | H : Failed _ = Done _ |- _ => discriminate H
  | H : resolveError _ _ _ = Done _ |- _ => discriminate H
  end.

(** ** The request *)
Inductive SourceKind := TypeReserve | TypeIdle.
#[export] Instance SourceKind_eq_dec : EqDecision SourceKind.
Proof. solve_decision. Defined.

(** [market] may also be null. *)
Record EarnWithdrawLegacySourceRequest := {
  lq_amountRaw : option string;
  lq_id : string;
  lq_liquidityMint : option string;
  lq_market : option (option string);
  lq_mint : option string;
  lq_reserve : option string;
  lq_tokenAccount : option string;
  lq_type : SourceKind;
}.

Inductive RequestMode := Partial | Full.
Record EarnWithdrawLegacyPrepareRequest := { lg_mode : RequestMode; lg_source : option EarnWithdrawLegacySourceRequest }.

(** An amount of [None] is "max". *)
Record WithdrawRequest := {
  wq_amountRaw : option Z;
  wq_sourceId : option string;
  wq_legacy : option EarnWithdrawLegacyPrepareRequest;
}.

Definition assertRequestObject (body : json) : result json :=
  if is_object body then Ok body else throwError "Request body must be an object.".

Definition readUnsignedIntegerString (body : json) (key : string) : result string :=
  match get key body with
  | JString value =>
      let trimmed := trim (chars value) in
      if all_digits trimmed then Ok (unchars trimmed) else throwError (key +:+ " must be an unsigned integer string.")
  | _ => throwError (key +:+ " must be an unsigned integer string.")
  end.

(** [value.trim()] of a text *)
Definition trimmedOf (value : json) : option string := match value with JString text => Some (unchars (trim (chars text))) | _ => None end.

Definition readLegacyWithdrawSource (body : json) : result (option EarnWithdrawLegacySourceRequest) :=
  match get "source" body with
  | JUndefined | JNull => Ok None
  | source =>
      if negb (is_object source) then throwError "source must be an object when provided."
      else
        type ← match get "type" source with
               | JString "reserve" => Ok TypeReserve
               | JString "idle" => Ok TypeIdle
               | _ => throwError "source.type must be reserve or idle."
               end;
        id ← match trimmedOf (get "id" source) with
             | Some id => if String.eqb id EmptyString then throwError "source.id must be a non-empty string." else Ok id
             | None => throwError "source.id must be a non-empty string."
             end;
        Ok (Some {| lq_amountRaw := match get "amountRaw" source with
                                    | JString text => if all_digits (chars text) then Some text else None
                                    | _ => None
                                    end;
                    lq_id := id;
                    lq_liquidityMint := trimmedOf (get "liquidityMint" source);
                    lq_market := match get "market" source with
                                 | JString text => Some (Some (unchars (trim (chars text))))
                                 | JNull => Some None
                                 | _ => None
                                 end;
                    lq_mint := trimmedOf (get "mint" source);
                    lq_reserve := trimmedOf (get "reserve" source);
                    lq_tokenAccount := trimmedOf (get "tokenAccount" source);
                    lq_type := type |})
  end.

Definition parseEarnWithdrawPrepareRequestBody (body : json) : result WithdrawRequest :=
  record ← assertRequestObject body;
  amountRaw ← match get "amountRaw" record with
              | JString "max" => Ok None
              | _ => text ← readUnsignedIntegerString record "amountRaw"; Some <$> BigInt_of_string text
              end;
  if match amountRaw with Some z => z <=? 0 | None => false end then throwError "amountRaw must be greater than 0."
  else
    let legacyMode :=
      match get "sourceId" record, get "mode" record with
      | JUndefined, JString "partial" => Some Partial
      | JUndefined, JString "full" => Some Full
      | _, _ => None
      end in
    match legacyMode with
    | Some mode =>
        match amountRaw with
        | None => throwError "amountRaw must be an unsigned integer string."
        | Some _ =>
            source ← readLegacyWithdrawSource record;
            Ok {| wq_amountRaw := amountRaw; wq_sourceId := None; wq_legacy := Some {| lg_mode := mode; lg_source := source |} |}
        end
    | None =>
        match trimmedOf (get "sourceId" record) with
        | Some sourceId =>
            if String.eqb sourceId EmptyString then throwError "sourceId must be a non-empty string."
            else Ok {| wq_amountRaw := amountRaw; wq_sourceId := Some sourceId; wq_legacy := None |}
        | None => throwError "sourceId must be a non-empty string."
        end
    end.

(** ** The policy of the vault *)
(** The columns that are read *)
Record RoutePolicyRecord := {
  rp_id : Z;
  rp_cluster : option string;
  rp_settings : string;
  rp_authority : string;
  rp_policySeed : Z;
  rp_policyAccount : string;
  rp_vaultIndex : Z;
  rp_vaultPubkey : string;
  rp_stableMints : list string;
  rp_kaminoMarkets : list string;
  rp_kaminoLiquidityMints : list string;
  rp_active : bool;
}.

Record ManagedVaultRecord := {
  mv_id : Z;
  mv_settings : string;
  mv_vaultIndex : Z;
  mv_vaultPubkey : string;
  mv_activePolicyId : Z;
  mv_setupPolicyId : option Z;
  mv_active : bool;
  mv_lastSeenAt : Z;
}.

Record Tables := { managedVaults : list ManagedVaultRecord; routePolicies : list RoutePolicyRecord }.
Record ActiveYieldRoutePolicyPair := { pair_routePolicy : RoutePolicyRecord; pair_setupPolicy : option RoutePolicyRecord }.

Record PolicyLookup := { pl_authority : string; pl_cluster : string; pl_settings : string; pl_vaultIndex : Z; pl_vaultPubkey : string }.

(** [vaultPubkey] is not filtered on when it is empty. *)
Definition vaultMatches (input : PolicyLookup) (vault : ManagedVaultRecord) : bool :=
  mv_active vault && String.eqb (mv_settings vault) (pl_settings input) && (mv_vaultIndex vault =? pl_vaultIndex input) &&
  (String.eqb (pl_vaultPubkey input) EmptyString || String.eqb (mv_vaultPubkey vault) (pl_vaultPubkey input)).

(** Latest seen first, then greatest id *)
Definition compareVaults (a b : ManagedVaultRecord) : Z :=
  if mv_lastSeenAt a =? mv_lastSeenAt b then mv_id b - mv_id a else mv_lastSeenAt b - mv_lastSeenAt a.

Definition policyMatches (input : PolicyLookup) (id : Z) (vaultPubkey : string) (policy : RoutePolicyRecord) : bool :=
  rp_active policy && String.eqb (rp_authority policy) (pl_authority input) && (rp_id policy =? id) &&
  String.eqb (rp_settings policy) (pl_settings input) && (rp_vaultIndex policy =? pl_vaultIndex input) &&
  String.eqb (rp_vaultPubkey policy) vaultPubkey.

(** The three queries, in order *)
Definition findActiveYieldRoutePolicyPair (tablesAt : nat -> result Tables) (input : PolicyLookup) : result (option ActiveYieldRoutePolicyPair) :=
  tables ← tablesAt 0%nat;
  match head (sortStable compareVaults (List.filter (vaultMatches input) (managedVaults tables))) with
  | None => Ok None
  | Some vault =>
      tables ← tablesAt 1%nat;
      match List.find (policyMatches input (mv_activePolicyId vault) (mv_vaultPubkey vault)) (routePolicies tables) with
      | None => Ok None
      | Some routePolicy =>
          setupPolicy ←
            match mv_setupPolicyId vault with
            | Some id =>
                tables ← tablesAt 2%nat;
                Ok (List.find (policyMatches input id (mv_vaultPubkey vault)) (routePolicies tables))
            | None => Ok None
            end;
          Ok (Some {| pair_routePolicy := routePolicy; pair_setupPolicy := setupPolicy |})
      end
  end.

(** A row of the join; a cluster that is NULL equals nothing. *)
Definition inactiveMatch (input : PolicyLookup) (cluster : string) (vault : ManagedVaultRecord) (policy : RoutePolicyRecord) : bool :=
  (rp_id policy =? mv_activePolicyId vault) &&
  String.eqb (mv_settings vault) (pl_settings input) && (mv_vaultIndex vault =? pl_vaultIndex input) &&
  String.eqb (mv_vaultPubkey vault) (pl_vaultPubkey input) && String.eqb (rp_authority policy) (pl_authority input) &&
  match rp_cluster policy with Some c => String.eqb c cluster | None => false end &&
  String.eqb (rp_settings policy) (pl_settings input) && (rp_vaultIndex policy =? pl_vaultIndex input) &&
  String.eqb (rp_vaultPubkey policy) (pl_vaultPubkey input) && (negb (mv_active vault) || negb (rp_active policy)).

Definition hasInactiveYieldRoutePolicyForVault (tables : result Tables) (input : PolicyLookup) : result bool :=
  cluster ← normalizeLoyalCluster (pl_cluster input);
  tables ← tables;
  Ok (existsb (fun vault => existsb (inactiveMatch input (LoyalCluster_value cluster) vault) (routePolicies tables)) (managedVaults tables)).

Definition POLICY_PROJECTION_RETRY_DELAYS_MS : list Z := [0; 100; 250; 500; 1000].

(** The attempts, one per delay, until there is a policy *)
Fixpoint awaitPolicy (find : nat -> result (option ActiveYieldRoutePolicyPair)) (delays : list Z) (attempt : nat) :
    result (option ActiveYieldRoutePolicyPair) :=
  match delays with
  | [] => Ok None
  | _ :: delays =>
      policyResult ← find attempt;
      match policyResult with Some found => Ok (Some found) | None => awaitPolicy find delays (S attempt) end
  end.

(** The fields of [serializeRoutePolicyState] that the holdings read *)
Definition serializeRoutePolicyState (policy : RoutePolicyRecord) : EarnRpcPolicyMetadata := {|
  kaminoLiquidityMints := Some (rp_kaminoLiquidityMints policy);
  kaminoMarkets := Some (rp_kaminoMarkets policy);
  stableMints := Some (rp_stableMints policy);
  vaultIndex := rp_vaultIndex policy |}.

(** ** Sources *)
(** The fields the two kinds of source share, then their own; [ss_mint] is [liquidityMint] or [mint]. *)
Inductive SourcePlace := AtReserve (market reserve : string) | AtTokenAccount (tokenAccount : string).
Record SelectedEarnWithdrawSource := {
  ss_amountRaw : Z;
  ss_id : string;
  ss_mint : string;
  ss_sourceId : string;
  ss_tokenProgramId : string;
  ss_place : SourcePlace;
}.
Definition ss_type (source : SelectedEarnWithdrawSource) : SourceKind :=
  match ss_place source with AtReserve _ _ => TypeReserve | AtTokenAccount _ => TypeIdle end.

Definition snapshotSource (holding : EarnRpcHolding) : list SelectedEarnWithdrawSource :=
  match BigInt_of_string (amountRaw holding) with
  | Throw _ => []
  | Ok amount =>
      if amount <=? 0 then []
      else
        match h_kind holding with
        | Idle =>
            match truthy (mjoin (mapGet (h_provenance holding) "tokenAccount"%string)) with
            | None => []
            | Some tokenAccount =>
                [{| ss_amountRaw := amount; ss_id := tokenAccount; ss_mint := h_liquidityMint holding; ss_sourceId := sourceId holding;
                    ss_tokenProgramId := h_tokenProgramId holding; ss_place := AtTokenAccount tokenAccount |}]
            end
        | KaminoHolding =>
            match truthy (h_reserve holding), truthy (h_market holding) with
            | Some reserve, Some market =>
                [{| ss_amountRaw := amount; ss_id := reserve; ss_mint := h_liquidityMint holding; ss_sourceId := sourceId holding;
                    ss_tokenProgramId := h_tokenProgramId holding; ss_place := AtReserve market reserve |}]
            | _, _ => []
            end
        end
  end.
Definition buildSnapshotWithdrawSources (holdings : list EarnRpcHolding) : list SelectedEarnWithdrawSource := flat_map snapshotSource holdings.

Definition selectRequestedEarnWithdrawSource (sources : list SelectedEarnWithdrawSource) (sourceId : string) : outcome SelectedEarnWithdrawSource :=
  match List.filter (fun source => String.eqb (ss_sourceId source) sourceId) sources with
  | [selected] => Done selected
  | _ => resolveError 409 "earn_withdraw_source_changed" "The selected Earn source changed. Refresh and choose it again."
  end.

(** ** Legacy selection *)
Definition isNonEmptyString (value : option string) : option string :=
  match value with Some text => if (length (trim (chars text)) =? 0)%nat then None else Some text | None => None end.

(** [value.replace(/^(?:reserve|idle):/, "")] *)
Definition stripSourceIdPrefix (value : string) : string :=
  let l := chars value in
  let reserve := chars "reserve:"%string in
  let idle := chars "idle:"%string in
  if hasPrefix reserve l then unchars (drop (length reserve) l)
  else if hasPrefix idle l then unchars (drop (length idle) l)
  else value.

Definition legacySourceMatchesDirectIdentifier (request : EarnWithdrawLegacySourceRequest) (source : SelectedEarnWithdrawSource) : bool :=
  if bool_decide (ss_type source = lq_type request) then
    let identifiers := map stripSourceIdPrefix (omap isNonEmptyString [Some (lq_id request); lq_reserve request; lq_tokenAccount request]) in
    member (ss_id source) identifiers ||
    match ss_place source with AtReserve _ reserve => member reserve identifiers | AtTokenAccount _ => false end
  else false.

Definition legacySourceMatchesStableMint (request : EarnWithdrawLegacySourceRequest) (source : SelectedEarnWithdrawSource) : bool :=
  if bool_decide (ss_type source = lq_type request) then
    member (ss_mint source) (omap isNonEmptyString [Some (lq_id request); lq_liquidityMint request; lq_mint request])
  else false.

Definition selectLegacyEarnWithdrawSource (sources : list SelectedEarnWithdrawSource) (request : option EarnWithdrawLegacySourceRequest) :
    option SelectedEarnWithdrawSource :=
  match request with
  | None => match sources with [source] => Some source | _ => None end
  | Some request =>
      match List.find (legacySourceMatchesDirectIdentifier request) sources with
      | Some source => Some source
      | None =>
          match List.filter (legacySourceMatchesStableMint request) sources with
          | [source] => Some source
          | stableMintMatches =>
              match List.filter (fun source => bool_decide (lq_amountRaw request = Some (bigint_toString (ss_amountRaw source)))) stableMintMatches with
              | [source] => Some source
              | _ => None
              end
          end
      end
  end.

Section Resolution.
Context {PK : PublicKeys} {KB : KeyBytes PK} {B : BeetUints} {TL : TokenLayouts PK}.

(** ** The input of a withdrawal *)
Record EarnUsdcReserveTarget := {
  ut_liquidityMint : pubkey;
  ut_liquidityTokenProgram : pubkey;
  ut_market : pubkey;
  ut_reserve : pubkey;
  ut_supplyApyBps : option Z;
}.

Inductive InputPlace := InReserve (market reserve : pubkey) | InTokenAccount (tokenAccount tokenProgramId : pubkey).
Record InputSource := { is_amountRaw : Z; is_id : string; is_mint : pubkey; is_place : InputPlace }.
Record PolicyKey := { pk_account : pubkey; pk_seed : Z }.

(** [closePoliciesOnFullWithdrawal] is false and there is no [autodepositClose]; no targets are an empty list. *)
Record SmartAccountEarnUsdcWithdrawInput := {
  in_amountRaw : Z;
  in_cluster : LoyalCluster;
  in_feePayer : pubkey;
  in_policySigner : pubkey;
  in_settingsPda : pubkey;
  in_target : option EarnUsdcReserveTarget;
  in_fullWithdrawalTargets : list WithdrawalTarget;
  in_source : InputSource;
  in_walletAddress : pubkey;
  in_policy : PolicyKey;
  in_setupPolicy : option PolicyKey;
  in_mode : RequestMode;
}.

Definition snapshotReserveTarget (holdings : list EarnRpcHolding) : result (option EarnUsdcReserveTarget) :=
  match List.find (fun holding =>
          match h_kind holding, truthy (h_reserve holding), truthy (h_market holding) with KaminoHolding, Some _, Some _ => true | _, _, _ => false end) holdings with
  | None => Ok None
  | Some kamino =>
      let supplyApy := match truthy (supplyApyBps kamino) with
                       | Some text => match BigInt_of_string text with Ok z => Some z | Throw _ => None end
                       | None => None
                       end in
      liquidityMint ← newPublicKey (h_liquidityMint kamino);
      liquidityTokenProgram ← newPublicKey (h_tokenProgramId kamino);
      market ← newPublicKey (default EmptyString (h_market kamino));
      reserve ← newPublicKey (default EmptyString (h_reserve kamino));
      Ok (Some {| ut_liquidityMint := liquidityMint; ut_liquidityTokenProgram := liquidityTokenProgram; ut_market := market;
                  ut_reserve := reserve; ut_supplyApyBps := supplyApy |})
  end.

(** For a source at a reserve *)
Definition reserveSourceWithdrawTarget (source : SelectedEarnWithdrawSource) (market reserve : string) : result EarnUsdcReserveTarget :=
  liquidityMint ← newPublicKey (ss_mint source);
  liquidityTokenProgram ← newPublicKey (ss_tokenProgramId source);
  market ← newPublicKey market;
  reserve ← newPublicKey reserve;
  Ok {| ut_liquidityMint := liquidityMint; ut_liquidityTokenProgram := liquidityTokenProgram; ut_market := market;
        ut_reserve := reserve; ut_supplyApyBps := None |}.

(** The target of a legacy request: that of the source, or one to route through *)
Definition legacyTarget (holdings : list EarnRpcHolding) (source : SelectedEarnWithdrawSource) : result (option EarnUsdcReserveTarget) :=
  match ss_place source with
  | AtReserve market reserve => Some <$> reserveSourceWithdrawTarget source market reserve
  | AtTokenAccount _ => snapshotReserveTarget holdings
  end.

Definition requestedTarget (source : SelectedEarnWithdrawSource) : result (option EarnUsdcReserveTarget) :=
  match ss_place source with
  | AtReserve market reserve => Some <$> reserveSourceWithdrawTarget source market reserve
  | AtTokenAccount _ => Ok None
  end.

(** The reducer: the first of the largest sources at a reserve *)
Definition largestStep (largest : option SelectedEarnWithdrawSource) (source : SelectedEarnWithdrawSource) : option SelectedEarnWithdrawSource :=
  match ss_place source with
  | AtTokenAccount _ => largest
  | AtReserve _ _ =>
      match largest with
      | None => Some source
      | Some l => if ss_amountRaw l <? ss_amountRaw source then Some source else largest
      end
  end.

Definition totalOf (sources : list SelectedEarnWithdrawSource) : Z := fold_left (fun total source => total + ss_amountRaw source) sources 0.

(** The amount taken from a source *)
Definition effectiveAmount (requestedAmountRaw : option Z) (source : SelectedEarnWithdrawSource) : outcome Z :=
  let effectiveAmountRaw := default (ss_amountRaw source) requestedAmountRaw in
  if ss_amountRaw source <? effectiveAmountRaw
  then resolveError 409 "earn_withdraw_amount_exceeds_source" "Withdrawal exceeds the selected Earn source amount."
  else Done effectiveAmountRaw.

Record Choice := {
  ch_source : SelectedEarnWithdrawSource;
  ch_amountRaw : Z;
  ch_mode : RequestMode;
  ch_targets : list WithdrawalTarget;
  ch_target : option EarnUsdcReserveTarget;
}.

(** The three branches: a legacy full exit, a legacy withdrawal and a withdrawal from a source. In the first one there is a
    source, as the sources are not empty. *)
Definition chooseWithdrawal (holdings : list EarnRpcHolding) (sources : list SelectedEarnWithdrawSource) (requestedAmountRaw : option Z)
    (sourceId : option string) (legacyRequest : option EarnWithdrawLegacyPrepareRequest) : outcome Choice :=
  match legacyRequest with
  | Some {| lg_mode := Full |} =>
      let largestReserveSource := fold_left largestStep sources None in
      let selectedSource := match largestReserveSource with
                            | Some source => Some source
                            | None => List.find (fun source => bool_decide (ss_type source = TypeIdle)) sources
                            end in
      match selectedSource with
      | None => Failed (ThrownError (Exn "TypeError" "Cannot read properties of undefined (reading 'type')") None)
      | Some selectedSource =>
          targets ← lift (snapshotFullWithdrawalTargets holdings);
          target ← lift (legacyTarget holdings selectedSource);
          Done {| ch_source := selectedSource; ch_amountRaw := totalOf sources; ch_mode := Full; ch_targets := targets; ch_target := target |}
      end
  | Some {| lg_source := request |} =>
      match selectLegacyEarnWithdrawSource sources request with
      | None => resolveError 400 "earn_withdraw_source_required" "Select an Earn source before withdrawing."
      | Some selected =>
          amount ← effectiveAmount requestedAmountRaw selected;
          target ← lift (legacyTarget holdings selected);
          Done {| ch_source := selected; ch_amountRaw := amount; ch_mode := Partial; ch_targets := []; ch_target := target |}
      end
  | None =>
      match sourceId with
      | None => resolveError 400 "earn_withdraw_source_required" "Select an Earn source before withdrawing."
      | Some sourceId =>
          selectedSource ← selectRequestedEarnWithdrawSource sources sourceId;
          amount ← effectiveAmount requestedAmountRaw selectedSource;
          target ← lift (requestedTarget selectedSource);
          Done {| ch_source := selectedSource; ch_amountRaw := amount; ch_mode := Partial; ch_targets := []; ch_target := target |}
      end
  end.

Definition policyKey (policy : RoutePolicyRecord) : result PolicyKey :=
  account ← newPublicKey (rp_policyAccount policy);
  Ok {| pk_account := account; pk_seed := rp_policySeed policy |}.

Definition inputSource (source : SelectedEarnWithdrawSource) : result InputSource :=
  mint ← newPublicKey (ss_mint source);
  place ← match ss_place source with
          | AtTokenAccount tokenAccount =>
              tokenAccount ← newPublicKey tokenAccount;
              tokenProgramId ← newPublicKey (ss_tokenProgramId source);
              Ok (InTokenAccount tokenAccount tokenProgramId)
          | AtReserve market reserve =>
              market ← newPublicKey market;
              reserve ← newPublicKey reserve;
              Ok (InReserve market reserve)
          end;
  Ok {| is_amountRaw := ss_amountRaw source; is_id := ss_id source; is_mint := mint; is_place := place |}.

Record ResolveArgs := {
  ra_cluster : LoyalCluster;
  ra_programId : pubkey;
  ra_policySigner : pubkey;
  ra_walletAddress : string;
  ra_settingsPda : string;
  ra_earnVaultPda : pubkey;
  ra_requestedAmountRaw : option Z;
  ra_sourceId : option string;
  ra_legacyRequest : option EarnWithdrawLegacyPrepareRequest;
}.

Record ResolvedEarnUsdcWithdraw := {
  rw_input : SmartAccountEarnUsdcWithdrawInput;
  rw_policy : RoutePolicyRecord;
  rw_effectiveAmountRaw : Z;
}.

Definition policyLookup (args : ResolveArgs) : PolicyLookup := {|
  pl_authority := ra_walletAddress args; pl_cluster := LoyalCluster_value (ra_cluster args); pl_settings := ra_settingsPda args;
  pl_vaultIndex := EARN_VAULT_INDEX; pl_vaultPubkey := toBase58 (ra_earnVaultPda args) |}.

(** [tablesAt attempt query] is what a query sees; the query for inactive policies sees [inactiveTables]. *)
Definition resolveEarnUsdcWithdrawInput (tablesAt : nat -> nat -> result Tables) (inactiveTables : result Tables) (reader : AccountReader)
    (now : string) (args : ResolveArgs) : outcome ResolvedEarnUsdcWithdraw :=
  settingsPdaKey ← lift (newPublicKey (ra_settingsPda args));
  policyResult ← lift (awaitPolicy (fun attempt => findActiveYieldRoutePolicyPair (tablesAt attempt) (policyLookup args))
                         POLICY_PROJECTION_RETRY_DELAYS_MS 0);
  match policyResult with
  | None =>
      inactive ← lift (hasInactiveYieldRoutePolicyForVault inactiveTables (policyLookup args));
      if inactive : bool then resolveError 409 "earn_policy_inactive" "This Earn policy is no longer active. Refresh Earn before withdrawing."
      else resolveError 503 "earn_policy_projection_pending" "The confirmed Earn policy is still updating. Retry this withdrawal."
  | Some policyResult =>
      let policy := pair_routePolicy policyResult in
      snapshot ← lift (fetchEarnRpcHoldingsSnapshot (ra_cluster args) reader None (Some (serializeRoutePolicyState policy))
                         (ra_programId args) false settingsPdaKey now);
      let snapshotSources := buildSnapshotWithdrawSources (holdings snapshot) in
      if (length snapshotSources =? 0)%nat
      then resolveError 409 "missing_earn_withdraw_source" "No active Earn withdrawal source was found."
      else
        choice ← chooseWithdrawal (holdings snapshot) snapshotSources (ra_requestedAmountRaw args) (ra_sourceId args) (ra_legacyRequest args);
        account ← lift (policyKey policy);
        setupPolicy ← lift match pair_setupPolicy policyResult with Some setup => Some <$> policyKey setup | None => Ok None end;
        wallet ← lift (newPublicKey (ra_walletAddress args));
        source ← lift (inputSource (ch_source choice));
        Done {| rw_input := {|
                  in_amountRaw := ch_amountRaw choice; in_cluster := ra_cluster args; in_feePayer := wallet;
                  in_policySigner := ra_policySigner args; in_settingsPda := settingsPdaKey; in_target := ch_target choice;
                  in_fullWithdrawalTargets := ch_targets choice; in_source := source; in_walletAddress := wallet;
                  in_policy := account; in_setupPolicy := setupPolicy; in_mode := ch_mode choice |};
                rw_policy := policy; rw_effectiveAmountRaw := ch_amountRaw choice |}
  end.

(** ** The form that travels *)
Definition keyText (k : pubkey) : json := JString (toBase58 k).
Definition amountText (z : Z) : json := JString (bigint_toString z).
Definition orNull {A} (f : A -> json) (o : option A) : json := match o with Some a => f a | None => JNull end.
Definition RequestMode_value (mode : RequestMode) : string := match mode with Partial => "partial" | Full => "full" end.

Definition serializePolicyKey (extra : list (string * json)) (policy : PolicyKey) : json :=
  JObject ([("account"%string, keyText (pk_account policy)); ("seed"%string, amountText (pk_seed policy))] ++ extra).

Definition serializeSource (source : InputSource) : json :=
  match is_place source with
  | InTokenAccount tokenAccount tokenProgramId =>
      JObject [("amountRaw", amountText (is_amountRaw source)); ("id", JString (is_id source)); ("mint", keyText (is_mint source));
               ("tokenAccount", keyText tokenAccount); ("tokenProgramId", keyText tokenProgramId); ("type", JString "idle")]%string
  | InReserve market reserve =>
      JObject [("amountRaw", amountText (is_amountRaw source)); ("id", JString (is_id source)); ("liquidityMint", keyText (is_mint source));
               ("market", keyText market); ("reserve", keyText reserve); ("type", JString "reserve")]%string
  end.

Definition serializeReserveTarget (target : EarnUsdcReserveTarget) : json :=
  JObject [("liquidityMint", keyText (ut_liquidityMint target)); ("liquidityTokenProgram", keyText (ut_liquidityTokenProgram target));
           ("market", keyText (ut_market target)); ("reserve", keyText (ut_reserve target));
           ("supplyApyBps", orNull amountText (ut_supplyApyBps target))]%string.

Definition serializeFullTarget (target : WithdrawalTarget) : json :=
  JObject [("amountRaw", amountText (wt_amountRaw target)); ("liquidityMint", keyText (wt_liquidityMint target));
           ("liquidityTokenProgram", keyText (wt_liquidityTokenProgram target)); ("market", keyText (wt_market target));
           ("reserve", keyText (wt_reserve target)); ("reserveCollateralMint", orNull keyText (wt_reserveCollateralMint target));
           ("reserveLiquiditySupply", JNull); ("supplyApyBps", orNull amountText (wt_supplyApyBps target));
           ("vaultCollateralAta", JNull)]%string.

(** Of an input as it is resolved: without targets the field is absent. *)
Definition serializeEarnUsdcWithdrawInput (input : SmartAccountEarnUsdcWithdrawInput) : json :=
  JObject [("amountRaw", amountText (in_amountRaw input)); ("mode", JString (RequestMode_value (in_mode input)));
           ("closePoliciesOnFullWithdrawal", JBool false); ("policySigner", keyText (in_policySigner input));
           ("source", serializeSource (in_source input)); ("target", orNull serializeReserveTarget (in_target input));
           ("fullWithdrawalTargets", match in_fullWithdrawalTargets input with
                                     | [] => JNull
                                     | targets => JArray (map serializeFullTarget targets)
                                     end);
           ("yieldRoutingPolicy", serializePolicyKey [("setupPolicy"%string, orNull (serializePolicyKey []) (in_setupPolicy input))] (in_policy input));
           ("autodepositClose", JNull)]%string.
End Resolution.

(** ** Errors shown to the caller *)
Definition EARN_WITHDRAW_REQUIRED_ACCOUNT_MISSING_CODE : string := "earn_withdraw_required_account_missing".

(** An instance of [EarnWithdrawRequiredAccountMissingError] has the code. *)
Definition isEarnWithdrawRequiredAccountMissingError (error : Thrown) : option string :=
  match error with
  | ThrownError e (Some code) => if String.eqb code EARN_WITHDRAW_REQUIRED_ACCOUNT_MISSING_CODE then Some (exn_message e) else None
  | ThrownObject (Some code) message => if String.eqb code EARN_WITHDRAW_REQUIRED_ACCOUNT_MISSING_CODE then Some (default EmptyString message) else None
  | _ => None
  end.

Definition getErrorText (error : Thrown) : string :=
  match error with
  | ThrownResolve _ _ message => "EarnWithdrawResolveError: " +:+ message
  | ThrownError e _ => exn_name e +:+ ": " +:+ exn_message e
  | ThrownText text => text
  | ThrownObject _ _ | ThrownOther => EmptyString
  end.

(** [/text/i.test(errorText)] for a text without special characters *)
Definition mentions (errorText text : string) : bool :=
  includesChars (map lower_char (chars errorText)) (map lower_char (chars text)).

Definition is_word (c : ascii) : bool :=
  let n := char_code c in ((48 <=? n) && (n <=? 57)) || ((65 <=? n) && (n <=? 90)) || ((97 <=? n) && (n <=? 122)) || (n =? 95).

(** The text at a place with word boundaries on both sides; it starts and ends with characters of a word. *)
Fixpoint includesWord (afterWord : bool) (l p : list ascii) : bool :=
  (negb afterWord && hasPrefix p l && negb (match drop (length p) l with c :: _ => is_word c | [] => false end)) ||
  match l with [] => false | c :: l => includesWord (is_word c) l p end.

Definition mentionsSourceChange (errorText : string) : bool :=
  existsb (mentions errorText) ["KLEND_MARKET_NOT_FOUND"; "KLEND_OBLIGATION_NOT_FOUND"]%string ||
  existsb (mentions errorText)
    ["Kamino reserve account was not found"; "Kamino reserve account is unavailable"; "Kamino vault collateral token account was not found";
     "Kamino vault collateral token account is unavailable"]%string ||
  mentions errorText "Selected Kamino reserve account was not found".

(** The status, the code and the message of the error, when there is one *)
Definition normalizeEarnWithdrawPreparationError (error : Thrown) : option (Z * string * string) :=
  match error with
  | ThrownResolve status code message => Some (status, code, message)
  | _ =>
      match isEarnWithdrawRequiredAccountMissingError error with
      | Some message => Some (409, EARN_WITHDRAW_REQUIRED_ACCOUNT_MISSING_CODE, message)
      | None =>
          let errorText := getErrorText error in
          if mentionsSourceChange errorText
          then Some (409, "earn_withdraw_source_changed"%string, "The selected Earn source changed. Refresh Earn and choose it again."%string)
          else if includesWord false (map lower_char (chars errorText)) (map lower_char (chars "AccountNotFound"%string))
          then Some (409, "earn_withdraw_required_account_missing"%string,
                     "A required Earn withdrawal transaction account is unavailable. Refresh Earn and prepare the withdrawal again."%string)
          else None
      end
  end.

Section Correct.
Context {PK : PublicKeys} {LAWS : PublicKeyLaws PK} {KB : KeyBytes PK} {B : BeetUints} {TL : TokenLayouts PK}.

(** ** The policy *)
(** A policy row that is active for the wallet and the vault *)
Definition governs (input : PolicyLookup) (policy : RoutePolicyRecord) : Prop :=
  rp_active policy = true /\ rp_authority policy = pl_authority input /\ rp_settings policy = pl_settings input /\
  rp_vaultIndex policy = pl_vaultIndex input /\ rp_vaultPubkey policy = pl_vaultPubkey input.

Lemma matches_governs input id vault policies policy : mv_vaultPubkey vault = pl_vaultPubkey input ->
  List.find (policyMatches input id (mv_vaultPubkey vault)) policies = Some policy -> governs input policy.
Proof.
  intros Hv H. apply find_some in H as [_ H]. unfold policyMatches in H. rewrite !andb_true_iff, !String.eqb_eq, !Z.eqb_eq in H.
  destruct H as [[[[[Ha Hau] _] Hs] Hi] Hk]. unfold governs. by rewrite Hk.
Qed.

Lemma head_elem {A} (l : list A) x : head l = Some x -> x ∈ l.
Proof. destruct l; intros [= ->]. by left. Qed.

Lemma found_governs tablesAt input found : pl_vaultPubkey input <> EmptyString -> findActiveYieldRoutePolicyPair tablesAt input = Ok (Some found) ->
  governs input (pair_routePolicy found) /\ (forall setup, pair_setupPolicy found = Some setup -> governs input setup).
Proof.
  intros Hne H. unfold findActiveYieldRoutePolicyPair in H. apply bind_Ok in H as (t0 & _ & H). case_match eqn:Eh; [|done].
  apply head_elem in Eh. rewrite (sortStable_perm _ _) in Eh. apply list_elem_of_In, filter_In in Eh as [_ Hm]. unfold vaultMatches in Hm.
  rewrite !andb_true_iff, orb_true_iff, !String.eqb_eq in Hm. destruct Hm as [_ [?|Hv]]; [done|].
  apply bind_Ok in H as (t1 & _ & H). case_match eqn:Ef; [|done]. apply bind_Ok in H as (setup & Hs & [= <-]). cbn.
  split; [by eapply matches_governs|]. intros s ->. case_match; [|done]. apply bind_Ok in Hs as (t2 & _ & [= Hs]). by eapply matches_governs.
Qed.

(** The policy comes from the first attempt that finds one. *)
Lemma await_found find delays attempt found : awaitPolicy find delays attempt = Ok (Some found) ->
  exists k, (k < length delays)%nat /\ find (attempt + k)%nat = Ok (Some found) /\ forall j, (j < k)%nat -> find (attempt + j)%nat = Ok None.
Proof.
  revert attempt. induction delays as [|d ds IH]; intros attempt H; [done|]. apply bind_Ok in H as (o & Ho & H). destruct o as [p|].
  - injection H as ->. exists 0%nat. rewrite Nat.add_0_r. cbn. repeat split; [lia|done|intros; lia].
  - destruct (IH _ H) as (k & Hk & Hf & Hn). exists (S k). cbn. rewrite <- plus_n_Sm. split; [lia|]. split; [done|].
    intros [|j] Hj; [by rewrite Nat.add_0_r|]. rewrite <- plus_n_Sm. apply Hn. lia.
Qed.

(** ** The sources *)
Inductive SeenPlace := SeenDeposit (market reserve : pubkey) | SeenAccount (ata : pubkey).
Definition placeText (p : SeenPlace) : string :=
  match p with SeenDeposit _ reserve => "reserve:" +:+ toBase58 reserve | SeenAccount ata => "idle:" +:+ toBase58 ata end.

(** The deposits that redeem to something and the token accounts that hold something *)
Definition seenDeposit (a : RpcAnswer) (d : DiscoveredReserveDeposit) : list (SeenPlace * Z) :=
  if 0 <? redeemableAt a d then [(SeenDeposit (dd_market d) (dd_reserve d), redeemableAt a d)] else [].
Definition seenAccount (a : RpcAnswer) (ata : pubkey) : list (SeenPlace * Z) :=
  if 0 <? idleAt a ata then [(SeenAccount ata, idleAt a ata)] else [].
Definition sourcesSeen (r : HoldingsRead) : list (SeenPlace * Z) :=
  flat_map (seenDeposit (hr_second r)) (depositsSeen r) ++ flat_map (seenAccount (hr_first r)) (hr_atas r).

Definition source_is (seen : SeenPlace * Z) (s : SelectedEarnWithdrawSource) : Prop :=
  0 < seen.2 /\ ss_amountRaw s = seen.2 /\ ss_sourceId s = placeText seen.1 /\
  (exists mint program, ss_mint s = toBase58 mint /\ ss_tokenProgramId s = toBase58 program) /\
  ss_place s = match seen.1 with
               | SeenDeposit market reserve => AtReserve (toBase58 market) (toBase58 reserve)
               | SeenAccount ata => AtTokenAccount (toBase58 ata)
               end.

Lemma kamino_sources a ds kamino : Forall kamino_keyed kamino -> map shown kamino = flat_map (shownDeposit a) ds ->
  Forall2 source_is (flat_map (seenDeposit a) ds) (flat_map snapshotSource kamino).
Proof.
  revert kamino. induction ds as [|d ds IH]; intros kamino Hk Hs; [by apply map_eq_nil in Hs as ->; constructor|].
  cbn [flat_map] in *. unfold shownDeposit, seenDeposit in *. destruct (Z.ltb_spec 0 (redeemableAt a d)) as [Hz|]; [|by apply IH].
  destruct kamino as [|h kamino]; [done|]. cbn [map app flat_map] in *. injection Hs as H1 H2 H3 Hs. apply Forall_cons in Hk as [Hkh Hk].
  destruct Hkh as (Hkind & _ & mint & program & collateral & Hm & Hp & _ & Hid). unfold snapshotSource at 1.
  rewrite Hkind, H1, H2, H3, !truthy_toBase58, BigInt_toString_roundtrip. destruct (Z.leb_spec (redeemableAt a d) 0); [lia|].
  cbn [app]. constructor; [|by apply IH]. split; [done|]. split; [done|]. split; [by rewrite Hid, H2|]. split; [|done]. by exists mint, program.
Qed.

Lemma idle_sources a atas idle : Forall2 (fun ata h => idle_keyed (idleAt a ata) ata h) atas idle ->
  Forall2 source_is (flat_map (seenAccount a) atas) (flat_map snapshotSource idle).
Proof.
  induction 1 as [|ata h atas idle (Hk & Ha & Hid & Hta & mint & program & Hm & Hp) _ IH]; [constructor|]. cbn [flat_map]. unfold seenAccount, snapshotSource at 1.
  rewrite Hk, Ha, Hta, BigInt_toString_roundtrip. cbn [mjoin option_join]. rewrite truthy_toBase58.
  destruct (Z.ltb_spec 0 (idleAt a ata)), (Z.leb_spec (idleAt a ata) 0); try lia; [|done]. cbn [app]. constructor; [|done].
  split; [done|]. split; [done|]. split; [done|]. split; [|done]. by exists mint, program.
Qed.

Lemma sources_seen r complete s kamino idle : snapshot_seen r complete s kamino idle ->
  Forall2 source_is (sourcesSeen r) (buildSnapshotWithdrawSources (holdings s)).
Proof.
  intros Hs. unfold buildSnapshotWithdrawSources. rewrite (sn_holdings _ _ _ _ _ Hs), flat_map_app.
  apply Forall2_app; [apply kamino_sources|apply idle_sources]; by apply Hs.
Qed.

(** The keys of a source read. *)
Definition is_at (seen : SeenPlace * Z) (source : InputSource) : Prop :=
  is_amountRaw source = seen.2 /\
  match seen.1, is_place source with
  | SeenDeposit market reserve, InReserve m k => m = market /\ k = reserve
  | SeenAccount ata, InTokenAccount account _ => account = ata
  | _, _ => False
  end.

Lemma source_reads seen s : source_is seen s -> exists source, inputSource s = Ok source /\ is_at seen source.
Proof.
  destruct seen as [p z]. intros (_ & Ha & _ & (mint & program & Hm & Hp) & Hpl). unfold inputSource. rewrite Hm, Hp, Hpl, Ha, newPublicKey_toBase58.
  destruct p; cbn -[newPublicKey]; rewrite !newPublicKey_toBase58; cbn; by eexists.
Qed.

(** The target of a source is its own reserve. *)
Definition targets_place (p : SeenPlace) (target : option EarnUsdcReserveTarget) : Prop :=
  match p with
  | SeenDeposit market reserve => exists t, target = Some t /\ ut_market t = market /\ ut_reserve t = reserve
  | SeenAccount _ => target = None
  end.

Lemma requested_target seen s : source_is seen s -> exists target, requestedTarget s = Ok target /\ targets_place seen.1 target.
Proof.
  destruct seen as [p z]. intros (_ & _ & _ & (mint & program & Hm & Hp) & Hpl). unfold requestedTarget, reserveSourceWithdrawTarget.
  rewrite Hpl. destruct p; cbn -[newPublicKey]; [|by eexists]. rewrite Hm, Hp, !newPublicKey_toBase58. cbn. eexists. split; [done|]. by eexists.
Qed.

Lemma filter_sources id seen sources : Forall2 source_is seen sources ->
  Forall2 source_is (List.filter (fun p => String.eqb (placeText p.1) id) seen) (List.filter (fun s => String.eqb (ss_sourceId s) id) sources).
Proof.
  induction 1 as [|p s seen sources Hp _ IH]; [constructor|]. cbn [List.filter]. pose proof Hp as (_ & _ & Hid & _). rewrite Hid.
  case_match; [|done]. by constructor.
Qed.

Lemma sources_elem seen sources s : Forall2 source_is seen sources -> s ∈ sources -> exists p, p ∈ seen /\ source_is p s.
Proof. intros H Hs. apply list_elem_of_lookup in Hs as (i & Hi). destruct (Forall2_lookup_r _ _ _ _ _ H Hi) as (p & Hp & Hsp). exists p. split; [|done]. by eapply list_elem_of_lookup_2. Qed.

Lemma total_sum seen sources : Forall2 source_is seen sources -> totalOf sources = sumZ (map snd seen).
Proof.
  intros H. unfold totalOf. enough (forall acc, fold_left (fun total source => total + ss_amountRaw source) sources acc = acc + sumZ (map snd seen)) as -> by lia.
  induction H as [|p s seen sources (_ & Ha & _) _ IH]; intros acc; cbn [fold_left map]; [cbn; lia|]. rewrite IH, sumZ_cons, Ha. lia.
Qed.

Lemma seen_sum r : Forall (fun d => 0 <= redeemableAt (hr_second r) d) (depositsSeen r) -> Forall (fun ata => 0 <= idleAt (hr_first r) ata) (hr_atas r) ->
  sumZ (map snd (sourcesSeen r)) = redeemableSeen r + idleSeen r.
Proof.
  intros Hd Hi. unfold sourcesSeen, redeemableSeen, idleSeen. rewrite map_app, sumZ_app. f_equal.
  - induction Hd as [|d ds H _ IH]; [done|]. cbn [flat_map map]. rewrite map_app, sumZ_app, sumZ_cons, IH. unfold seenDeposit.
    destruct (Z.ltb_spec 0 (redeemableAt (hr_second r) d)); cbn; lia.
  - induction Hi as [|d ds H _ IH]; [done|]. cbn [flat_map map]. rewrite map_app, sumZ_app, sumZ_cons, IH. unfold seenAccount.
    destruct (Z.ltb_spec 0 (idleAt (hr_first r) d)); cbn; lia.
Qed.

(** ** The request *)
Lemma request_amount body request z : parseEarnWithdrawPrepareRequestBody body = Ok request -> wq_amountRaw request = Some z -> 0 < z.
Proof.
  unfold parseEarnWithdrawPrepareRequestBody. intros H Hz. apply bind_Ok in H as (record & _ & H). apply bind_Ok in H as (amount & _ & H).
  destruct amount as [a|]; [destruct (Z.leb_spec a 0); [done|]|].
  - destruct (match get "sourceId" record with JUndefined => _ | _ => _ end) as [mode|].
    + apply bind_Ok in H as (src & _ & [= <-]). injection Hz as <-. done.
    + repeat case_match; try done. injection H as <-. by injection Hz as <-.
  - repeat case_match; try done; injection H as <-; done.
Qed.

(** ** The choice *)
Definition rejects {A} (o : outcome A) (status : Z) (code : string) : Prop := exists message, o = Failed (ThrownResolve status code message).

(** What a withdrawal from one source takes *)
Definition takes_from (seen : SeenPlace * Z) (requested : option Z) (input : SmartAccountEarnUsdcWithdrawInput) : Prop :=
  is_at seen (in_source input) /\ in_mode input = Partial /\ in_fullWithdrawalTargets input = [] /\
  in_amountRaw input = default seen.2 requested /\ in_amountRaw input <= seen.2.

(** What a legacy exit takes *)
Definition takes_all (r : HoldingsRead) (input : SmartAccountEarnUsdcWithdrawInput) : Prop :=
  in_mode input = Full /\ in_amountRaw input = redeemableSeen r + idleSeen r /\
  map targetShown (in_fullWithdrawalTargets input) = flat_map (depositTarget (hr_second r)) (depositsSeen r).

Lemma effective_amount requested s z : effectiveAmount requested s = Done z -> z = default (ss_amountRaw s) requested /\ z <= ss_amountRaw s.
Proof. unfold effectiveAmount. case_match eqn:E; [done|]. apply Z.ltb_ge in E. intros [= <-]. done. Qed.

Lemma filter_first {A} (f : A -> bool) l x rest : List.filter f l = x :: rest -> x ∈ l.
Proof. intros H. apply list_elem_of_In, (filter_In f x). rewrite H. by left. Qed.

Lemma legacy_selected sources request s : selectLegacyEarnWithdrawSource sources request = Some s -> s ∈ sources.
Proof.
  unfold selectLegacyEarnWithdrawSource. destruct request as [q|]; [|destruct sources as [|x [|]]; intros [= <-]; by left].
  destruct (List.find _ sources) eqn:Ef; [intros [= <-]; apply list_elem_of_In; by eapply find_some|].
  assert (Hsub : forall x, x ∈ List.filter (legacySourceMatchesStableMint q) sources -> x ∈ sources).
  { intros x Hx. apply list_elem_of_In, filter_In in Hx as [Hx _]. by apply list_elem_of_In. }
  destruct (List.filter (legacySourceMatchesStableMint q) sources) as [|x [|y l]] eqn:El; intros H; [done|by injection H as <-; apply Hsub; left|].
  repeat case_match; try done. injection H as <-. match goal with H : List.filter _ _ = [_] |- _ => apply filter_first in H; by apply Hsub end.
Qed.

Lemma largest_elem sources acc s : fold_left largestStep sources acc = Some s -> s ∈ sources \/ acc = Some s.
Proof.
  revert acc. induction sources as [|x l IH]; intros acc H; cbn in H; [by right|]. apply IH in H as [H|H]; [left; by right|].
  unfold largestStep in H. repeat case_match; simplify_eq; auto; left; by left.
Qed.

Lemma requested_selected sources id s : selectRequestedEarnWithdrawSource sources id = Done s ->
  List.filter (fun source => String.eqb (ss_sourceId source) id) sources = [s].
Proof. unfold selectRequestedEarnWithdrawSource. intros H. repeat case_match; try done. by injection H as <-. Qed.

(** The choice of a full exit, and of a partial withdrawal *)
Lemma choice_full hs sources amount id source c :
  chooseWithdrawal hs sources amount id (Some {| lg_mode := Full; lg_source := source |}) = Done c ->
  ch_mode c = Full /\ ch_amountRaw c = totalOf sources /\ snapshotFullWithdrawalTargets hs = Ok (ch_targets c) /\ ch_source c ∈ sources.
Proof.
  cbn [chooseWithdrawal]. intros H. case_match eqn:E; [|done]. inv_outcome. subst c. cbn. repeat (split; [done|]).
  destruct (fold_left largestStep sources None) eqn:El.
  - injection E as <-. by apply largest_elem in El as [?|].
  - apply list_elem_of_In. by eapply find_some.
Qed.

Lemma choice_partial hs sources amount id legacy c : (forall source, legacy <> Some {| lg_mode := Full; lg_source := source |}) ->
  chooseWithdrawal hs sources amount id legacy = Done c ->
  ch_mode c = Partial /\ ch_targets c = [] /\ ch_source c ∈ sources /\
  ch_amountRaw c = default (ss_amountRaw (ch_source c)) amount /\ ch_amountRaw c <= ss_amountRaw (ch_source c).
Proof.
  intros Hl H. unfold chooseWithdrawal in H. destruct legacy as [[[] source]|]; [|by destruct (Hl source)|].
  - case_match eqn:Es; [|done]. inv_outcome. apply legacy_selected in Es. subst c. cbn. repeat (split; [done|]). by apply effective_amount.
  - destruct id as [id|]; [|done]. inv_outcome. subst c. cbn. repeat (split; [done|]). split; [|by apply effective_amount].
    match goal with H : selectRequestedEarnWithdrawSource _ _ = Done _ |- _ => by apply requested_selected, filter_first in H end.
Qed.

(** ** The resolution *)
(** The steps of a resolution up to the choice, and the keys that go into the input *)
Record resolving (tablesAt : nat -> nat -> result Tables) (reader : AccountReader) (now : string) (args : ResolveArgs) (key : pubkey)
    (found : ActiveYieldRoutePolicyPair) (snapshot : EarnRpcHoldingsSnapshot) (account : PolicyKey) (setup : option PolicyKey) (wallet : pubkey) : Prop := {
  rs_settings : newPublicKey (ra_settingsPda args) = Ok key;
  rs_policy : awaitPolicy (fun attempt => findActiveYieldRoutePolicyPair (tablesAt attempt) (policyLookup args)) POLICY_PROJECTION_RETRY_DELAYS_MS 0 = Ok (Some found);
  rs_snapshot : fetchEarnRpcHoldingsSnapshot (ra_cluster args) reader None (Some (serializeRoutePolicyState (pair_routePolicy found)))
                  (ra_programId args) false key now = Ok snapshot;
  rs_account : policyKey (pair_routePolicy found) = Ok account;
  rs_setup : match pair_setupPolicy found with Some setup => Some <$> policyKey setup | None => Ok None end = Ok setup;
  rs_wallet : newPublicKey (ra_walletAddress args) = Ok wallet;
}.

Definition inputOf (args : ResolveArgs) (key : pubkey) (account : PolicyKey) (setup : option PolicyKey) (wallet : pubkey) (choice : Choice) (source : InputSource) :
    SmartAccountEarnUsdcWithdrawInput := {|
  in_amountRaw := ch_amountRaw choice; in_cluster := ra_cluster args; in_feePayer := wallet; in_policySigner := ra_policySigner args;
  in_settingsPda := key; in_target := ch_target choice; in_fullWithdrawalTargets := ch_targets choice; in_source := source;
  in_walletAddress := wallet; in_policy := account; in_setupPolicy := setup; in_mode := ch_mode choice |}.

Lemma resolved_steps tablesAt inactive reader now args w : resolveEarnUsdcWithdrawInput tablesAt inactive reader now args = Done w ->
  exists key found snapshot account setup wallet choice source, resolving tablesAt reader now args key found snapshot account setup wallet /\
    chooseWithdrawal (holdings snapshot) (buildSnapshotWithdrawSources (holdings snapshot)) (ra_requestedAmountRaw args) (ra_sourceId args) (ra_legacyRequest args) = Done choice /\
    inputSource (ch_source choice) = Ok source /\ rw_policy w = pair_routePolicy found /\ rw_effectiveAmountRaw w = ch_amountRaw choice /\
    rw_input w = inputOf args key account setup wallet choice source.
Proof.
  unfold resolveEarnUsdcWithdrawInput. intros H. apply outcome_done in H as (key & Hk%lift_done & H). apply outcome_done in H as (o & Ho%lift_done & H).
  destruct o as [found|]; [|by inv_outcome; case_match].
  apply outcome_done in H as (snapshot & Hs%lift_done & H). case_match; [done|]. inv_outcome. subst w. do 8 eexists. split; [by split|done].
Qed.

Lemma resolving_policy tablesAt reader now args key found snapshot account setup wallet :
  resolving tablesAt reader now args key found snapshot account setup wallet ->
  (exists attempt, (attempt < 5)%nat /\ findActiveYieldRoutePolicyPair (tablesAt attempt) (policyLookup args) = Ok (Some found)) /\
  governs (policyLookup args) (pair_routePolicy found) /\ (forall setup, pair_setupPolicy found = Some setup -> governs (policyLookup args) setup).
Proof.
  intros H. destruct (await_found _ _ _ _ (rs_policy _ _ _ _ _ _ _ _ _ _ H)) as (k & Hk & Hf & _). split; [by exists k|].
  eapply found_governs, Hf. apply toBase58_nonempty.
Qed.

Lemma amounts_nonneg cluster reader metadata programId key r :
  answers_bytes reader -> (forall data account, Forall is_byte data -> decodeTokenAccount data = Ok account -> 0 <= ta_amount account) ->
  reads_chain cluster reader None metadata programId key r ->
  sumZ (map snd (sourcesSeen r)) = redeemableSeen r + idleSeen r.
Proof.
  intros Hb Hd Hr. apply seen_sum.
  - apply Forall_forall. intros d Hin. apply redeemable_at_nonneg. intros info Hi. destruct (rd_second _ _ _ _ _ _ _ Hr) as [E|E]; [rewrite E in Hin; set_solver|]. by eapply Hb.
  - apply Forall_forall. intros ata _. unfold idleAt. repeat case_match; try done. eapply Hd; [|done]. eapply Hb; [by apply Hr|done].
Qed.

(** C32. A resolved withdrawal never takes more than the chain shows: it runs under a policy that is active for the wallet and the
    vault, found in one of at most five attempts; a partial one takes a positive amount, the requested one, from one deposit or
    token account that holds at least that; a legacy exit takes exactly what all deposits redeem to and all token accounts
    hold, with every deposit among its targets. *)
Theorem withdrawal_covered (tablesAt : nat -> nat -> result Tables) (inactive : result Tables) (reader : AccountReader) (now : string)
    (args : ResolveArgs) (body : json) (request : WithdrawRequest) (w : ResolvedEarnUsdcWithdraw) :
  answers_bytes reader -> (forall data account, Forall is_byte data -> decodeTokenAccount data = Ok account -> 0 <= ta_amount account) ->
  parseEarnWithdrawPrepareRequestBody body = Ok request ->
  ra_requestedAmountRaw args = wq_amountRaw request -> ra_sourceId args = wq_sourceId request -> ra_legacyRequest args = wq_legacy request ->
  resolveEarnUsdcWithdrawInput tablesAt inactive reader now args = Done w ->
  exists attempt found key r,
    (attempt < 5)%nat /\ findActiveYieldRoutePolicyPair (tablesAt attempt) (policyLookup args) = Ok (Some found) /\
    rw_policy w = pair_routePolicy found /\ governs (policyLookup args) (rw_policy w) /\
    reads_chain (ra_cluster args) reader None (Some (serializeRoutePolicyState (rw_policy w))) (ra_programId args) key r /\
    in_settingsPda (rw_input w) = key /\ rw_effectiveAmountRaw w = in_amountRaw (rw_input w) /\
    match wq_legacy request with
    | Some {| lg_mode := Full |} => takes_all r (rw_input w)
    | _ => exists seen, seen ∈ sourcesSeen r /\ takes_from seen (wq_amountRaw request) (rw_input w) /\ 0 < in_amountRaw (rw_input w)
    end.
Proof.
  intros Hb Hd Hbody Ha Hi Hl H. destruct (resolved_steps _ _ _ _ _ _ H) as (key & found & s & account & setup & wallet & c & source & Hrs & Hc & Hsrc & Hpol & Heff & Hin).
  destruct (resolving_policy _ _ _ _ _ _ _ _ _ _ Hrs) as ((attempt & Hat & Hf) & Hg & _).
  destruct (fetch_seen _ _ _ _ _ _ _ _ _ Hb (rs_snapshot _ _ _ _ _ _ _ _ _ _ Hrs)) as (r & kamino & idle & Hr & Hs).
  pose proof (sources_seen _ _ _ _ _ Hs) as Hseen. exists attempt, found, key, r. rewrite Hpol, Hin, Heff. do 7 (split; [done|]).
  rewrite <- Hl. revert Hc. destruct (ra_legacyRequest args) as [[[] q]|]; intros Hc.
  2: { destruct (choice_full _ _ _ _ _ _ Hc) as (Hm & Ham & Ht & _). split; [done|]. cbn. rewrite Ham, (total_sum _ _ Hseen).
       split; [by eapply amounts_nonneg|]. destruct (targets_seen _ _ _ _ _ Hs) as (ts & Hts & Hmap). congruence. }
  all: edestruct choice_partial as (Hm & Ht & Hel & Ham & Hle); [|exact Hc|]; [intros ?; discriminate|];
    destruct (sources_elem _ _ _ Hseen Hel) as (seen & Hse & His); destruct (source_reads _ _ His) as (src & Hsrc' & Hat');
    destruct His as (Hpos & Hz & _); exists seen; rewrite Hsrc in Hsrc'; injection Hsrc' as <-; rewrite Hz, Ha in Ham; rewrite Hz in Hle;
    split; [done|]; split; [by split; [exact Hat'|]|]; cbn; destruct (wq_amountRaw request) as [z|] eqn:Ez; cbn in Ham; rewrite Ham; [by eapply request_amount|done].
Qed.

(** A request for a source is decided by what the chain shows: once the policy is found and the vault is read, exactly one
    deposit or token account with that name and at least the requested amount gives an input, which takes that amount
    from it; too small a source, a source that is gone or named twice, and an empty vault are each rejected with a 409
    of its own. *)
Theorem withdrawal_decided (tablesAt : nat -> nat -> result Tables) (inactive : result Tables) (reader : AccountReader) (now : string)
    (args : ResolveArgs) (id : string) (key : pubkey) (found : ActiveYieldRoutePolicyPair) (snapshot : EarnRpcHoldingsSnapshot)
    (account : PolicyKey) (setup : option PolicyKey) (wallet : pubkey) :
  answers_bytes reader -> resolving tablesAt reader now args key found snapshot account setup wallet ->
  ra_sourceId args = Some id -> ra_legacyRequest args = None ->
  exists r, reads_chain (ra_cluster args) reader None (Some (serializeRoutePolicyState (pair_routePolicy found))) (ra_programId args) key r /\
    let resolved := resolveEarnUsdcWithdrawInput tablesAt inactive reader now args in
    match List.filter (fun seen => String.eqb (placeText seen.1) id) (sourcesSeen r) with
    | [seen] =>
        if seen.2 <? default seen.2 (ra_requestedAmountRaw args) then rejects resolved 409 "earn_withdraw_amount_exceeds_source"
        else exists w, resolved = Done w /\ rw_policy w = pair_routePolicy found /\ takes_from seen (ra_requestedAmountRaw args) (rw_input w) /\
          targets_place seen.1 (in_target (rw_input w)) /\ in_policy (rw_input w) = account /\ in_setupPolicy (rw_input w) = setup
    | _ => rejects resolved 409 (if (length (sourcesSeen r) =? 0)%nat then "missing_earn_withdraw_source" else "earn_withdraw_source_changed")
    end.
Proof.
  intros Hb Hrs Hid Hl. destruct (fetch_seen _ _ _ _ _ _ _ _ _ Hb (rs_snapshot _ _ _ _ _ _ _ _ _ _ Hrs)) as (r & kamino & idle & Hr & Hs).
  exists r. split; [done|]. cbv zeta. pose proof (sources_seen _ _ _ _ _ Hs) as Hseen. pose proof (filter_sources id _ _ Hseen) as Hf.
  unfold resolveEarnUsdcWithdrawInput. rewrite (rs_settings _ _ _ _ _ _ _ _ _ _ Hrs). cbn [lift mbind outcome_bind]. rewrite (rs_policy _ _ _ _ _ _ _ _ _ _ Hrs).
  cbn [lift mbind outcome_bind]. rewrite (rs_snapshot _ _ _ _ _ _ _ _ _ _ Hrs). cbn [lift mbind outcome_bind]. rewrite (Forall2_length _ _ _ Hseen).
  destruct (Nat.eqb_spec (length (buildSnapshotWithdrawSources (holdings snapshot))) 0) as [H0|H0].
  - apply nil_length_inv in H0. rewrite H0 in Hf. apply Forall2_nil_inv_r in Hf as ->. by eexists.
  - rewrite Hl, Hid. cbn [chooseWithdrawal]. unfold selectRequestedEarnWithdrawSource. inversion Hf as [|seen s l l' His Hrest Eseen Es]; [by eexists|].
    inversion Hrest; [|by eexists]. subst l l'. cbn [mbind outcome_bind]. unfold effectiveAmount. pose proof His as (_ & -> & _).
    destruct (Z.ltb_spec seen.2 (default seen.2 (ra_requestedAmountRaw args))); [by eexists|]. cbn [mbind outcome_bind].
    destruct (requested_target _ _ His) as (target & -> & Htarget). destruct (source_reads _ _ His) as (source & Hsrc & Hat). cbn [lift mbind outcome_bind ch_source].
    rewrite (rs_account _ _ _ _ _ _ _ _ _ _ Hrs), (rs_setup _ _ _ _ _ _ _ _ _ _ Hrs), (rs_wallet _ _ _ _ _ _ _ _ _ _ Hrs), Hsrc. cbn [lift mbind outcome_bind].
    eexists. split; [done|]. split; [done|]. split; [by split; [exact Hat|]|]. done.
Qed.

(** ** The form that travels *)
Lemma keyText_inj k k' : keyText k = keyText k' -> k = k'.
Proof. intros [= H]. by apply toBase58_inj. Qed.
Lemma amountText_inj z z' : amountText z = amountText z' -> z = z'.
Proof. intros [= H]. by apply bigint_toString_inj. Qed.
Lemma orNull_inj {A} (f : A -> json) o o' : (forall a a', f a = f a' -> a = a') -> (forall a, f a <> JNull) -> orNull f o = orNull f o' -> o = o'.
Proof.
  intros Hi Hn. destruct o as [a|], o' as [a'|]; cbn; [|by intros H%Hn|intros H; symmetry in H; by apply Hn in H|done]. intros H%Hi. by f_equal.
Qed.

Lemma serializePolicyKey_inj p p' : serializePolicyKey [] p = serializePolicyKey [] p' -> p = p'.
Proof. destruct p, p'. intros [= H1%toBase58_inj H2%bigint_toString_inj]. by subst. Qed.

Lemma serializeSource_inj s s' : serializeSource s = serializeSource s' -> s = s'.
Proof.
  destruct s as [? ? ? []], s' as [? ? ? []]; unfold serializeSource; cbn -[bigint_toString toBase58]; intros [=];
    repeat match goal with
    | H : toBase58 _ = toBase58 _ |- _ => apply toBase58_inj in H
    | H : bigint_toString _ = bigint_toString _ |- _ => apply bigint_toString_inj in H
    end; by subst.
Qed.

Lemma serializeReserveTarget_inj t t' : serializeReserveTarget t = serializeReserveTarget t' -> t = t'.
Proof.
  destruct t, t'. unfold serializeReserveTarget. cbn -[bigint_toString toBase58 orNull keyText]. intros H. injection H as H1 H2 H3 H4 H5.
  apply orNull_inj in H5; [|by apply amountText_inj|done]. apply toBase58_inj in H1, H2, H3, H4. by subst.
Qed.

#[local] Instance serializeFullTarget_inj : Inj (=) (=) serializeFullTarget.
Proof.
  intros [] []. unfold serializeFullTarget. cbn -[bigint_toString toBase58 orNull keyText]. intros H. injection H as H0 H1 H2 H3 H4 H5 H6.
  apply bigint_toString_inj in H0. apply toBase58_inj in H1, H2, H3, H4. apply orNull_inj in H5; [|by apply keyText_inj|done].
  apply orNull_inj in H6; [|by apply amountText_inj|done]. by subst.
Qed.

(** What a device reads determines the withdrawal it prepares: two resolved inputs with the same wire form have the same
    amount, mode, signer, source, target, targets of a full exit and policies. *)
Theorem withdraw_wire_faithful (a b : SmartAccountEarnUsdcWithdrawInput) :
  serializeEarnUsdcWithdrawInput a = serializeEarnUsdcWithdrawInput b ->
  in_amountRaw a = in_amountRaw b /\ in_mode a = in_mode b /\ in_policySigner a = in_policySigner b /\ in_source a = in_source b /\
  in_target a = in_target b /\ in_fullWithdrawalTargets a = in_fullWithdrawalTargets b /\ in_policy a = in_policy b /\ in_setupPolicy a = in_setupPolicy b.
Proof.
  intros H. unfold serializeEarnUsdcWithdrawInput in H. injection H as Ha Hm Hp Hs Ht Hf Hk Hseed Hset. apply bigint_toString_inj in Ha, Hseed.
  apply toBase58_inj in Hp, Hk. apply serializeSource_inj in Hs. apply orNull_inj in Ht; [|by apply serializeReserveTarget_inj|done].
  apply orNull_inj in Hset; [|by apply serializePolicyKey_inj|done]. repeat (split; [done || by destruct (in_mode a), (in_mode b)|]).
  split; [|split; [destruct (in_policy a), (in_policy b); cbn in *; by subst|done]].
  destruct (in_fullWithdrawalTargets a) as [|t ts], (in_fullWithdrawalTargets b) as [|t' ts']; try done. apply (inj (fmap serializeFullTarget)).
  exact (f_equal (fun j => match j with JArray l => l | _ => [] end) Hf).
Qed.
End Correct.

Module WithdrawInputWitness.
Import DemoKeys KaminoWitness HoldingsWitness.

Definition walletText : string := text (key_of 5).
Definition demoRow : RoutePolicyRecord := {|
  rp_id := 4; rp_cluster := Some "devnet"%string; rp_settings := text demoSettings; rp_authority := walletText; rp_policySeed := 9;
  rp_policyAccount := text (key_of 6); rp_vaultIndex := 1; rp_vaultPubkey := text demoVault; rp_stableMints := [text usdcMint];
  rp_kaminoMarkets := [text demoMarket]; rp_kaminoLiquidityMints := [text usdcMint]; rp_active := true |}.
Definition demoVaultRow : ManagedVaultRecord := {|
  mv_id := 1; mv_settings := text demoSettings; mv_vaultIndex := 1; mv_vaultPubkey := text demoVault; mv_activePolicyId := 4;
  mv_setupPolicyId := None; mv_active := true; mv_lastSeenAt := 100 |}.

(** The vault row is there from the second attempt on. *)
Definition demoTables (attempt _ : nat) : result Tables :=
  Ok {| managedVaults := if (attempt =? 0)%nat then [] else [demoVaultRow]; routePolicies := [demoRow] |}.

Definition demoArgs (request : WithdrawRequest) : ResolveArgs := {|
  ra_cluster := Devnet; ra_programId := demoProgram; ra_policySigner := key_of 11; ra_walletAddress := walletText;
  ra_settingsPda := text demoSettings; ra_earnVaultPda := demoVault; ra_requestedAmountRaw := wq_amountRaw request;
  ra_sourceId := wq_sourceId request; ra_legacyRequest := wq_legacy request |}.

Definition demoResolve (request : WithdrawRequest) : outcome ResolvedEarnUsdcWithdraw :=
  resolveEarnUsdcWithdrawInput demoTables (throwError "unused") (demoReader 250 500) "now" (demoArgs request).

Definition bodyOf (amount : string) (fields : list (string * json)) : json := JObject (("amountRaw"%string, JString amount) :: fields).
Definition reserveBody (amount : string) : json := bodyOf amount [("sourceId"%string, JString ("reserve:" +:+ text demoReserve))].
Definition exitBody : json := bodyOf "7" [("mode", JString "full")]%string.
Definition mintBody : json :=
  bodyOf "200" [("mode", JString "partial"); ("source", JObject [("type", JString "idle"); ("id", JString (text usdcMint))])]%string.

Definition shownOutcome (o : outcome ResolvedEarnUsdcWithdraw) : option (Z * nat) + option (Z * string * string) :=
  match o with
  | Done w => inl (Some (rw_effectiveAmountRaw w, length (in_fullWithdrawalTargets (rw_input w))))
  | Failed e => inr (normalizeEarnWithdrawPreparationError e)
  end.
Definition shownBody (body : json) : result (option (Z * nat) + option (Z * string)) :=
  (fun request => match shownOutcome (demoResolve request) with inl x => inl x | inr o => inr (fst <$> o) end) <$> parseEarnWithdrawPrepareRequestBody body.

Example resolve_bodies : map shownBody [reserveBody "300"; reserveBody "max"; reserveBody "751"; exitBody; mintBody; bodyOf "7" [("sourceId", JString "x")]]%string =
  map Ok [inl (Some (300, 0%nat)); inl (Some (750, 0%nat)); inr (Some (409, "earn_withdraw_amount_exceeds_source")); inl (Some (1000, 1%nat));
    inl (Some (200, 0%nat)); inr (Some (409, "earn_withdraw_source_changed"))]%string.
Proof. vm_compute. reflexivity. Qed.

Example normalize_words :
  map (fun message => fst <$> normalizeEarnWithdrawPreparationError (ThrownError (Exn "Error" message) None))
    ["simulation: AccountNotFound."; "xAccountNotFound"; "klend_market_not_found"; "The Kamino reserve account IS unavailable"]%string =
  [Some (409, "earn_withdraw_required_account_missing"); None; Some (409, "earn_withdraw_source_changed"); Some (409, "earn_withdraw_source_changed")]%string.
Proof. vm_compute. reflexivity. Qed.

Lemma demo_amounts data (account : TokenAccount) : Forall is_byte data -> decodeTokenAccount data = Ok account -> 0 <= ta_amount account.
Proof.
  intros Hb H. cbn in H. inv_results. subst account. match goal with H : readUint64LE _ _ = Ok _ |- _ => rename H into Hread end.
  destruct (decide (72 <= Z.of_nat (length data))) as [Hl|Hl].
  - rewrite read64_ok in Hread by lia. injection Hread as <-. by apply le_value_nonneg, slice_bytes.
  - unfold readUint64LE in Hread. by replace ((64 <? 0) || (Z.of_nat (length data) <? 64 + 8)) with true in Hread by lia.
Qed.

Lemma demo_reader_bytes : answers_bytes (demoReader 250 500).
Proof. apply demo_bytes; apply info_bytes; vm_compute; reflexivity. Qed.

Lemma withdrawal_covered_witness :
  match parseEarnWithdrawPrepareRequestBody exitBody with
  | Ok request =>
      match demoResolve request with
      | Done w => exists attempt found key r,
          (attempt < 5)%nat /\ findActiveYieldRoutePolicyPair (demoTables attempt) (policyLookup (demoArgs request)) = Ok (Some found) /\
          rw_policy w = pair_routePolicy found /\ governs (policyLookup (demoArgs request)) (rw_policy w) /\
          reads_chain Devnet (demoReader 250 500) None (Some (serializeRoutePolicyState (rw_policy w))) demoProgram key r /\
          in_settingsPda (rw_input w) = key /\ rw_effectiveAmountRaw w = in_amountRaw (rw_input w) /\
          match wq_legacy request with
          | Some {| lg_mode := Full |} => takes_all r (rw_input w)
          | _ => exists seen, seen ∈ sourcesSeen r /\ takes_from seen (wq_amountRaw request) (rw_input w) /\ 0 < in_amountRaw (rw_input w)
          end
      | Failed _ => False
      end
  | Throw _ => False
  end.
Proof.
  destruct (parseEarnWithdrawPrepareRequestBody exitBody) as [request|] eqn:Eb; [|vm_compute in Eb; discriminate Eb].
  assert (H : match demoResolve request with Done _ => true | Failed _ => false end = true) by (vm_compute in Eb; injection Eb as <-; vm_compute; reflexivity).
  destruct (demoResolve request) as [w|] eqn:E; [|discriminate H].
  apply (withdrawal_covered demoTables (throwError "unused") (demoReader 250 500) "now" (demoArgs request) exitBody request w);
    [apply demo_reader_bytes|apply demo_amounts|exact Eb|reflexivity..|exact E].
Defined.

Definition demoFound : ActiveYieldRoutePolicyPair := {| pair_routePolicy := demoRow; pair_setupPolicy := None |}.
Definition demoAccount : PolicyKey := {| pk_account := key_of 6; pk_seed := 9 |}.
Definition demoSourceId : string := "reserve:" +:+ text demoReserve.
Definition demoRequest : WithdrawRequest := {| wq_amountRaw := Some 300; wq_sourceId := Some demoSourceId; wq_legacy := None |}.
Definition demoSnapshot : EarnRpcHoldingsSnapshot :=
  match fetchEarnRpcHoldingsSnapshot Devnet (demoReader 250 500) None (Some (serializeRoutePolicyState demoRow)) demoProgram false demoSettings "now" with
  | Ok s => s
  | Throw _ => {| currentTotalAmountRaw := EmptyString; currentTotalNominalUsdMicros := EmptyString; holdings := []; observedAt := EmptyString;
                  snapshotSlot := EmptyString; accountCount := 0; chunkCount := 0; watchedAccounts := [] |}
  end.

Lemma demo_snapshot_read :
  fetchEarnRpcHoldingsSnapshot Devnet (demoReader 250 500) None (Some (serializeRoutePolicyState demoRow)) demoProgram false demoSettings "now" = Ok demoSnapshot.
Proof.
  assert (H : is_ok (fetchEarnRpcHoldingsSnapshot Devnet (demoReader 250 500) None (Some (serializeRoutePolicyState demoRow)) demoProgram false demoSettings "now") = true)
    by (vm_compute; reflexivity).
  unfold demoSnapshot. destruct (fetchEarnRpcHoldingsSnapshot _ _ _ _ _ _ _ _); [reflexivity|discriminate H].
Qed.

Lemma withdrawal_decided_witness :
  exists r, reads_chain Devnet (demoReader 250 500) None (Some (serializeRoutePolicyState demoRow)) demoProgram demoSettings r /\
    let resolved := demoResolve demoRequest in
    match List.filter (fun seen => String.eqb (placeText seen.1) demoSourceId) (sourcesSeen r) with
    | [seen] =>
        if seen.2 <? 300 then rejects resolved 409 "earn_withdraw_amount_exceeds_source"
        else exists w, resolved = Done w /\ rw_policy w = demoRow /\ takes_from seen (Some 300) (rw_input w) /\
          targets_place seen.1 (in_target (rw_input w)) /\ in_policy (rw_input w) = demoAccount /\ in_setupPolicy (rw_input w) = None
    | _ => rejects resolved 409 (if (length (sourcesSeen r) =? 0)%nat then "missing_earn_withdraw_source" else "earn_withdraw_source_changed")
    end.
Proof.
  unfold demoResolve. refine (withdrawal_decided demoTables (throwError "unused") (demoReader 250 500) "now" (demoArgs demoRequest) demoSourceId demoSettings
           demoFound demoSnapshot demoAccount None (key_of 5) demo_reader_bytes _ eq_refl eq_refl).
  split.
  3: apply demo_snapshot_read.
  all: vm_compute; reflexivity.
Defined.

(** The cluster and the wallet do not travel. *)
Definition demoInput (cluster : LoyalCluster) (wallet : key) : SmartAccountEarnUsdcWithdrawInput := {|
  in_amountRaw := 300; in_cluster := cluster; in_feePayer := wallet; in_policySigner := key_of 11; in_settingsPda := demoSettings; in_target := None;
  in_fullWithdrawalTargets := []; in_source := {| is_amountRaw := 300; is_id := "id"; is_mint := key_of 1; is_place := InTokenAccount (key_of 2) (key_of 3) |};
  in_walletAddress := wallet; in_policy := demoAccount; in_setupPolicy := None; in_mode := Partial |}.

Lemma withdraw_wire_faithful_witness :
  let a := demoInput Devnet (key_of 5) in let b := demoInput MainnetBeta (key_of 6) in
  in_amountRaw a = in_amountRaw b /\ in_mode a = in_mode b /\ in_policySigner a = in_policySigner b /\ in_source a = in_source b /\
  in_target a = in_target b /\ in_fullWithdrawalTargets a = in_fullWithdrawalTargets b /\ in_policy a = in_policy b /\ in_setupPolicy a = in_setupPolicy b.
Proof. apply (withdraw_wire_faithful (demoInput Devnet (key_of 5)) (demoInput MainnetBeta (key_of 6))). reflexivity. Defined.
End WithdrawInputWitness.
