(* ===== verification/ConfirmContracts.v ===== *)
(** Confirmations of policies, deposits and withdrawals
    (web/apps/web/src/lib/yield-optimization/earn-confirm-contracts.shared.ts): the bodies a client builds from what was prepared
    (the metadata of EarnWire.v) and the readers of the server. A body is a JSON value; an optional field that is absent
    is [JUndefined]. [{ ...a, ...b }] is [spread a b]. *)
From S2P Require Import Prelude JsString JsMap Json PreparedWire EarnWire.

(** ** Readers *)
Definition assertRequestObject (body : json) : result json :=
  if is_object body then Ok body else throwError "Request body must be an object.".

Definition readRequiredString (body : json) (key : string) : result string :=
  match get key body with
  | JString value =>
      match trim (chars value) with [] => throwError (key +:+ " must be a non-empty string.") | trimmed => Ok (unchars trimmed) end
  | _ => throwError (key +:+ " must be a non-empty string.")
  end.

Definition readOptionalString (body : json) (key : string) : result (option string) :=
  match get key body with
  | JUndefined | JNull => Ok None
  | JString value => Ok match trim (chars value) with [] => None | trimmed => Some (unchars trimmed) end
  | _ => throwError (key +:+ " must be a string when provided.")
  end.

Definition readBigIntString (body : json) (key : string) : result Z :=
  value ← readRequiredString body key;
  if all_digits (chars value) then BigInt_of_string value else throwError (key +:+ " must be an unsigned integer string.").

Definition readOptionalBigIntString (body : json) (key : string) : result (option Z) :=
  value ← readOptionalString body key;
  match value with
  | None => Ok None
  | Some value => if all_digits (chars value) then Some <$> BigInt_of_string value else throwError (key +:+ " must be an unsigned integer string.")
  end.

Definition readVaultIndex (body : json) : result Z :=
  match get "vaultIndex" body with
  | JNumber (JInt value) => if (value <? 0) || (32767 <? value) then throwError "vaultIndex must be an integer between 0 and 32767." else Ok value
  | _ => throwError "vaultIndex must be an integer between 0 and 32767."
  end.

Definition readPolicyInitialization (body : json) : result PolicyInitialization :=
  value ← readRequiredString body "policyInitialization";
  if String.eqb value "create" then Ok PolicyCreate
  else if String.eqb value "reuse" then Ok PolicyReuse
  else throwError "policyInitialization must be create or reuse.".

Inductive PolicyStage := RoutePolicyStage | SetupPolicyStage.

Definition readPolicyConfirmStage (body : json) : result PolicyStage :=
  value ← readOptionalString body "stage";
  match value with
  | None => signature ← readOptionalString body "setupPolicySignature"; Ok match signature with Some _ => SetupPolicyStage | None => RoutePolicyStage end
  | Some value =>
      if String.eqb value "route_policy" then Ok RoutePolicyStage
      else if String.eqb value "setup_policy" then Ok SetupPolicyStage
      else throwError "stage must be route_policy or setup_policy."
  end.

Definition readMode (body : json) : result WithdrawMode :=
  mode ← readRequiredString body "mode";
  if String.eqb mode "partial" then Ok Partial
  else if String.eqb mode "full" then Ok Full
  else throwError "mode must be partial or full.".

Definition readOptionalBoolean (body : json) (key : string) : result (option bool) :=
  match get key body with
  | JUndefined | JNull => Ok None
  | JBool b => Ok (Some b)
  | _ => throwError (key +:+ " must be a boolean when provided.")
  end.

Definition readOptionalNonNegativeInteger (body : json) (key : string) : result (option Z) :=
  match get key body with
  | JUndefined | JNull => Ok None
  | JNumber (JInt value) => if value <? 0 then throwError (key +:+ " must be a non-negative integer when provided.") else Ok (Some value)
  | _ => throwError (key +:+ " must be a non-negative integer when provided.")
  end.

(** An entry; its index is only in the message. *)
Definition readReserveWithdrawal (p : nat * json) : result ReserveWithdrawalMetadata :=
  if negb (is_object p.2) then throwError ("reserveWithdrawals[" +:+ bigint_toString (Z.of_nat p.1) +:+ "] must be an object.")
  else
    let record := p.2 in
    accountingReserve ← readRequiredString record "accountingReserve";
    collateralAta ← readRequiredString record "collateralAta";
    executionMarket ← readRequiredString record "executionMarket";
    executionReserve ← readRequiredString record "executionReserve";
    kaminoWithdrawAmountRaw ← readBigIntString record "kaminoWithdrawAmountRaw";
    liquidityMint ← readRequiredString record "liquidityMint";
    market ← readOptionalString record "market";
    reserve ← readRequiredString record "reserve";
    withdrawnAmountRaw ← readBigIntString record "withdrawnAmountRaw";
    Ok {| rwm_accountingReserve := accountingReserve; rwm_collateralAta := collateralAta; rwm_executionMarket := executionMarket;
          rwm_executionReserve := executionReserve; rwm_kaminoWithdrawAmountRaw := bigint_toString kaminoWithdrawAmountRaw;
          rwm_liquidityMint := liquidityMint; rwm_market := market; rwm_reserve := reserve;
          rwm_withdrawnAmountRaw := bigint_toString withdrawnAmountRaw |}.

Definition readOptionalReserveWithdrawals (body : json) : result (option (list ReserveWithdrawalMetadata)) :=
  match get "reserveWithdrawals" body with
  | JUndefined | JNull => Ok None
  | JArray entries => Some <$> mapR readReserveWithdrawal (imap pair entries)
  | _ => throwError "reserveWithdrawals must be an array when provided."
  end.

Definition readOptionalSourceType (body : json) : result (option SourceType) :=
  value ← readOptionalString body "sourceType";
  match value with
  | None => Ok None
  | Some value =>
      if String.eqb value "reserve" then Ok (Some SourceReserve)
      else if String.eqb value "idle" then Ok (Some SourceIdle)
      else throwError "sourceType must be reserve or idle when provided."
  end.

Definition readOptionalSourceMetadata (body : json) : result (option (list (string * json))) :=
  match get "sourceMetadata" body with
  | JUndefined | JNull => Ok None
  | JObject fields => Ok (Some fields)
  | _ => throwError "sourceMetadata must be an object when provided."
  end.

Record AutodepositCloseInput := {
  ci_closeSignature : string;
  ci_confirmedSlot : Z;
  ci_delegatedSigner : string;
  ci_policyAccount : string;
  ci_recurringDelegation : string;
}.

Definition readOptionalAutodepositClose (body : json) : result (option AutodepositCloseInput) :=
  match get "autodepositClose" body with
  | JUndefined | JNull => Ok None
  | record =>
      if negb (is_object record) then throwError "autodepositClose must be an object when provided."
      else
        closeSignature ← readRequiredString record "closeSignature";
        confirmedSlot ← readBigIntString record "confirmedSlot";
        delegatedSigner ← readRequiredString record "delegatedSigner";
        policyAccount ← readRequiredString record "policyAccount";
        recurringDelegation ← readRequiredString record "recurringDelegation";
        Ok (Some {| ci_closeSignature := closeSignature; ci_confirmedSlot := confirmedSlot; ci_delegatedSigner := delegatedSigner;
                    ci_policyAccount := policyAccount; ci_recurringDelegation := recurringDelegation |})
  end.

(** ** What the server reads *)
Record ConfirmedYieldRoutePolicyInput := {
  cp_cluster : string;
  cp_confirmedSlot : Z;
  cp_delegatedSigner : string;
  cp_liquidityMint : string;
  cp_market : option string;
  cp_policyAccount : string;
  cp_policyId : Z;
  cp_policySeed : Z;
  cp_policySignature : string;
  cp_stage : PolicyStage;
  cp_setupPolicyAccount : option string;
  cp_setupPolicyConfirmedSlot : option Z;
  cp_setupPolicyId : option Z;
  cp_setupPolicySeed : option Z;
  cp_setupPolicySignature : option string;
  cp_settings : string;
  cp_targetReserve : string;
  cp_vaultIndex : Z;
  cp_vaultPubkey : string;
  cp_walletAddress : string;
}.

Definition parseEarnPolicyConfirmRequestBody (body : json) : result ConfirmedYieldRoutePolicyInput :=
  record ← assertRequestObject body;
  stage ← readPolicyConfirmStage record;
  cluster ← readRequiredString record "cluster";
  confirmedSlot ← readBigIntString record "confirmedSlot";
  delegatedSigner ← readRequiredString record "delegatedSigner";
  liquidityMint ← readRequiredString record "liquidityMint";
  market ← readOptionalString record "market";
  policyAccount ← readRequiredString record "policyAccount";
  policyId ← readBigIntString record "policyId";
  policySeed ← readBigIntString record "policySeed";
  policySignature ← readRequiredString record "policySignature";
  setupPolicyAccount ← readOptionalString record "setupPolicyAccount";
  setupPolicyConfirmedSlot ← readOptionalBigIntString record "setupPolicyConfirmedSlot";
  setupPolicyId ← readOptionalBigIntString record "setupPolicyId";
  setupPolicySeed ← readOptionalBigIntString record "setupPolicySeed";
  setupPolicySignature ← readOptionalString record "setupPolicySignature";
  settings ← readRequiredString record "settings";
  targetReserve ← readRequiredString record "targetReserve";
  vaultIndex ← readVaultIndex record;
  vaultPubkey ← readRequiredString record "vaultPubkey";
  walletAddress ← readRequiredString record "walletAddress";
  Ok {| cp_cluster := cluster; cp_confirmedSlot := confirmedSlot; cp_delegatedSigner := delegatedSigner; cp_liquidityMint := liquidityMint;
        cp_market := market; cp_policyAccount := policyAccount; cp_policyId := policyId; cp_policySeed := policySeed;
        cp_policySignature := policySignature; cp_stage := stage; cp_setupPolicyAccount := setupPolicyAccount;
        cp_setupPolicyConfirmedSlot := setupPolicyConfirmedSlot; cp_setupPolicyId := setupPolicyId; cp_setupPolicySeed := setupPolicySeed;
        cp_setupPolicySignature := setupPolicySignature; cp_settings := settings; cp_targetReserve := targetReserve;
        cp_vaultIndex := vaultIndex; cp_vaultPubkey := vaultPubkey; cp_walletAddress := walletAddress |}.

Record ConfirmedYieldDepositInput := {
  cd_cluster : string;
  cd_confirmedSlot : Z;
  cd_delegatedSigner : string;
  cd_depositMint : string;
  cd_depositSignature : string;
  cd_liquidityMint : string;
  cd_market : option string;
  cd_policyAccount : string;
  cd_policyId : Z;
  cd_policyConfirmedSlot : option Z;
  cd_policyInitialization : PolicyInitialization;
  cd_policySeed : Z;
  cd_policySignature : string;
  cd_principalAmountRaw : Z;
  cd_settings : string;
  cd_setupPolicyAccount : option string;
  cd_setupPolicyConfirmedSlot : option Z;
  cd_setupPolicyId : option Z;
  cd_setupPolicySeed : option Z;
  cd_setupPolicySignature : option string;
  cd_smartAccountAddress : string;
  cd_targetReserve : string;
  cd_targetSupplyApyBps : option Z;
  cd_vaultIndex : Z;
  cd_vaultPubkey : string;
  cd_walletAddress : string;
}.

Definition parseEarnDepositConfirmRequestBody (body : json) : result ConfirmedYieldDepositInput :=
  record ← assertRequestObject body;
  cluster ← readRequiredString record "cluster";
  confirmedSlot ← readBigIntString record "confirmedSlot";
  delegatedSigner ← readRequiredString record "delegatedSigner";
  depositMint ← readRequiredString record "depositMint";
  depositSignature ← readRequiredString record "depositSignature";
  liquidityMint ← readRequiredString record "liquidityMint";
  market ← readOptionalString record "market";
  policyAccount ← readRequiredString record "policyAccount";
  policyId ← readBigIntString record "policyId";
  policyConfirmedSlot ← readOptionalBigIntString record "policyConfirmedSlot";
  policyInitialization ← readPolicyInitialization record;
  policySeed ← readBigIntString record "policySeed";
  policySignature ← readRequiredString record "policySignature";
  principalAmountRaw ← readBigIntString record "principalAmountRaw";
  settings ← readRequiredString record "settings";
  setupPolicyAccount ← readOptionalString record "setupPolicyAccount";
  setupPolicyConfirmedSlot ← readOptionalBigIntString record "setupPolicyConfirmedSlot";
  setupPolicyId ← readOptionalBigIntString record "setupPolicyId";
  setupPolicySeed ← readOptionalBigIntString record "setupPolicySeed";
  setupPolicySignature ← readOptionalString record "setupPolicySignature";
  smartAccountAddress ← readRequiredString record "smartAccountAddress";
  targetReserve ← readRequiredString record "targetReserve";
  targetSupplyApyBps ← readOptionalBigIntString record "targetSupplyApyBps";
  vaultIndex ← readVaultIndex record;
  vaultPubkey ← readRequiredString record "vaultPubkey";
  walletAddress ← readRequiredString record "walletAddress";
  Ok {| cd_cluster := cluster; cd_confirmedSlot := confirmedSlot; cd_delegatedSigner := delegatedSigner; cd_depositMint := depositMint;
        cd_depositSignature := depositSignature; cd_liquidityMint := liquidityMint; cd_market := market; cd_policyAccount := policyAccount;
        cd_policyId := policyId; cd_policyConfirmedSlot := policyConfirmedSlot; cd_policyInitialization := policyInitialization;
        cd_policySeed := policySeed; cd_policySignature := policySignature; cd_principalAmountRaw := principalAmountRaw;
        cd_settings := settings; cd_setupPolicyAccount := setupPolicyAccount; cd_setupPolicyConfirmedSlot := setupPolicyConfirmedSlot;
        cd_setupPolicyId := setupPolicyId; cd_setupPolicySeed := setupPolicySeed; cd_setupPolicySignature := setupPolicySignature;
        cd_smartAccountAddress := smartAccountAddress; cd_targetReserve := targetReserve; cd_targetSupplyApyBps := targetSupplyApyBps;
        cd_vaultIndex := vaultIndex; cd_vaultPubkey := vaultPubkey; cd_walletAddress := walletAddress |}.

Record ConfirmedYieldWithdrawalInput := {
  cw_autodepositClose : option AutodepositCloseInput;
  cw_cluster : string;
  cw_confirmedSlot : Z;
  cw_delegatedSigner : string;
  cw_liquidityMint : string;
  cw_market : option string;
  cw_mode : WithdrawMode;
  cw_policyAccount : string;
  cw_policyId : Z;
  cw_policySeed : Z;
  cw_setupPolicyAccount : option string;
  cw_setupPolicyId : option Z;
  cw_setupPolicySeed : option Z;
  cw_settings : string;
  cw_smartAccountAddress : string;
  cw_accountingReserve : option string;
  cw_executionReserve : option string;
  cw_isFinalStep : option bool;
  cw_reserveWithdrawals : option (list ReserveWithdrawalMetadata);
  cw_requestedWithdrawAmountRaw : option Z;
  cw_sourceAmountRaw : option Z;
  cw_sourceId : option string;
  cw_sourceMetadata : option (list (string * json));
  cw_sourceMint : option string;
  cw_sourceTokenAccount : option string;
  cw_sourceType : option SourceType;
  cw_stepCount : option Z;
  cw_stepIndex : option Z;
  cw_targetReserve : string;
  cw_vaultIndex : Z;
  cw_vaultPubkey : string;
  cw_walletAddress : string;
  cw_withdrawalSignature : string;
  cw_withdrawnAmountRaw : Z;
}.

Definition parseEarnWithdrawalConfirmRequestBody (body : json) : result ConfirmedYieldWithdrawalInput :=
  record ← assertRequestObject body;
  autodepositClose ← readOptionalAutodepositClose record;
  cluster ← readRequiredString record "cluster";
  confirmedSlot ← readBigIntString record "confirmedSlot";
  delegatedSigner ← readRequiredString record "delegatedSigner";
  liquidityMint ← readRequiredString record "liquidityMint";
  market ← readOptionalString record "market";
  mode ← readMode record;
  policyAccount ← readRequiredString record "policyAccount";
  policyId ← readBigIntString record "policyId";
  policySeed ← readBigIntString record "policySeed";
  setupPolicyAccount ← readOptionalString record "setupPolicyAccount";
  setupPolicyId ← readOptionalBigIntString record "setupPolicyId";
  setupPolicySeed ← readOptionalBigIntString record "setupPolicySeed";
  settings ← readRequiredString record "settings";
  smartAccountAddress ← readRequiredString record "smartAccountAddress";
  accountingReserve ← readOptionalString record "accountingReserve";
  executionReserve ← readOptionalString record "executionReserve";
  isFinalStep ← readOptionalBoolean record "isFinalStep";
  reserveWithdrawals ← readOptionalReserveWithdrawals record;
  requestedWithdrawAmountRaw ← readOptionalBigIntString record "requestedWithdrawAmountRaw";
  sourceAmountRaw ← readOptionalBigIntString record "sourceAmountRaw";
  sourceId ← readOptionalString record "sourceId";
  sourceMetadata ← readOptionalSourceMetadata record;
  sourceMint ← readOptionalString record "sourceMint";
  sourceTokenAccount ← readOptionalString record "sourceTokenAccount";
  sourceType ← readOptionalSourceType record;
  stepCount ← readOptionalNonNegativeInteger record "stepCount";
  stepIndex ← readOptionalNonNegativeInteger record "stepIndex";
  targetReserve ← readRequiredString record "targetReserve";
  vaultIndex ← readVaultIndex record;
  vaultPubkey ← readRequiredString record "vaultPubkey";
  walletAddress ← readRequiredString record "walletAddress";
  withdrawalSignature ← readRequiredString record "withdrawalSignature";
  withdrawnAmountRaw ← readBigIntString record "withdrawnAmountRaw";
  Ok {| cw_autodepositClose := autodepositClose; cw_cluster := cluster; cw_confirmedSlot := confirmedSlot; cw_delegatedSigner := delegatedSigner;
        cw_liquidityMint := liquidityMint; cw_market := market; cw_mode := mode; cw_policyAccount := policyAccount; cw_policyId := policyId;
        cw_policySeed := policySeed; cw_setupPolicyAccount := setupPolicyAccount; cw_setupPolicyId := setupPolicyId;
        cw_setupPolicySeed := setupPolicySeed; cw_settings := settings; cw_smartAccountAddress := smartAccountAddress;
        cw_accountingReserve := accountingReserve; cw_executionReserve := executionReserve; cw_isFinalStep := isFinalStep;
        cw_reserveWithdrawals := reserveWithdrawals; cw_requestedWithdrawAmountRaw := requestedWithdrawAmountRaw;
        cw_sourceAmountRaw := sourceAmountRaw; cw_sourceId := sourceId; cw_sourceMetadata := sourceMetadata; cw_sourceMint := sourceMint;
        cw_sourceTokenAccount := sourceTokenAccount; cw_sourceType := sourceType; cw_stepCount := stepCount; cw_stepIndex := stepIndex;
        cw_targetReserve := targetReserve; cw_vaultIndex := vaultIndex; cw_vaultPubkey := vaultPubkey; cw_walletAddress := walletAddress;
        cw_withdrawalSignature := withdrawalSignature; cw_withdrawnAmountRaw := withdrawnAmountRaw |}.

(** ** What a client sends *)
(** [{ ...a, ...b }] on own properties *)
Definition spread (a b : list (string * json)) : list (string * json) := fold_left (fun fields p => mapSet fields p.1 p.2) b a.

Definition textOr (o : option string) : json := match o with Some s => JString s | None => JUndefined end.
Definition textOrNull (o : option string) : json := match o with Some s => JString s | None => JNull end.
Definition texts (l : list string) : json := JArray (map JString l).
Definition integer (z : Z) : json := JNumber (JInt z).
Definition stage_value (stage : PolicyStage) : string := match stage with RoutePolicyStage => "route_policy" | SetupPolicyStage => "setup_policy" end.
Definition cluster_value (c : LoyalCluster) : string := match c with Devnet => "devnet" | MainnetBeta => "mainnet-beta" end.
Definition initialization_value (p : PolicyInitialization) : string := match p with PolicyCreate => "create" | PolicyReuse => "reuse" end.
Definition mode_value (mode : WithdrawMode) : string := match mode with Partial => "partial" | Full => "full" end.
Definition sourceType_value (t : SourceType) : string := match t with SourceReserve => "reserve" | SourceIdle => "idle" end.

(** The own properties of the metadata *)
Definition depositFields (d : DepositMetadata) : list (string * json) :=
  [ ("cluster", JString (cluster_value (dm_cluster d))); ("walletAddress", JString (dm_walletAddress d));
    ("delegatedSigner", JString (dm_delegatedSigner d)); ("settings", JString (dm_settings d)); ("vaultIndex", integer (dm_vaultIndex d));
    ("vaultPubkey", JString (dm_vaultPubkey d)); ("policyId", JString (dm_policyId d)); ("policyAccount", JString (dm_policyAccount d));
    ("policySeed", JString (dm_policySeed d)); ("setupPolicyId", textOr (dm_setupPolicyId d));
    ("setupPolicyAccount", textOr (dm_setupPolicyAccount d)); ("setupPolicySeed", textOr (dm_setupPolicySeed d));
    ("targetReserve", JString (dm_targetReserve d)); ("market", JString (dm_market d)); ("liquidityMint", JString (dm_liquidityMint d));
    ("depositMint", JString (dm_depositMint d)); ("principalAmountRaw", JString (dm_principalAmountRaw d));
    ("policyInitialization", JString (initialization_value (dm_policyInitialization d)));
    ("targetSupplyApyBps", textOrNull (dm_targetSupplyApyBps d)); ("riskProfile", JString (dm_riskProfile d));
    ("routeModes", texts (dm_routeModes d)); ("stableMints", texts (dm_stableMints d)); ("kaminoMarkets", texts (dm_kaminoMarkets d));
    ("kaminoLiquidityMints", texts (dm_kaminoLiquidityMints d)); ("universePreset", JString (dm_universePreset d)) ]%string.

Definition reserveWithdrawalJson (w : ReserveWithdrawalMetadata) : json :=
  JObject [ ("accountingReserve", JString (rwm_accountingReserve w)); ("collateralAta", JString (rwm_collateralAta w));
            ("executionMarket", JString (rwm_executionMarket w)); ("executionReserve", JString (rwm_executionReserve w));
            ("kaminoWithdrawAmountRaw", JString (rwm_kaminoWithdrawAmountRaw w)); ("liquidityMint", JString (rwm_liquidityMint w));
            ("market", textOrNull (rwm_market w)); ("reserve", JString (rwm_reserve w));
            ("withdrawnAmountRaw", JString (rwm_withdrawnAmountRaw w)) ]%string.

Definition closeFields (c : AutodepositCloseMetadata) : list (string * json) :=
  [ ("cluster", JString (cluster_value (acm_cluster c))); ("walletAddress", JString (acm_walletAddress c));
    ("delegatedSigner", JString (acm_delegatedSigner c)); ("settings", JString (acm_settings c)); ("vaultIndex", integer (acm_vaultIndex c));
    ("vaultPubkey", JString (acm_vaultPubkey c)); ("policyAccount", JString (acm_policyAccount c));
    ("recurringDelegation", JString (acm_recurringDelegation c)) ]%string.

Definition orUndefined {A} (f : A -> json) (o : option A) : json := match o with Some a => f a | None => JUndefined end.

(** Without [autodepositClose] *)
Definition withdrawFields (w : WithdrawMetadata json) : list (string * json) :=
  [ ("cluster", JString (cluster_value (wm_cluster _ w))); ("walletAddress", JString (wm_walletAddress _ w));
    ("delegatedSigner", JString (wm_delegatedSigner _ w)); ("settings", JString (wm_settings _ w)); ("vaultIndex", integer (wm_vaultIndex _ w));
    ("vaultPubkey", JString (wm_vaultPubkey _ w)); ("policyId", JString (wm_policyId _ w)); ("policyAccount", JString (wm_policyAccount _ w));
    ("policySeed", JString (wm_policySeed _ w)); ("setupPolicyId", textOr (wm_setupPolicyId _ w));
    ("setupPolicyAccount", textOr (wm_setupPolicyAccount _ w)); ("setupPolicySeed", textOr (wm_setupPolicySeed _ w));
    ("targetReserve", textOr (wm_targetReserve _ w)); ("market", textOr (wm_market _ w)); ("liquidityMint", JString (wm_liquidityMint _ w));
    ("requestedWithdrawAmountRaw", JString (wm_requestedWithdrawAmountRaw _ w)); ("withdrawnAmountRaw", JString (wm_withdrawnAmountRaw _ w));
    ("mode", JString (mode_value (wm_mode _ w))); ("sourceType", textOr (sourceType_value <$> wm_sourceType _ w));
    ("sourceId", textOr (wm_sourceId _ w)); ("sourceAmountRaw", textOr (wm_sourceAmountRaw _ w));
    ("sourceTokenAccount", textOr (wm_sourceTokenAccount _ w)); ("sourceMint", textOr (wm_sourceMint _ w));
    ("sourceMetadata", orUndefined JObject (wm_sourceMetadata _ w)); ("kaminoWithdrawAmountRaw", textOr (wm_kaminoWithdrawAmountRaw _ w));
    ("vaultCollateralCleanupIncluded", orUndefined JBool (wm_vaultCollateralCleanupIncluded _ w));
    ("vaultUsdcRemainderRaw", textOr (wm_vaultUsdcRemainderRaw _ w)); ("walletTransferAmountRaw", textOr (wm_walletTransferAmountRaw _ w));
    ("accountingReserve", textOr (wm_accountingReserve _ w)); ("executionReserve", textOr (wm_executionReserve _ w));
    ("reserveWithdrawals", orUndefined (fun l => JArray (map reserveWithdrawalJson l)) (wm_reserveWithdrawals w));
    ("stepIndex", orUndefined integer (wm_stepIndex _ w)); ("stepCount", orUndefined integer (wm_stepCount _ w));
    ("isFinalStep", orUndefined JBool (wm_isFinalStep _ w)) ]%string.

(** From the own properties of the metadata of a prepared policy *)
Definition buildEarnPolicyConfirmRequestBody (persistence : list (string * json)) (signature confirmedSlot : string) (stage : PolicyStage)
    (setupPolicySignature setupPolicyConfirmedSlot : option string) : json :=
  JObject (spread persistence
    [ ("policySignature", JString signature); ("setupPolicySignature", textOr setupPolicySignature);
      ("setupPolicyConfirmedSlot", textOr setupPolicyConfirmedSlot); ("confirmedSlot", JString confirmedSlot);
      ("stage", JString (stage_value stage)) ]%string).

(** [finalize] is the stage "policy-finalize", otherwise "policy". *)
Definition buildEarnDepositPolicyStageConfirmRequestBody (persistence : DepositMetadata) (signature confirmedSlot : string) (finalize : bool) : json :=
  JObject (spread (depositFields persistence)
    [ ("confirmedSlot", JString confirmedSlot); ("policySignature", JString signature);
      ("setupPolicyConfirmedSlot", textOr (if finalize then Some confirmedSlot else None));
      ("setupPolicySignature", textOr (if finalize then Some signature else None));
      ("stage", JString (stage_value (if finalize then SetupPolicyStage else RoutePolicyStage))) ]%string).

Definition buildEarnDepositConfirmRequestBody (persistence : DepositMetadata) (signature confirmedSlot smartAccountAddress : string)
    (policySignature policyConfirmedSlot setupPolicySignature setupPolicyConfirmedSlot : option string) : json :=
  JObject (spread (depositFields persistence)
    [ ("smartAccountAddress", JString smartAccountAddress); ("policySignature", JString (default signature policySignature));
      ("policyConfirmedSlot", textOr policyConfirmedSlot); ("setupPolicySignature", textOr setupPolicySignature);
      ("setupPolicyConfirmedSlot", textOr setupPolicyConfirmedSlot); ("depositSignature", JString signature);
      ("confirmedSlot", JString confirmedSlot) ]%string).

Definition closeJson (close : AutodepositCloseMetadata) (closeSignature confirmedSlot : string) : json :=
  JObject (spread (closeFields close) [("closeSignature", JString closeSignature); ("confirmedSlot", JString confirmedSlot)]%string).

(** The metadata of the step, or of the withdrawal when there is no step *)
Definition buildEarnWithdrawalConfirmRequestBody (persistence : WithdrawMetadata json) (signature confirmedSlot smartAccountAddress : string)
    (autodepositCloseSignature autodepositCloseConfirmedSlot : option string) : result json :=
  let targetReserve := match wm_targetReserve _ persistence with Some r => Some r | None => wm_sourceTokenAccount _ persistence end in
  match targetReserve with
  | None | Some EmptyString => throwError "Prepared Earn withdrawal is missing its source identity."
  | Some targetReserve =>
      let close :=
        match wm_autodepositClose _ persistence with
        | Present c =>
            [("autodepositClose"%string, closeJson c (default signature autodepositCloseSignature) (default confirmedSlot autodepositCloseConfirmedSlot))]
        | Undefined | Null => []
        end in
      Ok (JObject (spread (withdrawFields persistence)
        ([("market"%string, textOrNull (wm_market _ persistence)); ("targetReserve"%string, JString targetReserve)] ++ close ++
         [("smartAccountAddress"%string, JString smartAccountAddress); ("withdrawalSignature"%string, JString signature);
          ("confirmedSlot"%string, JString confirmedSlot)])))
  end.

(** ** Reading back *)
(** Texts without spaces around them, and amounts as they print *)
Definition clean (s : string) : Prop := trim (chars s) = chars s /\ s <> EmptyString.
Definition printed (s : string) : Prop := exists n, 0 <= n /\ s = bigint_toString n.
Definition given {A} (P : A -> Prop) (o : option A) : Prop := forall a, o = Some a -> P a.
Definition intOf (s : string) : Z := match BigInt_of_string s with Ok z => z | Throw _ => 0 end.

Lemma printed_clean s : printed s -> clean s.
Proof.
  intros (n & Hn & ->). split; [apply trim_plain, bigint_toString_plain|apply bigint_toString_nonempty].
Qed.

Lemma printed_read s : printed s -> all_digits (chars s) = true /\ BigInt_of_string s = Ok (intOf s) /\ s = bigint_toString (intOf s).
Proof.
  intros (n & Hn & ->). unfold intOf. rewrite BigInt_toString_roundtrip. split; [|done]. by apply bigint_toString_nonneg.
Qed.

Lemma chars_nonempty s : s <> EmptyString -> exists c l, chars s = c :: l.
Proof. destruct s as [|c s]; [done|]. by exists c, (chars s). Qed.

Lemma read_required body key s : get key body = JString s -> clean s -> readRequiredString body key = Ok s.
Proof.
  intros H [Ht Hn]. unfold readRequiredString. rewrite H, Ht. destruct (chars_nonempty s Hn) as (c & l & E). rewrite E. by rewrite <- E, unchars_chars.
Qed.

Lemma read_optional body key o : get key body = textOr o \/ get key body = textOrNull o -> given clean o -> readOptionalString body key = Ok o.
Proof.
  intros H Hc. unfold readOptionalString. destruct o as [s|]; [|by destruct H as [-> | ->]].
  destruct (Hc s eq_refl) as [Ht Hn]. destruct (chars_nonempty s Hn) as (c & l & E). destruct H as [-> | ->]; cbn [textOr textOrNull];
    rewrite Ht, E; by rewrite <- E, unchars_chars.
Qed.

Lemma read_optional_text body key s : get key body = JString s -> clean s -> readOptionalString body key = Ok (Some s).
Proof. intros H Hc. apply read_optional; [by left|]. by intros ? [= <-]. Qed.

Lemma read_bigint body key s : get key body = JString s -> printed s -> readBigIntString body key = Ok (intOf s).
Proof.
  intros H Hp. unfold readBigIntString. rewrite (read_required _ _ _ H (printed_clean _ Hp)). cbn. destruct (printed_read _ Hp) as (-> & Hr & _). done.
Qed.

Lemma read_optional_bigint body key o : get key body = textOr o \/ get key body = textOrNull o -> given printed o ->
  readOptionalBigIntString body key = Ok (intOf <$> o).
Proof.
  intros H Hp. unfold readOptionalBigIntString. rewrite (read_optional _ _ o H) by (intros s Hs; by apply printed_clean, Hp). cbn.
  destruct o as [s|]; [|done]. destruct (printed_read s (Hp s eq_refl)) as (-> & -> & _). done.
Qed.

Lemma read_optional_bigint_text body key s : get key body = JString s -> printed s -> readOptionalBigIntString body key = Ok (Some (intOf s)).
Proof. intros H Hp. apply (read_optional_bigint body key (Some s)); [by left|]. by intros ? [= <-]. Qed.

Lemma read_index body z : get "vaultIndex" body = integer z -> 0 <= z <= 32767 -> readVaultIndex body = Ok z.
Proof. intros H Hz. unfold readVaultIndex. rewrite H. cbn. by replace ((z <? 0) || (32767 <? z)) with false by lia. Qed.

Lemma read_mode body mode : get "mode" body = JString (mode_value mode) -> readMode body = Ok mode.
Proof. intros H. unfold readMode. rewrite (read_required _ _ _ H) by by destruct mode. by destruct mode. Qed.

Lemma read_initialization body p : get "policyInitialization" body = JString (initialization_value p) -> readPolicyInitialization body = Ok p.
Proof. intros H. unfold readPolicyInitialization. rewrite (read_required _ _ _ H) by by destruct p. by destruct p. Qed.

Lemma read_stage body stage : get "stage" body = JString (stage_value stage) -> readPolicyConfirmStage body = Ok stage.
Proof.
  intros H. unfold readPolicyConfirmStage. rewrite (read_optional body "stage" (Some (stage_value stage))); [by destruct stage|by left|].
  intros s [= <-]. by destruct stage.
Qed.

Lemma read_source_type body t : get "sourceType" body = textOr (sourceType_value <$> t) -> readOptionalSourceType body = Ok t.
Proof.
  intros H. unfold readOptionalSourceType. rewrite (read_optional _ _ (sourceType_value <$> t)); [by destruct t as [[]|]|by left|].
  intros s Hs. destruct t as [[]|]; by simplify_eq/=.
Qed.

Lemma read_boolean body key o : get key body = orUndefined JBool o -> readOptionalBoolean body key = Ok o.
Proof. intros H. unfold readOptionalBoolean. rewrite H. by destruct o. Qed.

Lemma read_count body key o : get key body = orUndefined integer o -> given (fun z => 0 <= z) o -> readOptionalNonNegativeInteger body key = Ok o.
Proof.
  intros H Hn. unfold readOptionalNonNegativeInteger. rewrite H. destruct o as [z|]; [|done]. cbn. specialize (Hn z eq_refl). cbn in Hn. by destruct (Z.ltb_spec z 0); [lia|].
Qed.

Lemma read_metadata body o : get "sourceMetadata" body = orUndefined JObject o -> readOptionalSourceMetadata body = Ok o.
Proof. intros H. unfold readOptionalSourceMetadata. rewrite H. by destruct o. Qed.

Lemma read_object fields : assertRequestObject (JObject fields) = Ok (JObject fields).
Proof. done. Qed.

(** Reads the next field from a hypothesis of the context. *)
Ltac read_field :=
  match goal with
  | |- context [assertRequestObject (JObject ?l)] => rewrite (read_object l)
  | |- context [readRequiredString ?b ?k] => erewrite (read_required b k) by (first [reflexivity | eassumption])
  | |- context [readBigIntString ?b ?k] => erewrite (read_bigint b k) by (first [reflexivity | eassumption])
  | |- context [readOptionalString ?b ?k] => erewrite (read_optional_text b k) by (first [reflexivity | eassumption])
  | |- context [readOptionalString ?b ?k] => erewrite (read_optional b k) by (first [left; reflexivity | right; reflexivity | eassumption])
  | |- context [readOptionalBigIntString ?b ?k] => erewrite (read_optional_bigint_text b k) by (first [reflexivity | eassumption])
  | |- context [readOptionalBigIntString ?b ?k] => erewrite (read_optional_bigint b k) by (first [left; reflexivity | right; reflexivity | eassumption])
  | |- context [readVaultIndex ?b] => erewrite (read_index b) by (first [reflexivity | eassumption])
  | |- context [readPolicyConfirmStage ?b] => erewrite (read_stage b) by reflexivity
  | |- context [readMode ?b] => erewrite (read_mode b) by reflexivity
  | |- context [readPolicyInitialization ?b] => erewrite (read_initialization b) by reflexivity
  | |- context [readOptionalSourceType ?b] => erewrite (read_source_type b) by reflexivity
  | |- context [readOptionalBoolean ?b ?k] => erewrite (read_boolean b k) by reflexivity
  | |- context [readOptionalNonNegativeInteger ?b ?k] => erewrite (read_count b k) by (first [reflexivity | eassumption])
  | |- context [readOptionalSourceMetadata ?b] => erewrite (read_metadata b) by reflexivity
  end; cbn [mbind result_bind].

(** *** Deposits *)
Record deposit_wf (d : DepositMetadata) : Prop := {
  dw_wallet : clean (dm_walletAddress d);
  dw_signer : clean (dm_delegatedSigner d);
  dw_settings : clean (dm_settings d);
  dw_index : 0 <= dm_vaultIndex d <= 32767;
  dw_vault : clean (dm_vaultPubkey d);
  dw_policyId : printed (dm_policyId d);
  dw_policy : clean (dm_policyAccount d);
  dw_seed : printed (dm_policySeed d);
  dw_setupId : given printed (dm_setupPolicyId d);
  dw_setup : given clean (dm_setupPolicyAccount d);
  dw_setupSeed : given printed (dm_setupPolicySeed d);
  dw_reserve : clean (dm_targetReserve d);
  dw_market : clean (dm_market d);
  dw_mint : clean (dm_liquidityMint d);
  dw_depositMint : clean (dm_depositMint d);
  dw_principal : printed (dm_principalAmountRaw d);
  dw_apy : given printed (dm_targetSupplyApyBps d);
}.

Lemma clean_cluster c : clean (cluster_value c).
Proof. by destruct c. Qed.

Lemma given_some {A} (P : A -> Prop) a : P a -> given P (Some a).
Proof. by intros H ? [= <-]. Qed.
Lemma given_default (P : string -> Prop) s o : P s -> given P o -> P (default s o).
Proof. intros Hs Ho. destruct o as [t|]; [by apply Ho|done]. Qed.

Theorem deposit_confirmed (d : DepositMetadata) (signature slot account : string) (policySignature policySlot setupSignature setupSlot : option string) :
  deposit_wf d -> clean signature -> printed slot -> clean account -> given clean policySignature -> given printed policySlot ->
  given clean setupSignature -> given printed setupSlot ->
  parseEarnDepositConfirmRequestBody (buildEarnDepositConfirmRequestBody d signature slot account policySignature policySlot setupSignature setupSlot) =
  Ok {| cd_cluster := cluster_value (dm_cluster d); cd_confirmedSlot := intOf slot; cd_delegatedSigner := dm_delegatedSigner d;
        cd_depositMint := dm_depositMint d; cd_depositSignature := signature; cd_liquidityMint := dm_liquidityMint d; cd_market := Some (dm_market d);
        cd_policyAccount := dm_policyAccount d; cd_policyId := intOf (dm_policyId d); cd_policyConfirmedSlot := intOf <$> policySlot;
        cd_policyInitialization := dm_policyInitialization d; cd_policySeed := intOf (dm_policySeed d);
        cd_policySignature := default signature policySignature; cd_principalAmountRaw := intOf (dm_principalAmountRaw d);
        cd_settings := dm_settings d; cd_setupPolicyAccount := dm_setupPolicyAccount d; cd_setupPolicyConfirmedSlot := intOf <$> setupSlot;
        cd_setupPolicyId := intOf <$> dm_setupPolicyId d; cd_setupPolicySeed := intOf <$> dm_setupPolicySeed d;
        cd_setupPolicySignature := setupSignature; cd_smartAccountAddress := account; cd_targetReserve := dm_targetReserve d;
        cd_targetSupplyApyBps := intOf <$> dm_targetSupplyApyBps d; cd_vaultIndex := dm_vaultIndex d; cd_vaultPubkey := dm_vaultPubkey d;
        cd_walletAddress := dm_walletAddress d |}.
Proof.
  intros [] Hs Hslot Ha Hps Hpsl Hss Hssl. pose proof (clean_cluster (dm_cluster d)) as Hcl. pose proof (given_default clean signature policySignature Hs Hps) as Hpol.
  unfold buildEarnDepositConfirmRequestBody, parseEarnDepositConfirmRequestBody. repeat read_field. reflexivity.
Qed.

Theorem policy_stage_confirmed (d : DepositMetadata) (signature slot : string) (finalize : bool) :
  deposit_wf d -> clean signature -> printed slot ->
  parseEarnPolicyConfirmRequestBody (buildEarnDepositPolicyStageConfirmRequestBody d signature slot finalize) =
  Ok {| cp_cluster := cluster_value (dm_cluster d); cp_confirmedSlot := intOf slot; cp_delegatedSigner := dm_delegatedSigner d;
        cp_liquidityMint := dm_liquidityMint d; cp_market := Some (dm_market d); cp_policyAccount := dm_policyAccount d;
        cp_policyId := intOf (dm_policyId d); cp_policySeed := intOf (dm_policySeed d); cp_policySignature := signature;
        cp_stage := if finalize then SetupPolicyStage else RoutePolicyStage; cp_setupPolicyAccount := dm_setupPolicyAccount d;
        cp_setupPolicyConfirmedSlot := intOf <$> (if finalize then Some slot else None); cp_setupPolicyId := intOf <$> dm_setupPolicyId d;
        cp_setupPolicySeed := intOf <$> dm_setupPolicySeed d; cp_setupPolicySignature := if finalize then Some signature else None;
        cp_settings := dm_settings d; cp_targetReserve := dm_targetReserve d; cp_vaultIndex := dm_vaultIndex d;
        cp_vaultPubkey := dm_vaultPubkey d; cp_walletAddress := dm_walletAddress d |}.
Proof.
  intros [] Hs Hslot. pose proof (clean_cluster (dm_cluster d)) as Hcl.
  assert (Hfs : given printed (if finalize then Some slot else None)) by (destruct finalize; by intros ? [= <-]).
  assert (Hfc : given clean (if finalize then Some signature else None)) by (destruct finalize; by intros ? [= <-]).
  unfold buildEarnDepositPolicyStageConfirmRequestBody, parseEarnPolicyConfirmRequestBody. repeat read_field. reflexivity.
Qed.

(** *** Withdrawals *)
Definition reserve_withdrawal_wf (w : ReserveWithdrawalMetadata) : Prop :=
  clean (rwm_accountingReserve w) /\ clean (rwm_collateralAta w) /\ clean (rwm_executionMarket w) /\ clean (rwm_executionReserve w) /\
  printed (rwm_kaminoWithdrawAmountRaw w) /\ clean (rwm_liquidityMint w) /\ given clean (rwm_market w) /\ clean (rwm_reserve w) /\
  printed (rwm_withdrawnAmountRaw w).

Lemma read_reserve_withdrawal i w : reserve_withdrawal_wf w -> readReserveWithdrawal (i, reserveWithdrawalJson w) = Ok w.
Proof.
  intros (H1 & H2 & H3 & H4 & H5 & H6 & H7 & H8 & H9). unfold readReserveWithdrawal, reserveWithdrawalJson. cbn [snd negb is_object].
  repeat read_field. destruct (printed_read _ H5) as (_ & _ & <-). destruct (printed_read _ H9) as (_ & _ & <-). by destruct w.
Qed.

Lemma read_withdrawals body o : get "reserveWithdrawals" body = orUndefined (fun l => JArray (map reserveWithdrawalJson l)) o ->
  given (Forall reserve_withdrawal_wf) o -> readOptionalReserveWithdrawals body = Ok o.
Proof.
  intros H Hw. unfold readOptionalReserveWithdrawals. rewrite H. destruct o as [l|]; [|done]. cbn [orUndefined]. specialize (Hw l eq_refl).
  replace (mapR readReserveWithdrawal (imap pair (map reserveWithdrawalJson l))) with (Ok l); [done|]. symmetry. apply mapR_Ok_Forall2, Forall2_lookup.
  intros i. rewrite list_lookup_imap, list_lookup_fmap. destruct (l !! i) as [w|] eqn:E; cbn; constructor. apply read_reserve_withdrawal.
  by eapply Forall_lookup_1.
Qed.

Definition close_wf (c : AutodepositCloseMetadata) : Prop := clean (acm_delegatedSigner c) /\ clean (acm_policyAccount c) /\ clean (acm_recurringDelegation c).

Definition closeInput (signature slot : string) (c : AutodepositCloseMetadata) : AutodepositCloseInput := {|
  ci_closeSignature := signature; ci_confirmedSlot := intOf slot; ci_delegatedSigner := acm_delegatedSigner c;
  ci_policyAccount := acm_policyAccount c; ci_recurringDelegation := acm_recurringDelegation c |}.

Lemma read_close body c signature slot : get "autodepositClose" body = closeJson c signature slot -> close_wf c -> clean signature -> printed slot ->
  readOptionalAutodepositClose body = Ok (Some (closeInput signature slot c)).
Proof.
  intros H (H1 & H2 & H3) Hs Hslot. unfold readOptionalAutodepositClose. rewrite H. unfold closeJson. cbn [negb is_object]. repeat read_field. reflexivity.
Qed.

Lemma read_no_close body : get "autodepositClose" body = JUndefined -> readOptionalAutodepositClose body = Ok None.
Proof. intros H. unfold readOptionalAutodepositClose. by rewrite H. Qed.

Definition present {A} (x : nullish A) : option A := match x with Present a => Some a | _ => None end.

Record withdraw_wf (w : WithdrawMetadata json) : Prop := {
  ww_wallet : clean (wm_walletAddress _ w);
  ww_signer : clean (wm_delegatedSigner _ w);
  ww_settings : clean (wm_settings _ w);
  ww_index : 0 <= wm_vaultIndex _ w <= 32767;
  ww_vault : clean (wm_vaultPubkey _ w);
  ww_policyId : printed (wm_policyId _ w);
  ww_policy : clean (wm_policyAccount _ w);
  ww_seed : printed (wm_policySeed _ w);
  ww_setupId : given printed (wm_setupPolicyId _ w);
  ww_setup : given clean (wm_setupPolicyAccount _ w);
  ww_setupSeed : given printed (wm_setupPolicySeed _ w);
  ww_reserve : given clean (wm_targetReserve _ w);
  ww_market : given clean (wm_market _ w);
  ww_mint : clean (wm_liquidityMint _ w);
  ww_requested : printed (wm_requestedWithdrawAmountRaw _ w);
  ww_withdrawn : printed (wm_withdrawnAmountRaw _ w);
  ww_sourceId : given clean (wm_sourceId _ w);
  ww_sourceAmount : given printed (wm_sourceAmountRaw _ w);
  ww_sourceAccount : given clean (wm_sourceTokenAccount _ w);
  ww_sourceMint : given clean (wm_sourceMint _ w);
  ww_accounting : given clean (wm_accountingReserve _ w);
  ww_execution : given clean (wm_executionReserve _ w);
  ww_withdrawals : given (Forall reserve_withdrawal_wf) (wm_reserveWithdrawals w);
  ww_step : given (fun z => 0 <= z) (wm_stepIndex _ w);
  ww_steps : given (fun z => 0 <= z) (wm_stepCount _ w);
  ww_close : given close_wf (present (wm_autodepositClose _ w));
}.

(** What the confirmation of a withdrawal is recorded as *)
Definition confirmedWithdrawal (w : WithdrawMetadata json) (target signature slot account : string) (closeSignature closeSlot : option string) :
    ConfirmedYieldWithdrawalInput := {|
  cw_autodepositClose := closeInput (default signature closeSignature) (default slot closeSlot) <$> present (wm_autodepositClose _ w);
  cw_cluster := cluster_value (wm_cluster _ w); cw_confirmedSlot := intOf slot; cw_delegatedSigner := wm_delegatedSigner _ w;
  cw_liquidityMint := wm_liquidityMint _ w; cw_market := wm_market _ w; cw_mode := wm_mode _ w; cw_policyAccount := wm_policyAccount _ w;
  cw_policyId := intOf (wm_policyId _ w); cw_policySeed := intOf (wm_policySeed _ w); cw_setupPolicyAccount := wm_setupPolicyAccount _ w;
  cw_setupPolicyId := intOf <$> wm_setupPolicyId _ w; cw_setupPolicySeed := intOf <$> wm_setupPolicySeed _ w; cw_settings := wm_settings _ w;
  cw_smartAccountAddress := account; cw_accountingReserve := wm_accountingReserve _ w; cw_executionReserve := wm_executionReserve _ w;
  cw_isFinalStep := wm_isFinalStep _ w; cw_reserveWithdrawals := wm_reserveWithdrawals w;
  cw_requestedWithdrawAmountRaw := Some (intOf (wm_requestedWithdrawAmountRaw _ w)); cw_sourceAmountRaw := intOf <$> wm_sourceAmountRaw _ w;
  cw_sourceId := wm_sourceId _ w; cw_sourceMetadata := wm_sourceMetadata _ w; cw_sourceMint := wm_sourceMint _ w;
  cw_sourceTokenAccount := wm_sourceTokenAccount _ w; cw_sourceType := wm_sourceType _ w; cw_stepCount := wm_stepCount _ w;
  cw_stepIndex := wm_stepIndex _ w; cw_targetReserve := target; cw_vaultIndex := wm_vaultIndex _ w; cw_vaultPubkey := wm_vaultPubkey _ w;
  cw_walletAddress := wm_walletAddress _ w; cw_withdrawalSignature := signature; cw_withdrawnAmountRaw := intOf (wm_withdrawnAmountRaw _ w) |}.

(** The reserve or, without one, the token account a withdrawal is recorded against *)
Definition sourceIdentity (w : WithdrawMetadata json) : option string :=
  match wm_targetReserve _ w with Some r => Some r | None => wm_sourceTokenAccount _ w end.

(** C33. What the server records of a withdrawal is what was prepared: the body a client builds from the metadata of a prepared
    step, the signature and the slot is read as exactly those fields, with the amounts as numbers, the reserve or else
    the token account as the place withdrawn from, and the closing of the autodeposit with its own signature and slot
    or those of the withdrawal; and a body is refused exactly when there is neither reserve nor token account. *)
Theorem withdrawal_confirmed (w : WithdrawMetadata json) (signature slot account : string) (closeSignature closeSlot : option string) :
  withdraw_wf w -> clean signature -> printed slot -> clean account -> given clean closeSignature -> given printed closeSlot ->
  match sourceIdentity w with
  | Some target =>
      (body ← buildEarnWithdrawalConfirmRequestBody w signature slot account closeSignature closeSlot; parseEarnWithdrawalConfirmRequestBody body) =
      Ok (confirmedWithdrawal w target signature slot account closeSignature closeSlot)
  | None => is_ok (buildEarnWithdrawalConfirmRequestBody w signature slot account closeSignature closeSlot) = false
  end.
Proof.
  intros [] Hs Hslot Ha Hcs Hcsl. unfold buildEarnWithdrawalConfirmRequestBody, sourceIdentity.
  destruct (match wm_targetReserve _ w with Some r => Some r | None => wm_sourceTokenAccount _ w end) as [target|] eqn:Et; [|done].
  assert (Ht : clean target) by (destruct (wm_targetReserve json w); [injection Et as <-; by apply ww_reserve0|by apply ww_sourceAccount0]).
  destruct target as [|c target]; [by destruct Ht|]. set (t := String c target) in *. cbn [mbind result_bind].
  pose proof (clean_cluster (wm_cluster _ w)) as Hcl. pose proof (given_default clean signature closeSignature Hs Hcs) as Hcs'.
  pose proof (given_default printed slot closeSlot Hslot Hcsl) as Hcsl'. unfold parseEarnWithdrawalConfirmRequestBody, confirmedWithdrawal.
  destruct (wm_autodepositClose json w) as [| |close] eqn:Ec; cbn [present fmap option_fmap option_map app].
  3: { read_field. erewrite read_close by (first [reflexivity | eassumption | by apply ww_close0]). cbn [mbind result_bind].
       repeat read_field. erewrite read_withdrawals by (first [reflexivity | eassumption]). cbn [mbind result_bind]. repeat read_field. reflexivity. }
  all: read_field; erewrite read_no_close by reflexivity; cbn [mbind result_bind]; repeat read_field;
    erewrite read_withdrawals by (first [reflexivity | eassumption]); cbn [mbind result_bind]; repeat read_field; reflexivity.
Qed.

Module ConfirmWitness.
Definition demoWithdrawal : WithdrawMetadata json := {|
  wm_cluster := Devnet; wm_walletAddress := "wallet"; wm_delegatedSigner := "signer"; wm_settings := "settings"; wm_vaultIndex := 1;
  wm_vaultPubkey := "vault"; wm_policyId := "4"; wm_policyAccount := "policy"; wm_policySeed := "9"; wm_setupPolicyId := None;
  wm_setupPolicyAccount := None; wm_setupPolicySeed := None; wm_targetReserve := None; wm_market := None; wm_liquidityMint := "mint";
  wm_requestedWithdrawAmountRaw := "300"; wm_withdrawnAmountRaw := "299"; wm_mode := Partial; wm_sourceType := Some SourceIdle;
  wm_sourceId := Some "idle:ata"%string; wm_sourceAmountRaw := Some "300"%string; wm_sourceTokenAccount := Some "ata"%string; wm_sourceMint := None;
  wm_sourceMetadata := None; wm_kaminoWithdrawAmountRaw := None; wm_vaultCollateralCleanupIncluded := None; wm_vaultUsdcRemainderRaw := None;
  wm_walletTransferAmountRaw := None;
  wm_autodepositClose := Present {| acm_cluster := Devnet; acm_walletAddress := "wallet"; acm_delegatedSigner := "signer"; acm_settings := "settings";
    acm_vaultIndex := 1; acm_vaultPubkey := "vault"; acm_policyAccount := "sweep"; acm_recurringDelegation := "delegation" |};
  wm_accountingReserve := None; wm_executionReserve := None; wm_reserveWithdrawals := None; wm_stepIndex := Some 0; wm_stepCount := Some 1;
  wm_isFinalStep := Some true |}.

Lemma printed_checked s : (match BigInt_of_string s with Ok z => (0 <=? z) && String.eqb s (bigint_toString z) | Throw _ => false end) = true -> printed s.
Proof. destruct (BigInt_of_string s) as [z|]; [|done]. rewrite andb_true_iff, Z.leb_le, String.eqb_eq. intros [Hz Hs]. by exists z. Qed.

Lemma clean_checked s : bool_decide (trim (chars s) = chars s) && negb (String.eqb s EmptyString) = true -> clean s.
Proof. rewrite andb_true_iff, negb_true_iff, String.eqb_neq. intros [H%bool_decide_eq_true ?]. done. Qed.

Lemma demo_withdrawal_wf : withdraw_wf demoWithdrawal.
Proof.
  split; try (apply clean_checked; vm_compute; reflexivity); try (apply printed_checked; vm_compute; reflexivity); try (cbn; lia);
    try (intros s [=]; done); try (intros s [= <-]; (apply clean_checked || apply printed_checked); vm_compute; reflexivity);
    try (intros s [= <-]; lia).
  intros c [= <-]. repeat split; try done; apply clean_checked; vm_compute; reflexivity.
Qed.

Lemma withdrawal_confirmed_witness :
  (body ← buildEarnWithdrawalConfirmRequestBody demoWithdrawal "sig" "55" "account" None (Some "54"%string); parseEarnWithdrawalConfirmRequestBody body) =
  Ok (confirmedWithdrawal demoWithdrawal "ata" "sig" "55" "account" None (Some "54"%string)).
Proof.
  apply (withdrawal_confirmed demoWithdrawal "sig" "55" "account" None (Some "54"%string)); [apply demo_withdrawal_wf| | | | |].
  - apply clean_checked; vm_compute; reflexivity.
  - apply printed_checked; vm_compute; reflexivity.
  - apply clean_checked; vm_compute; reflexivity.
  - intros s [=].
  - intros s [= <-]. apply printed_checked; vm_compute; reflexivity.
Defined.
End ConfirmWitness.
