(* ===== verification/GeneratedValues.v ===== *)
(** Values of the generated program client, compared by text: [JSON.stringify] of a value in normal form
    (normalizeComparableGeneratedValue and generatedValuesEqual of web/packages/smart-account-vaults/src/client.ts, securityValue
    and integerString of program-interaction-policy-security.ts).

    Numbers are integers or not finite; no key of an object is an array index. [localeCompare] is an argument. *)
From stdpp Require Import sorting.
From S2P Require Import Prelude JsString JsMap Json Solana Bytes DepositQuote VoltrPlans FullExit.

(** ** JSON.stringify *)
(** What is printed of a value: undefined fields are left out, undefined elements and numbers that are not finite are null. *)
Fixpoint tidy (v : json) : json :=
  match v with
  | JUndefined => JNull
  | JNumber JOther => JNull
  | JArray l => JArray (map tidy l)
  | JObject fields =>
      JObject (flat_map (fun f => match f.2 with JUndefined => [] | _ => [(f.1, tidy f.2)] end) fields)
  | _ => v
  end.

Fixpoint separated (l : list (list ascii)) : list ascii :=
  match l with
  | [] => []
  | [x] => x
  | x :: l => x ++ [","%char] ++ separated l
  end.

Fixpoint print (v : json) : list ascii :=
  match v with
  | JUndefined | JNull | JNumber JOther => chars "null"
  | JBool b => chars (if b then "true" else "false")
  | JNumber (JInt z) => chars (bigint_toString z)
  | JString s => json_string s
  | JArray l => ["["%char] ++ separated (map print l) ++ ["]"%char]
  | JObject fields => ["{"%char] ++ separated (map (fun f => json_string f.1 ++ [":"%char] ++ print f.2) fields) ++ ["}"%char]
  end.

Definition stringify (v : json) : option (list ascii) := match v with JUndefined => None | _ => Some (print (tidy v)) end.

(** ** Generated values *)
Section Values.
Context {PK : PublicKeys}.

Inductive gvalue :=
| GNull
| GUndefined
| GBool (b : bool)
| GInt (z : Z)
| GNonFinite (text : string)
| GString (s : string)
| GBigint (z : Z)
| GBn (z : Z)
| GKey (k : pubkey)
| GBytes (bytes : list Z)
| GArray (l : list gvalue)
| GObject (fields : list (string * gvalue)).

Context (localeCompare : string -> string -> Z).

Definition byKey {A} (left right : string * A) : Z := localeCompare left.1 right.1.

(** The order of the entries depends on the keys only: the values are normalised first. *)
Fixpoint normalizeComparableGeneratedValue (v : gvalue) : json :=
  match v with
  | GKey k => JString (toBase58 k)
  | GBn z | GBigint z => JString (bigint_toString z)
  | GBytes bytes => JString (hex_text bytes)
  | GArray l => JArray (map normalizeComparableGeneratedValue l)
  | GObject fields => JObject (sortStable byKey (map (fun f => (f.1, normalizeComparableGeneratedValue f.2)) fields))
  | GNull => JNull
  | GUndefined => JUndefined
  | GBool b => JBool b
  | GInt z => JNumber (JInt z)
  | GNonFinite _ => JNumber JOther
  | GString s => JString s
  end.

Definition generatedValuesEqual (left right : gvalue) : bool :=
  bool_decide (stringify (normalizeComparableGeneratedValue left) = stringify (normalizeComparableGeneratedValue right)).

Definition integerString (v : gvalue) : result string :=
  match v with
  | GBn z | GBigint z | GInt z => Ok (bigint_toString z)
  | GNonFinite text => Ok text
  | _ => throwError "ProgramInteraction policy contains an invalid integer."
  end.

Definition securedEntry (entry : string * result json) : result (string * json) := v ← entry.2; Ok (entry.1, v).

(** Of several values that cannot be secured, the first in order of the keys is reported. *)
Fixpoint securityValue (v : gvalue) : result json :=
  match v with
  | GNull => Ok JNull
  | GBool b => Ok (JBool b)
  | GString s => Ok (JString s)
  | GInt z => Ok (JNumber (JInt z))
  | GNonFinite _ => throwError "ProgramInteraction policy contains a non-finite number."
  | GBigint z | GBn z => Ok (JString (bigint_toString z))
  | GKey k => Ok (JString (toBase58 k))
  | GBytes bytes => Ok (JString (hex_text bytes))
  | GArray l => secured ← mapR id (map securityValue l); Ok (JArray secured)
  | GObject fields =>
      entries ← mapR securedEntry (sortStable byKey (map (fun f => (f.1, securityValue f.2)) fields));
      Ok (JObject entries)
  | GUndefined => throwError "ProgramInteraction policy contains an unsupported value."
  end.
End Values.

(** ** Texts determine values *)
Section JsonInduction.
Context (P : json -> Prop).
Hypothesis Hundefined : P JUndefined.
Hypothesis Hnull : P JNull.
Hypothesis Hbool : forall b, P (JBool b).
Hypothesis Hnumber : forall n, P (JNumber n).
Hypothesis Hstring : forall s, P (JString s).
Hypothesis Harray : forall l, Forall P l -> P (JArray l).
Hypothesis Hobject : forall fields, Forall (fun f => P f.2) fields -> P (JObject fields).

Fixpoint json_nested_ind (v : json) : P v :=
  match v with
  | JUndefined => Hundefined
  | JNull => Hnull
  | JBool b => Hbool b
  | JNumber n => Hnumber n
  | JString s => Hstring s
  | JArray l => Harray l ((fix go l : Forall P l := match l with [] => Forall_nil_2 P | x :: l => Forall_cons_2 P x l (json_nested_ind x) (go l) end) l)
  | JObject fields =>
      Hobject fields ((fix go l : Forall (fun f : string * json => P f.2) l :=
        match l with [] => Forall_nil_2 _ | f :: l => Forall_cons_2 _ f l (json_nested_ind f.2) (go l) end) fields)
  end.
End JsonInduction.

(** Values without undefined and without numbers that are not finite *)
Fixpoint strict (v : json) : bool :=
  match v with
  | JUndefined | JNumber JOther => false
  | JArray l => forallb strict l
  | JObject fields => forallb (fun f => strict f.2) fields
  | _ => true
  end.

(** What may follow a value *)
Definition closes (r : list ascii) : Prop := match r with [] => True | c :: _ => c = ","%char \/ c = "]"%char \/ c = "}"%char end.

Lemma span_split (p : ascii -> bool) l : forall l' r r', forallb p l = true -> forallb p l' = true ->
  (forall c t, r = c :: t -> p c = false) -> (forall c t, r' = c :: t -> p c = false) -> l ++ r = l' ++ r' -> l = l' /\ r = r'.
Proof.
  induction l as [|a l IH]; intros [|a' l'] r r' Hl Hl' Hr Hr' H; cbn in *; [done| | |].
  - apply andb_true_iff in Hl' as [Ha' _]. rewrite (Hr a' (l' ++ r')) in Ha' by done. done.
  - apply andb_true_iff in Hl as [Ha _]. rewrite (Hr' a (l ++ r)) in Ha by done. done.
  - apply andb_true_iff in Hl as [_ Hl], Hl' as [_ Hl']. injection H as -> H. by destruct (IH l' r r' Hl Hl' Hr Hr' H) as [-> ->].
Qed.

Lemma numeral_head z : exists c t, chars (bigint_toString z) = c :: t /\ plain_char c = true.
Proof.
  pose proof (bigint_toString_plain z) as H. destruct (chars (bigint_toString z)) as [|c t] eqn:E.
  - pose proof (BigInt_toString_roundtrip z) as Hr. rewrite <- (unchars_chars (bigint_toString z)), E in Hr. pose proof (of_signed_toString z) as Hs. rewrite E in Hs. done.
  - cbn in H. apply andb_true_iff in H as [H _]. by exists c, t.
Qed.

Lemma closes_not_numeral r : closes r -> forall c t, r = c :: t -> plain_char c = false.
Proof. intros H c t ->. by destruct H as [->|[->| ->]]. Qed.

Lemma number_inj z z' r r' : closes r -> closes r' -> chars (bigint_toString z) ++ r = chars (bigint_toString z') ++ r' -> z = z' /\ r = r'.
Proof.
  intros Hr Hr' H. apply (span_split plain_char) in H as [H ->]; try apply bigint_toString_plain; try (by apply closes_not_numeral). split; [|done].
  pose proof (BigInt_toString_roundtrip z) as H1. pose proof (BigInt_toString_roundtrip z') as H2.
  rewrite <- (unchars_chars (bigint_toString z)), H, unchars_chars in H1. congruence.
Qed.

(** ** Lists of texts *)
Lemma separated_cons x l : separated (x :: l) = x ++ concat (map (cons ","%char) l).
Proof. revert x. induction l as [|y l IH]; intros x; [cbn; by rewrite app_nil_r|]. change (separated (x :: y :: l)) with (x ++ [","%char] ++ separated (y :: l)). by rewrite IH. Qed.

Section Separated.
Context {A : Type} (f : A -> list ascii) (Q : A -> Prop) (stop : ascii).
Hypothesis Hstop : stop = "]"%char \/ stop = "}"%char.
Hypothesis Hhead : forall x, Q x -> exists c t, f x = c :: t /\ c <> stop.

Definition reads (x : A) : Prop := forall y r r', Q y -> closes r -> closes r' -> f x ++ r = f y ++ r' -> x = y /\ r = r'.

Lemma closes_tail l r : closes (concat (map (cons ","%char) l) ++ stop :: r).
Proof. destruct l as [|x l]; cbn; [right; tauto|by left]. Qed.

Lemma tail_inj l : Forall reads l -> forall l' r r', Forall Q l' ->
  concat (map (cons ","%char) (map f l)) ++ stop :: r = concat (map (cons ","%char) (map f l')) ++ stop :: r' -> l = l' /\ r = r'.
Proof.
  induction 1 as [|x l Hx _ IH]; intros [|y l'] r r' HQ H; cbn [map concat] in H.
  - by injection H as ->.
  - injection H as H _. by destruct Hstop as [E|E]; rewrite E in H.
  - injection H as H _. by destruct Hstop as [E|E]; rewrite E in H.
  - apply Forall_cons in HQ as [Hy HQ]. injection H as H. rewrite <- !app_assoc in H. apply Hx in H as [-> H]; [|done|apply closes_tail..].
    by destruct (IH l' r r' HQ H) as [-> ->].
Qed.

Lemma separated_inj l : Forall reads l -> Forall Q l -> forall l' r r', Forall Q l' ->
  separated (map f l) ++ stop :: r = separated (map f l') ++ stop :: r' -> l = l' /\ r = r'.
Proof.
  intros Hl HQ l' r r' HQ' H. destruct l as [|x l], l' as [|y l']; cbn [map] in H; rewrite ?separated_cons, <- ?app_assoc in H.
  - cbn in H. by injection H as ->.
  - apply Forall_cons in HQ' as [Hy _]. destruct (Hhead y Hy) as (c & t & Ht & Hc). rewrite Ht in H. cbn in H. congruence.
  - apply Forall_cons in HQ as [Hx _]. destruct (Hhead x Hx) as (c & t & Ht & Hc). rewrite Ht in H. cbn in H. congruence.
  - apply Forall_cons in HQ' as [Hy HQ'], Hl as [Hx Hl]. apply Hx in H as [-> H]; [|done|apply closes_tail..].
    by destruct (tail_inj l Hl l' r r' HQ' H) as [-> ->].
Qed.
End Separated.

(** ** Printing *)
(** What a text starts with says what kind of value it is. *)
Definition kindOf (v : json) : Z :=
  match v with
  | JUndefined | JNull | JNumber JOther => 0
  | JBool true => 1
  | JBool false => 2
  | JNumber (JInt _) => 3
  | JString _ => 4
  | JArray _ => 5
  | JObject _ => 6
  end.
Definition kindOfChar (c : ascii) : Z :=
  if Ascii.eqb c "n" then 0 else if Ascii.eqb c "t" then 1 else if Ascii.eqb c "f" then 2
  else if Ascii.eqb c dquote then 4 else if Ascii.eqb c "[" then 5 else if Ascii.eqb c "{" then 6 else if plain_char c then 3 else 7.

Lemma plain_kind c : plain_char c = true -> kindOfChar c = 3.
Proof. destruct c as [[] [] [] [] [] [] [] []]; cbn; intros H; try discriminate H; reflexivity. Qed.

Lemma print_head v : exists c t, print v = c :: t /\ kindOfChar c = kindOf v.
Proof.
  destruct v as [| |[]|[z|]|s|l|fields]; cbn [print kindOf]; try (eexists _, _; split; [reflexivity|reflexivity]).
  destruct (numeral_head z) as (c & t & -> & Hc). exists c, t. split; [done|by apply plain_kind].
Qed.

Lemma print_kind v w r r' : print v ++ r = print w ++ r' -> kindOf v = kindOf w.
Proof.
  destruct (print_head v) as (c & t & -> & Hv), (print_head w) as (d & u & -> & Hw). intros [= -> _]. congruence.
Qed.

Lemma print_not_stop v stop : stop = "]"%char \/ stop = "}"%char -> exists c t, print v = c :: t /\ c <> stop.
Proof.
  intros Hs. destruct (print_head v) as (c & t & Hp & Hk). exists c, t. split; [done|]. intros ->.
  destruct v as [| |[]|[]| | |]; destruct Hs as [-> | ->]; discriminate Hk.
Qed.

Definition printField (f : string * json) : list ascii := json_string f.1 ++ [":"%char] ++ print f.2.

Lemma forallb_Forall_eq {A} (p : A -> bool) l : forallb p l = true <-> Forall (fun x => p x = true) l.
Proof. rewrite forallb_forall, Forall_forall. split; intros H x Hx; apply H; by apply list_elem_of_In. Qed.

Lemma print_reads v : strict v = true -> forall w r r', strict w = true -> closes r -> closes r' -> print v ++ r = print w ++ r' -> v = w /\ r = r'.
Proof.
  induction v as [| |b|n|s|l IH|fields IH] using json_nested_ind; intros Hv w r r' Hw Hr Hr' H; pose proof (print_kind _ _ _ _ H) as Hk;
    destruct w as [| |b'|n'|s'|l'|fields']; try (destruct b' as []); try (destruct n' as [z'|]); try (destruct b as []); try (destruct n as [z|]);
    try discriminate Hk; try discriminate Hv; try discriminate Hw; cbn [print] in H.
  - by apply app_inv_head in H.
  - by apply app_inv_head in H.
  - by apply app_inv_head in H.
  - by apply number_inj in H as [-> ->].
  - by apply json_string_inj in H as [-> ->].
  - cbn in Hv, Hw. apply forallb_Forall_eq in Hv, Hw. injection H as H. rewrite <- !app_assoc in H.
    destruct (separated_inj print (fun x => strict x = true) "]" ltac:(tauto) (fun x _ => print_not_stop x "]" ltac:(tauto)) l) with (l' := l') (r := r) (r' := r')
      as [-> ->]; try done.
    eapply Forall_impl; [exact (proj2 (Forall_and _ _) (conj IH Hv))|]. intros x [Hx Hs] y q q' Hy Hq Hq' E. by apply Hx.
  - cbn in Hv, Hw. apply forallb_Forall_eq in Hv, Hw. injection H as H. rewrite <- !app_assoc in H.
    destruct (separated_inj printField (fun x => strict x.2 = true) "}" ltac:(tauto)) with (l := fields) (l' := fields') (r := r) (r' := r')
      as [-> ->]; try done.
    + intros f _. eexists _, _. split; [reflexivity|done].
    + eapply Forall_impl; [exact (proj2 (Forall_and _ _) (conj IH Hv))|]. intros [k x] [Hx Hs] [k' y] q q' Hy Hq Hq' E. unfold printField in E. cbn [fst snd] in *.
      rewrite <- !app_assoc in E. apply json_string_inj in E as [-> E]. cbn [app] in E. injection E as E. by apply Hx in E as [-> ->].
Qed.

Lemma tidy_strict v : strict (tidy v) = true.
Proof.
  induction v as [| |b|n|s|l IH|fields IH] using json_nested_ind; cbn; try done; [by destruct n|apply forallb_Forall_eq|apply forallb_Forall_eq].
  - by apply Forall_map.
  - apply Forall_flat_map. eapply Forall_impl; [exact IH|]. intros [k x] Hx. cbn in *. destruct x; repeat constructor; exact Hx.
Qed.

(** A value that has a text is determined by it, up to what is not printed. *)
Definition shownAs (v : json) : option json := match v with JUndefined => None | _ => Some (tidy v) end.

Lemma stringify_shown v w : stringify v = stringify w <-> shownAs v = shownAs w.
Proof.
  assert (Hp : forall a b, print (tidy a) = print (tidy b) <-> tidy a = tidy b).
  { intros a b. split; [|by intros ->]. intros H. apply (f_equal (fun l => l ++ [])) in H.
    by apply print_reads in H as [-> _]; try apply tidy_strict. }
  assert (Hd : forall a, (stringify a = None /\ shownAs a = None) \/ (stringify a = Some (print (tidy a)) /\ shownAs a = Some (tidy a)))
    by (intros []; by (left + right)).
  destruct (Hd v) as [[-> ->]|[-> ->]], (Hd w) as [[-> ->]|[-> ->]]; try done. split; intros H; f_equal; apply Hp; by inversion H.
Qed.

Lemma tidy_id v : strict v = true -> tidy v = v.
Proof.
  induction v as [| |b|n|s|l IH|fields IH] using json_nested_ind; cbn; try done; [by destruct n| |].
  - intros H%forallb_Forall_eq. f_equal. induction l as [|x l IHl]; [done|]. apply Forall_cons in H as [? ?], IH as [Hx ?]. cbn. by rewrite Hx, IHl.
  - intros H%forallb_Forall_eq. f_equal. induction fields as [|[k x] l IHl]; [done|]. apply Forall_cons in H as [Hs ?], IH as [Hx ?]. cbn in *.
    rewrite IHl by done. destruct x; try discriminate Hs; by rewrite <- Hx at 2.
Qed.

Lemma stringify_strict v w : strict v = true -> strict w = true -> stringify v = stringify w -> v = w.
Proof.
  intros Hv Hw H%stringify_shown. enough (Hs : forall a, strict a = true -> shownAs a = Some a) by (rewrite !Hs in H by done; congruence).
  intros a Ha. rewrite <- (tidy_id a Ha) at 2. by destruct a.
Qed.

(** ** Sorted entries *)
Lemma insertStable_map {A C} (cmp : A -> A -> Z) (cmp' : C -> C -> Z) (g : A -> C) x l : (forall a b, cmp' (g a) (g b) = cmp a b) ->
  insertStable cmp' (g x) (map g l) = map g (insertStable cmp x l).
Proof. intros H. induction l as [|y l IH]; cbn; [done|]. rewrite H. case_match; cbn; [done|]. by rewrite IH. Qed.

Lemma sortStable_map {A C} (cmp : A -> A -> Z) (cmp' : C -> C -> Z) (g : A -> C) l : (forall a b, cmp' (g a) (g b) = cmp a b) ->
  sortStable cmp' (map g l) = map g (sortStable cmp l).
Proof.
  intros H. unfold sortStable. enough (E : forall acc, fold_left (fun s x => insertStable cmp' x s) (map g l) (map g acc) =
    map g (fold_left (fun s x => insertStable cmp x s) l acc)) by apply (E []).
  induction l as [|x l IH]; intros acc; cbn; [done|]. rewrite (insertStable_map cmp) by done. apply IH.
Qed.

(** Sorting by a comparator that orders its elements, perhaps with ties *)
Section SortedBy.
Context {A : Type} (cmp : A -> A -> Z).
Hypothesis Hasym : forall a b, cmp a b < 0 -> ~ cmp b a < 0.
Hypothesis Hbefore : forall a b c, cmp a b < 0 -> ~ cmp c b < 0 -> ~ cmp c a < 0.

Definition not_after (a b : A) : Prop := ~ cmp b a < 0.

Lemma insert_sorted x l : StronglySorted not_after l -> StronglySorted not_after (insertStable cmp x l).
Proof.
  induction 1 as [|y l Hl IH Hy]; cbn; [repeat constructor|]. destruct (Z.ltb_spec (cmp x y) 0) as [Hxy|Hxy].
  - constructor; [by constructor|]. constructor; [by apply Hasym|]. eapply Forall_impl; [exact Hy|]. intros z. by apply Hbefore.
  - constructor; [done|]. rewrite insertStable_perm. constructor; [unfold not_after; lia|done].
Qed.

Lemma sort_sorted l : StronglySorted not_after (sortStable cmp l).
Proof.
  unfold sortStable. assert (H : StronglySorted not_after []) by constructor. revert H. generalize (@nil A) as acc.
  induction l as [|x l IH]; intros acc H; cbn; [done|]. by apply IH, insert_sorted.
Qed.

Lemma sort_head l x : head (sortStable cmp l) = Some x -> x ∈ l /\ forall y, y ∈ l -> ~ cmp y x < 0.
Proof.
  pose proof (sort_sorted l) as Hs. pose proof (sortStable_perm cmp l) as Hp. destruct (sortStable cmp l) as [|z s]; [done|]. intros [= ->].
  apply StronglySorted_inv in Hs as [_ Hf]. rewrite Forall_forall in Hf. split; [rewrite <- Hp; set_solver|]. intros y. rewrite <- Hp.
  intros [->|Hy]%elem_of_cons; [intros H; by apply (Hasym x x)|by apply Hf].
Qed.
End SortedBy.

Lemma same_keys_perm {A} (l l' : list (string * A)) : map fst l = map fst l' -> NoDup (map fst l) -> l ≡ₚ l' -> l = l'.
Proof.
  revert l'. induction l as [|[k v] l IH]; intros [|[k' v'] l'] Hk Hn Hp; try discriminate Hk; [done|]. cbn in Hk. injection Hk as <- Hk.
  cbn in Hn. apply NoDup_cons in Hn as [Hnk Hn]. assert (v = v') as <-.
  { assert ((k, v) ∈ (k, v') :: l') as Hin by (rewrite <- Hp; apply elem_of_cons; by left). apply elem_of_cons in Hin as [[= ->]|Hin]; [done|].
    exfalso. apply Hnk. rewrite Hk. apply (list_elem_of_fmap_2 fst) in Hin. exact Hin. }
  f_equal. apply IH; [done..|]. by apply Permutation_cons_inv in Hp.
Qed.

Section Comparison.
Context {PK : PublicKeys} (localeCompare : string -> string -> Z).
Notation normalize := (normalizeComparableGeneratedValue localeCompare).
Notation secure := (securityValue localeCompare).

Lemma sorted_entries_inj {A} (l l' : list (string * A)) : map fst l = map fst l' -> NoDup (map fst l) ->
  sortStable (byKey localeCompare) l = sortStable (byKey localeCompare) l' -> l = l'.
Proof. intros Hk Hn H. apply same_keys_perm; [done..|]. by rewrite <- (sortStable_perm (byKey localeCompare) l), H, sortStable_perm. Qed.

(** Objects with the same keys are the same when their normal forms are. *)
Lemma normal_object fields fields' : map fst fields = map fst fields' -> NoDup (map fst fields) ->
  normalize (GObject fields) = normalize (GObject fields') -> map (fun f => normalize f.2) fields = map (fun f => normalize f.2) fields'.
Proof.
  intros Hk Hn [= H]. apply sorted_entries_inj in H; [|by rewrite !map_map|by rewrite map_map]. apply (f_equal (map snd)) in H. by rewrite !map_map in H.
Qed.

Section GvalueInduction.
Context (P : gvalue -> Prop).
Hypothesis Hleaf : forall v, match v with GArray _ | GObject _ => True | _ => P v end.
Hypothesis Harr : forall l, Forall P l -> P (GArray l).
Hypothesis Hobj : forall fields, Forall (fun f => P f.2) fields -> P (GObject fields).

Fixpoint gvalue_nested_ind (v : gvalue) : P v :=
  match v with
  | GArray l => Harr l ((fix go l : Forall P l := match l with [] => Forall_nil_2 P | x :: l => Forall_cons_2 P x l (gvalue_nested_ind x) (go l) end) l)
  | GObject fields =>
      Hobj fields ((fix go l : Forall (fun f : string * gvalue => P f.2) l :=
        match l with [] => Forall_nil_2 _ | f :: l => Forall_cons_2 _ f l (gvalue_nested_ind f.2) (go l) end) fields)
  | leaf => Hleaf leaf
  end.
End GvalueInduction.

Lemma mapR_map_ok {A C D} (f : C -> result D) (g : A -> C) (h : A -> D) l r : Forall (fun x => forall y, f (g x) = Ok y -> y = h x) l ->
  mapR f (map g l) = Ok r -> r = map h l.
Proof.
  intros H. revert r. induction H as [|x l Hx _ IH]; intros r E; cbn in E; [by injection E as <-|].
  apply bind_Ok in E as (y & Hy & E). apply bind_Ok in E as (ys & Hys & [= <-]). cbn. by rewrite (Hx y Hy), (IH ys Hys).
Qed.

(** The two normal forms agree, and the secured one has nothing that is not printed. *)
Lemma secured v s : secure v = Ok s -> s = normalize v /\ strict s = true.
Proof.
  revert s. apply (gvalue_nested_ind (fun v => forall s, secure v = Ok s -> s = normalize v /\ strict s = true)); clear v.
  - intros v. destruct v; try done; by intros r [= <-].
  - intros l IH s H. cbn in H. apply bind_Ok in H as (ls & Hl & [= <-]). assert (ls = map normalize l) as ->.
    { eapply (mapR_map_ok id secure normalize); [|exact Hl]. eapply Forall_impl; [exact IH|]. intros x Hx y Hy. by apply Hx. }
    split; [done|]. cbn. apply forallb_Forall_eq, Forall_map. revert Hl. generalize (map normalize l) as r.
    induction IH as [|x l Hx _ IHl]; intros r Hl; [done|]. cbn in Hl. apply bind_Ok in Hl as (y & Hy & Hl). apply bind_Ok in Hl as (ys & Hys & _).
    destruct (Hx y Hy) as [-> ?]. constructor; [done|]. by eapply IHl.
  - intros fields IH s H. cbn in H. apply bind_Ok in H as (es & He & [= <-]).
    rewrite (sortStable_map (byKey localeCompare)) in He by done. cbn [normalizeComparableGeneratedValue].
    rewrite (sortStable_map (byKey localeCompare)) by done.
    assert (HF : Forall (fun f => forall s, secure f.2 = Ok s -> s = normalize f.2 /\ strict s = true) (sortStable (byKey localeCompare) fields))
      by (by rewrite sortStable_perm).
    revert He. generalize (sortStable (byKey localeCompare) fields) as l, HF. clear. intros l HF He. revert es He.
    induction HF as [|[k x] l Hx _ IHl]; intros es He; cbn in He; [by injection He as <-|].
    apply bind_Ok in He as (e & He1 & He). apply bind_Ok in He as (rest & Hrest & [= <-]). unfold securedEntry in He1. apply bind_Ok in He1 as (y & Hy & [= <-]).
    destruct (Hx y Hy) as [-> Hst], (IHl rest Hrest) as [Hr Hs]. cbn in *. injection Hr as ->. split; [done|]. by rewrite Hst, Hs.
Qed.

(** Two values with a secured form print the same exactly when they have the same normal form. *)
Lemma secured_text v w s t : secure v = Ok s -> secure w = Ok t -> stringify s = stringify t <-> normalize v = normalize w.
Proof.
  intros Hv Hw. destruct (secured v s Hv) as [-> Hs], (secured w t Hw) as [-> Ht]. split; [by apply stringify_strict|by intros ->].
Qed.
End Comparison.

(** ** Sorting by a text *)
(** The comparator is a strict total order of these texts. *)
Definition orders (cmp : string -> string -> Z) (texts : list string) : Prop := forall a b c, a ∈ texts -> b ∈ texts -> c ∈ texts ->
  (cmp a b < 0 \/ a = b \/ cmp b a < 0) /\ (cmp a b < 0 -> ~ cmp b a < 0) /\ (cmp a b < 0 -> cmp b c < 0 -> cmp a c < 0).

Lemma orders_less cmp texts texts' : orders cmp texts -> texts' ⊆ texts -> orders cmp texts'.
Proof. intros H Hs a b c Ha Hb Hc. by apply H; apply Hs. Qed.

Section SortedText.
Context {A : Type} (key : A -> string) (cmp : string -> string -> Z) (texts : list string) (Hcmp : orders cmp texts).
Let before (a b : A) : Z := cmp (key a) (key b).
Let known (a : A) : Prop := key a ∈ texts.
Let keyed (k : string) (l : list A) : list A := filter (fun a => key a = k) l.

Lemma text_before a b c : known a -> known b -> known c -> before a b < 0 -> ~ before c b < 0 -> before a c < 0.
Proof.
  intros Ha Hb Hc Hab Hcb. unfold before in *. destruct (Hcmp (key c) (key b) (key a) Hc Hb Ha) as ([?|[E|Hbc]] & _ & _); [done|by rewrite E|].
  by apply (Hcmp (key a) (key b) (key c)).
Qed.

Lemma none_keyed k l : Forall (fun z => key z <> k) l -> keyed k l = [].
Proof. unfold keyed. induction 1 as [|z l Hz _ IH]; [done|]. by rewrite filter_cons, decide_False. Qed.

Lemma insert_text x l : known x -> Forall known l -> StronglySorted (fun a b => ~ before b a < 0) l ->
  StronglySorted (fun a b => ~ before b a < 0) (insertStable before x l) /\ forall k, keyed k (insertStable before x l) = keyed k l ++ keyed k [x].
Proof.
  intros Hx. induction l as [|y l IH]; intros Hl Hs; [split; [repeat constructor|done]|]. apply Forall_cons in Hl as [Hy Hl]. apply StronglySorted_inv in Hs as [Hs Hf].
  cbn [insertStable]. destruct (Z.ltb_spec (before x y) 0) as [Hxy|Hxy].
  - assert (Hafter : Forall (fun z => before x z < 0) (y :: l)).
    { constructor; [done|]. rewrite Forall_forall in Hf, Hl |- *. intros z Hz. apply (text_before x y z); [done|done|by apply Hl|done|by apply Hf]. }
    split.
    + constructor; [by constructor|]. rewrite Forall_forall in Hafter |- *. intros z Hz. assert (Hkz : known z) by (apply elem_of_cons in Hz as [->|Hz]; [done|]; rewrite Forall_forall in Hl; by apply Hl).
      destruct (Hcmp (key x) (key z) (key z) Hx Hkz Hkz) as (_ & H & _). by apply H, Hafter.
    + intros k. unfold keyed. rewrite (filter_cons _ x), (filter_cons _ x []). destruct (decide (key x = k)) as [Hk|]; [|by rewrite app_nil_r]. fold (keyed k (y :: l)).
      rewrite none_keyed; [done|]. eapply Forall_impl; [exact Hafter|]. intros z Hz E. unfold before in Hz. rewrite E, <- Hk in Hz.
      destruct (Hcmp (key x) (key x) (key x) Hx Hx Hx) as (_ & H & _). by apply (H Hz).
  - destruct (IH Hl Hs) as [IH1 IH2]. split.
    + constructor; [done|]. rewrite insertStable_perm. constructor; [lia|done].
    + intros k. unfold keyed in *. rewrite !filter_cons. rewrite IH2. by destruct (decide (key y = k)).
Qed.

Lemma sort_text l : Forall known l -> StronglySorted (fun a b => ~ before b a < 0) (sortStable before l) /\ forall k, keyed k (sortStable before l) = keyed k l.
Proof.
  unfold sortStable. intros Hl. enough (H : forall acc, Forall known acc -> StronglySorted (fun a b => ~ before b a < 0) acc ->
    StronglySorted (fun a b => ~ before b a < 0) (fold_left (fun s x => insertStable before x s) l acc) /\
    forall k, keyed k (fold_left (fun s x => insertStable before x s) l acc) = keyed k acc ++ keyed k l).
  { apply (H []); constructor. }
  induction Hl as [|x l Hx _ IH]; intros acc Ha Hs; cbn [fold_left]; [split; [done|]; intros k; by rewrite app_nil_r|].
  destruct (insert_text x acc Hx Ha Hs) as [H1 H2]. destruct (IH (insertStable before x acc)) as [H3 H4]; [rewrite insertStable_perm; by constructor|done|].
  split; [done|]. intros k. rewrite H4, H2, <- app_assoc. f_equal. unfold keyed. by rewrite <- (filter_app _ [x] l).
Qed.

Lemma sorted_same l : forall l', Forall known l -> Forall known l' -> StronglySorted (fun a b => ~ before b a < 0) l -> StronglySorted (fun a b => ~ before b a < 0) l' ->
  (forall k, keyed k l = keyed k l') -> l = l'.
Proof.
  assert (Hnil : forall x r, (forall k, @nil A = keyed k (x :: r)) -> False).
  { intros x r H. specialize (H (key x)). unfold keyed in H. rewrite filter_cons, decide_True in H by done. done. }
  induction l as [|x l IH]; intros [|y l'] Hl Hl' Hs Hs' H; [done|by exfalso; eapply Hnil| |].
  - exfalso. eapply Hnil. intros k. symmetry. apply H.
  - assert (Hxy : x ∈ y :: l' /\ y ∈ x :: l).
    { split; [assert (E := H (key x))|assert (E := H (key y))].
      - assert (Hin : x ∈ keyed (key x) (y :: l')) by (rewrite <- E; apply list_elem_of_filter; split; [done|]; by left). by apply list_elem_of_filter in Hin as [_ ?].
      - assert (Hin : y ∈ keyed (key y) (x :: l)) by (rewrite E; apply list_elem_of_filter; split; [done|]; by left). by apply list_elem_of_filter in Hin as [_ ?]. }
    destruct Hxy as [Hx Hy]. apply Forall_cons in Hl as [Kx Hl], Hl' as [Ky Hl']. apply StronglySorted_inv in Hs as [Hs Hf], Hs' as [Hs' Hf'].
    assert (Hk : key x = key y).
    { apply elem_of_cons in Hx as [->|Hx]; [done|]. apply elem_of_cons in Hy as [->|Hy]; [done|]. rewrite Forall_forall in Hf, Hf'.
      specialize (Hf y Hy). specialize (Hf' x Hx). unfold before in *. by destruct (Hcmp (key x) (key y) (key y) Kx Ky Ky) as ([?|[?|?]] & _). }
    assert (E := H (key x)). unfold keyed in E. rewrite !filter_cons, decide_True, decide_True in E by done. injection E as <- E. f_equal. apply IH; try done.
    intros k. specialize (H k). unfold keyed in *. rewrite !filter_cons in H. destruct (decide (key x = k)); [congruence|done].
Qed.

(** Two lists are sorted to the same one exactly when, for every text, they have the same elements with it in the same order. *)
Lemma sort_same l l' : Forall known l -> Forall known l' -> sortStable before l = sortStable before l' <-> forall k, keyed k l = keyed k l'.
Proof.
  intros Hl Hl'. destruct (sort_text l Hl) as [S1 K1], (sort_text l' Hl') as [S2 K2]. split.
  - intros E k. by rewrite <- K1, E, K2.
  - intros E. apply sorted_same; [by rewrite sortStable_perm|by rewrite sortStable_perm|done|done|]. intros k. by rewrite K1, K2.
Qed.

Lemma keyed_short l k : NoDup (map key l) -> keyed k l = [] \/ exists x, keyed k l = [x].
Proof.
  induction l as [|x l IH]; intros H; [by left|]. cbn in H. apply NoDup_cons in H as [Hx H]. unfold keyed in *. rewrite filter_cons. destruct (decide (key x = k)) as [<-|]; [|by apply IH].
  right. exists x. f_equal. apply none_keyed, Forall_forall. intros y Hy E. apply Hx. rewrite <- E. by apply (list_elem_of_fmap_2 key).
Qed.

(** With one element for each text, in any order *)
Lemma sort_perm l l' : Forall known l -> NoDup (map key l) -> l ≡ₚ l' -> sortStable before l = sortStable before l'.
Proof.
  intros Hl Hn Hp. apply sort_same; [done|by rewrite <- Hp|]. intros k. assert (E : keyed k l ≡ₚ keyed k l') by (unfold keyed; by rewrite Hp).
  destruct (keyed_short l k Hn) as [Hk|[x Hk]]; rewrite Hk in *; [by apply Permutation_nil_l in E|symmetry in E; by apply Permutation_singleton_r in E].
Qed.
End SortedText.

(** ** Agreement of values

    Stated without the normal form: texts, keys, bytes and big integers agree when they read the same, numbers and flags when they are equal, arrays element by element, and
    objects when they have the same keys, in any order, with values that agree. *)
Section Agreement.
Context {PK : PublicKeys}.

Definition readAs (v : gvalue) : option string :=
  match v with GString s => Some s | GKey k => Some (toBase58 k) | GBytes bytes => Some (hex_text bytes) | GBigint z | GBn z => Some (bigint_toString z) | _ => None end.

Inductive agree : gvalue -> gvalue -> Prop :=
| agree_text v w t : readAs v = Some t -> readAs w = Some t -> agree v w
| agree_null : agree GNull GNull
| agree_bool b : agree (GBool b) (GBool b)
| agree_number z : agree (GInt z) (GInt z)
| agree_array l l' : Forall2 agree l l' -> agree (GArray l) (GArray l')
| agree_object fields fields' : length fields = length fields' -> Forall (fun f => exists w, (f.1, w) ∈ fields' /\ agree f.2 w) fields -> agree (GObject fields) (GObject fields').

(** Values as JavaScript has them: objects with distinct keys; here without undefined and numbers that are not finite *)
Inductive js_value : gvalue -> Prop :=
| js_text v t : readAs v = Some t -> js_value v
| js_null : js_value GNull
| js_bool b : js_value (GBool b)
| js_number z : js_value (GInt z)
| js_array l : Forall js_value l -> js_value (GArray l)
| js_object fields : NoDup (map fst fields) -> Forall (fun f => js_value f.2) fields -> js_value (GObject fields).

Fixpoint object_keys (v : gvalue) : list string :=
  match v with
  | GArray l => concat (map object_keys l)
  | GObject fields => map fst fields ++ concat (map (fun f => object_keys f.2) fields)
  | _ => []
  end.

Context (localeCompare : string -> string -> Z).
Notation normalize := (normalizeComparableGeneratedValue localeCompare).

Lemma normal_text v t : normalize v = JString t <-> readAs v = Some t.
Proof. destruct v; cbn; split; congruence. Qed.

Lemma keys_in x (l : list gvalue) : x ∈ l -> object_keys x ⊆ concat (map object_keys l).
Proof. intros Hx k Hk. apply list_elem_of_In, in_concat. exists (object_keys x). split; [by apply in_map, list_elem_of_In|by apply list_elem_of_In]. Qed.

Lemma keys_in_field f (fields : list (string * gvalue)) : f ∈ fields -> object_keys f.2 ⊆ object_keys (GObject fields).
Proof.
  intros Hf k Hk. cbn. apply elem_of_app. right. apply list_elem_of_In, in_concat. exists (object_keys f.2).
  split; [by apply (in_map (fun f : string * gvalue => object_keys f.2)), list_elem_of_In|by apply list_elem_of_In].
Qed.

Definition agrees_normal (v : gvalue) : Prop := forall w, js_value v -> js_value w -> orders localeCompare (object_keys v ++ object_keys w) -> normalize v = normalize w <-> agree v w.

Lemma arrays_normal l : Forall agrees_normal l -> forall l', Forall js_value l -> Forall js_value l' -> orders localeCompare (concat (map object_keys l) ++ concat (map object_keys l')) ->
  map normalize l = map normalize l' <-> Forall2 agree l l'.
Proof.
  induction 1 as [|x l Hx _ IH]; intros [|y l'] Hl Hl' Ho; cbn [map concat] in *.
  - split; [intros _; constructor|done].
  - split; [done|intros H; inversion H].
  - split; [done|intros H; inversion H].
  - apply Forall_cons in Hl as [Jx Hl], Hl' as [Jy Hl']. assert (Hxy := Hx y Jx Jy ltac:(eapply orders_less; [exact Ho|set_solver])).
    assert (Hr := IH l' Hl Hl' ltac:(eapply orders_less; [exact Ho|set_solver])). split.
    + intros H. pose proof (f_equal (fun l => head l) H) as H1. pose proof (f_equal tail H) as H2. cbn in H1, H2. constructor; [apply Hxy; congruence|by apply Hr].
    + intros H. inversion H; subst. f_equal; [by apply Hxy|by apply Hr].
Qed.

Lemma entries_perm {A} (l l' : list (string * A)) : NoDup (map fst l) -> length l = length l' -> l ⊆ l' -> l ≡ₚ l'.
Proof.
  intros Hn Hl Hs. apply NoDup_Permutation_bis; [apply NoDup_ListNoDup; by apply NoDup_fmap_1 in Hn|lia|]. intros x Hx. apply list_elem_of_In, Hs. by apply list_elem_of_In.
Qed.

Lemma objects_normal fields fields' : Forall (fun f => agrees_normal f.2) fields -> js_value (GObject fields) -> js_value (GObject fields') ->
  orders localeCompare (object_keys (GObject fields) ++ object_keys (GObject fields')) -> normalize (GObject fields) = normalize (GObject fields') <-> agree (GObject fields) (GObject fields').
Proof.
  intros IH Jv Jw Ho. set (n := fun f : string * gvalue => (f.1, normalize f.2)).
  assert (Hsub : forall f g, f ∈ fields -> g ∈ fields' -> normalize f.2 = normalize g.2 <-> agree f.2 g.2).
  { inversion Jv as [? ? E| | | | |? _ Jf]; [discriminate E|]; subst. inversion Jw as [? ? E| | | | |? _ Jf']; [discriminate E|]; subst. rewrite Forall_forall in IH, Jf, Jf'.
    intros f g Hf Hg. apply (IH f Hf g.2 (Jf f Hf) (Jf' g Hg)). eapply orders_less; [exact Ho|]. pose proof (keys_in_field f fields Hf). pose proof (keys_in_field g fields' Hg). set_solver. }
  inversion Jv as [? ? E| | | | |? Hn _]; [discriminate E|]; subst. assert (Hkeys : map fst (map n fields) = map fst fields) by (by rewrite map_map).
  change (normalize (GObject fields)) with (JObject (sortStable (byKey localeCompare) (map n fields))).
  change (normalize (GObject fields')) with (JObject (sortStable (byKey localeCompare) (map n fields'))). split.
  - intros [= H]. assert (Hp : map n fields ≡ₚ map n fields') by (by rewrite <- (sortStable_perm (byKey localeCompare) (map n fields)), H, sortStable_perm).
    constructor; [apply Permutation_length in Hp; by rewrite !length_map in Hp|]. apply Forall_forall. intros f Hf.
    assert (Hin : n f ∈ map n fields') by (rewrite <- Hp; by apply (list_elem_of_fmap_2 n)). apply list_elem_of_fmap in Hin as (g & E & Hg).
    unfold n in E. injection E as Ek Ev. exists g.2. split; [rewrite Ek; by destruct g|]. by apply Hsub.
  - intros H. inversion H as [? ? ? E| | | | |? ? Hl Hf]; [discriminate E|]; subst. f_equal.
    apply (sort_perm fst localeCompare (object_keys (GObject fields) ++ object_keys (GObject fields')) Ho).
    + apply Forall_forall. intros e He. apply elem_of_app. left. cbn. apply elem_of_app. left. rewrite <- Hkeys. by apply (list_elem_of_fmap_2 fst).
    + by rewrite Hkeys.
    + apply entries_perm; [by rewrite Hkeys|by rewrite !length_map|]. intros e (f & -> & He)%list_elem_of_fmap. rewrite Forall_forall in Hf. destruct (Hf f He) as (w & Hw & Ha).
      apply list_elem_of_fmap. exists (f.1, w). split; [|done]. unfold n. cbn. f_equal. by apply (Hsub f (f.1, w)).
Qed.

(** Values agree exactly when their normal forms are equal. *)
Lemma normal_agree v : agrees_normal v.
Proof.
  apply (gvalue_nested_ind agrees_normal); clear v.
  - intros v. destruct v; try exact I; intros w Jv Jw _; (split; [|intros H; inversion H; subst; try done; cbn [readAs] in *; repeat match goal with
      | E : Some _ = Some _ |- _ => injection E as <- | E : readAs ?v = Some _ |- _ => apply normal_text in E end; try done; congruence]); intros H; symmetry in H; cbn in H;
      try (apply normal_text in H; by eapply agree_text); (destruct w; cbn in H; try discriminate H; try (inversion Jv; subst; discriminate); try (injection H as <-); constructor).
  - intros l IH w Jv Jw Ho. destruct w as [| | | | | | | | | |l'|]; try (split; intros H; [discriminate H|inversion H; subst; discriminate]).
    inversion Jv as [? ? E| | | |? Jl|]; [discriminate E|]; subst. inversion Jw as [? ? E| | | |? Jl'|]; [discriminate E|]; subst. cbn in Ho.
    pose proof (arrays_normal l IH l' Jl Jl' Ho) as Hl. cbn. split; [intros [= H]; constructor; by apply Hl|]. intros H. inversion H as [? ? ? E| | | |? ? HF|]; [discriminate E|]; subst.
    f_equal. by apply Hl.
  - intros fields IH w Jv Jw Ho. destruct w as [| | | | | | | | | | |fields']; try (split; intros H; [discriminate H|inversion H; subst; discriminate]). by apply objects_normal.
Qed.
End Agreement.
