(* ===== verification/PolicySecurity.v ===== *)
(** What matters of a program-interaction policy for its security
    (web/packages/smart-account-vaults/src/program-interaction-policy-security.ts): two policies are equal when the texts of their projections are.

    A policy is a creation payload or a state read from the chain; [localeCompare] is an argument. *)
From Stdlib Require OrderedTypeEx.
From stdpp Require Import sorting.
From S2P Require Import Prelude JsString JsMap Json Solana Bytes DepositQuote VoltrPlans FullExit GeneratedValues.

(** The value of an integer, however it is represented *)
Definition integerValue {PK : PublicKeys} (v : gvalue) : option Z := match v with GBn z | GBigint z | GInt z => Some z | _ => None end.

Section PolicySecurity.
Context {PK : PublicKeys} (localeCompare : string -> string -> Z).
Notation secure := (securityValue localeCompare).
Notation normalize := (normalizeComparableGeneratedValue localeCompare).

(** A spending limit; [GUndefined] is a missing [maxPerUse]. *)
Record PolicyLimit := {
  li_accumulateUnused : option bool;
  li_enforceExactQuantity : option bool;
  li_expiration : gvalue;
  li_maxPerPeriod : gvalue;
  li_maxPerUse : gvalue;
  li_mint : pubkey;
  li_period : gvalue;
}.

Record Interaction := {
  ia_accountIndex : Z;
  ia_instructionsConstraints : gvalue;
  ia_postHook : gvalue;
  ia_preHook : gvalue;
  ia_spendingLimits : list PolicyLimit;
}.

(** The fields are read only when the kind is "ProgramInteraction". *)
Record ProgramInteractionPolicyInput := { pi_kind : string; pi_fields : list Interaction }.

Record ProgramInteractionSpendingLimitSecurity := {
  ls_accumulateUnused : bool;
  ls_enforceExactQuantity : bool;
  ls_expiration : option string;
  ls_maxPerPeriod : string;
  ls_maxPerUse : string;
  ls_mint : string;
  ls_period : json;
}.

Record ProgramInteractionPolicySecurity := {
  ps_accountIndex : Z;
  ps_instructionsConstraints : json;
  ps_postHook : json;
  ps_preHook : json;
  ps_spendingLimits : list ProgramInteractionSpendingLimitSecurity;
}.

Definition expirationText (v : gvalue) : result (option string) := match v with GNull => Ok None | v => text ← integerString v; Ok (Some text) end.

Definition limitSecurity (limit : PolicyLimit) : result ProgramInteractionSpendingLimitSecurity :=
  expiration ← expirationText (li_expiration limit);
  maxPerPeriod ← integerString (li_maxPerPeriod limit);
  maxPerUse ← match li_maxPerUse limit with GUndefined => Ok "0"%string | v => integerString v end;
  period ← secure (li_period limit);
  Ok {| ls_accumulateUnused := default false (li_accumulateUnused limit); ls_enforceExactQuantity := default false (li_enforceExactQuantity limit);
        ls_expiration := expiration; ls_maxPerPeriod := maxPerPeriod; ls_maxPerUse := maxPerUse; ls_mint := toBase58 (li_mint limit); ls_period := period |}.

Definition byMint (left right : ProgramInteractionSpendingLimitSecurity) : Z := localeCompare (ls_mint left) (ls_mint right).

Definition projectProgramInteractionPolicySecurity (policy : ProgramInteractionPolicyInput) : result ProgramInteractionPolicySecurity :=
  match String.eqb (pi_kind policy) "ProgramInteraction", pi_fields policy with
  | true, [interaction] =>
      limits ← mapR limitSecurity (ia_spendingLimits interaction);
      let spendingLimits := sortStable byMint limits in
      instructionsConstraints ← secure (ia_instructionsConstraints interaction);
      postHook ← secure (ia_postHook interaction);
      preHook ← secure (ia_preHook interaction);
      Ok {| ps_accountIndex := ia_accountIndex interaction; ps_instructionsConstraints := instructionsConstraints; ps_postHook := postHook;
            ps_preHook := preHook; ps_spendingLimits := spendingLimits |}
  | _, _ => throwError "Expected one ProgramInteraction policy payload."
  end.

(** The projection as an object, in the order of its literal *)
Definition nullable (text : option string) : json := match text with Some t => JString t | None => JNull end.
Definition limitObject (l : ProgramInteractionSpendingLimitSecurity) : json := JObject [
  ("accumulateUnused", JBool (ls_accumulateUnused l)); ("enforceExactQuantity", JBool (ls_enforceExactQuantity l)); ("expiration", nullable (ls_expiration l));
  ("maxPerPeriod", JString (ls_maxPerPeriod l)); ("maxPerUse", JString (ls_maxPerUse l)); ("mint", JString (ls_mint l)); ("period", ls_period l) ]%string.
Definition securityObject (p : ProgramInteractionPolicySecurity) : json := JObject [
  ("accountIndex", JNumber (JInt (ps_accountIndex p))); ("instructionsConstraints", ps_instructionsConstraints p); ("postHook", ps_postHook p);
  ("preHook", ps_preHook p); ("spendingLimits", JArray (map limitObject (ps_spendingLimits p))) ]%string.

Definition programInteractionPolicySecurityEquals (left right : ProgramInteractionPolicyInput) : result bool :=
  l ← projectProgramInteractionPolicySecurity left;
  r ← projectProgramInteractionPolicySecurity right;
  Ok (bool_decide (stringify (securityObject l) = stringify (securityObject r))).

(** ** Projections *)
Definition limit_strict (l : ProgramInteractionSpendingLimitSecurity) : Prop := strict (ls_period l) = true.
Record security_strict (p : ProgramInteractionPolicySecurity) : Prop := {
  st_constraints : strict (ps_instructionsConstraints p) = true;
  st_post : strict (ps_postHook p) = true;
  st_pre : strict (ps_preHook p) = true;
  st_limits : Forall limit_strict (ps_spendingLimits p);
}.

Lemma limitObject_inj a b : limitObject a = limitObject b -> a = b.
Proof.
  destruct a as [? ? e1 ? ? ? ?], b as [? ? e2 ? ? ? ?]. intros [= -> -> He -> -> -> ->]. f_equal. destruct e1, e2; cbn in He; congruence.
Qed.

Lemma securityObject_inj p q : securityObject p = securityObject q -> p = q.
Proof.
  destruct p as [? ? ? ? ls], q as [? ? ? ? ls']. intros [= -> -> -> -> H]. f_equal.
  revert ls' H. induction ls as [|l ls IH]; intros [|l' ls'] H; try discriminate H; [done|]. cbn [map] in H.
  pose proof (f_equal (default JNull ∘ head) H) as Hl. pose proof (f_equal tail H) as Hs. cbn [compose head default tail id] in Hl, Hs.
  by rewrite (limitObject_inj _ _ Hl), (IH ls' Hs).
Qed.

Lemma securityObject_strict p : security_strict p -> strict (securityObject p) = true.
Proof.
  intros [H1 H2 H3 H4]. cbn [securityObject strict forallb snd]. rewrite H1, H2, H3. cbn [andb]. rewrite andb_true_r. apply forallb_Forall_eq, Forall_map.
  eapply Forall_impl; [exact H4|]. intros l Hl. unfold limitObject. cbn. rewrite Hl. by destruct (ls_expiration l).
Qed.

Lemma limit_secured limit l : limitSecurity limit = Ok l -> limit_strict l.
Proof.
  unfold limitSecurity. intros H. apply bind_Ok in H as (? & _ & H). apply bind_Ok in H as (? & _ & H). apply bind_Ok in H as (? & _ & H).
  apply bind_Ok in H as (period & Hp & [= <-]). by apply secured in Hp as [_ ?].
Qed.

Lemma limits_secured limits ls : mapR limitSecurity limits = Ok ls -> Forall limit_strict ls.
Proof.
  revert ls. induction limits as [|limit limits IH]; intros ls H; cbn in H; [by injection H as <-|].
  apply bind_Ok in H as (l & Hl & H). apply bind_Ok in H as (ls' & Hls & [= <-]). constructor; [by eapply limit_secured|by apply IH].
Qed.

(** A projection says exactly this of a policy: its one interaction with the account index, the normal forms of constraints and hooks,
    and the limits by mint. *)
Record projected (policy : ProgramInteractionPolicyInput) (p : ProgramInteractionPolicySecurity) (i : Interaction)
    (ls : list ProgramInteractionSpendingLimitSecurity) : Prop := {
  pj_policy : pi_kind policy = "ProgramInteraction"%string /\ pi_fields policy = [i];
  pj_index : ps_accountIndex p = ia_accountIndex i;
  pj_constraints : ps_instructionsConstraints p = normalize (ia_instructionsConstraints i);
  pj_post : ps_postHook p = normalize (ia_postHook i);
  pj_pre : ps_preHook p = normalize (ia_preHook i);
  pj_limits : mapR limitSecurity (ia_spendingLimits i) = Ok ls /\ ps_spendingLimits p = sortStable byMint ls;
}.

Lemma project_ok policy p : projectProgramInteractionPolicySecurity policy = Ok p -> security_strict p /\ exists i ls, projected policy p i ls.
Proof.
  unfold projectProgramInteractionPolicySecurity. destruct (String.eqb_spec (pi_kind policy) "ProgramInteraction") as [Hk|]; [|done].
  destruct (pi_fields policy) as [|i []] eqn:Ef; try done. intros H. apply bind_Ok in H as (ls & Hls & H). cbv zeta in H.
  apply bind_Ok in H as (c & Hc & H). apply bind_Ok in H as (post & Hpo & H). apply bind_Ok in H as (pre & Hpr & [= <-]).
  apply secured in Hc as [-> Hc], Hpo as [-> Hpo], Hpr as [-> Hpr]. split.
  - constructor; try done. cbn. rewrite sortStable_perm. by eapply limits_secured.
  - by exists i, ls.
Qed.

(** ** What the comparison is for

    Agreement of limits and policies is stated field by field, without the projection. *)
Inductive same_integer : gvalue -> gvalue -> Prop :=
| same_int v w z : integerValue v = Some z -> integerValue w = Some z -> same_integer v w
| same_nonfinite t : same_integer (GNonFinite t) (GNonFinite t).

Definition or_zero (v : gvalue) : gvalue := match v with GUndefined => GInt 0 | v => v end.

Record limit_agree (a b : PolicyLimit) : Prop := {
  ag_mint : li_mint a = li_mint b;
  ag_accumulate : li_accumulateUnused a = Some true <-> li_accumulateUnused b = Some true;
  ag_exact : li_enforceExactQuantity a = Some true <-> li_enforceExactQuantity b = Some true;
  ag_expiration : (li_expiration a = GNull /\ li_expiration b = GNull) \/ same_integer (li_expiration a) (li_expiration b);
  ag_maxPerPeriod : same_integer (li_maxPerPeriod a) (li_maxPerPeriod b);
  ag_maxPerUse : same_integer (or_zero (li_maxPerUse a)) (or_zero (li_maxPerUse b));
  ag_period : agree (li_period a) (li_period b);
}.

(** The limits of a mint, in their order *)
Definition limitsOf (mint : pubkey) (i : Interaction) : list PolicyLimit := filter (fun limit => li_mint limit = mint) (ia_spendingLimits i).

Record interaction_agree (i j : Interaction) : Prop := {
  ag_index : ia_accountIndex i = ia_accountIndex j;
  ag_constraints : agree (ia_instructionsConstraints i) (ia_instructionsConstraints j);
  ag_post : agree (ia_postHook i) (ia_postHook j);
  ag_pre : agree (ia_preHook i) (ia_preHook j);
  ag_limits mint : Forall2 limit_agree (limitsOf mint i) (limitsOf mint j);
}.

(** Values as JavaScript has them, and a comparator that orders the texts that occur: the mints and the keys of objects *)
Definition valuesOf (i : Interaction) : list gvalue := [ia_instructionsConstraints i; ia_postHook i; ia_preHook i] ++ map li_period (ia_spendingLimits i).
Definition integersOf (limit : PolicyLimit) : list gvalue := [li_expiration limit; li_maxPerPeriod limit; li_maxPerUse limit].
Definition number_text (v : gvalue) : Prop := match v with GNonFinite t => t ∈ ["NaN"; "Infinity"; "-Infinity"]%string | _ => True end.
Definition textsOf (i : Interaction) : list string := map (fun limit => toBase58 (li_mint limit)) (ia_spendingLimits i) ++ concat (map object_keys (valuesOf i)).
Record js_interaction (i : Interaction) : Prop := {
  ji_values : Forall js_value (valuesOf i);
  ji_numbers : Forall (fun limit => Forall number_text (integersOf limit)) (ia_spendingLimits i);
}.

Lemma integers_same v w s t : number_text v -> number_text w -> integerString v = Ok s -> integerString w = Ok t -> s = t <-> same_integer v w.
Proof.
  assert (Hnum : forall text z, text ∈ ["NaN"; "Infinity"; "-Infinity"]%string -> bigint_toString z <> text).
  { intros text z Ht E. pose proof (bigint_toString_plain z) as Hp. rewrite E in Hp. rewrite !elem_of_cons, elem_of_nil in Ht. by destruct Ht as [->|[->|[->|[]]]]. }
  assert (Hinj : forall z z', bigint_toString z = bigint_toString z' -> z = z').
  { intros z z' E. pose proof (BigInt_toString_roundtrip z) as H. rewrite E, BigInt_toString_roundtrip in H. congruence. }
  intros Hv Hw Hs Ht. destruct v as [| | |z|x| |z|z| | | |]; try discriminate Hs; injection Hs as <-; destruct w as [| | |z'|y| |z'|z'| | | |]; try discriminate Ht; injection Ht as <-; cbn in Hv, Hw;
    (split; [intros E|intros H; inversion H; subst; cbn in *; congruence]);
    first [ by apply Hinj in E as ->; econstructor | by exfalso; eapply Hnum; [|exact E] | by symmetry in E; exfalso; eapply Hnum; [|exact E] | by subst; constructor ].
Qed.

Lemma expiration_cases v e : expirationText v = Ok e -> (v = GNull /\ e = None) \/ (v <> GNull /\ exists s, e = Some s /\ integerString v = Ok s).
Proof. destruct v; try (by intros [= <-]; left); intros H; right; (split; [done|]); apply bind_Ok in H as (s & Hs & [= <-]); by exists s. Qed.

Lemma expirations_same v w e e' : number_text v -> number_text w -> expirationText v = Ok e -> expirationText w = Ok e' ->
  e = e' <-> (v = GNull /\ w = GNull) \/ same_integer v w.
Proof.
  intros Hv Hw He He'. assert (Hnull : forall x, ~ same_integer GNull x /\ ~ same_integer x GNull) by (intros x; split; intros H; inversion H; discriminate).
  apply expiration_cases in He as [[-> ->]|(Nv & s & -> & Hs)], He' as [[-> ->]|(Nw & t & -> & Ht)].
  - split; [by left|done].
  - split; [done|]. intros [[_ ?]|H]; [done|]. by apply Hnull in H.
  - split; [done|]. intros [[? _]|H]; [done|]. by apply Hnull in H.
  - rewrite <- (integers_same _ _ s t Hv Hw Hs Ht). split; [intros [= ->]; by right|]. by intros [[? _]| ->].
Qed.

Context {Laws : PublicKeyLaws PK}.

Lemma limits_same a b x y : Forall number_text (integersOf a) -> Forall number_text (integersOf b) -> js_value (li_period a) -> js_value (li_period b) ->
  orders localeCompare (object_keys (li_period a) ++ object_keys (li_period b)) -> limitSecurity a = Ok x -> limitSecurity b = Ok y -> x = y <-> limit_agree a b.
Proof.
  unfold integersOf. rewrite !Forall_cons. intros (Ea & Pa & Ua & _) (Eb & Pb & Ub & _) Ja Jb Ho Hx Hy. unfold limitSecurity in Hx, Hy.
  apply bind_Ok in Hx as (e & He & Hx). apply bind_Ok in Hx as (p & Hp & Hx). apply bind_Ok in Hx as (u & Hu & Hx). apply bind_Ok in Hx as (q & Hq & [= <-]).
  apply bind_Ok in Hy as (e' & He' & Hy). apply bind_Ok in Hy as (p' & Hp' & Hy). apply bind_Ok in Hy as (u' & Hu' & Hy). apply bind_Ok in Hy as (q' & Hq' & [= <-]).
  apply secured in Hq as [-> _], Hq' as [-> _].
  assert (Hu1 : integerString (or_zero (li_maxPerUse a)) = Ok u) by (destruct (li_maxPerUse a); done).
  assert (Hu2 : integerString (or_zero (li_maxPerUse b)) = Ok u') by (destruct (li_maxPerUse b); done).
  pose proof (expirations_same (li_expiration a) (li_expiration b) e e' Ea Eb He He') as Hexp.
  pose proof (integers_same _ _ p p' Pa Pb Hp Hp') as Hper. assert (Hz : forall v, number_text v -> number_text (or_zero v)) by (by intros []).
  pose proof (integers_same _ _ u u' (Hz _ Ua) (Hz _ Ub) Hu1 Hu2) as Huse. pose proof (normal_agree localeCompare (li_period a) (li_period b) Ja Jb Ho) as Hq.
  assert (Hflag : forall f g : option bool, default false f = default false g <-> (f = Some true <-> g = Some true)).
  { intros [[]|] [[]|]; cbn; split; intros H; try done; try (by destruct H as [H1 H2]; first [by specialize (H1 eq_refl) | by specialize (H2 eq_refl)]); by split. }
  split.
  - intros [= H1 H2 H3 H4 H5 H6 H7]. constructor; [by apply toBase58_inj|by apply Hflag|by apply Hflag|by apply Hexp|by apply Hper|by apply Huse|by apply Hq].
  - intros [A1 A2 A3 A4 A5 A6 A7]. apply Hflag in A2, A3. apply Hexp in A4. apply Hper in A5. apply Huse in A6. apply Hq in A7. by rewrite A1, A2, A3, A4, A5, A6, A7.
Qed.

Lemma secured_mint limit x : limitSecurity limit = Ok x -> ls_mint x = toBase58 (li_mint limit).
Proof.
  unfold limitSecurity. intros H. apply bind_Ok in H as (? & _ & H). apply bind_Ok in H as (? & _ & H). apply bind_Ok in H as (? & _ & H).
  by apply bind_Ok in H as (? & _ & [= <-]).
Qed.

(** The projections of the limits of a mint *)
Lemma secured_of mint limits ls : Forall2 (fun limit x => limitSecurity limit = Ok x) limits ls ->
  Forall2 (fun limit x => limitSecurity limit = Ok x) (filter (fun limit => li_mint limit = mint) limits) (filter (fun x => ls_mint x = toBase58 mint) ls).
Proof.
  induction 1 as [|limit x limits ls Hx _ IH]; [constructor|]. rewrite !filter_cons, (secured_mint _ _ Hx). destruct (decide (li_mint limit = mint)) as [<-|Hn].
  - rewrite decide_True by done. by constructor.
  - rewrite decide_False; [done|]. intros E. by apply toBase58_inj in E.
Qed.

Lemma results_same {A C} (f : A -> result C) (R : A -> A -> Prop) l r : Forall2 (fun a x => f a = Ok x) l r -> forall l' r', Forall2 (fun a x => f a = Ok x) l' r' ->
  (forall a b x y, a ∈ l -> b ∈ l' -> f a = Ok x -> f b = Ok y -> x = y <-> R a b) -> r = r' <-> Forall2 R l l'.
Proof.
  induction 1 as [|a x l r Ha _ IH]; intros l' r' H' HR; destruct H' as [|b y l' r' Hb Hr].
  - split; [intros _; constructor|done].
  - split; [done|intros E; inversion E].
  - split; [done|intros E; inversion E].
  - assert (Hab : x = y <-> R a b) by (apply (HR a b x y); [by left|by left|done|done]).
    assert (Hrest : r = r' <-> Forall2 R l l') by (apply (IH l' r' Hr); intros; apply HR; [by right|by right|done|done]). split.
    + intros [= -> ->]. constructor; [by apply Hab|by apply Hrest].
    + intros E. inversion E; subst. f_equal; [by apply Hab|by apply Hrest].
Qed.

Lemma texts_of_value i v : v ∈ valuesOf i -> object_keys v ⊆ textsOf i.
Proof. intros Hv k Hk. apply elem_of_app. right. by apply (keys_in v). Qed.

(** The sorted limits of two policies are equal exactly when, mint by mint, the limits agree. *)
Lemma sorted_limits_same i j ls ls' : js_interaction i -> js_interaction j -> orders localeCompare (textsOf i ++ textsOf j) ->
  mapR limitSecurity (ia_spendingLimits i) = Ok ls -> mapR limitSecurity (ia_spendingLimits j) = Ok ls' ->
  sortStable byMint ls = sortStable byMint ls' <-> forall mint, Forall2 limit_agree (limitsOf mint i) (limitsOf mint j).
Proof.
  intros [Vi Ni] [Vj Nj] Ho Hi Hj. apply mapR_Ok_Forall2 in Hi, Hj.
  assert (Hknown : forall k limits xs, Forall2 (fun limit x => limitSecurity limit = Ok x) limits xs -> limits = ia_spendingLimits k -> textsOf k ⊆ textsOf i ++ textsOf j ->
    Forall (fun x => ls_mint x ∈ textsOf i ++ textsOf j) xs).
  { intros k limits xs HF -> Hs. apply Forall_forall. intros x Hx. apply list_elem_of_lookup in Hx as [n Hn]. destruct (Forall2_lookup_r _ _ _ _ _ HF Hn) as (limit & Hl & E).
    apply Hs. rewrite (secured_mint _ _ E). apply elem_of_app. left. apply (list_elem_of_fmap_2 (fun limit => toBase58 (li_mint limit))). by eapply list_elem_of_lookup_2. }
  rewrite (sort_same ls_mint localeCompare _ Ho ls ls' (Hknown i _ _ Hi eq_refl ltac:(set_solver)) (Hknown j _ _ Hj eq_refl ltac:(set_solver))).
  assert (Hmint : forall mint, filter (fun x => ls_mint x = toBase58 mint) ls = filter (fun x => ls_mint x = toBase58 mint) ls' <-> Forall2 limit_agree (limitsOf mint i) (limitsOf mint j)).
  { intros mint. apply (results_same limitSecurity limit_agree _ _ (secured_of mint _ _ Hi) _ _ (secured_of mint _ _ Hj)). intros a b x y Ha Hb Hx Hy.
    apply list_elem_of_filter in Ha as [_ Ha], Hb as [_ Hb]. rewrite Forall_forall in Vi, Vj. rewrite Forall_forall in Ni, Nj.
    assert (Pa : li_period a ∈ valuesOf i) by (apply elem_of_app; right; by apply list_elem_of_fmap_2). assert (Pb : li_period b ∈ valuesOf j) by (apply elem_of_app; right; by apply list_elem_of_fmap_2).
    apply limits_same; [by apply Ni|by apply Nj|by apply Vi|by apply Vj| |done|done]. eapply orders_less; [exact Ho|]. pose proof (texts_of_value i _ Pa). pose proof (texts_of_value j _ Pb). set_solver. }
  split; [intros H mint; by apply Hmint|]. intros H k.
  destruct (decide (k ∈ map (fun limit => toBase58 (li_mint limit)) (ia_spendingLimits i ++ ia_spendingLimits j))) as [(limit & -> & _)%list_elem_of_fmap|Hk]; [by apply Hmint|].
  assert (Hnone : forall limits xs, Forall2 (fun limit x => limitSecurity limit = Ok x) limits xs -> limits ⊆ ia_spendingLimits i ++ ia_spendingLimits j -> filter (fun x => ls_mint x = k) xs = []).
  { intros limits xs HF Hs. apply none_keyed, Forall_forall. intros x Hx E. apply list_elem_of_lookup in Hx as [n Hn]. destruct (Forall2_lookup_r _ _ _ _ _ HF Hn) as (limit & Hl & El).
    apply Hk. rewrite <- E, (secured_mint _ _ El). apply (list_elem_of_fmap_2 (fun limit => toBase58 (li_mint limit))), Hs. by eapply list_elem_of_lookup_2. }
  by rewrite (Hnone _ _ Hi ltac:(set_solver)), (Hnone _ _ Hj ltac:(set_solver)).
Qed.

End PolicySecurity.

Module PolicySecurityWitness.
Import DemoKeys.

Definition compareStrings (a b : string) : Z := match OrderedTypeEx.String_as_OT.cmp a b with Lt => -1 | Eq => 0 | Gt => 1 end.

Lemma compare_orders texts : orders compareStrings texts.
Proof.
  assert (Hlt : forall a b, compareStrings a b < 0 <-> OrderedTypeEx.String_as_OT.lt a b).
  { intros a b. unfold compareStrings. rewrite <- OrderedTypeEx.String_as_OT.cmp_lt. destruct (OrderedTypeEx.String_as_OT.cmp a b); split; (lia || done). }
  intros a b c _ _ _. rewrite !Hlt. split; [|split].
  - destruct (OrderedTypeEx.String_as_OT.compare a b); tauto.
  - intros H1 H2. apply (OrderedTypeEx.String_as_OT.lt_not_eq a a); [by eapply OrderedTypeEx.String_as_OT.lt_trans|done].
  - apply OrderedTypeEx.String_as_OT.lt_trans.
Qed.

Definition demoLimit (mint : Z) (amount maxPerUse : gvalue (PK := demo_keys)) (flag : option bool) : PolicyLimit := {|
  li_accumulateUnused := flag; li_enforceExactQuantity := None; li_expiration := GNull; li_maxPerPeriod := amount; li_maxPerUse := maxPerUse;
  li_mint := key_of mint; li_period := GObject [("__kind"%string, GString "Daily")] |}.

Definition demoSecurity (constraints : gvalue) (limits : list PolicyLimit) : ProgramInteractionPolicyInput (PK := demo_keys) := {|
  pi_kind := "ProgramInteraction"; pi_fields := [{| ia_accountIndex := 1; ia_instructionsConstraints := constraints; ia_postHook := GNull; ia_preHook := GNull;
    ia_spendingLimits := limits |}] |}.

(** The same policy as created and as read from the chain *)
Definition created := demoSecurity (GArray [GObject [("programId", GKey (key_of 1)); ("data", GBytes [1; 2])]%string])
  [demoLimit 3 (GBigint 500) GUndefined None; demoLimit 2 (GBn 70) GUndefined None].
Definition observed := demoSecurity (GArray [GObject [("data", GBytes [1; 2]); ("programId", GKey (key_of 1))]%string])
  [demoLimit 2 (GBn 70) (GBn 0) (Some false); demoLimit 3 (GBn 500) (GBn 0) (Some false)].

Example same_policy : programInteractionPolicySecurityEquals compareStrings created observed = Ok true.
Proof. vm_compute. done. Qed.
Example other_limit :
  programInteractionPolicySecurityEquals compareStrings created (demoSecurity GNull [demoLimit 2 (GBn 71) GUndefined None]) = Ok false.
Proof. vm_compute. done. Qed.

(** Limits of one mint in another order are another policy to the comparison. *)
Example order_of_one_mint :
  programInteractionPolicySecurityEquals compareStrings (demoSecurity GNull [demoLimit 2 (GBn 70) GUndefined None; demoLimit 2 (GBn 71) GUndefined None])
    (demoSecurity GNull [demoLimit 2 (GBn 71) GUndefined None; demoLimit 2 (GBn 70) GUndefined None]) = Ok false.
Proof. vm_compute. done. Qed.

Lemma demo_js constraints limits i : js_value constraints -> Forall (fun limit => js_value (li_period limit) /\ Forall number_text (integersOf limit)) limits ->
  pi_fields (demoSecurity constraints limits) = [i] -> js_interaction i.
Proof.
  intros Hc Hl [= <-]. constructor; cbn [valuesOf ia_instructionsConstraints ia_postHook ia_preHook ia_spendingLimits].
  - repeat (constructor; [done || constructor|]). apply Forall_map. eapply Forall_impl; [exact Hl|]. by intros limit [? _].
  - eapply Forall_impl; [exact Hl|]. by intros limit [_ ?].
Qed.

Lemma demo_limits_js mint amount use flag : number_text amount -> number_text use -> js_value (li_period (demoLimit mint amount use flag)) /\ Forall number_text (integersOf (demoLimit mint amount use flag)).
Proof.
  intros Ha Hu. split; [|by repeat constructor]. cbn. constructor; [apply NoDup_singleton|]. constructor; [|constructor]. by apply (js_text _ "Daily").
Qed.

End PolicySecurityWitness.
