(* ===== verification/ClientPolicies.v ===== *)
(** The policies and Kamino instructions the vault client builds itself (web/packages/smart-account-vaults/src/client.ts): reserve targets and universes,
    the constraints of its route, set-up, cross-mint and sweep policies, the local Kamino instructions, and the choice of the Earn policy among
    those on the chain.

    A creation payload is a program interaction without hooks; [localeCompare] is an argument. *)
From Stdlib Require Import Btauto.
From S2P Require Import Prelude JsString JsMap Json Solana Bytes Subscriptions Squads Protocols Registry Sdk Voltr RpcFetch Pda Kamino Holdings FullExit DepositQuote GeneratedValues.

(** ** Constants *)
Definition EARN_ROUTE_MODES : list string := ["same_mint_kamino"%string].
Definition EARN_UNIVERSE_PRESET : string := "canonical_stable_kamino".
Definition KAMINO_SETUP_INSTRUCTION_DISCRIMINATORS : list (list Z) :=
  [ [117; 169; 176; 69; 197; 23; 15; 162]; [251; 10; 231; 76; 27; 11; 159; 96]; [136; 63; 15; 186; 211; 152; 168; 164] ].
Definition KAMINO_INIT_OBLIGATION_FARMS_FOR_RESERVE_DISCRIMINATOR : list Z := [136; 63; 15; 186; 211; 152; 168; 164].
Definition KAMINO_RESERVE_FARM_KIND_COLLATERAL := 0.
Definition KAMINO_REFRESH_OBLIGATION_DISCRIMINATOR : list Z := [33; 132; 147; 228; 151; 192; 72; 89].

Inductive EarnRoutePolicyGeneration := CompatibleGeneration | LegacyTokenProgram.

Section Client.
Context {PK : PublicKeys} {SPL : SplToken PK} {KB : KeyBytes PK} {B : BeetUints} {TL : TokenLayouts PK}.

Definition EARN_RISK_PROFILE := Safe.
Definition KAMINO_DEVNET_USDC_RESERVE_LIQUIDITY_SUPPLY : pubkey := key_literal "Bh45cPkpfRvz9hAs23ye5TowsGbhbh4BXT4AGww8JfES".
Definition KAMINO_DEVNET_USDC_RESERVE_COLLATERAL_MINT : pubkey := key_literal "8GoBXfEq3aTiWTxEP2tAaygJMx3LhG764iN5e6gqaLA".
Definition KAMINO_FARMS_PROGRAM_ID : pubkey := key_literal "FarmsPZpWu9i7Kky8tPN37rs2TpmMrAZrC7S7vJa91Hr".
(** Of @solana/web3.js *)
Definition SYSVAR_INSTRUCTIONS_PUBKEY : pubkey := key_literal "Sysvar1nstructions1111111111111111111111111".

Definition assertEarnPolicySupportsTokenProgram (generation : EarnRoutePolicyGeneration) (tokenProgramId : pubkey) : result unit :=
  match generation with
  | LegacyTokenProgram =>
      if key_equals tokenProgramId splToken2022Program
      then Throw (Exn "EarnPolicyUpdateRequiredError" "This Earn policy must be updated before it can deposit Token-2022 assets.") else Ok tt
  | CompatibleGeneration => Ok tt
  end.

(** ** Targets *)
Record SmartAccountEarnUsdcReserveTargetInput := {
  ti_reserve : pubkey;
  ti_market : pubkey;
  ti_liquidityMint : pubkey;
  ti_liquidityTokenProgram : option pubkey;
  ti_supplyApyBps : option Z;
  ti_reserveCollateralMint : option pubkey;
  ti_reserveLiquiditySupply : option pubkey;
}.

(** The client's [KaminoEarnTarget]: the registry's, extended *)
Record EarnTarget := {
  et_target : KaminoEarnTarget;
  et_liquidityTokenProgram : pubkey;
  et_reserveCollateralMint : option pubkey;
  et_reserveLiquiditySupply : option pubkey;
  et_supplyApyBps : option Z;
}.

Definition retarget (d : KaminoEarnTarget) (t : SmartAccountEarnUsdcReserveTargetInput) : KaminoEarnTarget := {|
  depositDiscriminator := depositDiscriminator d; initObligationDiscriminator := initObligationDiscriminator d; liquidityMint := ti_liquidityMint t;
  lendProgramId := lendProgramId d; market := ti_market t; reserve := ti_reserve t; withdrawDiscriminator := withdrawDiscriminator d |}.

Definition orElse {A} (o : option A) (d : A) : option A := Some (default d o).

Definition resolveKaminoEarnTarget (cluster : LoyalCluster) (target : option SmartAccountEarnUsdcReserveTargetInput) : result EarnTarget :=
  defaultTarget ← getKaminoUsdcEarnTargetForCluster cluster;
  resolved ←
    match target with
    | Some t =>
        liquidityTokenProgram ←
          match ti_liquidityTokenProgram t with
          | Some program => Ok program
          | None => if key_equals (ti_liquidityMint t) (liquidityMint defaultTarget) then Ok splTokenProgram
                    else throwError "A non-default Earn reserve target must declare its liquidity token program."
          end;
        Ok {| et_target := retarget defaultTarget t; et_liquidityTokenProgram := liquidityTokenProgram;
              et_reserveCollateralMint := ti_reserveCollateralMint t; et_reserveLiquiditySupply := ti_reserveLiquiditySupply t;
              et_supplyApyBps := ti_supplyApyBps t |}
    | None => Ok {| et_target := defaultTarget; et_liquidityTokenProgram := splTokenProgram; et_reserveCollateralMint := None;
                    et_reserveLiquiditySupply := None; et_supplyApyBps := None |}
    end;
  match cluster with
  | Devnet => Ok {| et_target := et_target resolved; et_liquidityTokenProgram := et_liquidityTokenProgram resolved;
                    et_reserveCollateralMint := orElse (et_reserveCollateralMint resolved) KAMINO_DEVNET_USDC_RESERVE_COLLATERAL_MINT;
                    et_reserveLiquiditySupply := orElse (et_reserveLiquiditySupply resolved) KAMINO_DEVNET_USDC_RESERVE_LIQUIDITY_SUPPLY;
                    et_supplyApyBps := et_supplyApyBps resolved |}
  | MainnetBeta => Ok resolved
  end.

Record EarnPolicyUniverse := {
  un_kaminoLiquidityMints : list pubkey;
  un_kaminoMarkets : list pubkey;
  un_riskProfile : RiskBasket;
  un_routeModes : list string;
  un_stableMints : list pubkey;
  un_universePreset : string;
}.

Definition resolveEarnPolicyUniverse (cluster : LoyalCluster) : EarnPolicyUniverse :=
  let stableMints := getStablecoinMintsForCluster cluster in {|
  un_kaminoLiquidityMints := stableMints; un_kaminoMarkets := getRiskBasketMarketsForCluster cluster EARN_RISK_PROFILE;
  un_riskProfile := EARN_RISK_PROFILE; un_routeModes := EARN_ROUTE_MODES; un_stableMints := stableMints; un_universePreset := EARN_UNIVERSE_PRESET |}.

Definition earnPolicyUniverseFromPlan (plan : YieldRoutePolicyPlan) : EarnPolicyUniverse := {|
  un_kaminoLiquidityMints := ps_kaminoLiquidityMints (spec _ plan); un_kaminoMarkets := ps_kaminoMarkets (spec _ plan);
  un_riskProfile := pp_riskProfile (persistence plan); un_routeModes := pp_routeModes (persistence plan);
  un_stableMints := ps_stableMints (spec _ plan); un_universePreset := pp_universePreset (persistence plan) |}.

Record VaultTokenAccounts := { vt_collateralAta : option pubkey; vt_target : EarnTarget; vt_usdcAta : pubkey }.

Definition resolveEarnUsdcVaultTokenAccounts (cluster : option LoyalCluster) (target : option SmartAccountEarnUsdcReserveTargetInput) (vaultPda : pubkey) :
    result VaultTokenAccounts :=
  resolved ← resolveKaminoEarnTarget (default MainnetBeta cluster) target;
  usdcAta ← associatedTokenAddress (liquidityMint (et_target resolved)) vaultPda true (et_liquidityTokenProgram resolved);
  collateralAta ←
    match et_reserveCollateralMint resolved with
    | Some mint => ata ← associatedTokenAddress mint vaultPda true splTokenProgram; Ok (Some ata)
    | None => Ok None
    end;
  Ok {| vt_collateralAta := collateralAta; vt_target := resolved; vt_usdcAta := usdcAta |}.

(** ** Constraints *)
Definition pubkeyAccountConstraint (accountIndex : Z) (pubkeys : list pubkey) (owner : option pubkey) : AccountConstraint pubkey :=
  MkAccount accountIndex (KPubkey pubkeys) owner.

(** A payload of kind "ProgramInteraction" *)
Record PolicyCreationPayload := {
  py_accountIndex : Z;
  py_instructionsConstraints : list (InstructionConstraint pubkey);
  py_spendingLimits : list (DailySpendingLimit pubkey);
}.

Definition clientSliceEquals (value : list Z) : DataConstraint := MkData 0 (VU8Slice value) equals.

Definition createEarnKaminoInstructionConstraint (accountIndex : Z) (discriminator : list Z) (includeLiquidityMints : bool) (liquidityMintOwner : option pubkey)
    (liquidityMintAccountIndex : option Z) (target : EarnTarget) (universe : EarnPolicyUniverse) (vaultPda : pubkey) : InstructionConstraint pubkey :=
  MkConstraint (lendProgramId (et_target target))
    ([ pubkeyAccountConstraint 0 [vaultPda] None; pubkeyAccountConstraint accountIndex (un_kaminoMarkets universe) None ] ++
     if includeLiquidityMints
     then [pubkeyAccountConstraint (default 5 liquidityMintAccountIndex) (un_kaminoLiquidityMints universe) liquidityMintOwner] else [])
    [clientSliceEquals discriminator].

Definition createEarnProgramInteractionPolicyCreationPayload (liquidityMintOwner : option pubkey) (target : EarnTarget) (universe : EarnPolicyUniverse)
    (vaultPda : pubkey) : PolicyCreationPayload :=
  let withdrawConstraint :=
    createEarnKaminoInstructionConstraint 2 (withdrawDiscriminator (et_target target)) false None None target universe vaultPda in
  let depositConstraint :=
    createEarnKaminoInstructionConstraint 2 (depositDiscriminator (et_target target)) true liquidityMintOwner (Some 5) target universe vaultPda in
  {| py_accountIndex := EARN_VAULT_INDEX; py_instructionsConstraints := [withdrawConstraint; depositConstraint]; py_spendingLimits := [] |}.

Definition createEarnKaminoInitObligationInstructionConstraint (target : EarnTarget) (universe : EarnPolicyUniverse) (vaultPda : pubkey) :
    result (InstructionConstraint pubkey) :=
  let marketList := un_kaminoMarkets universe in
  let lend := lendProgramId (et_target target) in
  obligations ← mapR (fun m => deriveKaminoVanillaObligation vaultPda m lend) marketList;
  let dataPrefix := initObligationDiscriminator (et_target target) ++ [KAMINO_VANILLA_OBLIGATION_TAG; KAMINO_VANILLA_OBLIGATION_ID] in
  userMetadata ← deriveKaminoUserMetadata vaultPda lend;
  Ok (MkConstraint lend
    [ pubkeyAccountConstraint 0 [vaultPda] None; pubkeyAccountConstraint 1 [vaultPda] None; pubkeyAccountConstraint 2 obligations None;
      pubkeyAccountConstraint 3 marketList None; pubkeyAccountConstraint 4 [DEFAULT_PUBKEY] None; pubkeyAccountConstraint 5 [DEFAULT_PUBKEY] None;
      pubkeyAccountConstraint 6 [userMetadata] None; pubkeyAccountConstraint 7 [SYSVAR_RENT_PUBKEY] None;
      pubkeyAccountConstraint 8 [systemProgramId] None ]
    [clientSliceEquals dataPrefix]).

Definition createEarnInitObligationPolicyCreationPayload (target : EarnTarget) (universe : EarnPolicyUniverse) (vaultPda : pubkey) : result PolicyCreationPayload :=
  init ← createEarnKaminoInitObligationInstructionConstraint target universe vaultPda;
  Ok {| py_accountIndex := EARN_VAULT_INDEX; py_instructionsConstraints := [init]; py_spendingLimits := [] |}.

Definition crossMintClientConstraint (config : LoyalClusterConfig) (canonicalVaultAtas : list pubkey) (vaultPda : pubkey) (maxSlippageBps : Z)
    (dialect : JupiterV2Dialect) : InstructionConstraint pubkey :=
  let layout := jupiterLayout dialect in
  MkConstraint (jupiterV6ProgramId config)
    [ pubkeyAccountConstraint (jl_authority layout) [vaultPda] None; pubkeyAccountConstraint (jl_outputTokenAccount layout) canonicalVaultAtas None ]
    [ clientSliceEquals (jl_discriminator layout); MkData (jl_slippageOffset layout) (VU16Le maxSlippageBps) lessThanOrEqualTo;
      MkData (jl_platformFeeOffset layout) (VU8 0) equals ].

Definition createEarnCrossMintPolicyCreationPayload (cluster : LoyalCluster) (plan : JupiterCrossMintPolicyPlan) (vaultPda : pubkey) : result PolicyCreationPayload :=
  let config := LOYAL_CLUSTER_CONFIGS cluster in
  canonicalVaultAtas ← mapR (fun stablecoin =>
      mint ← getStablecoinMintForCluster cluster stablecoin;
      tokenProgram ← getStablecoinTokenProgramForCluster cluster stablecoin;
      associatedTokenAddress mint vaultPda true tokenProgram) (getStablecoinsForCluster cluster);
  Ok {| py_accountIndex := EARN_VAULT_INDEX;
        py_instructionsConstraints :=
          map (crossMintClientConstraint config canonicalVaultAtas vaultPda (cp_maxSlippageBps plan)) [route_v2; shared_accounts_route_v2];
        py_spendingLimits := map (fun mint => MkLimit mint (cp_dailySourceMintSpendingCap plan)) (cp_sourceMints plan) |}.

Definition delegatorTokenBalanceAccountConstraint (minimumBalanceRaw : Z) : AccountConstraint pubkey :=
  MkAccount 2 (KAccountData [MkData SPL_TOKEN_ACCOUNT_AMOUNT_OFFSET (VU64Le minimumBalanceRaw) greaterThanOrEqualTo]) (Some splTokenProgram).

Definition createSubscriptionSweepProgramInteractionPolicyCreationPayload (delegator vaultPda mint walletUsdcAta vaultUsdcAta : pubkey)
    (maxAmountPerPeriodRaw : Z) (minimumDelegatorBalanceRaw : option Z) : result PolicyCreationPayload :=
  subscriptionAuthority ← deriveSubscriptionAuthority delegator mint;
  eventAuthority ← deriveSubscriptionEventAuthority;
  let bytesEqual offset key := MkData offset (VU8Slice (toBytes key)) equals in
  let recurringDelegationConstraint := MkAccount 0 (KAccountData
    [ MkData SUBSCRIPTION_RECURRING_DELEGATION_DISCRIMINATOR_OFFSET (VU8 SUBSCRIPTION_RECURRING_DELEGATION_DISCRIMINATOR) equals;
      bytesEqual SUBSCRIPTION_RECURRING_DELEGATION_DELEGATOR_OFFSET delegator;
      bytesEqual SUBSCRIPTION_RECURRING_DELEGATION_DELEGATEE_OFFSET vaultPda;
      bytesEqual SUBSCRIPTION_RECURRING_DELEGATION_AUTHORITY_OFFSET subscriptionAuthority;
      bytesEqual SUBSCRIPTION_RECURRING_DELEGATION_MINT_OFFSET mint;
      MkData SUBSCRIPTION_RECURRING_DELEGATION_AMOUNT_PER_PERIOD_OFFSET (VU64Le maxAmountPerPeriodRaw) lessThanOrEqualTo ])
    (Some SUBSCRIPTIONS_PROGRAM_ID) in
  let transferConstraint := MkConstraint SUBSCRIPTIONS_PROGRAM_ID
    ([ recurringDelegationConstraint; pubkeyAccountConstraint 1 [subscriptionAuthority] (Some SUBSCRIPTIONS_PROGRAM_ID);
       pubkeyAccountConstraint 2 [walletUsdcAta] (Some splTokenProgram) ] ++
     match minimumDelegatorBalanceRaw with Some minimum => [delegatorTokenBalanceAccountConstraint minimum] | None => [] end ++
     [ pubkeyAccountConstraint 3 [vaultUsdcAta] (Some splTokenProgram); pubkeyAccountConstraint 4 [mint] (Some splTokenProgram);
       pubkeyAccountConstraint 5 [splTokenProgram] None; pubkeyAccountConstraint 6 [vaultPda] None; pubkeyAccountConstraint 7 [eventAuthority] None;
       pubkeyAccountConstraint 8 [SUBSCRIPTIONS_PROGRAM_ID] None ])
    [ MkData 0 (VU8 SUBSCRIPTIONS_TRANSFER_RECURRING) equals; bytesEqual SUBSCRIPTION_TRANSFER_DELEGATOR_OFFSET delegator;
      bytesEqual SUBSCRIPTION_TRANSFER_MINT_OFFSET mint ] in
  Ok {| py_accountIndex := EARN_VAULT_INDEX; py_instructionsConstraints := [transferConstraint]; py_spendingLimits := [] |}.

(** ** Local Kamino instructions *)
Definition getLendingMarketAuthority (market lendProgramId : pubkey) : result pubkey :=
  findProgramAddress [utf8 "lma"; toBytes market] lendProgramId.

(** Sixteen bytes; every discriminator has eight. *)
Definition encodeU64InstructionData (discriminator : list Z) (amountRaw : Z) : result (list Z) :=
  if (amountRaw <? 0) || (18446744073709551615 <? amountRaw) then throwError "Kamino instruction amount must fit in u64."
  else Ok (take 8 (discriminator ++ replicate 8 0) ++ le_bytes 8 amountRaw).

Definition deriveKaminoFarmUserStatePda (farmState owner : pubkey) : result pubkey :=
  findProgramAddress [utf8 "user"; toBytes farmState; toBytes owner] KAMINO_FARMS_PROGRAM_ID.

Definition readonly (key : pubkey) : account_meta := Meta key false false.
Definition writable (key : pubkey) : account_meta := Meta key false true.
Definition signer (key : pubkey) : account_meta := Meta key true true.

Definition requireLocalKaminoTargetAccounts (target : EarnTarget) : result (pubkey * pubkey) :=
  match et_reserveCollateralMint target, et_reserveLiquiditySupply target with
  | Some mint, Some supply => Ok (mint, supply)
  | _, _ => throwError "Local Kamino instruction target is incomplete."
  end.

(** The accounts after the lending authority, shared by deposit and withdrawal *)
Record FarmAccounts := { fa_user : account_meta; fa_state : account_meta }.
Definition farmAccounts (target : EarnTarget) (obligation : pubkey) (reserveAccounts : KaminoReserveTokenAccounts) : result FarmAccounts :=
  if key_equals (farmCollateral reserveAccounts) defaultKey
  then Ok {| fa_user := readonly (lendProgramId (et_target target)); fa_state := readonly (lendProgramId (et_target target)) |}
  else
    user ← deriveKaminoFarmUserStatePda (farmCollateral reserveAccounts) obligation;
    Ok {| fa_user := writable user; fa_state := writable (farmCollateral reserveAccounts) |}.

Definition createLocalKaminoDepositInstruction (amountRaw : Z) (obligation : option pubkey) (reserveAccounts : option KaminoReserveTokenAccounts) (target : EarnTarget)
    (vaultPda vaultUsdcAta vaultCollateralAta liquidityTokenProgram : pubkey) : result instruction :=
  let t := et_target target in
  match obligation, reserveAccounts with
  | Some obligation, Some accounts =>
      authority ← getLendingMarketAuthority (market t) (lendProgramId t);
      farms ← farmAccounts target obligation accounts;
      data ← encodeU64InstructionData (depositDiscriminator t) amountRaw;
      Ok (Instruction (lendProgramId t)
        [ signer vaultPda; writable obligation; readonly (market t); readonly authority; writable (reserve t); readonly (reserveLiquidityMint accounts);
          writable (reserveLiquiditySupply accounts); writable (reserveCollateralMint accounts); writable (reserveCollateralSupply accounts);
          writable vaultUsdcAta; readonly (lendProgramId t); readonly splTokenProgram; readonly liquidityTokenProgram; readonly SYSVAR_INSTRUCTIONS_PUBKEY;
          fa_user farms; fa_state farms; readonly KAMINO_FARMS_PROGRAM_ID ] data)
  | _, _ =>
      '(mint, supply) ← requireLocalKaminoTargetAccounts target;
      authority ← getLendingMarketAuthority (market t) (lendProgramId t);
      data ← encodeU64InstructionData (depositDiscriminator t) amountRaw;
      Ok (Instruction (lendProgramId t)
        [ signer vaultPda; writable (reserve t); readonly (market t); readonly authority; readonly (liquidityMint t); writable supply; writable mint;
          writable vaultUsdcAta; writable vaultCollateralAta; readonly splTokenProgram; readonly liquidityTokenProgram;
          readonly SYSVAR_INSTRUCTIONS_PUBKEY ] data)
  end.

Definition createLocalKaminoWithdrawInstruction (amountRaw : Z) (obligation : option pubkey) (reserveAccounts : option KaminoReserveTokenAccounts) (target : EarnTarget)
    (vaultPda vaultUsdcAta vaultCollateralAta liquidityTokenProgram : pubkey) : result instruction :=
  let t := et_target target in
  match obligation, reserveAccounts with
  | Some obligation, Some accounts =>
      authority ← getLendingMarketAuthority (market t) (lendProgramId t);
      farms ← farmAccounts target obligation accounts;
      data ← encodeU64InstructionData (withdrawDiscriminator t) amountRaw;
      Ok (Instruction (lendProgramId t)
        [ signer vaultPda; writable obligation; readonly (market t); readonly authority; writable (reserve t); readonly (reserveLiquidityMint accounts);
          writable (reserveCollateralSupply accounts); writable (reserveCollateralMint accounts); writable (reserveLiquiditySupply accounts);
          writable vaultUsdcAta; readonly (lendProgramId t); readonly splTokenProgram; readonly liquidityTokenProgram; readonly SYSVAR_INSTRUCTIONS_PUBKEY;
          fa_user farms; fa_state farms; readonly KAMINO_FARMS_PROGRAM_ID ] data)
  | _, _ =>
      '(mint, supply) ← requireLocalKaminoTargetAccounts target;
      authority ← getLendingMarketAuthority (market t) (lendProgramId t);
      data ← encodeU64InstructionData (withdrawDiscriminator t) amountRaw;
      Ok (Instruction (lendProgramId t)
        [ signer vaultPda; readonly (market t); writable (reserve t); readonly authority; readonly (liquidityMint t); writable mint; writable supply;
          writable vaultCollateralAta; writable vaultUsdcAta; readonly splTokenProgram; readonly liquidityTokenProgram;
          readonly SYSVAR_INSTRUCTIONS_PUBKEY ] data)
  end.

Definition createLocalKaminoInitObligationFarmsForReserveInstruction (obligation : pubkey) (accounts : KaminoReserveTokenAccounts) (target : EarnTarget)
    (vaultPda : pubkey) : result (option instruction) :=
  let t := et_target target in
  if key_equals (farmCollateral accounts) defaultKey then Ok None
  else
    authority ← getLendingMarketAuthority (market t) (lendProgramId t);
    obligationFarm ← deriveKaminoFarmUserStatePda (farmCollateral accounts) obligation;
    Ok (Some (Instruction (lendProgramId t)
      [ signer vaultPda; readonly vaultPda; writable obligation; readonly authority; writable (reserve t); writable (farmCollateral accounts);
        writable obligationFarm; readonly (market t); readonly KAMINO_FARMS_PROGRAM_ID; readonly SYSVAR_RENT_PUBKEY; readonly systemProgramId ]
      (KAMINO_INIT_OBLIGATION_FARMS_FOR_RESERVE_DISCRIMINATOR ++ [KAMINO_RESERVE_FARM_KIND_COLLATERAL]))).

(** Of the data of an instruction, which is bytes *)
Definition instructionDataStartsWith (data discriminator : list Z) : bool := bufferStartsWith data discriminator.
Definition instructionStartsWithAnyDiscriminator (ix : instruction) (discriminators : list (list Z)) : bool :=
  existsb (instructionDataStartsWith (data ix)) discriminators.

Fixpoint findIndex {A} (p : A -> bool) (l : list A) : option nat :=
  match l with [] => None | x :: l => if p x then Some 0%nat else S <$> findIndex p l end.
Definition insertAt {A} (l : list A) (i : nat) (x : A) : list A := take i l ++ [x] ++ drop i l.

Definition insertKaminoSetupInstructionBeforeExecution (instructions : list instruction) (setupInstruction : instruction) : list instruction :=
  match findIndex (fun ix => key_equals (programId ix) (programId setupInstruction) &&
                             instructionDataStartsWith (data ix) KAMINO_REFRESH_OBLIGATION_DISCRIMINATOR) instructions with
  | Some refreshObligationInstructionIndex => insertAt instructions refreshObligationInstructionIndex setupInstruction
  | None =>
      match findIndex (fun ix => key_equals (programId ix) (programId setupInstruction) &&
                                 negb (instructionStartsWithAnyDiscriminator ix KAMINO_SETUP_INSTRUCTION_DISCRIMINATORS)) instructions with
      | Some firstExecutionInstructionIndex => insertAt instructions firstExecutionInstructionIndex setupInstruction
      | None => instructions ++ [setupInstruction]
      end
  end.

(** ** The Earn policy on the chain *)
(** The generated form of a payload, which is also the form of a policy's state *)
Definition genData (d : DataConstraint) : gvalue :=
  let value kind v := GObject [("__kind", GString kind); ("fields", GArray [v])]%string in
  GObject [ ("dataOffset", GBn (dc_offset d));
    ("dataValue", match dc_value d with
      | VU8 v => value "U8"%string (GInt v) | VU16Le v => value "U16Le"%string (GInt v) | VU32Le v => value "U32Le"%string (GInt v)
      | VU64Le v => value "U64Le"%string (GBn v) | VU128Le v => value "U128Le"%string (GBn v) | VU8Slice v => value "U8Slice"%string (GBytes v)
      end);
    ("operator", GInt (operatorTag (dc_operator d))) ]%string.
Definition genOwner (owner : option pubkey) : gvalue := match owner with Some k => GKey k | None => GNull end.
Definition genAccount (a : AccountConstraint pubkey) : gvalue := GObject [
  ("accountIndex", GInt (ac_index a));
  ("accountConstraint", match ac_kind a with
    | KPubkey ks => GObject [("__kind", GString "Pubkey"); ("fields", GArray [GArray (map GKey ks)])]
    | KAccountData ds => GObject [("__kind", GString "AccountData"); ("fields", GArray [GArray (map genData ds)])]
    end);
  ("owner", genOwner (ac_owner a)) ]%string.
Definition genConstraint (c : InstructionConstraint pubkey) : gvalue := GObject [
  ("programId", GKey (ic_program c)); ("accountConstraints", GArray (map genAccount (ic_accounts c)));
  ("dataConstraints", GArray (map genData (ic_data c))) ]%string.

(** A state of kind "ProgramInteraction" with one interaction, without hooks and limits *)
Definition genState (accountIndex : Z) (constraints : list (InstructionConstraint pubkey)) : gvalue := GObject [
  ("__kind", GString "ProgramInteraction");
  ("fields", GArray [GObject [ ("accountIndex", GInt accountIndex); ("instructionsConstraints", GArray (map genConstraint constraints)); ("preHook", GNull);
                               ("postHook", GNull); ("spendingLimits", GArray []) ]]) ]%string.

Record RawPolicyEntry := { rw_address : pubkey; rw_seed : Z; rw_state : gvalue }.

Context (localeCompare : string -> string -> Z).

Definition generationOf (compatibleState legacyState : gvalue) (entry : RawPolicyEntry) : option EarnRoutePolicyGeneration :=
  if generatedValuesEqual localeCompare (rw_state entry) compatibleState then Some CompatibleGeneration
  else if generatedValuesEqual localeCompare (rw_state entry) legacyState then Some LegacyTokenProgram else None.

Definition isCompatible (g : EarnRoutePolicyGeneration) : bool := match g with CompatibleGeneration => true | LegacyTokenProgram => false end.

(** The comparator: the current generation first, then the greater seed *)
Definition compareEarnPolicies (left right : RawPolicyEntry * EarnRoutePolicyGeneration) : Z :=
  if negb (Bool.eqb (isCompatible left.2) (isCompatible right.2)) then if isCompatible left.2 then -1 else 1
  else if rw_seed right.1 <? rw_seed left.1 then -1 else 1.

Record EarnPolicyCompatibility := { pc_account : string; pc_seed : string; pc_generation : EarnRoutePolicyGeneration }.

(** Over the policies that listRawPolicies returns *)
Definition fetchEarnPolicyCompatibility (cluster : LoyalCluster) (programId settingsPda : pubkey) (policies : list RawPolicyEntry) :
    result (option EarnPolicyCompatibility) :=
  vault ← getSmartAccountPda settingsPda EARN_VAULT_INDEX programId;
  target ← resolveKaminoEarnTarget cluster None;
  let universe := resolveEarnPolicyUniverse cluster in
  let state owner := let p := createEarnProgramInteractionPolicyCreationPayload owner target universe vault in
                     genState (py_accountIndex p) (py_instructionsConstraints p) in
  let earnPolicies := flat_map (fun entry => match generationOf (state None) (state (Some splTokenProgram)) entry with
                                             | Some generation => [(entry, generation)] | None => [] end) policies in
  Ok ((fun chosen => {| pc_account := toBase58 (rw_address chosen.1); pc_seed := bigint_toString (rw_seed chosen.1); pc_generation := chosen.2 |})
        <$> head (sortStable compareEarnPolicies earnPolicies)).

(** ** Creating the policies *)
(** What createEarnYieldRoutingPolicyOperation puts into its two settings transactions: the payloads of the route and the set-up policy,
    with their accounts; policy seeds are exact as numbers. *)
Record EarnPolicyPayloads := { ep_vault : pubkey; ep_policyAccount : pubkey; ep_route : PolicyCreationPayload;
                               ep_setupPolicyAccount : pubkey; ep_setup : PolicyCreationPayload }.

Definition earnSquads (settingsPda signer policySigner vault : pubkey) : SquadsInput :=
  {| si_settings := settingsPda; si_authority := signer; si_delegatedSigner := policySigner; si_accountIndex := Integer EARN_VAULT_INDEX; si_vault := vault |}.

Definition createEarnYieldRoutingPolicyPayloads (cluster : LoyalCluster) (programId settingsPda signer policySigner : pubkey) (policySeed : Z) :
    result EarnPolicyPayloads :=
  vault ← getSmartAccountPda settingsPda EARN_VAULT_INDEX programId;
  plan ← createYieldRoutePolicyPlan {| yr_cluster := LoyalCluster_value cluster; yr_policySeed := SeedNumeric (Big policySeed);
    yr_risk := RiskBasket_value EARN_RISK_PROFILE; yr_swapLanes := []; yr_maxFeeBps := None;
    yr_squads := earnSquads settingsPda signer policySigner vault |};
  let setupPolicySeed := policySeed + 1 in
  _ ← createYieldRouteSetupPolicyPlan {| ys_cluster := LoyalCluster_value cluster; ys_policySeed := SeedNumeric (Big setupPolicySeed);
    ys_risk := RiskBasket_value EARN_RISK_PROFILE; ys_squads := earnSquads settingsPda signer policySigner vault |};
  policyAccount ← derivePda (PolicyPda settingsPda policySeed) programId;
  setupPolicyAccount ← derivePda (PolicyPda settingsPda setupPolicySeed) programId;
  earnTarget ← resolveKaminoEarnTarget cluster None;
  let earnUniverse := earnPolicyUniverseFromPlan plan in
  let route := createEarnProgramInteractionPolicyCreationPayload None earnTarget earnUniverse vault in
  setup ← createEarnInitObligationPolicyCreationPayload earnTarget earnUniverse vault;
  Ok {| ep_vault := vault; ep_policyAccount := policyAccount; ep_route := route; ep_setupPolicyAccount := setupPolicyAccount; ep_setup := setup |}.

(** ** What a constraint lets through

    [allows] spells out the fields of a constraint: the program, every account constraint at its index (one of the keys, or the data of the account, and its owner where one is
    named) and every data constraint at its offset. It is the meaning the policies here are written for. The smart-account program that enforces it on chain is not part of the
    repository and is a parameter, [PolicyProgram]. *)
Section Meets.
(** The accounts as they are: owner and data *)
Context (world : pubkey -> AccountInfo).

Definition compare_holds (op : Operator) (x y : Z) : bool :=
  match op with
  | equals => x =? y | notEquals => negb (x =? y) | greaterThan => y <? x | greaterThanOrEqualTo => y <=? x | lessThan => x <? y | lessThanOrEqualTo => x <=? y
  end.

Definition sliceAt (bytes : list Z) (offset n : nat) : option (list Z) :=
  let got := take n (drop offset bytes) in if (length got =? n)%nat then Some got else None.

Definition data_meets (bytes : list Z) (d : DataConstraint) : bool :=
  let int n v := match sliceAt bytes (Z.to_nat (dc_offset d)) n with Some got => compare_holds (dc_operator d) (le_value got) v | None => false end in
  match dc_value d with
  | VU8 v => int 1%nat v | VU16Le v => int 2%nat v | VU32Le v => int 4%nat v | VU64Le v => int 8%nat v | VU128Le v => int 16%nat v
  | VU8Slice v => match sliceAt bytes (Z.to_nat (dc_offset d)) (length v), dc_operator d with
                  | Some got, equals => bool_decide (got = v) | Some got, notEquals => negb (bool_decide (got = v)) | _, _ => false end
  end.

Definition account_meets (ix : instruction) (a : AccountConstraint pubkey) : bool :=
  match keys ix !! Z.to_nat (ac_index a) with
  | None => false
  | Some meta =>
      match ac_kind a with
      | KPubkey ks => bool_decide (meta_pubkey meta ∈ ks)
      | KAccountData ds => forallb (data_meets (info_data (world (meta_pubkey meta)))) ds
      end &&
      match ac_owner a with Some owner => key_equals (info_owner (world (meta_pubkey meta))) owner | None => true end
  end.

Definition allows (c : InstructionConstraint pubkey) (ix : instruction) : bool :=
  key_equals (programId ix) (ic_program c) && forallb (account_meets ix) (ic_accounts c) && forallb (data_meets (data ix)) (ic_data c).

(** The account at an index is one of the keys. *)
Definition among (ix : instruction) (index : nat) (ks : list pubkey) : bool :=
  match keys ix !! index with Some meta => bool_decide (meta_pubkey meta ∈ ks) | None => false end.

Context {Laws : PublicKeyLaws PK}.

Lemma meets_unique ix index ks owner : account_meets ix (MkAccount index (KPubkey (uniquePubkeys ks)) owner) = account_meets ix (MkAccount index (KPubkey ks) owner).
Proof.
  unfold account_meets. cbn. destruct (keys ix !! Z.to_nat index) as [meta|]; [|done]. f_equal. apply bool_decide_ext. apply (proj1 (proj2 (uniquePubkeys_spec ks))).
Qed.

Lemma meets_pubkey ix index ks : account_meets ix (pubkeyAccountConstraint index ks None) = among ix (Z.to_nat index) ks.
Proof. unfold account_meets, among. cbn. destruct (keys ix !! Z.to_nat index); [by rewrite andb_true_r|done]. Qed.

Lemma plan_universe cluster settings signer policySigner vault seed plan :
  createYieldRoutePolicyPlan {| yr_cluster := LoyalCluster_value cluster; yr_policySeed := seed; yr_risk := RiskBasket_value EARN_RISK_PROFILE;
    yr_swapLanes := []; yr_maxFeeBps := None; yr_squads := earnSquads settings signer policySigner vault |} = Ok plan ->
  un_kaminoMarkets (earnPolicyUniverseFromPlan plan) = getRiskBasketMarketsForCluster cluster Safe /\
  un_kaminoLiquidityMints (earnPolicyUniverseFromPlan plan) = getStablecoinMintsForCluster cluster.
Proof.
  intros H. unfold createYieldRoutePolicyPlan in H. apply bind_Ok in H as (cl & Hcl & H). cbn [yr_cluster] in Hcl.
  assert (cl = cluster) as -> by (destruct cluster; cbn in Hcl; congruence). apply bind_Ok in H as (valid & Hv & H).
  assert (ri_risk valid = Safe) as Hr.
  { unfold validateInput in Hv. apply bind_Ok in Hv as (risk & Hk & Hv). cbn [yr_risk] in Hk. assert (risk = Safe) as -> by (cbn in Hk; congruence).
    inv_results. by subst valid. }
  cbv zeta in H. apply bind_Ok in H as (ms & Hms & H).
  apply requireStableMints_spec in Hms as [-> _].
  inv_results. destruct (laneRoutes _ _ _ _ _) as [routes persisted]. inv_results. subst plan. unfold earnPolicyUniverseFromPlan. cbn. by rewrite Hr.
Qed.

(** C8. The policies the client installs, compared with the ones the actions SDK plans for the same cluster and vault: the deposit constraint lets through
    exactly the same instructions; the withdrawal constraint lets through those of the SDK and, unlike it, withdrawals of any mint, so the SDK's is the client's
    with the mint of account 5 among the stable mints; and the set-up constraint lets through those of the SDK whose obligation, account 2, is the vault's for one of the
    markets. *)
Theorem client_policies_scope (cluster : LoyalCluster) (program settingsPda authority policySigner : pubkey) (policySeed : Z) (p : EarnPolicyPayloads) :
  createEarnYieldRoutingPolicyPayloads cluster program settingsPda authority policySigner policySeed = Ok p ->
  exists target obligations sdkInit withdrawal deposit init,
    getKaminoUsdcEarnTargetForCluster cluster = Ok target /\
    Forall2 (fun m o => deriveKaminoVanillaObligation (ep_vault p) m (lendProgramId target) = Ok o) (getRiskBasketMarketsForCluster cluster Safe) obligations /\
    kaminoInitObligationConstraint (ep_vault p) (getRiskBasketMarketsForCluster cluster Safe) (lendProgramId target) (initObligationDiscriminator target) = Ok sdkInit /\
    py_instructionsConstraints (ep_route p) = [withdrawal; deposit] /\ py_instructionsConstraints (ep_setup p) = [init] /\
    let '(sdkWithdrawal, sdkDeposit) := kaminoConstraints cluster Safe (ep_vault p) target in
    forall ix, allows deposit ix = allows sdkDeposit ix /\
      allows sdkWithdrawal ix = allows withdrawal ix && among ix 5 (getStablecoinMintsForCluster cluster) /\
      allows init ix = allows sdkInit ix && among ix 2 obligations.
Proof.
  unfold createEarnYieldRoutingPolicyPayloads. intros H. apply bind_Ok in H as (vault & _ & H). apply bind_Ok in H as (plan & Hplan & H). cbv zeta in H.
  apply bind_Ok in H as (setupPlan & _ & H). apply bind_Ok in H as (pa & _ & H). apply bind_Ok in H as (spa & _ & H). apply bind_Ok in H as (earnTarget & Ht & H).
  apply bind_Ok in H as (setup & Hset & [= <-]). cbn [ep_vault ep_route ep_setup]. apply plan_universe in Hplan as [Hmk Hms].
  unfold resolveKaminoEarnTarget in Ht. apply bind_Ok in Ht as (target & Htarget & Ht). cbn [mbind result_bind] in Ht.
  assert (et_target earnTarget = target) as <- by (destruct cluster; injection Ht as <-; done).
  unfold createEarnInitObligationPolicyCreationPayload in Hset. apply bind_Ok in Hset as (init & Hinit & [= <-]).
  unfold createEarnKaminoInitObligationInstructionConstraint in Hinit. cbv zeta in Hinit. rewrite Hmk in Hinit.
  apply bind_Ok in Hinit as (obligations & Ho & Hinit). apply bind_Ok in Hinit as (metadata & Hmeta & [= <-]).
  exists (et_target earnTarget), obligations. eexists _, _, _, _. split; [done|]. split; [by apply mapR_Ok_Forall2|].
  split; [unfold kaminoInitObligationConstraint; rewrite Hmeta; reflexivity|]. split; [reflexivity|]. split; [reflexivity|]. cbn [kaminoConstraints].
  intros ix. unfold allows, createEarnKaminoInstructionConstraint, kaminoWithdrawConstraint, kaminoDepositConstraint, pubkeyConstraint.
  cbn [ic_program ic_accounts ic_data forallb app]. rewrite Hmk, Hms, !meets_unique.
  change 5%nat with (Z.to_nat 5). change 2%nat with (Z.to_nat 2). rewrite <- !meets_pubkey. unfold pubkeyAccountConstraint, clientSliceEquals, dataSliceEquals, discriminatorConstraint.
  cbn [forallb]. unfold dataSliceEquals. split; [reflexivity|]. split; btauto.
Qed.

(** ** Instructions within the policy *)
Lemma target_discriminators cluster input target : resolveKaminoEarnTarget cluster input = Ok target ->
  length (depositDiscriminator (et_target target)) = 8%nat /\ length (withdrawDiscriminator (et_target target)) = 8%nat.
Proof.
  unfold resolveKaminoEarnTarget. intros H. apply bind_Ok in H as (d & Hd & H).
  assert (length (depositDiscriminator d) = 8%nat /\ length (withdrawDiscriminator d) = 8%nat) as Hl.
  { unfold getKaminoUsdcEarnTargetForCluster in Hd. apply bind_Ok in Hd as (m & _ & Hd). by destruct cluster; injection Hd as <-. }
  apply bind_Ok in H as (resolved & Hr & H). assert (et_target target = et_target resolved) as -> by (destruct cluster; by injection H as <-).
  destruct input as [t|]; [|by injection Hr as <-]. apply bind_Ok in Hr as (program & _ & [= <-]). exact Hl.
Qed.

Lemma encoded_meets discriminator amount data : length discriminator = 8%nat -> encodeU64InstructionData discriminator amount = Ok data ->
  data_meets data (clientSliceEquals discriminator) = true.
Proof.
  intros Hl. unfold encodeU64InstructionData. destruct (_ || _); [done|]. intros H.
  assert (data = take 8 (discriminator ++ replicate 8 0) ++ le_bytes 8 amount) as -> by congruence. unfold data_meets, clientSliceEquals, sliceAt. cbn [dc_value dc_offset dc_operator].
  assert (Ht : take 8 (discriminator ++ replicate 8 0) = discriminator) by (rewrite <- Hl; apply take_app_length).
  rewrite Ht, drop_0, take_app_length, Nat.eqb_refl. by apply bool_decide_eq_true_2.
Qed.

Lemma among_at ix index ks meta : keys ix !! index = Some meta -> meta_pubkey meta ∈ ks -> among ix index ks = true.
Proof. unfold among. intros -> H. by apply bool_decide_eq_true_2. Qed.

Lemma withdrawal_within target universe vault ix : programId ix = lendProgramId (et_target target) -> among ix 0 [vault] = true ->
  among ix 2 (un_kaminoMarkets universe) = true -> data_meets (data ix) (clientSliceEquals (withdrawDiscriminator (et_target target))) = true ->
  allows (createEarnKaminoInstructionConstraint 2 (withdrawDiscriminator (et_target target)) false None None target universe vault) ix = true.
Proof.
  intros Hp H0 H2 Hd. unfold allows, createEarnKaminoInstructionConstraint. cbn [ic_program ic_accounts ic_data forallb app]. rewrite !meets_pubkey.
  change (Z.to_nat 0) with 0%nat. change (Z.to_nat 2) with 2%nat. rewrite H0, H2, Hd, Hp. unfold key_equals. by rewrite bool_decide_eq_true_2.
Qed.

Lemma deposit_within target universe vault ix : programId ix = lendProgramId (et_target target) -> among ix 0 [vault] = true ->
  among ix 2 (un_kaminoMarkets universe) = true -> among ix 5 (un_kaminoLiquidityMints universe) = true ->
  data_meets (data ix) (clientSliceEquals (depositDiscriminator (et_target target))) = true ->
  allows (createEarnKaminoInstructionConstraint 2 (depositDiscriminator (et_target target)) true None (Some 5) target universe vault) ix = true.
Proof.
  intros Hp H0 H2 H5 Hd. unfold allows, createEarnKaminoInstructionConstraint. cbn [ic_program ic_accounts ic_data forallb app from_option id]. rewrite !meets_pubkey.
  change (Z.to_nat 0) with 0%nat. change (Z.to_nat 2) with 2%nat. change (Z.to_nat 5) with 5%nat. rewrite H0, H2, H5, Hd, Hp. unfold key_equals. by rewrite bool_decide_eq_true_2.
Qed.

(** The instructions the client builds are within the policy it installs: for a target in the universe and accounts read from its reserve, a local deposit or
    withdrawal of an obligation, whatever the amount, is let through by the constraint of its kind. *)
Theorem local_instructions_within (cluster : LoyalCluster) (input : option SmartAccountEarnUsdcReserveTargetInput) (target : EarnTarget) (universe : EarnPolicyUniverse)
    (account : AccountInfo) (accounts : KaminoReserveTokenAccounts) (amount : Z) (obligation vault vaultUsdcAta vaultCollateralAta tokenProgram : pubkey)
    : resolveKaminoEarnTarget cluster input = Ok target ->
  validateKaminoEarnReserveAccount account (et_target target) tokenProgram = Ok accounts ->
  market (et_target target) ∈ un_kaminoMarkets universe -> liquidityMint (et_target target) ∈ un_kaminoLiquidityMints universe ->
  exists withdrawal deposit,
    py_instructionsConstraints (createEarnProgramInteractionPolicyCreationPayload None target universe vault) = [withdrawal; deposit] /\
    (forall ix, createLocalKaminoWithdrawInstruction amount (Some obligation) (Some accounts) target vault vaultUsdcAta vaultCollateralAta tokenProgram = Ok ix ->
       allows withdrawal ix = true) /\
    (forall ix, createLocalKaminoDepositInstruction amount (Some obligation) (Some accounts) target vault vaultUsdcAta vaultCollateralAta tokenProgram = Ok ix ->
       allows deposit ix = true).
Proof.
  intros Ht Hv Hmk Hmint. destruct (target_discriminators _ _ _ Ht) as [Ld Lw].
  assert (Hrm : reserveLiquidityMint accounts = liquidityMint (et_target target)).
  { unfold validateKaminoEarnReserveAccount in Hv. destruct (negb _); [done|]. apply bind_Ok in Hv as (ra & _ & Hv). apply bind_Ok in Hv as (? & _ & Hv).
    apply bind_Ok in Hv as (? & E & Hv). apply bind_Ok in Hv as (? & _ & [= <-]). unfold expectAccount, key_equals in E.
    by destruct (bool_decide_reflect (reserveLiquidityMint ra = liquidityMint (et_target target))). }
  eexists _, _. split; [reflexivity|]. split; intros ix H.
  - unfold createLocalKaminoWithdrawInstruction in H. apply bind_Ok in H as (authority & _ & H). apply bind_Ok in H as (farms & _ & H).
    apply bind_Ok in H as (bytes & Hb & [= <-]). apply withdrawal_within; [done| | |by eapply encoded_meets].
    + eapply among_at; [reflexivity|set_solver].
    + by eapply among_at; [reflexivity|].
  - unfold createLocalKaminoDepositInstruction in H. apply bind_Ok in H as (authority & _ & H). apply bind_Ok in H as (farms & _ & H).
    apply bind_Ok in H as (bytes & Hb & [= <-]). apply deposit_within; [done| | | |by eapply encoded_meets].
    + eapply among_at; [reflexivity|set_solver].
    + by eapply among_at; [reflexivity|].
    + eapply among_at; [reflexivity|]. cbn. by rewrite Hrm.
Qed.
End Meets.

(** ** Choosing the policy *)
Context {PL : PublicKeyLaws PK}.
Notation normalize := (normalizeComparableGeneratedValue localeCompare).

(** Values that print completely *)
Fixpoint printable (v : gvalue) : bool :=
  match v with
  | GUndefined | GNonFinite _ => false
  | GArray l => forallb printable l
  | GObject fields => forallb (fun f => printable f.2) fields
  | _ => true
  end.

Lemma printable_strict v : printable v = true -> strict (normalize v) = true.
Proof.
  revert v. apply (gvalue_nested_ind (fun v => printable v = true -> strict (normalize v) = true)).
  - intros []; done.
  - intros l IH H. cbn in *. apply forallb_Forall_eq in H. apply forallb_Forall_eq, Forall_map. eapply Forall_impl; [exact (proj2 (Forall_and _ _) (conj IH H))|].
    intros x [Hx Hp]. by apply Hx.
  - intros fields IH H. cbn in *. apply forallb_Forall_eq in H. apply forallb_Forall_eq. rewrite sortStable_perm. apply Forall_map.
    eapply Forall_impl; [exact (proj2 (Forall_and _ _) (conj IH H))|]. intros x [Hx Hp]. by apply Hx.
Qed.

Lemma equal_normal v w : printable v = true -> printable w = true -> generatedValuesEqual localeCompare v w = true <-> normalize v = normalize w.
Proof.
  intros Hv Hw. unfold generatedValuesEqual. rewrite bool_decide_eq_true. split; [|by intros ->]. apply stringify_strict; by apply printable_strict.
Qed.

Lemma hex_text_inj a b : Forall is_byte a -> Forall is_byte b -> hex_text a = hex_text b -> a = b.
Proof.
  intros Ha Hb H. destruct a as [|x a], b as [|y b]; [done|exfalso|exfalso|].
  - apply (f_equal chars) in H. unfold hex_text in H. rewrite !chars_unchars in H. discriminate H.
  - apply (f_equal chars) in H. unfold hex_text in H. rewrite !chars_unchars in H. discriminate H.
  - enough (Some (x :: a) = Some (y :: b)) by congruence. by rewrite <- !hex_bytes_text, H.
Qed.

(** Constraints whose slices are bytes *)
Definition data_bytes (d : DataConstraint) : Prop := match dc_value d with VU8Slice bs => Forall is_byte bs | _ => True end.
Definition kind_bytes (k : AccountKind pubkey) : Prop := match k with KAccountData ds => Forall data_bytes ds | KPubkey _ => True end.
Definition constraint_bytes (c : InstructionConstraint pubkey) : Prop := Forall (fun a => kind_bytes (ac_kind a)) (ic_accounts c) /\ Forall data_bytes (ic_data c).

Lemma map_inj_on {A C} (f : A -> C) (Q : A -> Prop) (l l' : list A) : (forall x y, Q x -> Q y -> f x = f y -> x = y) -> Forall Q l -> Forall Q l' ->
  map f l = map f l' -> l = l'.
Proof.
  intros Hf Hl. revert l'. induction Hl as [|x l Hx _ IH]; intros [|y l'] Hl' H; try discriminate H; [done|]. apply Forall_cons in Hl' as [Hy Hl'].
  pose proof (f_equal head H) as H0. pose proof (f_equal tail H) as H1. cbn in H0, H1. f_equal; [apply Hf; congruence|by apply IH].
Qed.

(** The normal form of an object with known keys *)
Local Ltac fields H := apply normal_object in H; [|reflexivity|apply (bool_decide_unpack _); reflexivity]; cbn [map snd] in H.

Lemma operatorTag_inj a b : operatorTag a = operatorTag b -> a = b.
Proof. by destruct a, b. Qed.

Lemma normal_value kind kind' v v' : normalize (GObject [("__kind", GString kind); ("fields", GArray [v])]%string) =
  normalize (GObject [("__kind", GString kind'); ("fields", GArray [v'])]%string) -> kind = kind' /\ normalize v = normalize v'.
Proof. intros H. fields H. injection H as H1 H2. by split. Qed.

(** The n-th field *)
Definition nthField (n : nat) (l : list json) : json := nth n l JNull.

Lemma normal_data d d' : data_bytes d -> data_bytes d' -> normalize (genData d) = normalize (genData d') -> d = d'.
Proof.
  destruct d as [o v op], d' as [o' v' op']. unfold data_bytes, genData. cbn [dc_offset dc_value dc_operator]. intros Hb Hb' H. fields H.
  pose proof (f_equal (nthField 0) H) as Ho. pose proof (f_equal (nthField 1) H) as Hv. pose proof (f_equal (nthField 2) H) as Hop. clear H.
  unfold nthField in Ho, Hv, Hop. cbn [nth] in Ho, Hv, Hop. injection Ho as Ho%bigint_toString_inj. injection Hop as Hop%operatorTag_inj. subst o' op'. f_equal.
  destruct v, v'; apply normal_value in Hv as [Hk Hv]; try discriminate Hk; injection Hv as Hv; f_equal; try done;
    try (by apply bigint_toString_inj); by apply hex_text_inj.
Qed.

Lemma normal_keys ks ks' : map normalize (map GKey ks) = map normalize (map GKey ks') -> ks = ks'.
Proof. rewrite !map_map. intros H. apply (map_inj_on _ (fun _ => True) _ _) in H; [done| |by apply Forall_true..]. intros x y _ _ [= E]. by apply toBase58_inj. Qed.

Lemma normal_datas ds ds' : Forall data_bytes ds -> Forall data_bytes ds' -> map normalize (map genData ds) = map normalize (map genData ds') -> ds = ds'.
Proof. intros H H'. rewrite !map_map. apply (map_inj_on _ data_bytes); [|done..]. intros x y. apply normal_data. Qed.

Lemma normal_account a a' : kind_bytes (ac_kind a) -> kind_bytes (ac_kind a') -> normalize (genAccount a) = normalize (genAccount a') -> a = a'.
Proof.
  destruct a as [n k o], a' as [n' k' o']. unfold genAccount. cbn [ac_index ac_kind ac_owner]. intros Hb Hb' H. fields H.
  pose proof (f_equal (nthField 0) H) as Hn. pose proof (f_equal (nthField 1) H) as Hk. pose proof (f_equal (nthField 2) H) as Ho. clear H.
  unfold nthField in Hn, Hk, Ho. cbn [nth] in Hn, Hk, Ho. injection Hn as <-. f_equal.
  - destruct k, k'; apply normal_value in Hk as [Ht Hk]; try discriminate Ht; injection Hk as Hk; f_equal; [by apply normal_keys|by apply normal_datas].
  - destruct o, o'; cbn in Ho; try discriminate Ho; [|done]. injection Ho as Ho. f_equal. by apply toBase58_inj.
Qed.

Lemma normal_constraint c c' : constraint_bytes c -> constraint_bytes c' -> normalize (genConstraint c) = normalize (genConstraint c') -> c = c'.
Proof.
  destruct c as [p as_ ds], c' as [p' as' ds']. unfold constraint_bytes, genConstraint. cbn [ic_program ic_accounts ic_data]. intros [Ha Hd] [Ha' Hd'] H. fields H.
  pose proof (f_equal (nthField 0) H) as Hp. pose proof (f_equal (nthField 1) H) as Hac. pose proof (f_equal (nthField 2) H) as Hda. clear H.
  unfold nthField in Hp, Hac, Hda. cbn [nth] in Hp, Hac, Hda. injection Hp as Hp%toBase58_inj. injection Hac as Hac. injection Hda as Hda. f_equal; [done| |by apply normal_datas].
  rewrite !map_map in Hac. apply (map_inj_on _ (fun a => kind_bytes (ac_kind a))) in Hac; [done| |done..]. intros x y. apply normal_account.
Qed.

Lemma printable_map {A} (f : A -> gvalue) l : (forall x, printable (f x) = true) -> forallb printable (map f l) = true.
Proof. intros H. apply forallb_Forall_eq, Forall_map, Forall_forall. intros x _. apply H. Qed.

Lemma printable_state n cs : printable (genState n cs) = true.
Proof.
  assert (Hd : forall d, printable (genData d) = true) by (intros [o [] op]; done).
  assert (Ha : forall a, printable (genAccount a) = true).
  { intros [i [ks|ds] [o|]]; cbn; rewrite ?printable_map; done. }
  assert (Hc : forall c, printable (genConstraint c) = true) by (intros [p ? ?]; cbn; by rewrite !printable_map).
  cbn. by rewrite printable_map.
Qed.

(** The comparison of states is exact. *)
Lemma state_exact n cs n' cs' : Forall constraint_bytes cs -> Forall constraint_bytes cs' ->
  generatedValuesEqual localeCompare (genState n cs) (genState n' cs') = true <-> n = n' /\ cs = cs'.
Proof.
  intros Hb Hb'. rewrite equal_normal by apply printable_state. split; [|by intros [-> ->]]. intros H. unfold genState in H.
  apply normal_value in H as [_ H]. fields H. pose proof (f_equal (nthField 0) H) as Hn. pose proof (f_equal (nthField 1) H) as Hc. clear H.
  unfold nthField in Hn, Hc. cbn [nth] in Hn, Hc. injection Hn as <-. injection Hc as Hc. split; [done|]. rewrite !map_map in Hc.
  apply (map_inj_on _ constraint_bytes) in Hc; [done| |done..]. intros x y. apply normal_constraint.
Qed.

Definition better (left right : RawPolicyEntry * EarnRoutePolicyGeneration) : Prop :=
  (isCompatible left.2 = true /\ isCompatible right.2 = false) \/ (left.2 = right.2 /\ rw_seed right.1 < rw_seed left.1).

Lemma compare_better a b : compareEarnPolicies a b < 0 <-> better a b.
Proof.
  destruct a as [e g], b as [e' g']. unfold compareEarnPolicies, better. cbn [fst snd].
  destruct g, g'; cbn; destruct (Z.ltb_spec (rw_seed e') (rw_seed e)); naive_solver lia.
Qed.

(** The states of the two generations of the Earn policy *)
Definition earnState (target : EarnTarget) (cluster : LoyalCluster) (vault : pubkey) (generation : EarnRoutePolicyGeneration) : list (InstructionConstraint pubkey) :=
  py_instructionsConstraints (createEarnProgramInteractionPolicyCreationPayload
    (match generation with CompatibleGeneration => None | LegacyTokenProgram => Some splTokenProgram end) target (resolveEarnPolicyUniverse cluster) vault).

Definition generationIn (target : EarnTarget) (cluster : LoyalCluster) (vault : pubkey) : RawPolicyEntry -> option EarnRoutePolicyGeneration :=
  generationOf (genState EARN_VAULT_INDEX (earnState target cluster vault CompatibleGeneration)) (genState EARN_VAULT_INDEX (earnState target cluster vault LegacyTokenProgram)).

Lemma earn_state_bytes target cluster vault generation : Forall is_byte (depositDiscriminator (et_target target)) ->
  Forall is_byte (withdrawDiscriminator (et_target target)) -> Forall constraint_bytes (earnState target cluster vault generation).
Proof.
  intros Hd Hw. unfold earnState, createEarnProgramInteractionPolicyCreationPayload, createEarnKaminoInstructionConstraint. cbn.
  repeat constructor; cbn; try done; unfold data_bytes; cbn; done.
Qed.

(** What generation a policy with a known state has *)
Lemma generation_exact target cluster vault e n cs g : Forall is_byte (depositDiscriminator (et_target target)) ->
  Forall is_byte (withdrawDiscriminator (et_target target)) -> rw_state e = genState n cs -> Forall constraint_bytes cs ->
  generationIn target cluster vault e = Some g -> n = EARN_VAULT_INDEX /\ cs = earnState target cluster vault g.
Proof.
  intros Hd Hw He Hb H. unfold generationIn, generationOf in H. rewrite He in H.
  destruct (generatedValuesEqual localeCompare (genState n cs) (genState _ (earnState _ _ _ CompatibleGeneration))) eqn:E1.
  - injection H as <-. by apply state_exact in E1; [|done|by apply earn_state_bytes].
  - destruct (generatedValuesEqual localeCompare (genState n cs) (genState _ (earnState _ _ _ LegacyTokenProgram))) eqn:E2; [|done].
    injection H as <-. by apply state_exact in E2; [|done|by apply earn_state_bytes].
Qed.

Lemma target_bytes cluster target : resolveKaminoEarnTarget cluster None = Ok target ->
  Forall is_byte (depositDiscriminator (et_target target)) /\ Forall is_byte (withdrawDiscriminator (et_target target)).
Proof.
  unfold resolveKaminoEarnTarget. intros H. apply bind_Ok in H as (d & Hd & H). cbn [mbind result_bind] in H.
  unfold getKaminoUsdcEarnTargetForCluster in Hd. apply bind_Ok in Hd as (m & _ & Hd).
  destruct cluster; injection Hd as <-; injection H as <-; cbn; split; repeat constructor; unfold is_byte; lia.
Qed.

(** The client finds the right Earn policy among those of the account: none only when no policy has the state of either generation; otherwise one that has, with exactly
    the constraints the client would install for its generation, and no other is better: a current one is preferred to a legacy one, and a greater seed to a smaller. *)
Theorem earn_policy_chosen (cluster : LoyalCluster) (program settingsPda : pubkey) (policies : list RawPolicyEntry) (r : option EarnPolicyCompatibility) :
  fetchEarnPolicyCompatibility cluster program settingsPda policies = Ok r ->
  exists vault target, getSmartAccountPda settingsPda EARN_VAULT_INDEX program = Ok vault /\ resolveKaminoEarnTarget cluster None = Ok target /\
    match r with
    | None => Forall (fun e => generationIn target cluster vault e = None) policies
    | Some c => exists e, e ∈ policies /\ generationIn target cluster vault e = Some (pc_generation c) /\
        pc_account c = toBase58 (rw_address e) /\ pc_seed c = bigint_toString (rw_seed e) /\
        (forall n cs, rw_state e = genState n cs -> Forall constraint_bytes cs ->
           n = EARN_VAULT_INDEX /\ cs = earnState target cluster vault (pc_generation c)) /\
        forall e' g', e' ∈ policies -> generationIn target cluster vault e' = Some g' -> ~ better (e', g') (e, pc_generation c)
    end.
Proof.
  unfold fetchEarnPolicyCompatibility. intros H. apply bind_Ok in H as (vault & Hv & H). apply bind_Ok in H as (target & Ht & H). cbv zeta in H.
  exists vault, target. split; [done|]. split; [done|]. destruct (target_bytes _ _ Ht) as [Hd Hw].
  set (earnPolicies := flat_map _ policies) in H.
  assert (Hin : forall e g, (e, g) ∈ earnPolicies <-> e ∈ policies /\ generationIn target cluster vault e = Some g).
  { intros e g. unfold earnPolicies. rewrite list_elem_of_In, in_flat_map. split.
    - intros (x & Hx & Hg). change (generationOf _ _ x) with (generationIn target cluster vault x) in Hg.
      destruct (generationIn target cluster vault x) as [gx|] eqn:E; [|done]. destruct Hg as [[= <- <-]|[]]. split; [by apply list_elem_of_In|done].
    - intros [He Hg]. exists e. split; [by apply list_elem_of_In|]. change (generationOf _ _ e) with (generationIn target cluster vault e). rewrite Hg. by left. }
  destruct (head (sortStable compareEarnPolicies earnPolicies)) as [[e g]|] eqn:Eh; cbn [fmap option_fmap option_map] in H; injection H as <-.
  - apply sort_head in Eh as [Hmem Hbest].
    + apply Hin in Hmem as [He Hg]. exists e. do 4 (split; [done|]). split.
      * intros n cs Hs Hb. by eapply generation_exact.
      * intros e' g' He' Hg' Hbet. apply (Hbest (e', g')); [by apply Hin|]. by apply compare_better.
    + intros a b. rewrite !compare_better. unfold better. destruct a as [? []], b as [? []]; cbn; naive_solver lia.
    + intros a b c. rewrite !compare_better. unfold better. destruct a as [? []], b as [? []], c as [? []]; cbn; naive_solver lia.
  - apply Forall_forall. intros e He. destruct (generationIn target cluster vault e) as [g|] eqn:E; [|done]. exfalso.
    assert ((e, g) ∈ sortStable compareEarnPolicies earnPolicies) as Hs by (rewrite sortStable_perm; by apply Hin).
    destruct (sortStable compareEarnPolicies earnPolicies); [set_solver|done].
Qed.
End Client.

(** The program that runs instructions under a policy: it admits at least the instructions that meet the constraint they are run against. *)
Class PolicyProgram {PK : PublicKeys} := {
  admits : (pubkey -> AccountInfo) -> InstructionConstraint pubkey -> instruction -> bool;
  admits_meeting world c ix : allows world c ix = true -> admits world c ix = true;
}.

Module ClientPoliciesWitness.
(** A program that admits nothing else *)
#[export] Instance strictProgram {PK : PublicKeys} : PolicyProgram := {| admits := allows; admits_meeting world c ix H := H |}.
Import DemoKeys KaminoWitness HoldingsWitness.

Definition codeUnits (a b : string) : Z := match String.compare a b with Lt => -1 | Eq => 0 | Gt => 1 end.
Definition noTarget : EarnTarget := {|
  et_target := {| depositDiscriminator := []; initObligationDiscriminator := []; liquidityMint := zero_key; lendProgramId := zero_key; market := zero_key;
                  reserve := zero_key; withdrawDiscriminator := [] |};
  et_liquidityTokenProgram := zero_key; et_reserveCollateralMint := None; et_reserveLiquiditySupply := None; et_supplyApyBps := None |}.
Definition noPayload : PolicyCreationPayload := {| py_accountIndex := 0; py_instructionsConstraints := []; py_spendingLimits := [] |}.
Definition payloads : result EarnPolicyPayloads := createEarnYieldRoutingPolicyPayloads MainnetBeta demoProgram demoSettings (key_of 22) (key_of 23) 7.
Definition world (k : key) : AccountInfo := info k [].

(** Devnet's target, its reserve and its universe *)
Definition devTarget : EarnTarget := SdkWitness.value noTarget (resolveKaminoEarnTarget Devnet None).
Definition devUniverse : EarnPolicyUniverse := resolveEarnPolicyUniverse Devnet.
Definition devAccounts : result KaminoReserveTokenAccounts := validateKaminoEarnReserveAccount reserveInfo (et_target devTarget) usdcProgram.

(** A policy of each generation, the current one with the smaller seed, and one of another kind *)
Definition policyState (generation : EarnRoutePolicyGeneration) : gvalue := genState EARN_VAULT_INDEX (earnState devTarget Devnet demoVault generation).
Definition demoPolicies : list RawPolicyEntry := [
  {| rw_address := key_of 31; rw_seed := 9; rw_state := policyState LegacyTokenProgram |};
  {| rw_address := key_of 32; rw_seed := 4; rw_state := policyState CompatibleGeneration |};
  {| rw_address := key_of 33; rw_seed := 12; rw_state := GNull |} ].

Lemma client_policies_scope_witness : exists p withdrawal deposit, payloads = Ok p /\ py_instructionsConstraints (ep_route p) = [withdrawal; deposit].
Proof.
  assert (H : is_ok payloads = true) by (vm_compute; reflexivity). destruct payloads as [p|] eqn:E; [|discriminate H].
  destruct (client_policies_scope (PK := demo_keys) world MainnetBeta demoProgram demoSettings (key_of 22) (key_of 23) 7 p E)
    as (target & obligations & sdkInit & withdrawal & deposit & init & _ & _ & _ & Hr & _).
  exists p, withdrawal, deposit. exact (conj eq_refl Hr).
Defined.

Lemma local_instructions_within_witness : exists accounts withdrawal deposit, devAccounts = Ok accounts /\
  py_instructionsConstraints (createEarnProgramInteractionPolicyCreationPayload None devTarget devUniverse demoVault) = [withdrawal; deposit] /\
  forall ix, createLocalKaminoDepositInstruction 250 (Some demoObligation) (Some accounts) devTarget demoVault demoAta (key_of 40) usdcProgram = Ok ix ->
    allows world deposit ix = true.
Proof.
  assert (H : is_ok devAccounts = true) by (vm_compute; reflexivity). destruct devAccounts as [accounts|] eqn:E; [|discriminate H].
  destruct (local_instructions_within (PK := demo_keys) world Devnet None devTarget devUniverse reserveInfo accounts 250 demoObligation demoVault demoAta (key_of 40) usdcProgram)
    as (withdrawal & deposit & Hp & _ & Hd).
  - apply SdkWitness.value_ok. vm_compute. reflexivity.
  - exact E.
  - apply (bool_decide_eq_true_1 (_ ∈ _)). vm_compute. reflexivity.
  - apply (bool_decide_eq_true_1 (_ ∈ _)). vm_compute. reflexivity.
  - exists accounts, withdrawal, deposit. exact (conj eq_refl (conj Hp Hd)).
Defined.

(** Both instructions are built, and let through. *)
Example local_instructions_built :
  match devAccounts with
  | Ok accounts =>
      match createLocalKaminoDepositInstruction 250 (Some demoObligation) (Some accounts) devTarget demoVault demoAta (key_of 40) usdcProgram,
            py_instructionsConstraints (createEarnProgramInteractionPolicyCreationPayload None devTarget devUniverse demoVault) with
      | Ok ix, [withdrawal; deposit] => [allows world withdrawal ix; allows world deposit ix] | _, _ => [] end
  | Throw _ => [] end = [false; true].
Proof. vm_compute. reflexivity. Qed.

Definition chosen : option EarnPolicyCompatibility := Some {| pc_account := text (key_of 32); pc_seed := "4"; pc_generation := CompatibleGeneration |}.

Lemma earn_policy_chosen_witness : exists vault target e, getSmartAccountPda demoSettings EARN_VAULT_INDEX demoProgram = Ok vault /\ e ∈ demoPolicies /\
  generationIn codeUnits target Devnet vault e = Some CompatibleGeneration.
Proof.
  destruct (earn_policy_chosen (PK := demo_keys) codeUnits Devnet demoProgram demoSettings demoPolicies chosen)
    as (vault & target & Hv & Ht & e & He & Hg & _); [vm_compute; reflexivity|]. exists vault, target, e. exact (conj Hv (conj He Hg)).
Defined.
End ClientPoliciesWitness.
