(* ===== verification/KaminoApi.v ===== *)
(** Kamino instructions from outside (web/packages/smart-account-vaults/src/client.ts): the amounts sent to the instruction API, the reading and the
    validation of its answers, the cache of its responses, and the lookup tables it advertises.

    An answer is a JSON value whose list of instructions, when there is one, holds objects; the data of an instruction of the lending program is
    text. [Buffer.from(text, "base64")] is an argument. A response is known by a number; the clock gives milliseconds. *)
From S2P Require Import Prelude JsString JsMap Json Solana Bytes Subscriptions Squads Protocols Registry Sdk Voltr RpcFetch Pda Kamino Holdings FullExit Amounts ClientPolicies.

(** ** Amounts *)
Definition formatRawTokenAmountForApi (amountRaw : Z) (decimals : nat) : string :=
  let base := 10 ^ Z.of_nat decimals in
  let whole := Z.quot amountRaw base in
  let fraction := Z.rem amountRaw base in
  if fraction =? 0 then bigint_toString whole
  else bigint_toString whole +:+ "." +:+ unchars (strip_trailing_zeros (padStart0 decimals (chars (bigint_toString fraction)))).

(** It is the token amount as people write it. *)
Lemma api_amount amountRaw decimals : formatRawTokenAmountForApi amountRaw decimals = formatTokenAmount amountRaw (Z.of_nat decimals).
Proof.
  unfold formatRawTokenAmountForApi, formatTokenAmount. destruct (Z.eqb_spec (Z.of_nat decimals) 0) as [E|_].
  - rewrite E. change (10 ^ 0) with 1. by rewrite Z.rem_1_r, Z.quot_1_r.
  - rewrite Nat2Z.id. destruct (_ =? 0); [done|]. generalize (bigint_toString (Z.quot amountRaw (10 ^ Z.of_nat decimals))).
    intros text. induction text as [|c text IH]; [done|]. exact (f_equal (String c) IH).
Qed.

(** The amount sent is exact: its digits are a decimal numeral of the raw amount over the decimals, with no zero at the end of the fraction. *)
Lemma api_amount_exact amountRaw decimals : 0 <= amountRaw ->
  exists whole frac, numeral (formatRawTokenAmountForApi amountRaw decimals) whole frac /\ (length frac <= decimals)%nat /\ last frac <> Some "0"%char /\
    dec_value whole * 10 ^ Z.of_nat decimals + dec_value frac * 10 ^ (Z.of_nat decimals - Z.of_nat (length frac)) = amountRaw.
Proof.
  intros Ha. rewrite api_amount. destruct (formatTokenAmount_label amountRaw (Z.of_nat decimals)) as (whole & frac & Hn & Hl & Ht & Hv); [lia..|].
  exists whole, frac. split_and!; [done|lia|done..].
Qed.

(** ** Reading an answer *)
(** Signer and writable *)
Definition parseKaminoInstructionRole (role : json) : bool * bool :=
  let normalized := match role with JString text => map upper_char (chars text) | _ => [] end in
  (includesChars normalized (chars "SIGNER"%string), includesChars normalized (chars "WRITABLE"%string)).

Section KaminoApi.
Context {PK : PublicKeys} {SPL : SplToken PK} {KB : KeyBytes PK} {B : BeetUints} {TL : TokenLayouts PK}.

Section Answers.
Context (decodeBase64 : string -> list Z).

Definition notAFunction {A} : result A := Throw (Exn "TypeError" "map is not a function").

Definition kaminoAccountMeta (label : string) (account : json) : result account_meta :=
  match get "address" account with
  | JString address =>
      let '(isSigner, isWritable) := parseKaminoInstructionRole (get "role" account) in
      key ← newPublicKey address;
      Ok (Meta key isSigner isWritable)
  | _ => throwError ("Kamino " +:+ label +:+ " instruction account is missing an address.")
  end.

Definition toKaminoTransactionInstruction (entry : json) (label : string) : result instruction :=
  match get "programAddress" entry with
  | JString programAddress =>
      program ← newPublicKey programAddress;
      metas ← match get "accounts" entry with
              | JArray accounts => mapR (kaminoAccountMeta label) accounts
              | JUndefined | JNull => Ok []
              | _ => notAFunction
              end;
      match get "data" entry with
      | JString text => Ok (Instruction program metas (decodeBase64 text))
      | _ => Throw (Exn "TypeError" "The first argument must be of type string.")
      end
  | _ => throwError ("Kamino " +:+ label +:+ " instruction is missing a program address.")
  end.

Definition dataTextStartsWith (data : json) (discriminator : list Z) : bool :=
  match data with JString text => instructionDataStartsWith (decodeBase64 text) discriminator | _ => false end.

Definition isArray (v : json) : bool := match v with JArray _ => true | _ => false end.
Definition isText (text : string) (v : json) : bool := match v with JString s => String.eqb s text | _ => false end.

Definition matchesInstruction (expectedProgram : string) (discriminator : list Z) (entry : json) : bool :=
  isText expectedProgram (get "programAddress" entry) && dataTextStartsWith (get "data" entry) discriminator && isArray (get "accounts" entry).

(** The tables, each once, that read as addresses *)
Definition addLookupTable (found : list string * list pubkey) (entry : json) : list string * list pubkey :=
  match entry with
  | JString text =>
      match newPublicKey text with
      | Ok address => if member (toBase58 address) found.1 then found else (found.1 ++ [toBase58 address], found.2 ++ [address])
      | Throw _ => found
      end
  | _ => found
  end.
Definition readKaminoLookupTableAddresses (payload : json) : list pubkey :=
  let candidates := match get "lutsByAddress" payload with
                    | JArray l => l
                    | JObject fields => map (fun f => JString f.1) fields
                    | _ => []
                    end in
  (fold_left addLookupTable candidates ([], [])).2.

Record KaminoInstructionBundle := {
  kb_instruction : instruction;
  kb_instructions : list instruction;
  kb_lookupTableAddresses : list pubkey;
  kb_matchingInstructions : list instruction;
}.

Definition readKaminoInstructionBundle (payload : json) (lendProgramId : pubkey) (discriminator : list Z) (label : string) : result KaminoInstructionBundle :=
  let expectedProgram := toBase58 lendProgramId in
  entries ← match get "instructions" payload with
            | JArray l => Ok l
            | JUndefined | JNull => Ok []
            | _ => notAFunction
            end;
  match findIndex (matchesInstruction expectedProgram discriminator) entries with
  | None => throwError ("Kamino did not return a " +:+ label +:+ " instruction.")
  | Some instructionIndex =>
      matchingInstructions ← mapR (fun e => toKaminoTransactionInstruction e label) (List.filter (matchesInstruction expectedProgram discriminator) entries);
      instructions ← mapR (fun e => toKaminoTransactionInstruction e label)
                       (List.filter (fun e => isText expectedProgram (get "programAddress" e)) (take (S instructionIndex) entries));
      instruction ← toKaminoTransactionInstruction (nth instructionIndex entries JUndefined) label;
      Ok {| kb_instruction := instruction; kb_instructions := instructions; kb_lookupTableAddresses := readKaminoLookupTableAddresses payload;
            kb_matchingInstructions := matchingInstructions |}
  end.
End Answers.

(** ** Validating a withdrawal *)
Definition requireKaminoAccount (ix : instruction) (index : nat) (label : string) : result pubkey :=
  match keys ix !! index with
  | Some meta => Ok (meta_pubkey meta)
  | None => throwError ("Kamino withdraw instruction is missing " +:+ label +:+ ".")
  end.

Definition assertKaminoAccountEquals (actual expected : pubkey) (label : string) : result unit :=
  if key_equals actual expected then Ok tt else throwError ("Kamino withdraw instruction has an unexpected " +:+ label +:+ ".").

Record ValidatedWithdraw := {
  vw_executionMarket : pubkey;
  vw_executionReserve : pubkey;
  vw_usesCurrentWithdrawAccountOrder : bool;
  vw_reserveCollateralMint : pubkey;
  vw_vaultCollateralAta : pubkey;
}.

Definition validateKaminoWithdrawInstruction (ix : instruction) (lendProgramId : pubkey) (withdrawDiscriminator : list Z)
    (vaultPda vaultUsdcAta market liquidityMint liquidityTokenProgram : pubkey) (safeMarkets : list string) : result ValidatedWithdraw :=
  if negb (bufferStartsWith (data ix) withdrawDiscriminator) then throwError "Kamino withdraw instruction has an unexpected withdraw discriminator."
  else
    _ ← assertKaminoAccountEquals (programId ix) lendProgramId "program";
    vault ← requireKaminoAccount ix 0 "vault";
    _ ← assertKaminoAccountEquals vault vaultPda "vault";
    third ← requireKaminoAccount ix 2 "market";
    let current := key_equals third market in
    let at_ (a b : nat) := if current then a else b in
    actualMarket ← requireKaminoAccount ix (at_ 2 1)%nat "market";
    _ ← assertKaminoAccountEquals actualMarket market "market";
    executionMarket ← requireKaminoAccount ix (at_ 2 1)%nat "market";
    if negb (member (toBase58 executionMarket) safeMarkets) then throwError "Kamino withdraw instruction has an unsafe market."
    else
      executionReserve ← requireKaminoAccount ix (at_ 4 2)%nat "reserve";
      actualMint ← requireKaminoAccount ix (at_ 5 4)%nat "liquidity mint";
      _ ← assertKaminoAccountEquals actualMint liquidityMint "liquidity mint";
      reserveCollateralMint ← requireKaminoAccount ix (at_ 7 5)%nat "reserve collateral mint";
      vaultCollateralAta ← requireKaminoAccount ix (at_ 6 7)%nat "vault collateral account";
      actualAta ← requireKaminoAccount ix (at_ 9 8)%nat "vault USDC account";
      _ ← assertKaminoAccountEquals actualAta vaultUsdcAta "vault USDC account";
      actualProgram ← requireKaminoAccount ix (at_ 12 10)%nat "liquidity token program";
      _ ← assertKaminoAccountEquals actualProgram liquidityTokenProgram "liquidity token program";
      _ ← (if current then
             collateralProgram ← requireKaminoAccount ix 11 "collateral token program";
             assertKaminoAccountEquals collateralProgram splTokenProgram "collateral token program"
           else Ok tt);
      Ok {| vw_executionMarket := executionMarket; vw_executionReserve := executionReserve; vw_usesCurrentWithdrawAccountOrder := current;
            vw_reserveCollateralMint := reserveCollateralMint; vw_vaultCollateralAta := vaultCollateralAta |}.

(** The collateral mint and account of a deposit, when an account is the vault's token account for another one of the instruction's keys *)
Definition isOtherWritable (vaultPda vaultUsdcAta : pubkey) (meta : account_meta) : bool :=
  isWritable meta && negb (isSigner meta) && negb (key_equals (meta_pubkey meta) vaultPda) && negb (key_equals (meta_pubkey meta) vaultUsdcAta).

Fixpoint inferFrom (writable : list pubkey) (vaultPda : pubkey) (metas : list account_meta) : result (option (pubkey * pubkey)) :=
  match metas with
  | [] => Ok None
  | meta :: metas =>
      derivedAta ← associatedTokenAddress (meta_pubkey meta) vaultPda true splTokenProgram;
      match List.find (fun candidate => key_equals candidate derivedAta) writable with
      | Some matching => Ok (Some (meta_pubkey meta, matching))
      | None => inferFrom writable vaultPda metas
      end
  end.
Definition inferKaminoDepositCollateralAccounts (ix : instruction) (vaultPda vaultUsdcAta : pubkey) : result (option (pubkey * pubkey)) :=
  inferFrom (map meta_pubkey (List.filter (isOtherWritable vaultPda vaultUsdcAta) (keys ix))) vaultPda (keys ix).

(** ** What a validated withdrawal is *)
Definition keyAt (ix : instruction) (index : nat) (key : pubkey) : Prop := meta_pubkey <$> keys ix !! index = Some key.

Lemma required_at ix index label key : requireKaminoAccount ix index label = Ok key <-> keyAt ix index key.
Proof. unfold requireKaminoAccount, keyAt. destruct (keys ix !! index); cbn; naive_solver. Qed.
Lemma asserted actual expected label u : assertKaminoAccountEquals actual expected label = Ok u -> actual = expected.
Proof. unfold assertKaminoAccountEquals, key_equals. by case_bool_decide. Qed.

(** Both orders of accounts *)
Record withdrawal_layout (ix : instruction) (r : ValidatedWithdraw) (lend : pubkey) (discriminator : list Z) (vault vaultUsdcAta market mint tokenProgram : pubkey) : Prop := {
  wl_program : programId ix = lend;
  wl_discriminator : bufferStartsWith (data ix) discriminator = true;
  wl_executionMarket : vw_executionMarket r = market;
  wl_vault : keyAt ix 0 vault;
  wl_market : keyAt ix (if vw_usesCurrentWithdrawAccountOrder r then 2 else 1)%nat market;
  wl_reserve : keyAt ix (if vw_usesCurrentWithdrawAccountOrder r then 4 else 2)%nat (vw_executionReserve r);
  wl_mint : keyAt ix (if vw_usesCurrentWithdrawAccountOrder r then 5 else 4)%nat mint;
  wl_collateralMint : keyAt ix (if vw_usesCurrentWithdrawAccountOrder r then 7 else 5)%nat (vw_reserveCollateralMint r);
  wl_collateralAta : keyAt ix (if vw_usesCurrentWithdrawAccountOrder r then 6 else 7)%nat (vw_vaultCollateralAta r);
  wl_ata : keyAt ix (if vw_usesCurrentWithdrawAccountOrder r then 9 else 8)%nat vaultUsdcAta;
  wl_tokenProgram : keyAt ix (if vw_usesCurrentWithdrawAccountOrder r then 12 else 10)%nat tokenProgram;
  wl_collateralProgram : vw_usesCurrentWithdrawAccountOrder r = true -> keyAt ix 11 splTokenProgram;
  wl_order : vw_usesCurrentWithdrawAccountOrder r = false -> vw_executionReserve r <> market;
}.

Lemma validated_layout ix lend discriminator vault ata market mint program safe r :
  validateKaminoWithdrawInstruction ix lend discriminator vault ata market mint program safe = Ok r ->
  toBase58 market ∈ safe /\ withdrawal_layout ix r lend discriminator vault ata market mint program.
Proof.
  unfold validateKaminoWithdrawInstruction. destruct (bufferStartsWith (data ix) discriminator) eqn:Hdisc; [|done]. cbn [negb]. intros H.
  apply bind_Ok in H as (? & Hprog%asserted & H). apply bind_Ok in H as (v & Hv%required_at & H). apply bind_Ok in H as (? & Ev%asserted & H).
  apply bind_Ok in H as (third & Ht%required_at & H). cbv zeta in H. set (current := key_equals third market) in *.
  apply bind_Ok in H as (am & Ham%required_at & H). apply bind_Ok in H as (? & Em%asserted & H). apply bind_Ok in H as (em & Hem%required_at & H).
  destruct (member (toBase58 em) safe) eqn:Es; [|done]. cbn [negb] in H. apply bind_Ok in H as (er & Her%required_at & H).
  apply bind_Ok in H as (mi & Hmi%required_at & H). apply bind_Ok in H as (? & Emi%asserted & H). apply bind_Ok in H as (cm & Hcm%required_at & H).
  apply bind_Ok in H as (ca & Hca%required_at & H). apply bind_Ok in H as (at_ & Hat%required_at & H). apply bind_Ok in H as (? & Eat%asserted & H).
  apply bind_Ok in H as (tp & Htp%required_at & H). apply bind_Ok in H as (? & Etp%asserted & H). apply bind_Ok in H as (? & Hcp & [= <-]).
  assert (em = am) as -> by (unfold keyAt in *; congruence). subst v am mi at_ tp. split; [by apply member_spec|].
  constructor; cbn [vw_usesCurrentWithdrawAccountOrder vw_executionMarket vw_executionReserve vw_reserveCollateralMint vw_vaultCollateralAta]; try (by destruct current).
  - intros E. rewrite E in Hcp. apply bind_Ok in Hcp as (cp & Hcp%required_at & Ecp%asserted). by subst cp.
  - intros E Heq. rewrite E in Her. cbn in Her. assert (third = er) as -> by (unfold keyAt in *; congruence). subst er.
    unfold current, key_equals in E. by rewrite bool_decide_eq_true_2 in E.
Qed.

Context {Laws : PublicKeyLaws PK}.

Lemma among_key ix index ks key : keyAt ix index key -> key ∈ ks -> among ix index ks = true.
Proof. unfold keyAt, among. destruct (keys ix !! index); cbn; [|done]. intros [= <-]. by apply bool_decide_eq_true_2. Qed.

Lemma starts_meets bytes discriminator : bufferStartsWith bytes discriminator = true -> data_meets bytes (clientSliceEquals discriminator) = true.
Proof.
  intros H%startsWith_app. unfold data_meets, clientSliceEquals, sliceAt. cbn [dc_value dc_offset dc_operator]. change (Z.to_nat 0) with 0%nat.
  rewrite drop_0, H, Nat.eqb_refl. by apply bool_decide_eq_true_2.
Qed.

(** C29. A withdrawal of the instruction API is used only when it is the withdrawal asked for: an instruction of the lending program that starts with the withdrawal's
    discriminator, from the vault, in the market asked for, which is a safe one, of the mint asked for, into the vault's own token account, with the mint's token program, in one of
    the two orders of accounts; and in the current order the policy program admits it under the withdrawal constraint of the policy the client installs. *)
Theorem kamino_withdrawal_vetted {PP : PolicyProgram} (world : pubkey -> AccountInfo) (ix : instruction) (target : EarnTarget) (universe : EarnPolicyUniverse)
    (vault vaultUsdcAta tokenProgram : pubkey) (r : ValidatedWithdraw) :
  validateKaminoWithdrawInstruction ix (lendProgramId (et_target target)) (withdrawDiscriminator (et_target target)) vault vaultUsdcAta (market (et_target target))
    (liquidityMint (et_target target)) tokenProgram (map toBase58 (un_kaminoMarkets universe)) = Ok r ->
  withdrawal_layout ix r (lendProgramId (et_target target)) (withdrawDiscriminator (et_target target)) vault vaultUsdcAta (market (et_target target))
    (liquidityMint (et_target target)) tokenProgram /\
  market (et_target target) ∈ un_kaminoMarkets universe /\
  (vw_usesCurrentWithdrawAccountOrder r = true ->
   admits world (createEarnKaminoInstructionConstraint 2 (withdrawDiscriminator (et_target target)) false None None target universe vault) ix = true).
Proof.
  intros H. apply validated_layout in H as (Hs & Hl).
  assert (Hm : market (et_target target) ∈ un_kaminoMarkets universe).
  { apply list_elem_of_fmap in Hs as (m & Hm & Hin). apply toBase58_inj in Hm as ->. done. }
  split; [done|]. split; [done|]. intros Hc. destruct Hl as [Hp Hd _ H0 H2]. rewrite Hc in H2. apply admits_meeting.
  apply withdrawal_within; [done| |by eapply among_key|by apply starts_meets]. eapply among_key; [done|set_solver].
Qed.

(** ** What a bundle is *)
Section Bundle.
Context (decodeBase64 : string -> list Z).
Lemma findIndex_first {A} (p : A -> bool) l i : findIndex p l = Some i ->
  exists x, l !! i = Some x /\ p x = true /\ Forall (fun y => p y = false) (take i l).
Proof.
  revert i. induction l as [|y l IH]; intros i H; cbn in H; [done|]. destruct (p y) eqn:E.
  - injection H as <-. by exists y.
  - destruct (findIndex p l) as [j|]; [|done]. injection H as <-. destruct (IH j eq_refl) as (x & Hx & Hp & Hf). exists x. cbn. by repeat constructor.
Qed.

Lemma instruction_of entry label ix : toKaminoTransactionInstruction decodeBase64 entry label = Ok ix ->
  exists text bytes, get "programAddress" entry = JString text /\ newPublicKey text = Ok (programId ix) /\ get "data" entry = JString bytes /\
    data ix = decodeBase64 bytes.
Proof.
  unfold toKaminoTransactionInstruction. destruct (get "programAddress" entry) as [| | | |text| |]; try done. intros H.
  apply bind_Ok in H as (program & Hp & H). apply bind_Ok in H as (metas & _ & H). destruct (get "data" entry) as [| | | |bytes| |]; try done.
  injection H as <-. by exists text, bytes.
Qed.

Lemma program_of lend entry label ix : isText (toBase58 lend) (get "programAddress" entry) = true -> toKaminoTransactionInstruction decodeBase64 entry label = Ok ix ->
  programId ix = lend.
Proof.
  intros Ht H. apply instruction_of in H as (text & bytes & Hg & Hn & _). rewrite Hg in Ht. cbn in Ht. apply String.eqb_eq in Ht as ->.
  rewrite newPublicKey_toBase58 in Hn. by injection Hn.
Qed.

Lemma all_of_program lend label es ixs (p : json -> bool) : (forall e, p e = true -> isText (toBase58 lend) (get "programAddress" e) = true) ->
  mapR (fun e => toKaminoTransactionInstruction decodeBase64 e label) (List.filter p es) = Ok ixs -> Forall (fun ix => programId ix = lend) ixs.
Proof.
  intros Hp H. apply mapR_Ok_Forall2 in H. apply Forall_forall. intros ix Hix. apply list_elem_of_lookup in Hix as (k & Hk).
  destruct (Forall2_lookup_r _ _ _ _ _ H Hk) as (e & He & Hix). eapply program_of; [|exact Hix]. apply Hp.
  assert (In e (List.filter p es)) as Hin by (apply list_elem_of_In; by eapply list_elem_of_lookup_2). by apply filter_In in Hin as [_ ?].
Qed.

(** The first that matches is the head of all that match. *)
Lemma filter_head {A} (p : A -> bool) l i x : l !! i = Some x -> p x = true -> Forall (fun y => p y = false) (take i l) -> head (List.filter p l) = Some x.
Proof.
  revert i. induction l as [|y l IH]; intros [|i] Hx Hp Hf; try done; cbn in Hx.
  - injection Hx as ->. cbn. by rewrite Hp.
  - cbn in Hf. apply Forall_cons in Hf as [Hy Hf]. cbn. rewrite Hy. by eapply IH.
Qed.

Lemma mapR_app {A C} (f : A -> result C) l l' r : mapR f (l ++ l') = Ok r -> exists a b, mapR f l = Ok a /\ mapR f l' = Ok b /\ r = a ++ b.
Proof.
  intros H. apply mapR_Ok_Forall2, Forall2_app_inv_l in H as (a & b & Ha & Hb & ->). exists a, b. split; [|split; [|done]]; by apply mapR_Ok_Forall2.
Qed.

(** The bundle of an answer holds instructions of the lending program only: the first one with the discriminator, everything of the program up to it, ending with it,
    and all with the discriminator, starting with it. *)
Theorem kamino_bundle_exact (payload : json) (lend : pubkey) (discriminator : list Z) (label : string) (b : KaminoInstructionBundle) :
  readKaminoInstructionBundle decodeBase64 payload lend discriminator label = Ok b ->
  programId (kb_instruction b) = lend /\ bufferStartsWith (data (kb_instruction b)) discriminator = true /\
  last (kb_instructions b) = Some (kb_instruction b) /\ head (kb_matchingInstructions b) = Some (kb_instruction b) /\
  Forall (fun ix => programId ix = lend) (kb_instructions b) /\ Forall (fun ix => programId ix = lend) (kb_matchingInstructions b).
Proof.
  unfold readKaminoInstructionBundle. cbv zeta. intros H. apply bind_Ok in H as (entries & _ & H).
  set (p := matchesInstruction decodeBase64 (toBase58 lend) discriminator) in *. destruct (findIndex p entries) as [i|] eqn:Ei; [|done].
  destruct (findIndex_first _ _ _ Ei) as (x & Hx & Hp & Hf). rewrite (take_S_r _ _ _ Hx), List.filter_app in H. cbn [List.filter] in H.
  assert (Hm := Hp). unfold p, matchesInstruction in Hm. apply andb_prop in Hm as [[Ht Hd]%andb_prop _]. rewrite Ht in H.
  rewrite (nth_lookup_Some _ _ _ _ Hx) in H. apply bind_Ok in H as (ms & Hms & H). apply bind_Ok in H as (is_ & His & H).
  apply bind_Ok in H as (ix & Hix & [= <-]). cbn [kb_instruction kb_instructions kb_matchingInstructions].
  split; [by eapply program_of|]. split.
  { apply instruction_of in Hix as (text & bytes & _ & _ & Hg & ->). by rewrite Hg in Hd. }
  destruct (mapR_app _ _ _ _ His) as (before & one & Hb & Ho & ->). cbn in Ho. rewrite Hix in Ho. injection Ho as <-. split; [by rewrite last_snoc|].
  split; [|split].
  - apply filter_head with (i := i) (x := x) in Hf; [|done..]. apply mapR_Ok_Forall2 in Hms. destruct Hms as [|e m es ms He _]; [done|]. cbn in Hf |- *. congruence.
  - apply Forall_app. split; [|by repeat constructor; eapply program_of]. by eapply all_of_program with (p := fun e => isText (toBase58 lend) (get "programAddress" e)).
  - eapply all_of_program; [|exact Hms]. intros e He. by apply andb_prop in He as [[? _]%andb_prop _].
Qed.
End Bundle.
End KaminoApi.

(** ** The cache of responses *)
Definition KAMINO_INSTRUCTION_RESPONSE_TTL_MS := 45000.
Definition KAMINO_INSTRUCTION_RESPONSE_CACHE_MAX_ENTRIES := 8%nat.

Record CacheEntry := { ce_expiresAtMs : Z; ce_response : nat }.
Definition cache : Type := list (string * CacheEntry).

(** The eviction loop; a map has as many entries as the list is long. *)
Fixpoint evictOldest (entries : cache) (excess : nat) : cache :=
  match excess, entries with
  | S excess, (oldest, _) :: _ => evictOldest (mapDelete entries oldest) excess
  | _, _ => entries
  end.
Definition evict (entries : cache) : cache := evictOldest entries (length entries - KAMINO_INSTRUCTION_RESPONSE_CACHE_MAX_ENTRIES).

(** In a browser; [fresh] is the response a load would give. *)
Definition fetchKaminoInstructionResponseCached (entries : cache) (now : Z) (cacheKey : string) (fresh : nat) : nat * cache :=
  match mapGet entries cacheKey with
  | Some cached =>
      if now <? ce_expiresAtMs cached then (ce_response cached, entries)
      else (fresh, evict (mapSet (mapDelete entries cacheKey) cacheKey
                            {| ce_expiresAtMs := now + KAMINO_INSTRUCTION_RESPONSE_TTL_MS; ce_response := fresh |}))
  | None => (fresh, evict (mapSet (mapDelete entries cacheKey) cacheKey
                             {| ce_expiresAtMs := now + KAMINO_INSTRUCTION_RESPONSE_TTL_MS; ce_response := fresh |}))
  end.

(** [response.catch(() => cache.delete(cacheKey))] *)
Definition responseFailed (entries : cache) (cacheKey : string) : cache := mapDelete entries cacheKey.

(** What happens to the cache: a fetch of a key at a time, with the response a load would give, and a response that fails *)
Inductive CacheEvent := Fetched (now : Z) (key : string) (fresh : nat) | Failed (key : string).
Definition cacheStep (entries : cache) (e : CacheEvent) : cache :=
  match e with Fetched now key fresh => (fetchKaminoInstructionResponseCached entries now key fresh).2 | Failed key => responseFailed entries key end.
(** The caches of a session, with its events, the newest first *)
Inductive session : list CacheEvent -> cache -> Prop :=
  | session_start : session [] []
  | session_step history entries e : session history entries -> session (e :: history) (cacheStep entries e).

(** A response loaded for a key at a time, of which no failure was seen since *)
Definition loadedSince (history : list CacheEvent) (key : string) (t : Z) (response : nat) : Prop :=
  exists later earlier, history = later ++ Fetched t key response :: earlier /\ Failed key ∉ later.

Record cache_wf (history : list CacheEvent) (entries : cache) : Prop := {
  cw_keys : map_wf entries;
  cw_size : (length entries <= KAMINO_INSTRUCTION_RESPONSE_CACHE_MAX_ENTRIES)%nat;
  cw_loaded : forall key e, (key, e) ∈ entries -> loadedSince history key (ce_expiresAtMs e - KAMINO_INSTRUCTION_RESPONSE_TTL_MS) (ce_response e);
}.

Lemma loaded_later history key t r e : loadedSince history key t r -> e <> Failed key -> loadedSince (e :: history) key t r.
Proof. intros (later & earlier & -> & Hn) He. exists (e :: later), earlier. split; [done|]. apply not_elem_of_cons. split; congruence. Qed.

(** Eviction drops the oldest. *)
Lemma evictOldest_drop entries n : map_wf entries -> evictOldest entries n = drop n entries.
Proof.
  revert entries. induction n as [|n IH]; intros [|[k v] entries] Hw; try done. cbn [evictOldest]. rewrite mapDelete_first by done. rewrite IH; [done|].
  unfold map_wf, mapKeys in *. cbn in Hw. by apply NoDup_cons in Hw as [_ ?].
Qed.

(** Loading a response replaces the key's entry, and drops at most one other. *)
Definition loadedCache (entries : cache) (now : Z) (key : string) (fresh : nat) : cache :=
  evict (mapSet (mapDelete entries key) key {| ce_expiresAtMs := now + KAMINO_INSTRUCTION_RESPONSE_TTL_MS; ce_response := fresh |}).

Lemma loaded_entries entries now key fresh : map_wf entries -> (length entries <= KAMINO_INSTRUCTION_RESPONSE_CACHE_MAX_ENTRIES)%nat ->
  exists kept dropped, mapDelete entries key = dropped ++ kept /\ (length kept < KAMINO_INSTRUCTION_RESPONSE_CACHE_MAX_ENTRIES)%nat /\ (length dropped <= 1)%nat /\
    loadedCache entries now key fresh = kept ++ [(key, {| ce_expiresAtMs := now + KAMINO_INSTRUCTION_RESPONSE_TTL_MS; ce_response := fresh |})].
Proof.
  intros Hw Hl. pose proof (mapDelete_length entries key) as Hd. set (rest := mapDelete entries key) in *. unfold loadedCache. fold rest.
  assert (Hg : mapGet rest key = None) by (unfold rest; by rewrite mapGet_delete, String.eqb_refl). assert (Hr : map_wf rest) by by apply mapDelete_wf.
  set (n := (S (length rest) - KAMINO_INSTRUCTION_RESPONSE_CACHE_MAX_ENTRIES)%nat). unfold KAMINO_INSTRUCTION_RESPONSE_CACHE_MAX_ENTRIES in *.
  exists (drop n rest), (take n rest). split; [by rewrite take_drop|]. split; [rewrite length_drop; unfold n; lia|]. split; [rewrite length_take; unfold n; lia|].
  unfold evict. rewrite evictOldest_drop by by apply mapSet_wf. rewrite mapSet_absent by done. rewrite length_app. cbn [length].
  replace (length rest + 1 - KAMINO_INSTRUCTION_RESPONSE_CACHE_MAX_ENTRIES)%nat with n by (unfold n, KAMINO_INSTRUCTION_RESPONSE_CACHE_MAX_ENTRIES; lia).
  by rewrite drop_app_le by (unfold n; lia).
Qed.

Lemma loaded_wf history entries now key fresh : cache_wf history entries -> cache_wf (Fetched now key fresh :: history) (loadedCache entries now key fresh).
Proof.
  intros [Hw Hl Hc]. destruct (loaded_entries entries now key fresh Hw Hl) as (kept & dropped & Hd & Hk & _ & ->).
  assert (Hin : forall k e, (k, e) ∈ kept -> (k, e) ∈ entries /\ k <> key).
  { intros k e He. assert ((k, e) ∈ mapDelete entries key) as H%elem_of_mapDelete by (rewrite Hd; set_solver). exact H. }
  constructor.
  - unfold map_wf, mapKeys. rewrite map_app. apply NoDup_app. split; [|split; [|apply NoDup_singleton]].
    + assert (map_wf (mapDelete entries key)) as H by by apply mapDelete_wf. rewrite Hd in H. unfold map_wf, mapKeys in H. rewrite map_app in H.
      by apply NoDup_app in H as (_ & _ & ?).
    + intros k Hk' Hs. apply list_elem_of_singleton in Hs as ->. apply list_elem_of_fmap in Hk' as ([k e] & Hke & He). cbn in Hke. subst k. by apply Hin in He as [_ ?].
  - rewrite length_app. cbn. lia.
  - intros k e He. apply elem_of_app in He as [He|He].
    + apply Hin in He as [He Hne]. apply loaded_later; [by apply Hc|done].
    + apply list_elem_of_singleton in He. injection He as -> ->. cbn. exists [], history. split; [cbn; do 2 f_equal; lia|set_solver].
Qed.

Lemma session_wf history entries : session history entries -> cache_wf history entries.
Proof.
  intros H. induction H as [|history entries [now key fresh|key] _ IH].
  - constructor; cbn; [constructor|lia|set_solver].
  - cbn. unfold fetchKaminoInstructionResponseCached. fold (loadedCache entries now key fresh).
    assert (Hsame : cache_wf (Fetched now key fresh :: history) entries).
    { destruct IH as [Hw Hl Hc]. constructor; [done..|]. intros k e He. apply loaded_later; [by apply Hc|done]. }
    destruct (mapGet entries key) as [e|]; [destruct (now <? ce_expiresAtMs e)|]; [done|by apply loaded_wf..].
  - destruct IH as [Hw Hl Hc]. constructor; cbn; [by apply mapDelete_wf|pose proof (mapDelete_length entries key); unfold responseFailed; lia|].
    intros k e He. apply elem_of_mapDelete in He as [He Hne]. apply loaded_later; [by apply Hc|]. intros [= ->]. done.
Qed.

(** Sharing of a loaded response *)
Definition fetchedOther (key : string) (e : CacheEvent) : list string := match e with Fetched _ k _ => if String.eqb k key then [] else [k] | Failed _ => [] end.
Definition otherKeys (key : string) (events : list CacheEvent) : list string := remove_dups (flat_map (fetchedOther key) events).

(** An entry with fewer than eight newer ones stays when another key's response is loaded. *)
Lemma load_keeps older key e newer now k fresh : map_wf (older ++ (key, e) :: newer) -> k <> key -> (length (mapDelete newer k) <= 6)%nat ->
  exists older' newer', loadedCache (older ++ (key, e) :: newer) now k fresh = older' ++ (key, e) :: newer' /\ map fst newer' ⊆ k :: map fst newer.
Proof.
  intros Hw Hk Hn. unfold loadedCache. set (entry := {| ce_expiresAtMs := _; ce_response := fresh |}).
  assert (Hd : mapDelete (older ++ (key, e) :: newer) k = mapDelete older k ++ (key, e) :: mapDelete newer k).
  { unfold mapDelete. rewrite List.filter_app. cbn [List.filter fst]. by destruct (String.eqb_spec key k); [congruence|]. }
  rewrite Hd. rewrite mapSet_absent by (rewrite <- Hd, mapGet_delete, String.eqb_refl; done). unfold evict. rewrite evictOldest_drop.
  - set (n := (_ - _)%nat). assert (Hle : (n <= length (mapDelete older k))%nat).
    { unfold n, KAMINO_INSTRUCTION_RESPONSE_CACHE_MAX_ENTRIES. rewrite !length_app. cbn [length]. lia. }
    exists (drop n (mapDelete older k)), (mapDelete newer k ++ [(k, entry)]). split; [rewrite <- app_assoc; cbn [app]; by rewrite drop_app_le by done|].
    rewrite map_app. intros x Hx. apply elem_of_app in Hx as [([y v] & -> & Hy)%list_elem_of_fmap|Hx]; [|cbn in Hx; set_solver].
    apply elem_of_mapDelete in Hy as [Hy _]. apply elem_of_cons. right. by apply (list_elem_of_fmap_2 fst) in Hy.
  - rewrite <- mapSet_absent by (rewrite <- Hd, mapGet_delete, String.eqb_refl; done). rewrite <- Hd. by apply mapSet_wf, mapDelete_wf.
Qed.

Lemma step_wf entries e : map_wf entries -> map_wf (cacheStep entries e).
Proof.
  intros Hw. assert (Hload : forall now key fresh, map_wf (loadedCache entries now key fresh)).
  { intros. unfold loadedCache, evict. rewrite evictOldest_drop by by apply mapSet_wf, mapDelete_wf. set (m := mapSet _ _ _). assert (map_wf m) as Hm by by apply mapSet_wf, mapDelete_wf.
    unfold map_wf, mapKeys in *. rewrite <- (take_drop (length m - KAMINO_INSTRUCTION_RESPONSE_CACHE_MAX_ENTRIES) m), map_app in Hm. by apply NoDup_app in Hm as (_ & _ & ?). }
  destruct e as [now key fresh|key]; [|by apply mapDelete_wf]. cbn. unfold fetchKaminoInstructionResponseCached. fold (loadedCache entries now key fresh).
  destruct (mapGet entries key) as [c|]; [destruct (now <? ce_expiresAtMs c)|]; [done|apply Hload..].
Qed.

Lemma remove_dups_bound (l m : list string) : NoDup l -> l ⊆ m -> (length l <= length (remove_dups m))%nat.
Proof.
  intros Hn Hs. apply NoDup_incl_length; [by apply NoDup_ListNoDup|]. intros x Hx. apply list_elem_of_In, elem_of_remove_dups, Hs. by apply list_elem_of_In.
Qed.

Lemma keeps_other older key e newer seen now k fresh others : map_wf (older ++ (key, e) :: newer) -> map fst newer ⊆ seen -> k <> key -> k ∈ others ->
  (length (remove_dups (seen ++ others)) < 8)%nat ->
  exists older' newer', loadedCache (older ++ (key, e) :: newer) now k fresh = older' ++ (key, e) :: newer' /\ map fst newer' ⊆ k :: map fst newer.
Proof.
  intros Hw Hs Hk Ho Hb. apply load_keeps; [done|done|]. assert (Hnew : map_wf newer).
  { unfold map_wf, mapKeys in *. rewrite map_app in Hw. apply NoDup_app in Hw as (_ & _ & Hw). cbn in Hw. by apply NoDup_cons in Hw as [_ ?]. }
  assert (Hd : forall x, x ∈ map fst (mapDelete newer k) -> x ∈ map fst newer /\ x <> k).
  { intros x ([y v] & -> & Hy)%list_elem_of_fmap. apply elem_of_mapDelete in Hy as [Hy Hne]. split; [|done]. by apply (list_elem_of_fmap_2 fst) in Hy. }
  assert (Hlen : (length (k :: map fst (mapDelete newer k)) <= length (remove_dups (seen ++ others)))%nat).
  { apply remove_dups_bound.
    - apply NoDup_cons. split; [intros Hin; by apply Hd in Hin as [_ ?]|]. by apply (mapDelete_wf newer k Hnew).
    - intros x Hx. apply elem_of_cons in Hx as [->|Hx]; [set_solver|]. apply Hd in Hx as [Hx _]. set_solver. }
  cbn [length] in Hlen. rewrite length_map in Hlen. lia.
Qed.

(** The entry of a key stays through events that do not fail it, reload it or bring eight other keys. *)
Lemma entry_stays key e later : forall older newer seen, map_wf (older ++ (key, e) :: newer) -> map fst newer ⊆ seen ->
  (length (remove_dups (seen ++ flat_map (fetchedOther key) later)) < 8)%nat -> Failed key ∉ later -> (forall t r, Fetched t key r ∈ later -> t < ce_expiresAtMs e) ->
  mapGet (fold_left cacheStep later (older ++ (key, e) :: newer)) key = Some e.
Proof.
  induction later as [|ev later IH]; intros older newer seen Hw Hs Hb Hf Ht; cbn [fold_left]; [apply elem_of_mapGet; [done|set_solver]|].
  apply not_elem_of_cons in Hf as [Hf1 Hf2]. assert (Hw' := step_wf _ ev Hw).
  assert (Hnext : forall older' newer', cacheStep (older ++ (key, e) :: newer) ev = older' ++ (key, e) :: newer' -> map fst newer' ⊆ seen ++ fetchedOther key ev ->
    mapGet (fold_left cacheStep later (cacheStep (older ++ (key, e) :: newer) ev)) key = Some e).
  { intros older' newer' E Hs'. rewrite E in *. apply (IH older' newer' (seen ++ fetchedOther key ev)); [done|done| |done|intros t r Hin; apply (Ht t r); by right].
    rewrite <- app_assoc. exact Hb. }
  assert (Hget : mapGet (older ++ (key, e) :: newer) key = Some e) by (apply elem_of_mapGet; [done|set_solver]).
  destruct ev as [now k fresh|k].
  - cbn [cacheStep] in *. unfold fetchKaminoInstructionResponseCached in *. fold (loadedCache (older ++ (key, e) :: newer) now k fresh) in *. destruct (String.eqb_spec k key) as [->|Hk].
    + rewrite Hget in *. assert (now < ce_expiresAtMs e) by (apply (Ht now fresh); by left). replace (now <? ce_expiresAtMs e) with true in * by lia. by apply (Hnext older newer); [|set_solver].
    + assert (Hk2 : k ∈ flat_map (fetchedOther key) (Fetched now k fresh :: later)) by (cbn; apply elem_of_app; left; destruct (String.eqb_spec k key); [done|by left]).
      assert (Hfo : fetchedOther key (Fetched now k fresh) = [k]) by (cbn; by destruct (String.eqb_spec k key)).
      destruct (mapGet (older ++ (key, e) :: newer) k) as [c|] eqn:Ec; [destruct (now <? ce_expiresAtMs c) eqn:El|].
      * by apply (Hnext older newer); [|set_solver].
      * destruct (keeps_other older key e newer seen now k fresh (flat_map (fetchedOther key) (Fetched now k fresh :: later))) as (o & n & E & Hn); try done.
        apply (Hnext o n E). rewrite Hfo. set_solver.
      * destruct (keeps_other older key e newer seen now k fresh (flat_map (fetchedOther key) (Fetched now k fresh :: later))) as (o & n & E & Hn); try done.
        apply (Hnext o n E). rewrite Hfo. set_solver.
  - cbn [cacheStep] in *. assert (k <> key) as Hk by congruence. apply (Hnext (mapDelete older k) (mapDelete newer k)).
    + unfold responseFailed, mapDelete. rewrite List.filter_app. cbn [List.filter fst]. by destruct (String.eqb_spec key k); [congruence|].
    + intros x ([y v] & -> & Hy)%list_elem_of_fmap. apply elem_of_mapDelete in Hy as [Hy _]. apply elem_of_app. left. apply Hs. by apply (list_elem_of_fmap_2 fst) in Hy.
Qed.


Module KaminoApiWitness.
Import DemoKeys KaminoWitness HoldingsWitness ClientPoliciesWitness.

(** The text of an instruction's data is its code units. *)
Definition decodeUnits (text : string) : list Z := map (fun c => Z.of_nat (nat_of_ascii c)) (chars text).
Definition encodeUnits (bytes : list Z) : string := unchars (map (fun b => ascii_of_nat (Z.to_nat b)) bytes).

Definition withdrawal : instruction :=
  Instruction (lendProgramId (et_target devTarget))
    (map readonly [demoVault; demoObligation; market (et_target devTarget); key_of 50; demoReserve; usdcMint; key_of 51; key_of 52; key_of 53; demoAta;
                   lendProgramId (et_target devTarget); usdcProgram; usdcProgram])
    (withdrawDiscriminator (et_target devTarget) ++ le_bytes 8 250).
Definition validated : result ValidatedWithdraw :=
  validateKaminoWithdrawInstruction withdrawal (lendProgramId (et_target devTarget)) (withdrawDiscriminator (et_target devTarget)) demoVault demoAta
    (market (et_target devTarget)) (liquidityMint (et_target devTarget)) usdcProgram (map toBase58 (un_kaminoMarkets devUniverse)).

Lemma kamino_withdrawal_vetted_witness : exists r, validated = Ok r /\
  withdrawal_layout withdrawal r (lendProgramId (et_target devTarget)) (withdrawDiscriminator (et_target devTarget)) demoVault demoAta (market (et_target devTarget)) (liquidityMint (et_target devTarget)) usdcProgram.
Proof.
  assert (H : is_ok validated = true) by (vm_compute; reflexivity). destruct validated as [r|] eqn:E; [|discriminate H].
  destruct (kamino_withdrawal_vetted (PK := demo_keys) world withdrawal devTarget devUniverse demoVault demoAta usdcProgram r E) as [Hl _].
  exists r. exact (conj eq_refl Hl).
Defined.

(** Another token account is refused. *)
Example other_account_refused :
  is_ok (validateKaminoWithdrawInstruction withdrawal (lendProgramId (et_target devTarget)) (withdrawDiscriminator (et_target devTarget)) demoVault (key_of 60)
    (market (et_target devTarget)) (liquidityMint (et_target devTarget)) usdcProgram (map toBase58 (un_kaminoMarkets devUniverse))) = false.
Proof. vm_compute. reflexivity. Qed.

(** An answer: an instruction of another program, a refresh, and the withdrawal *)
Definition entryOf (program : key) (bytes : list Z) : json :=
  JObject [("programAddress", JString (text program)); ("data", JString (encodeUnits bytes));
           ("accounts", JArray [JObject [("address", JString (text demoVault)); ("role", JString "writable_signer")]])]%string.
Definition answer : json := JObject [
  ("instructions", JArray [entryOf (key_of 70) [1; 2]; entryOf (key_of 71) [9; 9]; entryOf (key_of 71) [7; 7; 250]]);
  ("lutsByAddress", JObject [(text (key_of 72), JNull)]) ]%string.
Definition bundle : result KaminoInstructionBundle := readKaminoInstructionBundle decodeUnits answer (key_of 71) [7; 7] "withdraw".

Example bundle_read :
  (fun b => (map data (kb_instructions b), map data (kb_matchingInstructions b), kb_lookupTableAddresses b)) <$> bundle =
  Ok ([[9; 9]; [7; 7; 250]], [[7; 7; 250]], [key_of 72]).
Proof. vm_compute. reflexivity. Qed.

Lemma kamino_bundle_exact_witness : exists b, bundle = Ok b /\ last (kb_instructions b) = Some (kb_instruction b).
Proof.
  assert (H : is_ok bundle = true) by (vm_compute; reflexivity). destruct bundle as [b|] eqn:E; [|discriminate H].
  destruct (kamino_bundle_exact (PK := demo_keys) decodeUnits answer (key_of 71) [7; 7] "withdraw" b E) as (_ & _ & Hl & _). exists b. exact (conj eq_refl Hl).
Defined.

(** Ten fetches, the first of which fails *)
Definition demoHistory : list CacheEvent := [Fetched 30 "b" 3; Failed "a"; Fetched 20 "b" 2; Fetched 10 "a" 1]%string.
Definition demoCache : cache := fold_right (fun e c => cacheStep c e) [] demoHistory.

End KaminoApiWitness.
