(* ===== verification/NativeSol.v ===== *)
(** The SOL an operation needs (web/packages/smart-account-vaults/src/client.ts): which accounts exist, the rent of those that do not, the fees of the prepared
    transactions, and whether the payer can pay.

    What the connection offers is a record of optional methods, each an answer or an exception. The number of signatures of a compiled operation is an argument.
    The rents that were asked for are kept in a cache, which is threaded. *)
From S2P Require Import Prelude JsString JsMap Solana PreparedWire EarnWire Bytes Subscriptions Squads Protocols Registry Voltr Holdings.

Section NativeSol.
Context {PK : PublicKeys} {diagnostics : Type}.
#[local] Abbreviation Op := (PreparedOperation diagnostics).

(** ** Keys and accounts *)
(** A map keeps the place of the first and the value of the last; keys with the same text are the same. *)
Definition dedupeBy {A} (keyText : A -> string) (l : list A) : list A :=
  map snd (fold_left (fun unique a => mapSet unique (keyText a) a) l []).
Definition dedupePublicKeys (keys : list pubkey) : list pubkey := dedupeBy toBase58 keys.
Definition dedupeLookupTableAccounts (tables : list AddressLookupTableAccount) : list AddressLookupTableAccount :=
  dedupeBy (fun table => toBase58 (alt_key table)) tables.
Definition toWritableAccountMetas (keys : list pubkey) : list account_meta := map (fun key => Meta key false true) keys.

(** [None] is a method the connection does not have. *)
Record InjectableConnection := {
  getMultipleAccountsInfo : option (list pubkey -> result (pubkey -> option AccountInfo));
  getAccountInfo : option (pubkey -> result (option AccountInfo));
  getMinimumBalanceForRentExemption : option (Z -> result Z);
  (** The fee of the message compiled with the latest block hash, when it is a number *)
  getFeeForMessage : option (Op -> result (option Z));
  getBalance : option (pubkey -> result Z);
}.

Definition isPresent {A} (o : option A) : bool := match o with Some _ => true | None => false end.

Definition presentKeys (info : pubkey -> option AccountInfo) (accounts : list pubkey) : list string :=
  map toBase58 (List.filter (fun account => isPresent (info account)) accounts).

(** Account by account; an answer that fails counts as no account. *)
Definition existingOneByOne (connection : InjectableConnection) (accounts : list pubkey) : list string :=
  match getAccountInfo connection with
  | None => []
  | Some read => presentKeys (fun account => match read account with Ok info => info | Throw _ => None end) accounts
  end.

Definition getExistingAccountSet (connection : InjectableConnection) (requested : list pubkey) : list string :=
  let accounts := dedupePublicKeys requested in
  match accounts with
  | [] => []
  | _ =>
      match getMultipleAccountsInfo connection with
      | Some readAll => match readAll accounts with Ok infos => presentKeys infos accounts | Throw _ => existingOneByOne connection accounts end
      | None => existingOneByOne connection accounts
      end
  end.

Definition infoMap (info : pubkey -> option AccountInfo) (accounts : list pubkey) : list (string * option AccountInfo) :=
  fold_left (fun results account => mapSet results (toBase58 account) (info account)) accounts [].

Definition readOneByOne (connection : InjectableConnection) (accounts : list pubkey) : result (list (string * option AccountInfo)) :=
  foldR (fun results account =>
      info ← match getAccountInfo connection with
             | Some read => read account
             | None => Throw (Exn "TypeError" "getAccountInfo is not a function")
             end;
      Ok (mapSet results (toBase58 account) info)) [] accounts.

Definition getAccountInfoMap (connection : InjectableConnection) (requested : list pubkey) : result (list (string * option AccountInfo)) :=
  let accounts := dedupePublicKeys requested in
  match accounts with
  | [] => Ok []
  | _ =>
      match getMultipleAccountsInfo connection with
      | Some readAll => match readAll accounts with Ok infos => Ok (infoMap infos accounts) | Throw _ => readOneByOne connection accounts end
      | None => readOneByOne connection accounts
      end
  end.

(** ** Fees *)
Definition FALLBACK_LAMPORTS_PER_SIGNATURE := 5000.
Definition RENT_EXEMPT_ACCOUNT_STORAGE_OVERHEAD_BYTES := 128.
Definition MAINNET_RENT_EXEMPT_LAMPORTS_PER_BYTE := 6960.

(** [numRequiredSignatures] of an operation compiled with the empty block hash *)
Context (requiredSignatures : Op -> result Z).

Definition getPreparedRequiredSignatureCount (prepared : Op) : Z :=
  match requiredSignatures prepared with Ok count => Z.max 1 count | Throw _ => 1 end.

Definition getFallbackPreparedFeeLamports (prepared : Op) : Z := getPreparedRequiredSignatureCount prepared * FALLBACK_LAMPORTS_PER_SIGNATURE.

Definition estimatePreparedFeeLamports (connection : InjectableConnection) (prepared : Op) : Z :=
  let fallback := getFallbackPreparedFeeLamports prepared in
  match getFeeForMessage connection with
  | None => fallback
  | Some feeFor => match feeFor prepared with Ok (Some fee) => if 0 <=? fee then fee else fallback | _ => fallback end
  end.

(** ** Rents *)
Definition getStaticMainnetRentExemptionLamports (space : Z) : Z :=
  (space + RENT_EXEMPT_ACCOUNT_STORAGE_OVERHEAD_BYTES) * MAINNET_RENT_EXEMPT_LAMPORTS_PER_BYTE.

Definition isMainnetOrUnknown (cluster : option LoyalCluster) : bool := match cluster with Some Devnet => false | _ => true end.
Definition clusterText (cluster : option LoyalCluster) : string := match cluster with Some c => LoyalCluster_value c | None => "unknown" end.

Definition resolveRentExemptionLamports (cluster : option LoyalCluster) (connection : InjectableConnection) (preferStaticMainnetRent : bool) (space : Z)
    (rents : list (string * Z)) : result (option Z * list (string * Z)) :=
  if preferStaticMainnetRent && isMainnetOrUnknown cluster then Ok (Some (getStaticMainnetRentExemptionLamports space), rents)
  else
    match getMinimumBalanceForRentExemption connection with
    | None => Ok (None, rents)
    | Some rentFor =>
        let cacheKey := clusterText cluster +:+ ":" +:+ bigint_toString space in
        match mapGet rents cacheKey with
        | Some cached => Ok (Some cached, rents)
        | None =>
            lamports ← rentFor space;
            if lamports <=? 0 then Ok (None, rents) else Ok (Some lamports, mapSet rents cacheKey lamports)
        end
    end.

(** ** The requirement *)
Record NativeSolRentCandidate := {
  rc_account : pubkey;
  rc_exists : option bool;
  rc_kind : NativeSolRequirementItemKind;
  rc_label : string;
  rc_space : Z;
  rc_stage : string;
}.

(** A [number] is given by its integer part. *)
Inductive Lamports := LamportsBigint (z : Z) | LamportsNumber (whole : Z) | LamportsText (text : string).

Record NativeSolFixedItem := {
  fi_account : option string;
  fi_kind : NativeSolRequirementItemKind;
  fi_label : string;
  fi_lamports : Lamports;
  fi_stage : string;
}.

Definition toLamportsBigInt (lamports : Lamports) : result Z :=
  match lamports with
  | LamportsBigint z => Ok z
  | LamportsNumber whole => Ok (Z.max 0 whole)
  | LamportsText text => BigInt_of_string text
  end.

Definition addFixedItem (items : list NativeSolRequirementItem) (item : NativeSolFixedItem) : result (list NativeSolRequirementItem) :=
  lamports ← toLamportsBigInt (fi_lamports item);
  Ok (if lamports <=? 0 then items
      else items ++ [{| nsi_account := fi_account item; nsi_kind := fi_kind item; nsi_label := fi_label item; nsi_lamports := bigint_toString lamports;
                        nsi_stage := fi_stage item |}]).

Definition candidateExists (existingAccounts : list string) (candidate : NativeSolRentCandidate) : bool :=
  match rc_exists candidate with Some known => known | None => member (toBase58 (rc_account candidate)) existingAccounts end.

Definition addRentItem (cluster : option LoyalCluster) (connection : InjectableConnection) (preferStaticMainnetRent : bool) (existingAccounts : list string)
    (state : list NativeSolRequirementItem * list (string * Z)) (candidate : NativeSolRentCandidate) :
    result (list NativeSolRequirementItem * list (string * Z)) :=
  if candidateExists existingAccounts candidate then Ok state
  else
    '(lamports, rents) ← resolveRentExemptionLamports cluster connection preferStaticMainnetRent (rc_space candidate) state.2;
    Ok (match lamports with
        | Some lamports =>
            if lamports <=? 0 then state.1
            else state.1 ++ [{| nsi_account := Some (toBase58 (rc_account candidate)); nsi_kind := rc_kind candidate; nsi_label := rc_label candidate;
                                nsi_lamports := bigint_toString lamports; nsi_stage := rc_stage candidate |}]
        | None => state.1
        end, rents).

Fixpoint feeItems (index : Z) (prepared : list Op) (fees : list Z) : list NativeSolRequirementItem :=
  match prepared, fees with
  | operation :: prepared, lamports :: fees =>
      (if lamports <=? 0 then []
       else [{| nsi_account := None; nsi_kind := TransactionFee; nsi_label := "Estimated transaction fee"; nsi_lamports := bigint_toString lamports;
                nsi_stage := if String.eqb (po_operation operation) EmptyString then "transaction_" +:+ bigint_toString (index + 1) else po_operation operation |}]) ++
      feeItems (index + 1) prepared fees
  | _, _ => []
  end.

Definition addItem (total : Z) (item : NativeSolRequirementItem) : result Z := lamports ← BigInt_of_string (nsi_lamports item); Ok (total + lamports).

(** [estimateFees] and [checkBalance] are on unless they are false. *)
Record EstimateArgs := {
  ea_balanceLamports : option Lamports;
  ea_balanceSource : option BalanceSource;
  ea_checkBalance : bool;
  ea_cluster : option LoyalCluster;
  ea_estimateFees : bool;
  ea_fixedItems : list NativeSolFixedItem;
  ea_payer : pubkey;
  ea_preferStaticMainnetRent : bool;
  ea_prepared : list Op;
  ea_rentCandidates : list NativeSolRentCandidate;
}.

Definition preparedFee (connection : InjectableConnection) (args : EstimateArgs) (prepared : Op) : Z :=
  if ea_estimateFees args then estimatePreparedFeeLamports connection prepared else getFallbackPreparedFeeLamports prepared.

Definition queriedBalance (connection : InjectableConnection) (args : EstimateArgs) : result (option Z) :=
  match ea_balanceLamports args, ea_checkBalance args, getBalance connection with
  | None, true, Some read => lamports ← read (ea_payer args); Ok (Some lamports)
  | _, _, _ => Ok None
  end.

Definition sourceOf (args : EstimateArgs) : BalanceSource :=
  match ea_balanceSource args with
  | Some source => source
  | None => match ea_balanceLamports args with Some _ => Provided | None => if ea_checkBalance args then Queried else AssumedSufficient end
  end.

Definition estimateNativeSolRequirement (connection : InjectableConnection) (args : EstimateArgs) (rents : list (string * Z)) :
    result (NativeSolRequirement * list (string * Z)) :=
  let unknownRentCandidates := List.filter (fun c => negb (isPresent (rc_exists c))) (ea_rentCandidates args) in
  let existingAccounts := getExistingAccountSet connection (map rc_account unknownRentCandidates) in
  let feeLamportsByIndex := map (preparedFee connection args) (ea_prepared args) in
  queriedBalanceLamports ← queriedBalance connection args;
  fixed ← foldR addFixedItem [] (ea_fixedItems args);
  '(withRents, rents') ← foldR (addRentItem (ea_cluster args) connection (ea_preferStaticMainnetRent args) existingAccounts) (fixed, rents) (ea_rentCandidates args);
  let items := withRents ++ feeItems 0 (ea_prepared args) feeLamportsByIndex in
  requiredLamports ← foldR addItem 0 items;
  balanceLamports ← match ea_balanceLamports args with
                    | Some lamports => toLamportsBigInt lamports
                    | None => Ok (default requiredLamports queriedBalanceLamports)
                    end;
  let deficitLamports := if balanceLamports <? requiredLamports then requiredLamports - balanceLamports else 0 in
  Ok ({| ns_balanceLamports := bigint_toString balanceLamports; ns_balanceSource := Some (sourceOf args); ns_canProceed := deficitLamports =? 0;
         ns_deficitLamports := bigint_toString deficitLamports; ns_items := items; ns_payer := toBase58 (ea_payer args);
         ns_requiredLamports := bigint_toString requiredLamports |}, rents').

(** ** Which accounts exist *)
Context {Laws : PublicKeyLaws PK}.

Lemma dedupe_elem {A} (keyText : A -> string) (l : list A) a : Inj (=) (=) keyText -> a ∈ dedupeBy keyText l <-> a ∈ l.
Proof.
  intros Hinj. unfold dedupeBy.
  assert (H : forall (l : list A) unique, Forall (fun e => e.1 = keyText e.2) unique ->
    let r := fold_left (fun unique a => mapSet unique (keyText a) a) l unique in
    Forall (fun e => e.1 = keyText e.2) r /\ (forall x, x ∈ map snd r <-> x ∈ map snd unique \/ x ∈ l)).
  { clear l. intros l. induction l as [|b l IH]; intros unique Hu; cbn [fold_left]; [split; [done|intros x; set_solver]|].
    assert (Hset : Forall (fun e => e.1 = keyText e.2) (mapSet unique (keyText b) b)).
    { apply Forall_forall. intros e He. apply elem_of_mapSet in He as [->|He]; [done|]. rewrite Forall_forall in Hu. by apply Hu. }
    destruct (IH _ Hset) as [H1 H2]. split; [done|]. intros x. rewrite H2. clear IH H1 H2 Hset.
    assert (x ∈ map snd (mapSet unique (keyText b) b) <-> x ∈ map snd unique \/ x = b) as ->; [|set_solver].
    induction unique as [|[k v] unique IHu]; cbn [mapSet map snd]; [set_solver|]. apply Forall_cons in Hu as [Hk Hu]. cbn in Hk. subst k.
    destruct (String.eqb_spec (keyText v) (keyText b)) as [E|E]; cbn [map snd].
    - apply Hinj in E as ->. set_solver.
    - rewrite !elem_of_cons, (IHu Hu). set_solver. }
  destruct (H l [] (Forall_nil_2 _)) as [_ H2]. rewrite H2. cbn. set_solver.
Qed.

Lemma existing_exact connection chain requested account : getMultipleAccountsInfo connection = Some (fun _ => Ok chain) -> account ∈ requested ->
  member (toBase58 account) (getExistingAccountSet connection requested) = isPresent (chain account).
Proof.
  intros Hc Hin. unfold getExistingAccountSet. cbv zeta. rewrite Hc. assert (account ∈ dedupePublicKeys requested) as Hd by (apply dedupe_elem; [intros ? ?; apply toBase58_inj|done]).
  destruct (dedupePublicKeys requested) as [|k ks] eqn:E; [set_solver|]. rewrite <- E in *. unfold presentKeys.
  apply Bool.eq_iff_eq_true. rewrite member_spec, list_elem_of_fmap. split.
  - intros (k' & Hk & Hk'). apply toBase58_inj in Hk as <-. apply list_elem_of_In, filter_In in Hk' as [_ ?]. done.
  - intros Hp. exists account. split; [done|]. apply list_elem_of_In, filter_In. split; [by apply list_elem_of_In|done].
Qed.

(** ** What the requirement adds up *)
Definition itemLamports (item : NativeSolRequirementItem) : Z := match BigInt_of_string (nsi_lamports item) with Ok z => z | Throw _ => 0 end.
Definition needed (items : list NativeSolRequirementItem) : Z := sumZ (map itemLamports items).
Definition positive (item : NativeSolRequirementItem) : Prop := 0 < itemLamports item /\ nsi_lamports item = bigint_toString (itemLamports item).

Lemma needed_app l l' : needed (l ++ l') = needed l + needed l'.
Proof. unfold needed. by rewrite map_app, sumZ_app. Qed.

Lemma item_positive account kind label lamports stage : 0 < lamports ->
  positive {| nsi_account := account; nsi_kind := kind; nsi_label := label; nsi_lamports := bigint_toString lamports; nsi_stage := stage |} /\
  needed [{| nsi_account := account; nsi_kind := kind; nsi_label := label; nsi_lamports := bigint_toString lamports; nsi_stage := stage |}] = lamports.
Proof. intros H. unfold positive, needed, itemLamports. cbn. rewrite BigInt_toString_roundtrip. split; [done|lia]. Qed.

Lemma items_total items : Forall positive items -> foldR addItem 0 items = Ok (needed items).
Proof.
  intros H. enough (forall acc, foldR addItem acc items = Ok (acc + needed items)) as E by (by rewrite E).
  induction H as [|item items [_ Hi] _ IH]; intros acc; cbn [foldR]; [unfold needed; cbn; f_equal; lia|].
  assert (addItem acc item = Ok (acc + itemLamports item)) as -> by (unfold addItem; by rewrite Hi, BigInt_toString_roundtrip). cbn [mbind result_bind]. rewrite IH. f_equal. unfold needed. cbn [map]. rewrite sumZ_cons. lia.
Qed.

Definition fixedNeed (item : NativeSolFixedItem) : Z := match toLamportsBigInt (fi_lamports item) with Ok z => Z.max 0 z | Throw _ => 0 end.
Definition rentNeed (chain : pubkey -> option AccountInfo) (c : NativeSolRentCandidate) : Z :=
  if default (isPresent (chain (rc_account c))) (rc_exists c) then 0 else Z.max 0 ((rc_space c + 128) * 6960).

Lemma fixed_items l items items' : foldR addFixedItem items l = Ok items' -> Forall positive items ->
  Forall positive items' /\ needed items' = needed items + sumZ (map fixedNeed l).
Proof.
  revert items. induction l as [|f l IH]; intros items H Hp; cbn in H; [injection H as <-; split; [done|cbn; lia]|].
  apply bind_Ok in H as (items1 & H1 & H). unfold addFixedItem in H1. apply bind_Ok in H1 as (z & Hz & [= <-]).
  cbn [map]. rewrite sumZ_cons. unfold fixedNeed at 1. rewrite Hz. destruct (Z.leb_spec z 0).
  - apply IH in H as [? ->]; [|done]. split; [done|lia].
  - destruct (item_positive (fi_account f) (fi_kind f) (fi_label f) z (fi_stage f)) as [Hi Hn]; [lia|].
    apply IH in H as [? ->]; [|by apply Forall_app; auto]. split; [done|]. rewrite needed_app, Hn. lia.
Qed.

Lemma rent_items cluster connection existing chain l items rents items' rents' : isMainnetOrUnknown cluster = true ->
  (forall c, c ∈ l -> candidateExists existing c = default (isPresent (chain (rc_account c))) (rc_exists c)) ->
  foldR (addRentItem cluster connection true existing) (items, rents) l = Ok (items', rents') -> Forall positive items ->
  rents' = rents /\ Forall positive items' /\ needed items' = needed items + sumZ (map (rentNeed chain) l).
Proof.
  intros Hm. revert items. induction l as [|c l IH]; intros items Hc H Hp; cbn [foldR] in H; [injection H as <- <-; split_and!; [done..|cbn; lia]|].
  apply bind_Ok in H as ([items1 rents1] & H1 & H). cbn [map]. rewrite sumZ_cons. unfold rentNeed at 1. rewrite <- Hc by set_solver.
  unfold addRentItem in H1. cbn [fst snd] in H1. assert (Hl : forall c', c' ∈ l -> candidateExists existing c' = default (isPresent (chain (rc_account c'))) (rc_exists c')) by (intros; apply Hc; set_solver).
  destruct (candidateExists existing c); [injection H1 as <- <-; destruct (IH _ Hl H Hp) as (? & ? & ->); split_and!; [done..|lia]|].
  unfold resolveRentExemptionLamports in H1. rewrite Hm in H1. cbn [andb mbind result_bind] in H1. injection H1 as <- <-.
  change (getStaticMainnetRentExemptionLamports (rc_space c)) with ((rc_space c + 128) * 6960) in H. destruct (Z.leb_spec ((rc_space c + 128) * 6960) 0).
  - destruct (IH _ Hl H Hp) as (? & ? & ->). split_and!; [done..|lia].
  - destruct (item_positive (Some (toBase58 (rc_account c))) (rc_kind c) (rc_label c) ((rc_space c + 128) * 6960) (rc_stage c)) as [Hi Hn]; [lia|].
    destruct (IH _ Hl H) as (? & ? & ->); [by apply Forall_app; auto|]. split_and!; [done..|]. rewrite needed_app, Hn. lia.
Qed.

Lemma fee_items fee l index : Forall positive (feeItems index l (map fee l)) /\ needed (feeItems index l (map fee l)) = sumZ (map (fun p => Z.max 0 (fee p)) l).
Proof.
  revert index. induction l as [|p l IH]; intros index; cbn [map feeItems]; [done|]. destruct (IH (index + 1)) as [H1 H2].
  rewrite needed_app, sumZ_cons, H2. destruct (Z.leb_spec (fee p) 0) as [Hz|Hz].
  - cbn [app]. split; [done|]. unfold needed. cbn. lia.
  - destruct (item_positive None TransactionFee "Estimated transaction fee" (fee p)
      (if String.eqb (po_operation p) EmptyString then "transaction_" +:+ bigint_toString (index + 1) else po_operation p) Hz) as [Hi ->].
    split; [by apply Forall_app; auto|lia].
Qed.

(** On mainnet, and with rents computed, the SOL requirement of an operation is exactly the top-ups asked for, the rent of every account that is not there yet and
    the fee of every prepared transaction; the items listed add up to it; and the payer can proceed exactly when the balance covers it, the deficit being what is missing. *)
Theorem native_sol_exact (connection : InjectableConnection) (args : EstimateArgs) (rents rents' : list (string * Z)) (r : NativeSolRequirement)
    (chain : pubkey -> option AccountInfo) :
  getMultipleAccountsInfo connection = Some (fun _ => Ok chain) -> ea_preferStaticMainnetRent args = true -> isMainnetOrUnknown (ea_cluster args) = true ->
  estimateNativeSolRequirement connection args rents = Ok (r, rents') ->
  exists required balance,
    ns_requiredLamports r = bigint_toString required /\ ns_balanceLamports r = bigint_toString balance /\
    required = sumZ (map fixedNeed (ea_fixedItems args)) + sumZ (map (rentNeed chain) (ea_rentCandidates args)) +
               sumZ (map (fun p => Z.max 0 (preparedFee connection args p)) (ea_prepared args)) /\
    required = needed (ns_items r) /\ Forall positive (ns_items r) /\
    (ns_canProceed r = true <-> required <= balance) /\ ns_deficitLamports r = bigint_toString (Z.max 0 (required - balance)) /\
    match ea_balanceLamports args with
    | Some lamports => toLamportsBigInt lamports = Ok balance
    | None => match ea_checkBalance args, getBalance connection with
              | true, Some read => read (ea_payer args) = Ok balance
              | _, _ => balance = required
              end
    end.
Proof.
  intros Hc Hs Hm H. unfold estimateNativeSolRequirement in H. cbv zeta in H. apply bind_Ok in H as (queried & Hq & H).
  apply bind_Ok in H as (fixed & Hf & H). apply bind_Ok in H as ([withRents rents1] & Hr & H). apply bind_Ok in H as (required & Ht & H).
  apply bind_Ok in H as (balance & Hb & [= <- <-]). rewrite Hs in Hr. apply fixed_items in Hf as [Pf Nf]; [|by apply Forall_nil].
  apply (rent_items _ _ _ chain) in Hr as (_ & Pr & Nr); [|done| |done].
  2:{ intros c Hin. unfold candidateExists. destruct (rc_exists c) as [known|] eqn:E; [done|]. apply existing_exact; [done|].
      apply list_elem_of_fmap. exists c. split; [done|]. apply list_elem_of_In, filter_In. split; [by apply list_elem_of_In|by rewrite E]. }
  destruct (fee_items (preparedFee connection args) (ea_prepared args) 0) as [Pe Ne].
  assert (Pi : Forall positive (withRents ++ feeItems 0 (ea_prepared args) (map (preparedFee connection args) (ea_prepared args)))) by by apply Forall_app.
  rewrite (items_total _ Pi) in Ht. injection Ht as <-. exists (needed (withRents ++ feeItems 0 (ea_prepared args) (map (preparedFee connection args) (ea_prepared args)))), balance.
  cbn. split_and!; try done.
  - rewrite needed_app, Nr, Nf, Ne. unfold needed at 1. cbn. lia.
  - destruct (Z.ltb_spec balance (needed (withRents ++ feeItems 0 (ea_prepared args) (map (preparedFee connection args) (ea_prepared args))))); lia.
  - f_equal. destruct (Z.ltb_spec balance (needed (withRents ++ feeItems 0 (ea_prepared args) (map (preparedFee connection args) (ea_prepared args))))); lia.
  - unfold queriedBalance in Hq. destruct (ea_balanceLamports args); [done|]. destruct (ea_checkBalance args), (getBalance connection) as [read|];
      try (injection Hq as <-; injection Hb as <-; done). apply bind_Ok in Hq as (l & Hl & [= <-]). injection Hb as <-. done.
Qed.
End NativeSol.

Module NativeSolWitness.
Import DemoKeys.

Definition payer : key := key_of 50.
Definition missing : key := key_of 51.
Definition there : key := key_of 52.
Definition someAccounts (k : key) : option AccountInfo :=
  if bool_decide (k = there) then Some {| info_executable := false; info_lamports := 1; info_owner := payer; info_data := [] |} else None.
Definition demoConnection : @InjectableConnection demo_keys unit := {|
  getMultipleAccountsInfo := Some (fun _ => Ok someAccounts); getAccountInfo := None; getMinimumBalanceForRentExemption := None; getFeeForMessage := None;
  getBalance := Some (fun _ => Ok 2000000) |}.
Definition oneSigner : PreparedOperation unit :=
  Prepared [Instruction (key_of 3) [Meta payer true true] []] [] "demo" payer (key_of 3) true None.

(** Two accounts to create, one of which is there, a top-up and a transaction *)
Definition demoArgs : EstimateArgs := {|
  ea_balanceLamports := None; ea_balanceSource := None; ea_checkBalance := true; ea_cluster := Some MainnetBeta; ea_estimateFees := true;
  ea_fixedItems := [{| fi_account := None; fi_kind := KaminoSetupTopUp; fi_label := "top-up"; fi_lamports := LamportsNumber 1000; fi_stage := "setup" |}];
  ea_payer := payer; ea_preferStaticMainnetRent := true; ea_prepared := [oneSigner];
  ea_rentCandidates := map (fun k => {| rc_account := k; rc_exists := None; rc_kind := TokenAccountRent; rc_label := "rent"; rc_space := 165; rc_stage := "setup" |}) [missing; there] |}.
Definition demoRequirement : result (NativeSolRequirement * list (string * Z)) := estimateNativeSolRequirement (fun _ => Ok 1) demoConnection demoArgs [].

Example demo_requirement : (fun r => (ns_requiredLamports r.1, ns_canProceed r.1, ns_deficitLamports r.1)) <$> demoRequirement = Ok ("2045280"%string, false, "45280"%string).
Proof. vm_compute. reflexivity. Qed.

Lemma native_sol_exact_witness : exists r required, fst <$> demoRequirement = Ok r /\ ns_requiredLamports r = bigint_toString required /\ required = needed (ns_items r).
Proof.
  assert (H : is_ok demoRequirement = true) by (vm_compute; reflexivity). destruct demoRequirement as [[r rents]|] eqn:E; [|discriminate H].
  destruct (native_sol_exact (PK := demo_keys) (fun _ => Ok 1) demoConnection demoArgs [] rents r someAccounts eq_refl eq_refl eq_refl E) as (required & balance & Hr & _ & _ & Hn & _).
  exists r, required. exact (conj eq_refl (conj Hr Hn)).
Defined.
End NativeSolWitness.
