(* ===== verification/TransactionProof.v ===== *)
(** Evidence of a transaction, as the confirmation services read it
    (web/apps/web/src/lib/yield-optimization: earn-deposit-confirm.server.ts and earn-withdraw-confirm.server.ts): polling of
    lagging reads, the slot a signature is confirmed at, and what a transaction did to the token balances.

    The answers of the RPC at each attempt are arguments. A slot is an integer. *)
From S2P Require Import Prelude JsString JsMap Solana Holdings.

(** ** Polling *)
Definition RPC_VERIFY_ATTEMPTS := 6%nat.
Definition RPC_VERIFY_DELAY_MS := 500.

(** From attempt [attempt] on, with [remaining] attempts left *)
Fixpoint pollFrom {T} (read : nat -> result (option T)) (attempt remaining : nat) : result (option T) :=
  match remaining with
  | O => Ok None
  | S remaining =>
      value ← read attempt;
      match value with Some v => Ok (Some v) | None => pollFrom read (S attempt) remaining end
  end.
Definition pollRpcRead {T} (read : nat -> result (option T)) : result (option T) := pollFrom read 0 RPC_VERIFY_ATTEMPTS.

(** A poll gives the first value, after reads that all gave none. *)
Lemma poll_from_some {T} (read : nat -> result (option T)) v n : forall i, pollFrom read i n = Ok (Some v) ->
  exists j, (j < n)%nat /\ read (i + j)%nat = Ok (Some v) /\ forall k, (k < j)%nat -> read (i + k)%nat = Ok None.
Proof.
  induction n as [|n IH]; intros i H; [done|]. cbn in H. apply bind_Ok in H as (o & Ho & H). destruct o as [w|].
  - injection H as ->. exists 0%nat. rewrite Nat.add_0_r. split; [lia|]. split; [done|]. intros k Hk. lia.
  - destruct (IH _ H) as (j & Hj & Hr & Hk). exists (S j). replace (i + S j)%nat with (S i + j)%nat by lia. split; [lia|]. split; [done|].
    intros [|k] Hlt; [by rewrite Nat.add_0_r|]. replace (i + S k)%nat with (S i + k)%nat by lia. apply Hk. lia.
Qed.

Lemma poll_some {T} (read : nat -> result (option T)) v : pollRpcRead read = Ok (Some v) -> exists j, (j < 6)%nat /\ read j = Ok (Some v).
Proof. intros H. destruct (poll_from_some read v 6 0 H) as (j & Hj & Hr & _). by exists j. Qed.

(** A poll gives none only when every read did. *)
Lemma poll_none {T} (read : nat -> result (option T)) n : forall i, pollFrom read i n = Ok None -> forall j, (j < n)%nat -> read (i + j)%nat = Ok None.
Proof.
  induction n as [|n IH]; intros i H j Hj; [lia|]. cbn in H. apply bind_Ok in H as (o & Ho & H). destruct o as [w|]; [done|].
  destruct j as [|j]; [by rewrite Nat.add_0_r|]. replace (i + S j)%nat with (S i + j)%nat by lia. apply (IH (S i)); [done|lia].
Qed.

(** ** Signatures *)
(** [err] is truthy; a slot that is not a number is [None]. *)
Record SignatureStatus := { sg_err : bool; sg_confirmationStatus : option string; sg_slot : option Z }.

Definition isConfirmedLevel (level : option string) : bool :=
  match level with Some text => String.eqb text "confirmed" || String.eqb text "finalized" | None => false end.

Definition readConfirmedSlot (operation : string) (status : option SignatureStatus) : result (option Z) :=
  match status with
  | None => Ok None
  | Some status =>
      if sg_err status then throwError (operation +:+ " transaction failed on-chain.")
      else if isConfirmedLevel (sg_confirmationStatus status) then Ok (sg_slot status) else Ok None
  end.

Definition resolveConfirmedSignatureSlot (statusAt : nat -> result (option SignatureStatus)) (operation : string) : result Z :=
  slot ← pollRpcRead (fun attempt => status ← statusAt attempt; readConfirmedSlot operation status);
  match slot with Some slot => Ok slot | None => throwError (operation +:+ " transaction is not confirmed.") end.

Definition confirmed_at (statusAt : nat -> result (option SignatureStatus)) (slot : Z) : Prop :=
  exists attempt status, (attempt < 6)%nat /\ statusAt attempt = Ok (Some status) /\ sg_err status = false /\
    isConfirmedLevel (sg_confirmationStatus status) = true /\ sg_slot status = Some slot.

Lemma slot_confirmed statusAt operation slot : resolveConfirmedSignatureSlot statusAt operation = Ok slot -> confirmed_at statusAt slot.
Proof.
  unfold resolveConfirmedSignatureSlot. intros H. apply bind_Ok in H as (o & Ho & H). destruct o as [s|]; [|done]. injection H as ->.
  apply poll_some in Ho as (j & Hj & Hr). apply bind_Ok in Hr as (st & Hst & Hr). unfold readConfirmedSlot in Hr.
  destruct st as [st|]; [|done]. destruct (sg_err st) eqn:Ee; [done|]. destruct (isConfirmedLevel (sg_confirmationStatus st)) eqn:El; [|done].
  injection Hr as Hr. exists j, st. done.
Qed.

(** ** Transactions *)
(** [amount] of [uiTokenAmount], when it is a text *)
Record TokenBalance := { tb_accountIndex : Z; tb_mint : string; tb_owner : option string; tb_amount : option string }.
Record TransactionMeta := { meta_err : bool; preTokenBalances : option (list TokenBalance); postTokenBalances : option (list TokenBalance) }.

Section Transactions.
Context {PK : PublicKeys}.

Record ParsedTransaction := { tx_slot : Z; tx_accountKeys : list pubkey; tx_meta : option TransactionMeta }.

Definition readTokenBalanceAmountRaw (balance : option TokenBalance) : Z :=
  match b ← balance; tb_amount b with
  | Some amount => if all_digits (chars amount) then match BigInt_of_string amount with Ok z => z | Throw _ => 0 end else 0
  | None => 0
  end.

Definition getParsedTransactionAccountKey (transaction : ParsedTransaction) (accountIndex : Z) : option string :=
  if accountIndex <? 0 then None else toBase58 <$> (tx_accountKeys transaction !! Z.to_nat accountIndex).

Definition preOf (transaction : ParsedTransaction) : list TokenBalance := default [] (m ← tx_meta transaction; preTokenBalances m).
Definition postOf (transaction : ParsedTransaction) : list TokenBalance := default [] (m ← tx_meta transaction; postTokenBalances m).

(** The indexes of the accounts of a mint, in order of appearance *)
Definition mintIndexes (mint : string) (transaction : ParsedTransaction) : list Z :=
  unique (map tb_accountIndex (List.filter (fun balance => String.eqb (tb_mint balance) mint) (preOf transaction ++ postOf transaction))).

Definition balanceAt (mint : string) (accountIndex : Z) (balances : list TokenBalance) : option TokenBalance :=
  List.find (fun balance => (tb_accountIndex balance =? accountIndex) && String.eqb (tb_mint balance) mint) balances.

(** [post?.owner ?? pre?.owner ?? null] *)
Definition ownerAt (mint : string) (transaction : ParsedTransaction) (accountIndex : Z) : option string :=
  match b ← balanceAt mint accountIndex (postOf transaction); tb_owner b with
  | Some owner => Some owner
  | None => b ← balanceAt mint accountIndex (preOf transaction); tb_owner b
  end.

Definition changeAt (mint : string) (transaction : ParsedTransaction) (accountIndex : Z) : Z :=
  readTokenBalanceAmountRaw (balanceAt mint accountIndex (postOf transaction)) -
  readTokenBalanceAmountRaw (balanceAt mint accountIndex (preOf transaction)).

(** Of a token account, or without one of an owner *)
Definition deltaMatches (fallbackOwner tokenAccount : option string) (mint : string) (transaction : ParsedTransaction) (accountIndex : Z) : bool :=
  match truthy tokenAccount with
  | Some account => bool_decide (getParsedTransactionAccountKey transaction accountIndex = Some account)
  | None => match truthy fallbackOwner with Some owner => bool_decide (ownerAt mint transaction accountIndex = Some owner) | None => false end
  end.

Definition getParsedTokenBalanceDeltaRaw (fallbackOwner tokenAccount : option string) (mint : string) (transaction : ParsedTransaction) : Z :=
  fold_left (fun deltaRaw accountIndex =>
      if deltaMatches fallbackOwner tokenAccount mint transaction accountIndex
      then deltaRaw + changeAt mint transaction accountIndex else deltaRaw)
    (mintIndexes mint transaction) 0.

(** The deposit's variant: the changes of every owner *)
Definition addOwnerChange (mint : string) (transaction : ParsedTransaction) (deltasByOwner : list (string * Z)) (accountIndex : Z) : list (string * Z) :=
  match truthy (ownerAt mint transaction accountIndex) with
  | None => deltasByOwner
  | Some owner =>
      mapSet deltasByOwner owner
        (default 0 (mapGet deltasByOwner owner) + readTokenBalanceAmountRaw (balanceAt mint accountIndex (postOf transaction)) -
         readTokenBalanceAmountRaw (balanceAt mint accountIndex (preOf transaction)))
  end.
Definition getParsedTokenBalanceDeltasByOwner (mint : string) (transaction : ParsedTransaction) : list (string * Z) :=
  fold_left (addOwnerChange mint transaction) (mintIndexes mint transaction) [].

(** [parsed?.meta ? parsed : null], polled *)
Definition pollTransaction (transactionAt : nat -> result (option ParsedTransaction)) : result (option ParsedTransaction) :=
  pollRpcRead (fun attempt =>
    parsed ← transactionAt attempt;
    Ok match parsed with Some t => match tx_meta t with Some _ => Some t | None => None end | None => None end).

(** ** What a delta is *)
(** Balances as the RPC lists them: an account at most once *)
Definition balances_wf (balances : list TokenBalance) : Prop := NoDup (map tb_accountIndex balances).

(** The tokens of a mint that the accounts [P] hold in a list of balances *)
Definition heldBy (P : Z -> bool) (mint : string) (balances : list TokenBalance) : Z :=
  sumZ (map (fun b => if P (tb_accountIndex b) && String.eqb (tb_mint b) mint then readTokenBalanceAmountRaw (Some b) else 0) balances).

Lemma fold_sum {A} (P : A -> bool) (f : A -> Z) l acc :
  fold_left (fun s x => if P x then s + f x else s) l acc = acc + sumZ (map (fun x => if P x then f x else 0) l).
Proof. revert acc. induction l as [|x l IH]; intros acc; cbn [fold_left map]; [cbn; lia|]. rewrite IH, sumZ_cons. destruct (P x); lia. Qed.

Lemma sumZ_zero {A} (f : A -> Z) l : (forall x, x ∈ l -> f x = 0) -> sumZ (map f l) = 0.
Proof. induction l as [|x l IH]; intros H; [done|]. cbn [map]. rewrite sumZ_cons, H, IH by set_solver. done. Qed.

Lemma sumZ_minus {A} (f g : A -> Z) l : sumZ (map (fun x => f x - g x) l) = sumZ (map f l) - sumZ (map g l).
Proof. induction l as [|x l IH]; [done|]. cbn [map]. rewrite !sumZ_cons, IH. lia. Qed.

Lemma sumZ_single {A} `{EqDecision A} (f : A -> Z) l x : NoDup l -> x ∈ l -> sumZ (map (fun y => if bool_decide (y = x) then f y else 0) l) = f x.
Proof.
  induction 1 as [|y l Hy _ IH]; intros Hx; [set_solver|]. cbn [map]. rewrite sumZ_cons. apply elem_of_cons in Hx as [->|Hx].
  - rewrite bool_decide_eq_true_2 by done. rewrite sumZ_zero; [lia|]. intros z Hz. by rewrite bool_decide_eq_false_2 by (intros ->; done).
  - rewrite bool_decide_eq_false_2 by (intros ->; done). by rewrite IH.
Qed.

Lemma sumZ_plus {A} (f g : A -> Z) l : sumZ (map (fun x => f x + g x) l) = sumZ (map f l) + sumZ (map g l).
Proof. induction l as [|x l IH]; [done|]. cbn [map]. rewrite !sumZ_cons, IH. lia. Qed.

Lemma balance_absent mint i balances : i ∉ map tb_accountIndex balances -> balanceAt mint i balances = None.
Proof.
  induction balances as [|b l IH]; cbn; [done|]. intros H. apply not_elem_of_cons in H as [Hi H]. replace (tb_accountIndex b =? i) with false by lia. by apply IH.
Qed.

Lemma sum_found (P : Z -> bool) mint (ids : list Z) balances : NoDup ids -> balances_wf balances ->
  (forall b, b ∈ balances -> tb_mint b = mint -> tb_accountIndex b ∈ ids) ->
  sumZ (map (fun i => if P i then readTokenBalanceAmountRaw (balanceAt mint i balances) else 0) ids) = heldBy P mint balances.
Proof.
  intros Hn. unfold heldBy. induction balances as [|b l IH]; intros Hw Hin; [apply sumZ_zero; intros i _; by destruct (P i)|].
  apply NoDup_cons in Hw as [Hb Hw]. cbn [map]. rewrite sumZ_cons, <- IH; [|done|set_solver].
  destruct (String.eqb_spec (tb_mint b) mint) as [Hm|Hm].
  - rewrite andb_true_r, <- (sumZ_single (fun i => if P i then readTokenBalanceAmountRaw (Some b) else 0) ids (tb_accountIndex b)), <- sumZ_plus by set_solver.
    f_equal. apply map_ext_in. intros i _.
    change (balanceAt mint i (b :: l)) with (if (tb_accountIndex b =? i) && String.eqb (tb_mint b) mint then Some b else balanceAt mint i l).
    rewrite Hm, String.eqb_refl, andb_true_r.
    destruct (Z.eqb_spec (tb_accountIndex b) i) as [<-|Hi]; [|rewrite bool_decide_eq_false_2 by congruence; lia].
    rewrite bool_decide_eq_true_2 by done. rewrite (balance_absent _ _ _ Hb). destruct (P (tb_accountIndex b)); cbn; lia.
  - rewrite andb_false_r, Z.add_0_l. f_equal. apply map_ext. intros i.
    change (balanceAt mint i (b :: l)) with (if (tb_accountIndex b =? i) && String.eqb (tb_mint b) mint then Some b else balanceAt mint i l).
    replace (String.eqb (tb_mint b) mint) with false by (symmetry; by apply String.eqb_neq). by rewrite andb_false_r.
Qed.

Lemma indexes_cover mint t b : b ∈ preOf t \/ b ∈ postOf t -> tb_mint b = mint -> tb_accountIndex b ∈ mintIndexes mint t.
Proof.
  intros Hb Hm. unfold mintIndexes. apply unique_elem, list_elem_of_In, in_map, filter_In. split; [apply list_elem_of_In, elem_of_app; tauto|].
  by apply String.eqb_eq.
Qed.

(** The changes of the accounts [P], one by one, are what they hold after less what they held before. *)
Lemma delta_held (P : Z -> bool) mint t : balances_wf (preOf t) -> balances_wf (postOf t) ->
  sumZ (map (fun i => if P i then changeAt mint t i else 0) (mintIndexes mint t)) = heldBy P mint (postOf t) - heldBy P mint (preOf t).
Proof.
  intros Hpre Hpost. assert (Hn : NoDup (mintIndexes mint t)) by apply unique_NoDup.
  rewrite <- (sum_found P mint (mintIndexes mint t) (postOf t)), <- (sum_found P mint (mintIndexes mint t) (preOf t)), <- sumZ_minus;
    try done; [|intros b ? ?; by apply indexes_cover; [left|]|intros b ? ?; by apply indexes_cover; [right|]].
  f_equal. apply map_ext. intros i. unfold changeAt. destruct (P i); lia.
Qed.

Lemma token_delta fallbackOwner account mint t : balances_wf (preOf t) -> balances_wf (postOf t) ->
  getParsedTokenBalanceDeltaRaw fallbackOwner account mint t =
  heldBy (deltaMatches fallbackOwner account mint t) mint (postOf t) - heldBy (deltaMatches fallbackOwner account mint t) mint (preOf t).
Proof. intros Hpre Hpost. unfold getParsedTokenBalanceDeltaRaw. rewrite fold_sum, delta_held by done. lia. Qed.

(** The two services compute the same change of an owner. *)
Lemma owner_delta mint t owner :
  default 0 (mapGet (getParsedTokenBalanceDeltasByOwner mint t) owner) = getParsedTokenBalanceDeltaRaw (Some owner) None mint t.
Proof.
  unfold getParsedTokenBalanceDeltasByOwner, getParsedTokenBalanceDeltaRaw. rewrite fold_sum.
  enough (H : forall l m, default 0 (mapGet (fold_left (addOwnerChange mint t) l m) owner) =
    default 0 (mapGet m owner) + sumZ (map (fun x => if deltaMatches (Some owner) None mint t x then changeAt mint t x else 0) l)) by (rewrite H; cbn; lia).
  induction l as [|i l IH]; intros m; cbn [fold_left map]; [cbn; lia|]. rewrite IH, sumZ_cons. unfold addOwnerChange, deltaMatches at 2. cbn [truthy].
  destruct (String.eqb_spec owner EmptyString) as [He|Hne].
  { destruct (ownerAt mint t i) as [o|]; cbn [truthy]; [|lia]. destruct (String.eqb_spec o EmptyString) as [|Ho]; [lia|]. rewrite mapGet_set.
    destruct (String.eqb_spec o owner); [congruence|lia]. }
  destruct (ownerAt mint t i) as [o|]; cbn [truthy]; [|rewrite bool_decide_eq_false_2 by done; lia].
  destruct (String.eqb_spec o EmptyString) as [->|Ho]; [rewrite bool_decide_eq_false_2 by congruence; lia|]. rewrite mapGet_set.
  destruct (String.eqb_spec o owner) as [->|Hoo].
  - rewrite bool_decide_eq_true_2 by done. cbn. unfold changeAt. lia.
  - rewrite bool_decide_eq_false_2 by congruence. lia.
Qed.
End Transactions.
