(* ===== verification/EarnConfirm.v ===== *)
(** The services that confirm deposits, withdrawals and clean-ups
    (web/apps/web/src/lib/yield-optimization: earn-deposit-confirm.server.ts, earn-withdraw-confirm.server.ts,
    earn-withdraw-proof.shared.ts, earn-cleanup-confirm.server.ts, and assertSafeEarnReserveMetadata of
    earn-reserve-target.server.ts): the canonical form of what a client says, the evidence of its transaction, and for a
    full exit the proof of FullExit.v. The inputs are those of ConfirmContracts.v.

    The program id that [pda] defaults to is a parameter, as are the answers of the RPC at each attempt; the alarm of a deposit into
    an ineligible reserve, which changes nothing, is left out. *)
From S2P Require Import Prelude JsString JsMap Solana Bytes PreparedWire EarnWire Subscriptions Protocols Registry Voltr RpcFetch Pda Kamino Holdings FullExit WithdrawInput ConfirmContracts TransactionProof.

(** ** Verdicts *)
Inductive verdict (A : Type) := Accepted (a : A) | Rejected (status : Z) (code message : string) | Faulted (e : exn).
Arguments Accepted {A} a.
Arguments Rejected {A} status code message.
Arguments Faulted {A} e.

#[export] Instance verdict_bind : MBind verdict := fun A C f m =>
  match m with Accepted a => f a | Rejected status code message => Rejected status code message | Faulted e => Faulted e end.

(** [try { ... } catch (error) { reject(status, code, error.message) }] *)
Definition orReject {A} (status : Z) (code : string) (r : result A) : verdict A :=
  match r with Ok a => Accepted a | Throw e => Rejected status code (exn_message e) end.
Definition orFault {A} (r : result A) : verdict A := match r with Ok a => Accepted a | Throw e => Faulted e end.

Lemma accepted_bind {A C} (m : verdict A) (f : A -> verdict C) c : (m ≫= f) = Accepted c <-> exists a, m = Accepted a /\ f a = Accepted c.
Proof. destruct m; cbn; naive_solver. Qed.
Lemma orReject_accepted {A} status code (r : result A) a : orReject status code r = Accepted a <-> r = Ok a.
Proof. destruct r; cbn; naive_solver. Qed.
Lemma orFault_accepted {A} (r : result A) a : orFault r = Accepted a <-> r = Ok a.
Proof. destruct r; cbn; naive_solver. Qed.

Record EarnConfirmPrincipal := { pr_walletAddress : string; pr_smartAccountAddress : string; pr_settingsPda : string }.

Definition MAX_SAFE := 9007199254740991.

Definition assertCanonicalField (operation : string) (equal : bool) (label : string) : result unit :=
  if equal then Ok tt else throwError (label +:+ " does not match the canonical earn " +:+ operation +:+ " metadata.").

Definition toSafePolicySeed (policySeed : Z) : result Z :=
  if (policySeed <=? 0) || (MAX_SAFE <? policySeed) then throwError "policySeed is outside the supported earn policy range." else Ok policySeed.

Definition same (a b : string) : bool := String.eqb a b.
Definition sameOption {A} `{EqDecision A} (a b : option A) : bool := bool_decide (a = b).

Section Confirm.
Context {PK : PublicKeys} {KB : KeyBytes PK} {B : BeetUints} {TL : TokenLayouts PK}.

(** [PROGRAM_ID] of the generated client *)
Context (PROGRAM_ID : pubkey).

(** The addresses a settings account and a policy seed determine *)
Record CanonicalAddresses := { ca_settings : pubkey; ca_policyAccount : pubkey; ca_setupPolicyAccount : pubkey; ca_vault : pubkey }.

Definition canonicalAddresses (settingsText : string) (policySeed : Z) : result CanonicalAddresses :=
  settings ← newPublicKey settingsText;
  seed ← toSafePolicySeed policySeed;
  policyAccount ← derivePda (PolicyPda settings seed) PROGRAM_ID;
  setupSeed ← toSafePolicySeed (policySeed + 1);
  setupPolicyAccount ← derivePda (PolicyPda settings setupSeed) PROGRAM_ID;
  vault ← getSmartAccountPda settings EARN_VAULT_INDEX PROGRAM_ID;
  Ok {| ca_settings := settings; ca_policyAccount := policyAccount; ca_setupPolicyAccount := setupPolicyAccount; ca_vault := vault |}.

(** ** Withdrawals *)
Definition withdrawalField := assertCanonicalField "withdrawal".

Definition isSome {A} (o : option A) : bool := match o with Some _ => true | None => false end.
Definition hasSetupPolicyMetadata (i : ConfirmedYieldWithdrawalInput) : bool :=
  isSome (cw_setupPolicyId i) || isSome (cw_setupPolicyAccount i) || isSome (cw_setupPolicySeed i).

Definition withdrawalSourceType (i : ConfirmedYieldWithdrawalInput) : SourceType := default SourceReserve (cw_sourceType i).

Record WithdrawalPlace := { pl_market : option string; pl_sourceTokenAccount : option string; pl_targetReserve : string }.

Definition withdrawalPlace (i : ConfirmedYieldWithdrawalInput) (asset : EarnProductAsset) (vault : pubkey) : result WithdrawalPlace :=
  match withdrawalSourceType i with
  | SourceIdle =>
      ata ← associatedTokenAddress (pa_mint asset) vault true (pa_tokenProgramId asset);
      let vaultLiquidityAta := toBase58 ata in
      if isSome (cw_market i) then throwError "Earn idle withdrawal market must be null."
      else if negb (sameOption (cw_sourceTokenAccount i) (Some vaultLiquidityAta))
      then throwError "Earn idle withdrawal source token account does not match the vault mint account."
      else if match cw_sourceMint i with Some mint => negb (same mint (toBase58 (pa_mint asset))) | None => false end
      then throwError "Earn idle withdrawal source mint does not match the withdrawal mint."
      else if negb (same (cw_targetReserve i) vaultLiquidityAta) then throwError "Earn idle withdrawal target does not match the vault mint account."
      else Ok {| pl_market := None; pl_sourceTokenAccount := Some vaultLiquidityAta; pl_targetReserve := vaultLiquidityAta |}
  | SourceReserve =>
      match truthy (cw_market i) with
      | None => throwError "Earn reserve withdrawal market is required."
      | Some market =>
          _ ← newPublicKey market;
          _ ← newPublicKey (cw_targetReserve i);
          Ok {| pl_market := Some market; pl_sourceTokenAccount := cw_sourceTokenAccount i; pl_targetReserve := cw_targetReserve i |}
      end
  end.

(** [{ ...requestInput, ... }] with the canonical fields *)
Definition withCanonical (i : ConfirmedYieldWithdrawalInput) (cluster : LoyalCluster) (asset : EarnProductAsset) (place : WithdrawalPlace)
    (a : CanonicalAddresses) : ConfirmedYieldWithdrawalInput := {|
  cw_autodepositClose := cw_autodepositClose i; cw_cluster := LoyalCluster_value cluster; cw_confirmedSlot := cw_confirmedSlot i;
  cw_delegatedSigner := cw_delegatedSigner i; cw_liquidityMint := toBase58 (pa_mint asset); cw_market := pl_market place; cw_mode := cw_mode i;
  cw_policyAccount := toBase58 (ca_policyAccount a); cw_policyId := cw_policySeed i; cw_policySeed := cw_policySeed i;
  cw_setupPolicyAccount := if hasSetupPolicyMetadata i then Some (toBase58 (ca_setupPolicyAccount a)) else cw_setupPolicyAccount i;
  cw_setupPolicyId := if hasSetupPolicyMetadata i then Some (cw_policySeed i + 1) else cw_setupPolicyId i;
  cw_setupPolicySeed := if hasSetupPolicyMetadata i then Some (cw_policySeed i + 1) else cw_setupPolicySeed i;
  cw_settings := cw_settings i; cw_smartAccountAddress := toBase58 (ca_vault a); cw_accountingReserve := cw_accountingReserve i;
  cw_executionReserve := cw_executionReserve i; cw_isFinalStep := cw_isFinalStep i; cw_reserveWithdrawals := cw_reserveWithdrawals i;
  cw_requestedWithdrawAmountRaw := cw_requestedWithdrawAmountRaw i; cw_sourceAmountRaw := cw_sourceAmountRaw i; cw_sourceId := cw_sourceId i;
  cw_sourceMetadata := cw_sourceMetadata i; cw_sourceMint := cw_sourceMint i; cw_sourceTokenAccount := pl_sourceTokenAccount place;
  cw_sourceType := Some (withdrawalSourceType i); cw_stepCount := cw_stepCount i; cw_stepIndex := cw_stepIndex i;
  cw_targetReserve := pl_targetReserve place; cw_vaultIndex := EARN_VAULT_INDEX; cw_vaultPubkey := toBase58 (ca_vault a);
  cw_walletAddress := cw_walletAddress i; cw_withdrawalSignature := cw_withdrawalSignature i; cw_withdrawnAmountRaw := cw_withdrawnAmountRaw i |}.

Definition createCanonicalWithdrawalInput (i : ConfirmedYieldWithdrawalInput) : result ConfirmedYieldWithdrawalInput :=
  cluster ← normalizeLoyalCluster (cw_cluster i);
  addresses ← canonicalAddresses (cw_settings i) (cw_policySeed i);
  productAsset ← resolveEarnProductAsset cluster (inl (cw_liquidityMint i));
  target ← withdrawalPlace i productAsset (ca_vault addresses);
  let canonical := withCanonical i cluster productAsset target addresses in
  _ ← withdrawalField (same (LoyalCluster_value cluster) (cw_cluster canonical)) "cluster";
  _ ← withdrawalField (same (cw_liquidityMint i) (cw_liquidityMint canonical)) "liquidityMint";
  _ ← withdrawalField (sameOption (cw_market i) (cw_market canonical)) "market";
  _ ← withdrawalField (sameOption (cw_sourceTokenAccount i) (cw_sourceTokenAccount canonical)) "sourceTokenAccount";
  _ ← withdrawalField (same (cw_policyAccount i) (cw_policyAccount canonical)) "policyAccount";
  _ ← withdrawalField (cw_policyId i =? cw_policySeed i) "policyId";
  _ ← withdrawalField (cw_policyId i =? cw_policyId canonical) "policyId";
  _ ← withdrawalField (cw_policySeed i =? cw_policySeed canonical) "policySeed";
  _ ← (if hasSetupPolicyMetadata i then
         _ ← withdrawalField (sameOption (cw_setupPolicyAccount i) (cw_setupPolicyAccount canonical)) "setupPolicyAccount";
         _ ← withdrawalField (sameOption (cw_setupPolicyId i) (cw_setupPolicyId canonical)) "setupPolicyId";
         withdrawalField (sameOption (cw_setupPolicySeed i) (cw_setupPolicySeed canonical)) "setupPolicySeed"
       else Ok tt);
  _ ← withdrawalField (same (cw_targetReserve i) (cw_targetReserve canonical)) "targetReserve";
  _ ← withdrawalField (same (cw_smartAccountAddress i) (cw_smartAccountAddress canonical)) "smartAccountAddress";
  _ ← withdrawalField (cw_vaultIndex i =? cw_vaultIndex canonical) "vaultIndex";
  _ ← withdrawalField (same (cw_vaultPubkey i) (cw_vaultPubkey canonical)) "vaultPubkey";
  if isSome (cw_autodepositClose i)
  then throwError "Withdrawal confirmation cannot include policy close metadata; close policies only after zero-balance verification."
  else Ok canonical.

Record ConfirmedWithdrawalTransactionProof := {
  reserveDebitAmountRaw : Z;
  vaultIdleDeltaRaw : Z;
  vaultIdleTokenAccount : string;
  walletTransferAmountRaw : Z;
}.

Definition resolveConfirmedWithdrawalTransactionProof (transactionAt : nat -> result (option ParsedTransaction)) (solanaEnv : string)
    (input : ConfirmedYieldWithdrawalInput) : result ConfirmedWithdrawalTransactionProof :=
  polled ← pollTransaction transactionAt;
  match polled with
  | None => throwError "Confirmed withdrawal transaction details are unavailable."
  | Some tx =>
      if match tx_meta tx with Some meta => meta_err meta | None => false end then throwError "Withdrawal transaction proof has an execution error."
      else if negb (tx_slot tx =? cw_confirmedSlot input) then throwError "Confirmed withdrawal transaction slot does not match the recorded slot."
      else
        liquidityMint ← newPublicKey (cw_liquidityMint input);
        cluster ← resolveLoyalClusterForSolanaEnv solanaEnv;
        productAsset ← resolveEarnProductAsset cluster (inr liquidityMint);
        wallet ← newPublicKey (cw_walletAddress input);
        walletAta ← associatedTokenAddress liquidityMint wallet false (pa_tokenProgramId productAsset);
        vault ← newPublicKey (cw_vaultPubkey input);
        vaultAta ← associatedTokenAddress liquidityMint vault true (pa_tokenProgramId productAsset);
        let delta owner account := getParsedTokenBalanceDeltaRaw owner account (cw_liquidityMint input) tx in
        let walletAtaDeltaRaw := delta None (Some (toBase58 walletAta)) in
        let walletTransferAmountRaw := if 0 <? walletAtaDeltaRaw then walletAtaDeltaRaw else delta (Some (cw_walletAddress input)) None in
        if walletTransferAmountRaw <=? 0
        then throwError "Confirmed withdrawal transaction does not transfer the withdrawal mint to the authenticated wallet."
        else
          let vaultLiquidityDeltaRaw := delta None (Some (toBase58 vaultAta)) in
          match withdrawalSourceType input with
          | SourceIdle =>
              if (0 <=? vaultLiquidityDeltaRaw) || negb (- vaultLiquidityDeltaRaw =? walletTransferAmountRaw)
              then throwError "Confirmed idle withdrawal does not debit the selected vault token account by the wallet credit amount."
              else Ok {| reserveDebitAmountRaw := 0; vaultIdleDeltaRaw := 0; vaultIdleTokenAccount := toBase58 vaultAta;
                         walletTransferAmountRaw := walletTransferAmountRaw |}
          | SourceReserve =>
              let vaultIdleDeltaRaw := if 0 <? vaultLiquidityDeltaRaw then vaultLiquidityDeltaRaw else 0 in
              Ok {| reserveDebitAmountRaw := walletTransferAmountRaw + vaultIdleDeltaRaw; vaultIdleDeltaRaw := vaultIdleDeltaRaw;
                    vaultIdleTokenAccount := toBase58 vaultAta; walletTransferAmountRaw := walletTransferAmountRaw |}
          end
  end.

(** The fields of the input that later code reads, with the proof's *)
Record ProvenWithdrawal := {
  pw_input : ConfirmedYieldWithdrawalInput;
  pw_withdrawnAmountRaw : Z;
  pw_sourceAmountRaw : option Z;
  confirmedReserveDebitAmountRaw : option Z;
  confirmedVaultIdleDeltaRaw : Z;
  confirmedVaultIdleTokenAccount : string;
  confirmedWalletTransferAmountRaw : Z;
}.

Definition applyConfirmedWithdrawalTransactionProof (input : ConfirmedYieldWithdrawalInput) (proof : ConfirmedWithdrawalTransactionProof) : ProvenWithdrawal :=
  let isReserve := match withdrawalSourceType input with SourceReserve => true | SourceIdle => false end in {|
  pw_input := input;
  pw_withdrawnAmountRaw := walletTransferAmountRaw proof;
  pw_sourceAmountRaw := if isReserve then Some (default (reserveDebitAmountRaw proof) (cw_sourceAmountRaw input)) else cw_sourceAmountRaw input;
  confirmedReserveDebitAmountRaw := if isReserve then Some (reserveDebitAmountRaw proof) else None;
  confirmedVaultIdleDeltaRaw := vaultIdleDeltaRaw proof;
  confirmedVaultIdleTokenAccount := vaultIdleTokenAccount proof;
  confirmedWalletTransferAmountRaw := walletTransferAmountRaw proof |}.

(** The amounts, the place and the identity of a position; its status is "active". *)
Record VerifiedPosition := {
  vp_amountRaw : string;
  vp_liquidityMint : string;
  vp_market : option string;
  vp_observedAt : string;
  vp_observedSlot : string;
  vp_reserve : string;
  vp_id : string;
  vp_supplyApyBps : option string;
}.

Definition isFullMode (input : ConfirmedYieldWithdrawalInput) : bool := match cw_mode input with EarnWire.Full => true | EarnWire.Partial => false end.
Definition isNotFinal (input : ConfirmedYieldWithdrawalInput) : bool := match cw_isFinalStep input with Some false => true | _ => false end.

Definition remainingAfter (w : ProvenWithdrawal) : Z :=
  let sourceAmountRaw := default (pw_withdrawnAmountRaw w) (pw_sourceAmountRaw w) in
  if isFullMode (pw_input w) && negb (isNotFinal (pw_input w)) then 0
  else if pw_withdrawnAmountRaw w <? sourceAmountRaw then sourceAmountRaw - pw_withdrawnAmountRaw w else 0.

Definition serializeVerifiedWithdrawPosition (w : ProvenWithdrawal) (slot : Z) (verifiedAt : string) : VerifiedPosition := {|
  vp_amountRaw := bigint_toString (remainingAfter w); vp_liquidityMint := cw_liquidityMint (pw_input w); vp_market := cw_market (pw_input w);
  vp_observedAt := verifiedAt; vp_observedSlot := bigint_toString slot; vp_reserve := cw_targetReserve (pw_input w);
  vp_id := cw_withdrawalSignature (pw_input w); vp_supplyApyBps := None |}.

Definition withSlot (i : ConfirmedYieldWithdrawalInput) (slot : Z) : ConfirmedYieldWithdrawalInput := {|
  cw_autodepositClose := cw_autodepositClose i; cw_cluster := cw_cluster i; cw_confirmedSlot := slot;
  cw_delegatedSigner := cw_delegatedSigner i; cw_liquidityMint := cw_liquidityMint i; cw_market := cw_market i; cw_mode := cw_mode i;
  cw_policyAccount := cw_policyAccount i; cw_policyId := cw_policyId i; cw_policySeed := cw_policySeed i;
  cw_setupPolicyAccount := cw_setupPolicyAccount i; cw_setupPolicyId := cw_setupPolicyId i; cw_setupPolicySeed := cw_setupPolicySeed i;
  cw_settings := cw_settings i; cw_smartAccountAddress := cw_smartAccountAddress i; cw_accountingReserve := cw_accountingReserve i;
  cw_executionReserve := cw_executionReserve i; cw_isFinalStep := cw_isFinalStep i; cw_reserveWithdrawals := cw_reserveWithdrawals i;
  cw_requestedWithdrawAmountRaw := cw_requestedWithdrawAmountRaw i; cw_sourceAmountRaw := cw_sourceAmountRaw i; cw_sourceId := cw_sourceId i;
  cw_sourceMetadata := cw_sourceMetadata i; cw_sourceMint := cw_sourceMint i; cw_sourceTokenAccount := cw_sourceTokenAccount i;
  cw_sourceType := cw_sourceType i; cw_stepCount := cw_stepCount i; cw_stepIndex := cw_stepIndex i;
  cw_targetReserve := cw_targetReserve i; cw_vaultIndex := cw_vaultIndex i; cw_vaultPubkey := cw_vaultPubkey i;
  cw_walletAddress := cw_walletAddress i; cw_withdrawalSignature := cw_withdrawalSignature i; cw_withdrawnAmountRaw := cw_withdrawnAmountRaw i |}.

Inductive WithdrawStatus := WithdrawalRecorded | ExitStatusOf (st : ExitStatus).

Record RemainingHolding := { rh_amountRaw : string; rh_kind : HoldingKind; rh_liquidityMint : string; rh_market : option string; rh_reserve : option string }.
Definition remainingHolding (holding : EarnRpcHolding) : RemainingHolding := {|
  rh_amountRaw := amountRaw holding; rh_kind := h_kind holding; rh_liquidityMint := h_liquidityMint holding; rh_market := h_market holding;
  rh_reserve := h_reserve holding |}.

Record EarnWithdrawConfirmationResult := {
  er_blockingTokenAccounts : list ProofTokenAccount;
  er_position : VerifiedPosition;
  er_remainingHoldings : list RemainingHolding;
  er_status : WithdrawStatus;
}.

Definition toSafeContextSlot (slot : Z) : result Z :=
  if negb (isSafeInteger slot) || (slot <? 0) then throwError "Confirmed withdrawal slot is outside the safe RPC range." else Ok slot.

(** What the services ask of the RPC: the statuses of a signature and the transaction of a signature, at each attempt *)
Record ConfirmRpc := {
  statusOf : string -> nat -> result (option SignatureStatus);
  transactionOf : string -> nat -> result (option ParsedTransaction);
}.

Context (localeCompare : string -> string -> Z) (errorCode : exn -> option Z).

Definition clusterMismatch (operation : string) : string :=
  "Confirmed yield " +:+ operation +:+ " cluster does not match the configured Solana environment.".

(** The exit proof of a final step, in its [try] block; of the policy the proof reads the vault index. *)
Definition proveExit (cluster : LoyalCluster) (connection : Connection) (input : ConfirmedYieldWithdrawalInput) (programIdText : string)
    (now : nat -> string) : result EarnFullExitZeroProof :=
  minContextSlot ← toSafeContextSlot (cw_confirmedSlot input);
  programId ← newPublicKey programIdText;
  settingsPda ← newPublicKey (cw_settings input);
  verifyEarnFullExitZeroBalances localeCompare errorCode cluster connection minContextSlot
    {| kaminoLiquidityMints := None; kaminoMarkets := None; stableMints := None; vaultIndex := cw_vaultIndex input |} programId settingsPda now.

Definition verifyConfirmedEarnWithdrawal (principal : EarnConfirmPrincipal) (requestInput : ConfirmedYieldWithdrawalInput) (solanaEnv : string)
    (rpc : ConfirmRpc) (connection : Connection) (programIdText : string) (verifiedAt : string) (now : nat -> string) : verdict EarnWithdrawConfirmationResult :=
  if negb (same (cw_walletAddress requestInput) (pr_walletAddress principal)) || negb (same (cw_settings requestInput) (pr_settingsPda principal))
  then Rejected 403 "principal_mismatch" "Confirmed yield withdrawal does not match the authenticated wallet."
  else
    input ← orReject 400 "metadata_mismatch" (createCanonicalWithdrawalInput requestInput);
    configuredCluster ← orFault (resolveLoyalClusterForSolanaEnv solanaEnv);
    if negb (same (cw_cluster input) (LoyalCluster_value configuredCluster)) then Rejected 400 "cluster_mismatch" (clusterMismatch "withdrawal")
    else
      confirmedSlot ← orReject 400 "unconfirmed_signature" (resolveConfirmedSignatureSlot (statusOf rpc (cw_withdrawalSignature input)) "withdrawal");
      let input := withSlot input confirmedSlot in
      proof ← orReject 400 "invalid_transaction_proof"
        (resolveConfirmedWithdrawalTransactionProof (transactionOf rpc (cw_withdrawalSignature input)) solanaEnv input);
      let proven := applyConfirmedWithdrawalTransactionProof input proof in
      cluster ← orFault (normalizeLoyalCluster (cw_cluster input));
      let position := serializeVerifiedWithdrawPosition proven confirmedSlot verifiedAt in
      let outcome status := Accepted {| er_blockingTokenAccounts := []; er_position := position; er_remainingHoldings := []; er_status := status |} in
      if negb (isFullMode input) then outcome WithdrawalRecorded
      else if isNotFinal input then outcome (ExitStatusOf full_exit_incomplete)
      else
        exit ← orReject 503 "full_exit_verification_retryable" (proveExit cluster connection input programIdText now);
        Accepted {| er_blockingTokenAccounts := blockingTokenAccounts exit; er_position := position;
                    er_remainingHoldings := map remainingHolding (remainingHoldings exit); er_status := ExitStatusOf (status exit) |}.

(** ** Deposits *)
Definition depositField := assertCanonicalField "deposit".

Record ReserveMetadata := { rm_liquidityMint : string; rm_market : string; rm_targetReserve : string }.

Definition assertSafeEarnReserveMetadata (cluster : LoyalCluster) (expectedLiquidityMint liquidityMint : string) (market : option string)
    (targetReserve : string) : result ReserveMetadata :=
  if negb (same liquidityMint expectedLiquidityMint) then throwError "Earn reserve liquidity mint does not match the deposit mint."
  else
    match truthy market with
    | Some text =>
        if member text (map toBase58 (getRiskBasketMarketsForCluster cluster Safe)) then
          _ ← newPublicKey targetReserve;
          _ ← newPublicKey text;
          _ ← newPublicKey liquidityMint;
          Ok {| rm_liquidityMint := liquidityMint; rm_market := text; rm_targetReserve := targetReserve |}
        else throwError "Earn reserve market is not in the Safe universe."
    | None => throwError "Earn reserve market is not in the Safe universe."
    end.

Definition isCreate (i : ConfirmedYieldDepositInput) : bool := match cd_policyInitialization i with PolicyCreate => true | PolicyReuse => false end.
Definition hasDepositSetupMetadata (i : ConfirmedYieldDepositInput) : bool :=
  isSome (cd_setupPolicyId i) || isSome (cd_setupPolicyAccount i) || isSome (cd_setupPolicySeed i).
Definition requiresSetupPolicyMetadata (i : ConfirmedYieldDepositInput) : bool := isCreate i || hasDepositSetupMetadata i.

Definition withCanonicalDeposit (i : ConfirmedYieldDepositInput) (cluster : LoyalCluster) (target : ReserveMetadata) (a : CanonicalAddresses) :
    ConfirmedYieldDepositInput := {|
  cd_cluster := LoyalCluster_value cluster; cd_confirmedSlot := cd_confirmedSlot i; cd_delegatedSigner := cd_delegatedSigner i;
  cd_depositMint := rm_liquidityMint target; cd_depositSignature := cd_depositSignature i; cd_liquidityMint := rm_liquidityMint target;
  cd_market := Some (rm_market target); cd_policyAccount := toBase58 (ca_policyAccount a); cd_policyId := cd_policySeed i;
  cd_policyConfirmedSlot := cd_policyConfirmedSlot i; cd_policyInitialization := cd_policyInitialization i; cd_policySeed := cd_policySeed i;
  cd_policySignature := cd_policySignature i; cd_principalAmountRaw := cd_principalAmountRaw i; cd_settings := cd_settings i;
  cd_setupPolicyAccount := if requiresSetupPolicyMetadata i then Some (toBase58 (ca_setupPolicyAccount a)) else cd_setupPolicyAccount i;
  cd_setupPolicyConfirmedSlot := cd_setupPolicyConfirmedSlot i;
  cd_setupPolicyId := if requiresSetupPolicyMetadata i then Some (cd_policySeed i + 1) else cd_setupPolicyId i;
  cd_setupPolicySeed := if requiresSetupPolicyMetadata i then Some (cd_policySeed i + 1) else cd_setupPolicySeed i;
  cd_setupPolicySignature := cd_setupPolicySignature i; cd_smartAccountAddress := toBase58 (ca_vault a); cd_targetReserve := rm_targetReserve target;
  cd_targetSupplyApyBps := cd_targetSupplyApyBps i; cd_vaultIndex := EARN_VAULT_INDEX; cd_vaultPubkey := toBase58 (ca_vault a);
  cd_walletAddress := cd_walletAddress i |}.

Definition createCanonicalDepositInput (i : ConfirmedYieldDepositInput) : result ConfirmedYieldDepositInput :=
  cluster ← normalizeLoyalCluster (cd_cluster i);
  addresses ← canonicalAddresses (cd_settings i) (cd_policySeed i);
  productAsset ← resolveEarnProductAsset cluster (inl (cd_liquidityMint i));
  target ← assertSafeEarnReserveMetadata cluster (toBase58 (pa_mint productAsset)) (cd_liquidityMint i) (cd_market i) (cd_targetReserve i);
  if match cd_targetSupplyApyBps i with Some apy => apy <? 0 | None => false end then throwError "Earn target APY evidence cannot be negative."
  else
    let canonical := withCanonicalDeposit i cluster target addresses in
    _ ← depositField (same (LoyalCluster_value cluster) (cd_cluster canonical)) "cluster";
    _ ← depositField (same (cd_depositMint i) (cd_depositMint canonical)) "depositMint";
    _ ← depositField (same (cd_liquidityMint i) (cd_liquidityMint canonical)) "liquidityMint";
    _ ← depositField (sameOption (cd_market i) (cd_market canonical)) "market";
    _ ← depositField (same (cd_policyAccount i) (cd_policyAccount canonical)) "policyAccount";
    _ ← depositField (cd_policyId i =? cd_policySeed i) "policyId";
    _ ← depositField (cd_policyId i =? cd_policyId canonical) "policyId";
    _ ← depositField (cd_policySeed i =? cd_policySeed canonical) "policySeed";
    _ ← (if isCreate i then
           if negb (isSome (cd_policyConfirmedSlot i)) then throwError "policyConfirmedSlot is required for policy creation."
           else if negb (isSome (truthy (cd_setupPolicySignature i))) then throwError "setupPolicySignature is required for policy creation."
           else if negb (isSome (cd_setupPolicyConfirmedSlot i)) then throwError "setupPolicyConfirmedSlot is required for policy creation."
           else Ok tt
         else Ok tt);
    _ ← (if requiresSetupPolicyMetadata i then
           _ ← depositField (sameOption (cd_setupPolicyAccount i) (cd_setupPolicyAccount canonical)) "setupPolicyAccount";
           _ ← depositField (sameOption (cd_setupPolicyId i) (cd_setupPolicyId canonical)) "setupPolicyId";
           depositField (sameOption (cd_setupPolicySeed i) (cd_setupPolicySeed canonical)) "setupPolicySeed"
         else Ok tt);
    _ ← (if (isSome (cd_setupPolicySignature i) || isSome (cd_setupPolicyConfirmedSlot i)) &&
            (negb (isSome (truthy (cd_setupPolicySignature i))) || negb (isSome (cd_setupPolicyConfirmedSlot i)))
         then throwError "Setup policy confirmation metadata is incomplete." else Ok tt);
    _ ← depositField (same (cd_targetReserve i) (cd_targetReserve canonical)) "targetReserve";
    _ ← depositField (sameOption (cd_targetSupplyApyBps i) (cd_targetSupplyApyBps canonical)) "targetSupplyApyBps";
    _ ← depositField (same (cd_smartAccountAddress i) (cd_smartAccountAddress canonical)) "smartAccountAddress";
    _ ← depositField (cd_vaultIndex i =? cd_vaultIndex canonical) "vaultIndex";
    _ ← depositField (same (cd_vaultPubkey i) (cd_vaultPubkey canonical)) "vaultPubkey";
    Ok canonical.

(** The owners that may fund a deposit, each once *)
Definition fundingOwners (input : ConfirmedYieldDepositInput) : list string :=
  unique [cd_walletAddress input; cd_smartAccountAddress input; cd_vaultPubkey input].

Definition fundedBy (deltasByOwner : list (string * Z)) (owners : list string) : Z :=
  fold_left (fun total owner => let deltaRaw := default 0 (mapGet deltasByOwner owner) in if deltaRaw <? 0 then total - deltaRaw else total) owners 0.

(** The [principalAmountRaw] of a deposit whose transaction is at slot [confirmedSlot] *)
Definition resolveConfirmedDepositTransactionProof (transactionAt : nat -> result (option ParsedTransaction))
    (input : ConfirmedYieldDepositInput) (confirmedSlot : Z) : result Z :=
  polled ← pollTransaction transactionAt;
  match polled with
  | None => throwError "Confirmed deposit transaction details are unavailable."
  | Some tx =>
      if match tx_meta tx with Some meta => meta_err meta | None => false end then throwError "Deposit transaction proof has an execution error."
      else if negb (tx_slot tx =? confirmedSlot) then throwError "Confirmed deposit transaction slot does not match the recorded slot."
      else
        let principalAmountRaw := fundedBy (getParsedTokenBalanceDeltasByOwner (cd_depositMint input) tx) (fundingOwners input) in
        if principalAmountRaw <=? 0
        then throwError "Confirmed deposit transaction does not debit the deposit mint from the wallet or Earn vault."
        else Ok principalAmountRaw
  end.

(** With the corrected slot and the proven principal *)
Definition serializeVerifiedDepositPosition (input : ConfirmedYieldDepositInput) (slot principalAmountRaw : Z) (verifiedAt : string) : VerifiedPosition := {|
  vp_amountRaw := bigint_toString principalAmountRaw; vp_liquidityMint := cd_liquidityMint input; vp_market := cd_market input;
  vp_observedAt := verifiedAt; vp_observedSlot := bigint_toString slot; vp_reserve := cd_targetReserve input; vp_id := cd_depositSignature input;
  vp_supplyApyBps := bigint_toString <$> cd_targetSupplyApyBps input |}.

(** The corrected slots of the policies stay in the input, which nothing reads afterwards. *)
Definition verifyConfirmedEarnDeposit (principal : EarnConfirmPrincipal) (requestInput : ConfirmedYieldDepositInput) (solanaEnv : string)
    (rpc : ConfirmRpc) (verifiedAt : string) : verdict VerifiedPosition :=
  if negb (same (cd_walletAddress requestInput) (pr_walletAddress principal)) || negb (same (cd_settings requestInput) (pr_settingsPda principal))
  then Rejected 403 "principal_mismatch" "Confirmed yield deposit does not match the authenticated wallet session."
  else
    input ← orReject 400 "metadata_mismatch" (createCanonicalDepositInput requestInput);
    configuredCluster ← orFault (resolveLoyalClusterForSolanaEnv solanaEnv);
    if negb (same (cd_cluster input) (LoyalCluster_value configuredCluster)) then Rejected 400 "cluster_mismatch" (clusterMismatch "deposit")
    else
      confirmedSlot ← orReject 400 "unconfirmed_signature" (resolveConfirmedSignatureSlot (statusOf rpc (cd_depositSignature input)) "deposit");
      principalAmountRaw ← orReject 400 "invalid_deposit_proof"
        (resolveConfirmedDepositTransactionProof (transactionOf rpc (cd_depositSignature input)) input confirmedSlot);
      _ ← (if isCreate input then
             _ ← orReject 400 "unconfirmed_policy_signature"
                   (resolveConfirmedSignatureSlot (statusOf rpc (cd_policySignature input)) "route policy setup");
             orReject 400 "unconfirmed_setup_policy_signature"
               (resolveConfirmedSignatureSlot (statusOf rpc (default EmptyString (cd_setupPolicySignature input))) "setup policy setup")
           else Accepted 0);
      Accepted (serializeVerifiedDepositPosition input confirmedSlot principalAmountRaw verifiedAt).

(** An entry of [getSignaturesForAddress], newest first; [err] is null or not. *)
Record SignatureEntry := { se_signature : string; se_failed : bool; se_slot : Z }.

Definition resolvePolicyCreationSignatureFromChain (signaturesFor : pubkey -> result (list SignatureEntry)) (policyAccount : string) : option (string * string) :=
  match (k ← newPublicKey policyAccount; signaturesFor k) with
  | Ok signatures =>
      (fun creation => (se_signature creation, bigint_toString (se_slot creation))) <$>
        List.find (fun entry => negb (se_failed entry)) (rev signatures)
  | Throw _ => None
  end.

(** ** Clean-up *)
Definition RETRYABLE : string := "full_exit_verification_retryable".

(** An answer of [getTransaction] *)
Record CleanupTransaction := { ct_err : bool; ct_slot : option Z }.

Definition transactionFailed {A} : verdict A := Rejected 400 "cleanup_transaction_failed" "Earn cleanup transaction failed on-chain.".

(** [resolveConfirmedSignatureSlot] of the clean-up *)
Definition resolveCleanupSignatureSlot (statusNow : result (option SignatureStatus)) (transactionNow : result (option CleanupTransaction)) : verdict Z :=
  answered ← orReject 503 RETRYABLE statusNow;
  if match answered with Some st => sg_err st | None => false end then transactionFailed
  else
    match st ← answered; slot ← sg_slot st; if isConfirmedLevel (sg_confirmationStatus st) then Some slot else None with
    | Some slot => Accepted slot
    | None =>
        found ← orReject 503 RETRYABLE transactionNow;
        if match found with Some tx => ct_err tx | None => false end then transactionFailed
        else match tx ← found; ct_slot tx with Some slot => Accepted slot | None => Rejected 503 RETRYABLE "Confirmed transaction slot is unavailable." end
    end.

(** [getMultipleAccountsInfoAndContext] of the connection *)
Definition AccountsNow : Type := Z -> list pubkey -> result RpcAnswer.

Definition verifyPolicyAccountsClosed (accountsNow : AccountsNow) (accounts : list string) (minContextSlot : Z) : verdict unit :=
  answer ← orReject 503 RETRYABLE (keys ← mapR newPublicKey accounts; a ← accountsNow minContextSlot keys; Ok (keys, a));
  if context_slot answer.2 <? minContextSlot
  then Rejected 503 RETRYABLE "Earn policy close proof was observed before the cleanup confirmation slot."
  else if existsb (fun key => isSome (accountAt answer.2 key)) answer.1
  then Rejected 503 RETRYABLE "One or more Earn policy accounts remain open on-chain."
  else Accepted tt.

Definition assertEarnFullExitProven (routePolicy : RoutePolicyRecord) (cluster : LoyalCluster) (connection : Connection) (accountsNow : AccountsNow)
    (minContextSlot : Z) (policyAccounts : list string) (programId settingsPda : pubkey) (now : nat -> string) : verdict unit :=
  proof ← orReject 503 RETRYABLE
    (verifyEarnFullExitZeroBalances localeCompare errorCode cluster connection minContextSlot (serializeRoutePolicyState routePolicy) programId settingsPda now);
  match status proof with
  | policy_close_required => verifyPolicyAccountsClosed accountsNow policyAccounts minContextSlot
  | full_exit_incomplete => Rejected 409 "full_exit_incomplete" "Earn balances remain after cleanup; the position stays active."
  end.

(** ** What a confirmation rests on *)
Context {PL : PublicKeyLaws PK}.

Definition change (P : Z -> bool) (mint : string) (t : ParsedTransaction) : Z := heldBy P mint (postOf t) - heldBy P mint (preOf t).
Definition accountChange (account mint : string) (t : ParsedTransaction) : Z := change (deltaMatches None (Some account) mint t) mint t.
Definition ownerChange (owner mint : string) (t : ParsedTransaction) : Z := change (deltaMatches (Some owner) None mint t) mint t.

Definition rpc_wf (rpc : ConfirmRpc) : Prop := forall signature attempt t, transactionOf rpc signature attempt = Ok (Some t) ->
  balances_wf (preOf t) /\ balances_wf (postOf t).

(** The transaction of a signature ran without error at a slot. *)
Definition executed (rpc : ConfirmRpc) (signature : string) (slot : Z) (t : ParsedTransaction) : Prop :=
  exists attempt meta, (attempt < 6)%nat /\ transactionOf rpc signature attempt = Ok (Some t) /\ tx_slot t = slot /\ tx_meta t = Some meta /\ meta_err meta = false.

Lemma poll_transaction (read : nat -> result (option ParsedTransaction)) t : pollTransaction read = Ok (Some t) ->
  exists attempt meta, (attempt < 6)%nat /\ read attempt = Ok (Some t) /\ tx_meta t = Some meta.
Proof.
  intros H. apply poll_some in H as (j & Hj & H). apply bind_Ok in H as (o & Ho & H). destruct o as [t'|]; [|done].
  destruct (tx_meta t') as [meta|] eqn:E; [|done]. injection H as <-. by exists j, meta.
Qed.

(** The addresses of an input are the ones its settings and policy seed determine. *)
Definition addressed (settings : string) (seed : Z) (policyAccount vaultPubkey smartAccount : string) (index : Z) : Prop :=
  exists a, canonicalAddresses settings seed = Ok a /\ policyAccount = toBase58 (ca_policyAccount a) /\
    vaultPubkey = toBase58 (ca_vault a) /\ smartAccount = toBase58 (ca_vault a) /\ index = EARN_VAULT_INDEX.

Lemma field_ok operation b label u : assertCanonicalField operation b label = Ok u -> b = true.
Proof. unfold assertCanonicalField. by destruct b. Qed.
Lemma same_true a b : same a b = true -> a = b.
Proof. apply String.eqb_eq. Qed.
Lemma sameOption_true {A} `{EqDecision A} (a b : option A) : sameOption a b = true -> a = b.
Proof. apply bool_decide_eq_true_1. Qed.
Lemma cluster_value_inj c d : LoyalCluster_value c = LoyalCluster_value d -> c = d.
Proof. by destruct c, d. Qed.
Lemma normalize_value c : normalizeLoyalCluster (LoyalCluster_value c) = Ok c.
Proof. by destruct c. Qed.

(** Peel the assertions of a canonical input off. *)
Local Ltac peel H := let u := fresh "u" in let F := fresh "F" in apply bind_Ok in H as (u & F & H); try apply field_ok in F.

Lemma canonical_withdrawal i c : createCanonicalWithdrawalInput i = Ok c ->
  exists cluster asset a place, normalizeLoyalCluster (cw_cluster i) = Ok cluster /\ canonicalAddresses (cw_settings i) (cw_policySeed i) = Ok a /\
    resolveEarnProductAsset cluster (inl (cw_liquidityMint i)) = Ok asset /\ cw_liquidityMint i = toBase58 (pa_mint asset) /\
    addressed (cw_settings i) (cw_policySeed i) (cw_policyAccount i) (cw_vaultPubkey i) (cw_smartAccountAddress i) (cw_vaultIndex i) /\
    c = withCanonical i cluster asset place a.
Proof.
  unfold createCanonicalWithdrawalInput. intros H. apply bind_Ok in H as (cluster & Hc & H). apply bind_Ok in H as (a & Ha & H).
  apply bind_Ok in H as (asset & Has & H). apply bind_Ok in H as (place & _ & H). cbv zeta in H. unfold withdrawalField in H.
  set (canonical := withCanonical i cluster asset place a) in *. do 13 peel H. destruct (isSome (cw_autodepositClose i)); [done|]. injection H as <-.
  exists cluster, asset, a, place. do 3 (split; [done|]). split; [by apply same_true|]. split; [|done]. exists a.
  repeat match goal with E : same _ _ = true |- _ => apply same_true in E end. split; [done|]. repeat split; try done. by apply Z.eqb_eq.
Qed.

(** *** Withdrawals *)
(** The amounts a proof takes from a transaction *)
Record withdrawal_amounts (i : ConfirmedYieldWithdrawalInput) (asset : EarnProductAsset) (t : ParsedTransaction) (p : ConfirmedWithdrawalTransactionProof)
    (walletAta vaultAta : pubkey) : Prop := {
  wa_wallet : exists wallet, newPublicKey (cw_walletAddress i) = Ok wallet /\
    associatedTokenAddress (pa_mint asset) wallet false (pa_tokenProgramId asset) = Ok walletAta;
  wa_vault : exists vault, newPublicKey (cw_vaultPubkey i) = Ok vault /\
    associatedTokenAddress (pa_mint asset) vault true (pa_tokenProgramId asset) = Ok vaultAta;
  wa_positive : 0 < walletTransferAmountRaw p;
  wa_credit : walletTransferAmountRaw p =
    let direct := accountChange (toBase58 walletAta) (cw_liquidityMint i) t in
    if 0 <? direct then direct else ownerChange (cw_walletAddress i) (cw_liquidityMint i) t;
  wa_source : let drawn := accountChange (toBase58 vaultAta) (cw_liquidityMint i) t in
    match withdrawalSourceType i with
    | SourceIdle => drawn = - walletTransferAmountRaw p /\ reserveDebitAmountRaw p = 0
    | SourceReserve => reserveDebitAmountRaw p = walletTransferAmountRaw p + Z.max 0 drawn
    end;
}.

Lemma proof_amounts read env i p asset cluster : resolveConfirmedWithdrawalTransactionProof read env i = Ok p ->
  (forall attempt t, read attempt = Ok (Some t) -> balances_wf (preOf t) /\ balances_wf (postOf t)) ->
  resolveLoyalClusterForSolanaEnv env = Ok cluster -> resolveEarnProductAsset cluster (inl (cw_liquidityMint i)) = Ok asset ->
  cw_liquidityMint i = toBase58 (pa_mint asset) ->
  exists attempt meta t walletAta vaultAta, (attempt < 6)%nat /\ read attempt = Ok (Some t) /\ tx_slot t = cw_confirmedSlot i /\ tx_meta t = Some meta /\
    meta_err meta = false /\ withdrawal_amounts i asset t p walletAta vaultAta.
Proof.
  unfold resolveConfirmedWithdrawalTransactionProof. intros H Hwf Hc Has Hm. apply bind_Ok in H as (o & Ho & H). destruct o as [t|]; [|done].
  apply poll_transaction in Ho as (attempt & meta & Hlt & Hread & Hmeta). rewrite Hmeta in H. destruct (meta_err meta) eqn:Ee; [done|].
  destruct (Z.eqb_spec (tx_slot t) (cw_confirmedSlot i)) as [Hs|]; [|done]. cbn [negb] in H.
  apply bind_Ok in H as (mint & Hmint & H). rewrite Hm, newPublicKey_toBase58 in Hmint. injection Hmint as <-.
  rewrite Hc in H. cbn [mbind result_bind] in H. apply bind_Ok in H as (asset' & Has' & H).
  rewrite Hm in Has. cbn in Has. rewrite newPublicKey_toBase58 in Has. change (resolveEarnProductAsset cluster (inr (pa_mint asset)) = Ok asset) in Has.
  rewrite Has in Has'. injection Has' as <-.
  apply bind_Ok in H as (wallet & Hw & H). apply bind_Ok in H as (walletAta & Hwa & H). apply bind_Ok in H as (vault & Hv & H).
  apply bind_Ok in H as (vaultAta & Hva & H). cbv zeta in H. destruct (Hwf _ _ Hread) as [Hpre Hpost]. rewrite !token_delta in H by done.
  fold (change (deltaMatches None (Some (toBase58 walletAta)) (cw_liquidityMint i) t) (cw_liquidityMint i) t) in H.
  fold (change (deltaMatches None (Some (toBase58 vaultAta)) (cw_liquidityMint i) t) (cw_liquidityMint i) t) in H.
  fold (change (deltaMatches (Some (cw_walletAddress i)) None (cw_liquidityMint i) t) (cw_liquidityMint i) t) in H.
  fold (accountChange (toBase58 walletAta) (cw_liquidityMint i) t) (accountChange (toBase58 vaultAta) (cw_liquidityMint i) t)
    (ownerChange (cw_walletAddress i) (cw_liquidityMint i) t) in H.
  exists attempt, meta, t, walletAta, vaultAta. do 5 (split; [done|]).
  set (credit := if 0 <? accountChange (toBase58 walletAta) (cw_liquidityMint i) t then _ else _) in H.
  destruct (Z.leb_spec credit 0) as [|Hcr]; [done|].
  destruct (withdrawalSourceType i) eqn:Es; [|destruct (_ || _) eqn:Eb; [done|]]; injection H as <-.
  - constructor; cbn [walletTransferAmountRaw reserveDebitAmountRaw]; try (by eexists); try done. rewrite Es. cbv zeta. destruct (Z.ltb_spec 0 (accountChange (toBase58 vaultAta) (cw_liquidityMint i) t)); lia.
  - constructor; cbn [walletTransferAmountRaw reserveDebitAmountRaw]; try (by eexists); try done. rewrite Es. cbv zeta. apply orb_false_iff in Eb as [_ Eb]. apply negb_false_iff, Z.eqb_eq in Eb. lia.
Qed.

Lemma amounts_of i c asset t p walletAta vaultAta : cw_walletAddress c = cw_walletAddress i -> cw_vaultPubkey c = cw_vaultPubkey i ->
  cw_liquidityMint c = cw_liquidityMint i -> withdrawalSourceType c = withdrawalSourceType i ->
  withdrawal_amounts c asset t p walletAta vaultAta -> withdrawal_amounts i asset t p walletAta vaultAta.
Proof. intros Hw Hv Hm Hs [H1 H2 H3 H4 H5]. rewrite Hw in H1. rewrite Hv in H2. rewrite Hm, Hw in H4. rewrite Hm, Hs in H5. by constructor. Qed.

(** What the position shows as left *)
Definition left_over (i : ConfirmedYieldWithdrawalInput) (p : ConfirmedWithdrawalTransactionProof) : Z :=
  let held := match cw_sourceAmountRaw i, withdrawalSourceType i with
              | Some amount, _ => amount
              | None, SourceReserve => reserveDebitAmountRaw p
              | None, SourceIdle => walletTransferAmountRaw p
              end in
  if isFullMode i && negb (isNotFinal i) then 0 else Z.max 0 (held - walletTransferAmountRaw p).

(** The policy metadata of an exit proof that no policy narrows *)
Definition unrestricted : EarnRpcPolicyMetadata :=
  {| kaminoLiquidityMints := None; kaminoMarkets := None; stableMints := None; vaultIndex := EARN_VAULT_INDEX |}.

Definition exit_status_sound (i : ConfirmedYieldWithdrawalInput) (cluster : LoyalCluster) (connection : Connection) (programIdText : string) (slot : Z)
    (answer : WithdrawStatus) : Prop :=
  match answer with
  | WithdrawalRecorded => isFullMode i = false
  | ExitStatusOf st => isFullMode i = true /\
      if isNotFinal i then st = full_exit_incomplete
      else exists programId settings, newPublicKey programIdText = Ok programId /\ newPublicKey (cw_settings i) = Ok settings /\
           exit_evidence cluster connection slot unrestricted programId settings st
  end.

Lemma exit_proved cluster connection c programIdText now exit i : (forall attempt, answers_bytes (conn_accounts connection attempt)) ->
  proveExit cluster connection c programIdText now = Ok exit -> cw_settings c = cw_settings i -> cw_vaultIndex c = EARN_VAULT_INDEX ->
  exists programId settings, newPublicKey programIdText = Ok programId /\ newPublicKey (cw_settings i) = Ok settings /\
    exit_evidence cluster connection (cw_confirmedSlot c) unrestricted programId settings (status exit).
Proof.
  unfold proveExit. intros Hb H Hs Hv. apply bind_Ok in H as (min & Hmin & H). unfold toSafeContextSlot in Hmin. destruct (_ || _); [done|]. injection Hmin as <-.
  apply bind_Ok in H as (programId & Hp & H). apply bind_Ok in H as (settings & Hset & H). rewrite Hs in Hset. rewrite Hv in H.
  exists programId, settings. split; [done|]. split; [done|]. by eapply exit_seen.
Qed.

Record withdrawal_evidence (principal : EarnConfirmPrincipal) (i : ConfirmedYieldWithdrawalInput) (env : string) (rpc : ConfirmRpc)
    (connection : Connection) (programIdText : string) (r : EarnWithdrawConfirmationResult)
    (cluster : LoyalCluster) (asset : EarnProductAsset) (slot : Z) (t : ParsedTransaction) (p : ConfirmedWithdrawalTransactionProof)
    (walletAta vaultAta : pubkey) : Prop := {
  we_principal : cw_walletAddress i = pr_walletAddress principal /\ cw_settings i = pr_settingsPda principal;
  we_addressed : addressed (cw_settings i) (cw_policySeed i) (cw_policyAccount i) (cw_vaultPubkey i) (cw_smartAccountAddress i) (cw_vaultIndex i);
  we_cluster : resolveLoyalClusterForSolanaEnv env = Ok cluster /\ normalizeLoyalCluster (cw_cluster i) = Ok cluster;
  we_asset : resolveEarnProductAsset cluster (inl (cw_liquidityMint i)) = Ok asset /\ cw_liquidityMint i = toBase58 (pa_mint asset);
  we_confirmed : confirmed_at (statusOf rpc (cw_withdrawalSignature i)) slot;
  we_executed : executed rpc (cw_withdrawalSignature i) slot t;
  we_amounts : withdrawal_amounts i asset t p walletAta vaultAta;
  we_position : vp_id (er_position r) = cw_withdrawalSignature i /\ vp_observedSlot (er_position r) = bigint_toString slot /\
    vp_liquidityMint (er_position r) = cw_liquidityMint i /\ vp_amountRaw (er_position r) = bigint_toString (left_over i p);
  we_status : exit_status_sound i cluster connection programIdText slot (er_status r);
}.

Lemma remaining_left i c p : cw_mode c = cw_mode i -> cw_isFinalStep c = cw_isFinalStep i -> cw_sourceAmountRaw c = cw_sourceAmountRaw i ->
  withdrawalSourceType c = withdrawalSourceType i ->
  remainingAfter (applyConfirmedWithdrawalTransactionProof c p) = left_over i p.
Proof.
  intros Hm Hf Hs Ht. unfold remainingAfter, left_over, applyConfirmedWithdrawalTransactionProof. cbn [pw_input pw_withdrawnAmountRaw pw_sourceAmountRaw].
  unfold isFullMode, isNotFinal. rewrite Hm, Hf, Hs, Ht. case_match; [done|].
  destruct (cw_sourceAmountRaw i) as [amount|], (withdrawalSourceType i); cbn; match goal with |- context [?x <? ?y] => destruct (Z.ltb_spec x y) end; lia.
Qed.

(** C7. A withdrawal is confirmed only on evidence: the wallet and settings are the session's, the policy account and the vault are
    the ones the settings determine; the signature is confirmed and its transaction ran without error at that slot; the amount is
    the positive change of the wallet's token account of the mint, or failing that of all its accounts; an idle withdrawal drew exactly that amount
    from the vault's account, a reserve withdrawal is charged it plus what the vault's account gained; the position shows what is left of
    the source; and after the final step of a full exit the status is the one of the zero-balance proof at that slot. *)
Theorem withdraw_confirm_sound (principal : EarnConfirmPrincipal) (i : ConfirmedYieldWithdrawalInput) (env : string) (rpc : ConfirmRpc)
    (connection : Connection) (programIdText verifiedAt : string) (now : nat -> string) (r : EarnWithdrawConfirmationResult) :
  rpc_wf rpc -> (forall attempt, answers_bytes (conn_accounts connection attempt)) ->
  verifyConfirmedEarnWithdrawal principal i env rpc connection programIdText verifiedAt now = Accepted r ->
  exists cluster asset slot t p walletAta vaultAta,
    withdrawal_evidence principal i env rpc connection programIdText r cluster asset slot t p walletAta vaultAta.
Proof.
  intros Hwf Hb H. unfold verifyConfirmedEarnWithdrawal in H. destruct (_ || _) eqn:Ep; [done|]. apply orb_false_iff in Ep as [Ew Es].
  apply negb_false_iff, same_true in Ew, Es. apply accepted_bind in H as (c & Hc & H). apply orReject_accepted in Hc.
  apply canonical_withdrawal in Hc as (cluster & asset & a & place & Hn & Ha & Has & Hm & Had & ->).
  apply accepted_bind in H as (configured & Hcl & H). apply orFault_accepted in Hcl. cbn [cw_cluster withCanonical] in H.
  destruct (same _ _) eqn:Ecl; [|done]. apply same_true, cluster_value_inj in Ecl as <-. cbn [negb] in H.
  apply accepted_bind in H as (slot & Hslot & H). apply orReject_accepted, slot_confirmed in Hslot. cbv zeta in H.
  apply accepted_bind in H as (p & Hp & H). apply orReject_accepted in Hp. apply accepted_bind in H as (cluster' & Hcl' & H). apply orFault_accepted in Hcl'.
  cbn [cw_cluster withSlot withCanonical] in Hcl'. rewrite normalize_value in Hcl'. injection Hcl' as <-.
  destruct Had as (a' & Ha' & Hpol & Hvp & Hsm & Hvi). rewrite Ha in Ha'. injection Ha' as <-.
  assert (Hroute : resolveEarnProductAsset cluster (inl (toBase58 (pa_mint asset))) = Ok asset) by (by rewrite <- Hm).
  destruct (proof_amounts _ _ _ _ _ cluster Hp (fun n t => Hwf _ n t) Hcl Hroute eq_refl)
    as (attempt & meta & t & walletAta & vaultAta & Hlt & Hread & Hts & Hmeta & Herr & Ham).
  exists cluster, asset, slot, t, p, walletAta, vaultAta. set (c := withSlot _ slot) in *.
  assert (Hleft : remainingAfter (applyConfirmedWithdrawalTransactionProof c p) = left_over i p) by (by apply remaining_left).
  enough (er_position r = serializeVerifiedWithdrawPosition (applyConfirmedWithdrawalTransactionProof c p) slot verifiedAt /\
          exit_status_sound i cluster connection programIdText slot (er_status r)) as [Hpos Hst].
  { constructor; try done; [by exists a|by exists attempt, meta|by apply (amounts_of i c)|]. rewrite Hpos. cbn. rewrite Hleft. by rewrite Hm. }
  change (isFullMode c) with (isFullMode i) in H. change (isNotFinal c) with (isNotFinal i) in H. unfold exit_status_sound.
  destruct (isFullMode i) eqn:Ef; cbn [negb] in H; [|injection H as <-; done]. destruct (isNotFinal i); [injection H as <-; done|].
  apply accepted_bind in H as (exit & He & [= <-]). apply orReject_accepted in He. split; [done|]. split; [done|]. exact (exit_proved _ _ c _ _ _ i Hb He eq_refl eq_refl).
Qed.

(** *** Deposits *)
Definition debit (owner mint : string) (t : ParsedTransaction) : Z := Z.max 0 (- ownerChange owner mint t).

Record deposit_evidence (principal : EarnConfirmPrincipal) (i : ConfirmedYieldDepositInput) (env : string) (rpc : ConfirmRpc) (v : VerifiedPosition)
    (cluster : LoyalCluster) (asset : EarnProductAsset) (slot : Z) (t : ParsedTransaction) (amount : Z) : Prop := {
  de_principal : cd_walletAddress i = pr_walletAddress principal /\ cd_settings i = pr_settingsPda principal;
  de_addressed : addressed (cd_settings i) (cd_policySeed i) (cd_policyAccount i) (cd_vaultPubkey i) (cd_smartAccountAddress i) (cd_vaultIndex i);
  de_cluster : resolveLoyalClusterForSolanaEnv env = Ok cluster /\ normalizeLoyalCluster (cd_cluster i) = Ok cluster;
  de_asset : resolveEarnProductAsset cluster (inl (cd_liquidityMint i)) = Ok asset /\ cd_liquidityMint i = toBase58 (pa_mint asset) /\
    cd_depositMint i = cd_liquidityMint i;
  de_market : exists market, cd_market i = Some (toBase58 market) /\ market ∈ getRiskBasketMarketsForCluster cluster Safe;
  de_confirmed : confirmed_at (statusOf rpc (cd_depositSignature i)) slot;
  de_executed : executed rpc (cd_depositSignature i) slot t;
  de_amount : 0 < amount /\ amount = debit (cd_walletAddress i) (cd_depositMint i) t +
    if bool_decide (cd_vaultPubkey i = cd_walletAddress i) then 0 else debit (cd_vaultPubkey i) (cd_depositMint i) t;
  de_policies : cd_policyInitialization i = PolicyCreate -> exists signature routeSlot setupSlot,
    cd_setupPolicySignature i = Some signature /\ confirmed_at (statusOf rpc (cd_policySignature i)) routeSlot /\
    confirmed_at (statusOf rpc signature) setupSlot;
  de_position : vp_id v = cd_depositSignature i /\ vp_observedSlot v = bigint_toString slot /\ vp_liquidityMint v = cd_liquidityMint i /\
    vp_market v = cd_market i /\ vp_reserve v = cd_targetReserve i /\ vp_amountRaw v = bigint_toString amount;
}.

Lemma funded_debits mint t owners : balances_wf (preOf t) -> balances_wf (postOf t) ->
  fundedBy (getParsedTokenBalanceDeltasByOwner mint t) owners = sumZ (map (fun owner => debit owner mint t) owners).
Proof.
  intros Hpre Hpost. unfold fundedBy.
  enough (H : forall acc, fold_left (fun total owner =>
      let deltaRaw := default 0 (mapGet (getParsedTokenBalanceDeltasByOwner mint t) owner) in if deltaRaw <? 0 then total - deltaRaw else total) owners acc =
    acc + sumZ (map (fun owner => debit owner mint t) owners)) by (by rewrite H).
  induction owners as [|o l IH]; intros acc; cbn [fold_left map]; [cbn; lia|]. rewrite IH, sumZ_cons. cbv zeta. rewrite owner_delta, token_delta by done.
  unfold debit, ownerChange, change. match goal with |- context [?x <? 0] => destruct (Z.ltb_spec x 0) end; lia.
Qed.

Lemma canonical_deposit i c : createCanonicalDepositInput i = Ok c ->
  exists cluster asset a target, normalizeLoyalCluster (cd_cluster i) = Ok cluster /\ canonicalAddresses (cd_settings i) (cd_policySeed i) = Ok a /\
    resolveEarnProductAsset cluster (inl (cd_liquidityMint i)) = Ok asset /\
    assertSafeEarnReserveMetadata cluster (toBase58 (pa_mint asset)) (cd_liquidityMint i) (cd_market i) (cd_targetReserve i) = Ok target /\
    cd_depositMint i = rm_liquidityMint target /\ (isCreate i = true -> isSome (cd_setupPolicySignature i) = true) /\
    addressed (cd_settings i) (cd_policySeed i) (cd_policyAccount i) (cd_vaultPubkey i) (cd_smartAccountAddress i) (cd_vaultIndex i) /\
    c = withCanonicalDeposit i cluster target a.
Proof.
  unfold createCanonicalDepositInput. intros H. apply bind_Ok in H as (cluster & Hc & H). apply bind_Ok in H as (a & Ha & H).
  apply bind_Ok in H as (asset & Has & H). apply bind_Ok in H as (target & Ht & H). destruct (match cd_targetSupplyApyBps i with Some _ => _ | None => _ end); [done|].
  cbv zeta in H. unfold depositField in H. set (canonical := withCanonicalDeposit i cluster target a) in *. do 16 peel H. injection H as <-.
  exists cluster, asset, a, target. do 4 (split; [done|]). repeat match goal with E : same _ _ = true |- _ => apply same_true in E end.
  split; [done|]. split; [|split; [|done]].
  - intros Hi. rewrite Hi in *. destruct (isSome (cd_policyConfirmedSlot i)); [|done]. by destruct (cd_setupPolicySignature i).
  - exists a. split; [done|]. repeat split; try done. by apply Z.eqb_eq.
Qed.

Lemma safe_reserve cluster expected mint market reserve target : assertSafeEarnReserveMetadata cluster expected mint market reserve = Ok target ->
  mint = expected /\ rm_liquidityMint target = mint /\ market = Some (rm_market target) /\ rm_targetReserve target = reserve /\
  exists k, rm_market target = toBase58 k /\ k ∈ getRiskBasketMarketsForCluster cluster Safe.
Proof.
  unfold assertSafeEarnReserveMetadata. destruct (same mint expected) eqn:E; [|done]. apply same_true in E. cbn [negb].
  destruct market as [text|]; [|done]. cbn [truthy]. destruct (String.eqb text EmptyString); [done|]. destruct (member _ _) eqn:Em; [|done]. intros H.
  apply bind_Ok in H as (? & _ & H). apply bind_Ok in H as (? & _ & H). apply bind_Ok in H as (? & _ & [= <-]). do 4 (split; [done|]). cbn.
  apply existsb_exists in Em as (m & Hx & Ex). apply String.eqb_eq in Ex as <-. apply list_elem_of_In, list_elem_of_fmap in Hx as (k & -> & Hk). by exists k.
Qed.

Lemma deposit_amount read c slot amount : resolveConfirmedDepositTransactionProof read c slot = Ok amount ->
  (forall attempt t, read attempt = Ok (Some t) -> balances_wf (preOf t) /\ balances_wf (postOf t)) ->
  exists attempt meta t, (attempt < 6)%nat /\ read attempt = Ok (Some t) /\ tx_slot t = slot /\ tx_meta t = Some meta /\ meta_err meta = false /\
    0 < amount /\ amount = sumZ (map (fun owner => debit owner (cd_depositMint c) t) (fundingOwners c)).
Proof.
  unfold resolveConfirmedDepositTransactionProof. intros H Hwf. apply bind_Ok in H as (o & Ho & H). destruct o as [t|]; [|done].
  apply poll_transaction in Ho as (attempt & meta & Hlt & Hread & Hmeta). rewrite Hmeta in H. destruct (meta_err meta) eqn:Ee; [done|].
  destruct (Z.eqb_spec (tx_slot t) slot) as [Hs|]; [|done]. cbn [negb] in H. cbv zeta in H. destruct (Hwf _ _ Hread) as [Hpre Hpost].
  rewrite funded_debits in H by done. destruct (Z.leb_spec (sumZ (map (fun owner => debit owner (cd_depositMint c) t) (fundingOwners c))) 0); [done|].
  injection H as <-. by exists attempt, meta, t.
Qed.

Lemma two_owners (f : string -> Z) wallet vault :
  sumZ (map f (unique [wallet; vault; vault])) = f wallet + if bool_decide (vault = wallet) then 0 else f vault.
Proof.
  cbn [unique List.filter]. rewrite (bool_decide_eq_true_2 (vault = vault)) by done. cbn [negb List.filter].
  destruct (bool_decide (vault = wallet)); cbn [negb map]; rewrite !sumZ_cons; cbn; lia.
Qed.

(** C27. A deposit is confirmed only on evidence: the wallet and settings are the session's, the policy account and the vault are the ones
    the settings determine, the market is a Safe one of the cluster and the mint a product's; the signature is confirmed and its transaction
    ran without error at that slot; the principal is what the wallet and the vault were debited, and positive; and policies said to be
    created have confirmed signatures. *)
Theorem deposit_confirm_sound (principal : EarnConfirmPrincipal) (i : ConfirmedYieldDepositInput) (env : string) (rpc : ConfirmRpc)
    (verifiedAt : string) (v : VerifiedPosition) :
  rpc_wf rpc -> verifyConfirmedEarnDeposit principal i env rpc verifiedAt = Accepted v ->
  exists cluster asset slot t amount, deposit_evidence principal i env rpc v cluster asset slot t amount.
Proof.
  intros Hwf H. unfold verifyConfirmedEarnDeposit in H. destruct (_ || _) eqn:Ep; [done|]. apply orb_false_iff in Ep as [Ew Es].
  apply negb_false_iff, same_true in Ew, Es. apply accepted_bind in H as (c & Hc & H). apply orReject_accepted in Hc.
  apply canonical_deposit in Hc as (cluster & asset & a & target & Hn & Ha & Has & Ht & Hdm & Hsig & Had & ->).
  apply safe_reserve in Ht as (Hm & Hlm & Hmk & Hrs & k & Hk & Hin).
  apply accepted_bind in H as (configured & Hcl & H). apply orFault_accepted in Hcl. cbn [cd_cluster withCanonicalDeposit] in H.
  destruct (same _ _) eqn:Ecl; [|done]. apply same_true, cluster_value_inj in Ecl as <-. cbn [negb] in H.
  apply accepted_bind in H as (slot & Hslot & H). apply orReject_accepted, slot_confirmed in Hslot.
  apply accepted_bind in H as (amount & Hp & H). apply orReject_accepted in Hp. apply accepted_bind in H as (ignored & Hpol & [= <-]).
  destruct (deposit_amount _ _ _ _ Hp (fun n t => Hwf _ n t)) as (attempt & meta & t & Hlt & Hread & Hts & Hmeta & Herr & Hpos & Hsum).
  destruct Had as (a' & Ha' & Hpa & Hvp & Hsm & Hvi). rewrite Ha in Ha'. injection Ha' as <-.
  rewrite Hlm in Hdm. exists cluster, asset, slot, t, amount. constructor; try done; [by exists a|by exists k; rewrite <- Hk|by exists attempt, meta| |].
  - split; [done|]. rewrite Hsum. change (fundingOwners _) with (unique [cd_walletAddress i; toBase58 (ca_vault a); toBase58 (ca_vault a)]).
    rewrite two_owners, <- Hvp, Hdm. cbn [cd_depositMint withCanonicalDeposit]. by rewrite Hlm.
  - intros Hcreate. assert (Hi : isCreate i = true) by (unfold isCreate; by rewrite Hcreate). change (isCreate (withCanonicalDeposit _ _ _ _)) with (isCreate i) in Hpol.
    rewrite Hi in Hpol. apply accepted_bind in Hpol as (routeSlot & Hr & Hs). apply orReject_accepted, slot_confirmed in Hr, Hs. cbn in Hr, Hs.
    specialize (Hsig Hi). destruct (cd_setupPolicySignature i) as [signature|] eqn:Esig; [|done]. by exists signature, routeSlot, ignored.
Qed.

(** *** Clean-up *)
Lemma policies_closed accountsNow accounts min : verifyPolicyAccountsClosed accountsNow accounts min = Accepted tt <->
  exists keys answer, mapR newPublicKey accounts = Ok keys /\ accountsNow min keys = Ok answer /\ min <= context_slot answer /\
    Forall (fun key => accountAt answer key = None) keys.
Proof.
  unfold verifyPolicyAccountsClosed. rewrite accepted_bind. split.
  - intros ((keys & answer) & H & Hc). apply orReject_accepted in H. apply bind_Ok in H as (keys' & Hk & H). apply bind_Ok in H as (answer' & Ha & [= -> ->]).
    cbn in Hc. destruct (Z.ltb_spec (context_slot answer) min); [done|]. destruct (existsb _ keys) eqn:E; [done|]. exists keys, answer. do 3 (split; [done|]).
    apply Forall_forall. intros key Hin. destruct (accountAt answer key) as [info|] eqn:Ek; [|done]. exfalso.
    assert (existsb (fun key => isSome (accountAt answer key)) keys = true) as Ht; [|congruence].
    apply existsb_exists. exists key. split; [by apply list_elem_of_In|by rewrite Ek].
  - intros (keys & answer & Hk & Ha & Hs & Hf). exists (keys, answer). rewrite orReject_accepted, Hk. cbn. rewrite Ha. cbn. split; [done|].
    destruct (Z.ltb_spec (context_slot answer) min); [lia|]. replace (existsb _ keys) with false; [done|]. symmetry. apply not_true_iff_false. intros Ht.
    apply existsb_exists in Ht as (key & Hin & Hsome). rewrite Forall_forall in Hf. rewrite Hf in Hsome by (by apply list_elem_of_In). done.
Qed.

(** C28. A clean-up is confirmed only when nothing is left: the zero-balance proof, for the markets and mints of the recorded policy, says that
    the policies may be closed, and a read at or after the clean-up's slot finds none of the policy accounts. *)
Theorem cleanup_proven (routePolicy : RoutePolicyRecord) (cluster : LoyalCluster) (connection : Connection) (accountsNow : AccountsNow) (min : Z)
    (policyAccounts : list string) (programId settings : pubkey) (now : nat -> string) :
  (forall attempt, answers_bytes (conn_accounts connection attempt)) ->
  assertEarnFullExitProven routePolicy cluster connection accountsNow min policyAccounts programId settings now = Accepted tt ->
  exit_evidence cluster connection min (serializeRoutePolicyState routePolicy) programId settings policy_close_required /\
  exists keys answer, mapR newPublicKey policyAccounts = Ok keys /\ accountsNow min keys = Ok answer /\ min <= context_slot answer /\
    Forall (fun key => accountAt answer key = None) keys.
Proof.
  intros Hb H. unfold assertEarnFullExitProven in H. apply accepted_bind in H as (proof & Hp & H). apply orReject_accepted in Hp.
  pose proof (exit_seen _ _ _ _ _ _ _ _ _ _ Hb Hp) as He. destruct (status proof); [done|]. split; [done|]. by apply policies_closed.
Qed.
End Confirm.






Module EarnConfirmWitness.
Import DemoKeys KaminoWitness HoldingsWitness FullExitWitness.

Definition demoAddresses : CanonicalAddresses (PK := demo_keys) :=
  match canonicalAddresses demoProgram (text demoSettings) 9 with
  | Ok a => a
  | Throw _ => {| ca_settings := zero_key; ca_policyAccount := zero_key; ca_setupPolicyAccount := zero_key; ca_vault := zero_key |}
  end.

Definition demoPrincipal : EarnConfirmPrincipal :=
  {| pr_walletAddress := text (key_of 5); pr_smartAccountAddress := text demoVault; pr_settingsPda := text demoSettings |}.

(** The last step of a full exit out of a reserve; the client says slot 4. *)
Definition demoFinalWithdrawal : ConfirmedYieldWithdrawalInput := {|
  cw_autodepositClose := None; cw_cluster := "devnet"; cw_confirmedSlot := 4; cw_delegatedSigner := "signer"; cw_liquidityMint := text usdcMint;
  cw_market := Some (text demoMarket); cw_mode := EarnWire.Full; cw_policyAccount := text (ca_policyAccount demoAddresses); cw_policyId := 9; cw_policySeed := 9;
  cw_setupPolicyAccount := Some (text (ca_setupPolicyAccount demoAddresses)); cw_setupPolicyId := Some 10; cw_setupPolicySeed := Some 10;
  cw_settings := text demoSettings; cw_smartAccountAddress := text demoVault; cw_accountingReserve := None; cw_executionReserve := None;
  cw_isFinalStep := Some true; cw_reserveWithdrawals := None; cw_requestedWithdrawAmountRaw := None; cw_sourceAmountRaw := None; cw_sourceId := None;
  cw_sourceMetadata := None; cw_sourceMint := None; cw_sourceTokenAccount := None; cw_sourceType := None; cw_stepCount := None; cw_stepIndex := None;
  cw_targetReserve := text demoReserve; cw_vaultIndex := 1; cw_vaultPubkey := text demoVault; cw_walletAddress := text (key_of 5);
  cw_withdrawalSignature := "sig"; cw_withdrawnAmountRaw := 1 |}.

Definition demoBalance (index : Z) (owner : key) (amount : string) : TokenBalance :=
  {| tb_accountIndex := index; tb_mint := text usdcMint; tb_owner := Some (text owner); tb_amount := Some amount |}.

Definition walletUsdcAta : key := okKey (associatedTokenAddress usdcMint (key_of 5) false usdcProgram).

(** The wallet's account goes from [before] to [after], the vault's from 200 to [vaultAfter]. *)
Definition demoTransaction (before after vaultAfter : string) : ParsedTransaction (PK := demo_keys) := {|
  tx_slot := 5; tx_accountKeys := [key_of 5; walletUsdcAta; demoAta];
  tx_meta := Some {| meta_err := false; preTokenBalances := Some [demoBalance 1 (key_of 5) before; demoBalance 2 demoVault "200"];
                     postTokenBalances := Some [demoBalance 1 (key_of 5) after; demoBalance 2 demoVault vaultAfter] |} |}.

(** Status and transaction arrive at the second attempt. *)
Definition demoRpc (t : ParsedTransaction) : ConfirmRpc (PK := demo_keys) := {|
  statusOf _ attempt := Ok (if (attempt =? 0)%nat then None
                            else Some {| sg_err := false; sg_confirmationStatus := Some "confirmed"%string; sg_slot := Some 5 |});
  transactionOf _ attempt := Ok (if (attempt =? 0)%nat then None else Some t) |}.

Lemma demo_rpc_wf before after vaultAfter : rpc_wf (demoRpc (demoTransaction before after vaultAfter)).
Proof.
  intros sig [|n] t H; [discriminate H|]. cbn in H. injection H as <-. split; unfold balances_wf; cbn; repeat constructor; set_solver.
Qed.

Definition demoConfirm : verdict EarnWithdrawConfirmationResult :=
  verifyConfirmedEarnWithdrawal demoProgram compareTexts noCode demoPrincipal demoFinalWithdrawal "devnet"
    (demoRpc (demoTransaction "10" "310" "250")) (demoConnection 0) (text demoProgram) "now" (fun _ => "now"%string).

Definition accepted {A} (v : verdict A) : bool := match v with Accepted _ => true | _ => false end.

Example confirm_exit : match demoConfirm with
  | Accepted r => (er_status r, vp_amountRaw (er_position r), vp_observedSlot (er_position r)) = (ExitStatusOf policy_close_required, "0", "5")%string
  | _ => False
  end.
Proof. vm_compute. done. Qed.

Lemma withdraw_confirm_sound_witness :
  match demoConfirm with
  | Accepted r => exists cluster asset slot t p walletAta vaultAta,
      withdrawal_evidence demoProgram demoPrincipal demoFinalWithdrawal "devnet" (demoRpc (demoTransaction "10" "310" "250")) (demoConnection 0)
        (text demoProgram) r cluster asset slot t p walletAta vaultAta
  | _ => False
  end.
Proof.
  assert (H : accepted demoConfirm = true) by (vm_compute; reflexivity). destruct demoConfirm as [r| |] eqn:E; [|discriminate H|discriminate H].
  apply (withdraw_confirm_sound (PK := demo_keys) demoProgram compareTexts noCode demoPrincipal demoFinalWithdrawal "devnet" (demoRpc (demoTransaction "10" "310" "250"))
    (demoConnection 0) (text demoProgram) "now" (fun _ => "now"%string) r); [apply demo_rpc_wf|apply connection_bytes, info_bytes; vm_compute; reflexivity|exact E].
Defined.

Definition demoDeposit : ConfirmedYieldDepositInput := {|
  cd_cluster := "devnet"; cd_confirmedSlot := 4; cd_delegatedSigner := "signer"; cd_depositMint := text usdcMint; cd_depositSignature := "sig";
  cd_liquidityMint := text usdcMint; cd_market := Some (text demoMarket); cd_policyAccount := text (ca_policyAccount demoAddresses); cd_policyId := 9;
  cd_policyConfirmedSlot := Some 3; cd_policyInitialization := PolicyCreate; cd_policySeed := 9; cd_policySignature := "route";
  cd_principalAmountRaw := 1; cd_settings := text demoSettings; cd_setupPolicyAccount := Some (text (ca_setupPolicyAccount demoAddresses));
  cd_setupPolicyConfirmedSlot := Some 3; cd_setupPolicyId := Some 10; cd_setupPolicySeed := Some 10; cd_setupPolicySignature := Some "setup"%string;
  cd_smartAccountAddress := text demoVault; cd_targetReserve := text demoReserve; cd_targetSupplyApyBps := Some 512; cd_vaultIndex := 1;
  cd_vaultPubkey := text demoVault; cd_walletAddress := text (key_of 5) |}.

Definition demoDepositConfirm : verdict VerifiedPosition :=
  verifyConfirmedEarnDeposit demoProgram demoPrincipal demoDeposit "devnet" (demoRpc (demoTransaction "310" "10" "150")) "now".

Example confirm_deposit : match demoDepositConfirm with Accepted v => (vp_amountRaw v, vp_observedSlot v) = ("350", "5")%string | _ => False end.
Proof. vm_compute. done. Qed.

Lemma deposit_confirm_sound_witness :
  match demoDepositConfirm with
  | Accepted v => exists cluster asset slot t amount,
      deposit_evidence demoProgram demoPrincipal demoDeposit "devnet" (demoRpc (demoTransaction "310" "10" "150")) v cluster asset slot t amount
  | _ => False
  end.
Proof.
  assert (H : accepted demoDepositConfirm = true) by (vm_compute; reflexivity). destruct demoDepositConfirm as [v| |] eqn:E; [|discriminate H|discriminate H].
  apply (deposit_confirm_sound (PK := demo_keys) demoProgram demoPrincipal demoDeposit "devnet" (demoRpc (demoTransaction "310" "10" "150")) "now" v);
    [apply demo_rpc_wf|exact E].
Defined.

Definition demoRoute : RoutePolicyRecord := {|
  rp_id := 4; rp_cluster := Some "devnet"%string; rp_settings := text demoSettings; rp_authority := text (key_of 5); rp_policySeed := 9;
  rp_policyAccount := text (key_of 6); rp_vaultIndex := 1; rp_vaultPubkey := text demoVault; rp_stableMints := [text usdcMint];
  rp_kaminoMarkets := [text demoMarket]; rp_kaminoLiquidityMints := [text usdcMint]; rp_active := true |}.

Definition noAccounts : AccountsNow (PK := demo_keys) := fun min _ => Ok {| context_slot := min; accountAt _ := None |}.

Lemma cleanup_proven_witness :
  exit_evidence Devnet (demoConnection 0) 5 (serializeRoutePolicyState demoRoute) demoProgram demoSettings policy_close_required /\
  exists keys answer, mapR newPublicKey [text (key_of 6); text (key_of 9)] = Ok keys /\ noAccounts 5 keys = Ok answer /\ 5 <= context_slot answer /\
    Forall (fun key => accountAt answer key = None) keys.
Proof.
  apply (cleanup_proven (PK := demo_keys) compareTexts noCode demoRoute Devnet (demoConnection 0) noAccounts 5 [text (key_of 6); text (key_of 9)]
    demoProgram demoSettings (fun _ => "now"%string)).
  - apply connection_bytes, info_bytes. vm_compute. reflexivity.
  - vm_compute. reflexivity.
Defined.
End EarnConfirmWitness.
