(* ===== verification/PolicyRefund.v ===== *)
(** Refunds of rent: which policies, recurring delegations and vault accounts of a wallet may be closed
    (web/apps/web/src/lib/yield-optimization/earn-policy-refund-state.server.ts, earn-policy-refund.server.ts, and the request of
    earn-policy-refund-contracts.shared.ts).

    Rows of database queries, answers of the RPC, the clock and [localeCompare] are arguments; a column of a row that is
    not read is left out. The instructions that close a policy and refund a vault come from generated builders and are not
    modelled: [preparePolicyRefund] and [prepareVaultRefund] end with the checks before them. *)
From S2P Require Import Prelude JsString JsMap Solana Bytes Subscriptions Protocols Registry Voltr Json RpcFetch Pda Kamino Holdings FullExit PreparedWire.

(** ** Delegations *)
Inductive DelegationSource := FromChain | FromMetadata.
Inductive DelegationStatus := StatusActive | StatusExpired | StatusInvalid | StatusMissing | StatusPaused | StatusPending.
Inductive DelegationUsage := UsageCurrent | UsagePaused | UsagePending | UsageScheduled | UsageUnused.

Record AutodepositPolicyRow := {
  ar_policyAccount : option string;
  ar_recurringDelegation : option string;
  ar_expiryTimestamp : option Z;
  ar_scheduledSweepCount : Z;
  ar_source : DelegationSource;
  ar_targetId : option Z;
  ar_targetActive : bool;
  ar_targetLifecycleStatus : string;
}.

(** [EarnPolicyRefundRecurringDelegation] less [active], [canRefund], [exists] and [status] *)
Record DelegationBase := {
  db_account : string;
  db_amountPerPeriodRaw : option string;
  db_amountPulledRaw : option string;
  db_authority : option string;
  db_blockedReason : option string;
  db_delegatee : option string;
  db_delegator : option string;
  db_expiryTimestamp : option string;
  db_lamports : option Z;
  db_lifecycleStatus : string;
  db_mint : option string;
  db_policyAccount : option string;
  db_protected : bool;
  db_scheduledSweepCount : Z;
  db_source : DelegationSource;
  db_targetActive : bool;
  db_targetId : option string;
  db_usage : DelegationUsage;
}.

Record RecurringDelegation := {
  rd_base : DelegationBase;
  rd_active : bool;
  rd_canRefund : bool;
  rd_exists : bool;
  rd_status : DelegationStatus;
}.

Definition rd_account (d : RecurringDelegation) : string := db_account (rd_base d).
Definition rd_protected (d : RecurringDelegation) : bool := db_protected (rd_base d).

Definition SUBSCRIPTION_RECURRING_DELEGATION_DATA_LEN := 211.
Definition SUBSCRIPTION_RECURRING_DELEGATION_AMOUNT_PULLED_OFFSET := 203.

(** [value |= BigInt(data[offset + index] ?? 0) << BigInt(index * 8)] *)
Definition readU64Le (data : list Z) (offset : Z) : option Z :=
  if Z.of_nat (length data) <? offset + 8 then None
  else Some (fold_left (fun value index => Z.lor value (Z.shiftl (default 0 (data !! Z.to_nat (offset + index))) (index * 8)))
               [0; 1; 2; 3; 4; 5; 6; 7] 0).

Definition stringifyBigint (value : option Z) : option string := bigint_toString <$> value.

Definition isExpired (expiryTimestamp : option Z) (nowSeconds : Z) : bool :=
  match expiryTimestamp with Some t => (0 <? t) && (t <=? nowSeconds) | None => false end.

Definition resolveRecurringDelegationUsage (row : AutodepositPolicyRow) : option string * bool * DelegationUsage :=
  if String.eqb (ar_targetLifecycleStatus row) "pending_delegation" then (Some "Pending Autodeposit setup"%string, true, UsagePending)
  else if 0 <? ar_scheduledSweepCount row then (Some "Scheduled Autodeposit sweep"%string, true, UsageScheduled)
  else match ar_targetId row with
       | Some _ => if ar_targetActive row then (Some "Current Autodeposit delegation"%string, true, UsageCurrent)
                   else (Some "Paused Autodeposit delegation"%string, true, UsagePaused)
       | None => (None, false, UsageUnused)
       end.

Definition canRefundRecurringDelegation (exists_ protected : bool) (status : DelegationStatus) : bool :=
  exists_ && negb protected && match status with StatusActive | StatusExpired => true | _ => false end.

Definition finalizeRecurringDelegation (base : DelegationBase) (exists_ : bool) (status : DelegationStatus) : RecurringDelegation := {|
  rd_base := base; rd_active := match status with StatusActive => true | _ => false end;
  rd_canRefund := canRefundRecurringDelegation exists_ (db_protected base) status; rd_exists := exists_; rd_status := status |}.

Section PolicyRefund.
Context {PK : PublicKeys} {KB : KeyBytes PK} {B : BeetUints} {TL : TokenLayouts PK}.

Definition readKeyText (data : list Z) (offset : Z) : result (option string) :=
  if Z.of_nat (length data) <? offset + 32 then Ok None
  else key ← keyOfBytes (take 32 (drop (Z.to_nat offset) data)); Ok (Some (toBase58 key)).

Definition emptyBase (row : AutodepositPolicyRow) : DelegationBase :=
  let '(blockedReason, protected, usage) := resolveRecurringDelegationUsage row in
  {| db_account := default EmptyString (ar_recurringDelegation row); db_amountPerPeriodRaw := None; db_amountPulledRaw := None; db_authority := None;
     db_blockedReason := blockedReason; db_delegatee := None; db_delegator := None;
     db_expiryTimestamp := stringifyBigint (ar_expiryTimestamp row); db_lamports := None; db_lifecycleStatus := ar_targetLifecycleStatus row;
     db_mint := None; db_policyAccount := ar_policyAccount row; db_protected := protected;
     db_scheduledSweepCount := ar_scheduledSweepCount row; db_source := ar_source row; db_targetActive := ar_targetActive row;
     db_targetId := stringifyBigint (ar_targetId row); db_usage := usage |}.

(** [{ ...base, amountPerPeriodRaw, ..., mint }] *)
Definition accountBase (base : DelegationBase) (account : AccountInfo) : result DelegationBase :=
  let data := info_data account in
  let amountPerPeriodRaw := readU64Le data SUBSCRIPTION_RECURRING_DELEGATION_AMOUNT_PER_PERIOD_OFFSET in
  let amountPulledRaw := readU64Le data SUBSCRIPTION_RECURRING_DELEGATION_AMOUNT_PULLED_OFFSET in
  authority ← readKeyText data SUBSCRIPTION_RECURRING_DELEGATION_AUTHORITY_OFFSET;
  delegatee ← readKeyText data SUBSCRIPTION_RECURRING_DELEGATION_DELEGATEE_OFFSET;
  delegator ← readKeyText data SUBSCRIPTION_RECURRING_DELEGATION_DELEGATOR_OFFSET;
  mint ← readKeyText data SUBSCRIPTION_RECURRING_DELEGATION_MINT_OFFSET;
  Ok {| db_account := db_account base; db_amountPerPeriodRaw := stringifyBigint amountPerPeriodRaw;
        db_amountPulledRaw := stringifyBigint amountPulledRaw; db_authority := authority; db_blockedReason := db_blockedReason base;
        db_delegatee := delegatee; db_delegator := delegator; db_expiryTimestamp := db_expiryTimestamp base;
        db_lamports := Some (info_lamports account); db_lifecycleStatus := db_lifecycleStatus base; db_mint := mint;
        db_policyAccount := db_policyAccount base; db_protected := db_protected base;
        db_scheduledSweepCount := db_scheduledSweepCount base; db_source := db_source base; db_targetActive := db_targetActive base;
        db_targetId := db_targetId base; db_usage := db_usage base |}.

Definition validDelegation (account : AccountInfo) : bool :=
  key_equals (info_owner account) SUBSCRIPTIONS_PROGRAM_ID &&
  (SUBSCRIPTION_RECURRING_DELEGATION_DATA_LEN <=? Z.of_nat (length (info_data account))) &&
  match info_data account !! Z.to_nat SUBSCRIPTION_RECURRING_DELEGATION_DISCRIMINATOR_OFFSET with
  | Some b => b =? SUBSCRIPTION_RECURRING_DELEGATION_DISCRIMINATOR
  | None => false
  end.

Definition inspectRecurringDelegationAccount (account : option AccountInfo) (row : AutodepositPolicyRow) (nowSeconds : Z) : result RecurringDelegation :=
  let base := emptyBase row in
  match truthy (ar_recurringDelegation row), account with
  | Some _, Some account =>
      base ← accountBase base account;
      Ok (finalizeRecurringDelegation base true
            (if negb (validDelegation account) then StatusInvalid
             else if isExpired (ar_expiryTimestamp row) nowSeconds then StatusExpired else StatusActive))
  | _, _ => Ok (finalizeRecurringDelegation base false StatusMissing)
  end.

Context (localeCompare : string -> string -> Z).

Definition byAccount (left right : RecurringDelegation) : Z := localeCompare (rd_account left) (rd_account right).

(** The row that stands for a delegation found on chain *)
Definition chainRow (address : pubkey) : AutodepositPolicyRow := {|
  ar_policyAccount := None; ar_recurringDelegation := Some (toBase58 address); ar_expiryTimestamp := None; ar_scheduledSweepCount := 0;
  ar_source := FromChain; ar_targetId := None; ar_targetActive := false; ar_targetLifecycleStatus := "chain_open" |}.

(** [accounts]: the answer of [getProgramAccounts] *)
Definition findOpenWalletToEarnVaultRecurringDelegations (accounts : result (list (pubkey * AccountInfo))) (nowSeconds : Z) :
    result (list RecurringDelegation) :=
  accounts ← accounts;
  delegations ← mapR (fun e : pubkey * AccountInfo => inspectRecurringDelegationAccount (Some e.2) (chainRow e.1) nowSeconds) accounts;
  Ok (sortStable byAccount delegations).

(** The keys of the addresses, each once; an address that does not parse is skipped. *)
Definition collectKey (state : list pubkey * list string) (row : AutodepositPolicyRow) : list pubkey * list string :=
  match truthy (ar_recurringDelegation row) with
  | None => state
  | Some address =>
      if member address state.2 then state
      else match newPublicKey address with Ok key => (state.1 ++ [key], state.2 ++ [address]) | Throw _ => state end
  end.

(** One row: its delegation is pushed to the list of its policy. *)
Definition inspectRow (infos : list (string * option AccountInfo)) (nowSeconds : Z) (byPolicy : list (string * list RecurringDelegation))
    (row : AutodepositPolicyRow) : result (list (string * list RecurringDelegation)) :=
  let accountInfo := match truthy (ar_recurringDelegation row) with Some address => default None (mapGet infos address) | None => None end in
  delegation ← inspectRecurringDelegationAccount accountInfo row nowSeconds;
  match truthy (ar_policyAccount row) with
  | None => Ok byPolicy
  | Some policyAccount => Ok (mapSet byPolicy policyAccount (default [] (mapGet byPolicy policyAccount) ++ [delegation]))
  end.

(** [accountsOf]: the answer of [getMultipleAccountsInfo] *)
Definition inspectRecurringDelegations (accountsOf : list pubkey -> result (pubkey -> option AccountInfo)) (nowSeconds : Z)
    (rows : list AutodepositPolicyRow) : result (list (string * list RecurringDelegation)) :=
  let recurringDelegationRows := List.filter (fun row => match truthy (ar_recurringDelegation row) with Some _ => true | None => false end) rows in
  match recurringDelegationRows with
  | [] => Ok []
  | _ =>
      let publicKeys := (fold_left collectKey recurringDelegationRows ([], [])).1 in
      infos ← match publicKeys with
              | [] => Ok []
              | _ => view ← accountsOf publicKeys; Ok (fold_left (fun m key => mapSet m (toBase58 key) (view key)) publicKeys [])
              end;
      foldR (inspectRow infos nowSeconds) [] recurringDelegationRows
  end.

(** A delegation of the chain with what the metadata know of it *)
Definition withMetadata (delegation metadata : RecurringDelegation) : RecurringDelegation :=
  let b := rd_base delegation in
  let md := rd_base metadata in
  {| rd_base := {|
       db_account := db_account b; db_amountPerPeriodRaw := db_amountPerPeriodRaw b; db_amountPulledRaw := db_amountPulledRaw b;
       db_authority := db_authority b; db_blockedReason := db_blockedReason md; db_delegatee := db_delegatee b; db_delegator := db_delegator b;
       db_expiryTimestamp := db_expiryTimestamp b; db_lamports := db_lamports b; db_lifecycleStatus := db_lifecycleStatus md; db_mint := db_mint b;
       db_policyAccount := db_policyAccount md; db_protected := db_protected md; db_scheduledSweepCount := db_scheduledSweepCount md;
       db_source := db_source b; db_targetActive := db_targetActive md; db_targetId := db_targetId md; db_usage := db_usage md |};
     rd_active := rd_active delegation;
     rd_canRefund := canRefundRecurringDelegation (rd_exists delegation) (db_protected md) (rd_status delegation);
     rd_exists := rd_exists delegation; rd_status := rd_status delegation |}.

Definition setDelegation (m : list (string * RecurringDelegation)) (d : RecurringDelegation) : list (string * RecurringDelegation) :=
  mapSet m (rd_account d) d.
Definition mergeChain (m : list (string * RecurringDelegation)) (d : RecurringDelegation) : list (string * RecurringDelegation) :=
  setDelegation m (match mapGet m (rd_account d) with Some metadata => withMetadata d metadata | None => d end).

Definition mergeRecurringDelegations (metadataDelegations chainDelegations : list RecurringDelegation) : list RecurringDelegation :=
  sortStable byAccount (map snd (fold_left mergeChain chainDelegations (fold_left setDelegation metadataDelegations []))).

Definition collectRecurringDelegations (byPolicy : list (string * list RecurringDelegation)) (chainDelegations : list RecurringDelegation) :
    list RecurringDelegation :=
  sortStable byAccount (map snd (fold_left setDelegation (concat (map snd byPolicy)) (fold_left setDelegation chainDelegations []))).

(** ** The state of the database *)
Record EarnPolicyRefundDbState := {
  activeAutodepositAccounts : list string;
  activeManagedVaultAccounts : list string;
  activePositionAccounts : list string;
  recurringDelegationsByPolicyAccount : list (string * list RecurringDelegation);
  recurringDelegations : list RecurringDelegation;
  routePolicyAccounts : list string;
}.

(** What the queries return: route policies by id, the policies of active vaults, the accounts of active positions, the open
    targets, and the scheduled sweeps by target *)
Record RefundRows := {
  policyRows : list (Z * string);
  activeVaultRows : list (Z * option Z);
  activePositionRows : list string;
  autodepositRows : list AutodepositPolicyRow;
  scheduledCounts : list (string * Z);
}.

(** A row of the query has the id of its target. *)
Definition withCounts (counts : list (string * Z)) (row : AutodepositPolicyRow) : AutodepositPolicyRow := {|
  ar_policyAccount := ar_policyAccount row; ar_recurringDelegation := ar_recurringDelegation row; ar_expiryTimestamp := ar_expiryTimestamp row;
  ar_scheduledSweepCount := match ar_targetId row with Some id => default 0 (mapGet counts (bigint_toString id)) | None => 0 end;
  ar_source := ar_source row; ar_targetId := ar_targetId row; ar_targetActive := ar_targetActive row;
  ar_targetLifecycleStatus := ar_targetLifecycleStatus row |}.

Definition addVaultPolicies (policyAccountById : list (string * string)) (accounts : list string) (vault : Z * option Z) : list string :=
  let add accounts id := match truthy (mapGet policyAccountById (bigint_toString id)) with Some a => setAdd accounts a | None => accounts end in
  let accounts := add accounts vault.1 in
  match vault.2 with Some setup => add accounts setup | None => accounts end.

Definition mergePolicy (openDelegations : list RecurringDelegation) (byPolicy : list (string * list RecurringDelegation)) (policyAccount : option string) :
    list (string * list RecurringDelegation) :=
  match truthy policyAccount with
  | None => byPolicy
  | Some p => mapSet byPolicy p (mergeRecurringDelegations (default [] (mapGet byPolicy p)) openDelegations)
  end.

Definition hasProtected (delegations : list RecurringDelegation) : bool := existsb (fun d => rd_exists d && rd_protected d) delegations.

Definition findEarnPolicyRefundDbState (rows : RefundRows) (programAccounts : result (list (pubkey * AccountInfo)))
    (accountsOf : list pubkey -> result (pubkey -> option AccountInfo)) (nowSeconds : Z) (policyAccounts : list string) : result EarnPolicyRefundDbState :=
  openDelegations ← findOpenWalletToEarnVaultRecurringDelegations programAccounts nowSeconds;
  match policyAccounts with
  | [] => Ok {| activeAutodepositAccounts := []; activeManagedVaultAccounts := []; activePositionAccounts := [];
                recurringDelegationsByPolicyAccount := []; recurringDelegations := openDelegations; routePolicyAccounts := [] |}
  | _ =>
      let targets := map (withCounts (scheduledCounts rows)) (autodepositRows rows) in
      let policyAccountById := fold_left (fun m e => mapSet m (bigint_toString e.1) e.2) (policyRows rows) [] in
      inspected ← inspectRecurringDelegations accountsOf nowSeconds targets;
      let byPolicy := fold_left (mergePolicy openDelegations) (unique (map ar_policyAccount targets)) inspected in
      Ok {| activeAutodepositAccounts := map fst (List.filter (fun e => hasProtected e.2) byPolicy);
            activeManagedVaultAccounts := fold_left (addVaultPolicies policyAccountById) (activeVaultRows rows) [];
            activePositionAccounts := unique (activePositionRows rows);
            recurringDelegationsByPolicyAccount := byPolicy;
            recurringDelegations := collectRecurringDelegations byPolicy openDelegations;
            routePolicyAccounts := unique (map snd (policyRows rows)) |}
  end.

(** [findFirst] of the three queries found a row. *)
Record VaultRefundDbState := { hasActiveAutodeposit : bool; hasActiveManagedVault : bool; hasActivePosition : bool }.

Record SinglePolicyState := {
  sp_activeAutodeposit : bool;
  sp_activeManagedVault : bool;
  sp_dbPresent : bool;
  sp_recurringDelegations : list RecurringDelegation;
  sp_referencedByActivePosition : bool;
}.

Definition singleState (state : EarnPolicyRefundDbState) (policyAccount : string) : SinglePolicyState := {|
  sp_activeAutodeposit := member policyAccount (activeAutodepositAccounts state);
  sp_activeManagedVault := member policyAccount (activeManagedVaultAccounts state);
  sp_dbPresent := member policyAccount (routePolicyAccounts state);
  sp_recurringDelegations := default [] (mapGet (recurringDelegationsByPolicyAccount state) policyAccount);
  sp_referencedByActivePosition := member policyAccount (activePositionAccounts state) |}.

Definition findSingleEarnPolicyRefundDbState (rows : RefundRows) (programAccounts : result (list (pubkey * AccountInfo)))
    (accountsOf : list pubkey -> result (pubkey -> option AccountInfo)) (nowSeconds : Z) (policyAccount : string) : result SinglePolicyState :=
  state ← findEarnPolicyRefundDbState rows programAccounts accountsOf nowSeconds [policyAccount];
  Ok (singleState state policyAccount).

(** ** Scanning and preparing refunds *)
(** [EarnPolicyRefundError], with its status and code in the name *)
Definition refundError {A} (status : Z) (code message : string) : result A :=
  Throw (Exn ("EarnPolicyRefundError " +:+ bigint_toString status +:+ " " +:+ code) message).

Definition getBlockedReason (activeAutodeposit activeManagedVault referencedByActivePosition vaultHoldsChainFunds : bool) : option string :=
  if vaultHoldsChainFunds then Some "Vault still holds funds on chain"%string
  else if referencedByActivePosition then Some "Active Earn position"%string
  else if activeAutodeposit then Some "Protected recurring delegation"%string
  else if activeManagedVault then Some "Active Earn vault policy"%string
  else None.

Definition vaultHoldsChainFunds (snapshot : SmartAccountEarnVaultRefundSnapshot) : bool :=
  existsb (fun tokenAccount => (0 <? rt_amountRaw tokenAccount) && negb (key_equals (rt_address tokenAccount) (vs_vaultUsdcAta snapshot)))
    (vs_tokenAccounts snapshot).

(** [Array.prototype.some] with a callback that may throw *)
Fixpoint someR {A} (f : A -> result bool) (l : list A) : result bool :=
  match l with
  | [] => Ok false
  | x :: l => b ← f x; if b : bool then Ok true else someR f l
  end.

(** The metadata of a policy over every Safe market and product mint *)
Definition everyMarketPolicy (cluster : LoyalCluster) : result EarnRpcPolicyMetadata :=
  assets ← getEarnProductAssetsForCluster cluster;
  let mints := map (fun asset => toBase58 (pa_mint asset)) assets in
  Ok {| kaminoLiquidityMints := Some mints; kaminoMarkets := Some (map toBase58 (getRiskBasketMarketsForCluster cluster Safe));
        stableMints := Some mints; vaultIndex := EARN_VAULT_INDEX |}.

Definition kaminoFunds (holding : EarnRpcHolding) : result bool :=
  match h_kind holding with
  | KaminoHolding => amount ← BigInt_of_string (amountRaw holding); Ok (0 <? amount)
  | Idle => Ok false
  end.

Definition vaultHoldsKaminoCollateral (cluster : LoyalCluster) (reader : AccountReader) (programId settingsPda : pubkey) (now : string) : result bool :=
  metadata ← everyMarketPolicy cluster;
  snapshot ← fetchEarnRpcHoldingsSnapshot cluster reader None (Some metadata) programId true settingsPda now;
  someR kaminoFunds (holdings snapshot).

Record VaultRefundEntry := {
  ve_account : string;
  ve_blockedReason : option string;
  ve_canRefund : bool;
  ve_lamports : Z;
  ve_tokenAccounts : list (string * string * bool * Z * string);
  ve_totalRefundableLamports : Z;
}.

(** Lamports are integers that numbers hold exactly. *)
Definition buildVaultRefundEntry (dbState : VaultRefundDbState) (snapshot : SmartAccountEarnVaultRefundSnapshot) : VaultRefundEntry :=
  let holdsChainFunds := vaultHoldsChainFunds snapshot in
  let blockedReason :=
    if holdsChainFunds then Some "Vault still holds funds on chain"%string
    else if hasActivePosition dbState then Some "Active Earn position"%string
    else if hasActiveAutodeposit dbState then Some "Active Autodeposit"%string
    else if hasActiveManagedVault dbState then Some "Active Earn vault policy"%string
    else None in
  let totalRefundableLamports := vs_lamports snapshot + fold_left (fun total tokenAccount => total + rt_lamports tokenAccount) (vs_tokenAccounts snapshot) 0 in
  {| ve_account := toBase58 (vs_vaultPda snapshot); ve_blockedReason := blockedReason;
     ve_canRefund := match blockedReason with None => 0 <? totalRefundableLamports | Some _ => false end;
     ve_lamports := vs_lamports snapshot;
     ve_tokenAccounts := map (fun t => (toBase58 (rt_address t), bigint_toString (rt_amountRaw t), rt_isUsdc t, rt_lamports t, toBase58 (rt_mint t)))
                           (vs_tokenAccounts snapshot);
     ve_totalRefundableLamports := totalRefundableLamports |}.

Definition createSubscriptionRevokeDelegationInstruction (authority delegation : pubkey) : instruction :=
  Instruction SUBSCRIPTIONS_PROGRAM_ID [Meta authority true true; Meta delegation false true] subscriptionRevokeDelegationData.

(** The instructions of the prepared operation; its payer is the wallet. *)
Definition prepareRecurringDelegationRefund (feePayer recurringDelegation : pubkey) : list instruction :=
  [createSubscriptionRevokeDelegationInstruction feePayer recurringDelegation].

Definition parsePublicKey (value label : string) : result pubkey :=
  match newPublicKey value with
  | Ok key => Ok key
  | Throw _ => refundError 400 "invalid_request" (label +:+ " is not a valid public key.")
  end.

(** What the overview of the policies says of one *)
Record OverviewPolicy := { op_address : string; op_accountIndex : option Z; op_seed : string; op_state : string }.

Record ScanPolicy := {
  sc_account : string;
  sc_accountIndex : option Z;
  sc_activeAutodeposit : bool;
  sc_activeManagedVault : bool;
  sc_blockedReason : option string;
  sc_canRefund : bool;
  sc_dbPresent : bool;
  sc_lamports : option Z;
  sc_recurringDelegations : list RecurringDelegation;
  sc_referencedByActivePosition : bool;
  sc_seed : string;
  sc_state : string;
}.

Record ScanResponse := {
  sr_policies : list ScanPolicy;
  sr_recurringDelegations : list RecurringDelegation;
  sr_vault : VaultRefundEntry;
  sr_vaultPubkey : string;
}.

Definition scanPolicy (state : SinglePolicyState) (holdsChainFunds : bool) (lamports : option Z) (policy : OverviewPolicy) : ScanPolicy :=
  let blockedReason := getBlockedReason (sp_activeAutodeposit state) (sp_activeManagedVault state) (sp_referencedByActivePosition state) holdsChainFunds in
  {| sc_account := op_address policy; sc_accountIndex := op_accountIndex policy; sc_activeAutodeposit := sp_activeAutodeposit state;
     sc_activeManagedVault := sp_activeManagedVault state; sc_blockedReason := blockedReason;
     sc_canRefund := match blockedReason with None => true | Some _ => false end; sc_dbPresent := sp_dbPresent state; sc_lamports := lamports;
     sc_recurringDelegations := sp_recurringDelegations state; sc_referencedByActivePosition := sp_referencedByActivePosition state;
     sc_seed := op_seed policy; sc_state := op_state policy |}.

(** What is read for a refund: the rows and flags of the database, the overview, the accounts on chain *)
Record RefundReads := {
  rr_rows : RefundRows;
  rr_vaultDbState : VaultRefundDbState;
  rr_overview : result (list OverviewPolicy);
  rr_programAccounts : result (list (pubkey * AccountInfo));
  rr_accountsOf : list pubkey -> result (pubkey -> option AccountInfo);
  rr_connection : Connection;
  rr_reader : AccountReader;
  rr_nowSeconds : Z;
  rr_now : string;
}.

Definition holdsFunds (reads : RefundReads) (cluster : LoyalCluster) (programId settingsPda : pubkey)
    (vaultSnapshot : SmartAccountEarnVaultRefundSnapshot) : result bool :=
  if vaultHoldsChainFunds vaultSnapshot then Ok true
  else vaultHoldsKaminoCollateral cluster (rr_reader reads) programId settingsPda (rr_now reads).

Definition scanEarnPolicyRefunds (reads : RefundReads) (programId : pubkey) (settings solanaEnv : string) : result ScanResponse :=
  settingsPda ← newPublicKey settings;
  cluster ← resolveLoyalClusterForSolanaEnv solanaEnv;
  vaultPubkey ← getSmartAccountPda settingsPda EARN_VAULT_INDEX programId;
  overview ← rr_overview reads;
  let policyAddresses := map op_address overview in
  accounts ← match policyAddresses with
             | [] => Ok []
             | _ => keys ← mapR newPublicKey policyAddresses; view ← rr_accountsOf reads keys; Ok (map view keys)
             end;
  dbState ← findEarnPolicyRefundDbState (rr_rows reads) (rr_programAccounts reads) (rr_accountsOf reads) (rr_nowSeconds reads) policyAddresses;
  vaultSnapshot ← fetchEarnVaultRefundSnapshot localeCompare (rr_connection reads) 0 programId cluster None settingsPda;
  holdsChainFunds ← holdsFunds reads cluster programId settingsPda vaultSnapshot;
  let policies := imap (fun index policy => scanPolicy (singleState dbState (op_address policy)) holdsChainFunds
                          (info_lamports <$> default None (accounts !! index)) policy) overview in
  Ok {| sr_policies := policies; sr_recurringDelegations := recurringDelegations dbState;
        sr_vault := buildVaultRefundEntry (rr_vaultDbState reads) vaultSnapshot; sr_vaultPubkey := toBase58 vaultPubkey |}.

(** The branches of [prepareEarnPolicyRefund] *)
Definition prepareVaultRefund (reads : RefundReads) (cluster : LoyalCluster) (programId settingsPda : pubkey) : result VaultRefundEntry :=
  vaultSnapshot ← fetchEarnVaultRefundSnapshot localeCompare (rr_connection reads) 0 programId cluster None settingsPda;
  let vault := buildVaultRefundEntry (rr_vaultDbState reads) vaultSnapshot in
  match truthy (ve_blockedReason vault) with
  | Some reason => refundError 409 "vault_active" reason
  | None => if ve_canRefund vault then Ok vault else refundError 409 "vault_empty" "Nothing to refund on the Earn vault."
  end.

Definition prepareDelegationRefund (reads : RefundReads) (feePayer : pubkey) (recurringDelegation : string) : result (list instruction * RecurringDelegation) :=
  recurringDelegationPubkey ← parsePublicKey recurringDelegation "recurringDelegation";
  overview ← rr_overview reads;
  dbState ← findEarnPolicyRefundDbState (rr_rows reads) (rr_programAccounts reads) (rr_accountsOf reads) (rr_nowSeconds reads) (map op_address overview);
  match List.find (fun delegation => String.eqb (rd_account delegation) recurringDelegation) (recurringDelegations dbState) with
  | None => refundError 404 "delegation_not_found" "Recurring delegation account was not found."
  | Some delegation =>
      if negb (rd_canRefund delegation)
      then refundError 409 "delegation_protected" (default "Recurring delegation is not reclaimable."%string (db_blockedReason (rd_base delegation)))
      else Ok (prepareRecurringDelegationRefund feePayer recurringDelegationPubkey, delegation)
  end.

(** [accountInfo]: the answer of [getAccountInfo] for the policy account *)
Definition preparePolicyRefund (reads : RefundReads) (cluster : LoyalCluster) (programId settingsPda : pubkey)
    (accountInfo : option AccountInfo) (requested : string) : result ScanPolicy :=
  policyAccount ← parsePublicKey requested "policyAccount";
  overview ← rr_overview reads;
  dbState ← findSingleEarnPolicyRefundDbState (rr_rows reads) (rr_programAccounts reads) (rr_accountsOf reads) (rr_nowSeconds reads) (toBase58 policyAccount);
  vaultSnapshot ← fetchEarnVaultRefundSnapshot localeCompare (rr_connection reads) 0 programId cluster None settingsPda;
  match accountInfo with
  | None => refundError 409 "policy_closed" "Policy account is already closed."
  | Some accountInfo =>
      match List.find (fun policy => String.eqb (op_address policy) (toBase58 policyAccount)) overview with
      | None => refundError 403 "policy_not_owned" "Policy does not belong to this smart account."
      | Some overviewPolicy =>
          holdsChainFunds ← holdsFunds reads cluster programId settingsPda vaultSnapshot;
          let policy := scanPolicy dbState holdsChainFunds (Some (info_lamports accountInfo)) overviewPolicy in
          match truthy (sc_blockedReason policy) with
          | Some reason => refundError 409 "policy_active" reason
          | None => Ok policy
          end
      end
  end.

(** ** The request *)
Inductive RefundRequest := RefundPolicy (policyAccount : string) | RefundDelegation (recurringDelegation : string) | RefundVault.

(** A text that is not blank, trimmed *)
Definition trimmedText (value : json) (message : string) : result string :=
  match value with
  | JString text => match trim (chars text) with [] => throwError message | trimmed => Ok (unchars trimmed) end
  | _ => throwError message
  end.

Definition parseEarnPolicyRefundPrepareRequestBody (body : json) : result RefundRequest :=
  if negb (is_object body) then throwError "Request body must be an object."
  else
    match get "kind" body with
    | JString "recurring_delegation" =>
        RefundDelegation <$> trimmedText (get "recurringDelegation" body) "recurringDelegation must be a non-empty string."
    | JString "vault" => Ok RefundVault
    | JUndefined | JString "policy" => RefundPolicy <$> trimmedText (get "policyAccount" body) "policyAccount must be a non-empty string."
    | _ => throwError "kind must be one of policy, recurring_delegation, or vault."
    end.

(** ** No refund of a policy while the vault holds funds *)
Lemma someR_false {A} (f : A -> result bool) l : someR f l = Ok false -> Forall (fun x => f x = Ok false) l.
Proof.
  induction l as [|x l IH]; cbn; intros H; [by apply Forall_nil|]. apply bind_Ok in H as (b & Hb & H). destruct b; [done|]. apply Forall_cons. by split; [|apply IH].
Qed.

Lemma filter_all {A} (f : A -> bool) l : (forall x, x ∈ l -> f x = true) -> List.filter f l = l.
Proof.
  induction l as [|x l IH]; intros H; cbn; [done|]. rewrite (H x) by set_solver. f_equal. apply IH. set_solver.
Qed.

Lemma every_market_universe cluster metadata allowed assets : everyMarketPolicy cluster = Ok metadata ->
  assertPolicyUniverse cluster (Some metadata) = Ok (allowed, assets) ->
  getEarnProductAssetsForCluster cluster = Ok assets /\ allowed = unique (map toBase58 (getRiskBasketMarketsForCluster cluster Safe)).
Proof.
  unfold everyMarketPolicy. intros H Hu. apply bind_Ok in H as (products & Hp & [= <-]). unfold assertPolicyUniverse in Hu.
  cbn [vaultIndex stableMints kaminoLiquidityMints kaminoMarkets default from_option id] in Hu. rewrite Hp in Hu. cbn [mbind result_bind] in Hu.
  rewrite (filter_all _ products) in Hu.
  2: { intros x Hx. cbn zeta. rewrite (proj2 (member_spec _ _)); [done|]. apply list_elem_of_In. by apply (in_map (fun asset => toBase58 (pa_mint asset))), list_elem_of_In. }
  rewrite (filter_all _ (map toBase58 _)) in Hu by (intros x Hx; by apply member_spec).
  repeat case_match; try done. by injection Hu as <- <-.
Qed.

(** Kamino funds are absent exactly when nothing redeems. *)
Lemma no_kamino_funds r complete s kamino idle : snapshot_seen r complete s kamino idle -> someR kaminoFunds (holdings s) = Ok false ->
  Forall (fun d => redeemableAt (hr_second r) d <= 0) (depositsSeen r).
Proof.
  intros Hs H. apply shown_none. rewrite <- (sn_shown _ _ _ _ _ Hs). destruct kamino as [|h kamino]; [done|]. exfalso.
  rewrite (sn_holdings _ _ _ _ _ Hs) in H. apply someR_false, Forall_cons in H as [Hh _].
  assert (Hin : shown h ∈ flat_map (shownDeposit (hr_second r)) (depositsSeen r)) by (rewrite <- (sn_shown _ _ _ _ _ Hs); cbn; set_solver).
  apply list_elem_of_In, in_flat_map in Hin as (d & _ & Hin). unfold shownDeposit in Hin. destruct (Z.ltb_spec 0 (redeemableAt (hr_second r) d)); [|done].
  destruct Hin as [Hin|[]]. injection Hin as _ _ Ha. assert (Hk := sn_keyed _ _ _ _ _ Hs). apply Forall_cons in Hk as [[Hk _] _].
  unfold kaminoFunds in Hh. rewrite Hk, <- Ha, BigInt_toString_roundtrip in Hh. cbn in Hh. injection Hh as Hh. lia.
Qed.

(** The evidence that the vault holds nothing a policy is needed for *)
Record emptied (reads : RefundReads) (cluster : LoyalCluster) (programId settingsPda : pubkey) (vs : SmartAccountEarnVaultRefundSnapshot) (r : HoldingsRead) : Prop := {
  em_chain : exists metadata, everyMarketPolicy cluster = Ok metadata /\ reads_chain cluster (rr_reader reads) None (Some metadata) programId settingsPda r;
  em_assets : getEarnProductAssetsForCluster cluster = Ok (hr_assets r);
  em_markets : hr_allowed r = unique (map toBase58 (getRiskBasketMarketsForCluster cluster Safe));
  em_deposits : Forall (fun d => is_Some (accountAt (hr_second r) (dd_reserve d)) /\ redeemableAt (hr_second r) d = 0) (depositsSeen r);
  em_tokens : Forall (fun t => 0 < rt_amountRaw t -> rt_address t = vs_vaultUsdcAta vs) (vs_tokenAccounts vs);
}.

Lemma no_funds_emptied reads cluster programId settingsPda vs : answers_bytes (rr_reader reads) ->
  holdsFunds reads cluster programId settingsPda vs = Ok false -> exists r, emptied reads cluster programId settingsPda vs r.
Proof.
  intros Hb H. unfold holdsFunds in H. destruct (vaultHoldsChainFunds vs) eqn:Ev; [done|]. unfold vaultHoldsKaminoCollateral in H.
  apply bind_Ok in H as (metadata & Hm & H). apply bind_Ok in H as (s & Hs & H). destruct (fetch_seen _ _ _ _ _ _ _ _ _ Hb Hs) as (r & kamino & idle & Hr & Hsn).
  destruct (every_market_universe _ _ _ _ Hm (rd_universe _ _ _ _ _ _ _ Hr)) as [Ha Hal]. exists r. split; [by exists metadata|done|done| |].
  - assert (Hc := sn_complete _ _ _ _ _ Hsn eq_refl). assert (Hz := no_kamino_funds _ _ _ _ _ Hsn H). rewrite Forall_forall in Hc, Hz.
    apply Forall_forall. intros d Hd. split; [by apply Hc|]. enough (0 <= redeemableAt (hr_second r) d) by (specialize (Hz d Hd); cbn in Hz; lia).
    apply redeemable_at_nonneg. intros info Hi. destruct (rd_second _ _ _ _ _ _ _ Hr) as [E|E]; [rewrite E in Hd; set_solver|]. by eapply Hb.
  - apply Forall_forall. intros t Ht Hpos. apply key_equals_true. destruct (negb (key_equals (rt_address t) (vs_vaultUsdcAta vs))) eqn:E; [|done].
    exfalso. enough (vaultHoldsChainFunds vs = true) by congruence. apply existsb_exists. exists t. split; [by apply list_elem_of_In|]. apply Z.ltb_lt in Hpos. by rewrite Hpos, E.
Qed.

Lemma unblocked a m p f : truthy (getBlockedReason a m p f) = None -> a = false /\ m = false /\ p = false /\ f = false.
Proof. by destruct a, m, p, f. Qed.

(** C36. Closing a policy is prepared only for an open policy of this smart account and only when nothing depends on it: on
    chain, every deposit in every Safe market redeems to nothing, with complete reads, and no token account of the vault but the
    USDC account holds anything; in the database, no active position or vault refers to the policy and none of its
    recurring delegations that exist on chain is protected. *)
Theorem policy_refund_safe (reads : RefundReads) (cluster : LoyalCluster) (programId settingsPda : pubkey) (accountInfo : option AccountInfo)
    (requested : string) (policy : ScanPolicy) :
  answers_bytes (rr_reader reads) -> preparePolicyRefund reads cluster programId settingsPda accountInfo requested = Ok policy ->
  exists overview vs r, rr_overview reads = Ok overview /\ sc_account policy ∈ map op_address overview /\ is_Some accountInfo /\
    fetchEarnVaultRefundSnapshot localeCompare (rr_connection reads) 0 programId cluster None settingsPda = Ok vs /\
    emptied reads cluster programId settingsPda vs r /\
    sc_account policy ∉ activePositionRows (rr_rows reads) /\ sc_activeManagedVault policy = false /\
    Forall (fun d => rd_exists d = true -> rd_protected d = false) (sc_recurringDelegations policy).
Proof.
  intros Hb H. unfold preparePolicyRefund in H. apply bind_Ok in H as (key & Hk & H). apply bind_Ok in H as (overview & Ho & H).
  apply bind_Ok in H as (state & Hst & H). apply bind_Ok in H as (vs & Hvs & H). destruct accountInfo as [info|]; [|done].
  destruct (List.find _ overview) as [op|] eqn:Ef; [|done]. apply bind_Ok in H as (holds & Hh & H).
  destruct (truthy _) eqn:Et; [done|]. injection H as <-. cbn [sc_blockedReason] in Et. apply unblocked in Et as (Ha & Hm & Hp & ->).
  apply no_funds_emptied in Hh as [r Hr]; [|done]. apply find_some in Ef as [Hin Heq]. apply String.eqb_eq in Heq.
  exists overview, vs, r. split; [done|]. split; [cbn; apply list_elem_of_In, in_map; done|]. split; [by eexists|]. split; [done|]. split; [done|].
  cbn [sc_account sc_activeManagedVault sc_recurringDelegations scanPolicy]. rewrite Heq.
  unfold findSingleEarnPolicyRefundDbState, findEarnPolicyRefundDbState in Hst. apply bind_Ok in Hst as (st & Hst & [= <-]). cbn in Ha, Hm, Hp.
  apply bind_Ok in Hst as (open & Hopen & Hst). apply bind_Ok in Hst as (inspected & Hins & [= <-]). cbn in Ha, Hp. split; [|split; [done|]].
  - intros Hx. apply member_false in Hp. by rewrite unique_elem in Hp.
  - cbn [sp_recurringDelegations singleState recurringDelegationsByPolicyAccount].
    destruct (mapGet _ (toBase58 key)) as [ds|] eqn:Eg; [|by apply Forall_nil]. cbn. apply Forall_forall. intros d Hd Hex.
    destruct (rd_protected d) eqn:Epr; [|done]. exfalso. apply member_false in Ha. apply Ha. apply mapGet_In in Eg.
    apply list_elem_of_In, in_map_iff. exists (toBase58 key, ds). split; [done|]. apply filter_In. split; [by apply list_elem_of_In|].
    apply existsb_exists. exists d. split; [by apply list_elem_of_In|]. by rewrite Hex.
Qed.

(** ** No refund of a delegation in use *)
Section InUse.
Context (a : string).

(** A delegation that says it may not be refunded when it is the one at [a] *)
Definition guarded (d : RecurringDelegation) : Prop := rd_account d = a -> rd_protected d = true /\ rd_canRefund d = false.

Definition guarded_at (m : list (string * RecurringDelegation)) : Prop :=
  exists d, mapGet m a = Some d /\ rd_protected d = true /\ rd_canRefund d = false.

Definition keyed_map (m : list (string * RecurringDelegation)) : Prop := map_wf m /\ Forall (fun e => e.1 = rd_account e.2) m.

Lemma keyed_nil : keyed_map [].
Proof. split; [apply NoDup_nil_2|by apply Forall_nil]. Qed.

Lemma keyed_set m d : keyed_map m -> keyed_map (setDelegation m d).
Proof.
  intros [Hw Hk]. split; [by apply mapSet_wf|]. apply Forall_forall. intros e He. apply elem_of_mapSet in He as [->|He]; [done|].
  rewrite Forall_forall in Hk. by apply Hk.
Qed.

Lemma keyed_fold l m : keyed_map m -> keyed_map (fold_left setDelegation l m).
Proof. revert m. induction l as [|d l IH]; intros m H; cbn; [done|]. by apply IH, keyed_set. Qed.

Lemma withMetadata_account d md : rd_account (withMetadata d md) = rd_account d.
Proof. done. Qed.

Lemma keyed_merge l m : keyed_map m -> keyed_map (fold_left mergeChain l m).
Proof. revert m. induction l as [|d l IH]; intros m H; cbn; [done|]. by apply IH, keyed_set. Qed.

Lemma keyed_value m e : keyed_map m -> e ∈ m -> mapGet m (rd_account e.2) = Some e.2.
Proof. intros [Hw Hk] He. rewrite Forall_forall in Hk. rewrite <- (Hk e He). apply elem_of_mapGet; [done|]. by destruct e. Qed.

Lemma keyed_guarded m : keyed_map m -> guarded_at m -> Forall guarded (map snd m).
Proof.
  intros Hk (d & Hd & Hp & Hc). apply Forall_forall. intros x Hx. apply list_elem_of_In, in_map_iff in Hx as (e & <- & He). intros Ha.
  apply list_elem_of_In in He. pose proof (keyed_value m e Hk He) as Hv. rewrite Ha, Hd in Hv. by injection Hv as <-.
Qed.

Lemma set_guarded l m : Forall guarded l -> (guarded_at m \/ exists d, d ∈ l /\ rd_account d = a) -> guarded_at (fold_left setDelegation l m).
Proof.
  revert m. induction l as [|x l IH]; intros m Hl H; cbn.
  - destruct H as [?|(d & Hd & _)]; [done|set_solver].
  - apply Forall_cons in Hl as [Hx Hl]. apply IH; [done|]. unfold guarded_at, setDelegation.
    destruct (String.eqb_spec (rd_account x) a) as [E|E].
    + left. exists x. rewrite mapGet_set, E, String.eqb_refl. split; [done|]. by apply Hx.
    + destruct H as [H|(d & Hd & Ha)].
      * left. rewrite mapGet_set. by apply String.eqb_neq in E as ->.
      * right. exists d. split; [|done]. apply elem_of_cons in Hd as [->|?]; done.
Qed.

Lemma merge_guarded l m : guarded_at m -> guarded_at (fold_left mergeChain l m).
Proof.
  revert m. induction l as [|x l IH]; intros m H; cbn; [done|]. apply IH. destruct H as (d & Hd & Hp & Hc). unfold mergeChain, guarded_at, setDelegation.
  destruct (String.eqb_spec (rd_account x) a) as [E|E].
  - rewrite E, Hd. exists (withMetadata x d). rewrite withMetadata_account, E, mapGet_set, String.eqb_refl. split; [done|]. split; [exact Hp|].
    unfold withMetadata; cbn. unfold canRefundRecurringDelegation. unfold rd_protected in Hp. rewrite Hp. by destruct (rd_exists x).
  - exists d. replace (rd_account match mapGet m (rd_account x) with Some metadata => withMetadata x metadata | None => x end) with (rd_account x) by by case_match.
    rewrite mapGet_set. apply String.eqb_neq in E as ->. done.
Qed.

Lemma sorted_elem (l : list RecurringDelegation) d : d ∈ sortStable byAccount l <-> d ∈ l.
Proof. by rewrite sortStable_perm. Qed.

(** The list merged for a policy that names [a] *)
Lemma merged_guarded metadata chain : Forall guarded metadata -> (exists d, d ∈ metadata /\ rd_account d = a) ->
  Forall guarded (mergeRecurringDelegations metadata chain) /\ exists d, d ∈ mergeRecurringDelegations metadata chain /\ rd_account d = a.
Proof.
  intros Hm Hin. unfold mergeRecurringDelegations. set (m := fold_left mergeChain chain (fold_left setDelegation metadata [])).
  assert (Hk : keyed_map m) by apply keyed_merge, keyed_fold, keyed_nil.
  assert (Hg : guarded_at m) by (apply merge_guarded, set_guarded; [done|by right]). split.
  - apply Forall_forall. intros d Hd. rewrite sorted_elem in Hd. pose proof (keyed_guarded m Hk Hg) as Hf. rewrite Forall_forall in Hf. exact (Hf d Hd).
  - destruct Hg as (d & Hd & _). exists d. assert (He := mapGet_In _ _ _ Hd). split.
    + apply sorted_elem, list_elem_of_In, in_map_iff. exists (a, d). split; [done|]. by apply list_elem_of_In.
    + destruct Hk as [_ Hk]. rewrite Forall_forall in Hk. symmetry. exact (Hk _ He).
Qed.

(** When every policy's list is guarded and one names [a], so is what is collected. *)
Lemma collected_guarded byPolicy chain : Forall guarded (concat (map snd byPolicy)) -> (exists d, d ∈ concat (map snd byPolicy) /\ rd_account d = a) ->
  Forall guarded (collectRecurringDelegations byPolicy chain).
Proof.
  intros Hf Hin. unfold collectRecurringDelegations. set (m := fold_left setDelegation (concat (map snd byPolicy)) (fold_left setDelegation chain [])).
  assert (Hk : keyed_map m) by apply keyed_fold, keyed_fold, keyed_nil.
  assert (Hg : guarded_at m) by (apply set_guarded; [done|by right]).
  apply Forall_forall. intros d Hd. rewrite sorted_elem in Hd. pose proof (keyed_guarded m Hk Hg) as Hx. rewrite Forall_forall in Hx. exact (Hx d Hd).
Qed.
End InUse.

(** What may be refunded follows from existence, protection and status. *)
Definition consistent (d : RecurringDelegation) : Prop :=
  rd_canRefund d = canRefundRecurringDelegation (rd_exists d) (rd_protected d) (rd_status d).

Definition consistent_map (m : list (string * RecurringDelegation)) : Prop := Forall (fun e => consistent e.2) m.

Lemma consistent_set m d : consistent_map m -> consistent d -> consistent_map (setDelegation m d).
Proof.
  intros Hm Hd. apply Forall_forall. intros e He. apply elem_of_mapSet in He as [->|He]; [done|]. unfold consistent_map in Hm. rewrite Forall_forall in Hm. exact (Hm e He).
Qed.

Lemma consistent_fold l m : consistent_map m -> Forall consistent l -> consistent_map (fold_left setDelegation l m).
Proof. revert m. induction l as [|d l IH]; intros m Hm Hl; cbn; [done|]. apply Forall_cons in Hl as [Hd Hl]. by apply IH; [apply consistent_set|]. Qed.

Lemma consistent_merge l m : consistent_map m -> Forall consistent l -> consistent_map (fold_left mergeChain l m).
Proof.
  revert m. induction l as [|d l IH]; intros m Hm Hl; cbn; [done|]. apply Forall_cons in Hl as [Hd Hl]. apply IH; [|done].
  apply consistent_set; [done|]. by case_match.
Qed.

Lemma consistent_values m : consistent_map m -> Forall consistent (sortStable byAccount (map snd m)).
Proof.
  intros H. apply Forall_forall. intros d Hd. rewrite sorted_elem in Hd. apply list_elem_of_In, in_map_iff in Hd as (e & <- & He).
  unfold consistent_map in H. rewrite Forall_forall in H. apply H. by apply list_elem_of_In.
Qed.

Lemma inspect_consistent account row now d : inspectRecurringDelegationAccount account row now = Ok d ->
  consistent d /\ rd_account d = default EmptyString (ar_recurringDelegation row) /\ rd_protected d = (resolveRecurringDelegationUsage row).1.2.
Proof.
  unfold inspectRecurringDelegationAccount. assert (Hb : forall b, b = emptyBase row -> db_account b = default EmptyString (ar_recurringDelegation row) /\ db_protected b = (resolveRecurringDelegationUsage row).1.2).
  { intros b ->. unfold emptyBase. by destruct (resolveRecurringDelegationUsage row) as [[? ?] ?]. }
  destruct (Hb _ eq_refl) as [Ha Hp]. destruct (truthy (ar_recurringDelegation row)) as [t|], account as [info|]; try (intros [= <-]; by repeat split).
  intros H. apply bind_Ok in H as (base & Hbase & [= <-]). unfold accountBase in Hbase.
  apply bind_Ok in Hbase as (x1 & _ & Hbase). apply bind_Ok in Hbase as (x2 & _ & Hbase). apply bind_Ok in Hbase as (x3 & _ & Hbase).
  apply bind_Ok in Hbase as (x4 & _ & [= <-]). by repeat split.
Qed.

Lemma target_protected row : is_Some (ar_targetId row) -> (resolveRecurringDelegationUsage row).1.2 = true.
Proof. intros [id Hid]. unfold resolveRecurringDelegationUsage. rewrite Hid. by repeat case_match. Qed.

Lemma open_consistent accounts now ds : findOpenWalletToEarnVaultRecurringDelegations accounts now = Ok ds -> Forall consistent ds.
Proof.
  unfold findOpenWalletToEarnVaultRecurringDelegations. intros H. apply bind_Ok in H as (l & _ & H). apply bind_Ok in H as (ds' & Hm & [= <-]).
  apply mapR_Ok_Forall2 in Hm. apply Forall_forall. intros d Hd. rewrite sorted_elem in Hd. apply list_elem_of_lookup in Hd as [i Hi].
  destruct (Forall2_lookup_r _ _ _ _ _ Hm Hi) as (e & _ & He). by apply inspect_consistent in He as [? _].
Qed.

Section OnePolicy.
Context (p : string) (Hp : p <> EmptyString).

(** Open targets of one policy *)
Definition target_of (row : AutodepositPolicyRow) : Prop := ar_policyAccount row = Some p /\ is_Some (ar_targetId row).

Definition single (ds : list RecurringDelegation) : list (string * list RecurringDelegation) := match ds with [] => [] | _ => [(p, ds)] end.

Lemma single_get ds : default [] (mapGet (single ds) p) = ds.
Proof. destruct ds as [|d ds]; [done|]. cbn. by rewrite String.eqb_refl. Qed.

Lemma single_set ds ds' : mapSet (single ds) p ds' = [(p, ds')].
Proof. destruct ds as [|d ds]; [done|]. cbn. by rewrite String.eqb_refl. Qed.

Lemma truthy_policy row : target_of row -> truthy (ar_policyAccount row) = Some p.
Proof. intros [-> _]. unfold truthy. by apply String.eqb_neq in Hp as ->. Qed.

Lemma inspect_rows infos now rows : Forall target_of rows -> forall ds m, foldR (inspectRow infos now) (single ds) rows = Ok m ->
  exists news, m = single (ds ++ news) /\ Forall2 (fun row d => exists account, inspectRecurringDelegationAccount account row now = Ok d) rows news.
Proof.
  induction 1 as [|row rows Hr Hrs IH]; intros ds m H; cbn [foldR] in H.
  - injection H as <-. exists []. by rewrite app_nil_r.
  - apply bind_Ok in H as (m1 & H1 & H). unfold inspectRow in H1. apply bind_Ok in H1 as (d & Hd & H1). rewrite truthy_policy, single_get, single_set in H1 by done.
    injection H1 as <-. replace [(p, ds ++ [d])] with (single (ds ++ [d])) in H by (by destruct ds).
    destruct (IH _ _ H) as (news & -> & Hn). exists (d :: news). rewrite <- app_assoc. split; [done|]. constructor; [by eexists|done].
Qed.

Lemma unique_const {A} `{EqDecision A} (x : A) l : l <> [] -> Forall (eq x) l -> unique l = [x].
Proof.
  intros Hl H. induction H as [|y l <- Hf IH]; [done|]. cbn [unique]. f_equal. destruct l as [|z l]; [done|]. rewrite IH by done. cbn.
  by rewrite bool_decide_true.
Qed.

(** What the state of one policy is made of *)
Lemma one_policy_state rows programAccounts accountsOf now policyAccounts state : autodepositRows rows <> [] -> policyAccounts <> [] ->
  Forall target_of (autodepositRows rows) ->
  findEarnPolicyRefundDbState rows programAccounts accountsOf now policyAccounts = Ok state ->
  exists open news,
    Forall consistent open /\ Forall consistent news /\ Forall (fun d => rd_protected d = true) news /\
    (forall row a, row ∈ autodepositRows rows -> truthy (ar_recurringDelegation row) = Some a -> exists d, d ∈ news /\ rd_account d = a) /\
    recurringDelegations state = collectRecurringDelegations [(p, mergeRecurringDelegations news open)] open.
Proof.
  intros Hne Hpa Hrows H. unfold findEarnPolicyRefundDbState in H. apply bind_Ok in H as (open & Ho & H). apply open_consistent in Ho.
  destruct policyAccounts as [|x xs]; [done|]. apply bind_Ok in H as (inspected & Hi & [= <-]). cbn [recurringDelegations].
  set (targets := map (withCounts (scheduledCounts rows)) (autodepositRows rows)) in *.
  assert (Ht : Forall target_of targets) by (apply Forall_map; eapply Forall_impl; [exact Hrows|]; intros r [H1 H2]; split; [exact H1|exact H2]).
  assert (Hn : exists news, inspected = single news /\
    Forall2 (fun row d => exists account, inspectRecurringDelegationAccount account row now = Ok d)
      (List.filter (fun row => match truthy (ar_recurringDelegation row) with Some _ => true | None => false end) targets) news).
  { unfold inspectRecurringDelegations in Hi. destruct (List.filter _ targets) as [|f fs] eqn:Ef; [injection Hi as <-; by exists []|].
    apply bind_Ok in Hi as (infos & _ & Hi). apply (inspect_rows infos now (f :: fs)) with (ds := []) in Hi; [done|]. rewrite <- Ef. apply Forall_forall. intros r Hr.
    apply list_elem_of_In, filter_In in Hr as [Hr _]. rewrite Forall_forall in Ht. by apply Ht, list_elem_of_In. }
  destruct Hn as (news & -> & Hn). exists open, news. split; [done|].
  assert (Hnews : forall d, d ∈ news -> exists row account, row ∈ targets /\ inspectRecurringDelegationAccount account row now = Ok d).
  { intros d Hd. apply list_elem_of_lookup in Hd as [i Hi']. destruct (Forall2_lookup_r _ _ _ _ _ Hn Hi') as (row & Hr & account & Ha).
    exists row, account. split; [|done]. apply list_elem_of_lookup_2, list_elem_of_In, filter_In in Hr as [Hr _]. by apply list_elem_of_In. }
  split; [|split; [|split]].
  - apply Forall_forall. intros d Hd. destruct (Hnews d Hd) as (row & account & _ & Ha). by apply inspect_consistent in Ha as [? _].
  - apply Forall_forall. intros d Hd. destruct (Hnews d Hd) as (row & account & Hr & Ha). apply inspect_consistent in Ha as (_ & _ & ->).
    apply target_protected. rewrite Forall_forall in Ht. by apply Ht.
  - intros row a Hr Ha. assert (Hin : withCounts (scheduledCounts rows) row ∈ List.filter (fun row => match truthy (ar_recurringDelegation row) with Some _ => true | None => false end) targets).
    { apply list_elem_of_In, filter_In. split; [by apply in_map, list_elem_of_In|]. cbn. by rewrite Ha. }
    apply list_elem_of_lookup in Hin as [i Hi']. destruct (Forall2_lookup_l _ _ _ _ _ Hn Hi') as (d & Hd & account & Hd'). exists d. split; [by eapply list_elem_of_lookup_2|].
    apply inspect_consistent in Hd' as (_ & -> & _). cbn. unfold truthy in Ha. destruct (ar_recurringDelegation row); [|done]. case_match; [done|]. by injection Ha as ->.
  - rewrite (unique_const (Some p)).
    + cbn [fold_left]. unfold mergePolicy. unfold truthy. apply String.eqb_neq in Hp as ->. by rewrite single_get, single_set.
    + unfold targets. by destruct (autodepositRows rows).
    + apply Forall_forall. intros o Hin. apply list_elem_of_In, in_map_iff in Hin as (r & <- & Hr). rewrite Forall_forall in Ht. symmetry. by apply Ht, list_elem_of_In.
Qed.
End OnePolicy.

Lemma merged_consistent metadata chain : Forall consistent metadata -> Forall consistent chain -> Forall consistent (mergeRecurringDelegations metadata chain).
Proof. intros Hm Hc. apply consistent_values, consistent_merge; [|done]. apply consistent_fold; [by apply Forall_nil|done]. Qed.

Lemma collected_consistent byPolicy chain : Forall consistent (concat (map snd byPolicy)) -> Forall consistent chain ->
  Forall consistent (collectRecurringDelegations byPolicy chain).
Proof. intros Hm Hc. apply consistent_values, consistent_fold; [|done]. apply consistent_fold; [by apply Forall_nil|done]. Qed.

(** With the open targets of at most one policy, what may be refunded is not named by a target. *)
Lemma refundable_unused p rows programAccounts accountsOf now policyAccounts state d :
  p <> EmptyString -> Forall (target_of p) (autodepositRows rows) -> p ∈ policyAccounts ->
  findEarnPolicyRefundDbState rows programAccounts accountsOf now policyAccounts = Ok state ->
  d ∈ recurringDelegations state -> rd_canRefund d = true ->
  consistent d /\ Forall (fun row => truthy (ar_recurringDelegation row) <> Some (rd_account d)) (autodepositRows rows).
Proof.
  intros Hp Hrows Hin H Hd Hc. assert (Hpa : policyAccounts <> []) by (by intros ->; set_solver). destruct (autodepositRows rows) as [|r0 rest] eqn:Er.
  - split; [|by apply Forall_nil]. unfold findEarnPolicyRefundDbState in H. rewrite Er in H. apply bind_Ok in H as (open & Ho & H). apply open_consistent in Ho.
    destruct policyAccounts; [done|]. cbn in H. injection H as <-. cbn in Hd. pose proof (collected_consistent [] open (Forall_nil_2 _) Ho) as Hf. rewrite Forall_forall in Hf. exact (Hf d Hd).
  - rewrite <- Er in *. destruct (one_policy_state p Hp rows programAccounts accountsOf now policyAccounts state) as (open & news & Ho & Hn & Hpr & Hnames & Hst); [by rewrite Er|done|done|done|].
    rewrite Hst in Hd. assert (Hm := merged_consistent news open Hn Ho). split.
    + assert (Hf : Forall consistent (collectRecurringDelegations [(p, mergeRecurringDelegations news open)] open)) by (apply collected_consistent; [cbn; by rewrite app_nil_r|done]).
      rewrite Forall_forall in Hf. exact (Hf d Hd).
    + apply Forall_forall. intros row Hrow Ha. destruct (Hnames row _ Hrow Ha) as (d0 & Hd0 & Ha0).
      assert (Hg : Forall (guarded (rd_account d)) news).
      { apply Forall_forall. intros x Hx _. rewrite Forall_forall in Hpr, Hn. specialize (Hpr x Hx). specialize (Hn x Hx). cbn in Hpr. split; [done|].
        unfold consistent in Hn. rewrite Hn, Hpr. unfold canRefundRecurringDelegation. by destruct (rd_exists x). }
      destruct (merged_guarded (rd_account d) news open Hg) as [Hmg Hme]; [by exists d0|].
      pose proof (collected_guarded (rd_account d) [(p, mergeRecurringDelegations news open)] open) as Hcg. cbn [map snd concat] in Hcg. rewrite app_nil_r in Hcg.
      specialize (Hcg Hmg Hme). rewrite Forall_forall in Hcg. destruct (Hcg d Hd eq_refl) as [_ Hfalse]. congruence.
Qed.

(** C37. When the open Autodeposit targets belong to one policy, revoking a recurring delegation is prepared only for one that
    exists on chain, is valid, and is not the delegation of any open target; the transaction is the revocation of exactly it. *)
Theorem delegation_refund_safe (p : string) (reads : RefundReads) (overview : list OverviewPolicy) (feePayer : pubkey) (requested : string)
    (instructions : list instruction) (d : RecurringDelegation) :
  p <> EmptyString -> Forall (target_of p) (autodepositRows (rr_rows reads)) -> rr_overview reads = Ok overview -> p ∈ map op_address overview ->
  prepareDelegationRefund reads feePayer requested = Ok (instructions, d) ->
  rd_account d = requested /\ rd_exists d = true /\ rd_protected d = false /\ (rd_status d = StatusActive \/ rd_status d = StatusExpired) /\
  Forall (fun row => truthy (ar_recurringDelegation row) <> Some requested) (autodepositRows (rr_rows reads)) /\
  exists key, newPublicKey requested = Ok key /\
    instructions = [Instruction SUBSCRIPTIONS_PROGRAM_ID [Meta feePayer true true; Meta key false true] [SUBSCRIPTIONS_REVOKE_DELEGATION]].
Proof.
  intros Hp Hrows Ho Hin H. unfold prepareDelegationRefund in H. apply bind_Ok in H as (key & Hk & H). rewrite Ho in H. cbn [mbind result_bind] in H.
  apply bind_Ok in H as (state & Hst & H). destruct (List.find _ (recurringDelegations state)) as [d'|] eqn:Ef; [|done].
  destruct (rd_canRefund d') eqn:Hc; [|done]. injection H as <- <-. apply find_some in Ef as [Hd Heq]. apply list_elem_of_In in Hd. apply String.eqb_eq in Heq.
  destruct (refundable_unused p _ _ _ _ _ _ d' Hp Hrows Hin Hst Hd Hc) as [Hcons Hnone]. rewrite Heq in Hnone. unfold consistent in Hcons. rewrite Hc in Hcons.
  unfold canRefundRecurringDelegation in Hcons. split; [done|]. destruct (rd_exists d'), (rd_protected d'); cbn in Hcons; try discriminate Hcons. split; [done|]. split; [done|].
  split; [destruct (rd_status d'); auto; discriminate Hcons|]. split; [done|]. unfold parsePublicKey in Hk. destruct (newPublicKey requested) as [k|] eqn:Ek; [|done]. injection Hk as ->.
  by exists key.
Qed.
End PolicyRefund.

Module PolicyRefundWitness.
Import DemoKeys KaminoWitness HoldingsWitness FullExitWitness.

Definition policyA : string := text (key_of 31).
Definition policyB : string := text (key_of 32).
Definition delegationA : key := key_of 41.
Definition delegationB : key := key_of 42.
Definition walletKey : key := key_of 50.

Definition delegationInfo : AccountInfo (PK := demo_keys) := info SUBSCRIPTIONS_PROGRAM_ID (3 :: replicate 210 0).
Definition accountsView (k : key) : option AccountInfo :=
  if bool_decide (k = delegationA) || bool_decide (k = delegationB) then Some delegationInfo else None.

Definition targetRow (policyAccount : string) (delegation : key) (id : Z) : AutodepositPolicyRow := {|
  ar_policyAccount := Some policyAccount; ar_recurringDelegation := Some (text delegation); ar_expiryTimestamp := None;
  ar_scheduledSweepCount := 0; ar_source := FromMetadata; ar_targetId := Some id; ar_targetActive := true; ar_targetLifecycleStatus := "active" |}.

Definition demoReads (rows : list AutodepositPolicyRow) : RefundReads := {|
  rr_rows := {| policyRows := []; activeVaultRows := []; activePositionRows := []; autodepositRows := rows; scheduledCounts := [] |};
  rr_vaultDbState := {| hasActiveAutodeposit := false; hasActiveManagedVault := false; hasActivePosition := false |};
  rr_overview := Ok (map (fun address => {| op_address := address; op_accountIndex := None; op_seed := "1"; op_state := "active" |}) [policyA; policyB]);
  rr_programAccounts := Ok [(delegationA, delegationInfo); (delegationB, delegationInfo)];
  rr_accountsOf := fun _ => Ok accountsView;
  rr_connection := demoConnection 0;
  rr_reader := demoReader 0 0;
  rr_nowSeconds := 1000;
  rr_now := "now" |}.

(** With a second policy that has a target of its own, the current delegation of the first is offered for refund. *)
Example current_delegation_refunded :
  (fun r : list instruction * RecurringDelegation => (rd_account r.2, rd_protected r.2, length r.1)) <$>
    prepareDelegationRefund compareTexts (demoReads [targetRow policyA delegationA 1; targetRow policyB delegationB 2]) walletKey (text delegationA) =
  Ok (text delegationA, false, 1%nat).
Proof. vm_compute. reflexivity. Qed.

(** With the first policy alone it is not. *)
Example current_delegation_kept :
  is_ok (prepareDelegationRefund compareTexts (demoReads [targetRow policyA delegationA 1]) walletKey (text delegationA)) = false.
Proof. vm_compute. reflexivity. Qed.

Definition unusedRefund : result (list instruction * RecurringDelegation) :=
  prepareDelegationRefund compareTexts (demoReads [targetRow policyA delegationA 1]) walletKey (text delegationB).

Lemma delegation_refund_safe_witness :
  match unusedRefund with
  | Ok (instructions, d) =>
      rd_account d = text delegationB /\ rd_exists d = true /\ rd_protected d = false /\ (rd_status d = StatusActive \/ rd_status d = StatusExpired) /\
      Forall (fun row => truthy (ar_recurringDelegation row) <> Some (text delegationB)) [targetRow policyA delegationA 1] /\
      exists key, newPublicKey (text delegationB) = Ok key /\
        instructions = [Instruction SUBSCRIPTIONS_PROGRAM_ID [Meta walletKey true true; Meta key false true] [SUBSCRIPTIONS_REVOKE_DELEGATION]]
  | Throw _ => False
  end.
Proof.
  assert (H : is_ok unusedRefund = true) by (vm_compute; reflexivity). destruct unusedRefund as [[instructions d]|] eqn:E; [|discriminate H].
  apply (delegation_refund_safe compareTexts policyA (demoReads [targetRow policyA delegationA 1])
           (map (fun address => {| op_address := address; op_accountIndex := None; op_seed := "1"; op_state := "active" |}) [policyA; policyB])
           walletKey (text delegationB) instructions d); [discriminate| |reflexivity|by left|exact E].
  apply Forall_cons. split; [|by apply Forall_nil]. split; [done|by eexists].
Defined.

Definition policyRefund : result ScanPolicy :=
  preparePolicyRefund compareTexts (demoReads []) Devnet demoProgram demoSettings (Some delegationInfo) policyA.

Lemma policy_refund_safe_witness :
  match policyRefund with
  | Ok refunded => exists overview vs r, rr_overview (demoReads []) = Ok overview /\ sc_account refunded ∈ map op_address overview /\ is_Some (Some delegationInfo) /\
      fetchEarnVaultRefundSnapshot compareTexts (rr_connection (demoReads [])) 0 demoProgram Devnet None demoSettings = Ok vs /\
      emptied (demoReads []) Devnet demoProgram demoSettings vs r /\
      sc_account refunded ∉ activePositionRows (rr_rows (demoReads [])) /\ sc_activeManagedVault refunded = false /\
      Forall (fun d => rd_exists d = true -> rd_protected d = false) (sc_recurringDelegations refunded)
  | Throw _ => False
  end.
Proof.
  assert (H : is_ok policyRefund = true) by (vm_compute; reflexivity). destruct policyRefund as [refunded|] eqn:E; [|discriminate H].
  apply (policy_refund_safe compareTexts (demoReads []) Devnet demoProgram demoSettings (Some delegationInfo) policyA refunded); [|exact E].
  apply demo_bytes; apply info_bytes; vm_compute; reflexivity.
Defined.
End PolicyRefundWitness.
