(* ===== verification/AutodepositSetup.v ===== *)
(** Setting up, using and closing Autodeposit (web/packages/smart-account-vaults/src/client.ts and web/apps/mobile/src/lib/solana/earn/autodeposit.ts):
    the stages of a setup with the evidence they hand on, the check of its artifacts, the pull of the policy's signer, the close, and the loop that runs
    a setup to its end.

    The generated builders of smart-account instructions, the builders of the token program and the size of a compiled transaction are a class of
    arguments; so are the decoders of policy and token accounts. The readings of the clock are a record. *)
From S2P Require Import Prelude JsString JsMap Json Solana MessageCompile PreparedWire EarnWire Bytes Subscriptions Squads Protocols Registry Sdk Voltr RpcFetch Pda Kamino Holdings FullExit GeneratedValues ClientPolicies NativeSol PolicyRefund.

(** ** Constants *)
Definition EARN_POLICY_PACKET_DATA_SIZE := 1232.
Definition EARN_DEPOSIT_USDC_DECIMALS := 6.
Definition EARN_AUTODEPOSIT_TOKEN_APPROVAL_ALLOWANCE_RAW := Z.shiftl 1 64 - 1.
Definition SUBSCRIPTION_AUTHORITY_DATA_LEN := 106.
Definition EARN_AUTODEPOSIT_SETUP_ACCOUNT_EVIDENCE_TTL_MS := 5 * 60 * 1000.
Definition EARN_AUTODEPOSIT_BATCH_IMMEDIATE_START_BUFFER_SECONDS := 30.
Definition MAX_SETUP_STAGES := 4%nat.

(** [Permission] *)
Definition Permission_Initiate := 1.
Definition Permission_Vote := 2.
Definition Permission_Execute := 4.
Definition Permissions_has (mask permission : Z) : bool := Z.land mask permission =? permission.

(** A [policyCreateMissingAccount] diagnostic *)
Record EarnPolicyCreateDiagnostics := {
  dg_includedPolicyAccounts : list string;
  dg_policyAccount : string;
  dg_policySeed : string;
  dg_policyStage : string;
  dg_programId : string;
  dg_settingsPda : string;
}.

Definition wireCluster (cluster : LoyalCluster) : EarnWire.LoyalCluster :=
  match cluster with Devnet => EarnWire.Devnet | MainnetBeta => EarnWire.MainnetBeta end.

(** ** Policies as generated code decodes them *)
Section PolicyTypes.
Context {PK : PublicKeys}.

Record PolicySigner := { sr_key : pubkey; sr_mask : Z }.
Definition createPolicySigner (signer : pubkey) : PolicySigner :=
  {| sr_key := signer; sr_mask := Z.lor (Z.lor Permission_Initiate Permission_Vote) Permission_Execute |}.

Record ProgramInteractionState := {
  ps_accountIndex : Z;
  ps_instructionsConstraints : list (InstructionConstraint pubkey);
  ps_preHook : gvalue;
  ps_postHook : gvalue;
  ps_spendingLimits : list gvalue;
}.
(** Other kinds of policy are kept as the value they are. *)
Inductive PolicyState := StateProgramInteraction (interaction : ProgramInteractionState) | StateOther (value : gvalue).

Record OnchainPolicy := {
  oc_settings : pubkey;
  oc_seed : Z;
  oc_threshold : Z;
  oc_timeLock : Z;
  oc_signers : list PolicySigner;
  oc_policyState : PolicyState;
}.

Definition stateValue (state : PolicyState) : gvalue :=
  match state with
  | StateProgramInteraction i => GObject [
      ("__kind", GString "ProgramInteraction");
      ("fields", GArray [GObject [ ("accountIndex", GInt (ps_accountIndex i)); ("instructionsConstraints", GArray (map genConstraint (ps_instructionsConstraints i)));
                                   ("preHook", ps_preHook i); ("postHook", ps_postHook i); ("spendingLimits", GArray (ps_spendingLimits i)) ]]) ]%string
  | StateOther value => value
  end.

Definition isSubscriptionSweepPolicy (policy : OnchainPolicy) : bool :=
  match oc_policyState policy with
  | StateProgramInteraction interaction =>
      (ps_accountIndex interaction =? EARN_VAULT_INDEX) && negb (length (ps_instructionsConstraints interaction) =? 0)%nat &&
      forallb (fun constraint => key_equals (ic_program constraint) SUBSCRIPTIONS_PROGRAM_ID) (ps_instructionsConstraints interaction)
  | StateOther _ => false
  end.

(** ** What the generated builders are asked for *)
Inductive SettingsAction :=
  | ActionPolicyCreate (seed : Z) (payload : PolicyCreationPayload) (signers : list PolicySigner) (threshold timeLock : Z)
  | ActionPolicyRemove (policy : pubkey).

Record SettingsSyncRequest := {
  st_feePayer : pubkey;
  st_settingsPda : pubkey;
  st_signers : list pubkey;
  st_actions : list SettingsAction;
  st_memo : option string;
  st_remainingAccounts : list account_meta;
}.

(** A synchronous execution under a policy: constraint indices, message and accounts *)
Record PolicyPayloadRequest := {
  pq_feePayer : pubkey;
  pq_policy : pubkey;
  pq_accountIndex : Z;
  pq_numSigners : Z;
  pq_instructionConstraintIndices : list Z;
  pq_instructions : list Z;
  pq_instruction_accounts : list account_meta;
  pq_memo : option string;
}.

(** Instructions and lookup tables *)
Record BuiltOperation := { bo_instructions : list instruction; bo_lookupTableAccounts : list AddressLookupTableAccount }.

Class ClientBuilders := {
  executeSettingsTransactionSync : SettingsSyncRequest -> result BuiltOperation;
  executePolicyPayloadSync : PolicyPayloadRequest -> result BuiltOperation;
  (** [createApproveCheckedInstruction(account, mint, delegate, owner, amount, decimals, [], TOKEN_PROGRAM_ID)] *)
  createApproveChecked : pubkey -> pubkey -> pubkey -> pubkey -> Z -> Z -> instruction;
  (** [createRevokeInstruction(account, owner)] *)
  createRevoke : pubkey -> pubkey -> instruction;
  (** [createAssociatedTokenAccountIdempotentInstruction(payer, ata, owner, mint, tokenProgram)] *)
  createAtaIdempotent : pubkey -> pubkey -> pubkey -> pubkey -> pubkey -> instruction;
  (** The length and the number of signatures of a compiled operation *)
  serializedLength : PreparedOperation EarnPolicyCreateDiagnostics -> result Z;
  signatureCount : PreparedOperation EarnPolicyCreateDiagnostics -> result Z;
  (** [Policy.byteSize] of a new policy with a state and a signer *)
  policyByteSize : pubkey -> PolicyCreationPayload -> Z -> pubkey -> pubkey -> Z;
  (** [Policy.fromAccountInfo] *)
  policyFromAccountInfo : AccountInfo -> result OnchainPolicy;
  (** [AccountLayout.span], and the delegate and delegated amount [AccountLayout.decode] reads from that many bytes *)
  accountLayoutSpan : Z;
  decodeDelegate : list Z -> option pubkey * Z;
}.
End PolicyTypes.

Section AutodepositSetup.
Context {PK : PublicKeys} {SPL : SplToken PK} {KB : KeyBytes PK} {B : BeetUints} {TL : TokenLayouts PK} {CB : ClientBuilders}.
Context (localeCompare : string -> string -> Z) (smartAccountsProgramId : pubkey).
#[local] Abbreviation Op := (PreparedOperation EarnPolicyCreateDiagnostics).
#[local] Abbreviation Connection := (@InjectableConnection PK EarnPolicyCreateDiagnostics).

Definition operationOf (name : string) (payer programId : pubkey) (instructions : list instruction) (tables : list AddressLookupTableAccount) : Op :=
  Prepared instructions tables name payer programId true None.

(** ** Instructions *)
Definition createSubscriptionInitAuthorityInstruction (owner subscriptionAuthority tokenMint userAta : pubkey) : instruction :=
  Instruction SUBSCRIPTIONS_PROGRAM_ID
    [ signer owner; writable subscriptionAuthority; readonly tokenMint; writable userAta; readonly systemProgramId; readonly splTokenProgram ]
    subscriptionInitAuthorityData.

Definition createSubscriptionCreateRecurringDelegationInstruction (delegator subscriptionAuthority delegation delegatee : pubkey)
    (input : SubscriptionCreateRecurringDelegationDataInput) : result instruction :=
  data ← subscriptionCreateRecurringDelegationData input;
  Ok (Instruction SUBSCRIPTIONS_PROGRAM_ID
    [ signer delegator; readonly subscriptionAuthority; writable delegation; readonly delegatee; readonly systemProgramId ] data).

Definition createSubscriptionTransferRecurringInstruction (delegation subscriptionAuthority delegatorAta receiverAta mint delegatee : pubkey) (amountRaw : Z)
    (delegator : pubkey) : result instruction :=
  eventAuthority ← deriveSubscriptionEventAuthority;
  data ← subscriptionTransferRecurringData {| transferAmountRaw := Big amountRaw; transferDelegator := delegator; transferMint := mint |};
  Ok (Instruction SUBSCRIPTIONS_PROGRAM_ID
    [ writable delegation; readonly subscriptionAuthority; writable delegatorAta; writable receiverAta; readonly mint; readonly splTokenProgram;
      Meta delegatee true false; readonly eventAuthority; readonly SUBSCRIPTIONS_PROGRAM_ID ] data).

Definition makeSignerWritable (ix : instruction) (signer : pubkey) : instruction :=
  Instruction (programId ix)
    (map (fun key => if key_equals (meta_pubkey key) signer && isSigner key then Meta (meta_pubkey key) (isSigner key) true else key) (keys ix)) (data ix).

(** ** Reading accounts *)
Definition readSubscriptionAuthorityInitId (account : AccountInfo) : result Z :=
  let bytes := take 8 (drop 98 (info_data account)) in
  if negb (length bytes =? 8)%nat then throwError "Subscription authority init id is missing."
  else let value := le_value bytes in Ok (if value <? 2 ^ 63 then value else value - 2 ^ 64).

Definition readSplTokenDelegate (account : option AccountInfo) : option pubkey * Z :=
  match account with
  | None => (None, 0)
  | Some account =>
      if negb (key_equals (info_owner account) splTokenProgram) || (Z.of_nat (length (info_data account)) <? accountLayoutSpan) then (None, 0)
      else decodeDelegate (info_data account)
  end.

Definition hasExpectedSplTokenDelegateAuthority (account : option AccountInfo) (expectedDelegate : pubkey) : bool :=
  match (readSplTokenDelegate account).1 with Some delegate => key_equals delegate expectedDelegate | None => false end.

Definition hasSufficientExpectedSplTokenDelegate (account : option AccountInfo) (expectedDelegate : pubkey) (minimumDelegatedAmount : Z) : bool :=
  hasExpectedSplTokenDelegateAuthority account expectedDelegate && (minimumDelegatedAmount <=? (readSplTokenDelegate account).2).

Definition normalizeAutodepositU64 (value : Z) (name : string) : result Z :=
  if (value <? 0) || (Z.shiftl 1 64 - 1 <? value) then throwError (name +:+ " must be a u64.") else Ok value.

Definition resolveNextPolicySeed (policySeed : option Z) : result Z :=
  let nextPolicySeed := default 0 policySeed + 1 in
  if 9007199254740991 <? nextPolicySeed then throwError "Policy seed is too large for this client." else Ok nextPolicySeed.

(** Milliseconds to seconds *)
Definition secondsOf (nowMs : Z) : Z := nowMs / 1000.

Definition resolveEarnAutodepositStartTimestamp (nowMs expiryTimestamp : Z) (startTimestamp : option Z) : Z :=
  let nowSeconds := secondsOf nowMs in
  match startTimestamp with
  | None => nowSeconds
  | Some start => if (negb (start =? 0) && (start <=? nowSeconds)) || ((start =? 0) && (expiryTimestamp =? 0)) then nowSeconds else start
  end.

Definition resolveEarnAutodepositBatchStartTimestamp (nowMs : Z) (refreshImmediateStartTimestamp : bool) (startTimestamp : option Z) : option Z :=
  if refreshImmediateStartTimestamp then startTimestamp
  else match startTimestamp with
       | Some start => Some start
       | None => Some (secondsOf nowMs + EARN_AUTODEPOSIT_BATCH_IMMEDIATE_START_BUFFER_SECONDS)
       end.

Definition preparedPacketLength (prepared : Op) : result (option Z) :=
  match serializedLength prepared with
  | Ok length => Ok (Some length)
  | Throw e => if String.eqb (exn_name e) "RangeError" then Ok None else Throw e
  end.

Definition withEarnPolicyCreateSimulationDiagnostics (operation : Op) (policyAccount : pubkey) (policySeed : Z) (policyStage : string)
    (programId settingsPda : pubkey) : Op :=
  let account := toBase58 policyAccount in
  let instructionAccounts := flat_map (fun ix => map (fun meta => toBase58 (meta_pubkey meta)) (keys ix)) (po_instructions operation) in
  Prepared (po_instructions operation) (po_lookupTableAccounts operation) (po_operation operation) (po_payer operation) (po_programId operation)
    (po_requiresConfirmation operation)
    (Some {| dg_includedPolicyAccounts := if member account instructionAccounts then [account] else []; dg_policyAccount := account;
             dg_policySeed := bigint_toString policySeed; dg_policyStage := policyStage; dg_programId := toBase58 programId; dg_settingsPda := toBase58 settingsPda |}).

(** ** A stage of the setup *)
Record SetupInput := {
  ai_settingsPda : pubkey;
  ai_walletAddress : pubkey;
  ai_feePayer : pubkey;
  ai_signer : pubkey;
  ai_policySigner : pubkey;
  ai_amountRaw : Z;
  ai_minimumDelegatorBalanceRaw : option Z;
  ai_cluster : option LoyalCluster;
  ai_nonce : option Z;
  ai_policySeed : option Z;
  ai_periodLengthSeconds : option Z;
  ai_startTimestamp : option Z;
  ai_expiryTimestamp : option Z;
  ai_memo : option string;
}.

(** [Date.now()] where it is read: for the nonce, the start, the freshness (twice) and the evidence *)
Record SetupClock := { ck_nonce : Z; ck_start : Z; ck_fresh : Z; ck_age : Z; ck_observed : Z }.

Record SetupTerms := {
  tm_amountPerPeriodRaw : Z;
  tm_minimumDelegatorBalanceRaw : option Z;
  tm_periodLengthSeconds : Z;
  tm_nonce : Z;
  tm_startTimestamp : Z;
  tm_expiryTimestamp : Z;
}.

Definition setupTerms (args : SetupInput) (clock : SetupClock) : result SetupTerms :=
  amountPerPeriodRaw ← normalizeAutodepositU64 (ai_amountRaw args) "amountRaw";
  minimumDelegatorBalanceRaw ← match ai_minimumDelegatorBalanceRaw args with
                               | None => Ok None
                               | Some minimum => m ← normalizeAutodepositU64 minimum "minimumDelegatorBalanceRaw"; Ok (Some m)
                               end;
  periodLengthSeconds ← normalizeAutodepositU64 (default (30 * 24 * 60 * 60) (ai_periodLengthSeconds args)) "periodLengthSeconds";
  nonce ← normalizeAutodepositU64 (default (secondsOf (ck_nonce clock)) (ai_nonce args)) "nonce";
  let expiryTimestamp := default 0 (ai_expiryTimestamp args) in
  Ok {| tm_amountPerPeriodRaw := amountPerPeriodRaw; tm_minimumDelegatorBalanceRaw := minimumDelegatorBalanceRaw; tm_periodLengthSeconds := periodLengthSeconds;
        tm_nonce := nonce; tm_startTimestamp := resolveEarnAutodepositStartTimestamp (ck_start clock) expiryTimestamp (ai_startTimestamp args);
        tm_expiryTimestamp := expiryTimestamp |}.

Record SetupPlace := {
  sp_cluster : LoyalCluster;
  sp_usdcMint : pubkey;
  sp_vaultPda : pubkey;
  sp_walletUsdcAta : pubkey;
  sp_vaultUsdcAta : pubkey;
  sp_subscriptionAuthority : pubkey;
  sp_recurringDelegation : pubkey;
}.

Definition setupPlace (cluster : LoyalCluster) (usdcMint settingsPda walletAddress : pubkey) (nonce : Z) : result SetupPlace :=
  vaultPda ← getSmartAccountPda settingsPda EARN_VAULT_INDEX smartAccountsProgramId;
  walletUsdcAta ← associatedTokenAddress usdcMint walletAddress false splTokenProgram;
  vaultUsdcAta ← associatedTokenAddress usdcMint vaultPda true splTokenProgram;
  subscriptionAuthority ← deriveSubscriptionAuthority walletAddress usdcMint;
  recurringDelegation ← deriveRecurringDelegation subscriptionAuthority walletAddress vaultPda (Big nonce);
  Ok {| sp_cluster := cluster; sp_usdcMint := usdcMint; sp_vaultPda := vaultPda; sp_walletUsdcAta := walletUsdcAta; sp_vaultUsdcAta := vaultUsdcAta;
        sp_subscriptionAuthority := subscriptionAuthority; sp_recurringDelegation := recurringDelegation |}.

Definition resolvePolicyAccount (settingsPda : pubkey) (seed : Z) : result pubkey :=
  if negb (isSafeInteger seed) then throwError "Autodeposit policy seed exceeds JavaScript safe integer range."
  else derivePda (PolicyPda settingsPda seed) smartAccountsProgramId.

(** *** Evidence *)
Definition isFreshAutodepositSetupAccountEvidence (clock : SetupClock) (evidence : SetupAccountEvidence) : bool :=
  (sae_observedAtMs evidence <=? ck_fresh clock) && (ck_age clock - sae_observedAtMs evidence <=? EARN_AUTODEPOSIT_SETUP_ACCOUNT_EVIDENCE_TTL_MS).

Definition baseEvidenceMatches (place : SetupPlace) (evidence : SetupAccountEvidence) : bool :=
  String.eqb (sae_subscriptionAuthority evidence) (toBase58 (sp_subscriptionAuthority place)) &&
  String.eqb (sae_recurringDelegation evidence) (toBase58 (sp_recurringDelegation place)) &&
  String.eqb (sae_vaultUsdcAta evidence) (toBase58 (sp_vaultUsdcAta place)).

Definition isTrue (o : option bool) : bool := match o with Some true => true | _ => false end.
Definition isFalse (o : option bool) : bool := match o with Some false => true | _ => false end.

(** The init id the evidence vouches for *)
Definition evidenceInitId (place : SetupPlace) (evidence : option SetupAccountEvidence) : option Z :=
  match evidence with
  | Some e =>
      if baseEvidenceMatches place e && isTrue (sae_subscriptionAuthorityExists e) && isTrue (sae_subscriptionAuthorityOwnerVerified e)
      then match sae_subscriptionAuthorityInitId e with
           | Present text => match BigInt_of_string text with Ok id => Some id | Throw _ => None end
           | _ => None
           end
      else None
  | None => None
  end.

Definition createAccountEvidence (clock : SetupClock) (place : SetupPlace) (policyAccount : pubkey) (policySeed : Z) (policyExists recurringDelegationExists : option bool)
    (subscriptionAuthorityExists : bool) (subscriptionAuthorityInitId : option Z) (subscriptionAuthorityOwnerVerified : bool) (vaultUsdcAtaExists : option bool) :
    SetupAccountEvidence := {|
  sae_observedAtMs := ck_observed clock; sae_policyAccount := Some (toBase58 policyAccount); sae_policyExists := policyExists;
  sae_policySeed := Some (bigint_toString policySeed); sae_recurringDelegation := toBase58 (sp_recurringDelegation place);
  sae_recurringDelegationExists := recurringDelegationExists; sae_subscriptionAuthority := toBase58 (sp_subscriptionAuthority place);
  sae_subscriptionAuthorityExists := Some subscriptionAuthorityExists;
  sae_subscriptionAuthorityInitId := match subscriptionAuthorityInitId with Some id => Present (bigint_toString id) | None => Null end;
  sae_subscriptionAuthorityOwnerVerified := Some subscriptionAuthorityOwnerVerified; sae_vaultUsdcAta := toBase58 (sp_vaultUsdcAta place);
  sae_vaultUsdcAtaExists := vaultUsdcAtaExists |}.

(** *** Reading the accounts *)
Definition readAccount (connection : Connection) (key : pubkey) : result (option AccountInfo) :=
  match getAccountInfo connection with Some read => read key | None => Throw (Exn "TypeError" "getAccountInfo is not a function") end.

Record EarnAutodepositSetupAccountState := {
  st_delegationAccount : option AccountInfo;
  st_policyAccountExists : bool;
  st_policyAccountInfo : option AccountInfo;
  st_walletUsdcAtaAccount : option AccountInfo;
  st_vaultUsdcAtaExists : option bool;
}.

Definition infoAt (infos : list (string * option AccountInfo)) (key : pubkey) : option AccountInfo :=
  match mapGet infos (toBase58 key) with Some info => info | None => None end.

Definition readSetupAccountState (connection : Connection) (evidence : option SetupAccountEvidence) (assumePolicyExists : bool) (place : SetupPlace)
    (policyAccount : pubkey) (policySeed : Z) : result EarnAutodepositSetupAccountState :=
  let fromEvidence :=
    match evidence with
    | Some e =>
        if baseEvidenceMatches place e && bool_decide (sae_policyAccount e = Some (toBase58 policyAccount)) &&
           bool_decide (sae_policySeed e = Some (bigint_toString policySeed)) && isFalse (sae_recurringDelegationExists e) &&
           isPresent (sae_vaultUsdcAtaExists e) && (assumePolicyExists || isPresent (sae_policyExists e))
        then Some {| st_delegationAccount := None; st_policyAccountExists := assumePolicyExists || isTrue (sae_policyExists e); st_policyAccountInfo := None;
                     st_walletUsdcAtaAccount := None; st_vaultUsdcAtaExists := sae_vaultUsdcAtaExists e |}
        else None
    | None => None
    end in
  match fromEvidence with
  | Some state => Ok state
  | None =>
      infos ← getAccountInfoMap connection [policyAccount; sp_recurringDelegation place; sp_vaultUsdcAta place; sp_walletUsdcAta place];
      Ok {| st_delegationAccount := infoAt infos (sp_recurringDelegation place); st_policyAccountExists := isPresent (infoAt infos policyAccount);
            st_policyAccountInfo := infoAt infos policyAccount; st_walletUsdcAtaAccount := infoAt infos (sp_walletUsdcAta place);
            st_vaultUsdcAtaExists := Some (isPresent (infoAt infos (sp_vaultUsdcAta place))) |}
  end.

(** *** The result *)
(** The requirement of one operation, on the payer's assumed balance *)
Definition setupRequirement (connection : Connection) (cluster : LoyalCluster) (payer : pubkey) (prepared : Op) (candidates : list NativeSolRentCandidate)
    (rents : list (string * Z)) : result (NativeSolRequirement * list (string * Z)) :=
  estimateNativeSolRequirement signatureCount connection
    {| ea_balanceLamports := None; ea_balanceSource := None; ea_checkBalance := false; ea_cluster := Some cluster; ea_estimateFees := false; ea_fixedItems := [];
       ea_payer := payer; ea_preferStaticMainnetRent := true; ea_prepared := [prepared]; ea_rentCandidates := candidates |} rents.

Definition rentCandidate (account : pubkey) (exists_ : option bool) (kind : NativeSolRequirementItemKind) (label : string) (space : Z) (stage : string) :
    NativeSolRentCandidate :=
  {| rc_account := account; rc_exists := exists_; rc_kind := kind; rc_label := label; rc_space := space; rc_stage := stage |}.

Definition setupPersistence (args : SetupInput) (terms : SetupTerms) (place : SetupPlace) (policyAccount : pubkey) (policySeed : Z)
    (initialization : AuthorityInitialization) : AutodepositSetupMetadata := {|
  asm_cluster := wireCluster (sp_cluster place); asm_walletAddress := toBase58 (ai_walletAddress args); asm_delegatedSigner := toBase58 (ai_policySigner args);
  asm_settings := toBase58 (ai_settingsPda args); asm_vaultIndex := EARN_VAULT_INDEX; asm_vaultPubkey := toBase58 (sp_vaultPda place);
  asm_policyId := Some (bigint_toString policySeed); asm_policyAccount := Some (toBase58 policyAccount); asm_policySeed := Some (bigint_toString policySeed);
  asm_subscriptionDelegatee := toBase58 (sp_vaultPda place); asm_amountPerPeriodRaw := bigint_toString (tm_amountPerPeriodRaw terms);
  asm_minimumDelegatorBalanceRaw := bigint_toString <$> tm_minimumDelegatorBalanceRaw terms; asm_periodLengthSeconds := bigint_toString (tm_periodLengthSeconds terms);
  asm_nonce := bigint_toString (tm_nonce terms); asm_startTimestamp := bigint_toString (tm_startTimestamp terms);
  asm_expiryTimestamp := bigint_toString (tm_expiryTimestamp terms); asm_liquidityMint := toBase58 (sp_usdcMint place);
  asm_subscriptionAuthority := toBase58 (sp_subscriptionAuthority place); asm_recurringDelegation := toBase58 (sp_recurringDelegation place);
  asm_walletUsdcAta := toBase58 (sp_walletUsdcAta place); asm_vaultUsdcAta := toBase58 (sp_vaultUsdcAta place);
  asm_subscriptionAuthorityInitialization := initialization |}.

Definition setupResult (args : SetupInput) (terms : SetupTerms) (place : SetupPlace) (policyAccount : pubkey) (policySeed : Z) (stage : SetupStage) (prepared : Op)
    (requirement : NativeSolRequirement) (evidence : SetupAccountEvidence) : PreparedEarnUsdcAutodepositSetup :=
  let initializing := match stage with InitializeSubscriptionAuthority => true | _ => false end in {|
  pes_accountEvidence := Some evidence;
  pes_setup := {|
    as_authorityInitializationRequired := initializing; as_nativeSolRequirement := requirement;
    as_persistence := setupPersistence args terms place policyAccount policySeed (if initializing then AuthorityRequired else AuthorityExists);
    as_policyAccount := Some policyAccount; as_policyId := Some policySeed; as_policySeed := Some policySeed; as_prepared := prepared; as_stage := stage;
    as_subscription := {| sub_amountPerPeriodRaw := tm_amountPerPeriodRaw terms; sub_authority := sp_subscriptionAuthority place;
      sub_expiryTimestamp := tm_expiryTimestamp terms; sub_nonce := tm_nonce terms; sub_periodLengthSeconds := tm_periodLengthSeconds terms;
      sub_recurringDelegation := sp_recurringDelegation place; sub_startTimestamp := tm_startTimestamp terms |};
    as_vaultAccountIndex := EARN_VAULT_INDEX; as_vaultPubkey := sp_vaultPda place; as_vaultUsdcAta := sp_vaultUsdcAta place |} |}.

(** *** The operations of the stages *)
Definition initializeAuthorityOperation (args : SetupInput) (place : SetupPlace) : Op :=
  operationOf "earnUsdcAutodepositInitializeSubscriptionAuthority" (ai_feePayer args) SUBSCRIPTIONS_PROGRAM_ID
    [createSubscriptionInitAuthorityInstruction (ai_walletAddress args) (sp_subscriptionAuthority place) (sp_usdcMint place) (sp_walletUsdcAta place)] [].

Definition createTokenDelegateApprovalInstruction (args : SetupInput) (place : SetupPlace) : instruction :=
  createApproveChecked (sp_walletUsdcAta place) (sp_usdcMint place) (sp_subscriptionAuthority place) (ai_walletAddress args)
    EARN_AUTODEPOSIT_TOKEN_APPROVAL_ALLOWANCE_RAW EARN_DEPOSIT_USDC_DECIMALS.

Definition approveOperation (args : SetupInput) (place : SetupPlace) : Op :=
  operationOf "earnUsdcAutodepositApproveTokenDelegate" (ai_feePayer args) splTokenProgram [createTokenDelegateApprovalInstruction args place] [].

Definition sweepPayload (args : SetupInput) (terms : SetupTerms) (place : SetupPlace) : result PolicyCreationPayload :=
  createSubscriptionSweepProgramInteractionPolicyCreationPayload (ai_walletAddress args) (sp_vaultPda place) (sp_usdcMint place) (sp_walletUsdcAta place)
    (sp_vaultUsdcAta place) (tm_amountPerPeriodRaw terms) None.

Definition createPolicyRequest (args : SetupInput) (payload : PolicyCreationPayload) (policyAccount : pubkey) (policySeed : Z) : SettingsSyncRequest := {|
  st_feePayer := ai_feePayer args; st_settingsPda := ai_settingsPda args; st_signers := [ai_signer args];
  st_actions := [ActionPolicyCreate policySeed payload [createPolicySigner (ai_policySigner args)] 1 0]; st_memo := ai_memo args;
  st_remainingAccounts := [Meta policyAccount false true] |}.

Definition createPolicyOperation (args : SetupInput) (built : BuiltOperation) (policyAccount : pubkey) (policySeed : Z) : Op :=
  withEarnPolicyCreateSimulationDiagnostics
    (operationOf "earnUsdcAutodepositCreatePolicy" (ai_feePayer args) smartAccountsProgramId (bo_instructions built)
       (dedupeLookupTableAccounts (bo_lookupTableAccounts built)))
    policyAccount policySeed "autodeposit" smartAccountsProgramId (ai_settingsPda args).

Definition createDelegationOperation (args : SetupInput) (place : SetupPlace) (createDelegationInstruction : instruction) : Op :=
  operationOf "earnUsdcAutodepositCreateRecurringDelegation" (ai_feePayer args) SUBSCRIPTIONS_PROGRAM_ID
    [ createAtaIdempotent (ai_feePayer args) (sp_vaultUsdcAta place) (sp_vaultPda place) (sp_usdcMint place) splTokenProgram;
      createTokenDelegateApprovalInstruction args place; createDelegationInstruction ] [].

Definition delegationDataInput (terms : SetupTerms) (initId : Z) : SubscriptionCreateRecurringDelegationDataInput := {|
  Subscriptions.nonce := Big (tm_nonce terms); Subscriptions.amountPerPeriodRaw := Big (tm_amountPerPeriodRaw terms);
  Subscriptions.periodLengthSeconds := Big (tm_periodLengthSeconds terms); Subscriptions.startTimestamp := Big (tm_startTimestamp terms);
  Subscriptions.expiryTimestamp := Big (tm_expiryTimestamp terms); Subscriptions.expectedSubscriptionAuthorityInitId := Big initId |}.

Definition delegationInstruction (args : SetupInput) (terms : SetupTerms) (place : SetupPlace) (initId : Z) : result instruction :=
  createSubscriptionCreateRecurringDelegationInstruction (ai_walletAddress args) (sp_subscriptionAuthority place) (sp_recurringDelegation place) (sp_vaultPda place)
    (delegationDataInput terms initId).

(** *** Planning the stage *)
(** The first transaction of a wallet without a subscription authority *)
Definition initializeStage (connection : Connection) (clock : SetupClock) (args : SetupInput) (terms : SetupTerms) (place : SetupPlace) (policyAccount : pubkey)
    (policySeed : Z) (rents : list (string * Z)) : result (PreparedEarnUsdcAutodepositSetup * list (string * Z)) :=
  let prepared := initializeAuthorityOperation args place in
  '(requirement, rents') ← setupRequirement connection (sp_cluster place) (ai_feePayer args) prepared
    [rentCandidate (sp_subscriptionAuthority place) (Some false) SubscriptionAuthorityRent "Autodeposit subscription authority rent" SUBSCRIPTION_AUTHORITY_DATA_LEN
       "initialize_subscription_authority"] rents;
  Ok (setupResult args terms place policyAccount policySeed InitializeSubscriptionAuthority prepared requirement
        (createAccountEvidence clock place policyAccount policySeed None None false None false None), rents').

Definition approveStage (connection : Connection) (clock : SetupClock) (args : SetupInput) (terms : SetupTerms) (place : SetupPlace) (policyAccount : pubkey)
    (policySeed initId : Z) (state : EarnAutodepositSetupAccountState) (rents : list (string * Z)) :
    result (PreparedEarnUsdcAutodepositSetup * list (string * Z)) :=
  let prepared := approveOperation args place in
  '(requirement, rents') ← setupRequirement connection (sp_cluster place) (ai_feePayer args) prepared [] rents;
  Ok (setupResult args terms place policyAccount policySeed ApproveTokenDelegate prepared requirement
        (createAccountEvidence clock place policyAccount policySeed (Some true) (Some true) true (Some initId) true (st_vaultUsdcAtaExists state)), rents').

Definition createPolicyStage (connection : Connection) (clock : SetupClock) (args : SetupInput) (terms : SetupTerms) (place : SetupPlace) (policyAccount : pubkey)
    (policySeed initId : Z) (state : EarnAutodepositSetupAccountState) (payload : PolicyCreationPayload) (rents : list (string * Z)) :
    result (PreparedEarnUsdcAutodepositSetup * list (string * Z)) :=
  built ← executeSettingsTransactionSync (createPolicyRequest args payload policyAccount policySeed);
  let prepared := createPolicyOperation args built policyAccount policySeed in
  preparedLength ← preparedPacketLength prepared;
  if match preparedLength with None => true | Some length => EARN_POLICY_PACKET_DATA_SIZE <? length end
  then throwError "Earn Autodeposit policy setup exceeds the Solana transaction size limit."
  else
    '(requirement, rents') ← setupRequirement connection (sp_cluster place) (ai_feePayer args) prepared
      [rentCandidate policyAccount (Some false) PolicyRent "Autodeposit policy account rent"
         (policyByteSize (ai_feePayer args) payload policySeed (ai_policySigner args) (ai_settingsPda args)) "create_policy"] rents;
    Ok (setupResult args terms place policyAccount policySeed CreatePolicy prepared requirement
          (createAccountEvidence clock place policyAccount policySeed (Some false) (Some (isPresent (st_delegationAccount state))) true (Some initId) true
             (st_vaultUsdcAtaExists state)), rents').

Definition createDelegationStage (connection : Connection) (clock : SetupClock) (args : SetupInput) (terms : SetupTerms) (place : SetupPlace) (policyAccount : pubkey)
    (policySeed initId : Z) (state : EarnAutodepositSetupAccountState) (ix : instruction) (rents : list (string * Z)) :
    result (PreparedEarnUsdcAutodepositSetup * list (string * Z)) :=
  let prepared := createDelegationOperation args place ix in
  '(requirement, rents') ← setupRequirement connection (sp_cluster place) (ai_feePayer args) prepared
    [ rentCandidate (sp_recurringDelegation place) (Some false) RecurringDelegationRent "Autodeposit recurring delegation rent"
        SUBSCRIPTION_RECURRING_DELEGATION_DATA_LEN "create_recurring_delegation";
      rentCandidate (sp_vaultUsdcAta place) (st_vaultUsdcAtaExists state) TokenAccountRent "Earn vault USDC token account rent" accountLayoutSpan
        "create_recurring_delegation" ] rents;
  Ok (setupResult args terms place policyAccount policySeed CreateRecurringDelegation prepared requirement
        (createAccountEvidence clock place policyAccount policySeed (Some true) (Some false) true (Some initId) true (st_vaultUsdcAtaExists state)), rents').

(** Once the policy's account is settled and the accounts are read *)
Definition planStage (connection : Connection) (clock : SetupClock) (args : SetupInput) (terms : SetupTerms) (place : SetupPlace) (authorityAccount : option AccountInfo)
    (evidenceId : option Z) (policyAccount : pubkey) (policySeed : Z) (state : EarnAutodepositSetupAccountState) (assumePolicyExists : bool)
    (rents : list (string * Z)) : result (PreparedEarnUsdcAutodepositSetup * list (string * Z)) :=
  _ ← match authorityAccount with
      | Some account => if key_equals (info_owner account) SUBSCRIPTIONS_PROGRAM_ID then Ok tt
                        else throwError "Subscription authority is owned by an unexpected program."
      | None => Ok tt
      end;
  initId ← match evidenceId, authorityAccount with
           | Some id, _ => Ok id
           | None, Some account => readSubscriptionAuthorityInitId account
           | None, None => throwError "Subscription authority init id is unavailable."
           end;
  _ ← match st_policyAccountInfo state with
      | Some info =>
          existingPolicy ← policyFromAccountInfo info;
          if isSubscriptionSweepPolicy existingPolicy then Ok tt
          else throwError ("Autodeposit policy seed " +:+ bigint_toString policySeed +:+
                           " collides with an existing non-Autodeposit policy — the settings read is stale. Retry the setup.")
      | None => Ok tt
      end;
  let policyExistsForPlanning := assumePolicyExists || st_policyAccountExists state in
  let createNext :=
    ix ← delegationInstruction args terms place initId;
    payload ← sweepPayload args terms place;
    if policyExistsForPlanning then createDelegationStage connection clock args terms place policyAccount policySeed initId state ix rents
    else createPolicyStage connection clock args terms place policyAccount policySeed initId state payload rents in
  match st_delegationAccount state with
  | Some delegation =>
      if negb (key_equals (info_owner delegation) SUBSCRIPTIONS_PROGRAM_ID) then throwError "Recurring delegation is owned by an unexpected program."
      else if policyExistsForPlanning
      then if hasSufficientExpectedSplTokenDelegate (st_walletUsdcAtaAccount state) (sp_subscriptionAuthority place) (tm_amountPerPeriodRaw terms)
           then throwError "Autodeposit policy and recurring delegation already exist."
           else approveStage connection clock args terms place policyAccount policySeed initId state rents
      else createNext
  | None => createNext
  end.

Definition requestedSeed (args : SetupInput) : result (option Z) :=
  match ai_policySeed args with None => Ok None | Some seed => s ← normalizeAutodepositU64 seed "policySeed"; Ok (Some s) end.

(** The seed and account to use, before the accounts are read: the next free seed of the settings unless one was asked for *)
Definition settlePolicySeed (fetchSettings : result (option Z)) (settingsPda : pubkey) (assumePolicyExists : bool) (requested : option Z) (policyAccount : pubkey) :
    result (option Z * Z * pubkey) :=
  if assumePolicyExists && isPresent requested then Ok (None, default 1 requested, policyAccount)
  else
    settings ← fetchSettings;
    next ← resolveNextPolicySeed settings;
    account ← resolvePolicyAccount settingsPda (default next requested);
    Ok (Some next, default next requested, account).

(** From the evidence on: the stage the accounts call for *)
Definition nextStage (connection : Connection) (fetchSettings : result (option Z)) (clock : SetupClock) (args : SetupInput) (terms : SetupTerms) (place : SetupPlace)
    (requested : option Z) (placeholder : pubkey) (evidence : option SetupAccountEvidence) (assumePolicyExists : bool) (rents : list (string * Z)) :
    result (PreparedEarnUsdcAutodepositSetup * list (string * Z)) :=
  let evidenceId := evidenceInitId place evidence in
  authorityAccount ← match evidenceId with Some _ => Ok None | None => readAccount connection (sp_subscriptionAuthority place) end;
  match authorityAccount, evidenceId with
  | None, None => initializeStage connection clock args terms place placeholder (default 1 requested) rents
  | _, _ =>
      '(next, policySeed, policyAccount) ← settlePolicySeed fetchSettings (ai_settingsPda args) assumePolicyExists requested placeholder;
      state ← readSetupAccountState connection evidence assumePolicyExists place policyAccount policySeed;
      let stay := planStage connection clock args terms place authorityAccount evidenceId policyAccount policySeed state assumePolicyExists rents in
      match requested, next with
      | Some wanted, Some free =>
          if negb assumePolicyExists && negb (st_policyAccountExists state) && negb (wanted =? free)
          then
            account ← resolvePolicyAccount (ai_settingsPda args) free;
            state ← readSetupAccountState connection evidence assumePolicyExists place account free;
            planStage connection clock args terms place authorityAccount evidenceId account free state assumePolicyExists rents
          else stay
      | _, _ => stay
      end
  end.

Definition prepareEarnUsdcAutodepositSetupStage (connection : Connection) (fetchSettings : result (option Z)) (clock : SetupClock) (args : SetupInput)
    (optionEvidence : option SetupAccountEvidence) (assumePolicyExists : bool) (rents : list (string * Z)) :
    result (PreparedEarnUsdcAutodepositSetup * list (string * Z)) :=
  if ai_amountRaw args <=? 0 then throwError "Autodeposit amount must be greater than 0."
  else
    let cluster := default MainnetBeta (ai_cluster args) in
    usdcMint ← getStablecoinMintForCluster cluster USDC;
    terms ← setupTerms args clock;
    place ← setupPlace cluster usdcMint (ai_settingsPda args) (ai_walletAddress args) (tm_nonce terms);
    requested ← requestedSeed args;
    placeholder ← resolvePolicyAccount (ai_settingsPda args) (default 1 requested);
    let evidence := match optionEvidence with
                    | Some e => if isFreshAutodepositSetupAccountEvidence clock e then Some e else None
                    | None => None
                    end in
    nextStage connection fetchSettings clock args terms place requested placeholder evidence assumePolicyExists rents.

Definition prepareEarnUsdcAutodepositSetup (connection : Connection) (fetchSettings : result (option Z)) (clock : SetupClock) (args : SetupInput)
    (rents : list (string * Z)) : result (PreparedEarnUsdcAutodepositSetup * list (string * Z)) :=
  prepareEarnUsdcAutodepositSetupStage connection fetchSettings clock args None false rents.

(** *** The batch *)
Definition isStage (stage : SetupStage) (p : PreparedEarnUsdcAutodepositSetup (diagnostics := EarnPolicyCreateDiagnostics)) : bool :=
  match as_stage (pes_setup p), stage with
  | InitializeSubscriptionAuthority, InitializeSubscriptionAuthority | ApproveTokenDelegate, ApproveTokenDelegate | CreatePolicy, CreatePolicy
  | CreateRecurringDelegation, CreateRecurringDelegation => true
  | _, _ => false
  end.

(** The terms of a first stage, carried over to the second *)
Definition continueWith (args : SetupInput) (first : PreparedEarnUsdcAutodepositSetup (diagnostics := EarnPolicyCreateDiagnostics)) (start : option Z) : SetupInput :=
  let subscription := as_subscription (pes_setup first) in {|
  ai_settingsPda := ai_settingsPda args; ai_walletAddress := ai_walletAddress args; ai_feePayer := ai_feePayer args; ai_signer := ai_signer args;
  ai_policySigner := ai_policySigner args; ai_amountRaw := ai_amountRaw args; ai_minimumDelegatorBalanceRaw := ai_minimumDelegatorBalanceRaw args;
  ai_cluster := ai_cluster args; ai_nonce := Some (sub_nonce subscription);
  ai_policySeed := match as_policySeed (pes_setup first) with Some seed => Some seed | None => ai_policySeed args end;
  ai_periodLengthSeconds := Some (sub_periodLengthSeconds subscription); ai_startTimestamp := start; ai_expiryTimestamp := Some (sub_expiryTimestamp subscription);
  ai_memo := ai_memo args |}.

Definition prepareEarnUsdcAutodepositSetupBatchFromPrepared (connection : Connection) (fetchSettings : result (option Z)) (clock : SetupClock) (batchNow : Z)
    (args : SetupInput) (firstSetup : PreparedEarnUsdcAutodepositSetup) (refreshImmediateStartTimestamp : bool) (rents : list (string * Z)) :
    result (list PreparedEarnUsdcAutodepositSetup * list (string * Z)) :=
  if negb (isStage CreatePolicy firstSetup) then Ok ([firstSetup], rents)
  else
    '(recurringDelegationSetup, rents') ← prepareEarnUsdcAutodepositSetupStage connection fetchSettings clock
      (continueWith args firstSetup (resolveEarnAutodepositBatchStartTimestamp batchNow refreshImmediateStartTimestamp (ai_startTimestamp args)))
      (pes_accountEvidence firstSetup) true rents;
    if negb (isStage CreateRecurringDelegation recurringDelegationSetup) then Ok ([firstSetup], rents')
    else Ok ([firstSetup; recurringDelegationSetup], rents').

Definition prepareEarnUsdcAutodepositSetupBatch (connection : Connection) (fetchSettings fetchSettings' : result (option Z)) (clock clock' : SetupClock) (batchNow : Z)
    (args : SetupInput) (rents : list (string * Z)) : result (list PreparedEarnUsdcAutodepositSetup * list (string * Z)) :=
  '(firstSetup, rents) ← prepareEarnUsdcAutodepositSetupStage connection fetchSettings clock args None false rents;
  prepareEarnUsdcAutodepositSetupBatchFromPrepared connection fetchSettings' clock' batchNow args firstSetup false rents.

(** ** Fetching and closing policies *)
(** [Policy.fromAccountAddress] *)
Definition fetchPolicy (connection : Connection) (address : pubkey) : result OnchainPolicy :=
  info ← readAccount connection address;
  match info with
  | None => throwError ("Unable to find Policy account at " +:+ toBase58 address)
  | Some info => policyFromAccountInfo info
  end.

Definition requireSettings (settingsPda : pubkey) (policy : OnchainPolicy) : result unit :=
  if key_equals (oc_settings policy) settingsPda then Ok tt else throwError "Policy belongs to another vault.".

Definition resolvePoliciesForClose (connection : Connection) (requested : list pubkey) (settingsPda : pubkey) : result (list pubkey) :=
  let policies := dedupePublicKeys requested in
  match policies with
  | [] => throwError "At least one policy is required."
  | _ =>
      policyAccounts ← mapR (fetchPolicy connection) policies;
      _ ← mapR (requireSettings settingsPda) policyAccounts;
      Ok policies
  end.

Definition requireYieldRouting (settingsPda : pubkey) (policy : OnchainPolicy) : result unit :=
  _ ← requireSettings settingsPda policy;
  match oc_policyState policy with
  | StateProgramInteraction _ => Ok tt
  | StateOther _ => throwError "Yield routing cleanup only accepts program-interaction policies."
  end.

Definition resolveYieldRoutingPoliciesForClose (connection : Connection) (requested : list pubkey) (settingsPda : pubkey) : result (list pubkey) :=
  let policies := dedupePublicKeys requested in
  match policies with
  | [] => throwError "At least one policy is required."
  | _ =>
      policyAccounts ← mapR (fetchPolicy connection) policies;
      _ ← mapR (requireYieldRouting settingsPda) policyAccounts;
      Ok policies
  end.

Record ClosePoliciesInput := { cp_settingsPda : pubkey; cp_feePayer : pubkey; cp_signers : list pubkey; cp_policies : list pubkey; cp_memo : option string }.

Definition closeRequest (args : ClosePoliciesInput) (policies : list pubkey) : SettingsSyncRequest := {|
  st_feePayer := cp_feePayer args; st_settingsPda := cp_settingsPda args; st_signers := dedupePublicKeys (cp_signers args);
  st_actions := map ActionPolicyRemove policies; st_memo := cp_memo args; st_remainingAccounts := toWritableAccountMetas policies |}.

Definition prepareClosePoliciesSync (connection : Connection) (args : ClosePoliciesInput) : result BuiltOperation :=
  match cp_signers args with
  | [] => throwError "At least one signer is required."
  | _ =>
      policies ← resolvePoliciesForClose connection (cp_policies args) (cp_settingsPda args);
      executeSettingsTransactionSync (closeRequest args policies)
  end.

Definition prepareCloseYieldRoutingPoliciesSync (connection : Connection) (args : ClosePoliciesInput) : result BuiltOperation :=
  match cp_signers args with
  | [] => throwError "At least one signer is required."
  | _ =>
      policies ← resolveYieldRoutingPoliciesForClose connection (cp_policies args) (cp_settingsPda args);
      executeSettingsTransactionSync (closeRequest args policies)
  end.

Definition prepareCloseLiveYieldRoutingPoliciesSync (connection : Connection) (args : ClosePoliciesInput) : result (option BuiltOperation) :=
  let existing := getExistingAccountSet connection (cp_policies args) in
  match List.filter (fun policy => member (toBase58 policy) existing) (cp_policies args) with
  | [] => Ok None
  | livePolicies =>
      built ← prepareCloseYieldRoutingPoliciesSync connection
        {| cp_settingsPda := cp_settingsPda args; cp_feePayer := cp_feePayer args; cp_signers := cp_signers args; cp_policies := livePolicies; cp_memo := cp_memo args |};
      Ok (Some built)
  end.

(** ** Closing Autodeposit *)
Record AutodepositCloseInput := {
  cl_settingsPda : pubkey;
  cl_walletAddress : pubkey;
  cl_feePayer : pubkey;
  cl_signer : pubkey;
  cl_policySigner : pubkey;
  cl_policy : pubkey;
  cl_recurringDelegation : pubkey;
  cl_cluster : option LoyalCluster;
  cl_memo : option string;
}.

Definition prepareEarnUsdcAutodepositClose (connection : Connection) (args : AutodepositCloseInput) : result (PreparedEarnUsdcAutodepositClose (diagnostics := EarnPolicyCreateDiagnostics)) :=
  let cluster := default MainnetBeta (cl_cluster args) in
  vaultPda ← getSmartAccountPda (cl_settingsPda args) EARN_VAULT_INDEX smartAccountsProgramId;
  policyAccountInfo ← readAccount connection (cl_policy args);
  _ ← match policyAccountInfo with
      | Some info =>
          policyToClose ← policyFromAccountInfo info;
          if isSubscriptionSweepPolicy policyToClose then Ok tt
          else throwError "Refusing to close a policy that is not an Autodeposit sweep policy."
      | None => Ok tt
      end;
  closePolicy ← prepareClosePoliciesSync connection
    {| cp_settingsPda := cl_settingsPda args; cp_feePayer := cl_feePayer args; cp_signers := [cl_signer args]; cp_policies := [cl_policy args]; cp_memo := cl_memo args |};
  delegationAccount ← readAccount connection (cl_recurringDelegation args);
  usdcMint ← getStablecoinMintForCluster cluster USDC;
  walletUsdcAta ← associatedTokenAddress usdcMint (cl_walletAddress args) false splTokenProgram;
  subscriptionAuthority ← deriveSubscriptionAuthority (cl_walletAddress args) usdcMint;
  walletUsdcAtaInfo ← readAccount connection walletUsdcAta;
  let revokeTokenDelegate := hasExpectedSplTokenDelegateAuthority walletUsdcAtaInfo subscriptionAuthority in
  let prepared := operationOf "earnUsdcAutodepositClose" (cl_feePayer args) smartAccountsProgramId
    ((if isPresent delegationAccount then [createSubscriptionRevokeDelegationInstruction (cl_walletAddress args) (cl_recurringDelegation args)] else []) ++
     bo_instructions closePolicy ++ (if revokeTokenDelegate then [createRevoke walletUsdcAta (cl_walletAddress args)] else []))
    (dedupeLookupTableAccounts (bo_lookupTableAccounts closePolicy)) in
  Ok {| ac_persistence := {| acm_cluster := wireCluster cluster; acm_walletAddress := toBase58 (cl_walletAddress args);
          acm_delegatedSigner := toBase58 (cl_policySigner args); acm_settings := toBase58 (cl_settingsPda args); acm_vaultIndex := EARN_VAULT_INDEX;
          acm_vaultPubkey := toBase58 vaultPda; acm_policyAccount := toBase58 (cl_policy args); acm_recurringDelegation := toBase58 (cl_recurringDelegation args) |};
        ac_policyAccount := cl_policy args; ac_prepared := prepared; ac_recurringDelegation := cl_recurringDelegation args;
        ac_vaultAccountIndex := EARN_VAULT_INDEX; ac_vaultPubkey := vaultPda |}.

(** ** A pull *)
Record AutodepositPullInput := {
  pu_policy : pubkey;
  pu_walletAddress : pubkey;
  pu_feePayer : pubkey;
  pu_policySigner : pubkey;
  pu_recurringDelegation : pubkey;
  pu_amountRaw : Z;
  pu_cluster : option LoyalCluster;
  pu_memo : option string;
}.

Record PreparedAutodepositPull := {
  pp_prepared : BuiltOperation;
  pp_vault : pubkey;
  pp_vaultUsdcAta : pubkey;
  pp_walletUsdcAta : pubkey;
  pp_subscriptionAuthority : pubkey;
  pp_liquidityMint : pubkey;
}.

(** The accounts of a pull and its instruction *)
Definition pullTransfer (args : AutodepositPullInput) (usdcMint settings : pubkey) (accountIndex : Z) :
    result (pubkey * pubkey * pubkey * pubkey * instruction) :=
  vaultPda ← getSmartAccountPda settings accountIndex smartAccountsProgramId;
  walletUsdcAta ← associatedTokenAddress usdcMint (pu_walletAddress args) false splTokenProgram;
  vaultUsdcAta ← associatedTokenAddress usdcMint vaultPda true splTokenProgram;
  subscriptionAuthority ← deriveSubscriptionAuthority (pu_walletAddress args) usdcMint;
  transferInstruction ← createSubscriptionTransferRecurringInstruction (pu_recurringDelegation args) subscriptionAuthority walletUsdcAta vaultUsdcAta usdcMint
    vaultPda (pu_amountRaw args) (pu_walletAddress args);
  Ok (vaultPda, walletUsdcAta, vaultUsdcAta, subscriptionAuthority, transferInstruction).

Definition pullRequest (args : AutodepositPullInput) (accountIndex : Z) (compiled : list Z * list account_meta) : PolicyPayloadRequest := {|
  pq_feePayer := pu_feePayer args; pq_policy := pu_policy args; pq_accountIndex := accountIndex; pq_numSigners := 1; pq_instructionConstraintIndices := [0];
  pq_instructions := compiled.1; pq_instruction_accounts := compiled.2; pq_memo := pu_memo args |}.

Definition prepareEarnUsdcAutodepositPull (connection : Connection) (args : AutodepositPullInput) : result PreparedAutodepositPull :=
  if pu_amountRaw args <=? 0 then throwError "Autodeposit pull amount must be greater than 0."
  else
    usdcMint ← getStablecoinMintForCluster (default MainnetBeta (pu_cluster args)) USDC;
    policy ← fetchPolicy connection (pu_policy args);
    match oc_policyState policy with
    | StateOther _ => throwError "Autodeposit pull requires a program-interaction policy."
    | StateProgramInteraction interaction =>
        let accountIndex := ps_accountIndex interaction in
        if negb (accountIndex =? EARN_VAULT_INDEX) then throwError "Autodeposit pull policy must target the Earn vault."
        else
          '(vaultPda, walletUsdcAta, vaultUsdcAta, subscriptionAuthority, transferInstruction) ← pullTransfer args usdcMint (oc_settings policy) accountIndex;
          compiled ← compileToSynchronousMessageAndAccountsV2 vaultPda [pu_policySigner args] [makeSignerWritable transferInstruction vaultPda];
          prepared ← executePolicyPayloadSync (pullRequest args accountIndex compiled);
          Ok {| pp_prepared := prepared; pp_vault := vaultPda; pp_vaultUsdcAta := vaultUsdcAta; pp_walletUsdcAta := walletUsdcAta;
                pp_subscriptionAuthority := subscriptionAuthority; pp_liquidityMint := usdcMint |}
    end.

(** ** The artifacts of a setup *)
Record CanonicalArtifactsInput := {
  ca_settingsPda : pubkey;
  ca_walletAddress : pubkey;
  ca_policySigner : pubkey;
  ca_policy : pubkey;
  ca_policySeed : Z;
  ca_recurringDelegation : pubkey;
  ca_nonce : Z;
  ca_amountRaw : Z;
  ca_cluster : option LoyalCluster;
  ca_requirePolicy : option bool;
  ca_requireRecurringDelegation : option bool;
}.

Definition requireThat (holds : bool) (message : string) : result unit := if holds then Ok tt else throwError message.

Definition assertCanonicalPolicy (args : CanonicalArtifactsInput) (amountRaw : Z) (usdcMint vaultPda walletUsdcAta vaultUsdcAta : pubkey) (policy : OnchainPolicy) :
    result unit :=
  _ ← requireThat (key_equals (oc_settings policy) (ca_settingsPda args)) "Autodeposit policy settings do not match.";
  _ ← requireThat (oc_seed policy =? ca_policySeed args) "Autodeposit policy seed does not match.";
  _ ← requireThat (oc_threshold policy =? 1) "Autodeposit policy threshold is not canonical.";
  _ ← requireThat (oc_timeLock policy =? 0) "Autodeposit policy timelock is not canonical.";
  match oc_signers policy with
  | [policySigner] =>
      _ ← requireThat (key_equals (sr_key policySigner) (ca_policySigner args)) "Autodeposit policy signer does not match.";
      _ ← mapR (fun permission => requireThat (Permissions_has (sr_mask policySigner) permission) "Autodeposit policy signer permissions are incomplete.")
            [Permission_Initiate; Permission_Vote; Permission_Execute];
      expected ← createSubscriptionSweepProgramInteractionPolicyCreationPayload (ca_walletAddress args) vaultPda usdcMint walletUsdcAta vaultUsdcAta amountRaw None;
      requireThat (generatedValuesEqual localeCompare (stateValue (oc_policyState policy)) (genState (py_accountIndex expected) (py_instructionsConstraints expected)))
        "Autodeposit policy state is not canonical."
  | _ => throwError "Autodeposit policy signer set is not canonical."
  end.

Definition assertCanonicalDelegation (account : option AccountInfo) (walletAddress vaultPda subscriptionAuthority usdcMint : pubkey) (amountRaw : Z) : result unit :=
  match account with
  | None => throwError "Autodeposit recurring delegation account does not exist."
  | Some account =>
      let data := info_data account in
      _ ← requireThat (key_equals (info_owner account) SUBSCRIPTIONS_PROGRAM_ID) "Autodeposit recurring delegation owner is invalid.";
      _ ← requireThat (SUBSCRIPTION_RECURRING_DELEGATION_DATA_LEN <=? Z.of_nat (length data)) "Autodeposit recurring delegation data is incomplete.";
      _ ← requireThat (bool_decide (data !! Z.to_nat SUBSCRIPTION_RECURRING_DELEGATION_DISCRIMINATOR_OFFSET = Some SUBSCRIPTION_RECURRING_DELEGATION_DISCRIMINATOR))
            "Autodeposit recurring delegation discriminator is invalid.";
      delegator ← readPublicKey data SUBSCRIPTION_RECURRING_DELEGATION_DELEGATOR_OFFSET;
      delegatee ← readPublicKey data SUBSCRIPTION_RECURRING_DELEGATION_DELEGATEE_OFFSET;
      authority ← readPublicKey data SUBSCRIPTION_RECURRING_DELEGATION_AUTHORITY_OFFSET;
      mint ← readPublicKey data SUBSCRIPTION_RECURRING_DELEGATION_MINT_OFFSET;
      _ ← requireThat (key_equals delegator walletAddress) "Autodeposit recurring delegation delegator does not match.";
      _ ← requireThat (key_equals delegatee vaultPda) "Autodeposit recurring delegation delegatee does not match.";
      _ ← requireThat (key_equals authority subscriptionAuthority) "Autodeposit recurring delegation authority does not match.";
      _ ← requireThat (key_equals mint usdcMint) "Autodeposit recurring delegation mint does not match.";
      amountPerPeriodRaw ← readUint64LE data SUBSCRIPTION_RECURRING_DELEGATION_AMOUNT_PER_PERIOD_OFFSET;
      requireThat (amountPerPeriodRaw =? amountRaw) "Autodeposit recurring delegation amount does not match."
  end.

Definition assertEarnUsdcAutodepositCanonicalArtifacts (connection : Connection) (args : CanonicalArtifactsInput) : result unit :=
  amountRaw ← normalizeAutodepositU64 (ca_amountRaw args) "amountRaw";
  nonce ← normalizeAutodepositU64 (ca_nonce args) "nonce";
  if (ca_policySeed args <=? 0) || (9007199254740991 <? ca_policySeed args) then throwError "Autodeposit policy seed is outside the supported range."
  else
    usdcMint ← getStablecoinMintForCluster (default MainnetBeta (ca_cluster args)) USDC;
    vaultPda ← getSmartAccountPda (ca_settingsPda args) EARN_VAULT_INDEX smartAccountsProgramId;
    expectedPolicy ← derivePda (PolicyPda (ca_settingsPda args) (ca_policySeed args)) smartAccountsProgramId;
    _ ← requireThat (key_equals (ca_policy args) expectedPolicy) "Autodeposit policy account does not match its seed.";
    walletUsdcAta ← associatedTokenAddress usdcMint (ca_walletAddress args) false splTokenProgram;
    vaultUsdcAta ← associatedTokenAddress usdcMint vaultPda true splTokenProgram;
    _ ← (if default true (ca_requirePolicy args) then
           policy ← fetchPolicy connection (ca_policy args);
           assertCanonicalPolicy args amountRaw usdcMint vaultPda walletUsdcAta vaultUsdcAta policy
         else Ok tt);
    if negb (default true (ca_requireRecurringDelegation args)) then Ok tt
    else
      subscriptionAuthority ← deriveSubscriptionAuthority (ca_walletAddress args) usdcMint;
      expectedRecurringDelegation ← deriveRecurringDelegation subscriptionAuthority (ca_walletAddress args) vaultPda (Big nonce);
      _ ← requireThat (key_equals (ca_recurringDelegation args) expectedRecurringDelegation) "Autodeposit recurring delegation account does not match its nonce.";
      account ← readAccount connection (ca_recurringDelegation args);
      assertCanonicalDelegation account (ca_walletAddress args) vaultPda subscriptionAuthority usdcMint amountRaw.

(** ** Pulls are let through *)
Context {Laws : PublicKeyLaws PK} {KL : KeyBytesLaws PK KB}.

(** The connection answers from these accounts. *)
Definition answers (connection : Connection) (accounts : pubkey -> option AccountInfo) : Prop :=
  getMultipleAccountsInfo connection = Some (fun _ => Ok accounts) /\ getAccountInfo connection = Some (fun key => Ok (accounts key)).

Lemma answers_read connection accounts key : answers connection accounts -> readAccount connection key = Ok (accounts key).
Proof. intros [_ H]. unfold readAccount. by rewrite H. Qed.

Definition noAccount : AccountInfo := {| info_executable := false; info_lamports := 0; info_owner := systemProgramId; info_data := [] |}.
Definition worldOf (accounts : pubkey -> option AccountInfo) (key : pubkey) : AccountInfo := default noAccount (accounts key).

Lemma required_true holds message u : requireThat holds message = Ok u -> holds = true.
Proof. by destruct holds. Qed.
Lemma key_equal a b : key_equals a b = true -> a = b.
Proof. unfold key_equals. by case_bool_decide. Qed.

(** Everything a canonical delegation account says *)
Record canonical_delegation (account : AccountInfo) (wallet vault authority mint : pubkey) (amount : Z) : Prop := {
  cd_owner : info_owner account = SUBSCRIPTIONS_PROGRAM_ID;
  cd_length : (211 <= length (info_data account))%nat;
  cd_discriminator : info_data account !! Z.to_nat SUBSCRIPTION_RECURRING_DELEGATION_DISCRIMINATOR_OFFSET = Some SUBSCRIPTION_RECURRING_DELEGATION_DISCRIMINATOR;
  cd_delegator : slice (info_data account) (Z.to_nat SUBSCRIPTION_RECURRING_DELEGATION_DELEGATOR_OFFSET) 32 = toBytes wallet;
  cd_delegatee : slice (info_data account) (Z.to_nat SUBSCRIPTION_RECURRING_DELEGATION_DELEGATEE_OFFSET) 32 = toBytes vault;
  cd_authority : slice (info_data account) (Z.to_nat SUBSCRIPTION_RECURRING_DELEGATION_AUTHORITY_OFFSET) 32 = toBytes authority;
  cd_mint : slice (info_data account) (Z.to_nat SUBSCRIPTION_RECURRING_DELEGATION_MINT_OFFSET) 32 = toBytes mint;
  cd_amount : le_value (slice (info_data account) (Z.to_nat SUBSCRIPTION_RECURRING_DELEGATION_AMOUNT_PER_PERIOD_OFFSET) 8) = amount;
}.

Lemma key_read (data : list Z) offset key : Forall is_byte data -> (Z.to_nat offset + 32 <= length data)%nat -> readPublicKey data offset = Ok key <->
  slice data (Z.to_nat offset) 32 = toBytes key.
Proof.
  intros Hb Hl. unfold readPublicKey. fold (slice data (Z.to_nat offset) 32).
  destruct (key_of_32 (slice data (Z.to_nat offset) 32)) as (k & Hk & Ht); [by apply slice_length|by apply slice_bytes|]. rewrite Hk, <- Ht. split.
  - by intros [= ->].
  - intros H%toBytes_inj. by subst.
Qed.

(** Bounds of the fields of a delegation *)
Local Ltac offsets :=
  unfold SUBSCRIPTION_RECURRING_DELEGATION_DELEGATOR_OFFSET, SUBSCRIPTION_RECURRING_DELEGATION_DELEGATEE_OFFSET, SUBSCRIPTION_RECURRING_DELEGATION_AUTHORITY_OFFSET,
    SUBSCRIPTION_RECURRING_DELEGATION_MINT_OFFSET, SUBSCRIPTION_RECURRING_DELEGATION_AMOUNT_PER_PERIOD_OFFSET; lia.

Lemma delegation_canonical account wallet vault authority mint amount : (forall a, account = Some a -> Forall is_byte (info_data a)) ->
  assertCanonicalDelegation account wallet vault authority mint amount = Ok tt <->
  exists a, account = Some a /\ canonical_delegation a wallet vault authority mint amount.
Proof.
  intros Hb. destruct account as [a|]; [|split; [done|by intros (? & ? & _)]]. specialize (Hb a eq_refl). unfold assertCanonicalDelegation. cbv zeta.
  unfold SUBSCRIPTION_RECURRING_DELEGATION_DATA_LEN. split.
  - intros H. inv_results. apply required_true in E, E0, E1, E6, E7, E8, E9, H. apply key_equal in E, E6, E7, E8, E9. subst. apply Z.leb_le in E0. apply bool_decide_eq_true in E1.
    apply Z.eqb_eq in H. subst. exists a. split; [done|].
    apply key_read in E2; [|done|offsets]. apply key_read in E3; [|done|offsets]. apply key_read in E4; [|done|offsets]. apply key_read in E5; [|done|offsets].
    rewrite read64_ok in E10 by offsets. injection E10 as E10. constructor; try done. lia.
  - intros (b & [= <-] & [H1 H2 H3 H4 H5 H6 H7 H8]). rewrite H1, H3. unfold key_equals. rewrite !bool_decide_eq_true_2 by done.
    replace (211 <=? Z.of_nat (length (info_data a))) with true by lia. cbn [requireThat mbind result_bind].
    rewrite (proj2 (key_read _ SUBSCRIPTION_RECURRING_DELEGATION_DELEGATOR_OFFSET wallet Hb ltac:(offsets)) H4).
    rewrite (proj2 (key_read _ SUBSCRIPTION_RECURRING_DELEGATION_DELEGATEE_OFFSET vault Hb ltac:(offsets)) H5).
    rewrite (proj2 (key_read _ SUBSCRIPTION_RECURRING_DELEGATION_AUTHORITY_OFFSET authority Hb ltac:(offsets)) H6).
    rewrite (proj2 (key_read _ SUBSCRIPTION_RECURRING_DELEGATION_MINT_OFFSET mint Hb ltac:(offsets)) H7).
    cbn [mbind result_bind]. rewrite !bool_decide_eq_true_2 by done. cbn [requireThat mbind result_bind].
    rewrite read64_ok by offsets. cbn [mbind result_bind]. rewrite H8. by rewrite Z.eqb_refl.
Qed.

(** What the decoder of policies gives: values that print completely, and slices that are bytes *)
Class DecodedPolicies : Prop := {
  decoded_printable info policy : policyFromAccountInfo info = Ok policy -> printable (stateValue (oc_policyState policy)) = true;
  decoded_bytes info policy i : policyFromAccountInfo info = Ok policy -> oc_policyState policy = StateProgramInteraction i ->
    Forall constraint_bytes (ps_instructionsConstraints i);
}.
Context {DP : DecodedPolicies}.

Lemma interaction_exact i n cs : printable (stateValue (StateProgramInteraction i)) = true -> Forall constraint_bytes (ps_instructionsConstraints i) ->
  Forall constraint_bytes cs -> generatedValuesEqual localeCompare (stateValue (StateProgramInteraction i)) (genState n cs) = true ->
  ps_accountIndex i = n /\ ps_instructionsConstraints i = cs.
Proof.
  intros Hp Hb Hb' H. apply equal_normal in H; [|done|apply printable_state]. destruct i as [index constraints pre post limits]. cbn [ps_accountIndex ps_instructionsConstraints] in *.
  unfold genState, stateValue in H. cbn [ps_accountIndex ps_instructionsConstraints ps_preHook ps_postHook ps_spendingLimits] in H. apply normal_value in H as [_ H].
  apply normal_object in H; [|reflexivity|apply (bool_decide_unpack _); reflexivity]. cbn [map snd] in H.
  pose proof (f_equal (nthField 0) H) as Hn. pose proof (f_equal (nthField 1) H) as Hc. unfold nthField in Hn, Hc. cbn [nth] in Hn, Hc.
  injection Hn as <-. injection Hc as Hc. split; [done|]. rewrite !map_map in Hc. apply (map_inj_on _ constraint_bytes) in Hc; [done| |done..]. intros x y. apply normal_constraint. exact Laws.
Qed.

(** The constraint of a sweep policy *)
Definition sweepConstraint (wallet vault mint walletAta vaultAta authority eventAuthority : pubkey) (amount : Z) : InstructionConstraint pubkey :=
  let bytesEqual offset key := MkData offset (VU8Slice (toBytes key)) equals in
  MkConstraint SUBSCRIPTIONS_PROGRAM_ID
    [ MkAccount 0 (KAccountData
        [ MkData SUBSCRIPTION_RECURRING_DELEGATION_DISCRIMINATOR_OFFSET (VU8 SUBSCRIPTION_RECURRING_DELEGATION_DISCRIMINATOR) equals;
          bytesEqual SUBSCRIPTION_RECURRING_DELEGATION_DELEGATOR_OFFSET wallet; bytesEqual SUBSCRIPTION_RECURRING_DELEGATION_DELEGATEE_OFFSET vault;
          bytesEqual SUBSCRIPTION_RECURRING_DELEGATION_AUTHORITY_OFFSET authority; bytesEqual SUBSCRIPTION_RECURRING_DELEGATION_MINT_OFFSET mint;
          MkData SUBSCRIPTION_RECURRING_DELEGATION_AMOUNT_PER_PERIOD_OFFSET (VU64Le amount) lessThanOrEqualTo ]) (Some SUBSCRIPTIONS_PROGRAM_ID);
      pubkeyAccountConstraint 1 [authority] (Some SUBSCRIPTIONS_PROGRAM_ID); pubkeyAccountConstraint 2 [walletAta] (Some splTokenProgram);
      pubkeyAccountConstraint 3 [vaultAta] (Some splTokenProgram); pubkeyAccountConstraint 4 [mint] (Some splTokenProgram);
      pubkeyAccountConstraint 5 [splTokenProgram] None; pubkeyAccountConstraint 6 [vault] None; pubkeyAccountConstraint 7 [eventAuthority] None;
      pubkeyAccountConstraint 8 [SUBSCRIPTIONS_PROGRAM_ID] None ]
    [ MkData 0 (VU8 SUBSCRIPTIONS_TRANSFER_RECURRING) equals; bytesEqual SUBSCRIPTION_TRANSFER_DELEGATOR_OFFSET wallet;
      bytesEqual SUBSCRIPTION_TRANSFER_MINT_OFFSET mint ].

Lemma sweep_payload wallet vault mint walletAta vaultAta amount payload :
  createSubscriptionSweepProgramInteractionPolicyCreationPayload wallet vault mint walletAta vaultAta amount None = Ok payload ->
  exists authority eventAuthority, deriveSubscriptionAuthority wallet mint = Ok authority /\ deriveSubscriptionEventAuthority = Ok eventAuthority /\
    payload = {| py_accountIndex := EARN_VAULT_INDEX; py_spendingLimits := [];
                 py_instructionsConstraints := [sweepConstraint wallet vault mint walletAta vaultAta authority eventAuthority amount] |}.
Proof.
  unfold createSubscriptionSweepProgramInteractionPolicyCreationPayload. intros H. apply bind_Ok in H as (authority & Ha & H). apply bind_Ok in H as (event & He & H).
  injection H as <-. exists authority, event. done.
Qed.

Lemma sweep_bytes wallet vault mint walletAta vaultAta authority eventAuthority amount :
  constraint_bytes (sweepConstraint wallet vault mint walletAta vaultAta authority eventAuthority amount).
Proof. split; cbn; repeat constructor; cbn; repeat constructor; unfold data_bytes; cbn; try done; apply toBytes_bytes. Qed.

(** ** The data of a transfer *)
Lemma transfer_u64 amount delegator mint bytes :
  subscriptionTransferRecurringData {| transferAmountRaw := Big amount; transferDelegator := delegator; transferMint := mint |} = Ok bytes ->
  bytes = [SUBSCRIPTIONS_TRANSFER_RECURRING] ++ le_bytes 8 amount ++ toBytes delegator ++ toBytes mint /\ is_u64 amount.
Proof.
  intros H. assert (Hu : is_u64 amount).
  { unfold subscriptionTransferRecurringData, run_encoder in H. destruct (decide (is_u64 amount)) as [?|Hn]; [done|]. exfalso. revert H.
    unfold pushNormalizedU64, normalizeU64, is_u64 in *. cbn. destruct (_ || _) eqn:E; [done|]. exfalso. apply Hn. lia. }
  destruct (transfer_codec {| transferAmountRaw := Big amount; transferDelegator := delegator; transferMint := mint |} amount eq_refl Hu) as (bs & E & _ & ->).
  rewrite E in H. injection H as <-. done.
Qed.

(** ** What meets the constraint *)
Lemma pubkey_meets world ix i meta key owner : keys ix !! Z.to_nat i = Some meta -> meta_pubkey meta = key ->
  match owner with Some o => info_owner (world key) = o | None => True end -> account_meets world ix (pubkeyAccountConstraint i [key] owner) = true.
Proof.
  intros Hk <- Ho. unfold account_meets. cbn [ac_index ac_kind ac_owner pubkeyAccountConstraint]. rewrite Hk.
  rewrite bool_decide_eq_true_2 by set_solver. destruct owner; [|done]. unfold key_equals. by rewrite bool_decide_eq_true_2.
Qed.

Lemma slice_meets data offset key : slice data (Z.to_nat offset) 32 = toBytes key -> data_meets data (MkData offset (VU8Slice (toBytes key)) equals) = true.
Proof.
  intros H. unfold data_meets, sliceAt. cbn [dc_value dc_offset dc_operator]. rewrite toBytes_length. unfold slice in H. rewrite H, toBytes_length, Nat.eqb_refl.
  by apply bool_decide_eq_true_2.
Qed.

Lemma byte_meets data offset value : data !! Z.to_nat offset = Some value -> data_meets data (MkData offset (VU8 value) equals) = true.
Proof.
  intros H. unfold data_meets, sliceAt. cbn [dc_value dc_offset dc_operator]. assert (take 1 (drop (Z.to_nat offset) data) = [value]) as ->.
  { by rewrite (drop_S _ _ _ H). }
  cbn. lia.
Qed.

Lemma delegation_meets account wallet vault authority mint amount eventAuthority walletAta vaultAta world ix meta :
  canonical_delegation account wallet vault authority mint amount -> keys ix !! 0%nat = Some meta -> world (meta_pubkey meta) = account ->
  forall a, head (ic_accounts (sweepConstraint wallet vault mint walletAta vaultAta authority eventAuthority amount)) = Some a -> account_meets world ix a = true.
Proof.
  intros [Ho Hl Hd H1 H2 H3 H4 H5] Hk Hw a [= <-]. unfold account_meets. cbn [ac_index ac_kind ac_owner]. change (Z.to_nat 0) with 0%nat. rewrite Hk, Hw, Ho.
  unfold key_equals. rewrite bool_decide_eq_true_2 by done. rewrite andb_true_r. cbn [forallb].
  rewrite (byte_meets _ _ _ Hd), !slice_meets by done. cbn [andb]. unfold data_meets, sliceAt. cbn [dc_value dc_offset dc_operator]. unfold slice in H5.
  rewrite length_take, length_drop. change (Z.to_nat SUBSCRIPTION_RECURRING_DELEGATION_AMOUNT_PER_PERIOD_OFFSET) with 195%nat in *.
  replace (8 `min` (length (info_data account) - 195))%nat with 8%nat by lia. cbn [Nat.eqb compare_holds]. rewrite H5. rewrite andb_true_r. lia.
Qed.

Lemma transfer_meets amount wallet mint :
  forallb (data_meets ([SUBSCRIPTIONS_TRANSFER_RECURRING] ++ le_bytes 8 amount ++ toBytes wallet ++ toBytes mint))
    [ MkData 0 (VU8 SUBSCRIPTIONS_TRANSFER_RECURRING) equals; MkData SUBSCRIPTION_TRANSFER_DELEGATOR_OFFSET (VU8Slice (toBytes wallet)) equals;
      MkData SUBSCRIPTION_TRANSFER_MINT_OFFSET (VU8Slice (toBytes mint)) equals ] = true.
Proof.
  assert (H8 := le_bytes_length 8 amount). assert (Hw := toBytes_length wallet). assert (Hm := toBytes_length mint). cbn [forallb].
  rewrite byte_meets, !slice_meets; [done| | |done]; unfold slice.
  - change (Z.to_nat SUBSCRIPTION_TRANSFER_MINT_OFFSET) with 41%nat. rewrite !app_assoc. rewrite drop_app_length' by (rewrite !length_app, H8, Hw; done). by rewrite <- Hm, firstn_all.
  - change (Z.to_nat SUBSCRIPTION_TRANSFER_DELEGATOR_OFFSET) with 9%nat. rewrite (app_assoc [_]), drop_app_length' by (rewrite length_app, H8; done). by apply take_app_length'.
Qed.

Lemma plain_makeSigner ix signer : plain (makeSignerWritable ix signer) = plain ix.
Proof.
  unfold plain, makeSignerWritable. cbn. f_equal. f_equal. rewrite map_map. apply map_ext. intros m. by destruct (key_equals (meta_pubkey m) signer && isSigner m).
Qed.

Lemma pull_meets accounts delegation account authority walletAta vaultAta mint vault amount wallet max ix eventAuthority :
  createSubscriptionTransferRecurringInstruction delegation authority walletAta vaultAta mint vault amount wallet = Ok ix ->
  deriveSubscriptionEventAuthority = Ok eventAuthority -> accounts delegation = Some account -> canonical_delegation account wallet vault authority mint max ->
  info_owner (worldOf accounts authority) = SUBSCRIPTIONS_PROGRAM_ID ->
  Forall (fun k => info_owner (worldOf accounts k) = splTokenProgram) [walletAta; vaultAta; mint] ->
  allows (worldOf accounts) (sweepConstraint wallet vault mint walletAta vaultAta authority eventAuthority max) ix = true /\
  data ix = [SUBSCRIPTIONS_TRANSFER_RECURRING] ++ le_bytes 8 amount ++ toBytes wallet ++ toBytes mint /\ length (keys ix) = 9%nat /\ is_u64 amount.
Proof.
  intros H He Hacc Hcan Hauth Howners. unfold createSubscriptionTransferRecurringInstruction in H. apply bind_Ok in H as (event & He' & H). assert (event = eventAuthority) as -> by congruence. apply bind_Ok in H as (bytes & Hb & H).
  apply transfer_u64 in Hb as [-> Hu]. match type of H with Ok ?i = _ => assert (ix = i) as -> by congruence end. clear H. split; [|done]. rewrite !Forall_cons in Howners. destruct Howners as (O2 & O3 & O4 & _).
  unfold allows, sweepConstraint. cbv zeta. cbn [ic_program ic_data ic_accounts programId data]. unfold key_equals at 1. rewrite bool_decide_eq_true_2 by done. cbn [andb].
  rewrite transfer_meets, andb_true_r. cbn [forallb].
  rewrite (delegation_meets account wallet vault authority mint max eventAuthority walletAta vaultAta) with (meta := writable delegation);
    [|done|reflexivity|unfold worldOf; cbn [meta_pubkey writable]; by rewrite Hacc|reflexivity].
  rewrite (pubkey_meets _ _ 1 (readonly authority) authority), (pubkey_meets _ _ 2 (writable walletAta) walletAta), (pubkey_meets _ _ 3 (writable vaultAta) vaultAta),
    (pubkey_meets _ _ 4 (readonly mint) mint), (pubkey_meets _ _ 5 (readonly splTokenProgram) splTokenProgram), (pubkey_meets _ _ 6 (Meta vault true false) vault),
    (pubkey_meets _ _ 7 (readonly eventAuthority) eventAuthority), (pubkey_meets _ _ 8 (readonly SUBSCRIPTIONS_PROGRAM_ID) SUBSCRIPTIONS_PROGRAM_ID);
    try reflexivity; done.
Qed.

(** Accounts hold bytes. *)
Definition accounts_bytes (accounts : pubkey -> option AccountInfo) : Prop := forall key account, accounts key = Some account -> Forall is_byte (info_data account).

(** What the check of the artifacts has established *)
Record canonical_artifacts (check : CanonicalArtifactsInput) (accounts : pubkey -> option AccountInfo) (policy : OnchainPolicy) (mint vault walletAta vaultAta authority : pubkey)
    (account : AccountInfo) : Prop := {
  cn_mint : getStablecoinMintForCluster (default MainnetBeta (ca_cluster check)) USDC = Ok mint;
  cn_vault : getSmartAccountPda (ca_settingsPda check) EARN_VAULT_INDEX smartAccountsProgramId = Ok vault;
  cn_walletAta : associatedTokenAddress mint (ca_walletAddress check) false splTokenProgram = Ok walletAta;
  cn_vaultAta : associatedTokenAddress mint vault true splTokenProgram = Ok vaultAta;
  cn_authority : deriveSubscriptionAuthority (ca_walletAddress check) mint = Ok authority;
  cn_settings : oc_settings policy = ca_settingsPda check;
  cn_signers : exists mask, oc_signers policy = [{| sr_key := ca_policySigner check; sr_mask := mask |}];
  cn_state : exists eventAuthority payload, deriveSubscriptionEventAuthority = Ok eventAuthority /\
    payload = sweepConstraint (ca_walletAddress check) vault mint walletAta vaultAta authority eventAuthority (ca_amountRaw check) /\
    forall i, oc_policyState policy = StateProgramInteraction i -> ps_accountIndex i = EARN_VAULT_INDEX /\ ps_instructionsConstraints i = [payload];
  cn_account : accounts (ca_recurringDelegation check) = Some account;
  cn_delegation : canonical_delegation account (ca_walletAddress check) vault authority mint (ca_amountRaw check);
}.

Lemma u64_normal value name v : normalizeAutodepositU64 value name = Ok v -> v = value /\ 0 <= value < 2 ^ 64.
Proof. unfold normalizeAutodepositU64. destruct (_ || _) eqn:E; [done|]. intros [= <-]. change (Z.shiftl 1 64 - 1) with (2 ^ 64 - 1) in E. split; [done|lia]. Qed.

Lemma artifacts_canonical connection accounts check : answers connection accounts -> accounts_bytes accounts ->
  default true (ca_requirePolicy check) = true -> default true (ca_requireRecurringDelegation check) = true ->
  assertEarnUsdcAutodepositCanonicalArtifacts connection check = Ok tt ->
  exists policy mint vault walletAta vaultAta authority account,
    fetchPolicy connection (ca_policy check) = Ok policy /\ canonical_artifacts check accounts policy mint vault walletAta vaultAta authority account.
Proof.
  intros Ha Hb Hp Hr H. unfold assertEarnUsdcAutodepositCanonicalArtifacts in H. rewrite Hp, Hr in H.
  apply bind_Ok in H as (amount & Hamount & H). apply u64_normal in Hamount as [-> _]. apply bind_Ok in H as (nonce & Hn & H). destruct (_ || _); [done|].
  apply bind_Ok in H as (mint & Hmint & H). apply bind_Ok in H as (vault & Hvault & H). apply bind_Ok in H as (expected & Hex & H). apply bind_Ok in H as ([] & _ & H).
  apply bind_Ok in H as (walletAta & Hwa & H). apply bind_Ok in H as (vaultAta & Hva & H). apply bind_Ok in H as ([] & Hpol & H). cbn [negb] in H.
  apply bind_Ok in H as (authority & Hau & H). apply bind_Ok in H as (delegation & _ & H). apply bind_Ok in H as ([] & _ & H).
  rewrite (answers_read _ _ _ Ha) in H. cbn [mbind result_bind] in H. apply delegation_canonical in H as (account & Hacc & Hcan); [|intros a; apply Hb].
  apply bind_Ok in Hpol as (policy & Hfetch & Hpol). exists policy, mint, vault, walletAta, vaultAta, authority, account. split; [done|].
  unfold assertCanonicalPolicy in Hpol. apply bind_Ok in Hpol as ([] & Hs & Hpol). apply required_true, key_equal in Hs.
  do 3 apply bind_Ok in Hpol as ([] & _ & Hpol). destruct (oc_signers policy) as [|[skey mask] [|? ?]] eqn:Es; [done| |done].
  apply bind_Ok in Hpol as ([] & Hsig & Hpol). apply required_true, key_equal in Hsig. cbn in Hsig. subst skey. apply bind_Ok in Hpol as (? & _ & Hpol).
  apply bind_Ok in Hpol as (payload & Hpay & Hpol). apply required_true in Hpol. apply sweep_payload in Hpay as (authority' & event & Ha' & He & ->).
  assert (authority' = authority) as -> by congruence.
  constructor; try done; [by exists mask|]. exists event. eexists. split; [done|]. split; [reflexivity|]. intros i Hi.
  assert (Hinfo : exists info, policyFromAccountInfo info = Ok policy).
  { unfold fetchPolicy in Hfetch. rewrite (answers_read _ _ _ Ha) in Hfetch. cbn [mbind result_bind] in Hfetch. destruct (accounts (ca_policy check)); [|done]. by eexists. }
  destruct Hinfo as (info & Hinfo). rewrite Hi in Hpol. apply interaction_exact in Hpol; [done| | |apply Forall_singleton, sweep_bytes].
  - rewrite <- Hi. by eapply decoded_printable.
  - by eapply decoded_bytes.
Qed.

(** C3. Once the artifacts of an Autodeposit, policy and delegation both required, pass the client's check, and while the connection goes on answering as it did, every pull the client
    prepares for them on the same cluster is one the policy program admits, provided the subscription authority is owned by the subscriptions program and the two token accounts
    and the mint by the token program, which the policy demands and the client does not check: the message it sends names exactly one instruction, a recurring transfer of the amount
    asked for from the wallet's token account to the vault's, and the program admits it under the constraint it is run against, which is the policy's only one. *)
Theorem autodeposit_pull_allowed {PP : PolicyProgram} (connection : Connection) (accounts : pubkey -> option AccountInfo) (check : CanonicalArtifactsInput) (args : AutodepositPullInput)
    (p : PreparedAutodepositPull) :
  answers connection accounts -> accounts_bytes accounts -> default true (ca_requirePolicy check) = true -> default true (ca_requireRecurringDelegation check) = true ->
  assertEarnUsdcAutodepositCanonicalArtifacts connection check = Ok tt ->
  pu_policy args = ca_policy check -> pu_walletAddress args = ca_walletAddress check -> pu_recurringDelegation args = ca_recurringDelegation check ->
  pu_cluster args = ca_cluster check -> prepareEarnUsdcAutodepositPull connection args = Ok p ->
  info_owner (worldOf accounts (pp_subscriptionAuthority p)) = SUBSCRIPTIONS_PROGRAM_ID ->
  Forall (fun k => info_owner (worldOf accounts k) = splTokenProgram) [pp_walletUsdcAta p; pp_vaultUsdcAta p; pp_liquidityMint p] ->
  exists request policy interaction constraint ix tail,
    executePolicyPayloadSync request = Ok (pp_prepared p) /\ pq_policy request = pu_policy args /\ fetchPolicy connection (pu_policy args) = Ok policy /\
    oc_policyState policy = StateProgramInteraction interaction /\ ps_instructionsConstraints interaction = [constraint] /\
    pq_instructionConstraintIndices request = [0] /\ pq_instruction_accounts request = Meta (pu_policySigner args) true false :: tail /\
    readMessage (map meta_pubkey tail) (pq_instructions request) = Some [plain ix] /\ admits (worldOf accounts) constraint ix = true /\
    0 < pu_amountRaw args < 2 ^ 64 /\
    data ix = [SUBSCRIPTIONS_TRANSFER_RECURRING] ++ le_bytes 8 (pu_amountRaw args) ++ toBytes (pu_walletAddress args) ++ toBytes (pp_liquidityMint p) /\
    (meta_pubkey <$> keys ix !! 2%nat) = Some (pp_walletUsdcAta p) /\ (meta_pubkey <$> keys ix !! 3%nat) = Some (pp_vaultUsdcAta p).
Proof.
  intros Ha Hb Hrp Hrd Hc Ep Ew Ed Ec H Hauth Howners. destruct (artifacts_canonical _ _ _ Ha Hb Hrp Hrd Hc) as (policy & mint & vault & walletAta & vaultAta & authority & account & Hfetch & Hcan).
  destruct Hcan as [Hm Hv Hwa Hva Hau Hs _ (event & payload & He & -> & Hstate) Hacc Hdel].
  unfold prepareEarnUsdcAutodepositPull in H. destruct (Z.leb_spec (pu_amountRaw args) 0) as [|Hpos]; [done|]. rewrite Ec, Hm, Ep, Hfetch in H. cbn [mbind result_bind] in H.
  destruct (oc_policyState policy) as [i|] eqn:Ei; [|done]. destruct (Hstate i eq_refl) as [Hidx Hcs]. cbv zeta in H. rewrite Hidx, Z.eqb_refl in H. cbn [negb] in H.
  unfold pullTransfer in H. rewrite Hs, Hv, Ew, Ed in H. cbn [mbind result_bind] in H. rewrite Hwa, Hva, Hau in H. cbn [mbind result_bind] in H.
  apply bind_Ok in H as (r & Hr & H). apply bind_Ok in Hr as (ix & Hix & [= <-]). apply bind_Ok in H as ([bytes metas] & Hcomp & H). apply bind_Ok in H as (built & Hbuilt & [= <-]).
  cbn [pp_subscriptionAuthority pp_walletUsdcAta pp_vaultUsdcAta pp_liquidityMint pp_prepared] in *.
  destruct (pull_meets accounts _ account _ _ _ _ _ _ _ (ca_amountRaw check) ix event Hix He Hacc Hdel Hauth Howners) as (Hallow & Hdata & Hlen & Hu).
  pose proof (sync_faithful vault [pu_policySigner args] [] [] [makeSignerWritable ix vault]) as Hf. unfold compileToSynchronousMessageAndAccountsV2 in Hcomp. rewrite Hcomp in Hf.
  destruct Hf as (tail & Htail & Hread & _).
  { split; [cbn; lia|]. apply Forall_singleton. unfold makeSignerWritable. cbn [keys data]. rewrite length_map, Hlen, Hdata. split; [lia|].
    rewrite !length_app, le_bytes_length, !toBytes_length. cbn. lia. }
  eexists _, policy, i, _, ix, tail. split; [exact Hbuilt|]. cbn [pq_policy pq_instructionConstraintIndices pq_instruction_accounts pq_instructions pullRequest fst snd].
  split; [done|]. split; [by rewrite Ep|]. split; [done|]. split; [done|]. split; [done|]. split; [exact Htail|]. split; [rewrite Hread; cbn [map]; by rewrite plain_makeSigner|].
  split; [by apply admits_meeting|]. split; [unfold is_u64 in Hu; rewrite U64_MAX_val in Hu; lia|]. split; [by rewrite Ew|].
  unfold createSubscriptionTransferRecurringInstruction in Hix. inv_results. by subst ix.
Qed.

(** A close whose policy is gone does not pass: the policy is fetched again where the close is built. *)
Lemma close_missing_policy connection accounts args vault : answers connection accounts -> accounts (cl_policy args) = None ->
  getSmartAccountPda (cl_settingsPda args) EARN_VAULT_INDEX smartAccountsProgramId = Ok vault ->
  prepareEarnUsdcAutodepositClose connection args = throwError ("Unable to find Policy account at " +:+ toBase58 (cl_policy args)).
Proof.
  intros Ha Hn Hv. unfold prepareEarnUsdcAutodepositClose. cbv zeta. rewrite Hv, (answers_read _ _ (cl_policy args) Ha), Hn. cbn [mbind result_bind].
  assert (Hf : fetchPolicy connection (cl_policy args) = throwError ("Unable to find Policy account at " +:+ toBase58 (cl_policy args))).
  { unfold fetchPolicy. by rewrite (answers_read _ _ _ Ha), Hn. }
  unfold prepareClosePoliciesSync, resolvePoliciesForClose. cbn. by rewrite Hf.
Qed.
End AutodepositSetup.

Module AutodepositSetupWitness.
Import DemoKeys KaminoWitness HoldingsWitness.
#[local] Existing Instance ClientPoliciesWitness.strictProgram.

Definition codePoints (a b : string) : Z := match String.compare a b with Lt => -1 | Eq => 0 | Gt => 1 end.
(** The amount per period of the app *)
Definition sweepAmount : Z := 100000000000.
Definition ownerWallet : key := key_of 50.
Definition sweeper : key := key_of 60.
Definition mainMint : key := okKey (getStablecoinMintForCluster MainnetBeta USDC).
Definition noPlace : SetupPlace := {| sp_cluster := MainnetBeta; sp_usdcMint := zero_key; sp_vaultPda := zero_key; sp_walletUsdcAta := zero_key; sp_vaultUsdcAta := zero_key;
  sp_subscriptionAuthority := zero_key; sp_recurringDelegation := zero_key |}.
Definition demoPlace : SetupPlace := SdkWitness.value noPlace (setupPlace demoProgram MainnetBeta mainMint demoSettings ownerWallet 77).
Definition sweepAccount : key := okKey (derivePda (PolicyPda demoSettings 1) demoProgram).
Definition sweeps : PolicyCreationPayload := SdkWitness.value ClientPoliciesWitness.noPayload
  (createSubscriptionSweepProgramInteractionPolicyCreationPayload ownerWallet (sp_vaultPda demoPlace) (sp_usdcMint demoPlace) (sp_walletUsdcAta demoPlace)
     (sp_vaultUsdcAta demoPlace) sweepAmount None).

Lemma sweeps_built : createSubscriptionSweepProgramInteractionPolicyCreationPayload ownerWallet (sp_vaultPda demoPlace) (sp_usdcMint demoPlace) (sp_walletUsdcAta demoPlace)
  (sp_vaultUsdcAta demoPlace) sweepAmount None = Ok sweeps.
Proof. apply SdkWitness.value_ok. vm_compute. reflexivity. Qed.

Definition sweepInteraction : ProgramInteractionState := {|
  ps_accountIndex := py_accountIndex sweeps; ps_instructionsConstraints := py_instructionsConstraints sweeps; ps_preHook := GNull; ps_postHook := GNull; ps_spendingLimits := [] |}.

Lemma sweeps_bytes : Forall constraint_bytes (ps_instructionsConstraints sweepInteraction).
Proof. destruct (sweep_payload _ _ _ _ _ _ _ sweeps_built) as (authority & event & _ & _ & E). unfold sweepInteraction. rewrite E. apply Forall_singleton, sweep_bytes. Qed.

(** The sweep policy of the demo wallet, stored as one byte *)
Definition sweepPolicy : OnchainPolicy := {|
  oc_settings := demoSettings; oc_seed := 1; oc_threshold := 1; oc_timeLock := 0; oc_signers := [createPolicySigner sweeper];
  oc_policyState := StateProgramInteraction sweepInteraction |}.

Definition noInstructions : BuiltOperation (PK := demo_keys) := {| bo_instructions := []; bo_lookupTableAccounts := [] |}.

(** Builders that know one settings transaction *)
Definition builders (wanted : SettingsSyncRequest -> bool) : ClientBuilders (PK := demo_keys) := {|
  executeSettingsTransactionSync request := if wanted request then Ok noInstructions else throwError "unexpected request";
  executePolicyPayloadSync _ := Ok noInstructions;
  createApproveChecked account mint delegate owner _ _ := Instruction usdcProgram [writable account; readonly mint; readonly delegate; signer owner] [13];
  createRevoke account owner := Instruction usdcProgram [writable account; signer owner] [5];
  createAtaIdempotent payer ata owner mint program := Instruction (key_of 8) [signer payer; writable ata; readonly owner; readonly mint; readonly program] [1];
  serializedLength _ := Ok 900;
  signatureCount _ := Ok 1;
  policyByteSize _ _ _ _ _ := 700;
  policyFromAccountInfo account := if bool_decide (info_data account = [1]) then Ok sweepPolicy else throwError "not a policy";
  accountLayoutSpan := 165;
  decodeDelegate _ := (Some (sp_subscriptionAuthority demoPlace), Z.shiftl 1 64 - 1);
|}.

#[export] Instance decoded wanted : DecodedPolicies (CB := builders wanted).
Proof.
  split.
  - intros account policy. cbn. case_bool_decide; [|done]. intros [= <-]. vm_compute. reflexivity.
  - intros account policy i. cbn. case_bool_decide; [|done]. intros E1 E2. assert (policy = sweepPolicy) as -> by congruence.
    assert (i = sweepInteraction) as -> by (unfold sweepPolicy in E2; cbn [oc_policyState] in E2; congruence). apply sweeps_bytes.
Qed.

(** The accounts of a finished setup *)
Definition sweepDelegation : AccountInfo (PK := demo_keys) := info SUBSCRIPTIONS_PROGRAM_ID
  ([SUBSCRIPTION_RECURRING_DELEGATION_DISCRIMINATOR; 0; 0] ++ key_bytes ownerWallet ++ key_bytes (sp_vaultPda demoPlace) ++ replicate 40 0 ++
   key_bytes (sp_subscriptionAuthority demoPlace) ++ key_bytes (sp_usdcMint demoPlace) ++ replicate 24 0 ++ le_bytes 8 sweepAmount ++ replicate 8 0).
Definition goodAuthority : AccountInfo (PK := demo_keys) := info SUBSCRIPTIONS_PROGRAM_ID (replicate 106 0).
Definition finished (k : key) : option AccountInfo :=
  if bool_decide (k = sweepAccount) then Some (info demoProgram [1])
  else if bool_decide (k = sp_recurringDelegation demoPlace) then Some sweepDelegation
  else if bool_decide (k = sp_subscriptionAuthority demoPlace) then Some goodAuthority
  else Some (info usdcProgram []).

Definition connectionTo (accounts : key -> option AccountInfo) : @InjectableConnection demo_keys EarnPolicyCreateDiagnostics := {|
  getMultipleAccountsInfo := Some (fun _ => Ok accounts); getAccountInfo := Some (fun k => Ok (accounts k)); getMinimumBalanceForRentExemption := None; getFeeForMessage := None;
  getBalance := None |}.

Lemma finished_bytes : accounts_bytes finished.
Proof.
  intros k account. unfold finished. repeat case_bool_decide; intros E; match type of E with Some ?i = _ => assert (account = i) as -> by congruence end;
    apply info_bytes; vm_compute; reflexivity.
Qed.

Definition sweepCheck : CanonicalArtifactsInput := {|
  ca_settingsPda := demoSettings; ca_walletAddress := ownerWallet; ca_policySigner := sweeper; ca_policy := sweepAccount; ca_policySeed := 1;
  ca_recurringDelegation := sp_recurringDelegation demoPlace; ca_nonce := 77; ca_amountRaw := sweepAmount; ca_cluster := None; ca_requirePolicy := None;
  ca_requireRecurringDelegation := None |}.
Definition sweepPull : AutodepositPullInput := {|
  pu_policy := sweepAccount; pu_walletAddress := ownerWallet; pu_feePayer := sweeper; pu_policySigner := sweeper; pu_recurringDelegation := sp_recurringDelegation demoPlace;
  pu_amountRaw := 120; pu_cluster := None; pu_memo := None |}.

#[export] Instance anyBuilders : ClientBuilders := builders (fun _ => true).
Definition pulled : result PreparedAutodepositPull := prepareEarnUsdcAutodepositPull demoProgram (connectionTo finished) sweepPull.

Definition pullOwners (r : result PreparedAutodepositPull) : bool :=
  match r with
  | Ok p => bool_decide (info_owner (worldOf finished (pp_subscriptionAuthority p)) = SUBSCRIPTIONS_PROGRAM_ID) &&
            forallb (fun k => bool_decide (info_owner (worldOf finished k) = splTokenProgram)) [pp_walletUsdcAta p; pp_vaultUsdcAta p; pp_liquidityMint p]
  | Throw _ => false
  end.

Lemma autodeposit_pull_allowed_witness : exists p request policy interaction constraint ix tail,
  pulled = Ok p /\ executePolicyPayloadSync request = Ok (pp_prepared p) /\ fetchPolicy (connectionTo finished) sweepAccount = Ok policy /\
  oc_policyState policy = StateProgramInteraction interaction /\ ps_instructionsConstraints interaction = [constraint] /\
  readMessage (map meta_pubkey tail) (pq_instructions request) = Some [plain ix] /\ admits (worldOf finished) constraint ix = true.
Proof.
  assert (H : pullOwners pulled = true) by (vm_compute; reflexivity). destruct pulled as [p|] eqn:E; [|discriminate H].
  assert (Ho : info_owner (worldOf finished (pp_subscriptionAuthority p)) = SUBSCRIPTIONS_PROGRAM_ID /\
    Forall (fun k => info_owner (worldOf finished k) = splTokenProgram) [pp_walletUsdcAta p; pp_vaultUsdcAta p; pp_liquidityMint p]).
  { unfold pullOwners in H. apply andb_true_iff in H as [Ha Hb]. split; [by apply (bool_decide_eq_true_1 (_ = _))|].
    rewrite forallb_forall in Hb. apply List.Forall_forall. intros k Hk. apply (bool_decide_eq_true_1 (_ = _)). by apply Hb. }
  destruct (autodeposit_pull_allowed (PK := demo_keys) codePoints demoProgram (connectionTo finished) finished sweepCheck sweepPull p)
    as (request & policy & interaction & constraint & ix & tail & H1 & _ & H2 & H3 & H4 & _ & _ & H5 & H6 & _).
  - exact (conj eq_refl eq_refl).
  - apply finished_bytes.
  - reflexivity.
  - reflexivity.
  - vm_compute. reflexivity.
  - reflexivity.
  - reflexivity.
  - reflexivity.
  - reflexivity.
  - exact E.
  - apply Ho.
  - apply Ho.
  - exists p, request, policy, interaction, constraint, ix, tail. exact (conj eq_refl (conj H1 (conj H2 (conj H3 (conj H4 (conj H5 H6)))))).
Defined.
(** Where the delegation and its approval exist and only the policy is missing, a stage is prepared for the policy but a batch is not. *)
Definition policyMissing (k : key) : option AccountInfo :=
  if bool_decide (k = sweepAccount) then None
  else if bool_decide (k = sp_walletUsdcAta demoPlace) then Some (info usdcProgram (replicate 165 0))
  else finished k.
Definition sweepInput : SetupInput := {|
  ai_settingsPda := demoSettings; ai_walletAddress := ownerWallet; ai_feePayer := ownerWallet; ai_signer := ownerWallet; ai_policySigner := sweeper; ai_amountRaw := sweepAmount;
  ai_minimumDelegatorBalanceRaw := None; ai_cluster := None; ai_nonce := Some 77; ai_policySeed := None; ai_periodLengthSeconds := None; ai_startTimestamp := None;
  ai_expiryTimestamp := None; ai_memo := None |}.
Definition atOnce : SetupClock := {| ck_nonce := 77000; ck_start := 77000; ck_fresh := 77000; ck_age := 77000; ck_observed := 77000 |}.

Example batch_without_policy :
  (fun r => as_stage (pes_setup r.1)) <$> prepareEarnUsdcAutodepositSetup demoProgram (connectionTo policyMissing) (Ok None) atOnce sweepInput [] = Ok CreatePolicy /\
  (fun r => length r.1) <$> prepareEarnUsdcAutodepositSetupBatch demoProgram (connectionTo policyMissing) (Ok None) (Ok None) atOnce atOnce 77000 sweepInput [] =
  throwError "Autodeposit policy and recurring delegation already exist.".
Proof. split; vm_compute; reflexivity. Qed.
End AutodepositSetupWitness.
