(* ===== verification/AutodepositLoop.v ===== *)
(** Running an Autodeposit setup to its end (web/apps/mobile/src/lib/solana/earn/autodeposit.ts): the rounds of prepare, send and confirm, and that they end with the artifacts
    the client checks for.

    The world outside is a state: what it shows is a round's connection, settings, clocks and balance, and sending operations moves it on. What the backend answers for the wallet's
    Autodeposit and the session it gives are arguments, and so is the amount of SOL shown to a wallet that lacks it. Lifecycle reports and analytics are left out. *)
From Stdlib Require Import Floats.SpecFloat.
From S2P Require Import Prelude JsString JsMap Json Solana MessageCompile PreparedWire EarnWire Bytes Subscriptions Squads Protocols Registry Sdk Voltr RpcFetch Pda Kamino Holdings FullExit GeneratedValues ClientPolicies NativeSol PolicyRefund AutodepositSetup F64.

Definition CONFIRM_RETRY_ATTEMPTS := 4%nat.

(** A confirmation is recorded, is refused because its signature is not seen yet, or fails. *)
Inductive ConfirmOutcome := Confirmed | UnconfirmedSignature (e : exn) | ConfirmFailed (e : exn).

Fixpoint retryUnconfirmed (run : nat -> ConfirmOutcome) (attempt remaining : nat) : result unit :=
  match run attempt, remaining with
  | Confirmed, _ => Ok tt
  | ConfirmFailed e, _ | UnconfirmedSignature e, O => Throw e
  | UnconfirmedSignature _, S remaining => retryUnconfirmed run (S attempt) remaining
  end.
Definition withUnconfirmedRetry (run : nat -> ConfirmOutcome) : result unit := retryUnconfirmed run 1 (CONFIRM_RETRY_ATTEMPTS - 1).

Section AutodepositLoop.
Context {PK : PublicKeys} {SPL : SplToken PK} {KB : KeyBytes PK} {B : BeetUints} {TL : TokenLayouts PK} {CB : ClientBuilders}.
Context (localeCompare : string -> string -> Z) (smartAccountsProgramId : pubkey) (solText : Z -> string).
#[local] Abbreviation Op := (PreparedOperation EarnPolicyCreateDiagnostics).
#[local] Abbreviation Connection := (@InjectableConnection PK EarnPolicyCreateDiagnostics).
#[local] Abbreviation Setup := (PreparedEarnUsdcAutodepositSetup (diagnostics := EarnPolicyCreateDiagnostics)).

(** ** The target a setup resumes *)
Record SetupTarget := {
  tg_lifecycleStatus : string;
  tg_policySeed : option string;
  tg_nonce : option string;
  tg_periodLengthSeconds : option string;
  tg_startTimestamp : option string;
  tg_expiryTimestamp : option string;
}.

Definition truthy (text : option string) : bool := match text with Some (String _ _) => true | _ => false end.
Definition bigintOf (text : option string) : result (option Z) :=
  if truthy text then match text with Some t => z ← BigInt_of_string t; Ok (Some z) | None => Ok None end else Ok None.

Definition resumeOf (target : option SetupTarget) : option SetupTarget :=
  match target with
  | Some t => if (String.eqb (tg_lifecycleStatus t) "pending_delegation" || String.eqb (tg_lifecycleStatus t) "pending_policy") &&
                 truthy (tg_policySeed t) && truthy (tg_nonce t) then Some t else None
  | None => None
  end.

(** ** A round *)
Context {World : Type}.
Record Round := {
  rd_connection : Connection;
  rd_settings : result (option Z);
  rd_batchSettings : result (option Z);
  rd_clock : SetupClock;
  rd_batchClock : SetupClock;
  rd_batchNow : Z;
  rd_balance : result Z;
  rd_send : list Op -> result World;
  rd_confirm : Setup -> nat -> ConfirmOutcome;
}.

Definition withSeed (args : SetupInput) (policySeed : option Z) : SetupInput := {|
  ai_settingsPda := ai_settingsPda args; ai_walletAddress := ai_walletAddress args; ai_feePayer := ai_feePayer args; ai_signer := ai_signer args;
  ai_policySigner := ai_policySigner args; ai_amountRaw := ai_amountRaw args; ai_minimumDelegatorBalanceRaw := ai_minimumDelegatorBalanceRaw args;
  ai_cluster := ai_cluster args; ai_nonce := ai_nonce args; ai_policySeed := policySeed; ai_periodLengthSeconds := ai_periodLengthSeconds args;
  ai_startTimestamp := ai_startTimestamp args; ai_expiryTimestamp := ai_expiryTimestamp args; ai_memo := ai_memo args |}.

Definition addRequired (total : Z) (stage : Setup) : result Z :=
  lamports ← BigInt_of_string (ns_requiredLamports (as_nativeSolRequirement (pes_setup stage)));
  Ok (total + lamports).

Definition notEnoughSol (deficit : Z) : exn :=
  Exn "Error" ("Not enough SOL to create the Autodeposit — deposit at least " +:+ solText deficit +:+ " SOL and try again.").

Definition checkSol (balance : result Z) (requiredLamports : Z) : result unit :=
  if 0 <? requiredLamports then
    balanceLamports ← balance;
    if balanceLamports <? requiredLamports then Throw (notEnoughSol (requiredLamports - balanceLamports)) else Ok tt
  else Ok tt.

(** The placeholder seed of the first stage is not threaded. *)
Definition threadSeed (policySeed : option Z) (stage : Setup) : result (option Z) :=
  if isStage InitializeSubscriptionAuthority stage then Ok policySeed
  else match as_policySeed (pes_setup stage), asm_policySeed (as_persistence (pes_setup stage)) with
       | Some seed, _ => Ok (Some seed)
       | None, Some text => seed ← BigInt_of_string text; Ok (Some seed)
       | None, None => Ok policySeed
       end.

Definition confirmStage (round : Round) (policySeed : option Z) (stage : Setup) : result (option Z) :=
  _ ← withUnconfirmedRetry (rd_confirm round stage);
  threadSeed policySeed stage.

Definition finishes (stages : list Setup) : bool :=
  match last stages with Some stage => isStage CreateRecurringDelegation stage || isStage ApproveTokenDelegate stage | None => false end.

Fixpoint setupRounds (observe : World -> Round) (remaining : nat) (world : World) (args : SetupInput) (policySeed : option Z) (rents : list (string * Z)) :
    result (list (list Setup) * World) :=
  match remaining with
  | O => throwError "Autodeposit setup did not complete after all stages."
  | S remaining =>
      let round := observe world in
      '(stages, rents') ← prepareEarnUsdcAutodepositSetupBatch smartAccountsProgramId (rd_connection round) (rd_settings round) (rd_batchSettings round) (rd_clock round)
        (rd_batchClock round) (rd_batchNow round) (withSeed args policySeed) rents;
      match stages with
      | [] => throwError "Failed to prepare Autodeposit setup."
      | _ =>
          requiredLamports ← foldR addRequired 0 stages;
          _ ← checkSol (rd_balance round) requiredLamports;
          world' ← rd_send round (map (fun stage => as_prepared (pes_setup stage)) stages);
          policySeed' ← foldR (confirmStage round) policySeed stages;
          if finishes stages then Ok ([stages], world')
          else '(later, final) ← setupRounds observe remaining world' args policySeed' rents'; Ok (stages :: later, final)
      end
  end.

(** ** What landing an operation does *)
Record Chain := { ch_accounts : pubkey -> option AccountInfo; ch_policySeed : option Z }.

(** The state a created policy has *)
Definition createdState (payload : PolicyCreationPayload) : PolicyState := StateProgramInteraction {|
  ps_accountIndex := py_accountIndex payload; ps_instructionsConstraints := py_instructionsConstraints payload; ps_preHook := GNull; ps_postHook := GNull;
  ps_spendingLimits := [] |}.

(** The effects of the subscriptions program and the smart-account program, for operations of the three shapes *)
Record lands (op : Op) (c c' : Chain) : Prop := {
  land_initialize ix owner authority mint walletAta rest :
    po_instructions op = [ix] -> programId ix = SUBSCRIPTIONS_PROGRAM_ID -> data ix = subscriptionInitAuthorityData ->
    map meta_pubkey (keys ix) = owner :: authority :: mint :: walletAta :: rest ->
    (exists info, ch_accounts c' authority = Some info /\ info_owner info = SUBSCRIPTIONS_PROGRAM_ID /\ (106 <= length (info_data info))%nat /\
       Forall is_byte (info_data info)) /\
    ch_policySeed c' = ch_policySeed c /\ forall k, k <> authority -> k <> walletAta -> ch_accounts c' k = ch_accounts c k;
  land_policy request built seed payload signers threshold timeLock account :
    executeSettingsTransactionSync request = Ok built -> po_instructions op = bo_instructions built ->
    st_actions request = [ActionPolicyCreate seed payload signers threshold timeLock] ->
    derivePda (PolicyPda (st_settingsPda request) seed) smartAccountsProgramId = Ok account ->
    (exists info policy, ch_accounts c' account = Some info /\ info_owner info = smartAccountsProgramId /\ policyFromAccountInfo info = Ok policy /\
       policy = {| oc_settings := st_settingsPda request; oc_seed := seed; oc_threshold := threshold; oc_timeLock := timeLock; oc_signers := signers;
                   oc_policyState := createdState payload |}) /\
    ch_policySeed c' = Some seed /\ forall k, k <> account -> ch_accounts c' k = ch_accounts c k;
  land_delegation ata approve ix delegator authority delegation delegatee rest args :
    po_instructions op = [ata; approve; ix] -> programId ix = SUBSCRIPTIONS_PROGRAM_ID ->
    map meta_pubkey (keys ix) = delegator :: authority :: delegation :: delegatee :: rest -> d_create_delegation (data ix) = Some (args, []) ->
    (exists info, ch_accounts c' delegation = Some info /\ Forall is_byte (info_data info) /\
       forall mint, getStablecoinMintForCluster MainnetBeta USDC = Ok mint -> deriveSubscriptionAuthority delegator mint = Ok authority ->
       canonical_delegation info delegator delegatee authority mint (da_amount args)) /\
    ch_policySeed c' = ch_policySeed c /\
    (** no program but its own writes an account *)
    forall k info, ch_accounts c k = Some info -> info_owner info = smartAccountsProgramId -> ch_accounts c' k = Some info;
}.

Fixpoint lands_all (ops : list Op) (c c' : Chain) : Prop :=
  match ops with [] => c' = c | op :: ops => exists c1, lands op c c1 /\ lands_all ops c1 c' end.

(** ** The requirement of a stage *)
Lemma rents_run connection existing rents l items : Forall positive items ->
  exists items', foldR (addRentItem (diagnostics := EarnPolicyCreateDiagnostics) (Some MainnetBeta) connection true existing) (items, rents) l = Ok (items', rents) /\
    Forall positive items'.
Proof.
  revert items. induction l as [|c l IH]; intros items Hp; cbn [foldR]; [by exists items|].
  assert (exists items1, addRentItem (Some MainnetBeta) connection true existing (items, rents) c = Ok (items1, rents) /\ Forall positive items1) as (items1 & -> & H1).
  { unfold addRentItem. destruct (candidateExists existing c); [by exists items|]. cbn [resolveRentExemptionLamports isMainnetOrUnknown andb mbind result_bind fst snd].
    set (z := getStaticMainnetRentExemptionLamports (rc_space c)). eexists. split; [reflexivity|]. destruct (Z.leb_spec z 0); [done|].
    apply Forall_app. split; [done|]. apply Forall_singleton, item_positive. lia. }
  by apply IH.
Qed.

Lemma requirement_ok connection payer prepared candidates rents : exists r z,
  setupRequirement connection MainnetBeta payer prepared candidates rents = Ok (r, rents) /\ ns_requiredLamports r = bigint_toString z.
Proof.
  unfold setupRequirement, estimateNativeSolRequirement. cbv zeta.
  cbn [ea_balanceLamports ea_checkBalance ea_fixedItems ea_rentCandidates ea_cluster ea_preferStaticMainnetRent ea_prepared ea_payer queriedBalance foldR mbind result_bind].
  destruct (rents_run connection (getExistingAccountSet connection (map rc_account (List.filter (fun c => negb (isPresent (rc_exists c))) candidates))) rents candidates []
    (Forall_nil_2 _)) as (items & -> & Hi). cbn [mbind result_bind].
  set (args := {| ea_balanceLamports := None; ea_prepared := [prepared] |}). destruct (fee_items (preparedFee signatureCount connection args) [prepared] 0) as [Hf _].
  cbn [map] in *. rewrite items_total by by apply Forall_app. cbn [mbind result_bind]. eexists _, _. split; reflexivity.
Qed.

(** ** The terms of a setup *)
Context {Laws : PublicKeyLaws PK} {KL : KeyBytesLaws PK KB}.

Lemma normalized value name : 0 <= value < 2 ^ 64 -> normalizeAutodepositU64 value name = Ok value.
Proof. intros H. unfold normalizeAutodepositU64. change (Z.shiftl 1 64 - 1) with (2 ^ 64 - 1). by replace ((value <? 0) || (2 ^ 64 - 1 <? value)) with false by lia. Qed.

(** Inputs in range, for a wallet on mainnet *)
Record input_ok (args : SetupInput) (nonce : Z) : Prop := {
  io_amount : 0 < ai_amountRaw args < 2 ^ 64;
  io_minimum : 0 <= default 0 (ai_minimumDelegatorBalanceRaw args) < 2 ^ 64;
  io_period : 0 <= default (30 * 24 * 60 * 60) (ai_periodLengthSeconds args) < 2 ^ 64;
  io_nonce : ai_nonce args = Some nonce /\ 0 <= nonce < 2 ^ 64;
  io_start : - 2 ^ 63 <= default 0 (ai_startTimestamp args) < 2 ^ 63;
  io_expiry : - 2 ^ 63 <= default 0 (ai_expiryTimestamp args) < 2 ^ 63;
  io_cluster : default MainnetBeta (ai_cluster args) = MainnetBeta;
}.
Definition clock_ok (clock : SetupClock) : Prop := 0 <= ck_start clock < 2 ^ 63.

Lemma terms_ok args nonce clock : input_ok args nonce -> clock_ok clock -> exists terms, setupTerms args clock = Ok terms /\
  tm_amountPerPeriodRaw terms = ai_amountRaw args /\ tm_nonce terms = nonce /\ tm_expiryTimestamp terms = default 0 (ai_expiryTimestamp args) /\
  tm_periodLengthSeconds terms = default (30 * 24 * 60 * 60) (ai_periodLengthSeconds args) /\ - 2 ^ 63 <= tm_startTimestamp terms < 2 ^ 63.
Proof.
  intros [Ha Hm Hp [En Hn] Hs He _] Hc. unfold setupTerms. rewrite (normalized (ai_amountRaw args)) by lia. cbn [mbind result_bind].
  assert (exists m, (match ai_minimumDelegatorBalanceRaw args with None => Ok None | Some minimum => m ← normalizeAutodepositU64 minimum "minimumDelegatorBalanceRaw"; Ok (Some m) end) = Ok m) as (m & ->).
  { destruct (ai_minimumDelegatorBalanceRaw args); [|by eexists]. cbn [default from_option id] in Hm. rewrite normalized by done. by eexists. }
  cbn [mbind result_bind]. rewrite (normalized (default (30 * 24 * 60 * 60) _)) by done. cbn [mbind result_bind]. rewrite En. cbn [default from_option id]. rewrite normalized by done. cbn [mbind result_bind].
  eexists. split; [reflexivity|]. split; [done|]. split; [done|]. split; [done|]. split; [done|]. cbn [tm_startTimestamp]. unfold clock_ok, resolveEarnAutodepositStartTimestamp, secondsOf in *.
  assert (0 <= ck_start clock / 1000 < 2 ^ 63) by (split; [apply Z.div_pos; lia|apply Z.div_lt_upper_bound; lia]).
  destruct (ai_startTimestamp args) as [start|]; cbn [default from_option id] in Hs; [destruct (_ || _)|]; lia.
Qed.

Lemma delegation_built args terms place id : 0 <= tm_nonce terms < 2 ^ 64 -> 0 <= tm_amountPerPeriodRaw terms < 2 ^ 64 -> 0 <= tm_periodLengthSeconds terms < 2 ^ 64 ->
  - 2 ^ 63 <= tm_startTimestamp terms < 2 ^ 63 -> - 2 ^ 63 <= tm_expiryTimestamp terms < 2 ^ 63 -> - 2 ^ 63 <= id < 2 ^ 63 ->
  exists ix da rest, delegationInstruction args terms place id = Ok ix /\ programId ix = SUBSCRIPTIONS_PROGRAM_ID /\
    map meta_pubkey (keys ix) = ai_walletAddress args :: sp_subscriptionAuthority place :: sp_recurringDelegation place :: sp_vaultPda place :: rest /\
    d_create_delegation (data ix) = Some (da, []) /\ da_amount da = tm_amountPerPeriodRaw terms.
Proof.
  intros Hn Ha Hp Hs He Hi.
  destruct (create_delegation_codec (delegationDataInput terms id) (DelegationArgs (tm_nonce terms) (tm_amountPerPeriodRaw terms) (tm_periodLengthSeconds terms)
    (tm_startTimestamp terms) (tm_expiryTimestamp terms) id)) as (bytes & Hb & _ & Hd).
  { unfold args_denote, is_u64, is_i64, I64_MIN, I64_MAX. rewrite U64_MAX_val, Z.shiftl_1_l. cbn [numeric_value delegationDataInput nonce amountPerPeriodRaw periodLengthSeconds startTimestamp expiryTimestamp expectedSubscriptionAuthorityInitId da_nonce da_amount da_period da_start da_expiry da_init_id].
    split_and!; try done; lia. }
  unfold delegationInstruction, createSubscriptionCreateRecurringDelegationInstruction. rewrite Hb. cbn [mbind result_bind].
  eexists _, _, _. split; [reflexivity|]. split; [done|]. split; [reflexivity|]. split; [exact Hd|done].
Qed.

Lemma init_id_read account : (106 <= length (info_data account))%nat -> Forall is_byte (info_data account) ->
  exists id, readSubscriptionAuthorityInitId account = Ok id /\ - 2 ^ 63 <= id < 2 ^ 63.
Proof.
  intros Hl Hb. unfold readSubscriptionAuthorityInitId. cbv zeta. rewrite length_take, length_drop.
  replace (8 `min` (length (info_data account) - 98))%nat with 8%nat by lia. cbn [Nat.eqb negb].
  pose proof (le_value_bound (take 8 (drop 98 (info_data account))) (Forall_take _ _ _ (Forall_drop _ _ _ Hb))) as H.
  rewrite length_take, length_drop in H. replace (8 `min` (length (info_data account) - 98))%nat with 8%nat in H by lia. change (256 ^ Z.of_nat 8) with (2 ^ 64) in H.
  eexists. split; [reflexivity|]. destruct (Z.ltb_spec (le_value (take 8 (drop 98 (info_data account)))) (2 ^ 63)); lia.
Qed.

(** ** Reading the accounts of a setup *)
Lemma infoMap_at info ks k : k ∈ ks -> infoAt (infoMap info ks) k = info k.
Proof.
  intros Hk. unfold infoAt, infoMap. enough (forall acc, k ∈ ks \/ mapGet acc (toBase58 k) = Some (info k) ->
    mapGet (fold_left (fun results account => mapSet results (toBase58 account) (info account)) ks acc) (toBase58 k) = Some (info k)) as H by (by rewrite H by by left).
  clear Hk. induction ks as [|a ks IH]; intros acc H; cbn [fold_left]; [set_solver|]. apply IH. rewrite mapGet_set. destruct (String.eqb_spec (toBase58 a) (toBase58 k)) as [E|E].
  - right. apply toBase58_inj in E as ->. done.
  - destruct H as [H|H]; [|by right]. apply elem_of_cons in H as [->|H]; [done|by left].
Qed.

Definition stateOf (accounts : pubkey -> option AccountInfo) (place : SetupPlace) (policyAccount : pubkey) : EarnAutodepositSetupAccountState := {|
  st_delegationAccount := accounts (sp_recurringDelegation place); st_policyAccountExists := isPresent (accounts policyAccount); st_policyAccountInfo := accounts policyAccount;
  st_walletUsdcAtaAccount := accounts (sp_walletUsdcAta place); st_vaultUsdcAtaExists := Some (isPresent (accounts (sp_vaultUsdcAta place))) |}.

Lemma state_read connection accounts assume place policyAccount seed : answers connection accounts ->
  readSetupAccountState connection None assume place policyAccount seed = Ok (stateOf accounts place policyAccount).
Proof.
  intros [Ha _]. unfold readSetupAccountState. cbv zeta. unfold getAccountInfoMap. cbv zeta. rewrite Ha.
  set (ks := [policyAccount; sp_recurringDelegation place; sp_vaultUsdcAta place; sp_walletUsdcAta place]).
  assert (H : forall k, k ∈ ks -> k ∈ dedupePublicKeys ks) by (intros k Hk; apply dedupe_elem; [intros ? ?; apply toBase58_inj|done]).
  destruct (dedupePublicKeys ks) as [|k l] eqn:E; [specialize (H policyAccount); set_solver|]. rewrite <- E in *. cbn [mbind result_bind]. unfold stateOf.
  do 2 f_equal; rewrite !infoMap_at; try done; apply H; set_solver.
Qed.


(** ** The stages of a fresh setup *)
(** What a setup asks for can be derived, and the operation that creates its policy can be built and fits a packet. *)
Record setup_ready (args : SetupInput) (nonce : Z) (place : SetupPlace) (payload : PolicyCreationPayload) (next : Z) (account : pubkey) (built : BuiltOperation) : Prop := {
  sr_input : input_ok args nonce;
  sr_place : exists mint, getStablecoinMintForCluster MainnetBeta USDC = Ok mint /\ setupPlace smartAccountsProgramId MainnetBeta mint (ai_settingsPda args) (ai_walletAddress args) nonce = Ok place;
  sr_payload : createSubscriptionSweepProgramInteractionPolicyCreationPayload (ai_walletAddress args) (sp_vaultPda place) (sp_usdcMint place) (sp_walletUsdcAta place)
    (sp_vaultUsdcAta place) (ai_amountRaw args) None = Ok payload;
  sr_seed : 0 < next <= MAX_SAFE_INTEGER;
  sr_account : derivePda (PolicyPda (ai_settingsPda args) next) smartAccountsProgramId = Ok account;
  sr_first : exists key, derivePda (PolicyPda (ai_settingsPda args) 1) smartAccountsProgramId = Ok key;
  sr_built : executeSettingsTransactionSync (createPolicyRequest args payload account next) = Ok built;
  sr_fits : exists length, serializedLength (createPolicyOperation smartAccountsProgramId args built account next) = Ok length /\ length <= EARN_POLICY_PACKET_DATA_SIZE;
}.

Definition authority_good (info : AccountInfo) : Prop :=
  info_owner info = SUBSCRIPTIONS_PROGRAM_ID /\ (106 <= length (info_data info))%nat /\ Forall is_byte (info_data info).

(** Nothing of the setup is on the chain, but maybe the subscription authority. *)
Record chain_fresh (c : Chain) (place : SetupPlace) (next : Z) (account : pubkey) : Prop := {
  cf_next : default 0 (ch_policySeed c) + 1 = next;
  cf_policy : ch_accounts c account = None;
  cf_delegation : ch_accounts c (sp_recurringDelegation place) = None;
  cf_authority info : ch_accounts c (sp_subscriptionAuthority place) = Some info -> authority_good info;
}.

Lemma account_of settings seed : 0 <= seed <= MAX_SAFE_INTEGER -> resolvePolicyAccount smartAccountsProgramId settings seed = derivePda (PolicyPda settings seed) smartAccountsProgramId.
Proof. intros H. unfold resolvePolicyAccount, isSafeInteger. by replace ((- MAX_SAFE_INTEGER <=? seed) && (seed <=? MAX_SAFE_INTEGER)) with true by (unfold MAX_SAFE_INTEGER in *; lia). Qed.

(** A stage of a setup: what it prepares, for which account *)
Definition staged (args : SetupInput) (place : SetupPlace) (account : pubkey) (seed : Z) (stage : SetupStage) (prepared : Op) (s : Setup) : Prop :=
  exists terms requirement z evidence, s = setupResult args terms place account seed stage prepared requirement evidence /\ ns_requiredLamports requirement = bigint_toString z.

Lemma place_cluster cluster mint settings wallet nonce place : setupPlace smartAccountsProgramId cluster mint settings wallet nonce = Ok place -> sp_cluster place = cluster.
Proof. unfold setupPlace. intros H. inv_results. by subst. Qed.

(** The terms and keys of a stage *)
Lemma stage_begins connection settings clock args nonce place seed account evidence assume rents :
  input_ok args nonce -> clock_ok clock ->
  (exists mint, getStablecoinMintForCluster MainnetBeta USDC = Ok mint /\ setupPlace smartAccountsProgramId MainnetBeta mint (ai_settingsPda args) (ai_walletAddress args) nonce = Ok place) ->
  default 1 (ai_policySeed args) = seed -> 0 < seed <= MAX_SAFE_INTEGER -> derivePda (PolicyPda (ai_settingsPda args) seed) smartAccountsProgramId = Ok account ->
  exists terms, setupTerms args clock = Ok terms /\
    prepareEarnUsdcAutodepositSetupStage smartAccountsProgramId connection settings clock args evidence assume rents =
    nextStage smartAccountsProgramId connection settings clock args terms place (ai_policySeed args) account
      (e ← evidence; if isFreshAutodepositSetupAccountEvidence clock e then Some e else None) assume rents.
Proof.
  intros Hi Hc (mint & Hm & Hp) Eseed Hseed Hk. destruct (terms_ok _ _ _ Hi Hc) as (terms & Ht & _ & En & _). exists terms. split; [done|].
  unfold prepareEarnUsdcAutodepositSetupStage. pose proof (io_amount _ _ Hi). replace (ai_amountRaw args <=? 0) with false by lia. cbv zeta.
  rewrite (io_cluster _ _ Hi), Hm. cbn [mbind result_bind]. rewrite Ht. cbn [mbind result_bind]. rewrite En, Hp. cbn [mbind result_bind].
  assert (requestedSeed args = Ok (ai_policySeed args)) as ->.
  { unfold requestedSeed. destruct (ai_policySeed args) as [s|]; [|done]. cbn in Eseed. subst s. rewrite normalized by (unfold MAX_SAFE_INTEGER in Hseed; lia). done. }
  cbn [mbind result_bind]. rewrite Eseed, account_of, Hk by lia. by destruct evidence.
Qed.

Lemma stage_initialize connection settings clock args nonce place payload next account built c rents :
  setup_ready args nonce place payload next account built -> ai_policySeed args = None -> clock_ok clock -> answers connection (ch_accounts c) ->
  ch_accounts c (sp_subscriptionAuthority place) = None ->
  exists s key, prepareEarnUsdcAutodepositSetupStage smartAccountsProgramId connection settings clock args None false rents = Ok (s, rents) /\
    staged args place key 1 InitializeSubscriptionAuthority (initializeAuthorityOperation args place) s.
Proof.
  intros [Hi Hp _ _ _ (key & Hk) _ _] Hseed Hc Ha Hnone.
  destruct (stage_begins connection settings clock args nonce place 1 key None false rents Hi Hc Hp) as (terms & Ht & ->); [by rewrite Hseed|done|done|].
  unfold nextStage. cbn [evidenceInitId mbind option_bind]. rewrite (answers_read _ _ _ Ha), Hnone. cbn [mbind result_bind]. unfold initializeStage.
  destruct Hp as (mint & _ & Hp). rewrite (place_cluster _ _ _ _ _ _ Hp).
  destruct (requirement_ok connection (ai_feePayer args) (initializeAuthorityOperation args place)
    [rentCandidate (sp_subscriptionAuthority place) (Some false) SubscriptionAuthorityRent "Autodeposit subscription authority rent" SUBSCRIPTION_AUTHORITY_DATA_LEN
       "initialize_subscription_authority"] rents) as (r & z & -> & Hz). cbn [mbind result_bind]. rewrite Hseed. eexists _, key. split; [reflexivity|]. by eexists _, _, _, _.
Qed.

(** The plan where neither a delegation nor the policy's account was read *)
Lemma plan_next connection clock args nonce terms place authority evidenceId account seed state assume rents initId payload :
  input_ok args nonce -> clock_ok clock -> setupTerms args clock = Ok terms ->
  match authority with Some a => info_owner a = SUBSCRIPTIONS_PROGRAM_ID | None => True end ->
  match evidenceId, authority with Some i, _ => i = initId | None, Some a => readSubscriptionAuthorityInitId a = Ok initId | None, None => False end ->
  - 2 ^ 63 <= initId < 2 ^ 63 -> st_delegationAccount state = None -> st_policyAccountInfo state = None ->
  createSubscriptionSweepProgramInteractionPolicyCreationPayload (ai_walletAddress args) (sp_vaultPda place) (sp_usdcMint place) (sp_walletUsdcAta place)
    (sp_vaultUsdcAta place) (ai_amountRaw args) None = Ok payload ->
  exists ix da rest, programId ix = SUBSCRIPTIONS_PROGRAM_ID /\
    map meta_pubkey (keys ix) = ai_walletAddress args :: sp_subscriptionAuthority place :: sp_recurringDelegation place :: sp_vaultPda place :: rest /\
    d_create_delegation (data ix) = Some (da, []) /\ da_amount da = ai_amountRaw args /\
    planStage smartAccountsProgramId connection clock args terms place authority evidenceId account seed state assume rents =
    if assume || st_policyAccountExists state then createDelegationStage connection clock args terms place account seed initId state ix rents
    else createPolicyStage smartAccountsProgramId connection clock args terms place account seed initId state payload rents.
Proof.
  intros Hi Hc Ht Ho Hid Hr Hdel Hpol Hpay. destruct (terms_ok _ _ _ Hi Hc) as (terms' & Ht' & Ea & En & Ee & Ep & Hs). assert (terms' = terms) as -> by congruence.
  destruct (delegation_built args terms place initId) as (ix & da & rest & Hix & Hprog & Hkeys & Hda & Hamount); try done.
  { rewrite En. apply Hi. } { rewrite Ea. pose proof (io_amount _ _ Hi). lia. } { rewrite Ep. apply Hi. } { rewrite Ee. apply Hi. }
  exists ix, da, rest. split; [done|]. split; [done|]. split; [done|]. split; [congruence|]. unfold planStage.
  assert ((match authority with Some account => if key_equals (info_owner account) SUBSCRIPTIONS_PROGRAM_ID then Ok tt
           else throwError "Subscription authority is owned by an unexpected program." | None => Ok tt end) = Ok tt) as ->.
  { destruct authority; [|done]. unfold key_equals. by rewrite bool_decide_eq_true_2. }
  assert ((match evidenceId, authority with Some id, _ => Ok id | None, Some account => readSubscriptionAuthorityInitId account
           | None, None => throwError "Subscription authority init id is unavailable." end) = Ok initId) as -> by (destruct evidenceId; [by subst|]; by destruct authority).
  cbn [mbind result_bind]. rewrite Hpol, Hdel. cbn [mbind result_bind]. unfold sweepPayload. rewrite Ea, Hix, Hpay. done.
Qed.

Lemma stage_create_policy connection clock args nonce place payload next account built c rents info :
  setup_ready args nonce place payload next account built -> ai_policySeed args = None -> clock_ok clock -> answers connection (ch_accounts c) -> chain_fresh c place next account ->
  ch_accounts c (sp_subscriptionAuthority place) = Some info ->
  exists terms requirement z initId, prepareEarnUsdcAutodepositSetupStage smartAccountsProgramId connection (Ok (ch_policySeed c)) clock args None false rents =
      Ok (setupResult args terms place account next CreatePolicy (createPolicyOperation smartAccountsProgramId args built account next) requirement
            (createAccountEvidence clock place account next (Some false) (Some false) true (Some initId) true (Some (isPresent (ch_accounts c (sp_vaultUsdcAta place))))), rents) /\
    ns_requiredLamports requirement = bigint_toString z /\ setupTerms args clock = Ok terms /\ - 2 ^ 63 <= initId < 2 ^ 63.
Proof.
  intros [Hi Hp Hpay Hseed Hacc (key & Hk) Hb (len & Hl & Hfit)] Hnone Hc Ha [Hnext Hpol Hdel Hauth] Hinfo. destruct (Hauth _ Hinfo) as (Ho & Hd & Hbytes).
  destruct (init_id_read info Hd Hbytes) as (initId & Hid & Hidr).
  destruct (stage_begins connection (Ok (ch_policySeed c)) clock args nonce place 1 key None false rents Hi Hc Hp) as (terms & Ht & ->); [by rewrite Hnone|done|done|].
  unfold nextStage. cbn [evidenceInitId mbind option_bind]. rewrite (answers_read _ _ _ Ha), Hinfo, Hnone. cbn [mbind result_bind]. unfold settlePolicySeed. cbn [andb mbind result_bind].
  unfold resolveNextPolicySeed. cbv zeta. rewrite Hnext.
  replace (9007199254740991 <? next) with false by (unfold MAX_SAFE_INTEGER in Hseed; lia). cbn [mbind result_bind default from_option id]. rewrite account_of, Hacc by lia.
  cbn [mbind result_bind]. rewrite (state_read _ _ _ _ _ _ Ha). cbn [mbind result_bind].
  destruct (plan_next connection clock args nonce terms place (Some info) None account next (stateOf (ch_accounts c) place account) false rents initId payload Hi Hc Ht Ho Hid Hidr Hdel Hpol Hpay)
    as (ix & da & rest & _ & _ & _ & _ & ->). cbn [orb stateOf st_policyAccountExists]. rewrite Hpol. cbn [isPresent]. unfold createPolicyStage. rewrite Hb. cbn [mbind result_bind].
  unfold preparedPacketLength. rewrite Hl. cbn [mbind result_bind]. replace (EARN_POLICY_PACKET_DATA_SIZE <? len) with false by lia.
  destruct Hp as (mint & _ & Hp). rewrite (place_cluster _ _ _ _ _ _ Hp).
  match goal with |- context [setupRequirement ?a ?b ?c ?d ?e ?f] => destruct (requirement_ok a c d e f) as (r & z & -> & Hz) end. cbn [mbind result_bind stateOf st_delegationAccount st_vaultUsdcAtaExists].
  rewrite Hdel. eexists _, _, _, _. split; [reflexivity|]. done.
Qed.

(** The stage that follows in a batch, on what the first one observed or on the chain again *)
Lemma stage_delegation connection settings clock clock' args args' nonce place payload next account built c rents initId observed info :
  setup_ready args nonce place payload next account built -> input_ok args' nonce -> clock_ok clock -> answers connection (ch_accounts c) -> chain_fresh c place next account ->
  ch_accounts c (sp_subscriptionAuthority place) = Some info -> - 2 ^ 63 <= initId < 2 ^ 63 -> ai_policySeed args' = Some next ->
  ai_settingsPda args' = ai_settingsPda args -> ai_walletAddress args' = ai_walletAddress args -> ai_amountRaw args' = ai_amountRaw args ->
  exists s ix da rest, prepareEarnUsdcAutodepositSetupStage smartAccountsProgramId connection settings clock args'
      (Some (createAccountEvidence clock' place account next (Some false) (Some false) true (Some initId) true (Some observed))) true rents = Ok (s, rents) /\
    staged args' place account next CreateRecurringDelegation (createDelegationOperation args' place ix) s /\ programId ix = SUBSCRIPTIONS_PROGRAM_ID /\
    map meta_pubkey (keys ix) = ai_walletAddress args' :: sp_subscriptionAuthority place :: sp_recurringDelegation place :: sp_vaultPda place :: rest /\
    d_create_delegation (data ix) = Some (da, []) /\ da_amount da = ai_amountRaw args.
Proof.
  intros [_ Hp Hpay Hseed Hacc _ _ _] Hi Hc Ha [Hnext Hpol Hdel Hauth] Hinfo Hidr Eseed Es Ew Ea. destruct (Hauth _ Hinfo) as (Ho & Hd & Hbytes).
  set (evidence := createAccountEvidence _ _ _ _ _ _ _ _ _ _).
  destruct (stage_begins connection settings clock args' nonce place next account (Some evidence) true rents Hi Hc) as (terms & Ht & ->);
    [by rewrite Es, Ew|by rewrite Eseed|done|by rewrite Es|]. rewrite <- Ew, <- Ea in Hpay.
  assert (Hfinish : forall i state ix, exists s, createDelegationStage connection clock args' terms place account next i state ix rents = Ok (s, rents) /\
    staged args' place account next CreateRecurringDelegation (createDelegationOperation args' place ix) s).
  { intros i state ix. unfold createDelegationStage. destruct Hp as (mint & _ & Hp). rewrite (place_cluster _ _ _ _ _ _ Hp).
    match goal with |- context [setupRequirement ?a ?b ?c ?d ?e ?f] => destruct (requirement_ok a c d e f) as (r & z & -> & Hz) end. cbn [mbind result_bind].
    eexists. split; [reflexivity|]. by eexists _, _, _, _. }
  cbn [mbind option_bind]. destruct (isFreshAutodepositSetupAccountEvidence clock evidence).
  - unfold nextStage. assert (Hbase : baseEvidenceMatches place evidence = true) by (unfold baseEvidenceMatches; cbn; by rewrite !String.eqb_refl).
    assert (evidenceInitId place (Some evidence) = Some initId) as Hev.
    { unfold evidenceInitId. rewrite Hbase. cbn. by rewrite BigInt_toString_roundtrip. }
    rewrite Hev, Eseed. cbn [mbind result_bind]. unfold settlePolicySeed. cbn [andb isPresent mbind result_bind]. unfold readSetupAccountState. rewrite Hbase.
    rewrite !bool_decide_eq_true_2 by done. cbn [andb orb isFalse isPresent createAccountEvidence sae_recurringDelegationExists sae_vaultUsdcAtaExists sae_policyExists evidence mbind result_bind].
    set (state := Build_EarnAutodepositSetupAccountState _ _ _ _ _).
    destruct (plan_next connection clock args' nonce terms place None (Some initId) account next state true rents initId payload) as (ix & da & rest & H1 & H2 & H3 & H4 & E); try done.
    destruct (Hfinish initId state ix) as (s & Hs & Hst). exists s, ix, da, rest. split; [|by rewrite <- Ea]. cbn [default from_option id]. by rewrite E.
  - destruct (init_id_read info Hd Hbytes) as (initId' & Hid' & Hidr'). unfold nextStage. cbn [evidenceInitId]. rewrite (answers_read _ _ _ Ha), Hinfo, Eseed.
    cbn [mbind result_bind]. unfold settlePolicySeed. cbn [andb isPresent mbind result_bind default from_option id]. rewrite (state_read _ _ _ _ _ _ Ha). cbn [mbind result_bind].
    destruct (plan_next connection clock args' nonce terms place (Some info) None account next (stateOf (ch_accounts c) place account) true rents initId' payload)
      as (ix & da & rest & H1 & H2 & H3 & H4 & E); try done.
    destruct (Hfinish initId' (stateOf (ch_accounts c) place account) ix) as (s & Hs & Hst). exists s, ix, da, rest. split; [|by rewrite <- Ea]. by rewrite E.
Qed.

(** ** A batch *)
Lemma batch_initialize connection settings settings' clock clock' batchNow args nonce place payload next account built c rents :
  setup_ready args nonce place payload next account built -> ai_policySeed args = None -> clock_ok clock -> answers connection (ch_accounts c) ->
  ch_accounts c (sp_subscriptionAuthority place) = None ->
  exists s key, prepareEarnUsdcAutodepositSetupBatch smartAccountsProgramId connection settings settings' clock clock' batchNow args rents = Ok ([s], rents) /\
    staged args place key 1 InitializeSubscriptionAuthority (initializeAuthorityOperation args place) s.
Proof.
  intros Hr Hseed Hc Ha Hnone. destruct (stage_initialize connection settings clock args nonce place payload next account built c rents Hr Hseed Hc Ha Hnone) as (s & key & E & Hs).
  exists s, key. split; [|done]. unfold prepareEarnUsdcAutodepositSetupBatch. rewrite E. cbn [mbind result_bind]. unfold prepareEarnUsdcAutodepositSetupBatchFromPrepared.
  destruct Hs as (? & ? & ? & ? & -> & _). done.
Qed.

Lemma continued_ok args nonce clock terms place account seed stage prepared requirement evidence batchNow : input_ok args nonce -> clock_ok clock -> setupTerms args clock = Ok terms ->
  0 <= batchNow < 2 ^ 63 ->
  input_ok (continueWith args (setupResult args terms place account seed stage prepared requirement evidence)
    (resolveEarnAutodepositBatchStartTimestamp batchNow false (ai_startTimestamp args))) nonce.
Proof.
  intros Hi Hc Ht Hb. destruct (terms_ok _ _ _ Hi Hc) as (terms' & Ht' & _ & En & Ee & Ep & _). assert (terms' = terms) as -> by congruence. destruct Hi as [Ha Hm Hp [En' Hn] Hs He Hcl].
  constructor; cbn [ai_amountRaw ai_minimumDelegatorBalanceRaw ai_periodLengthSeconds ai_nonce ai_startTimestamp ai_expiryTimestamp ai_cluster continueWith setupResult as_subscription pes_setup
    sub_nonce sub_periodLengthSeconds sub_expiryTimestamp default from_option id]; try done.
  - by rewrite Ep.
  - by rewrite En.
  - unfold resolveEarnAutodepositBatchStartTimestamp, secondsOf, EARN_AUTODEPOSIT_BATCH_IMMEDIATE_START_BUFFER_SECONDS.
    destruct (ai_startTimestamp args); cbn [default from_option id] in *; [done|]. assert (0 <= batchNow / 1000 < 2 ^ 62) by (split; [apply Z.div_pos; lia|apply Z.div_lt_upper_bound; lia]). lia.
  - by rewrite Ee.
Qed.

Lemma batch_create connection settings' clock clock' batchNow args nonce place payload next account built c rents info :
  setup_ready args nonce place payload next account built -> ai_policySeed args = None -> clock_ok clock -> clock_ok clock' -> 0 <= batchNow < 2 ^ 63 ->
  answers connection (ch_accounts c) -> chain_fresh c place next account -> ch_accounts c (sp_subscriptionAuthority place) = Some info ->
  exists s1 s2 args' ix da rest,
    prepareEarnUsdcAutodepositSetupBatch smartAccountsProgramId connection (Ok (ch_policySeed c)) settings' clock clock' batchNow args rents = Ok ([s1; s2], rents) /\
    staged args place account next CreatePolicy (createPolicyOperation smartAccountsProgramId args built account next) s1 /\
    staged args' place account next CreateRecurringDelegation (createDelegationOperation args' place ix) s2 /\ programId ix = SUBSCRIPTIONS_PROGRAM_ID /\
    map meta_pubkey (keys ix) = ai_walletAddress args :: sp_subscriptionAuthority place :: sp_recurringDelegation place :: sp_vaultPda place :: rest /\
    d_create_delegation (data ix) = Some (da, []) /\ da_amount da = ai_amountRaw args.
Proof.
  intros Hr Hseed Hc Hc' Hb Ha Hf Hinfo.
  destruct (stage_create_policy connection clock args nonce place payload next account built c rents info Hr Hseed Hc Ha Hf Hinfo) as (terms & r & z & initId & E & Hz & Ht & Hid).
  match type of E with _ = Ok (?first, _) => set (s1 := first) in E end.
  set (args' := continueWith args s1 (resolveEarnAutodepositBatchStartTimestamp batchNow false (ai_startTimestamp args))).
  destruct (stage_delegation connection settings' clock' clock args args' nonce place payload next account built c rents initId (isPresent (ch_accounts c (sp_vaultUsdcAta place))) info)
    as (s2 & ix & da & rest & E2 & Hs2 & H); try done.
  { apply (continued_ok args nonce clock terms); [apply Hr|done..]. }
  exists s1, s2, args', ix, da, rest. split; [|split; [by eexists _, _, _, _|by split]].
  unfold prepareEarnUsdcAutodepositSetupBatch. rewrite E. cbn [mbind result_bind]. unfold prepareEarnUsdcAutodepositSetupBatchFromPrepared.
  change (isStage CreatePolicy s1) with true. cbn [negb]. change (pes_accountEvidence s1) with
    (Some (createAccountEvidence clock place account next (Some false) (Some false) true (Some initId) true (Some (isPresent (ch_accounts c (sp_vaultUsdcAta place)))))).
  fold args'. rewrite E2. cbn [mbind result_bind]. destruct Hs2 as (? & ? & ? & ? & -> & _). done.
Qed.

(** ** The artifacts at the end *)
Definition checkOf (args : SetupInput) (nonce : Z) (place : SetupPlace) (next : Z) (account : pubkey) : CanonicalArtifactsInput := {|
  ca_settingsPda := ai_settingsPda args; ca_walletAddress := ai_walletAddress args; ca_policySigner := ai_policySigner args; ca_policy := account; ca_policySeed := next;
  ca_recurringDelegation := sp_recurringDelegation place; ca_nonce := nonce; ca_amountRaw := ai_amountRaw args; ca_cluster := Some MainnetBeta; ca_requirePolicy := None;
  ca_requireRecurringDelegation := None |}.

Lemma key_itself k : key_equals k k = true.
Proof. by apply bool_decide_eq_true_2. Qed.

Lemma policy_passes check amount mint vault walletAta vaultAta payload policy :
  createSubscriptionSweepProgramInteractionPolicyCreationPayload (ca_walletAddress check) vault mint walletAta vaultAta amount None = Ok payload ->
  policy = {| oc_settings := ca_settingsPda check; oc_seed := ca_policySeed check; oc_threshold := 1; oc_timeLock := 0; oc_signers := [createPolicySigner (ca_policySigner check)];
              oc_policyState := createdState payload |} ->
  assertCanonicalPolicy localeCompare check amount mint vault walletAta vaultAta policy = Ok tt.
Proof.
  intros Hpay ->. unfold assertCanonicalPolicy. cbn [oc_settings oc_seed oc_threshold oc_timeLock oc_signers oc_policyState sr_key createPolicySigner].
  rewrite !key_itself, !Z.eqb_refl. cbn [requireThat mbind result_bind]. rewrite Hpay.
  change (stateValue (createdState payload)) with (genState (py_accountIndex payload) (py_instructionsConstraints payload)). unfold generatedValuesEqual.
  replace (mapR _ _) with (Ok [tt; tt; tt]) by reflexivity. cbn [mbind result_bind]. by rewrite bool_decide_eq_true_2.
Qed.

Lemma created_passes connection accounts args nonce place payload next account built info dinfo :
  setup_ready args nonce place payload next account built -> answers connection accounts -> accounts account = Some info ->
  policyFromAccountInfo info = Ok {| oc_settings := ai_settingsPda args; oc_seed := next; oc_threshold := 1; oc_timeLock := 0; oc_signers := [createPolicySigner (ai_policySigner args)];
    oc_policyState := createdState payload |} ->
  accounts (sp_recurringDelegation place) = Some dinfo -> Forall is_byte (info_data dinfo) ->
  canonical_delegation dinfo (ai_walletAddress args) (sp_vaultPda place) (sp_subscriptionAuthority place) (sp_usdcMint place) (ai_amountRaw args) ->
  assertEarnUsdcAutodepositCanonicalArtifacts localeCompare smartAccountsProgramId connection (checkOf args nonce place next account) = Ok tt.
Proof.
  intros [Hi (mint & Hm & Hp) Hpay Hseed Hacc _ _ _] Ha Hinfo Hpolicy Hd Hdb Hcan. unfold assertEarnUsdcAutodepositCanonicalArtifacts, checkOf.
  cbn [ca_amountRaw ca_nonce ca_policySeed ca_cluster ca_settingsPda ca_policy ca_walletAddress ca_requirePolicy ca_requireRecurringDelegation ca_recurringDelegation default from_option id negb].
  pose proof (io_amount _ _ Hi). rewrite (normalized (ai_amountRaw args)) by lia. cbn [mbind result_bind]. rewrite normalized by apply Hi. cbn [mbind result_bind].
  replace ((next <=? 0) || (9007199254740991 <? next)) with false by (unfold MAX_SAFE_INTEGER in Hseed; lia). rewrite Hm. cbn [mbind result_bind].
  unfold setupPlace in Hp. apply bind_Ok in Hp as (vault & Hv & Hp). apply bind_Ok in Hp as (walletAta & Hwa & Hp). apply bind_Ok in Hp as (vaultAta & Hva & Hp).
  apply bind_Ok in Hp as (authority & Hau & Hp). apply bind_Ok in Hp as (delegation & Hde & Hp). injection Hp as <-.
  cbn [sp_vaultPda sp_usdcMint sp_walletUsdcAta sp_vaultUsdcAta sp_subscriptionAuthority sp_recurringDelegation] in *.
  rewrite Hv. cbn [mbind result_bind]. rewrite Hacc. cbn [mbind result_bind]. rewrite key_itself. cbn [requireThat mbind result_bind].
  rewrite Hwa, Hva. cbn [mbind result_bind]. unfold fetchPolicy. rewrite !(answers_read _ _ _ Ha), Hinfo. cbn [mbind result_bind]. rewrite Hpolicy. cbn [mbind result_bind].
  rewrite (policy_passes _ _ _ _ _ _ payload); [|exact Hpay|reflexivity].
  cbn [mbind result_bind]. rewrite Hau. cbn [mbind result_bind]. rewrite Hde. cbn [mbind result_bind]. rewrite key_itself.
  cbn [requireThat mbind result_bind]. apply delegation_canonical; [intros a Ea; congruence|]. by exists dinfo.
Qed.

(** ** The rounds *)
(** The world answers from a chain, on which what is sent lands. *)
Record world_ok (observe : World -> Round) (view : World -> Chain) : Prop := {
  wo_answers w : answers (rd_connection (observe w)) (ch_accounts (view w));
  wo_settings w : rd_settings (observe w) = Ok (ch_policySeed (view w));
  wo_clocks w : clock_ok (rd_clock (observe w)) /\ clock_ok (rd_batchClock (observe w)) /\ 0 <= rd_batchNow (observe w) < 2 ^ 63;
  wo_lands w ops w' : rd_send (observe w) ops = Ok w' -> lands_all ops (view w) (view w');
}.

(** What stops a setup from outside: the balance, a send or a confirmation *)
Inductive outside (observe : World -> Round) : exn -> Prop :=
  | outside_balance w e : rd_balance (observe w) = Throw e -> outside observe e
  | outside_poor w balance stages required : foldR addRequired 0 stages = Ok required -> rd_balance (observe w) = Ok balance -> balance < required ->
      outside observe (notEnoughSol (required - balance))
  | outside_send w ops e : rd_send (observe w) ops = Throw e -> outside observe e
  | outside_confirm w stage attempt e : rd_confirm (observe w) stage attempt = ConfirmFailed e \/ rd_confirm (observe w) stage attempt = UnconfirmedSignature e -> outside observe e.

Definition required_reads (s : Setup) : Prop := exists z, ns_requiredLamports (as_nativeSolRequirement (pes_setup s)) = bigint_toString z.

Lemma staged_reads args place account seed stage prepared s : staged args place account seed stage prepared s ->
  required_reads s /\ as_stage (pes_setup s) = stage /\ as_prepared (pes_setup s) = prepared /\ as_policySeed (pes_setup s) = Some seed.
Proof. intros (? & ? & z & ? & -> & Hz). split; [by exists z|done]. Qed.

Lemma required_total stages total : Forall required_reads stages -> exists t, foldR addRequired total stages = Ok t.
Proof.
  intros H. revert total. induction H as [|s stages (z & Hz) _ IH]; intros total; cbn [foldR]; [by exists total|]. 
  assert (addRequired total s = Ok (total + z)) as -> by (unfold addRequired; by rewrite Hz, BigInt_toString_roundtrip). apply IH.
Qed.

Lemma retries_outside observe w stage attempt remaining e : retryUnconfirmed (rd_confirm (observe w) stage) attempt remaining = Throw e -> outside observe e.
Proof.
  revert attempt. induction remaining as [|n IH]; intros attempt; cbn [retryUnconfirmed]; destruct (rd_confirm (observe w) stage attempt) eqn:E; try done.
  all: try apply IH; intros [= ->]; eapply outside_confirm; rewrite E; (by left) || (by right).
Qed.

Lemma confirms observe w seed stages e : foldR (confirmStage (observe w)) seed stages = Throw e -> Forall (fun s => isPresent (as_policySeed (pes_setup s)) = true) stages -> outside observe e.
Proof.
  revert seed. induction stages as [|s stages IH]; intros seed H Hs; cbn [foldR] in H; [done|]. apply Forall_cons in Hs as [Hs Hl].
  destruct (confirmStage (observe w) seed s) as [seed'|] eqn:E; [by eapply IH|]. injection H as ->. unfold confirmStage in E.
  destruct (withUnconfirmedRetry (rd_confirm (observe w) s)) eqn:Er; cbn [mbind result_bind] in E.
  - unfold threadSeed in E. destruct (isStage _ s); [done|]. by destruct (as_policySeed (pes_setup s)).
  - injection E as ->. by eapply retries_outside.
Qed.

(** A round whose batch is prepared: stopped from outside, or sent and confirmed *)
Lemma round_runs observe n w args seed rents stages rents' :
  prepareEarnUsdcAutodepositSetupBatch smartAccountsProgramId (rd_connection (observe w)) (rd_settings (observe w)) (rd_batchSettings (observe w)) (rd_clock (observe w))
    (rd_batchClock (observe w)) (rd_batchNow (observe w)) (withSeed args seed) rents = Ok (stages, rents') ->
  stages <> [] -> Forall required_reads stages -> Forall (fun s => isPresent (as_policySeed (pes_setup s)) = true) stages ->
  (exists e, setupRounds observe (S n) w args seed rents = Throw e /\ outside observe e) \/
  exists w' seed', rd_send (observe w) (map (fun stage => as_prepared (pes_setup stage)) stages) = Ok w' /\ foldR (confirmStage (observe w)) seed stages = Ok seed' /\
    setupRounds observe (S n) w args seed rents = if finishes stages then Ok ([stages], w')
      else '(later, final) ← setupRounds observe n w' args seed' rents'; Ok (stages :: later, final).
Proof.
  intros Hb Hne Hr Hs. cbn [setupRounds]. rewrite Hb. cbn [mbind result_bind]. destruct stages as [|s stages]; [done|]. destruct (required_total _ 0 Hr) as (required & Ht).
  rewrite Ht. cbn [mbind result_bind]. destruct (checkSol (rd_balance (observe w)) required) as [[]|e] eqn:Ec.
  2:{ left. exists e. split; [done|]. unfold checkSol in Ec. destruct (0 <? required); [|done]. destruct (rd_balance (observe w)) as [b|] eqn:Eb; cbn [mbind result_bind] in Ec.
      - destruct (Z.ltb_spec b required); [|done]. injection Ec as <-. by eapply outside_poor.
      - injection Ec as ->. by eapply outside_balance. }
  cbn [mbind result_bind]. destruct (rd_send (observe w) _) as [w'|e] eqn:Esend; [|left; exists e; split; [done|by eapply outside_send]]. cbn [mbind result_bind].
  destruct (foldR (confirmStage (observe w)) seed (s :: stages)) as [seed'|e] eqn:Ef; [|left; exists e; split; [done|by eapply confirms]].
  right. exists w', seed'. done.
Qed.

Lemma withSeed_none args : ai_policySeed args = None -> withSeed args None = args.
Proof. destruct args. cbn. by intros ->. Qed.

(** How a finished setup ended *)
Definition completed (observe : World -> Round) (args : SetupInput) (nonce : Z) (place : SetupPlace) (next : Z) (account : pubkey) (rounds : list (list Setup))
    (final : World) : Prop :=
  exists policyStage delegationStage, isStage CreatePolicy policyStage = true /\ isStage CreateRecurringDelegation delegationStage = true /\
    (rounds = [[policyStage; delegationStage]] \/
     exists authorityStage, isStage InitializeSubscriptionAuthority authorityStage = true /\ rounds = [[authorityStage]; [policyStage; delegationStage]]) /\
    assertEarnUsdcAutodepositCanonicalArtifacts localeCompare smartAccountsProgramId (rd_connection (observe final)) (checkOf args nonce place next account) = Ok tt.

(** A policy and a delegation that land pass the check. *)
Lemma landed_passes observe view args args' nonce place payload next account built c w' ix da rest :
  world_ok observe view -> setup_ready args nonce place payload next account built -> programId ix = SUBSCRIPTIONS_PROGRAM_ID ->
  map meta_pubkey (keys ix) = ai_walletAddress args :: sp_subscriptionAuthority place :: sp_recurringDelegation place :: sp_vaultPda place :: rest ->
  d_create_delegation (data ix) = Some (da, []) -> da_amount da = ai_amountRaw args ->
  lands_all [createPolicyOperation smartAccountsProgramId args built account next; createDelegationOperation args' place ix] c (view w') ->
  assertEarnUsdcAutodepositCanonicalArtifacts localeCompare smartAccountsProgramId (rd_connection (observe w')) (checkOf args nonce place next account) = Ok tt.
Proof.
  intros Hw Hr Hprog Hkeys Hda Hamount (c1 & H1 & c2 & H2 & Ec). cbn [lands_all] in Ec. subst c2. pose proof Hr as [Hi (mint & Hm & Hp) Hpay Hseed Hacc _ Hb _].
  destruct (land_policy _ _ _ H1 _ _ _ _ _ _ _ account Hb eq_refl eq_refl Hacc) as ((info & policy & Hinfo & Howner & Hpolicy & ->) & _).
  destruct (land_delegation _ _ _ H2 _ _ _ _ _ _ _ _ _ eq_refl Hprog Hkeys Hda) as ((dinfo & Hdinfo & Hdb & Hcan) & _ & Hkeep).
  assert (deriveSubscriptionAuthority (ai_walletAddress args) (sp_usdcMint place) = Ok (sp_subscriptionAuthority place)) as Hau.
  { unfold setupPlace in Hp. inv_results. by subst place. }
  assert (sp_usdcMint place = mint) as Em by (unfold setupPlace in Hp; inv_results; by subst place). rewrite <- Em in Hm. specialize (Hcan _ Hm Hau). rewrite Hamount in Hcan.
  by eapply created_passes; [exact Hr|apply Hw|by apply Hkeep|exact Hpolicy|exact Hdinfo|..].
Qed.

Lemma rounds_create observe view n w args nonce place payload next account built rents info :
  world_ok observe view -> setup_ready args nonce place payload next account built -> ai_policySeed args = None -> chain_fresh (view w) place next account ->
  ch_accounts (view w) (sp_subscriptionAuthority place) = Some info ->
  match setupRounds observe (S n) w args None rents with
  | Ok (rounds, w') => exists p d, isStage CreatePolicy p = true /\ isStage CreateRecurringDelegation d = true /\ rounds = [[p; d]] /\
      assertEarnUsdcAutodepositCanonicalArtifacts localeCompare smartAccountsProgramId (rd_connection (observe w')) (checkOf args nonce place next account) = Ok tt
  | Throw e => outside observe e
  end.
Proof.
  intros Hw Hr Hseed Hf Hinfo. destruct (wo_clocks _ _ Hw w) as (Hc & Hc' & Hb).
  destruct (batch_create (rd_connection (observe w)) (rd_batchSettings (observe w)) (rd_clock (observe w)) (rd_batchClock (observe w)) (rd_batchNow (observe w)) args nonce place payload next account
    built (view w) rents info Hr Hseed Hc Hc' Hb (wo_answers _ _ Hw w) Hf Hinfo) as (s1 & s2 & args' & ix & da & rest & E & H1 & H2 & Hprog & Hkeys & Hda & Hamount).
  rewrite <- (wo_settings _ _ Hw) in E. apply staged_reads in H1 as (R1 & T1 & P1 & D1), H2 as (R2 & T2 & P2 & D2).
  destruct (round_runs observe n w args None rents [s1; s2] rents) as [(e & -> & He)|(w' & seed' & Hsend & _ & ->)]; [by rewrite withSeed_none|done|by repeat constructor| |done|].
  { repeat constructor; [by rewrite D1|by rewrite D2]. }
  assert (isStage CreatePolicy s1 = true /\ isStage CreateRecurringDelegation s2 = true) as [I1 I2] by (unfold isStage; by rewrite T1, T2).
  unfold finishes. cbn [last]. rewrite I2. cbn [orb]. exists s1, s2. split; [done|]. split; [done|]. split; [done|]. apply (wo_lands _ _ Hw) in Hsend. cbn [map] in Hsend. rewrite P1, P2 in Hsend.
  by eapply landed_passes.
Qed.

(** An authority that lands leaves the rest of the setup to do. *)
Lemma landed_authority c c' args nonce place payload next account built : setup_ready args nonce place payload next account built ->
  lands (initializeAuthorityOperation args place) c c' -> chain_fresh c place next account ->
  account <> sp_subscriptionAuthority place -> account <> sp_walletUsdcAta place -> sp_recurringDelegation place <> sp_subscriptionAuthority place ->
  sp_recurringDelegation place <> sp_walletUsdcAta place ->
  chain_fresh c' place next account /\ exists info, ch_accounts c' (sp_subscriptionAuthority place) = Some info.
Proof.
  intros Hr Hl [Hn Hp Hd Ha] N1 N2 N3 N4. destruct (land_initialize _ _ _ Hl _ (ai_walletAddress args) (sp_subscriptionAuthority place) (sp_usdcMint place) (sp_walletUsdcAta place) _ eq_refl eq_refl eq_refl eq_refl) as ((info & Hi & Ho & Hlen & Hb) & Hs & Hk).
  split; [|by exists info]. constructor; [by rewrite Hs|by rewrite Hk|by rewrite Hk|]. intros i Hi'. assert (i = info) as -> by congruence. done.
Qed.

End AutodepositLoop.

(** ** The setup of a wallet *)
Section Setup.
Context {PK : PublicKeys} {SPL : SplToken PK} {KB : KeyBytes PK} {B : BeetUints} {TL : TokenLayouts PK} {CB : ClientBuilders}.
Context (localeCompare : string -> string -> Z) (solText : Z -> string) {World : Type}.
#[local] Abbreviation Setup := (PreparedEarnUsdcAutodepositSetup (diagnostics := EarnPolicyCreateDiagnostics)).

Definition EARN_AUTODEPOSIT_DEFAULT_AMOUNT_PER_PERIOD_USDC := 100000.
Definition USDC_DECIMALS := 6.
Definition DEFAULT_AMOUNT_PER_PERIOD_RAW := EARN_AUTODEPOSIT_DEFAULT_AMOUNT_PER_PERIOD_USDC * 10 ^ USDC_DECIMALS.

(** [BigInt(number)] *)
Definition BigInt_of_number (x : f64) : result Z :=
  let notInteger := Throw (Exn "RangeError" "The number cannot be converted to a BigInt because it is not an integer") in
  match x with
  | S754_zero _ => Ok 0
  | S754_finite s m e =>
      let signed z := if s then - z else z in
      if 0 <=? e then Ok (signed (Z.pos m * 2 ^ e)) else if Z.pos m mod 2 ^ (- e) =? 0 then Ok (signed (Z.pos m / 2 ^ (- e))) else notInteger
  | _ => notInteger
  end.

Definition thresholdUsdToRaw (thresholdUsd : f64) : result Z :=
  match thresholdUsd with
  | S754_infinity _ | S754_nan => throwError "Autodeposit threshold must be zero or greater."
  | _ => if f64_gt f64_zero thresholdUsd then throwError "Autodeposit threshold must be zero or greater."
         else BigInt_of_number (f64_round (f64_mul thresholdUsd (f64_of_Z (10 ^ USDC_DECIMALS))))
  end.

(** What the backend answers for a wallet *)
Record EarnAutodepositStateResponse := {
  er_autodeposit : option SetupTarget;
  er_policySigner : option string;
  er_programId : string;
  er_settingsPda : option string;
}.

Record AutodepositPrepareContext := {
  px_cluster : LoyalCluster;
  px_policySigner : pubkey;
  px_programId : pubkey;
  px_settingsPda : pubkey;
}.

Definition loadAutodepositPrepareContext (env : string) (answer : result EarnAutodepositStateResponse) : result (AutodepositPrepareContext * EarnAutodepositStateResponse) :=
  state ← answer;
  if negb (truthy (er_settingsPda state)) then throwError "No provisioned smart account for this wallet."
  else if negb (truthy (er_policySigner state)) then throwError "Autodeposit isn't available right now — the backend didn't provide prepare parameters."
  else
    cluster ← resolveLoyalClusterForSolanaEnv env;
    policySigner ← newPublicKey (default EmptyString (er_policySigner state));
    programId ← newPublicKey (er_programId state);
    settingsPda ← newPublicKey (default EmptyString (er_settingsPda state));
    Ok ({| px_cluster := cluster; px_policySigner := policySigner; px_programId := programId; px_settingsPda := settingsPda |}, state).

Definition setupInput (context : AutodepositPrepareContext) (walletAddress : pubkey) (walletBalanceFloorRaw nonce : Z) (period start expiry : option Z) : SetupInput := {|
  ai_settingsPda := px_settingsPda context; ai_walletAddress := walletAddress; ai_feePayer := walletAddress; ai_signer := walletAddress;
  ai_policySigner := px_policySigner context; ai_amountRaw := DEFAULT_AMOUNT_PER_PERIOD_RAW; ai_minimumDelegatorBalanceRaw := Some walletBalanceFloorRaw;
  ai_cluster := Some (px_cluster context); ai_nonce := Some nonce; ai_policySeed := None; ai_periodLengthSeconds := period; ai_startTimestamp := start;
  ai_expiryTimestamp := expiry; ai_memo := None |}.

(** [session] is the answer of [ensureEarnSession]; [nowMs] is the time when a new nonce is drawn. *)
Definition runEarnAutodepositSetup (observe : World -> Round (World := World)) (world : World) (env : string) (walletAddress : pubkey) (thresholdUsd : f64)
    (answer : result EarnAutodepositStateResponse) (session : result (option string)) (nowMs : Z) (rents : list (string * Z)) : result (list (list Setup) * World) :=
  walletBalanceFloorRaw ← thresholdUsdToRaw thresholdUsd;
  '(context, state) ← loadAutodepositPrepareContext env answer;
  let target := er_autodeposit state in
  if match target with Some t => String.eqb (tg_lifecycleStatus t) "active" | None => false end
  then throwError "An Autodeposit is already active for this wallet. Delete it before creating a new one."
  else
    let resume := resumeOf target in
    nonce ← match resume with Some t => BigInt_of_string (default EmptyString (tg_nonce t)) | None => Ok nowMs end;
    policySeed ← match resume with Some t => z ← BigInt_of_string (default EmptyString (tg_policySeed t)); Ok (Some z) | None => Ok None end;
    period ← bigintOf (t ← resume; tg_periodLengthSeconds t);
    start ← bigintOf (t ← resume; tg_startTimestamp t);
    expiry ← bigintOf (t ← resume; tg_expiryTimestamp t);
    _ ← session;
    setupRounds (px_programId context) solText observe MAX_SETUP_STAGES world (setupInput context walletAddress walletBalanceFloorRaw nonce period start expiry) policySeed rents.

Context {Laws : PublicKeyLaws PK} {KL : KeyBytesLaws PK KB}.

(** The keys a setup writes are apart. *)
Record keys_apart (place : SetupPlace) (account : pubkey) : Prop := {
  ka_policy : account <> sp_subscriptionAuthority place /\ account <> sp_walletUsdcAta place;
  ka_delegation : sp_recurringDelegation place <> sp_subscriptionAuthority place /\ sp_recurringDelegation place <> sp_walletUsdcAta place;
}.

(** The rounds of a new setup *)
Lemma rounds_complete (program : pubkey) (observe : World -> Round) (view : World -> Chain) w args nonce place payload next account built rents :
  world_ok program observe view -> setup_ready program args nonce place payload next account built -> chain_fresh (view w) place next account -> keys_apart place account ->
  ai_policySeed args = None ->
  match setupRounds program solText observe MAX_SETUP_STAGES w args None rents with
  | Ok (rounds, final) => completed localeCompare program observe args nonce place next account rounds final
  | Throw e => outside solText observe e
  end.
Proof.
  intros Hw Hr Hf [[N1 N2] [N3 N4]] Hnone. change MAX_SETUP_STAGES with (S (S 2)). destruct (ch_accounts (view w) (sp_subscriptionAuthority place)) as [info|] eqn:Hinfo.
  - pose proof (rounds_create localeCompare program solText observe view 3 w args nonce place payload next account built rents info Hw Hr Hnone Hf Hinfo) as H.
    destruct (setupRounds program solText observe 4 w args None rents) as [[rounds final]|]; [|done]. destruct H as (p & d & Hp & Hd & -> & Hok). exists p, d. by split_and!; [..|left|].
  - destruct (wo_clocks _ _ _ Hw w) as (Hc & _).
    destruct (batch_initialize program (rd_connection (observe w)) (rd_settings (observe w)) (rd_batchSettings (observe w)) (rd_clock (observe w)) (rd_batchClock (observe w)) (rd_batchNow (observe w)) args nonce
      place payload next account built (view w) rents Hr Hnone Hc (wo_answers _ _ _ Hw w) Hinfo) as (s & key & E & Hs). apply staged_reads in Hs as (R & T & P & D).
    destruct (round_runs program solText observe 3 w args None rents [s] rents) as [(e & -> & He)|(w' & seed' & Hsend & Hseed & ->)]; [by rewrite withSeed_none|done|by repeat constructor| |done|].
    { repeat constructor. by rewrite D. }
    assert (isStage InitializeSubscriptionAuthority s = true) as I by (unfold isStage; by rewrite T).
    assert (finishes [s] = false) as -> by (unfold finishes, isStage; cbn [last]; by rewrite T).
    assert (seed' = None) as ->.
    { cbn [foldR] in Hseed. unfold confirmStage, threadSeed in Hseed. rewrite I in Hseed.
      destruct (withUnconfirmedRetry _); cbn [mbind result_bind] in Hseed; [by injection Hseed|done]. }
    apply (wo_lands _ _ _ Hw) in Hsend. cbn [map lands_all] in Hsend. rewrite P in Hsend. destruct Hsend as (c1 & Hl & Ec).
    destruct (landed_authority program _ _ args nonce place payload next account built Hr Hl Hf N1 N2 N3 N4) as (Hf' & info' & Hinfo'). rewrite <- Ec in Hf', Hinfo'.
    pose proof (rounds_create localeCompare program solText observe view 2 w' args nonce place payload next account built rents info' Hw Hr Hnone Hf' Hinfo') as H.
    destruct (setupRounds program solText observe 3 w' args None rents) as [[rounds final]|]; cbn [mbind result_bind]; [|done]. destruct H as (p & d & Hp & Hd & -> & Hok).
    exists p, d. split; [done|]. split; [done|]. split; [|done]. right. by exists s.
Qed.

End Setup.

Module AutodepositLoopWitness.
Import DemoKeys KaminoWitness HoldingsWitness AutodepositSetupWitness.

#[local] Instance limit_eq : EqDecision (DailySpendingLimit key).
Proof. solve_decision. Defined.
#[local] Instance payload_eq : EqDecision (PolicyCreationPayload (PK := demo_keys)).
Proof. solve_decision. Defined.
#[local] Instance signer_eq : EqDecision (PolicySigner (PK := demo_keys)).
Proof. solve_decision. Defined.
#[local] Instance action_eq : EqDecision (SettingsAction (PK := demo_keys)).
Proof. solve_decision. Defined.
#[local] Instance request_eq : EqDecision (SettingsSyncRequest (PK := demo_keys)).
Proof. solve_decision. Defined.

Definition appContext : AutodepositPrepareContext (PK := demo_keys) := {|
  px_cluster := MainnetBeta; px_policySigner := sweeper; px_programId := demoProgram; px_settingsPda := demoSettings |}.
(** A floor of one dollar *)
Definition appInput : SetupInput := setupInput appContext ownerWallet 1000000 77 None None None.
Definition backendState : EarnAutodepositStateResponse := {|
  er_autodeposit := None; er_policySigner := Some (text sweeper); er_programId := text demoProgram; er_settingsPda := Some (text demoSettings) |}.
Definition wanted : SettingsSyncRequest := createPolicyRequest appInput sweeps sweepAccount 1.
#[local] Instance appBuilders : ClientBuilders := builders (fun request => bool_decide (request = wanted)).

(** The instructions the app sends: the authority's, then the policy's with the delegation's *)
Definition authorityInstructions : list (list instruction) := [po_instructions (initializeAuthorityOperation appInput demoPlace)].
Definition delegationTerms : SetupTerms := {|
  tm_amountPerPeriodRaw := sweepAmount; tm_minimumDelegatorBalanceRaw := Some 1000000; tm_periodLengthSeconds := 2592000; tm_nonce := 77; tm_startTimestamp := 107; tm_expiryTimestamp := 0 |}.
Definition delegationIx : instruction := SdkWitness.value (Instruction zero_key [] []) (delegationInstruction appInput delegationTerms demoPlace 0).
Definition finalInstructions : list (list instruction) := [[]; po_instructions (createDelegationOperation appInput demoPlace delegationIx)].

(** Three states: nothing, the authority, everything *)
Definition withAuthority (k : key) : option AccountInfo := if bool_decide (k = sp_subscriptionAuthority demoPlace) then Some goodAuthority else None.
Definition withPolicy (k : key) : option AccountInfo := if bool_decide (k = sweepAccount) then Some (info demoProgram [1]) else withAuthority k.
Definition withDelegation (k : key) : option AccountInfo := if bool_decide (k = sp_recurringDelegation demoPlace) then Some sweepDelegation else withPolicy k.
Definition chainAt (n : nat) : Chain := match n with
  | 0%nat => {| ch_accounts := fun _ => None; ch_policySeed := None |}
  | 1%nat => {| ch_accounts := withAuthority; ch_policySeed := None |}
  | _ => {| ch_accounts := withDelegation; ch_policySeed := Some 1 |}
  end.
Definition sendAt (n : nat) (ops : list (PreparedOperation EarnPolicyCreateDiagnostics)) : result nat := match n with
  | 0%nat => if bool_decide (map po_instructions ops = authorityInstructions) then Ok 1%nat else throwError "send failed"
  | 1%nat => if bool_decide (map po_instructions ops = finalInstructions) then Ok 2%nat else throwError "send failed"
  | _ => throwError "send failed"
  end.
(** A confirmation is seen at the second attempt. *)
Definition roundAt (n : nat) : Round := {|
  rd_connection := connectionTo (ch_accounts (chainAt n)); rd_settings := Ok (ch_policySeed (chainAt n)); rd_batchSettings := Ok None; rd_clock := atOnce; rd_batchClock := atOnce;
  rd_batchNow := 77000; rd_balance := Ok 100000000; rd_send := sendAt n;
  rd_confirm := fun _ attempt => if (attempt =? 1)%nat then UnconfirmedSignature (Exn "Error" "not seen") else Confirmed |}.

Definition ran : result (list (list PreparedEarnUsdcAutodepositSetup) * nat) := 
  runEarnAutodepositSetup (fun _ => EmptyString) roundAt 0%nat "mainnet" ownerWallet (f64_of_Z 1) (Ok backendState) (Ok None) 77 [].

Example demo_stages : (fun r => (map (map (fun s => as_stage (pes_setup s))) r.1, r.2)) <$> ran =
  Ok ([[InitializeSubscriptionAuthority]; [CreatePolicy; CreateRecurringDelegation]], 2%nat).
Proof. vm_compute. reflexivity. Qed.
Lemma lands_authority op : po_instructions op = po_instructions (initializeAuthorityOperation appInput demoPlace) -> lands demoProgram op (chainAt 0) (chainAt 1).
Proof.
  intros Ho. constructor; rewrite Ho.
  - intros ix owner authority mint walletAta rest Hix _ _ E. assert (ix = createSubscriptionInitAuthorityInstruction ownerWallet (sp_subscriptionAuthority demoPlace) (sp_usdcMint demoPlace)
      (sp_walletUsdcAta demoPlace)) as -> by (apply (f_equal (fun l => l !! 0%nat)) in Hix; change (Some (createSubscriptionInitAuthorityInstruction ownerWallet (sp_subscriptionAuthority demoPlace)
      (sp_usdcMint demoPlace) (sp_walletUsdcAta demoPlace)) = Some ix) in Hix; congruence). apply (f_equal (fun l => l !! 1%nat)) in E. change (Some (sp_subscriptionAuthority demoPlace) = Some authority) in E.
    assert (authority = sp_subscriptionAuthority demoPlace) as -> by congruence. split; [|split; [done|]].
    + exists goodAuthority. cbn [chainAt ch_accounts]. unfold withAuthority. rewrite bool_decide_eq_true_2 by done. split; [done|]. split; [done|].
      split; [vm_compute; lia|apply info_bytes; vm_compute; reflexivity].
    + intros k Hk _. cbn [chainAt ch_accounts]. unfold withAuthority. by rewrite bool_decide_eq_false_2.
  - intros request built ? ? ? ? ? ? Hb E. exfalso. cbn in Hb. destruct (bool_decide _); [|done]. injection Hb as <-. done.
  - done.
Qed.

Lemma lands_policy op : po_instructions op = [] -> lands demoProgram op (chainAt 1) {| ch_accounts := withPolicy; ch_policySeed := Some 1 |}.
Proof.
  intros Ho. constructor; rewrite Ho; [done| |done].
  intros request built seed payload signers threshold timeLock account Hb _ Ha Hk. cbn [executeSettingsTransactionSync appBuilders builders] in Hb.
  case_bool_decide as Er; [|done]. rewrite Er in Ha, Hk |- *. clear Er Hb. unfold wanted, createPolicyRequest in Ha, Hk. cbn [st_actions st_settingsPda] in Ha, Hk.
  assert (seed = 1 /\ payload = sweeps /\ signers = [createPolicySigner (ai_policySigner appInput)] /\ threshold = 1 /\ timeLock = 0) as (-> & -> & -> & -> & ->).
  { repeat split; congruence. }
  assert (account = sweepAccount) as -> by (unfold sweepAccount; change (ai_settingsPda appInput) with demoSettings in Hk; by rewrite Hk).
  cbn [ch_accounts ch_policySeed chainAt]. split; [|split; [done|intros k Hne; unfold withPolicy; by rewrite bool_decide_eq_false_2]].
  exists (info demoProgram [1]), sweepPolicy. unfold withPolicy. rewrite bool_decide_eq_true_2 by done. split; [done|]. split; [done|]. split; [reflexivity|]. reflexivity.
Qed.

Lemma sweep_canonical : canonical_delegation sweepDelegation ownerWallet (sp_vaultPda demoPlace) (sp_subscriptionAuthority demoPlace) (sp_usdcMint demoPlace) sweepAmount.
Proof. constructor; try (vm_compute; reflexivity). Qed.

Lemma lands_delegation op : po_instructions op = po_instructions (createDelegationOperation appInput demoPlace delegationIx) ->
  lands demoProgram op {| ch_accounts := withPolicy; ch_policySeed := Some 1 |} (chainAt 2).
Proof.
  intros Ho. constructor; rewrite Ho.
  - done.
  - intros request built ? ? ? ? ? ? Hb E. exfalso. cbn in Hb. destruct (bool_decide _); [|done]. injection Hb as <-. done.
  - intros ata approve ix delegator authority delegation delegatee rest args E _ Hk Hd. cbn [createDelegationOperation operationOf po_instructions] in E.
    assert (ix = delegationIx) as -> by congruence.
    assert (Hkeys : map meta_pubkey (keys delegationIx) = [ownerWallet; sp_subscriptionAuthority demoPlace; sp_recurringDelegation demoPlace; sp_vaultPda demoPlace; systemProgramId])
      by (vm_compute; reflexivity).
    assert (Hdata : (fun r => da_amount r.1) <$> d_create_delegation (data delegationIx) = Some sweepAmount) by (vm_compute; reflexivity). rewrite Hd in Hdata. cbn in Hdata.
    assert (delegator = ownerWallet /\ authority = sp_subscriptionAuthority demoPlace /\ delegation = sp_recurringDelegation demoPlace /\ delegatee = sp_vaultPda demoPlace) as (-> & -> & -> & ->)
      by (repeat split; congruence).
    split; [|split; [done|]].
    + exists sweepDelegation. cbn [chainAt ch_accounts]. unfold withDelegation. rewrite bool_decide_eq_true_2 by done. split; [done|].
      split; [apply info_bytes; vm_compute; reflexivity|]. intros mint Hm _. assert (mint = sp_usdcMint demoPlace) as ->.
      { assert (E' : getStablecoinMintForCluster MainnetBeta USDC = Ok (sp_usdcMint demoPlace)) by (vm_compute; reflexivity). congruence. }
      injection Hdata as ->. apply sweep_canonical.
    + intros k account Hk' Hown. cbn [ch_accounts chainAt] in *. unfold withDelegation. rewrite bool_decide_eq_false_2; [done|]. intros ->. revert Hk'.
      assert (E' : withPolicy (sp_recurringDelegation demoPlace) = None) by (vm_compute; reflexivity). by rewrite E'.
Qed.
Lemma demo_world : world_ok demoProgram roundAt chainAt.
Proof.
  split.
  - intros w. exact (conj eq_refl eq_refl).
  - done.
  - intros w. unfold clock_ok. cbn. lia.
  - intros w ops w' H. cbn [roundAt rd_send] in H. unfold sendAt in H. destruct w as [|[|w]]; [| |done]; case_bool_decide as E; [|done| |done].
    + assert (w' = 1%nat) as -> by congruence. unfold authorityInstructions in E. destruct ops as [|op [|? ?]]; [done| |done]. exists (chainAt 1). split; [|done].
      apply lands_authority. cbn [map] in E. congruence.
    + assert (w' = 2%nat) as -> by congruence. unfold finalInstructions in E. destruct ops as [|op [|op' [|? ?]]]; [done|done| |done]. cbn [map] in E.
      eexists. split; [apply lands_policy; congruence|]. exists (chainAt 2). split; [apply lands_delegation; congruence|done].
Qed.

Lemma demo_ready : setup_ready demoProgram appInput 77 demoPlace sweeps 1 sweepAccount noInstructions.
Proof.
  constructor.
  - constructor; cbn; split_and?; done || lia.
  - exists mainMint. split; [vm_compute; reflexivity|]. apply SdkWitness.value_ok. vm_compute. reflexivity.
  - apply sweeps_built.
  - unfold MAX_SAFE_INTEGER. lia.
  - vm_compute. reflexivity.
  - exists sweepAccount. vm_compute. reflexivity.
  - cbn [executeSettingsTransactionSync appBuilders builders]. by rewrite bool_decide_eq_true_2.
  - exists 900. split; [done|]. unfold EARN_POLICY_PACKET_DATA_SIZE. lia.
Qed.

End AutodepositLoopWitness.
