(* ===== verification/VaultCleanup.v ===== *)
(** Emptying the Earn vault (web/packages/smart-account-vaults/src/client.ts): the instructions that move the balances of the vault's token accounts to the wallet, close the
    accounts and sweep the SOL; the clean-up that also closes the policies; and the refund of a vault whose position is closed.

    The builders of the token and system programs and what these programs do are arguments, with laws that say it on a ledger of token accounts and SOL. *)
From S2P Require Import Prelude JsString JsMap Json Solana MessageCompile PreparedWire EarnWire Bytes Subscriptions Squads Protocols Registry Sdk Voltr RpcFetch Pda Kamino Holdings FullExit GeneratedValues ClientPolicies NativeSol PolicyRefund AutodepositSetup.

(** ** Effects on a ledger

    The token, associated-token and system programs are not part of the repository. What they do is a parameter, [execute] of [TokenPrograms], and what is known of it are its laws: an
    instruction of these builders that is in order carries out its effect on the ledger the accounts show. The laws speak only of [ordinary] accounts: where a mint has a transfer fee or
    another extension that withholds, or an account is frozen, wraps SOL or is closed by another authority, nothing is said. Instructions are executed with the signatures of the payer,
    the wallet and the vault; the fee and the size of a transaction are not considered. *)
Section Ledger.
Context {PK : PublicKeys} {TL : TokenLayouts PK}.

(** A transfer of an amount of a mint with its decimals, the closing of an account of a mint for the benefit of another, a transfer of SOL, and an associated account that is created where it
    is missing *)
Inductive Effect :=
  | TransferTokens (program source mint destination owner : pubkey) (amount decimals : Z)
  | CloseTokens (program account mint destination owner : pubkey)
  | TransferLamports (source destination : pubkey) (lamports : Z)
  | OpenTokens (program payer account owner mint : pubkey).

(** [lg_rent]: what a new token account of a mint costs *)
Record TokenState := { tk_owner : pubkey; tk_mint : pubkey; tk_program : pubkey; tk_amount : Z }.
Record Ledger := { lg_token : pubkey -> option TokenState; lg_lamports : pubkey -> Z; lg_decimals : pubkey -> Z; lg_rent : pubkey -> Z }.

Definition addTokens (amount : Z) (t : TokenState) : TokenState :=
  {| tk_owner := tk_owner t; tk_mint := tk_mint t; tk_program := tk_program t; tk_amount := tk_amount t + amount |}.
Definition updated {A} (f : pubkey -> A) (k : pubkey) (a : A) (key : pubkey) : A := if decide (key = k) then a else f key.
Definition added (f : pubkey -> Z) (k : pubkey) (z : Z) : pubkey -> Z := updated f k (f k + z).
Definition withAccounts (l : Ledger) (tokens : pubkey -> option TokenState) (lamports : pubkey -> Z) : Ledger :=
  {| lg_token := tokens; lg_lamports := lamports; lg_decimals := lg_decimals l; lg_rent := lg_rent l |}.

(** What is missing to open an account *)
Definition openingCost (l : Ledger) (account mint : pubkey) : Z := Z.max 0 (lg_rent l mint - lg_lamports l account).

(** [None] where the instruction is not in order *)
Definition applyEffect (l : Ledger) (e : Effect) : option Ledger :=
  match e with
  | TransferTokens program source mint destination owner amount decimals =>
      match lg_token l source, lg_token l destination with
      | Some s, Some d =>
          if bool_decide (tk_program s = program) && bool_decide (tk_program d = program) && bool_decide (tk_mint s = mint) && bool_decide (tk_mint d = mint) &&
             bool_decide (tk_owner s = owner) && bool_decide (source <> destination) && (decimals =? lg_decimals l mint) && (0 <=? amount) && (amount <=? tk_amount s)
          then Some (withAccounts l (updated (updated (lg_token l) source (Some (addTokens (- amount) s))) destination (Some (addTokens amount d))) (lg_lamports l))
          else None
      | _, _ => None
      end
  | CloseTokens program account mint destination owner =>
      match lg_token l account with
      | Some t =>
          if bool_decide (tk_program t = program) && bool_decide (tk_mint t = mint) && bool_decide (tk_owner t = owner) && (tk_amount t =? 0) && bool_decide (account <> destination)
          then Some (withAccounts l (updated (lg_token l) account None) (updated (added (lg_lamports l) destination (lg_lamports l account)) account 0))
          else None
      | None => None
      end
  | TransferLamports source destination lamports =>
      if (0 <=? lamports) && (lamports <=? lg_lamports l source)
      then Some (withAccounts l (lg_token l) (added (added (lg_lamports l) source (- lamports)) destination lamports))
      else None
  | OpenTokens program payer account owner mint =>
      match lg_token l account with
      | Some t => if bool_decide (tk_program t = program) && bool_decide (tk_mint t = mint) && bool_decide (tk_owner t = owner) then Some l else None
      | None =>
          let cost := openingCost l account mint in
          if (cost <=? lg_lamports l payer) && bool_decide (payer <> account)
          then Some (withAccounts l (updated (lg_token l) account (Some {| tk_owner := owner; tk_mint := mint; tk_program := program; tk_amount := 0 |}))
                       (added (added (lg_lamports l) payer (- cost)) account cost))
          else None
      end
  end.

Fixpoint applyAll (l : Ledger) (effects : list Effect) : option Ledger :=
  match effects with [] => Some l | e :: effects => l' ← applyEffect l e; applyAll l' effects end.

(** Ledgers that show the same *)
Record same (l m : Ledger) : Prop := {
  sm_token k : lg_token l k = lg_token m k;
  sm_lamports k : lg_lamports l k = lg_lamports m k;
  sm_decimals k : lg_decimals l k = lg_decimals m k;
  sm_rent k : lg_rent l k = lg_rent m k;
}.
#[export] Instance same_equivalence : Equivalence same.
Proof. split; [by constructor|intros l m [H1 H2 H3 H4]; by constructor|]. intros l m n [H1 H2 H3 H4] [K1 K2 K3 K4]. constructor; intros k; by rewrite ?H1, ?H2, ?H3, ?H4. Qed.

Lemma updated_ext {A} (f g : pubkey -> A) k a x : (forall y, f y = g y) -> updated f k a x = updated g k a x.
Proof. intros H. unfold updated. by destruct (decide _). Qed.
Lemma added_ext f g k z x : (forall y, f y = g y) -> added f k z x = added g k z x.
Proof. intros H. unfold added. rewrite (H k). by apply updated_ext. Qed.

Lemma applyEffect_same l m e l' : same l m -> applyEffect l e = Some l' -> exists m', applyEffect m e = Some m' /\ same l' m'.
Proof.
  intros [T L D R] H. destruct e as [program source mint destination owner amount decimals|program account mint destination owner|source destination lamports|program payer account owner mint];
    cbn [applyEffect] in *.
  - rewrite <- (T source), <- (T destination), <- (D mint). destruct (lg_token l source); [|done]. destruct (lg_token l destination); [|done]. destruct (_ && _); [|done]. injection H as <-.
    eexists. split; [reflexivity|]. constructor; cbn [withAccounts lg_token lg_lamports lg_decimals lg_rent]; try done. intros k. by do 2 (apply updated_ext; intros ?).
  - rewrite <- (T account). destruct (lg_token l account); [|done]. destruct (_ && _); [|done]. injection H as <-. eexists. split; [reflexivity|].
    constructor; cbn [withAccounts lg_token lg_lamports lg_decimals lg_rent]; try done; intros k; [by apply updated_ext|]. rewrite <- (L account). apply updated_ext. intros y. by apply added_ext.
  - rewrite <- (L source). destruct (_ && _); [|done]. injection H as <-. eexists. split; [reflexivity|]. constructor; cbn [withAccounts lg_token lg_lamports lg_decimals lg_rent]; try done.
    intros k. by do 2 (apply added_ext; intros ?).
  - rewrite <- (T account). destruct (lg_token l account); [destruct (_ && _); [|done]; injection H as <-; exists m; by split|].
    assert (openingCost m account mint = openingCost l account mint) as -> by (unfold openingCost; by rewrite (R mint), (L account)). rewrite <- (L payer). destruct (_ && _); [|done].
    injection H as <-. eexists. split; [reflexivity|]. constructor; cbn [withAccounts lg_token lg_lamports lg_decimals lg_rent]; try done; intros k; [by apply updated_ext|].
    by do 2 (apply added_ext; intros ?).
Qed.

Record TransactionSyncRequest := {
  ts_feePayer : pubkey;
  ts_settingsPda : pubkey;
  ts_accountIndex : Z;
  ts_numSigners : Z;
  ts_instructions : list Z;
  ts_instruction_accounts : list account_meta;
  ts_memo : option string;
}.

Class TokenBuilders := {
  (** [createTransferCheckedInstruction(source, mint, destination, owner, amount, decimals, [], program)] *)
  createTransferChecked : pubkey -> pubkey -> pubkey -> pubkey -> Z -> Z -> pubkey -> instruction;
  (** [createCloseAccountInstruction(account, destination, authority, [], program)] *)
  createCloseAccount : pubkey -> pubkey -> pubkey -> pubkey -> instruction;
  (** [SystemProgram.transfer({ fromPubkey, toPubkey, lamports })] *)
  systemTransfer : pubkey -> pubkey -> Z -> instruction;
  executeTransactionSyncV2 : TransactionSyncRequest -> result BuiltOperation;
}.

(** The accounts an effect is about: a token account of a mint, and an account of the system program *)
Inductive Touched := TokenAt (mint account : pubkey) | SystemAt (account : pubkey).
Definition touched (e : Effect) : list Touched :=
  match e with
  | TransferTokens _ source mint destination _ _ _ => [TokenAt mint source; TokenAt mint destination]
  | CloseTokens _ account mint destination _ => [TokenAt mint account; SystemAt destination]
  | TransferLamports source destination _ => [SystemAt source; SystemAt destination]
  | OpenTokens _ payer account _ mint => [TokenAt mint account; SystemAt payer]
  end.

(** An instruction, as program, accounts and data, carries out an effect on ordinary accounts, which stay ordinary. *)
Definition carriesOut {Accounts : Type} (ledger : Accounts -> Ledger) (ordinary : Accounts -> Touched -> Prop) (execute : Accounts -> pubkey * list pubkey * list Z -> option Accounts)
    (p : pubkey * list pubkey * list Z) (e : Effect) : Prop :=
  forall accounts l', Forall (ordinary accounts) (touched e) -> applyEffect (ledger accounts) e = Some l' ->
    exists accounts', execute accounts p = Some accounts' /\ same (ledger accounts') l' /\ forall t, ordinary accounts t -> ordinary accounts' t.

Class TokenPrograms (TB : TokenBuilders) (CB : ClientBuilders) := {
  Accounts : Type;
  ledger : Accounts -> Ledger;
  (** A token account, there or not yet, is ordinary when its mint is there, is not that of wrapped SOL and has no extension that withholds, redirects or freezes, and the account is not
      frozen and is closed by its owner; an account of the system program when it has no data. *)
  ordinary : Accounts -> Touched -> Prop;
  execute : Accounts -> pubkey * list pubkey * list Z -> option Accounts;
  does_transfer source mint destination owner amount decimals program : 0 <= amount < 2 ^ 64 -> 0 <= decimals < 256 ->
    carriesOut ledger ordinary execute (plain (createTransferChecked source mint destination owner amount decimals program))
      (TransferTokens program source mint destination owner amount decimals);
  does_close account mint destination authority program :
    carriesOut ledger ordinary execute (plain (createCloseAccount account destination authority program)) (CloseTokens program account mint destination authority);
  does_lamports source destination lamports : 0 <= lamports < 2 ^ 64 ->
    carriesOut ledger ordinary execute (plain (systemTransfer source destination lamports)) (TransferLamports source destination lamports);
  does_open payer account owner mint program : (program = splTokenProgram \/ program = splToken2022Program) -> associatedTokenAddress mint owner false program = Ok account ->
    carriesOut ledger ordinary execute (plain (createAtaIdempotent payer account owner mint program)) (OpenTokens program payer account owner mint);
  (** They are small. *)
  small_transfer source mint destination owner amount decimals program :
    let ix := createTransferChecked source mint destination owner amount decimals program in (length (keys ix) <= 255)%nat /\ (length (data ix) <= 255)%nat;
  small_close account destination authority program :
    let ix := createCloseAccount account destination authority program in (length (keys ix) <= 255)%nat /\ (length (data ix) <= 255)%nat;
  small_lamports source destination lamports :
    let ix := systemTransfer source destination lamports in (length (keys ix) <= 255)%nat /\ (length (data ix) <= 255)%nat;
}.

Section Executions.
Context {TB : TokenBuilders} {CB : ClientBuilders} {TP : TokenPrograms TB CB}.

Fixpoint executeAll (accounts : Accounts) (instructions : list (pubkey * list pubkey * list Z)) : option Accounts :=
  match instructions with [] => Some accounts | p :: instructions => accounts' ← execute accounts p; executeAll accounts' instructions end.

(** Instructions carry out the effects of their list. *)
Lemma executes ps effects : Forall2 (carriesOut ledger ordinary execute) ps effects -> forall accounts l l', same (ledger accounts) l -> Forall (ordinary accounts) (flat_map touched effects) ->
  applyAll l effects = Some l' -> exists accounts', executeAll accounts ps = Some accounts' /\ same (ledger accounts') l' /\ forall t, ordinary accounts t -> ordinary accounts' t.
Proof.
  induction 1 as [|p e ps effects Hp _ IH]; intros accounts l l' Hs Hf H; cbn [applyAll executeAll] in *.
  - injection H as <-. by exists accounts.
  - cbn [flat_map] in Hf. apply Forall_app in Hf as [He Hf]. destruct (applyEffect l e) as [l1|] eqn:E; [|done]. cbn [mbind option_bind] in H.
    destruct (applyEffect_same l (ledger accounts) e l1 (symmetry Hs) E) as (m1 & Em & Hm). destruct (Hp accounts m1 He Em) as (a1 & Ea & Ha & Hk). rewrite Ea. cbn [mbind option_bind].
    destruct (IH a1 l1 l') as (a2 & E2 & S2 & K2); [by rewrite Ha| |done|exists a2; split; [done|]; split; [done|]; auto].
    eapply Forall_impl; [exact Hf|exact Hk].
Qed.
End Executions.
End Ledger.

Section VaultCleanup.
Context {PK : PublicKeys} {SPL : SplToken PK} {KB : KeyBytes PK} {B : BeetUints} {TL : TokenLayouts PK} {CB : ClientBuilders} {TB : TokenBuilders}.
Context (localeCompare : string -> string -> Z) (smartAccountsProgramId : pubkey).
#[local] Abbreviation Op := (PreparedOperation EarnPolicyCreateDiagnostics).
#[local] Abbreviation Connection := (@InjectableConnection PK EarnPolicyCreateDiagnostics).

(** ** The instructions of a clean-up *)
Record VaultTokenAccount := { va_address : pubkey; va_amountRaw : Z; va_decimals : Z; va_mint : pubkey; va_tokenProgramId : pubkey }.

Record TokenCleanup := { tc_idleUsdcTransferRaw : Z; tc_tokenInstructions : list instruction; tc_walletAtaInstructions : list instruction }.

(** One account: its balance is moved, then it is closed. *)
Definition cleanUpAccount (feePayer usdcMint vaultPda walletAddress : pubkey) (state : TokenCleanup) (tokenAccount : VaultTokenAccount) : result TokenCleanup :=
  let program := va_tokenProgramId tokenAccount in
  if negb (key_equals program splTokenProgram) && negb (key_equals program splToken2022Program)
  then throwError "Earn cleanup received an unsupported token program."
  else
    moved ← (if 0 <? va_amountRaw tokenAccount then
               walletAta ← associatedTokenAddress (va_mint tokenAccount) walletAddress false program;
               Ok {| tc_walletAtaInstructions := tc_walletAtaInstructions state ++ [createAtaIdempotent feePayer walletAta walletAddress (va_mint tokenAccount) program];
                     tc_tokenInstructions := tc_tokenInstructions state ++
                       [makeSignerWritable (createTransferChecked (va_address tokenAccount) (va_mint tokenAccount) walletAta vaultPda (va_amountRaw tokenAccount)
                                              (va_decimals tokenAccount) program) vaultPda];
                     tc_idleUsdcTransferRaw := if key_equals (va_mint tokenAccount) usdcMint then tc_idleUsdcTransferRaw state + va_amountRaw tokenAccount
                                               else tc_idleUsdcTransferRaw state |}
             else Ok state);
    Ok {| tc_walletAtaInstructions := tc_walletAtaInstructions moved; tc_idleUsdcTransferRaw := tc_idleUsdcTransferRaw moved;
          tc_tokenInstructions := tc_tokenInstructions moved ++
            [makeSignerWritable (createCloseAccount (va_address tokenAccount) walletAddress vaultPda program) vaultPda] |}.

Definition createEarnVaultTokenCleanupInstructions (feePayer : pubkey) (tokenAccounts : list VaultTokenAccount) (usdcMint vaultPda walletAddress : pubkey) :
    result TokenCleanup :=
  foldR (cleanUpAccount feePayer usdcMint vaultPda walletAddress)
    {| tc_idleUsdcTransferRaw := 0; tc_tokenInstructions := []; tc_walletAtaInstructions := [] |} tokenAccounts.

(** The end of a full withdrawal *)
Definition createEarnFullWithdrawCleanupInstructions (vaultCollateralAtas : option (list pubkey)) (vaultPda : pubkey) (vaultSweepLamports : option Z)
    (vaultUsdcAta liquidityTokenProgram walletAddress : pubkey) : list instruction :=
  map (fun ata => makeSignerWritable (createCloseAccount ata walletAddress vaultPda splTokenProgram) vaultPda) (default [] vaultCollateralAtas) ++
  [makeSignerWritable (createCloseAccount vaultUsdcAta walletAddress vaultPda liquidityTokenProgram) vaultPda] ++
  (let lamports := default 0 vaultSweepLamports in if 0 <? lamports then [systemTransfer vaultPda walletAddress lamports] else []).

(** A synchronous transaction of the vault, by the wallet *)
Definition vaultTransaction (feePayer settingsPda walletAddress vaultPda : pubkey) (memo : option string) (instructions : list instruction) : result BuiltOperation :=
  '(bytes, accounts) ← compileToSynchronousMessageAndAccountsV2 vaultPda [walletAddress] instructions;
  executeTransactionSyncV2 {| ts_feePayer := feePayer; ts_settingsPda := settingsPda; ts_accountIndex := EARN_VAULT_INDEX; ts_numSigners := 1; ts_instructions := bytes;
                              ts_instruction_accounts := accounts; ts_memo := memo |}.

(** ** The clean-up *)
Record CleanupInput := {
  ku_settingsPda : pubkey;
  ku_walletAddress : pubkey;
  ku_feePayer : pubkey;
  ku_policySigner : pubkey;
  ku_cluster : option LoyalCluster;
  ku_vaultTokenAccounts : list VaultTokenAccount;
  ku_policy : pubkey * Z;
  ku_setupPolicy : option (pubkey * Z);
  ku_autodepositClose : option (pubkey * pubkey);
  ku_memo : option string;
}.

Record CleanupMetadata := {
  km_cluster : LoyalCluster;
  km_walletAddress : string;
  km_delegatedSigner : string;
  km_settings : string;
  km_vaultIndex : Z;
  km_vaultPubkey : string;
  km_policy : string * string;
  km_setupPolicy : option (string * string);
  km_idleTransferAmountRaw : string;
  km_closedVaultUsdcAta : bool;
  km_closedCollateralAtas : list string;
  km_autodepositClose : option AutodepositCloseMetadata;
}.

Record PreparedEarnUsdcCleanup := {
  kp_autodepositClosePrepared : option (PreparedEarnUsdcAutodepositClose (diagnostics := EarnPolicyCreateDiagnostics));
  kp_prepared : Op;
  kp_persistence : CleanupMetadata;
  kp_policy : pubkey * Z;
  kp_setupPolicy : option (pubkey * Z);
  kp_vaultPubkey : pubkey;
  kp_vaultUsdcAta : pubkey;
}.

Definition vaultSweepLamportsOrZero (connection : Connection) (vaultPda : pubkey) : Z :=
  match getBalance connection with Some read => match read vaultPda with Ok lamports => lamports | Throw _ => 0 end | None => 0 end.

Definition sweepLamports (vaultPda walletAddress : pubkey) (lamports : Z) : list instruction :=
  if 0 <? lamports then [systemTransfer vaultPda walletAddress lamports] else [].

Definition policyText (p : pubkey * Z) : string * string := (toBase58 p.1, bigint_toString p.2).

Definition prepareEarnUsdcCleanup (connection : Connection) (args : CleanupInput) : result PreparedEarnUsdcCleanup :=
  let cluster := default MainnetBeta (ku_cluster args) in
  usdcMint ← getStablecoinMintForCluster cluster USDC;
  vaultPda ← getSmartAccountPda (ku_settingsPda args) EARN_VAULT_INDEX smartAccountsProgramId;
  vaultUsdcAta ← associatedTokenAddress usdcMint vaultPda true splTokenProgram;
  cleanup ← createEarnVaultTokenCleanupInstructions (ku_feePayer args) (ku_vaultTokenAccounts args) usdcMint vaultPda (ku_walletAddress args);
  let tokenInstructions := tc_tokenInstructions cleanup ++ sweepLamports vaultPda (ku_walletAddress args) (vaultSweepLamportsOrZero connection vaultPda) in
  tokenOperation ← match tokenInstructions with
                   | [] => Ok None
                   | _ => built ← vaultTransaction (ku_feePayer args) (ku_settingsPda args) (ku_walletAddress args) vaultPda (ku_memo args) tokenInstructions; Ok (Some built)
                   end;
  let policyAccounts := (ku_policy args).1 :: match ku_setupPolicy args with Some setup => [setup.1] | None => [] end in
  policyCloseOperation ← prepareCloseLiveYieldRoutingPoliciesSync connection
    {| cp_settingsPda := ku_settingsPda args; cp_feePayer := ku_feePayer args; cp_signers := [ku_walletAddress args]; cp_policies := policyAccounts; cp_memo := ku_memo args |};
  autodepositClosePrepared ← match ku_autodepositClose args with
    | Some (closing, delegation) =>
        close ← prepareEarnUsdcAutodepositClose smartAccountsProgramId connection
          {| cl_settingsPda := ku_settingsPda args; cl_walletAddress := ku_walletAddress args; cl_feePayer := ku_feePayer args; cl_signer := ku_walletAddress args;
             cl_policySigner := ku_policySigner args; cl_policy := closing; cl_recurringDelegation := delegation; cl_cluster := Some cluster; cl_memo := ku_memo args |};
        Ok (Some close)
    | None => Ok None
    end;
  let optional (o : option BuiltOperation) := match o with Some operation => [operation] | None => [] end in
  match optional tokenOperation ++ optional policyCloseOperation with
  | [] => throwError "Nothing to clean up: yield routing policies are already closed."
  | operations =>
      Ok {| kp_autodepositClosePrepared := autodepositClosePrepared;
            kp_prepared := operationOf "earnUsdcCleanup" (ku_feePayer args) smartAccountsProgramId
              (tc_walletAtaInstructions cleanup ++ flat_map bo_instructions operations)
              (dedupeLookupTableAccounts (flat_map bo_lookupTableAccounts operations));
            kp_persistence := {| km_cluster := cluster; km_walletAddress := toBase58 (ku_walletAddress args); km_delegatedSigner := toBase58 (ku_policySigner args);
              km_settings := toBase58 (ku_settingsPda args); km_vaultIndex := EARN_VAULT_INDEX; km_vaultPubkey := toBase58 vaultPda; km_policy := policyText (ku_policy args);
              km_setupPolicy := policyText <$> ku_setupPolicy args; km_idleTransferAmountRaw := bigint_toString (tc_idleUsdcTransferRaw cleanup);
              km_closedVaultUsdcAta := existsb (fun account => key_equals (va_address account) vaultUsdcAta) (ku_vaultTokenAccounts args);
              km_closedCollateralAtas := map (fun account => toBase58 (va_address account))
                (List.filter (fun account => negb (key_equals (va_address account) vaultUsdcAta)) (ku_vaultTokenAccounts args));
              km_autodepositClose := ac_persistence <$> autodepositClosePrepared |};
            kp_policy := ku_policy args; kp_setupPolicy := ku_setupPolicy args; kp_vaultPubkey := vaultPda; kp_vaultUsdcAta := vaultUsdcAta |}
  end.

(** ** The refund of a vault's accounts *)
Record VaultRefundInput := { vi_cluster : option LoyalCluster; vi_feePayer : pubkey; vi_memo : option string; vi_settingsPda : pubkey; vi_walletAddress : pubkey }.
Record PreparedEarnVaultRefund := {
  vr_prepared : Op;
  vr_closedTokenAccounts : list pubkey;
  vr_idleUsdcTransferRaw : Z;
  vr_sweepLamports : Z;
  vr_vaultPubkey : pubkey;
  vr_vaultUsdcAta : pubkey;
}.

Definition refundInstructions (snapshot : SmartAccountEarnVaultRefundSnapshot) (usdcMint walletUsdcAta walletAddress : pubkey) (idleAmountRaw : Z) : list instruction :=
  let vaultPda := vs_vaultPda snapshot in
  (if 0 <? idleAmountRaw
   then [makeSignerWritable (createTransferChecked (vs_vaultUsdcAta snapshot) usdcMint walletUsdcAta vaultPda idleAmountRaw EARN_DEPOSIT_USDC_DECIMALS splTokenProgram) vaultPda]
   else []) ++
  map (fun account => makeSignerWritable (createCloseAccount (rt_address account) walletAddress vaultPda (rt_tokenProgramId account)) vaultPda) (vs_tokenAccounts snapshot) ++
  sweepLamports vaultPda walletAddress (vs_lamports snapshot).

Definition prepareEarnVaultAccountsRefund (connection : FullExit.Connection) (attempt : nat) (args : VaultRefundInput) : result PreparedEarnVaultRefund :=
  let cluster := default MainnetBeta (vi_cluster args) in
  usdcMint ← getStablecoinMintForCluster cluster USDC;
  snapshot ← fetchEarnVaultRefundSnapshot localeCompare connection attempt smartAccountsProgramId cluster None (vi_settingsPda args);
  walletUsdcAta ← associatedTokenAddress usdcMint (vi_walletAddress args) false splTokenProgram;
  let isVaultAta account := key_equals (rt_address account) (vs_vaultUsdcAta snapshot) in
  if existsb (fun account => (0 <? rt_amountRaw account) && negb (isVaultAta account)) (vs_tokenAccounts snapshot)
  then throwError "Earn vault still holds token balances outside its USDC account; withdraw the position before refunding vault accounts."
  else
    let idleAmountRaw := default 0 (rt_amountRaw <$> List.find isVaultAta (vs_tokenAccounts snapshot)) in
    let instructions := refundInstructions snapshot usdcMint walletUsdcAta (vi_walletAddress args) idleAmountRaw in
    match instructions with
    | [] => throwError "Nothing to refund: the Earn vault holds no SOL and no token accounts."
    | _ =>
        operation ← vaultTransaction (vi_feePayer args) (vi_settingsPda args) (vi_walletAddress args) (vs_vaultPda snapshot) (vi_memo args) instructions;
        Ok {| vr_prepared := operationOf "earnVaultAccountsRefund" (vi_feePayer args) smartAccountsProgramId
                ((if 0 <? idleAmountRaw then [createAtaIdempotent (vi_feePayer args) walletUsdcAta (vi_walletAddress args) usdcMint splTokenProgram] else []) ++
                 bo_instructions operation) (bo_lookupTableAccounts operation);
              vr_closedTokenAccounts := map rt_address (vs_tokenAccounts snapshot); vr_idleUsdcTransferRaw := idleAmountRaw; vr_sweepLamports := vs_lamports snapshot;
              vr_vaultPubkey := vs_vaultPda snapshot; vr_vaultUsdcAta := vs_vaultUsdcAta snapshot |}
    end.

(** ** What is left *)
Context {TP : TokenPrograms TB CB} {Laws : PublicKeyLaws PK}.

(** The wallet's token account for an account of the vault *)
Definition walletAtaOf (wallet : pubkey) (a : VaultTokenAccount) : pubkey :=
  match associatedTokenAddress (va_mint a) wallet false (va_tokenProgramId a) with Ok ata => ata | Throw _ => defaultKey end.

Definition instructionsOf (vault wallet : pubkey) (a : VaultTokenAccount) : list instruction :=
  (if 0 <? va_amountRaw a
   then [makeSignerWritable (createTransferChecked (va_address a) (va_mint a) (walletAtaOf wallet a) vault (va_amountRaw a) (va_decimals a) (va_tokenProgramId a)) vault] else []) ++
  [makeSignerWritable (createCloseAccount (va_address a) wallet vault (va_tokenProgramId a)) vault].
Definition effectsOf (vault wallet : pubkey) (a : VaultTokenAccount) : list Effect :=
  (if 0 <? va_amountRaw a
   then [TransferTokens (va_tokenProgramId a) (va_address a) (va_mint a) (walletAtaOf wallet a) vault (va_amountRaw a) (va_decimals a)] else []) ++
  [CloseTokens (va_tokenProgramId a) (va_address a) (va_mint a) wallet vault].

(** What the accounts send to a key *)
Definition creditTo (wallet : pubkey) (accounts : list VaultTokenAccount) (k : pubkey) : Z :=
  sumZ (map (fun a => if decide (k = walletAtaOf wallet a) then Z.max 0 (va_amountRaw a) else 0) accounts).

Lemma applyAll_app l e1 e2 : applyAll l (e1 ++ e2) = (l' ← applyAll l e1; applyAll l' e2).
Proof. revert l. induction e1 as [|e e1 IH]; intros l; cbn [app applyAll]; [done|]. destruct (applyEffect l e); [apply IH|done]. Qed.

Lemma addTokens_zero t : addTokens 0 t = t.
Proof. destruct t. unfold addTokens. cbn. by rewrite Z.add_0_r. Qed.

Lemma addTokens_twice x y t : addTokens y (addTokens x t) = addTokens (x + y) t.
Proof. unfold addTokens. cbn. f_equal. lia. Qed.

(** The ledger shows an account of the vault, and the account of the wallet that receives its balance. *)
Record shows (l : Ledger) (vault wallet : pubkey) (a : VaultTokenAccount) : Prop := {
  sh_token : lg_token l (va_address a) = Some {| tk_owner := vault; tk_mint := va_mint a; tk_program := va_tokenProgramId a; tk_amount := va_amountRaw a |};
  sh_amount : 0 <= va_amountRaw a < 2 ^ 64;
  sh_decimals : va_decimals a = lg_decimals l (va_mint a) /\ 0 <= va_decimals a < 256;
  sh_wallet : 0 < va_amountRaw a -> exists w, lg_token l (walletAtaOf wallet a) = Some w /\ tk_owner w = wallet /\ tk_mint w = va_mint a /\ tk_program w = va_tokenProgramId a;
}.

Lemma updated_at {A} (f : pubkey -> A) k a : updated f k a k = a.
Proof. unfold updated. by rewrite decide_True. Qed.
Lemma updated_ne {A} (f : pubkey -> A) k a k' : k' <> k -> updated f k a k' = f k'.
Proof. intros H. unfold updated. by rewrite decide_False. Qed.

(** Closing an empty account *)
Lemma close_runs l program account mint destination owner t : lg_token l account = Some t -> tk_program t = program -> tk_mint t = mint -> tk_owner t = owner -> tk_amount t = 0 -> account <> destination ->
  exists l', applyEffect l (CloseTokens program account mint destination owner) = Some l' /\ lg_decimals l' = lg_decimals l /\
    (forall k, lg_token l' k = if decide (k = account) then None else lg_token l k) /\
    (forall k, lg_lamports l' k = if decide (k = account) then 0 else lg_lamports l k + (if decide (k = destination) then lg_lamports l account else 0)).
Proof.
  intros Ht Hp Hm Ho Ha Hne. cbn [applyEffect]. rewrite Ht, Hp, Hm, Ho, Ha, !bool_decide_eq_true_2 by done. cbn [andb Z.eqb]. eexists. split; [reflexivity|]. split; [done|].
  split; [done|]. intros k. cbn [withAccounts lg_lamports]. unfold updated, added, updated. destruct (decide (k = account)); [done|]. destruct (decide (k = destination)) as [->|]; lia.
Qed.

(** Moving the whole balance of an account *)
Lemma transfer_runs l program source mint destination owner decimals s d : lg_token l source = Some s -> lg_token l destination = Some d ->
  tk_program s = program -> tk_program d = program -> tk_mint s = mint -> tk_mint d = mint -> tk_owner s = owner -> tk_owner d <> owner -> decimals = lg_decimals l mint -> 0 <= tk_amount s ->
  exists l', applyEffect l (TransferTokens program source mint destination owner (tk_amount s) decimals) = Some l' /\ lg_decimals l' = lg_decimals l /\
    lg_lamports l' = lg_lamports l /\ source <> destination /\
    forall k, lg_token l' k = if decide (k = source) then Some (addTokens (- tk_amount s) s) else if decide (k = destination) then Some (addTokens (tk_amount s) d) else lg_token l k.
Proof.
  intros Hs Hd P1 P2 M1 M2 Ho Hd' Hdec Ha. assert (source <> destination) as Hne by (intros ->; congruence). cbn [applyEffect].
  rewrite Hs, Hd, P1, P2, M1, M2, Ho, Hdec, !bool_decide_eq_true_2, Z.eqb_refl by done. replace (0 <=? tk_amount s) with true by lia. rewrite Z.leb_refl. cbn [andb].
  eexists. split; [reflexivity|]. split; [done|]. split; [done|]. split; [done|]. intros k. cbn [withAccounts lg_token]. unfold updated.
  destruct (decide (k = destination)) as [->|]; [|done]. by rewrite decide_False by congruence.
Qed.

(** One account: moved and closed *)
Lemma account_runs l vault wallet a : wallet <> vault -> lg_token l wallet = None -> shows l vault wallet a ->
  exists l', applyAll l (effectsOf vault wallet a) = Some l' /\ lg_decimals l' = lg_decimals l /\
    (forall k, lg_token l' k = if decide (k = va_address a) then None else addTokens (creditTo wallet [a] k) <$> lg_token l k) /\
    (forall k, lg_lamports l' k = if decide (k = va_address a) then 0 else lg_lamports l k + (if decide (k = wallet) then lg_lamports l (va_address a) else 0)).
Proof.
  intros Hne Hw [Ht Ha [Hd Hdr] Hata]. assert (va_address a <> wallet) as Haw by (intros E; rewrite E in Ht; congruence). unfold effectsOf, creditTo. cbn [map sumZ fold_right].
  destruct (Z.ltb_spec 0 (va_amountRaw a)) as [Hpos|Hz].
  - destruct (Hata Hpos) as (w & Hlw & Ow & Mw & Pw).
    destruct (transfer_runs l (va_tokenProgramId a) (va_address a) (va_mint a) (walletAtaOf wallet a) vault (va_decimals a) _ w Ht Hlw) as (l1 & E1 & D1 & L1 & Hsd & T1); try done;
      [congruence|cbn; lia|]. cbn [tk_amount] in *.
    destruct (close_runs l1 (va_tokenProgramId a) (va_address a) (va_mint a) wallet vault (addTokens (- va_amountRaw a)
      {| tk_owner := vault; tk_mint := va_mint a; tk_program := va_tokenProgramId a; tk_amount := va_amountRaw a |})) as (l2 & E2 & D2 & T2 & L2); try done;
      [by rewrite T1, decide_True by done|cbn; lia|].
    exists l2. split; [cbn [app applyAll]; rewrite E1; cbn [mbind option_bind]; by rewrite E2|]. split; [congruence|]. split; [|intros k; by rewrite L2, L1].
    intros k. rewrite T2. destruct (decide (k = va_address a)) as [|Hk]; [done|]. rewrite T1, (decide_False (P := k = va_address a)) by done. rewrite Z.max_r by lia.
    destruct (decide (k = walletAtaOf wallet a)) as [->|]; [by rewrite Hlw, Z.add_0_r|]. rewrite Z.add_0_r. destruct (lg_token l k); [|done]. cbn. by rewrite addTokens_zero.
  - assert (va_amountRaw a = 0) as Ez by lia.
    destruct (close_runs l (va_tokenProgramId a) (va_address a) (va_mint a) wallet vault _ Ht) as (l2 & E2 & D2 & T2 & L2); try done.
    exists l2. split; [cbn [app applyAll]; by rewrite E2|]. split; [done|]. split; [|done]. intros k. rewrite T2. destruct (decide (k = va_address a)); [done|].
    rewrite Ez, Z.max_l by lia. replace ((if decide (k = walletAtaOf wallet a) then 0 else 0) + 0) with 0 by (by destruct (decide _)).
    destruct (lg_token l k); [|done]. cbn. by rewrite addTokens_zero.
Qed.

Lemma credit_split wallet a accounts k : creditTo wallet (a :: accounts) k = creditTo wallet [a] k + creditTo wallet accounts k.
Proof. unfold creditTo, sumZ. cbn [map fold_right]. lia. Qed.

(** Accounts that an account's clean-up does not touch are still shown. *)
Lemma shows_after l l' vault wallet a b : wallet <> vault -> shows l vault wallet a -> shows l vault wallet b -> va_address b <> va_address a -> lg_decimals l' = lg_decimals l ->
  (forall k, lg_token l' k = if decide (k = va_address a) then None else addTokens (creditTo wallet [a] k) <$> lg_token l k) -> shows l' vault wallet b.
Proof.
  intros Hne [Ta Aa Da Wa] [Tb Ab Db Wb] Hab Hd Ht. constructor; [|done|by rewrite Hd|].
  - rewrite Ht, decide_False by done. rewrite Tb. cbn [fmap option_fmap option_map]. unfold creditTo. cbn [map sumZ fold_right].
    destruct (decide (va_address b = walletAtaOf wallet a)) as [E|]; [|by rewrite Z.add_0_r, addTokens_zero].
    destruct (Z.ltb_spec 0 (va_amountRaw a)) as [Hp|Hz]; [|rewrite Z.max_l by lia; by rewrite Z.add_0_r, addTokens_zero].
    exfalso. destruct (Wa Hp) as (w & Hw & Ow & _). rewrite <- E, Tb in Hw. injection Hw as <-. cbn in Ow. congruence.
  - intros Hp. destruct (Wb Hp) as (w & Hw & Ow & Mw & Pw). rewrite Ht, Hw. rewrite decide_False by (intros E; rewrite E, Ta in Hw; injection Hw as <-; cbn in Ow; congruence).
    eexists. split; [reflexivity|]. done.
Qed.

Lemma accounts_run l vault wallet accounts : wallet <> vault -> lg_token l wallet = None -> Forall (shows l vault wallet) accounts -> NoDup (map va_address accounts) ->
  exists l', applyAll l (flat_map (effectsOf vault wallet) accounts) = Some l' /\ lg_decimals l' = lg_decimals l /\
    (forall k, lg_token l' k = if decide (k ∈ map va_address accounts) then None else addTokens (creditTo wallet accounts k) <$> lg_token l k) /\
    (forall k, lg_lamports l' k = if decide (k ∈ map va_address accounts) then 0
                                  else lg_lamports l k + (if decide (k = wallet) then sumZ (map (fun a => lg_lamports l (va_address a)) accounts) else 0)).
Proof.
  intros Hne. revert l. induction accounts as [|a accounts IH]; intros l Hw Hs Hn.
  - exists l. split; [done|]. split; [done|]. split; intros k; (rewrite decide_False by set_solver).
    + destruct (lg_token l k); [|done]. unfold creditTo. cbn. by rewrite addTokens_zero.
    + cbn. destruct (decide _); lia.
  - apply Forall_cons in Hs as [Ha Hs]. cbn [map] in Hn. apply NoDup_cons in Hn as [Hna Hn]. destruct (account_runs l vault wallet a Hne Hw Ha) as (l1 & E1 & D1 & T1 & L1).
    destruct (IH l1) as (l2 & E2 & D2 & T2 & L2).
    + rewrite T1. destruct (decide _); [done|]. by rewrite Hw.
    + apply Forall_forall. intros b Hb. rewrite Forall_forall in Hs. eapply shows_after; [exact Hne|exact Ha|by apply Hs| |exact D1|exact T1].
      intros E. apply Hna. rewrite <- E. apply list_elem_of_fmap. by exists b.
    + done.
    + exists l2. split; [cbn [flat_map]; rewrite applyAll_app, E1; exact E2|]. split; [congruence|]. split; intros k.
      * rewrite T2, T1. cbn [map]. destruct (decide (k ∈ map va_address accounts)); [by rewrite decide_True by (apply elem_of_cons; by right)|].
        destruct (decide (k = va_address a)) as [->|]; [by rewrite decide_True by (apply elem_of_cons; by left)|].
        rewrite (decide_False (P := k ∈ _)) by (intros [?|?]%elem_of_cons; done).
        rewrite (credit_split wallet a accounts). destruct (lg_token l k); [|done]. cbn [fmap option_fmap option_map]. by rewrite addTokens_twice.
      * rewrite L2, L1. cbn [map sumZ fold_right]. destruct (decide (k ∈ map va_address accounts)); [by rewrite decide_True by (apply elem_of_cons; by right)|].
        destruct (decide (k = va_address a)) as [->|Hka].
        { rewrite (decide_True (P := va_address a ∈ _)) by (apply elem_of_cons; by left). destruct (decide (va_address a = wallet)) as [E|]; [|lia]. destruct Ha as [Ht _ _ _]. rewrite E in Ht. congruence. }
        rewrite (decide_False (P := k ∈ _)) by (intros [?|?]%elem_of_cons; done). destruct (decide (k = wallet)) as [->|]; [|lia].
        replace (map (fun a0 => lg_lamports l1 (va_address a0)) accounts) with (map (fun a0 => lg_lamports l (va_address a0)) accounts); [unfold sumZ; lia|].
        apply map_ext_in. intros b Hb. rewrite L1. apply list_elem_of_In in Hb. rewrite Forall_forall in Hs. destruct (Hs b Hb) as [Htb _ _ _].
        rewrite !decide_False; [lia| |]; [intros E; rewrite E in Htb; congruence|]. intros E. apply Hna. rewrite <- E. apply list_elem_of_fmap. by exists b.
Qed.

(** ** The messages *)
Definition sweepEffects (vault wallet : pubkey) (lamports : Z) : list Effect := if 0 <? lamports then [TransferLamports vault wallet lamports] else [].

Notation carries := (carriesOut ledger ordinary execute).

Lemma carried l vault wallet accounts lamports : Forall (shows l vault wallet) accounts -> lamports < 2 ^ 64 ->
  Forall2 carries (map plain (flat_map (instructionsOf vault wallet) accounts ++ sweepLamports vault wallet lamports))
    (flat_map (effectsOf vault wallet) accounts ++ sweepEffects vault wallet lamports).
Proof.
  intros Hs Hl. rewrite map_app. apply Forall2_app.
  - induction Hs as [|a accounts [_ Ha [_ Hd] _] _ IH]; cbn [flat_map map]; [constructor|]. rewrite map_app. apply Forall2_app; [|exact IH]. unfold instructionsOf, effectsOf. rewrite map_app.
    apply Forall2_app; [|cbn [map]; rewrite plain_makeSigner; repeat constructor; apply does_close].
    destruct (Z.ltb_spec 0 (va_amountRaw a)); cbn [map]; [|constructor]. rewrite plain_makeSigner. repeat constructor. by apply does_transfer.
  - unfold sweepLamports, sweepEffects. destruct (Z.ltb_spec 0 lamports); cbn [map]; repeat constructor. apply does_lamports. lia.
Qed.

Definition small (ix : instruction) : Prop := (length (keys ix) <= 255)%nat /\ (length (data ix) < Z.to_nat 65536)%nat.
Lemma small_signer ix k : (length (keys ix) <= 255)%nat /\ (length (data ix) <= 255)%nat -> small (makeSignerWritable ix k).
Proof. intros [H1 H2]. unfold small, makeSignerWritable. cbn [keys data]. rewrite length_map. lia. Qed.

Lemma small_account vault wallet a : Forall small (instructionsOf vault wallet a) /\ (length (instructionsOf vault wallet a) <= 2)%nat.
Proof.
  unfold instructionsOf. pose proof (small_signer _ vault (small_close (va_address a) wallet vault (va_tokenProgramId a))) as Hc.
  destruct (0 <? va_amountRaw a); cbn [app]; (split; [|cbn [length]; lia]); rewrite ?Forall_cons; [|by split; [|apply Forall_nil]].
  split; [|by split; [|apply Forall_nil]]. apply small_signer. exact (small_transfer _ _ _ _ _ _ _).
Qed.

Lemma small_sweep vault wallet lamports : Forall small (sweepLamports vault wallet lamports) /\ (length (sweepLamports vault wallet lamports) <= 1)%nat.
Proof.
  unfold sweepLamports. destruct (0 <? lamports); (split; [|cbn [length]; lia]); [|apply Forall_nil_2]. apply Forall_singleton.
  destruct (small_lamports vault wallet lamports) as [H1 H2]. split; [done|]. lia.
Qed.

Lemma cleanup_small vault wallet accounts lamports : Forall small (flat_map (instructionsOf vault wallet) accounts ++ sweepLamports vault wallet lamports) /\
  (length (flat_map (instructionsOf vault wallet) accounts ++ sweepLamports vault wallet lamports) <= 2 * length accounts + 1)%nat.
Proof.
  destruct (small_sweep vault wallet lamports) as [Ss Ls].
  assert (Forall small (flat_map (instructionsOf vault wallet) accounts) /\ (length (flat_map (instructionsOf vault wallet) accounts) <= 2 * length accounts)%nat) as [Sa La].
  { induction accounts as [|a accounts [IH1 IH2]]; [by split; [constructor|]|]. cbn [flat_map length]. destruct (small_account vault wallet a) as [H1 H2].
    split; [by apply Forall_app|]. rewrite length_app. lia. }
  split; [by apply Forall_app|]. rewrite length_app. lia.
Qed.

Lemma cleanup_fits vault wallet accounts lamports : (length accounts <= 127)%nat ->
  MessageCompile.fits (flat_map (instructionsOf vault wallet) accounts ++ sweepLamports vault wallet lamports).
Proof. intros Hl. destruct (cleanup_small vault wallet accounts lamports) as [H1 H2]. split; [lia|exact H1]. Qed.

(** What a transaction of the vault carries *)
Lemma transaction_carries feePayer settings wallet vault memo ixs built : vaultTransaction feePayer settings wallet vault memo ixs = Ok built -> MessageCompile.fits ixs ->
  exists request tail, executeTransactionSyncV2 request = Ok built /\ ts_settingsPda request = settings /\ ts_accountIndex request = EARN_VAULT_INDEX /\
    ts_instruction_accounts request = Meta wallet true false :: tail /\ readMessage (map meta_pubkey tail) (ts_instructions request) = Some (map plain ixs).
Proof.
  intros H Hf. unfold vaultTransaction in H. apply bind_Ok in H as ([bytes accounts] & Hc & H). pose proof (sync_faithful vault [wallet] [] [] ixs Hf) as Hs.
  unfold compileToSynchronousMessageAndAccountsV2 in Hc. rewrite Hc in Hs. destruct Hs as (tail & Ht & Hr & _). eexists _, tail. split; [exact H|]. done.
Qed.

(** ** The whole vault *)
(** The ledger shows exactly these token accounts for the vault, which are not accounts of their own. *)
Record vault_shown (l : Ledger) (vault wallet : pubkey) (accounts : list VaultTokenAccount) : Prop := {
  vs_apart : wallet <> vault;
  vs_plain : lg_token l wallet = None /\ lg_token l vault = None;
  vs_each : Forall (shows l vault wallet) accounts;
  vs_distinct : NoDup (map va_address accounts);
  vs_complete k t : lg_token l k = Some t -> tk_owner t = vault -> k ∈ map va_address accounts;
  vs_sol : 0 <= lg_lamports l vault < 2 ^ 64;
}.

(** Nothing is left, and everything went to the wallet. *)
Record emptied (l l' : Ledger) (vault wallet : pubkey) (accounts : list VaultTokenAccount) : Prop := {
  em_none k t : lg_token l' k = Some t -> tk_owner t <> vault;
  em_credited k t : lg_token l k = Some t -> tk_owner t <> vault -> lg_token l' k = Some (addTokens (creditTo wallet accounts k) t);
  em_vault : lg_lamports l' vault = 0;
  em_wallet : lg_lamports l' wallet = lg_lamports l wallet + lg_lamports l vault + sumZ (map (fun a => lg_lamports l (va_address a)) accounts);
  em_others k : k <> vault -> k <> wallet -> k ∉ map va_address accounts -> lg_lamports l' k = lg_lamports l k;
}.

Lemma vault_runs l vault wallet accounts : vault_shown l vault wallet accounts ->
  exists l', applyAll l (flat_map (effectsOf vault wallet) accounts ++ sweepEffects vault wallet (lg_lamports l vault)) = Some l' /\ emptied l l' vault wallet accounts.
Proof.
  intros [Hne [Hw Hv] Hs Hn Hc Hsol]. destruct (accounts_run l vault wallet accounts Hne Hw Hs Hn) as (l1 & E1 & _ & T1 & L1). rewrite applyAll_app, E1. cbn [mbind option_bind].
  assert (vault ∉ map va_address accounts /\ wallet ∉ map va_address accounts) as [Nv Nw].
  { split; intros (a & E & Ha)%list_elem_of_fmap; rewrite Forall_forall in Hs; destruct (Hs a Ha) as [Ht _ _ _]; rewrite <- E in Ht; congruence. }
  assert (lg_lamports l1 vault = lg_lamports l vault) as Lv by (rewrite L1, !decide_False by done; lia).
  set (n := lg_lamports l vault) in *. assert (exists l2, applyAll l1 (sweepEffects vault wallet n) = Some l2 /\ lg_token l2 = lg_token l1 /\
    forall k, lg_lamports l2 k = if decide (k = wallet) then lg_lamports l1 wallet + n else if decide (k = vault) then 0 else lg_lamports l1 k) as (l2 & E2 & T2 & L2).
  { unfold sweepEffects. destruct (Z.ltb_spec 0 n).
    - cbn [applyAll applyEffect]. rewrite Lv. replace ((0 <=? n) && (n <=? n)) with true by lia. eexists. split; [reflexivity|]. split; [done|]. intros k. cbn [withAccounts lg_lamports].
      unfold added, updated. destruct (decide (k = wallet)) as [->|]; [by rewrite decide_False|]. destruct (decide (k = vault)); [lia|done].
    - exists l1. split; [done|]. split; [done|]. intros k. destruct (decide (k = wallet)) as [->|]; [lia|]. destruct (decide (k = vault)) as [->|]; [lia|done]. }
  exists l2. split; [exact E2|]. constructor.
  - intros k t. rewrite T2, T1. destruct (decide (k ∈ map va_address accounts)) as [|Hk]; [done|]. destruct (lg_token l k) as [t0|] eqn:E; [|done]. intros [= <-] Ho. cbn in Ho. by eapply Hk, Hc.
  - intros k t Ht Ho. rewrite T2, T1, Ht. rewrite decide_False; [done|]. intros (a & E & Ha)%list_elem_of_fmap. rewrite Forall_forall in Hs. destruct (Hs a Ha) as [Hta _ _ _].
    rewrite <- E, Ht in Hta. injection Hta as ->. done.
  - rewrite L2, decide_False, decide_True by done. done.
  - rewrite L2, decide_True, L1, decide_False, decide_True by done. lia.
  - intros k K1 K2 K3. rewrite L2, !decide_False, L1, !decide_False by done. lia.
Qed.

(** ** Opening the wallet's accounts *)
Definition opensOf (payer wallet : pubkey) (a : VaultTokenAccount) : list Effect :=
  if 0 <? va_amountRaw a then [OpenTokens (va_tokenProgramId a) payer (walletAtaOf wallet a) wallet (va_mint a)] else [].
Definition openInstructions (payer wallet : pubkey) (a : VaultTokenAccount) : list instruction :=
  if 0 <? va_amountRaw a then [createAtaIdempotent payer (walletAtaOf wallet a) wallet (va_mint a) (va_tokenProgramId a)] else [].

(** The most the wallet's accounts can cost *)
Definition rentOf (l : Ledger) (a : VaultTokenAccount) : Z := if 0 <? va_amountRaw a then Z.max 0 (lg_rent l (va_mint a)) else 0.

Definition wallets (wallet : pubkey) (a : VaultTokenAccount) (t : TokenState) : Prop := tk_owner t = wallet /\ tk_mint t = va_mint a /\ tk_program t = va_tokenProgramId a.

(** The wallet's account for an account of the vault is there, or its key is free. *)
Record receivable (l : Ledger) (payer vault wallet : pubkey) (a : VaultTokenAccount) : Prop := {
  rc_free : lg_token l (walletAtaOf wallet a) = None -> walletAtaOf wallet a <> payer /\ walletAtaOf wallet a <> vault /\ walletAtaOf wallet a <> wallet;
  rc_there t : lg_token l (walletAtaOf wallet a) = Some t -> wallets wallet a t;
}.

(** What opening accounts does: accounts that were there are as they were, new ones are empty accounts of the wallet for an account of the vault, and only they and the payer have other
    lamports. *)
Record opened (l l' : Ledger) (payer wallet : pubkey) (accounts : list VaultTokenAccount) : Prop := {
  op_kept k t : lg_token l k = Some t -> lg_token l' k = Some t;
  op_new k t : lg_token l k = None -> lg_token l' k = Some t -> tk_amount t = 0 /\ tk_owner t = wallet /\ exists a, a ∈ accounts /\ 0 < va_amountRaw a /\ k = walletAtaOf wallet a;
  op_lamports k : k <> payer -> (lg_token l k <> None \/ lg_token l' k = None) -> lg_lamports l' k = lg_lamports l k;
  op_constants k : lg_decimals l' k = lg_decimals l k /\ lg_rent l' k = lg_rent l k;
}.

Lemma opened_nil l payer wallet accounts : opened l l payer wallet accounts.
Proof. constructor; try done. congruence. Qed.

Lemma opened_trans l l1 l2 payer wallet accounts : opened l l1 payer wallet accounts -> opened l1 l2 payer wallet accounts -> opened l l2 payer wallet accounts.
Proof.
  intros [K1 N1 L1 C1] [K2 N2 L2 C2]. constructor.
  - auto.
  - intros k t Hk Ht. destruct (lg_token l1 k) as [t1|] eqn:E; [|by apply (N2 k)]. assert (t1 = t) as -> by (specialize (K2 k t1 E); congruence). by apply (N1 k).
  - intros k Hk Ht. rewrite L2, L1; [done|done| |done|].
    + destruct Ht as [?|Ht]; [by left|]. right. destruct (lg_token l1 k) as [t1|] eqn:E; [|done]. specialize (K2 k t1 E). congruence.
    + destruct Ht as [Ht|Ht]; [|by right]. left. destruct (lg_token l k) as [t|] eqn:E; [|done]. by rewrite (K1 k t E).
  - intros k. destruct (C1 k), (C2 k). split; congruence.
Qed.

Lemma opened_more l l' payer wallet accounts accounts' : accounts ⊆ accounts' -> opened l l' payer wallet accounts -> opened l l' payer wallet accounts'.
Proof. intros Hs [K N L C]. constructor; try done. intros k t Hk Ht. destruct (N k t Hk Ht) as (H1 & H2 & a & Ha & H3). split; [done|]. split; [done|]. exists a. split; [by apply Hs|done]. Qed.

(** One account is opened. *)
Lemma open_runs l payer vault wallet a : receivable l payer vault wallet a -> 0 < va_amountRaw a -> rentOf l a <= lg_lamports l payer -> 0 <= lg_lamports l (walletAtaOf wallet a) ->
  exists l', applyAll l (opensOf payer wallet a) = Some l' /\ opened l l' payer wallet [a] /\ (exists t, lg_token l' (walletAtaOf wallet a) = Some t /\ wallets wallet a t) /\
    lg_lamports l payer - rentOf l a <= lg_lamports l' payer /\ (forall k, k <> payer -> 0 <= lg_lamports l k -> 0 <= lg_lamports l' k).
Proof.
  intros [Hfree Hthere] Hp Hrent Hnn. unfold opensOf, rentOf in *. replace (0 <? va_amountRaw a) with true in * by lia. cbn [applyAll applyEffect]. set (ata := walletAtaOf wallet a) in *.
  destruct (lg_token l ata) as [t|] eqn:Et.
  - destruct (Hthere t eq_refl) as (H1 & H2 & H3). rewrite !bool_decide_eq_true_2 by done. exists l. split; [done|]. split; [apply opened_nil|]. split; [by exists t|]. split; [lia|done].
  - destruct (Hfree eq_refl) as (N1 & N2 & N3). assert (Hcost : 0 <= openingCost l ata (va_mint a) <= Z.max 0 (lg_rent l (va_mint a))) by (unfold openingCost; lia).
    rewrite bool_decide_eq_true_2 by congruence. replace (openingCost l ata (va_mint a) <=? lg_lamports l payer) with true by lia. cbn [andb]. eexists. split; [reflexivity|].
    split; [constructor|split; [|split]]; cbn [withAccounts lg_token lg_lamports lg_decimals lg_rent]; try done.
    + intros k t Hk. rewrite updated_ne by congruence. done.
    + intros k t Hk Ht. unfold updated in Ht. destruct (decide (k = ata)) as [->|]; [|congruence]. injection Ht as <-. split; [done|]. split; [done|]. exists a. split; [by left|done].
    + intros k Hk Ht. assert (k <> ata) by (intros ->; rewrite updated_at in Ht; destruct Ht; congruence). unfold added. by rewrite !updated_ne.
    + eexists. rewrite updated_at. split; [reflexivity|]. done.
    + unfold added. rewrite (updated_ne _ ata) by congruence. rewrite updated_at. lia.
    + intros k Hk Hkn. unfold added, updated. destruct (decide (k = ata)) as [->|]; [destruct (decide (ata = payer)); lia|]. destruct (decide (k = payer)); lia.
Qed.

(** Accounts with the same key in the wallet are of one mint and program. *)
Definition one_mint (wallet : pubkey) (accounts : list VaultTokenAccount) : Prop := forall a b, a ∈ accounts -> b ∈ accounts -> walletAtaOf wallet a = walletAtaOf wallet b ->
  va_mint a = va_mint b /\ va_tokenProgramId a = va_tokenProgramId b.

Lemma receivable_after l l' payer vault wallet a b accounts : opened l l' payer wallet [a] -> receivable l payer vault wallet b -> one_mint wallet accounts -> a ∈ accounts -> b ∈ accounts ->
  (exists t, lg_token l' (walletAtaOf wallet a) = Some t /\ wallets wallet a t) -> receivable l' payer vault wallet b.
Proof.
  intros [K N _ _] [Hfree Hthere] Hone Ha Hb (ta & Hta & Wa). constructor.
  - intros H. apply Hfree. destruct (lg_token l (walletAtaOf wallet b)) as [t|] eqn:E; [|done]. specialize (K _ _ E). congruence.
  - intros t Ht. destruct (lg_token l (walletAtaOf wallet b)) as [t0|] eqn:E; [apply Hthere; specialize (K _ _ E); congruence|].
    destruct (N _ _ E Ht) as (_ & _ & x & Hx & _ & Ek). apply list_elem_of_singleton in Hx as ->. rewrite Ek in Ht. assert (t = ta) as -> by congruence.
    destruct (Hone b a Hb Ha Ek) as [Em Ep]. destruct Wa as (W1 & W2 & W3). unfold wallets. by rewrite Em, Ep.
Qed.

Lemma opens_run payer vault wallet accounts : one_mint wallet accounts -> forall todo l, todo ⊆ accounts -> Forall (fun a => 0 < va_amountRaw a -> receivable l payer vault wallet a) todo ->
  (forall k, k <> payer -> 0 <= lg_lamports l k) -> Forall (fun a => walletAtaOf wallet a <> payer) todo -> sumZ (map (rentOf l) todo) <= lg_lamports l payer ->
  exists l', applyAll l (flat_map (opensOf payer wallet) todo) = Some l' /\ opened l l' payer wallet accounts /\
    Forall (fun a => 0 < va_amountRaw a -> exists t, lg_token l' (walletAtaOf wallet a) = Some t /\ wallets wallet a t) todo.
Proof.
  intros Hone. induction todo as [|a todo IH]; intros l Hsub Hrec Hnn Hpay Hrent.
  - exists l. split; [done|]. split; [apply opened_nil|constructor].
  - apply Forall_cons in Hrec as [Ha Hrec], Hpay as [Hpa Hpay]. cbn [map sumZ fold_right] in Hrent. fold (sumZ (map (rentOf l) todo)) in Hrent.
    assert (Hsum : 0 <= sumZ (map (rentOf l) todo)).
    { clear. induction todo as [|x todo IH]; [done|]. cbn [map sumZ fold_right]. fold (sumZ (map (rentOf l) todo)). unfold rentOf at 1. destruct (0 <? _); lia. }
    assert (exists l1, applyAll l (opensOf payer wallet a) = Some l1 /\ opened l l1 payer wallet [a] /\
      (0 < va_amountRaw a -> exists t, lg_token l1 (walletAtaOf wallet a) = Some t /\ wallets wallet a t) /\ lg_lamports l payer - rentOf l a <= lg_lamports l1 payer /\
      (forall k, k <> payer -> 0 <= lg_lamports l1 k)) as (l1 & E1 & O1 & T1 & P1 & N1).
    { destruct (Z.ltb_spec 0 (va_amountRaw a)) as [Hp|Hz].
      - destruct (open_runs l payer vault wallet a (Ha Hp) Hp ltac:(lia) ltac:(by apply Hnn)) as (l1 & E1 & O1 & T1 & P1 & N1). exists l1. split; [done|]. split; [done|]. split; [done|].
        split; [done|]. intros k Hk. apply N1; [done|by apply Hnn].
      - exists l. unfold opensOf, rentOf. replace (0 <? va_amountRaw a) with false by lia. split; [done|]. split; [apply opened_nil|]. split; [lia|]. split; [lia|done]. }
    destruct (IH l1) as (l2 & E2 & O2 & T2); [set_solver| |done|done| |].
    + apply Forall_forall. intros b Hb Hpb. rewrite Forall_forall in Hrec. destruct (Z.ltb_spec 0 (va_amountRaw a)) as [Hp|Hz].
      * eapply receivable_after; [exact O1|by apply Hrec|exact Hone|set_solver|set_solver|by apply T1].
      * unfold opensOf in E1. replace (0 <? va_amountRaw a) with false in E1 by lia. injection E1 as <-. by apply Hrec.
    + replace (map (rentOf l1) todo) with (map (rentOf l) todo); [lia|]. apply map_ext. intros b. unfold rentOf. by rewrite (proj2 (op_constants _ _ _ _ _ O1 (va_mint b))).
    + exists l2. split; [cbn [flat_map]; rewrite applyAll_app, E1; exact E2|]. split; [eapply opened_trans; [eapply opened_more; [|exact O1]; set_solver|exact O2]|].
      constructor; [|done]. intros Hp. destruct (T1 Hp) as (t & Ht & W). exists t. split; [by apply (op_kept _ _ _ _ _ O2)|done].
Qed.

(** ** The vault before anything is done *)
(** The ledger shows exactly these token accounts for the vault, the wallet can receive their balances, and the payer can pay for it. Wallet, vault and payer are no token accounts. *)
Record vault_known (l : Ledger) (payer vault wallet : pubkey) (accounts : list VaultTokenAccount) : Prop := {
  vk_apart : wallet <> vault /\ payer <> vault;
  vk_plain : lg_token l wallet = None /\ lg_token l vault = None /\ lg_token l payer = None;
  vk_each : Forall (fun a => lg_token l (va_address a) = Some {| tk_owner := vault; tk_mint := va_mint a; tk_program := va_tokenProgramId a; tk_amount := va_amountRaw a |} /\
    0 <= va_amountRaw a < 2 ^ 64 /\ va_decimals a = lg_decimals l (va_mint a) /\ 0 <= va_decimals a < 256) accounts;
  vk_distinct : NoDup (map va_address accounts);
  vk_complete k t : lg_token l k = Some t -> tk_owner t = vault -> k ∈ map va_address accounts;
  vk_receivable : Forall (fun a => 0 < va_amountRaw a -> receivable l payer vault wallet a) accounts;
  vk_keys : one_mint wallet accounts /\ Forall (fun a => walletAtaOf wallet a <> payer) accounts;
  vk_rent : sumZ (map (rentOf l) accounts) <= lg_lamports l payer;
  vk_sol : (forall k, k <> payer -> 0 <= lg_lamports l k) /\ lg_lamports l vault < 2 ^ 64;
}.

(** Once the wallet's accounts are open, the vault can be emptied. *)
Lemma opened_shown l payer vault wallet accounts : vault_known l payer vault wallet accounts ->
  exists l1, applyAll l (flat_map (opensOf payer wallet) accounts) = Some l1 /\ opened l l1 payer wallet accounts /\ vault_shown l1 vault wallet accounts /\
    lg_lamports l1 vault = lg_lamports l vault.
Proof.
  intros [[A1 A2] (P1 & P2 & P3) He Hn Hc Hrec [Hone Hpay] Hrent [Hnn Hsol]].
  destruct (opens_run payer vault wallet accounts Hone accounts l (reflexivity accounts) Hrec Hnn Hpay Hrent) as (l1 & E1 & O1 & T1). exists l1. split; [done|]. split; [done|].
  assert (Hnot : forall k, lg_token l k = None -> (forall a, a ∈ accounts -> 0 < va_amountRaw a -> k = walletAtaOf wallet a -> False) -> lg_token l1 k = None).
  { intros k Hk Hno. destruct (lg_token l1 k) as [t|] eqn:E; [|done]. destruct (op_new _ _ _ _ _ O1 k t Hk E) as (_ & _ & a & Ha & Hp & ->). exfalso. by eapply Hno. }
  assert (Hw1 : lg_token l1 wallet = None /\ lg_token l1 vault = None).
  { rewrite Forall_forall in Hrec. split; apply Hnot; try done; intros a Ha Hp E; destruct (Hrec a Ha Hp) as [Hfree _]; rewrite <- E in Hfree; destruct (Hfree ltac:(done)) as (_ & ? & ?); done. }
  assert (Hv : lg_lamports l1 vault = lg_lamports l vault) by (apply (op_lamports _ _ _ _ _ O1); [congruence|right; apply Hw1]). split; [|done].
  pose proof (fun k => proj1 (op_constants _ _ _ _ _ O1 k)) as D1. constructor; [done|done| |done| |].
  - rewrite Forall_forall in He, T1 |- *. intros a Ha. destruct (He a Ha) as (Ht & Hb & Hd & Hdr). constructor; [by apply (op_kept _ _ _ _ _ O1)|done|by rewrite D1|].
    intros Hp. destruct (T1 a Ha Hp) as (t & Ht' & W1 & W2 & W3). by exists t.
  - intros k t Hk Ho. destruct (lg_token l k) as [t0|] eqn:E; [apply (Hc k t0 E); rewrite (op_kept _ _ _ _ _ O1 k t0 E) in Hk; congruence|].
    destruct (op_new _ _ _ _ _ O1 k t E Hk) as (_ & Hwo & _). congruence.
  - rewrite Hv. split; [by apply Hnn|done].
Qed.

(** Everything a clean-up touches is ordinary. *)
Record ordinary_vault (st : Accounts) (payer vault wallet : pubkey) (accounts : list VaultTokenAccount) : Prop := {
  ov_system : ordinary st (SystemAt payer) /\ ordinary st (SystemAt vault) /\ ordinary st (SystemAt wallet);
  ov_vault : Forall (fun a => ordinary st (TokenAt (va_mint a) (va_address a))) accounts;
  ov_wallet : Forall (fun a => 0 < va_amountRaw a -> ordinary st (TokenAt (va_mint a) (walletAtaOf wallet a))) accounts;
}.

(** The wallet's account can be derived, for a program of tokens. *)
Definition derivable (wallet : pubkey) (a : VaultTokenAccount) : Prop := 0 < va_amountRaw a ->
  (va_tokenProgramId a = splTokenProgram \/ va_tokenProgramId a = splToken2022Program) /\ associatedTokenAddress (va_mint a) wallet false (va_tokenProgramId a) = Ok (walletAtaOf wallet a).

Lemma opens_carried payer wallet accounts : Forall (derivable wallet) accounts ->
  Forall2 carries (map plain (flat_map (openInstructions payer wallet) accounts)) (flat_map (opensOf payer wallet) accounts).
Proof.
  induction 1 as [|a accounts Ha _ IH]; [constructor|]. cbn [flat_map]. rewrite map_app. apply Forall2_app; [|exact IH]. unfold openInstructions, opensOf.
  destruct (Z.ltb_spec 0 (va_amountRaw a)) as [Hp|]; repeat constructor. destruct (Ha Hp) as [H1 H2]. by apply does_open.
Qed.

Lemma opens_ordinary st payer vault wallet accounts : ordinary_vault st payer vault wallet accounts -> Forall (ordinary st) (flat_map touched (flat_map (opensOf payer wallet) accounts)).
Proof.
  intros [[Hp _] _ Hw]. apply Forall_flat_map, Forall_flat_map. eapply Forall_impl; [exact Hw|]. intros a Ha. unfold opensOf. destruct (Z.ltb_spec 0 (va_amountRaw a)); [|constructor].
  apply Forall_singleton. cbn [touched]. constructor; [by apply Ha|]. by constructor.
Qed.

Lemma effects_ordinary st payer vault wallet accounts lamports : ordinary_vault st payer vault wallet accounts ->
  Forall (ordinary st) (flat_map touched (flat_map (effectsOf vault wallet) accounts ++ sweepEffects vault wallet lamports)).
Proof.
  intros [(_ & Hv & Hs) Ha Hw]. apply Forall_flat_map, Forall_app. split.
  - apply Forall_flat_map. apply Forall_forall. intros a Hin. rewrite Forall_forall in Ha, Hw. specialize (Ha a Hin). specialize (Hw a Hin). unfold effectsOf. apply Forall_app. split.
    + destruct (Z.ltb_spec 0 (va_amountRaw a)); [|constructor]. apply Forall_singleton. cbn [touched]. constructor; [done|]. constructor; [by apply Hw|constructor].
    + apply Forall_singleton. cbn [touched]. constructor; [done|]. by constructor.
  - unfold sweepEffects. destruct (0 <? lamports); [|constructor]. apply Forall_singleton. cbn [touched]. constructor; [done|]. by constructor.
Qed.

Lemma ordinary_kept st st' payer vault wallet accounts : (forall t, ordinary st t -> ordinary st' t) -> ordinary_vault st payer vault wallet accounts -> ordinary_vault st' payer vault wallet accounts.
Proof. intros H [(H1 & H2 & H3) Ha Hw]. constructor; [auto|eapply Forall_impl; [exact Ha|auto]|eapply Forall_impl; [exact Hw|cbn; auto]]. Qed.

(** On ledgers that show the same *)
Lemma emptied_same l l1 m m1 vault wallet accounts : same l m -> same l1 m1 -> emptied l l1 vault wallet accounts -> emptied m m1 vault wallet accounts.
Proof.
  intros [T L _ _] [T1 L1 _ _] [H1 H2 H3 H4 H5]. constructor.
  - intros k t. rewrite <- T1. apply H1.
  - intros k t. rewrite <- T, <- T1. apply H2.
  - by rewrite <- L1.
  - rewrite <- L1, <- (L wallet), <- (L vault), H4. f_equal. f_equal. apply map_ext. intros a. apply L.
  - intros k K1 K2 K3. rewrite <- L1, <- L. by apply H5.
Qed.
Lemma opened_same l l1 m m1 payer wallet accounts : same l m -> same l1 m1 -> opened l l1 payer wallet accounts -> opened m m1 payer wallet accounts.
Proof.
  intros [T L D R] [T1 L1 D1 R1] [K N Lm C]. constructor.
  - intros k t. rewrite <- T, <- T1. apply K.
  - intros k t. rewrite <- T, <- T1. apply N.
  - intros k. rewrite <- T, <- T1, <- L, <- L1. apply Lm.
  - intros k. rewrite <- D, <- D1, <- R, <- R1. apply C.
Qed.

(** The wallet's accounts are opened, then the vault's transaction empties it, whatever its effects are. *)
Lemma opens_then st payer vault wallet accounts : vault_known (ledger st) payer vault wallet accounts -> ordinary_vault st payer vault wallet accounts -> Forall (derivable wallet) accounts ->
  exists st1, executeAll st (map plain (flat_map (openInstructions payer wallet) accounts)) = Some st1 /\ opened (ledger st) (ledger st1) payer wallet accounts /\
    lg_lamports (ledger st1) vault = lg_lamports (ledger st) vault /\ ordinary_vault st1 payer vault wallet accounts /\
    exists l1, same (ledger st1) l1 /\ vault_shown l1 vault wallet accounts.
Proof.
  intros Hk Ho Hd. destruct (opened_shown _ _ _ _ _ Hk) as (l1 & E1 & O1 & S1 & L1).
  destruct (executes _ _ (opens_carried payer wallet accounts Hd) st (ledger st) l1 (reflexivity _) (opens_ordinary _ _ _ _ _ Ho) E1) as (st1 & X1 & M1 & K1).
  exists st1. split; [done|]. split; [eapply opened_same; [reflexivity|symmetry; exact M1|exact O1]|]. split; [by rewrite (sm_lamports _ _ M1)|]. split; [by eapply ordinary_kept|]. by exists l1.
Qed.

(** The USDC of a clean-up *)
Definition usdcOf (usdcMint : pubkey) (a : VaultTokenAccount) : Z := if key_equals (va_mint a) usdcMint then Z.max 0 (va_amountRaw a) else 0.

Lemma cleanup_steps feePayer usdcMint vault wallet accounts state c : foldR (cleanUpAccount feePayer usdcMint vault wallet) state accounts = Ok c ->
  tc_tokenInstructions c = tc_tokenInstructions state ++ flat_map (instructionsOf vault wallet) accounts /\
  tc_walletAtaInstructions c = tc_walletAtaInstructions state ++ flat_map (openInstructions feePayer wallet) accounts /\
  tc_idleUsdcTransferRaw c = tc_idleUsdcTransferRaw state + sumZ (map (usdcOf usdcMint) accounts) /\ Forall (derivable wallet) accounts.
Proof.
  revert state. induction accounts as [|a accounts IH]; intros state H; cbn [foldR] in H.
  - injection H as <-. cbn. by rewrite !app_nil_r, Z.add_0_r.
  - apply bind_Ok in H as (state' & Ha & H). apply IH in H as (-> & -> & -> & Hd). cbn [flat_map map sumZ fold_right]. fold (sumZ (map (usdcOf usdcMint) accounts)).
    unfold cleanUpAccount in Ha. cbv zeta in Ha. destruct (_ && _) eqn:Hprogram; [done|]. apply bind_Ok in Ha as (moved & Hm & [= <-]).
    cbn [tc_tokenInstructions tc_walletAtaInstructions tc_idleUsdcTransferRaw].
    assert (Hprograms : va_tokenProgramId a = splTokenProgram \/ va_tokenProgramId a = splToken2022Program).
    { apply andb_false_iff in Hprogram. rewrite !negb_false_iff in Hprogram. destruct Hprogram as [?%key_equal|?%key_equal]; [by left|by right]. } clear Hprogram.
    unfold instructionsOf, openInstructions, usdcOf at 2, walletAtaOf. destruct (Z.ltb_spec 0 (va_amountRaw a)).
    + apply bind_Ok in Hm as (ata & Hata & [= <-]). rewrite Hata. cbn [tc_tokenInstructions tc_walletAtaInstructions tc_idleUsdcTransferRaw]. split; [by rewrite <- !app_assoc|].
      split; [by rewrite <- !app_assoc|]. split; [rewrite Z.max_r by lia; destruct (key_equals _ _); lia|]. constructor; [|done]. intros _. split; [done|]. unfold walletAtaOf. by rewrite Hata.
    + injection Hm as <-. split; [by rewrite <- !app_assoc|]. split; [done|]. split; [rewrite Z.max_l by lia; destruct (key_equals _ _); lia|]. constructor; [|done]. intros Hp. lia.
Qed.

(** The vault's transaction is executed once the wallet's accounts are open. *)
Lemma vault_empties st l payer vault wallet accounts lamports : same (ledger st) l -> vault_shown l vault wallet accounts -> ordinary_vault st payer vault wallet accounts ->
  lamports = lg_lamports (ledger st) vault ->
  exists st', executeAll st (map plain (flat_map (instructionsOf vault wallet) accounts ++ sweepLamports vault wallet lamports)) = Some st' /\ emptied (ledger st) (ledger st') vault wallet accounts.
Proof.
  intros Hm Hs Ho ->. rewrite (sm_lamports _ _ Hm). destruct (vault_runs _ _ _ _ Hs) as (l' & Hrun & Hemp).
  destruct (executes _ _ (carried l vault wallet accounts (lg_lamports l vault) (vs_each _ _ _ _ Hs) (proj2 (vs_sol _ _ _ _ Hs))) st l l' Hm (effects_ordinary _ _ _ _ _ _ Ho) Hrun) as (st' & X & M & _).
  exists st'. split; [done|]. eapply emptied_same; [symmetry; exact Hm|symmetry; exact M|exact Hemp].
Qed.

(** C5. A clean-up leaves nothing behind. Suppose the accounts on chain show the token accounts it was given, at most 127, as exactly those of the vault, and the SOL it read; the wallet's
    accounts for their mints are there or their keys are free, and the fee payer can pay for them; everything touched is ordinary; and there is a token account or SOL. Then the operation
    it prepares begins with instructions that all succeed and only open accounts of the wallet, followed by a transaction of the vault whose message reads back as instructions that all
    succeed after them, in a state where no token account belongs to the vault, the vault holds no SOL, each of the wallet's token accounts has received exactly what the accounts of the
    vault for it held, the wallet has received the vault's SOL and the rent of every closed account, and no other account has changed; and the USDC it records is what was moved. *)
Theorem cleanup_empties_vault (connection : Connection) (args : CleanupInput) (p : PreparedEarnUsdcCleanup) (st : Accounts) :
  let vault := kp_vaultPubkey p in let wallet := ku_walletAddress args in let accounts := ku_vaultTokenAccounts args in
  prepareEarnUsdcCleanup connection args = Ok p -> vault_known (ledger st) (ku_feePayer args) vault wallet accounts -> ordinary_vault st (ku_feePayer args) vault wallet accounts ->
  vaultSweepLamportsOrZero connection vault = lg_lamports (ledger st) vault -> (length accounts <= 127)%nat -> (accounts <> [] \/ 0 < lg_lamports (ledger st) vault) ->
  exists opening built after request tail plains st1 st2,
    po_instructions (kp_prepared p) = opening ++ bo_instructions built ++ after /\
    executeAll st (map plain opening) = Some st1 /\ opened (ledger st) (ledger st1) (ku_feePayer args) wallet accounts /\ lg_lamports (ledger st1) vault = lg_lamports (ledger st) vault /\
    executeTransactionSyncV2 request = Ok built /\ ts_settingsPda request = ku_settingsPda args /\ ts_accountIndex request = EARN_VAULT_INDEX /\
    ts_instruction_accounts request = Meta wallet true false :: tail /\ readMessage (map meta_pubkey tail) (ts_instructions request) = Some plains /\
    executeAll st1 plains = Some st2 /\ emptied (ledger st1) (ledger st2) vault wallet accounts /\
    exists usdcMint, getStablecoinMintForCluster (default MainnetBeta (ku_cluster args)) USDC = Ok usdcMint /\
      km_idleTransferAmountRaw (kp_persistence p) = bigint_toString (sumZ (map (usdcOf usdcMint) accounts)).
Proof.
  intros vault wallet accounts H Hknown Hord Hsol Hlen Hsome. unfold prepareEarnUsdcCleanup in H. fold wallet accounts in H. apply bind_Ok in H as (usdcMint & Hm & H).
  apply bind_Ok in H as (vault0 & Hv & H). apply bind_Ok in H as (vaultAta & _ & H). apply bind_Ok in H as (cleanup & Hc & H). apply cleanup_steps in Hc as (Ht & Hw & Hidle & Hder).
  cbn [tc_tokenInstructions tc_walletAtaInstructions tc_idleUsdcTransferRaw app] in Ht, Hw, Hidle. cbv zeta in H. rewrite Ht, Hw in H. apply bind_Ok in H as (tokenOperation & Htok & H).
  apply bind_Ok in H as (closing & _ & H). apply bind_Ok in H as (auto & _ & H).
  set (ixs := flat_map (instructionsOf vault0 wallet) accounts ++ sweepLamports vault0 wallet (vaultSweepLamportsOrZero connection vault0)) in Htok.
  assert (vault0 = vault /\ km_idleTransferAmountRaw (kp_persistence p) = bigint_toString (tc_idleUsdcTransferRaw cleanup) /\ forall built, tokenOperation = Some built ->
    exists after, po_instructions (kp_prepared p) = flat_map (openInstructions (ku_feePayer args) wallet) accounts ++ bo_instructions built ++ after) as (Ev & Eidle & Hops).
  { unfold vault. destruct tokenOperation as [built|], closing as [closed|]; cbn [app] in H; try done; injection H as <-; (split; [done|]); (split; [done|]); intros b [= <-];
      eexists; cbn [kp_prepared operationOf po_instructions flat_map]; reflexivity. }
  subst vault0. assert (exists built, tokenOperation = Some built /\ vaultTransaction (ku_feePayer args) (ku_settingsPda args) wallet vault (ku_memo args) ixs = Ok built) as (built & -> & Hbuilt).
  { destruct ixs as [|ix ixs'] eqn:E; [|apply bind_Ok in Htok as (built & Hb & [= <-]); by exists built]. exfalso. unfold ixs in E. apply app_eq_nil in E as [E1 E2].
    rewrite Hsol in E2. destruct Hsome as [Hsome|Hsome].
    - destruct accounts as [|a rest]; [done|]. cbn [flat_map] in E1. unfold instructionsOf in E1. by destruct (0 <? va_amountRaw a).
    - unfold sweepLamports in E2. by replace (0 <? lg_lamports (ledger st) vault) with true in E2 by lia. }
  destruct (transaction_carries _ _ _ _ _ _ _ Hbuilt (cleanup_fits _ _ _ _ Hlen)) as (request & tail & R1 & R2 & R3 & R4 & R5). destruct (Hops built eq_refl) as (after & Hop).
  destruct (opens_then _ _ _ _ _ Hknown Hord Hder) as (st1 & X1 & O1 & L1 & Ord1 & l1 & M1 & S1).
  destruct (vault_empties st1 l1 _ vault wallet accounts (vaultSweepLamportsOrZero connection vault) M1 S1 Ord1) as (st2 & X2 & E2); [by rewrite Hsol, L1|].
  eexists _, built, after, request, tail, (map plain ixs), st1, st2. split; [exact Hop|]. split_and!; try done. exists usdcMint. split; [done|]. by rewrite Eidle, Hidle, Z.add_0_l.
Qed.

(** ** A refund *)
Definition accountOf (l : Ledger) (r : RefundTokenAccount) : VaultTokenAccount :=
  {| va_address := rt_address r; va_amountRaw := rt_amountRaw r; va_decimals := lg_decimals l (rt_mint r); va_mint := rt_mint r; va_tokenProgramId := rt_tokenProgramId r |}.
Definition drained (a : VaultTokenAccount) : VaultTokenAccount :=
  {| va_address := va_address a; va_amountRaw := 0; va_decimals := va_decimals a; va_mint := va_mint a; va_tokenProgramId := va_tokenProgramId a |}.

(** The same account without its balance *)
Definition drainedToken (t : TokenState) : TokenState := {| tk_owner := tk_owner t; tk_mint := tk_mint t; tk_program := tk_program t; tk_amount := 0 |}.

Lemma refund_closes l vault wallet accounts : map (fun r => makeSignerWritable (createCloseAccount (rt_address r) wallet vault (rt_tokenProgramId r)) vault) accounts =
  flat_map (instructionsOf vault wallet) (map drained (map (accountOf l) accounts)).
Proof. induction accounts as [|r accounts IH]; [done|]. cbn [map flat_map]. rewrite IH. done. Qed.

Lemma drained_addresses accounts : map va_address (map drained accounts) = map va_address accounts.
Proof. rewrite map_map. done. Qed.

Lemma credit_none wallet accounts k : Forall (fun a => va_amountRaw a = 0) accounts -> creditTo wallet accounts k = 0.
Proof.
  intros H. unfold creditTo. induction H as [|a accounts Ha _ IH]; [done|]. cbn [map sumZ fold_right]. fold (sumZ (map (fun a => if decide (k = walletAtaOf wallet a) then Z.max 0 (va_amountRaw a) else 0) accounts)).
  rewrite IH, Ha. by destruct (decide _).
Qed.

Lemma credit_app wallet a b k : creditTo wallet (a ++ b) k = creditTo wallet a k + creditTo wallet b k.
Proof. induction a as [|x a IH]; [done|]. cbn [app]. rewrite (credit_split _ x (a ++ b)), (credit_split _ x a). lia. Qed.

(** An account drained by a transfer to the wallet *)
Lemma drain_one l vault wallet accounts u before after : vault_shown l vault wallet accounts -> accounts = before ++ u :: after -> 0 < va_amountRaw u ->
  Forall (fun a => va_amountRaw a = 0) (before ++ after) ->
  exists l1, applyEffect l (TransferTokens (va_tokenProgramId u) (va_address u) (va_mint u) (walletAtaOf wallet u) vault (va_amountRaw u) (va_decimals u)) = Some l1 /\
    vault_shown l1 vault wallet (map drained accounts) /\ lg_lamports l1 = lg_lamports l /\
    (forall k t, lg_token l k = Some t -> tk_owner t <> vault -> lg_token l1 k = Some (addTokens (creditTo wallet accounts k) t)).
Proof.
  intros [Hne [Hw Hv] Hs Hn Hc Hsol] Ea Hpos Hz. assert (Hu : shows l vault wallet u) by (rewrite Forall_forall in Hs; apply Hs; rewrite Ea; set_solver).
  destruct Hu as [Tu Au [Du Dr] Wu]. destruct (Wu Hpos) as (w & Hlw & Ow & Mw & Pw).
  destruct (transfer_runs l (va_tokenProgramId u) (va_address u) (va_mint u) (walletAtaOf wallet u) vault (va_decimals u) _ w Tu Hlw) as (l1 & E1 & D1 & L1 & Hsd & T1); try done;
    [congruence|cbn; lia|]. cbn [tk_amount] in *. exists l1. split; [exact E1|].
  assert (Hother : forall k t, lg_token l k = Some t -> tk_owner t = vault -> k <> walletAtaOf wallet u) by (intros k t Hk Hkt ->; congruence).
  split; [|split; [done|]].
  - constructor; [done| | | | |by rewrite L1].
    + rewrite !T1. assert (wallet <> va_address u /\ vault <> va_address u) as [? ?] by (split; intros E; rewrite <- E in Tu; congruence).
      assert (wallet <> walletAtaOf wallet u /\ vault <> walletAtaOf wallet u) as [? ?] by (split; intros E; rewrite <- E in Hlw; congruence). by rewrite !decide_False.
    + apply Forall_forall. intros b (a & -> & Ha)%list_elem_of_fmap. rewrite Forall_forall in Hs. destruct (Hs a Ha) as [Ta Aa [Da Dra] _].
      constructor; cbn [drained va_address va_amountRaw va_decimals va_mint va_tokenProgramId]; [|lia|by rewrite D1|lia]. rewrite T1.
      destruct (decide (va_address a = va_address u)) as [E|Hau].
      * rewrite E, Tu in Ta. injection Ta as E2 E3 E4. unfold addTokens. cbn. rewrite E2, E3. do 2 f_equal. lia.
      * rewrite decide_False by (by eapply Hother). rewrite Ta. repeat f_equal. rewrite Forall_forall in Hz. apply Hz. rewrite Ea in Ha. set_solver.
    + by rewrite drained_addresses.
    + intros k t Hk Ho. rewrite drained_addresses. rewrite T1 in Hk. destruct (decide (k = va_address u)) as [->|]; [rewrite Ea, map_app; set_solver|].
      destruct (decide (k = walletAtaOf wallet u)); [injection Hk as <-; cbn in Ho; congruence|by eapply Hc].
  - intros k t Hk Ho. apply Forall_app in Hz as [Hz1 Hz2]. rewrite Ea, credit_app, (credit_split _ u after), (credit_none _ before), (credit_none _ after) by done. rewrite T1.
    rewrite (decide_False (P := k = va_address u)) by (intros ->; rewrite Tu in Hk; injection Hk as <-; done). unfold creditTo. cbn [map sumZ fold_right].
    destruct (decide (k = walletAtaOf wallet u)) as [->|].
    + rewrite Hlw in Hk. injection Hk as ->. do 2 f_equal. lia.
    + rewrite Hk. by rewrite addTokens_zero.
Qed.

(** A vault whose balances but one are empty: that one is moved, then everything is closed and swept. *)
Lemma refund_runs l vault wallet accounts moved : vault_shown l vault wallet accounts ->
  (moved = [] /\ Forall (fun a => va_amountRaw a = 0) accounts \/
   exists before u after, accounts = before ++ u :: after /\ 0 < va_amountRaw u /\ Forall (fun a => va_amountRaw a = 0) (before ++ after) /\
     moved = [TransferTokens (va_tokenProgramId u) (va_address u) (va_mint u) (walletAtaOf wallet u) vault (va_amountRaw u) (va_decimals u)]) ->
  exists l', applyAll l (moved ++ flat_map (effectsOf vault wallet) (map drained accounts) ++ sweepEffects vault wallet (lg_lamports l vault)) = Some l' /\
    emptied l l' vault wallet accounts.
Proof.
  intros Hs H. assert (exists l1, applyAll l moved = Some l1 /\ vault_shown l1 vault wallet (map drained accounts) /\ lg_lamports l1 = lg_lamports l /\
    (forall k t, lg_token l k = Some t -> tk_owner t <> vault -> lg_token l1 k = Some (addTokens (creditTo wallet accounts k) t))) as (l1 & E1 & S1 & L1 & T1).
  { destruct H as [[-> Hz]|(before & u & after & Ea & Hpos & Hz & ->)].
    - exists l. split; [done|]. split; [|split; [done|intros k t Hk _; by rewrite credit_none, addTokens_zero]].
      replace (map drained accounts) with accounts; [done|]. clear Hs. induction Hz as [|a accounts Ha _ IH]; [done|]. cbn [map]. rewrite <- IH. f_equal. destruct a. cbn in Ha. by subst.
    - destruct (drain_one l vault wallet accounts u before after Hs Ea Hpos Hz) as (l1 & E1 & R). exists l1. split; [cbn [applyAll]; by rewrite E1|done]. }
  destruct (vault_runs _ _ _ _ S1) as (l' & E' & [Hn Hc Hv Hw Ho]). rewrite L1 in E', Hw. rewrite drained_addresses in Ho. exists l'. rewrite applyAll_app, E1. split; [exact E'|]. constructor.
  - exact Hn.
  - intros k t Hk Hkt. rewrite (Hc k (addTokens (creditTo wallet accounts k) t)); [|by apply T1|done]. rewrite credit_none, addTokens_zero; [done|].
    apply Forall_forall. intros b (a & -> & _)%list_elem_of_fmap. done.
  - exact Hv.
  - rewrite Hw, map_map. done.
  - intros k K1 K2 K3. rewrite Ho by done. by rewrite L1.
Qed.

(** At most one account holds something, and its balance is [idle]. *)
Definition one_holds (isUsdc : RefundTokenAccount -> bool) (accounts : list RefundTokenAccount) (idle : Z) : Prop :=
  (idle = 0 /\ Forall (fun a => rt_amountRaw a = 0) accounts) \/
  (0 < idle /\ exists before u after, accounts = before ++ u :: after /\ isUsdc u = true /\ rt_amountRaw u = idle /\ Forall (fun a => rt_amountRaw a = 0) (before ++ after)).

(** The account of a vault that still holds something, if any *)
Lemma idle_split (isUsdc : RefundTokenAccount -> bool) accounts (addressesDistinct : forall a b, isUsdc a = true -> isUsdc b = true -> rt_address a = rt_address b) :
  existsb (fun a => (0 <? rt_amountRaw a) && negb (isUsdc a)) accounts = false -> Forall (fun a => 0 <= rt_amountRaw a) accounts -> NoDup (map rt_address accounts) ->
  one_holds isUsdc accounts (default 0 (rt_amountRaw <$> List.find isUsdc accounts)).
Proof.
  intros Hb Hp Hn. assert (Hz : forall a, a ∈ accounts -> isUsdc a = false -> rt_amountRaw a = 0).
  { intros a Ha Hu. rewrite Forall_forall in Hp. specialize (Hp a Ha). destruct (Z.ltb_spec 0 (rt_amountRaw a)) as [Hpos|]; [|lia]. exfalso.
    assert (existsb (fun a => (0 <? rt_amountRaw a) && negb (isUsdc a)) accounts = true); [|congruence]. apply existsb_exists. exists a. split; [by apply list_elem_of_In|]. rewrite Hu. by apply Z.ltb_lt in Hpos as ->. }
  unfold one_holds. destruct (List.find isUsdc accounts) as [u|] eqn:Ef; cbn [fmap option_fmap option_map default from_option id].
  - apply find_some in Ef as [Hin Hu]. apply list_elem_of_In in Hin. apply list_elem_of_split in Hin as (before & after & Ea).
    assert (Hrest : Forall (fun a => rt_amountRaw a = 0) (before ++ after)).
    { apply Forall_forall. intros a Ha. apply Hz; [rewrite Ea; set_solver|]. destruct (isUsdc a) eqn:E; [|done]. exfalso. rewrite Ea, map_app in Hn. cbn [map] in Hn.
      apply NoDup_app in Hn as (_ & Hd & Hn). apply NoDup_cons in Hn as [Hna _]. specialize (addressesDistinct a u E Hu). apply elem_of_app in Ha as [Ha|Ha].
      - apply (Hd (rt_address a)); [apply list_elem_of_fmap; by exists a|rewrite addressesDistinct; set_solver].
      - apply Hna. rewrite <- addressesDistinct. apply list_elem_of_fmap. by exists a. }
    destruct (Z.ltb_spec 0 (rt_amountRaw u)); [right; split; [done|]; by exists before, u, after|].
    assert (rt_amountRaw u = 0) by (rewrite Forall_forall in Hp; assert (0 <= rt_amountRaw u) by (apply Hp; rewrite Ea; set_solver); lia). left. split; [done|]. rewrite Ea. apply Forall_app in Hrest as [H1 H2].
    apply Forall_app. split; [done|]. by constructor.
  - left. split; [done|]. apply Forall_forall. intros a Ha. apply Hz; [done|]. by eapply find_none; [exact Ef|apply list_elem_of_In].
Qed.

Lemma sum_none accounts : Forall (fun a => rt_amountRaw a = 0) accounts -> sumZ (map rt_amountRaw accounts) = 0.
Proof. induction 1 as [|a accounts Ha _ IH]; [done|]. unfold sumZ in *. cbn [map fold_right]. lia. Qed.

Lemma one_total isUsdc accounts idle : one_holds isUsdc accounts idle -> Forall (fun a => 0 <= rt_amountRaw a < 2 ^ 64) accounts ->
  idle < 2 ^ 64 /\ idle = sumZ (map rt_amountRaw accounts) /\ Forall (fun a => 0 < rt_amountRaw a -> isUsdc a = true) accounts.
Proof.
  intros [[-> Hz]|(Hp & before & u & after & -> & Hu & Ei & Hz)] Hb.
  - rewrite sum_none by done. split; [lia|]. split; [done|]. eapply Forall_impl; [exact Hz|]. cbn. lia.
  - apply Forall_app in Hb as [_ Hb]. apply Forall_cons in Hb as [Hb _]. apply Forall_app in Hz as [Hz1 Hz2]. split; [lia|]. split.
    + rewrite map_app. unfold sumZ. rewrite fold_right_app. cbn [map fold_right]. fold (sumZ (map rt_amountRaw after)). rewrite (sum_none after), Ei by done.
      assert (forall l z, Forall (fun a => rt_amountRaw a = 0) l -> fold_right Z.add z (map rt_amountRaw l) = z) as Hf; [|rewrite Hf by done; lia].
      intros l z. induction 1 as [|a l Ha _ IH]; [done|]. cbn [map fold_right]. rewrite IH, Ha. lia.
    + apply Forall_app. split; [eapply Forall_impl; [exact Hz1|cbn; lia]|]. constructor; [done|]. eapply Forall_impl; [exact Hz2|cbn; lia].
Qed.

(** The balance that is moved first *)
Lemma one_moved l snapshot usdcMint wallet walletAta idle accounts : accounts = map (accountOf l) (vs_tokenAccounts snapshot) ->
  one_holds (fun a => key_equals (rt_address a) (vs_vaultUsdcAta snapshot)) (vs_tokenAccounts snapshot) idle ->
  associatedTokenAddress usdcMint wallet false splTokenProgram = Ok walletAta ->
  Forall (fun a => rt_address a = vs_vaultUsdcAta snapshot -> rt_mint a = usdcMint /\ rt_tokenProgramId a = splTokenProgram) (vs_tokenAccounts snapshot) ->
  let moved := if 0 <? idle then [TransferTokens splTokenProgram (vs_vaultUsdcAta snapshot) usdcMint walletAta (vs_vaultPda snapshot) idle (lg_decimals l usdcMint)] else [] in
  moved = [] /\ Forall (fun a => va_amountRaw a = 0) accounts \/
  exists before u after, accounts = before ++ u :: after /\ 0 < va_amountRaw u /\ Forall (fun a => va_amountRaw a = 0) (before ++ after) /\
    moved = [TransferTokens (va_tokenProgramId u) (va_address u) (va_mint u) (walletAtaOf wallet u) (vs_vaultPda snapshot) (va_amountRaw u) (va_decimals u)].
Proof.
  intros -> [[-> Hz]|(Hp & before & u & after & Ea & Hu & Ei & Hz)] Hata Husdc; cbv zeta.
  - left. split; [done|]. apply Forall_map. exact Hz.
  - right. apply key_equal in Hu. rewrite Forall_forall in Husdc. destruct (Husdc u) as [Em Ep]; [rewrite Ea; set_solver|done|].
    exists (map (accountOf l) before), (accountOf l u), (map (accountOf l) after). split; [by rewrite Ea, map_app|]. cbn [accountOf va_amountRaw va_tokenProgramId va_address va_mint va_decimals].
    split; [lia|]. split; [rewrite <- map_app; by apply Forall_map|]. replace (0 <? idle) with true by lia. unfold walletAtaOf. cbn [accountOf va_mint va_tokenProgramId].
    by rewrite Em, Ep, Hata, Hu, Ei.
Qed.

(** The instructions of a refund, and what they do *)
Lemma refund_carried l l1 snapshot usdcMint wallet walletAta idle accounts : accounts = map (accountOf l) (vs_tokenAccounts snapshot) ->
  0 <= lg_lamports l1 (vs_vaultPda snapshot) < 2 ^ 64 -> vs_lamports snapshot = lg_lamports l1 (vs_vaultPda snapshot) -> lg_decimals l usdcMint = EARN_DEPOSIT_USDC_DECIMALS -> idle < 2 ^ 64 ->
  Forall (shows l1 (vs_vaultPda snapshot) wallet) accounts -> (length accounts <= 126)%nat ->
  MessageCompile.fits (refundInstructions snapshot usdcMint walletAta wallet idle) /\
  Forall2 carries (map plain (refundInstructions snapshot usdcMint walletAta wallet idle))
    ((if 0 <? idle then [TransferTokens splTokenProgram (vs_vaultUsdcAta snapshot) usdcMint walletAta (vs_vaultPda snapshot) idle (lg_decimals l usdcMint)] else []) ++
     flat_map (effectsOf (vs_vaultPda snapshot) wallet) (map drained accounts) ++ sweepEffects (vs_vaultPda snapshot) wallet (lg_lamports l1 (vs_vaultPda snapshot))).
Proof.
  intros Ea Hsol El Hd Hi Hs Hlen. unfold refundInstructions. cbv zeta. rewrite (refund_closes l), <- Ea, El. set (vault := vs_vaultPda snapshot) in *. split.
  - destruct (cleanup_small vault wallet (map drained accounts) (lg_lamports l1 vault)) as [H1 H2]. rewrite length_map in H2. split.
    + rewrite length_app. destruct (0 <? idle); cbn [length]; lia.
    + apply Forall_app. split; [|exact H1]. destruct (0 <? idle); [|apply Forall_nil_2]. apply Forall_singleton, small_signer. exact (small_transfer _ _ _ _ _ _ _).
  - rewrite map_app. apply Forall2_app.
    + destruct (Z.ltb_spec 0 idle); cbn [map]; [|constructor]. rewrite plain_makeSigner, Hd. repeat constructor. apply does_transfer; [lia|unfold EARN_DEPOSIT_USDC_DECIMALS; lia].
    + apply (carried (withAccounts l1 (fun k => drainedToken <$> lg_token l1 k) (lg_lamports l1))); [|lia].
      apply Forall_forall. intros b (a & -> & Ha)%list_elem_of_fmap. rewrite Forall_forall in Hs. destruct (Hs a Ha) as [Ht _ [D1 D2] _].
      constructor; cbn [drained va_address va_amountRaw va_decimals va_mint va_tokenProgramId withAccounts lg_token lg_decimals]; [by rewrite Ht|lia|done|lia].
Qed.

(** The account that is opened first *)
Lemma refund_opens l snapshot usdcMint payer wallet walletAta idle :
  one_holds (fun a => key_equals (rt_address a) (vs_vaultUsdcAta snapshot)) (vs_tokenAccounts snapshot) idle ->
  associatedTokenAddress usdcMint wallet false splTokenProgram = Ok walletAta ->
  Forall (fun a => rt_address a = vs_vaultUsdcAta snapshot -> rt_mint a = usdcMint /\ rt_tokenProgramId a = splTokenProgram) (vs_tokenAccounts snapshot) ->
  (if 0 <? idle then [createAtaIdempotent payer walletAta wallet usdcMint splTokenProgram] else []) =
    flat_map (openInstructions payer wallet) (map (accountOf l) (vs_tokenAccounts snapshot)) /\ Forall (derivable wallet) (map (accountOf l) (vs_tokenAccounts snapshot)).
Proof.
  assert (Hnone : forall accounts, Forall (fun a => rt_amountRaw a = 0) accounts -> flat_map (openInstructions payer wallet) (map (accountOf l) accounts) = [] /\ Forall (derivable wallet) (map (accountOf l) accounts)).
  { induction 1 as [|a accounts Ha _ [IH1 IH2]]; [by split; [|constructor]|]. cbn [map flat_map]. unfold openInstructions at 1. cbn [accountOf va_amountRaw]. rewrite Ha. split; [done|].
    constructor; [|done]. unfold derivable. cbn [accountOf va_amountRaw]. lia. }
  intros [[-> Hz]|(Hp & before & u & after & Ea & Hu & Ei & Hz)] Hata Husdc.
  - destruct (Hnone _ Hz) as [-> H]. done.
  - apply key_equal in Hu. rewrite Forall_forall in Husdc. destruct (Husdc u) as [Em Ep]; [rewrite Ea; set_solver|done|]. apply Forall_app in Hz as [Hz1 Hz2].
    destruct (Hnone _ Hz1) as [B1 B2]. destruct (Hnone _ Hz2) as [A1 A2]. rewrite Ea, map_app. cbn [map]. rewrite flat_map_app. cbn [flat_map]. rewrite B1, A1. unfold openInstructions.
    assert (walletAtaOf wallet (accountOf l u) = walletAta) as Hw by (unfold walletAtaOf; cbn [accountOf va_mint va_tokenProgramId]; by rewrite Em, Ep, Hata).
    rewrite Hw. cbn [accountOf va_amountRaw va_mint va_tokenProgramId]. rewrite Ei, Em, Ep. split; [by destruct (0 <? idle)|]. apply Forall_app. split; [done|]. constructor; [|done].
    intros _. rewrite Hw. cbn [accountOf va_mint va_tokenProgramId]. rewrite Em, Ep. split; [by left|done].
Qed.

(** What the refund of an ordinary vault touches is ordinary. *)
Lemma moved_ordinary st payer vault wallet accounts moved lamports : ordinary_vault st payer vault wallet accounts ->
  (moved = [] /\ Forall (fun a => va_amountRaw a = 0) accounts \/
   exists before u after, accounts = before ++ u :: after /\ 0 < va_amountRaw u /\ Forall (fun a => va_amountRaw a = 0) (before ++ after) /\
     moved = [TransferTokens (va_tokenProgramId u) (va_address u) (va_mint u) (walletAtaOf wallet u) vault (va_amountRaw u) (va_decimals u)]) ->
  Forall (ordinary st) (flat_map touched (moved ++ flat_map (effectsOf vault wallet) (map drained accounts) ++ sweepEffects vault wallet lamports)).
Proof.
  intros Ho Hm. rewrite flat_map_app. apply Forall_app. split.
  - destruct Hm as [[-> _]|(before & u & after & Ea & Hp & _ & ->)]; [constructor|]. destruct Ho as [_ Hv Hw]. rewrite Ea in Hv, Hw. apply Forall_app in Hv as [_ Hv], Hw as [_ Hw].
    apply Forall_cons in Hv as [Hv _], Hw as [Hw _]. cbn [flat_map touched app]. constructor; [done|]. constructor; [by apply Hw|constructor].
  - apply effects_ordinary with payer. destruct Ho as [Hs Hv Hw]. constructor; [done|by apply Forall_map|]. apply Forall_map. eapply Forall_impl; [exact Hw|]. cbn. lia.
Qed.

(** C6. A refund of the vault's accounts leaves nothing behind either. It goes through only when at most the vault's USDC account holds anything. Suppose the accounts on chain show the
    token accounts it read, at most 126, as exactly those of the vault, and the SOL it read (which is taken as 0 where that read fails); the vault's USDC account is one of the cluster's
    USDC, with six decimals; the wallet's USDC account is there or its key is free and the fee payer can pay for it; and everything touched is ordinary. Then the operation begins with
    instructions that succeed and only open that account, followed by a transaction of the vault whose message reads back as instructions that all succeed, in a state where no token
    account belongs to the vault, the vault holds no SOL, and balance, SOL and rents are the wallet's; the refund reports exactly what was moved, closed and swept. *)
Theorem refund_empties_vault (connection : FullExit.Connection) (attempt : nat) (args : VaultRefundInput) (r : PreparedEarnVaultRefund) (st : Accounts)
    (snapshot : SmartAccountEarnVaultRefundSnapshot) (usdcMint : pubkey) :
  let vault := vs_vaultPda snapshot in let wallet := vi_walletAddress args in let accounts := map (accountOf (ledger st)) (vs_tokenAccounts snapshot) in
  prepareEarnVaultAccountsRefund connection attempt args = Ok r -> getStablecoinMintForCluster (default MainnetBeta (vi_cluster args)) USDC = Ok usdcMint ->
  fetchEarnVaultRefundSnapshot localeCompare connection attempt smartAccountsProgramId (default MainnetBeta (vi_cluster args)) None (vi_settingsPda args) = Ok snapshot ->
  vault_known (ledger st) (vi_feePayer args) vault wallet accounts -> ordinary_vault st (vi_feePayer args) vault wallet accounts -> vs_lamports snapshot = lg_lamports (ledger st) vault ->
  lg_decimals (ledger st) usdcMint = EARN_DEPOSIT_USDC_DECIMALS ->
  Forall (fun a => rt_address a = vs_vaultUsdcAta snapshot -> rt_mint a = usdcMint /\ rt_tokenProgramId a = splTokenProgram) (vs_tokenAccounts snapshot) ->
  (length (vs_tokenAccounts snapshot) <= 126)%nat ->
  Forall (fun a => 0 < rt_amountRaw a -> rt_address a = vs_vaultUsdcAta snapshot) (vs_tokenAccounts snapshot) /\
  exists opening built request tail plains st1 st2,
    po_instructions (vr_prepared r) = opening ++ bo_instructions built /\
    executeAll st (map plain opening) = Some st1 /\ opened (ledger st) (ledger st1) (vi_feePayer args) wallet accounts /\ lg_lamports (ledger st1) vault = lg_lamports (ledger st) vault /\
    executeTransactionSyncV2 request = Ok built /\ ts_settingsPda request = vi_settingsPda args /\ ts_accountIndex request = EARN_VAULT_INDEX /\
    ts_instruction_accounts request = Meta wallet true false :: tail /\ readMessage (map meta_pubkey tail) (ts_instructions request) = Some plains /\
    executeAll st1 plains = Some st2 /\ emptied (ledger st1) (ledger st2) vault wallet accounts /\
    vr_closedTokenAccounts r = map rt_address (vs_tokenAccounts snapshot) /\ vr_sweepLamports r = lg_lamports (ledger st) vault /\
    vr_idleUsdcTransferRaw r = sumZ (map rt_amountRaw (vs_tokenAccounts snapshot)).
Proof.
  intros vault wallet accounts H Hm Hsnap Hknown Hord Hsol Hdec Husdc Hlen. unfold prepareEarnVaultAccountsRefund in H. cbv zeta in H. rewrite Hm, Hsnap in H. cbn [mbind result_bind] in H.
  apply bind_Ok in H as (walletAta & Hata & H). destruct (existsb _ _) eqn:Hb in H; [done|]. set (isUsdc := fun a => key_equals (rt_address a) (vs_vaultUsdcAta snapshot)) in *.
  set (idle := default 0 (rt_amountRaw <$> List.find isUsdc (vs_tokenAccounts snapshot))) in *. pose proof (vk_each _ _ _ _ _ Hknown) as Heach.
  assert (Hpos : Forall (fun a => 0 <= rt_amountRaw a < 2 ^ 64) (vs_tokenAccounts snapshot)) by (apply Forall_map in Heach; eapply Forall_impl; [exact Heach|by intros a (_ & Ha & _)]).
  assert (Hsame : forall a b, isUsdc a = true -> isUsdc b = true -> rt_address a = rt_address b) by (intros a b ->%key_equal ->%key_equal; done).
  assert (Hnd : NoDup (map rt_address (vs_tokenAccounts snapshot))) by (pose proof (vk_distinct _ _ _ _ _ Hknown) as Hn; unfold accounts in Hn; by rewrite map_map in Hn).
  assert (Hone : one_holds isUsdc (vs_tokenAccounts snapshot) idle) by (apply idle_split; [done|done|eapply Forall_impl; [exact Hpos|cbn; lia]|done]).
  destruct (one_total _ _ _ Hone Hpos) as (Hi & Hsum & Hblock). split; [eapply Forall_impl; [exact Hblock|]; intros a Ha Hp; by apply key_equal, Ha|].
  destruct (refund_opens (ledger st) snapshot usdcMint (vi_feePayer args) wallet walletAta idle Hone Hata Husdc) as [Hopen Hder]. fold accounts in Hopen, Hder.
  destruct (opens_then _ _ _ _ _ Hknown Hord Hder) as (st1 & X1 & O1 & L1 & Ord1 & l1 & M1 & S1). assert (Hl1 : vs_lamports snapshot = lg_lamports l1 vault) by (rewrite <- (sm_lamports _ _ M1); congruence).
  destruct (refund_carried (ledger st) l1 snapshot usdcMint wallet walletAta idle accounts eq_refl (vs_sol _ _ _ _ S1) Hl1 Hdec Hi (vs_each _ _ _ _ S1)) as [Hfits Hcar]; [unfold accounts; by rewrite length_map|].
  pose proof (one_moved (ledger st) snapshot usdcMint wallet walletAta idle accounts eq_refl Hone Hata Husdc) as Hmoved. destruct (refund_runs l1 vault wallet _ _ S1 Hmoved) as (l2 & Hrun & Hemp).
  destruct (executes _ _ Hcar st1 l1 l2 M1 (moved_ordinary _ _ _ _ _ _ _ Ord1 Hmoved) Hrun) as (st2 & X2 & M2 & _).
  set (ixs := refundInstructions snapshot usdcMint walletAta wallet idle) in *.
  assert (exists built, vaultTransaction (vi_feePayer args) (vi_settingsPda args) wallet vault (vi_memo args) ixs = Ok built /\
    vr_closedTokenAccounts r = map rt_address (vs_tokenAccounts snapshot) /\ vr_sweepLamports r = vs_lamports snapshot /\ vr_idleUsdcTransferRaw r = idle /\
    po_instructions (vr_prepared r) = flat_map (openInstructions (vi_feePayer args) wallet) accounts ++ bo_instructions built) as (built & Hbuilt & R1 & R2 & R3 & Hop).
  { fold wallet in H. fold ixs in H. rewrite <- Hopen. destruct ixs; [done|]. apply bind_Ok in H as (built & Hb' & [= <-]). by exists built. }
  destruct (transaction_carries _ _ _ _ _ _ _ Hbuilt Hfits) as (request & tail & Q1 & Q2 & Q3 & Q4 & Q5).
  eexists _, built, request, tail, (map plain ixs), st1, st2. split; [exact Hop|]. split_and!; try done; [|congruence|congruence].
  eapply emptied_same; [symmetry; exact M1|symmetry; exact M2|exact Hemp].
Qed.
End VaultCleanup.

Module VaultCleanupWitness.
Import DemoKeys KaminoWitness HoldingsWitness AutodepositSetupWitness.

(** The layouts of the token and system programs *)
#[export] Instance tokenBuilders : TokenBuilders (PK := demo_keys) := {|
  createTransferChecked source mint destination owner amount decimals program :=
    Instruction program [writable source; readonly mint; writable destination; Meta owner true false] ([12] ++ le_bytes 8 amount ++ [decimals]);
  createCloseAccount account destination authority program := Instruction program [writable account; writable destination; Meta authority true false] [9];
  systemTransfer source destination lamports := Instruction systemProgramId [Meta source true true; writable destination] ([2; 0; 0; 0] ++ le_bytes 8 lamports);
  executeTransactionSyncV2 request := Ok {| bo_instructions := [Instruction (key_of 3) (ts_instruction_accounts request) (ts_instructions request)]; bo_lookupTableAccounts := [] |};
|}.

(** A program that reads accounts and data back, and does the effect; the mint of an account that is closed is the one it shows. *)
Definition readEffect (l : Ledger (PK := demo_keys)) (p : key * list key * list Z) : option (Effect (PK := demo_keys)) :=
  let '(program, accounts, bytes) := p in
  match accounts with
  | [payer; account; owner; mint; tokens] => Some (OpenTokens (PK := demo_keys) tokens payer account owner mint)
  | [source; mint; destination; owner] => Some (TransferTokens (PK := demo_keys) program source mint destination owner (le_value (take 8 (drop 1 bytes))) (nth 9 bytes 0))
  | [account; destination; owner] => t ← lg_token l account; Some (CloseTokens (PK := demo_keys) program account (tk_mint t) destination owner)
  | [source; destination] => Some (TransferLamports (PK := demo_keys) source destination (le_value (take 8 (drop 4 bytes))))
  | _ => None
  end.
Definition executeRead (l : Ledger (PK := demo_keys)) (p : key * list key * list Z) : option (Ledger (PK := demo_keys)) := e ← readEffect l p; applyEffect l e.

Lemma executes_read (p : key * list key * list Z) (e : Effect (PK := demo_keys)) : (forall l l', applyEffect l e = Some l' -> readEffect l p = Some e) ->
  carriesOut (PK := demo_keys) (fun l => l) (fun _ _ => True) executeRead p e.
Proof. intros H l l' _ Ha. exists l'. unfold executeRead. rewrite (H l l' Ha). cbn [mbind option_bind]. split; [exact Ha|]. split; [reflexivity|done]. Qed.

#[export] Instance tokenPrograms : TokenPrograms tokenBuilders anyBuilders.
Proof.
  refine {| Accounts := Ledger (PK := demo_keys); ledger l := l; ordinary _ _ := True; execute := executeRead |}; try (intros; split; apply Nat.leb_le; reflexivity).
  - intros source mint destination owner amount decimals program Ha Hd. apply executes_read. intros l l' _. cbn [createTransferChecked tokenBuilders]. unfold plain, readEffect.
    cbn [keys data map meta_pubkey]. f_equal. f_equal.
    change (drop 1 ([12] ++ le_bytes 8 amount ++ [decimals])) with (le_bytes 8 amount ++ [decimals]). rewrite take_app_length' by (by rewrite le_bytes_length).
    rewrite le_value_bytes. apply Z.mod_small. exact Ha.
  - intros account mint destination authority program. apply executes_read. intros l l'. cbn [createCloseAccount tokenBuilders applyEffect]. unfold plain, readEffect. cbn [keys data map meta_pubkey].
    change (meta_pubkey (writable account)) with account. destruct (lg_token l account) as [t|]; [|done]. destruct (_ && _) eqn:E; [|done].
    rewrite !andb_true_iff, !bool_decide_eq_true in E. destruct E as ((((_ & <-) & _) & _) & _). done.
  - intros source destination lamports Ha. apply executes_read. intros l l' _. cbn [systemTransfer tokenBuilders]. unfold plain, readEffect. cbn [keys data map meta_pubkey]. f_equal. f_equal.
    change (drop 4 ([2; 0; 0; 0] ++ le_bytes 8 lamports)) with (le_bytes 8 lamports). rewrite take_ge by (by rewrite le_bytes_length).
    rewrite le_value_bytes. apply Z.mod_small. exact Ha.
  - intros payer account owner mint program _ _. apply executes_read. done.
Defined.

(** A vault with two token accounts, one of them empty, and 900 lamports; the wallet pays and has no account for the token yet. *)
Section Demo.
Context {PK : PublicKeys} {TL : TokenLayouts PK} (vault wallet vaultAta walletAta otherAta spare usdc other program : pubkey).

Definition heldUsdc : VaultTokenAccount := {| va_address := vaultAta; va_amountRaw := 250; va_decimals := 6; va_mint := usdc; va_tokenProgramId := program |}.
Definition heldOther : VaultTokenAccount := {| va_address := spare; va_amountRaw := 0; va_decimals := 6; va_mint := other; va_tokenProgramId := program |}.
Definition tokenState (owner mint : pubkey) (amount : Z) : TokenState := {| tk_owner := owner; tk_mint := mint; tk_program := program; tk_amount := amount |}.
Definition demoLedger : Ledger := {|
  lg_token k := if decide (k = vaultAta) then Some (tokenState vault usdc 250) else if decide (k = spare) then Some (tokenState vault other 0) else None;
  lg_lamports k := if decide (k = vault) then 900 else if decide (k = walletAta) then 0 else 5000;
  lg_decimals _ := 6;
  lg_rent _ := 2039;
|}.

Lemma demo_known : NoDup [vault; wallet; vaultAta; walletAta; spare; otherAta] -> associatedTokenAddress usdc wallet false program = Ok walletAta ->
  associatedTokenAddress other wallet false program = Ok otherAta -> vault_known demoLedger wallet vault wallet [heldUsdc; heldOther].
Proof.
  intros Hn Hata Hother. rewrite !NoDup_cons, !not_elem_of_cons in Hn. destruct Hn as ((? & ? & ? & ? & ? & _) & (? & ? & ? & ? & _) & (? & ? & ? & _) & (? & ? & _) & (? & _) & _).
  assert (walletAtaOf wallet heldUsdc = walletAta /\ walletAtaOf wallet heldOther = otherAta) as [W1 W2] by (unfold walletAtaOf; cbn [heldUsdc heldOther va_mint va_tokenProgramId]; by rewrite Hata, Hother).
  constructor; cbn [demoLedger lg_token lg_lamports lg_decimals].
  - split; congruence.
  - by rewrite !decide_False.
  - rewrite !Forall_cons. cbn [heldUsdc heldOther va_address va_amountRaw va_decimals va_mint va_tokenProgramId]. split; [|split; [|done]].
    + rewrite decide_True by done. split; [done|lia].
    + rewrite decide_False, decide_True by done. split; [done|lia].
  - cbn. rewrite !NoDup_cons, elem_of_nil, list_elem_of_singleton. split; [done|]. split; [by intros []|apply NoDup_nil_2].
  - intros k t. cbn [map heldUsdc heldOther va_address]. repeat destruct (decide _); subst; intros [= <-]; cbn; set_solver.
  - rewrite !Forall_cons. split; [|split; [cbn; lia|done]]. intros _. constructor; rewrite W1; cbn [demoLedger lg_token]; rewrite !decide_False by done; [|done]. intros _. split_and!; congruence.
  - split; [|rewrite !Forall_cons, W1, W2; split_and!; congruence || done]. intros a b. rewrite !elem_of_cons, !elem_of_nil. intros [->|[->|[]]] [->|[->|[]]]; rewrite ?W1, ?W2; intros E; try done; exfalso; congruence.
  - cbn [map]. unfold rentOf. cbn [heldUsdc heldOther va_amountRaw demoLedger lg_rent]. rewrite !decide_False by congruence. cbn. lia.
  - split; [intros k _; repeat destruct (decide _); lia|]. rewrite decide_True by done. lia.
Qed.
End Demo.

Definition walletAta : key := okKey (associatedTokenAddress (PK := demo_keys) usdcMint ownerWallet false usdcProgram).
Definition spareKey : key := key_of 90.
Definition otherMint : key := key_of 91.
Definition otherAta : key := okKey (associatedTokenAddress (PK := demo_keys) otherMint ownerWallet false usdcProgram).
Definition vaultLedger : Ledger (PK := demo_keys) := demoLedger (PK := demo_keys) demoVault demoAta walletAta spareKey usdcMint otherMint usdcProgram.
Definition held : list (VaultTokenAccount (PK := demo_keys)) :=
  [heldUsdc (PK := demo_keys) demoAta usdcMint usdcProgram; heldOther (PK := demo_keys) spareKey otherMint usdcProgram].

Lemma ata_ok mint : is_ok (associatedTokenAddress (PK := demo_keys) mint ownerWallet false usdcProgram) = true ->
  associatedTokenAddress (PK := demo_keys) mint ownerWallet false usdcProgram = Ok (okKey (associatedTokenAddress (PK := demo_keys) mint ownerWallet false usdcProgram)).
Proof. unfold okKey. by destruct (associatedTokenAddress (PK := demo_keys) mint ownerWallet false usdcProgram). Qed.

Lemma vault_ledger : vault_known (PK := demo_keys) vaultLedger ownerWallet demoVault ownerWallet held.
Proof.
  apply (demo_known (PK := demo_keys)) with otherAta.
  - apply (bool_decide_eq_true_1 (NoDup _)). vm_compute. reflexivity.
  - apply ata_ok. vm_compute. reflexivity.
  - apply ata_ok. vm_compute. reflexivity.
Qed.

(** A clean-up when the policies are closed already *)
Definition cleanConnection : @InjectableConnection demo_keys EarnPolicyCreateDiagnostics := {|
  getMultipleAccountsInfo := Some (fun _ => Ok (fun _ => None)); getAccountInfo := Some (fun _ => Ok None); getMinimumBalanceForRentExemption := None; getFeeForMessage := None;
  getBalance := Some (fun _ => Ok 900) |}.
Definition cleanInput : CleanupInput (PK := demo_keys) := {|
  ku_settingsPda := demoSettings; ku_walletAddress := ownerWallet; ku_feePayer := ownerWallet; ku_policySigner := sweeper; ku_cluster := Some Devnet; ku_vaultTokenAccounts := held;
  ku_policy := (key_of 70, 1); ku_setupPolicy := Some (key_of 71, 2); ku_autodepositClose := None; ku_memo := None |}.
Definition cleaned : result (PreparedEarnUsdcCleanup (PK := demo_keys)) := prepareEarnUsdcCleanup demoProgram cleanConnection cleanInput.

Definition cleanedVault (r : result (PreparedEarnUsdcCleanup (PK := demo_keys))) : bool := match r with Ok p => bool_decide (kp_vaultPubkey p = demoVault) | Throw _ => false end.

Lemma cleanup_empties_vault_witness : exists p opening request tail plains l1 l2,
  cleaned = Ok p /\ executeAll (PK := demo_keys) vaultLedger (map plain opening) = Some l1 /\ ts_accountIndex request = EARN_VAULT_INDEX /\
  readMessage (map meta_pubkey tail) (ts_instructions request) = Some plains /\ executeAll (PK := demo_keys) l1 plains = Some l2 /\
  emptied (PK := demo_keys) l1 l2 demoVault ownerWallet held.
Proof.
  assert (H : cleanedVault cleaned = true) by (vm_compute; reflexivity). destruct cleaned as [p|] eqn:E; [|discriminate H]. apply (bool_decide_eq_true_1 (_ = _)) in H.
  destruct (cleanup_empties_vault (PK := demo_keys) (TP := tokenPrograms) demoProgram cleanConnection cleanInput p vaultLedger)
    as (opening & built & after & request & tail & plains & l1 & l2 & _ & H1 & _ & _ & _ & _ & H3 & _ & H4 & H5 & H6 & _).
  - exact E.
  - rewrite H. exact vault_ledger.
  - constructor; [repeat split|repeat constructor|repeat constructor].
  - rewrite H. vm_compute. reflexivity.
  - apply Nat.leb_le. reflexivity.
  - left. discriminate.
  - rewrite H in H6. exists p, opening, request, tail, plains, l1, l2. exact (conj eq_refl (conj H1 (conj H3 (conj H4 (conj H5 H6))))).
Defined.

(** A refund of the same vault *)
Definition otherInfo : AccountInfo (PK := demo_keys) := info usdcProgram (key_bytes otherMint ++ key_bytes demoVault ++ le_bytes 8 0 ++ replicate 93 0).
Definition refundConnection : FullExit.Connection (PK := demo_keys) := {|
  conn_accounts _ := demoReader 250 0;
  conn_tokenAccounts := Some (fun _ _ program _ =>
    Ok {| tokens_slot := 20; tokens_value := if bool_decide (program = usdcProgram) then [(demoAta, ataInfo 250); (spareKey, otherInfo)] else [] |});
  conn_balance := Some (fun _ => Ok 900);
  conn_token2022First _ := false;
  conn_vaultFirst _ := false;
|}.
Definition refundInput : VaultRefundInput (PK := demo_keys) := {|
  vi_cluster := Some Devnet; vi_feePayer := ownerWallet; vi_memo := None; vi_settingsPda := demoSettings; vi_walletAddress := ownerWallet |}.
Definition refunded : result (PreparedEarnVaultRefund (PK := demo_keys)) :=
  prepareEarnVaultAccountsRefund FullExitWitness.compareTexts demoProgram refundConnection 0 refundInput.
Definition refundSeen : result (SmartAccountEarnVaultRefundSnapshot (PK := demo_keys)) :=
  fetchEarnVaultRefundSnapshot FullExitWitness.compareTexts refundConnection 0 demoProgram Devnet None demoSettings.

Definition seenVault (s : SmartAccountEarnVaultRefundSnapshot (PK := demo_keys)) : Prop :=
  (vs_vaultPda s, vs_vaultUsdcAta s, vs_lamports s, map (fun a => (rt_address a, rt_amountRaw a, rt_mint a, rt_tokenProgramId a)) (vs_tokenAccounts s)) =
  (demoVault, demoAta, 900, [(demoAta, 250, usdcMint, usdcProgram); (spareKey, 0, otherMint, usdcProgram)]).
Definition checkSeen (r : result (SmartAccountEarnVaultRefundSnapshot (PK := demo_keys))) : bool :=
  match r with Ok s => bool_decide (vs_vaultPda s = demoVault) && bool_decide (vs_vaultUsdcAta s = demoAta) && (vs_lamports s =? 900) &&
                       bool_decide (map (fun a => (rt_address a, rt_amountRaw a, rt_mint a, rt_tokenProgramId a)) (vs_tokenAccounts s) =
                                    [(demoAta, 250, usdcMint, usdcProgram); (spareKey, 0, otherMint, usdcProgram)]) | Throw _ => false end.

Lemma seen_usdc (s : SmartAccountEarnVaultRefundSnapshot (PK := demo_keys)) : seenVault s -> map (accountOf (PK := demo_keys) vaultLedger) (vs_tokenAccounts s) = held /\
  Forall (fun a => rt_address a = vs_vaultUsdcAta s -> rt_mint a = usdcMint /\ rt_tokenProgramId a = usdcProgram) (vs_tokenAccounts s) /\ length (vs_tokenAccounts s) = 2%nat.
Proof.
  intros H. unfold seenVault in H. destruct s as [lam slot accounts v ata]. cbn [vs_vaultPda vs_vaultUsdcAta vs_lamports vs_tokenAccounts] in *.
  assert (Ha := f_equal snd H). assert (Hv := f_equal (fun x => x.1.1.2) H). cbn [fst snd] in Ha, Hv. clear H.
  destruct accounts as [|[a1 n1 u1 l1 m1 p1] [|[a2 n2 u2 l2 m2 p2] [|]]]; try discriminate Ha. cbn [map rt_address rt_amountRaw rt_mint rt_tokenProgramId] in Ha.
  assert (H1 := f_equal (fun l => l !! 0%nat) Ha). assert (H2 := f_equal (fun l => l !! 1%nat) Ha). cbn [lookup list_lookup] in H1, H2. clear Ha.
  assert (a1 = demoAta) as -> by congruence. assert (n1 = 250) as -> by congruence. assert (m1 = usdcMint) as -> by congruence. assert (p1 = usdcProgram) as -> by congruence.
  assert (a2 = spareKey) as -> by congruence. assert (n2 = 0) as -> by congruence. assert (m2 = otherMint) as -> by congruence. assert (p2 = usdcProgram) as -> by congruence.
  split; [reflexivity|]. split; [|reflexivity]. constructor; [done|]. constructor; [|constructor]. cbn [rt_address]. rewrite Hv. intros E. exfalso.
  assert (bool_decide (spareKey = demoAta) = false) as Hd by (vm_compute; reflexivity). exact (bool_decide_eq_false_1 (_ = _) Hd E).
Qed.

Lemma refund_empties_vault_witness : exists r opening request tail plains l1 l2,
  refunded = Ok r /\ executeAll (PK := demo_keys) vaultLedger (map plain opening) = Some l1 /\ ts_accountIndex request = EARN_VAULT_INDEX /\
  readMessage (map meta_pubkey tail) (ts_instructions request) = Some plains /\ executeAll (PK := demo_keys) l1 plains = Some l2 /\
  emptied (PK := demo_keys) l1 l2 demoVault ownerWallet held /\ vr_sweepLamports r = 900.
Proof.
  assert (Hs : checkSeen refundSeen = true) by (vm_compute; reflexivity). destruct refundSeen as [s|] eqn:Es; [|discriminate Hs].
  assert (Hseen : seenVault s).
  { unfold checkSeen in Hs. rewrite !andb_true_iff in Hs. destruct Hs as [[[S1 S2] S3] S4]. apply (bool_decide_eq_true_1 (_ = _)) in S1, S2, S4. apply Z.eqb_eq in S3. unfold seenVault. rewrite S1, S2, S3, S4. reflexivity. }
  destruct (seen_usdc s Hseen) as (Hheld & Husdc & Hlen). assert (Hv := f_equal (fun x => x.1.1.1) Hseen). assert (Hl := f_equal (fun x => x.1.2) Hseen). cbn [fst snd] in Hv, Hl.
  assert (H : is_ok refunded = true) by (vm_compute; reflexivity). destruct refunded as [r|] eqn:E; [|discriminate H].
  destruct (refund_empties_vault (PK := demo_keys) (TP := tokenPrograms) FullExitWitness.compareTexts demoProgram refundConnection 0 refundInput r vaultLedger s usdcMint)
    as (_ & opening & built & request & tail & plains & l1 & l2 & _ & H1 & _ & _ & _ & _ & H3 & _ & H4 & H5 & H6 & _ & H8 & _).
  - exact E.
  - reflexivity.
  - exact Es.
  - cbn [ledger tokenPrograms]. rewrite Hheld, Hv. exact vault_ledger.
  - cbn [ledger tokenPrograms]. rewrite Hheld, Hv. constructor; [repeat split|repeat constructor|repeat constructor].
  - rewrite Hv, Hl. vm_compute. reflexivity.
  - reflexivity.
  - exact Husdc.
  - rewrite Hlen. apply Nat.leb_le. reflexivity.
  - cbn [ledger tokenPrograms] in H6, H8. rewrite Hheld, Hv in H6. exists r, opening, request, tail, plains, l1, l2.
    assert (vr_sweepLamports r = 900) as H9 by (rewrite H8, Hv; vm_compute; reflexivity).
    exact (conj eq_refl (conj H1 (conj H3 (conj H4 (conj H5 (conj H6 H9)))))).
Defined.
End VaultCleanupWitness.
